(* ===== verification/_CoqProject ===== *)
-Q . S2P
Prelude.v
Errno.v
Dll.v
Pmm.v
PmmMeta.v
PmmInv.v
PmmSteps.v
PmmAlloc.v
PmmFree.v
PmmProps.v
PmmInit.v
PmmSpec.v
Frames.v
Paging.v
PagingProps.v
PagingSpec.v
Fork.v
ForkSpec.v
ForkDir.v
ForkSpaces.v
AddrSpaces.v
SpacesExit.v
SpacesWrite.v
SpacesSpec.v
Vmm.v
VmmList.v
VmmMap.v
VmmSegs.v
VmmOps.v
VmmSpec.v
LibTime.v
CMem.v
CString.v
CMemmem.v
Slab.v
SlabInv.v
SlabSpec.v
Kmalloc.v
KmallocSpec.v
KernelHeap.v
RingBuf.v
StrDict.v
Vfs.v
VfsSpec.v
Path.v
PathSpec.v
FileDesc.v
FileDescSpec.v
Sched.v
SchedSpec.v
Signals.v
SignalsSpec.v
Context.v
ContextSpec.v
Elf.v
ElfSpec.v
BrkSpec.v
Tasks.v
TasksSpec.v
TasksWait.v
TasksExit.v
TasksDemo.v
Strtol.v
Initrd.v
Stdio.v
StdioInt.v
StdioSpec.v
StdioText.v
BlockIo.v
Ext2.v
Ext2Alloc.v
Ext2Tree.v
Ext2Map.v
Ext2File.v
Ext2Write.v
Ext2Trunc.v
Ext2Dir.v
Ext2Names.v
Ext2Spec.v
Ext2Demo.v
