(* ===== verification/Prelude.v ===== *)
(** * A verification of the StOS kernel and its libraries

    StOS is a small operating system for i386.  This library models the parts of
    it that keep state in memory or on disk (physical frames, page tables,
    address spaces, virtual memory segments, the kernel heap, processes and
    their queues, signals, the file tree, file descriptors and the ext2 file
    system) and the libraries they use, and proves what each part promises.
    Names are those of the C sources.

    The parts build on each other: address spaces, the virtual memory manager,
    the ELF loader and the program break take frames from the physical memory
    manager; the kernel heap takes pages from the virtual memory manager;
    processes use the scheduler and the signals; descriptors use the file tree,
    whose drivers are a parameter there; the RAM disk instantiates it.

    ** Conventions

    - A C integer is a [Z] with its wrap-around written out ([u8], [u16], [u32],
      [i32], [i64] below).  Memory and arrays are total functions updated with
      [f.[i <- v]]; a struct is a record; a pointer is the address or the index
      of the object it refers to, and 0 (or [None]) is [NULL].
    - A function that changes state takes the state last and returns it.  A
      function that may reach [abort()] returns an [outcome] ([Done] or
      [Panic]).  In the file-system part [None] means that a freed or unknown
      object was used; the theorems show that it does not happen.
    - A loop that is not a counting loop has fuel.  Each such definition comes
      with a lemma that the fuel it is given by its caller is enough (for the
      buddy allocator the number of orders, for lists their length, for paths
      the length of the path and the depth of symbolic links), or with a theorem
      that no amount of fuel is enough where the C loop does not end.
    - Locks, [cli]/[sti] and debug output are left out: an operation is atomic.
      Interleavings are sequences of operations.

    ** Parts, files and theorems

    - Physical memory, [kernel/memory/pmm.c] and the memory map of
      [multiboot2.c]: [Dll] (the free lists), [Pmm] (the code), [PmmMeta] (bit
      fields), [PmmInv] (the invariant of the buddy allocator), [PmmSteps],
      [PmmAlloc], [PmmFree] (each operation preserves it), [PmmProps] (the
      effect of the calls), [PmmInit] (start up), [PmmSpec].  Every run of the
      allocator refines an abstract allocator of disjoint blocks; start up
      frees exactly the usable pages; freeing undoes allocating; the requests
      that abort, are clamped or do not end are characterised.
    - [Frames]: the interface ([frame_source]) between the physical memory
      manager and its clients.
    - Paging, [arch/i386/paging/paging.c]: [Paging] (the code), [PagingProps]
      and [PagingSpec].  Mapping and unmapping change the translation of one
      page only; a copy-on-write fault gives the page a private copy with the
      same contents.
    - Virtual memory, [kernel/memory/vmm.c]: [Vmm] (the code), [VmmList] (the
      segment list as an ordered list), [VmmMap] (mapping a range of pages),
      [VmmSegs], [VmmOps], [VmmSpec].  The segments stay sorted, disjoint and
      inside their region for every reachable state; an allocation returns
      fresh pages mapped to frames nobody else owns, or leaves the state as it
      was; freeing undoes it.
    - The kernel heap, [kernel/memory/slab.c] and [kmalloc.c]: [Slab],
      [SlabInv], [SlabSpec], [Kmalloc], [KmallocSpec], and [KernelHeap], which
      instantiates the heap's page source with the virtual memory manager.
      Live allocations are disjoint and keep their contents for every sequence
      of calls.
    - Address spaces, [paging.c] and [page_fault.c]: [Fork] (cloning and giving
      back a directory), [ForkSpec], [ForkDir], [ForkSpaces], [AddrSpaces] (the
      spaces of all processes with the reference counts of their pages),
      [SpacesExit], [SpacesWrite], [SpacesSpec].  Every sequence of forks,
      stores and exits refines separate memories, one for each process.
    - The scheduler, [kernel/task/scheduler.c]: [Sched], [SchedSpec].  Round
      robin order for a current task in any state, fairness over consecutive
      calls, the two ways a task can be lost, and moves between queues.
    - Processes, [kernel/task/task.c], [wait.c] and the system calls on
      processes: [Tasks] (the code), [TasksSpec] (the table of tasks is a map;
      fork), [TasksWait] (waiting), [TasksExit] (exit and orphans), [TasksDemo]
      (a concrete family of tasks).
    - Signals, [kernel/task/sighandler.c]: [Signals], [SignalsSpec].  Every
      branch of the delivery, and the round trip through a handler.
    - Kernel stacks, [task.c], [task_args.c] and the assembly stubs: [Context],
      [ContextSpec].  Context switch, the child of a fork, program arguments.
    - The ELF loader, [kernel/elf]: [Elf], [ElfSpec]; the program break,
      [syscall/brk.c] and [sbrk]: [BrkSpec].
    - Libraries: [LibTime] ([libtime]: calendar arithmetic), [CMem], [CString],
      [CMemmem] ([libc/src/string]), [RingBuf] and [StrDict] ([libds]),
      [Strtol] ([ctype.h], [strtol] and its relatives, equivalent to a reference
      on lists), [Stdio], [StdioInt], [StdioSpec], [StdioText] (the formatter
      behind [printf]: its text is the concatenation of the text of its
      conversions, whatever output it writes to, and [vsnprintf] stays within
      its buffer).
    - [Errno]: the error numbers.
    - The file system, [kernel/vfs/vfs.c], [path.c] and the file part of
      [kernel/task]: [Vfs], [VfsSpec] (reference counts of directory entries and
      file handles), [Path], [PathSpec] (path resolution), [FileDesc],
      [FileDescSpec] (descriptor tables and the system calls on them).  A
      file-system driver is a parameter, the class [FsCalls]; [FsLaws] is what
      the reference counts rely on, [FsLookup] the little that path resolution
      needs.  [Initrd] is the RAM disk ([kernel/vfs/initrd.c]): it loads a TAR
      image, gives the calls of a driver and obeys both.  In a kernel that has
      mounted it, no sequence of system calls of any number of tasks uses a
      freed handle or entry, except in the two cases that are shown; absolute
      paths resolve to the entry they were built for.  ext2 is modelled on its
      own, below, not as an instance: its operations open and close the device
      and so may enlarge the table of handles, which [FsLaws] excludes.
    - The ext2 file system, [kernel/vfs/mount/ext2]: [BlockIo] (programs of reads
      and writes of a device, run on an array of bytes), [Ext2] (the code),
      [Ext2Alloc] (the geometry of a volume, the invariant of its bookkeeping,
      allocating and freeing blocks), [Ext2Tree] (the tree of pointer blocks as
      paths), [Ext2Map] (it is a map of block numbers), [Ext2File] and
      [Ext2Write] (reading and writing), [Ext2Trunc] (truncating), [Ext2Dir]
      (records of a directory block), [Ext2Names] (adding and finding names),
      [Ext2Spec] (the theorems) and [Ext2Demo] (a small volume on which they
      apply, and what goes wrong).  A handle refines a list of bytes; what is
      written is read after the file is opened again; truncating gives back
      just the blocks of the file; a name that is added is found.  The loop of
      [ext2_add_inode_to_dir] has fuel, of which one more than the number of
      blocks of the directory is enough.

    ** Not modelled

    - Code that only talks to a device (ATA, PS/2, keyboard controller, PIT,
      RTC, VGA, ACPI, serial), the boot code, GDT, IDT and PIC set-up and the
      assembly stubs: their behaviour is that of the hardware.
    - The terminal, the debugger, the user programs and the tests: they have no
      contract beyond their output.
    - The disk cache and the queues of devices under the file systems, pipes, and
      the proc and iso9660 file systems: the cache and the queues wait for
      interrupts of the hardware, and ext2 and the RAM disk stand for the file
      systems.
    - Of the C library: streams, the allocator of user programs, sorting, option
      parsing and the wrappers of single system calls.
    - The TLB: the code flushes it after each change. *)

From Stdlib Require Import ZArith Lia Bool.
From stdpp Require Import base tactics numbers list sets gmap.
#[global] Set Warnings "-notation-overridden,-notation-incompatible-prefix".

Declare Scope stos_scope.
Delimit Scope stos_scope with stos.
Open Scope Z_scope.

(** ** Machine integers

    A C integer of width [w] is a [Z]; the conversions write the wrap-around
    out.  The target is i386: [size_t], [uintptr_t] and [unsigned long] are 32
    bits wide, [int] and [long] are 32-bit two's complement. *)

Definition u8 (z : Z) : Z := z mod 2 ^ 8.
Definition u16 (z : Z) : Z := z mod 2 ^ 16.
Definition u32 (z : Z) : Z := z mod 2 ^ 32.
Definition i32 (z : Z) : Z := (z + 2 ^ 31) mod 2 ^ 32 - 2 ^ 31.
Definition i64 (z : Z) : Z := (z + 2 ^ 63) mod 2 ^ 64 - 2 ^ 63.

Definition is_u8 (z : Z) : Prop := 0 <= z < 2 ^ 8.
Definition is_u16 (z : Z) : Prop := 0 <= z < 2 ^ 16.
Definition is_u32 (z : Z) : Prop := 0 <= z < 2 ^ 32.
Definition is_i32 (z : Z) : Prop := - 2 ^ 31 <= z < 2 ^ 31.
Definition is_i64 (z : Z) : Prop := - 2 ^ 63 <= z < 2 ^ 63.

Create HintDb stos.
Create Rewrite HintDb store.

Lemma u8_small (z : Z) : 0 <= z < 256 -> u8 z = z.
Proof. intros H. apply Z.mod_small. exact H. Qed.

Lemma u16_small (z : Z) : 0 <= z < 65536 -> u16 z = z.
Proof. intros H. apply Z.mod_small. exact H. Qed.

Lemma u32_small (z : Z) : 0 <= z < 4294967296 -> u32 z = z.
Proof. intros H. apply Z.mod_small. exact H. Qed.

Lemma i32_small (z : Z) : -2147483648 <= z < 2147483648 -> i32 z = z.
Proof. intros H. unfold i32. rewrite Z.mod_small; lia. Qed.

Lemma i64_small (z : Z) :
  -9223372036854775808 <= z < 9223372036854775808 -> i64 z = z.
Proof. intros H. unfold i64. rewrite Z.mod_small; lia. Qed.

Lemma u8_range (z : Z) : 0 <= u8 z < 256.
Proof. apply (Z.mod_pos_bound z (2 ^ 8)). lia. Qed.

Lemma u16_range (z : Z) : 0 <= u16 z < 65536.
Proof. apply (Z.mod_pos_bound z (2 ^ 16)). lia. Qed.

Lemma u32_range (z : Z) : 0 <= u32 z < 4294967296.
Proof. apply (Z.mod_pos_bound z (2 ^ 32)). lia. Qed.

(** Clearing the low [k] bits of a word rounds it down to a multiple of [2 ^ k]. *)
Lemma land_mask (k x : Z) :
  0 <= k <= 32 -> 0 <= x < 4294967296 -> Z.land x (u32 (Z.lnot (2 ^ k - 1))) = 2 ^ k * (x / 2 ^ k).
Proof.
  intros Hk Hx. assert (E : Z.land x (u32 (Z.lnot (2 ^ k - 1))) = Z.ldiff (Z.land x (Z.ones 32)) (Z.ones k)).
  { unfold u32. rewrite <- Z.land_ones by lia. replace (2 ^ k - 1) with (Z.ones k) by (rewrite Z.ones_equiv; lia).
    apply Z.bits_inj'. intros n Hn. rewrite Z.ldiff_spec, !Z.land_spec, Z.lnot_spec by done.
    destruct (Z.testbit x n), (Z.testbit (Z.ones k) n), (Z.testbit (Z.ones 32) n); reflexivity. }
  rewrite E, Z.land_ones, Z.mod_small, Z.ldiff_ones_r by lia.
  rewrite Z.shiftl_mul_pow2, Z.shiftr_div_pow2 by lia. lia.
Qed.

Lemma i32_range (z : Z) : -2147483648 <= i32 z < 2147483648.
Proof.
  unfold i32. pose proof (Z.mod_pos_bound (z + 2 ^ 31) (2 ^ 32)). lia.
Qed.

#[export] Hint Resolve u8_range u16_range u32_range i32_range : stos.

(** [wrap_small] removes the conversions whose argument is in range. *)
Ltac wrap_small :=
  repeat first
    [ rewrite u8_small by lia | rewrite u16_small by lia
    | rewrite u32_small by lia | rewrite i32_small by lia
    | rewrite i64_small by lia ].

(** Linear arithmetic with divisions and remainders by constants. *)
Ltac dlia := Z.to_euclidean_division_equations; lia.

(** [zbool] turns the comparisons the code computes into propositions. *)
Ltac zbool :=
  repeat match goal with
  | H : context [Z.ltb ?a ?b] |- _ => destruct (Z.ltb_spec a b)
  | H : context [Z.leb ?a ?b] |- _ => destruct (Z.leb_spec a b)
  | H : context [Z.eqb ?a ?b] |- _ => destruct (Z.eqb_spec a b)
  | |- context [Z.ltb ?a ?b] => destruct (Z.ltb_spec a b)
  | |- context [Z.leb ?a ?b] => destruct (Z.leb_spec a b)
  | |- context [Z.eqb ?a ?b] => destruct (Z.eqb_spec a b)
  end.

(** [by_vm] evaluates a closed decidable goal, without looking at the context. *)
Ltac by_vm := vm_compute; repeat split; first [reflexivity | intro; discriminate | discriminate].

(** ** Stores

    An array, or a memory of structures, is a total function from indices
    (addresses) to contents: reading past the end of an array reads whatever is
    there.  Properties that bound the indices an operation writes are stated
    where a component has them. *)

Definition upd {A : Type} (f : Z -> A) (i : Z) (v : A) : Z -> A :=
  fun j => if j =? i then v else f j.

Notation "f .[ i <- v ]" := (upd f i v)
  (at level 1, i at level 200, v at level 200, left associativity,
   format "f .[ i  <-  v ]") : stos_scope.
Open Scope stos_scope.

Lemma upd_eq {A} (f : Z -> A) i v : f.[i <- v] i = v.
Proof. unfold upd. by rewrite Z.eqb_refl. Qed.

Lemma upd_ne {A} (f : Z -> A) i j v : j <> i -> f.[i <- v] j = f j.
Proof. intros H. unfold upd. by destruct (Z.eqb_spec j i). Qed.

Lemma upd_cases {A} (f : Z -> A) i j v :
  f.[i <- v] j = if decide (j = i) then v else f j.
Proof. unfold upd. by destruct (Z.eqb_spec j i), (decide (j = i)). Qed.

#[export] Hint Rewrite @upd_eq : store.
#[export] Hint Rewrite @upd_ne using (congruence || lia) : store.

(** [upds] decides the reads of updated stores in the goal. *)
Ltac upds := repeat rewrite upd_cases in *; repeat case_decide; simplify_eq.

(** ** Counted loops: [for (i = 0; i < n; i++) s = body(i, s);] *)

Fixpoint for_from {S : Type} (n : nat) (i : Z) (body : Z -> S -> S) (s : S) : S :=
  match n with
  | O => s
  | Datatypes.S n => for_from n (i + 1) body (body i s)
  end.

Definition for_loop {S : Type} (n : Z) (body : Z -> S -> S) (s : S) : S :=
  for_from (Z.to_nat n) 0 body s.

Lemma for_from_ind {S : Type} (P : Z -> S -> Prop) (body : Z -> S -> S) n i s :
  P i s ->
  (forall j s, i <= j < i + Z.of_nat n -> P j s -> P (j + 1) (body j s)) ->
  P (i + Z.of_nat n) (for_from n i body s).
Proof.
  revert i s. induction n as [|n IH]; intros i s H0 Hs; cbn [for_from].
  - by replace (i + Z.of_nat 0) with i by lia.
  - replace (i + Z.of_nat (Datatypes.S n)) with (i + 1 + Z.of_nat n) by lia.
    apply IH; [apply Hs; [lia | done]|].
    intros j t Hj. apply Hs. lia.
Qed.

Lemma for_loop_ind {S : Type} (P : Z -> S -> Prop) (n : Z) (body : Z -> S -> S) s :
  0 <= n ->
  P 0 s ->
  (forall j s, 0 <= j < n -> P j s -> P (j + 1) (body j s)) ->
  P n (for_loop n body s).
Proof.
  intros Hn H0 Hs. unfold for_loop.
  pose proof (for_from_ind P body (Z.to_nat n) 0 s H0) as H.
  rewrite Z2Nat.id in H by lia. apply H. intros. apply Hs; [lia | done].
Qed.

(** A loop that scans [0 <= i < n] for the first index with [p i]. *)
Fixpoint find_from (n : nat) (i : Z) (p : Z -> bool) : option Z :=
  match n with
  | O => None
  | Datatypes.S n => if p i then Some i else find_from n (i + 1) p
  end.

Lemma find_from_Some n i p j :
  find_from n i p = Some j <->
  i <= j < i + Z.of_nat n /\ p j = true /\ (forall k, i <= k < j -> p k = false).
Proof.
  revert i. induction n as [|n IH]; intros i; cbn [find_from].
  - split; [done|]. lia.
  - destruct (p i) eqn:Hp.
    + split.
      * intros [= <-]. repeat split; [lia | lia | done | lia].
      * intros (Hj & Hpj & Hk). f_equal.
        destruct (decide (i = j)); [done|].
        rewrite Hk in Hp by lia. done.
    + rewrite IH. split; intros (Hj & Hpj & Hk).
      * repeat split; [lia | lia | done |]. intros k ?.
        destruct (decide (k = i)); [by subst | apply Hk; lia].
      * assert (i <> j) by congruence.
        repeat split; [lia | lia | done |]. intros k ?. apply Hk. lia.
Qed.

Lemma find_from_None n i p :
  find_from n i p = None <-> forall k, i <= k < i + Z.of_nat n -> p k = false.
Proof.
  revert i. induction n as [|n IH]; intros i; cbn [find_from].
  - split; [lia | done].
  - destruct (p i) eqn:Hp.
    + split; [done|]. intros H. rewrite H in Hp by lia. done.
    + rewrite IH. split; intros H k ?.
      * destruct (decide (k = i)); [by subst | apply H; lia].
      * apply H. lia.
Qed.

(** ** Bits *)

Lemma land_pow2_nonzero (w b : Z) :
  0 <= b -> negb (Z.land w (2 ^ b) =? 0) = Z.testbit w b.
Proof.
  intros Hb. destruct (Z.testbit w b) eqn:E.
  - apply negb_true_iff, Z.eqb_neq. intros H.
    assert (Z.testbit (Z.land w (2 ^ b)) b = false) as H0.
    { rewrite H. apply Z.bits_0. }
    rewrite Z.land_spec, E, Z.pow2_bits_true in H0 by done. done.
  - apply negb_false_iff, Z.eqb_eq, Z.bits_inj'. intros n Hn.
    rewrite Z.land_spec, Z.bits_0, Z.pow2_bits_eqb by done.
    destruct (Z.eqb_spec b n); [subst; by rewrite E | apply andb_false_r].
Qed.

Lemma u32_bits (z n : Z) : 0 <= n -> Z.testbit (u32 z) n = (n <? 32) && Z.testbit z n.
Proof.
  intros Hn. unfold u32. destruct (Z.ltb_spec n 32).
  - by rewrite Z.mod_pow2_bits_low by lia.
  - rewrite Z.mod_pow2_bits_high by lia. done.
Qed.

(** Alignment of [a] to a power of two, as the low bits being clear. *)
Lemma land_ones_mod (a k : Z) : 0 <= k -> Z.land a (2 ^ k - 1) = a mod 2 ^ k.
Proof.
  intros. rewrite <- Z.land_ones by done. f_equal.
  rewrite Z.ones_equiv. lia.
Qed.

(** ** Outcomes

    [abort()] stops the kernel for good: a function that may reach it returns an
    [outcome]. *)

Inductive outcome (A : Type) : Type :=
| Done (a : A)
| Panic.
Arguments Done {A} a.
Arguments Panic {A}.

(** [for (i = first; i < first + n; i++)] with a body that may abort. *)
Fixpoint for_outcome {S : Type} (n : nat) (i : Z) (body : Z -> S -> outcome S) (s : S) : outcome S :=
  match n with
  | O => Done s
  | Datatypes.S n =>
      match body i s with
      | Panic => Panic
      | Done s => for_outcome n (i + 1) body s
      end
  end.

Lemma for_outcome_ind {S : Type} (P : Z -> S -> Prop) (Q : Prop) (body : Z -> S -> outcome S) n i s :
  P i s ->
  (forall j s, i <= j < i + Z.of_nat n -> P j s ->
     match body j s with Done s' => P (j + 1) s' | Panic => Q end) ->
  match for_outcome n i body s with Done s' => P (i + Z.of_nat n) s' | Panic => Q end.
Proof.
  revert i s. induction n as [|n IH]; intros i s H0 Hs; cbn [for_outcome].
  - by replace (i + Z.of_nat 0) with i by lia.
  - pose proof (Hs i s ltac:(lia) H0) as H1. destruct (body i s) as [s'|]; [|done].
    replace (i + Z.of_nat (Datatypes.S n)) with (i + 1 + Z.of_nat n) by lia.
    apply IH; [done|]. intros j t Hj. apply Hs. lia.
Qed.

(** ** Counting *)

(** The number of [0 <= i < n] with [p i]. *)
Fixpoint count_below (n : nat) (p : Z -> bool) : Z :=
  match n with
  | O => 0
  | S n => count_below n p + (if p (Z.of_nat n) then 1 else 0)
  end.

Lemma count_below_ext n p p' :
  (forall i, 0 <= i < Z.of_nat n -> p i = p' i) -> count_below n p = count_below n p'.
Proof.
  induction n as [|n IH]; intros E; cbn [count_below]; [done|].
  rewrite IH by (intros; apply E; lia). by rewrite E by lia.
Qed.

Lemma count_below_bound n p : 0 <= count_below n p <= Z.of_nat n.
Proof. induction n as [|n IH]; cbn [count_below]; [lia|]. destruct (p _); lia. Qed.

(** Adding the interval [a, a + k) to a predicate it is disjoint from. *)
Lemma count_below_add n p p' a k :
  0 <= a -> 0 <= k -> a + k <= Z.of_nat n ->
  (forall i, a <= i < a + k -> p i = false /\ p' i = true) ->
  (forall i, 0 <= i < Z.of_nat n -> ~ a <= i < a + k -> p' i = p i) ->
  count_below n p' = count_below n p + k.
Proof.
  revert k. induction n as [|n IH]; intros k Ha Hk Hn Hin Hout; cbn [count_below]; [lia|].
  destruct (decide (k = 0)) as [->|Hk0].
  { rewrite (count_below_ext n p' p) by (intros; apply Hout; lia).
    rewrite Hout by lia. lia. }
  destruct (decide (a + k = Z.of_nat (S n))) as [E|E].
  - destruct (Hin (Z.of_nat n) ltac:(lia)) as [-> ->].
    rewrite (IH (k - 1)); [lia|lia|lia|lia| |].
    + intros i Hi. apply Hin. lia.
    + intros i Hi1 Hi2. apply Hout; lia.
  - rewrite (Hout (Z.of_nat n)) by lia. rewrite (IH k); [lia|lia|lia|lia|exact Hin|].
    intros i Hi1 Hi2. apply Hout; lia.
Qed.
