(* ===== verification/Errno.v ===== *)
(** The error numbers of [src/libc/include/errno.h], an enumeration that starts at 0. *)

From Stdlib Require Import ZArith.
Open Scope Z_scope.

Definition EACCES : Z := 0.
Definition EBADF : Z := 1.
Definition ECHILD : Z := 2.
Definition EEXIST : Z := 3.
Definition EFAULT : Z := 4.
Definition EINVAL : Z := 5.
Definition EIO : Z := 6.
Definition EINTR : Z := 7.
Definition EISDIR : Z := 8.
Definition ELOOP : Z := 9.
Definition ENOENT : Z := 10.
Definition ENOEXEC : Z := 11.
Definition ENOMEM : Z := 12.
Definition ENOTDIR : Z := 13.
Definition ENOTSUP : Z := 14.
Definition ENOTTY : Z := 15.
Definition EPIPE : Z := 16.
Definition ESRCH : Z := 17.
