(* ===== verification/Dll.v ===== *)
(** Doubly linked lists in a store.

    The kernel threads its free blocks, slabs, virtual memory regions and tasks
    on intrusive doubly linked lists: each structure carries a [next] and a
    [prev] address, 0 ending the list.  [Linked] is the interface such a
    structure offers, [dlist st hd l] says that the list headed by [hd] in the
    store [st] is exactly [l], and the three lemmas [dlist_insert],
    [dlist_remove] and [dlist_frame] are what the components use: they constrain
    the final links only, so that each component can follow its own order of
    pointer writes. *)

From S2P Require Import Prelude.
From Stdlib Require Import ZArith Lia Bool.
From stdpp Require Import base tactics numbers list sets gmap.
Open Scope Z_scope.

Class Linked (N : Type) := {
  lnext : N -> Z;
  lprev : N -> Z;
  set_lnext : Z -> N -> N;
  set_lprev : Z -> N -> N;
  lnext_set_lnext v n : lnext (set_lnext v n) = v;
  lprev_set_lnext v n : lprev (set_lnext v n) = lprev n;
  lnext_set_lprev v n : lnext (set_lprev v n) = lnext n;
  lprev_set_lprev v n : lprev (set_lprev v n) = v }.

#[export] Hint Rewrite @lnext_set_lnext @lprev_set_lnext
  @lnext_set_lprev @lprev_set_lprev : store.

Definition last_or (d : Z) (l : list Z) : Z := default d (last l).
Definition head_or (d : Z) (l : list Z) : Z := default d (head l).

Lemma last_or_snoc d l x : last_or d (l ++ [x]) = x.
Proof. unfold last_or. by rewrite last_snoc. Qed.

Lemma last_or_cons d x l : last_or d (x :: l) = last_or x l.
Proof.
  destruct l as [|y l'] using rev_ind; [done|].
  change (x :: l' ++ [y]) with ((x :: l') ++ [y]). by rewrite !last_or_snoc.
Qed.

Lemma last_or_elem d l : l <> [] -> last_or d l ∈ l.
Proof.
  destruct l as [|y l'] using rev_ind; [done|]. intros _.
  rewrite last_or_snoc. set_solver.
Qed.

(** Elements of disjoint lists differ, 0 standing for a missing element. *)
Lemma last_or_sep (l1 l2 : list Z) z :
  (forall x, x ∈ l1 -> x ∉ l2) -> z ∈ l2 -> z <> 0 -> z <> last_or 0 l1.
Proof.
  intros Hd Hz Hne ->. destruct l1 as [|y l1]; [done|].
  eapply Hd; [by apply last_or_elem | done].
Qed.

Lemma head_or_sep (l1 l2 : list Z) z :
  (forall x, x ∈ l1 -> x ∉ l2) -> z ∈ l1 -> z <> 0 -> z <> head_or 0 l2.
Proof.
  intros Hd Hz Hne ->. destruct l2 as [|y l2]; [done|]. eapply Hd; [done|]. cbn. set_solver.
Qed.

Lemma head_or_elem d l : l <> [] -> head_or d l ∈ l.
Proof. destruct l; [done|]. intros _. cbn. set_solver. Qed.

Section Dll.
Context {N : Type} `{!Linked N}.
Implicit Types (st : Z -> N) (l : list Z).

(** [dseg st pv p l q]: starting at [p], the cells [l] follow one another and
    the last one points to [q]; the first one points back to [pv]. *)
Fixpoint dseg st (pv p : Z) l (q : Z) : Prop :=
  match l with
  | [] => p = q
  | x :: l' =>
      p = x /\ x <> 0 /\ lprev (st x) = pv /\ dseg st x (lnext (st x)) l' q
  end.

Definition dlist st (hd : Z) l : Prop := dseg st 0 hd l 0 /\ NoDup l.

(** Reading a list of at most [fuel] cells from its head, as the loops do. *)
Fixpoint walk (fuel : nat) st (p : Z) : list Z :=
  match fuel with
  | O => []
  | S fuel => if p =? 0 then [] else p :: walk fuel st (lnext (st p))
  end.

Lemma dseg_app st pv p l1 l2 q :
  dseg st pv p (l1 ++ l2) q <->
  exists m, dseg st pv p l1 m /\ dseg st (last_or pv l1) m l2 q.
Proof.
  revert pv p. induction l1 as [|x l1 IH]; intros pv p; cbn [app dseg].
  - split; [by exists p|]. by intros (m & -> & ?).
  - rewrite last_or_cons. setoid_rewrite IH. naive_solver.
Qed.

Lemma dseg_nonzero st pv p l q x : dseg st pv p l q -> x ∈ l -> x <> 0.
Proof.
  revert pv p. induction l as [|y l IH]; intros pv p H Hx; [set_solver|].
  destruct H as (-> & Hy & _ & H). apply elem_of_cons in Hx as [->|]; eauto.
Qed.

Lemma dseg_head st pv p l q : dseg st pv p l q -> p = head_or q l.
Proof. destruct l; cbn; naive_solver. Qed.

Lemma dseg_frame st st' pv p l q :
  (forall x, x ∈ l -> lnext (st' x) = lnext (st x) /\ lprev (st' x) = lprev (st x)) ->
  dseg st pv p l q -> dseg st' pv p l q.
Proof.
  revert pv p. induction l as [|x l IH]; intros pv p Hf H; [done|].
  destruct H as (-> & Hx & <- & H). destruct (Hf x) as [Hn Hp]; [set_solver|].
  cbn [dseg]. rewrite Hn. repeat split; [done..|]. apply IH; [|done]. set_solver.
Qed.

(** The same with the address the last cell points to changed. *)
Lemma dseg_retarget st st' pv p l q q' :
  NoDup l -> last_or 0 l <> 0 \/ p = q' ->
  (forall x, x ∈ l -> lprev (st' x) = lprev (st x) /\
     lnext (st' x) = if decide (x = last_or 0 l) then q' else lnext (st x)) ->
  dseg st pv p l q -> dseg st' pv p l q'.
Proof.
  destruct l as [|y l _] using rev_ind; intros Hnd Hne Hf H.
  { cbn in *. destruct Hne as [Hne|]; [|done]. done. }
  rewrite last_or_snoc in Hf. apply NoDup_app in Hnd as (_ & Hnd & _).
  apply dseg_app in H as (m & H1 & -> & Hy & Hp & _).
  apply dseg_app. exists y. split.
  - eapply dseg_frame; [|done]. intros x Hx.
    destruct (Hf x) as [-> ->]; [set_solver|]. rewrite decide_False; [done|].
    intros ->. set_solver.
  - destruct (Hf y) as [Hp' Hn']; [set_solver|]. cbn.
    rewrite Hp', Hn', decide_True by done. done.
Qed.

Lemma dlist_nil st : dlist st 0 [].
Proof. split; [done | constructor]. Qed.

Lemma dlist_nil_inv st hd : dlist st hd [] -> hd = 0.
Proof. by intros [H _]. Qed.

Lemma dlist_zero st l : dlist st 0 l -> l = [].
Proof. intros [H _]. destruct l; [done|]. cbn in H. naive_solver. Qed.

Lemma dlist_cons_inv st hd l :
  hd <> 0 -> dlist st hd l -> exists l', l = hd :: l'.
Proof. intros Hne [H _]. destruct l; cbn in H; naive_solver. Qed.

Lemma dlist_nonzero st hd l x : dlist st hd l -> x ∈ l -> x <> 0.
Proof. intros [H _]. by eapply dseg_nonzero. Qed.

Lemma dlist_NoDup st hd l : dlist st hd l -> NoDup l.
Proof. by intros [_ ?]. Qed.

Lemma dlist_head st hd l : dlist st hd l -> hd = head_or 0 l.
Proof. intros [H _]. by eapply dseg_head. Qed.

Lemma dlist_frame st st' hd l :
  (forall x, x ∈ l -> lnext (st' x) = lnext (st x) /\ lprev (st' x) = lprev (st x)) ->
  dlist st hd l -> dlist st' hd l.
Proof. intros Hf [H ?]. split; [by eapply dseg_frame | done]. Qed.

(** The links of a cell in the middle of a list. *)
Lemma dlist_links st hd l1 a l2 :
  dlist st hd (l1 ++ a :: l2) ->
  lprev (st a) = last_or 0 l1 /\ lnext (st a) = head_or 0 l2 /\ a <> 0 /\
  a ∉ l1 /\ a ∉ l2 /\ NoDup (l1 ++ l2).
Proof.
  intros [H Hnd]. apply dseg_app in H as (m & H1 & H2).
  destruct H2 as (-> & Ha & Hp & H2).
  apply NoDup_app in Hnd as (Hn1 & Hd & Hn2). apply NoDup_cons in Hn2 as [??].
  repeat split; try done.
  - by eapply dseg_head.
  - intros ?. eapply Hd; [done|]. set_solver.
  - apply NoDup_app. repeat split; [done| |done]. set_solver.
Qed.

Lemma dlist_insert st st' hd l1 l2 a :
  dlist st hd (l1 ++ l2) ->
  a <> 0 -> a ∉ l1 ++ l2 ->
  lprev (st' a) = last_or 0 l1 -> lnext (st' a) = head_or 0 l2 ->
  (forall x, x ∈ l1 ++ l2 ->
     lnext (st' x) = (if decide (x = last_or 0 l1) then a else lnext (st x)) /\
     lprev (st' x) = (if decide (x = head_or 0 l2) then a else lprev (st x))) ->
  dlist st' (if decide (l1 = []) then a else hd) (l1 ++ a :: l2).
Proof.
  intros [H Hnd] Ha Hnot Hp Hn Hf.
  apply NoDup_app in Hnd as Hnd'. destruct Hnd' as (Hn1 & Hd & Hn2).
  assert (Hz : forall x, x ∈ l1 ++ l2 -> x <> 0)
    by (intros; by eapply dseg_nonzero).
  apply dseg_app in H as (m & H1 & H2). split.
  2: { apply NoDup_app. repeat split; [done|set_solver|].
       apply NoDup_cons. set_solver. }
  assert (Hseg2 : dseg st' a (head_or 0 l2) l2 0).
  { destruct l2 as [|z l2]; [done|]. destruct H2 as (-> & Hz2 & _ & H2).
    destruct (Hf z) as [Hzn Hzp]; [set_solver|].
    assert (z <> last_or 0 l1) by (eapply last_or_sep; [done|set_solver|done]).
    rewrite decide_False in Hzn by done. rewrite decide_True in Hzp by done.
    cbn. rewrite Hzn. repeat split; [done..|].
    apply NoDup_cons in Hn2 as [Hzl Hn2].
    eapply dseg_frame; [|done]. intros x Hx.
    destruct (Hf x) as [-> ->]; [set_solver|]. rewrite !decide_False; [done| |].
    - intros ->. set_solver.
    - eapply last_or_sep; [done|set_solver|]. apply Hz. set_solver. }
  apply dseg_app. exists a. split.
  2: { cbn. rewrite Hn. done. }
  case_decide as Hl1; [by subst|].
  eapply dseg_retarget; [done| | |done].
  - left. apply Hz. apply elem_of_app. left. by apply last_or_elem.
  - intros x Hx. destruct (Hf x) as [-> ->]; [set_solver|].
    split; [|done]. rewrite decide_False; [done|].
    eapply head_or_sep; [done..|]. apply Hz. set_solver.
Qed.

Lemma dlist_remove st st' hd l1 a l2 :
  dlist st hd (l1 ++ a :: l2) ->
  (forall x, x ∈ l1 ++ l2 ->
     lnext (st' x) = (if decide (x = lprev (st a)) then lnext (st a) else lnext (st x)) /\
     lprev (st' x) = (if decide (x = lnext (st a)) then lprev (st a) else lprev (st x))) ->
  dlist st' (if decide (lprev (st a) = 0) then lnext (st a) else hd) (l1 ++ l2).
Proof.
  intros Hl Hf. destruct (dlist_links _ _ _ _ _ Hl) as (Hp & Hn & Ha & _ & _ & Hnd).
  destruct Hl as [H _]. split; [|done].
  assert (Hz : forall x, x ∈ l1 ++ a :: l2 -> x <> 0)
    by (intros; by eapply dseg_nonzero).
  apply dseg_app in H as (m & H1 & -> & _ & _ & H2).
  apply NoDup_app in Hnd as (Hn1 & Hd & Hn2). rewrite Hp, Hn in *.
  assert (Hseg2 : dseg st' (last_or 0 l1) (head_or 0 l2) l2 0).
  { destruct l2 as [|z l2]; [done|]. cbn in Hf, H2 |- *. destruct H2 as (_ & Hz2 & _ & H2).
    destruct (Hf z) as [Hzn Hzp]; [set_solver|].
    assert (Hzl : z <> last_or 0 l1) by (eapply last_or_sep; [done|set_solver|done]).
    rewrite decide_False in Hzn by done. rewrite decide_True in Hzp by done.
    rewrite Hzn. repeat split; [done..|].
    apply NoDup_cons in Hn2 as [Hzl' Hn2].
    eapply dseg_frame; [|done]. intros x Hx.
    destruct (Hf x) as [-> ->]; [set_solver|]. rewrite !decide_False; [done| |].
    - intros ->. set_solver.
    - eapply last_or_sep; [done|set_solver|]. apply Hz. set_solver. }
  apply dseg_app. exists (head_or 0 l2). split; [|done].
  destruct l1 as [|y l1'] eqn:E; [by cbn|].
  assert (Hlne : last_or 0 l1 <> 0).
  { subst. apply Hz. apply elem_of_app. left. by apply last_or_elem. }
  rewrite <- E in *. rewrite decide_False by done.
  eapply dseg_retarget; [done|by left| |done].
  intros x Hx. destruct (Hf x) as [-> ->]; [set_solver|].
  split; [|done]. rewrite decide_False; [done|].
  eapply head_or_sep; [done..|]. apply Hz. set_solver.
Qed.

Lemma walk_dseg st pv p l fuel :
  dseg st pv p l 0 -> (length l < fuel)%nat -> walk fuel st p = l.
Proof.
  revert pv p fuel. induction l as [|x l IH]; intros pv p fuel H Hfuel;
    (destruct fuel as [|fuel]; [cbn in Hfuel; lia|]); cbn [walk].
  - cbn in H. by subst.
  - destruct H as (-> & Hx & _ & H). destruct (Z.eqb_spec x 0); [done|].
    f_equal. eapply IH; [done|]. cbn in Hfuel. lia.
Qed.

(** A walk that ends before the fuel does has seen the whole list. *)
Lemma walk_dseg_complete st pv p l fuel :
  dseg st pv p l 0 -> (length (walk fuel st p) < fuel)%nat -> walk fuel st p = l.
Proof.
  revert pv p l. induction fuel as [|fuel IH]; intros pv p l H Hlen; cbn [walk] in *; [lia|].
  destruct l as [|x l].
  - cbn in H. by subst.
  - destruct H as (-> & Hx & _ & H). destruct (Z.eqb_spec x 0); [done|].
    f_equal. eapply IH; [done|]. cbn in Hlen. lia.
Qed.

Lemma walk_dlist st hd l fuel :
  dlist st hd l -> (length l < fuel)%nat -> walk fuel st hd = l.
Proof. intros [H _]. by apply walk_dseg with (pv := 0). Qed.
End Dll.
