(* ===== verification/Pmm.v ===== *)
(** The physical memory manager: a model of
    [src/kernel/kernel/memory/pmm.c] and of the inline helpers of
    [src/kernel/include/kernel/memory/pmm.h].

    The state is the file's statics: the free-list heads, the packed order map
    (4 bits per page), the packed status map (1 bit per page), the reference
    counts, the statistics, and the headers ([buddy_block_t]) that free blocks
    carry in their first bytes, indexed by physical address.  Every public
    function takes [pmm_lock] with interrupts off for its whole body, so each one
    is a single step of the model. *)

From S2P Require Import Prelude Dll.
From Stdlib Require Import ZArith Lia Bool.
From stdpp Require Import base tactics numbers list sets gmap.
Open Scope Z_scope.

Definition PMM_PAGE_SIZE : Z := 4096.
Definition PMM_RESERVED_AREA : Z := 0x100000.
Definition BUDDY_MAX_ORDER : Z := 10.
Definition UINT16_MAX : Z := 65535.

(** ** Address helpers *)

Definition pmm_is_aligned (addr : Z) : bool :=
  Z.land addr (PMM_PAGE_SIZE - 1) =? 0.

Definition pmm_align_up (addr : Z) : Z :=
  Z.land (u32 (addr + PMM_PAGE_SIZE - 1)) (u32 (Z.lnot (PMM_PAGE_SIZE - 1))).

Definition pmm_align_down (addr : Z) : Z :=
  Z.land addr (u32 (Z.lnot (PMM_PAGE_SIZE - 1))).

Definition pmm_addr_to_page (addr : Z) : Z := addr / PMM_PAGE_SIZE.
Definition pmm_page_to_addr (page : Z) : Z := u32 (page * PMM_PAGE_SIZE).

(** The virtual address through which the header of a physical block is
    reached: the identity before paging, the window at 3 GiB afterwards. *)
Definition pmm_access_block (pmm_paging_enabled : bool) (phys_addr : Z) : Z :=
  if pmm_paging_enabled then u32 (phys_addr + 0xC0000000) else phys_addr.

(** ** State *)

Record buddy_block := mk_block { next : Z; prev : Z }.

#[export] Instance buddy_block_linked : Linked buddy_block := {
  lnext := next;
  lprev := prev;
  set_lnext v b := mk_block v (prev b);
  set_lprev v b := mk_block (next b) v;
  lnext_set_lnext _ _ := eq_refl;
  lprev_set_lnext _ _ := eq_refl;
  lnext_set_lprev _ _ := eq_refl;
  lprev_set_lprev _ _ := eq_refl }.

Record pmm := mk_pmm {
  paging_enabled : bool;
  total_pages : Z;
  used_pages : Z;
  free_lists : Z -> Z;        (* buddy_free_lists[order], physical addresses *)
  alloc_count : Z -> Z;       (* buddy_alloc_count[order] *)
  order_map : Z -> Z;         (* words of buddy_order_map *)
  status_map : Z -> Z;        (* words of buddy_status_map *)
  refcount_map : Z -> Z;      (* buddy_refcount_map[page] *)
  blocks : Z -> buddy_block   (* headers of free blocks, by physical address *) }.

Definition set_paging_enabled v s :=
  mk_pmm v (total_pages s) (used_pages s) (free_lists s) (alloc_count s)
    (order_map s) (status_map s) (refcount_map s) (blocks s).
Definition set_total_pages v s :=
  mk_pmm (paging_enabled s) v (used_pages s) (free_lists s) (alloc_count s)
    (order_map s) (status_map s) (refcount_map s) (blocks s).
Definition set_used_pages v s :=
  mk_pmm (paging_enabled s) (total_pages s) v (free_lists s) (alloc_count s)
    (order_map s) (status_map s) (refcount_map s) (blocks s).
Definition set_free_lists v s :=
  mk_pmm (paging_enabled s) (total_pages s) (used_pages s) v (alloc_count s)
    (order_map s) (status_map s) (refcount_map s) (blocks s).
Definition set_alloc_count v s :=
  mk_pmm (paging_enabled s) (total_pages s) (used_pages s) (free_lists s) v
    (order_map s) (status_map s) (refcount_map s) (blocks s).
Definition set_order_map v s :=
  mk_pmm (paging_enabled s) (total_pages s) (used_pages s) (free_lists s)
    (alloc_count s) v (status_map s) (refcount_map s) (blocks s).
Definition set_status_map v s :=
  mk_pmm (paging_enabled s) (total_pages s) (used_pages s) (free_lists s)
    (alloc_count s) (order_map s) v (refcount_map s) (blocks s).
Definition set_refcount_map v s :=
  mk_pmm (paging_enabled s) (total_pages s) (used_pages s) (free_lists s)
    (alloc_count s) (order_map s) (status_map s) v (blocks s).
Definition set_blocks v s :=
  mk_pmm (paging_enabled s) (total_pages s) (used_pages s) (free_lists s)
    (alloc_count s) (order_map s) (status_map s) (refcount_map s) v.

(** ** Metadata accessors *)

Definition buddy_get_order (page : Z) (s : pmm) : Z :=
  let map_index := u32 (page * 4) / 32 in
  let bit_offset := u32 (page * 4) mod 32 in
  let value := Z.land (Z.shiftr (order_map s map_index) bit_offset) 0xF in
  u8 value.

Definition buddy_set_order (page order : Z) (s : pmm) : pmm :=
  let map_index := u32 (page * 4) / 32 in
  let bit_offset := u32 (page * 4) mod 32 in
  let s := set_order_map (order_map s).[map_index <-
    Z.land (order_map s map_index) (u32 (Z.lnot (Z.shiftl 0xF bit_offset)))] s in
  set_order_map (order_map s).[map_index <-
    Z.lor (order_map s map_index) (u32 (Z.shiftl order bit_offset))] s.

Definition buddy_is_allocated (page : Z) (s : pmm) : bool :=
  let index := page / 32 in
  let bit := page mod 32 in
  negb (Z.land (status_map s index) (u32 (Z.shiftl 1 bit)) =? 0).

Definition buddy_mark_allocated (page : Z) (s : pmm) : pmm :=
  let index := page / 32 in
  let bit := page mod 32 in
  set_status_map (status_map s).[index <-
    Z.lor (status_map s index) (u32 (Z.shiftl 1 bit))] s.

Definition buddy_mark_free (page : Z) (s : pmm) : pmm :=
  let index := page / 32 in
  let bit := page mod 32 in
  set_status_map (status_map s).[index <-
    Z.land (status_map s index) (u32 (Z.lnot (Z.shiftl 1 bit)))] s.

Definition buddy_get_refcount (page : Z) (s : pmm) : Z :=
  if total_pages s <=? page then 0 else refcount_map s page.

Definition buddy_set_refcount (page count : Z) (s : pmm) : pmm :=
  if page <? total_pages s
  then set_refcount_map (refcount_map s).[page <- count] s
  else s.

Definition buddy_inc_refcount (page : Z) (s : pmm) : Z * pmm :=
  if total_pages s <=? page then (0, s) else
  let current := refcount_map s page in
  if current =? UINT16_MAX then (UINT16_MAX, s) else
  (u16 (current + 1), set_refcount_map (refcount_map s).[page <- u16 (current + 1)] s).

Definition buddy_dec_refcount (page : Z) (s : pmm) : outcome (Z * pmm) :=
  if total_pages s <=? page then Done (0, s) else
  let current := refcount_map s page in
  if current =? 0 then Panic else
  if current =? UINT16_MAX then Done (UINT16_MAX, s) else
  Done (u16 (current - 1), set_refcount_map (refcount_map s).[page <- u16 (current - 1)] s).

Definition buddy_is_page_shared (page : Z) (s : pmm) : bool :=
  if total_pages s <=? page then false else 2 <=? refcount_map s page.

(** ** Buddy arithmetic *)

Definition buddy_get_buddy_page (page order : Z) : Z :=
  let pages_in_block := u32 (Z.shiftl 1 order) in
  Z.lxor page pages_in_block.

Definition buddy_is_order_aligned (addr order : Z) : bool :=
  let block_size := u32 (Z.shiftl PMM_PAGE_SIZE order) in
  Z.land addr (u32 (block_size - 1)) =? 0.

(** The [while (power < count)] loop; [None] when the fuel runs out. *)
Fixpoint calculate_order_loop (fuel : nat) (count power order : Z) : option Z :=
  match fuel with
  | O => None
  | S fuel =>
      if power <? count
      then calculate_order_loop fuel count (u32 (Z.shiftl power 1)) (u8 (order + 1))
      else Some order
  end.

Definition buddy_calculate_order (fuel : nat) (count : Z) : option Z :=
  if count =? 0 then Some 0 else
  if count =? 1 then Some 0 else
  match calculate_order_loop fuel count 1 0 with
  | None => None
  | Some order => Some (if BUDDY_MAX_ORDER <? order then BUDDY_MAX_ORDER else order)
  end.

(** ** Free lists *)

Definition buddy_add_to_free_list (addr order : Z) (s : pmm) : pmm :=
  let s := set_blocks (blocks s).[addr <- mk_block (free_lists s order) 0] s in
  let s :=
    if free_lists s order =? 0 then s else
    let old_head := free_lists s order in
    set_blocks (blocks s).[old_head <- set_lprev addr (blocks s old_head)] s in
  set_free_lists (free_lists s).[order <- addr] s.

Definition buddy_remove_from_free_list (addr order : Z) (s : pmm) : pmm :=
  let s :=
    if prev (blocks s addr) =? 0
    then set_free_lists (free_lists s).[order <- next (blocks s addr)] s
    else
      let prev_block := prev (blocks s addr) in
      set_blocks (blocks s).[prev_block <-
        set_lnext (next (blocks s addr)) (blocks s prev_block)] s in
  if next (blocks s addr) =? 0 then s else
  let next_block := next (blocks s addr) in
  set_blocks (blocks s).[next_block <-
    set_lprev (prev (blocks s addr)) (blocks s next_block)] s.

(** ** Core operations *)

(** One recursive call per round of [while (from_order > to_order)]: the order
    is decremented first. *)
Fixpoint buddy_split_block (addr : Z) (from_order : nat) (to_order : Z) (s : pmm) : pmm :=
  match from_order with
  | O => s
  | S from_order =>
      if to_order <? Z.of_nat (S from_order) then
        let o := Z.of_nat from_order in
        let block_size := u32 (Z.shiftl PMM_PAGE_SIZE o) in
        let buddy_addr := u32 (addr + block_size) in
        let s := buddy_add_to_free_list buddy_addr o s in
        let buddy_page := pmm_addr_to_page buddy_addr in
        let s := buddy_set_order buddy_page o s in
        let s := buddy_mark_free buddy_page s in
        buddy_split_block addr from_order to_order s
      else s
  end.

(** [rounds] is [BUDDY_MAX_ORDER - order], the rounds the loop can still make. *)
Fixpoint buddy_coalesce_loop (rounds : nat) (page addr order : Z) (s : pmm) : Z * pmm :=
  match rounds with
  | O => (addr, s)
  | S rounds =>
      let buddy_page := buddy_get_buddy_page page order in
      if total_pages s <=? buddy_page then (addr, s) else
      if buddy_is_allocated buddy_page s || negb (buddy_get_order buddy_page s =? order)
      then (addr, s)
      else
        let buddy_addr := pmm_page_to_addr buddy_page in
        let s := buddy_remove_from_free_list buddy_addr order s in
        let '(page, addr) :=
          if buddy_page <? page then (buddy_page, buddy_addr) else (page, addr) in
        let order := order + 1 in
        let s := buddy_set_order page order s in
        buddy_coalesce_loop rounds page addr order s
  end.

Definition buddy_coalesce (addr order : Z) (s : pmm) : Z * pmm :=
  let page := pmm_addr_to_page addr in
  buddy_coalesce_loop (Z.to_nat (BUDDY_MAX_ORDER - order)) page addr order s.

(** The search for the first non-empty list from [order] up; [rounds] is
    [BUDDY_MAX_ORDER + 1 - current_order]. *)
Fixpoint find_order_loop (rounds : nat) (current_order : Z) (s : pmm) : Z :=
  match rounds with
  | O => current_order
  | S rounds =>
      if free_lists s current_order =? 0
      then find_order_loop rounds (current_order + 1) s
      else current_order
  end.

Definition buddy_alloc_order (order : Z) (s : pmm) : Z * pmm :=
  if BUDDY_MAX_ORDER <? order then (0, s) else
  let current_order :=
    find_order_loop (Z.to_nat (BUDDY_MAX_ORDER + 1 - order)) order s in
  if BUDDY_MAX_ORDER <? current_order then (0, s) else
  let addr := free_lists s current_order in
  let s := buddy_remove_from_free_list addr current_order s in
  let page := pmm_addr_to_page addr in
  let s := if order <? current_order
           then buddy_split_block addr (Z.to_nat current_order) order s else s in
  let s := buddy_set_order page order s in
  let s := buddy_mark_allocated page s in
  let pages_in_block := u32 (Z.shiftl 1 order) in
  let s := for_loop pages_in_block (fun i => buddy_set_refcount (u32 (page + i)) 1) s in
  let s := set_used_pages (u32 (used_pages s + pages_in_block)) s in
  let s := set_alloc_count (alloc_count s).[order <- u32 (alloc_count s order + 1)] s in
  (addr, s).

Definition buddy_free_order (addr order : Z) (s : pmm) : pmm :=
  let addr := if pmm_is_aligned addr then addr else pmm_align_down addr in
  let page := pmm_addr_to_page addr in
  if total_pages s <=? page then s else
  if negb (buddy_is_allocated page s) then s else
  let pages_in_block := u32 (Z.shiftl 1 order) in
  match find_from (Z.to_nat pages_in_block) 0
          (fun i => 1 <? buddy_get_refcount (u32 (page + i)) s) with
  | Some _ => s
  | None =>
      let s := buddy_mark_free page s in
      let s := for_loop pages_in_block (fun i => buddy_set_refcount (u32 (page + i)) 0) s in
      let s := set_used_pages (u32 (used_pages s - pages_in_block)) s in
      let s :=
        if 0 <? alloc_count s order
        then set_alloc_count (alloc_count s).[order <- u32 (alloc_count s order - 1)] s
        else s in
      let '(addr, s) := buddy_coalesce addr order s in
      let page := pmm_addr_to_page addr in
      let order := buddy_get_order page s in
      buddy_add_to_free_list addr order s
  end.

(** ** Regions *)

(** The test made on each order: the block fits, is aligned, and no page of it is
    reserved or out of range. *)
Definition region_order_fits (current_addr remaining_pages o : Z) (s : pmm) : bool :=
  let page := pmm_addr_to_page current_addr in
  let pages_in_block := u32 (Z.shiftl 1 o) in
  (pages_in_block <=? remaining_pages) &&
  buddy_is_order_aligned current_addr o &&
  match find_from (Z.to_nat pages_in_block) 0
          (fun p => (total_pages s <=? u32 (page + p)) || buddy_is_allocated (u32 (page + p)) s) with
  | Some _ => false
  | None => true
  end.

(** [for (o = BUDDY_MAX_ORDER; o > 0; o--)]: the largest order that fits, or 0. *)
Fixpoint largest_order (o : nat) (current_addr remaining_pages : Z) (s : pmm) : Z :=
  match o with
  | O => 0
  | S o' =>
      if region_order_fits current_addr remaining_pages (Z.of_nat o) s
      then Z.of_nat o
      else largest_order o' current_addr remaining_pages s
  end.

Fixpoint add_region_loop (fuel : nat) (current_addr end_addr : Z) (s : pmm) : pmm :=
  match fuel with
  | O => s
  | S fuel =>
      if current_addr <? end_addr then
        let remaining_size := end_addr - current_addr in
        let remaining_pages := remaining_size / PMM_PAGE_SIZE in
        if remaining_pages =? 0 then s else
        let page := pmm_addr_to_page current_addr in
        if buddy_is_allocated page s
        then add_region_loop fuel (u32 (current_addr + PMM_PAGE_SIZE)) end_addr s
        else
          let order := largest_order (Z.to_nat BUDDY_MAX_ORDER) current_addr remaining_pages s in
          let pages_in_block := u32 (Z.shiftl 1 order) in
          let s := buddy_set_order page order s in
          let s := buddy_mark_free page s in
          let s := buddy_add_to_free_list current_addr order s in
          add_region_loop fuel
            (u32 (current_addr + pages_in_block * PMM_PAGE_SIZE)) end_addr s
      else s
  end.

(** Each round advances by at least one page: the number of pages is enough
    fuel. *)
Definition buddy_add_region (start_addr end_addr : Z) (s : pmm) : pmm :=
  let start_addr := pmm_align_up start_addr in
  let end_addr := pmm_align_down end_addr in
  if end_addr <=? start_addr then s else
  add_region_loop (Z.to_nat ((end_addr - start_addr) / PMM_PAGE_SIZE)) start_addr end_addr s.

Fixpoint reserve_region_loop (fuel : nat) (addr end_addr : Z) (s : pmm) : pmm :=
  match fuel with
  | O => s
  | S fuel =>
      if addr <? end_addr then
        let page := pmm_addr_to_page addr in
        if total_pages s <=? page then s else
        let s :=
          if negb (buddy_is_allocated page s)
          then set_used_pages (u32 (used_pages s + 1)) (buddy_mark_allocated page s)
          else s in
        reserve_region_loop fuel (u32 (addr + PMM_PAGE_SIZE)) end_addr s
      else s
  end.

Definition buddy_reserve_region (start_addr end_addr : Z) (s : pmm) : pmm :=
  let start_addr := pmm_align_down start_addr in
  let end_addr := pmm_align_up end_addr in
  if end_addr <=? start_addr then s else
  reserve_region_loop (Z.to_nat ((end_addr - start_addr) / PMM_PAGE_SIZE)) start_addr end_addr s.

(** ** Boot information ([src/kernel/arch/i386/multiboot2.c]) *)

Record saved_mmap_entry := mk_mmap {
  base_low : Z; base_high : Z; length_low : Z; length_high : Z; type : Z }.

Record boot_module := mk_module {
  module_phys_addr_start : Z; module_phys_addr_end : Z }.

(** What the boot loader and the linker hand over. *)
Record boot_info := mk_boot {
  saved_mmap : list saved_mmap_entry;
  boot_modules : list boot_module;
  _kernel_start : Z;
  _kernel_end : Z }.

Definition u64 (z : Z) : Z := z mod 2 ^ 64.

Definition mmap_base (e : saved_mmap_entry) : Z :=
  Z.lor (u64 (Z.shiftl (base_high e) 32)) (base_low e).
Definition mmap_length (e : saved_mmap_entry) : Z :=
  Z.lor (u64 (Z.shiftl (length_high e) 32)) (length_low e).

(** The maximum usable address: the highest end of an available entry. *)
Definition multiboot2_process_memory_map (mmap : list saved_mmap_entry) : Z :=
  fold_left (fun pmm_max_memory entry =>
    if type entry =? 1 then
      let end_ := u64 (mmap_base entry + mmap_length entry) in
      let end_ := if 0xFFFFFFFF <? end_ then 0xFFFFFFFF else end_ in
      if pmm_max_memory <? u32 end_ then u32 end_ else pmm_max_memory
    else pmm_max_memory) mmap 0.

(** ** Public interface *)

(** [memset] of the first [bytes] bytes of a map of [width]-byte cells. *)
Definition memset_zero (bytes width : Z) (m : Z -> Z) : Z -> Z :=
  fun i => if (0 <=? i) && (i <? bytes / width) then 0 else m i.

(** The body of [pmm_init]'s loop over the memory map. *)
Definition pmm_init_entry (s : pmm) (entry : saved_mmap_entry) : pmm :=
  if negb (type entry =? 1) then s else
  let base := mmap_base entry in
  let length := mmap_length entry in
  if 0xFFFFFFFF <=? base then s else
  let start := u32 base in
  let end_ := u32 (u64 (base + length)) in
  let end_ := if (0xFFFFFFFF <? end_) || (end_ <? start) then 0xFFFFFFFF else end_ in
  buddy_add_region start end_ s.

(** The sizes of the three metadata maps, which follow the kernel and the boot
    modules in memory. *)
Definition order_map_size (total : Z) : Z := pmm_align_up (u32 (total * 4 + 7) / 8).
Definition status_map_size (total : Z) : Z := pmm_align_up (u32 (total + 7) / 8).
Definition refcount_map_size (total : Z) : Z := pmm_align_up (u32 (total * 2)).

Definition metadata_start (b : boot_info) : Z :=
  let safe_metadata_start :=
    fold_left (fun start m =>
      if start <? module_phys_addr_end m then module_phys_addr_end m else start)
      (boot_modules b) (_kernel_end b) in
  pmm_align_up safe_metadata_start.

Definition metadata_end (b : boot_info) (total : Z) : Z :=
  u32 (u32 (u32 (metadata_start b + order_map_size total) + status_map_size total)
       + refcount_map_size total).

(** Clearing the metadata and the free lists. *)
Definition clear_maps (total : Z) (s : pmm) : pmm :=
  let s := set_total_pages total s in
  let s := set_order_map (memset_zero (order_map_size total) 4 (order_map s)) s in
  let s := set_status_map (memset_zero (status_map_size total) 4 (status_map s)) s in
  set_refcount_map (memset_zero (refcount_map_size total) 2 (refcount_map s)) s.

Definition clear_lists (s : pmm) : pmm :=
  for_loop (BUDDY_MAX_ORDER + 1) (fun i s =>
    set_alloc_count (alloc_count s).[i <- 0]
      (set_free_lists (free_lists s).[i <- 0] s)) s.

Definition pmm_clear (total : Z) (s : pmm) : pmm :=
  set_used_pages 0 (clear_lists (clear_maps total s)).

(** Reserving low memory, the kernel with the metadata, and the boot modules. *)
Definition pmm_reserve (b : boot_info) (s : pmm) : pmm :=
  let s := buddy_reserve_region 0 PMM_RESERVED_AREA s in
  let s := buddy_reserve_region (_kernel_start b) (metadata_end b (total_pages s)) s in
  fold_left (fun s m =>
    buddy_reserve_region (module_phys_addr_start m) (module_phys_addr_end m) s)
    (boot_modules b) s.

Definition pmm_init (b : boot_info) (s : pmm) : pmm :=
  let pmm_max_memory := multiboot2_process_memory_map (saved_mmap b) in
  if pmm_max_memory =? 0 then s else
  let s := pmm_clear (pmm_max_memory / PMM_PAGE_SIZE) s in
  let s := pmm_reserve b s in
  fold_left pmm_init_entry (saved_mmap b) s.

Definition pmm_set_paging_enabled (enabled : bool) (s : pmm) : pmm :=
  set_paging_enabled enabled s.

Definition pmm_alloc_page (s : pmm) : Z * pmm := buddy_alloc_order 0 s.

(** [None]: the order computation does not finish within [fuel] rounds. *)
Definition pmm_alloc_pages (fuel : nat) (count : Z) (s : pmm) : option (Z * pmm) :=
  if count =? 0 then Some (0, s) else
  match buddy_calculate_order fuel count with
  | None => None
  | Some order => Some (buddy_alloc_order order s)
  end.

Definition pmm_free_page (addr : Z) (s : pmm) : pmm :=
  let page := pmm_addr_to_page addr in
  let order := buddy_get_order page s in
  buddy_free_order addr order s.

Definition pmm_free_pages (addr count : Z) (s : pmm) : pmm :=
  let page := pmm_addr_to_page addr in
  let order := buddy_get_order page s in
  buddy_free_order addr order s.

Definition pmm_get_total_memory (s : pmm) : Z := u32 (total_pages s * PMM_PAGE_SIZE).
Definition pmm_get_used_memory (s : pmm) : Z := u32 (used_pages s * PMM_PAGE_SIZE).
Definition pmm_get_free_memory (s : pmm) : Z :=
  u32 (u32 (total_pages s - used_pages s) * PMM_PAGE_SIZE).

Definition pmm_alloc_order (order : Z) (s : pmm) : Z * pmm := buddy_alloc_order order s.

Definition pmm_free_order (addr : Z) (s : pmm) : pmm :=
  let page := pmm_addr_to_page addr in
  let order := buddy_get_order page s in
  buddy_free_order addr order s.

Definition pmm_get_order (addr : Z) (s : pmm) : Z :=
  buddy_get_order (pmm_addr_to_page addr) s.

Definition pmm_is_allocated (addr : Z) (s : pmm) : bool :=
  let page := pmm_addr_to_page addr in
  if total_pages s <=? page then false else buddy_is_allocated page s.

Definition pmm_get_refcount (phys_addr : Z) (s : pmm) : Z :=
  if negb (pmm_is_aligned phys_addr) then 0 else
  buddy_get_refcount (pmm_addr_to_page phys_addr) s.

Definition pmm_inc_refcount (phys_addr : Z) (s : pmm) : outcome (Z * pmm) :=
  if negb (pmm_is_aligned phys_addr) then Done (0, s) else
  let page := pmm_addr_to_page phys_addr in
  if negb (buddy_is_allocated page s) then Panic else
  Done (buddy_inc_refcount page s).

Definition pmm_dec_refcount (phys_addr : Z) (s : pmm) : outcome (Z * pmm) :=
  if negb (pmm_is_aligned phys_addr) then Done (0, s) else
  let page := pmm_addr_to_page phys_addr in
  if negb (buddy_is_allocated page s) then Panic else
  buddy_dec_refcount page s.

Definition pmm_is_shared (phys_addr : Z) (s : pmm) : bool :=
  if negb (pmm_is_aligned phys_addr) then false else
  buddy_is_page_shared (pmm_addr_to_page phys_addr) s.
