(* ===== verification/PmmMeta.v ===== *)
(** The packed metadata of the physical memory manager: the order map (4 bits
    per page), the status map (1 bit per page) and the reference counts behave
    as independent cells, one per page; block arithmetic on buddies. *)

From S2P Require Import Prelude Dll Pmm.
From Stdlib Require Import ZArith Lia Bool.
From stdpp Require Import base tactics numbers list sets gmap.
Open Scope Z_scope.

(** ** The order map *)

Section OrderMap.
Implicit Types (p q o n i : Z) (s : pmm).

Lemma order_index p : 0 <= p < 2 ^ 20 -> u32 (p * 4) / 32 = p / 8.
Proof. intros. rewrite u32_small by lia. dlia. Qed.

Lemma order_offset p : 0 <= p < 2 ^ 20 -> u32 (p * 4) mod 32 = 4 * (p mod 8).
Proof. intros. rewrite u32_small by lia. dlia. Qed.

Lemma get_order_bits q s n :
  0 <= q < 2 ^ 20 -> 0 <= n ->
  Z.testbit (buddy_get_order q s) n =
  (n <? 4) && Z.testbit (order_map s (q / 8)) (4 * (q mod 8) + n).
Proof.
  intros Hq Hn. unfold buddy_get_order.
  rewrite order_index, order_offset by done. unfold u8.
  change 0xF with (Z.ones 4).
  destruct (Z.ltb_spec n 4).
  - rewrite Z.mod_pow2_bits_low, Z.land_spec, Z.shiftr_spec, Z.ones_spec_low by dlia.
    cbn [andb]. rewrite andb_true_r. f_equal. lia.
  - destruct (Z.ltb_spec n 8).
    + rewrite Z.mod_pow2_bits_low, Z.land_spec, Z.ones_spec_high by lia.
      by rewrite andb_false_r.
    + rewrite Z.mod_pow2_bits_high by lia. done.
Qed.

Lemma set_order_bits p o s i n :
  0 <= p < 2 ^ 20 -> 0 <= o < 16 -> 0 <= n < 32 ->
  Z.testbit (order_map (buddy_set_order p o s) i) n =
  if decide (i = p / 8 /\ 4 * (p mod 8) <= n < 4 * (p mod 8) + 4)
  then Z.testbit o (n - 4 * (p mod 8))
  else Z.testbit (order_map s i) n.
Proof.
  intros Hp Ho Hn. unfold buddy_set_order. cbn.
  rewrite order_index, order_offset by done. rewrite !upd_cases.
  set (k := 4 * (p mod 8)). assert (0 <= k <= 28) by (unfold k; dlia).
  destruct (decide (i = p / 8)) as [->|]; [|by rewrite decide_False by tauto].
  rewrite decide_True, Z.lor_spec, Z.land_spec, !u32_bits by lia.
  replace (n <? 32) with true by lia. cbn [andb].
  rewrite Z.lnot_spec, !Z.shiftl_spec by lia. change 0xF with (Z.ones 4).
  case_decide as Hk.
  - rewrite Z.ones_spec_low by lia. cbn. by rewrite andb_false_r.
  - assert (Z.testbit o (n - k) = false) as ->.
    { destruct (decide (n < k)); [apply Z.testbit_neg_r; lia|].
      destruct (decide (o = 0)) as [->|]; [apply Z.bits_0|].
      apply Z.bits_above_log2; [lia|].
      enough (Z.log2 o < 4) by lia. apply Z.log2_lt_pow2; lia. }
    assert (Z.testbit (Z.ones 4) (n - k) = false) as ->.
    { destruct (decide (n < k)); [apply Z.testbit_neg_r; lia|].
      apply Z.ones_spec_high. lia. }
    cbn. by rewrite andb_true_r, orb_false_r.
Qed.

Lemma get_set_order p q o s :
  0 <= p < 2 ^ 20 -> 0 <= q < 2 ^ 20 -> 0 <= o < 16 ->
  buddy_get_order q (buddy_set_order p o s) =
  if decide (q = p) then o else buddy_get_order q s.
Proof.
  intros Hp Hq Ho. apply Z.bits_inj'. intros n Hn.
  rewrite get_order_bits by done. destruct (Z.ltb_spec n 4); cbn [andb].
  - rewrite set_order_bits by dlia. case_decide as Hc.
    + destruct (decide (q = p)) as [->|].
      * f_equal. lia.
      * exfalso. dlia.
    + destruct (decide (q = p)) as [->|]; [exfalso; apply Hc; lia|].
      rewrite get_order_bits by done. by replace (n <? 4) with true by lia.
  - case_decide.
    + destruct (decide (o = 0)) as [->|]; [by rewrite Z.bits_0|].
      symmetry. apply Z.bits_above_log2; [lia|].
      enough (Z.log2 o < 4) by lia. apply Z.log2_lt_pow2; lia.
    + rewrite get_order_bits by done. by replace (n <? 4) with false by lia.
Qed.

Lemma get_order_range p s : 0 <= buddy_get_order p s < 16.
Proof.
  unfold buddy_get_order, u8. change 0xF with (Z.ones 4).
  rewrite Z.land_ones by lia.
  set (z := Z.shiftr _ _). pose proof (Z.mod_pos_bound z (2 ^ 4)).
  rewrite Z.mod_small; lia.
Qed.
End OrderMap.

(** ** The status map *)

Section StatusMap.
Implicit Types (p q : Z) (s : pmm).

Lemma status_bit p : 0 <= p -> u32 (Z.shiftl 1 (p mod 32)) = 2 ^ (p mod 32).
Proof.
  intros. rewrite Z.shiftl_1_l. apply Z.mod_small. split; [apply Z.pow_nonneg; lia|].
  apply Z.pow_lt_mono_r; dlia.
Qed.

Lemma is_allocated_bit p s :
  0 <= p -> buddy_is_allocated p s = Z.testbit (status_map s (p / 32)) (p mod 32).
Proof.
  intros. unfold buddy_is_allocated. rewrite status_bit by done.
  apply land_pow2_nonzero. dlia.
Qed.

Lemma mark_allocated_spec p q s :
  0 <= p -> 0 <= q ->
  buddy_is_allocated q (buddy_mark_allocated p s) =
  if decide (q = p) then true else buddy_is_allocated q s.
Proof.
  intros Hp Hq. rewrite !is_allocated_bit by done.
  unfold buddy_mark_allocated. cbn. rewrite status_bit, upd_cases by done.
  destruct (decide (q / 32 = p / 32)) as [E|]; [|rewrite decide_False by congruence; done].
  rewrite Z.lor_spec, Z.pow2_bits_eqb by dlia.
  destruct (decide (q = p)) as [->|].
  - by rewrite Z.eqb_refl, orb_true_r.
  - replace (p mod 32 =? q mod 32) with false by (symmetry; apply Z.eqb_neq; dlia).
    by rewrite orb_false_r, E.
Qed.

Lemma mark_free_spec p q s :
  0 <= p -> 0 <= q ->
  buddy_is_allocated q (buddy_mark_free p s) =
  if decide (q = p) then false else buddy_is_allocated q s.
Proof.
  intros Hp Hq. rewrite !is_allocated_bit by done.
  unfold buddy_mark_free. cbn. rewrite upd_cases.
  destruct (decide (q / 32 = p / 32)) as [E|]; [|rewrite decide_False by congruence; done].
  rewrite Z.land_spec, u32_bits by dlia.
  replace (q mod 32 <? 32) with true by (symmetry; apply Z.ltb_lt; dlia). cbn [andb].
  rewrite Z.lnot_spec, Z.shiftl_1_l, Z.pow2_bits_eqb by dlia.
  destruct (decide (q = p)) as [->|].
  - by rewrite Z.eqb_refl, andb_false_r.
  - replace (p mod 32 =? q mod 32) with false by (symmetry; apply Z.eqb_neq; dlia).
    by rewrite andb_true_r, E.
Qed.
End StatusMap.

(** ** Reference counts *)

Lemma set_refcounts_spec (n page c : Z) (s : pmm) :
  0 <= n -> 0 <= page -> page + n <= total_pages s -> total_pages s <= 2 ^ 20 ->
  let s' := for_loop n (fun i => buddy_set_refcount (u32 (page + i)) c) s in
  (forall q, refcount_map s' q =
     if decide (page <= q < page + n) then c else refcount_map s q) /\
  s' = set_refcount_map (refcount_map s') s.
Proof.
  intros Hn Hp Ht Hm.
  set (P := fun (k : Z) (s' : pmm) =>
    (forall q, refcount_map s' q =
       if decide (page <= q < page + k) then c else refcount_map s q) /\
    s' = set_refcount_map (refcount_map s') s).
  apply (for_loop_ind P); [done| |].
  - split; [|by destruct s]. intros q. by rewrite decide_False by lia.
  - intros j t Hj [Hq Ht']. unfold buddy_set_refcount.
    rewrite u32_small by lia.
    assert (total_pages t = total_pages s) as -> by (rewrite Ht'; done).
    replace (page + j <? total_pages s) with true by lia. split.
    + intros q. cbn. rewrite upd_cases, Hq. repeat case_decide; done || lia.
    + rewrite Ht'. done.
Qed.

(** ** Buddies *)

Lemma pages_in_block (o : Z) : 0 <= o < 32 -> u32 (Z.shiftl 1 o) = 2 ^ o.
Proof.
  intros. rewrite Z.shiftl_1_l. apply Z.mod_small. split; [apply Z.pow_nonneg; lia|].
  apply Z.pow_lt_mono_r; lia.
Qed.

(** The buddy of an aligned block is the other half of the block twice its
    size. *)
Lemma buddy_page_spec (page o : Z) :
  0 <= page -> 0 <= o < 32 -> page mod 2 ^ o = 0 ->
  buddy_get_buddy_page page o =
  if decide (page mod 2 ^ (o + 1) = 0) then page + 2 ^ o else page - 2 ^ o.
Proof.
  intros Hp Ho Hal. unfold buddy_get_buddy_page. rewrite pages_in_block by done.
  assert (Hpow : 0 < 2 ^ o) by (apply Z.pow_pos_nonneg; lia).
  assert (Hdiv : page = 2 ^ o * (page / 2 ^ o)) by (apply Z_div_exact_full_2; lia).
  set (m := page / 2 ^ o) in *. rewrite Z.pow_add_r by lia.
  assert (Hm : page mod (2 ^ o * 2 ^ 1) = 2 ^ o * (m mod 2)).
  { rewrite Hdiv, Z.mul_mod_distr_l by lia. done. }
  assert (Hx : Z.lxor page (2 ^ o) = 2 ^ o * Z.lxor m 1).
  { rewrite Hdiv at 1. rewrite (Z.mul_comm _ m), (Z.mul_comm _ (Z.lxor m 1)).
    rewrite <- !Z.shiftl_mul_pow2 by lia.
    rewrite Z.shiftl_lxor, Z.shiftl_1_l. done. }
  rewrite Hx, Hm. assert (0 <= m) by (unfold m; apply Z.div_pos; lia).
  assert (Hm1 : Z.lxor m 1 = if decide (m mod 2 = 0) then m + 1 else m - 1).
  { destruct (decide (m mod 2 = 0)) as [E|E].
    - replace m with (2 * (m / 2)) by dlia. assert (0 <= m / 2) by dlia.
      destruct (m / 2); done || lia.
    - replace m with (2 * (m / 2) + 1) by dlia. assert (0 <= m / 2) by dlia.
      destruct (m / 2); done || lia. }
  rewrite Hm1. destruct (decide (m mod 2 = 0)) as [E|E].
  - rewrite decide_True by nia. lia.
  - rewrite decide_False by nia. lia.
Qed.
