(* ===== verification/PmmInv.v ===== *)
(** The invariant of the buddy allocator.

    Abstractly the allocator keeps a partition of the page range [0, total) into
    blocks: each block is aligned to its size, a power of two.  [page_partition]
    states this for a set of blocks; splitting a block and merging two buddies
    keep it.  [binv] ties a state of the model to such a partition: the blocks
    are those marked allocated, those on a free list, and at most one block "in
    hand" during an operation. *)

From S2P Require Import Prelude Dll Pmm PmmMeta.
From Stdlib Require Import ZArith Lia Bool.
From stdpp Require Import base tactics numbers list sets gmap.
Open Scope Z_scope.

(** ** Partitions into aligned blocks *)

Definition covers (p o q : Z) : Prop := p <= q < p + 2 ^ o.

Record page_partition (total : Z) (B : Z -> Z -> Prop) : Prop := {
  part_wf p o : B p o ->
    0 <= p /\ 0 <= o <= BUDDY_MAX_ORDER /\ p mod 2 ^ o = 0 /\ p + 2 ^ o <= total;
  part_sep p o p' o' q :
    B p o -> B p' o' -> covers p o q -> covers p' o' q -> p = p' /\ o = o';
  part_cov q : 0 <= q < total -> exists p o, B p o /\ covers p o q }.

#[export] Instance covers_dec p o q : Decision (covers p o q).
Proof. unfold covers. apply _. Defined.

Lemma covers_head p o : 0 <= o -> covers p o p.
Proof. intros. unfold covers. pose proof (Z.pow_pos_nonneg 2 o). lia. Qed.

Lemma partition_ext total B B' :
  (forall p o, B p o <-> B' p o) -> page_partition total B -> page_partition total B'.
Proof.
  intros E [W S C]. split.
  - intros p o. rewrite <- E. apply W.
  - intros p o p' o' q. rewrite <- !E. apply S.
  - intros q Hq. destruct (C q Hq) as (p & o & HB & Hc). exists p, o. by rewrite <- E.
Qed.

(** Two aligned blocks where the larger one contains the head of the smaller
    one: it contains all of it, and its buddy if it is strictly larger. *)
Lemma aligned_nested p o p' o' :
  0 <= o <= o' -> p mod 2 ^ o = 0 -> p' mod 2 ^ o' = 0 ->
  covers p' o' p -> p + 2 ^ o <= p' + 2 ^ o'.
Proof.
  intros Ho Hp Hp' [H1 H2]. unfold covers in *.
  assert (Hpow : 2 ^ o' = 2 ^ o * 2 ^ (o' - o)).
  { rewrite <- Z.pow_add_r by lia. f_equal. lia. }
  assert (0 < 2 ^ o) by (apply Z.pow_pos_nonneg; lia).
  assert (0 < 2 ^ (o' - o)) by (apply Z.pow_pos_nonneg; lia).
  apply Z.mod_divide in Hp; [|lia]. apply Z.mod_divide in Hp'; [|lia].
  destruct Hp as [a Ha]. destruct Hp' as [b Hb].
  set (X := 2 ^ o) in *. set (Y := 2 ^ (o' - o)) in *. rewrite Hpow in *.
  assert (a * X < (b * Y + Y) * X) by nia.
  assert (a < b * Y + Y) by (apply Z.mul_lt_mono_pos_r with (p := X); lia).
  nia.
Qed.

Lemma mod_pow_weaken p o o' :
  0 <= o <= o' -> p mod 2 ^ o' = 0 -> p mod 2 ^ o = 0.
Proof.
  intros Ho Hp.
  assert (0 < 2 ^ o) by (apply Z.pow_pos_nonneg; lia).
  assert (0 < 2 ^ o') by (apply Z.pow_pos_nonneg; lia).
  apply Z.mod_divide; [lia|]. apply Z.mod_divide in Hp; [|lia].
  eapply Z.divide_trans; [|done]. exists (2 ^ (o' - o)).
  rewrite <- Z.pow_add_r by lia. f_equal. lia.
Qed.

Lemma aligned_le a b n : 0 < n -> a mod n = 0 -> b mod n = 0 -> a < b + n -> a <= b.
Proof.
  intros Hn Ha Hb Hlt. apply Z.mod_divide in Ha as [x ->]; [|lia].
  apply Z.mod_divide in Hb as [y ->]; [|lia].
  assert (x < y + 1) by (apply Z.mul_lt_mono_pos_r with (p := n); lia). nia.
Qed.

Section Partition.
Context (total : Z) (B : Z -> Z -> Prop) (HB : page_partition total B).

Definition split_blocks (p o : Z) : Z -> Z -> Prop := fun q k =>
  (B q k /\ ~ (q = p /\ k = o + 1)) \/ (q = p /\ k = o) \/ (q = p + 2 ^ o /\ k = o).

Definition merge_blocks (p o : Z) : Z -> Z -> Prop := fun q k =>
  (B q k /\ ~ (q = p /\ k = o) /\ ~ (q = p + 2 ^ o /\ k = o)) \/ (q = p /\ k = o + 1).

Lemma pow_succ o : 0 <= o -> 2 ^ (o + 1) = 2 ^ o + 2 ^ o.
Proof. intros. rewrite Z.pow_add_r by lia. lia. Qed.

Lemma half_aligned p o :
  0 <= o -> p mod 2 ^ (o + 1) = 0 -> p mod 2 ^ o = 0 /\ (p + 2 ^ o) mod 2 ^ o = 0.
Proof.
  intros Ho Hp. assert (0 < 2 ^ o) by (apply Z.pow_pos_nonneg; lia).
  assert (p mod 2 ^ o = 0) by (apply (mod_pow_weaken p o (o + 1)); [lia | done]).
  split; [done|]. rewrite <- Z.add_mod_idemp_r, Z.mod_same, Z.add_0_r by lia. done.
Qed.

Lemma partition_split p o :
  B p (o + 1) -> 0 <= o -> page_partition total (split_blocks p o).
Proof using HB.
  intros Hp Ho. destruct HB as [W S C]. pose proof (pow_succ o Ho) as Hs.
  assert (0 < 2 ^ o) by (apply Z.pow_pos_nonneg; lia).
  destruct (W _ _ Hp) as (W1 & W2 & W3 & W4).
  destruct (half_aligned p o Ho W3) as [W5 W6].
  assert (Hin : forall q k r, split_blocks p o q k -> covers q k r ->
    ~ covers p (o + 1) r -> B q k).
  { intros q k r [[Hq _]|[[-> ->]|[-> ->]]]; unfold covers; [done|lia..]. }
  assert (Hout : forall q k r, B q k -> ~ (q = p /\ k = o + 1) ->
    covers q k r -> ~ covers p (o + 1) r).
  { intros q k r Hq Hne Hc Hc'. apply Hne. by eapply S. }
  split.
  - intros q k [[Hq _]|[[-> ->]|[-> ->]]]; [by apply W|lia..].
  - intros q k q' k' r H1 H2 Hc1 Hc2.
    destruct H1 as [[H1 N1]|H1], H2 as [[H2 N2]|H2].
    + by eapply S.
    + exfalso. eapply Hout; [exact H1|done..|].
      destruct H2 as [[-> ->]|[-> ->]]; unfold covers in *; lia.
    + exfalso. eapply Hout; [exact H2|done..|].
      destruct H1 as [[-> ->]|[-> ->]]; unfold covers in *; lia.
    + destruct H1 as [[-> ->]|[-> ->]], H2 as [[-> ->]|[-> ->]];
        unfold covers in *; lia.
  - intros r Hr. destruct (C r Hr) as (q & k & Hq & Hc).
    destruct (decide (q = p /\ k = o + 1)) as [[-> ->]|Hne].
    + unfold covers in Hc. destruct (decide (r < p + 2 ^ o)).
      * exists p, o. unfold split_blocks, covers. split; [tauto | lia].
      * exists (p + 2 ^ o), o. unfold split_blocks, covers. split; [tauto | lia].
    + exists q, k. unfold split_blocks. tauto.
Qed.

Lemma partition_merge p o :
  B p o -> B (p + 2 ^ o) o -> p mod 2 ^ (o + 1) = 0 -> o + 1 <= BUDDY_MAX_ORDER ->
  page_partition total (merge_blocks p o).
Proof using HB.
  intros Hp Hb Hal Ho. destruct HB as [W S C].
  destruct (W _ _ Hp) as (W1 & W2 & W3 & W4). destruct (W _ _ Hb) as (_ & _ & _ & W5).
  assert (0 < 2 ^ o) by (apply Z.pow_pos_nonneg; lia).
  pose proof (pow_succ o ltac:(lia)) as Hs.
  assert (Hout : forall q k r, B q k -> ~ (q = p /\ k = o) ->
    ~ (q = p + 2 ^ o /\ k = o) -> covers q k r -> ~ covers p (o + 1) r).
  { intros q k r Hq N1 N2 Hc Hc'. unfold covers in Hc'.
    destruct (decide (r < p + 2 ^ o)).
    - apply N1. eapply S; [done..|]. unfold covers. lia.
    - apply N2. eapply S; [done..|]. unfold covers. lia. }
  split.
  - intros q k [(Hq & _)|[-> ->]]; [by apply W|]. lia.
  - intros q k q' k' r H1 H2 Hc1 Hc2.
    destruct H1 as [(H1 & N1 & N2)|[-> ->]], H2 as [(H2 & N3 & N4)|[-> ->]];
      [by eapply S| | |done].
    + exfalso. by eapply Hout.
    + exfalso. by eapply Hout.
  - intros r Hr. destruct (C r Hr) as (q & k & Hq & Hc).
    unfold merge_blocks.
    destruct (decide (q = p /\ k = o)) as [[-> ->]|]; [|destruct (decide (q = p + 2 ^ o /\ k = o)) as [[-> ->]|]].
    + exists p, (o + 1). split; [tauto|]. unfold covers in *. lia.
    + exists p, (o + 1). split; [tauto|]. unfold covers in *. lia.
    + exists q, k. tauto.
Qed.

(** A page where a block of order [o] could start, inside the buddy of a block
    of the partition, is the head of a block of order at most [o]. *)
Lemma buddy_is_head p b o q k :
  B p o -> o < BUDDY_MAX_ORDER ->
  (b = p + 2 ^ o /\ p mod 2 ^ (o + 1) = 0 \/ p = b + 2 ^ o /\ b mod 2 ^ (o + 1) = 0) ->
  B q k -> covers q k b -> q = b /\ k <= o.
Proof using HB.
  intros Hp Ho Hb Hq Hc. destruct HB as [W S C].
  destruct (W _ _ Hp) as (W1 & W2 & W3 & W4).
  destruct (W _ _ Hq) as (V1 & V2 & V3 & V4).
  assert (0 < 2 ^ o) by (apply Z.pow_pos_nonneg; lia).
  pose proof (pow_succ o ltac:(lia)) as Hs.
  assert (Hk : k <= o).
  { destruct (decide (k <= o)) as [|Hk]; [done|]. exfalso.
    (* a larger block around the buddy contains the block itself *)
    set (m := Z.min p b).
    assert (m mod 2 ^ (o + 1) = 0) by (unfold m; destruct Hb as [[-> ?]|[-> ?]];
      [rewrite Z.min_l by lia | rewrite Z.min_r by lia]; done).
    assert (Hal : q mod 2 ^ (o + 1) = 0) by (apply (mod_pow_weaken q (o + 1) k); [lia|done]).
    assert (Hm : covers q k m).
    { unfold covers in *. split; [|unfold m; lia].
      apply (aligned_le q m (2 ^ (o + 1))); [lia|done..|]. unfold m. lia. }
    pose proof (aligned_nested m (o + 1) q k ltac:(lia) H0 V3 Hm).
    destruct (S p o q k p Hp Hq) as [_ ?]; [by apply covers_head; lia| |lia].
    unfold covers in *. unfold m in *. lia. }
  split; [|done].
  assert (Hbal : b mod 2 ^ o = 0).
  { destruct Hb as [[-> Hb]|[-> Hb]].
    - apply half_aligned; [lia | done].
    - apply half_aligned in Hb; [tauto | lia]. }
  assert (Hbk : b mod 2 ^ k = 0) by (apply (mod_pow_weaken b k o); [lia | done]).
  unfold covers in Hc. assert (0 < 2 ^ k) by (apply Z.pow_pos_nonneg; lia).
  pose proof (aligned_le b q (2 ^ k)). lia.
Qed.
End Partition.

(** ** Free lists *)

Definition orders (o : Z) : Prop := 0 <= o <= BUDDY_MAX_ORDER.

Record lists_ok (s : pmm) (F : Z -> list Z) : Prop := {
  lists_dlist o : orders o -> dlist (blocks s) (free_lists s o) (F o);
  lists_sep o o' a : orders o -> orders o' -> a ∈ F o -> a ∈ F o' -> o = o' }.

(** The part of the state the free-list operations leave alone. *)
Definition meta_eq (s s' : pmm) : Prop :=
  total_pages s = total_pages s' /\ order_map s = order_map s' /\
  status_map s = status_map s' /\ refcount_map s = refcount_map s' /\
  used_pages s = used_pages s' /\ alloc_count s = alloc_count s'.

Lemma add_meta a o s : meta_eq (buddy_add_to_free_list a o s) s.
Proof. unfold buddy_add_to_free_list. cbn. by case_match. Qed.

Lemma remove_meta a o s : meta_eq (buddy_remove_from_free_list a o s) s.
Proof. unfold buddy_remove_from_free_list. by repeat case_match. Qed.

Section MetaEq.
Context (s s' : pmm) (E : meta_eq s s').

Lemma meta_total : total_pages s = total_pages s'.
Proof using E. apply E. Qed.
Lemma meta_used : used_pages s = used_pages s'.
Proof using E. apply E. Qed.
Lemma meta_refcount : refcount_map s = refcount_map s'.
Proof using E. apply E. Qed.
Lemma meta_order p : buddy_get_order p s = buddy_get_order p s'.
Proof using E. unfold buddy_get_order. by destruct E as (_ & -> & _). Qed.
Lemma meta_allocated p : buddy_is_allocated p s = buddy_is_allocated p s'.
Proof using E. unfold buddy_is_allocated. by destruct E as (_ & _ & -> & _). Qed.
End MetaEq.

Lemma add_lists s F a o :
  lists_ok s F -> orders o -> a <> 0 -> (forall o', orders o' -> a ∉ F o') ->
  lists_ok (buddy_add_to_free_list a o s) F.[o <- a :: F o].
Proof.
  intros [D S] Ho Ha Hnot.
  pose proof (dlist_head _ _ _ (D o Ho)) as Hhd.
  set (h := free_lists s o) in *.
  assert (Hin : h <> 0 -> h ∈ F o).
  { rewrite Hhd. intros Hz. apply head_or_elem. by intros E; rewrite E in Hz. }
  assert (Hha : h <> a) by (intros ->; by apply (Hnot o Ho), Hin).
  assert (Hb : forall x, blocks (buddy_add_to_free_list a o s) x =
    if decide (x = a) then mk_block h 0
    else if decide (x = h /\ h <> 0) then set_lprev a (blocks s h) else blocks s x).
  { intros x. unfold buddy_add_to_free_list. cbn. fold h.
    destruct (Z.eqb_spec h 0) as [E|E]; cbn.
    - rewrite upd_cases. repeat case_decide; tauto.
    - rewrite (upd_ne _ a h), !upd_cases by done. repeat case_decide; subst; tauto. }
  split.
  - intros o' Ho'. rewrite upd_cases.
    assert (Hfl : free_lists (buddy_add_to_free_list a o s) o' =
      if decide (o' = o) then a else free_lists s o').
    { unfold buddy_add_to_free_list. cbn. case_match; cbn; by rewrite upd_cases. }
    rewrite Hfl. case_decide as E; [subst o'|].
    + apply (dlist_insert (blocks s) _ h [] (F o) a); [by apply D|done|by apply Hnot|..].
      * by rewrite Hb, decide_True.
      * rewrite Hb, decide_True by done. done.
      * intros x Hx. assert (x <> a) by (intros ->; by apply (Hnot o)).
        assert (x <> 0) by (by eapply dlist_nonzero; [apply D|]).
        rewrite Hb, <- Hhd, decide_False by done. cbn.
        repeat case_decide; subst; done || tauto.
    + eapply dlist_frame; [|by apply D]. intros x Hx.
      rewrite Hb, decide_False by (intros ->; by apply (Hnot o')).
      rewrite decide_False; [done|]. intros [-> Hz].
      apply E. eapply S; [done..|]. by apply Hin.
  - clear Hb. intros o1 o2 x H1 H2. rewrite !upd_cases. repeat case_decide; subst; try done.
    + intros [->|?]%elem_of_cons ?; [by destruct (Hnot o2)|]. by eapply S.
    + intros ? [->|?]%elem_of_cons; [by destruct (Hnot o1)|]. by eapply S.
    + apply S; done.
Qed.

Lemma remove_lists s F a o l1 l2 :
  lists_ok s F -> orders o -> F o = l1 ++ a :: l2 ->
  lists_ok (buddy_remove_from_free_list a o s) F.[o <- l1 ++ l2].
Proof.
  intros [D S] Ho HF. pose proof (D o Ho) as Hd. rewrite HF in Hd.
  destruct (dlist_links _ _ _ _ _ Hd) as (Hp & Hn & Ha & Ha1 & Ha2 & Hnd).
  set (p := lprev (blocks s a)) in *. set (n := lnext (blocks s a)) in *.
  assert (Hpa : p <> a).
  { rewrite Hp. destruct l1; [done|]. intros E. apply Ha1. rewrite <- E.
    by apply last_or_elem. }
  assert (Hna : n <> a).
  { rewrite Hn. destruct l2; [done|]. intros E. apply Ha2. rewrite <- E.
    by apply head_or_elem. }
  assert (Hb : forall x, x <> 0 ->
    lnext (blocks (buddy_remove_from_free_list a o s) x) =
      (if decide (x = p) then n else lnext (blocks s x)) /\
    lprev (blocks (buddy_remove_from_free_list a o s) x) =
      (if decide (x = n) then p else lprev (blocks s x))).
  { intros x Hx. unfold buddy_remove_from_free_list.
    change (prev (blocks s a)) with p. change (next (blocks s a)) with n.
    destruct (Z.eqb_spec p 0) as [Ep|Ep]; cbn [blocks set_blocks set_free_lists].
    - change (next (blocks s a)) with n. change (prev (blocks s a)) with p.
      destruct (Z.eqb_spec n 0); cbn [blocks set_blocks]; rewrite ?upd_cases;
        repeat case_decide; subst; cbn; done || congruence.
    - rewrite (upd_ne _ p a) by done.
      change (next (blocks s a)) with n. change (prev (blocks s a)) with p.
      destruct (Z.eqb_spec n 0); cbn [blocks set_blocks]; rewrite ?upd_cases;
        repeat case_decide; subst; cbn; done || congruence. }
  split.
  - intros o' Ho'. rewrite upd_cases.
    assert (Hfl : free_lists (buddy_remove_from_free_list a o s) o' =
      if decide (o' = o /\ p = 0) then n else free_lists s o').
    { unfold buddy_remove_from_free_list.
      change (prev (blocks s a)) with p. change (next (blocks s a)) with n.
      destruct (Z.eqb_spec p 0); case_match; cbn; rewrite ?upd_cases;
        repeat case_decide; tauto. }
    rewrite Hfl. clear Hfl. destruct (decide (o' = o)) as [->|E].
    + replace (if decide (o = o /\ p = 0) then n else free_lists s o)
        with (if decide (lprev (blocks s a) = 0) then lnext (blocks s a) else free_lists s o)
        by (fold p n; repeat case_decide; tauto).
      eapply dlist_remove; [done|]. intros x Hx. apply Hb.
      eapply dlist_nonzero; [done|]. set_solver.
    + rewrite decide_False by tauto.
      eapply dlist_frame; [|by apply D]. intros x Hx.
      assert (x <> 0) by (by eapply dlist_nonzero; [apply D|]).
      assert (Hxo : x ∉ F o) by (intros ?; apply E; by eapply S).
      destruct (Hb x) as [-> ->]; [done|].
      rewrite !decide_False; [done| |].
      * intros ->. rewrite HF, Hn in *. destruct l2; [done|]. apply Hxo. cbn. set_solver.
      * intros ->. apply Hxo. rewrite HF, Hp in *. destruct l1; [done|].
        apply elem_of_app. left. by apply last_or_elem.
  - clear Hb. intros o1 o2 x H1 H2. rewrite !upd_cases. repeat case_decide; subst; try done;
      intros ??; (eapply S; [done..| |]); try rewrite HF; set_solver.
Qed.
