(* ===== verification/PmmSteps.v ===== *)
(** The elementary steps of the buddy allocator keep its invariant: taking a
    block off a free list, putting one on, splitting the block in hand, merging
    it with its buddy, marking it allocated and releasing an allocated block. *)

From S2P Require Import Prelude Dll Pmm PmmMeta PmmInv.
From Stdlib Require Import ZArith Lia Bool.
From stdpp Require Import base tactics numbers list sets gmap.
Open Scope Z_scope.

(** The block [(p, o)] is allocated: its first page carries the mark. *)
Definition used_block (s : pmm) (p o : Z) : Prop :=
  0 <= p < total_pages s /\ buddy_is_allocated p s = true /\ buddy_get_order p s = o.

(** The block [(p, o)] is on its free list. *)
Definition free_block (F : Z -> list Z) (p o : Z) : Prop :=
  orders o /\ PMM_PAGE_SIZE * p ∈ F o.

Definition blk (s : pmm) (F : Z -> list Z) (L : option (Z * Z)) (p o : Z) : Prop :=
  used_block s p o \/ free_block F p o \/ L = Some (p, o).

(** The invariant, with the block in hand [L]. *)
Record binv (s : pmm) (F : Z -> list Z) (L : option (Z * Z)) : Prop := {
  bi_total : 0 <= total_pages s <= 2 ^ 20;
  bi_lists : lists_ok s F;
  bi_free o a : orders o -> a ∈ F o ->
    0 < a /\ a mod PMM_PAGE_SIZE = 0 /\
    buddy_is_allocated (a / PMM_PAGE_SIZE) s = false /\
    buddy_get_order (a / PMM_PAGE_SIZE) s = o;
  bi_hand p o : L = Some (p, o) ->
    0 < p /\ buddy_is_allocated p s = false /\
    (forall o', orders o' -> PMM_PAGE_SIZE * p ∉ F o');
  bi_part : page_partition (total_pages s) (blk s F L) }.

Definition buddy_inv (s : pmm) (F : Z -> list Z) : Prop := binv s F None.

Lemma page_of_addr p : PMM_PAGE_SIZE * p / PMM_PAGE_SIZE = p.
Proof. unfold PMM_PAGE_SIZE. dlia. Qed.

Lemma addr_of_page a : a mod PMM_PAGE_SIZE = 0 -> PMM_PAGE_SIZE * (a / PMM_PAGE_SIZE) = a.
Proof. unfold PMM_PAGE_SIZE. dlia. Qed.

Section Inv.
Context (s : pmm) (F : Z -> list Z) (L : option (Z * Z)) (I : binv s F L).

Lemma bi_wf p o : blk s F L p o ->
  0 <= p /\ orders o /\ p mod 2 ^ o = 0 /\ p + 2 ^ o <= total_pages s.
Proof using I. apply (part_wf _ _ (bi_part _ _ _ I)). Qed.

Lemma bi_page_range p o : blk s F L p o -> 0 <= p < total_pages s /\ p < 2 ^ 20.
Proof using I.
  intros H. destruct (bi_wf p o H) as (? & [? _] & _ & ?).
  pose proof (bi_total _ _ _ I). pose proof (Z.pow_pos_nonneg 2 o). lia.
Qed.

(** A page is the head of at most one block. *)
Lemma bi_head_inj p o o' : blk s F L p o -> blk s F L p o' -> o = o'.
Proof using I.
  intros H H'. destruct (bi_wf _ _ H) as (_ & [? _] & _).
  destruct (bi_wf _ _ H') as (_ & [? _] & _).
  eapply (part_sep _ _ (bi_part _ _ _ I)); [done..| |]; by apply covers_head.
Qed.

(** The head of a block inside another block is that block. *)
Lemma bi_inside p o q k : blk s F L p o -> blk s F L q k -> covers p o q -> q = p /\ k = o.
Proof using I.
  intros H H' Hc. destruct (bi_wf _ _ H') as (_ & [? _] & _).
  destruct (part_sep _ _ (bi_part _ _ _ I) p o q k q H H' Hc) as [-> ->]; [|done].
  by apply covers_head.
Qed.

Lemma bi_free_block p o : free_block F p o ->
  0 < p /\ buddy_is_allocated p s = false /\ buddy_get_order p s = o.
Proof using I.
  intros [Ho Hin]. destruct (bi_free _ _ _ I _ _ Ho Hin) as (H1 & _ & H2 & H3).
  rewrite page_of_addr in *. unfold PMM_PAGE_SIZE in H1. repeat split; [lia|done..].
Qed.
End Inv.

(** Pages to write to, as seen by the packed maps. *)
Lemma set_order_meta p o s :
  total_pages (buddy_set_order p o s) = total_pages s /\
  (forall q, buddy_is_allocated q (buddy_set_order p o s) = buddy_is_allocated q s) /\
  blocks (buddy_set_order p o s) = blocks s /\
  free_lists (buddy_set_order p o s) = free_lists s.
Proof. done. Qed.

Lemma lists_ok_ext s s' F :
  blocks s' = blocks s -> free_lists s' = free_lists s -> lists_ok s F -> lists_ok s' F.
Proof. intros E1 E2 [D S]. split; [|done]. intros o Ho. rewrite E1, E2. by apply D. Qed.

(** *** Taking a block off its list *)
Lemma step_take s F a o l1 l2 :
  binv s F None -> orders o -> F o = l1 ++ a :: l2 ->
  binv (buddy_remove_from_free_list a o s) F.[o <- l1 ++ l2] (Some (a / PMM_PAGE_SIZE, o)).
Proof.
  intros I Ho HF. pose proof (remove_meta a o s) as M.
  assert (Hin : a ∈ F o) by (rewrite HF; set_solver).
  destruct (bi_free _ _ _ I o a Ho Hin) as (Ha & Hal & Hst & _).
  assert (Hnd : a ∉ l1 ++ l2).
  { pose proof (lists_dlist _ _ (bi_lists _ _ _ I) o Ho) as Hd. rewrite HF in Hd.
    destruct (dlist_links _ _ _ _ _ Hd) as (_ & _ & _ & ? & ? & _). set_solver. }
  assert (Hsub : forall o' x, x ∈ F.[o <- l1 ++ l2] o' -> x ∈ F o' /\ x <> a \/ o' <> o /\ x ∈ F o').
  { intros o' x. rewrite upd_cases. case_decide; subst; [|tauto].
    rewrite HF. set_solver. }
  split.
  - rewrite (meta_total _ _ M). apply (bi_total _ _ _ I).
  - by apply remove_lists; [apply (bi_lists _ _ _ I)| |].
  - intros o' x Ho' Hx. rewrite (meta_allocated _ _ M), (meta_order _ _ M).
    apply (bi_free _ _ _ I); [done|]. destruct (Hsub o' x Hx); tauto.
  - intros p k [= <- <-]. rewrite (meta_allocated _ _ M), addr_of_page by done.
    split; [unfold PMM_PAGE_SIZE in *; dlia|]. split; [done|].
    intros o' Ho' Hx. destruct (Hsub o' a Hx) as [[_ ?]|[Hne Hx']]; [done|].
    apply Hne. by eapply (lists_sep _ _ (bi_lists _ _ _ I)).
  - rewrite (meta_total _ _ M).
    eapply partition_ext; [|apply (bi_part _ _ _ I)]. intros p k.
    unfold blk, used_block, free_block.
    rewrite (meta_total _ _ M), (meta_allocated _ _ M), (meta_order _ _ M), upd_cases.
    split; intros [?|[[Hk Hx]|HL]]; try tauto; try discriminate.
    + destruct (decide (PMM_PAGE_SIZE * p = a)) as [<-|Hne].
      * right; right. rewrite page_of_addr.
        by rewrite (lists_sep _ _ (bi_lists _ _ _ I) k o _ Hk Ho Hx Hin).
      * right; left. split; [done|]. case_decide; subst; [|done].
        rewrite HF in Hx. set_solver.
    + right; left. split; [done|]. case_decide; subst; [|done]. rewrite HF. set_solver.
    + injection HL as <- <-. right; left. by rewrite addr_of_page.
Qed.

(** *** Putting the block in hand on its list *)
Lemma step_put s F p o :
  binv s F (Some (p, o)) -> buddy_get_order p s = o ->
  buddy_inv (buddy_add_to_free_list (PMM_PAGE_SIZE * p) o s)
    F.[o <- (PMM_PAGE_SIZE * p) :: F o].
Proof.
  intros I Hord. set (a := PMM_PAGE_SIZE * p). pose proof (add_meta a o s) as M.
  destruct (bi_hand _ _ _ I p o eq_refl) as (Hp & Hst & Hnot).
  assert (Hb : blk s F (Some (p, o)) p o) by (right; by right).
  destruct (bi_wf _ _ _ I _ _ Hb) as (_ & Ho & _).
  assert (Hmem : forall k x, x ∈ F.[o <- a :: F o] k <-> (k = o /\ x = a) \/ x ∈ F k).
  { intros k x. rewrite upd_cases. case_decide; subst; set_solver. }
  split.
  - rewrite (meta_total _ _ M). apply (bi_total _ _ _ I).
  - apply add_lists; [apply (bi_lists _ _ _ I)|done|unfold a, PMM_PAGE_SIZE; lia|done].
  - intros k x Hk Hx. rewrite (meta_allocated _ _ M), (meta_order _ _ M).
    apply Hmem in Hx as [[-> ->]|Hx]; [|by apply (bi_free _ _ _ I)].
    unfold a. rewrite page_of_addr. repeat split; try done; unfold PMM_PAGE_SIZE; dlia.
  - done.
  - rewrite (meta_total _ _ M).
    eapply partition_ext; [|apply (bi_part _ _ _ I)]. intros q k.
    unfold blk, used_block, free_block.
    rewrite (meta_total _ _ M), (meta_allocated _ _ M), (meta_order _ _ M), Hmem.
    split; intros [?|[[Hk Hx]|HL]]; try tauto; try discriminate.
    + injection HL as <- <-. right; left. tauto.
    + destruct Hx as [[-> Hx]|Hx]; [|tauto]. right; right.
      unfold a, PMM_PAGE_SIZE in Hx. repeat f_equal. lia.
Qed.

(** *** Marking the block in hand allocated, and releasing an allocated block *)
Lemma step_commit s F p o :
  binv s F (Some (p, o)) ->
  let s' := buddy_mark_allocated p (buddy_set_order p o s) in
  buddy_inv s' F /\
  (forall q k, used_block s' q k <-> used_block s q k \/ (q = p /\ k = o)).
Proof.
  intros I s'.
  destruct (bi_hand _ _ _ I p o eq_refl) as (Hp & Hst & Hnot).
  assert (Hb : blk s F (Some (p, o)) p o) by (right; by right).
  destruct (bi_wf _ _ _ I _ _ Hb) as (_ & [Ho1 Ho2] & _). unfold BUDDY_MAX_ORDER in Ho2.
  destruct (bi_page_range _ _ _ I _ _ Hb) as [Hr Hr'].
  assert (Hal : forall q, 0 <= q -> buddy_is_allocated q s' =
    if decide (q = p) then true else buddy_is_allocated q s)
    by (intros q Hq; unfold s'; rewrite mark_allocated_spec by lia; done).
  assert (Hor : forall q, 0 <= q < 2 ^ 20 -> buddy_get_order q s' =
    if decide (q = p) then o else buddy_get_order q s)
    by (intros q Hq; unfold s'; change (buddy_get_order q (buddy_mark_allocated p ?t))
          with (buddy_get_order q t); by rewrite get_set_order by lia).
  assert (Ht : total_pages s' = total_pages s) by done.
  pose proof (bi_total _ _ _ I) as Htot. split.
  2: { intros q k. unfold used_block. rewrite Ht. split.
       - intros (Hq & Hqa & Hqo). rewrite Hal, Hor in * by lia.
         case_decide; [right; done | left; done].
       - intros [(Hq & Hqa & Hqo)|[-> ->]]; rewrite Hal, Hor by lia; [|by rewrite !decide_True].
         case_decide; [|done]. subst. congruence. }
  split; [done| | |done|].
  - eapply lists_ok_ext; [..|apply (bi_lists _ _ _ I)]; done.
  - intros k a Hk Ha. destruct (bi_free _ _ _ I k a Hk Ha) as (H1 & H2 & H3 & H4).
    assert (Hq : a / PMM_PAGE_SIZE <> p).
    { intros E. apply (Hnot k Hk). rewrite <- E, addr_of_page by done. done. }
    assert (free_block F (a / PMM_PAGE_SIZE) k) by (split; [done|by rewrite addr_of_page]).
    destruct (bi_page_range _ _ _ I (a / PMM_PAGE_SIZE) k) as [??]; [unfold blk; tauto|].
    rewrite Hal, Hor, !decide_False by (done || lia). done.
  - rewrite Ht. eapply partition_ext; [|apply (bi_part _ _ _ I)]. intros q k.
    unfold blk, used_block. rewrite Ht. split.
    + intros [(Hq & Hqa & Hqo)|[?|HL]].
      * left. rewrite Hal, Hor by lia. case_decide; [|done]. subst. congruence.
      * tauto.
      * injection HL as <- <-. left. rewrite Hal, Hor, !decide_True by (done || lia). done.
    + intros [(Hq & Hqa & Hqo)|[?|?]]; [|tauto|done].
      rewrite Hal, Hor in * by lia. case_decide; [subst; tauto|tauto].
Qed.

Lemma step_release s F p o :
  buddy_inv s F -> used_block s p o -> 0 < p ->
  binv (buddy_mark_free p s) F (Some (p, o)) /\
  (forall q k, used_block (buddy_mark_free p s) q k <->
     used_block s q k /\ ~ (q = p /\ k = o)).
Proof.
  intros I Hu Hp. set (s' := buddy_mark_free p s).
  assert (Hb : blk s F None p o) by (by left).
  destruct Hu as (Hr & Hpa & Hpo).
  assert (Hal : forall q, 0 <= q -> buddy_is_allocated q s' =
    if decide (q = p) then false else buddy_is_allocated q s)
    by (intros q Hq; unfold s'; by rewrite mark_free_spec by lia).
  assert (Ht : total_pages s' = total_pages s) by done.
  split.
  2: { intros q k. unfold used_block. rewrite Ht.
       change (buddy_get_order q s') with (buddy_get_order q s). split.
       - intros (Hq & Hqa & Hqo). rewrite Hal in Hqa by lia. case_decide; [done|tauto].
       - intros [(Hq & Hqa & Hqo) Hne]. rewrite Hal by lia.
         rewrite decide_False; [done|]. intros ->. apply Hne. split; [done|congruence]. }
  split.
  - apply (bi_total _ _ _ I).
  - eapply lists_ok_ext; [..|apply (bi_lists _ _ _ I)]; done.
  - intros k a Hk Ha. destruct (bi_free _ _ _ I k a Hk Ha) as (H1 & H2 & H3 & H4).
    rewrite Hal by (unfold PMM_PAGE_SIZE; dlia). repeat split; try done. by case_decide.
  - intros q k [= <- <-]. rewrite Hal, decide_True by (done || lia).
    repeat split; [done..|]. intros k Hk Hin.
    destruct (bi_free _ _ _ I k _ Hk Hin) as (_ & _ & H3 & _).
    rewrite page_of_addr in H3. congruence.
  - rewrite Ht. eapply partition_ext; [|apply (bi_part _ _ _ I)]. intros q k.
    unfold blk, used_block. rewrite Ht.
    change (buddy_get_order q s') with (buddy_get_order q s). split.
    + intros [(Hq & Hqa & Hqo)|[?|?]]; [|tauto|done].
      destruct (decide (q = p)) as [->|Hne].
      * right; right. congruence.
      * left. rewrite Hal, decide_False by (done || lia). done.
    + intros [(Hq & Hqa & Hqo)|[?|HL]]; [|tauto|].
      * rewrite Hal in Hqa by lia. case_decide; [done|tauto].
      * injection HL as <- <-. tauto.
Qed.

(** *** Splitting the block in hand: the upper half goes on its list *)
Lemma step_split s F p o :
  binv s F (Some (p, o + 1)) -> 0 <= o ->
  let b := p + 2 ^ o in
  let s' := buddy_mark_free b (buddy_set_order b o
              (buddy_add_to_free_list (PMM_PAGE_SIZE * b) o s)) in
  binv s' F.[o <- (PMM_PAGE_SIZE * b) :: F o] (Some (p, o)) /\
  (forall q k, used_block s' q k <-> used_block s q k).
Proof.
  intros I Ho0 b s'. set (a := PMM_PAGE_SIZE * b). pose proof (add_meta a o s) as M.
  fold a in s'. set (s1 := buddy_add_to_free_list a o s) in *.
  destruct (bi_hand _ _ _ I p (o + 1) eq_refl) as (Hp & Hst & Hnot).
  assert (Hb : blk s F (Some (p, o + 1)) p (o + 1)) by (right; by right).
  destruct (bi_wf _ _ _ I _ _ Hb) as (Hp0 & [_ Ho] & Hal & Hend).
  pose proof (bi_total _ _ _ I) as Htot. unfold BUDDY_MAX_ORDER in Ho.
  assert (Hpow : 0 < 2 ^ o) by (apply Z.pow_pos_nonneg; lia).
  pose proof (pow_succ o Ho0) as Hs.
  assert (Hoo : orders o) by (unfold orders, BUDDY_MAX_ORDER; lia).
  assert (Hbc : covers p (o + 1) b) by (unfold covers, b; lia).
  (* no block starts at the upper half *)
  assert (Hbn : forall k, ~ blk s F (Some (p, o + 1)) b k).
  { intros k Hk. destruct (bi_inside _ _ _ I _ _ _ _ Hb Hk Hbc). unfold b in *. lia. }
  assert (Hba : buddy_is_allocated b s = false).
  { destruct (buddy_is_allocated b s) eqn:E; [|done]. exfalso.
    apply (Hbn (buddy_get_order b s)). left. split; [unfold b in *; lia | done]. }
  assert (HbF : forall k, orders k -> a ∉ F k).
  { intros k Hk Hin. apply (Hbn k). right; left. by split. }
  assert (Hal' : forall q, 0 <= q -> buddy_is_allocated q s' = buddy_is_allocated q s).
  { intros q Hq. unfold s'. rewrite mark_free_spec by (unfold b; lia).
    change (buddy_is_allocated q (buddy_set_order b o s1)) with (buddy_is_allocated q s1).
    rewrite (meta_allocated _ _ M). case_decide; [by subst|done]. }
  assert (Hor : forall q, 0 <= q < 2 ^ 20 -> buddy_get_order q s' =
    if decide (q = b) then o else buddy_get_order q s).
  { intros q Hq. unfold s'.
    change (buddy_get_order q (buddy_mark_free b ?t)) with (buddy_get_order q t).
    rewrite get_set_order by (unfold b in *; lia). by rewrite (meta_order _ _ M). }
  assert (Ht : total_pages s' = total_pages s) by apply (meta_total _ _ M).
  assert (Hmem : forall k x, x ∈ F.[o <- a :: F o] k <-> (k = o /\ x = a) \/ x ∈ F k).
  { intros k x. rewrite upd_cases. case_decide; subst; set_solver. }
  split.
  2: { intros q k. unfold used_block. rewrite Ht.
       split; intros (Hq & Hqa & Hqo); (split; [done|]).
       - rewrite Hal' in Hqa by lia. rewrite Hor, decide_False in Hqo by (congruence || lia). done.
       - rewrite Hal', Hor, decide_False by (congruence || lia). done. }
  split.
  - by rewrite Ht.
  - eapply (lists_ok_ext s1); [done..|].
    apply add_lists; [apply (bi_lists _ _ _ I)|done|unfold a, b, PMM_PAGE_SIZE; lia|done].
  - intros k x Hk Hx. apply Hmem in Hx as [[-> ->]|Hx].
    + unfold a. rewrite page_of_addr, Hal', Hor, decide_True by (done || unfold b in *; lia).
      repeat split; try done; unfold b, PMM_PAGE_SIZE; dlia.
    + destruct (bi_free _ _ _ I k x Hk Hx) as (H1 & H2 & H3 & H4).
      assert (Hf : blk s F (Some (p, o + 1)) (x / PMM_PAGE_SIZE) k).
      { right; left. split; [done|]. by rewrite addr_of_page. }
      destruct (bi_page_range _ _ _ I _ _ Hf).
      rewrite Hal', Hor, decide_False by (lia || (intros E; rewrite E in Hf; by apply (Hbn k))).
      done.
  - intros q k [= <- <-]. rewrite Hal' by lia. repeat split; [done..|].
    intros k Hk [[-> Hx]|Hx]%Hmem; [|by apply (Hnot k)].
    unfold a, b, PMM_PAGE_SIZE in Hx. lia.
  - rewrite Ht. eapply partition_ext; [|apply (partition_split _ _ (bi_part _ _ _ I) p o); done].
    intros q k. unfold split_blocks, blk, used_block, free_block. rewrite Ht, Hmem.
    split.
    + intros [[[(Hq & Hqa & Hqo)|[[Hk Hx]|HL]] Hne]|[[-> ->]|[-> ->]]].
      * left. rewrite Hal', Hor by lia. rewrite decide_False; [done|].
        intros ->. congruence.
      * right; left. tauto.
      * exfalso. injection HL as <- <-. tauto.
      * tauto.
      * right; left. tauto.
    + intros [(Hq & Hqa & Hqo)|[[Hk [[-> Hx]|Hx]]|HL]].
      * rewrite Hal' in Hqa by lia. rewrite Hor in Hqo by lia.
        rewrite decide_False in Hqo by congruence. left. split; [tauto|].
        intros [-> ->]. congruence.
      * right; right. split; [|done]. unfold a, b, PMM_PAGE_SIZE in Hx. unfold b. lia.
      * left. split; [tauto|]. intros [-> ->]. by apply (Hnot (o + 1)).
      * injection HL as <- <-. tauto.
Qed.

(** *** Merging the block in hand with its buddy *)

(** [b] is the other half of the block of order [o + 1] around [p]. *)
Definition is_buddy (p b o : Z) : Prop :=
  (b = p + 2 ^ o /\ p mod 2 ^ (o + 1) = 0) \/ (p = b + 2 ^ o /\ b mod 2 ^ (o + 1) = 0).

Lemma step_merge s F p b o l1 l2 :
  binv s F (Some (p, o)) -> o < BUDDY_MAX_ORDER -> is_buddy p b o ->
  F o = l1 ++ (PMM_PAGE_SIZE * b) :: l2 ->
  let m := Z.min p b in
  let s' := buddy_set_order m (o + 1)
              (buddy_remove_from_free_list (PMM_PAGE_SIZE * b) o s) in
  binv s' F.[o <- l1 ++ l2] (Some (m, o + 1)) /\
  (forall q k, used_block s' q k <-> used_block s q k).
Proof.
  intros I Ho1 Hbud HF m s'. set (a := PMM_PAGE_SIZE * b). pose proof (remove_meta a o s) as M.
  fold a in s'. set (s1 := buddy_remove_from_free_list a o s) in *.
  unfold BUDDY_MAX_ORDER in Ho1.
  destruct (bi_hand _ _ _ I p o eq_refl) as (Hp & Hst & Hnot).
  assert (Hpb : blk s F (Some (p, o)) p o) by (right; by right).
  destruct (bi_wf _ _ _ I _ _ Hpb) as (_ & Ho & _).
  assert (Hbin : a ∈ F o) by (rewrite HF; unfold a; set_solver).
  assert (Hbb : blk s F (Some (p, o)) b o) by (right; left; by split).
  assert (Hbf : free_block F b o) by (by split).
  destruct (bi_free_block _ _ _ I b o Hbf) as (Hb0 & Hba & _).
  destruct (bi_page_range _ _ _ I _ _ Hpb) as [Hpr Hpr'].
  destruct (bi_page_range _ _ _ I _ _ Hbb) as [Hbr Hbr'].
  assert (Hpow : 0 < 2 ^ o) by (apply Z.pow_pos_nonneg; apply Ho || lia).
  assert (Hne : p <> b) by (destruct Hbud as [[-> _]|[-> _]]; lia).
  assert (Hm : m = p /\ b = m + 2 ^ o /\ m mod 2 ^ (o + 1) = 0 \/
               m = b /\ p = m + 2 ^ o /\ m mod 2 ^ (o + 1) = 0).
  { unfold m. destruct Hbud as [[-> ?]|[-> ?]]; [left|right];
      [rewrite Z.min_l by lia | rewrite Z.min_r by lia]; done. }
  assert (Hnd : a ∉ l1 ++ l2).
  { pose proof (lists_dlist _ _ (bi_lists _ _ _ I) o Ho) as Hd. rewrite HF in Hd.
    destruct (dlist_links _ _ _ _ _ Hd) as (_ & _ & _ & ? & ? & _). unfold a. set_solver. }
  assert (Hmem : forall k x, x ∈ F.[o <- l1 ++ l2] k <-> x ∈ F k /\ ~ (k = o /\ x = a)).
  { intros k x. rewrite upd_cases. case_decide; [subst k; rewrite HF; fold a|]; set_solver. }
  assert (HaF : forall k, orders k -> a ∈ F k -> k = o)
    by (intros k Hk Hin; by eapply (lists_sep _ _ (bi_lists _ _ _ I))).
  assert (Ht : total_pages s' = total_pages s) by apply (meta_total _ _ M).
  assert (Hal : forall q, buddy_is_allocated q s' = buddy_is_allocated q s)
    by (intros q; apply (meta_allocated _ _ M)).
  assert (Hmr : 0 < m /\ m < 2 ^ 20 /\ buddy_is_allocated m s = false)
    by (destruct Hm as [(-> & _)|(-> & _)]; done).
  destruct Hmr as (Hm0 & Hm20 & Hma).
  pose proof (bi_total _ _ _ I) as Htot.
  assert (Hor : forall q, 0 <= q < 2 ^ 20 -> buddy_get_order q s' =
    if decide (q = m) then o + 1 else buddy_get_order q s).
  { intros q Hq. unfold s'. unfold orders in Ho. rewrite get_set_order by lia.
    by rewrite (meta_order _ _ M). }
  split.
  2: { intros q k. unfold used_block. rewrite Ht, Hal.
       split; intros (Hq & Hqa & Hqo); (split; [done|]).
       - rewrite Hor, decide_False in Hqo by (congruence || lia). done.
       - rewrite Hor, decide_False by (congruence || lia). done. }
  split.
  - by rewrite Ht.
  - eapply (lists_ok_ext s1); [done..|]. by apply remove_lists; [apply (bi_lists _ _ _ I)| |].
  - intros k x Hk [Hx Hxa]%Hmem. destruct (bi_free _ _ _ I k x Hk Hx) as (H1 & H2 & H3 & H4).
    assert (Hf : blk s F (Some (p, o)) (x / PMM_PAGE_SIZE) k).
    { right; left. split; [done|]. by rewrite addr_of_page. }
    destruct (bi_page_range _ _ _ I _ _ Hf).
    rewrite Hal, Hor, decide_False; [done| |lia].
    intros E. assert (Hx' : x = PMM_PAGE_SIZE * m) by (rewrite <- E; by rewrite addr_of_page).
    destruct Hm as [(Em & _)|(Em & _)]; rewrite Em in Hx'.
    + apply (Hnot k Hk). by rewrite <- Hx'.
    + apply Hxa. split; [|done]. apply HaF; [done|]. unfold a. by rewrite <- Hx'.
  - intros q k [= <- <-]. rewrite Hal. repeat split; [done..|].
    intros k Hk [Hx Hxa]%Hmem. destruct Hm as [(Em & _)|(Em & _)]; rewrite Em in *.
    + by apply (Hnot k).
    + apply Hxa. split; [|done]. by apply HaF.
  - rewrite Ht. eapply partition_ext; [|apply (partition_merge _ _ (bi_part _ _ _ I) m o)].
    2-4: destruct Hm as [(-> & E & ?)|(-> & E & ?)]; rewrite <- ?E; done.
    2: unfold BUDDY_MAX_ORDER; lia.
    intros q k. unfold merge_blocks.
    assert (Hpm : (q = m /\ k = o) \/ (q = m + 2 ^ o /\ k = o) <->
                  (q = p /\ k = o) \/ (q = b /\ k = o))
      by (destruct Hm as [(-> & <- & _)|(-> & <- & _)]; tauto).
    unfold blk, used_block, free_block. rewrite Ht, Hmem, Hal. split.
    + intros [([(Hq & Hqa & Hqo)|[[Hk Hx]|HL]] & N1 & N2)|[-> ->]].
      * left. rewrite Hor by lia. rewrite decide_False; [done|]. congruence.
      * right; left. split; [done|]. split; [done|]. intros [-> E].
        assert (q = b) by (unfold a, PMM_PAGE_SIZE in E; lia). tauto.
      * injection HL as <- <-. tauto.
      * tauto.
    + intros [(Hq & Hqa & Hqo)|[[Hk [Hx Hxa]]|HL]].
      * rewrite Hor in Hqo by lia. rewrite decide_False in Hqo by congruence.
        left. split; [tauto|].
        enough (~ (q = p /\ k = o) /\ ~ (q = b /\ k = o)) by tauto.
        split; intros [-> _]; congruence.
      * left. split; [tauto|].
        enough (~ (q = p /\ k = o) /\ ~ (q = b /\ k = o)) by tauto.
        split; intros [-> ->]; [by apply (Hnot o) | tauto].
      * injection HL as <- <-. tauto.
Qed.

(** If the buddy of the block in hand looks free and of the same order, it is on
    the free list of that order. *)
Lemma buddy_on_list s F p b o :
  binv s F (Some (p, o)) -> o < BUDDY_MAX_ORDER -> is_buddy p b o ->
  0 <= b < total_pages s ->
  buddy_is_allocated b s = false -> buddy_get_order b s = o ->
  PMM_PAGE_SIZE * b ∈ F o.
Proof.
  intros I Ho Hbud Hb Hba Hbo.
  assert (Hpb : blk s F (Some (p, o)) p o) by (right; by right).
  destruct (bi_wf _ _ _ I _ _ Hpb) as (_ & Hoo & _).
  assert (Hpow : 0 < 2 ^ o) by (apply Z.pow_pos_nonneg; apply Hoo || lia).
  destruct (part_cov _ _ (bi_part _ _ _ I) b Hb) as (q & k & Hq & Hc).
  destruct (buddy_is_head _ _ (bi_part _ _ _ I) p b o q k Hpb Ho Hbud Hq Hc) as [-> Hk].
  destruct Hq as [(_ & Hqa & _)|[Hf|HL]]; [congruence| |].
  - destruct (bi_free_block _ _ _ I _ _ Hf) as (_ & _ & Hfo). destruct Hf as [_ Hf].
    by replace o with k by congruence.
  - injection HL as -> ->. exfalso. destruct Hbud as [[? _]|[? _]]; lia.
Qed.
