(* ===== verification/PmmAlloc.v ===== *)
(** Allocation of physical blocks: [buddy_alloc_order] and the public functions
    over it hand out aligned blocks that overlap nothing in use, split the
    smallest block that is large enough, and fail only when every list of
    sufficient order is empty. *)

From S2P Require Import Prelude Dll Pmm PmmMeta PmmInv PmmSteps.
From Stdlib Require Import ZArith Lia Bool.
From stdpp Require Import base tactics numbers list sets gmap.
Open Scope Z_scope.

(** What free-list and metadata updates do not touch. *)
Definition stats_eq (s s' : pmm) : Prop :=
  total_pages s' = total_pages s /\ refcount_map s' = refcount_map s /\
  used_pages s' = used_pages s /\ alloc_count s' = alloc_count s.

Lemma stats_refl s : stats_eq s s.
Proof. done. Qed.

Lemma stats_trans s1 s2 s3 : stats_eq s1 s2 -> stats_eq s2 s3 -> stats_eq s1 s3.
Proof.
  intros (A1 & A2 & A3 & A4) (B1 & B2 & B3 & B4).
  unfold stats_eq. by rewrite B1, B2, B3, B4.
Qed.

Lemma stats_add a o s : stats_eq s (buddy_add_to_free_list a o s).
Proof. destruct (add_meta a o s) as (A & _ & _ & B & C & D). done. Qed.

Lemma stats_remove a o s : stats_eq s (buddy_remove_from_free_list a o s).
Proof. destruct (remove_meta a o s) as (A & _ & _ & B & C & D). done. Qed.

Lemma stats_set_order p o s : stats_eq s (buddy_set_order p o s).
Proof. done. Qed.

Lemma stats_mark_free p s : stats_eq s (buddy_mark_free p s).
Proof. done. Qed.

Lemma stats_mark_allocated p s : stats_eq s (buddy_mark_allocated p s).
Proof. done. Qed.

#[export] Hint Resolve stats_refl stats_add stats_remove stats_set_order
  stats_mark_free stats_mark_allocated : stos.

Lemma shiftl_page o : 0 <= o -> Z.shiftl PMM_PAGE_SIZE o = PMM_PAGE_SIZE * 2 ^ o.
Proof. intros. by rewrite Z.shiftl_mul_pow2. Qed.

(** The address of the upper half, as the code computes it. *)
Lemma buddy_addr_upper p o :
  0 <= p -> 0 <= o -> p + 2 ^ o < 2 ^ 20 ->
  u32 (PMM_PAGE_SIZE * p + u32 (Z.shiftl PMM_PAGE_SIZE o)) = PMM_PAGE_SIZE * (p + 2 ^ o).
Proof.
  intros Hp Ho Hr. rewrite shiftl_page by done.
  assert (0 < 2 ^ o) by (apply Z.pow_pos_nonneg; lia). unfold PMM_PAGE_SIZE.
  rewrite (u32_small (4096 * 2 ^ o)) by lia. rewrite u32_small by lia. lia.
Qed.

(** Nothing is split off: the lists stay as they are. *)
Ltac no_split :=
  split; [done|]; split; [auto with stos|]; split; [done|];
  intros ??; split; [by left | intros [?|[? _]]; [done | lia]].

Lemma split_block_spec n s F p to :
  binv s F (Some (p, Z.of_nat n)) -> 0 <= to <= Z.of_nat n ->
  let s' := buddy_split_block (PMM_PAGE_SIZE * p) n to s in
  exists F', binv s' F' (Some (p, to)) /\ stats_eq s s' /\
    (forall q k, used_block s' q k <-> used_block s q k) /\
    (forall q k, free_block F' q k <->
       free_block F q k \/ (to <= k < Z.of_nat n /\ q = p + 2 ^ k)).
Proof.
  revert s F. induction n as [|n IH]; intros s F I Hto; cbn [buddy_split_block].
  { exists F. replace to with (Z.of_nat 0) by lia. no_split. }
  destruct (Z.ltb_spec to (Z.of_nat (S n))) as [Hlt|Hge].
  2: { exists F. replace to with (Z.of_nat (S n)) by lia. no_split. }
  set (o := Z.of_nat n).
  replace (Z.of_nat (S n)) with (o + 1) in * by (unfold o; lia).
  assert (Hb : blk s F (Some (p, o + 1)) p (o + 1)) by (right; by right).
  destruct (bi_wf _ _ _ I _ _ Hb) as (Hp & [_ Ho] & _ & Hend).
  pose proof (bi_total _ _ _ I) as Htot. pose proof (pow_succ o ltac:(lia)) as Hs.
  assert (Hpow : 0 < 2 ^ o) by (apply Z.pow_pos_nonneg; lia).
  rewrite buddy_addr_upper by lia. unfold pmm_addr_to_page. rewrite page_of_addr.
  destruct (step_split s F p o I ltac:(lia)) as [I' HU].
  set (s1 := buddy_mark_free _ _) in *.
  destruct (IH s1 _ I' ltac:(lia)) as (F' & I'' & St & HU' & HF'). exists F'.
  split; [done|]. split; [|split].
  - eapply stats_trans; [|done]. apply (stats_add (PMM_PAGE_SIZE * (p + 2 ^ o)) o s).
  - intros q k. by rewrite HU', HU.
  - intros q k. rewrite HF'. unfold free_block at 1. rewrite upd_cases.
    assert (Hoo : orders o) by (unfold orders, BUDDY_MAX_ORDER in *; lia).
    unfold free_block. case_decide; subst; [rewrite elem_of_cons|].
    + assert (PMM_PAGE_SIZE * q = PMM_PAGE_SIZE * (p + 2 ^ o) <-> q = p + 2 ^ o)
        by (unfold PMM_PAGE_SIZE; lia). split.
      * intros [[? [?|?]]|[? ?]]; [right; split; [lia|tauto]|tauto|right; split; [lia|done]].
      * intros [?|[? ->]]; tauto.
    + split; intros [?|[? ?]]; try tauto; right; split; [lia|done|lia|done].
Qed.

(** The loop over the free lists. *)
Lemma find_order_spec n o s :
  let c := find_order_loop n o s in
  o <= c <= o + Z.of_nat n /\
  (forall k, o <= k < c -> free_lists s k = 0) /\
  (c < o + Z.of_nat n -> free_lists s c <> 0).
Proof.
  revert o. induction n as [|n IH]; intros o; cbn [find_order_loop].
  - repeat split; lia.
  - destruct (Z.eqb_spec (free_lists s o) 0) as [E|E].
    + destruct (IH (o + 1)) as (H1 & H2 & H3). repeat split; [lia..| |].
      * intros k Hk. destruct (decide (k = o)); [by subst | apply H2; lia].
      * intros. apply H3. lia.
    + repeat split; [lia..|done].
Qed.

(** The effect of a successful allocation of order [o], as a relation between
    the allocator's blocks before and after: the block [(p, c)] of the smallest
    sufficient order is taken, its lower part [(p, o)] is now in use, and the
    upper halves left over by the splits are free. *)
Record alloc_effect (o p c : Z) (s : pmm) (F : Z -> list Z) (s' : pmm) (F' : Z -> list Z) : Prop := {
  ae_order : o <= c <= BUDDY_MAX_ORDER;
  ae_least k : o <= k < c -> F k = [];
  ae_taken : free_block F p c;
  ae_used q k : used_block s' q k <-> used_block s q k \/ (q = p /\ k = o);
  ae_free q k : free_block F' q k <->
    (free_block F q k /\ ~ (q = p /\ k = c)) \/ (o <= k < c /\ q = p + 2 ^ k);
  ae_refcount q : refcount_map s' q =
    if decide (p <= q < p + 2 ^ o) then 1 else refcount_map s q;
  ae_total : total_pages s' = total_pages s;
  ae_used_pages : used_pages s' = u32 (used_pages s + 2 ^ o);
  ae_count k : alloc_count s' k =
    if decide (k = o) then u32 (alloc_count s o + 1) else alloc_count s k }.

Lemma buddy_inv_ext s s' F :
  total_pages s' = total_pages s -> order_map s' = order_map s ->
  status_map s' = status_map s -> blocks s' = blocks s -> free_lists s' = free_lists s ->
  buddy_inv s F -> buddy_inv s' F.
Proof.
  intros E1 E2 E3 E4 E5 [T L Fr H P].
  assert (Ha : forall q, buddy_is_allocated q s' = buddy_is_allocated q s)
    by (intros; unfold buddy_is_allocated; by rewrite E3).
  assert (Ho : forall q, buddy_get_order q s' = buddy_get_order q s)
    by (intros; unfold buddy_get_order; by rewrite E2).
  split.
  - by rewrite E1.
  - by eapply lists_ok_ext.
  - intros o a. rewrite Ha, Ho. apply Fr.
  - done.
  - rewrite E1. eapply partition_ext; [|exact P]. intros p o.
    unfold blk, used_block. by rewrite E1, Ha, Ho.
Qed.

Lemma used_block_ext s s' q k :
  total_pages s' = total_pages s -> order_map s' = order_map s ->
  status_map s' = status_map s -> used_block s' q k <-> used_block s q k.
Proof.
  intros E1 E2 E3. unfold used_block, buddy_is_allocated, buddy_get_order.
  by rewrite E1, E2, E3.
Qed.

Lemma find_order_none s F o :
  buddy_inv s F -> orders o ->
  let c := find_order_loop (Z.to_nat (BUDDY_MAX_ORDER + 1 - o)) o s in
  o <= c <= BUDDY_MAX_ORDER + 1 /\ (forall k, o <= k < c -> F k = []) /\
  (c <= BUDDY_MAX_ORDER -> exists l, free_lists s c <> 0 /\ F c = free_lists s c :: l).
Proof.
  intros I [Ho1 Ho2]. unfold BUDDY_MAX_ORDER in *.
  pose proof (find_order_spec (Z.to_nat (10 + 1 - o)) o s) as (H1 & H2 & H3).
  set (c := find_order_loop _ _ _) in *. rewrite Z2Nat.id in * by lia.
  assert (Hd : forall k, 0 <= k <= 10 -> dlist (blocks s) (free_lists s k) (F k))
    by (intros; by apply (lists_dlist _ _ (bi_lists _ _ _ I))).
  repeat split; [lia..| |].
  - intros k Hk. apply (dlist_zero (blocks s)). rewrite <- (H2 k Hk). apply Hd. lia.
  - intros Hc. specialize (H3 ltac:(lia)).
    destruct (dlist_cons_inv _ _ _ H3 (Hd c ltac:(lia))) as [l Hl]. eauto.
Qed.

Theorem buddy_alloc_order_effect s F o :
  buddy_inv s F -> orders o ->
  let '(addr, s') := buddy_alloc_order o s in
  (addr = 0 /\ s' = s /\ forall k, o <= k <= BUDDY_MAX_ORDER -> F k = []) \/
  (exists p c F', addr = PMM_PAGE_SIZE * p /\ 0 < p /\ buddy_inv s' F' /\
     alloc_effect o p c s F s' F').
Proof.
  intros I Ho. pose proof (find_order_none s F o I Ho) as (H1 & H2 & H3).
  pose proof Ho as [Ho1 Ho2]. unfold buddy_alloc_order. unfold BUDDY_MAX_ORDER in *.
  replace (10 <? o) with false by lia.
  set (c := find_order_loop _ _ _) in *.
  destruct (Z.ltb_spec 10 c) as [Hc|Hc].
  { left. split; [done|]. split; [done|]. intros k Hk. apply H2. lia. }
  right. destruct (H3 Hc) as (l & Hne & HFc). set (a := free_lists s c) in *.
  assert (Hoc : orders c) by (unfold orders, BUDDY_MAX_ORDER; lia).
  destruct (bi_free _ _ _ I c a Hoc) as (Ha & Hal & _); [rewrite HFc; set_solver|].
  set (p := a / PMM_PAGE_SIZE). pose proof (addr_of_page a Hal) as Hap. fold p in Hap.
  pose proof (step_take s F a c [] l I Hoc HFc) as I1. cbn [app] in I1. fold p in I1.
  set (s1 := buddy_remove_from_free_list a c s) in *.
  assert (Hsplit : exists F2, let s2 := if o <? c then buddy_split_block a (Z.to_nat c) o s1 else s1 in
    binv s2 F2 (Some (p, o)) /\ stats_eq s1 s2 /\
    (forall q k, used_block s2 q k <-> used_block s1 q k) /\
    (forall q k, free_block F2 q k <->
       free_block F.[c <- l] q k \/ (o <= k < c /\ q = p + 2 ^ k))).
  { destruct (Z.ltb_spec o c).
    - rewrite <- Hap. replace c with (Z.of_nat (Z.to_nat c)) in I1 by lia.
      destruct (split_block_spec _ _ _ _ o I1) as (F2 & J1 & J2 & J3 & J4); [lia|].
      exists F2. rewrite Z2Nat.id in J4 by lia. done.
    - assert (E : c = o) by lia. exists F.[c <- l]. rewrite E in *.
      no_split. }
  destruct Hsplit as (F2 & I2 & St2 & HU2 & HF2).
  set (s2 := if o <? c then _ else _) in *.
  unfold pmm_addr_to_page. fold p.
  destruct (step_commit s2 F2 p o I2) as [I3 HU3].
  set (s3 := buddy_mark_allocated p (buddy_set_order p o s2)) in *.
  rewrite pages_in_block by lia.
  assert (St : stats_eq s s3).
  { eapply stats_trans; [apply (stats_remove a c)|]. eapply stats_trans; [exact St2|]. done. }
  destruct St as (T1 & T2 & T3 & T4).
  assert (Hb : blk s2 F2 (Some (p, o)) p o) by (right; by right).
  destruct (bi_wf _ _ _ I2 _ _ Hb) as (Hp0 & _ & _ & Hend).
  assert (T2' : total_pages s2 = total_pages s)
    by (destruct St2 as [-> _]; apply (stats_remove a c)).
  pose proof (bi_total _ _ _ I) as Htot.
  destruct (set_refcounts_spec (2 ^ o) p 1 s3) as [Hrc Hs4];
    [apply Z.pow_nonneg; lia|lia|lia|lia|].
  set (s4 := for_loop (2 ^ o) _ s3) in *.
  exists p, c, F2. split; [done|]. split; [unfold p, PMM_PAGE_SIZE in *; dlia|].
  assert (Hu0 : forall q k, used_block s1 q k <-> used_block s q k).
  { intros q k. destruct (remove_meta a c s) as (E1 & E2 & E3 & _).
    by apply used_block_ext. }
  split.
  { apply (buddy_inv_ext s3); [..|exact I3]; rewrite Hs4; done. }
  split.
  - unfold BUDDY_MAX_ORDER. lia.
  - done.
  - split; [done|]. rewrite Hap, HFc. set_solver.
  - intros q k. rewrite (used_block_ext s3) by (cbn; rewrite Hs4; done).
    by rewrite HU3, HU2, Hu0.
  - intros q k. rewrite HF2. unfold free_block. rewrite upd_cases.
    case_decide as Ek; [subst k; rewrite HFc, elem_of_cons|naive_solver].
    assert (a ∉ l).
    { pose proof (lists_dlist _ _ (bi_lists _ _ _ I) c Hoc) as [_ Hnd].
      rewrite HFc in Hnd. by apply NoDup_cons in Hnd as [? _]. }
    assert (PMM_PAGE_SIZE * q = a <-> q = p) as -> by (rewrite <- Hap; unfold PMM_PAGE_SIZE; lia).
    split.
    + intros [[??]|?]; [|tauto]. left. split; [tauto|]. intros [-> _]. by rewrite Hap in *.
    + tauto.
  - intros q. cbn. rewrite Hrc, T2. done.
  - cbn. rewrite Hs4. exact T1.
  - assert (E : used_pages s4 = used_pages s3) by (by rewrite Hs4).
    cbn [used_pages set_alloc_count set_used_pages]. by rewrite E, T3.
  - intros k. assert (E : alloc_count s4 = alloc_count s3) by (by rewrite Hs4).
    cbn [alloc_count set_alloc_count set_used_pages]. by rewrite E, T4, upd_cases.
Qed.
