(* ===== verification/PmmFree.v ===== *)
(** Release of physical blocks: [buddy_free_order] returns the block, merged
    with its buddy as long as that one is free, to the free list of the final
    order; a block with a shared page, a free block and an address out of range
    are refused. *)

From S2P Require Import Prelude Dll Pmm PmmMeta PmmInv PmmSteps PmmAlloc.
From Stdlib Require Import ZArith Lia Bool.
From stdpp Require Import base tactics numbers list sets gmap.
Open Scope Z_scope.

(** No two buddies are both free: everything that can be merged is. *)
Definition coalesced (F : Z -> list Z) : Prop :=
  forall q b k, k < BUDDY_MAX_ORDER -> is_buddy q b k ->
    free_block F q k -> ~ free_block F b k.

Lemma buddy_page_is_buddy p o :
  0 <= p -> 0 <= o < 32 -> p mod 2 ^ o = 0 -> is_buddy p (buddy_get_buddy_page p o) o.
Proof.
  intros Hp Ho Hal. rewrite buddy_page_spec by done. unfold is_buddy.
  case_decide as E; [by left|]. right. split; [lia|].
  assert (0 < 2 ^ o) by (apply Z.pow_pos_nonneg; lia).
  apply Z.mod_divide in Hal as [x ->]; [|lia].
  rewrite Z.pow_add_r in * by lia. change (2 ^ 1) with 2 in *.
  replace (x * 2 ^ o - 2 ^ o) with (2 ^ o * (x - 1)) by lia.
  rewrite (Z.mul_comm x) in E. rewrite Z.mul_mod_distr_l in * by lia.
  assert (x mod 2 <> 0) by (intros E'; apply E; rewrite E'; lia).
  replace ((x - 1) mod 2) with 0 by dlia. lia.
Qed.

Lemma is_buddy_unique p b b' o :
  0 <= o -> is_buddy p b o -> is_buddy p b' o -> b = b'.
Proof.
  intros Ho. assert (0 < 2 ^ o) by (apply Z.pow_pos_nonneg; lia).
  pose proof (pow_succ o Ho) as Hs. unfold is_buddy.
  assert (Hx : forall x, x mod 2 ^ (o + 1) = 0 -> (x + 2 ^ o) mod 2 ^ (o + 1) = 0 -> False).
  { intros x H1 H2. rewrite <- Z.add_mod_idemp_l, H1, Z.add_0_l, Z.mod_small in H2 by lia. lia. }
  intros [[-> H1]|[-> H1]] [[E H2]|[E H2]]; try lia; exfalso.
  - subst p. by apply (Hx b').
  - by apply (Hx b).
Qed.

Lemma is_buddy_sym p b o : is_buddy p b o -> is_buddy b p o.
Proof. unfold is_buddy. tauto. Qed.

(** What merging does to the blocks. *)
Record merge_effect (p o p' o' : Z) (s : pmm) (F : Z -> list Z) (s' : pmm) (F' : Z -> list Z) : Prop := {
  me_order : o <= o' <= BUDDY_MAX_ORDER;
  me_inside : p' <= p /\ p + 2 ^ o <= p' + 2 ^ o';
  me_stats : stats_eq s s';
  me_used q k : used_block s' q k <-> used_block s q k;
  me_free q k : free_block F' q k <->
    free_block F q k /\ ~ (p' <= q /\ q + 2 ^ k <= p' + 2 ^ o');
  me_stop b : o' < BUDDY_MAX_ORDER -> is_buddy p' b o' -> ~ free_block F' b o';
  me_chain j : o <= j < o' -> exists b, is_buddy (p - p mod 2 ^ j) b j /\ free_block F b j }.

(** Rounding down to a larger power of two forgets the position in the block. *)
Lemma round_down_block m p o j :
  0 <= o <= j -> m mod 2 ^ o = 0 -> m <= p < m + 2 ^ o ->
  m - m mod 2 ^ j = p - p mod 2 ^ j.
Proof.
  intros Ho Hm Hp. assert (0 < 2 ^ o) by (apply Z.pow_pos_nonneg; lia).
  assert (Hpow : 2 ^ j = 2 ^ o * 2 ^ (j - o)) by (rewrite <- Z.pow_add_r by lia; f_equal; lia).
  assert (0 < 2 ^ (j - o)) by (apply Z.pow_pos_nonneg; lia).
  assert (Hdiv : p / 2 ^ j = m / 2 ^ j).
  { rewrite Hpow, <- !Z.div_div by lia. f_equal.
    apply Z.mod_divide in Hm as [x ->]; [|lia].
    rewrite Z.div_mul by lia. symmetry. apply Z.div_unique with (p - x * 2 ^ o); lia. }
  pose proof (Z.div_mod m (2 ^ j)). pose proof (Z.div_mod p (2 ^ j)). nia.
Qed.

(** No free block lies inside the block in hand. *)
Lemma free_outside_hand s F p o q k :
  binv s F (Some (p, o)) -> free_block F q k -> ~ (p <= q /\ q + 2 ^ k <= p + 2 ^ o).
Proof.
  intros I Hf [Hq1 Hq2]. destruct (bi_hand _ _ _ I p o eq_refl) as (_ & _ & Hnot).
  assert (Hb : blk s F (Some (p, o)) p o) by (right; by right).
  assert (Hfb : blk s F (Some (p, o)) q k) by (right; by left).
  pose proof (bi_wf _ _ _ I _ _ Hfb) as (_ & [? _] & _).
  assert (0 < 2 ^ k) by (apply Z.pow_pos_nonneg; lia).
  destruct (bi_inside _ _ _ I p o q k Hb Hfb) as [-> ->]; [unfold covers; lia|].
  destruct Hf as [Hk Hin]. by apply (Hnot o).
Qed.

Lemma merge_effect_none s F p o :
  binv s F (Some (p, o)) ->
  (forall b, o < BUDDY_MAX_ORDER -> is_buddy p b o -> ~ free_block F b o) ->
  merge_effect p o p o s F s F.
Proof.
  intros I Hs. assert (Hb : blk s F (Some (p, o)) p o) by (right; by right).
  destruct (bi_wf _ _ _ I _ _ Hb) as (_ & [? ?] & _).
  split; [done|lia|apply stats_refl|done| |done|lia].
  intros q k. split; [|tauto]. intros Hf. split; [done|]. by eapply free_outside_hand.
Qed.

Lemma coalesce_loop_spec n s F p o :
  binv s F (Some (p, o)) -> buddy_get_order p s = o -> Z.of_nat n = BUDDY_MAX_ORDER - o ->
  let '(addr', s') := buddy_coalesce_loop n p (PMM_PAGE_SIZE * p) o s in
  exists p' o' F', addr' = PMM_PAGE_SIZE * p' /\ binv s' F' (Some (p', o')) /\
    buddy_get_order p' s' = o' /\ merge_effect p o p' o' s F s' F'.
Proof.
  revert s F p o. induction n as [|n IH]; intros s F p o I Hord Hn; cbn [buddy_coalesce_loop].
  { exists p, o, F. split; [done|]. split; [done|]. split; [done|].
    apply merge_effect_none; [done|]. lia. }
  assert (Hb : blk s F (Some (p, o)) p o) by (right; by right).
  destruct (bi_wf _ _ _ I _ _ Hb) as (Hp & Ho & Hal & Hend).
  pose proof Ho as [Ho1 Ho2]. unfold BUDDY_MAX_ORDER in Hn, Ho2.
  assert (Hpow : 0 < 2 ^ o) by (apply Z.pow_pos_nonneg; lia).
  pose proof (buddy_page_is_buddy p o Hp ltac:(lia) Hal) as Hbud.
  set (b := buddy_get_buddy_page p o) in *.
  assert (Hstop : ~ free_block F b o ->
    exists p' o' F', PMM_PAGE_SIZE * p = PMM_PAGE_SIZE * p' /\ binv s F' (Some (p', o')) /\
      buddy_get_order p' s = o' /\ merge_effect p o p' o' s F s F').
  { intros Hnb. exists p, o, F. split; [done|]. split; [done|]. split; [done|].
    apply merge_effect_none; [done|]. intros b' _ Hb'.
    by rewrite <- (is_buddy_unique p b b' o). }
  destruct (Z.leb_spec (total_pages s) b) as [Hbt|Hbt].
  { apply Hstop. intros Hf. destruct (bi_page_range _ _ _ I b o); [right; by left|]. lia. }
  destruct (buddy_is_allocated b s) eqn:Hba; cbn [orb].
  { apply Hstop. intros Hf. destruct (bi_free_block _ _ _ I _ _ Hf) as (_ & ? & _). congruence. }
  destruct (Z.eqb_spec (buddy_get_order b s) o) as [Hbo|Hbo]; cbn [negb].
  2: { apply Hstop. intros Hf. by destruct (bi_free_block _ _ _ I _ _ Hf) as (_ & _ & ?). }
  (* the buddy is free: merge and go on *)
  assert (Hb0 : 0 <= b).
  { destruct Hbud as [[-> _]|[E Hb']]; [lia|]. pose proof (pow_succ o Ho1).
    apply (aligned_le 0 b (2 ^ (o + 1))); [lia|by rewrite Z.mod_0_l by lia|done|lia]. }
  assert (Hlt : o < BUDDY_MAX_ORDER) by (unfold BUDDY_MAX_ORDER; lia).
  pose proof (buddy_on_list s F p b o I Hlt Hbud ltac:(lia) Hba Hbo) as Hin.
  assert (Hfb : free_block F b o) by (by split).
  apply list_elem_of_split in Hin as (l1 & l2 & HF).
  pose proof (bi_total _ _ _ I) as Htot.
  assert (Hba' : pmm_page_to_addr b = PMM_PAGE_SIZE * b)
    by (unfold pmm_page_to_addr, PMM_PAGE_SIZE; rewrite u32_small; lia).
  rewrite Hba'. destruct (step_merge s F p b o l1 l2 I Hlt Hbud HF) as [I' HU].
  replace (if b <? p then (b, PMM_PAGE_SIZE * b) else (p, PMM_PAGE_SIZE * p))
    with (Z.min p b, PMM_PAGE_SIZE * Z.min p b)
    by (destruct (Z.ltb_spec b p); [rewrite Z.min_r by lia|rewrite Z.min_l by lia]; done).
  set (m := Z.min p b) in *.
  set (s1 := buddy_set_order m (o + 1) (buddy_remove_from_free_list (PMM_PAGE_SIZE * b) o s)) in *.
  assert (Hbm : blk s1 F.[o <- l1 ++ l2] (Some (m, o + 1)) m (o + 1)) by (right; by right).
  destruct (bi_page_range _ _ _ I' _ _ Hbm) as [Hmr Hmr'].
  assert (Hmo : buddy_get_order m s1 = o + 1).
  { unfold s1. rewrite get_set_order, decide_True by (done || lia). done. }
  specialize (IH s1 _ m (o + 1) I' Hmo ltac:(unfold BUDDY_MAX_ORDER; lia)).
  destruct (buddy_coalesce_loop n m _ (o + 1) s1) as [addr' s'].
  destruct IH as (p' & o' & F' & -> & I'' & Ho' & [E1 E2 E3 E4 E5 E6 E7]).
  assert (Hmb : m <= p /\ p + 2 ^ o <= m + 2 ^ (o + 1) /\ m <= b /\ b + 2 ^ o <= m + 2 ^ (o + 1))
    by (pose proof (pow_succ o Ho1); unfold m; destruct Hbud as [[E _]|[E _]]; lia).
  exists p', o', F'. split; [done|]. split; [done|]. split; [done|]. split.
  - lia.
  - lia.
  - eapply stats_trans; [|exact E3]. apply (stats_remove (PMM_PAGE_SIZE * b) o s).
  - intros q k. rewrite E4. apply HU.
  - intros q k. rewrite E5. unfold free_block. rewrite upd_cases.
    case_decide as Ek; [subst k; rewrite HF|tauto].
    enough (Hqb : PMM_PAGE_SIZE * q = PMM_PAGE_SIZE * b -> p' <= q /\ q + 2 ^ o <= p' + 2 ^ o').
    { rewrite !elem_of_app, elem_of_cons. tauto. }
    unfold PMM_PAGE_SIZE. intros E. assert (q = b) by lia. subst q. lia.
  - done.
  - intros j Hj. destruct (decide (j = o)) as [->|Hne].
    + exists b. rewrite Hal, Z.sub_0_r. done.
    + destruct (E7 j ltac:(lia)) as (b' & Hb1 & Hb2). exists b'.
      destruct (bi_wf _ _ _ I' _ _ Hbm) as (_ & _ & Hmal & _).
      rewrite <- (round_down_block m p (o + 1) j) by (done || lia). split; [done|].
      unfold free_block in *. by rewrite upd_ne in Hb2.
Qed.

(** The effect of a successful release of the block [(p, o)]: it ends up inside
    the free block [(p', o')]. *)
Record free_effect (p o p' o' : Z) (s : pmm) (F : Z -> list Z) (s' : pmm) (F' : Z -> list Z) : Prop := {
  fe_order : o <= o' <= BUDDY_MAX_ORDER;
  fe_inside : p' <= p /\ p + 2 ^ o <= p' + 2 ^ o';
  fe_used q k : used_block s' q k <-> used_block s q k /\ ~ (q = p /\ k = o);
  fe_free q k : free_block F' q k <->
    (free_block F q k /\ ~ (p' <= q /\ q + 2 ^ k <= p' + 2 ^ o')) \/ (q = p' /\ k = o');
  fe_stop b : o' < BUDDY_MAX_ORDER -> is_buddy p' b o' -> ~ free_block F' b o';
  fe_chain j : o <= j < o' -> exists b, is_buddy (p - p mod 2 ^ j) b j /\ free_block F b j;
  fe_refcount q : refcount_map s' q =
    if decide (p <= q < p + 2 ^ o) then 0 else refcount_map s q;
  fe_total : total_pages s' = total_pages s;
  fe_used_pages : used_pages s' = u32 (used_pages s - 2 ^ o);
  fe_count k : alloc_count s' k =
    if decide (k = o /\ 0 < alloc_count s o) then u32 (alloc_count s o - 1) else alloc_count s k }.

Lemma align_down_spec addr :
  0 <= addr < 2 ^ 32 -> pmm_align_down addr = PMM_PAGE_SIZE * (addr / PMM_PAGE_SIZE).
Proof. apply (land_mask 12). lia. Qed.

Lemma align_down_page addr :
  0 <= addr < 2 ^ 32 ->
  (if pmm_is_aligned addr then addr else pmm_align_down addr) =
  PMM_PAGE_SIZE * (addr / PMM_PAGE_SIZE).
Proof.
  intros Ha. rewrite align_down_spec by done. unfold pmm_is_aligned, PMM_PAGE_SIZE.
  change (4096 - 1) with (2 ^ 12 - 1). rewrite land_ones_mod by lia. change (2 ^ 12) with 4096.
  destruct (Z.eqb_spec (addr mod 4096) 0) as [E|E]; dlia.
Qed.

Lemma set_refcount_map_inv s s' m :
  s = set_refcount_map m s' ->
  total_pages s = total_pages s' /\ order_map s = order_map s' /\
  status_map s = status_map s' /\ blocks s = blocks s' /\ free_lists s = free_lists s' /\
  used_pages s = used_pages s' /\ alloc_count s = alloc_count s'.
Proof. by intros ->. Qed.

Theorem buddy_free_order_effect s F addr p o :
  buddy_inv s F -> 0 <= addr < 2 ^ 32 -> addr / PMM_PAGE_SIZE = p -> 0 < p ->
  used_block s p o ->
  (forall q, p <= q < p + 2 ^ o -> refcount_map s q <= 1) ->
  let s' := buddy_free_order addr o s in
  exists p' o' F', buddy_inv s' F' /\ free_effect p o p' o' s F s' F'.
Proof.
  intros I Ha Hpg Hp Hu Hrc s'. subst s'. unfold buddy_free_order.
  rewrite align_down_page, Hpg by done. unfold pmm_addr_to_page. rewrite page_of_addr.
  pose proof Hu as ((Hp0 & Hpt) & Hpa & Hpo).
  assert (Hb : blk s F None p o) by (by left).
  destruct (bi_wf _ _ _ I _ _ Hb) as (_ & [Ho1 Ho2] & Hal & Hend). unfold BUDDY_MAX_ORDER in Ho2.
  assert (Hpow : 0 < 2 ^ o) by (apply Z.pow_pos_nonneg; lia).
  pose proof (bi_total _ _ _ I) as Htot.
  replace (total_pages s <=? p) with false by lia. rewrite Hpa. cbn [negb].
  rewrite pages_in_block by lia.
  destruct (find_from _ _ _) eqn:Hfind.
  { exfalso. apply find_from_Some in Hfind as (Hz & Hbad & _).
    rewrite Z2Nat.id in Hz by lia. apply Z.ltb_lt in Hbad. unfold buddy_get_refcount in Hbad.
    rewrite u32_small in Hbad by lia. specialize (Hrc (p + z)). zbool; lia. }
  clear Hfind. destruct (step_release s F p o I Hu Hp) as [I1 HU1].
  set (s1 := buddy_mark_free p s) in *.
  destruct (set_refcounts_spec (2 ^ o) p 0 s1) as [Hrc2 Hs2]; [lia|lia|exact Hend|cbn; lia|].
  set (s2 := for_loop (2 ^ o) _ s1) in *.
  set (s3 := if 0 <? _ then _ else _).
  assert (E3 : total_pages s3 = total_pages s /\ order_map s3 = order_map s1 /\
    status_map s3 = status_map s1 /\ blocks s3 = blocks s1 /\ free_lists s3 = free_lists s1 /\
    refcount_map s3 = refcount_map s2 /\ used_pages s3 = u32 (used_pages s - 2 ^ o) /\
    forall k, alloc_count s3 k = if decide (k = o /\ 0 < alloc_count s o)
              then u32 (alloc_count s o - 1) else alloc_count s k).
  { destruct (set_refcount_map_inv s2 s1 _ Hs2) as (R1 & R2 & R3 & R4 & R5 & R6 & R7).
    unfold s3. cbn [alloc_count set_used_pages]. rewrite R7.
    destruct (Z.ltb_spec 0 (alloc_count s1 o)) as [Hc|Hc]; cbn; rewrite ?R1, ?R2, ?R3, ?R4, ?R5, ?R6, ?R7;
      (repeat split); intros k; rewrite ?upd_cases; change (alloc_count s1) with (alloc_count s) in *;
      repeat case_decide; naive_solver lia. }
  destruct E3 as (T1 & T2 & T3 & T4 & T5 & T6 & T7 & T8).
  assert (I3 : binv s3 F (Some (p, o))).
  { destruct I1 as [A1 A2 A3 A4 A5].
    assert (Xa : forall q, buddy_is_allocated q s3 = buddy_is_allocated q s1)
      by (intros; unfold buddy_is_allocated; by rewrite T3).
    assert (Xo : forall q, buddy_get_order q s3 = buddy_get_order q s1)
      by (intros; unfold buddy_get_order; by rewrite T2).
    split; [by rewrite T1|by eapply lists_ok_ext|intros ??; rewrite Xa, Xo; apply A3|
            intros ??; rewrite Xa; apply A4|].
    rewrite T1. eapply partition_ext; [|exact A5]. intros q k.
    unfold blk, used_block. by rewrite T1, Xa, Xo. }
  assert (HU3 : forall q k, used_block s3 q k <-> used_block s1 q k)
    by (intros; by apply used_block_ext).
  unfold buddy_coalesce, pmm_addr_to_page. rewrite page_of_addr.
  pose proof (coalesce_loop_spec (Z.to_nat (BUDDY_MAX_ORDER - o)) s3 F p o I3) as HC.
  destruct (buddy_coalesce_loop _ p _ o s3) as [a4 s4].
  destruct HC as (p' & o' & F' & -> & I4 & Ho' & [M1 M2 M3 M4 M5 M6 M7]).
  { unfold buddy_get_order. rewrite T2. exact Hpo. }
  { unfold BUDDY_MAX_ORDER. lia. }
  rewrite page_of_addr, Ho'. pose proof (step_put s4 F' p' o' I4 Ho') as I5.
  destruct (add_meta (PMM_PAGE_SIZE * p') o' s4) as (N1 & N2 & N3 & N4 & N5 & N6).
  destruct M3 as (S1 & S2 & S3 & S4).
  exists p', o', F'.[o' <- (PMM_PAGE_SIZE * p') :: F' o']. split; [exact I5|].
  assert (HF5 : forall q k, free_block F'.[o' <- (PMM_PAGE_SIZE * p') :: F' o'] q k <->
    free_block F' q k \/ (q = p' /\ k = o')).
  { intros q k. unfold free_block. rewrite upd_cases.
    assert (PMM_PAGE_SIZE * q = PMM_PAGE_SIZE * p' <-> q = p') by (unfold PMM_PAGE_SIZE; lia).
    assert (orders o') by (unfold orders; lia).
    destruct (decide (k = o')) as [->|]; [rewrite elem_of_cons|]; naive_solver. }
  split.
  - done.
  - done.
  - intros q k. rewrite (used_block_ext s4) by done. by rewrite M4, HU3, HU1.
  - intros q k. by rewrite HF5, M5.
  - intros b Hlt Hbud. rewrite HF5. intros [Hf|[-> _]].
    + by apply (M6 b).
    + assert (0 < 2 ^ o') by (apply Z.pow_pos_nonneg; lia).
      destruct Hbud as [[? _]|[? _]]; lia.
  - done.
  - intros q. by rewrite N4, S2, T6, Hrc2.
  - by rewrite N1, S1.
  - by rewrite N5, S3.
  - intros k. by rewrite N6, S4.
Qed.
