(* ===== verification/PmmProps.v ===== *)
(** The properties of the physical memory manager: what its clients rely on.

    [pmm_ok] is the invariant of the whole component: the blocks partition the
    pages, the statistics count the pages of the allocated blocks, and the
    reference counts are 16-bit values.  It is indexed by a property of the free
    lists that allocation and release keep: [any_lists], or [coalesced] (no two
    buddies are both free), which holds after booting from a memory map without
    adjacent available entries. *)

From S2P Require Import Prelude Dll Pmm PmmMeta PmmInv PmmSteps PmmAlloc PmmFree.
From Stdlib Require Import ZArith Lia Bool.
From stdpp Require Import base tactics numbers list sets gmap.
Open Scope Z_scope.

(** ** Which pages are in use *)

(** [q] belongs to an allocated block of order [o]. *)
Definition in_used_order (s : pmm) (q o : Z) : bool :=
  let p := q - q mod 2 ^ o in
  buddy_is_allocated p s && (buddy_get_order p s =? o).

Definition page_in_use (s : pmm) (q : Z) : bool :=
  existsb (in_used_order s q) (seqZ 0 (BUDDY_MAX_ORDER + 1)).

(** The number of pages of allocated blocks. *)
Definition pages_in_use (s : pmm) : Z :=
  count_below (Z.to_nat (total_pages s)) (page_in_use s).

Lemma page_in_use_spec s F q :
  buddy_inv s F -> 0 <= q < total_pages s ->
  page_in_use s q = true <-> exists p o, used_block s p o /\ covers p o q.
Proof.
  intros I Hq. unfold page_in_use. rewrite existsb_exists. unfold in_used_order. split.
  - intros (o & Ho & H). apply list_elem_of_In, elem_of_seqZ in Ho. unfold BUDDY_MAX_ORDER in Ho.
    apply andb_true_iff in H as [H1 H2]. apply Z.eqb_eq in H2.
    assert (0 < 2 ^ o) by (apply Z.pow_pos_nonneg; lia).
    pose proof (Z.mod_pos_bound q (2 ^ o)). pose proof (Z.mod_le q (2 ^ o)).
    exists (q - q mod 2 ^ o), o. unfold used_block, covers. repeat split; (done || lia).
  - intros (p & o & Hu & Hc). assert (Hb : blk s F None p o) by (by left).
    destruct (bi_wf _ _ _ I _ _ Hb) as (Hp & [Ho1 Ho2] & Hal & _).
    exists o. split; [apply list_elem_of_In, elem_of_seqZ; lia|].
    assert (0 < 2 ^ o) by (apply Z.pow_pos_nonneg; lia).
    rewrite <- (round_down_block p q o o), Hal, Z.sub_0_r by (done || lia).
    destruct Hu as (_ & -> & ->). by rewrite Z.eqb_refl.
Qed.

Lemma page_in_use_false s F q :
  buddy_inv s F -> 0 <= q < total_pages s ->
  page_in_use s q = false <-> forall p o, used_block s p o -> ~ covers p o q.
Proof.
  intros I Hq. pose proof (page_in_use_spec s F q I Hq) as H.
  destruct (page_in_use s q); split; try done; intros.
  - exfalso. destruct H as [H _]. destruct H as (p & o & ? & ?); [done|]. naive_solver.
  - intros Hc. destruct H as [_ H]. discriminate H. by exists p, o.
Qed.

Record pmm_ok (R : (Z -> list Z) -> Prop) (s : pmm) : Prop := {
  ok_inv : exists F, buddy_inv s F /\ R F;
  ok_stats : used_pages s = pages_in_use s;
  ok_refcount q : 0 <= q < total_pages s -> 0 <= refcount_map s q <= UINT16_MAX }.

Definition any_lists (F : Z -> list Z) : Prop := True.

(** A property of the free lists that allocation and release keep. *)
Class block_stable (R : (Z -> list Z) -> Prop) : Prop := {
  stable_alloc o p c s F s' F' :
    buddy_inv s F -> orders o -> alloc_effect o p c s F s' F' -> R F -> R F';
  stable_free p o p' o' s F s' F' : free_effect p o p' o' s F s' F' -> R F -> R F' }.

#[export] Instance any_lists_stable : block_stable any_lists.
Proof. done. Qed.

Lemma pages_in_use_bound s : 0 <= total_pages s -> 0 <= pages_in_use s <= total_pages s.
Proof.
  intros H. pose proof (count_below_bound (Z.to_nat (total_pages s)) (page_in_use s)).
  unfold pages_in_use. lia.
Qed.

(** ** Allocation *)

Lemma alloc_coalesced o p c s F s' F' :
  buddy_inv s F -> orders o -> alloc_effect o p c s F s' F' -> coalesced F -> coalesced F'.
Proof.
  intros I [Ho _] E C q b k Hk Hbud Hq Hb.
  pose proof (ae_order _ _ _ _ _ _ _ E) as Hoc. pose proof (ae_taken _ _ _ _ _ _ _ E) as Ht.
  assert (Hbp : blk s F None p c) by (right; by left).
  destruct (bi_wf _ _ _ I _ _ Hbp) as (Hp0 & _ & Hal & _).
  (* the buddy of a new block is the block handed out *)
  assert (Hnew : forall x y, is_buddy x y k -> o <= k < c -> x = p + 2 ^ k -> free_block F' y k -> False).
  { intros x y Hxy Hkc -> Hy. assert (y = p) as ->.
    { apply (is_buddy_unique (p + 2 ^ k) _ _ k); [lia|done|]. right. split; [done|].
      apply (mod_pow_weaken p (k + 1) c); [lia|done]. }
    apply (ae_free _ _ _ _ _ _ _ E) in Hy as [[Hf Hne]|[_ Hx]].
    - apply Hne. split; [done|]. apply (bi_head_inj _ _ _ I p); [right; by left|done].
    - pose proof (Z.pow_pos_nonneg 2 k). lia. }
  pose proof Hq as Hq'. pose proof Hb as Hb'.
  apply (ae_free _ _ _ _ _ _ _ E) in Hq as [[Hq _]|[Hkc Hqx]]; [|by eapply Hnew].
  apply (ae_free _ _ _ _ _ _ _ E) in Hb as [[Hb _]|[Hkc Hbx]].
  - by apply (C q b k).
  - eapply (Hnew b q); try done. by apply is_buddy_sym.
Qed.

(** The pages of the block handed out were in no allocated block. *)
Lemma taken_not_in_use o p c s F s' F' q :
  buddy_inv s F -> 0 <= o -> alloc_effect o p c s F s' F' -> covers p o q ->
  0 <= q < total_pages s /\ covers p c q /\ page_in_use s q = false.
Proof.
  intros I Ho E Hq. pose proof (ae_order _ _ _ _ _ _ _ E) as Hoc.
  pose proof (ae_taken _ _ _ _ _ _ _ E) as Ht.
  assert (Hbp : blk s F None p c) by (right; by left).
  destruct (bi_wf _ _ _ I _ _ Hbp) as (Hp0 & _ & Hal & Hend).
  assert (2 ^ o <= 2 ^ c) by (apply Z.pow_le_mono_r; lia).
  assert (Hc : covers p c q) by (unfold covers in *; lia).
  assert (Hr : 0 <= q < total_pages s) by (unfold covers in *; lia).
  split; [done|]. split; [done|]. apply (page_in_use_false s F q I Hr).
  intros p' o' Hu Hc'. assert (Hb' : blk s F None p' o') by (by left).
  destruct (part_sep _ _ (bi_part _ _ _ I) _ _ _ _ q Hbp Hb' Hc Hc') as [-> ->].
  destruct (bi_free_block _ _ _ I _ _ Ht) as (_ & Hf & _). destruct Hu as (_ & ? & _). congruence.
Qed.

Lemma alloc_page_in_use o p c s F s' F' q :
  buddy_inv s F -> buddy_inv s' F' -> orders o -> alloc_effect o p c s F s' F' ->
  0 <= q < total_pages s ->
  page_in_use s' q = if decide (covers p o q) then true else page_in_use s q.
Proof.
  intros I I' [Ho _] E Hq. assert (Hq' : 0 <= q < total_pages s') by (by rewrite (ae_total _ _ _ _ _ _ _ E)).
  apply eq_true_iff_eq. rewrite (page_in_use_spec s' F' q I' Hq').
  case_decide as Hc.
  - split; [done|]. intros _. exists p, o. split; [|done]. apply (ae_used _ _ _ _ _ _ _ E). by right.
  - rewrite (page_in_use_spec s F q I Hq). split; intros (p' & o' & Hu & Hc').
    + apply (ae_used _ _ _ _ _ _ _ E) in Hu as [Hu|[-> ->]]; [by exists p', o'|done].
    + exists p', o'. split; [|done]. apply (ae_used _ _ _ _ _ _ _ E). by left.
Qed.

Lemma alloc_pages_in_use o p c s F s' F' :
  buddy_inv s F -> buddy_inv s' F' -> orders o -> alloc_effect o p c s F s' F' ->
  pages_in_use s' = pages_in_use s + 2 ^ o.
Proof.
  intros I I' Ho E. pose proof Ho as [Ho1 _]. pose proof (bi_total _ _ _ I) as Ht.
  assert (Hbp : blk s' F' None p o) by (left; apply (ae_used _ _ _ _ _ _ _ E); by right).
  destruct (bi_wf _ _ _ I' _ _ Hbp) as (Hp0 & _ & _ & Hend).
  rewrite (ae_total _ _ _ _ _ _ _ E) in Hend.
  unfold pages_in_use. rewrite (ae_total _ _ _ _ _ _ _ E).
  apply (count_below_add _ _ _ p); [lia|by apply Z.pow_nonneg|lia| |].
  - intros q Hq. destruct (taken_not_in_use _ _ _ _ _ _ _ q I Ho1 E Hq) as (Hr & _ & ->).
    by rewrite (alloc_page_in_use _ _ _ _ _ _ _ q I I' Ho E Hr), decide_True.
  - intros q Hq Hn. rewrite (alloc_page_in_use _ _ _ _ _ _ _ q I I' Ho E) by lia.
    by rewrite decide_False.
Qed.

(** ** Release *)

Lemma free_coalesced p o p' o' s F s' F' :
  free_effect p o p' o' s F s' F' -> coalesced F -> coalesced F'.
Proof.
  intros E C q b k Hk Hbud Hq Hb.
  pose proof Hq as Hq'. pose proof Hb as Hb'.
  apply (fe_free _ _ _ _ _ _ _ _ E) in Hq as [[Hq _]|[-> ->]].
  2: { by apply (fe_stop _ _ _ _ _ _ _ _ E b). }
  apply (fe_free _ _ _ _ _ _ _ _ E) in Hb as [[Hb _]|[-> ->]].
  2: { apply (fe_stop _ _ _ _ _ _ _ _ E q); [done|by apply is_buddy_sym|done]. }
  by apply (C q b k).
Qed.

Lemma free_page_in_use p o p' o' s F s' F' q :
  buddy_inv s F -> buddy_inv s' F' -> used_block s p o -> free_effect p o p' o' s F s' F' ->
  0 <= q < total_pages s ->
  page_in_use s' q = if decide (covers p o q) then false else page_in_use s q.
Proof.
  intros I I' Hu E Hq. assert (Hq' : 0 <= q < total_pages s') by (by rewrite (fe_total _ _ _ _ _ _ _ _ E)).
  assert (Hbp : blk s F None p o) by (by left).
  case_decide as Hc.
  - apply (page_in_use_false s' F' q I' Hq'). intros p1 o1 Hu1 Hc1.
    apply (fe_used _ _ _ _ _ _ _ _ E) in Hu1 as [Hu1 Hne]. apply Hne.
    assert (Hb1 : blk s F None p1 o1) by (by left).
    by destruct (part_sep _ _ (bi_part _ _ _ I) _ _ _ _ q Hbp Hb1 Hc Hc1) as [-> ->].
  - apply eq_true_iff_eq. rewrite (page_in_use_spec s' F' q I' Hq'), (page_in_use_spec s F q I Hq).
    split; intros (p1 & o1 & Hu1 & Hc1); exists p1, o1; (split; [|done]).
    + by apply (fe_used _ _ _ _ _ _ _ _ E) in Hu1 as [Hu1 _].
    + apply (fe_used _ _ _ _ _ _ _ _ E). split; [done|]. by intros [-> ->].
Qed.

Lemma free_pages_in_use p o p' o' s F s' F' :
  buddy_inv s F -> buddy_inv s' F' -> used_block s p o -> free_effect p o p' o' s F s' F' ->
  pages_in_use s' = pages_in_use s - 2 ^ o.
Proof.
  intros I I' Hu E. pose proof (bi_total _ _ _ I) as Ht.
  assert (Hbp : blk s F None p o) by (by left).
  destruct (bi_wf _ _ _ I _ _ Hbp) as (Hp0 & [Ho _] & _ & Hend).
  enough (pages_in_use s = pages_in_use s' + 2 ^ o) by lia.
  unfold pages_in_use. rewrite (fe_total _ _ _ _ _ _ _ _ E).
  apply (count_below_add _ _ _ p); [lia|by apply Z.pow_nonneg|lia| |].
  - intros q Hq. assert (Hr : 0 <= q < total_pages s) by lia.
    rewrite (free_page_in_use _ _ _ _ _ _ _ _ q I I' Hu E Hr), decide_True by done.
    split; [done|]. apply (page_in_use_spec s F q I Hr). by exists p, o.
  - intros q Hq Hn. rewrite (free_page_in_use _ _ _ _ _ _ _ _ q I I' Hu E) by lia.
    by rewrite decide_False.
Qed.

#[export] Instance coalesced_stable : block_stable coalesced.
Proof.
  split; [exact alloc_coalesced|exact free_coalesced].
Qed.

Lemma alloc_ok R `{!block_stable R} o p c s F s' F' :
  pmm_ok R s -> buddy_inv s F -> R F -> buddy_inv s' F' -> orders o ->
  alloc_effect o p c s F s' F' -> pmm_ok R s'.
Proof.
  intros K I C I' Ho E. split.
  - exists F'. split; [done|]. exact (stable_alloc _ _ _ _ _ _ _ I Ho E C).
  - rewrite (ae_used_pages _ _ _ _ _ _ _ E), (ok_stats _ _ K).
    rewrite (alloc_pages_in_use _ _ _ _ _ _ _ I I' Ho E). apply u32_small.
    rewrite <- (alloc_pages_in_use _ _ _ _ _ _ _ I I' Ho E).
    pose proof (pages_in_use_bound s'). pose proof (bi_total _ _ _ I'). lia.
  - intros q. rewrite (ae_refcount _ _ _ _ _ _ _ E), (ae_total _ _ _ _ _ _ _ E).
    case_decide; [unfold UINT16_MAX; lia|apply K].
Qed.

Lemma free_ok R `{!block_stable R} p o p' o' s F s' F' :
  pmm_ok R s -> buddy_inv s F -> R F -> buddy_inv s' F' -> used_block s p o ->
  free_effect p o p' o' s F s' F' -> pmm_ok R s'.
Proof.
  intros K I C I' Hu E. split.
  - exists F'. split; [done|]. exact (stable_free _ _ _ _ _ _ _ _ E C).
  - rewrite (fe_used_pages _ _ _ _ _ _ _ _ E), (ok_stats _ _ K).
    rewrite (free_pages_in_use _ _ _ _ _ _ _ _ I I' Hu E). apply u32_small.
    rewrite <- (free_pages_in_use _ _ _ _ _ _ _ _ I I' Hu E).
    pose proof (pages_in_use_bound s'). pose proof (bi_total _ _ _ I'). lia.
  - intros q. rewrite (fe_refcount _ _ _ _ _ _ _ _ E), (fe_total _ _ _ _ _ _ _ _ E).
    case_decide; [unfold UINT16_MAX; lia|apply K].
Qed.

(** The branches of [buddy_free_order] that refuse. *)
Definition free_refused (addr o : Z) (s : pmm) : Prop :=
  let page := addr / PMM_PAGE_SIZE in
  total_pages s <= page \/ buddy_is_allocated page s = false \/
  exists i, 0 <= i < 2 ^ o /\ 1 < buddy_get_refcount (page + i) s.

Lemma buddy_free_order_refused addr o s :
  0 <= addr < 2 ^ 32 -> 0 <= o < 16 -> free_refused addr o s ->
  buddy_free_order addr o s = s.
Proof.
  intros Ha Ho H. unfold free_refused in H. unfold buddy_free_order.
  rewrite align_down_page by done. unfold pmm_addr_to_page. rewrite page_of_addr.
  rewrite pages_in_block by lia. set (page := addr / PMM_PAGE_SIZE) in *.
  assert (Hpg : 0 <= page < 2 ^ 20) by (unfold page, PMM_PAGE_SIZE; dlia).
  destruct (Z.leb_spec (total_pages s) page); [done|].
  destruct (buddy_is_allocated page s) eqn:Hal; [|done]. cbn [negb].
  destruct (find_from _ _ _) eqn:Hf; [done|]. exfalso.
  rewrite find_from_None in Hf. destruct H as [?|[?|(i & Hi & Hr)]]; [lia|congruence|].
  assert (Hp : 2 ^ o <= 2 ^ 15) by (apply Z.pow_le_mono_r; lia).
  specialize (Hf i). rewrite Z2Nat.id, u32_small in Hf by lia.
  rewrite (proj2 (Z.ltb_lt _ _) Hr) in Hf. discriminate Hf. lia.
Qed.

(** ** Allocation followed by release *)

(** Merging a block that was just split off puts the original block together
    again and stops there. *)
Lemma alloc_free_merges_back o p c p' o' s F s1 F1 s2 F2 :
  buddy_inv s F -> coalesced F -> orders o -> buddy_inv s1 F1 -> buddy_inv s2 F2 ->
  alloc_effect o p c s F s1 F1 -> free_effect p o p' o' s1 F1 s2 F2 ->
  p' = p /\ o' = c.
Proof.
  intros I C [Ho _] I1 I2 EA EF.
  pose proof (ae_order _ _ _ _ _ _ _ EA) as Hoc. pose proof (ae_taken _ _ _ _ _ _ _ EA) as Ht.
  pose proof (fe_order _ _ _ _ _ _ _ _ EF) as Hoo. destruct (fe_inside _ _ _ _ _ _ _ _ EF) as [Hi1 Hi2].
  assert (Hbp : blk s F None p c) by (right; by left).
  destruct (bi_wf _ _ _ I _ _ Hbp) as (Hp0 & _ & Hal & Hend).
  assert (Hpos : forall k, 0 <= k -> 0 < 2 ^ k) by (intros; by apply Z.pow_pos_nonneg).
  pose proof (Hpos o Ho). pose proof (Hpos o' ltac:(lia)).
  assert (Hbp' : blk s2 F2 None p' o') by (right; left; apply (fe_free _ _ _ _ _ _ _ _ EF); by right).
  destruct (bi_wf _ _ _ I2 _ _ Hbp') as (_ & _ & Hal' & _).
  assert (Hle : o' <= c).
  { destruct (Z.le_gt_cases o' c) as [|Hgt]; [done|]. exfalso.
    destruct (fe_chain _ _ _ _ _ _ _ _ EF c ltac:(lia)) as (b & Hb & Hfb).
    rewrite Hal, Z.sub_0_r in Hb.
    apply (ae_free _ _ _ _ _ _ _ EA) in Hfb as [[Hfb _]|[? _]]; [|lia].
    by apply (C p b c); [lia| | |]. }
  assert (p' = p) as ->.
  { pose proof (round_down_block p' p o' o') as H'. rewrite Hal' in H'.
    rewrite (mod_pow_weaken p o' c) in H' by (done || lia). lia. }
  split; [done|]. destruct (Z.eq_dec o' c) as [|Hne]; [done|]. exfalso.
  apply (fe_stop _ _ _ _ _ _ _ _ EF (p + 2 ^ o')); [lia| |].
  - left. split; [done|]. apply (mod_pow_weaken p (o' + 1) c); [lia|done].
  - apply (fe_free _ _ _ _ _ _ _ _ EF). left. split.
    + apply (ae_free _ _ _ _ _ _ _ EA). right. lia.
    + lia.
Qed.

(** ** The order for a page count *)

(** After [o] rounds the loop has reached [2 ^ o]; it stops at the first power
    of two that is not below [count]. *)
Lemma calculate_order_loop_spec fuel count o :
  0 <= o -> 1 <= count <= 2 ^ 31 -> o <= Z.log2_up count ->
  Z.log2_up count - o < Z.of_nat fuel ->
  calculate_order_loop fuel count (2 ^ o) o = Some (Z.log2_up count).
Proof.
  revert o. induction fuel as [|fuel IH]; intros o Ho Hc Hle Hf; [lia|].
  cbn [calculate_order_loop].
  assert (Hlog : Z.log2_up count <= 31) by (apply Z.log2_up_le_pow2; lia).
  destruct (Z.ltb_spec (2 ^ o) count) as [Hlt|Hge].
  - apply Z.log2_up_lt_pow2 in Hlt; [|lia].
    assert (2 ^ o <= 2 ^ 30) by (apply Z.pow_le_mono_r; lia).
    assert (0 < 2 ^ o) by (apply Z.pow_pos_nonneg; lia).
    rewrite Z.shiftl_mul_pow2, Z.pow_1_r by lia. rewrite u32_small, u8_small by lia.
    replace (2 ^ o * 2) with (2 ^ (o + 1)) by (rewrite Z.pow_add_r; lia).
    apply IH; lia.
  - f_equal. apply Z.log2_up_le_pow2 in Hge; lia.
Qed.

Lemma calculate_order_value fuel count :
  (33 <= fuel)%nat -> 0 <= count <= 2 ^ 31 ->
  buddy_calculate_order fuel count = Some (Z.min BUDDY_MAX_ORDER (Z.log2_up count)).
Proof.
  intros Hf Hc. unfold buddy_calculate_order.
  destruct (Z.eqb_spec count 0) as [->|]; [done|].
  destruct (Z.eqb_spec count 1) as [->|]; [done|].
  assert (Z.log2_up count <= 31) by (apply Z.log2_up_le_pow2; lia).
  pose proof (Z.log2_up_nonneg count).
  pose proof (calculate_order_loop_spec fuel count 0) as E. change (2 ^ 0) with 1 in E.
  rewrite E by lia.
  f_equal. zbool; lia.
Qed.

(** Once the power has wrapped to zero the loop never ends. *)
Lemma calculate_order_loop_zero fuel count o :
  0 < count -> calculate_order_loop fuel count 0 o = None.
Proof.
  intros Hc. revert o. induction fuel as [|fuel IH]; intros o; [done|]. cbn [calculate_order_loop].
  replace (0 <? count) with true by lia. apply IH.
Qed.

Lemma calculate_order_loop_diverges n fuel count o :
  Z.of_nat n = 32 - o -> 0 <= o <= 32 -> 2 ^ 31 < count ->
  calculate_order_loop fuel count (u32 (2 ^ o)) o = None.
Proof.
  revert fuel o. induction n as [|n IH]; intros fuel o Hn Ho Hc.
  - replace o with 32 by lia. apply calculate_order_loop_zero. lia.
  - destruct fuel as [|fuel]; [done|]. cbn [calculate_order_loop].
    assert (2 ^ o <= 2 ^ 31) by (apply Z.pow_le_mono_r; lia).
    assert (0 < 2 ^ o) by (apply Z.pow_pos_nonneg; lia).
    rewrite u32_small by lia. replace (2 ^ o <? count) with true by lia.
    rewrite Z.shiftl_mul_pow2, Z.pow_1_r by lia. rewrite u8_small by lia.
    replace (2 ^ o * 2) with (2 ^ (o + 1)) by (rewrite Z.pow_add_r; lia).
    apply IH; lia.
Qed.

(** ** The invariant along every sequence of calls *)

Inductive pmm_call :=
| AllocPage
| AllocPages (count : Z)
| AllocOrder (order : Z)
| FreePage (addr : Z)
| FreePages (addr count : Z)
| FreeOrder (addr : Z)
| IncRef (addr : Z)
| DecRef (addr : Z)
| SetPaging (enabled : bool).

(** The calls the kernel makes: releases are of addresses past the first page,
    which is reserved for good and never handed out. *)
Definition call_ok (c : pmm_call) : Prop :=
  match c with
  | AllocPages count => 0 <= count <= 2 ^ 31
  | AllocOrder order => 0 <= order < 2 ^ 8
  | FreePage a | FreePages a _ | FreeOrder a => PMM_PAGE_SIZE <= a < 2 ^ 32
  | IncRef a | DecRef a => 0 <= a < 2 ^ 32
  | _ => True
  end.

Definition order_fuel : nat := 33.

(** A call, with the value it returns (0 for the releases). *)
Definition pmm_exec (c : pmm_call) (s : pmm) : outcome (Z * pmm) :=
  match c with
  | AllocPage => Done (pmm_alloc_page s)
  | AllocPages count =>
      match pmm_alloc_pages order_fuel count s with Some r => Done r | None => Panic end
  | AllocOrder o => Done (pmm_alloc_order o s)
  | FreePage a => Done (0, pmm_free_page a s)
  | FreePages a n => Done (0, pmm_free_pages a n s)
  | FreeOrder a => Done (0, pmm_free_order a s)
  | IncRef a => pmm_inc_refcount a s
  | DecRef a => pmm_dec_refcount a s
  | SetPaging b => Done (0, pmm_set_paging_enabled b s)
  end.

Fixpoint pmm_run (cs : list pmm_call) (s : pmm) : outcome (list Z * pmm) :=
  match cs with
  | [] => Done ([], s)
  | c :: cs =>
      match pmm_exec c s with
      | Panic => Panic
      | Done (r, s) =>
          match pmm_run cs s with
          | Panic => Panic
          | Done (rs, s) => Done (r :: rs, s)
          end
      end
  end.

Lemma alloc_order_ok R `{!block_stable R} o s : 0 <= o -> pmm_ok R s -> pmm_ok R (buddy_alloc_order o s).2.
Proof.
  intros Ho K. destruct (ok_inv _ _ K) as (F & I & C).
  destruct (decide (o <= BUDDY_MAX_ORDER)) as [Hm|Hm].
  - pose proof (buddy_alloc_order_effect s F o I (conj Ho Hm)) as H.
    destruct (buddy_alloc_order o s) as [a s'].
    destruct H as [(_ & -> & _)|(p & c & F' & _ & _ & I' & E)]; [done|].
    exact (alloc_ok R _ _ _ _ _ _ _ K I C I' (conj Ho Hm) E).
  - unfold buddy_alloc_order. by replace (BUDDY_MAX_ORDER <? o) with true by lia.
Qed.

(** A release either is refused or has the effect of a release. *)
Lemma free_cases addr s F :
  buddy_inv s F -> PMM_PAGE_SIZE <= addr < 2 ^ 32 ->
  let p := addr / PMM_PAGE_SIZE in
  let o := buddy_get_order p s in
  let s' := buddy_free_order addr o s in
  (free_refused addr o s /\ s' = s) \/
  (used_block s p o /\ (forall q, covers p o q -> refcount_map s q <= 1) /\
   exists p' o' F', buddy_inv s' F' /\ free_effect p o p' o' s F s' F').
Proof.
  intros I Ha p o s'. assert (Hp : 0 < p) by (unfold p, PMM_PAGE_SIZE in *; dlia).
  assert (Ha' : 0 <= addr < 2 ^ 32) by (unfold PMM_PAGE_SIZE in *; lia).
  pose proof (get_order_range p s) as Hor.
  assert (Href : free_refused addr o s -> free_refused addr o s /\ s' = s).
  { intros H. split; [done|]. apply buddy_free_order_refused; [done|unfold o; lia|done]. }
  destruct (Z.le_gt_cases (total_pages s) p) as [Ht|Ht]; [left; apply Href; by left|].
  destruct (buddy_is_allocated p s) eqn:Hal; [|left; apply Href; right; by left].
  assert (Hu : used_block s p o) by (repeat split; (done || lia)).
  destruct (bi_wf _ _ _ I p o (or_introl Hu)) as (_ & [Ho1 Ho2] & _ & Hend).
  pose proof (bi_total _ _ _ I) as Htot.
  destruct (find_from (Z.to_nat (2 ^ o)) p (fun q => 1 <? refcount_map s q)) as [q|] eqn:Hf.
  - left. apply Href. right; right. apply find_from_Some in Hf as (Hq & Hr & _).
    assert (0 < 2 ^ o) by (apply Z.pow_pos_nonneg; lia).
    exists (q - p). unfold buddy_get_refcount. fold p. replace (p + (q - p)) with q by lia.
    replace (total_pages s <=? q) with false by lia. apply Z.ltb_lt in Hr. lia.
  - right. rewrite find_from_None in Hf.
    assert (Hrc : forall q, covers p o q -> refcount_map s q <= 1).
    { intros q Hq. unfold covers in Hq. specialize (Hf q ltac:(lia)). zbool; lia. }
    split; [done|]. split; [done|]. by apply (buddy_free_order_effect s F addr p o).
Qed.

Lemma free_call_ok R `{!block_stable R} addr s :
  PMM_PAGE_SIZE <= addr < 2 ^ 32 -> pmm_ok R s -> pmm_ok R (pmm_free_page addr s).
Proof.
  intros Ha K. destruct (ok_inv _ _ K) as (F & I & C). unfold pmm_free_page, pmm_addr_to_page.
  destruct (free_cases addr s F I Ha) as [[_ ->]|(Hu & _ & p' & o' & F' & I' & E)]; [done|].
  exact (free_ok R _ _ _ _ _ _ _ _ K I C I' Hu E).
Qed.

(** Only the reference counts change. *)
Lemma refcount_ok R m s :
  (forall q, 0 <= q < total_pages s -> 0 <= m q <= UINT16_MAX) -> pmm_ok R s -> pmm_ok R (set_refcount_map m s).
Proof.
  intros Hm K. destruct (ok_inv _ _ K) as (F & I & C). split.
  - exists F. split; [|done]. by apply (buddy_inv_ext s).
  - apply (ok_stats _ _ K).
  - exact Hm.
Qed.

Lemma upd_refcount_ok R q v s :
  0 <= v <= UINT16_MAX -> pmm_ok R s -> pmm_ok R (set_refcount_map (refcount_map s).[q <- v] s).
Proof.
  intros Hv K. apply (refcount_ok R); [|done]. intros q'. rewrite upd_cases.
  case_decide; [done|apply K].
Qed.

Lemma pmm_exec_ok R `{!block_stable R} c s r s' :
  call_ok c -> pmm_ok R s -> pmm_exec c s = Done (r, s') -> pmm_ok R s'.
Proof.
  intros Hc K. destruct c; cbn [pmm_exec call_ok] in *; intros E.
  - pose proof (alloc_order_ok R 0 s ltac:(lia) K) as H. injection E as E.
    unfold pmm_alloc_page in E. by rewrite E in H.
  - revert E. unfold pmm_alloc_pages. destruct (Z.eqb_spec count 0); [by intros [= _ <-]|].
    rewrite calculate_order_value by (unfold order_fuel; lia). intros [= E].
    pose proof (Z.log2_up_nonneg count).
    pose proof (alloc_order_ok R (Z.min BUDDY_MAX_ORDER (Z.log2_up count)) s
      ltac:(unfold BUDDY_MAX_ORDER; lia) K) as H'. by rewrite E in H'.
  - pose proof (alloc_order_ok R order s ltac:(lia) K) as H. injection E as E.
    unfold pmm_alloc_order in E. by rewrite E in H.
  - injection E as _ <-. by apply (free_call_ok R).
  - injection E as _ <-. by apply (free_call_ok R).
  - injection E as _ <-. by apply (free_call_ok R).
  - revert E. unfold pmm_inc_refcount, buddy_inc_refcount.
    repeat case_match; intros [= _ <-]; simplify_eq/=; try done.
    apply (upd_refcount_ok R); [|done]. unfold UINT16_MAX.
    pose proof (u16_range (refcount_map s (pmm_addr_to_page addr) + 1)). lia.
  - revert E. unfold pmm_dec_refcount, buddy_dec_refcount.
    repeat case_match; intros [= _ <-]; simplify_eq/=; try done.
    apply (upd_refcount_ok R); [|done]. unfold UINT16_MAX.
    pose proof (u16_range (refcount_map s (pmm_addr_to_page addr) - 1)). lia.
  - injection E as _ <-. destruct K as [(F & I & C) ? ?]. split; [|done..].
    exists F. split; [|done]. by apply (buddy_inv_ext s).
Qed.

Lemma pmm_run_preserves R `{!block_stable R} cs s rs s' :
  Forall call_ok cs -> pmm_ok R s -> pmm_run cs s = Done (rs, s') -> pmm_ok R s'.
Proof.
  intros Hcs. revert s rs. induction Hcs as [|c cs Hc _ IH]; intros s rs K; cbn [pmm_run].
  - by intros [= _ <-].
  - destruct (pmm_exec c s) as [[r s1]|] eqn:E; [|done].
    destruct (pmm_run cs s1) as [[rs' s2]|] eqn:E'; [|done]. intros [= _ <-].
    eapply IH; [|exact E']. by eapply (pmm_exec_ok R).
Qed.

(** ** Completeness of allocation *)

(** The block twice the size that a block and its buddy make up. *)
Lemma buddy_cell q b k :
  0 <= k -> is_buddy q b k ->
  let m := Z.min q b in
  m mod 2 ^ (k + 1) = 0 /\ covers m (k + 1) q /\ covers m (k + 1) b /\
  q mod 2 ^ k = 0 /\ b mod 2 ^ k = 0.
Proof.
  intros Hk Hbud m. pose proof (pow_succ k Hk). assert (0 < 2 ^ k) by (by apply Z.pow_pos_nonneg).
  assert (Hsum : forall x, x mod 2 ^ (k + 1) = 0 -> x mod 2 ^ k = 0 /\ (x + 2 ^ k) mod 2 ^ k = 0).
  { intros x Hx. assert (E : x mod 2 ^ k = 0) by (apply (mod_pow_weaken x k (k + 1)); [lia|done]).
    split; [done|]. by rewrite Z.add_mod, E, Z_mod_same_full by lia. }
  unfold m, covers. destruct Hbud as [[-> E]|[-> E]]; destruct (Hsum _ E).
  - rewrite Z.min_l by lia. repeat split; (done || lia).
  - rewrite Z.min_r by lia. repeat split; (done || lia).
Qed.

(** When all lists from order [o] up are empty and no two buddies are free, no
    aligned run of [2 ^ o] pages is free. *)
Section FreeRun.
Context (s : pmm) (F : Z -> list Z) (o p : Z).
Context (I : buddy_inv s F) (C : coalesced F) (Ho : orders o).
Context (Hempty : forall k, o <= k <= BUDDY_MAX_ORDER -> F k = []).
Context (Hp : 0 <= p) (Hal : p mod 2 ^ o = 0) (Hend : p + 2 ^ o <= total_pages s).
Context (Hfree : forall x, covers p o x -> page_in_use s x = false).

(** An aligned block of smaller order that meets the run lies inside it. *)
Lemma run_contains m k x :
  0 <= k <= o -> m mod 2 ^ k = 0 -> covers m k x -> covers p o x ->
  p <= m /\ m + 2 ^ k <= p + 2 ^ o.
Proof using Hal.
  intros Hk Hm Hx Hpx. assert (0 < 2 ^ k) by (apply Z.pow_pos_nonneg; lia). unfold covers in *.
  assert (p <= m).
  { apply (aligned_le p m (2 ^ k)); [done|by apply (mod_pow_weaken p k o)|done|lia]. }
  split; [done|]. apply aligned_nested; [lia|done|done|]. unfold covers. lia.
Qed.

Lemma run_block x :
  covers p o x ->
  exists q k, free_block F q k /\ 0 <= k < o /\ covers q k x /\ covers p o q /\ q mod 2 ^ k = 0.
Proof using All.
  intros Hx. assert (Hr : 0 <= x < total_pages s) by (unfold covers in Hx; lia).
  destruct (part_cov _ _ (bi_part _ _ _ I) x Hr) as (q & k & Hb & Hc).
  destruct (bi_wf _ _ _ I _ _ Hb) as (_ & [Hk1 Hk2] & Hqal & _).
  destruct Hb as [Hu|[Hfb|?]]; [|exists q, k|done].
  - pose proof (Hfree x Hx) as Hn. rewrite (page_in_use_false s F x I Hr) in Hn. by destruct (Hn q k).
  - assert (k < o).
    { destruct (Z.lt_ge_cases k o); [done|]. destruct Hfb as [_ Hin].
      rewrite Hempty in Hin by lia. by apply elem_of_nil in Hin. }
    destruct (run_contains q k x) as [? ?]; [lia|done|done|done|].
    assert (0 < 2 ^ k) by (apply Z.pow_pos_nonneg; lia).
    split; [done|]. split; [lia|]. split; [done|]. split; [unfold covers; lia|done].
Qed.

(** The buddy of a free block of the run is in a free block of the run. *)
Lemma run_no_block n q : Z.of_nat n < o -> free_block F q (Z.of_nat n) -> covers p o q -> False.
Proof using All.
  revert q. induction n as [n IH] using lt_wf_ind. intros q Hn Hfb Hq.
  set (k := Z.of_nat n) in *. assert (Hk : 0 <= k) by lia.
  assert (Hbq : blk s F None q k) by (right; by left).
  destruct (bi_wf _ _ _ I _ _ Hbq) as (Hq0 & [_ Hk10] & Hqal & _). unfold BUDDY_MAX_ORDER in Hk10.
  pose proof (buddy_page_is_buddy q k Hq0 ltac:(lia) Hqal) as Hbud.
  set (b := buddy_get_buddy_page q k) in *.
  destruct (buddy_cell q b k Hk Hbud) as (Hm & Hmq & Hmb & _ & Hbal). set (m := Z.min q b) in *.
  destruct (run_contains m (k + 1) q) as [Hm1 Hm2]; [lia|done..|].
  destruct (run_block b) as (r & j & Hfr & Hj & Hrb & Hpr & Hral); [unfold covers in *; lia|].
  destruct (Z.lt_trichotomy j k) as [Hlt|[->|Hgt]].
  - apply (IH (Z.to_nat j) ltac:(lia) r); rewrite ?Z2Nat.id by lia; (done || lia).
  - pose proof (round_down_block r b k k ltac:(lia) Hral Hrb) as E. rewrite Hral, Hbal in E.
    replace r with b in Hfr by lia. destruct Ho. by apply (C q b k); [lia| | |].
  - destruct (bi_inside _ _ _ I r j q k) as [_ ?]; [right; by left|done| |lia].
    assert (0 < 2 ^ (k + 1)) by (apply Z.pow_pos_nonneg; lia). unfold covers in *.
    assert (r <= m).
    { apply (aligned_le r m (2 ^ (k + 1))); [done|apply (mod_pow_weaken r (k + 1) j); [lia|done]|done|lia]. }
    pose proof (aligned_nested m (k + 1) r j ltac:(lia) Hm Hral). unfold covers in *. lia.
Qed.

Lemma run_contradiction : False.
Proof using All.
  destruct Ho as [Ho1 _]. destruct (run_block p (covers_head p o Ho1)) as (q & k & Hfb & Hk & _ & Hq & _).
  apply (run_no_block (Z.to_nat k) q); rewrite ?Z2Nat.id by lia; (done || lia).
Qed.
End FreeRun.

Lemma no_free_run s F o p :
  buddy_inv s F -> coalesced F -> orders o ->
  (forall k, o <= k <= BUDDY_MAX_ORDER -> F k = []) ->
  0 <= p -> p mod 2 ^ o = 0 -> p + 2 ^ o <= total_pages s ->
  exists q, covers p o q /\ page_in_use s q = true.
Proof.
  intros I C Ho Hempty Hp Hal Hend.
  assert (Hpow : 0 <= 2 ^ o) by (apply Z.pow_nonneg; lia).
  destruct (find_from (Z.to_nat (2 ^ o)) p (page_in_use s)) as [q|] eqn:Hf.
  - apply find_from_Some in Hf as (Hq & Hu & _). rewrite Z2Nat.id in Hq by done. by exists q.
  - exfalso. rewrite find_from_None, Z2Nat.id in Hf by done.
    by apply (run_contradiction s F o p).
Qed.

(** ** Checking [coalesced] on a concrete state *)

Definition lists_of (fuel : nat) (s : pmm) (o : Z) : list Z :=
  walk fuel (blocks s) (free_lists s o).

Definition coalescedb (fuel : nat) (s : pmm) : bool :=
  forallb (fun o =>
    let l := lists_of fuel s o in
    Nat.ltb (length l) fuel &&
    forallb (fun a =>
      negb (existsb (Z.eqb (PMM_PAGE_SIZE * buddy_get_buddy_page (a / PMM_PAGE_SIZE) o)) l)) l)
    (seqZ 0 BUDDY_MAX_ORDER).

Lemma coalescedb_sound fuel s F :
  buddy_inv s F -> coalescedb fuel s = true -> coalesced F.
Proof.
  intros I H q b k Hk Hbud Hq Hb. unfold coalescedb in H. rewrite forallb_forall in H.
  pose proof Hq as [[Hk0 _] Hqin]. pose proof Hb as [_ Hbin].
  specialize (H k). cbv zeta in H. rewrite andb_true_iff, forallb_forall in H.
  destruct H as [Hlen Hall]; [apply list_elem_of_In, elem_of_seqZ; lia|].
  apply Nat.ltb_lt in Hlen.
  destruct (lists_dlist _ _ (bi_lists _ _ _ I) k (proj1 Hq)) as [Hd _].
  unfold lists_of in *. rewrite (walk_dseg_complete _ _ _ _ _ Hd Hlen) in Hall.
  specialize (Hall (PMM_PAGE_SIZE * q)). rewrite page_of_addr in Hall.
  apply negb_true_iff in Hall; [|by apply list_elem_of_In].
  apply not_true_iff_false in Hall. apply Hall, existsb_exists.
  assert (Hbq : blk s F None q k) by (right; by left).
  destruct (bi_wf _ _ _ I _ _ Hbq) as (Hq0 & _ & Hqal & _). unfold BUDDY_MAX_ORDER in Hk.
  exists (PMM_PAGE_SIZE * b). split; [by apply list_elem_of_In|]. apply Z.eqb_eq. f_equal.
  apply (is_buddy_unique q _ _ k Hk0); [|done]. by apply buddy_page_is_buddy; [|lia|].
Qed.
