(* ===== verification/PmmInit.v ===== *)
(** [pmm_init]: from a memory map whose available entries do not overlap, the
    buddy allocator starts with the reserved pages allocated one by one and the
    pages of the available entries on the free lists.

    While the regions are added the blocks do not cover all pages yet:
    [partial_inv] is the invariant without the covering, [covered] the set of
    pages that have been dealt with. *)

From S2P Require Import Prelude Dll Pmm PmmMeta PmmInv PmmSteps PmmAlloc PmmFree PmmProps.
From Stdlib Require Import ZArith Lia Bool.
From stdpp Require Import base tactics numbers list sets gmap.
Open Scope Z_scope.

Record partial_inv (s : pmm) (F : Z -> list Z) : Prop := {
  pi_total : 0 < total_pages s < 2 ^ 20;
  pi_lists : lists_ok s F;
  pi_free o a : orders o -> a ∈ F o ->
    0 < a /\ a mod PMM_PAGE_SIZE = 0 /\
    buddy_is_allocated (a / PMM_PAGE_SIZE) s = false /\
    buddy_get_order (a / PMM_PAGE_SIZE) s = o;
  pi_wf p o : blk s F None p o ->
    0 <= p /\ 0 <= o <= BUDDY_MAX_ORDER /\ p mod 2 ^ o = 0 /\ p + 2 ^ o <= total_pages s;
  pi_sep p o p' o' q :
    blk s F None p o -> blk s F None p' o' -> covers p o q -> covers p' o' q -> p = p' /\ o = o';
  pi_zero : buddy_is_allocated 0 s = true }.

Definition covered (s : pmm) (F : Z -> list Z) (q : Z) : Prop :=
  exists p o, blk s F None p o /\ covers p o q.

Lemma partial_full s F :
  partial_inv s F -> (forall q, 0 <= q < total_pages s -> covered s F q) -> buddy_inv s F.
Proof. intros [T L Fr W S Z0] C. split; [lia|done|done|done|by split]. Qed.

Lemma allocated_covered s F q :
  0 <= q < total_pages s -> buddy_is_allocated q s = true -> covered s F q.
Proof.
  intros Hq Ha. exists q, (buddy_get_order q s). split; [by left|].
  apply covers_head, get_order_range.
Qed.

(** What adding and reserving regions leaves alone. *)
Definition region_eq (s s' : pmm) : Prop :=
  total_pages s' = total_pages s /\ refcount_map s' = refcount_map s /\
  used_pages s' = used_pages s /\
  (forall q, 0 <= q < total_pages s -> buddy_is_allocated q s' = buddy_is_allocated q s) /\
  forall q, 0 <= q < total_pages s -> buddy_is_allocated q s = true ->
    buddy_get_order q s' = buddy_get_order q s.

Lemma region_eq_trans s1 s2 s3 : region_eq s1 s2 -> region_eq s2 s3 -> region_eq s1 s3.
Proof.
  intros (A1 & A2 & A3 & A4 & A5) (B1 & B2 & B3 & B4 & B5). unfold region_eq.
  rewrite B1, B2, B3. rewrite A1 in *. split; [done|]. split; [done|]. split; [done|]. split.
  - intros q Hq. by rewrite B4, A4.
  - intros q Hq Ha. rewrite B5, A5; [done..|]. by rewrite A4.
Qed.

Definition add_block (p o : Z) (s : pmm) : pmm :=
  buddy_add_to_free_list (PMM_PAGE_SIZE * p) o (buddy_mark_free p (buddy_set_order p o s)).

(** Putting a block of pages nobody has on its free list. *)
Lemma add_block_spec s F p o :
  partial_inv s F -> 0 < p -> orders o -> p mod 2 ^ o = 0 -> p + 2 ^ o <= total_pages s ->
  (forall q, covers p o q -> ~ covered s F q) ->
  exists F', partial_inv (add_block p o s) F' /\ region_eq s (add_block p o s) /\
    (forall q, covered (add_block p o s) F' q <-> covered s F q \/ covers p o q).
Proof.
  intros I Hp Ho Hal Hend Hfresh. set (a := PMM_PAGE_SIZE * p). set (s' := add_block p o s).
  pose proof (pi_total _ _ I) as Ht. pose proof Ho as [Ho1 Ho2].
  assert (Hpow : 0 < 2 ^ o) by (apply Z.pow_pos_nonneg; lia).
  set (s1 := buddy_mark_free p (buddy_set_order p o s)).
  pose proof (add_meta a o s1) as M. fold s' in M.
  assert (Hun : ~ covered s F p) by (apply Hfresh; by apply covers_head).
  assert (Hpa : buddy_is_allocated p s = false).
  { destruct (buddy_is_allocated p s) eqn:E; [|done]. destruct Hun. apply allocated_covered; [lia|done]. }
  assert (HA : forall q, 0 <= q -> buddy_is_allocated q s' = buddy_is_allocated q s).
  { intros q Hq. rewrite (meta_allocated _ _ M). unfold s1. rewrite mark_free_spec by lia.
    destruct (decide (q = p)) as [->|]; done. }
  assert (HO : forall q, 0 <= q < total_pages s -> buddy_get_order q s' =
    if decide (q = p) then o else buddy_get_order q s).
  { intros q Hq. rewrite (meta_order _ _ M). unfold BUDDY_MAX_ORDER in Ho2.
    apply (get_set_order p q o s); lia. }
  assert (HT : total_pages s' = total_pages s) by apply (meta_total _ _ M).
  assert (Hnot : forall o', orders o' -> a ∉ F o').
  { intros o' Ho' Hin. apply Hun. exists p, o'. split; [right; left; by split|].
    apply covers_head, Ho'. }
  assert (HB : forall q k, blk s' F.[o <- a :: F o] None q k <-> blk s F None q k \/ (q = p /\ k = o)).
  { intros q k. unfold blk, used_block, free_block. rewrite HT, upd_cases. split.
    - intros [(Hq & Ha & Hk)|[[Hk Hin]|?]]; [|destruct (decide (k = o)) as [->|]|done].
      + rewrite HA in Ha by lia. rewrite HO in Hk by lia. case_decide; [congruence|]. left. by left.
      + apply elem_of_cons in Hin as [E|Hin]; [right|left; right; by left].
        unfold a, PMM_PAGE_SIZE in E. lia.
      + left. right. by left.
    - intros [[(Hq & Ha & Hk)|[[Hk Hin]|?]]|[-> ->]]; [| |done|].
      + left. rewrite HA, HO by lia. rewrite decide_False by congruence. done.
      + right. left. split; [done|]. case_decide; [subst; by right|done].
      + right. left. split; [done|]. rewrite decide_True by done. by left. }
  exists F.[o <- a :: F o]. split; [split|split].
  - by rewrite HT.
  - apply add_lists; [by eapply lists_ok_ext; [..|apply I]|done|unfold a, PMM_PAGE_SIZE; lia|done].
  - intros k x Hk Hx. rewrite upd_cases in Hx.
    assert (Hold : x ∈ F k -> 0 < x /\ x mod PMM_PAGE_SIZE = 0 /\
      buddy_is_allocated (x / PMM_PAGE_SIZE) s' = false /\ buddy_get_order (x / PMM_PAGE_SIZE) s' = k).
    { intros Hin. destruct (pi_free _ _ I k x Hk Hin) as (H1 & H2 & H3 & H4).
      rewrite <- (addr_of_page x H2) in Hin. destruct (pi_wf _ _ I _ k (or_intror (or_introl (conj Hk Hin)))) as (? & _ & _ & ?).
      assert (0 < 2 ^ k) by (apply Z.pow_pos_nonneg; [lia|apply Hk]).
      rewrite HA, HO by lia. rewrite decide_False; [done|]. intros E. rewrite E in Hin. by apply (Hnot k). }
    destruct (decide (k = o)) as [->|]; [|by apply Hold].
    apply elem_of_cons in Hx as [->|Hx]; [|by apply Hold].
    unfold a. rewrite page_of_addr, HA, HO, decide_True by (done || lia).
    unfold PMM_PAGE_SIZE. repeat split; [lia|dlia|done].
  - intros q k. rewrite HB, HT. intros [H|[-> ->]]; [by apply I|]. repeat split; (done || lia).
  - intros q k q' k' x. rewrite !HB. intros [H|[-> ->]] [H'|[-> ->]] Hx Hx'; try done.
    + by apply (pi_sep _ _ I q k q' k' x).
    + destruct (Hfresh x Hx'). by exists q, k.
    + destruct (Hfresh x Hx). by exists q', k'.
  - rewrite HA by lia. apply I.
  - destruct M as (_ & _ & _ & M1 & M2 & _). split; [done|]. split; [done|]. split; [done|]. split.
    + intros q [Hq _]. by apply HA.
    + intros q Hq Ha. rewrite HO by done. by rewrite decide_False by congruence.
  - intros q. unfold covered. setoid_rewrite HB. naive_solver.
Qed.

(** ** Choosing the order of the next block *)

Lemma order_aligned_spec c o :
  0 <= o < 20 -> buddy_is_order_aligned (PMM_PAGE_SIZE * c) o = true <-> c mod 2 ^ o = 0.
Proof.
  intros Ho. unfold buddy_is_order_aligned, PMM_PAGE_SIZE. rewrite Z.shiftl_mul_pow2 by lia.
  change 4096 with (2 ^ 12). rewrite <- Z.pow_add_r by lia.
  assert (2 ^ (12 + o) <= 2 ^ 31) by (apply Z.pow_le_mono_r; lia).
  assert (0 < 2 ^ (12 + o)) by (apply Z.pow_pos_nonneg; lia).
  rewrite (u32_small (2 ^ (12 + o))), u32_small by lia. rewrite land_ones_mod by lia.
  assert (0 < 2 ^ o) by (apply Z.pow_pos_nonneg; lia).
  rewrite Z.pow_add_r, Z.mul_mod_distr_l by lia. rewrite Z.eqb_eq. lia.
Qed.

Lemma region_order_fits_true c n o s :
  0 <= c < 2 ^ 20 -> 0 <= o <= BUDDY_MAX_ORDER ->
  region_order_fits (PMM_PAGE_SIZE * c) n o s = true ->
  2 ^ o <= n /\ c mod 2 ^ o = 0 /\
  forall q, covers c o q -> q < total_pages s /\ buddy_is_allocated q s = false.
Proof.
  intros Hc Ho. unfold BUDDY_MAX_ORDER in Ho. unfold region_order_fits, pmm_addr_to_page.
  rewrite page_of_addr, pages_in_block by lia.
  intros H. apply andb_true_iff in H as [H H3]. apply andb_true_iff in H as [H1 H2].
  apply Z.leb_le in H1. apply order_aligned_spec in H2; [|lia].
  split; [done|]. split; [done|]. intros q [Hq1 Hq2].
  destruct (find_from _ _ _) eqn:Hf; [done|]. rewrite find_from_None in Hf.
  assert (2 ^ o <= 2 ^ 10) by (apply Z.pow_le_mono_r; lia).
  specialize (Hf (q - c)). rewrite Z2Nat.id, u32_small in Hf by lia.
  replace (c + (q - c)) with q in Hf by lia.
  apply orb_false_iff in Hf as [Hf1 Hf2]; [|lia]. split; [lia|done].
Qed.

Lemma largest_order_cases n addr rem s :
  let o := largest_order n addr rem s in
  0 <= o <= Z.of_nat n /\ (o = 0 \/ region_order_fits addr rem o s = true).
Proof.
  induction n as [|n IH]; cbn [largest_order]; [lia|].
  destruct (region_order_fits addr rem (Z.of_nat (S n)) s) eqn:E; [split; [lia|by right]|].
  destruct IH as [IH1 IH2]. split; [lia|done].
Qed.

(** ** Adding a region *)

Lemma add_region_loop_spec fuel s F c e :
  partial_inv s F -> 0 <= c <= e -> e <= total_pages s -> e - c <= Z.of_nat fuel ->
  (forall q, c <= q < e -> covered s F q -> buddy_is_allocated q s = true) ->
  let s' := add_region_loop fuel (PMM_PAGE_SIZE * c) (PMM_PAGE_SIZE * e) s in
  exists F', partial_inv s' F' /\ region_eq s s' /\
    (forall q, covered s' F' q <-> covered s F q \/ c <= q < e).
Proof.
  revert s F c. induction fuel as [|fuel IH]; intros s F c I Hce He Hf Hfree; cbn [add_region_loop].
  { exists F. split; [done|]. split; [done|]. intros q. split; [by left|]. intros [?|?]; [done|lia]. }
  pose proof (pi_total _ _ I) as Ht. unfold pmm_addr_to_page.
  destruct (Z.ltb_spec (PMM_PAGE_SIZE * c) (PMM_PAGE_SIZE * e)) as [Hlt|Hge].
  2: { exists F. split; [done|]. split; [done|]. intros q. split; [by left|].
       intros [?|?]; [done|unfold PMM_PAGE_SIZE in *; lia]. }
  replace (PMM_PAGE_SIZE * e - PMM_PAGE_SIZE * c) with (PMM_PAGE_SIZE * (e - c)) by lia.
  rewrite !page_of_addr. assert (c < e) by (unfold PMM_PAGE_SIZE in *; lia).
  replace (e - c =? 0) with false by lia.
  destruct (buddy_is_allocated c s) eqn:Hal.
  - replace (u32 (PMM_PAGE_SIZE * c + PMM_PAGE_SIZE)) with (PMM_PAGE_SIZE * (c + 1))
      by (unfold PMM_PAGE_SIZE; rewrite u32_small; lia).
    destruct (IH s F (c + 1) I) as (F' & I' & E' & C'); [lia..| |].
    { intros q Hq. apply Hfree. lia. }
    exists F'. split; [done|]. split; [done|]. intros q. rewrite C'.
    destruct (decide (q = c)) as [->|]; [|intuition lia].
    pose proof (allocated_covered s F c ltac:(lia) Hal). intuition lia.
  - pose proof (largest_order_cases (Z.to_nat BUDDY_MAX_ORDER) (PMM_PAGE_SIZE * c) (e - c) s) as [Ho Hc].
    set (o := largest_order _ _ _ s) in *. rewrite Z2Nat.id in Ho by (unfold BUDDY_MAX_ORDER; lia).
    assert (Hfit : 2 ^ o <= e - c /\ c mod 2 ^ o = 0 /\
      forall q, covers c o q -> q < total_pages s /\ buddy_is_allocated q s = false).
    { destruct Hc as [Hc|Hc].
      - rewrite Hc. split; [lia|]. split; [apply Z.mod_1_r|]. unfold covers. intros q Hq.
        replace q with c by lia. split; [lia|done].
      - apply (region_order_fits_true c (e - c) o s); [lia|done|done]. }
    destruct Hfit as (Hn & Halg & Hpages). unfold BUDDY_MAX_ORDER in Ho.
    assert (0 < 2 ^ o) by (apply Z.pow_pos_nonneg; lia).
    rewrite pages_in_block by lia.
    replace (u32 (PMM_PAGE_SIZE * c + 2 ^ o * PMM_PAGE_SIZE)) with (PMM_PAGE_SIZE * (c + 2 ^ o))
      by (unfold PMM_PAGE_SIZE; rewrite u32_small; lia).
    change (buddy_add_to_free_list _ o _) with (add_block c o s).
    assert (Hc0 : c <> 0) by (intros ->; rewrite (pi_zero _ _ I) in Hal; done).
    destruct (add_block_spec s F c o I) as (F1 & I1 & E1 & C1); [lia|done|done|lia| |].
    { intros q Hq Hcov. destruct (Hpages q Hq) as [_ Hx]. unfold covers in Hq.
      rewrite Hfree in Hx by (done || lia). done. }
    pose proof E1 as (ET & _ & _ & EA & _).
    destruct (IH (add_block c o s) F1 (c + 2 ^ o) I1) as (F' & I' & E' & C'); [lia|lia|lia| |].
    { intros q Hq. rewrite C1, EA by lia. unfold covers. intros [?|?]; [|lia]. apply Hfree; [lia|done]. }
    exists F'. split; [done|]. split; [by eapply region_eq_trans|].
    intros q. rewrite C', C1. unfold covers. intuition lia.
Qed.

Lemma align_up_spec x : 0 <= x -> x + 4095 < 2 ^ 32 ->
  pmm_align_up x = PMM_PAGE_SIZE * ((x + 4095) / PMM_PAGE_SIZE).
Proof.
  intros H1 H2. unfold pmm_align_up. replace (x + PMM_PAGE_SIZE - 1) with (x + 4095)
    by (unfold PMM_PAGE_SIZE; lia).
  rewrite u32_small by lia. apply (align_down_spec (x + 4095)). lia.
Qed.

(** The pages that lie inside, and those touched by, a range of addresses. *)
Definition inner_pages (start end_ q : Z) : Prop :=
  (start + 4095) / PMM_PAGE_SIZE <= q < end_ / PMM_PAGE_SIZE.
Definition outer_pages (start end_ q : Z) : Prop :=
  start / PMM_PAGE_SIZE <= q < (end_ + 4095) / PMM_PAGE_SIZE.

#[export] Instance inner_pages_dec a b q : Decision (inner_pages a b q).
Proof. unfold inner_pages. apply _. Defined.
#[export] Instance outer_pages_dec a b q : Decision (outer_pages a b q).
Proof. unfold outer_pages. apply _. Defined.

Lemma add_region_spec s F start end_ :
  partial_inv s F -> 0 <= start -> start + 4095 < 2 ^ 32 -> 0 <= end_ < 2 ^ 32 ->
  end_ / PMM_PAGE_SIZE <= total_pages s ->
  (forall q, inner_pages start end_ q -> covered s F q -> buddy_is_allocated q s = true) ->
  let s' := buddy_add_region start end_ s in
  exists F', partial_inv s' F' /\ region_eq s s' /\
    (forall q, covered s' F' q <-> covered s F q \/ inner_pages start end_ q).
Proof.
  intros I H1 H2 H3 He Hfree. unfold buddy_add_region.
  rewrite align_up_spec, align_down_spec by lia. unfold inner_pages in *.
  set (c := (start + 4095) / PMM_PAGE_SIZE) in *. set (e := end_ / PMM_PAGE_SIZE) in *.
  assert (0 <= c) by (unfold c, PMM_PAGE_SIZE; dlia).
  destruct (Z.leb_spec (PMM_PAGE_SIZE * e) (PMM_PAGE_SIZE * c)) as [Hle|Hgt].
  - exists F. split; [done|]. split; [done|]. intros q. unfold PMM_PAGE_SIZE in *. intuition lia.
  - replace (PMM_PAGE_SIZE * e - PMM_PAGE_SIZE * c) with (PMM_PAGE_SIZE * (e - c)) by lia.
    rewrite page_of_addr. unfold PMM_PAGE_SIZE in Hgt.
    apply (add_region_loop_spec (Z.to_nat (e - c)) s F c e I); [lia..|done].
Qed.

(** ** Reserving regions *)

(** [s'] is [s] with the pages of [P] marked allocated as well. *)
Record reserved_more (s s' : pmm) (P : Z -> Prop) : Prop := {
  rm_total : total_pages s' = total_pages s;
  rm_order : order_map s' = order_map s;
  rm_refcount : refcount_map s' = refcount_map s;
  rm_lists : free_lists s' = free_lists s;
  rm_alloc q : 0 <= q < total_pages s ->
    buddy_is_allocated q s' = true <-> buddy_is_allocated q s = true \/ P q;
  rm_used : let count t := count_below (Z.to_nat (total_pages t)) (fun q => buddy_is_allocated q t) in
    used_pages s = count s -> used_pages s' = count s' }.

Lemma reserved_more_trans s1 s2 s3 P Q R :
  (forall q, 0 <= q < total_pages s1 -> R q <-> P q \/ Q q) ->
  reserved_more s1 s2 P -> reserved_more s2 s3 Q -> reserved_more s1 s3 R.
Proof.
  intros HR [A1 A2 A3 A4 A5 A6] [B1 B2 B3 B4 B5 B6]. split; [congruence..| |].
  - intros q Hq. specialize (HR q Hq). specialize (A5 q Hq). rewrite <- A1 in Hq.
    specialize (B5 q Hq). tauto.
  - cbv zeta in *. auto.
Qed.

(** Marking one more page. *)
Lemma reserve_page_spec s c :
  0 <= c < total_pages s -> total_pages s < 2 ^ 20 ->
  reserved_more s
    (if negb (buddy_is_allocated c s)
     then set_used_pages (u32 (used_pages s + 1)) (buddy_mark_allocated c s) else s)
    (fun q => q = c).
Proof.
  intros Hc Ht. destruct (buddy_is_allocated c s) eqn:Hal; cbn [negb].
  { split; [done..| |done]. intros q Hq. split; [by left|]. by intros [?| ->]. }
  assert (HA : forall q, 0 <= q -> buddy_is_allocated q
      (set_used_pages (u32 (used_pages s + 1)) (buddy_mark_allocated c s)) =
      if decide (q = c) then true else buddy_is_allocated q s)
    by (intros; by apply mark_allocated_spec; [lia|]).
  split; [done..| |].
  - intros q Hq. rewrite HA by lia. case_decide; naive_solver.
  - intros count Hu. subst count. cbv beta in *.
    set (s1 := set_used_pages _ _) in *. change (total_pages s1) with (total_pages s).
    change (used_pages s1) with (u32 (used_pages s + 1)).
    pose proof (count_below_bound (Z.to_nat (total_pages s)) (fun q => buddy_is_allocated q s)).
    rewrite Hu, u32_small by lia. symmetry.
    apply (count_below_add _ _ _ c 1); [lia..| |].
    + intros q Hq. replace q with c by lia. rewrite HA by lia. by rewrite decide_True.
    + intros q Hq Hne. rewrite HA by lia. by rewrite decide_False by lia.
Qed.

Lemma reserve_loop_spec fuel s c e :
  0 <= c < 2 ^ 20 -> e - c <= Z.of_nat fuel -> total_pages s < 2 ^ 20 ->
  reserved_more s (reserve_region_loop fuel (PMM_PAGE_SIZE * c) (PMM_PAGE_SIZE * e) s)
    (fun q => c <= q < e).
Proof.
  revert s c. induction fuel as [|fuel IH]; intros s c Hc Hf Ht; cbn [reserve_region_loop].
  { split; [done..| |done]. intros q Hq. intuition lia. }
  unfold pmm_addr_to_page. rewrite page_of_addr.
  destruct (Z.ltb_spec (PMM_PAGE_SIZE * c) (PMM_PAGE_SIZE * e)) as [Hlt|Hge].
  2: { split; [done..| |done]. intros q Hq. unfold PMM_PAGE_SIZE in *. intuition lia. }
  destruct (Z.leb_spec (total_pages s) c) as [Hout|Hin].
  { split; [done..| |done]. intros q Hq. intuition lia. }
  replace (u32 (PMM_PAGE_SIZE * c + PMM_PAGE_SIZE)) with (PMM_PAGE_SIZE * (c + 1))
    by (unfold PMM_PAGE_SIZE; rewrite u32_small; lia).
  pose proof (reserve_page_spec s c ltac:(lia) Ht) as R1.
  set (s1 := if negb _ then _ else s) in *. unfold PMM_PAGE_SIZE in Hlt.
  eapply reserved_more_trans; [|exact R1|apply IH; [lia|lia|by rewrite (rm_total _ _ _ R1)]].
  intros q Hq. cbv beta. lia.
Qed.

Lemma reserve_region_spec s start end_ :
  0 <= start < 2 ^ 32 -> 0 <= end_ -> end_ + 4095 < 2 ^ 32 -> total_pages s < 2 ^ 20 ->
  reserved_more s (buddy_reserve_region start end_ s) (outer_pages start end_).
Proof.
  intros H1 H2 H3 Ht. unfold buddy_reserve_region.
  rewrite align_up_spec, align_down_spec by lia. unfold outer_pages.
  set (c := start / PMM_PAGE_SIZE). set (e := (end_ + 4095) / PMM_PAGE_SIZE).
  assert (0 <= c < 2 ^ 20) by (unfold c, PMM_PAGE_SIZE; dlia).
  destruct (Z.leb_spec (PMM_PAGE_SIZE * e) (PMM_PAGE_SIZE * c)) as [Hle|Hgt].
  - split; [done..| |done]. intros q Hq. unfold PMM_PAGE_SIZE in *. intuition lia.
  - replace (PMM_PAGE_SIZE * e - PMM_PAGE_SIZE * c) with (PMM_PAGE_SIZE * (e - c)) by lia.
    rewrite page_of_addr. unfold PMM_PAGE_SIZE in Hgt. apply reserve_loop_spec; lia.
Qed.

(** ** The memory map *)

Definition entry_pages (e : saved_mmap_entry) (q : Z) : Prop :=
  type e = 1 /\ mmap_base e < 0xFFFFFFFF /\
  inner_pages (mmap_base e) (mmap_base e + mmap_length e) q.

(** An available entry that starts below 4 GiB ends before the last page of the
    address space. *)
Definition entry_ok (e : saved_mmap_entry) : Prop :=
  type e = 1 -> mmap_base e < 0xFFFFFFFF ->
  0 <= mmap_base e /\ 0 <= mmap_length e /\ mmap_base e + mmap_length e <= 0xFFFFF000.

Definition entries_disjoint (l : list saved_mmap_entry) : Prop :=
  ForallOrdPairs (fun e1 e2 => forall q, entry_pages e1 q -> ~ entry_pages e2 q) l.

(** The same as a computation. *)
Definition disjointb (e1 e2 : saved_mmap_entry) : bool :=
  negb (type e1 =? 1) || negb (type e2 =? 1) ||
  ((mmap_base e1 + mmap_length e1) / PMM_PAGE_SIZE <=? (mmap_base e2 + 4095) / PMM_PAGE_SIZE) ||
  ((mmap_base e2 + mmap_length e2) / PMM_PAGE_SIZE <=? (mmap_base e1 + 4095) / PMM_PAGE_SIZE).

Fixpoint entries_disjointb (l : list saved_mmap_entry) : bool :=
  match l with
  | [] => true
  | e :: l => forallb (disjointb e) l && entries_disjointb l
  end.

Lemma entries_disjointb_sound l : entries_disjointb l = true -> entries_disjoint l.
Proof.
  induction l as [|e l IH]; cbn [entries_disjointb]; intros H; constructor.
  - apply andb_true_iff in H as [H _]. rewrite forallb_forall in H.
    apply List.Forall_forall. intros e' He' q (T1 & _ & P1) (T2 & _ & P2).
    specialize (H e' He'). unfold disjointb, inner_pages in *.
    rewrite T1, T2 in H. cbn [negb orb Z.eqb Pos.eqb] in H. apply orb_true_iff in H. zbool; lia.
  - apply IH. by apply andb_true_iff in H as [_ H].
Qed.

Lemma process_map_mono l m :
  0 <= m <= 0xFFFFFFFF ->
  let f := fun pmm_max_memory entry =>
    if type entry =? 1 then
      let end_ := u64 (mmap_base entry + mmap_length entry) in
      let end_ := if 0xFFFFFFFF <? end_ then 0xFFFFFFFF else end_ in
      if pmm_max_memory <? u32 end_ then u32 end_ else pmm_max_memory
    else pmm_max_memory in
  m <= fold_left f l m <= 0xFFFFFFFF /\
  forall e, In e l -> entry_ok e -> type e = 1 -> mmap_base e < 0xFFFFFFFF ->
    mmap_base e + mmap_length e <= fold_left f l m.
Proof.
  intros Hm f. revert m Hm. induction l as [|x l IH]; intros m Hm; cbn [fold_left]; [split; [lia|done]|].
  assert (Hf : m <= f m x <= 0xFFFFFFFF /\
    (entry_ok x -> type x = 1 -> mmap_base x < 0xFFFFFFFF -> mmap_base x + mmap_length x <= f m x)).
  { unfold f. destruct (Z.eqb_spec (type x) 1); [|split; [lia|done]].
    set (z := if 0xFFFFFFFF <? _ then _ else _). pose proof (u32_range z). split; [zbool; lia|].
    intros Hok Hty Hb. destruct (Hok Hty Hb) as (H1 & H2 & H3).
    assert (z = mmap_base x + mmap_length x) as ->.
    { unfold z, u64. rewrite Z.mod_small by lia. zbool; lia. }
    rewrite u32_small by lia. zbool; lia. }
  destruct Hf as [Hf1 Hf2]. destruct (IH (f m x) ltac:(lia)) as [I1 I2]. split; [lia|].
  intros e [<-|He] Hok Hty Hb; [|by apply I2]. specialize (Hf2 Hok Hty Hb). lia.
Qed.

Lemma init_entry_spec s F e :
  partial_inv s F -> entry_ok e ->
  (type e = 1 -> mmap_base e < 0xFFFFFFFF -> (mmap_base e + mmap_length e) / PMM_PAGE_SIZE <= total_pages s) ->
  (forall q, entry_pages e q -> covered s F q -> buddy_is_allocated q s = true) ->
  exists F', partial_inv (pmm_init_entry s e) F' /\ region_eq s (pmm_init_entry s e) /\
    (forall q, covered (pmm_init_entry s e) F' q <-> covered s F q \/ entry_pages e q).
Proof.
  intros I Hok Hend Hfree. unfold pmm_init_entry, entry_pages in *.
  destruct (Z.eqb_spec (type e) 1) as [Hty|Hty]; cbn [negb].
  2: { exists F. split; [done|]. split; [done|]. intros q. tauto. }
  destruct (Z.leb_spec 0xFFFFFFFF (mmap_base e)) as [Hb|Hb].
  { exists F. split; [done|]. split; [done|]. intros q. intuition lia. }
  destruct (Hok Hty Hb) as (H1 & H2 & H3). unfold u64.
  rewrite (Z.mod_small (mmap_base e + mmap_length e)) by lia.
  rewrite !u32_small by lia.
  replace ((0xFFFFFFFF <? _) || _) with false by (symmetry; apply orb_false_iff; lia).
  destruct (add_region_spec s F (mmap_base e) (mmap_base e + mmap_length e) I)
    as (F' & I' & E' & C'); [lia|lia|lia|by apply Hend| |].
  { intros q Hq. by apply Hfree. }
  exists F'. split; [done|]. split; [done|]. intros q. rewrite C'. tauto.
Qed.

Lemma init_entries_spec l s F :
  partial_inv s F -> (forall e, In e l -> entry_ok e) -> entries_disjoint l ->
  (forall e, In e l -> type e = 1 -> mmap_base e < 0xFFFFFFFF ->
     (mmap_base e + mmap_length e) / PMM_PAGE_SIZE <= total_pages s) ->
  (forall e q, In e l -> entry_pages e q -> covered s F q -> buddy_is_allocated q s = true) ->
  let s' := fold_left pmm_init_entry l s in
  exists F', partial_inv s' F' /\ region_eq s s' /\
    (forall q, covered s' F' q <-> covered s F q \/ exists e, In e l /\ entry_pages e q).
Proof.
  revert s F. induction l as [|e l IH]; intros s F I Hok Hdis Hend Hfree; cbn [fold_left].
  { exists F. split; [done|]. split; [done|]. intros q. naive_solver. }
  inversion_clear Hdis as [|? ? Hd1 Hd2]. rewrite List.Forall_forall in Hd1.
  destruct (init_entry_spec s F e I) as (F1 & I1 & E1 & C1);
    [apply Hok; by left|apply Hend; by left|intros q; apply Hfree; by left|].
  pose proof E1 as (ET & _ & _ & EA & _).
  destruct (IH (pmm_init_entry s e) F1 I1) as (F' & I' & E' & C').
  - intros e' ?. apply Hok. by right.
  - done.
  - intros e' ?. rewrite ET. apply Hend. by right.
  - intros e' q He' Hq Hcov. apply C1 in Hcov as [Hcov|Hx]; [|by destruct (Hd1 e' He' q)].
    pose proof (Hfree e' q (or_intror He') Hq Hcov) as Ha.
    destruct Hq as (Hty & Hb & Hin). unfold inner_pages in Hin.
    assert (0 <= q) by (pose proof (Hok e' (or_intror He') Hty Hb); unfold PMM_PAGE_SIZE in *; dlia).
    pose proof (Hend e' (or_intror He') Hty Hb). rewrite EA by lia. done.
  - exists F'. split; [done|]. split; [by eapply region_eq_trans|].
    intros q. rewrite C', C1. cbn [In]. naive_solver.
Qed.

(** ** Clearing and reserving *)

Record boot_ok (b : boot_info) : Prop := {
  bo_memory : PMM_PAGE_SIZE <= multiboot2_process_memory_map (saved_mmap b);
  bo_kernel : 0 <= _kernel_start b < 2 ^ 32;
  bo_metadata :
    metadata_end b (multiboot2_process_memory_map (saved_mmap b) / PMM_PAGE_SIZE) + 4095 < 2 ^ 32;
  bo_modules m : In m (boot_modules b) ->
    0 <= module_phys_addr_start m < 2 ^ 32 /\
    0 <= module_phys_addr_end m /\ module_phys_addr_end m + 4095 < 2 ^ 32;
  bo_entries e : In e (saved_mmap b) -> entry_ok e;
  bo_disjoint : entries_disjoint (saved_mmap b) }.

Definition boot_pages (b : boot_info) : Z :=
  multiboot2_process_memory_map (saved_mmap b) / PMM_PAGE_SIZE.

(** The pages [pmm_init] withholds. *)
Definition reserved (b : boot_info) (q : Z) : Prop :=
  outer_pages 0 PMM_RESERVED_AREA q \/
  outer_pages (_kernel_start b) (metadata_end b (boot_pages b)) q \/
  exists m, In m (boot_modules b) /\
    outer_pages (module_phys_addr_start m) (module_phys_addr_end m) q.

#[export] Instance reserved_dec b q : Decision (reserved b q).
Proof.
  unfold reserved. apply or_dec; [apply _|]. apply or_dec; [apply _|].
  destruct (decide (Exists (fun m =>
    outer_pages (module_phys_addr_start m) (module_phys_addr_end m) q) (boot_modules b))) as [H|H];
    [left|right]; rewrite Exists_exists in H; setoid_rewrite list_elem_of_In in H; exact H.
Defined.

Lemma boot_pages_bound b : boot_ok b -> 0 < boot_pages b < 2 ^ 20.
Proof.
  intros B. pose proof (bo_memory _ B) as H. unfold boot_pages.
  pose proof (process_map_mono (saved_mmap b) 0 ltac:(lia)) as [Hm _].
  change (fold_left _ _ _) with (multiboot2_process_memory_map (saved_mmap b)) in Hm.
  unfold PMM_PAGE_SIZE in *. dlia.
Qed.

Record cleared (total : Z) (s : pmm) : Prop := {
  cl_total : total_pages s = total;
  cl_used : used_pages s = 0;
  cl_lists o : orders o -> free_lists s o = 0;
  cl_order q : 0 <= q < total -> buddy_get_order q s = 0;
  cl_status q : 0 <= q < total -> buddy_is_allocated q s = false;
  cl_refcount q : 0 <= q < total -> refcount_map s q = 0 }.

Lemma memset_zero_in bytes width m i :
  0 <= i < bytes / width -> memset_zero bytes width m i = 0.
Proof.
  intros Hi. unfold memset_zero.
  by rewrite (proj2 (Z.leb_le 0 i)), (proj2 (Z.ltb_lt i _)) by lia.
Qed.

(** A map of [x] bytes, rounded up to pages, has the cells below [x / width]. *)
Lemma map_cell_in x width c i :
  0 <= x < 2 ^ 31 -> 0 < width -> width * c = PMM_PAGE_SIZE -> 0 <= i -> i * width < x ->
  0 <= i < pmm_align_up x / width.
Proof.
  intros Hx Hw Hc Hi Hlt. rewrite align_up_spec by lia. rewrite <- Hc at 1.
  set (k := (x + 4095) / PMM_PAGE_SIZE).
  assert (x <= PMM_PAGE_SIZE * k) by (unfold k, PMM_PAGE_SIZE; dlia).
  replace (width * c * k) with (c * k * width) by lia. rewrite Z.div_mul by lia. nia.
Qed.

Lemma get_order_zero q t : order_map t (u32 (q * 4) / 32) = 0 -> buddy_get_order q t = 0.
Proof. intros E. unfold buddy_get_order. by rewrite E, Z.shiftr_0_l. Qed.

Lemma is_allocated_zero q t : status_map t (q / 32) = 0 -> buddy_is_allocated q t = false.
Proof. intros E. unfold buddy_is_allocated. by rewrite E, Z.land_0_l. Qed.

Lemma clear_lists_spec t :
  (forall o, orders o -> free_lists (clear_lists t) o = 0) /\
  total_pages (clear_lists t) = total_pages t /\ order_map (clear_lists t) = order_map t /\
  status_map (clear_lists t) = status_map t /\ refcount_map (clear_lists t) = refcount_map t.
Proof.
  set (P := fun (k : Z) (u : pmm) => (forall o, 0 <= o < k -> free_lists u o = 0) /\
    total_pages u = total_pages t /\ order_map u = order_map t /\
    status_map u = status_map t /\ refcount_map u = refcount_map t).
  enough (HP : P (BUDDY_MAX_ORDER + 1) (clear_lists t)).
  { destruct HP as [A B]. split; [|exact B]. intros o [Ho1 Ho2]. apply A. lia. }
  unfold clear_lists. apply (for_loop_ind P); [unfold BUDDY_MAX_ORDER; lia| |].
  - split; [intros; lia|done].
  - intros j u Hj (A & B). split; [|exact B]. intros o Ho. cbn. rewrite upd_cases.
    case_decide; [done|]. apply A. lia.
Qed.

Lemma clear_maps_spec total t q :
  0 < total < 2 ^ 20 -> 0 <= q < total ->
  order_map (clear_maps total t) (u32 (q * 4) / 32) = 0 /\
  status_map (clear_maps total t) (q / 32) = 0 /\ refcount_map (clear_maps total t) q = 0.
Proof.
  intros Ht Hq. unfold clear_maps. rewrite (u32_small (q * 4)) by lia.
  split; [|split]; apply memset_zero_in;
    unfold order_map_size, status_map_size, refcount_map_size; rewrite u32_small by lia.
  - apply (map_cell_in _ 4 1024); [dlia|done|done|dlia|dlia].
  - apply (map_cell_in _ 4 1024); [dlia|done|done|dlia|dlia].
  - apply (map_cell_in _ 2 2048); [lia|done|done|lia|lia].
Qed.

Lemma cleared_used total s :
  total_pages s = total -> (forall o, orders o -> free_lists s o = 0) ->
  (forall q, 0 <= q < total -> order_map s (u32 (q * 4) / 32) = 0 /\
     status_map s (q / 32) = 0 /\ refcount_map s q = 0) ->
  cleared total (set_used_pages 0 s).
Proof.
  intros T L M. split; [done|done|done|..]; intros q Hq; destruct (M q Hq) as (M1 & M2 & M3).
  - by apply get_order_zero.
  - by apply is_allocated_zero.
  - done.
Qed.

Lemma pmm_clear_spec total s : 0 < total < 2 ^ 20 -> cleared total (pmm_clear total s).
Proof.
  intros Ht. apply cleared_used; destruct (clear_lists_spec (clear_maps total s)) as (L & T & O & S & R).
  - rewrite T. reflexivity.
  - exact L.
  - intros q Hq. rewrite O, S, R. by apply clear_maps_spec.
Qed.

Lemma reserve_modules_spec l s :
  total_pages s < 2 ^ 20 ->
  (forall m, In m l -> 0 <= module_phys_addr_start m < 2 ^ 32 /\
    0 <= module_phys_addr_end m /\ module_phys_addr_end m + 4095 < 2 ^ 32) ->
  reserved_more s
    (fold_left (fun s m =>
       buddy_reserve_region (module_phys_addr_start m) (module_phys_addr_end m) s) l s)
    (fun q => exists m, In m l /\ outer_pages (module_phys_addr_start m) (module_phys_addr_end m) q).
Proof.
  revert s. induction l as [|m l IH]; intros s Ht Hok; cbn [fold_left].
  { split; [done..| |done]. intros q Hq. naive_solver. }
  destruct (Hok m (or_introl eq_refl)) as (H1 & H2 & H3).
  pose proof (reserve_region_spec s _ _ H1 H2 H3 Ht) as R1.
  eapply reserved_more_trans; [|exact R1|apply IH; [by rewrite (rm_total _ _ _ R1)|]].
  - intros q Hq. cbn [In]. naive_solver.
  - intros m' Hm'. apply Hok. by right.
Qed.

Lemma pmm_reserve_spec b s :
  boot_ok b -> total_pages s = boot_pages b ->
  reserved_more s (pmm_reserve b s) (reserved b).
Proof.
  intros B Ht. pose proof (boot_pages_bound b B) as Hb. unfold pmm_reserve.
  pose proof (reserve_region_spec s 0 PMM_RESERVED_AREA ltac:(lia) ltac:(done) ltac:(done) ltac:(lia)) as R1.
  set (s1 := buddy_reserve_region 0 _ s) in *. pose proof (rm_total _ _ _ R1) as T1.
  assert (Hme : 0 <= metadata_end b (boot_pages b)) by apply u32_range.
  pose proof (reserve_region_spec s1 (_kernel_start b) (metadata_end b (boot_pages b))
    (bo_kernel _ B) Hme (bo_metadata _ B) ltac:(lia)) as R2.
  rewrite T1, Ht. set (s2 := buddy_reserve_region (_kernel_start b) _ s1) in *.
  pose proof (reserve_modules_spec (boot_modules b) s2 ltac:(rewrite (rm_total _ _ _ R2); lia) (bo_modules _ B)) as R3.
  apply (reserved_more_trans s s1 _ (outer_pages 0 PMM_RESERVED_AREA)
    (fun q => outer_pages (_kernel_start b) (metadata_end b (boot_pages b)) q \/
       exists m, In m (boot_modules b) /\
         outer_pages (module_phys_addr_start m) (module_phys_addr_end m) q)); [done|done|].
  by eapply reserved_more_trans; [|exact R2|exact R3].
Qed.

(** After the reservations the blocks are the reserved pages, one by one. *)
Lemma reserved_partial b s s' :
  boot_ok b -> cleared (boot_pages b) s -> reserved_more s s' (reserved b) ->
  partial_inv s' (fun _ => []) /\
  (forall q, 0 <= q < boot_pages b -> buddy_is_allocated q s' = true <-> reserved b q) /\
  (forall q, 0 <= q < boot_pages b -> buddy_get_order q s' = 0) /\
  (forall q, covered s' (fun _ => []) q <-> 0 <= q < boot_pages b /\ reserved b q).
Proof.
  intros B [C1 C2 C3 C4 C5 C6] [R1 R2 R3 R4 R5 R6]. pose proof (boot_pages_bound b B) as Hb.
  rewrite C1 in *.
  assert (HA : forall q, 0 <= q < boot_pages b -> buddy_is_allocated q s' = true <-> reserved b q).
  { intros q Hq. rewrite R5, C5 by done. naive_solver. }
  assert (HO : forall q, 0 <= q < boot_pages b -> buddy_get_order q s' = 0).
  { intros q Hq. rewrite <- (C4 q Hq). unfold buddy_get_order. by rewrite R2. }
  assert (HB : forall p o, blk s' (fun _ => []) None p o -> 0 <= p < boot_pages b /\ o = 0).
  { intros p o [(Hp & _ & Ho)|[[_ Hin]|?]]; [|by apply elem_of_nil in Hin|done].
    rewrite R1 in Hp. by rewrite HO in Ho. }
  split; [split|split; [done|split; [done|]]].
  - by rewrite R1.
  - split; [|intros ? ? ? _ _ Hin; by apply elem_of_nil in Hin].
    intros o Ho. rewrite R4, C3 by done. by split; [|apply NoDup_nil].
  - intros o a _ Hin. by apply elem_of_nil in Hin.
  - intros p o Hbk. destruct (HB p o Hbk) as [Hp ->]. rewrite R1.
    split; [lia|]. split; [unfold BUDDY_MAX_ORDER; lia|]. split; [apply Z.mod_1_r|lia].
  - intros p o p' o' q H1 H2. destruct (HB _ _ H1) as [_ ->]. destruct (HB _ _ H2) as [_ ->].
    unfold covers. lia.
  - apply HA; [lia|]. left. done.
  - intros q. split.
    + intros (p & o & Hbk & Hc). destruct (HB p o Hbk) as [Hp ->]. unfold covers in Hc.
      replace q with p by lia. split; [done|]. apply HA; [done|].
      destruct Hbk as [(_ & ? & _)|[[_ Hin]|?]]; [done|by apply elem_of_nil in Hin|done].
    + intros [Hq Hr]. apply allocated_covered; [by rewrite R1|]. by apply HA.
Qed.

(** The state [pmm_init] leaves, holes in the memory map included. *)
Record boot_state (b : boot_info) (s : pmm) (F : Z -> list Z) : Prop := {
  bs_inv : partial_inv s F;
  bs_total : total_pages s = boot_pages b;
  bs_alloc q : 0 <= q < boot_pages b -> buddy_is_allocated q s = true <-> reserved b q;
  bs_order q : 0 <= q < boot_pages b -> reserved b q -> buddy_get_order q s = 0;
  bs_refcount q : 0 <= q < boot_pages b -> refcount_map s q = 0;
  bs_used : used_pages s =
    count_below (Z.to_nat (boot_pages b)) (fun q => buddy_is_allocated q s);
  bs_covered q : 0 <= q < boot_pages b ->
    covered s F q <-> reserved b q \/ exists e, In e (saved_mmap b) /\ entry_pages e q }.

Lemma pmm_init_state b s0 : boot_ok b -> exists F, boot_state b (pmm_init b s0) F.
Proof.
  intros B. pose proof (boot_pages_bound b B) as Hb. unfold pmm_init.
  pose proof (bo_memory _ B) as Hmem.
  destruct (Z.eqb_spec (multiboot2_process_memory_map (saved_mmap b)) 0) as [E|_];
    [unfold PMM_PAGE_SIZE in Hmem; lia|].
  fold (boot_pages b). pose proof (pmm_clear_spec (boot_pages b) s0 Hb) as C.
  set (s1 := pmm_clear _ s0) in *.
  pose proof (pmm_reserve_spec b s1 B (cl_total _ _ C)) as R. set (s2 := pmm_reserve b s1) in *.
  destruct (reserved_partial b s1 s2 B C R) as (I & HA & HO & HC).
  assert (T2 : total_pages s2 = boot_pages b) by (rewrite (rm_total _ _ _ R); apply C).
  destruct (init_entries_spec (saved_mmap b) s2 (fun _ => []) I (bo_entries _ B) (bo_disjoint _ B))
    as (F & I' & (E1 & E2 & E3 & E4 & E5) & C').
  { intros e He Hty Hbase. rewrite T2. unfold boot_pages.
    apply Z.div_le_mono; [done|]. pose proof (process_map_mono (saved_mmap b) 0 ltac:(lia)) as [_ Hm].
    by apply (Hm e He (bo_entries _ B e He)). }
  { intros e q He Hq Hc. apply HC in Hc as [Hq' Hr]. by apply HA. }
  exists F. rewrite T2 in *. split.
  - done.
  - done.
  - intros q Hq. by rewrite E4, HA.
  - intros q Hq Hr. rewrite E5, HO; [done..|]. by apply HA.
  - intros q Hq. rewrite E2, (rm_refcount _ _ _ R). by apply (cl_refcount _ _ C).
  - rewrite E3. assert (U : used_pages s1 = count_below (Z.to_nat (total_pages s1)) (fun q => buddy_is_allocated q s1)).
    { rewrite (cl_used _ _ C), (cl_total _ _ C). symmetry.
      rewrite (count_below_ext _ _ (fun _ => false)); [clear; induction (Z.to_nat (boot_pages b)); cbn; lia|].
      intros q Hq. apply (cl_status _ _ C). lia. }
    pose proof (rm_used _ _ _ R U) as U2. cbv beta zeta in U2. rewrite U2, T2.
    apply count_below_ext. intros q Hq. symmetry. apply E4. lia.
  - intros q Hq. rewrite C', HC. intuition.
Qed.

(** Without holes the blocks cover all pages. *)
Lemma boot_state_ok b s F :
  boot_ok b -> boot_state b s F ->
  (forall q, 0 <= q < boot_pages b -> ~ reserved b q ->
     exists e, In e (saved_mmap b) /\ entry_pages e q) ->
  pmm_ok any_lists s /\
  forall q, 0 <= q < boot_pages b -> page_in_use s q = true <-> reserved b q.
Proof.
  intros B [I T HA HO HR HU HC] Hcov.
  assert (BI : buddy_inv s F).
  { apply partial_full; [done|]. rewrite T. intros q Hq. apply HC; [done|].
    destruct (decide (reserved b q)); [by left|right; by apply Hcov]. }
  assert (HP : forall q, 0 <= q < boot_pages b -> page_in_use s q = true <-> buddy_is_allocated q s = true).
  { intros q Hq. rewrite (page_in_use_spec s F q BI) by (by rewrite T). split.
    - intros (p & o & (Hp & Ha & Ho) & Hc). rewrite T in Hp.
      rewrite HO in Ho by (done || by apply HA). subst o. unfold covers in Hc. by replace q with p by lia.
    - intros Ha. exists q, 0. split; [|unfold covers; lia]. split; [by rewrite T|]. split; [done|].
      apply HO; [done|]. by apply HA. }
  split.
  - split.
    + by exists F.
    + rewrite HU. unfold pages_in_use. rewrite T. symmetry. apply count_below_ext.
      intros q Hq. apply eq_true_iff_eq. apply HP. lia.
    + intros q Hq. rewrite T in Hq. rewrite HR by done. unfold UINT16_MAX. lia.
  - intros q Hq. by rewrite HP, HA.
Qed.
