(* ===== verification/PmmSpec.v ===== *)
(** The contract of the physical memory manager.

    [spec_step] is the abstract allocator: its state is the set of allocated
    blocks and the reference counts of the pages.  The theorems show that
    [pmm_init] reaches a state that satisfies the invariant and that every public
    call refines a step of the abstract allocator. *)

From S2P Require Import Prelude Dll Pmm PmmMeta PmmInv PmmSteps PmmAlloc PmmFree PmmProps PmmInit.
From Stdlib Require Import ZArith Lia Bool.
From stdpp Require Import base tactics numbers list sets gmap.
Open Scope Z_scope.

(** ** The abstract allocator *)

Record astate := mk_astate {
  a_used : Z -> Z -> Prop;      (* allocated blocks: first page, order *)
  a_refs : Z -> Z               (* reference count of each page *) }.

Definition abs (s : pmm) : astate := mk_astate (used_block s) (refcount_map s).

(** The aligned run of [2 ^ o] pages at [p] meets no allocated block. *)
Definition run_free (total : Z) (A : astate) (p o : Z) : Prop :=
  0 < p /\ p mod 2 ^ o = 0 /\ p + 2 ^ o <= total /\
  forall q k x, a_used A q k -> covers p o x -> ~ covers q k x.

(** The order an allocating call asks for, the address a releasing call names. *)
Definition call_order (c : pmm_call) : option Z :=
  match c with
  | AllocPage => Some 0
  | AllocPages count => if count =? 0 then None else Some (Z.min BUDDY_MAX_ORDER (Z.log2_up count))
  | AllocOrder o => Some o
  | _ => None
  end.

Definition call_frees (c : pmm_call) : option Z :=
  match c with
  | FreePage a | FreePages a _ | FreeOrder a => Some a
  | _ => None
  end.

Inductive spec_step (total : Z) (A : astate) : pmm_call -> Z -> astate -> Prop :=
| spec_alloc c o p A' :
    call_order c = Some o -> o <= BUDDY_MAX_ORDER -> run_free total A p o ->
    (forall q k, a_used A' q k <-> a_used A q k \/ (q = p /\ k = o)) ->
    (forall q, a_refs A' q = if decide (covers p o q) then 1 else a_refs A q) ->
    spec_step total A c (PMM_PAGE_SIZE * p) A'
| spec_no_memory c o :
    call_order c = Some o -> (o <= BUDDY_MAX_ORDER -> forall p, ~ run_free total A p o) ->
    spec_step total A c 0 A
| spec_alloc_zero :
    spec_step total A (AllocPages 0) 0 A
| spec_free c addr o A' :
    let p := addr / PMM_PAGE_SIZE in
    call_frees c = Some addr -> a_used A p o ->
    (forall q, covers p o q -> a_refs A q <= 1) ->
    (forall q k, a_used A' q k <-> a_used A q k /\ ~ (q = p /\ k = o)) ->
    (forall q, a_refs A' q = if decide (covers p o q) then 0 else a_refs A q) ->
    spec_step total A c 0 A'
| spec_refused c addr :
    let p := addr / PMM_PAGE_SIZE in
    call_frees c = Some addr ->
    (forall o, a_used A p o -> exists q, covers p o q /\ 1 < a_refs A q) ->
    spec_step total A c 0 A
| spec_inc q A' :
    0 <= q < total ->
    (exists o, a_used A q o) ->
    (forall p k, a_used A' p k <-> a_used A p k) ->
    a_refs A' q = Z.min UINT16_MAX (a_refs A q + 1) ->
    (forall p, p <> q -> a_refs A' p = a_refs A p) ->
    spec_step total A (IncRef (PMM_PAGE_SIZE * q)) (a_refs A' q) A'
| spec_dec q A' :
    0 <= q < total ->
    (exists o, a_used A q o) -> 0 < a_refs A q ->
    (forall p k, a_used A' p k <-> a_used A p k) ->
    a_refs A' q = (if decide (a_refs A q = UINT16_MAX) then UINT16_MAX else a_refs A q - 1) ->
    (forall p, p <> q -> a_refs A' p = a_refs A p) ->
    spec_step total A (DecRef (PMM_PAGE_SIZE * q)) (a_refs A' q) A'
| spec_ref_ignored c addr :
    c = IncRef addr \/ c = DecRef addr ->
    addr mod PMM_PAGE_SIZE <> 0 \/ total <= addr / PMM_PAGE_SIZE ->
    spec_step total A c 0 A
| spec_paging b :
    spec_step total A (SetPaging b) 0 A.

(** A run of the abstract allocator, with the values the calls return. *)
Inductive spec_run (total : Z) : astate -> list pmm_call -> list Z -> astate -> Prop :=
| spec_run_nil A : spec_run total A [] [] A
| spec_run_cons A c r A1 cs rs A2 :
    spec_step total A c r A1 -> spec_run total A1 cs rs A2 ->
    spec_run total A (c :: cs) (r :: rs) A2.

(** ** Refinement *)

Lemma run_free_not_used s F o p :
  buddy_inv s F -> coalesced F -> orders o ->
  (forall k, o <= k <= BUDDY_MAX_ORDER -> F k = []) -> ~ run_free (total_pages s) (abs s) p o.
Proof.
  intros I C Ho He (Hp & Hal & Hend & Hf).
  destruct (no_free_run s F o p I C Ho He) as (x & Hx & Hu); [lia|done|done|].
  pose proof Hx as [? ?]. apply (page_in_use_spec s F x I) in Hu as (q & k & Hq & Hc); [|lia].
  by apply (Hf q k x).
Qed.

Lemma taken_run_free s F o p c s' F' :
  buddy_inv s F -> orders o -> 0 < p -> alloc_effect o p c s F s' F' ->
  run_free (total_pages s) (abs s) p o.
Proof.
  intros I [Ho Ho'] Hp E. pose proof (ae_order _ _ _ _ _ _ _ E) as Hoc.
  assert (Hb : blk s F None p c) by (right; left; apply E).
  destruct (bi_wf _ _ _ I _ _ Hb) as (_ & _ & Hal & Hend).
  assert (2 ^ o <= 2 ^ c) by (apply Z.pow_le_mono_r; lia).
  split; [done|]. split; [apply (mod_pow_weaken p o c); [lia|done]|]. split; [lia|].
  intros q k x Hu Hx Hc. destruct (taken_not_in_use _ _ _ _ _ _ _ x I Ho E Hx) as (Hr & _ & Hn).
  rewrite (page_in_use_false s F x I Hr) in Hn. by apply (Hn q k).
Qed.

Lemma alloc_refines c o s :
  pmm_ok coalesced s -> call_order c = Some o -> 0 <= o ->
  let '(r, s') := buddy_alloc_order o s in spec_step (total_pages s) (abs s) c r (abs s').
Proof.
  intros K Hc Ho. destruct (ok_inv _ _ K) as (F & I & C).
  destruct (Z.le_gt_cases o BUDDY_MAX_ORDER) as [Hm|Hm].
  - pose proof (buddy_alloc_order_effect s F o I (conj Ho Hm)) as H.
    destruct (buddy_alloc_order o s) as [a s'].
    destruct H as [(-> & -> & He)|(p & k & F' & -> & Hp & I' & E)].
    + apply (spec_no_memory _ _ c o Hc). intros _ p. by apply (run_free_not_used s F).
    + apply (spec_alloc _ _ c o p _ Hc Hm).
      * by eapply taken_run_free.
      * apply E.
      * apply E.
  - unfold buddy_alloc_order. replace (BUDDY_MAX_ORDER <? o) with true by lia.
    apply (spec_no_memory _ _ c o Hc). lia.
Qed.

Lemma free_refines c addr s :
  pmm_ok coalesced s -> call_frees c = Some addr -> PMM_PAGE_SIZE <= addr < 2 ^ 32 ->
  spec_step (total_pages s) (abs s) c 0 (abs (pmm_free_page addr s)).
Proof.
  intros K Hc Ha. destruct (ok_inv _ _ K) as (F & I & C). unfold pmm_free_page, pmm_addr_to_page.
  destruct (free_cases addr s F I Ha) as [[Hr ->]|(Hu & Hrc & p' & o' & F' & I' & E)].
  - apply (spec_refused _ _ c addr Hc). intros o (Hp & Hal & Ho).
    assert (Hb : blk s F None (addr / PMM_PAGE_SIZE) o) by (by left).
    destruct (bi_wf _ _ _ I _ _ Hb) as (_ & _ & _ & Hend).
    destruct Hr as [?|[?|(i & Hi & Hrc)]]; [lia|congruence|]. rewrite Ho in Hi.
    exists (addr / PMM_PAGE_SIZE + i). unfold buddy_get_refcount in Hrc.
    replace (total_pages s <=? _) with false in Hrc by lia. split; [unfold covers; lia|done].
  - by apply (spec_free (total_pages s) (abs s) c addr _ _ Hc Hu); [|apply E..].
Qed.

Lemma aligned_addr addr :
  pmm_is_aligned addr = true <-> addr mod PMM_PAGE_SIZE = 0.
Proof.
  unfold pmm_is_aligned. change (PMM_PAGE_SIZE - 1) with (2 ^ 12 - 1).
  rewrite land_ones_mod by lia. apply Z.eqb_eq.
Qed.

Lemma inc_refines addr s r s' :
  pmm_ok coalesced s -> 0 <= addr < 2 ^ 32 -> pmm_inc_refcount addr s = Done (r, s') ->
  spec_step (total_pages s) (abs s) (IncRef addr) r (abs s').
Proof.
  intros K Ha. unfold pmm_inc_refcount, buddy_inc_refcount, pmm_addr_to_page.
  destruct (pmm_is_aligned addr) eqn:Hal; cbn [negb].
  2: { intros [= <- <-]. apply (spec_ref_ignored _ _ _ addr); [by left|left].
       intros E. apply aligned_addr in E. congruence. }
  apply aligned_addr in Hal. rewrite <- (addr_of_page addr Hal), page_of_addr.
  set (q := addr / PMM_PAGE_SIZE). assert (Hq : 0 <= q) by (unfold q, PMM_PAGE_SIZE; dlia).
  destruct (buddy_is_allocated q s) eqn:Hu; cbn [negb]; [|done].
  destruct (Z.leb_spec (total_pages s) q) as [Ht|Ht].
  { intros [= <- <-]. apply (spec_ref_ignored _ _ _ (PMM_PAGE_SIZE * q)); [by left|right].
    by rewrite page_of_addr. }
  pose proof (ok_refcount _ _ K q ltac:(lia)) as Hrc. unfold UINT16_MAX in *.
  assert (Hused : exists o, a_used (abs s) q o) by (by exists (buddy_get_order q s)).
  destruct (Z.eqb_spec (refcount_map s q) 65535) as [E|E]; intros [= <- <-].
  - rewrite <- E. change (refcount_map s q) with (a_refs (abs s) q) at 1.
    apply spec_inc; try done. cbn. unfold UINT16_MAX. lia.
  - set (s' := set_refcount_map _ s).
    assert (Eq : a_refs (abs s') q = u16 (refcount_map s q + 1)) by (cbn; apply upd_eq).
    rewrite <- Eq. apply spec_inc; try done.
    + rewrite Eq, u16_small by lia. cbn. unfold UINT16_MAX. lia.
    + intros p Hp. cbn. by rewrite upd_ne.
Qed.

Lemma dec_refines addr s r s' :
  pmm_ok coalesced s -> 0 <= addr < 2 ^ 32 -> pmm_dec_refcount addr s = Done (r, s') ->
  spec_step (total_pages s) (abs s) (DecRef addr) r (abs s').
Proof.
  intros K Ha. unfold pmm_dec_refcount, buddy_dec_refcount, pmm_addr_to_page.
  destruct (pmm_is_aligned addr) eqn:Hal; cbn [negb].
  2: { intros [= <- <-]. apply (spec_ref_ignored _ _ _ addr); [by right|left].
       intros E. apply aligned_addr in E. congruence. }
  apply aligned_addr in Hal. rewrite <- (addr_of_page addr Hal), page_of_addr.
  set (q := addr / PMM_PAGE_SIZE). assert (Hq : 0 <= q) by (unfold q, PMM_PAGE_SIZE; dlia).
  destruct (buddy_is_allocated q s) eqn:Hu; cbn [negb]; [|done].
  destruct (Z.leb_spec (total_pages s) q) as [Ht|Ht].
  { intros [= <- <-]. apply (spec_ref_ignored _ _ _ (PMM_PAGE_SIZE * q)); [by right|right].
    by rewrite page_of_addr. }
  pose proof (ok_refcount _ _ K q ltac:(lia)) as Hrc.
  destruct (Z.eqb_spec (refcount_map s q) 0) as [Hz|Hz]; [done|].
  assert (Hused : exists o, a_used (abs s) q o) by (by exists (buddy_get_order q s)).
  destruct (Z.eqb_spec (refcount_map s q) UINT16_MAX) as [E|E]; intros [= <- <-].
  - rewrite <- E. change (refcount_map s q) with (a_refs (abs s) q) at 1.
    apply spec_dec; try done; cbn; [lia|].
    by rewrite decide_True.
  - set (s' := set_refcount_map _ s). unfold UINT16_MAX in *.
    assert (Eq : a_refs (abs s') q = u16 (refcount_map s q - 1)) by (cbn; apply upd_eq).
    rewrite <- Eq. apply spec_dec; try done; [cbn; lia| |].
    + rewrite Eq, u16_small by lia. cbn. by rewrite decide_False by done.
    + intros p Hp. cbn. by rewrite upd_ne.
Qed.

Lemma exec_refines c s r s' :
  pmm_ok coalesced s -> call_ok c -> pmm_exec c s = Done (r, s') ->
  spec_step (total_pages s) (abs s) c r (abs s').
Proof.
  intros K Hc. destruct c; cbn [pmm_exec call_ok] in *.
  - pose proof (alloc_refines AllocPage 0 s K eq_refl ltac:(lia)) as H. unfold pmm_alloc_page.
    destruct (buddy_alloc_order 0 s). by intros [= <- <-].
  - unfold pmm_alloc_pages. destruct (Z.eqb_spec count 0) as [->|Hne]; [intros [= <- <-]; apply spec_alloc_zero|].
    rewrite calculate_order_value by (unfold order_fuel; lia). intros [= E].
    pose proof (alloc_refines (AllocPages count) (Z.min BUDDY_MAX_ORDER (Z.log2_up count)) s K) as H.
    rewrite E in H. apply H; [|pose proof (Z.log2_up_nonneg count); unfold BUDDY_MAX_ORDER; lia].
    cbn. by destruct (Z.eqb_spec count 0).
  - pose proof (alloc_refines (AllocOrder order) order s K eq_refl ltac:(lia)) as H. unfold pmm_alloc_order.
    destruct (buddy_alloc_order order s). by intros [= <- <-].
  - intros [= <- <-]. by apply free_refines.
  - intros [= <- <-]. by apply (free_refines _ addr).
  - intros [= <- <-]. by apply (free_refines _ addr).
  - by apply inc_refines.
  - by apply dec_refines.
  - intros [= <- <-]. apply spec_paging.
Qed.

(** No call changes the number of pages. *)
Lemma alloc_total R s o : pmm_ok R s -> 0 <= o -> total_pages (buddy_alloc_order o s).2 = total_pages s.
Proof.
  intros K Ho. destruct (ok_inv _ _ K) as (F & I & _).
  destruct (Z.le_gt_cases o BUDDY_MAX_ORDER) as [Hm|Hm].
  - pose proof (buddy_alloc_order_effect s F o I (conj Ho Hm)) as H.
    destruct (buddy_alloc_order o s) as [a s'].
    destruct H as [(_ & -> & _)|(p & c & F' & _ & _ & _ & E)]; [done|apply E].
  - unfold buddy_alloc_order. by replace (BUDDY_MAX_ORDER <? o) with true by lia.
Qed.

Lemma free_total R s addr :
  pmm_ok R s -> PMM_PAGE_SIZE <= addr < 2 ^ 32 -> total_pages (pmm_free_page addr s) = total_pages s.
Proof.
  intros K Ha. destruct (ok_inv _ _ K) as (F & I & _). unfold pmm_free_page, pmm_addr_to_page.
  destruct (free_cases addr s F I Ha) as [[_ ->]|(_ & _ & p & o & F' & _ & E)]; [done|apply E].
Qed.

Lemma exec_total R c s r s' :
  pmm_ok R s -> call_ok c -> pmm_exec c s = Done (r, s') -> total_pages s' = total_pages s.
Proof.
  intros K Hc E. destruct c; cbn [pmm_exec call_ok] in *.
  - injection E as E. pose proof (alloc_total R s 0 K ltac:(lia)) as H.
    unfold pmm_alloc_page in E. by rewrite E in H.
  - revert E. unfold pmm_alloc_pages. destruct (Z.eqb_spec count 0); [by intros [= _ <-]|].
    rewrite calculate_order_value by (unfold order_fuel; lia). intros [= E].
    pose proof (alloc_total R s (Z.min BUDDY_MAX_ORDER (Z.log2_up count)) K) as H.
    rewrite E in H. apply H. pose proof (Z.log2_up_nonneg count). unfold BUDDY_MAX_ORDER. lia.
  - injection E as E. pose proof (alloc_total R s order K ltac:(lia)) as H.
    unfold pmm_alloc_order in E. by rewrite E in H.
  - injection E as _ <-. by apply (free_total R).
  - injection E as _ <-. by apply (free_total R).
  - injection E as _ <-. by apply (free_total R).
  - revert E. unfold pmm_inc_refcount, buddy_inc_refcount. by repeat case_match; intros [= _ <-]; simplify_eq/=.
  - revert E. unfold pmm_dec_refcount, buddy_dec_refcount. by repeat case_match; intros [= _ <-]; simplify_eq/=.
  - by injection E as _ <-.
Qed.

(** ** A concrete machine

    640 KiB of low memory and 128 KiB above 1 MiB, where the kernel takes the
    first 8 KiB.  The witnesses of the theorems are about this machine. *)

Definition demo_boot : boot_info :=
  mk_boot [mk_mmap 0 0 0x9fc00 0 1; mk_mmap 0xf0000 0 0x10000 0 2; mk_mmap 0x100000 0 0x20000 0 1]
    [mk_module 0x103000 0x104000] 0x100000 0x102000.

Definition demo_memory : pmm :=
  mk_pmm false 0 0 (fun _ => 0) (fun _ => 0) (fun _ => 0xdeadbeef) (fun _ => 0xdeadbeef)
    (fun _ => 7) (fun _ => mk_block 77 88).

Definition demo : pmm := pmm_init demo_boot demo_memory.

Lemma demo_boot_ok : boot_ok demo_boot.
Proof.
  split.
  - by vm_compute.
  - by vm_compute.
  - by vm_compute.
  - intros m [<-|[]]. by vm_compute.
  - intros e [<-|[<-|[<-|[]]]]; by vm_compute.
  - by apply entries_disjointb_sound.
Qed.

(** The machine has no holes above the reserved area, so the invariant holds
    after booting it. *)
Definition no_holes (b : boot_info) : Prop :=
  forall q, 0 <= q < boot_pages b -> ~ reserved b q ->
    exists e, In e (saved_mmap b) /\ entry_pages e q.

Definition entry_hasb (q : Z) (e : saved_mmap_entry) : bool :=
  (type e =? 1) && (mmap_base e <? 0xFFFFFFFF) &&
  bool_decide (inner_pages (mmap_base e) (mmap_base e + mmap_length e) q).

Definition no_holesb (b : boot_info) : bool :=
  forallb (fun q => bool_decide (reserved b q) || existsb (entry_hasb q) (saved_mmap b))
    (seqZ 0 (boot_pages b)).

Lemma no_holesb_sound b : no_holesb b = true -> no_holes b.
Proof.
  intros H q Hq Hr. unfold no_holesb in H. rewrite forallb_forall in H.
  specialize (H q ltac:(apply list_elem_of_In, elem_of_seqZ; lia)).
  rewrite bool_decide_eq_false_2 in H by done. cbn [orb] in H.
  apply existsb_exists in H as (e & He & Hx). exists e. split; [done|].
  unfold entry_hasb in Hx. apply andb_true_iff in Hx as [Hx H3]. apply andb_true_iff in Hx as [H1 H2].
  apply bool_decide_eq_true in H3. unfold entry_pages. zbool; (done || lia).
Qed.

Lemma demo_no_holes : no_holes demo_boot.
Proof. apply no_holesb_sound. by vm_compute. Qed.

Lemma init_ok b s :
  boot_ok b -> no_holes b ->
  pmm_ok any_lists (pmm_init b s) /\ total_pages (pmm_init b s) = boot_pages b /\
  forall q, 0 <= q < boot_pages b -> page_in_use (pmm_init b s) q = true <-> reserved b q.
Proof.
  intros B H. destruct (pmm_init_state b s B) as [F S].
  destruct (boot_state_ok b _ F B S H) as [K U]. split; [done|]. split; [apply S|done].
Qed.

Lemma ok_coalesced fuel s :
  pmm_ok any_lists s -> coalescedb fuel s = true -> pmm_ok coalesced s.
Proof.
  intros [(F & I & _) S R] H. split; [|done..]. exists F. split; [done|].
  by eapply coalescedb_sound.
Qed.

Lemma demo_ok : pmm_ok coalesced demo.
Proof.
  apply (ok_coalesced 100); [apply init_ok; [exact demo_boot_ok|exact demo_no_holes]|by vm_compute].
Qed.

(** ** The theorems *)

(** C26: booting establishes the invariant.  For a memory map whose available
    entries do not overlap and leave no hole above the reserved area, after
    [pmm_init] the blocks partition the pages of the machine, the statistics are
    exact, and the pages in use are those of low memory, of the kernel with its
    metadata, and of the boot modules, and no others. *)
Theorem pmm_init_correct b s :
  boot_ok b -> no_holes b ->
  pmm_ok any_lists (pmm_init b s) /\ total_pages (pmm_init b s) = boot_pages b /\
  forall q, 0 <= q < boot_pages b -> page_in_use (pmm_init b s) q = true <-> reserved b q.
Proof. apply init_ok. Qed.

Lemma pmm_init_correct_witness :
  boot_ok demo_boot /\ no_holes demo_boot /\
  (page_in_use demo 264 = true <-> reserved demo_boot 264).
Proof.
  split; [exact demo_boot_ok|]. split; [exact demo_no_holes|].
  apply (pmm_init_correct demo_boot demo_memory demo_boot_ok demo_no_holes). by vm_compute.
Defined.

Lemma run_refines cs s rs s' :
  pmm_ok coalesced s -> Forall call_ok cs -> pmm_run cs s = Done (rs, s') ->
  pmm_ok coalesced s' /\ total_pages s' = total_pages s /\
  spec_run (total_pages s) (abs s) cs rs (abs s').
Proof.
  intros K Hcs. revert s rs K. induction Hcs as [|c cs Hc _ IH]; intros s rs K; cbn [pmm_run].
  - intros [= <- <-]. split; [done|]. split; [done|]. constructor.
  - destruct (pmm_exec c s) as [[r s1]|] eqn:E; [|done].
    destruct (pmm_run cs s1) as [[rs' s2]|] eqn:E'; [|done]. intros [= <- <-].
    pose proof (pmm_exec_ok coalesced c s r s1 Hc K E) as K1.
    destruct (IH s1 rs' K1 E') as (K2 & T & R).
    pose proof (exec_refines c s r s1 K Hc E) as S1.
    assert (T1 : total_pages s1 = total_pages s) by (by eapply (exec_total coalesced)).
    split; [done|]. rewrite T, T1 in *. split; [done|]. by econstructor.
Qed.

(** C1: the physical memory manager implements the abstract allocator.  Along
    every sequence of public calls that does not stop the kernel, the values the
    calls return are those of a run of [spec_step]: an allocation returns an
    aligned run of pages that met no allocated block, or 0 only if there is no
    such run; a release removes exactly the block that starts at the page, and is
    refused while a page of it is shared; reference counts saturate.  The
    invariant, merging of buddies included, holds again at the end. *)
Theorem pmm_run_refines cs s rs s' :
  pmm_ok coalesced s -> Forall call_ok cs -> pmm_run cs s = Done (rs, s') ->
  pmm_ok coalesced s' /\ spec_run (total_pages s) (abs s) cs rs (abs s').
Proof. intros K Hcs E. destruct (run_refines cs s rs s' K Hcs E) as (? & _ & ?). done. Qed.

Definition demo_calls : list pmm_call :=
  [AllocPage; AllocPages 3; IncRef 0x107000; FreePage 0x107000; DecRef 0x107000; FreePage 0x107000;
   AllocOrder 4; FreePages 0x108000 3].

Lemma pmm_run_refines_witness :
  exists rs s', pmm_run demo_calls demo = Done (rs, s') /\
    rs = [0x107000; 0x108000; 2; 0; 1; 0; 0x110000; 0] /\
    spec_run (total_pages demo) (abs demo) demo_calls rs (abs s').
Proof.
  destruct (pmm_run demo_calls demo) as [[rs s']|] eqn:E; [|by vm_compute in E].
  exists rs, s'. split; [done|]. split.
  - assert (match pmm_run demo_calls demo with Done (rs, _) => rs | Panic => [] end =
      [0x107000; 0x108000; 2; 0; 1; 0; 0x110000; 0]) as H by (by vm_compute). by rewrite E in H.
  - apply (pmm_run_refines demo_calls demo rs s' demo_ok); [|exact E].
    repeat constructor; cbn; unfold PMM_PAGE_SIZE; lia.
Defined.

Lemma alloc_free_restores o s :
  pmm_ok coalesced s -> orders o -> (pmm_alloc_order o s).1 <> 0 ->
  let s2 := pmm_free_order (pmm_alloc_order o s).1 (pmm_alloc_order o s).2 in
  (exists F F2, buddy_inv s F /\ buddy_inv s2 F2 /\
     forall q k, free_block F2 q k <-> free_block F q k) /\
  (forall q k, used_block s2 q k <-> used_block s q k) /\ used_pages s2 = used_pages s.
Proof.
  intros K Ho. destruct (ok_inv _ _ K) as (F & I & C). unfold pmm_alloc_order.
  pose proof (buddy_alloc_order_effect s F o I Ho) as H.
  destruct (buddy_alloc_order o s) as [addr s1]. cbn [fst snd]. intros Hne.
  destruct H as [(-> & _)|(p & c & F1 & -> & Hp & I1 & E1)]; [done|].
  assert (Hu : used_block s1 p o) by (apply E1; by right).
  assert (Hnew : ~ used_block s p o).
  { intros Hu0. pose proof (taken_run_free _ _ _ _ _ _ _ I Ho Hp E1) as (_ & _ & _ & Hf).
    apply (Hf p o p Hu0); apply covers_head, Ho. }
  destruct (bi_page_range _ _ _ I1 p o (or_introl Hu)) as [_ Hp20].
  destruct (buddy_free_order_effect s1 F1 (PMM_PAGE_SIZE * p) p o I1)
    as (p' & o' & F2 & I2 & E2); [unfold PMM_PAGE_SIZE; lia|apply page_of_addr|done|done| |].
  { intros q Hq. rewrite (ae_refcount _ _ _ _ _ _ _ E1), decide_True by done. done. }
  unfold pmm_free_order, pmm_addr_to_page. rewrite page_of_addr. destruct Hu as (_ & _ & ->).
  destruct (alloc_free_merges_back _ _ _ _ _ _ _ _ _ _ _ I C Ho I1 I2 E1 E2) as [-> ->].
  split; [|split].
  - exists F, F2. split; [done|]. split; [done|]. intros q k.
    rewrite (fe_free _ _ _ _ _ _ _ _ E2), (ae_free _ _ _ _ _ _ _ E1).
    pose proof (ae_taken _ _ _ _ _ _ _ E1) as Ht. pose proof (ae_order _ _ _ _ _ _ _ E1) as Hoc.
    split.
    + intros [[[[Hf _]|[Hk ->]] Hin]|[-> ->]]; [done| |done].
      exfalso. apply Hin. destruct Ho. pose proof (Z.pow_nonneg 2 k ltac:(lia)).
      pose proof (pow_succ k ltac:(lia)).
      assert (2 ^ (k + 1) <= 2 ^ c) by (apply Z.pow_le_mono_r; lia). lia.
    + intros Hf. destruct (decide (q = p /\ k = c)) as [?|Hne']; [by right|left].
      split; [left; done|]. intros [Hin1 Hin2]. apply Hne'.
      assert (Hfb : blk s F None q k) by (right; by left).
      destruct (bi_wf _ _ _ I _ _ Hfb) as (_ & [Hk _] & _).
      assert (0 < 2 ^ k) by (by apply Z.pow_pos_nonneg).
      apply (bi_inside _ _ _ I p c q k); [right; by left|done|unfold covers; lia].
  - intros q k. rewrite (fe_used _ _ _ _ _ _ _ _ E2), (ae_used _ _ _ _ _ _ _ E1). naive_solver.
  - rewrite (fe_used_pages _ _ _ _ _ _ _ _ E2), (ae_used_pages _ _ _ _ _ _ _ E1).
    pose proof (ok_stats _ _ K) as Hs. pose proof (pages_in_use_bound s).
    pose proof (alloc_pages_in_use _ _ _ _ _ _ _ I I1 Ho E1) as Ha.
    pose proof (pages_in_use_bound s1). pose proof (bi_total _ _ _ I). pose proof (bi_total _ _ _ I1).
    assert (0 <= 2 ^ o) by (apply Z.pow_nonneg; lia).
    rewrite (u32_small (used_pages s + 2 ^ o)) by lia. rewrite u32_small by lia. lia.
Qed.

(** Allocation followed by release is the identity on blocks.  Releasing the
    block just allocated merges the pieces that allocation split off, and no
    more: the free blocks, the allocated blocks and the page statistics are those
    from before. *)
Theorem pmm_alloc_free_roundtrip o s :
  pmm_ok coalesced s -> 0 <= o <= BUDDY_MAX_ORDER -> (pmm_alloc_order o s).1 <> 0 ->
  let s2 := pmm_free_order (pmm_alloc_order o s).1 (pmm_alloc_order o s).2 in
  (exists F F2, buddy_inv s F /\ buddy_inv s2 F2 /\
     forall q k, free_block F2 q k <-> free_block F q k) /\
  (forall q k, used_block s2 q k <-> used_block s q k) /\ used_pages s2 = used_pages s.
Proof. apply alloc_free_restores. Qed.

Lemma pmm_alloc_free_roundtrip_witness :
  (pmm_alloc_order 2 demo).1 = 0x108000 /\
  used_pages (pmm_free_order (pmm_alloc_order 2 demo).1 (pmm_alloc_order 2 demo).2) = used_pages demo.
Proof.
  split; [by vm_compute|].
  apply (pmm_alloc_free_roundtrip 2 demo demo_ok); [by vm_compute|by vm_compute].
Defined.

(** [pmm_alloc_pages] hands out enough pages.  For up to 1024 pages the order
    computation ends within 33 rounds; the call either changes nothing and
    returns 0, or returns the address of a run of at least [count] and fewer than
    [2 * count] pages that no allocated block had, and exactly those pages are in
    use in addition. *)
Theorem pmm_alloc_pages_enough fuel count s :
  (33 <= fuel)%nat -> 1 <= count <= 2 ^ BUDDY_MAX_ORDER -> pmm_ok coalesced s ->
  exists addr s', pmm_alloc_pages fuel count s = Some (addr, s') /\
    ((addr = 0 /\ s' = s) \/
     exists o p, addr = PMM_PAGE_SIZE * p /\ count <= 2 ^ o < 2 * count /\
       run_free (total_pages s) (abs s) p o /\
       (forall q, 0 <= q < total_pages s ->
          page_in_use s' q = if decide (covers p o q) then true else page_in_use s q) /\
       used_pages s' = used_pages s + 2 ^ o).
Proof.
  intros Hf Hc K. destruct (ok_inv _ _ K) as (F & I & C). unfold pmm_alloc_pages.
  replace (count =? 0) with false by lia.
  rewrite calculate_order_value by (unfold BUDDY_MAX_ORDER in *; lia).
  assert (Hlog : 0 <= Z.log2_up count <= BUDDY_MAX_ORDER).
  { split; [apply Z.log2_up_nonneg|]. apply Z.log2_up_le_pow2; lia. }
  rewrite Z.min_r by lia. set (o := Z.log2_up count) in *.
  assert (Hsize : count <= 2 ^ o < 2 * count).
  { destruct (Z.eq_dec count 1) as [->|]; [vm_compute; intuition congruence|].
    destruct (Z.log2_up_spec count ltac:(lia)) as [H1 H2]. fold o in H1, H2.
    replace o with (Z.pred o + 1) at 2 by lia.
    assert (0 < o) by (apply Z.log2_up_pos; lia).
    pose proof (pow_succ (Z.pred o) ltac:(lia)). lia. }
  pose proof (buddy_alloc_order_effect s F o I Hlog) as H.
  pose proof (alloc_order_ok coalesced o s ltac:(lia) K) as K'.
  destruct (buddy_alloc_order o s) as [addr s']. exists addr, s'. split; [done|]. cbn [snd] in K'.
  destruct H as [(-> & -> & _)|(p & c & F' & -> & Hp & I' & E)]; [by left|right].
  exists o, p. split; [done|]. split; [done|]. split; [by eapply taken_run_free|]. split.
  - intros q Hq. exact (alloc_page_in_use _ _ _ _ _ _ _ q I I' Hlog E Hq).
  - rewrite (ok_stats _ _ K'), (ok_stats _ _ K).
    exact (alloc_pages_in_use _ _ _ _ _ _ _ I I' Hlog E).
Qed.

Lemma pmm_alloc_pages_enough_witness :
  exists addr s', pmm_alloc_pages 33 5 demo = Some (addr, s') /\ addr = 0x108000.
Proof.
  destruct (pmm_alloc_pages_enough 33 5 demo ltac:(lia) ltac:(by vm_compute) demo_ok)
    as (addr & s' & E & _).
  exists addr, s'. split; [done|].
  assert (option_map fst (pmm_alloc_pages 33 5 demo) = Some 0x108000) as H by (by vm_compute).
  rewrite E in H. by injection H as ->.
Defined.

(** A request for more than [2 ^ 31] pages never returns.  The power the
    order computation compares with the count wraps to zero after 32 doublings,
    so the loop of [buddy_calculate_order] goes on for ever: no amount of fuel
    gives a result. *)
Theorem pmm_alloc_pages_diverges fuel count s :
  2 ^ 31 < count < 2 ^ 32 -> pmm_alloc_pages fuel count s = None.
Proof.
  intros Hc. unfold pmm_alloc_pages, buddy_calculate_order.
  replace (count =? 0) with false by lia. replace (count =? 1) with false by lia.
  pose proof (calculate_order_loop_diverges 32 fuel count 0 ltac:(lia) ltac:(lia) ltac:(lia)) as H.
  change (u32 (2 ^ 0)) with 1 in H. by rewrite H.
Qed.

Lemma pmm_alloc_pages_diverges_witness : pmm_alloc_pages 1000 0x80000001 demo = None.
Proof. apply pmm_alloc_pages_diverges. lia. Defined.

(** A request for more than 1024 pages is served with 1024.  The order is
    clamped to [BUDDY_MAX_ORDER], so a successful call adds 1024 pages, fewer
    than asked for, to the pages in use. *)
Theorem pmm_alloc_pages_clamped count s addr s' :
  2 ^ BUDDY_MAX_ORDER < count <= 2 ^ 31 -> pmm_ok coalesced s ->
  pmm_alloc_pages order_fuel count s = Some (addr, s') -> addr <> 0 ->
  used_pages s' = used_pages s + 1024 /\ used_pages s' - used_pages s < count.
Proof.
  intros Hc K. destruct (ok_inv _ _ K) as (F & I & _). unfold pmm_alloc_pages.
  change (2 ^ BUDDY_MAX_ORDER) with 1024 in Hc. replace (count =? 0) with false by lia.
  rewrite calculate_order_value by (unfold order_fuel; lia).
  assert (BUDDY_MAX_ORDER < Z.log2_up count) by (apply Z.log2_up_lt_pow2; [lia|exact (proj1 Hc)]).
  rewrite Z.min_l by lia. intros [= E] Hne.
  assert (Ho : orders BUDDY_MAX_ORDER) by (by vm_compute).
  pose proof (buddy_alloc_order_effect s F BUDDY_MAX_ORDER I Ho) as Hx.
  pose proof (alloc_order_ok coalesced BUDDY_MAX_ORDER s ltac:(by vm_compute) K) as K'.
  rewrite E in Hx, K'. cbn [snd] in K'.
  destruct Hx as [(-> & _)|(p & c & F' & -> & Hp & I' & Ef)]; [done|].
  pose proof (alloc_pages_in_use _ _ _ _ _ _ _ I I' Ho Ef) as Hu.
  rewrite (ok_stats _ _ K'), (ok_stats _ _ K). change (2 ^ BUDDY_MAX_ORDER) with 1024 in Hu. lia.
Qed.

(** A larger machine, with 6 MiB of free memory above the kernel. *)
Definition big_boot : boot_info :=
  mk_boot [mk_mmap 0 0 0x9fc00 0 1; mk_mmap 0x100000 0 0x700000 0 1] [] 0x100000 0x200000.
Definition big : pmm := pmm_init big_boot demo_memory.

Lemma big_ok : pmm_ok coalesced big.
Proof.
  apply (ok_coalesced 100); [apply init_ok; [split|]|by vm_compute].
  - by vm_compute.
  - by vm_compute.
  - by vm_compute.
  - by intros m [].
  - intros e [<-|[<-|[]]]; by vm_compute.
  - by apply entries_disjointb_sound.
  - apply no_holesb_sound. by vm_compute.
Qed.

Lemma pmm_alloc_pages_clamped_witness :
  exists addr s', pmm_alloc_pages order_fuel 1500 big = Some (addr, s') /\
    addr = 0x400000 /\ used_pages s' = used_pages big + 1024.
Proof.
  assert (Hc : 2 ^ BUDDY_MAX_ORDER < 1500 <= 2 ^ 31) by (by vm_compute).
  assert (Hne : 0x400000 <> 0) by discriminate.
  assert (option_map fst (pmm_alloc_pages order_fuel 1500 big) = Some 0x400000) as H by (by vm_compute).
  destruct (pmm_alloc_pages order_fuel 1500 big) as [[addr s']|] eqn:E; [|discriminate H].
  injection H as ->. exists 0x400000, s'. split; [exact eq_refl|]. split; [exact eq_refl|].
  exact (proj1 (pmm_alloc_pages_clamped 1500 big 0x400000 s' Hc big_ok E Hne)).
Defined.

(** The only calls that stop the kernel are reference-count operations on a
    page that is not the first of an allocated block, and the decrement of a
    count that is already zero; releases and allocations never do. *)
Theorem pmm_exec_panics c s :
  call_ok c ->
  pmm_exec c s = Panic <->
  exists q, (c = IncRef (PMM_PAGE_SIZE * q) \/ c = DecRef (PMM_PAGE_SIZE * q)) /\
    (buddy_is_allocated q s = false \/
     c = DecRef (PMM_PAGE_SIZE * q) /\ q < total_pages s /\ refcount_map s q = 0).
Proof.
  intros Hc.
  assert (Hex : forall addr P, pmm_is_aligned addr = true -> P (addr / PMM_PAGE_SIZE) addr ->
    exists q, P q (PMM_PAGE_SIZE * q)).
  { intros addr P Ha Hp. exists (addr / PMM_PAGE_SIZE). rewrite addr_of_page; [done|].
    by apply aligned_addr. }
  assert (Hal : forall q, pmm_is_aligned (PMM_PAGE_SIZE * q) = true).
  { intros q. apply aligned_addr. unfold PMM_PAGE_SIZE. dlia. }
  destruct c; cbn [pmm_exec call_ok] in *; try (split; [done|by intros (? & [?|?] & _)]).
  - unfold pmm_alloc_pages. destruct (count =? 0); [split; [done|by intros (? & [?|?] & _)]|].
    rewrite calculate_order_value by (unfold order_fuel; lia).
    split; [done|by intros (? & [?|?] & _)].
  - unfold pmm_inc_refcount, pmm_addr_to_page. split.
    + destruct (pmm_is_aligned addr) eqn:E; [|done]. cbn [negb].
      destruct (buddy_is_allocated _ s) eqn:E'; [done|]. intros _.
      apply (Hex addr (fun q a => (IncRef addr = IncRef a \/ IncRef addr = DecRef a) /\
        (buddy_is_allocated q s = false \/ IncRef addr = DecRef a /\ q < total_pages s /\ refcount_map s q = 0)));
        [done|]. split; by left.
    + intros (q & [[= ->]|?] & [Hu|(? & _)]); try done. by rewrite Hal, page_of_addr, Hu.
  - unfold pmm_dec_refcount, buddy_dec_refcount, pmm_addr_to_page. split.
    + destruct (pmm_is_aligned addr) eqn:E; [|done]. cbn [negb]. intros H.
      apply (Hex addr (fun q a => (DecRef addr = IncRef a \/ DecRef addr = DecRef a) /\
        (buddy_is_allocated q s = false \/ DecRef addr = DecRef a /\ q < total_pages s /\ refcount_map s q = 0)));
        [done|]. split; [by right|].
      destruct (buddy_is_allocated _ s) eqn:E'; [right|by left].
      cbn [negb] in H. revert H. by zbool.
    + intros (q & [?|[= ->]] & [Hu|(_ & Hq & Hr)]); try done; rewrite Hal, page_of_addr; cbn [negb].
      * by rewrite Hu.
      * destruct (buddy_is_allocated q s); [|done]. cbn [negb].
        replace (total_pages s <=? q) with false by lia. by rewrite Hr.
Qed.

Lemma pmm_exec_panics_witness : pmm_exec (DecRef 0x1000) demo = Panic.
Proof.
  apply (pmm_exec_panics (DecRef 0x1000) demo ltac:(by vm_compute)).
  exists 1. split; [by right|]. right. split; [done|]. by vm_compute.
Defined.
