(* ===== verification/Frames.v ===== *)
(** The interface between the physical memory manager and its clients.

    A client of page frames asks for one frame at a time, gets the address of a
    frame nobody owns, and gives frames it owns back.  [frame_source] states this
    of a pair of operations; [pmm_alloc_page] and [pmm_free_page] satisfy it. *)

From S2P Require Import Prelude Dll Pmm PmmMeta PmmInv PmmSteps PmmAlloc PmmFree PmmProps PmmInit PmmSpec.
From Stdlib Require Import ZArith Lia Bool.
From stdpp Require Import base tactics numbers list sets gmap.
Open Scope Z_scope.

Class frame_source {S : Type} (alloc : S -> Z * S) (release : Z -> S -> S)
    (inv : S -> Prop) (owned : S -> Z -> Prop) : Prop := {
  frame_bound s p : inv s -> owned s p -> 0 < p < 2 ^ 20;
  alloc_frame s : inv s ->
    let '(a, s') := alloc s in
    inv s' /\
    ((a = 0 /\ s' = s) \/
     exists p, a = PMM_PAGE_SIZE * p /\ ~ owned s p /\
       forall q, owned s' q <-> owned s q \/ q = p);
  release_frame s p : inv s -> owned s p ->
    inv (release (PMM_PAGE_SIZE * p) s) /\
    forall q, owned (release (PMM_PAGE_SIZE * p) s) q <-> owned s q /\ q <> p }.

(** The frames a client of [pmm] owns: blocks of a single page that only this
    client refers to. *)
Definition pmm_owned (s : pmm) (p : Z) : Prop :=
  0 < p /\ used_block s p 0 /\ refcount_map s p = 1.

(** What one page allocation does. *)
Lemma pmm_alloc_page_effect R `{!block_stable R} s :
  pmm_ok R s ->
  let '(a, s') := pmm_alloc_page s in
  pmm_ok R s' /\
  ((a = 0 /\ s' = s) \/
   exists p, a = PMM_PAGE_SIZE * p /\ 0 < p /\ (forall k, ~ used_block s p k) /\
     (forall q k, used_block s' q k <-> used_block s q k \/ (q = p /\ k = 0)) /\
     (forall q, refcount_map s' q = if decide (q = p) then 1 else refcount_map s q)).
Proof.
  intros K. destruct (ok_inv _ _ K) as (F & I & _).
  assert (Ho : orders 0) by (by vm_compute).
  pose proof (buddy_alloc_order_effect s F 0 I Ho) as H.
  pose proof (alloc_order_ok R 0 s ltac:(lia) K) as K'. unfold pmm_alloc_page.
  destruct (buddy_alloc_order 0 s) as [a s']. cbn [snd] in K'. split; [done|].
  destruct H as [(-> & -> & _)|(p & c & F' & -> & Hp & I' & E)]; [by left|right].
  destruct (taken_run_free _ _ _ _ _ _ _ I Ho Hp E) as (_ & _ & _ & Hfree).
  exists p. split; [done|]. split; [done|]. split; [|split; [apply E|]].
  - intros k Hu. destruct (bi_wf _ _ _ I p k (or_introl Hu)) as (_ & [Hk _] & _).
    by apply (Hfree p k p Hu); apply covers_head.
  - intros q. rewrite (ae_refcount _ _ _ _ _ _ _ E). change (2 ^ 0) with 1.
    destruct (decide (q = p)); [rewrite decide_True by lia|rewrite decide_False by lia]; done.
Qed.

Lemma pmm_alloc_frame R `{!block_stable R} s :
  pmm_ok R s ->
  let '(a, s') := pmm_alloc_page s in
  pmm_ok R s' /\
  ((a = 0 /\ s' = s) \/
   exists p, a = PMM_PAGE_SIZE * p /\ ~ pmm_owned s p /\
     forall q, pmm_owned s' q <-> pmm_owned s q \/ q = p).
Proof.
  intros K. pose proof (pmm_alloc_page_effect R s K) as H. destruct (pmm_alloc_page s) as [a s'].
  destruct H as [K' [?|(p & -> & Hp & Hno & U & C)]]; split; [done|by left|done|right].
  exists p. split; [done|]. split; [intros (_ & Hu & _); by apply (Hno 0)|].
  intros q. unfold pmm_owned. rewrite U, C. destruct (decide (q = p)) as [->|]; intuition lia.
Qed.

Lemma not_refused s p :
  used_block s p 0 -> refcount_map s p <= 1 -> ~ free_refused (PMM_PAGE_SIZE * p) 0 s.
Proof.
  intros (Hr1 & Hr2 & Hord) Hr Href. unfold free_refused in Href. rewrite page_of_addr in Href.
  destruct Href as [?|[?|(i & Hi & Hrc)]]; [lia|congruence|].
  change (2 ^ 0) with 1 in Hi. replace (p + i) with p in Hrc by lia.
  unfold buddy_get_refcount in Hrc. replace (total_pages s <=? p) with false in Hrc by lia. lia.
Qed.

(** Releasing a single page with at most one reference, as the owner of the last
    reference does. *)
Lemma pmm_release_page R `{!block_stable R} s p :
  pmm_ok R s -> 0 < p -> used_block s p 0 -> refcount_map s p <= 1 ->
  let s' := pmm_free_page (PMM_PAGE_SIZE * p) s in
  pmm_ok R s' /\
  (forall q k, used_block s' q k <-> used_block s q k /\ ~ (q = p /\ k = 0)) /\
  (forall q, refcount_map s' q = if decide (q = p) then 0 else refcount_map s q).
Proof.
  intros K Hp Hu Hr. destruct (ok_inv _ _ K) as (F & I & _).
  destruct (bi_page_range _ _ _ I p 0 (or_introl Hu)) as [_ Hp20].
  assert (Ha : PMM_PAGE_SIZE <= PMM_PAGE_SIZE * p < 2 ^ 32) by (unfold PMM_PAGE_SIZE; lia).
  split; [by apply (free_call_ok R)|].
  destruct (free_cases (PMM_PAGE_SIZE * p) s F I Ha) as [[Href _]|(_ & _ & p' & o' & F' & _ & E)];
    rewrite page_of_addr in *; pose proof Hu as (Hr1 & Hr2 & Hord); rewrite Hord in *.
  { exfalso. by apply (not_refused s p). }
  unfold pmm_free_page, pmm_addr_to_page. rewrite page_of_addr, Hord.
  split; [apply E|]. intros q. rewrite (fe_refcount _ _ _ _ _ _ _ _ E). change (2 ^ 0) with 1.
  destruct (decide (q = p)); [rewrite decide_True by lia|rewrite decide_False by lia]; done.
Qed.

(** ** How many frames are left *)

(** The number of pages that no allocated block holds. *)
Definition free_pages (s : pmm) : Z := total_pages s - pages_in_use s.

Lemma count_below_all n (f : Z -> bool) :
  (forall i, 0 <= i < Z.of_nat n -> f i = true) -> count_below n f = Z.of_nat n.
Proof.
  induction n as [|n IH]; intros H; cbn [count_below]; [done|].
  rewrite IH, H by (intros; try apply H; lia). lia.
Qed.

Lemma free_pages_nonneg R s : pmm_ok R s -> 0 <= free_pages s.
Proof.
  intros K. destruct (ok_inv _ _ K) as (F & I & _). pose proof (bi_total _ _ _ I).
  pose proof (pages_in_use_bound s). unfold free_pages. lia.
Qed.

(** The allocator refuses a page only when no page is left. *)
Lemma alloc_page_free R `{!block_stable R} s :
  pmm_ok R s ->
  let '(a, s') := pmm_alloc_page s in
  (a = 0 /\ free_pages s = 0) \/ (a <> 0 /\ free_pages s' = free_pages s - 1).
Proof.
  intros K. destruct (ok_inv _ _ K) as (F & I & _).
  assert (Ho : orders 0) by (by vm_compute).
  pose proof (buddy_alloc_order_effect s F 0 I Ho) as H. unfold pmm_alloc_page.
  destruct (buddy_alloc_order 0 s) as [a s'].
  destruct H as [(-> & -> & He)|(p & c & F' & -> & Hp & I' & E)]; [left|right].
  - split; [done|]. unfold free_pages, pages_in_use. pose proof (bi_total _ _ _ I).
    rewrite count_below_all; [lia|]. intros q Hq.
    assert (Hr : 0 <= q < total_pages s) by lia.
    rewrite (page_in_use_spec s F q I Hr).
    destruct (part_cov _ _ (bi_part _ _ _ I) q Hr) as (x & k & Hb & Hc).
    destruct (bi_wf _ _ _ I _ _ Hb) as (_ & [Hk1 Hk2] & _).
    destruct Hb as [Hu|[[_ Hin]|?]]; [by exists x, k| |done].
    rewrite He in Hin by lia. by apply elem_of_nil in Hin.
  - split; [unfold PMM_PAGE_SIZE; lia|]. unfold free_pages.
    rewrite (alloc_pages_in_use _ _ _ _ _ _ _ I I' Ho E), (ae_total _ _ _ _ _ _ _ E). lia.
Qed.

Lemma release_page_free R `{!block_stable R} s p :
  pmm_ok R s -> 0 < p -> used_block s p 0 -> refcount_map s p <= 1 ->
  free_pages (pmm_free_page (PMM_PAGE_SIZE * p) s) = free_pages s + 1.
Proof.
  intros K Hp Hu Hr. destruct (ok_inv _ _ K) as (F & I & _).
  destruct (bi_page_range _ _ _ I p 0 (or_introl Hu)) as [_ Hp20].
  assert (Ha : PMM_PAGE_SIZE <= PMM_PAGE_SIZE * p < 2 ^ 32) by (unfold PMM_PAGE_SIZE; lia).
  destruct (free_cases (PMM_PAGE_SIZE * p) s F I Ha) as [[Href _]|(_ & _ & p' & o' & F' & I' & E)];
    rewrite page_of_addr in *; pose proof Hu as (Hr1 & Hr2 & Hord); rewrite Hord in *.
  { exfalso. by apply (not_refused s p). }
  unfold free_pages, pmm_free_page, pmm_addr_to_page. rewrite page_of_addr, Hord.
  rewrite (free_pages_in_use _ _ _ _ _ _ _ _ I I' Hu E), (fe_total _ _ _ _ _ _ _ _ E). lia.
Qed.

Lemma pmm_release_frame R `{!block_stable R} s p :
  pmm_ok R s -> pmm_owned s p ->
  pmm_ok R (pmm_free_page (PMM_PAGE_SIZE * p) s) /\
  forall q, pmm_owned (pmm_free_page (PMM_PAGE_SIZE * p) s) q <-> pmm_owned s q /\ q <> p.
Proof.
  intros K (Hp & Hu & Hr). destruct (pmm_release_page R s p K Hp Hu ltac:(lia)) as (K' & U & C).
  split; [done|]. intros q. unfold pmm_owned. rewrite U, C. case_decide; intuition lia.
Qed.

#[export] Instance pmm_frames R `{!block_stable R} :
  frame_source pmm_alloc_page pmm_free_page (pmm_ok R) pmm_owned.
Proof.
  split.
  - intros s p K (Hp & Hu & _). destruct (ok_inv _ _ K) as (F & I & _).
    destruct (bi_page_range _ _ _ I p 0 (or_introl Hu)) as [_ ?]. lia.
  - intros s. apply (pmm_alloc_frame R).
  - intros s p. apply (pmm_release_frame R).
Qed.
