(* ===== verification/Paging.v ===== *)
(** Two-level i386 paging: a model of [src/kernel/arch/i386/paging/paging.c] (page
    tables, mapping, unmapping, translation, the copy-on-write fault handler).

    The state is the physical memory, word by word, the physical address of the
    current page directory and the physical memory manager the page tables come
    from.  A pointer into the window at [PHYS_MAP_BASE] (or into the identity
    mapping before it exists) is represented by the physical address it stands
    for.  The translation look-aside buffer is flushed by the code after each
    change and is not part of the state. *)

From S2P Require Import Prelude Dll Pmm PmmMeta PmmInv PmmSteps PmmAlloc PmmFree PmmProps PmmInit PmmSpec.
From Stdlib Require Import ZArith Lia Bool.
From stdpp Require Import base tactics numbers list sets gmap.
Open Scope Z_scope.

Definition PAGE_SIZE : Z := 4096.
Definition PAGE_PRESENT : Z := 0x001.
Definition PAGE_WRITE : Z := 0x002.
Definition PAGE_USER : Z := 0x004.
Definition PAGE_WRITETHROUGH : Z := 0x008.
Definition PAGE_CACHE_DISABLE : Z := 0x010.
Definition PAGE_PAT : Z := 0x080.
Definition PAGE_GLOBAL : Z := 0x100.
Definition PAGE_COW : Z := 0x200.

Definition VMM_KERNEL_START : Z := 0x00100000.
Definition VMM_USER_START : Z := 0x00400000.
Definition VMM_USER_END : Z := 0x40000000.
Definition VMM_KERNEL_HEAP : Z := 0x40000000.
Definition VMM_KERNEL_END : Z := 0xC0000000.
Definition PHYS_MAP_BASE : Z := 0xC0000000.

(** ** Address helpers *)

Definition paging_align_down (addr : Z) : Z := Z.land addr (u32 (Z.lnot (PAGE_SIZE - 1))).
Definition paging_get_page_offset (virt : Z) : Z := Z.land virt (PAGE_SIZE - 1).
Definition paging_get_pd_index (virt : Z) : Z := Z.shiftr virt 22.
Definition paging_get_pt_index (virt : Z) : Z := Z.land (Z.shiftr virt 12) 0x3FF.

(** ** Entries

    A directory or table entry is a 32-bit word; the bit fields of
    [page_table_entry_t] and [page_directory_entry_t] are its bits, the frame
    its upper 20 bits. *)

Definition PTE_PRESENT : Z := 0.
Definition PTE_RW : Z := 1.
Definition PTE_USER : Z := 2.
Definition PTE_PWT : Z := 3.
Definition PTE_PCD : Z := 4.
Definition PTE_PAT : Z := 7.
Definition PTE_GLOBAL : Z := 8.
Definition PTE_AVAIL_COW : Z := 9.

Definition set_bit (i : Z) (b : bool) (w : Z) : Z :=
  if b then Z.lor w (Z.shiftl 1 i) else Z.ldiff w (Z.shiftl 1 i).

Definition present (w : Z) : bool := Z.testbit w PTE_PRESENT.
Definition frame (w : Z) : Z := Z.shiftr w 12.
Definition set_frame (f w : Z) : Z := Z.lor (Z.land w 0xFFF) (Z.shiftl f 12).

(** ** State *)

Record mmu := mk_mmu {
  physmem : Z -> Z;          (* the word at each physical address *)
  current_pd : Z;            (* current_page_directory, as a physical address *)
  pm : pmm                   (* the physical memory manager *) }.

Definition set_word (a v : Z) (m : mmu) : mmu :=
  mk_mmu (physmem m).[a <- v] (current_pd m) (pm m).
Definition set_pm (p : pmm) (m : mmu) : mmu := mk_mmu (physmem m) (current_pd m) p.

(** [memset(page, 0, PAGE_SIZE)] and [memcpy(dst, src, PAGE_SIZE)]. *)
Definition clear_page (a : Z) (m : mmu) : mmu :=
  mk_mmu (fun x => if (a <=? x) && (x <? a + PAGE_SIZE) then 0 else physmem m x)
    (current_pd m) (pm m).
Definition copy_page (dst src : Z) (m : mmu) : mmu :=
  mk_mmu (fun x => if (dst <=? x) && (x <? dst + PAGE_SIZE)
                   then physmem m (src + (x - dst)) else physmem m x)
    (current_pd m) (pm m).

(** The address of entry [i] of the table at [t]. *)
Definition entry_addr (t i : Z) : Z := t + 4 * i.

(** ** Page tables *)

(** The physical address of the page table of [virt], 0 for [NULL]. *)
Definition paging_get_page_table (virt : Z) (create : bool) (m : mmu) : Z * mmu :=
  let pde := entry_addr (current_pd m) (paging_get_pd_index virt) in
  if negb (present (physmem m pde)) then
    if negb create then (0, m) else
    let '(pt_phys, p) := pmm_alloc_page (pm m) in
    let m := set_pm p m in
    if pt_phys =? 0 then (0, m) else
    let m := clear_page pt_phys m in
    let w := physmem m pde in
    let w := set_bit PTE_PRESENT true w in
    let w := set_bit PTE_RW true w in
    let in_usermode := (VMM_USER_START <=? virt) && (virt <? VMM_USER_END) in
    let w := set_bit PTE_USER in_usermode w in
    let w := set_frame (Z.shiftr pt_phys 12) w in
    (pt_phys, set_word pde w m)
  else
    (u32 (Z.shiftl (frame (physmem m pde)) 12), m).

(** The flags [paging_map_page] writes into the entry. *)
Definition map_entry (flags phys w : Z) : Z :=
  let flag f := negb (Z.land flags f =? 0) in
  let w := set_bit PTE_PRESENT (flag PAGE_PRESENT) w in
  let w := set_bit PTE_RW (flag PAGE_WRITE) w in
  let w := set_bit PTE_USER (flag PAGE_USER) w in
  let w := set_bit PTE_PWT (flag PAGE_WRITETHROUGH) w in
  let w := set_bit PTE_PCD (flag PAGE_CACHE_DISABLE) w in
  let w := set_bit PTE_PAT (flag PAGE_PAT) w in
  let w := set_bit PTE_GLOBAL (flag PAGE_GLOBAL) w in
  set_frame (Z.shiftr phys 12) w.

Definition paging_map_page (virt phys flags : Z) (m : mmu) : bool * mmu :=
  let virt := paging_align_down virt in
  let phys := paging_align_down phys in
  let '(pt, m) := paging_get_page_table virt true m in
  if pt =? 0 then (false, m) else
  let pte := entry_addr pt (paging_get_pt_index virt) in
  (true, set_word pte (map_entry flags phys (physmem m pte)) m).

Definition paging_unmap_page (virt : Z) (m : mmu) : mmu :=
  let virt := paging_align_down virt in
  let '(pt, m) := paging_get_page_table virt false m in
  if pt =? 0 then m else
  let pte := entry_addr pt (paging_get_pt_index virt) in
  if present (physmem m pte) then set_word pte 0 m else m.

Definition paging_get_physical_address (virt : Z) (m : mmu) : Z :=
  let '(pt, m) := paging_get_page_table virt false m in
  if pt =? 0 then 0 else
  let pte := entry_addr pt (paging_get_pt_index virt) in
  if negb (present (physmem m pte)) then 0 else
  let phys_page := u32 (Z.shiftl (frame (physmem m pte)) 12) in
  Z.lor phys_page (paging_get_page_offset virt).

Definition paging_is_mapped (virt : Z) (m : mmu) : bool :=
  let '(pt, m) := paging_get_page_table virt false m in
  if pt =? 0 then false else
  present (physmem m (entry_addr pt (paging_get_pt_index virt))).

(** ** Directories *)

Definition paging_create_directory (m : mmu) : Z * mmu :=
  let '(pd_phys, p) := pmm_alloc_page (pm m) in
  let m := set_pm p m in
  if pd_phys =? 0 then (0, m) else
  (pd_phys, clear_page pd_phys m).

(** The loop copies the present entries of the window at [PHYS_MAP_BASE]. *)
Definition paging_clone_kernel_directory (kernel_page_directory : Z) (m : mmu) : Z * mmu :=
  if kernel_page_directory =? 0 then (0, m) else
  let '(pd, m) := paging_create_directory m in
  if pd =? 0 then (0, m) else
  let m := set_word (entry_addr pd 0) (physmem m (entry_addr kernel_page_directory 0)) m in
  let phys_map_start_pd := paging_get_pd_index PHYS_MAP_BASE in
  let phys_map_end_pd := paging_get_pd_index 0xFFFFFFFF in
  let m := for_loop (phys_map_end_pd - phys_map_start_pd + 1) (fun k m =>
    let i := phys_map_start_pd + k in
    let w := physmem m (entry_addr kernel_page_directory i) in
    if present w then set_word (entry_addr pd i) w m else m) m in
  (pd, m).

(** ** Copy-on-write faults *)

Definition paging_handle_page_fault_cow (faulting_addr : Z) (m : mmu) : outcome (bool * mmu) :=
  let page_addr := paging_align_down faulting_addr in
  let pd_index := Z.shiftr page_addr 22 in
  let pt_index := Z.land (Z.shiftr page_addr 12) 0x3FF in
  let pde := physmem m (entry_addr (current_pd m) pd_index) in
  if negb (present pde) then Done (false, m) else
  let pt_phys := u32 (Z.shiftl (frame pde) 12) in
  let pte := entry_addr pt_phys pt_index in
  if negb (present (physmem m pte)) then Done (false, m) else
  if negb (Z.testbit (physmem m pte) PTE_AVAIL_COW) then Done (false, m) else
  let '(new_phys, p) := pmm_alloc_page (pm m) in
  let m := set_pm p m in
  if new_phys =? 0 then Done (false, m) else
  let old_phys := u32 (Z.shiftl (frame (physmem m pte)) 12) in
  let m := copy_page new_phys old_phys m in
  let w := set_frame (Z.shiftr new_phys 12) (physmem m pte) in
  let w := set_bit PTE_RW true w in
  let w := set_bit PTE_AVAIL_COW false w in
  let m := set_word pte w m in
  match pmm_dec_refcount old_phys (pm m) with
  | Panic => Panic
  | Done (old_refcount, p) =>
      let p := if old_refcount =? 0 then pmm_free_page old_phys p else p in
      Done (true, set_pm p m)
  end.
