(* ===== verification/PagingProps.v ===== *)
(** Properties of the page tables: mapping a page changes the translation of that
    page and of no other one, also when a new page table has to be allocated;
    unmapping undoes it; a copy-on-write fault gives the page a private copy.

    [paging_inv] says that the page directory and the page tables it refers to
    are pairwise distinct frames owned by the paging code.  That a new table does
    not overlap them comes from the interface of the frame allocator. *)

From S2P Require Import Prelude Dll Pmm PmmMeta PmmInv PmmSteps PmmAlloc PmmFree PmmProps PmmInit PmmSpec Frames Paging.
From Stdlib Require Import ZArith Lia Bool.
From stdpp Require Import base tactics numbers list sets gmap.
Open Scope Z_scope.

(** ** Bits of an entry *)

Lemma set_bit_spec i b w j :
  0 <= i -> 0 <= j -> Z.testbit (set_bit i b w) j = if decide (j = i) then b else Z.testbit w j.
Proof.
  intros Hi Hj. unfold set_bit. rewrite Z.shiftl_1_l. destruct b.
  - rewrite Z.lor_spec, Z.pow2_bits_eqb by done. case_decide.
    + subst. rewrite Z.eqb_refl. apply orb_true_r.
    + replace (i =? j) with false by lia. apply orb_false_r.
  - rewrite Z.ldiff_spec, Z.pow2_bits_eqb by done. case_decide.
    + subst. rewrite Z.eqb_refl. apply andb_false_r.
    + replace (i =? j) with false by lia. apply andb_true_r.
Qed.

Lemma set_frame_bits f w j :
  0 <= j -> Z.testbit (set_frame f w) j = if j <? 12 then Z.testbit w j else Z.testbit f (j - 12).
Proof.
  intros Hj. unfold set_frame. change 0xFFF with (Z.ones 12).
  rewrite Z.lor_spec, Z.land_spec, Z.testbit_ones by lia. rewrite Z.shiftl_spec by done.
  replace (0 <=? j) with true by lia. destruct (Z.ltb_spec j 12); cbn [andb].
  - rewrite (Z.testbit_neg_r f) by lia. by rewrite andb_true_r, orb_false_r.
  - by rewrite andb_false_r.
Qed.

Lemma frame_set_frame f w : frame (set_frame f w) = f.
Proof.
  apply Z.bits_inj'. intros n Hn. unfold frame. rewrite Z.shiftr_spec by done.
  rewrite set_frame_bits by lia. replace (n + 12 <? 12) with false by lia. f_equal. lia.
Qed.

Lemma present_set_frame f w : present (set_frame f w) = present w.
Proof. unfold present. by rewrite set_frame_bits. Qed.

Lemma frame_set_bit i b w : 0 <= i < 12 -> frame (set_bit i b w) = frame w.
Proof.
  intros Hi. apply Z.bits_inj'. intros n Hn. unfold frame. rewrite !Z.shiftr_spec by done.
  rewrite set_bit_spec by lia. by rewrite decide_False by lia.
Qed.

Lemma frame_div w : frame w = w / 4096.
Proof. unfold frame. by rewrite Z.shiftr_div_pow2. Qed.

(** Words stay 32 bits wide: a word is in range iff it has no bit above 31. *)
Lemma word_range w : (forall j, 32 <= j -> Z.testbit w j = false) -> 0 <= w -> 0 <= w < 2 ^ 32.
Proof.
  intros Hb Hw. split; [done|]. replace w with (w mod 2 ^ 32); [apply Z.mod_pos_bound; lia|].
  apply Z.bits_inj'. intros n Hn. destruct (Z.lt_ge_cases n 32).
  - by rewrite Z.mod_pow2_bits_low.
  - rewrite Z.mod_pow2_bits_high by lia. by rewrite Hb.
Qed.

Lemma word_bits w j : 0 <= w < 2 ^ 32 -> 32 <= j -> Z.testbit w j = false.
Proof.
  intros Hw Hj. replace w with (w mod 2 ^ 32) by (apply Z.mod_small; lia).
  by rewrite Z.mod_pow2_bits_high by lia.
Qed.

Lemma set_bit_word i b w : 0 <= i < 32 -> 0 <= w < 2 ^ 32 -> 0 <= set_bit i b w < 2 ^ 32.
Proof.
  intros Hi Hw. apply word_range.
  - intros j Hj. rewrite set_bit_spec by lia. rewrite decide_False by lia. by apply word_bits.
  - unfold set_bit. destruct b; [apply Z.lor_nonneg|apply Z.ldiff_nonneg]; [|lia].
    split; [lia|]. rewrite Z.shiftl_1_l. apply Z.pow_nonneg. lia.
Qed.

Lemma set_frame_word f w : 0 <= f < 2 ^ 20 -> 0 <= w < 2 ^ 32 -> 0 <= set_frame f w < 2 ^ 32.
Proof.
  intros Hf Hw. apply word_range.
  - intros j Hj. rewrite set_frame_bits by lia. replace (j <? 12) with false by lia.
    replace f with (f mod 2 ^ 20) by (apply Z.mod_small; lia). apply Z.mod_pow2_bits_high. lia.
  - unfold set_frame. apply Z.lor_nonneg. split; [apply Z.land_nonneg; lia|].
    apply Z.shiftl_nonneg. lia.
Qed.

Lemma map_entry_frame flags phys w : frame (map_entry flags phys w) = Z.shiftr phys 12.
Proof. apply frame_set_frame. Qed.

Lemma map_entry_present flags phys w :
  present (map_entry flags phys w) = negb (Z.land flags PAGE_PRESENT =? 0).
Proof.
  unfold map_entry. rewrite present_set_frame. unfold present, PTE_PRESENT, PTE_RW, PTE_USER,
    PTE_PWT, PTE_PCD, PTE_PAT, PTE_GLOBAL. by rewrite !set_bit_spec by lia.
Qed.

Lemma map_entry_rw flags phys w :
  Z.testbit (map_entry flags phys w) PTE_RW = negb (Z.land flags PAGE_WRITE =? 0).
Proof.
  unfold map_entry. rewrite set_frame_bits by (unfold PTE_RW; lia). unfold PTE_PRESENT, PTE_RW, PTE_USER,
    PTE_PWT, PTE_PCD, PTE_PAT, PTE_GLOBAL. by rewrite !set_bit_spec by lia.
Qed.

Lemma map_entry_user flags phys w :
  Z.testbit (map_entry flags phys w) PTE_USER = negb (Z.land flags PAGE_USER =? 0).
Proof.
  unfold map_entry. rewrite set_frame_bits by (unfold PTE_USER; lia). unfold PTE_PRESENT, PTE_RW, PTE_USER,
    PTE_PWT, PTE_PCD, PTE_PAT, PTE_GLOBAL. by rewrite !set_bit_spec by lia.
Qed.

Lemma map_entry_word flags phys w :
  0 <= phys < 2 ^ 32 -> 0 <= w < 2 ^ 32 -> 0 <= map_entry flags phys w < 2 ^ 32.
Proof.
  intros Hp Hw. unfold map_entry. apply set_frame_word.
  - rewrite Z.shiftr_div_pow2 by lia. change (2 ^ 12) with 4096. dlia.
  - unfold PTE_PRESENT, PTE_RW, PTE_USER, PTE_PWT, PTE_PCD, PTE_PAT, PTE_GLOBAL.
    repeat (apply set_bit_word; [lia|]). done.
Qed.

(** ** Indices of a virtual address *)

Definition pd_idx (v : Z) : Z := v / 2 ^ 22.
Definition pt_idx (v : Z) : Z := (v / 4096) mod 1024.

Lemma pd_index_spec v : paging_get_pd_index v = pd_idx v.
Proof. unfold paging_get_pd_index. by rewrite Z.shiftr_div_pow2. Qed.

Lemma pt_index_spec v : paging_get_pt_index v = pt_idx v.
Proof.
  unfold paging_get_pt_index, pt_idx. rewrite Z.shiftr_div_pow2 by lia.
  change 0x3FF with (2 ^ 10 - 1). by rewrite land_ones_mod.
Qed.

Lemma paging_align_spec v : 0 <= v < 2 ^ 32 -> paging_align_down v = 4096 * (v / 4096).
Proof. exact (align_down_spec v). Qed.

Lemma idx_range v : 0 <= v < 2 ^ 32 -> 0 <= pd_idx v < 1024 /\ 0 <= pt_idx v < 1024.
Proof. intros H. unfold pd_idx, pt_idx. split; [|apply Z.mod_pos_bound; lia]. dlia. Qed.

(** The two indices determine the page. *)
Lemma idx_inj v v' : pd_idx v = pd_idx v' -> pt_idx v = pt_idx v' -> v / 4096 = v' / 4096.
Proof.
  unfold pd_idx, pt_idx. intros H1 H2.
  change (2 ^ 22) with (4096 * 1024) in H1. rewrite <- !Z.div_div in H1 by lia.
  pose proof (Z.div_mod (v / 4096) 1024). pose proof (Z.div_mod (v' / 4096) 1024). lia.
Qed.

Lemma idx_page v v' : v / 4096 = v' / 4096 -> pd_idx v = pd_idx v' /\ pt_idx v = pt_idx v'.
Proof.
  intros E. unfold pd_idx, pt_idx. change (2 ^ 22) with (4096 * 1024).
  rewrite <- !Z.div_div by lia. by rewrite E.
Qed.

Lemma idx_align v : pd_idx (4096 * (v / 4096)) = pd_idx v /\ pt_idx (4096 * (v / 4096)) = pt_idx v.
Proof.
  unfold pd_idx, pt_idx. change (2 ^ 22) with (4096 * 1024). rewrite <- !Z.div_div by lia.
  rewrite (Z.mul_comm 4096 (v / 4096)), Z.div_mul by lia. done.
Qed.

Lemma lor_page f x : 0 <= x < 4096 -> Z.lor (4096 * f) x = 4096 * f + x.
Proof.
  intros Hx. pose proof (Z.add_lor_land (4096 * f) x) as H.
  assert (Z.land (4096 * f) x = 0) as E; [|lia].
  apply Z.bits_inj'. intros n Hn. rewrite Z.land_spec, Z.bits_0.
  destruct (Z.lt_ge_cases n 12).
  - replace (4096 * f) with (Z.shiftl f 12) by (rewrite Z.shiftl_mul_pow2; lia).
    by rewrite Z.shiftl_spec_low by lia.
  - replace x with (x mod 2 ^ 12) by (apply Z.mod_small; lia).
    rewrite (Z.mod_pow2_bits_high x) by lia. apply andb_false_r.
Qed.

(** ** Translation *)

Definition pde (m : mmu) (i : Z) : Z := physmem m (entry_addr (current_pd m) i).

(** The address of the table entry of [v] (when the directory entry is present). *)
Definition pte_addr (m : mmu) (v : Z) : Z := entry_addr (4096 * frame (pde m (pd_idx v))) (pt_idx v).

(** The translation of [v]: the physical address it is mapped to. *)
Definition translate (m : mmu) (v : Z) : option Z :=
  if present (pde m (pd_idx v)) && present (physmem m (pte_addr m v))
  then Some (4096 * frame (physmem m (pte_addr m v)) + v mod 4096) else None.

(** The table entry that maps [v], if there is one. *)
Definition leaf (m : mmu) (v : Z) : option Z :=
  if present (pde m (pd_idx v)) && present (physmem m (pte_addr m v)) then Some (physmem m (pte_addr m v)) else None.

Lemma translate_leaf m v : translate m v = (fun w => 4096 * frame w + v mod 4096) <$> leaf m v.
Proof. unfold translate, leaf. by destruct (_ && _). Qed.

Section Paging.
Context (R : (Z -> list Z) -> Prop) `{!block_stable R}.

(** The directory and the page tables are distinct frames the paging code owns. *)
Record paging_inv (m : mmu) : Prop := {
  pg_pmm : pmm_ok R (pm m);
  pg_words a : 0 <= physmem m a < 2 ^ 32;
  pg_dir : exists d, current_pd m = 4096 * d /\ pmm_owned (pm m) d;
  pg_table i : 0 <= i < 1024 -> present (pde m i) = true ->
    pmm_owned (pm m) (frame (pde m i)) /\ 4096 * frame (pde m i) <> current_pd m;
  pg_inj i j : 0 <= i < 1024 -> 0 <= j < 1024 ->
    present (pde m i) = true -> present (pde m j) = true ->
    frame (pde m i) = frame (pde m j) -> i = j }.

Lemma owned_bound s p : pmm_ok R s -> pmm_owned s p -> 0 < p < 2 ^ 20.
Proof. apply (frame_bound (frame_source := pmm_frames R)). Qed.

Lemma frame_addr w : 0 <= w < 2 ^ 32 -> u32 (Z.shiftl (frame w) 12) = 4096 * frame w.
Proof.
  intros Hw. rewrite Z.shiftl_mul_pow2 by lia. rewrite frame_div. rewrite u32_small; [lia|].
  change (2 ^ 12) with 4096. dlia.
Qed.

(** Looking a table up does not change anything. *)
Lemma get_page_table_lookup m v :
  paging_inv m -> 0 <= v < 2 ^ 32 ->
  paging_get_page_table v false m =
    (if present (pde m (pd_idx v)) then 4096 * frame (pde m (pd_idx v)) else 0, m).
Proof.
  intros I Hv. unfold paging_get_page_table. rewrite pd_index_spec. fold (pde m (pd_idx v)).
  destruct (present (pde m (pd_idx v))); cbn [negb]; [|done].
  by rewrite frame_addr by apply I.
Qed.

Lemma table_nonzero m i :
  paging_inv m -> 0 <= i < 1024 -> present (pde m i) = true -> 4096 * frame (pde m i) <> 0.
Proof.
  intros I Hi Hp. destruct (pg_table _ I i Hi Hp) as [Ho _].
  pose proof (owned_bound _ _ (pg_pmm _ I) Ho). lia.
Qed.

Lemma get_physical_translate m v :
  paging_inv m -> 0 <= v < 2 ^ 32 -> paging_get_physical_address v m = default 0 (translate m v).
Proof.
  intros I Hv. unfold paging_get_physical_address. rewrite get_page_table_lookup by done.
  unfold translate. destruct (present (pde m (pd_idx v))) eqn:Hp; [|done]. cbn [andb].
  pose proof (table_nonzero m _ I (proj1 (idx_range v Hv)) Hp) as Hz.
  replace (4096 * frame (pde m (pd_idx v)) =? 0) with false by lia.
  rewrite pt_index_spec. fold (pte_addr m v).
  destruct (present (physmem m (pte_addr m v))); [|done]. cbn [negb].
  rewrite frame_addr by apply I. unfold paging_get_page_offset, PAGE_SIZE.
  change (4096 - 1) with (2 ^ 12 - 1). rewrite land_ones_mod by lia.
  cbn [default]. apply lor_page. change (2 ^ 12) with 4096. dlia.
Qed.

Lemma is_mapped_spec m v :
  paging_inv m -> 0 <= v < 2 ^ 32 ->
  paging_is_mapped v m = bool_decide (is_Some (translate m v)).
Proof.
  intros I Hv. unfold paging_is_mapped, translate. rewrite get_page_table_lookup by done.
  destruct (present (pde m (pd_idx v))) eqn:Hp; [|done]. cbn [andb].
  pose proof (table_nonzero m _ I (proj1 (idx_range v Hv)) Hp) as Hz.
  replace (4096 * frame (pde m (pd_idx v)) =? 0) with false by lia. rewrite pt_index_spec.
  fold (pte_addr m v). by destruct (present (physmem m (pte_addr m v))).
Qed.

(** Addresses of entries in different frames differ. *)
Lemma entry_addr_inj t t' i i' :
  0 <= i < 1024 -> 0 <= i' < 1024 ->
  entry_addr (4096 * t) i = entry_addr (4096 * t') i' -> t = t' /\ i = i'.
Proof. unfold entry_addr. intros. lia. Qed.

(** *** Writing a table entry *)

(** The frames the translation depends on. *)
Definition table_frame (m : mmu) (t : Z) : Prop :=
  current_pd m = 4096 * t \/
  exists i, 0 <= i < 1024 /\ present (pde m i) = true /\ frame (pde m i) = t.

Lemma table_frame_owned m t : paging_inv m -> table_frame m t -> pmm_owned (pm m) t.
Proof.
  intros I [H|(i & Hi & Hp & <-)]; [|by apply (pg_table _ I)].
  destruct (pg_dir _ I) as (d & Hd & Ho). by replace t with d by lia.
Qed.

Section WriteEntry.
Context (m : mmu) (v w : Z).
Context (I : paging_inv m) (Hv : 0 <= v < 2 ^ 32) (Hp : present (pde m (pd_idx v)) = true).
Context (Hw : 0 <= w < 2 ^ 32).

Lemma pte_not_dir i : 0 <= i < 1024 -> entry_addr (current_pd m) i <> pte_addr m v.
Proof using All.
  intros Hi E. destruct (idx_range v Hv) as [Hpd Hpt]. destruct (pg_dir _ I) as (d & Hd & _).
  destruct (pg_table _ I _ Hpd Hp) as [_ Hne]. unfold pte_addr in E. rewrite Hd in *.
  apply entry_addr_inj in E as [-> _]; done.
Qed.

Lemma write_pde i : 0 <= i < 1024 -> pde (set_word (pte_addr m v) w m) i = pde m i.
Proof using All. intros Hi. unfold pde. cbn. apply upd_ne. by apply pte_not_dir. Qed.

Lemma write_frames t : table_frame (set_word (pte_addr m v) w m) t <-> table_frame m t.
Proof using All.
  unfold table_frame. cbn [current_pd set_word]. split; (intros [?|(i & Hi & H)]; [by left|right; exists i; split; [done|]]).
  - by rewrite write_pde in H.
  - by rewrite write_pde.
Qed.

Lemma write_inv : paging_inv (set_word (pte_addr m v) w m).
Proof using All.
  destruct I as [I1 I2 I3 I4 I5]. split; [done| |done| |].
  - intros a. cbn. rewrite upd_cases. case_decide; [done|apply I2].
  - intros i Hi. rewrite write_pde by done. by apply I4.
  - intros i j Hi Hj. rewrite !write_pde by done. by apply I5.
Qed.

Lemma write_pte_addr v' : 0 <= v' < 2 ^ 32 -> pte_addr (set_word (pte_addr m v) w m) v' = pte_addr m v'.
Proof using All.
  intros Hv'. unfold pte_addr at 1 3. rewrite write_pde; [done|]. apply idx_range. done.
Qed.

Lemma pte_addr_eq v' :
  0 <= v' < 2 ^ 32 -> present (pde m (pd_idx v')) = true ->
  pte_addr m v' = pte_addr m v <-> v' / 4096 = v / 4096.
Proof using All.
  intros Hv' Hp'. destruct (idx_range v Hv), (idx_range v' Hv'). unfold pte_addr. split.
  - intros E. apply entry_addr_inj in E as [E1 E2]; [|done..].
    apply idx_inj; [|done]. by apply (pg_inj _ I).
  - intros E. by destruct (idx_page v' v E) as [-> ->].
Qed.

Lemma write_leaf v' :
  0 <= v' < 2 ^ 32 ->
  leaf (set_word (pte_addr m v) w m) v' =
  if decide (v' / 4096 = v / 4096) then (if present w then Some w else None) else leaf m v'.
Proof using All.
  intros Hv'. unfold leaf. rewrite write_pde by apply (idx_range v' Hv').
  rewrite write_pte_addr by done. cbn [physmem set_word]. rewrite upd_cases.
  destruct (present (pde m (pd_idx v'))) eqn:Hp'; cbn [andb].
  - destruct (decide (v' / 4096 = v / 4096)) as [E|E].
    + rewrite decide_True by (by apply pte_addr_eq). done.
    + rewrite decide_False; [done|]. rewrite pte_addr_eq by done. done.
  - rewrite decide_False; [done|]. intros E. destruct (idx_page v' v E) as [E1 _]. congruence.
Qed.

Lemma write_translate v' :
  0 <= v' < 2 ^ 32 ->
  translate (set_word (pte_addr m v) w m) v' =
  if decide (v' / 4096 = v / 4096)
  then (if present w then Some (4096 * frame w + v' mod 4096) else None)
  else translate m v'.
Proof using All.
  intros Hv'. rewrite !translate_leaf, write_leaf by done. by destruct (decide _), (present w).
Qed.
End WriteEntry.

(** *** Creating a table *)

Lemma clear_page_words m x a :
  (forall a, 0 <= physmem m a < 2 ^ 32) -> 0 <= physmem (clear_page x m) a < 2 ^ 32.
Proof. intros H. unfold clear_page. cbn [physmem]. destruct (_ && _); [lia|apply H]. Qed.

Section NewTable.
Context (m : mmu) (p : pmm) (q i w : Z).
Context (I : paging_inv m) (Hi : 0 <= i < 1024) (Hp : present (pde m i) = false).
Context (Hq : ~ pmm_owned (pm m) q) (K : pmm_ok R p).
Context (Ho : forall x, pmm_owned p x <-> pmm_owned (pm m) x \/ x = q).
Context (Hw : 0 <= w < 2 ^ 32) (Hwp : present w = true) (Hwf : frame w = q).

Definition with_table : mmu :=
  set_word (entry_addr (current_pd m) i) w (clear_page (4096 * q) (set_pm p m)).

Lemma dir_not_new : forall d, current_pd m = 4096 * d -> d <> q.
Proof using All.
  intros d Hd E. destruct (pg_dir _ I) as (d' & Hd' & Hown). apply Hq. by replace q with d' by lia.
Qed.

Lemma table_word x : 0 <= x < 1024 -> physmem with_table (entry_addr (4096 * q) x) = 0.
Proof using All.
  intros Hx. destruct (pg_dir _ I) as (d & Hd & _). cbn. rewrite upd_ne.
  - unfold entry_addr, PAGE_SIZE. zbool; [done|lia..].
  - rewrite Hd. intros E. apply entry_addr_inj in E as [E _]; [|done..]. by apply (dir_not_new d).
Qed.

Lemma other_word t x :
  pmm_owned (pm m) t -> 0 <= x < 1024 -> entry_addr (4096 * t) x <> entry_addr (current_pd m) i ->
  physmem with_table (entry_addr (4096 * t) x) = physmem m (entry_addr (4096 * t) x).
Proof using All.
  intros Ht Hx Hne. cbn. rewrite upd_ne by done. unfold entry_addr, PAGE_SIZE.
  assert (t <> q) by (intros ->; done). zbool; (done || lia).
Qed.

Lemma with_table_pde j : 0 <= j < 1024 -> pde with_table j = if decide (j = i) then w else pde m j.
Proof using All.
  intros Hj. destruct (pg_dir _ I) as (d & Hd & Hown). case_decide as E.
  - subst. unfold pde. cbn. apply upd_eq.
  - unfold pde. cbn [current_pd with_table set_word clear_page set_pm]. rewrite Hd.
    apply other_word; [done|done|]. rewrite Hd. intros E'. by apply entry_addr_inj in E' as [_ ?].
Qed.

Lemma with_table_frames t : table_frame with_table t <-> table_frame m t \/ t = q.
Proof using All.
  unfold table_frame. cbn [current_pd with_table set_word clear_page set_pm]. split.
  - intros [?|(j & Hj & H)]; [by left; left|]. rewrite with_table_pde in H by done.
    destruct (decide (j = i)) as [->|]; [right; naive_solver|]. left. right. by exists j.
  - intros [[?|(j & Hj & H)]| ->]; [by left| |]; right.
    + exists j. split; [done|]. rewrite with_table_pde by done.
      destruct (decide (j = i)) as [->|]; [naive_solver congruence|done].
    + exists i. split; [done|]. rewrite with_table_pde by done. by rewrite decide_True.
Qed.

Lemma with_table_inv : paging_inv with_table.
Proof using All.
  pose proof I as [I1 I2 I3 I4 I5]. split.
  - done.
  - intros a. cbn [physmem with_table set_word]. rewrite upd_cases. case_decide; [done|].
    by apply clear_page_words.
  - destruct I3 as (d & Hd & Hown). exists d. split; [done|]. apply Ho. by left.
  - intros j Hj. rewrite with_table_pde by done. destruct (decide (j = i)) as [->|Hne].
    + intros _. rewrite Hwf. split; [apply Ho; by right|]. cbn. intros E.
      destruct I3 as (d & Hd & _). apply (dir_not_new d Hd). lia.
    + intros Hpj. destruct (I4 j Hj Hpj) as [? ?]. split; [apply Ho; by left|done].
  - assert (Hfresh : forall j, 0 <= j < 1024 -> present (pde m j) = true -> frame (pde m j) <> q).
    { intros j Hj Hpj E. apply Hq. rewrite <- E. by apply I4. }
    intros j k Hj Hk. rewrite !with_table_pde by done.
    destruct (decide (j = i)) as [->|], (decide (k = i)) as [->|]; try done.
    + rewrite Hwf. intros _ Hpk E. by destruct (Hfresh k Hk Hpk).
    + rewrite Hwf. intros Hpj _ E. by destruct (Hfresh j Hj Hpj).
    + by apply I5.
Qed.

Lemma with_table_leaf v : 0 <= v < 2 ^ 32 -> leaf with_table v = leaf m v.
Proof using All.
  intros Hv. destruct (idx_range v Hv) as [Hpd Hpt]. unfold leaf, pte_addr.
  rewrite with_table_pde by done. destruct (decide (pd_idx v = i)) as [->|Hne].
  - rewrite Hwp, Hwf, Hp, table_word by done. done.
  - destruct (present (pde m (pd_idx v))) eqn:Hpv; [|done]. cbn [andb].
    destruct (pg_table _ I _ Hpd Hpv) as [Hown Hdir].
    rewrite other_word; [done|done|done|]. destruct (pg_dir _ I) as (d & Hd & _). rewrite Hd in *.
    intros E. apply entry_addr_inj in E as [E _]; [|done..]. by rewrite E in Hdir.
Qed.
End NewTable.

Lemma mmu_eta m : set_pm (pm m) m = m.
Proof. by destruct m. Qed.

(** [m'] has the new tables [ts]: frames nobody owned before. *)
Definition grows (m m' : mmu) (ts : list Z) : Prop :=
  current_pd m' = current_pd m /\
  (forall q, pmm_owned (pm m') q <-> pmm_owned (pm m) q \/ q ∈ ts) /\
  (forall t, table_frame m' t <-> table_frame m t \/ t ∈ ts) /\
  (forall t, t ∈ ts -> ~ pmm_owned (pm m) t).

Definition keeps (m m' : mmu) : Prop := exists ts, (length ts <= 1)%nat /\ grows m m' ts.

Lemma keeps_refl m : keeps m m.
Proof. exists []. unfold grows. set_solver. Qed.

Lemma get_page_table_leaf m v :
  paging_inv m -> 0 <= v < 2 ^ 32 ->
  let '(pt, m') := paging_get_page_table v true m in
  paging_inv m' /\ keeps m m' /\
  (forall v', 0 <= v' < 2 ^ 32 -> leaf m' v' = leaf m v') /\
  ((pt = 0 /\ m' = m /\ (pmm_alloc_page (pm m)).1 = 0) \/
   present (pde m' (pd_idx v)) = true /\ pt = 4096 * frame (pde m' (pd_idx v))).
Proof.
  intros I Hv. unfold paging_get_page_table. rewrite pd_index_spec.
  destruct (idx_range v Hv) as [Hpd _]. fold (pde m (pd_idx v)).
  destruct (present (pde m (pd_idx v))) eqn:Hp; cbn [negb].
  { rewrite frame_addr by apply I. split; [done|]. split; [apply keeps_refl|]. split; [done|]. by right. }
  pose proof (alloc_frame (frame_source := pmm_frames R) (pm m) (pg_pmm _ I)) as H.
  destruct (pmm_alloc_page (pm m)) as [a p]. destruct H as [K [[-> ->]|(q & -> & Hq & Ho)]].
  { cbn [Z.eqb]. rewrite mmu_eta. split; [done|]. split; [apply keeps_refl|]. split; [done|]. by left. }
  assert (Hq0 : 0 < q < 2 ^ 20).
  { apply (frame_bound (frame_source := pmm_frames R) p); [done|]. apply Ho. by right. }
  unfold PMM_PAGE_SIZE. replace (4096 * q =? 0) with false by lia.
  set (w := set_frame _ _).
  assert (Hfr : Z.shiftr (4096 * q) 12 = q).
  { rewrite Z.shiftr_div_pow2 by lia. change (2 ^ 12) with 4096. rewrite Z.mul_comm. apply Z.div_mul. lia. }
  assert (Hf : frame w = q) by (unfold w; rewrite frame_set_frame; exact Hfr).
  assert (Hpr : present w = true).
  { unfold w. rewrite present_set_frame. unfold present, PTE_PRESENT, PTE_RW, PTE_USER.
    by rewrite !set_bit_spec by lia. }
  assert (Hw : 0 <= w < 2 ^ 32).
  { unfold w. rewrite Hfr. apply set_frame_word; [lia|]. unfold PTE_PRESENT, PTE_RW, PTE_USER.
    repeat (apply set_bit_word; [lia|]). apply clear_page_words. apply I. }
  change (set_word _ w _) with (with_table m p q (pd_idx v) w).
  split; [by apply with_table_inv|]. split.
  { exists [q]. split; [done|]. split; [done|]. split; [|split].
    - intros x. rewrite list_elem_of_singleton. apply Ho.
    - intros t. rewrite list_elem_of_singleton. by apply with_table_frames.
    - intros t ->%list_elem_of_singleton. exact Hq. }
  split; [intros; by apply with_table_leaf|].
  right. rewrite with_table_pde by done. rewrite decide_True by done. by rewrite Hf.
Qed.

Lemma get_page_table_create m v :
  paging_inv m -> 0 <= v < 2 ^ 32 ->
  let '(pt, m') := paging_get_page_table v true m in
  paging_inv m' /\ keeps m m' /\
  (forall v', 0 <= v' < 2 ^ 32 -> translate m' v' = translate m v') /\
  ((pt = 0 /\ m' = m /\ (pmm_alloc_page (pm m)).1 = 0) \/
   present (pde m' (pd_idx v)) = true /\ pt = 4096 * frame (pde m' (pd_idx v))).
Proof.
  intros I Hv. pose proof (get_page_table_leaf m v I Hv) as H.
  destruct (paging_get_page_table v true m) as [pt m']. destruct H as (H1 & H2 & H3 & H4).
  split; [done|]. split; [done|]. split; [|done]. intros v' Hv'. by rewrite !translate_leaf, H3.
Qed.

(** *** Mapping, unmapping *)

Lemma map_page_spec m virt phys flags :
  paging_inv m -> 0 <= virt < 2 ^ 32 -> 0 <= phys < 2 ^ 32 -> Z.land flags PAGE_PRESENT <> 0 ->
  let '(ok, m') := paging_map_page virt phys flags m in
  paging_inv m' /\ keeps m m' /\
  (ok = false -> m' = m /\ (pmm_alloc_page (pm m)).1 = 0) /\
  forall v, 0 <= v < 2 ^ 32 -> translate m' v =
    if ok && bool_decide (v / 4096 = virt / 4096) then Some (4096 * (phys / 4096) + v mod 4096)
    else translate m v.
Proof.
  intros I Hv Hph Hfl. unfold paging_map_page. rewrite !paging_align_spec by done.
  assert (Hv4 : 0 <= 4096 * (virt / 4096) < 2 ^ 32) by dlia.
  pose proof (get_page_table_create m (4096 * (virt / 4096)) I Hv4) as H.
  destruct (paging_get_page_table _ true m) as [pt m1]. destruct H as (I1 & K1 & T1 & Hpt).
  destruct (Z.eqb_spec pt 0) as [->|Hne].
  { split; [done|]. split; [done|]. split.
    - intros _. destruct Hpt as [(_ & H)|[Hp E]]; [done|]. destruct (idx_range _ Hv4) as [Hpd _].
      by destruct (table_nonzero m1 _ I1 Hpd Hp).
    - intros v Hv'. by apply T1. }
  destruct Hpt as [[? _]|[Hp ->]]; [done|]. rewrite pt_index_spec. fold (pte_addr m1 (4096 * (virt / 4096))).
  set (w := map_entry flags _ _).
  assert (Hw : 0 <= w < 2 ^ 32) by (apply map_entry_word; [dlia|apply I1]).
  split; [by apply write_inv|]. split; [|split; [done|]].
  { destruct K1 as (ts & Hts & G1 & G2 & G3 & G4). exists ts. split; [done|]. split; [done|]. split; [exact G2|].
    split; [|exact G4]. intros t. by rewrite write_frames. }
  intros v Hv'.
  rewrite (write_translate _ _ _ I1 Hv4 Hp Hw v Hv'). cbn [andb].
  replace (4096 * (virt / 4096) / 4096) with (virt / 4096) by (rewrite Z.mul_comm, Z.div_mul; lia).
  rewrite bool_decide_decide. case_decide; [|by apply T1].
  unfold w. rewrite map_entry_present, map_entry_frame.
  replace (Z.land flags PAGE_PRESENT =? 0) with false by lia. cbn [negb].
  rewrite Z.shiftr_div_pow2 by lia. change (2 ^ 12) with 4096.
  by replace (4096 * (phys / 4096) / 4096) with (phys / 4096) by (rewrite Z.mul_comm, Z.div_mul; lia).
Qed.

(** The entry that [paging_map_page] leaves. *)
Lemma map_page_leaf m virt phys flags :
  paging_inv m -> 0 <= virt < 2 ^ 32 -> 0 <= phys < 2 ^ 32 -> Z.land flags PAGE_PRESENT <> 0 ->
  let '(ok, m') := paging_map_page virt phys flags m in
  exists old, forall v, 0 <= v < 2 ^ 32 -> leaf m' v =
    if ok && bool_decide (v / 4096 = virt / 4096) then Some (map_entry flags (4096 * (phys / 4096)) old)
    else leaf m v.
Proof.
  intros I Hv Hph Hfl. unfold paging_map_page. rewrite !paging_align_spec by done.
  assert (Hv4 : 0 <= 4096 * (virt / 4096) < 2 ^ 32) by dlia.
  pose proof (get_page_table_leaf m (4096 * (virt / 4096)) I Hv4) as H.
  destruct (paging_get_page_table _ true m) as [pt m1]. destruct H as (I1 & _ & T1 & Hpt).
  destruct (Z.eqb_spec pt 0) as [->|Hne]; [exists 0; intros v Hv'; by apply T1|].
  destruct Hpt as [[? _]|[Hp ->]]; [done|]. rewrite pt_index_spec. fold (pte_addr m1 (4096 * (virt / 4096))).
  exists (physmem m1 (pte_addr m1 (4096 * (virt / 4096)))). intros v Hv'.
  set (w := map_entry flags _ _).
  assert (Hw : 0 <= w < 2 ^ 32) by (apply map_entry_word; [dlia|apply I1]).
  rewrite (write_leaf _ _ _ I1 Hv4 Hp Hw v Hv'). cbn [andb].
  replace (4096 * (virt / 4096) / 4096) with (virt / 4096) by (rewrite Z.mul_comm, Z.div_mul; lia).
  rewrite bool_decide_decide. case_decide; [|by apply T1].
  unfold w. rewrite map_entry_present. by replace (Z.land flags PAGE_PRESENT =? 0) with false by lia.
Qed.

(** A page that is mapped can always be mapped again. *)
Lemma map_page_again m virt phys flags :
  paging_inv m -> 0 <= virt < 2 ^ 32 -> leaf m (4096 * (virt / 4096)) <> None ->
  (paging_map_page virt phys flags m).1 = true.
Proof.
  intros I Hv Hl. unfold paging_map_page. rewrite (paging_align_spec virt) by done.
  set (a := 4096 * (virt / 4096)) in *. assert (Ha : 0 <= a < 2 ^ 32) by (unfold a; dlia).
  unfold leaf in Hl. destruct (present (pde m (pd_idx a))) eqn:Hp; [|done].
  unfold paging_get_page_table. rewrite pd_index_spec. fold (pde m (pd_idx a)). rewrite Hp. cbn [negb].
  rewrite frame_addr by apply I. pose proof (table_nonzero m _ I (proj1 (idx_range a Ha)) Hp).
  by replace (4096 * frame (pde m (pd_idx a)) =? 0) with false by lia.
Qed.

Lemma unmap_page_spec m virt :
  paging_inv m -> 0 <= virt < 2 ^ 32 ->
  let m' := paging_unmap_page virt m in
  paging_inv m' /\ pm m' = pm m /\ (forall t, table_frame m' t <-> table_frame m t) /\
  forall v, 0 <= v < 2 ^ 32 -> translate m' v =
    if decide (v / 4096 = virt / 4096) then None else translate m v.
Proof.
  intros I Hv. unfold paging_unmap_page. rewrite paging_align_spec by done.
  set (va := 4096 * (virt / 4096)). assert (Hva : 0 <= va < 2 ^ 32) by (unfold va; dlia).
  assert (Hpg : va / 4096 = virt / 4096) by (unfold va; rewrite Z.mul_comm, Z.div_mul; lia).
  rewrite get_page_table_lookup by done. destruct (idx_range va Hva) as [Hpd _].
  (* a page that is not mapped stays so *)
  assert (Hnone : translate m va = None -> paging_inv m /\ pm m = pm m /\ (forall t, table_frame m t <-> table_frame m t) /\
    forall v, 0 <= v < 2 ^ 32 -> translate m v = if decide (v / 4096 = virt / 4096) then None else translate m v).
  { intros H0. split; [done|]. split; [done|]. split; [done|]. intros v Hv'. case_decide as E; [|done].
    rewrite <- Hpg in E. destruct (idx_page v va E) as [E1 E2]. revert H0. unfold translate, pte_addr.
    rewrite E1, E2. by destruct (_ && _). }
  destruct (present (pde m (pd_idx va))) eqn:Hp.
  2: { apply Hnone. unfold translate. by rewrite Hp. }
  pose proof (table_nonzero m _ I Hpd Hp) as Hz.
  replace (4096 * frame (pde m (pd_idx va)) =? 0) with false by lia.
  rewrite pt_index_spec. fold (pte_addr m va).
  destruct (present (physmem m (pte_addr m va))) eqn:Hp2.
  2: { apply Hnone. unfold translate. by rewrite Hp, Hp2. }
  assert (Hw : 0 <= 0 < 2 ^ 32) by lia.
  split; [by apply write_inv|]. split; [done|]. split; [intros t; by apply write_frames|]. intros v Hv'.
  rewrite (write_translate _ _ _ I Hva Hp Hw v Hv'), Hpg. by case_decide.
Qed.

(** *** Changes outside the tables *)

Lemma tables_kept m m' :
  paging_inv m -> current_pd m' = current_pd m ->
  (forall t x, table_frame m t -> 0 <= x < 1024 ->
     physmem m' (entry_addr (4096 * t) x) = physmem m (entry_addr (4096 * t) x)) ->
  (forall a, 0 <= physmem m' a < 2 ^ 32) -> pmm_ok R (pm m') ->
  (forall t, table_frame m t -> pmm_owned (pm m') t) ->
  paging_inv m' /\ forall v, 0 <= v < 2 ^ 32 -> translate m' v = translate m v.
Proof.
  intros I Hcd Hmem Hw K Hown. pose proof I as [I1 I2 (d & Hd & Hdo) I4 I5].
  assert (Hpde : forall i, 0 <= i < 1024 -> pde m' i = pde m i).
  { intros i Hi. unfold pde. rewrite Hcd, Hd. apply Hmem; [by left|done]. }
  split.
  - split; [done|done| | |].
    + exists d. rewrite Hcd. split; [done|]. apply Hown. by left.
    + intros i Hi. rewrite Hpde, Hcd by done. intros Hp. split; [|by apply I4].
      apply Hown. right. by exists i.
    + intros i j Hi Hj. rewrite !Hpde by done. by apply I5.
  - intros v Hv. destruct (idx_range v Hv) as [Hpd Hpt]. unfold translate, pte_addr.
    rewrite Hpde by done. destruct (present (pde m (pd_idx v))) eqn:Hp; [|done]. cbn [andb].
    rewrite Hmem; [done| |done]. right. by exists (pd_idx v).
Qed.

(** Taking a frame, or a further reference to a frame that is no table. *)
Lemma alloc_keeps_inv m :
  paging_inv m -> paging_inv (set_pm (pmm_alloc_page (pm m)).2 m).
Proof.
  intros I. pose proof (alloc_frame (frame_source := pmm_frames R) (pm m) (pg_pmm _ I)) as H.
  destruct (pmm_alloc_page (pm m)) as [a p]. destruct H as [K H]. cbn [snd].
  apply (tables_kept m); [done|done|done|apply I|done|].
  intros t Ht. pose proof (table_frame_owned _ _ I Ht) as Ho. cbn [pm set_pm].
  destruct H as [[_ ->]|(q & _ & _ & HO)]; [done|]. apply HO. by left.
Qed.

Lemma inc_keeps_inv m f r p :
  paging_inv m -> ~ table_frame m f -> 0 <= 4096 * f < 2 ^ 32 ->
  pmm_inc_refcount (4096 * f) (pm m) = Done (r, p) -> paging_inv (set_pm p m).
Proof.
  intros I Hnt Hf E.
  pose proof (pmm_exec_ok R (IncRef (4096 * f)) _ r p Hf (pg_pmm _ I) E) as K.
  apply (tables_kept m); [done|done|done|apply I|done|].
  intros t Ht. destruct (table_frame_owned _ _ I Ht) as (H1 & H2 & H3).
  assert (t <> f) by (intros ->; exact (Hnt Ht)). cbn [pm set_pm].
  revert E. unfold pmm_inc_refcount, buddy_inc_refcount, pmm_addr_to_page.
  change (4096 * f) with (PMM_PAGE_SIZE * f). rewrite page_of_addr.
  repeat case_match; intros [= <- <-]; simplify_eq/=; try done.
  split; [done|]. split; [done|]. cbn. by rewrite upd_ne.
Qed.

(** *** Copy-on-write faults *)

(** The page of [v] is mapped copy-on-write to the frame [f]. *)
Definition cow_page (m : mmu) (v f : Z) : Prop :=
  present (pde m (pd_idx v)) = true /\ present (physmem m (pte_addr m v)) = true /\
  Z.testbit (physmem m (pte_addr m v)) PTE_AVAIL_COW = true /\ frame (physmem m (pte_addr m v)) = f.

(** Dropping one reference to a page: the page is released with the last one. *)
Definition drop_reference (f : Z) (s : pmm) : outcome pmm :=
  match pmm_dec_refcount (4096 * f) s with
  | Panic => Panic
  | Done (r, s) => Done (if r =? 0 then pmm_free_page (4096 * f) s else s)
  end.

Lemma drop_reference_spec s f :
  pmm_ok R s -> 0 < f -> used_block s f 0 -> 1 <= refcount_map s f < UINT16_MAX ->
  exists s', drop_reference f s = Done s' /\ pmm_ok R s' /\
    (forall q k, used_block s' q k <->
       used_block s q k /\ ~ (refcount_map s f = 1 /\ q = f /\ k = 0)) /\
    (forall q, refcount_map s' q = if decide (q = f) then refcount_map s f - 1 else refcount_map s q) /\
    free_pages s' = free_pages s + (if refcount_map s f =? 1 then 1 else 0).
Proof.
  intros K Hf Hu Hr. unfold drop_reference, pmm_dec_refcount.
  assert (Hal : pmm_is_aligned (4096 * f) = true)
    by (apply aligned_addr; unfold PMM_PAGE_SIZE; dlia).
  rewrite Hal. cbn [negb]. change (4096 * f) with (PMM_PAGE_SIZE * f).
  unfold pmm_addr_to_page. rewrite page_of_addr. pose proof Hu as ((_ & Ht) & -> & _). cbn [negb].
  unfold buddy_dec_refcount. replace (total_pages s <=? f) with false by lia.
  replace (refcount_map s f =? 0) with false by lia.
  replace (refcount_map s f =? UINT16_MAX) with false by lia. unfold UINT16_MAX in Hr.
  rewrite u16_small by lia. set (s1 := set_refcount_map _ s).
  assert (K1 : pmm_ok R s1) by (apply (upd_refcount_ok R); [unfold UINT16_MAX; lia|done]).
  assert (C1 : forall q, refcount_map s1 q = if decide (q = f) then refcount_map s f - 1 else refcount_map s q)
    by (intros q; apply upd_cases).
  destruct (Z.eqb_spec (refcount_map s f - 1) 0) as [E|E].
  - destruct (pmm_release_page R s1 f K1 Hf Hu) as (K2 & U2 & C2).
    { rewrite C1, decide_True by done. lia. }
    pose proof (release_page_free R s1 f K1 Hf Hu ltac:(rewrite C1, decide_True by done; lia)) as Hfr.
    change (free_pages s1) with (free_pages s) in Hfr. replace (refcount_map s f =? 1) with true by lia.
    eexists. split; [done|]. split; [done|]. split; [|split; [|done]].
    + intros q k. rewrite U2. change (used_block s1 q k) with (used_block s q k). intuition lia.
    + intros q. rewrite C2, C1. case_decide; lia.
  - replace (refcount_map s f =? 1) with false by lia. rewrite Z.add_0_r.
    eexists. split; [done|]. split; [done|]. split; [|done].
    intros q k. change (used_block s1 q k) with (used_block s q k). intuition lia.
Qed.

(** The private copy: what a resolved fault leaves. *)
Record cow_resolved (m : mmu) (v f q : Z) (m' : mmu) : Prop := {
  cr_fresh : forall k, ~ used_block (pm m) q k;
  cr_owned : pmm_owned (pm m') q;
  cr_translate v' : 0 <= v' < 2 ^ 32 -> translate m' v' =
    if decide (v' / 4096 = v / 4096) then Some (4096 * q + v' mod 4096) else translate m v';
  cr_writable : Z.testbit (physmem m' (pte_addr m' v)) PTE_RW = true /\
    Z.testbit (physmem m' (pte_addr m' v)) PTE_AVAIL_COW = false;
  cr_copy x : 0 <= x < 4096 -> physmem m' (4096 * q + x) = physmem m (4096 * f + x);
  cr_source x : 0 <= x < 4096 -> physmem m' (4096 * f + x) = physmem m (4096 * f + x);
  cr_refcount : refcount_map (pm m') f = refcount_map (pm m) f - 1;
  cr_released : used_block (pm m') f 0 <-> 1 < refcount_map (pm m) f }.

Section Cow.
Context (m : mmu) (v f : Z) (p : pmm) (q : Z).
Context (I : paging_inv m) (Hv : 0 <= v < 2 ^ 32) (Hcp : cow_page m v f).
Context (Hnt : ~ table_frame m f) (Hu : used_block (pm m) f 0).
Context (K : pmm_ok R p) (Hq : 0 < q) (Hno : forall k, ~ used_block (pm m) q k).
Context (U : forall x k, used_block p x k <-> used_block (pm m) x k \/ (x = q /\ k = 0)).
Context (C : forall x, refcount_map p x = if decide (x = q) then 1 else refcount_map (pm m) x).

(** After the new frame has been filled. *)
Definition cow_copied : mmu := copy_page (4096 * q) (4096 * f) (set_pm p m).

Lemma cow_new_owned : pmm_owned p q.
Proof using Hq U C. split; [done|]. rewrite U, C, decide_True by done. split; [by right|done]. Qed.

Lemma cow_other_frames t : table_frame m t -> t <> q /\ t <> f.
Proof using I Hnt Hno.
  intros Ht. split; [|by intros ->]. intros E.
  destruct (table_frame_owned m t I Ht) as (_ & Hu' & _). rewrite E in Hu'. by apply (Hno 0).
Qed.

Lemma cow_copied_word t x : 0 <= x < 4096 ->
  physmem cow_copied (4096 * t + x) =
  if decide (t = q) then physmem m (4096 * f + x) else physmem m (4096 * t + x).
Proof.
  intros Hx. unfold cow_copied, copy_page, PAGE_SIZE. cbn [physmem set_pm].
  destruct (decide (t = q)) as [->|Hne].
  - replace (4096 * q <=? 4096 * q + x) with true by lia.
    replace (4096 * q + x <? 4096 * q + 4096) with true by lia. cbn [andb]. f_equal. lia.
  - destruct (Z.leb_spec (4096 * q) (4096 * t + x)); [|done].
    destruct (Z.ltb_spec (4096 * t + x) (4096 * q + 4096)); [lia|done].
Qed.

Lemma cow_copied_inv :
  paging_inv cow_copied /\ forall x, 0 <= x < 2 ^ 32 -> translate cow_copied x = translate m x.
Proof using All.
  apply tables_kept; [done|done| | |done|].
  - intros t x Ht Hx. unfold entry_addr. rewrite cow_copied_word by lia.
    by rewrite decide_False by apply (cow_other_frames t Ht).
  - intros y. unfold cow_copied, copy_page. cbn [physmem set_pm]. destruct (_ && _); apply I.
  - intros t Ht. destruct (table_frame_owned m t I Ht) as (? & ? & ?). split; [done|].
    cbn. rewrite U, C, decide_False by apply (cow_other_frames t Ht). split; [by left|done].
Qed.

Lemma cow_copied_pde i : 0 <= i < 1024 -> pde cow_copied i = pde m i.
Proof using All.
  intros Hi. destruct (pg_dir _ I) as (d & Hd & _). unfold pde, entry_addr.
  change (current_pd cow_copied) with (current_pd m). rewrite Hd, cow_copied_word by lia.
  rewrite decide_False; [done|]. apply cow_other_frames. by left.
Qed.

Lemma cow_copied_pte : pte_addr cow_copied v = pte_addr m v.
Proof using All. unfold pte_addr. rewrite cow_copied_pde; [done|]. apply idx_range. done. Qed.

(** The entry the handler writes. *)
Definition cow_entry : Z :=
  set_bit PTE_AVAIL_COW false (set_bit PTE_RW true
    (set_frame q (physmem cow_copied (pte_addr m v)))).

Lemma cow_entry_spec :
  0 <= cow_entry < 2 ^ 32 /\ frame cow_entry = q /\ present cow_entry = true /\
  Z.testbit cow_entry PTE_RW = true /\ Z.testbit cow_entry PTE_AVAIL_COW = false.
Proof using All.
  assert (Hq20 : 0 < q < 2 ^ 20) by (by apply (owned_bound p), cow_new_owned).
  destruct Hcp as (Hp & Hp2 & _). destruct (idx_range v Hv) as [Hpd Hpt].
  set (t := frame (pde m (pd_idx v))).
  assert (Hword : physmem cow_copied (pte_addr m v) = physmem m (pte_addr m v)).
  { unfold pte_addr, entry_addr. fold t. rewrite cow_copied_word by lia. rewrite decide_False; [done|].
    apply cow_other_frames. right. by exists (pd_idx v). }
  unfold cow_entry, present, PTE_AVAIL_COW, PTE_RW, PTE_PRESENT in *. rewrite Hword.
  split; [apply set_bit_word; [lia|]; apply set_bit_word; [lia|]; apply set_frame_word; [lia|apply I]|].
  split; [by rewrite !frame_set_bit, frame_set_frame by lia|].
  rewrite !set_bit_spec by lia. cbn [decide]. by rewrite set_frame_bits by lia.
Qed.

Definition cow_mapped : mmu := set_word (pte_addr m v) cow_entry cow_copied.

Lemma cow_mapped_inv :
  paging_inv cow_mapped /\
  forall x, 0 <= x < 2 ^ 32 -> translate cow_mapped x =
    if decide (x / 4096 = v / 4096) then Some (4096 * q + x mod 4096) else translate m x.
Proof using All.
  destruct cow_copied_inv as [I1 T1]. destruct cow_entry_spec as (Hw & Hf & Hp & _ & _).
  assert (Hp1 : present (pde cow_copied (pd_idx v)) = true).
  { rewrite cow_copied_pde by apply (idx_range v Hv). apply Hcp. }
  unfold cow_mapped. rewrite <- cow_copied_pte. split; [by apply write_inv|].
  intros x Hx. rewrite (write_translate cow_copied v cow_entry I1 Hv Hp1 Hw x Hx), Hp, Hf.
  case_decide; [done|]. by apply T1.
Qed.

Lemma cow_mapped_word t x : 0 <= x < 4096 -> t <> frame (pde m (pd_idx v)) ->
  physmem cow_mapped (4096 * t + x) =
  if decide (t = q) then physmem m (4096 * f + x) else physmem m (4096 * t + x).
Proof using All.
  intros Hx Ht. unfold cow_mapped. cbn [physmem set_word].
  destruct (idx_range v Hv) as [_ Hpt]. rewrite upd_ne by (unfold pte_addr, entry_addr; lia).
  by apply cow_copied_word.
Qed.

Lemma cow_mapped_tables t : table_frame cow_mapped t -> table_frame m t.
Proof using All.
  destruct cow_copied_inv as [I1 _]. destruct cow_entry_spec as (Hw & _).
  intros [H|(i & Hi & Hp & <-)]; [by left|right]. exists i.
  assert (Hp1 : present (pde cow_copied (pd_idx v)) = true).
  { rewrite cow_copied_pde by apply (idx_range v Hv). apply Hcp. }
  unfold cow_mapped in *. rewrite <- cow_copied_pte in *.
  rewrite (write_pde cow_copied v cow_entry I1 Hv Hp1 Hw) in * by done.
  by rewrite cow_copied_pde in * by done.
Qed.
End Cow.

Lemma cow_fault m v f :
  paging_inv m -> 0 <= v < 2 ^ 32 -> cow_page m v f -> ~ table_frame m f ->
  0 < f -> used_block (pm m) f 0 -> 1 <= refcount_map (pm m) f < UINT16_MAX ->
  exists ok m', paging_handle_page_fault_cow v m = Done (ok, m') /\ paging_inv m' /\
    (ok = false /\ m' = m /\ (pmm_alloc_page (pm m)).1 = 0 \/ ok = true /\ exists q, cow_resolved m v f q m').
Proof.
  intros I Hv Hcp Hnt Hf0 Hu Hr. pose proof Hcp as (Hp & Hp2 & Hcow & Hf).
  unfold paging_handle_page_fault_cow.
  rewrite paging_align_spec by done. rewrite Z.shiftr_div_pow2 by lia.
  fold (paging_get_pt_index (4096 * (v / 4096))). rewrite pt_index_spec.
  fold (pd_idx (4096 * (v / 4096))). destruct (idx_align v) as [-> ->]. fold (pde m (pd_idx v)).
  rewrite Hp, frame_addr by apply I. cbn [negb]. fold (pte_addr m v). rewrite Hp2, Hcow. cbn [negb].
  pose proof (pmm_alloc_page_effect R (pm m) (pg_pmm _ I)) as H.
  destruct (pmm_alloc_page (pm m)) as [a p]. destruct H as [K [[-> ->]|(q & -> & Hq & Hno & U & C)]].
  { cbn [Z.eqb]. rewrite mmu_eta. exists false, m. split; [done|]. split; [done|]. by left. }
  replace (PMM_PAGE_SIZE * q =? 0) with false by (unfold PMM_PAGE_SIZE; lia).
  cbn [set_pm physmem current_pd pm]. rewrite frame_addr, Hf by apply I.
  replace (Z.shiftr (PMM_PAGE_SIZE * q) 12) with q
    by (rewrite Z.shiftr_div_pow2 by lia; symmetry; apply page_of_addr).
  change (PMM_PAGE_SIZE * q) with (4096 * q). change (mk_mmu (physmem m) (current_pd m) p) with (set_pm p m).
  change (copy_page (4096 * q) (4096 * f) (set_pm p m)) with (cow_copied m f p q).
  change (set_bit PTE_AVAIL_COW false _) with (cow_entry m v f p q).
  change (set_word (pte_addr m v) _ _) with (cow_mapped m v f p q).
  change (pm (cow_mapped m v f p q)) with p.
  assert (Hqf : q <> f) by (intros ->; by apply (Hno 0)).
  destruct (drop_reference_spec p f K Hf0) as (p' & E & K' & U' & C' & _).
  { apply U. by left. }
  { by rewrite C, decide_False. }
  rewrite C, (decide_False (P := f = q)) in U' by done. rewrite C, (decide_False (P := f = q)) in C' by done.
  unfold drop_reference in E. destruct (pmm_dec_refcount (4096 * f) p) as [[r p1]|]; [|done].
  injection E as E. rewrite E.
  destruct (cow_mapped_inv m v f p q I Hv Hcp Hnt Hu K Hq Hno U C) as [I2 T2].
  pose proof (cow_mapped_tables m v f p q I Hv Hcp Hnt Hu K Hq Hno U C) as Htab.
  assert (Hoth := cow_other_frames m f q I Hnt Hno).
  destruct (tables_kept (cow_mapped m v f p q) (set_pm p' (cow_mapped m v f p q))) as [I3 T3];
    [done|done|done|apply I2|done| |].
  { intros t Ht. pose proof (Htab t Ht) as Htm. destruct (Hoth t Htm) as [Htq Htf].
    destruct (table_frame_owned m t I Htm) as (? & ? & ?). split; [done|]. cbn [pm set_pm].
    rewrite U', C', U, C, !decide_False by done. split; [|done]. split; [by left|]. by intros (_ & ? & _). }
  exists true, (set_pm p' (cow_mapped m v f p q)). split; [done|]. split; [done|]. right. split; [done|].
  exists q.
  assert (Ht : table_frame m (frame (pde m (pd_idx v)))).
  { right. exists (pd_idx v). split; [apply (idx_range v Hv)|done]. }
  destruct (Hoth _ Ht) as [Htq Htf].
  destruct (cow_entry_spec m v f p q I Hv Hcp Hnt Hu K Hq Hno U C) as (_ & _ & _ & W1 & W2).
  assert (Hword := cow_mapped_word m v f p q I Hv Hcp Hnt Hu K Hq Hno U C).
  assert (Hpte : physmem (cow_mapped m v f p q) (pte_addr (cow_mapped m v f p q) v) = cow_entry m v f p q).
  { destruct (cow_copied_inv m v f p q I Hv Hcp Hnt Hu K Hq Hno U C) as [I1 _].
    destruct (cow_entry_spec m v f p q I Hv Hcp Hnt Hu K Hq Hno U C) as (Hw & _).
    assert (Hpd1 := cow_copied_pde m v f p q I Hv Hcp Hnt Hu K Hq Hno U C).
    unfold cow_mapped. rewrite <- (cow_copied_pte m v f p q I Hv Hcp Hnt Hu K Hq Hno U C).
    rewrite write_pte_addr; [cbn; apply upd_eq|done|done| |done|done].
    rewrite Hpd1 by apply (idx_range v Hv). done. }
  split.
  - done.
  - split; [done|]. cbn. rewrite U', C', U, C, decide_False, decide_True by done.
    split; [|done]. split; [by right|]. by intros (_ & ? & _).
  - intros v' Hv'. rewrite T3, T2 by done. done.
  - change (physmem (set_pm p' (cow_mapped m v f p q)) (pte_addr (set_pm p' (cow_mapped m v f p q)) v))
      with (physmem (cow_mapped m v f p q) (pte_addr (cow_mapped m v f p q) v)).
    by rewrite Hpte.
  - intros x Hx. cbn [physmem set_pm]. rewrite Hword by done. by rewrite decide_True.
  - intros x Hx. cbn [physmem set_pm]. rewrite Hword by done. by rewrite decide_False.
  - cbn. by rewrite C', decide_True.
  - cbn. rewrite U', U. split.
    + intros [_ Hn]. destruct (Z.eq_dec (refcount_map (pm m) f) 1); [|lia]. destruct Hn. done.
    + intros Hgt. split; [by left|]. lia.
Qed.
End Paging.
