(* ===== verification/PagingSpec.v ===== *)
(** The contract of the paging code, stated with the functions its callers use. *)

From S2P Require Import Prelude Dll Pmm PmmMeta PmmInv PmmSteps PmmAlloc PmmFree PmmProps PmmInit PmmSpec Frames Paging PagingProps.
From Stdlib Require Import ZArith Lia Bool.
From stdpp Require Import base tactics numbers list sets gmap.
Open Scope Z_scope.

(** ** A concrete address space

    A fresh page directory on the demonstration machine, with one page mapped,
    and the same page shared copy-on-write. *)

Definition demo_dir : mmu :=
  let '(pd, p) := pmm_alloc_page demo in mk_mmu (fun _ => 0) pd p.

Definition demo_map : mmu := (paging_map_page 0x500000 0x10b000 7 demo_dir).2.

Lemma fresh_dir_inv s :
  pmm_ok coalesced s -> (pmm_alloc_page s).1 <> 0 ->
  paging_inv coalesced (let '(pd, p) := pmm_alloc_page s in mk_mmu (fun _ => 0) pd p).
Proof.
  intros K Hne. pose proof (alloc_frame (frame_source := pmm_frames coalesced) s K) as H.
  destruct (pmm_alloc_page s) as [pd p]. destruct H as [K' [[-> _]|(q & -> & _ & Ho)]]; [done|].
  split; [done|cbn; lia| |done|done]. exists q. split; [done|]. apply Ho. by right.
Qed.

Lemma demo_dir_inv : paging_inv coalesced demo_dir.
Proof. apply fresh_dir_inv; [exact demo_ok|by vm_compute]. Qed.

Lemma demo_map_inv : paging_inv coalesced demo_map.
Proof.
  pose proof (map_page_spec coalesced demo_dir 0x500000 0x10b000 7 demo_dir_inv
    ltac:(lia) ltac:(lia) ltac:(by vm_compute)) as H.
  unfold demo_map. destruct (paging_map_page 0x500000 0x10b000 7 demo_dir). apply H.
Qed.

(** ** The theorems *)

(** Mapping a page maps that page and no other one.  When
    [paging_map_page virt phys flags] succeeds, the addresses of the page of
    [virt] translate to the page of [phys]; all other addresses translate as
    before.  It fails only when no frame is left for a page table, and then
    changes nothing.  This holds whether or not a new page
    table had to be allocated, and the tables stay distinct frames owned by the
    paging code. *)
Theorem paging_map_page_correct R `{!block_stable R} m virt phys flags :
  paging_inv R m -> is_u32 virt -> is_u32 phys -> Z.land flags PAGE_PRESENT <> 0 ->
  let '(ok, m') := paging_map_page virt phys flags m in
  paging_inv R m' /\ (ok = false -> m' = m /\ (pmm_alloc_page (pm m)).1 = 0) /\
  forall v, is_u32 v ->
    paging_get_physical_address v m' =
      (if ok && bool_decide (v / PAGE_SIZE = virt / PAGE_SIZE)
       then PAGE_SIZE * (phys / PAGE_SIZE) + v mod PAGE_SIZE
       else paging_get_physical_address v m) /\
    paging_is_mapped v m' =
      (ok && bool_decide (v / PAGE_SIZE = virt / PAGE_SIZE) || paging_is_mapped v m).
Proof.
  intros I Hv Hph Hfl. pose proof (map_page_spec R m virt phys flags I Hv Hph Hfl) as H.
  destruct (paging_map_page virt phys flags m) as [ok m']. destruct H as (I' & _ & F & T).
  split; [done|]. split; [done|]. intros v Hv'. unfold PAGE_SIZE.
  rewrite (get_physical_translate R m' v I' Hv'), (is_mapped_spec R m' v I' Hv').
  rewrite (get_physical_translate R m v I Hv'), (is_mapped_spec R m v I Hv'), T by done.
  by destruct (ok && bool_decide _).
Qed.

Lemma paging_map_page_correct_witness :
  paging_get_physical_address 0x500123 demo_map = 0x10b123 /\
  paging_get_physical_address 0x501123 demo_map = paging_get_physical_address 0x501123 demo_dir.
Proof.
  pose proof (paging_map_page_correct coalesced demo_dir 0x500000 0x10b000 7 demo_dir_inv
    ltac:(by vm_compute) ltac:(by vm_compute) ltac:(by vm_compute)) as H.
  unfold demo_map.
  assert (E : (paging_map_page 0x500000 0x10b000 7 demo_dir).1 = true) by (by vm_compute).
  destruct (paging_map_page 0x500000 0x10b000 7 demo_dir) as [ok m']. cbn [fst snd] in *. subst ok.
  destruct H as (_ & _ & H).
  destruct (H 0x500123 ltac:(unfold is_u32; lia)) as [H1 _].
  destruct (H 0x501123 ltac:(unfold is_u32; lia)) as [H2 _].
  split; [rewrite H1; vm_compute; reflexivity|].
  rewrite H2. replace (bool_decide _) with false by (vm_compute; reflexivity). reflexivity.
Defined.

(** Unmapping a page unmaps exactly that page, and keeps the page tables and
    the physical memory manager as they are. *)
Theorem paging_unmap_page_correct R `{!block_stable R} m virt :
  paging_inv R m -> is_u32 virt ->
  let m' := paging_unmap_page virt m in
  paging_inv R m' /\ pm m' = pm m /\
  forall v, is_u32 v ->
    paging_get_physical_address v m' =
      (if decide (v / PAGE_SIZE = virt / PAGE_SIZE) then 0 else paging_get_physical_address v m) /\
    paging_is_mapped v m' =
      (negb (bool_decide (v / PAGE_SIZE = virt / PAGE_SIZE)) && paging_is_mapped v m).
Proof.
  intros I Hv. destruct (unmap_page_spec R m virt I Hv) as (I' & P & _ & T).
  cbv zeta. split; [done|]. split; [done|]. intros v Hv'. unfold PAGE_SIZE.
  rewrite (get_physical_translate R _ v I' Hv'), (is_mapped_spec R _ v I' Hv').
  rewrite (get_physical_translate R m v I Hv'), (is_mapped_spec R m v I Hv'), T by done.
  destruct (decide (v / 4096 = virt / 4096)) as [E|E].
  - by rewrite (bool_decide_eq_true_2 (v / 4096 = virt / 4096)).
  - by rewrite (bool_decide_eq_false_2 (v / 4096 = virt / 4096)).
Qed.

Lemma paging_unmap_page_correct_witness :
  paging_is_mapped 0x500123 demo_map = true /\
  paging_is_mapped 0x500123 (paging_unmap_page 0x500fff demo_map) = false.
Proof.
  split; [by vm_compute|].
  pose proof (paging_unmap_page_correct coalesced demo_map 0x500fff demo_map_inv ltac:(by vm_compute)) as H.
  cbv zeta in H. destruct H as (_ & _ & H). destruct (H 0x500123 ltac:(unfold is_u32; lia)) as [_ H1].
  rewrite H1. vm_compute. reflexivity.
Defined.

(** A frame that is neither the directory nor a page table, as a computation. *)
Definition not_tableb (m : mmu) (t : Z) : bool :=
  negb (current_pd m =? 4096 * t) &&
  forallb (fun i => negb (present (pde m i) && (frame (pde m i) =? t))) (seqZ 0 1024).

Lemma not_tableb_sound m t : not_tableb m t = true -> ~ table_frame m t.
Proof.
  intros H. apply andb_true_iff in H as [H1 H2]. rewrite forallb_forall in H2.
  intros [E|(i & Hi & Hp & E)]; [zbool; done|].
  specialize (H2 i ltac:(apply list_elem_of_In, elem_of_seqZ; lia)).
  rewrite Hp, E, Z.eqb_refl in H2. done.
Qed.

(** The frame allocated for the page, the page mapped to it, the entry marked
    copy-on-write and a second reference taken. *)
Definition cow_frame : Z := (pmm_alloc_page (pm demo_dir)).1 / 4096.
Definition cow_demo1 : mmu := set_pm (pmm_alloc_page (pm demo_dir)).2 demo_dir.
Definition cow_demo2 : mmu := (paging_map_page 0x500000 (4096 * cow_frame) 5 cow_demo1).2.
Definition cow_demo3 : mmu :=
  let a := pte_addr cow_demo2 0x500000 in
  set_word a (set_bit PTE_AVAIL_COW true (physmem cow_demo2 a)) cow_demo2.
Definition cow_demo : mmu :=
  match pmm_inc_refcount (4096 * cow_frame) (pm cow_demo3) with
  | Done (_, p) => set_pm p cow_demo3
  | Panic => cow_demo3
  end.

Lemma cow_demo3_inv : paging_inv coalesced cow_demo3.
Proof.
  assert (I1 : paging_inv coalesced cow_demo1).
  { apply (alloc_keeps_inv coalesced). exact demo_dir_inv. }
  assert (I2 : paging_inv coalesced cow_demo2).
  { pose proof (map_page_spec coalesced cow_demo1 0x500000 (4096 * cow_frame) 5 I1
      ltac:(lia) ltac:(by vm_compute) ltac:(by vm_compute)) as H.
    unfold cow_demo2. destruct (paging_map_page 0x500000 _ 5 cow_demo1). apply H. }
  unfold cow_demo3. apply (write_inv coalesced); [exact I2|lia|by vm_compute|].
  apply set_bit_word; [unfold PTE_AVAIL_COW; lia|exact (pg_words _ _ I2 _)].
Qed.

Lemma cow_demo_inv : paging_inv coalesced cow_demo.
Proof.
  assert (Hnt : ~ table_frame cow_demo3 cow_frame) by (apply not_tableb_sound; by vm_compute).
  assert (Hal : 0 <= 4096 * cow_frame < 2 ^ 32) by (by vm_compute).
  unfold cow_demo. destruct (pmm_inc_refcount (4096 * cow_frame) (pm cow_demo3)) as [[r p]|] eqn:E;
    [|exact cow_demo3_inv].
  exact (inc_keeps_inv coalesced cow_demo3 cow_frame r p cow_demo3_inv Hnt Hal E).
Qed.

(** C11: a copy-on-write fault gives the process a private copy.  If the page of
    the faulting address is mapped copy-on-write to the frame [f], the handler
    either reports failure and changes nothing, because no frame is free, or maps
    the page, writable and no longer copy-on-write, to a frame that no block had,
    with the contents of [f]; all other pages translate as before, the shared
    frame keeps its contents and loses one reference, and is released exactly
    when that was the last one. *)
Theorem cow_fault_private_copy R `{!block_stable R} m v f :
  paging_inv R m -> is_u32 v -> cow_page m v f -> ~ table_frame m f ->
  0 < f -> used_block (pm m) f 0 -> 1 <= refcount_map (pm m) f < UINT16_MAX ->
  exists ok m', paging_handle_page_fault_cow v m = Done (ok, m') /\ paging_inv R m' /\
    (ok = false /\ m' = m /\ (pmm_alloc_page (pm m)).1 = 0 \/ ok = true /\ exists q, cow_resolved m v f q m').
Proof. intros. by apply (cow_fault R). Qed.

Lemma cow_fault_private_copy_witness :
  exists m', paging_handle_page_fault_cow 0x500abc cow_demo = Done (true, m') /\
    refcount_map (pm cow_demo) cow_frame = 2 /\ refcount_map (pm m') cow_frame = 1.
Proof.
  assert (Hnt : ~ table_frame cow_demo cow_frame) by (apply not_tableb_sound; by_vm).
  assert (Hcp : cow_page cow_demo 0x500abc cow_frame) by (by_vm).
  assert (Hf0 : 0 < cow_frame) by (by_vm).
  assert (Hu : used_block (pm cow_demo) cow_frame 0) by (by_vm).
  assert (Hr : 1 <= refcount_map (pm cow_demo) cow_frame < UINT16_MAX) by (by_vm).
  assert (Hr2 : refcount_map (pm cow_demo) cow_frame = 2) by (by_vm).
  assert (Hok : match paging_handle_page_fault_cow 0x500abc cow_demo with
    | Done (ok, _) => ok | Panic => false end = true) by (by_vm).
  assert (Hv : is_u32 0x500abc) by (unfold is_u32; lia).
  destruct (cow_fault_private_copy coalesced cow_demo 0x500abc cow_frame cow_demo_inv Hv Hcp Hnt Hf0 Hu Hr)
    as (ok & m' & E & _ & H).
  rewrite E in Hok. destruct H as [[-> _]|[-> (q & H)]]; [discriminate Hok|].
  exists m'. split; [exact E|]. split; [exact Hr2|].
  rewrite (cr_refcount _ _ _ _ _ H), Hr2. reflexivity.
Defined.
