(* ===== verification/Fork.v ===== *)
(** Address spaces: a model of the part of [src/kernel/arch/i386/paging/paging.c]
    that copies the address space of a process for [fork] and gives it back on
    exit.  The stack is copied page by page; all other user pages are shared
    copy-on-write; kernel page tables are shared.

    The clean-up loops that run right before [abort()] are left out: an aborted
    kernel does not return. *)

From S2P Require Import Prelude Dll Pmm PmmMeta PmmInv PmmSteps PmmAlloc PmmFree PmmProps PmmInit PmmSpec Frames Paging PagingProps.
From Stdlib Require Import ZArith Lia Bool.
From stdpp Require Import base tactics numbers list sets gmap.
Open Scope Z_scope.

Definition PAGE_TABLE_SIZE : Z := 1024.

(** ** Cloning a page table *)

Definition is_stack_page (user_stack_base user_stack_size virt : Z) : bool :=
  let stack_start := user_stack_base in
  let stack_end := u32 (user_stack_base + user_stack_size) in
  (0 <? user_stack_size) && (stack_start <=? virt) && (virt <? stack_end).

(** The entry of a stack page: present, writable, for user mode. *)
Definition stack_entry (f w : Z) : Z :=
  let w := set_bit PTE_PRESENT true w in
  let w := set_bit PTE_RW true w in
  let w := set_bit PTE_USER true w in
  set_frame f w.

(** Read-only and copy-on-write. *)
Definition cow_mark (w : Z) : Z := set_bit PTE_AVAIL_COW true (set_bit PTE_RW false w).

(** The body of the loop over the entries. *)
Definition clone_entry (src_pt dst_pt pt_virt_base user_stack_base user_stack_size i : Z)
    (m : mmu) : outcome mmu :=
  let src_pte := entry_addr src_pt i in
  let dst_pte := entry_addr dst_pt i in
  let virt := u32 (pt_virt_base + i * PAGE_SIZE) in
  if is_stack_page user_stack_base user_stack_size virt then
    let '(new_phys, p) := pmm_alloc_page (pm m) in
    let m := set_pm p m in
    if new_phys =? 0 then Panic else
    let w := physmem m src_pte in
    let m := if present w then copy_page new_phys (u32 (Z.shiftl (frame w) 12)) m
             else clear_page new_phys m in
    Done (set_word dst_pte (stack_entry (Z.shiftr new_phys 12) (physmem m dst_pte)) m)
  else if present (physmem m src_pte) then
    let phys := u32 (Z.shiftl (frame (physmem m src_pte)) 12) in
    match pmm_inc_refcount phys (pm m) with
    | Panic => Panic
    | Done (refcount, p) =>
        let m := set_pm p m in
        if refcount =? 0 then Panic else
        let m := set_word dst_pte (physmem m src_pte) m in
        let m := set_word src_pte (cow_mark (physmem m src_pte)) m in
        Done (set_word dst_pte (cow_mark (physmem m dst_pte)) m)
    end
  else Done m.

Definition paging_clone_page_table (src_pt pd_index user_stack_base user_stack_size : Z)
    (m : mmu) : outcome (Z * mmu) :=
  if src_pt =? 0 then Done (0, m) else
  let '(dst_pt_phys, p) := pmm_alloc_page (pm m) in
  let m := set_pm p m in
  if dst_pt_phys =? 0 then Panic else
  let m := clear_page dst_pt_phys m in
  let pt_virt_base := u32 (pd_index * (1024 * PAGE_SIZE)) in
  match for_outcome (Z.to_nat PAGE_TABLE_SIZE) 0
    (clone_entry src_pt dst_pt_phys pt_virt_base user_stack_base user_stack_size) m with
  | Panic => Panic
  | Done m => Done (dst_pt_phys, m)
  end.

(** ** A page table for the stack only *)

(** The body of the loop; the flag is set once a page could not be allocated and
    the function has returned. *)
Definition stack_table_entry (pt pt_virt_base user_stack_base stack_end i : Z)
    (fm : bool * mmu) : bool * mmu :=
  let '(failed, m) := fm in
  if failed then (true, m) else
  let virt := u32 (pt_virt_base + i * PAGE_SIZE) in
  if (user_stack_base <=? virt) && (virt <? stack_end) then
    let '(phys, p) := pmm_alloc_page (pm m) in
    let m := set_pm p m in
    if phys =? 0 then (true, set_pm (pmm_free_page pt (pm m)) m) else
    let m := clear_page phys m in
    let pte := entry_addr pt i in
    (false, set_word pte (stack_entry (Z.shiftr phys 12) (physmem m pte)) m)
  else (false, m).

Definition paging_create_stack_page_table (pd_index user_stack_base user_stack_size : Z)
    (m : mmu) : Z * mmu :=
  let '(pt_phys, p) := pmm_alloc_page (pm m) in
  let m := set_pm p m in
  if pt_phys =? 0 then (0, m) else
  let m := clear_page pt_phys m in
  let pt_virt_base := u32 (pd_index * 1024 * PAGE_SIZE) in
  let stack_end := u32 (user_stack_base + user_stack_size) in
  let '(failed, m) := for_loop PAGE_TABLE_SIZE
    (stack_table_entry pt_phys pt_virt_base user_stack_base stack_end) (false, m) in
  (if failed then 0 else pt_phys, m).

(** ** Cloning a directory *)

(** The present entries [first <= i < last] of [src] are copied to [dst]. *)
Definition copy_entries (src dst first last : Z) (m : mmu) : mmu :=
  for_loop (last - first) (fun k m =>
    let i := first + k in
    let w := physmem m (entry_addr src i) in
    if present w then set_word (entry_addr dst i) w m else m) m.

(** The body of the loop over the directory entries of the user space. *)
Definition clone_user_entry (src dst user_stack_base user_stack_size pd_idx : Z)
    (m : mmu) : outcome mmu :=
  let src_pde := entry_addr src pd_idx in
  let dst_pde := entry_addr dst pd_idx in
  let pd_virt_start := u32 (pd_idx * (1024 * PAGE_SIZE)) in
  let pd_virt_end := u32 (pd_virt_start + 1024 * PAGE_SIZE) in
  let contains_stack := (0 <? user_stack_size)
    && (pd_virt_start <=? user_stack_base) && (user_stack_base <? pd_virt_end) in
  if negb (present (physmem m src_pde)) then
    if contains_stack then
      let '(stack_pt, m) :=
        paging_create_stack_page_table pd_idx user_stack_base user_stack_size m in
      if stack_pt =? 0 then Panic else
      Done (set_word dst_pde (stack_entry (Z.shiftr stack_pt 12) (physmem m dst_pde)) m)
    else Done m
  else
    let src_pt := u32 (Z.shiftl (frame (physmem m src_pde)) 12) in
    match paging_clone_page_table src_pt pd_idx user_stack_base user_stack_size m with
    | Panic => Panic
    | Done (dst_pt, m) =>
        if dst_pt =? 0 then Panic else
        let m := set_word dst_pde (physmem m src_pde) m in
        Done (set_word dst_pde (set_frame (Z.shiftr dst_pt 12) (physmem m dst_pde)) m)
    end.

Definition paging_clone_directory (src : Z) (usermode : bool)
    (user_stack_base user_stack_size : Z) (m : mmu) : outcome (Z * mmu) :=
  if src =? 0 then Panic else
  let '(dst, m) := paging_create_directory m in
  if dst =? 0 then Panic else
  let m := set_word (entry_addr dst 0) (physmem m (entry_addr src 0)) m in
  let m := copy_entries src dst (paging_get_pd_index PHYS_MAP_BASE)
             (paging_get_pd_index 0xFFFFFFFF + 1) m in
  let m := copy_entries src dst (paging_get_pd_index VMM_KERNEL_HEAP)
             (paging_get_pd_index VMM_KERNEL_END) m in
  if usermode then
    let user_start_pd := paging_get_pd_index VMM_USER_START in
    let user_end_pd := paging_get_pd_index VMM_USER_END in
    match for_outcome (Z.to_nat (user_end_pd - user_start_pd)) user_start_pd
      (clone_user_entry src dst user_stack_base user_stack_size) m with
    | Panic => Panic
    | Done m => Done (dst, m)
    end
  else Done (dst, m).

(** ** Giving the user pages back *)

Definition free_entry (pt pt_idx : Z) (m : mmu) : outcome mmu :=
  let w := physmem m (entry_addr pt pt_idx) in
  if negb (present w) then Done m else
  let is_cow := Z.testbit w PTE_AVAIL_COW in
  let phys := u32 (Z.shiftl (frame w) 12) in
  if is_cow then
    match pmm_dec_refcount phys (pm m) with
    | Panic => Panic
    | Done (new_refcount, p) =>
        Done (set_pm (if new_refcount =? 0 then pmm_free_page phys p else p) m)
    end
  else Done (set_pm (pmm_free_page phys (pm m)) m).

Definition free_table (pd pd_idx : Z) (m : mmu) : outcome mmu :=
  let w := physmem m (entry_addr pd pd_idx) in
  if negb (present w) then Done m else
  let pt_phys := u32 (Z.shiftl (frame w) 12) in
  match for_outcome (Z.to_nat PAGE_TABLE_SIZE) 0 (free_entry pt_phys) m with
  | Panic => Panic
  | Done m => Done (set_pm (pmm_free_page pt_phys (pm m)) m)
  end.

Definition paging_free_user_pages (pd : Z) (m : mmu) : outcome mmu :=
  if pd =? 0 then Done m else
  let user_start_pd := paging_get_pd_index VMM_USER_START in
  let user_end_pd := paging_get_pd_index VMM_USER_END in
  for_outcome (Z.to_nat (user_end_pd - user_start_pd)) user_start_pd (free_table pd) m.

(** ** Faults on a write

    [custom_handler] is the handler registered with [page_fault_register_handler],
    if any; the statistics are left out. *)
Definition page_fault_try_recover (custom_handler : option (mmu -> bool * mmu))
    (faulting_address : Z) (present write_access : bool) (m : mmu) : outcome (bool * mmu) :=
  match (if present && write_access then paging_handle_page_fault_cow faulting_address m
         else Done (false, m)) with
  | Panic => Panic
  | Done (true, m) => Done (true, m)
  | Done (false, m) =>
      match custom_handler with
      | Some handler => Done (handler m)
      | None => Done (false, m)
      end
  end.

Definition paging_switch_directory (page_dir_addr : Z) (m : mmu) : mmu :=
  if page_dir_addr =? 0 then m else mk_mmu (physmem m) page_dir_addr (pm m).

(** A store of [x] to the address [v] of the current user space.  Write protection
    is on in kernel mode as well ([paging_asm.s] sets the WP bit): a store to a
    page that is not writable faults, and is repeated when the fault handler
    reports success.  No handler of its own is registered by the kernel.  [false]
    is a fault that is not resolved. *)
Definition cpu_store (v x : Z) (m : mmu) : outcome (bool * mmu) :=
  match translate m v with
  | None => Done (false, m)
  | Some a =>
      if Z.testbit (physmem m (pte_addr m v)) PTE_RW then Done (true, set_word a x m) else
      match page_fault_try_recover None v true true m with
      | Panic => Panic
      | Done (recovered, m) =>
          match translate m v with
          | Some a => if recovered then Done (true, set_word a x m) else Done (false, m)
          | None => Done (false, m)
          end
      end
  end.
