(* ===== verification/ForkSpec.v ===== *)
(** Cloning an address space: what each step does to the memory, the frames in
    use and their reference counts.

    An [effect] bounds what a step may change: only frames of [T] change their
    contents, only frames of [S] their reference count, and frames that were free
    may now be in use with one reference.  Effects compose; the facts about the
    entries that have been cloned ([slot], [table_copied]) survive every later
    effect that spares their frames. *)

From S2P Require Import Prelude Dll Pmm PmmMeta PmmInv PmmSteps PmmAlloc PmmFree PmmProps PmmInit PmmSpec Frames Paging PagingProps PagingSpec Fork.
From Stdlib Require Import ZArith Lia Bool.
From stdpp Require Import base tactics numbers list sets gmap.
Open Scope Z_scope.

(** ** Words and entries by frame *)

Definition word (m : mmu) (f x : Z) : Z := physmem m (4096 * f + x).
Definition ent (m : mmu) (t i : Z) : Z := word m t (4 * i).

Lemma ent_addr m t i : physmem m (entry_addr (4096 * t) i) = ent m t i.
Proof. done. Qed.

Lemma word_set_word m f x v g y :
  0 <= x < 4096 -> 0 <= y < 4096 ->
  word (set_word (4096 * f + x) v m) g y = if decide (g = f /\ y = x) then v else word m g y.
Proof.
  intros Hx Hy. unfold word. cbn [physmem set_word]. rewrite upd_cases.
  destruct (decide (g = f /\ y = x)) as [[-> ->]|Hn].
  - by rewrite decide_True.
  - rewrite decide_False; [done|]. intros E. apply Hn. lia.
Qed.

Lemma ent_set_word m t i v t' i' :
  0 <= i < 1024 -> 0 <= i' < 1024 ->
  ent (set_word (entry_addr (4096 * t) i) v m) t' i' =
  if decide (t' = t /\ i' = i) then v else ent m t' i'.
Proof.
  intros Hi Hi'. unfold ent, entry_addr. rewrite word_set_word by lia.
  destruct (decide (t' = t /\ i' = i)) as [[-> ->]|Hn]; [by rewrite decide_True|].
  rewrite decide_False; [done|]. intros [-> E]. apply Hn. split; [done|lia].
Qed.

Lemma word_set_pm p m f x : word (set_pm p m) f x = word m f x.
Proof. done. Qed.

Lemma word_clear m f g x :
  0 <= x < 4096 -> word (clear_page (4096 * f) m) g x = if decide (g = f) then 0 else word m g x.
Proof.
  intros Hx. unfold word, clear_page, PAGE_SIZE. cbn [physmem]. case_decide; zbool; (done || lia).
Qed.

Lemma word_copy m f s g x :
  0 <= x < 4096 ->
  word (copy_page (4096 * f) (4096 * s) m) g x = if decide (g = f) then word m s x else word m g x.
Proof.
  intros Hx. unfold word, copy_page, PAGE_SIZE. cbn [physmem]. case_decide; zbool; try (done || lia).
  f_equal. lia.
Qed.

(** ** The two kinds of entries *)

Lemma stack_entry_spec f :
  0 <= f < 2 ^ 20 ->
  0 <= stack_entry f 0 < 2 ^ 32 /\ frame (stack_entry f 0) = f /\ present (stack_entry f 0) = true /\
  Z.testbit (stack_entry f 0) PTE_RW = true /\ Z.testbit (stack_entry f 0) PTE_AVAIL_COW = false.
Proof.
  intros Hf. unfold stack_entry. split; [|split; [apply frame_set_frame|]].
  - apply set_frame_word; [done|]. unfold PTE_PRESENT, PTE_RW, PTE_USER.
    repeat (apply set_bit_word; [lia|]). lia.
  - unfold present. rewrite !set_frame_bits by (by vm_compute). by vm_compute.
Qed.

Lemma cow_mark_spec w :
  0 <= w < 2 ^ 32 ->
  0 <= cow_mark w < 2 ^ 32 /\ frame (cow_mark w) = frame w /\ present (cow_mark w) = present w /\
  Z.testbit (cow_mark w) PTE_RW = false /\ Z.testbit (cow_mark w) PTE_AVAIL_COW = true.
Proof.
  intros Hw. unfold cow_mark, present, PTE_AVAIL_COW, PTE_RW, PTE_PRESENT.
  split; [repeat (apply set_bit_word; [lia|]); done|].
  split; [by rewrite !frame_set_bit by lia|]. by rewrite !set_bit_spec by lia.
Qed.

(** No frame at all. *)
Definition none (f : Z) : Prop := False.

Lemma not_none f : ~ none f.
Proof. by intros H. Qed.
#[export] Hint Resolve not_none : core.

(** Side conditions of [effect_trans] on explicit sets of frames. *)
Ltac ef := unfold none; intros; intuition congruence.

Section Fork.
Context (R : (Z -> list Z) -> Prop) `{!block_stable R}.

(** ** Effects *)

Definition used (m : mmu) (f : Z) : Prop := used_block (pm m) f 0.
Definition rc (m : mmu) (f : Z) : Z := refcount_map (pm m) f.
Definition free_frame (m : mmu) (f : Z) : Prop := 0 < f /\ forall k, ~ used_block (pm m) f k.

Record good (m : mmu) : Prop := {
  good_pmm : pmm_ok R (pm m);
  good_words a : 0 <= physmem m a < 2 ^ 32 }.

Record effect (T S : Z -> Prop) (m m' : mmu) : Prop := {
  ef_good : good m';
  ef_pd : current_pd m' = current_pd m;
  ef_used f k : used_block (pm m) f k -> used_block (pm m') f k;
  ef_new f k : used_block (pm m') f k ->
    used_block (pm m) f k \/ (k = 0 /\ free_frame m f /\ rc m' f = 1);
  ef_word f x : used m f -> ~ T f -> 0 <= x < 4096 -> word m' f x = word m f x;
  ef_rc f : used m f -> ~ S f -> rc m' f = rc m f }.

Lemma used_pos m f : good m -> 0 < f -> used m f -> 0 < f < 2 ^ 20.
Proof.
  intros G Hf Hu. destruct (ok_inv _ _ (good_pmm _ G)) as (F & I & _).
  destruct (bi_page_range _ _ _ I f 0 (or_introl Hu)) as [_ ?]. lia.
Qed.

Lemma fresh_not_used m f f' : free_frame m f -> used m f' -> f' <> f.
Proof. intros [_ Hf] Hu ->. by apply (Hf 0). Qed.

Lemma fresh_used m f : free_frame m f -> used m f -> False.
Proof. intros Hf Hu. by apply (fresh_not_used m f f). Qed.

Lemma effect_refl T S m : good m -> effect T S m m.
Proof. intros G. split; try done. intros f k H. by left. Qed.

Lemma effect_fresh T S m m' f : effect T S m m' -> free_frame m' f -> free_frame m f.
Proof. intros E [H0 Hf]. split; [done|]. intros k Hu. by apply (Hf k), (ef_used _ _ _ _ E). Qed.

Lemma effect_trans T S T' S' T'' S'' m m' m'' :
  effect T S m m' -> effect T' S' m' m'' ->
  (forall f, used m f -> T f \/ T' f -> T'' f) ->
  (forall f, used m f -> S f \/ S' f -> S'' f) ->
  (forall f, S' f -> used m f) ->
  effect T'' S'' m m''.
Proof.
  intros E E' HT HS HS'. split.
  - apply E'.
  - rewrite (ef_pd _ _ _ _ E'). apply E.
  - intros f k H. by apply (ef_used _ _ _ _ E'), (ef_used _ _ _ _ E).
  - intros f k H. destruct (ef_new _ _ _ _ E' f k H) as [H1|(-> & Hf & Hr)].
    + destruct (ef_new _ _ _ _ E f k H1) as [?|(-> & Hf & Hr)]; [by left|right].
      split; [done|]. split; [done|]. rewrite (ef_rc _ _ _ _ E'); [done|done|].
      intros Hs. by apply (fresh_not_used m f f Hf (HS' f Hs)).
    + right. split; [done|]. split; [by apply (effect_fresh _ _ _ _ _ E)|done].
  - intros f x Hu Hn Hx. rewrite (ef_word _ _ _ _ E'); [apply E|..]; try done.
    + contradict Hn. apply HT; [done|by left].
    + by apply (ef_used _ _ _ _ E).
    + contradict Hn. apply HT; [done|by right].
  - intros f Hu Hn. rewrite (ef_rc _ _ _ _ E'); [apply E|..]; try done.
    + contradict Hn. apply HS; [done|by left].
    + by apply (ef_used _ _ _ _ E).
    + contradict Hn. apply HS; [done|by right].
Qed.

(** *** The effects of the primitive steps *)

Lemma effect_memory T m m' :
  good m -> current_pd m' = current_pd m -> pm m' = pm m ->
  (forall a, 0 <= physmem m' a < 2 ^ 32) ->
  (forall f x, used m f -> ~ T f -> 0 <= x < 4096 -> word m' f x = word m f x) ->
  effect T none m m'.
Proof.
  intros G Hc Hp Hw Hm. split; try done.
  - split; [rewrite Hp; apply G|done].
  - by rewrite Hp.
  - rewrite Hp. by left.
  - unfold rc. by rewrite Hp.
Qed.

Lemma effect_write m f x v :
  good m -> 0 <= x < 4096 -> 0 <= v < 2 ^ 32 ->
  effect (eq f) none m (set_word (4096 * f + x) v m).
Proof.
  intros G Hx Hv. apply effect_memory; try done.
  - intros a. cbn. rewrite upd_cases. case_decide; [done|apply G].
  - intros g y _ Hn Hy. rewrite word_set_word by done. rewrite decide_False; [done|]. intros [-> _]. by apply Hn.
Qed.

Lemma effect_write_entry m t i v :
  good m -> 0 <= i < 1024 -> 0 <= v < 2 ^ 32 ->
  effect (eq t) none m (set_word (entry_addr (4096 * t) i) v m).
Proof. intros G Hi Hv. apply effect_write; [done|lia|done]. Qed.

Lemma effect_clear m f : good m -> effect (eq f) none m (clear_page (4096 * f) m).
Proof.
  intros G. apply effect_memory; try done.
  - intros a. apply clear_page_words, G.
  - intros g y _ Hn Hy. rewrite word_clear by done. by rewrite decide_False by congruence.
Qed.

Lemma effect_copy m f s : good m -> effect (eq f) none m (copy_page (4096 * f) (4096 * s) m).
Proof.
  intros G. apply effect_memory; try done.
  - intros a. unfold copy_page. cbn [physmem]. destruct (_ && _); apply G.
  - intros g y _ Hn Hy. rewrite word_copy by done. by rewrite decide_False by congruence.
Qed.

(** Taking a frame. *)
Lemma effect_alloc m :
  good m ->
  let '(a, p) := pmm_alloc_page (pm m) in
  (a = 0 /\ free_pages (pm m) = 0) \/
  exists q, a = 4096 * q /\ 0 < q < 2 ^ 20 /\ free_frame m q /\ used (set_pm p m) q /\
    rc (set_pm p m) q = 1 /\ effect none none m (set_pm p m) /\
    (forall f k, used_block p f k -> used_block (pm m) f k \/ (k = 0 /\ f = q)) /\
    free_pages p = free_pages (pm m) - 1.
Proof.
  intros G. pose proof (pmm_alloc_page_effect R (pm m) (good_pmm _ G)) as H.
  pose proof (alloc_page_free R (pm m) (good_pmm _ G)) as Hfp.
  destruct (pmm_alloc_page (pm m)) as [a p].
  destruct H as [K [[-> _]|(q & -> & Hq & Hno & U & C)]]; [left; lia|right].
  assert (free_pages p = free_pages (pm m) - 1) as Hfp' by (unfold PMM_PAGE_SIZE in Hfp; lia). clear Hfp.
  assert (G' : good (set_pm p m)) by (split; [done|apply G]).
  assert (Hu : used (set_pm p m) q) by (unfold used; cbn; rewrite U; by right).
  assert (Hr : rc (set_pm p m) q = 1) by (unfold rc; cbn; by rewrite C, decide_True).
  exists q. split; [done|]. split; [by apply (used_pos _ _ G')|].
  split; [done|]. split; [done|]. split; [done|].
  split; [|split; [intros f k; rewrite U; tauto|done]]. split; try done.
  - intros f k Hf. cbn. rewrite U. by left.
  - intros f k Hf. cbn in Hf. rewrite U in Hf. destruct Hf as [?|[-> ->]]; [by left|by right].
  - intros f Hf _. unfold rc. cbn. rewrite C. rewrite decide_False; [done|]. intros ->. by apply (Hno 0).
Qed.

(** Taking a reference. *)
Lemma effect_inc m f :
  good m -> used m f -> rc m f < UINT16_MAX ->
  exists p, pmm_inc_refcount (4096 * f) (pm m) = Done (rc m f + 1, p) /\
    effect none (eq f) m (set_pm p m) /\ rc (set_pm p m) f = rc m f + 1 /\
    (forall g k, used_block p g k -> used_block (pm m) g k) /\ free_pages p = free_pages (pm m).
Proof.
  intros G Hu Hr. unfold pmm_inc_refcount. unfold rc in *.
  assert (Hal : pmm_is_aligned (4096 * f) = true)
    by (apply aligned_addr; unfold PMM_PAGE_SIZE; dlia).
  rewrite Hal. cbn [negb]. change (4096 * f) with (PMM_PAGE_SIZE * f).
  unfold pmm_addr_to_page. rewrite page_of_addr. pose proof Hu as ((H0 & Ht) & -> & _). cbn [negb].
  unfold buddy_inc_refcount. replace (total_pages (pm m) <=? f) with false by lia.
  replace (refcount_map (pm m) f =? UINT16_MAX) with false by lia. unfold UINT16_MAX in Hr.
  pose proof (ok_refcount _ _ (good_pmm _ G) f (conj H0 Ht)).
  rewrite u16_small by lia. eexists. split; [done|].
  split; [|split; [unfold rc; cbn; by rewrite upd_eq|done]].
  split; try done.
  - split; [|apply G]. apply (upd_refcount_ok R); [unfold UINT16_MAX; lia|apply G].
  - intros g k Hg. by left.
  - intros g _ Hn. unfold rc. cbn. rewrite upd_ne; [done|]. done.
Qed.

(** ** Counting the frames a clone takes *)

(** Exactly [n] pages have been taken since [m0]. *)
Definition spent (n : Z) (m0 m : mmu) : Prop := free_pages (pm m) = free_pages (pm m0) - n.

(** There are fewer than [n] free pages. *)
Definition short_of (n : Z) (m : mmu) : Prop := free_pages (pm m) < n.

Definition count_upto (n : Z) (p : Z -> bool) : Z := count_below (Z.to_nat n) p.

Lemma count_upto_step n p : 0 <= n -> count_upto (n + 1) p = count_upto n p + (if p n then 1 else 0).
Proof.
  intros Hn. unfold count_upto. replace (Z.to_nat (n + 1)) with (S (Z.to_nat n)) by lia.
  cbn [count_below]. by rewrite Z2Nat.id.
Qed.

Lemma count_upto_mono n n' p : 0 <= n <= n' -> count_upto n p <= count_upto n' p.
Proof.
  intros Hn. replace n' with (n + Z.of_nat (Z.to_nat (n' - n))) by lia.
  induction (Z.to_nat (n' - n)) as [|k IH]; [rewrite Z.add_0_r; lia|].
  replace (n + Z.of_nat (S k)) with (n + Z.of_nat k + 1) by lia.
  rewrite count_upto_step by lia. destruct (p _); lia.
Qed.

(** ** One entry *)

(** Entry [j] of the new table [q] is the clone of the entry [w]: a private copy
    for a stack page, a shared read-only page otherwise. *)
Definition slot (m0 m : mmu) (q : Z) (stk : bool) (j w : Z) : Prop :=
  if stk then
    exists g, 0 < g < 2 ^ 20 /\ free_frame m0 g /\ used m g /\ rc m g = 1 /\ ent m q j = stack_entry g 0 /\
      forall x, 0 <= x < 4096 -> word m g x = if present w then word m0 (frame w) x else 0
  else if present w then rc m (frame w) = rc m0 (frame w) + 1 /\ ent m q j = cow_mark w
  else ent m q j = 0.

(** What is left in the source entry. *)
Definition source_after (stk : bool) (w : Z) : Z :=
  if stk then w else if present w then cow_mark w else w.

(** The frame of a source entry can be shared or copied. *)
Definition sharable (m : mmu) (w : Z) : Prop :=
  present w = true -> used m (frame w) /\ rc m (frame w) < UINT16_MAX.

Definition shared (stk : bool) (w f : Z) : Prop := stk = false /\ present w = true /\ f = frame w.

Lemma slot_stable T S m0 m m' q stk j w :
  slot m0 m q stk j w -> effect T S m m' -> ent m' q j = ent m q j ->
  (forall f, T f -> used m0 f) -> (forall f, S f -> used m0 f) ->
  (forall f, shared stk w f -> used m f /\ ~ S f) ->
  slot m0 m' q stk j w.
Proof.
  intros H E He HT HS Hn. unfold slot in *. rewrite He. destruct stk.
  - destruct H as (g & Hg & Hf & Hu & Hr & Hw & Hc). exists g.
    assert (~ T g /\ ~ S g) as [HTg HSg].
    { split; intros Hx; [apply HT in Hx|apply HS in Hx]; by apply (fresh_not_used m0 g g Hf). }
    split; [done|]. split; [done|]. split; [by apply (ef_used _ _ _ _ E)|].
    split; [by rewrite (ef_rc _ _ _ _ E)|]. split; [done|].
    intros x Hx. by rewrite (ef_word _ _ _ _ E), Hc.
  - destruct (present w) eqn:Hp; [|done]. destruct H as [Hr Hw]. split; [|done].
    destruct (Hn (frame w)) as [Hu Hs]; [done|]. by rewrite (ef_rc _ _ _ _ E).
Qed.

(** A clone made from [m], seen from an earlier state with the same source page. *)
Lemma slot_before T S m0 m m' q stk j w :
  effect T S m0 m ->
  (present w = true -> rc m (frame w) = rc m0 (frame w) /\
     forall x, 0 <= x < 4096 -> word m (frame w) x = word m0 (frame w) x) ->
  slot m m' q stk j w -> slot m0 m' q stk j w.
Proof.
  intros E H. unfold slot. destruct stk.
  - intros (g & Hg & Hf & Hu & Hr & He & Hc). exists g. split; [done|].
    split; [by apply (effect_fresh _ _ _ _ _ E)|]. split; [done|]. split; [done|]. split; [done|].
    intros x Hx. rewrite Hc by done. destruct (present w); [|done]. by apply H.
  - destruct (present w); [|done]. by rewrite (proj1 (H eq_refl)).
Qed.

(** A new frame [g], filled with the contents of [w]'s frame or zeroes, becomes
    the stack page of entry [j] of [q]. *)
Lemma put_stack_page m p g m2 q j w :
  good m -> 0 <= j < 1024 -> used m q -> ent m q j = 0 ->
  0 < g < 2 ^ 20 -> free_frame m g -> used (set_pm p m) g -> rc (set_pm p m) g = 1 ->
  effect none none m (set_pm p m) -> effect (eq g) none (set_pm p m) m2 -> pm m2 = p ->
  (forall f k, used_block p f k -> used_block (pm m) f k \/ (k = 0 /\ f = g)) ->
  (forall f x, 0 <= x < 4096 -> word m2 f x =
     if decide (f = g) then (if present w then word m (frame w) x else 0) else word m f x) ->
  let m3 := set_word (entry_addr (4096 * q) j) (stack_entry g (ent m2 q j)) m2 in
  effect (eq q) none m m3 /\
  (forall f i, 0 <= i < 1024 -> used m f -> (f, i) <> (q, j) -> ent m3 f i = ent m f i) /\
  slot m m3 q true j w /\
  (forall f k, used_block (pm m3) f k -> used_block (pm m) f k \/ (k = 0 /\ f = frame (ent m3 q j))).
Proof.
  intros G Hj Hq Hz Hg Hf Hu Hr E E2 P2 Hall W2. pose proof (fresh_not_used m g q Hf Hq) as Hgq.
  assert (Hq2 : ent m2 q j = 0) by (unfold ent; rewrite W2, decide_False by (done || lia); apply Hz).
  rewrite Hq2. destruct (stack_entry_spec g ltac:(lia)) as (Hwd & Hfr & _).
  pose proof (effect_write_entry m2 q j _ (ef_good _ _ _ _ E2) Hj Hwd) as E3.
  set (m3 := set_word _ _ m2) in *. cbv zeta.
  assert (W3 : forall f i, 0 <= i < 1024 -> f <> g -> ent m3 f i =
    if decide (f = q /\ i = j) then stack_entry g 0 else ent m f i).
  { intros f i Hi Hfg. unfold m3. rewrite ent_set_word by done. case_decide; [done|].
    unfold ent. by rewrite W2, decide_False by (done || lia). }
  split; [|split; [|split]].
  - apply (effect_trans (fun f => f = g) none (eq q) none _ _ m m2); [|done| |ef..].
    + apply (effect_trans none none (eq g) none _ _ m (set_pm p m)); [done|done|ef..].
    + intros f Hfu [->|<-]; [|done]. by destruct (fresh_not_used m g g Hf Hfu).
  - intros f i Hi Hfu Hne. rewrite W3; [|done|by apply (fresh_not_used m)].
    rewrite decide_False; [done|]. by intros [-> ->].
  - unfold slot. exists g. split; [lia|]. split; [done|].
    split; [unfold used; cbn; by rewrite P2|]. split; [unfold rc; cbn; by rewrite P2|].
    split; [by rewrite W3, decide_True|]. intros x Hx. unfold m3. unfold entry_addr.
    rewrite word_set_word, decide_False by (lia || naive_solver). by rewrite W2, decide_True.
  - intros f k. cbn [pm set_word m3]. rewrite P2. rewrite W3, decide_True, Hfr by done. apply Hall.
Qed.

Lemma shiftr_page g : Z.shiftr (4096 * g) 12 = g.
Proof. rewrite Z.shiftr_div_pow2 by lia. change (2 ^ 12) with 4096. dlia. Qed.

Section Entry.
Context (m : mmu) (t q j w vbase base size : Z).
Context (G : good m) (Hj : 0 <= j < 1024) (Htq : t <> q) (Ht : used m t) (Hq : used m q).
Context (Hw : ent m t j = w) (Hz : ent m q j = 0) (Hsh : sharable m w).
Context (Hft : present w = true -> frame w <> t /\ frame w <> q).

Definition stk_page : bool := is_stack_page base size (u32 (vbase + j * PAGE_SIZE)).

Definition entry_done (m' : mmu) : Prop :=
  effect (fun f => f = t \/ f = q) (shared stk_page w) m m' /\
  (forall i, 0 <= i < 1024 -> i <> j -> ent m' t i = ent m t i /\ ent m' q i = ent m q i) /\
  ent m' t j = source_after stk_page w /\
  slot m m' q stk_page j w /\
  (forall f k, used_block (pm m') f k ->
     used_block (pm m) f k \/ (k = 0 /\ stk_page = true /\ f = frame (ent m' q j))) /\
  spent (if stk_page then 1 else 0) m m'.

Lemma clone_entry_stack :
  stk_page = true ->
  match clone_entry (4096 * t) (4096 * q) vbase base size j m with
  | Done m' => entry_done m'
  | Panic => stk_page = true /\ free_pages (pm m) = 0
  end.
Proof using All.
  intros Hs. unfold clone_entry, entry_done. fold stk_page. rewrite Hs.
  pose proof (effect_alloc m G) as H. destruct (pmm_alloc_page (pm m)) as [a p].
  destruct H as [[-> ?]|(g & -> & Hg & Hf & Hu & Hr & E & Hall & Hfp)]; [done|].
  replace (4096 * g =? 0) with false by lia. rewrite !ent_addr, shiftr_page.
  change (ent (set_pm p m) t j) with (ent m t j). rewrite Hw.
  rewrite frame_addr by (rewrite <- Hw; apply G).
  set (m2 := if present w then copy_page (4096 * g) (4096 * frame w) (set_pm p m)
             else clear_page (4096 * g) (set_pm p m)).
  assert (E2 : effect (eq g) none (set_pm p m) m2).
  { unfold m2. destruct (present w); [apply effect_copy|apply effect_clear]; apply E. }
  destruct (put_stack_page m p g m2 q j w) as (E3 & H3 & S3 & A3); try done.
  { unfold m2. by destruct (present w). }
  { intros f x Hx. unfold m2. destruct (present w); [by rewrite word_copy|by rewrite word_clear]. }
  split; [apply (effect_trans none none (eq q) none _ _ m m);
    [by apply effect_refl|done|ef..|unfold none; done]|].
  split; [|split; [|split; [done|split]]].
  - intros i Hi Hne. split; (apply H3; [done|done|congruence]).
  - by rewrite H3, Hw by congruence.
  - intros f k Hfk. destruct (A3 f k Hfk) as [?|[? ?]]; [by left|by right].
  - unfold spent. cbn [pm set_word]. unfold m2. by destruct (present w).
Qed.

Lemma clone_entry_shared :
  stk_page = false ->
  match clone_entry (4096 * t) (4096 * q) vbase base size j m with
  | Done m' => entry_done m'
  | Panic => stk_page = true /\ free_pages (pm m) = 0
  end.
Proof using All.
  intros Hs. unfold clone_entry, entry_done. fold stk_page. rewrite Hs, !ent_addr, Hw.
  destruct (present w) eqn:Hp; [|split; [by apply effect_refl|]; unfold slot, source_after; rewrite Hp; repeat (split; [done|]); split; [by left|unfold spent; lia]].
  destruct (Hsh Hp) as [Hfu Hfr]. destruct (Hft eq_refl) as [Hf1 Hf2].
  rewrite frame_addr by (rewrite <- Hw; apply G).
  destruct (effect_inc m (frame w) G Hfu Hfr) as (p & -> & E & Hr & Hinc & Hfp).
  pose proof Hfu as (Hrng & _). pose proof (ok_refcount _ _ (good_pmm _ G) _ Hrng).
  replace (rc m (frame w) + 1 =? 0) with false by (unfold rc; lia). set (m1 := set_pm p m) in *.
  rewrite !ent_addr. change (ent m1 t j) with (ent m t j). rewrite Hw.
  assert (Hww : 0 <= w < 2 ^ 32) by (rewrite <- Hw; apply G).
  destruct (cow_mark_spec w Hww) as (Hcw & _).
  pose proof (effect_write_entry m1 q j w (ef_good _ _ _ _ E) Hj Hww) as E2.
  set (m2 := set_word _ w m1) in *.
  assert (Ht2 : ent m2 t j = w) by (unfold m2; rewrite ent_set_word, decide_False by tauto; done).
  rewrite Ht2. pose proof (effect_write_entry m2 t j _ (ef_good _ _ _ _ E2) Hj Hcw) as E3.
  set (m3 := set_word _ _ m2) in *.
  assert (Hq3 : ent m3 q j = w).
  { unfold m3. rewrite ent_set_word, decide_False by naive_solver. unfold m2.
    by rewrite ent_set_word, decide_True. }
  rewrite Hq3. pose proof (effect_write_entry m3 q j _ (ef_good _ _ _ _ E3) Hj Hcw) as E4.
  set (m4 := set_word _ _ m3) in *.
  assert (W4 : forall f i, 0 <= i < 1024 -> ent m4 f i =
    if decide ((f = q \/ f = t) /\ i = j) then cow_mark w else ent m f i).
  { intros f i Hi. unfold m4, m3, m2. rewrite !ent_set_word by done.
    repeat case_decide; try done; exfalso; tauto. }
  split; [|split; [|split]].
  - apply (effect_trans (fun f => f = t \/ f = q) (eq (frame w)) (eq q) none _ _ m m3);
      [|done|ef|unfold shared; ef|ef].
    apply (effect_trans (eq q) (eq (frame w)) (eq t) none _ _ m m2); [|done|ef..].
    apply (effect_trans none (eq (frame w)) (eq q) none _ _ m m1); [done|done|ef..].
  - intros i Hi Hne. rewrite !W4 by done. rewrite !decide_False by tauto. done.
  - rewrite W4 by done. unfold source_after. rewrite Hp. by rewrite decide_True by tauto.
  - unfold slot. rewrite Hp. split; [split; [done|]; by rewrite W4, decide_True by tauto|].
    split; [intros f k Hfk; left; by apply Hinc|]. unfold spent. change (pm m4) with p. lia.
Qed.

Lemma clone_entry_spec :
  match clone_entry (4096 * t) (4096 * q) vbase base size j m with
  | Done m' => entry_done m'
  | Panic => stk_page = true /\ free_pages (pm m) = 0
  end.
Proof using All.
  pose proof clone_entry_stack as Hs. pose proof clone_entry_shared as Hn. destruct stk_page; [exact (Hs eq_refl)|exact (Hn eq_refl)].
Qed.
End Entry.

(** ** One table *)

(** The first [n] entries of the table [q] are clones of the entries [W], with
    distinct frames for the stack pages. *)
Record copied (n : Z) (m0 m : mmu) (q : Z) (stk : Z -> bool) (W : Z -> Z) : Prop := {
  cp_slot j : 0 <= j < n -> slot m0 m q (stk j) j (W j);
  cp_inj j j' : 0 <= j < n -> 0 <= j' < n -> stk j = true -> stk j' = true ->
    frame (ent m q j) = frame (ent m q j') -> j = j' }.

(** All frames taken since [m0] are stack pages of the first [n] entries. *)
Definition taken (n : Z) (m0 m : mmu) (q : Z) (stk : Z -> bool) : Prop :=
  (forall f k, used_block (pm m) f k ->
    used_block (pm m0) f k \/ (k = 0 /\ exists j, 0 <= j < n /\ stk j = true /\ f = frame (ent m q j))) /\
  spent (count_upto n stk) m0 m.

Lemma taken_step i m0 m m' q stk :
  0 <= i -> taken i m0 m q stk -> (forall j, 0 <= j < i -> ent m' q j = ent m q j) ->
  (forall f k, used_block (pm m') f k ->
     used_block (pm m) f k \/ (k = 0 /\ stk i = true /\ f = frame (ent m' q i))) ->
  spent (if stk i then 1 else 0) m m' ->
  taken (i + 1) m0 m' q stk.
Proof.
  intros Hi [Ht Hc] He Hn Hs. split; [|unfold spent in *; rewrite count_upto_step by done; lia].
  clear Hc Hs. intros f k Hf. destruct (Hn f k Hf) as [H|(-> & Hs & ->)].
  - destruct (Ht f k H) as [?|(-> & j & Hj & Hs & ->)]; [by left|right]. split; [done|].
    exists j. split; [lia|]. by rewrite He.
  - right. split; [done|]. exists i. split; [lia|done].
Qed.

(** The frames that become shared. *)
Definition shared_upto (n : Z) (stk : Z -> bool) (W : Z -> Z) (f : Z) : Prop :=
  exists j, 0 <= j < n /\ shared (stk j) (W j) f.

(** The frames of the entries [W] can be shared, and no two entries have the same. *)
Record sharable_entries (m : mmu) (W : Z -> Z) : Prop := {
  se_word j : 0 <= j < 1024 -> 0 <= W j < 2 ^ 32;
  se_sharable j : 0 <= j < 1024 -> sharable m (W j);
  se_inj j j' : 0 <= j < 1024 -> 0 <= j' < 1024 -> present (W j) = true -> present (W j') = true ->
    frame (W j) = frame (W j') -> j = j' }.

Lemma shared_used n m stk W f :
  n <= 1024 -> sharable_entries m W -> shared_upto n stk W f -> used m f.
Proof.
  intros Hn H (j & Hj & _ & Hp & ->). by destruct (se_sharable _ _ H j ltac:(lia) Hp).
Qed.

Lemma stack_slot m0 m q j w :
  slot m0 m q true j w ->
  free_frame m0 (frame (ent m q j)) /\ used m (frame (ent m q j)) /\ rc m (frame (ent m q j)) = 1 /\
  ent m q j = stack_entry (frame (ent m q j)) 0 /\
  forall x, 0 <= x < 4096 -> word m (frame (ent m q j)) x = if present w then word m0 (frame w) x else 0.
Proof.
  intros (g & Hg & Hf & Hu & Hr & He & Hc). destruct (stack_entry_spec g ltac:(lia)) as (_ & Hfr & _).
  rewrite He, Hfr. done.
Qed.

Lemma copied_stable T S n m0 m m' q stk W :
  copied n m0 m q stk W -> effect T S m m' -> n <= 1024 ->
  (forall j, 0 <= j < n -> ent m' q j = ent m q j) ->
  (forall f, T f -> used m0 f) -> (forall f, S f -> used m0 f) ->
  (forall j f, 0 <= j < n -> shared (stk j) (W j) f -> used m f /\ ~ S f) ->
  copied n m0 m' q stk W.
Proof.
  intros [C1 C2] E Hn He HT HS Hsh. split.
  - intros j Hj. apply (slot_stable T S m0 m m'); [by apply C1|done|by apply He|done|done|].
    intros f. by apply Hsh.
  - intros j j' Hj Hj' Hs Hs'. rewrite !He by done. by apply C2.
Qed.

(** Adding the clone of the next entry. *)
Lemma copied_step T S i m0 m m' q stk W :
  copied i m0 m q stk W -> effect T S m m' -> 0 <= i < 1024 ->
  (forall j, 0 <= j < i -> ent m' q j = ent m q j) ->
  (forall f, T f -> used m0 f) -> (forall f, S f -> used m0 f) ->
  (forall j f, 0 <= j < i -> shared (stk j) (W j) f -> used m f /\ ~ S f) ->
  slot m0 m' q (stk i) i (W i) ->
  (stk i = true -> free_frame m (frame (ent m' q i))) ->
  copied (i + 1) m0 m' q stk W.
Proof.
  intros C E Hi He HT HS Hsh Hslot Hfr.
  pose proof (copied_stable _ _ _ _ _ _ _ _ _ C E ltac:(lia) He HT HS Hsh) as [C1 C2]. split.
  - intros j Hj. destruct (decide (j = i)) as [->|]; [done|]. apply C1. lia.
  - assert (Hold : forall j, 0 <= j < i -> stk j = true -> stk i = true ->
      frame (ent m' q j) <> frame (ent m' q i)).
    { intros j Hj Hs Hsi Heq. pose proof (cp_slot _ _ _ _ _ _ C j Hj) as H. rewrite Hs in H.
      destruct (stack_slot _ _ _ _ _ H) as (_ & Hu & _). rewrite <- He in Hu by done.
      rewrite Heq in Hu. by apply (fresh_not_used m _ _ (Hfr Hsi) Hu). }
    intros j j' Hj Hj' Hs Hs' Heq.
    destruct (decide (j = i)) as [->|], (decide (j' = i)) as [->|]; [done|..].
    + by destruct (Hold j' ltac:(lia) Hs' Hs).
    + by destruct (Hold j ltac:(lia) Hs Hs').
    + apply C2; (done || lia).
Qed.

Section Table.
Context (m0 : mmu) (t q vbase base size : Z).
Context (G : good m0) (Htq : t <> q) (Ht : used m0 t) (Hq : used m0 q).
Context (Hz : forall j, 0 <= j < 1024 -> ent m0 q j = 0).
Context (Hse : sharable_entries m0 (ent m0 t)).
Context (Hft : forall j, 0 <= j < 1024 -> present (ent m0 t j) = true ->
  frame (ent m0 t j) <> t /\ frame (ent m0 t j) <> q).

Let stk (j : Z) : bool := stk_page j vbase base size.
Let T (f : Z) : Prop := f = t \/ f = q.

Definition clone_inv (i : Z) (m : mmu) : Prop :=
  effect T (shared_upto i stk (ent m0 t)) m0 m /\
  (forall j, 0 <= j < 1024 ->
     ent m t j = if j <? i then source_after (stk j) (ent m0 t j) else ent m0 t j) /\
  (forall j, i <= j < 1024 -> ent m q j = 0) /\
  copied i m0 m q stk (ent m0 t) /\
  taken i m0 m q stk.

(** The frame of an entry that has not been cloned yet is as it was. *)
Lemma clone_inv_pending i m :
  clone_inv i m -> 0 <= i < 1024 -> present (ent m0 t i) = true ->
  used m (frame (ent m0 t i)) /\ rc m (frame (ent m0 t i)) = rc m0 (frame (ent m0 t i)) /\
  (forall x, 0 <= x < 4096 -> word m (frame (ent m0 t i)) x = word m0 (frame (ent m0 t i)) x).
Proof using All.
  intros (E & _) Hi Hp. destruct (se_sharable _ _ Hse i Hi Hp) as [Hu _].
  split; [by apply (ef_used _ _ _ _ E)|]. split.
  - apply (ef_rc _ _ _ _ E); [done|]. intros (j & Hj & _ & Hpj & Heq).
    enough (i = j) by lia. by apply (se_inj _ _ Hse); try lia.
  - intros x Hx. apply (ef_word _ _ _ _ E); [done| |done]. destruct (Hft i Hi Hp). by intros [?|?].
Qed.

(** The clone of an entry, seen from the state before the loop. *)
Lemma slot_rebase i m m' :
  clone_inv i m -> 0 <= i < 1024 -> slot m m' q (stk i) i (ent m0 t i) ->
  slot m0 m' q (stk i) i (ent m0 t i).
Proof using All.
  intros I Hi. pose proof (clone_inv_pending i m I Hi) as H. destruct I as (E & _).
  apply (slot_before _ _ _ _ _ _ _ _ _ E). intros Hp. by destruct (H Hp) as (_ & ? & ?).
Qed.

Lemma clone_step i m :
  0 <= i < 1024 -> clone_inv i m ->
  match clone_entry (4096 * t) (4096 * q) vbase base size i m with
  | Done m' => clone_inv (i + 1) m'
  | Panic => short_of (count_upto 1024 stk) m0
  end.
Proof using All.
  intros Hi I. pose proof (clone_inv_pending i m I Hi) as Hpend. pose proof (slot_rebase i m) as Hreb.
  pose proof I as (E & Hsrc & Hzero & C & Ht0).
  pose proof (clone_entry_spec m t q i (ent m0 t i) vbase base size (ef_good _ _ _ _ E) Hi Htq
    (ef_used _ _ _ _ E _ _ Ht) (ef_used _ _ _ _ E _ _ Hq)) as H.
  specialize (H ltac:(by rewrite Hsrc, Z.ltb_irrefl) (Hzero i ltac:(lia))).
  specialize (H ltac:(intros Hp; destruct (Hpend Hp) as (? & -> & _); split; [done|];
    by apply (se_sharable _ _ Hse)) (Hft i Hi)).
  destruct (clone_entry _ _ _ _ _ _ _) as [m'|].
  2:{ destruct H as [Hs Hfr], Ht0 as [_ Hsp]. unfold short_of, spent in *. fold (stk i) in Hs.
      pose proof (count_upto_step i stk ltac:(lia)) as Hst. rewrite Hs in Hst.
      pose proof (count_upto_mono (i + 1) 1024 stk ltac:(lia)). lia. }
  destruct H as (E' & Hoth & Hti & Hsl & Hnew & Hsp). fold (stk i) in *. split; [|split; [|split; [|split]]].
  - apply (effect_trans _ _ _ _ _ _ _ _ _ E E').
    + unfold T. tauto.
    + intros f _ [(j & Hj & ?)|?]; [exists j|exists i]; (split; [lia|done]).
    + intros f (_ & Hp & ->). by destruct (se_sharable _ _ Hse i Hi Hp).
  - intros j Hj. destruct (decide (j = i)) as [->|Hne].
    + rewrite Hti. by replace (i <? i + 1) with true by lia.
    + rewrite (proj1 (Hoth j Hj Hne)), Hsrc by done. destruct (Z.ltb_spec j i), (Z.ltb_spec j (i + 1)); (done || lia).
  - intros j Hj. rewrite (proj2 (Hoth j ltac:(lia) ltac:(lia))). apply Hzero. lia.
  - apply (copied_step T (shared (stk i) (ent m0 t i)) i m0 m m'); [done|done|done|..].
    + intros j Hj. apply (Hoth j); lia.
    + by intros f [->| ->].
    + intros f (_ & Hp & ->). by apply (se_sharable _ _ Hse i Hi Hp).
    + intros j f Hj (_ & Hp & ->). destruct (se_sharable _ _ Hse j ltac:(lia) Hp) as [Hu _].
      split; [by apply (ef_used _ _ _ _ E)|]. intros (_ & Hpi & Heq).
      enough (j = i) by lia. apply (se_inj _ _ Hse); (done || lia).
    + by apply Hreb.
    + intros Hs. rewrite Hs in Hsl. by apply (stack_slot _ _ _ _ _ Hsl).
  - apply (taken_step i m0 m m'); [lia|done| |done|done]. intros j Hj. apply (Hoth j); lia.
Qed.

Lemma clone_loop :
  match for_outcome (Z.to_nat PAGE_TABLE_SIZE) 0 (clone_entry (4096 * t) (4096 * q) vbase base size) m0 with
  | Done m => clone_inv 1024 m
  | Panic => short_of (count_upto 1024 stk) m0
  end.
Proof using All.
  apply (for_outcome_ind clone_inv (short_of (count_upto 1024 stk) m0)).
  - split; [by apply effect_refl|]. split; [intros j Hj; by replace (j <? 0) with false by lia|].
    split; [intros; apply Hz; lia|]. split; [split; intros; lia|]. split; [by left|]. unfold spent. change (count_upto 0 stk) with 0. lia.
  - intros j m Hj. apply clone_step. unfold PAGE_TABLE_SIZE in Hj. lia.
Qed.
End Table.

(** *** A new table *)

(** The table [q], taken after [m0], holds the clones of the entries [W]. *)
Record new_table (m0 m : mmu) (q : Z) (stk : Z -> bool) (W : Z -> Z) : Prop := {
  nt_bound : 0 < q < 2 ^ 20;
  nt_fresh : free_frame m0 q;
  nt_used : used m q;
  nt_rc : rc m q = 1;
  nt_copied : copied 1024 m0 m q stk W;
  nt_stack j : 0 <= j < 1024 -> stk j = true -> frame (ent m q j) <> q }.

(** The frames taken for the table: the table itself and its stack pages. *)
Definition table_frames (m : mmu) (q : Z) (stk : Z -> bool) (f : Z) : Prop :=
  f = q \/ exists j, 0 <= j < 1024 /\ stk j = true /\ f = frame (ent m q j).

Lemma new_table_frames m0 m q stk W f :
  new_table m0 m q stk W -> table_frames m q stk f -> free_frame m0 f /\ used m f /\ rc m f = 1.
Proof.
  intros N [->|(j & Hj & Hs & ->)].
  - split; [apply N|]. split; apply N.
  - pose proof (cp_slot _ _ _ _ _ _ (nt_copied _ _ _ _ _ N) j Hj) as H. rewrite Hs in H.
    destruct (stack_slot _ _ _ _ _ H) as (? & ? & ? & _). done.
Qed.

Lemma new_table_before T S m0 m m' q stk W :
  effect T S m0 m ->
  (forall j, 0 <= j < 1024 -> present (W j) = true ->
     rc m (frame (W j)) = rc m0 (frame (W j)) /\
     forall x, 0 <= x < 4096 -> word m (frame (W j)) x = word m0 (frame (W j)) x) ->
  new_table m m' q stk W -> new_table m0 m' q stk W.
Proof.
  intros E H [N1 N2 N3 N4 [C1 C2] N6]. split; try done.
  - by apply (effect_fresh _ _ _ _ _ E).
  - split; [|done]. intros j Hj. apply (slot_before _ _ _ _ _ _ _ _ _ E); [by apply H|by apply C1].
Qed.

Lemma new_table_stable T S m0 m m' q stk W :
  new_table m0 m q stk W -> effect T S m m' ->
  (forall f, T f -> used m0 f) -> (forall f, S f -> used m0 f) ->
  (forall f, shared_upto 1024 stk W f -> used m f /\ ~ S f) ->
  new_table m0 m' q stk W /\ (forall j, 0 <= j < 1024 -> ent m' q j = ent m q j).
Proof.
  intros N E HT HS Hsh. pose proof N as [N1 N2 N3 N4 N5 N6].
  assert (He : forall j, 0 <= j < 1024 -> ent m' q j = ent m q j).
  { intros j Hj. apply (ef_word _ _ _ _ E); [done| |lia]. intros Hq.
    by apply (fresh_used m0 q N2); apply HT. }
  split; [|done]. split; try done.
  - by apply (ef_used _ _ _ _ E).
  - rewrite (ef_rc _ _ _ _ E); [done|done|]. intros Hq. by apply (fresh_used m0 q N2); apply HS.
  - apply (copied_stable T S _ m0 m m'); try done.
    intros j f Hj Hs. apply Hsh. by exists j.
  - intros j Hj. rewrite He by done. by apply N6.
Qed.

Lemma new_table_ext m0 m q stk W W' :
  (forall j, 0 <= j < 1024 -> W j = W' j) -> new_table m0 m q stk W -> new_table m0 m q stk W'.
Proof.
  intros H [N1 N2 N3 N4 [C1 C2] N6]. split; try done. split; [|done].
  intros j Hj. rewrite <- H by done. by apply C1.
Qed.

Lemma shared_ext stk W W' f :
  (forall j, 0 <= j < 1024 -> W j = W' j) ->
  shared_upto 1024 stk W f -> shared_upto 1024 stk W' f.
Proof. intros H (j & Hj & Hs). exists j. split; [done|]. by rewrite <- H. Qed.

Lemma sharable_ext m W W' :
  (forall j, 0 <= j < 1024 -> W j = W' j) -> sharable_entries m W -> sharable_entries m W'.
Proof.
  intros H [S1 S2 S3]. split; intros j; [intros Hj; rewrite <- H by done; by apply S1|..].
  - intros Hj. rewrite <- H by done. by apply S2.
  - intros j' Hj Hj'. rewrite <- !H by done. by apply S3.
Qed.

(** All frames taken since [m0] are those of the table. *)
Definition takes (m0 m : mmu) (q : Z) (stk : Z -> bool) : Prop :=
  (forall f k, used_block (pm m) f k -> used_block (pm m0) f k \/ (k = 0 /\ table_frames m q stk f)) /\
  spent (1 + count_upto 1024 stk) m0 m.

Lemma taken_takes m p m' q stk :
  (forall f k, used_block p f k -> used_block (pm m) f k \/ (k = 0 /\ f = q)) ->
  free_pages p = free_pages (pm m) - 1 ->
  taken 1024 (clear_page (4096 * q) (set_pm p m)) m' q stk -> takes m m' q stk.
Proof.
  intros Hp Hfp [Ht Hc]. split; [|unfold spent in *; cbn [pm set_pm clear_page] in Hc; lia]. intros f k Hf. destruct (Ht f k Hf) as [H|(-> & j & Hj & Hs & ->)].
  - destruct (Hp f k H) as [?|[-> ->]]; [by left|right]. split; [done|by left].
  - right. split; [done|]. right. by exists j.
Qed.

(** A frame taken and cleared for a table. *)
Lemma table_page m p q :
  good m -> free_frame m q -> effect none none m (set_pm p m) ->
  effect none none m (clear_page (4096 * q) (set_pm p m)) /\
  forall j, 0 <= j < 1024 -> ent (clear_page (4096 * q) (set_pm p m)) q j = 0.
Proof.
  intros G Hf E. split.
  - apply (effect_trans none none (eq q) none _ _ m (set_pm p m)); [done| |..|ef|ef].
    + apply effect_clear, E.
    + intros f Hu [?|<-]; [done|]. by apply (fresh_not_used m q q Hf).
  - intros j Hj. unfold ent. by rewrite word_clear, decide_True by lia.
Qed.

(** The stack pages of a table that starts at [4096 * 1024 * i]. *)
Definition stack_pages (base size i j : Z) : bool :=
  is_stack_page base size (u32 (u32 (i * (1024 * PAGE_SIZE)) + j * PAGE_SIZE)).

Lemma clone_page_table_spec m t i base size :
  good m -> 0 < t -> used m t -> sharable_entries m (ent m t) ->
  (forall j, 0 <= j < 1024 -> present (ent m t j) = true -> frame (ent m t j) <> t) ->
  match paging_clone_page_table (4096 * t) i base size m with
  | Panic => short_of (1 + count_upto 1024 (stack_pages base size i)) m
  | Done (a, m') => exists q, a = 4096 * q /\
      new_table m m' q (stack_pages base size i) (ent m t) /\
      effect (eq t) (shared_upto 1024 (stack_pages base size i) (ent m t)) m m' /\
      takes m m' q (stack_pages base size i) /\
      forall j, 0 <= j < 1024 -> ent m' t j = source_after (stack_pages base size i j) (ent m t j)
  end.
Proof.
  intros G H0 Ht Hse Hft. unfold paging_clone_page_table. replace (4096 * t =? 0) with false by lia.
  pose proof (effect_alloc m G) as H. destruct (pmm_alloc_page (pm m)) as [a p].
  destruct H as [[-> H]|(q & -> & Hg & Hf & Hu & Hr & E & Hall & Hfp)].
  { cbn [Z.eqb]. unfold short_of. pose proof (count_upto_mono 0 1024 (stack_pages base size i) ltac:(lia)) as H1.
    change (count_upto 0 _) with 0 in H1. lia. }
  replace (4096 * q =? 0) with false by lia. cbv zeta. pose proof (taken_takes m p) as Htk.
  destruct (table_page m p q G Hf E) as [E1 Hz]. specialize (Htk) with (q := q).
  set (m1 := clear_page _ _) in *.
  assert (Hw1 : forall f x, used m f -> 0 <= x < 4096 -> word m1 f x = word m f x)
    by (intros; by apply (ef_word _ _ _ _ E1)).
  assert (Ht1 : forall j, 0 <= j < 1024 -> ent m1 t j = ent m t j)
    by (intros; apply Hw1; [done|lia]).
  assert (Hse1 : sharable_entries m1 (ent m1 t)).
  { split; intros j; [intros; apply E1|..].
    - intros Hj. rewrite Ht1 by done. intros Hp. destruct (se_sharable _ _ Hse j Hj Hp) as [? ?].
      split; [by apply (ef_used _ _ _ _ E1)|]. by rewrite (ef_rc _ _ _ _ E1).
    - intros j' Hj Hj'. rewrite !Ht1 by done. by apply (se_inj _ _ Hse). }
  pose proof (clone_loop m1 t q (u32 (i * (1024 * PAGE_SIZE))) base size (ef_good _ _ _ _ E1)
    (fresh_not_used m q t Hf Ht) (ef_used _ _ _ _ E1 _ _ Ht) Hu Hz Hse1) as H.
  specialize (H ltac:(intros j Hj; rewrite Ht1 by done; intros Hp; split; [by apply Hft|];
    apply (fresh_not_used m q _ Hf); by apply (se_sharable _ _ Hse j Hj Hp))).
  destruct (for_outcome _ _ _ _) as [m'|].
  2:{ unfold short_of in *. unfold m1 in H. cbn [pm set_pm clear_page] in H.
      change (stack_pages base size i) with (fun j => stk_page j (u32 (i * (1024 * PAGE_SIZE))) base size). lia. }
  destruct H as (E' & Hsrc & _ & C & Ht'). exists q. split; [done|].
  assert (Hsw : forall f, shared_upto 1024 (stack_pages base size i) (ent m t) f <->
    shared_upto 1024 (fun j => stk_page j (u32 (i * (1024 * PAGE_SIZE))) base size) (ent m1 t) f).
  { intros f. split; intros (j & Hj & H); exists j; (split; [done|]).
    - by rewrite Ht1. - by rewrite Ht1 in H. }
  split; [|split; [|split; [by apply Htk|]]].
  - split; try done.
    + by apply (ef_used _ _ _ _ E').
    + rewrite (ef_rc _ _ _ _ E'); [done|done|]. intros Hs. apply Hsw in Hs.
      apply (fresh_used m q Hf); apply (shared_used 1024 _ _ _ _ ltac:(lia) Hse Hs).
    + split; [|apply (cp_inj _ _ _ _ _ _ C)]. intros j Hj. rewrite <- Ht1 by done.
      apply (slot_before _ _ _ _ _ _ _ _ _ E1); [|by apply (cp_slot _ _ _ _ _ _ C)].
      rewrite Ht1 by done. intros Hp. destruct (se_sharable _ _ Hse j Hj Hp) as [Hfu _].
      split; [by apply (ef_rc _ _ _ _ E1)|]. intros. by apply Hw1.
    + intros j Hj Hs. pose proof (cp_slot _ _ _ _ _ _ C j Hj) as H. cbn in H.
      unfold stack_pages in Hs. unfold stk_page in H. rewrite Hs in H.
      destruct (stack_slot _ _ _ _ _ H) as (Hf1 & _). intros Heq. rewrite Heq in Hf1.
      by apply (fresh_not_used m1 q q Hf1).
  - apply (effect_trans _ _ _ _ _ _ _ _ _ E1 E').
    + intros f Hfu [?|[->| ->]]; [done|done|]. by destruct (fresh_not_used m q q Hf Hfu).
    + intros f _ [?|?]; [done|]. by apply Hsw.
    + intros f Hs. apply Hsw in Hs. by apply (shared_used 1024 _ _ _ _ ltac:(lia) Hse Hs).
  - intros j Hj. rewrite Hsrc by done. replace (j <? 1024) with true by lia. by rewrite Ht1.
Qed.

(** *** A table for the stack only *)

Section StackTable.
Context (m0 : mmu) (q i base size : Z).
Context (G : good m0) (Hq : used m0 q) (Hs : 0 < size).
Context (Hz : forall j, 0 <= j < 1024 -> ent m0 q j = 0).

Let stk (j : Z) : bool := stack_pages base size i j.

Definition stack_inv (k : Z) (fm : bool * mmu) : Prop :=
  if fm.1 then short_of (count_upto 1024 stk) m0 else
  effect (eq q) none m0 fm.2 /\
  (forall j, k <= j < 1024 -> ent fm.2 q j = 0) /\
  copied k m0 fm.2 q stk (fun _ => 0) /\
  taken k m0 fm.2 q stk.

Lemma stack_step k fm :
  0 <= k < 1024 -> stack_inv k fm ->
  stack_inv (k + 1) (stack_table_entry (4096 * q) (u32 (i * 1024 * PAGE_SIZE)) base
    (u32 (base + size)) k fm).
Proof using All.
  intros Hk. destruct fm as [failed m]. unfold stack_inv, stack_table_entry. cbn [fst snd].
  destruct failed; [done|]. intros (E & Hzero & C & Ht).
  replace ((base <=? u32 (u32 (i * 1024 * PAGE_SIZE) + k * PAGE_SIZE)) &&
     (u32 (u32 (i * 1024 * PAGE_SIZE) + k * PAGE_SIZE) <? u32 (base + size))) with (stk k)
    by (unfold stk, stack_pages, is_stack_page; rewrite <- Z.mul_assoc; by replace (0 <? size) with true by lia).
  assert (Hno : forall j f, shared (stk j) 0 f -> used m f /\ ~ none f) by (intros j f (_ & ? & _); done).
  destruct (stk k) eqn:Hsk.
  - pose proof (effect_alloc m (ef_good _ _ _ _ E)) as H. destruct (pmm_alloc_page (pm m)) as [a p].
    destruct H as [[-> Hfr]|(g & -> & Hg & Hf & Hu & Hr & E1 & Hall & Hfp)].
    { cbn [Z.eqb fst]. destruct Ht as [_ Hsp]. unfold short_of, spent in *.
      pose proof (count_upto_step k stk ltac:(lia)) as Hst. rewrite Hsk in Hst.
      pose proof (count_upto_mono (k + 1) 1024 stk ltac:(lia)). lia. }
    replace (4096 * g =? 0) with false by lia. rewrite ent_addr, shiftr_page. cbn [fst snd].
    destruct (put_stack_page m p g (clear_page (4096 * g) (set_pm p m)) q k 0) as (E3 & H3 & S3 & A3); try done.
    { apply E. } { by apply (ef_used _ _ _ _ E). } { apply Hzero; lia. } { apply effect_clear, E1. }
    { intros f x Hx. by rewrite word_clear. }
    set (m3 := set_word _ _ _) in *.
    assert (Hqm : used m q) by (by apply (ef_used _ _ _ _ E)).
    split; [apply (effect_trans _ _ _ _ _ _ _ _ _ E E3); ef|]. split; [|split].
    + intros j Hj. rewrite H3 by (done || lia || (intros [=]; lia)). apply Hzero. lia.
    + apply (copied_step (eq q) none k m0 m m3); try done.
      * intros j Hj. apply H3; [lia|done|intros [=]; lia].
      * by intros f <-.
      * intros j f _. apply Hno.
      * rewrite Hsk. by apply (slot_before _ _ _ _ _ _ _ _ _ E).
      * intros _. by apply (stack_slot _ _ _ _ _ S3).
    + apply (taken_step k m0 m m3); [lia|done| | |by rewrite Hsk].
      * intros j Hj. apply H3; [lia|done|intros [=]; lia].
      * intros f n Hfn. destruct (A3 f n Hfn) as [?|[? ?]]; [by left|by right].
  - split; [done|]. split; [intros j Hj; apply Hzero; lia|].
    split; [|apply (taken_step k m0 m m); [lia|done|done|by left|rewrite Hsk; unfold spent; lia]].
    apply (copied_step (eq q) none k m0 m m); try done.
    + apply effect_refl, E.
    + by intros f <-.
    + intros j f _. apply Hno.
    + rewrite Hsk. apply Hzero. lia.
    + by rewrite Hsk.
Qed.
End StackTable.

Lemma create_stack_table_spec m i base size :
  good m -> 0 < size ->
  let '(a, m') := paging_create_stack_page_table i base size m in
  (a = 0 /\ short_of (1 + count_upto 1024 (stack_pages base size i)) m) \/
  exists q, a = 4096 * q /\ 0 < q /\ new_table m m' q (stack_pages base size i) (fun _ => 0) /\
    effect none none m m' /\ takes m m' q (stack_pages base size i).
Proof.
  intros G Hs. unfold paging_create_stack_page_table.
  pose proof (effect_alloc m G) as H. destruct (pmm_alloc_page (pm m)) as [a p].
  destruct H as [[-> H]|(q & -> & Hg & Hf & Hu & Hr & E & Hall & Hfp)].
  { left. split; [done|]. unfold short_of. pose proof (count_upto_mono 0 1024 (stack_pages base size i) ltac:(lia)) as H1.
    change (count_upto 0 _) with 0 in H1. lia. }
  replace (4096 * q =? 0) with false by lia. cbv zeta. pose proof (taken_takes m p) as Htk.
  destruct (table_page m p q G Hf E) as [E1 Hz]. specialize (Htk) with (q := q).
  set (m1 := clear_page _ _) in *.
  pose proof (for_loop_ind (stack_inv m1 q i base size) PAGE_TABLE_SIZE
    (stack_table_entry (4096 * q) (u32 (i * 1024 * PAGE_SIZE)) base (u32 (base + size)))
    (false, m1) ltac:(by vm_compute)) as H.
  destruct (for_loop _ _ _) as [failed m'].
  assert (S : stack_inv m1 q i base size 1024 (failed, m')).
  { apply H.
    - unfold stack_inv. cbn [fst snd]. split; [apply effect_refl, E1|].
      split; [done|]. split; [split; intros; lia|].
      split; [by left|]. unfold spent. change (count_upto 0 _) with 0. lia.
    - intros j fm Hj. by apply (stack_step m1 q i base size (ef_good _ _ _ _ E1) Hu Hs). }
  unfold stack_inv in S. cbn [fst snd] in S. destruct failed.
  { left. split; [done|]. unfold short_of in *. unfold m1 in S. cbn [pm set_pm clear_page] in S.
    change (fun j : Z => stack_pages base size i j) with (stack_pages base size i) in S. lia. }
  right. destruct S as (E' & _ & C & Ht'). exists q. split; [done|]. split; [lia|].
  split; [|split; [|by apply Htk]].
  - split; try done.
    + by apply (ef_used _ _ _ _ E').
    + by rewrite (ef_rc _ _ _ _ E').
    + split; [|apply C]. intros j Hj. apply (slot_before _ _ _ _ _ _ _ _ _ E1); [done|by apply C].
    + intros j Hj Hsj. pose proof (cp_slot _ _ _ _ _ _ C j Hj) as Hsl. cbn in Hsl. rewrite Hsj in Hsl.
      destruct (stack_slot _ _ _ _ _ Hsl) as (Hf1 & _). intros Heq. rewrite Heq in Hf1.
      by apply (fresh_used m1 q Hf1).
  - apply (effect_trans _ _ _ _ _ _ _ _ _ E1 E'); [|ef..].
    intros f Hfu [?|<-]; [done|]. by destruct (fresh_used m q Hf Hfu).
Qed.
End Fork.
