(* ===== verification/ForkDir.v ===== *)
(** Cloning a page directory, from the user space of one process to two user
    spaces that share only read-only pages. *)

From S2P Require Import Prelude Dll Pmm PmmMeta PmmInv PmmSteps PmmAlloc PmmFree PmmProps PmmInit PmmSpec Frames Paging PagingProps PagingSpec Fork ForkSpec.
From Stdlib Require Import ZArith Lia Bool.
From stdpp Require Import base tactics numbers list sets gmap.
Open Scope Z_scope.

(** ** The user space of a directory *)

(** The directory entries of the user space, [VMM_USER_START] to [VMM_USER_END]. *)
Definition user (i : Z) : Prop := 1 <= i < 256.

(** The table of directory entry [i] of the directory [d], and its entry [j]
    (0, not present, without a table). *)
Definition tbl (m : mmu) (d i : Z) : Z := frame (ent m d i).
Definition pte (m : mmu) (d i j : Z) : Z := if present (ent m d i) then ent m (tbl m d i) j else 0.

Lemma pte_present m d i j : present (pte m d i j) = true -> present (ent m d i) = true.
Proof. unfold pte. by destruct (present (ent m d i)). Qed.

(** An entry that its process may write to, or may take for its own. *)
Definition private_entry (w : Z) : bool := negb (Z.testbit w PTE_AVAIL_COW) || Z.testbit w PTE_RW.

Section Dir.
Context (R : (Z -> list Z) -> Prop) `{!block_stable R}.
Abbreviation good := (good R).
Abbreviation effect := (effect R).

(** The directory and its tables are frames of this space only; a page that is
    not marked copy-on-write has no other reference; no frame is mapped twice. *)
Record user_space (m : mmu) (d : Z) : Prop := {
  us_good : good m;
  us_dir : 0 < d /\ used m d /\ rc m d = 1;
  us_table i : user i -> present (ent m d i) = true ->
    0 < tbl m d i /\ used m (tbl m d i) /\ rc m (tbl m d i) = 1 /\ tbl m d i <> d;
  us_table_inj i i' : user i -> user i' -> present (ent m d i) = true -> present (ent m d i') = true ->
    tbl m d i = tbl m d i' -> i = i';
  us_page i j : user i -> 0 <= j < 1024 -> present (pte m d i j) = true ->
    0 < frame (pte m d i j) /\ used m (frame (pte m d i j)) /\ 1 <= rc m (frame (pte m d i j)) /\
    (private_entry (pte m d i j) = true -> rc m (frame (pte m d i j)) = 1);
  us_page_not i j : user i -> 0 <= j < 1024 -> present (pte m d i j) = true ->
    frame (pte m d i j) <> d /\
    forall i', user i' -> present (ent m d i') = true -> frame (pte m d i j) <> tbl m d i';
  us_page_inj i j i' j' : user i -> user i' -> 0 <= j < 1024 -> 0 <= j' < 1024 ->
    present (pte m d i j) = true -> present (pte m d i' j') = true ->
    frame (pte m d i j) = frame (pte m d i' j') -> i = i' /\ j = j' }.

(** The frames of a user space. *)
Definition space_frame (m : mmu) (d f : Z) : Prop :=
  f = d \/ (exists i, user i /\ present (ent m d i) = true /\ f = tbl m d i) \/
  (exists i j, user i /\ 0 <= j < 1024 /\ present (pte m d i j) = true /\ f = frame (pte m d i j)).

Lemma space_frame_used m d f : user_space m d -> space_frame m d f -> 0 < f /\ used m f.
Proof.
  intros U [->|[(i & Hi & Hp & ->)|(i & j & Hi & Hj & Hp & ->)]].
  - by destruct (us_dir _ _ U) as (? & ? & _).
  - by destruct (us_table _ _ U i Hi Hp) as (? & ? & _).
  - by destruct (us_page _ _ U i j Hi Hj Hp) as (? & ? & _).
Qed.

(** References can still be counted. *)
Definition countable_refs (m : mmu) (d : Z) : Prop :=
  forall i j, user i -> 0 <= j < 1024 -> present (pte m d i j) = true ->
    rc m (frame (pte m d i j)) < UINT16_MAX.

(** ** The loop over the user space *)

Section Loop.
Context (m0 : mmu) (d e base size : Z).
Context (U : user_space m0 d) (Hc : countable_refs m0 d).
Context (He : used m0 e) (Hes : forall f, space_frame m0 d f -> f <> e).
Context (Hez : forall i, user i -> ent m0 e i = 0).

Let W (i j : Z) : Z := pte m0 d i j.
Let stk (i j : Z) : bool := stack_pages base size i j.

Definition contains_stack (i : Z) : bool :=
  (0 <? size) && (u32 (i * (1024 * PAGE_SIZE)) <=? base) &&
  (base <? u32 (u32 (i * (1024 * PAGE_SIZE)) + 1024 * PAGE_SIZE)).
Definition has_table (i : Z) : bool := present (ent m0 d i) || contains_stack i.
Definition new_pde (i q : Z) : Z :=
  if present (ent m0 d i) then set_frame q (ent m0 d i) else stack_entry q 0.

Definition dir_T (i f : Z) : Prop :=
  f = e \/ exists k, 1 <= k < i /\ present (ent m0 d k) = true /\ f = tbl m0 d k.
Definition dir_S (i f : Z) : Prop := exists k, 1 <= k < i /\ shared_upto 1024 (stk k) (W k) f.

(** Directory entry [k] has been cloned. *)
Definition cloned (k : Z) (m : mmu) : Prop :=
  if has_table k then
    ent m e k = new_pde k (tbl m e k) /\ new_table m0 m (tbl m e k) (stk k) (W k) /\
    (present (ent m0 d k) = true -> forall j, 0 <= j < 1024 ->
       ent m (tbl m0 d k) j = source_after (stk k j) (W k j))
  else ent m e k = 0.

(** The pages a clone of the directory entries 1, ..., [n] takes: a table for
    each entry that has one, and the stack pages in it. *)
Fixpoint tables_cost (n : nat) : Z :=
  match n with
  | O => 0
  | S n => tables_cost n +
      (if has_table (Z.of_nat n + 1) then 1 + count_upto 1024 (stk (Z.of_nat n + 1)) else 0)
  end.

Lemma count_nonneg p : 0 <= count_upto 1024 p.
Proof. pose proof (count_upto_mono 0 1024 p ltac:(lia)) as H. by change (count_upto 0 p) with 0 in H. Qed.

Lemma tables_cost_step i :
  1 <= i -> tables_cost (Z.to_nat (i + 1 - 1)) = tables_cost (Z.to_nat (i - 1)) +
    (if has_table i then 1 + count_upto 1024 (stk i) else 0).
Proof.
  intros Hi. replace (Z.to_nat (i + 1 - 1)) with (S (Z.to_nat (i - 1))) by lia. cbn [tables_cost].
  by replace (Z.of_nat (Z.to_nat (i - 1)) + 1) with i by lia.
Qed.

Lemma tables_cost_mono n n' : (n <= n')%nat -> tables_cost n <= tables_cost n'.
Proof.
  induction 1 as [|n' _ IH]; [done|]. cbn [tables_cost].
  pose proof (count_nonneg (stk (Z.of_nat n' + 1))). destruct (has_table _); lia.
Qed.

Lemma tables_cost_nonneg n : 0 <= tables_cost n.
Proof. apply (tables_cost_mono 0 n). lia. Qed.

(** All frames taken by the loop belong to the entries before [i]. *)
Definition dir_taken (i : Z) (m : mmu) : Prop :=
  (forall f k, used_block (pm m) f k -> used_block (pm m0) f k \/
    (k = 0 /\ exists c, 1 <= c < i /\ has_table c = true /\ table_frames m (tbl m e c) (stk c) f)) /\
  spent (tables_cost (Z.to_nat (i - 1))) m0 m.

(** An entry for which there are not enough pages. *)
Lemma dir_short i m :
  user i -> dir_taken i m -> has_table i = true -> short_of (1 + count_upto 1024 (stk i)) m ->
  short_of (tables_cost 255) m0.
Proof.
  unfold user. intros Hi [_ Hs] Hh Hl. unfold short_of, spent in *.
  pose proof (tables_cost_step i ltac:(lia)) as H. rewrite Hh in H.
  pose proof (tables_cost_mono (Z.to_nat (i + 1 - 1)) 255 ltac:(lia)). lia.
Qed.

Definition dir_inv (i : Z) (m : mmu) : Prop :=
  effect (dir_T i) (dir_S i) m0 m /\
  (forall x, 0 <= x < 1024 -> ~ 1 <= x < i -> ent m e x = ent m0 e x) /\
  (forall k, 1 <= k < i -> cloned k m) /\
  (forall k k' f, 1 <= k < i -> 1 <= k' < i -> has_table k = true -> has_table k' = true ->
     table_frames m (tbl m e k) (stk k) f -> table_frames m (tbl m e k') (stk k') f -> k = k') /\
  dir_taken i m.

Lemma d_not_e : d <> e.
Proof using Hes. apply Hes. by left. Qed.

Lemma tbl_not_e i : user i -> present (ent m0 d i) = true -> tbl m0 d i <> e.
Proof using Hes. intros Hi Hp. apply Hes. right. left. by exists i. Qed.

Lemma page_not_e i j : user i -> 0 <= j < 1024 -> present (W i j) = true -> frame (W i j) <> e.
Proof using Hes. intros Hi Hj Hp. apply Hes. right. right. by exists i, j. Qed.

Lemma dir_S_used i f : i <= 256 -> dir_S i f -> used m0 f.
Proof using U.
  intros Hi (k & Hk & j & Hj & _ & Hp & ->).
  destruct (us_page _ _ U k j ltac:(unfold user; lia) Hj Hp) as (_ & ? & _). done.
Qed.

Lemma dir_T_used i f : i <= 256 -> dir_T i f -> used m0 f.
Proof using U He.
  intros Hi [->|(k & Hk & Hp & ->)]; [done|].
  by destruct (us_table _ _ U k ltac:(unfold user; lia) Hp) as (_ & ? & _).
Qed.

Lemma W_sharable i : user i -> sharable_entries m0 (W i).
Proof using U Hc.
  intros Hi. split.
  - intros j Hj. unfold W, pte. destruct (present _); [apply (good_words _ _ (us_good _ _ U))|lia].
  - intros j Hj Hp. split; [by apply (us_page _ _ U)|by apply Hc].
  - intros j j' Hj Hj' Hp Hp' Heq. by apply (us_page_inj _ _ U i j i j').
Qed.

(** What the loop has not reached yet is as before. *)
Lemma dir_inv_source i m :
  user i -> dir_inv i m ->
  ent m d i = ent m0 d i /\
  (forall j, 0 <= j < 1024 -> present (ent m0 d i) = true -> ent m (tbl m0 d i) j = W i j) /\
  (forall j, 0 <= j < 1024 -> present (W i j) = true ->
     rc m (frame (W i j)) = rc m0 (frame (W i j)) /\
     forall x, 0 <= x < 4096 -> word m (frame (W i j)) x = word m0 (frame (W i j)) x).
Proof using All.
  intros Hi (E & _). unfold user in Hi. split; [|split].
  - apply (ef_word _ _ _ _ _ E); [apply U| |lia]. intros [Hx|(k & Hk & Hp & Hx)].
    + by apply d_not_e.
    + destruct (us_table _ _ U k ltac:(unfold user; lia) Hp) as (_ & _ & _ & ?). done.
  - intros j Hj Hp. unfold W, pte. rewrite Hp.
    apply (ef_word _ _ _ _ _ E); [by apply (us_table _ _ U)| |lia].
    intros [Hx|(k & Hk & Hpk & Hx)]; [by apply (tbl_not_e i)|].
    enough (i = k) by lia. apply (us_table_inj _ _ U); unfold user; (done || lia).
  - intros j Hj Hp. pose proof (us_page _ _ U i j Hi Hj Hp) as (_ & Hu & _). split.
    + apply (ef_rc _ _ _ _ _ E); [done|]. intros (k & Hk & j' & Hj' & _ & Hp' & Hx).
      destruct (us_page_inj _ _ U i j k j' Hi ltac:(unfold user; lia) Hj Hj' Hp Hp' Hx). lia.
    + intros x Hx. apply (ef_word _ _ _ _ _ E); [done| |done]. intros [Hy|(k & Hk & Hpk & Hy)].
      * by apply (page_not_e i j).
      * destruct (us_page_not _ _ U i j Hi Hj Hp) as [_ Hn].
        by apply (Hn k); [unfold user; lia|..].
Qed.

Section Add.
Context (i : Z) (m m' m'' : mmu) (q : Z) (T1 S1 : Z -> Prop).
Context (Hi : user i) (I : dir_inv i m) (E1 : effect T1 S1 m m').
Context (HT1 : forall f, T1 f -> present (ent m0 d i) = true /\ f = tbl m0 d i).
Context (HS1 : forall f, S1 f -> shared_upto 1024 (stk i) (W i) f).
Context (N : new_table m m' q (stk i) (W i)).
Context (Hsrc : present (ent m0 d i) = true -> forall j, 0 <= j < 1024 ->
  ent m' (tbl m0 d i) j = source_after (stk i j) (W i j)).
Context (Htk : takes m m' q (stk i)).
Context (E2 : effect (eq e) none m' m'') (P2 : pm m'' = pm m').
Context (Hpd : forall x, 0 <= x < 1024 -> ent m'' e x = if decide (x = i) then new_pde i q else ent m' e x).
Context (Hh : has_table i = true).

Let T2 (f : Z) : Prop := T1 f \/ f = e.

Lemma add_T_used f : T2 f -> used m0 f.
Proof using All.
  intros [Hf| ->]; [|done]. destruct (HT1 f Hf) as [Hp ->]. by apply (us_table _ _ U).
Qed.

Lemma add_S_used f : S1 f -> used m0 f.
Proof using All.
  intros Hf. destruct (HS1 f Hf) as (j & Hj & _ & Hp & ->). by apply (us_page _ _ U).
Qed.

Lemma add_effect : effect T2 S1 m m''.
Proof using All.
  apply (effect_trans _ _ _ _ _ _ _ _ _ _ E1 E2).
  - intros f _ [?|<-]; [by left|by right].
  - intros f _ [?|?]; done.
  - done.
Qed.

Lemma add_e_entry x : 0 <= x < 1024 -> x <> i -> ent m'' e x = ent m e x.
Proof using All.
  intros Hx Hne. rewrite Hpd, decide_False by done. destruct I as (E & _).
  apply (ef_word _ _ _ _ _ E1); [by apply (ef_used _ _ _ _ _ E)| |lia].
  intros Hf. destruct (HT1 e Hf) as [Hp Hx']. by apply (tbl_not_e i).
Qed.

Lemma add_tbl : tbl m'' e i = q.
Proof using All.
  unfold tbl. rewrite Hpd by (unfold user in *; lia). rewrite decide_True by done.
  unfold new_pde. destruct (present _); [apply frame_set_frame|].
  apply stack_entry_spec. pose proof (nt_bound _ _ _ _ _ N). lia.
Qed.

(** An entry cloned earlier is not disturbed. *)
Lemma add_old k :
  1 <= k < i -> has_table k = true ->
  new_table m0 m'' (tbl m'' e k) (stk k) (W k) /\ tbl m'' e k = tbl m e k /\
  (forall j, 0 <= j < 1024 -> ent m'' (tbl m e k) j = ent m (tbl m e k) j).
Proof using All.
  intros Hk Hhk. destruct I as (E & _ & C & _). specialize (C k Hk). unfold cloned in C.
  rewrite Hhk in C. destruct C as (_ & Nk & _). unfold user in Hi.
  assert (Ht : tbl m'' e k = tbl m e k) by (unfold tbl; by rewrite add_e_entry by lia).
  rewrite Ht. destruct (new_table_stable R T2 S1 m0 m m'' _ _ _ Nk add_effect) as [N' Hent];
    [apply add_T_used|apply add_S_used| |done].
  intros f (j & Hj & Hsh). pose proof Hsh as (_ & Hp & ->).
  assert (Hu : used m0 (frame (W k j))) by (apply (us_page _ _ U); unfold user; (done || lia)).
  split; [by apply (ef_used _ _ _ _ _ E)|]. intros Hf.
  destruct (HS1 _ Hf) as (j' & Hj' & _ & Hp' & Heq).
  destruct (us_page_inj _ _ U k j i j' ltac:(unfold user; lia) Hi Hj Hj' Hp Hp' Heq). lia.
Qed.

Lemma add_new : new_table m m'' q (stk i) (W i) /\ new_table m0 m'' q (stk i) (W i).
Proof using All.
  pose proof (dir_inv_source i m Hi I) as (_ & _ & Hpg). destruct I as (E & _).
  assert (Hst : forall b, used b e -> new_table b m' q (stk i) (W i) -> new_table b m'' q (stk i) (W i)).
  { intros b Hb Nb. apply (new_table_stable R (eq e) none b m' m'' _ _ _ Nb E2); [by intros f <-|done|].
    intros f (j & Hj & Hsh). split; [|apply not_none]. destruct Hsh as (_ & Hp & ->).
    apply (ef_used _ _ _ _ _ E1), (ef_used _ _ _ _ _ E). by apply (us_page _ _ U). }
  split; apply Hst; [by apply (ef_used _ _ _ _ _ E)|done|done|].
  by apply (new_table_before R _ _ _ _ _ _ _ _ E).
Qed.

Lemma add_taken : dir_taken (i + 1) m''.
Proof using All.
  pose proof I as (_ & _ & _ & _ & Ht & Hsp). destruct Htk as [Htk' Hsp']. split.
  2:{ unfold spent in *. unfold user in Hi. rewrite tables_cost_step, Hh, P2 by lia. fold (stk i) in Hsp'.
      change (stack_pages base size i) with (stk i) in Hsp'. lia. }
  clear Hsp Hsp'. intros f k. rewrite P2. intros Hf.
  destruct (Htk' f k Hf) as [Hm|[-> Hq]].
  - destruct (Ht f k Hm) as [?|(-> & c & Hc' & Hhc & Hfc)]; [by left|right]. split; [done|].
    exists c. split; [lia|]. split; [done|]. destruct (add_old c Hc' Hhc) as (_ & -> & Hent).
    destruct Hfc as [->|(j & Hj & Hs & ->)]; [by left|]. right. exists j. by rewrite Hent.
  - right. split; [done|]. exists i. unfold user in Hi. split; [lia|]. split; [done|]. rewrite add_tbl.
    destruct Hq as [->|(j & Hj & Hs & ->)]; [by left|]. right. exists j. split; [done|]. split; [done|].
    f_equal. symmetry. apply (ef_word _ _ _ _ _ E2); [apply N| |lia].
    intros Heq. destruct I as (E & _). apply (fresh_used m q); [apply N|]. rewrite <- Heq.
    by apply (ef_used _ _ _ _ _ E).
Qed.

Lemma dir_add : dir_inv (i + 1) m''.
Proof using All.
  destruct add_new as [Nm N0]. pose proof I as (E & Hold & C & X & _). pose proof Hi as Hi'. unfold user in Hi'.
  split; [|split; [|split; [|split; [|apply add_taken]]]].
  - apply (effect_trans _ _ _ _ _ _ _ _ _ _ E add_effect).
    + intros f _ [[->|(k & Hk & ?)]|[Hf| ->]]; [by left| | |by left].
      * right. exists k. split; [lia|done].
      * right. exists i. split; [lia|]. by apply HT1.
    + intros f _ [(k & Hk & ?)|Hf]; [exists k|exists i]; (split; [lia|]); [done|by apply HS1].
    + apply add_S_used.
  - intros x Hx Hn. rewrite add_e_entry by lia. apply Hold; lia.
  - intros k Hk. unfold cloned. destruct (decide (k = i)) as [->|Hne].
    + rewrite Hh, add_tbl. split; [by rewrite Hpd, decide_True by lia|]. split; [done|].
      intros Hp j Hj. rewrite <- Hsrc by done.
      apply (ef_word _ _ _ _ _ E2); [|intros Heq; by apply (tbl_not_e i)|lia].
      apply (ef_used _ _ _ _ _ E1), (ef_used _ _ _ _ _ E). by apply (us_table _ _ U).
    + specialize (C k ltac:(lia)). unfold cloned in C. destruct (has_table k) eqn:Hhk.
      * destruct (add_old k ltac:(lia) Hhk) as (Nk & Ht & _). destruct C as (C1 & _ & C3).
        split; [rewrite Ht, add_e_entry by lia; done|]. split; [done|].
        intros Hp j Hj. rewrite <- C3 by done.
        assert (Huk : user k) by (unfold user; lia).
        apply (ef_word _ _ _ _ _ add_effect); [|intros [Hf|Hf]|lia].
        -- apply (ef_used _ _ _ _ _ E). by apply (us_table _ _ U).
        -- destruct (HT1 _ Hf) as [Hpi Heq]. enough (k = i) by lia. by apply (us_table_inj _ _ U).
        -- by apply (tbl_not_e k).
      * by rewrite add_e_entry by lia.
  - assert (Hnew : forall f, table_frames m'' (tbl m'' e i) (stk i) f -> free_frame m f).
    { intros f. rewrite add_tbl. intros Hf. by destruct (new_table_frames _ _ _ _ _ _ Nm Hf). }
    assert (Hsame : forall k f, 1 <= k < i -> has_table k = true ->
      table_frames m'' (tbl m'' e k) (stk k) f -> table_frames m (tbl m e k) (stk k) f /\ used m f).
    { intros k f Hk Hhk Hf. destruct (add_old k Hk Hhk) as (_ & Ht & Hent). rewrite Ht in Hf.
      assert (Hf' : table_frames m (tbl m e k) (stk k) f).
      { destruct Hf as [->|(j & Hj & Hs & ->)]; [by left|]. right. exists j. by rewrite Hent. }
      split; [done|]. specialize (C k Hk). unfold cloned in C. rewrite Hhk in C.
      destruct C as (_ & Nk & _). by destruct (new_table_frames _ _ _ _ _ _ Nk Hf') as (_ & ? & _). }
    intros k k' f Hk Hk' Hhk Hhk' Hf Hf'.
    destruct (decide (k = i)) as [->|], (decide (k' = i)) as [->|]; [done|..].
    + destruct (Hsame k' f ltac:(lia) Hhk' Hf') as [_ Hu]. by destruct (fresh_used m f (Hnew f Hf) Hu).
    + destruct (Hsame k f ltac:(lia) Hhk Hf) as [_ Hu]. by destruct (fresh_used m f (Hnew f Hf') Hu).
    + apply (X k k' f); try done; try lia; by apply Hsame; [lia|..].
Qed.
End Add.

(** *** The steps of the loop *)

Lemma dir_skip i m : user i -> has_table i = false -> dir_inv i m -> dir_inv (i + 1) m.
Proof using All.
  intros Hi Hh (E & Hold & C & X & Ht & Hsp). unfold user in Hi. split; [|split; [|split; [|split; [|split]]]].
  - apply (effect_trans _ _ _ _ _ _ _ _ _ _ E (effect_refl R none none m (ef_good _ _ _ _ _ E))).
    + intros f _ [[->|(k & Hk & ?)]|?]; [by left| |done]. right. exists k. split; [lia|done].
    + intros f _ [(k & Hk & ?)|?]; [|done]. exists k. split; [lia|done].
    + done.
  - intros x Hx Hn. apply Hold; lia.
  - intros k Hk. destruct (decide (k = i)) as [->|]; [|apply C; lia].
    unfold cloned. rewrite Hh, Hold by lia. by apply Hez.
  - intros k k' f Hk Hk' Hhk Hhk'. destruct (decide (k = i)) as [->|]; [congruence|].
    destruct (decide (k' = i)) as [->|]; [congruence|]. apply X; (done || lia).
  - intros f k Hf. destruct (Ht f k Hf) as [?|(-> & c & Hc' & ?)]; [by left|right].
    split; [done|]. exists c. split; [lia|done].
  - unfold spent in *. rewrite tables_cost_step, Hh by lia. lia.
Qed.

Lemma dir_step_stack i m :
  user i -> dir_inv i m -> present (ent m0 d i) = false -> contains_stack i = true ->
  let '(a, m') := paging_create_stack_page_table i base size m in
  if a =? 0 then short_of (tables_cost 255) m0 else
  dir_inv (i + 1) (set_word (entry_addr (4096 * e) i)
    (stack_entry (Z.shiftr a 12) (ent m' e i)) m').
Proof using All.
  intros Hi I Hp Hcs. pose proof I as (E & Hold & _ & _ & Ht).
  assert (Hh : has_table i = true) by (unfold has_table; by rewrite Hcs, orb_true_r).
  assert (Hs : 0 < size) by (unfold contains_stack in Hcs; destruct (Z.ltb_spec 0 size); [done|discriminate Hcs]).
  pose proof (create_stack_table_spec R m i base size (ef_good _ _ _ _ _ E) Hs) as H.
  destruct (paging_create_stack_page_table i base size m) as [a m'].
  destruct H as [[-> Hex]|(q & -> & Hq & N & E' & Htk)].
  { cbn [Z.eqb]. by apply (dir_short i m). }
  replace (4096 * q =? 0) with false by lia. rewrite shiftr_page. unfold user in Hi.
  assert (Hem : used m e) by (by apply (ef_used _ _ _ _ _ E)).
  assert (He0 : ent m' e i = 0).
  { transitivity (ent m e i); [apply (ef_word _ _ _ _ _ E'); [done|apply not_none|lia]|].
    rewrite Hold by lia. by apply Hez. }
  rewrite He0. pose proof (nt_bound _ _ _ _ _ N) as Hqb.
  apply (dir_add i m m' _ q none none); try done.
  - apply (new_table_ext _ _ _ _ (fun _ => 0)); [|done]. intros j _. unfold W, pte. by rewrite Hp.
  - by rewrite Hp.
  - apply effect_write_entry; [apply E'|lia|]. apply stack_entry_spec. lia.
  - intros x Hx. rewrite ent_set_word by lia. unfold new_pde. rewrite Hp.
    destruct (decide (x = i)) as [->|]; [by rewrite decide_True|by rewrite decide_False by tauto].
Qed.

Lemma dir_step_table i m :
  user i -> dir_inv i m -> present (ent m0 d i) = true ->
  match paging_clone_page_table (4096 * tbl m0 d i) i base size m with
  | Panic => short_of (tables_cost 255) m0
  | Done (a, m') =>
      let m1 := set_word (entry_addr (4096 * e) i) (ent m' d i) m' in
      a <> 0 /\ dir_inv (i + 1) (set_word (entry_addr (4096 * e) i)
        (set_frame (Z.shiftr a 12) (ent m1 e i)) m1)
  end.
Proof using All.
  intros Hi I Hp. pose proof I as (E & Hold & _ & _ & Ht).
  assert (Hh : has_table i = true) by (unfold has_table; by rewrite Hp).
  destruct (dir_inv_source i m Hi I) as (Hd1 & Htj & Hpg).
  destruct (us_table _ _ U i Hi Hp) as (Ht0 & Htu & _ & Htd).
  assert (Hw : forall j, 0 <= j < 1024 -> W i j = ent m (tbl m0 d i) j) by (intros; by rewrite Htj).
  pose proof (W_sharable i Hi) as HSE.
  pose proof (clone_page_table_spec R m (tbl m0 d i) i base size (ef_good _ _ _ _ _ E) Ht0
    (ef_used _ _ _ _ _ E _ _ Htu)) as H.
  specialize (H ltac:(apply (sharable_ext _ (W i)); [done|]; split; [apply HSE| |apply HSE];
    intros j Hj Hpj; destruct (se_sharable _ _ HSE j Hj Hpj) as [? ?];
    destruct (Hpg j Hj Hpj) as [-> _]; split; [by apply (ef_used _ _ _ _ _ E)|done])).
  specialize (H ltac:(intros j Hj; rewrite <- Hw by done; intros Hpj;
    by apply (us_page_not _ _ U i j Hi Hj Hpj))).
  destruct (paging_clone_page_table _ i base size m) as [[a m']|]; [|by apply (dir_short i m)].
  destruct H as (q & -> & N & E' & Htk & Hsrc). cbv zeta. pose proof (nt_bound _ _ _ _ _ N) as Hqb.
  split; [lia|]. rewrite shiftr_page. unfold user in Hi.
  assert (Hd2 : ent m' d i = ent m0 d i).
  { rewrite <- Hd1. apply (ef_word _ _ _ _ _ E'); [apply (ef_used _ _ _ _ _ E), U|done|lia]. }
  rewrite Hd2, ent_set_word, decide_True by (done || lia).
  assert (Hwd : 0 <= ent m0 d i < 2 ^ 32) by apply (good_words _ _ (us_good _ _ U)).
  assert (Hwd2 : 0 <= set_frame q (ent m0 d i) < 2 ^ 32) by (apply set_frame_word; [lia|done]).
  pose proof (effect_write_entry R m' e i _ (ef_good _ _ _ _ _ E') ltac:(lia) Hwd) as F1.
  pose proof (effect_write_entry R _ e i _ (ef_good _ _ _ _ _ F1) ltac:(lia) Hwd2) as F2.
  apply (dir_add i m m' _ q (eq (tbl m0 d i)) (shared_upto 1024 (stk i) (ent m (tbl m0 d i)))); try done.
  - intros f. apply shared_ext. intros. by rewrite Hw.
  - apply (new_table_ext _ _ _ _ (ent m (tbl m0 d i))); [|done]. intros. by rewrite Hw.
  - intros _ j Hj. by rewrite Hsrc, <- Hw by done.
  - apply (effect_trans _ _ _ _ _ _ _ _ _ _ F1 F2); ef.
  - intros x Hx. rewrite !ent_set_word by lia. unfold new_pde. rewrite Hp.
    destruct (decide (x = i)) as [->|]; [by rewrite decide_True|by rewrite !decide_False by tauto].
Qed.

Lemma dir_step i m :
  user i -> dir_inv i m ->
  match clone_user_entry (4096 * d) (4096 * e) base size i m with
  | Done m' => dir_inv (i + 1) m'
  | Panic => short_of (tables_cost 255) m0
  end.
Proof using All.
  intros Hi I. unfold clone_user_entry. rewrite !ent_addr.
  destruct (dir_inv_source i m Hi I) as (Hd1 & _ & _). rewrite Hd1.
  fold (contains_stack i). destruct (present (ent m0 d i)) eqn:Hp; cbn [negb].
  - rewrite frame_addr by apply (good_words _ _ (us_good _ _ U)). fold (tbl m0 d i).
    pose proof (dir_step_table i m Hi I Hp) as H.
    destruct (paging_clone_page_table _ i base size m) as [[a m']|]; [|done].
    destruct H as [Ha H]. replace (a =? 0) with false by lia. exact H.
  - destruct (contains_stack i) eqn:Hcs.
    + pose proof (dir_step_stack i m Hi I Hp Hcs) as H.
      destruct (paging_create_stack_page_table i base size m) as [a m']. by destruct (a =? 0).
    + apply dir_skip; [done| |done]. unfold has_table. by rewrite Hp, Hcs.
Qed.

Lemma dir_loop :
  match for_outcome 255 1 (clone_user_entry (4096 * d) (4096 * e) base size) m0 with
  | Done m => dir_inv 256 m
  | Panic => short_of (tables_cost 255) m0
  end.
Proof using All.
  apply (for_outcome_ind dir_inv (short_of (tables_cost 255) m0)).
  - split; [apply effect_refl, U|]. split; [done|]. split; [intros; lia|]. split; [intros; lia|].
    split; [by left|]. unfold spent. change (tables_cost _) with 0. lia.
  - intros j m Hj. apply dir_step. unfold user. lia.
Qed.
End Loop.

(** ** The kernel part *)

Lemma copy_entries_spec m d e first last :
  good m -> d <> e -> used m d -> 0 <= first <= last -> last <= 1024 ->
  let m' := copy_entries (4096 * d) (4096 * e) first last m in
  effect (eq e) none m m' /\
  forall x, 0 <= x < 1024 -> ent m' e x =
    if (first <=? x) && (x <? last) && present (ent m d x) then ent m d x else ent m e x.
Proof.
  intros G Hde Hd Hf Hl m'. unfold m', copy_entries.
  set (P := fun k (n : mmu) => effect (eq e) none m n /\
    forall x, 0 <= x < 1024 -> ent n e x =
      if (first <=? x) && (x <? first + k) && present (ent m d x) then ent m d x else ent m e x).
  enough (H : P (last - first) (for_loop (last - first) (fun k m =>
    let i := first + k in
    let w := physmem m (entry_addr (4096 * d) i) in
    if present w then set_word (entry_addr (4096 * e) i) w m else m) m)).
  { destruct H as [H1 H2]. split; [done|]. by replace (first + (last - first)) with last in H2 by lia. }
  apply (for_loop_ind P); [lia| |].
  - split; [by apply effect_refl|]. intros x Hx. zbool; (done || lia).
  - intros k n Hk [E H]. cbv zeta. rewrite ent_addr.
    assert (Hdk : ent n d (first + k) = ent m d (first + k)).
    { apply (ef_word _ _ _ _ _ E); [done|done|lia]. }
    rewrite Hdk. destruct (present (ent m d (first + k))) eqn:Hp.
    + assert (Hw : 0 <= ent m d (first + k) < 2 ^ 32) by apply (good_words _ _ G).
      pose proof (effect_write_entry R n e (first + k) _ (ef_good _ _ _ _ _ E) ltac:(lia) Hw) as E2.
      split; [apply (effect_trans _ _ _ _ _ _ _ _ _ _ E E2); ef|].
      intros x Hx. rewrite ent_set_word by lia. destruct (decide (e = e /\ x = first + k)) as [[_ ->]|Hn].
      * rewrite Hp. zbool; (done || lia).
      * rewrite H by done. assert (x <> first + k) by tauto. by replace (x <? first + (k + 1)) with (x <? first + k) by lia.
    + split; [done|]. intros x Hx. rewrite H by done. destruct (decide (x = first + k)) as [->|].
      * rewrite Hp, !andb_false_r. done.
      * by replace (x <? first + (k + 1)) with (x <? first + k) by lia.
Qed.

Lemma copy_entries_pm src dst first last m : pm (copy_entries src dst first last m) = pm m.
Proof.
  unfold copy_entries, for_loop. generalize (Z.to_nat (last - first)) as n, 0 as i. intros n.
  revert m. induction n as [|n IH]; intros m i; [done|]. cbn [for_from]. rewrite IH.
  by destruct (present _).
Qed.

(** The new directory [e] before the loop over the user space. *)
Lemma kernel_part m p d e :
  good m -> free_frame m e -> used m d -> effect none none m (set_pm p m) ->
  let m1 := clear_page (4096 * e) (set_pm p m) in
  let m2 := set_word (entry_addr (4096 * e) 0) (ent m1 d 0) m1 in
  let m3 := copy_entries (4096 * d) (4096 * e) 768 1024 m2 in
  let m4 := copy_entries (4096 * d) (4096 * e) 256 768 m3 in
  effect none none m m4 /\
  forall x, 0 <= x < 1024 -> ent m4 e x =
    if (x =? 0) || (256 <=? x) && present (ent m d x) then ent m d x else 0.
Proof.
  intros G Hf Hd E m1 m2 m3 m4. destruct (table_page R m p e G Hf E) as [E1 Hz]. fold m1 in E1, Hz.
  assert (Hde : d <> e) by (by apply (fresh_not_used m)).
  assert (H0 : forall n T, effect T none m n -> ~ T d -> forall x, 0 <= x < 1024 -> ent n d x = ent m d x).
  { intros n T En HT x Hx. apply (ef_word _ _ _ _ _ En); [done|done|lia]. }
  assert (E2 : effect (eq e) none m m2).
  { apply (effect_trans R none none (eq e) none _ _ m m1); [done| |ef..].
    apply effect_write_entry; [apply E1|lia|apply (good_words _ _ (ef_good _ _ _ _ _ E1))]. }
  assert (W2 : forall x, 0 <= x < 1024 -> ent m2 e x = if decide (x = 0) then ent m d 0 else 0).
  { intros x Hx. unfold m2. rewrite ent_set_word by lia. case_decide as D1; case_decide; try tauto.
    - rewrite (H0 m1 none) by (done || lia). done. - by apply Hz. }
  destruct (copy_entries_spec m2 d e 768 1024 (ef_good _ _ _ _ _ E2) Hde (ef_used _ _ _ _ _ E2 _ _ Hd)
    ltac:(lia) ltac:(lia)) as [E3 W3]. fold m3 in E3, W3.
  assert (E3' : effect (eq e) none m m3) by (apply (effect_trans _ _ _ _ _ _ _ _ _ _ E2 E3); ef).
  destruct (copy_entries_spec m3 d e 256 768 (ef_good _ _ _ _ _ E3) Hde (ef_used _ _ _ _ _ E3' _ _ Hd)
    ltac:(lia) ltac:(lia)) as [E4 W4]. fold m4 in E4, W4. split.
  - apply (effect_trans _ _ _ _ _ _ _ _ _ _ E3' E4); [|ef..].
    intros f Hu [<-|<-]; by destruct (fresh_used m e Hf Hu).
  - intros x Hx. rewrite W4, W3, W2, (H0 m3 (eq e)), (H0 m2 (eq e)) by (done || (intros ?; congruence)).
    destruct (decide (x = 0)) as [->|Hx0]; [by zbool|]. replace (x =? 0) with false by lia.
    destruct (present (ent m d x)); rewrite ?andb_true_r, ?andb_false_r; [|done].
    zbool; (done || lia).
Qed.

(** The directory and its tables. *)
Definition structure (m : mmu) (d f : Z) : Prop :=
  f = d \/ exists i, user i /\ present (ent m d i) = true /\ f = tbl m d i.

(** A user space whose directory and tables an effect spares is as before, except
    for the reference counts of copy-on-write pages. *)
Lemma space_kept T S m m' d :
  user_space m d -> effect T S m m' ->
  (forall f, T f -> structure m d f -> False) -> (forall f, S f -> structure m d f -> False) ->
  (forall i j, user i -> 0 <= j < 1024 -> present (pte m d i j) = true -> S (frame (pte m d i j)) ->
     private_entry (pte m d i j) = false /\ 1 <= rc m' (frame (pte m d i j))) ->
  user_space m' d /\ (forall i, user i -> ent m' d i = ent m d i) /\
  (forall i j, user i -> 0 <= j < 1024 -> pte m' d i j = pte m d i j).
Proof.
  intros U E HT HS HP.
  assert (Hd : forall i, user i -> ent m' d i = ent m d i).
  { intros i Hi. unfold user in Hi. apply (ef_word _ _ _ _ _ E); [apply U| |lia].
    intros Hx. apply (HT d Hx). by left. }
  assert (Ht : forall i, user i -> tbl m' d i = tbl m d i) by (intros i Hi; unfold tbl; by rewrite Hd).
  assert (Hp : forall i j, user i -> 0 <= j < 1024 -> pte m' d i j = pte m d i j).
  { intros i j Hi Hj. unfold pte. rewrite Hd, Ht by done. destruct (present (ent m d i)) eqn:Hp; [|done].
    apply (ef_word _ _ _ _ _ E); [by apply (us_table _ _ U)| |lia].
    intros Hx. apply (HT _ Hx). right. by exists i. }
  assert (Hrc : forall f, used m f -> structure m d f -> used m' f /\ rc m' f = rc m f).
  { intros f Hu Hf. split; [by apply (ef_used _ _ _ _ _ E)|]. apply (ef_rc _ _ _ _ _ E); [done|].
    intros Hx. by apply (HS f). }
  destruct (us_dir _ _ U) as (Hd0 & Hdu & Hdr). split; [|done]. split.
  - apply E.
  - destruct (Hrc d Hdu ltac:(by left)) as [? ->]. done.
  - intros i Hi. rewrite Hd, Ht by done. intros Hpi. destruct (us_table _ _ U i Hi Hpi) as (? & Hu & ?).
    destruct (Hrc (tbl m d i) Hu ltac:(right; by exists i)) as [? ->]. done.
  - intros i i' Hi Hi'. rewrite !Hd, !Ht by done. by apply U.
  - intros i j Hi Hj. rewrite Hp by done. intros Hpi. destruct (us_page _ _ U i j Hi Hj Hpi) as (H1 & H2 & H3 & H4).
    split; [done|]. split; [by apply (ef_used _ _ _ _ _ E)|].
    pose proof (ef_rc _ _ _ _ _ E (frame (pte m d i j)) H2) as Hsame. specialize (HP i j Hi Hj Hpi).
    destruct (private_entry (pte m d i j)) eqn:Hpr.
    + rewrite Hsame by (by intros [? _]%HP). done.
    + split; [|done]. destruct (decide (1 <= rc m' (frame (pte m d i j)))) as [|Hn]; [done|].
      exfalso. apply Hn. rewrite Hsame; [done|]. by intros [_ ?]%HP.
  - intros i j Hi Hj. rewrite Hp by done. intros Hpi. destruct (us_page_not _ _ U i j Hi Hj Hpi) as [? Hn].
    split; [done|]. intros i' Hi'. rewrite Hd, Ht by done. by apply Hn.
  - intros i j i' j' Hi Hi' Hj Hj'. rewrite !Hp by done. by apply U.
Qed.
End Dir.
