(* ===== verification/ForkSpaces.v ===== *)
(** A cloned directory: the facts the loop establishes, seen from the state
    before [paging_clone_directory], and the user space of the child. *)

From S2P Require Import Prelude Dll Pmm PmmMeta PmmInv PmmSteps PmmAlloc PmmFree PmmProps PmmInit PmmSpec Frames Paging PagingProps PagingSpec Fork ForkSpec ForkDir.
From Stdlib Require Import ZArith Lia Bool.
From stdpp Require Import base tactics numbers list sets gmap.
Open Scope Z_scope.

Section Spaces.
Context (R : (Z -> list Z) -> Prop) `{!block_stable R}.
Abbreviation good := (good R).
Abbreviation effect := (effect R).
Abbreviation user_space := (user_space R).

(** The tables of a directory, and the pages a clone of it shares. *)
Definition tables (m : mmu) (d f : Z) : Prop :=
  exists i, user i /\ present (ent m d i) = true /\ f = tbl m d i.
Definition shares (m : mmu) (d base size f : Z) : Prop :=
  exists i, user i /\ shared_upto 1024 (stack_pages base size i) (pte m d i) f.

(** The frames of the tables and stack pages of directory entry [k] of [e]. *)
Definition entry_frames (m : mmu) (e base size k f : Z) : Prop :=
  table_frames m (tbl m e k) (stack_pages base size k) f.

(** The pages a fork takes: the directory, its tables and the stack pages. *)
Definition fork_cost (m : mmu) (d base size : Z) : Z := 1 + tables_cost m d base size 255.

Lemma fork_cost_pos m d base size : 1 <= fork_cost m d base size.
Proof. unfold fork_cost. pose proof (tables_cost_nonneg m d base size 255). lia. Qed.

Record forked (m : mmu) (d base size : Z) (m' : mmu) (e : Z) : Prop := {
  fk_free : free_frame m e;
  fk_dir : used m' e /\ rc m' e = 1;
  fk_effect : effect (tables m d) (shares m d base size) m m';
  fk_kernel x : 0 <= x < 1024 -> ~ user x -> ent m' e x =
    if (x =? 0) || present (ent m d x) then ent m d x else 0;
  fk_user k : user k -> cloned m d e base size k m';
  fk_distinct k k' f : user k -> user k' ->
    has_table m d base size k = true -> has_table m d base size k' = true ->
    entry_frames m' e base size k f -> entry_frames m' e base size k' f -> k = k';
  fk_not_dir k f : user k -> has_table m d base size k = true -> entry_frames m' e base size k f -> f <> e;
  fk_taken f k : used_block (pm m') f k -> used_block (pm m) f k \/
    (k = 0 /\ (f = e \/ exists c, user c /\ has_table m d base size c = true /\ entry_frames m' e base size c f));
  fk_spent : spent (fork_cost m d base size) m m' }.

Lemma space_frame_same m m' d f :
  (forall i, user i -> ent m' d i = ent m d i) ->
  (forall i j, user i -> 0 <= j < 1024 -> pte m' d i j = pte m d i j) ->
  space_frame m' d f -> space_frame m d f.
Proof.
  intros Hd Hp [->|[(i & Hi & Hpi & ->)|(i & j & Hi & Hj & Hpi & ->)]]; [by left|right..].
  - left. exists i. unfold tbl. by rewrite <- Hd.
  - right. exists i, j. by rewrite <- Hp.
Qed.

(** The clone, seen from the state before the new directory was taken. *)
Lemma cloned_before m m0 m' d e base size k :
  user_space m d -> effect none none m m0 -> user k ->
  (forall i, user i -> ent m0 d i = ent m d i) ->
  (forall i j, user i -> 0 <= j < 1024 -> pte m0 d i j = pte m d i j) ->
  has_table m0 d base size k = has_table m d base size k /\
  (cloned m0 d e base size k m' -> cloned m d e base size k m').
Proof.
  intros U E Hk Hd Hp.
  assert (Hh : has_table m0 d base size k = has_table m d base size k) by (unfold has_table; by rewrite Hd).
  split; [done|]. unfold cloned. rewrite Hh. destruct (has_table m d base size k); [|done].
  unfold new_pde, tbl. rewrite !Hd by done. intros (H1 & H2 & H3). split; [done|]. split.
  - apply (new_table_ext _ _ _ _ (pte m0 d k)); [intros; by apply Hp|].
    apply (new_table_before R _ _ _ _ _ _ _ _ E); [|done].
    intros j Hj. rewrite Hp by done. intros Hpj. destruct (us_page _ _ _ U k j Hk Hj Hpj) as (_ & Hu & _).
    split; [by apply (ef_rc _ _ _ _ _ E)|]. intros x Hx. by apply (ef_word _ _ _ _ _ E).
  - intros Hpk j Hj. rewrite <- Hp by done. by apply H3.
Qed.

Lemma tables_cost_same m m0 d base size :
  (forall i, user i -> ent m0 d i = ent m d i) ->
  tables_cost m0 d base size 255 = tables_cost m d base size 255.
Proof.
  intros Hd. assert (Hn : (255 <= 255)%nat) by lia. revert Hn. generalize 255%nat at 1 3 4 as n.
  induction n as [|n IH]; intros Hn; [done|]. cbn [tables_cost]. rewrite IH by lia.
  unfold has_table. by rewrite Hd by (unfold user; lia).
Qed.

(** The loop over the user space, started with the new directory [e] in [m0]. *)
Lemma clone_user_part m m0 d e base size :
  user_space m d -> countable_refs m d -> free_frame m e -> effect none none m m0 ->
  (forall f k, used_block (pm m0) f k -> used_block (pm m) f k \/ (k = 0 /\ f = e)) ->
  used m0 e -> rc m0 e = 1 ->
  (forall x, 0 <= x < 1024 -> ent m0 e x =
     if (x =? 0) || (256 <=? x) && present (ent m d x) then ent m d x else 0) ->
  free_pages (pm m0) = free_pages (pm m) - 1 ->
  match for_outcome 255 1 (clone_user_entry (4096 * d) (4096 * e) base size) m0 with
  | Panic => short_of (fork_cost m d base size) m
  | Done m' => forked m d base size m' e
  end.
Proof.
  intros U Hc Hf E0 Hall Hue Hre W0 Hfp.
  destruct (space_kept R none none m m0 d U E0) as (U0 & Hd & Hp); [done..|].
  assert (Hes : forall f, space_frame m0 d f -> f <> e).
  { intros f Hsf. apply (fresh_not_used m e f Hf).
    by apply (space_frame_used R m d f U), (space_frame_same m m0). }
  assert (Hc0 : countable_refs m0 d).
  { intros i j Hi Hj. rewrite Hp by done. intros Hpj. rewrite (ef_rc _ _ _ _ _ E0); [by apply Hc| |done].
    by apply (us_page _ _ _ U). }
  assert (Hez : forall i, user i -> ent m0 e i = 0).
  { intros i Hi. unfold user in Hi. rewrite W0 by lia.
    replace (i =? 0) with false by lia. by replace (256 <=? i) with false by lia. }
  pose proof (dir_loop R m0 d e base size U0 Hc0 Hue Hes Hez) as H.
  pose proof (tables_cost_same m m0 d base size Hd) as Hcost.
  destruct (for_outcome _ _ _ m0) as [m'|].
  2:{ unfold short_of, fork_cost in *. lia. }
  destruct H as (E1 & Hker & C & X & Ht & Hsp).
  assert (Hb : forall k, user k -> has_table m0 d base size k = has_table m d base size k /\
    (cloned m0 d e base size k m' -> cloned m d e base size k m')) by (intros; by apply cloned_before).
  split.
  - done.
  - split; [by apply (ef_used _ _ _ _ _ E1)|]. rewrite (ef_rc _ _ _ _ _ E1); [done|done|].
    intros (k & Hk & j & Hj & _ & Hpj & Heq). apply (Hes (frame (pte m0 d k j))); [|done].
    right. right. exists k, j. unfold user. done.
  - apply (effect_trans _ _ _ _ _ _ _ _ _ _ E0 E1).
    + intros f Hfu [?|[->|(k & Hk & Hpk & ->)]]; [done|by destruct (fresh_used m e Hf Hfu)|].
      exists k. unfold tbl. by rewrite Hd in *.
    + intros f _ [?|(k & Hk & Hs)]; [done|]. exists k. split; [done|].
      revert Hs. apply shared_ext. intros. by apply Hp.
    + intros f (k & Hk & j & Hj & _ & Hpj & ->). rewrite Hp in * by done. by apply (us_page _ _ _ U).
  - intros x Hx Hn. rewrite Hker, W0 by done. unfold user in Hn.
    destruct (Z.eqb_spec x 0); [done|]. by replace (256 <=? x) with true by lia.
  - intros k Hk. apply Hb; [done|]. by apply C.
  - intros k k' f Hk Hk' Hh Hh'. apply X; try done; [by rewrite (proj1 (Hb k Hk))|by rewrite (proj1 (Hb k' Hk'))].
  - intros k f Hk Hh Hf'. pose proof (C k Hk) as Ck. unfold cloned in Ck.
    rewrite (proj1 (Hb k Hk)), Hh in Ck. destruct Ck as (_ & N & _).
    destruct (new_table_frames _ _ _ _ _ _ N Hf') as (Hff & _). intros ->. by apply (fresh_used m0 e).
  - intros f k Hfk. destruct (Ht f k Hfk) as [H0|(-> & c & Hcu & Hh & Hfc)].
    + destruct (Hall f k H0) as [?|[-> ->]]; [by left|right]. split; [done|by left].
    + right. split; [done|]. right. exists c. split; [done|]. by rewrite <- (proj1 (Hb c Hcu)).
  - unfold spent, fork_cost in *. change (Z.to_nat (256 - 1)) with 255%nat in Hsp. lia.
Qed.

(** The definition with its constants evaluated. *)
Lemma clone_directory_eq src base size m :
  paging_clone_directory src true base size m =
  if src =? 0 then Panic else
  let '(dst, m) := paging_create_directory m in
  if dst =? 0 then Panic else
  let m := set_word (entry_addr dst 0) (physmem m (entry_addr src 0)) m in
  let m := copy_entries src dst 768 1024 m in
  let m := copy_entries src dst 256 768 m in
  match for_outcome 255 1 (clone_user_entry src dst base size) m with
  | Panic => Panic
  | Done m => Done (dst, m)
  end.
Proof. reflexivity. Qed.

Lemma clone_directory_spec m d base size :
  user_space m d -> countable_refs m d ->
  match paging_clone_directory (4096 * d) true base size m with
  | Panic => short_of (fork_cost m d base size) m
  | Done (a, m') => exists e, a = 4096 * e /\ 0 < e /\ forked m d base size m' e
  end.
Proof.
  intros U Hc. pose proof (us_good _ _ _ U) as G. destruct (us_dir _ _ _ U) as (Hd0 & Hdu & _).
  rewrite clone_directory_eq. unfold paging_create_directory. replace (4096 * d =? 0) with false by lia.
  pose proof (effect_alloc R m G) as H. destruct (pmm_alloc_page (pm m)) as [a p].
  destruct H as [[-> H]|(e & -> & Hg & Hf & Hu & Hr & E & Hall & Hfp)].
  { cbn [Z.eqb]. unfold short_of. pose proof (fork_cost_pos m d base size). lia. }
  replace (4096 * e =? 0) with false by lia.
  destruct (kernel_part R m p d e G Hf Hdu E) as [E0 W0]. cbv zeta in *. rewrite ent_addr.
  replace (4096 * e =? 0) with false by lia. set (m0 := copy_entries _ _ 256 768 _) in *.
  assert (Hpm : pm m0 = p) by (unfold m0; by rewrite !copy_entries_pm).
  assert (Hu0 : used m0 e) by (unfold used; rewrite Hpm; exact Hu).
  assert (Hr0 : rc m0 e = 1) by (unfold rc; rewrite Hpm; exact Hr).
  rewrite <- Hpm in Hall, Hfp. clearbody m0.
  pose proof (clone_user_part m m0 d e base size U Hc Hf E0 Hall Hu0 Hr0 W0 Hfp) as H.
  destruct (for_outcome _ _ _ m0) as [m'|]; [|done]. exists e. split; [done|]. split; [lia|done].
Qed.

(** ** The parent *)

Lemma source_after_spec stk w :
  0 <= w < 2 ^ 32 ->
  present (source_after stk w) = present w /\ frame (source_after stk w) = frame w /\
  (private_entry (source_after stk w) = true ->
     private_entry w = true /\ (present w = true -> stk = true)).
Proof.
  intros Hw. unfold source_after. destruct stk; [done|]. destruct (present w) eqn:Hp; [|by rewrite Hp].
  unfold private_entry at 1. destruct (cow_mark_spec w Hw) as (_ & -> & -> & -> & ->). done.
Qed.

Section Forked.
Context (m : mmu) (d base size : Z) (m' : mmu) (e : Z).
Context (U : user_space m d) (F : forked m d base size m' e).

Let stk (i j : Z) : bool := stack_pages base size i j.

Lemma pte_word i j : 0 <= pte m d i j < 2 ^ 32.
Proof using U. unfold pte. destruct (present _); [apply (good_words _ _ (us_good _ _ _ U))|lia]. Qed.

Lemma parent_dir i : 0 <= i < 1024 -> ent m' d i = ent m d i.
Proof using U F.
  intros Hi. apply (ef_word _ _ _ _ _ (fk_effect _ _ _ _ _ _ F)); [apply U| |lia].
  intros (k & Hk & Hp & Heq). by destruct (us_table _ _ _ U k Hk Hp) as (_ & _ & _ & ?).
Qed.

Lemma parent_tbl i : user i -> tbl m' d i = tbl m d i.
Proof using U F. intros Hi. unfold tbl. rewrite parent_dir; [done|]. unfold user in Hi. lia. Qed.

Lemma parent_pte i j : user i -> 0 <= j < 1024 -> pte m' d i j = source_after (stk i j) (pte m d i j).
Proof using U F.
  intros Hi Hj. pose proof Hi as Hi'. unfold user in Hi'. unfold pte at 1.
  rewrite parent_tbl, parent_dir by (done || lia). destruct (present (ent m d i)) eqn:Hp.
  - pose proof (fk_user _ _ _ _ _ _ F i Hi) as C. unfold cloned, has_table in C. rewrite Hp in C.
    cbn [orb] in C. destruct C as (_ & _ & C). by apply C.
  - unfold pte. rewrite Hp. by destruct (stk i j).
Qed.

Lemma parent_page i j : user i -> 0 <= j < 1024 ->
  present (pte m' d i j) = present (pte m d i j) /\ frame (pte m' d i j) = frame (pte m d i j).
Proof using U F.
  intros Hi Hj. rewrite parent_pte by done.
  destruct (source_after_spec (stk i j) (pte m d i j) (pte_word i j)) as (-> & -> & _). done.
Qed.

Lemma shared_rc i j :
  user i -> 0 <= j < 1024 -> stk i j = false -> present (pte m d i j) = true ->
  rc m' (frame (pte m d i j)) = rc m (frame (pte m d i j)) + 1.
Proof using U F.
  intros Hi Hj Hs Hp. pose proof (fk_user _ _ _ _ _ _ F i Hi) as C.
  unfold cloned, has_table in C. rewrite (pte_present _ _ _ _ Hp) in C. cbn [orb] in C.
  destruct C as (_ & N & _). pose proof (cp_slot _ _ _ _ _ _ (nt_copied _ _ _ _ _ N) j Hj) as H.
  cbn in H. unfold stk in Hs. unfold slot in H. rewrite Hs, Hp in H. apply H.
Qed.

Lemma not_shares i j :
  user i -> 0 <= j < 1024 -> present (pte m d i j) = true -> stk i j = true ->
  ~ shares m d base size (frame (pte m d i j)).
Proof using U.
  intros Hi Hj Hp Hs (k & Hk & j' & Hj' & Hs' & Hp' & Heq).
  destruct (us_page_inj _ _ _ U i j k j' Hi Hk Hj Hj' Hp Hp' Heq) as [-> ->]. unfold stk in Hs. congruence.
Qed.

Lemma structure_not_shares f : structure m d f -> ~ shares m d base size f.
Proof using U.
  intros Hst (k & Hk & j' & Hj' & _ & Hp' & ->). destruct (us_page_not _ _ _ U k j' Hk Hj' Hp') as [H1 H2].
  destruct Hst as [?|(i & Hi & Hpi & ?)]; [done|]. by apply (H2 i).
Qed.

Lemma parent_space : user_space m' d.
Proof using U F.
  pose proof (fk_effect _ _ _ _ _ _ F) as E. destruct (us_dir _ _ _ U) as (Hd0 & Hdu & Hdr).
  assert (Hr : forall f, used m f -> structure m d f -> used m' f /\ rc m' f = rc m f).
  { intros f Hu Hst. split; [by apply (ef_used _ _ _ _ _ E)|]. apply (ef_rc _ _ _ _ _ E); [done|].
    by apply structure_not_shares. }
  split.
  - apply E.
  - destruct (Hr d Hdu ltac:(by left)) as [? ->]. done.
  - intros i Hi. pose proof Hi as Hi'. unfold user in Hi'. rewrite parent_dir, parent_tbl by (done || lia).
    intros Hp. destruct (us_table _ _ _ U i Hi Hp) as (? & Hu & ? & ?).
    destruct (Hr (tbl m d i) Hu ltac:(right; by exists i)) as [? ->]. done.
  - intros i i' Hi Hi'. rewrite !parent_tbl, !parent_dir by (done || (unfold user in *; lia)). by apply U.
  - intros i j Hi Hj. destruct (parent_page i j Hi Hj) as [-> ->]. intros Hp.
    destruct (us_page _ _ _ U i j Hi Hj Hp) as (H1 & H2 & H3 & H4).
    split; [done|]. split; [by apply (ef_used _ _ _ _ _ E)|].
    rewrite parent_pte by done. destruct (stk i j) eqn:Hs.
    + rewrite (ef_rc _ _ _ _ _ E); [done|done|]. by apply not_shares.
    + rewrite shared_rc by done. split; [lia|]. intros Hc.
      destruct (source_after_spec false (pte m d i j) (pte_word i j)) as (_ & _ & H).
      destruct (H Hc) as [_ Hx]. by discriminate Hx.
  - intros i j Hi Hj. destruct (parent_page i j Hi Hj) as [-> ->]. intros Hp.
    destruct (us_page_not _ _ _ U i j Hi Hj Hp) as [? Hn]. split; [done|].
    intros i' Hi'. rewrite parent_tbl, parent_dir by (done || (unfold user in *; lia)). by apply Hn.
  - intros i j i' j' Hi Hi' Hj Hj'. destruct (parent_page i j Hi Hj) as [-> ->].
    destruct (parent_page i' j' Hi' Hj') as [-> ->]. by apply U.
Qed.

(** *** The child *)

Lemma new_pde_present k q : has_table m d base size k = true -> 0 <= q < 2 ^ 20 ->
  present (new_pde m d k q) = true.
Proof.
  intros Hh Hq. unfold new_pde. destruct (present (ent m d k)) eqn:Hp.
  - by rewrite present_set_frame.
  - by apply stack_entry_spec.
Qed.

Lemma child_table k :
  user k -> present (ent m' e k) = has_table m d base size k /\
  (has_table m d base size k = true -> new_table m m' (tbl m' e k) (stk k) (pte m d k)).
Proof using U F.
  intros Hk. pose proof (fk_user _ _ _ _ _ _ F k Hk) as C. unfold cloned in C.
  destruct (has_table m d base size k) eqn:Hh; [|by rewrite C].
  destruct C as (He & N & _). split; [|done]. rewrite He. apply new_pde_present; [done|].
  pose proof (nt_bound _ _ _ _ _ N). lia.
Qed.

Lemma child_entry k f :
  user k -> has_table m d base size k = true -> entry_frames m' e base size k f ->
  0 < f /\ free_frame m f /\ used m' f /\ rc m' f = 1 /\ f <> e.
Proof using U F.
  intros Hk Hh Hf. destruct (child_table k Hk) as [_ N]. specialize (N Hh).
  destruct (new_table_frames _ _ _ _ _ _ N Hf) as (H1 & H2 & H3).
  split; [apply H1|]. split; [done|]. split; [done|]. split; [done|]. by apply (fk_not_dir _ _ _ _ _ _ F k).
Qed.

(** The entries of the child: a private copy for a stack page, the shared page of
    the parent otherwise. *)
Inductive child_page (i j : Z) : Prop :=
| child_stack (Hh : has_table m d base size i = true) (Hs : stk i j = true)
    (He : entry_frames m' e base size i (frame (pte m' e i j)))
    (Hw : pte m' e i j = stack_entry (frame (pte m' e i j)) 0)
    (Hc : forall x, 0 <= x < 4096 -> word m' (frame (pte m' e i j)) x =
       if present (pte m d i j) then word m (frame (pte m d i j)) x else 0)
| child_shared (Hs : stk i j = false) (Hp : present (pte m d i j) = true)
    (Hw : pte m' e i j = cow_mark (pte m d i j))
| child_absent (Hs : has_table m d base size i = true -> stk i j = false)
    (Hp : present (pte m d i j) = false) (Hw : pte m' e i j = 0).

Lemma child_cases i j : user i -> 0 <= j < 1024 -> child_page i j.
Proof using U F.
  intros Hi Hj. destruct (child_table i Hi) as [Hp N].
  destruct (has_table m d base size i) eqn:Hh.
  - specialize (N eq_refl). pose proof (cp_slot _ _ _ _ _ _ (nt_copied _ _ _ _ _ N) j Hj) as H.
    assert (Hpe : pte m' e i j = ent m' (tbl m' e i) j) by (unfold pte; by rewrite Hp).
    destruct (stk i j) eqn:Hs.
    + destruct (stack_slot _ _ _ _ _ H) as (_ & _ & _ & Hw & Hc).
      apply child_stack; rewrite ?Hpe; try done. right. by exists j.
    + unfold slot in H. destruct (present (pte m d i j)) eqn:Hpj.
      * apply child_shared; [done|done|]. rewrite Hpe. apply H.
      * apply child_absent; [done|done|]. rewrite Hpe. apply H.
  - apply child_absent; [congruence| |unfold pte; by rewrite Hp].
    unfold has_table in Hh. apply orb_false_iff in Hh as [Hh _]. unfold pte. by rewrite Hh.
Qed.

(** The frame of a present entry of the child. *)
Lemma child_frame i j :
  user i -> 0 <= j < 1024 -> present (pte m' e i j) = true ->
  (entry_frames m' e base size i (frame (pte m' e i j)) /\ has_table m d base size i = true /\ stk i j = true /\
     Z.testbit (pte m' e i j) PTE_RW = true) \/
  (stk i j = false /\ present (pte m d i j) = true /\ frame (pte m' e i j) = frame (pte m d i j) /\
     private_entry (pte m' e i j) = false).
Proof using U F.
  intros Hi Hj Hp. destruct (child_cases i j Hi Hj) as [Hh Hs He Hw Hc|Hs Hp' Hw|Hs Hp' Hw].
  - left. split; [done|]. split; [done|]. split; [done|]. rewrite Hw.
    destruct (child_entry i _ Hi Hh He) as (H0 & _ & Hu & _).
    pose proof (used_pos R m' _ (ef_good _ _ _ _ _ (fk_effect _ _ _ _ _ _ F)) H0 Hu) as Hb.
    apply stack_entry_spec. lia.
  - right. destruct (cow_mark_spec _ (pte_word i j)) as (_ & Hf & _ & Hrw & Hcow).
    unfold private_entry. rewrite Hw, Hf, Hcow, Hrw. done.
  - rewrite Hw in Hp. discriminate Hp.
Qed.

Lemma child_space : user_space m' e.
Proof using U F.
  pose proof (fk_effect _ _ _ _ _ _ F) as E. destruct (fk_dir _ _ _ _ _ _ F) as [Heu Her].
  destruct (fk_free _ _ _ _ _ _ F) as [He0 Hef].
  assert (Hold : forall f, used m f -> f <> e) by (intros f; by apply fresh_not_used).
  split.
  - apply E.
  - done.
  - intros i Hi. destruct (child_table i Hi) as [-> _]. intros Hh.
    destruct (child_entry i (tbl m' e i) Hi Hh ltac:(by left)) as (? & _ & ? & ? & ?). done.
  - intros i i' Hi Hi'. destruct (child_table i Hi) as [-> _]. destruct (child_table i' Hi') as [-> _].
    intros Hh Hh' Heq. apply (fk_distinct _ _ _ _ _ _ F i i' (tbl m' e i)); try done; [by left|].
    rewrite Heq. by left.
  - intros i j Hi Hj Hp. destruct (child_frame i j Hi Hj Hp) as [(Hef' & Hh & _ & _)|(Hs & Hpd & Hfr & Hcow)].
    + destruct (child_entry i _ Hi Hh Hef') as (? & _ & ? & ? & _). split; [done|]. split; [done|]. split; [lia|done].
    + rewrite Hfr, Hcow. destruct (us_page _ _ _ U i j Hi Hj Hpd) as (H1 & H2 & H3 & _).
      split; [done|]. split; [by apply (ef_used _ _ _ _ _ E)|]. rewrite shared_rc by done. split; [lia|done].
  - intros i j Hi Hj Hp. destruct (child_frame i j Hi Hj Hp) as [(Hef' & Hh & Hs & _)|(Hs & Hpd & Hfr & Hcow)].
    + split; [by apply (child_entry i)|]. intros i' Hi'. destruct (child_table i' Hi') as [-> _].
      intros Hh' Heq. assert (i = i') as <-.
      { apply (fk_distinct _ _ _ _ _ _ F i i' (frame (pte m' e i j))); try done. rewrite Heq. by left. }
      destruct (child_table i Hi) as [Hpi N]. revert Heq. unfold pte. rewrite Hpi, Hh.
      by apply (nt_stack _ _ _ _ _ (N Hh)).
    + rewrite Hfr. destruct (us_page _ _ _ U i j Hi Hj Hpd) as (_ & Hu & _). split; [by apply Hold|].
      intros i' Hi'. destruct (child_table i' Hi') as [-> _]. intros Hh'.
      destruct (child_entry i' (tbl m' e i') Hi' Hh' ltac:(by left)) as (_ & Hfree & _).
      by apply (fresh_not_used m).
  - intros i j i' j' Hi Hi' Hj Hj' Hp Hp' Heq.
    destruct (child_frame i j Hi Hj Hp) as [(Hef1 & Hh & Hs & _)|(Hs & Hpd & Hfr & _)],
      (child_frame i' j' Hi' Hj' Hp') as [(Hef2 & Hh' & Hs' & _)|(Hs' & Hpd' & Hfr' & _)].
    + assert (i = i') as <-.
      { apply (fk_distinct _ _ _ _ _ _ F i i' (frame (pte m' e i j))); try done. by rewrite Heq. }
      split; [done|]. destruct (child_table i Hi) as [Hpi N]. specialize (N Hh).
      apply (cp_inj _ _ _ _ _ _ (nt_copied _ _ _ _ _ N)); try done.
      revert Heq. unfold pte. by rewrite Hpi, Hh.
    + destruct (child_entry i _ Hi Hh Hef1) as (_ & Hfree & _). rewrite Heq, Hfr' in Hfree.
      destruct (fresh_used m _ Hfree). by apply (us_page _ _ _ U).
    + destruct (child_entry i' _ Hi' Hh' Hef2) as (_ & Hfree & _). rewrite <- Heq, Hfr in Hfree.
      destruct (fresh_used m _ Hfree). by apply (us_page _ _ _ U).
    + apply (us_page_inj _ _ _ U); try done. by rewrite <- Hfr, <- Hfr'.
Qed.
End Forked.
End Spaces.
