(* ===== verification/AddrSpaces.v ===== *)
(** The address spaces of all processes together.

    [spaces m D] says that the directories [D] are the user spaces of the
    processes: their tables are distinct frames, and the reference count of a
    page is the number of spaces that map it. *)

From S2P Require Import Prelude Dll Pmm PmmMeta PmmInv PmmSteps PmmAlloc PmmFree PmmProps PmmInit PmmSpec Frames Paging PagingProps PagingSpec Fork ForkSpec ForkDir ForkSpaces.
From Stdlib Require Import ZArith Lia Bool.
From stdpp Require Import base tactics numbers list sets gmap.
Open Scope Z_scope.

(** ** Which spaces map a frame *)

Definition maps (m : mmu) (d f : Z) : Prop :=
  exists i j, user i /\ 0 <= j < 1024 /\ present (pte m d i j) = true /\ f = frame (pte m d i j).

Definition mapsb (m : mmu) (d f : Z) : bool :=
  existsb (fun i => existsb (fun j => present (pte m d i j) && (frame (pte m d i j) =? f)) (seqZ 0 1024))
    (seqZ 1 255).

Lemma mapsb_spec m d f : mapsb m d f = true <-> maps m d f.
Proof.
  unfold mapsb, maps, user. rewrite existsb_exists. split.
  - intros (i & Hi & H). apply existsb_exists in H as (j & Hj & H).
    apply list_elem_of_In, elem_of_seqZ in Hi, Hj. apply andb_true_iff in H as [Hp Hf].
    exists i, j. split; [lia|]. split; [lia|]. split; [done|]. lia.
  - intros (i & j & Hi & Hj & Hp & ->). exists i. split; [apply list_elem_of_In, elem_of_seqZ; lia|].
    apply existsb_exists. exists j. split; [apply list_elem_of_In, elem_of_seqZ; lia|].
    by rewrite Hp, Z.eqb_refl.
Qed.

Lemma mapsb_ext m m' d d' f : (maps m d f <-> maps m' d' f) -> mapsb m d f = mapsb m' d' f.
Proof.
  intros H. destruct (mapsb m d f) eqn:E1, (mapsb m' d' f) eqn:E2; try done; exfalso.
  - apply mapsb_spec, H, mapsb_spec in E1. congruence.
  - apply mapsb_spec, H, mapsb_spec in E2. congruence.
Qed.

Lemma mapsb_false m d f : ~ maps m d f -> mapsb m d f = false.
Proof. intros H. destruct (mapsb m d f) eqn:E; [|done]. by apply mapsb_spec in E. Qed.

(** The number of spaces that map [f]. *)
Fixpoint refs (m : mmu) (D : list Z) (f : Z) : Z :=
  match D with
  | [] => 0
  | d :: D => Z.b2z (mapsb m d f) + refs m D f
  end.

Lemma refs_bound m D f : 0 <= refs m D f <= Z.of_nat (length D).
Proof. induction D as [|d D IH]; cbn [refs length]; [lia|]. destruct (mapsb m d f); cbn [Z.b2z]; lia. Qed.

Lemma refs_ext m m' D f :
  (forall d, d ∈ D -> mapsb m' d f = mapsb m d f) -> refs m' D f = refs m D f.
Proof.
  induction D as [|d D IH]; intros H; cbn [refs]; [done|].
  rewrite H by set_solver. rewrite IH; [done|]. intros d' Hd. apply H. set_solver.
Qed.

Lemma refs_none m D f : (forall d, d ∈ D -> ~ maps m d f) -> refs m D f = 0.
Proof.
  induction D as [|d D IH]; intros H; cbn [refs]; [done|].
  rewrite mapsb_false, IH; [done| |]; [intros d' Hd|]; apply H; set_solver.
Qed.

(** All spaces but [d]. *)
Definition without (d : Z) (D : list Z) : list Z := filter (fun x => x <> d) D.

Lemma elem_of_without d D x : x ∈ without d D <-> x <> d /\ x ∈ D.
Proof. unfold without. rewrite list_elem_of_filter. done. Qed.

Lemma without_id d D : d ∉ D -> without d D = D.
Proof.
  unfold without. induction D as [|x D IH]; intros H; [done|].
  rewrite filter_cons, decide_True by set_solver. by rewrite IH by set_solver.
Qed.

Lemma refs_without m D d f :
  NoDup D -> d ∈ D -> refs m D f = Z.b2z (mapsb m d f) + refs m (without d D) f.
Proof.
  induction D as [|x D IH]; intros Hn Hd; [by apply elem_of_nil in Hd|].
  apply NoDup_cons in Hn as [Hx Hn]. unfold without. rewrite filter_cons. fold (without d D).
  cbn [refs]. case_decide as Hne.
  - cbn [refs]. rewrite IH; [lia|done|]. apply elem_of_cons in Hd as [->|]; done.
  - subst x. by rewrite without_id.
Qed.

Lemma refs_mapped m D d f : NoDup D -> d ∈ D -> maps m d f -> 1 <= refs m D f.
Proof.
  intros Hn Hd Hm. rewrite (refs_without m D d f Hn Hd). apply mapsb_spec in Hm as ->.
  pose proof (refs_bound m (without d D) f). cbn [Z.b2z]. lia.
Qed.

Lemma refs_two m D d d' f :
  NoDup D -> d ∈ D -> d' ∈ D -> d <> d' -> maps m d f -> maps m d' f -> 2 <= refs m D f.
Proof.
  intros Hn Hd Hd' Hne Hm Hm'. rewrite (refs_without m D d f Hn Hd). apply mapsb_spec in Hm as ->.
  enough (1 <= refs m (without d D) f) by (cbn [Z.b2z]; lia).
  apply (refs_mapped m _ d'); [|by apply elem_of_without|done]. by apply NoDup_filter.
Qed.

(** ** The invariant *)

Section AddrSpaces.
Context (R : (Z -> list Z) -> Prop) `{!block_stable R}.
Abbreviation good := (good R).
Abbreviation effect := (effect R).
Abbreviation user_space := (user_space R).
Abbreviation forked := (forked R).

Record spaces (m : mmu) (D : list Z) : Prop := {
  sp_good : good m;
  sp_nodup : NoDup D;
  sp_space d : d ∈ D -> user_space m d;
  sp_structs d d' f : d ∈ D -> d' ∈ D -> structure m d f -> structure m d' f -> d = d';
  sp_pages d d' f : d ∈ D -> d' ∈ D -> maps m d f -> structure m d' f -> False;
  sp_refs d f : d ∈ D -> maps m d f -> rc m f = refs m D f }.

Lemma maps_used m d f : user_space m d -> maps m d f -> 0 < f /\ used m f /\ 1 <= rc m f.
Proof. intros U (i & j & Hi & Hj & Hp & ->). by destruct (us_page _ _ _ U i j Hi Hj Hp) as (? & ? & ? & _). Qed.

Lemma structure_used m d f : user_space m d -> structure m d f -> 0 < f /\ used m f /\ rc m f = 1.
Proof.
  intros U [->|(i & Hi & Hp & ->)]; [apply U|].
  by destruct (us_table _ _ _ U i Hi Hp) as (? & ? & ? & _).
Qed.

(** A page that two spaces map is copy-on-write in both. *)
Lemma shared_cow m D d d' i j :
  spaces m D -> d ∈ D -> d' ∈ D -> d <> d' -> user i -> 0 <= j < 1024 ->
  present (pte m d i j) = true -> maps m d' (frame (pte m d i j)) ->
  private_entry (pte m d i j) = false.
Proof.
  intros S Hd Hd' Hne Hi Hj Hp Hm. destruct (private_entry _) eqn:Hc; [exfalso|done].
  destruct (us_page _ _ _ (sp_space _ _ S d Hd) i j Hi Hj Hp) as (_ & _ & _ & H).
  assert (Hmd : maps m d (frame (pte m d i j))) by (by exists i, j).
  rewrite (sp_refs _ _ S d) in H by done.
  pose proof (refs_two m D d d' _ (sp_nodup _ _ S) Hd Hd' Hne Hmd Hm). specialize (H Hc). lia.
Qed.

(** ** Fork *)

Section Fork.
Context (m : mmu) (D : list Z) (d base size : Z) (m' : mmu) (e : Z).
Context (S : spaces m D) (Hd : d ∈ D) (F : forked m d base size m' e).

Lemma fork_U : user_space m d.
Proof using S Hd. by apply (sp_space _ _ S). Qed.

Lemma shares_maps f : shares m d base size f -> maps m d f.
Proof. intros (i & Hi & j & Hj & _ & Hp & ->). by exists i, j. Qed.

Lemma fork_other d' :
  d' ∈ D -> d' <> d ->
  user_space m' d' /\ (forall i, user i -> ent m' d' i = ent m d' i) /\
  (forall i j, user i -> 0 <= j < 1024 -> pte m' d' i j = pte m d' i j).
Proof using S Hd F.
  intros Hd' Hne. apply (space_kept R _ _ m m' d' (sp_space _ _ S d' Hd') (fk_effect _ _ _ _ _ _ _ F)).
  - intros f Ht Hst. apply Hne. apply (sp_structs _ _ S d' d f); try done. by right.
  - intros f Hsh Hst. by apply (sp_pages _ _ S d d' f), Hst; [..|apply shares_maps].
  - intros i j Hi Hj Hp Hsh. split; [by apply (shared_cow m D d' d); try done; apply shares_maps|].
    destruct Hsh as (k & Hk & j' & Hj' & Hs & Hp' & ->).
    rewrite (shared_rc R m d base size m' e fork_U F) by done.
    destruct (us_page _ _ _ fork_U k j' Hk Hj' Hp') as (_ & _ & ? & _). lia.
Qed.

Lemma fork_maps_old d' f : d' ∈ D -> maps m' d' f <-> maps m d' f.
Proof using S Hd F.
  intros Hd'. destruct (decide (d' = d)) as [->|Hne].
  - split; intros (i & j & Hi & Hj & Hp & ->); exists i, j;
      destruct (parent_page R m d base size m' e fork_U F i j Hi Hj) as [E1 E2].
    + by rewrite <- E1, <- E2. + by rewrite E1, E2.
  - destruct (fork_other d' Hd' Hne) as (_ & _ & Hp).
    split; intros (i & j & Hi & Hj & Hpj & ->); exists i, j; by rewrite Hp in *.
Qed.

Lemma fork_structure_old d' f : d' ∈ D -> structure m' d' f <-> structure m d' f.
Proof using S Hd F.
  intros Hd'.
  assert (He : forall i, user i -> ent m' d' i = ent m d' i).
  { intros i Hi. destruct (decide (d' = d)) as [->|Hne]; [|by apply fork_other].
    apply (parent_dir R m d base size m' e fork_U F). unfold user in Hi. lia. }
  split; (intros [->|(i & Hi & Hp & ->)]; [by left|right]); exists i; unfold tbl in *; by rewrite He in *.
Qed.

(** The frames of the child are new, or shared with the parent. *)
Lemma fork_maps_child f :
  maps m' e f -> (free_frame m f /\ rc m' f = 1) \/ shares m d base size f.
Proof using S Hd F.
  intros (i & j & Hi & Hj & Hp & ->).
  destruct (child_frame R m d base size m' e fork_U F i j Hi Hj Hp)
    as [(He & Hh & _)|(Hs & Hpd & -> & _)].
  - left. by destruct (child_entry R m d base size m' e fork_U F i _ Hi Hh He) as (_ & ? & _ & ? & _).
  - right. exists i. split; [done|]. exists j. done.
Qed.

Lemma fork_shares_child f : shares m d base size f -> maps m' e f.
Proof using S Hd F.
  intros (i & Hi & j & Hj & Hs & Hp & ->). exists i, j. split; [done|]. split; [done|].
  destruct (child_cases R m d base size m' e fork_U F i j Hi Hj) as [Hh Hs' _ _ _|_ _ Hw|_ Hp' _]; [congruence| |congruence].
  rewrite Hw. destruct (cow_mark_spec _ (pte_word R m d fork_U i j)) as (_ & -> & -> & _). done.
Qed.

Lemma fork_structure_child f : structure m' e f -> free_frame m f.
Proof using S Hd F.
  intros [->|(i & Hi & Hp & ->)]; [apply F|].
  destruct (child_table R m d base size m' e fork_U F i Hi) as [Heq _]. rewrite Heq in Hp.
  by destruct (child_entry R m d base size m' e fork_U F i (tbl m' e i) Hi Hp ltac:(by left)) as (_ & ? & _).
Qed.

Lemma fork_spaces : spaces m' (e :: D).
Proof using S Hd F.
  assert (HU : forall x f, x ∈ D -> structure m x f -> used m f)
    by (intros x f Hx Hst; by destruct (structure_used m x f (sp_space _ _ S x Hx) Hst) as (_ & ? & _)).
  assert (HM : forall x f, x ∈ D -> maps m x f -> used m f)
    by (intros x f Hx Hst; by destruct (maps_used m x f (sp_space _ _ S x Hx) Hst) as (_ & ? & _)).
  assert (Hnew : e ∉ D).
  { intros Hin. apply (fresh_used m e); [apply F|]. apply (HU e e Hin). by left. }
  pose proof (fk_effect _ _ _ _ _ _ _ F) as E. split.
  - apply E.
  - apply NoDup_cons. split; [done|apply S].
  - intros x [->|Hx]%elem_of_cons; [by apply (child_space R m d base size m' e fork_U F)|].
    destruct (decide (x = d)) as [->|]; [by apply (parent_space R m d base size m' e fork_U F)|by apply fork_other].
  - intros x x' f [->|Hx]%elem_of_cons [->|Hx']%elem_of_cons H H'; [done|..].
    + rewrite fork_structure_old in H' by done. apply fork_structure_child in H.
      by destruct (fresh_used m f H (HU _ _ Hx' H')).
    + rewrite fork_structure_old in H by done. apply fork_structure_child in H'.
      by destruct (fresh_used m f H' (HU _ _ Hx H)).
    + rewrite fork_structure_old in H, H' by done. by apply (sp_structs _ _ S x x' f).
  - intros x x' f [->|Hx]%elem_of_cons [->|Hx']%elem_of_cons H H'.
    + destruct H as (i & j & Hi & Hj & Hp & ->).
      destruct (us_page_not _ _ _ (child_space R m d base size m' e fork_U F) i j Hi Hj Hp) as [H1 H2].
      destruct H' as [?|(k & Hk & Hpk & ?)]; [done|]. by apply (H2 k).
    + rewrite fork_structure_old in H' by done. apply fork_maps_child in H as [[Hf _]|Hs].
      * by apply (fresh_used m f Hf), (HU x').
      * by apply (sp_pages _ _ S d x' f); [..|apply shares_maps|].
    + rewrite fork_maps_old in H by done. apply fork_structure_child in H'.
      by apply (fresh_used m f H'), (HM x).
    + rewrite fork_maps_old in H by done. rewrite fork_structure_old in H' by done.
      by apply (sp_pages _ _ S x x' f).
  - assert (Hrefs : forall f, refs m' D f = refs m D f).
    { intros f. apply refs_ext. intros x Hx. apply mapsb_ext. by apply fork_maps_old. }
    assert (Hsh : forall f, shares m d base size f -> rc m' f = 1 + refs m D f).
    { intros f Hs. pose proof (shares_maps f Hs) as Hm. destruct Hs as (i & Hi & j & Hj & Hs & Hp & ->).
      rewrite (shared_rc R m d base size m' e fork_U F i j Hi Hj Hs Hp), (sp_refs _ _ S d _ Hd Hm). lia. }
    intros x f Hx Hm. cbn [refs]. rewrite Hrefs. destruct (mapsb m' e f) eqn:Hb.
    + apply mapsb_spec in Hb. destruct (fork_maps_child f Hb) as [[Hf ->]|Hs]; [|by apply Hsh].
      rewrite refs_none; [done|]. intros y Hy Hmy. by apply (fresh_used m f Hf), (HM y).
    + assert (Hne : ~ maps m' e f) by (intros ?%mapsb_spec; congruence).
      apply elem_of_cons in Hx as [->|Hx]; [done|]. rewrite fork_maps_old in Hm by done.
      rewrite (ef_rc _ _ _ _ _ E); [by apply (sp_refs _ _ S x)|by apply (HM x)|].
      intros Hs. by apply Hne, fork_shares_child.
Qed.
End Fork.
End AddrSpaces.
