(* ===== verification/SpacesExit.v ===== *)
(** A process gives its address space back: [paging_free_user_pages] drops one
    reference of every page and releases the page tables; the frames released
    are exactly those no other process refers to. *)

From S2P Require Import Prelude Dll Pmm PmmMeta PmmInv PmmSteps PmmAlloc PmmFree PmmProps PmmInit PmmSpec Frames Paging PagingProps PagingSpec Fork ForkSpec ForkDir ForkSpaces AddrSpaces.
From Stdlib Require Import ZArith Lia Bool.
From stdpp Require Import base tactics numbers list sets gmap.
Open Scope Z_scope.

Section Exit.
Context (R : (Z -> list Z) -> Prop) `{!block_stable R}.
Abbreviation user_space := (user_space R).
Abbreviation spaces := (spaces R).

Section Drop.
Context (m : mmu).

(** One reference of each frame of [Q] has been dropped. *)
Record dropped (Q : Z -> Prop) (s : pmm) : Prop := {
  dr_ok : pmm_ok R s;
  dr_used x k : used_block s x k <-> used_block (pm m) x k /\ ~ (k = 0 /\ Q x /\ rc m x = 1);
  dr_rc x : Q x -> refcount_map s x = rc m x - 1;
  dr_same x : ~ Q x -> refcount_map s x = rc m x;
  dr_free : free_pages (pm m) <= free_pages s }.

Lemma dropped_ext Q Q' s : (forall x, Q x <-> Q' x) -> dropped Q s -> dropped Q' s.
Proof.
  intros H [D1 D2 D3 D4 D5]. split; [done| | | |done].
  - intros x k. by rewrite D2, H.
  - intros x Hx. by apply D3, H.
  - intros x Hx. apply D4. by rewrite H.
Qed.

Section Step.
Context (Q : Z -> Prop) (s : pmm) (f : Z).
Context (D : dropped Q s) (Hf : 0 < f) (Hu : used m f) (Hq : ~ Q f).

Lemma dropped_add s' :
  pmm_ok R s' ->
  (forall x k, used_block s' x k <-> used_block s x k /\ ~ (refcount_map s f = 1 /\ x = f /\ k = 0)) ->
  (forall x, refcount_map s' x = if decide (x = f) then refcount_map s f - 1 else refcount_map s x) ->
  free_pages s <= free_pages s' ->
  dropped (fun x => Q x \/ x = f) s'.
Proof using D Hq.
  intros K U C Hfr. pose proof (dr_same _ _ D f Hq) as Hr.
  split; [done| | | |pose proof (dr_free _ _ D); lia].
  - intros x k. rewrite U, (dr_used _ _ D), Hr.
    destruct (decide (x = f)) as [->|]; intuition congruence.
  - intros x Hx. rewrite C, Hr. case_decide as E; [by subst|]. apply (dr_rc _ _ D). by destruct Hx.
  - intros x Hx. rewrite C, decide_False by tauto. apply (dr_same _ _ D). tauto.
Qed.

Lemma dropped_used : used_block s f 0.
Proof using D Hu Hq. apply (dr_used _ _ D). split; [done|]. by intros (_ & ? & _). Qed.

Lemma drop_shared :
  1 <= rc m f < UINT16_MAX ->
  exists s', drop_reference f s = Done s' /\ dropped (fun x => Q x \/ x = f) s'.
Proof using All.
  intros Hr. destruct (drop_reference_spec R s f (dr_ok _ _ D) Hf dropped_used) as (s' & E & K & U & C & Hfr).
  { by rewrite (dr_same _ _ D f Hq). }
  exists s'. split; [done|]. apply dropped_add; [done..|]. destruct (_ =? 1); lia.
Qed.

Lemma drop_private :
  rc m f = 1 -> dropped (fun x => Q x \/ x = f) (pmm_free_page (4096 * f) s).
Proof using All.
  intros Hr. pose proof (dr_same _ _ D f Hq) as Hs.
  destruct (pmm_release_page R s f (dr_ok _ _ D) Hf dropped_used) as (K & U & C); [lia|].
  pose proof (release_page_free R s f (dr_ok _ _ D) Hf dropped_used ltac:(lia)) as Hfr.
  change (PMM_PAGE_SIZE * f) with (4096 * f) in *. apply dropped_add; [done| | |lia].
  - intros x k. rewrite U. rewrite Hs, Hr. tauto.
  - intros x. rewrite C. by replace (refcount_map s f - 1) with 0 by lia.
Qed.
End Step.

(** ** The loops *)

Context (d : Z) (U : user_space m d).
Context (Hc : countable_refs m d).

(** The frames dropped before entry [(i, j)] is reached: the pages of earlier
    entries, and the tables before [i]. *)
Definition done_before (i j f : Z) : Prop :=
  (exists i' j', user i' /\ 0 <= j' < 1024 /\ (i' < i \/ i' = i /\ j' < j) /\
     present (pte m d i' j') = true /\ f = frame (pte m d i' j')) \/
  (exists i', user i' /\ i' < i /\ present (ent m d i') = true /\ f = tbl m d i').

Lemma page_pending i j :
  user i -> 0 <= j < 1024 -> present (pte m d i j) = true -> ~ done_before i j (frame (pte m d i j)).
Proof using U.
  intros Hi Hj Hp [(i' & j' & Hi' & Hj' & Hlt & Hp' & Heq)|(i' & Hi' & _ & Hp' & Heq)].
  - destruct (us_page_inj _ _ _ U i j i' j' Hi Hi' Hj Hj' Hp Hp' Heq). lia.
  - destruct (us_page_not _ _ _ U i j Hi Hj Hp) as [_ H]. by apply (H i').
Qed.

Lemma table_pending i :
  user i -> present (ent m d i) = true -> ~ done_before i 1024 (tbl m d i).
Proof using U.
  intros Hi Hp [(i' & j' & Hi' & Hj' & _ & Hp' & Heq)|(i' & Hi' & Hlt & Hp' & Heq)].
  - destruct (us_page_not _ _ _ U i' j' Hi' Hj' Hp') as [_ H]. by apply (H i).
  - pose proof (us_table_inj _ _ _ U i i' Hi Hi' Hp Hp' Heq). lia.
Qed.

Lemma done_step i j f :
  user i -> 0 <= j < 1024 ->
  done_before i (j + 1) f <->
  done_before i j f \/ (present (pte m d i j) = true /\ f = frame (pte m d i j)).
Proof.
  intros Hi Hj. split.
  - intros [(i' & j' & Hi' & Hj' & Hlt & Hp' & ->)|?]; [|by left; right].
    destruct (decide (i' = i /\ j' = j)) as [[-> ->]|Hne]; [by right|].
    left. left. exists i', j'. split; [done|]. split; [done|]. split; [lia|done].
  - intros [[(i' & j' & Hi' & Hj' & Hlt & ?)|?]|[Hp ->]]; [left|by right|left].
    + exists i', j'. split; [done|]. split; [done|]. split; [lia|done].
    + exists i, j. split; [done|]. split; [done|]. split; [lia|done].
Qed.

Lemma done_table i f :
  user i ->
  done_before (i + 1) 0 f <->
  done_before i 1024 f \/ (present (ent m d i) = true /\ f = tbl m d i).
Proof.
  intros Hi. split.
  - intros [(i' & j' & Hi' & Hj' & Hlt & Hp' & ->)|(i' & Hi' & Hlt & Hp' & ->)].
    + left. left. exists i', j'. split; [done|]. split; [done|]. split; [lia|done].
    + destruct (decide (i' = i)) as [->|]; [by right|]. left. right. exists i'.
      split; [done|]. split; [lia|done].
  - intros [[(i' & j' & Hi' & Hj' & Hlt & ?)|(i' & Hi' & Hlt & ?)]|[Hp ->]].
    + left. exists i', j'. split; [done|]. split; [done|]. split; [lia|done].
    + right. exists i'. split; [done|]. split; [lia|done].
    + right. exists i. split; [done|]. split; [lia|done].
Qed.

(** The memory does not change; only the frames do. *)
Definition exit_inv (i j : Z) (n : mmu) : Prop := exists s, n = set_pm s m /\ dropped (done_before i j) s.

Lemma free_entry_spec i j n :
  user i -> 0 <= j < 1024 -> present (ent m d i) = true -> exit_inv i j n ->
  match free_entry (4096 * tbl m d i) j n with
  | Done n' => exit_inv i (j + 1) n'
  | Panic => False
  end.
Proof using All.
  intros Hi Hj Ht (s & -> & D). unfold free_entry. rewrite ent_addr.
  change (ent (set_pm s m) (tbl m d i) j) with (ent m (tbl m d i) j).
  assert (Hpe : pte m d i j = ent m (tbl m d i) j) by (unfold pte; by rewrite Ht). rewrite <- Hpe.
  destruct (present (pte m d i j)) eqn:Hp; cbn [negb].
  - destruct (us_page _ _ _ U i j Hi Hj Hp) as (H1 & H2 & H3 & H4).
    pose proof (page_pending i j Hi Hj Hp) as Hq. pose proof (Hc i j Hi Hj Hp) as Hmax.
    rewrite frame_addr by (rewrite Hpe; apply (good_words _ _ (us_good _ _ _ U))).
    destruct (Z.testbit (pte m d i j) PTE_AVAIL_COW) eqn:Hcow.
    + destruct (drop_shared _ s _ D H1 H2 Hq ltac:(lia)) as (s' & E & D'). revert E.
      unfold drop_reference. cbn [pm set_pm].
      destruct (pmm_dec_refcount (4096 * frame (pte m d i j)) s) as [[r p]|]; [|done].
      intros E. injection E as ->. exists s'. split; [done|].
      revert D'. apply dropped_ext. intros x. rewrite done_step by done. tauto.
    + exists (pmm_free_page (4096 * frame (pte m d i j)) s). split; [done|].
      pose proof (drop_private _ s _ D H1 H2 Hq (H4 ltac:(unfold private_entry; by rewrite Hcow))) as D'.
      revert D'. apply dropped_ext. intros x. rewrite done_step by done. tauto.
  - exists s. split; [done|]. revert D. apply dropped_ext. intros x. rewrite done_step by done.
    rewrite Hp. intuition congruence.
Qed.

Lemma free_table_spec i n :
  user i -> exit_inv i 0 n ->
  match free_table (4096 * d) i n with
  | Done n' => exit_inv (i + 1) 0 n'
  | Panic => False
  end.
Proof using All.
  intros Hi (s & -> & D). unfold free_table. rewrite ent_addr.
  change (ent (set_pm s m) d i) with (ent m d i).
  assert (Hnone : present (ent m d i) = false -> forall x, done_before i 0 x <-> done_before (i + 1) 0 x).
  { intros Hp x. rewrite done_table by done. rewrite Hp. split.
    - intros [(i' & j' & Hi' & Hj' & Hlt & H)|H]; left; [left|by right]. exists i', j'.
      split; [done|]. split; [done|]. split; [lia|done].
    - intros [[(i' & j' & Hi' & Hj' & Hlt & Hpp & H)|H]|[? _]]; [left|by right|done]. exists i', j'.
      split; [done|]. split; [done|]. split; [|done]. destruct Hlt as [?|[-> _]]; [by left|].
      apply pte_present in Hpp. congruence. }
  destruct (present (ent m d i)) eqn:Hp; cbn [negb].
  - rewrite frame_addr by apply (good_words _ _ (us_good _ _ _ U)). fold (tbl m d i).
    pose proof (for_outcome_ind (exit_inv i) False (free_entry (4096 * tbl m d i))
      (Z.to_nat PAGE_TABLE_SIZE) 0 (set_pm s m) ltac:(by exists s)) as H.
    change (0 + Z.of_nat (Z.to_nat PAGE_TABLE_SIZE)) with 1024 in H.
    specialize (H ltac:(intros; by apply free_entry_spec)).
    destruct (for_outcome _ _ _ _) as [n|]; [|done]. destruct H as (s1 & -> & D1). cbn [pm set_pm].
    destruct (us_table _ _ _ U i Hi Hp) as (H1 & H2 & H3 & _).
    exists (pmm_free_page (4096 * tbl m d i) s1). split; [done|].
    pose proof (drop_private _ s1 _ D1 H1 H2 (table_pending i Hi Hp) H3) as D2.
    revert D2. apply dropped_ext. intros x. rewrite done_table by done. tauto.
  - exists s. split; [done|]. revert D. apply dropped_ext. by apply Hnone.
Qed.

Lemma free_user_pages_spec :
  exists s, paging_free_user_pages (4096 * d) m = Done (set_pm s m) /\
    dropped (fun f => maps m d f \/ tables m d f) s.
Proof using All.
  destruct (us_dir _ _ _ U) as (Hd0 & _). unfold paging_free_user_pages.
  replace (4096 * d =? 0) with false by lia. rewrite !pd_index_spec.
  replace (pd_idx VMM_USER_START) with 1 by reflexivity.
  replace (Z.to_nat (pd_idx VMM_USER_END - 1)) with 255%nat by reflexivity.
  assert (H0 : exit_inv 1 0 m).
  { exists (pm m). split; [by destruct m|]. assert (Hno : forall x, ~ done_before 1 0 x).
    { intros x [(i & j & Hi & Hj & Hlt & _)|(i & Hi & Hlt & _)]; unfold user in Hi; lia. }
    split; [apply U| |by intros x ?%Hno|done|lia].
    intros x k. split; [|by intros [? _]]. intros H. split; [done|]. by intros (_ & ?%Hno & _). }
  pose proof (for_outcome_ind (fun i => exit_inv i 0) False (free_table (4096 * d)) 255 1 m H0) as H.
  specialize (H ltac:(intros i n Hi; apply free_table_spec; unfold user; lia)).
  destruct (for_outcome _ _ _ _) as [n|]; [|done]. destruct H as (s & -> & D). exists s. split; [done|].
  revert D. apply dropped_ext. intros x. change (1 + Z.of_nat 255) with 256. split.
  - intros [(i & j & Hi & Hj & _ & Hp & Hx)|(i & Hi & _ & Hp & Hx)];
      [left; by exists i, j|right; by exists i].
  - intros [(i & j & Hi & Hj & Hp & Hx)|(i & Hi & Hp & Hx)]; pose proof Hi as Hi'; unfold user in Hi';
      [left; exists i, j|right; exists i]; (split; [done|]); [|split; [lia|done]].
    split; [done|]. split; [lia|done].
Qed.
End Drop.

(** ** The other processes *)

Lemma space_frames_change m d s :
  user_space m d -> pmm_ok R s ->
  (forall f, structure m d f -> used_block s f 0 /\ refcount_map s f = 1) ->
  (forall i j, user i -> 0 <= j < 1024 -> present (pte m d i j) = true ->
     used_block s (frame (pte m d i j)) 0 /\ 1 <= refcount_map s (frame (pte m d i j)) /\
     (private_entry (pte m d i j) = true -> refcount_map s (frame (pte m d i j)) = 1)) ->
  user_space (set_pm s m) d.
Proof.
  intros U K HS HP. split; try apply U.
  - split; [done|apply U].
  - split; [apply U|]. apply HS. by left.
  - intros i Hi Hp. change (ent (set_pm s m) d i) with (ent m d i) in Hp.
    destruct (us_table _ _ _ U i Hi Hp) as (H1 & _ & _ & H4). split; [done|].
    destruct (HS (tbl m d i)) as [? ?]; [right; by exists i|]. done.
  - intros i j Hi Hj Hp. change (pte (set_pm s m) d i j) with (pte m d i j) in *.
    destruct (us_page _ _ _ U i j Hi Hj Hp) as (H1 & _). split; [done|]. by apply HP.
Qed.

Lemma exit_spaces m D d :
  spaces m D -> d ∈ D -> Z.of_nat (length D) < UINT16_MAX ->
  exists m', paging_free_user_pages (4096 * d) m = Done m' /\ spaces m' (without d D) /\
    physmem m' = physmem m /\ current_pd m' = current_pd m /\
    (forall f k, used_block (pm m') f k <->
       used_block (pm m) f k /\ ~ (k = 0 /\ (maps m d f /\ rc m f = 1 \/ tables m d f))) /\
    free_pages (pm m) <= free_pages (pm m').
Proof.
  intros S Hd Hlen. pose proof (sp_space _ _ _ S d Hd) as U.
  assert (Hc : countable_refs m d).
  { intros i j Hi Hj Hp. rewrite (sp_refs _ _ _ S d); [|done|by exists i, j].
    pose proof (refs_bound m D (frame (pte m d i j))). lia. }
  destruct (free_user_pages_spec m d U Hc) as (s & E & Dr). exists (set_pm s m). split; [done|].
  assert (HT : forall f, tables m d f -> rc m f = 1)
    by (intros f Hf; by destruct (structure_used R m d f U ltac:(by right)) as (_ & _ & ?)).
  split; [|split; [done|split; [done|split; [|apply Dr]]]].
  2:{ intros f k. cbn [pm set_pm]. rewrite (dr_used _ _ _ Dr). split; intros [H1 H2]; (split; [done|]).
      - intros (-> & [[? ?]|Hx]); apply H2; (split; [done|]); [tauto|]. split; [by right|by apply HT].
      - intros (-> & [Hx|Hx] & Hr); apply H2; (split; [done|]); [by left|by right]. }
  assert (HD : forall x, x ∈ without d D -> x ∈ D /\ x <> d) by (intros x [? ?]%elem_of_without; done).
  assert (Hst : forall x f, x ∈ without d D -> structure m x f ->
    used_block s f 0 /\ refcount_map s f = 1).
  { intros x f [Hx Hne]%HD Hf. destruct (structure_used R m x f (sp_space _ _ _ S x Hx) Hf) as (_ & H2 & H3).
    assert (Hq : ~ (maps m d f \/ tables m d f)).
    { intros [Hm|Ht]; [by apply (sp_pages _ _ _ S d x f)|].
      apply Hne. apply (sp_structs _ _ _ S x d f); try done. by right. }
    rewrite (dr_same _ _ _ Dr f Hq). split; [|done]. apply (dr_used _ _ _ Dr). split; [done|tauto]. }
  assert (Hpg : forall x f, x ∈ without d D -> maps m x f ->
    used_block s f 0 /\ refcount_map s f = refs m (without d D) f).
  { intros x f [Hx Hne]%HD Hm. destruct (maps_used R m x f (sp_space _ _ _ S x Hx) Hm) as (_ & H2 & _).
    pose proof (refs_without m D d f (sp_nodup _ _ _ S) Hd) as Hrw.
    rewrite <- (sp_refs _ _ _ S x f Hx Hm) in Hrw.
    assert (Ht : ~ tables m d f) by (intros Ht; apply (sp_pages _ _ _ S x d f); try done; by right).
    rewrite (dr_used _ _ _ Dr). destruct (mapsb m d f) eqn:Hb.
    - apply mapsb_spec in Hb. rewrite (dr_rc _ _ _ Dr f) by (by left). cbn [Z.b2z] in Hrw.
      pose proof (refs_two m D d x f (sp_nodup _ _ _ S) Hd Hx ltac:(congruence) Hb Hm) as H2r.
      rewrite <- (sp_refs _ _ _ S x f Hx Hm) in H2r. split; [split; [done|lia]|lia].
    - assert (Hnm : ~ maps m d f) by (intros ?%mapsb_spec; congruence).
      rewrite (dr_same _ _ _ Dr f) by tauto. cbn [Z.b2z] in Hrw. split; [split; [done|tauto]|lia]. }
  split.
  - split; [apply Dr|apply S].
  - apply NoDup_filter, S.
  - intros x Hx. pose proof (HD x Hx) as [HxD Hne]. pose proof (sp_space _ _ _ S x HxD) as Ux.
    apply space_frames_change; [done|apply Dr|intros f; by apply Hst|].
    intros i j Hi Hj Hp. assert (Hm : maps m x (frame (pte m x i j))) by (by exists i, j).
    destruct (Hpg x _ Hx Hm) as [H1 H2]. rewrite H2.
    assert (Hn : NoDup (without d D)) by (apply NoDup_filter, S).
    pose proof (refs_mapped m _ x _ Hn Hx Hm) as H3. split; [done|]. split; [done|]. intros Hcow.
    destruct (us_page _ _ _ Ux i j Hi Hj Hp) as (_ & _ & _ & H4). specialize (H4 Hcow).
    rewrite (sp_refs _ _ _ S x _ HxD Hm), (refs_without m D d _ (sp_nodup _ _ _ S) Hd) in H4.
    destruct (mapsb m d (frame (pte m x i j))); cbn [Z.b2z] in H4; lia.
  - intros x x' f [Hx _]%HD [Hx' _]%HD. by apply (sp_structs _ _ _ S).
  - intros x x' f [Hx _]%HD [Hx' _]%HD. by apply (sp_pages _ _ _ S).
  - intros x f Hx Hm. rewrite (refs_ext m) by done. by apply (Hpg x f Hx).
Qed.
End Exit.
