(* ===== verification/SpacesWrite.v ===== *)
(** A process writes to its memory: the fault handler gives it a private copy of a
    page it shares, and no other process sees the write. *)

From S2P Require Import Prelude Dll Pmm PmmMeta PmmInv PmmSteps PmmAlloc PmmFree PmmProps PmmInit PmmSpec Frames Paging PagingProps PagingSpec Fork ForkSpec ForkDir ForkSpaces AddrSpaces SpacesExit.
From Stdlib Require Import ZArith Lia Bool.
From stdpp Require Import base tactics numbers list sets gmap.
Open Scope Z_scope.

Definition user_addr (v : Z) : Prop := VMM_USER_START <= v < VMM_USER_END.

Lemma user_addr_idx v : user_addr v -> is_u32 v /\ user (pd_idx v) /\ 0 <= pt_idx v < 1024.
Proof.
  unfold user_addr, VMM_USER_START, VMM_USER_END, is_u32, user, pd_idx. intros Hv.
  split; [lia|]. split; [dlia|]. apply idx_range. lia.
Qed.

(** What a process reads at an address. *)
Definition reads (m : mmu) (d v : Z) : option Z :=
  let w := pte m d (pd_idx v) (pt_idx v) in
  if present w then Some (word m (frame w) (v mod 4096)) else None.

(** The entry the handler writes for the new frame [g]. *)
Definition own_entry (g w : Z) : Z :=
  set_bit PTE_AVAIL_COW false (set_bit PTE_RW true (set_frame g w)).

Lemma own_entry_spec g w :
  0 <= g < 2 ^ 20 -> 0 <= w < 2 ^ 32 ->
  0 <= own_entry g w < 2 ^ 32 /\ frame (own_entry g w) = g /\ present (own_entry g w) = present w /\
  Z.testbit (own_entry g w) PTE_RW = true.
Proof.
  intros Hg Hw. unfold own_entry, present, PTE_AVAIL_COW, PTE_RW, PTE_PRESENT.
  split; [apply set_bit_word; [lia|]; apply set_bit_word; [lia|]; by apply set_frame_word|].
  split; [by rewrite !frame_set_bit, frame_set_frame by lia|].
  rewrite !set_bit_spec by lia. cbn [decide]. by rewrite set_frame_bits by lia.
Qed.

(** The tables of the current directory, by frame. *)
Lemma translate_pte m d v :
  current_pd m = 4096 * d ->
  translate m v = (if present (pte m d (pd_idx v) (pt_idx v))
    then Some (4096 * frame (pte m d (pd_idx v) (pt_idx v)) + v mod 4096) else None) /\
  (present (pte m d (pd_idx v) (pt_idx v)) = true ->
   physmem m (pte_addr m v) = pte m d (pd_idx v) (pt_idx v) /\
   pte_addr m v = entry_addr (4096 * tbl m d (pd_idx v)) (pt_idx v)).
Proof.
  intros Hcd. unfold translate, pte_addr, pde. rewrite Hcd, !ent_addr. unfold pte, tbl.
  destruct (present (ent m d (pd_idx v))); cbn [andb]; by rewrite ?ent_addr.
Qed.

Section Write.
Context (R : (Z -> list Z) -> Prop) `{!block_stable R}.
Abbreviation good := (good R).
Abbreviation user_space := (user_space R).
Abbreviation spaces := (spaces R).

(** ** The fault handler *)

Record cow_done (m : mmu) (d i j g : Z) (m' : mmu) : Prop := {
  cd_free : free_frame m g;
  cd_bound : 0 < g < 2 ^ 20;
  cd_good : good m';
  cd_pd : current_pd m' = current_pd m;
  cd_word x y : 0 <= y < 4096 -> word m' x y =
    if decide (x = g) then word m (frame (pte m d i j)) y
    else if decide (x = tbl m d i /\ y = 4 * j) then own_entry g (pte m d i j) else word m x y;
  cd_used x k : used_block (pm m') x k <->
    (used_block (pm m) x k \/ (x = g /\ k = 0)) /\
    ~ (rc m (frame (pte m d i j)) = 1 /\ x = frame (pte m d i j) /\ k = 0);
  cd_rc x : rc m' x = if decide (x = frame (pte m d i j)) then rc m x - 1
    else if decide (x = g) then 1 else rc m x;
  cd_left : free_pages (pm m) - 1 <= free_pages (pm m') <= free_pages (pm m) }.

Lemma cow_handler m d v :
  user_space m d -> current_pd m = 4096 * d -> user_addr v ->
  present (pte m d (pd_idx v) (pt_idx v)) = true ->
  rc m (frame (pte m d (pd_idx v) (pt_idx v))) < UINT16_MAX ->
  exists ok m', paging_handle_page_fault_cow v m = Done (ok, m') /\
    (ok = false /\ m' = m /\
       (Z.testbit (pte m d (pd_idx v) (pt_idx v)) PTE_AVAIL_COW = false \/ free_pages (pm m) = 0) \/
     ok = true /\ Z.testbit (pte m d (pd_idx v) (pt_idx v)) PTE_AVAIL_COW = true /\ 0 < free_pages (pm m) /\
       exists g, cow_done m d (pd_idx v) (pt_idx v) g m').
Proof.
  intros U Hcd Hv Hp Hmax. destruct (user_addr_idx v Hv) as (Hv32 & Hi & Hj).
  pose proof (us_good _ _ _ U) as G. destruct (translate_pte m d v Hcd) as [_ Hpa].
  destruct (Hpa Hp) as [_ Hadr]. clear Hpa.
  destruct (us_page _ _ _ U _ _ Hi Hj Hp) as (Hf0 & Hfu & Hr1 & _).
  destruct (us_page_not _ _ _ U _ _ Hi Hj Hp) as [_ Hnt].
  pose proof (pte_present _ _ _ _ Hp) as Hpd. specialize (Hnt _ Hi Hpd).
  destruct (us_table _ _ _ U _ Hi Hpd) as (_ & Htu & _).
  set (i := pd_idx v) in *. set (j := pt_idx v) in *.
  assert (Hpe : pte m d i j = ent m (tbl m d i) j) by (unfold pte; by rewrite Hpd).
  assert (Hww : 0 <= pte m d i j < 2 ^ 32) by (rewrite Hpe; apply (good_words _ _ G)).
  unfold paging_handle_page_fault_cow. rewrite paging_align_spec, Z.shiftr_div_pow2 by (done || lia).
  fold (paging_get_pt_index (4096 * (v / 4096))). rewrite pt_index_spec.
  fold (pd_idx (4096 * (v / 4096))). destruct (idx_align v) as [-> ->]. fold i j.
  rewrite Hcd, !ent_addr, Hpd. cbn [negb]. rewrite frame_addr by apply (good_words _ _ G).
  fold (tbl m d i). rewrite ent_addr, <- Hpe, Hp. cbn [negb].
  destruct (Z.testbit (pte m d i j) PTE_AVAIL_COW); cbn [negb];
    [|exists false, m; split; [done|]; left; split; [done|]; split; [done|by left]].
  pose proof (pmm_alloc_page_effect R (pm m) (good_pmm _ _ G)) as H.
  pose proof (alloc_page_free R (pm m) (good_pmm _ _ G)) as Hfr.
  destruct (pmm_alloc_page (pm m)) as [a p]. destruct H as [K [[-> ->]|(g & -> & Hg & Hno & Ug & Cg)]].
  { cbn [Z.eqb]. rewrite mmu_eta. exists false, m. split; [done|]. left.
    split; [done|]. split; [done|]. right. lia. }
  change (PMM_PAGE_SIZE * g) with (4096 * g) in *.
  assert (free_pages p = free_pages (pm m) - 1) as Hfp by lia. clear Hfr. replace (4096 * g =? 0) with false by lia.
  cbn [physmem current_pd pm set_pm]. rewrite ent_addr, <- Hpe, shiftr_page, frame_addr by done.
  change (mk_mmu (physmem m) (current_pd m) p) with (set_pm p m).
  assert (Hff : free_frame m g) by done.
  assert (Hgb : 0 < g < 2 ^ 20).
  { apply (used_pos R (set_pm p m)); [by split; [|apply G]|done|]. unfold used. cbn. rewrite Ug. by right. }
  assert (Hgf : frame (pte m d i j) <> g) by (by apply (fresh_not_used m)).
  assert (Hgt : tbl m d i <> g) by (by apply (fresh_not_used m)).
  set (f := frame (pte m d i j)) in *. set (m1 := copy_page _ _ _).
  assert (W1 : forall x y, 0 <= y < 4096 -> word m1 x y = if decide (x = g) then word m f y else word m x y).
  { intros x y Hy. unfold m1. by rewrite word_copy. }
  assert (He1 : physmem m1 (entry_addr (4096 * tbl m d i) j) = pte m d i j).
  { rewrite ent_addr, Hpe. unfold ent. by rewrite W1, decide_False by (done || lia). }
  cbn [physmem current_pd pm copy_page set_pm] in *. fold m1. rewrite !He1. fold (own_entry g (pte m d i j)).
  destruct (drop_reference_spec R p f K Hf0) as (s & E & Ks & Us & Cs & Fs).
  { rewrite Ug. by left. } { rewrite Cg, decide_False by done. unfold rc in *. lia. }
  cbn [pm set_word]. unfold drop_reference in E. change (pm m1) with p.
  destruct (pmm_dec_refcount (4096 * f) p) as [[r p']|]; [|done]. injection E as ->.
  eexists true, _. split; [done|]. right. split; [done|]. split; [done|].
  split; [pose proof (free_pages_nonneg R p K); lia|]. exists g.
  destruct (own_entry_spec g (pte m d i j) ltac:(lia) Hww) as (Hwd & _). split; try done.
  - split; [done|]. intros y. cbn [physmem set_pm set_word]. rewrite upd_cases. case_decide; [done|].
    unfold m1, copy_page. cbn [physmem]. destruct (_ && _); apply G.
  - intros x y Hy. rewrite word_set_pm. unfold entry_addr. rewrite word_set_word by lia.
    destruct (decide (x = g)) as [->|Hne].
    + rewrite decide_False by (intros [? _]; congruence). by rewrite W1, decide_True.
    + case_decide; [done|]. by rewrite W1, decide_False.
  - intros x k. cbn [pm set_pm]. rewrite Us, Ug, Cg, decide_False by done. done.
  - intros x. fold f. unfold rc. cbn [pm set_pm]. rewrite Cs, !Cg, (decide_False (P := f = g)) by done.
    by destruct (decide (x = f)) as [->|].
  - cbn [pm set_pm]. destruct (refcount_map p f =? 1); lia.
Qed.

Section CowDone.
Context (m : mmu) (D : list Z) (d i j g : Z) (m' : mmu).
Context (S : spaces m D) (Hd : d ∈ D) (Hi : user i) (Hj : 0 <= j < 1024).
Context (Hp : present (pte m d i j) = true) (C : cow_done m d i j g m').

Let f := frame (pte m d i j).
Let t := tbl m d i.

Lemma cow_U : user_space m d.
Proof using S Hd. by apply (sp_space _ _ _ S). Qed.

Lemma cow_word_kept x y :
  used m x -> 0 <= y < 4096 -> (x <> t \/ y <> 4 * j) -> word m' x y = word m x y.
Proof using All.
  intros Hx Hy Hne. rewrite (cd_word _ _ _ _ _ _ C) by done.
  rewrite decide_False by (apply (fresh_not_used m); [apply C|done]).
  rewrite decide_False by (intros [? ?]; subst t; intuition congruence). done.
Qed.

Lemma cow_table : structure m d t /\ used m t.
Proof using All.
  pose proof (pte_present _ _ _ _ Hp) as Hpd. split; [right; by exists i|].
  by apply (us_table _ _ _ cow_U).
Qed.

Lemma cow_entries d' k : d' ∈ D -> user k -> ent m' d' k = ent m d' k.
Proof using All.
  intros Hd' Hk. unfold user in Hk. pose proof (sp_space _ _ _ S d' Hd') as U'. destruct cow_table as [Ht _].
  apply cow_word_kept; [apply U'|lia|]. left. intros Heq.
  assert (d' = d) as ->.
  { apply (sp_structs _ _ _ S d' d d'); try done; [by left|]. by rewrite Heq. }
  destruct (us_table _ _ _ cow_U i Hi (pte_present _ _ _ _ Hp)) as (_ & _ & _ & H). by apply H.
Qed.

Lemma cow_pte d' i' j' :
  d' ∈ D -> user i' -> 0 <= j' < 1024 ->
  pte m' d' i' j' =
  if decide (d' = d /\ i' = i /\ j' = j) then own_entry g (pte m d i j) else pte m d' i' j'.
Proof using All.
  intros Hd' Hi' Hj'. pose proof (sp_space _ _ _ S d' Hd') as U'. destruct cow_table as [Ht Htu].
  unfold pte at 1, tbl. rewrite cow_entries by done. fold (tbl m d' i').
  destruct (decide (d' = d /\ i' = i /\ j' = j)) as [(-> & -> & ->)|Hne].
  - rewrite (pte_present _ _ _ _ Hp). unfold ent. rewrite (cd_word _ _ _ _ _ _ C) by lia.
    rewrite decide_False by (apply (fresh_not_used m); [apply C|done]). by rewrite decide_True.
  - unfold pte. destruct (present (ent m d' i')) eqn:Hpe; [|done].
    apply cow_word_kept; [by apply (us_table _ _ _ U')|lia|].
    destruct (decide (j' = j)) as [->|]; [left|right; lia]. intros Heq. apply Hne.
    assert (d' = d) as ->.
    { apply (sp_structs _ _ _ S d' d t); try done. right. by exists i'. }
    split; [done|]. split; [|done]. apply (us_table_inj _ _ _ cow_U); try done.
    by apply (pte_present _ _ _ j).
Qed.

Lemma cow_structure d' x : d' ∈ D -> structure m' d' x <-> structure m d' x.
Proof using All.
  intros Hd'. split; (intros [->|(k & Hk & Hpk & ->)]; [by left|right]); exists k;
    unfold tbl in *; by rewrite cow_entries in *.
Qed.

Lemma cow_own : frame (own_entry g (pte m d i j)) = g /\ present (own_entry g (pte m d i j)) = true.
Proof using All.
  pose proof (cd_bound _ _ _ _ _ _ C).
  destruct (own_entry_spec g (pte m d i j) ltac:(lia) (pte_word R m d cow_U i j)) as (_ & -> & -> & _). done.
Qed.

(** The frame [f] was mapped by [d] through this entry only. *)
Lemma cow_maps_old d' x : d' ∈ D -> d' <> d -> maps m' d' x <-> maps m d' x.
Proof using All.
  intros Hd' Hne. split; intros (i' & j' & Hi' & Hj' & Hp' & ->); exists i', j';
    rewrite cow_pte, decide_False in * by (done || tauto); done.
Qed.

Lemma cow_maps_d x : maps m' d x <-> x = g \/ (x <> f /\ maps m d x).
Proof using All.
  destruct cow_own as [Hof Hop]. split.
  - intros (i' & j' & Hi' & Hj' & Hp' & ->). rewrite cow_pte in * by done. case_decide as Hc; [left; done|right].
    split; [|by exists i', j']. intros Heq. apply Hc. split; [done|].
    by apply (us_page_inj _ _ _ cow_U i' j' i j).
  - intros [->|(Hx & i' & j' & Hi' & Hj' & Hp' & ->)].
    + exists i, j. rewrite cow_pte, decide_True by done. by rewrite Hop, Hof.
    + assert (Hne : ~ (d = d /\ i' = i /\ j' = j)) by (intros (_ & -> & ->); by apply Hx).
      exists i', j'. by rewrite cow_pte, decide_False by done.
Qed.

Lemma cow_not_free x : used m x -> x <> g.
Proof using All. intros Hx. apply (fresh_not_used m); [apply C|done]. Qed.

(** Frames other than [f] and [g] keep their state. *)
Lemma cow_rc_kept x : used m x -> x <> f -> used m' x /\ rc m' x = rc m x.
Proof using All.
  intros Hx Hne. pose proof (cow_not_free x Hx). split.
  - apply (cd_used _ _ _ _ _ _ C). split; [by left|]. by intros (_ & ? & _).
  - rewrite (cd_rc _ _ _ _ _ _ C), !decide_False by done. done.
Qed.

(** [f] after the fault. *)
Lemma cow_rc_f : maps m d f /\ rc m f = refs m D f /\ rc m' f = rc m f - 1 /\ (1 < rc m f -> used m' f).
Proof using All.
  assert (Hm : maps m d f) by (by exists i, j). split; [done|].
  split; [by apply (sp_refs _ _ _ S d)|].
  split; [by rewrite (cd_rc _ _ _ _ _ _ C), decide_True|]. intros Hr.
  apply (cd_used _ _ _ _ _ _ C). destruct (maps_used R m d f cow_U Hm) as (_ & Hu & _).
  split; [by left|]. fold f. lia.
Qed.

Lemma cow_rc_g : used m' g /\ rc m' g = 1.
Proof using All.
  destruct cow_rc_f as (Hm & _). destruct (maps_used R m d f cow_U Hm) as (_ & Hu & _).
  pose proof (cow_not_free f Hu) as Hne. split.
  - apply (cd_used _ _ _ _ _ _ C). split; [by right|]. fold f. intros (_ & Heq & _). congruence.
  - rewrite (cd_rc _ _ _ _ _ _ C), decide_False, decide_True by (done || congruence). done.
Qed.

Lemma cow_refs x : refs m' D x = if decide (x = g) then 1 else if decide (x = f) then refs m D f - 1 else refs m D x.
Proof using All.
  pose proof (sp_nodup _ _ _ S) as Hn. destruct cow_rc_f as (Hmf & _).
  assert (Hw : refs m' (without d D) x = refs m (without d D) x).
  { apply refs_ext. intros y [Hne Hy]%elem_of_without. apply mapsb_ext. by apply cow_maps_old. }
  rewrite (refs_without m' D d x Hn Hd), Hw. destruct (decide (x = g)) as [->|Hg].
  - assert (mapsb m' d g = true) as -> by (apply mapsb_spec, cow_maps_d; by left).
    rewrite refs_none; [done|]. intros y [Hne Hy]%elem_of_without Hm.
    destruct (maps_used R m y g (sp_space _ _ _ S y Hy) Hm) as (_ & Hu & _). by apply (cow_not_free g).
  - destruct (decide (x = f)) as [->|Hf].
    + rewrite (refs_without m D d f Hn Hd). rewrite (proj2 (mapsb_spec m d f)) by done.
      rewrite mapsb_false; [cbn [Z.b2z]; lia|]. rewrite cow_maps_d. intuition.
    + rewrite (refs_without m D d x Hn Hd). f_equal. f_equal. apply mapsb_ext. rewrite cow_maps_d. intuition.
Qed.

(** A page another process maps. *)
Lemma cow_page_other d' x :
  d' ∈ D -> d' <> d -> maps m d' x -> used m' x /\ rc m' x = refs m' D x /\ 1 <= rc m' x <= rc m x.
Proof using All.
  intros Hd' Hne Hm. destruct (maps_used R m d' x (sp_space _ _ _ S d' Hd') Hm) as (_ & Hu & H1).
  pose proof (sp_refs _ _ _ S d' x Hd' Hm) as Hr. rewrite cow_refs, decide_False by (by apply cow_not_free).
  destruct (decide (x = f)) as [->|Hf].
  - destruct cow_rc_f as (Hmf & Hrf & -> & Hu').
    pose proof (refs_two m D d d' f (sp_nodup _ _ _ S) Hd Hd' ltac:(congruence) Hmf Hm).
    rewrite <- Hrf. split; [apply Hu'; lia|lia].
  - destruct (cow_rc_kept x Hu Hf) as [? ->]. split; [done|lia].
Qed.

Lemma structure_not_f d' x : d' ∈ D -> structure m d' x -> used m x /\ rc m x = 1 /\ x <> f.
Proof using All.
  intros Hd' Hst. destruct (structure_used R m d' x (sp_space _ _ _ S d' Hd') Hst) as (_ & ? & ?).
  split; [done|]. split; [done|]. intros ->. destruct cow_rc_f as (Hm & _).
  by apply (sp_pages _ _ _ S d d' f).
Qed.

Lemma cow_structure_kept d' x : d' ∈ D -> structure m d' x -> 0 < x /\ used m' x /\ rc m' x = 1.
Proof using All.
  intros Hd' Hst. destruct (structure_not_f d' x Hd' Hst) as (Hu & Hr & Hf).
  destruct (structure_used R m d' x (sp_space _ _ _ S d' Hd') Hst) as (H0 & _).
  destruct (cow_rc_kept x Hu Hf) as [? ->]. done.
Qed.

(** The pages of every space after the fault. *)
Lemma cow_page d' i' j' :
  d' ∈ D -> user i' -> 0 <= j' < 1024 -> present (pte m' d' i' j') = true ->
  (d' = d /\ i' = i /\ j' = j /\ frame (pte m' d' i' j') = g) \/
  (~ (d' = d /\ i' = i /\ j' = j) /\ pte m' d' i' j' = pte m d' i' j' /\
   present (pte m d' i' j') = true /\
   used m (frame (pte m d' i' j')) /\ used m' (frame (pte m d' i' j')) /\
   1 <= rc m' (frame (pte m d' i' j')) <= rc m (frame (pte m d' i' j'))).
Proof using All.
  intros Hd' Hi' Hj'. pose proof (sp_space _ _ _ S d' Hd') as U'. rewrite cow_pte by done.
  destruct cow_own as [Hof Hop]. case_decide as Hc; [left; naive_solver|]. intros Hp'. right.
  destruct (us_page _ _ _ U' i' j' Hi' Hj' Hp') as (_ & Hu & Hr & _).
  split; [done|]. split; [done|]. split; [done|]. split; [done|].
  destruct (decide (d' = d)) as [->|Hne].
  - destruct (cow_rc_kept (frame (pte m d i' j')) Hu) as [? ->]; [|split; [done|lia]].
    intros Heq. apply Hc. split; [done|]. by apply (us_page_inj _ _ _ cow_U i' j' i j).
  - destruct (cow_page_other d' (frame (pte m d' i' j')) Hd' Hne) as (? & _ & ?); [by exists i', j'|done].
Qed.

Lemma cow_space d' : d' ∈ D -> user_space m' d'.
Proof using All.
  intros Hd'. pose proof (sp_space _ _ _ S d' Hd') as U'.
  assert (Ht : forall k, user k -> tbl m' d' k = tbl m d' k) by (intros; unfold tbl; by rewrite cow_entries).
  split.
  - apply C.
  - apply cow_structure_kept with d'; [done|by left].
  - intros k Hk. rewrite Ht, cow_entries by done. intros Hpk.
    destruct (cow_structure_kept d' (tbl m d' k) Hd') as (? & ? & ?); [right; by exists k|].
    destruct (us_table _ _ _ U' k Hk Hpk) as (_ & _ & _ & ?). done.
  - intros k k' Hk Hk'. rewrite !Ht, !cow_entries by done. by apply U'.
  - intros i' j' Hi' Hj' Hp'. destruct cow_rc_g as [Hgu Hgr].
    destruct (cow_page d' i' j' Hd' Hi' Hj' Hp') as [(_ & _ & _ & ->)|(_ & -> & Hp0 & _ & Hu & Hr)].
    + split; [apply C|]. split; [done|]. split; [lia|done].
    + destruct (us_page _ _ _ U' i' j' Hi' Hj' Hp0) as (H0 & _ & _ & H4).
      split; [done|]. split; [done|]. split; [lia|]. intros Hpr. specialize (H4 Hpr). lia.
  - intros i' j' Hi' Hj' Hp'.
    destruct (cow_page d' i' j' Hd' Hi' Hj' Hp') as [(_ & _ & _ & ->)|(_ & -> & Hp0 & _)].
    + split; [apply not_eq_sym, cow_not_free, U'|]. intros k Hk. rewrite Ht, cow_entries by done.
      intros Hpk. apply not_eq_sym, cow_not_free. by apply (us_table _ _ _ U').
    + destruct (us_page_not _ _ _ U' i' j' Hi' Hj' Hp0) as [? H]. split; [done|].
      intros k Hk. rewrite Ht, cow_entries by done. by apply H.
  - intros i1 j1 i2 j2 Hi1 Hi2 Hj1 Hj2 Hp1 Hp2.
    destruct (cow_page d' i1 j1 Hd' Hi1 Hj1 Hp1) as [(_ & -> & -> & ->)|(_ & -> & Hq1 & Hu1 & _)],
      (cow_page d' i2 j2 Hd' Hi2 Hj2 Hp2) as [(_ & -> & -> & ->)|(_ & -> & Hq2 & Hu2 & _)].
    + done.
    + intros Heq. by destruct (cow_not_free _ Hu2).
    + intros Heq. by destruct (cow_not_free _ Hu1).
    + by apply (us_page_inj _ _ _ U').
Qed.

Lemma cow_spaces : spaces m' D.
Proof using All.
  assert (HM : forall d' x, d' ∈ D -> maps m' d' x -> x = g \/ maps m d' x).
  { intros d' x Hd' Hm. destruct (decide (d' = d)) as [->|Hne].
    - apply cow_maps_d in Hm as [?|[_ ?]]; [by left|by right].
    - right. by apply cow_maps_old. }
  split.
  - apply C.
  - apply S.
  - apply cow_space.
  - intros d1 d2 x H1 H2. rewrite !cow_structure by done. by apply (sp_structs _ _ _ S).
  - intros d1 d2 x H1 H2 Hm. rewrite cow_structure by done. intros Hst.
    destruct (HM d1 x H1 Hm) as [->|Hm']; [|by apply (sp_pages _ _ _ S d1 d2 x)].
    destruct (structure_used R m d2 g (sp_space _ _ _ S d2 H2) Hst) as (_ & Hu & _). by apply (cow_not_free g).
  - intros d' x Hd' Hm. destruct (decide (d' = d)) as [->|Hne].
    + rewrite cow_refs. apply cow_maps_d in Hm as [->|[Hf Hm]].
      * rewrite decide_True by done. apply cow_rc_g.
      * destruct (maps_used R m d x cow_U Hm) as (_ & Hu & _).
        rewrite decide_False by (by apply cow_not_free). rewrite decide_False by done.
        destruct (cow_rc_kept x Hu Hf) as [_ ->]. by apply (sp_refs _ _ _ S d).
    + rewrite cow_maps_old in Hm by done. by apply (cow_page_other d').
Qed.

(** The fault is invisible. *)
Lemma cow_reads d' v : d' ∈ D -> user_addr v -> reads m' d' v = reads m d' v.
Proof using All.
  intros Hd' Hv. destruct (user_addr_idx v Hv) as (_ & Hi' & Hj'). unfold reads.
  assert (Hm : 0 <= v mod 4096 < 4096) by (apply Z.mod_pos_bound; lia).
  rewrite cow_pte by done. case_decide as Hc.
  - destruct Hc as (-> & -> & ->). destruct cow_own as [-> ->]. rewrite Hp.
    by rewrite (cd_word _ _ _ _ _ _ C), decide_True.
  - destruct (present (pte m d' (pd_idx v) (pt_idx v))) eqn:Hp'; [|done]. f_equal.
    destruct (us_page _ _ _ (sp_space _ _ _ S d' Hd') _ _ Hi' Hj' Hp') as (_ & Hu & _).
    apply cow_word_kept; [done|done|]. left. intros Heq. destruct cow_table as [Ht _].
    apply (sp_pages _ _ _ S d' d t); try done. exists (pd_idx v), (pt_idx v). done.
Qed.
End CowDone.

(** ** Stores *)

(** A change of memory outside all directories and tables. *)
Lemma spaces_memory m m' D :
  spaces m D -> good m' -> pm m' = pm m ->
  (forall d f x, d ∈ D -> structure m d f -> 0 <= x < 4096 -> word m' f x = word m f x) ->
  spaces m' D /\
  (forall d i j, d ∈ D -> user i -> 0 <= j < 1024 -> pte m' d i j = pte m d i j).
Proof.
  intros S G Hpm Hw.
  assert (Hent : forall d k, d ∈ D -> user k -> ent m' d k = ent m d k).
  { intros d k Hd Hk. unfold user in Hk. apply (Hw d); [done|by left|lia]. }
  assert (Hpte : forall d i j, d ∈ D -> user i -> 0 <= j < 1024 -> pte m' d i j = pte m d i j).
  { intros d i j Hd Hi Hj. unfold pte, tbl. rewrite Hent by done. destruct (present (ent m d i)) eqn:Hp; [|done].
    apply (Hw d); [done|right; by exists i|lia]. }
  assert (Htbl : forall d k, d ∈ D -> user k -> tbl m' d k = tbl m d k) by (intros; unfold tbl; by rewrite Hent).
  assert (Hu : forall f, used m' f <-> used m f) by (intros; unfold used; by rewrite Hpm).
  assert (Hr : forall f, rc m' f = rc m f) by (intros; unfold rc; by rewrite Hpm).
  assert (Hst : forall d f, d ∈ D -> structure m' d f <-> structure m d f).
  { intros d f Hd. split; (intros [->|(k & Hk & Hp & ->)]; [by left|right]); exists k.
    - by rewrite Htbl, Hent in *. - by rewrite Htbl, Hent. }
  assert (Hmp : forall d f, d ∈ D -> maps m' d f <-> maps m d f).
  { intros d f Hd. split; intros (i & j & Hi & Hj & Hp & ->); exists i, j; by rewrite Hpte in *. }
  split; [|done]. split.
  - done.
  - apply S.
  - intros d Hd. pose proof (sp_space _ _ _ S d Hd) as U. split.
    + done.
    + rewrite Hu, Hr. apply U.
    + intros i Hi. rewrite Hent, Htbl, Hu, Hr by done. by apply (us_table _ _ _ U).
    + intros i i' Hi Hi'. rewrite !Hent, !Htbl by done. by apply (us_table_inj _ _ _ U).
    + intros i j Hi Hj. rewrite Hpte, Hu, Hr by done. by apply (us_page _ _ _ U).
    + intros i j Hi Hj. rewrite Hpte by done. intros Hp.
      destruct (us_page_not _ _ _ U i j Hi Hj Hp) as [? H]. split; [done|].
      intros k Hk. rewrite Hent, Htbl by done. by apply H.
    + intros i j i' j' Hi Hi' Hj Hj'. rewrite !Hpte by done. by apply (us_page_inj _ _ _ U).
  - intros d d' f Hd Hd'. rewrite !Hst by done. by apply (sp_structs _ _ _ S).
  - intros d d' f Hd Hd'. rewrite Hst, Hmp by done. by apply (sp_pages _ _ _ S).
  - intros d f Hd. rewrite Hmp, Hr by done. intros Hm. rewrite (refs_ext m m'); [by apply (sp_refs _ _ _ S d)|].
    intros d' Hd'. apply mapsb_ext. by apply Hmp.
Qed.

(** A store through a writable entry is seen by its process only. *)
Lemma store_private m D d v x :
  spaces m D -> d ∈ D -> user_addr v -> is_u32 x ->
  present (pte m d (pd_idx v) (pt_idx v)) = true ->
  Z.testbit (pte m d (pd_idx v) (pt_idx v)) PTE_RW = true ->
  let m' := set_word (4096 * frame (pte m d (pd_idx v) (pt_idx v)) + v mod 4096) x m in
  spaces m' D /\
  (forall d' u, d' ∈ D -> user_addr u ->
    reads m' d' u = if decide (d' = d /\ u = v) then Some x else reads m d' u) /\
  (forall d' i j, d' ∈ D -> user i -> 0 <= j < 1024 -> pte m' d' i j = pte m d' i j).
Proof.
  intros S Hd Hv Hx Hp Hrw m'. destruct (user_addr_idx v Hv) as (_ & Hi & Hj).
  pose proof (sp_space _ _ _ S d Hd) as U. set (f := frame (pte m d (pd_idx v) (pt_idx v))) in *.
  assert (Hm : maps m d f) by (by exists (pd_idx v), (pt_idx v)).
  assert (Ho : forall a, 0 <= a mod 4096 < 4096) by (intros; apply Z.mod_pos_bound; lia).
  destruct (us_page _ _ _ U _ _ Hi Hj Hp) as (_ & Hu & _ & H1). fold f in Hu, H1.
  specialize (H1 ltac:(unfold private_entry; rewrite Hrw; apply orb_true_r)).
  assert (Honly : forall d', d' ∈ D -> maps m d' f -> d' = d).
  { intros d' Hd' Hm'. destruct (decide (d' = d)) as [|Hne]; [done|].
    pose proof (refs_two m D d' d f (sp_nodup _ _ _ S) Hd' Hd Hne Hm' Hm).
    rewrite <- (sp_refs _ _ _ S d f Hd Hm) in *. lia. }
  destruct (spaces_memory m m' D S) as [S' Hpte]; [|done| |].
  - split; [apply S|]. intros a. cbn. rewrite upd_cases. case_decide; [done|].
    apply (good_words _ _ (sp_good _ _ _ S)).
  - intros d' g y Hd' Hst Hy. unfold m'. rewrite word_set_word by done. rewrite decide_False; [done|].
    intros [-> _]. by apply (sp_pages _ _ _ S d d' f).
  - split; [done|]. split; [|exact Hpte]. intros d' u Hd' Hu'. destruct (user_addr_idx u Hu') as (_ & Hi' & Hj').
    unfold reads. rewrite Hpte by done.
    destruct (present (pte m d' (pd_idx u) (pt_idx u))) eqn:Hp'.
    + unfold m'. rewrite word_set_word by done.
      destruct (decide (d' = d /\ u = v)) as [[-> ->]|Hne]; [by rewrite decide_True|].
      rewrite decide_False; [done|]. intros [Hf Hmod]. apply Hne.
      assert (d' = d) as -> by (apply Honly; [done|]; exists (pd_idx u), (pt_idx u); done).
      split; [done|].
      destruct (us_page_inj _ _ _ U _ _ _ _ Hi' Hi Hj' Hj Hp' Hp Hf) as [E1 E2].
      pose proof (idx_inj u v E1 E2). pose proof (Z.div_mod u 4096). pose proof (Z.div_mod v 4096). lia.
    + rewrite decide_False; [done|]. intros [-> ->]. congruence.
Qed.

(** What an entry lets its process do with the page. *)
Inductive perm := PNone | PRead | PWrite | PCopy.

Definition entry_perm (w : Z) : perm :=
  if present w then
    if Z.testbit w PTE_RW then PWrite else if Z.testbit w PTE_AVAIL_COW then PCopy else PRead
  else PNone.

Definition page_perm (m : mmu) (d v : Z) : perm := entry_perm (pte m d (pd_idx v) (pt_idx v)).

(** Whether a store takes effect: on a writable page, and on a copy-on-write page
    if there is a free page for the copy. *)
Definition store_ok (p : perm) (free : Z) : bool :=
  match p with PWrite => true | PCopy => 0 <? free | PNone | PRead => false end.

(** What a store by [d] at [v] does: the new value is seen by [d] alone, the page
    is writable from then on, and at most one page of physical memory is taken; a
    store that does not take effect changes nothing. *)
Record stored (m : mmu) (D : list Z) (d v x : Z) (ok : bool) (m' : mmu) : Prop := {
  st_spaces : spaces m' D;
  st_ok : ok = store_ok (page_perm m d v) (free_pages (pm m));
  st_reads d' u : d' ∈ D -> user_addr u ->
    reads m' d' u = if decide (ok = true /\ d' = d /\ u = v) then Some x else reads m d' u;
  st_perm d' u : d' ∈ D -> user_addr u -> page_perm m' d' u =
    if decide (ok = true /\ d' = d /\ u / 4096 = v / 4096) then PWrite else page_perm m d' u;
  st_free : free_pages (pm m) - (if ok then 1 else 0) <= free_pages (pm m') <= free_pages (pm m) }.

Lemma same_page_idx u v : u / 4096 = v / 4096 -> pd_idx u = pd_idx v /\ pt_idx u = pt_idx v.
Proof.
  intros H. unfold pd_idx, pt_idx. change (2 ^ 22) with (4096 * 1024). change (2 ^ 12) with 4096.
  rewrite <- !Z.div_div by lia. by rewrite H.
Qed.

Lemma stored_not m D d v x :
  spaces m D -> store_ok (page_perm m d v) (free_pages (pm m)) = false -> stored m D d v x false m.
Proof.
  intros S H. split; [done|done|..|lia]; intros d' u _ _; by rewrite decide_False by naive_solver.
Qed.

(** A store to the writable page of a state [n] that differs from [m] in this
    page only. *)
Lemma stored_write m D d v x n :
  spaces n D -> d ∈ D -> user_addr v -> is_u32 x ->
  (forall d' u, d' ∈ D -> user_addr u -> reads n d' u = reads m d' u) ->
  (forall d' u, d' ∈ D -> user_addr u -> page_perm n d' u =
     if decide (d' = d /\ u / 4096 = v / 4096) then PWrite else page_perm m d' u) ->
  free_pages (pm m) - 1 <= free_pages (pm n) <= free_pages (pm m) ->
  store_ok (page_perm m d v) (free_pages (pm m)) = true ->
  stored m D d v x true (set_word (4096 * frame (pte n d (pd_idx v) (pt_idx v)) + v mod 4096) x n).
Proof.
  intros Sn Hd Hv Hx Hr Hp Hf Hok.
  assert (Hw : page_perm n d v = PWrite) by (by rewrite Hp, decide_True by done).
  unfold page_perm, entry_perm in Hw. destruct (present (pte n d _ _)) eqn:Hpn; [|done].
  destruct (Z.testbit (pte n d _ _) PTE_RW) eqn:Hrn; [|destruct (Z.testbit (pte n d (pd_idx v) (pt_idx v)) PTE_AVAIL_COW); discriminate Hw].
  destruct (store_private n D d v x Sn Hd Hv Hx Hpn Hrn) as (S' & Hr' & Hpte). split; [done|done|..|done].
  - intros d' u Hd' Hu. rewrite Hr' by done. destruct (decide (d' = d /\ u = v)); [by rewrite decide_True by tauto|].
    rewrite decide_False by tauto. by apply Hr.
  - intros d' u Hd' Hu. destruct (user_addr_idx u Hu) as (_ & Hi & Hj). unfold page_perm at 1. rewrite Hpte by done.
    fold (page_perm n d' u). rewrite Hp by done.
    destruct (decide (d' = d /\ _)); [by rewrite decide_True by tauto|by rewrite decide_False by tauto].
Qed.

(** [cpu_store] in the space of [d]. *)
Lemma cpu_store_spec m D d v x :
  spaces m D -> d ∈ D -> Z.of_nat (length D) < UINT16_MAX -> current_pd m = 4096 * d ->
  user_addr v -> is_u32 x ->
  exists ok m', cpu_store v x m = Done (ok, m') /\ stored m D d v x ok m'.
Proof.
  intros S Hd Hlen Hcd Hv Hx. unfold cpu_store. destruct (translate_pte m d v Hcd) as [-> Hpa].
  destruct (user_addr_idx v Hv) as (_ & Hi & Hj). pose proof (sp_space _ _ _ S d Hd) as U.
  pose proof (stored_not m D d v x S) as Hno. pose proof (stored_write m D d v x) as Hst.
  assert (Hpe : page_perm m d v = entry_perm (pte m d (pd_idx v) (pt_idx v))) by done.
  unfold entry_perm in Hpe. rewrite Hpe in Hno, Hst.
  destruct (present (pte m d (pd_idx v) (pt_idx v))) eqn:Hp; [|exists false, m; auto].
  destruct (Hpa eq_refl) as [-> _].
  destruct (Z.testbit (pte m d (pd_idx v) (pt_idx v)) PTE_RW) eqn:Hrw.
  { eexists true, _. split; [done|]. apply Hst; try done; [|lia].
    intros d' u Hd' Hu. case_decide as Hc; [|done]. destruct Hc as [-> Hc].
    destruct (same_page_idx u v Hc) as [E1 E2]. unfold page_perm in *. by rewrite E1, E2. }
  unfold page_fault_try_recover. cbn [andb].
  assert (Hmax : rc m (frame (pte m d (pd_idx v) (pt_idx v))) < UINT16_MAX).
  { rewrite (sp_refs _ _ _ S d); [|done|by exists (pd_idx v), (pt_idx v)].
    pose proof (refs_bound m D (frame (pte m d (pd_idx v) (pt_idx v)))). lia. }
  destruct (cow_handler m d v U Hcd Hv Hp Hmax) as (ok & m1 & -> & [(-> & -> & Hwhy)|(-> & Hcow & Hpos & g & C)]).
  - rewrite (proj1 (translate_pte m d v Hcd)), Hp. exists false, m. split; [done|]. apply Hno.
    destruct Hwhy as [->|Hz]; [done|]. rewrite Hz. by destruct (Z.testbit (pte m d _ _) PTE_AVAIL_COW).
  - rewrite Hcow in Hst. pose proof (cow_pte m D d _ _ g m1 S Hd Hi Hj Hp C d _ _ Hd Hi Hj) as Hpt.
    rewrite decide_True in Hpt by done.
    rewrite (proj1 (translate_pte m1 d v ltac:(by rewrite (cd_pd _ _ _ _ _ _ C)))).
    destruct (own_entry_spec g (pte m d (pd_idx v) (pt_idx v)) ltac:(pose proof (cd_bound _ _ _ _ _ _ C); lia)
      (pte_word R m d U _ _)) as (_ & _ & Hop & Horw). rewrite Hp, <- Hpt in Hop. rewrite <- Hpt in Horw.
    rewrite Hop. eexists true, _. split; [done|]. apply Hst; try done.
    + by apply (cow_spaces m D d (pd_idx v) (pt_idx v) g m1).
    + intros d' u Hd' Hu. by apply (cow_reads m D d (pd_idx v) (pt_idx v) g m1).
    + intros d' u Hd' Hu. destruct (user_addr_idx u Hu) as (_ & Hi' & Hj'). case_decide as Hc.
      * destruct Hc as [-> Hc]. destruct (same_page_idx u v Hc) as [E1 E2]. unfold page_perm, entry_perm.
        by rewrite E1, E2, Hop, Horw.
      * unfold page_perm. rewrite (cow_pte m D d _ _ g m1 S Hd Hi Hj Hp C d' _ _ Hd' Hi' Hj').
        rewrite decide_False; [done|]. intros (-> & E1 & E2). apply Hc. split; [done|]. by apply idx_inj.
    + apply C.
    + cbn [store_ok]. lia.
Qed.

(** ** Changing the flags of an entry *)

(** An entry rewritten with other flags, as [paging_map_page] does when a segment
    has been loaded and becomes read-only. *)
Lemma spaces_flags m D d i j w :
  spaces m D -> d ∈ D -> user i -> 0 <= j < 1024 -> present (pte m d i j) = true -> is_u32 w ->
  frame w = frame (pte m d i j) -> present w = true ->
  (private_entry w = true -> rc m (frame w) = 1) ->
  let m' := set_word (entry_addr (4096 * tbl m d i) j) w m in
  spaces m' D /\
  (forall d' i' j', d' ∈ D -> user i' -> 0 <= j' < 1024 ->
     pte m' d' i' j' = if decide (d' = d /\ i' = i /\ j' = j) then w else pte m d' i' j').
Proof.
  intros S Hd Hi Hj Hp Hw Hf Hpw Hpriv m'. pose proof (pte_present _ _ _ _ Hp) as Hpd.
  assert (Hst : structure m d (tbl m d i)) by (right; by exists i).
  assert (Hent : forall d' k, d' ∈ D -> user k -> ent m' d' k = ent m d' k).
  { intros d' k Hd' Hk. unfold user in Hk. unfold m'. rewrite ent_set_word by lia. rewrite decide_False; [done|].
    intros [-> _]. assert (tbl m d i = d) as Heq.
    { apply (sp_structs _ _ _ S (tbl m d i) d (tbl m d i)); try done. by left. }
    by destruct (us_table _ _ _ (sp_space _ _ _ S d Hd) i Hi Hpd) as (_ & _ & _ & ?). }
  assert (Hpte : forall d' i' j', d' ∈ D -> user i' -> 0 <= j' < 1024 ->
     pte m' d' i' j' = if decide (d' = d /\ i' = i /\ j' = j) then w else pte m d' i' j').
  { intros d' i' j' Hd' Hi' Hj'. unfold pte, tbl. rewrite Hent by done.
    destruct (present (ent m d' i')) eqn:Hpe.
    - unfold m'. rewrite ent_set_word by lia. fold (tbl m d' i') (tbl m d i).
      destruct (decide (d' = d /\ i' = i /\ j' = j)) as [(-> & -> & ->)|Hne]; [by rewrite decide_True|].
      rewrite decide_False; [done|]. intros [Heq ->]. apply Hne.
      assert (d' = d) as -> by (apply (sp_structs _ _ _ S d' d (tbl m d i)); try done; right; by exists i').
      split; [done|]. split; [|done]. by apply (us_table_inj _ _ _ (sp_space _ _ _ S d Hd)).
    - rewrite decide_False; [done|]. intros (-> & -> & _). congruence. }
  split; [|done].
  assert (Htbl : forall d' k, d' ∈ D -> user k -> tbl m' d' k = tbl m d' k) by (intros; unfold tbl; by rewrite Hent).
  assert (Hpg : forall d' i' j', d' ∈ D -> user i' -> 0 <= j' < 1024 ->
    present (pte m' d' i' j') = present (pte m d' i' j') /\ frame (pte m' d' i' j') = frame (pte m d' i' j')).
  { intros d' i' j' Hd' Hi' Hj'. rewrite Hpte by done. case_decide as Hc; [|done].
    destruct Hc as (-> & -> & ->). by rewrite Hpw, Hp. }
  assert (Hmp : forall d' f, d' ∈ D -> maps m' d' f <-> maps m d' f).
  { intros d' f Hd'. split; intros (i' & j' & Hi' & Hj' & Hp' & ->); exists i', j';
      destruct (Hpg d' i' j' Hd' Hi' Hj') as [E1 E2].
    - by rewrite <- E1, <- E2. - by rewrite E1, E2. }
  assert (Hstr : forall d' f, d' ∈ D -> structure m' d' f <-> structure m d' f).
  { intros d' f Hd'. split; (intros [->|(k & Hk & Hpk & ->)]; [by left|right]); exists k;
      by rewrite Htbl, Hent in *. }
  assert (G' : good m').
  { split; [apply S|]. intros a. cbn. rewrite upd_cases. case_decide; [done|].
    apply (good_words _ _ (sp_good _ _ _ S)). }
  split; [done|apply S|..].
  - intros d' Hd'. pose proof (sp_space _ _ _ S d' Hd') as U. split; [done|apply U|..].
    + intros k Hk. rewrite Hent, Htbl by done. by apply (us_table _ _ _ U).
    + intros k k' Hk Hk'. rewrite !Hent, !Htbl by done. by apply (us_table_inj _ _ _ U).
    + intros i' j' Hi' Hj'. destruct (Hpg d' i' j' Hd' Hi' Hj') as [-> ->]. intros Hp'.
      destruct (us_page _ _ _ U i' j' Hi' Hj' Hp') as (H1 & H2 & H3 & H4).
      split; [done|]. split; [done|]. split; [done|]. rewrite Hpte by done. case_decide as Hc; [|done].
      destruct Hc as (-> & -> & ->). by rewrite <- Hf.
    + intros i' j' Hi' Hj'. destruct (Hpg d' i' j' Hd' Hi' Hj') as [-> ->]. intros Hp'.
      destruct (us_page_not _ _ _ U i' j' Hi' Hj' Hp') as [? H]. split; [done|].
      intros k Hk. rewrite Hent, Htbl by done. by apply H.
    + intros i1 j1 i2 j2 Hi1 Hi2 Hj1 Hj2. destruct (Hpg d' i1 j1 Hd' Hi1 Hj1) as [-> ->].
      destruct (Hpg d' i2 j2 Hd' Hi2 Hj2) as [-> ->]. by apply (us_page_inj _ _ _ U).
  - intros d1 d2 f H1 H2. rewrite !Hstr by done. by apply (sp_structs _ _ _ S).
  - intros d1 d2 f H1 H2. rewrite Hstr, Hmp by done. by apply (sp_pages _ _ _ S).
  - intros d' f Hd'. rewrite Hmp by done. intros Hm. rewrite (refs_ext m m'); [by apply (sp_refs _ _ _ S d')|].
    intros x Hx. apply mapsb_ext. by apply Hmp.
Qed.
End Write.
