(* ===== verification/SpacesSpec.v ===== *)
(** Copy-on-write address spaces behave like separate memories: every sequence of
    forks, stores and exits refines an abstract machine in which a fork copies the
    memory of the parent, a store changes the memory of one process, and an exit
    removes one process. *)

From S2P Require Import Prelude Dll Pmm PmmMeta PmmInv PmmSteps PmmAlloc PmmFree PmmProps PmmInit PmmSpec Frames Paging PagingProps PagingSpec Fork ForkSpec ForkDir ForkSpaces AddrSpaces SpacesExit SpacesWrite.
From Stdlib Require Import ZArith Lia Bool.
From stdpp Require Import base tactics numbers list sets gmap.
Open Scope Z_scope.

(** ** The abstract machine *)

(** What a process reads at each address of its user space. *)
Definition memory : Type := Z -> option Z.

Definition same_memory (A B : memory) : Prop := forall v, user_addr v -> A v = B v.

#[export] Instance same_memory_equiv : Equivalence same_memory.
Proof.
  split.
  - by intros A v.
  - intros A B H v Hv. symmetry. by apply H.
  - intros A B C H1 H2 v Hv. rewrite H1 by done. by apply H2.
Qed.

Definition stack_addr (base size v : Z) : Prop := is_stack_page base size (4096 * (v / 4096)) = true.

(** The memory [B] of a child of a process with the memory [A]: the same, except
    that the stack range is complete, with zeroes, as far as its first page
    table reaches. *)
Record inherits (base size : Z) (A B : memory) : Prop := {
  inh_mapped v x : user_addr v -> A v = Some x -> B v = Some x;
  inh_new v : user_addr v -> A v = None -> B v = None \/ (B v = Some 0 /\ stack_addr base size v);
  inh_stack v : user_addr v -> stack_addr base size v -> pd_idx v = pd_idx base -> is_Some (B v) }.

Inductive proc_op :=
| OFork (d base size : Z)
| OWrite (d v x : Z)
| OExit (d : Z).

(** Processes are named by the frame of their directory. *)
Definition proc_exec (o : proc_op) (s : mmu * list Z) : outcome (mmu * list Z) :=
  let '(m, D) := s in
  match o with
  | OFork d base size =>
      if decide (d ∈ D) then
        match paging_clone_directory (4096 * d) true base size m with
        | Panic => Panic
        | Done (a, m) => Done (m, a / 4096 :: D)
        end
      else Done s
  | OWrite d v x =>
      if decide (d ∈ D) then
        match cpu_store v x (paging_switch_directory (4096 * d) m) with
        | Panic => Panic
        | Done (_, m) => Done (m, D)
        end
      else Done s
  | OExit d =>
      if decide (d ∈ D) then
        match paging_free_user_pages (4096 * d) m with
        | Panic => Panic
        | Done m => Done (m, without d D)
        end
      else Done s
  end.

Fixpoint proc_run (os : list proc_op) (s : mmu * list Z) : outcome (mmu * list Z) :=
  match os with
  | [] => Done s
  | o :: os => match proc_exec o s with Panic => Panic | Done s => proc_run os s end
  end.

Definition op_ok (o : proc_op) : Prop :=
  match o with
  | OFork _ base size => is_u32 base /\ is_u32 size
  | OWrite _ v x => user_addr v /\ is_u32 x
  | OExit _ => True
  end.

(** The state of the abstract machine: the live processes, what each reads at
    each address and may do there, and the number of free pages of physical
    memory. *)
Record world := mk_world {
  w_procs : list Z; w_mem : Z -> memory; w_perm : Z -> Z -> perm; w_free : Z }.

Definition same_process (w w' : world) (d : Z) : Prop :=
  same_memory (w_mem w' d) (w_mem w d) /\ forall v, user_addr v -> w_perm w' d v = w_perm w d v.

(** A fork leaves the stack of the parent alone and marks all its other pages
    copy-on-write; the child has a stack of its own and shares the rest. *)
Definition parent_perm (base size v : Z) (q : perm) : perm :=
  match q with
  | PNone => PNone
  | _ => if is_stack_page base size (4096 * (v / 4096)) then q else PCopy
  end.

Definition child_perm (base size v : Z) (x : option Z) : perm :=
  match x with
  | None => PNone
  | Some _ => if is_stack_page base size (4096 * (v / 4096)) then PWrite else PCopy
  end.

Definition fork_abs (d base size : Z) (w w' : world) : Prop :=
  exists e, e ∉ w_procs w /\ w_procs w' = e :: w_procs w /\
    inherits base size (w_mem w d) (w_mem w' e) /\
    (forall d', d' ∈ w_procs w -> same_memory (w_mem w' d') (w_mem w d')) /\
    (forall v, user_addr v -> w_perm w' e v = child_perm base size v (w_mem w' e v)) /\
    (forall d' v, d' ∈ w_procs w -> user_addr v -> w_perm w' d' v =
       if decide (d' = d) then parent_perm base size v (w_perm w d v) else w_perm w d' v) /\
    w_free w' < w_free w.

(** A store that takes effect: the value is seen by [d] alone, and the page can
    be written from then on without a copy. *)
Definition store_abs (d v x : Z) (w w' : world) : Prop :=
  w_procs w' = w_procs w /\
  (forall d', d' ∈ w_procs w -> same_memory (w_mem w' d')
     (fun u => if decide (d' = d /\ u = v) then Some x else w_mem w d' u)) /\
  (forall d' u, d' ∈ w_procs w -> user_addr u -> w_perm w' d' u =
     if decide (d' = d /\ u / 4096 = v / 4096) then PWrite else w_perm w d' u) /\
  w_free w - 1 <= w_free w' <= w_free w.

Definition idle_abs (w w' : world) : Prop :=
  w_procs w' = w_procs w /\ (forall d, d ∈ w_procs w -> same_process w w' d) /\ w_free w' = w_free w.

(** One step of the abstract machine.  A store takes effect exactly when
    [store_ok] says so. *)
Definition abs_step (o : proc_op) (w w' : world) : Prop :=
  match o with
  | OFork d base size => if decide (d ∈ w_procs w) then fork_abs d base size w w' else idle_abs w w'
  | OWrite d v x =>
      if decide (d ∈ w_procs w /\ store_ok (w_perm w d v) (w_free w) = true)
      then store_abs d v x w w' else idle_abs w w'
  | OExit d =>
      w_procs w' = without d (w_procs w) /\ (forall d', d' ∈ w_procs w' -> same_process w w' d') /\
      w_free w <= w_free w'
  end.

(** The abstract state of a machine state. *)
Definition view (s : mmu * list Z) : world :=
  mk_world s.2 (reads s.1) (page_perm s.1) (free_pages (pm s.1)).

(** A run each step of which is a step of the abstract machine. *)
Inductive abs_run : list proc_op -> mmu * list Z -> mmu * list Z -> Prop :=
| abs_nil s : abs_run [] s s
| abs_cons o os s s1 s2 :
    proc_exec o s = Done s1 -> abs_step o (view s) (view s1) -> abs_run os s1 s2 ->
    abs_run (o :: os) s s2.

(** ** The refinement *)

Section Spec.
Context (R : (Z -> list Z) -> Prop) `{!block_stable R}.
Abbreviation spaces := (spaces R).
Abbreviation forked := (forked R).

Lemma stack_page_addr base size v :
  user_addr v ->
  stack_pages base size (pd_idx v) (pt_idx v) = is_stack_page base size (4096 * (v / 4096)).
Proof.
  intros Hv. destruct (user_addr_idx v Hv) as (Hv32 & Hi & Hj). unfold user in Hi; unfold is_u32 in Hv32.
  unfold stack_pages. f_equal. unfold PAGE_SIZE.
  rewrite (u32_small (pd_idx v * (1024 * 4096))) by lia.
  replace (pd_idx v * (1024 * 4096) + pt_idx v * 4096) with (4096 * (v / 4096)).
  - apply u32_small. dlia.
  - unfold pd_idx, pt_idx. change (2 ^ 22) with (4096 * 1024). rewrite <- Z.div_div by lia.
    pose proof (Z.div_mod (v / 4096) 1024). lia.
Qed.

Section Fork.
Context (m : mmu) (D : list Z) (d base size : Z) (m' : mmu) (e : Z).
Context (S : spaces m D) (Hd : d ∈ D) (F : forked m d base size m' e).

Lemma fork_word_kept d' f x :
  d' ∈ D -> maps m d' f -> 0 <= x < 4096 -> word m' f x = word m f x.
Proof using S Hd F.
  intros Hd' Hm Hx. destruct (maps_used R m d' f (sp_space _ _ _ S d' Hd') Hm) as (_ & Hu & _).
  apply (ef_word _ _ _ _ _ (fk_effect _ _ _ _ _ _ _ F)); [done| |done].
  intros Ht. apply (sp_pages _ _ _ S d' d f); try done. by right.
Qed.

Lemma fork_reads_old d' : d' ∈ D -> same_memory (reads m' d') (reads m d').
Proof using S Hd F.
  intros Hd' v Hv. destruct (user_addr_idx v Hv) as (_ & Hi & Hj).
  assert (Ho : 0 <= v mod 4096 < 4096) by (apply Z.mod_pos_bound; lia).
  assert (H : present (pte m' d' (pd_idx v) (pt_idx v)) = present (pte m d' (pd_idx v) (pt_idx v)) /\
    frame (pte m' d' (pd_idx v) (pt_idx v)) = frame (pte m d' (pd_idx v) (pt_idx v))).
  { destruct (decide (d' = d)) as [->|Hne].
    - by apply (parent_page R m d base size m' e (fork_U R m D d S Hd) F).
    - destruct (fork_other R m D d base size m' e S Hd F d' Hd' Hne) as (_ & _ & Hp). by rewrite Hp. }
  unfold reads. destruct H as [-> ->].
  destruct (present (pte m d' (pd_idx v) (pt_idx v))) eqn:Hp; [|done]. f_equal.
  apply (fork_word_kept d'); [done| |done]. by exists (pd_idx v), (pt_idx v).
Qed.

Lemma fork_reads_child v :
  user_addr v ->
  reads m' e v = match reads m d v with
    | Some x => Some x
    | None => if has_table m d base size (pd_idx v) && is_stack_page base size (4096 * (v / 4096))
              then Some 0 else None
    end.
Proof using S Hd F.
  intros Hv. destruct (user_addr_idx v Hv) as (_ & Hi & Hj). pose proof (fork_U R m D d S Hd) as U.
  assert (Ho : 0 <= v mod 4096 < 4096) by (apply Z.mod_pos_bound; lia).
  rewrite <- stack_page_addr by done. unfold reads.
  set (i := pd_idx v) in *. set (j := pt_idx v) in *.
  destruct (child_cases R m d base size m' e U F i j Hi Hj) as [Hh Hs He Hw Hc|Hs Hp Hw|Hs Hp Hw].
  - destruct (child_entry R m d base size m' e U F i _ Hi Hh He) as (H0 & _ & Hu & _).
    pose proof (used_pos R m' _ (ef_good _ _ _ _ _ (fk_effect _ _ _ _ _ _ _ F)) H0 Hu) as Hb.
    assert (present (pte m' e i j) = true) as -> by (rewrite Hw; apply stack_entry_spec; lia).
    rewrite Hc, Hh, Hs by done. by destruct (present (pte m d i j)).
  - destruct (cow_mark_spec _ (pte_word R m d U i j)) as (_ & Hf & Hpr & _).
    rewrite Hw, Hf, Hpr, Hp. f_equal. apply (fork_word_kept d); [done| |done]. by exists i, j.
  - rewrite Hw, Hp. cbn [present]. destruct (has_table m d base size i); [by rewrite Hs|done].
Qed.

Lemma fork_inherits : is_u32 base -> inherits base size (reads m d) (reads m' e).
Proof using S Hd F.
  intros Hb. split.
  - intros v x Hv Hr. by rewrite fork_reads_child, Hr.
  - intros v Hv Hr. rewrite fork_reads_child, Hr by done. unfold stack_addr.
    destruct (has_table _ _ _ _ _); cbn [andb]; [|by left].
    destruct (is_stack_page _ _ _); [by right|by left].
  - intros v Hv Hs Hpd. rewrite fork_reads_child by done. unfold stack_addr in Hs. rewrite Hs.
    destruct (reads m d v); [done|]. destruct (user_addr_idx v Hv) as (_ & Hi & _).
    assert (contains_stack base size (pd_idx v) = true) as Hc.
    { unfold contains_stack. unfold is_stack_page in Hs. apply andb_true_iff in Hs as [Hs _].
      apply andb_true_iff in Hs as [-> _]. unfold user, is_u32, PAGE_SIZE in *. rewrite Hpd in *.
      rewrite !u32_small by (rewrite ?u32_small by lia; lia). unfold pd_idx in *.
      change (2 ^ 22) with (1024 * 4096) in *. pose proof (Z.div_mod base (1024 * 4096)).
      pose proof (Z.mod_pos_bound base (1024 * 4096)). cbn [andb]. apply andb_true_iff. lia. }
    unfold has_table. by rewrite Hc, orb_true_r.
Qed.

Lemma fork_perm_child v :
  user_addr v -> page_perm m' e v = child_perm base size v (reads m' e v).
Proof using S Hd F.
  intros Hv. destruct (user_addr_idx v Hv) as (_ & Hi & Hj). pose proof (fork_U R m D d S Hd) as U.
  unfold child_perm. rewrite <- stack_page_addr by done. unfold page_perm, entry_perm, reads.
  set (i := pd_idx v) in *. set (j := pt_idx v) in *.
  destruct (child_cases R m d base size m' e U F i j Hi Hj) as [Hh Hs He Hw Hc|Hs Hp Hw|Hs Hp Hw].
  - destruct (child_entry R m d base size m' e U F i _ Hi Hh He) as (H0 & _ & Hu & _).
    pose proof (used_pos R m' _ (ef_good _ _ _ _ _ (fk_effect _ _ _ _ _ _ _ F)) H0 Hu) as Hb.
    destruct (stack_entry_spec (frame (pte m' e i j)) ltac:(lia)) as (_ & _ & Hp & Hrw & _).
    rewrite <- Hw in Hp, Hrw. by rewrite Hp, Hrw, Hs.
  - destruct (cow_mark_spec _ (pte_word R m d U i j)) as (_ & _ & Hpr & Hrw & Hcow).
    by rewrite Hw, Hpr, Hp, Hrw, Hcow, Hs.
  - by rewrite Hw.
Qed.

Lemma fork_perm_old d' v :
  d' ∈ D -> user_addr v -> page_perm m' d' v =
  if decide (d' = d) then parent_perm base size v (page_perm m d v) else page_perm m d' v.
Proof using S Hd F.
  intros Hd' Hv. destruct (user_addr_idx v Hv) as (_ & Hi & Hj). pose proof (fork_U R m D d S Hd) as U.
  unfold page_perm. destruct (decide (d' = d)) as [->|Hne].
  - rewrite (parent_pte R m d base size m' e U F _ _ Hi Hj).
    rewrite stack_page_addr by done. unfold source_after, parent_perm.
    destruct (cow_mark_spec _ (pte_word R m d U (pd_idx v) (pt_idx v))) as (_ & _ & Hpr & Hrw & Hcow).
    destruct (is_stack_page _ _ _); [by destruct (entry_perm _)|].
    destruct (present (pte m d _ _)) eqn:Hp; unfold entry_perm.
    + rewrite Hpr, Hrw, Hcow, Hp. destruct (Z.testbit (pte m d _ _) PTE_RW); [done|]. by destruct (Z.testbit (pte m d _ _) PTE_AVAIL_COW).
    + by rewrite Hp.
  - by destruct (fork_other R m D d base size m' e S Hd F d' Hd' Hne) as (_ & _ & ->).
Qed.
End Fork.

(** *** The frames of the child *)

Section ChildFrames.
Context (m : mmu) (D : list Z) (d base size : Z) (m1 : mmu) (e : Z).
Context (S : spaces m D) (Hd : d ∈ D) (F : forked m d base size m1 e).

(** What the child gives back on exit, apart from references to shared pages. *)
Definition released (f : Z) : Prop := maps m1 e f /\ rc m1 f = 1 \/ tables m1 e f.

Lemma old_not_released f : used m f -> ~ released f.
Proof using All.
  pose proof (sp_space _ _ _ S d Hd) as U. intros Hg [[Hm H1]|Ht].
  - destruct (fork_maps_child R m D d base size m1 e S Hd F f Hm) as [[Hf _]|Hs].
    + by apply (fresh_used m f).
    + pose proof (shares_maps m d base size f Hs) as Hmg.
      destruct Hs as (i & Hi & j & Hj & Hs & Hp & ->).
      rewrite (shared_rc R m d base size m1 e U F i j Hi Hj Hs Hp) in H1.
      destruct (maps_used R m d _ U Hmg) as (_ & _ & ?). lia.
  - apply (fresh_used m f); [|done]. apply (fork_structure_child R m D d base size m1 e S Hd F). by right.
Qed.

Lemma dir_not_released : ~ released e.
Proof using All.
  pose proof (fork_spaces R m D d base size m1 e S Hd F) as S1.
  assert (He : e ∈ e :: D) by set_solver. intros [[Hm _]|(i & Hi & Hp & Heq)].
  - apply (sp_pages _ _ _ S1 e e e); [done|done|done|by left].
  - by destruct (us_table _ _ _ (sp_space _ _ _ S1 e He) i Hi Hp) as (_ & _ & _ & ?).
Qed.

Lemma new_released f k :
  used_block (pm m1) f k -> used_block (pm m) f k \/ (k = 0 /\ (f = e \/ released f)).
Proof using All.
  pose proof (sp_space _ _ _ S d Hd) as U. intros Hf.
  destruct (fk_taken _ _ _ _ _ _ _ F f k Hf) as [?|(-> & [->|(c & Hc & Hh & Hfc)])];
    [by left|right; split; [done|by left]|]. right. split; [done|]. right.
  destruct (child_table R m d base size m1 e U F c Hc) as [Hp N]. specialize (N Hh).
  destruct (new_table_frames _ _ _ _ _ f N Hfc) as (_ & _ & Hrc).
  destruct Hfc as [->|(j & Hj & Hs & ->)]; [right; exists c; by rewrite Hp|left]. split; [|done].
  exists c, j. unfold pte. rewrite Hp, Hh.
  pose proof (cp_slot _ _ _ _ _ _ (nt_copied _ _ _ _ _ N) j Hj) as Hsl. cbn in Hsl. rewrite Hs in Hsl.
  destruct Hsl as (g & Hg & _ & _ & _ & Hent & _).
  split; [done|]. split; [done|]. split; [|done]. rewrite Hent. apply stack_entry_spec. lia.
Qed.
End ChildFrames.

(** *** Steps *)

Lemma switch_spaces m D a : spaces m D -> spaces (paging_switch_directory a m) D.
Proof.
  intros S. unfold paging_switch_directory. destruct (a =? 0); [done|].
  apply (spaces_memory R m _ D S); [|done|done]. split; [apply S|apply (good_words _ _ (sp_good _ _ _ S))].
Qed.

Lemma spaces_countable m D d :
  spaces m D -> d ∈ D -> Z.of_nat (length D) < UINT16_MAX -> countable_refs m d.
Proof.
  intros S Hd Hlen i j Hi Hj Hp. rewrite (sp_refs _ _ _ S d); [|done|by exists i, j].
  pose proof (refs_bound m D (frame (pte m d i j))). lia.
Qed.

Lemma fork_step m D d base size :
  spaces m D -> d ∈ D -> Z.of_nat (length D) < UINT16_MAX ->
  match paging_clone_directory (4096 * d) true base size m with
  | Panic => short_of (fork_cost m d base size) m
  | Done (a, m') => exists e, a = 4096 * e /\ e ∉ D /\ forked m d base size m' e /\ spaces m' (e :: D)
  end.
Proof.
  intros S Hd Hlen.
  pose proof (clone_directory_spec R m d base size (sp_space _ _ _ S d Hd) (spaces_countable m D d S Hd Hlen)) as H.
  destruct (paging_clone_directory (4096 * d) true base size m) as [[a m']|]; [|done].
  destruct H as (e & -> & _ & F). pose proof (fork_spaces R m D d base size m' e S Hd F) as S'.
  exists e. split; [done|]. split; [|done]. pose proof (sp_nodup _ _ _ S') as Hn. by apply NoDup_cons in Hn as [? _].
Qed.

(** A store by the process [d], after a switch to its directory. *)
Lemma store_spec m D d v x :
  spaces m D -> d ∈ D -> Z.of_nat (length D) < UINT16_MAX -> user_addr v -> is_u32 x ->
  exists ok m', cpu_store v x (paging_switch_directory (4096 * d) m) = Done (ok, m') /\ stored R m D d v x ok m'.
Proof.
  intros S Hd Hlen Hv Hx. pose proof (us_dir _ _ _ (sp_space _ _ _ S d Hd)) as (Hd0 & _).
  pose proof (switch_spaces m D (4096 * d) S) as S'. unfold paging_switch_directory in *.
  replace (4096 * d =? 0) with false in * by lia.
  destruct (cpu_store_spec R _ D d v x S' Hd Hlen eq_refl Hv Hx) as (ok & m' & E & [H1 H2 H3 H4 H5]).
  exists ok, m'. split; [exact E|]. split; [exact H1|exact H2|exact H3|exact H4|exact H5].
Qed.

Lemma fork_free m d base size m' e : forked m d base size m' e -> free_pages (pm m') < free_pages (pm m).
Proof.
  intros F. pose proof (fk_spent _ _ _ _ _ _ _ F) as H. unfold spent in H.
  pose proof (fork_cost_pos m d base size). lia.
Qed.

Lemma idle_refl s : idle_abs (view s) (view s).
Proof. split; [done|]. split; [|done]. intros d _. split; [reflexivity|done]. Qed.

Lemma stored_abs m D d v x ok m' :
  d ∈ D -> stored R m D d v x ok m' -> abs_step (OWrite d v x) (view (m, D)) (view (m', D)).
Proof.
  intros Hd [_ Hok Hr Hp Hf]. cbn [abs_step view w_procs w_perm w_free fst snd].
  destruct ok; [rewrite decide_True by done|rewrite decide_False by (intros [_ ?]; congruence)].
  - split; [done|]. split; [|split; [|done]].
    + intros d' Hd' u Hu. cbn. rewrite Hr by done.
      destruct (decide (d' = d /\ u = v)); [by rewrite decide_True|by rewrite decide_False by tauto].
    + intros d' u Hd' Hu. cbn. rewrite Hp by done.
      destruct (decide (d' = d /\ _)); [by rewrite decide_True|by rewrite decide_False by tauto].
  - split; [done|]. cbn. split; [|lia]. intros d' Hd'. split.
    + intros u Hu. cbn. by rewrite Hr, decide_False by naive_solver.
    + intros u Hu. cbn. by rewrite Hp, decide_False by naive_solver.
Qed.

Lemma step_refines o m D :
  spaces m D -> op_ok o -> Z.of_nat (length D) < UINT16_MAX ->
  match proc_exec o (m, D) with
  | Done (m', D') => spaces m' D' /\ abs_step o (view (m, D)) (view (m', D')) /\ (length D' <= S (length D))%nat
  | Panic => exists d base size, o = OFork d base size /\ d ∈ D /\ short_of (fork_cost m d base size) m
  end.
Proof.
  intros S Hok Hlen. destruct o as [d base size|d v x|d]; cbn [proc_exec op_ok] in *.
  - destruct (decide (d ∈ D)) as [Hd|Hd].
    2:{ split; [done|]. split; [|lia]. cbn [abs_step]. rewrite decide_False by done. apply idle_refl. }
    pose proof (fork_step m D d base size S Hd Hlen) as H.
    destruct (paging_clone_directory _ _ _ _ m) as [[a m']|]; [|by exists d, base, size].
    destruct H as (e & -> & He & F & S'). rewrite Z.mul_comm, Z.div_mul by lia. split; [done|].
    split; [|cbn [length]; lia]. cbn [abs_step]. rewrite decide_True by done. exists e.
    split; [done|]. split; [done|].
    split; [apply (fork_inherits m D d base size m' e S Hd F), Hok|].
    split; [intros d' Hd'; by apply (fork_reads_old m D d base size m' e S Hd F)|].
    split; [intros v Hv; by apply (fork_perm_child m D d base size m' e S Hd F)|].
    split; [intros d' v Hd' Hv; by apply (fork_perm_old m D d base size m' e S Hd F)|].
    by apply (fork_free m d base size m' e).
  - destruct (decide (d ∈ D)) as [Hd|Hd].
    2:{ split; [done|]. split; [|lia]. cbn [abs_step]. rewrite decide_False by (by intros [? _]). apply idle_refl. }
    destruct Hok as [Hv Hx].
    destruct (store_spec m D d v x S Hd Hlen Hv Hx) as (ok & m' & -> & H). split; [apply H|].
    split; [by apply (stored_abs m D d v x ok)|lia].
  - destruct (decide (d ∈ D)) as [Hd|Hd].
    + destruct (exit_spaces R m D d S Hd Hlen) as (m' & -> & S' & Hpm & Hcd & _ & Hf). split; [done|].
      split; [split; [done|split; [|done]]|].
      * intros d' Hd'. split; intros v Hv; cbn; unfold reads, page_perm, pte, tbl, ent, word; by rewrite Hpm.
      * unfold without. pose proof (length_filter (fun x => x <> d) D). lia.
    + split; [done|]. split; [|lia]. cbn [abs_step view w_procs snd fst]. rewrite without_id by done.
      split; [done|]. split; [|cbn; lia]. intros d' _. split; [reflexivity|done].
Qed.
End Spec.

(** ** A concrete machine

    The demonstration machine with one process that has an empty user space; a
    child with a stack of one page; the same child with the page made read-only. *)

Definition demo_stack : Z := 0x3FFFF000.
Definition demo_addr : Z := 0x3FFFF123.

Definition demo_ops : list proc_op :=
  [OFork 263 demo_stack 4096; OWrite 264 demo_addr 42; OFork 264 0 0; OWrite 264 demo_addr 43].

Lemma demo_spaces : spaces coalesced demo_dir [263].
Proof.
  assert (Hz : forall d i, ent demo_dir d i = 0) by done.
  assert (Hp : forall d i j, pte demo_dir d i j = 0) by done.
  assert (Hm : forall d f, ~ maps demo_dir d f) by (intros d f (i & j & _ & _ & H & _); rewrite Hp in H; done).
  assert (G : good coalesced demo_dir).
  { pose proof demo_dir_inv as I. split; [apply (pg_pmm _ _ I)|apply (pg_words _ _ I)]. }
  assert (Hd : 0 < 263 /\ used demo_dir 263 /\ rc demo_dir 263 = 1) by by_vm.
  generalize dependent demo_dir. intros m Hz Hp Hm G Hd.
  split; [exact G|apply NoDup_singleton|..].
  - intros d ->%list_elem_of_singleton. split; [exact G|exact Hd|..].
    + intros i _ H. by rewrite Hz in H.
    + intros i i' _ _ H. by rewrite Hz in H.
    + intros i j _ _ H. by rewrite Hp in H.
    + intros i j _ _ H. by rewrite Hp in H.
    + intros i j i' j' _ _ _ _ H. by rewrite Hp in H.
  - by intros d d' f ->%list_elem_of_singleton ->%list_elem_of_singleton.
  - intros d d' f _ _ H. by apply Hm in H.
  - intros d f _ H. by apply Hm in H.
Qed.

(** *** A read-only page *)

Definition demo_child : mmu :=
  match paging_clone_directory (4096 * 263) true demo_stack 4096 demo_dir with
  | Done (_, m) => m
  | Panic => demo_dir
  end.

Lemma demo_child_spaces : spaces coalesced demo_child [264; 263].
Proof.
  pose proof (fork_step coalesced demo_dir [263] 263 demo_stack 4096 demo_spaces ltac:(set_solver) ltac:(by_vm)) as H.
  assert (E : match paging_clone_directory (4096 * 263) true demo_stack 4096 demo_dir with
    | Done (a, _) => a = 4096 * 264 | Panic => False end) by by_vm.
  unfold demo_child. destruct (paging_clone_directory _ _ _ _ _) as [[a m]|]; [|destruct E].
  destruct H as (e & Ha & _ & _ & S). replace e with 264 in S by lia. exact S.
Qed.

(** The entry that mapping the page again without [PAGE_WRITE] writes, as
    [elf_load_segments] does. *)
Definition demo_entry : Z :=
  let w := pte demo_child 264 (pd_idx demo_addr) (pt_idx demo_addr) in
  map_entry (PAGE_PRESENT + PAGE_USER) (4096 * frame w) w.

Definition demo_protected : mmu :=
  set_word (entry_addr (4096 * tbl demo_child 264 (pd_idx demo_addr)) (pt_idx demo_addr))
    demo_entry demo_child.

Lemma demo_in : 264 ∈ [264; 263].
Proof. set_solver. Qed.

Lemma demo_user_addr : user_addr demo_addr.
Proof. unfold user_addr, VMM_USER_START, VMM_USER_END, demo_addr. lia. Qed.

Lemma demo_protected_spaces :
  spaces coalesced demo_protected [264; 263] /\
  pte demo_protected 264 (pd_idx demo_addr) (pt_idx demo_addr) = demo_entry.
Proof.
  destruct (user_addr_idx demo_addr demo_user_addr) as (_ & Hi & Hj).
  assert (Hp : present (pte demo_child 264 (pd_idx demo_addr) (pt_idx demo_addr)) = true) by by_vm.
  assert (Hw : is_u32 demo_entry) by by_vm.
  assert (Hf : frame demo_entry = frame (pte demo_child 264 (pd_idx demo_addr) (pt_idx demo_addr))) by by_vm.
  assert (Hpw : present demo_entry = true) by by_vm.
  assert (Hr : rc demo_child (frame demo_entry) = 1) by by_vm.
  destruct (spaces_flags coalesced demo_child [264; 263] 264 (pd_idx demo_addr) (pt_idx demo_addr) demo_entry
    demo_child_spaces demo_in Hi Hj Hp Hw Hf Hpw (fun _ => Hr)) as [S Hpte].
  split; [exact S|]. unfold demo_protected.
  rewrite (Hpte 264 _ _ demo_in Hi Hj). apply decide_True. repeat split.
Qed.

(** ** The theorems *)

(** C2: processes with copy-on-write pages have separate memories.  For all
    processes whose address spaces satisfy the invariant, every sequence of forks
    ([paging_clone_directory]), stores (with the fault handler
    [paging_handle_page_fault_cow] on a protected page) and exits
    ([paging_free_user_pages]) keeps the invariant, and each step of it is a step
    of the abstract machine: a child starts with the memory of its parent; a store
    to a writable page, and to a copy-on-write page while a page of physical memory
    is free, takes effect, and is seen by the process that did it and by no other;
    any other store changes nothing; an exit leaves the others alone.  The
    abstract machine also says which pages may be written: a fork makes all pages
    of the child, and those of the parent outside of the stack, copy-on-write or
    writable, read-only ones included.  The only way not to get to the end is a
    fork that needs more pages (the directory, a table for each directory entry in
    use, and the stack pages) than are free. *)
Theorem address_spaces_refine R `{!block_stable R} m D os :
  spaces R m D -> Forall op_ok os -> Z.of_nat (length D + length os) < UINT16_MAX ->
  match proc_run os (m, D) with
  | Done (m', D') => spaces R m' D' /\ abs_run os (m, D) (m', D')
  | Panic => exists os1 d base size os2 m1 D1,
      os = os1 ++ OFork d base size :: os2 /\ proc_run os1 (m, D) = Done (m1, D1) /\
      abs_run os1 (m, D) (m1, D1) /\ d ∈ D1 /\ free_pages (pm m1) < fork_cost m1 d base size
  end.
Proof.
  revert m D. induction os as [|o os IH]; intros m D S Hok Hlen; cbn [proc_run length] in *.
  { split; [done|constructor]. }
  apply Forall_cons in Hok as [Ho Hok]. pose proof (step_refines R o m D S Ho ltac:(lia)) as H.
  destruct (proc_exec o (m, D)) as [[m1 D1]|] eqn:E.
  - destruct H as (S1 & A1 & Hl). specialize (IH m1 D1 S1 Hok ltac:(lia)).
    destruct (proc_run os (m1, D1)) as [[m2 D2]|].
    + destruct IH as [S2 A2]. split; [done|]. by econstructor.
    + destruct IH as (os1 & d & base & size & os2 & m2 & D2 & -> & E2 & A2 & Hex).
      exists (o :: os1), d, base, size, os2, m2, D2. split; [done|]. cbn [proc_run]. rewrite E.
      split; [done|]. split; [by econstructor|done].
  - destruct H as (d & base & size & -> & Hd & Hex).
    exists [], d, base, size, os, m, D. split; [done|]. split; [done|]. split; [constructor|done].
Qed.

Lemma address_spaces_refine_witness :
  exists m' D', proc_run demo_ops (demo_dir, [263]) = Done (m', D') /\
    spaces coalesced m' D' /\ abs_run demo_ops (demo_dir, [263]) (m', D') /\
    D' = [267; 264; 263] /\ reads m' 264 demo_addr = Some 43 /\ reads m' 267 demo_addr = Some 42.
Proof.
  assert (Hok : Forall op_ok demo_ops).
  { pose proof demo_user_addr. repeat constructor; by_vm. }
  assert (Hlen : Z.of_nat (length [263] + length demo_ops) < UINT16_MAX) by by_vm.
  pose proof (address_spaces_refine coalesced demo_dir [263] demo_ops demo_spaces Hok Hlen) as H.
  assert (E : match proc_run demo_ops (demo_dir, [263]) with
    | Done (m', D') => D' = [267; 264; 263] /\ reads m' 264 demo_addr = Some 43 /\
        reads m' 267 demo_addr = Some 42
    | Panic => False end) by by_vm.
  destruct (proc_run demo_ops (demo_dir, [263])) as [[m' D']|]; [|destruct E].
  exists m', D'. split; [reflexivity|]. destruct H as [H1 H2]. split; [exact H1|]. split; [exact H2|]. exact E.
Defined.

(** C27: a fork followed by the exit of the child gives every frame back.  After
    [paging_free_user_pages] on the new directory the frames in use are those in
    use before the fork and the frame of the directory itself (which the caller
    releases), the reference counts of all pages are as before, and all processes
    read what they read before. *)
Theorem fork_exit_roundtrip R `{!block_stable R} m D d base size :
  spaces R m D -> d ∈ D -> Z.of_nat (length D) + 1 < UINT16_MAX ->
  match paging_clone_directory (4096 * d) true base size m with
  | Panic => free_pages (pm m) < fork_cost m d base size
  | Done (a, m1) =>
      exists e m2, a = 4096 * e /\ paging_free_user_pages a m1 = Done m2 /\ spaces R m2 D /\
        (forall f k, used_block (pm m2) f k <-> used_block (pm m) f k \/ (f = e /\ k = 0)) /\
        (forall d' f, d' ∈ D -> maps m d' f -> rc m2 f = rc m f) /\
        (forall d', d' ∈ D -> same_memory (reads m2 d') (reads m d'))
  end.
Proof.
  intros S Hd Hlen. pose proof (fork_step R m D d base size S Hd ltac:(lia)) as H.
  destruct (paging_clone_directory _ _ _ _ m) as [[a m1]|]; [|done].
  destruct H as (e & -> & He & F & S1). exists e.
  destruct (exit_spaces R m1 (e :: D) e S1 ltac:(set_solver) ltac:(cbn [length]; lia))
    as (m2 & E & S2 & Hmem & _ & HU & _).
  assert (Hw : without e (e :: D) = D).
  { unfold without. rewrite filter_cons, decide_False by naive_solver. by apply without_id. }
  rewrite Hw in S2. exists m2. split; [done|]. split; [done|]. split; [done|].
  pose proof (fk_effect _ _ _ _ _ _ _ F) as Ef.
  assert (Hr : forall d', same_memory (reads m2 d') (reads m1 d')).
  { intros d' v Hv. unfold reads, pte, tbl, ent, word. by rewrite Hmem. }
  split; [|split].
  - intros f k. rewrite HU. fold (released m1 e f). split.
    + intros [H1 H2]. destruct (new_released R m D d base size m1 e S Hd F f k H1) as [?|(-> & [->|Hr'])];
        [by left|by right|]. by destruct H2.
    + intros [Hfk|[-> ->]].
      * split; [by apply (ef_used _ _ _ _ _ Ef)|]. intros [-> Hx].
        by apply (old_not_released R m D d base size m1 e S Hd F f).
      * split; [by destruct (fk_dir _ _ _ _ _ _ _ F)|]. intros [_ Hx].
        by apply (dir_not_released R m D d base size m1 e S Hd F).
  - intros d' f Hd' Hm.
    assert (Hm1 : maps m1 d' f) by (by apply (fork_maps_old R m D d base size m1 e S Hd F d' f Hd')).
    assert (Hm2 : forall x, maps m2 x f <-> maps m1 x f).
    { intros x. unfold maps, pte, tbl, ent, word. by rewrite Hmem. }
    rewrite (sp_refs _ _ _ S2 d' f Hd'), (sp_refs _ _ _ S d' f Hd' Hm) by (by apply Hm2).
    apply refs_ext. intros x Hx. apply mapsb_ext. rewrite Hm2.
    by apply (fork_maps_old R m D d base size m1 e S Hd F x f Hx).
  - intros d' Hd'. rewrite Hr. by apply (fork_reads_old R m D d base size m1 e S Hd F).
Qed.

Lemma fork_exit_roundtrip_witness :
  exists m1 m2, paging_clone_directory (4096 * 264) true demo_stack 4096 demo_child = Done (4096 * 267, m1) /\
    paging_free_user_pages (4096 * 267) m1 = Done m2 /\ spaces coalesced m2 [264; 263].
Proof.
  assert (Hlen : Z.of_nat (length [264; 263]) + 1 < UINT16_MAX) by by_vm.
  pose proof (fork_exit_roundtrip coalesced demo_child [264; 263] 264 demo_stack 4096
    demo_child_spaces demo_in Hlen) as H.
  assert (E : match paging_clone_directory (4096 * 264) true demo_stack 4096 demo_child with
    | Done (a, _) => a = 4096 * 267 | Panic => False end) by by_vm.
  destruct (paging_clone_directory (4096 * 264) true demo_stack 4096 demo_child) as [[a m1]|]; [|destruct E].
  destruct H as (e & m2 & _ & H2 & H3 & _). subst a. exists m1, m2.
  split; [reflexivity|]. split; [exact H2|exact H3].
Defined.

(** A fork lifts the write protection of the pages it shares.  A store to a
    read-only page (neither writable nor copy-on-write) is refused before the
    fork; after the fork both entries are marked copy-on-write, and the same store
    by the child succeeds as soon as there is a frame for the copy: the text of a
    program is writable in its children. *)
Theorem fork_lifts_write_protection R `{!block_stable R} m D d base size v x :
  spaces R m D -> d ∈ D -> Z.of_nat (length D) + 1 < UINT16_MAX -> user_addr v -> is_u32 x ->
  let w := pte m d (pd_idx v) (pt_idx v) in
  present w = true -> Z.testbit w PTE_RW = false -> Z.testbit w PTE_AVAIL_COW = false ->
  is_stack_page base size (4096 * (v / 4096)) = false ->
  (exists m0, cpu_store v x (paging_switch_directory (4096 * d) m) = Done (false, m0)) /\
  match paging_clone_directory (4096 * d) true base size m with
  | Panic => free_pages (pm m) < fork_cost m d base size
  | Done (a, m1) => (pmm_alloc_page (pm m1)).1 <> 0 ->
      exists m2, cpu_store v x (paging_switch_directory a m1) = Done (true, m2)
  end.
Proof.
  intros S Hd Hlen Hv Hx w Hp Hrw Hcow Hs. destruct (user_addr_idx v Hv) as (_ & Hi & Hj). split.
  - destruct (store_spec R m D d v x S Hd ltac:(lia) Hv Hx) as (ok & m' & E & [_ Hok _ _ _]).
    unfold page_perm, entry_perm in Hok. fold w in Hok. rewrite Hp, Hrw, Hcow in Hok. cbn [store_ok] in Hok.
    subst ok. by exists m'.
  - pose proof (fork_step R m D d base size S Hd ltac:(lia)) as H.
    destruct (paging_clone_directory _ _ _ _ m) as [[a m1]|]; [|done]. intros Hal.
    destruct H as (e & -> & He & F & S1).
    destruct (store_spec R m1 (e :: D) e v x S1 ltac:(set_solver) ltac:(cbn [length]; lia) Hv Hx)
      as (ok & m2 & -> & [_ Hok _ _ _]).
    assert (0 < free_pages (pm m1)) as Hfr.
    { pose proof (good_pmm _ _ (sp_good _ _ _ S1)) as K. pose proof (alloc_page_free R (pm m1) K) as Hf.
      pose proof (pmm_alloc_page_effect R (pm m1) K) as He1. destruct (pmm_alloc_page (pm m1)) as [a p].
      destruct He1 as [K1 _]. cbn [fst] in Hal. pose proof (free_pages_nonneg R p K1). lia. }
    exists m2. replace ok with true; [done|]. symmetry. rewrite Hok.
    rewrite (fork_perm_child R m D d base size m1 e S Hd F v Hv).
    rewrite (fork_reads_child R m D d base size m1 e S Hd F v Hv). unfold reads. fold w. rewrite Hp.
    cbn [child_perm]. rewrite Hs. cbn [store_ok]. lia.
Qed.

Lemma fork_lifts_write_protection_witness :
  (exists m0, cpu_store demo_addr 7 (paging_switch_directory (4096 * 264) demo_protected) = Done (false, m0)) /\
  exists a m1 m2, paging_clone_directory (4096 * 264) true 0 0 demo_protected = Done (a, m1) /\
    cpu_store demo_addr 7 (paging_switch_directory a m1) = Done (true, m2).
Proof.
  destruct demo_protected_spaces as [S Hw].
  assert (Hlen : Z.of_nat (length [264; 263]) + 1 < UINT16_MAX) by by_vm.
  assert (Hx : is_u32 7) by by_vm.
  pose proof (fork_lifts_write_protection coalesced demo_protected [264; 263] 264 0 0 demo_addr 7
    S demo_in Hlen demo_user_addr Hx) as H.
  cbv zeta in H. rewrite Hw in H.
  specialize (H ltac:(by_vm) ltac:(by_vm) ltac:(by_vm) ltac:(by_vm)). destruct H as [H1 H2].
  split; [exact H1|].
  assert (E : match paging_clone_directory (4096 * 264) true 0 0 demo_protected with
    | Done (_, m1) => (pmm_alloc_page (pm m1)).1 <> 0 | Panic => False end) by by_vm.
  destruct (paging_clone_directory (4096 * 264) true 0 0 demo_protected) as [[a m1]|]; [|destruct E].
  destruct (H2 E) as [m2 H3]. exists a, m1, m2. split; [reflexivity|exact H3].
Defined.
