(* ===== verification/Vmm.v ===== *)
(** The virtual memory manager: a model of [src/kernel/kernel/memory/vmm.c].

    The address space is a doubly linked list of regions, sorted by address, in
    use or free.  The cells of the list come from a static bootstrap pool, later
    from one dedicated physical page; destroyed cells of that page are kept on a
    free list.  Allocation takes the first free region that fits and maps its
    pages one by one; release unmaps them and merges adjacent free regions.

    Every public function that changes state holds [vmm_lock] for its whole body.
    The loops over the region list take [fuel]; a list has at most as many cells
    as the two pools, so [LIST_FUEL] is enough (lemma [region_fuel]). *)

From S2P Require Import Prelude Dll Pmm Paging.
From Stdlib Require Import ZArith Lia Bool.
From stdpp Require Import base tactics numbers list sets gmap.
Open Scope Z_scope.

Definition VMM_PRESENT : Z := 0x1.
Definition VMM_WRITE : Z := 0x2.
Definition VMM_USER : Z := 0x4.
Definition VMM_KERNEL : Z := 0x0.

Definition VMM_BOOTSTRAP_POOL_SIZE : Z := 32.
(** [sizeof(vmm_region_t)] on i386: six words. *)
Definition SIZEOF_REGION : Z := 24.
Definition VMM_REGIONS_PER_PAGE : Z := PAGE_SIZE / SIZEOF_REGION.

Definition LIST_FUEL : nat := 256.

Definition PAGE_ALIGN_UP (addr : Z) : Z :=
  Z.land (u32 (addr + PAGE_SIZE - 1)) (u32 (Z.lnot (PAGE_SIZE - 1))).
Definition IS_PAGE_ALIGNED (addr : Z) : bool := Z.land addr (PAGE_SIZE - 1) =? 0.

(** ** State *)

Record vmm_region := mk_region {
  r_start : Z; r_end : Z; r_flags : Z; r_is_free : bool; r_next : Z; r_prev : Z }.

#[export] Instance vmm_region_linked : Linked vmm_region := {
  lnext := r_next;
  lprev := r_prev;
  set_lnext v r := mk_region (r_start r) (r_end r) (r_flags r) (r_is_free r) v (r_prev r);
  set_lprev v r := mk_region (r_start r) (r_end r) (r_flags r) (r_is_free r) (r_next r) v;
  lnext_set_lnext _ _ := eq_refl;
  lprev_set_lnext _ _ := eq_refl;
  lnext_set_lprev _ _ := eq_refl;
  lprev_set_lprev _ _ := eq_refl }.

Definition set_r_end (e : Z) (r : vmm_region) : vmm_region :=
  mk_region (r_start r) e (r_flags r) (r_is_free r) (r_next r) (r_prev r).
Definition set_r_free (b : bool) (r : vmm_region) : vmm_region :=
  mk_region (r_start r) (r_end r) (r_flags r) b (r_next r) (r_prev r).
Definition set_r_flags (f : Z) (r : vmm_region) : vmm_region :=
  mk_region (r_start r) (r_end r) f (r_is_free r) (r_next r) (r_prev r).

(** [regions] is the memory of region cells, by address; [bootstrap_pool] is the
    address of the static array. *)
Record vmm := mk_vmm {
  region_list : Z;
  regions : Z -> vmm_region;
  bootstrap_pool : Z;
  bootstrap_pool_index : Z;
  use_dynamic_allocation : bool;
  vmm_region_page_virt : Z;
  vmm_region_page_index : Z;
  vmm_region_free_list : Z;
  total_regions_created : Z;
  total_regions_destroyed : Z;
  bootstrap_regions_created : Z;
  dynamic_regions_created : Z;
  mm : mmu }.

Definition set_region_list x v := mk_vmm x (regions v) (bootstrap_pool v)
  (bootstrap_pool_index v) (use_dynamic_allocation v) (vmm_region_page_virt v)
  (vmm_region_page_index v) (vmm_region_free_list v) (total_regions_created v)
  (total_regions_destroyed v) (bootstrap_regions_created v) (dynamic_regions_created v) (mm v).
Definition set_regions x v := mk_vmm (region_list v) x (bootstrap_pool v)
  (bootstrap_pool_index v) (use_dynamic_allocation v) (vmm_region_page_virt v)
  (vmm_region_page_index v) (vmm_region_free_list v) (total_regions_created v)
  (total_regions_destroyed v) (bootstrap_regions_created v) (dynamic_regions_created v) (mm v).
Definition set_bootstrap x y v := mk_vmm (region_list v) (regions v) (bootstrap_pool v)
  x (use_dynamic_allocation v) (vmm_region_page_virt v)
  (vmm_region_page_index v) (vmm_region_free_list v) (total_regions_created v)
  (total_regions_destroyed v) y (dynamic_regions_created v) (mm v).
Definition set_dynamic x y z v := mk_vmm (region_list v) (regions v) (bootstrap_pool v)
  (bootstrap_pool_index v) (use_dynamic_allocation v) (vmm_region_page_virt v)
  x y (total_regions_created v)
  (total_regions_destroyed v) (bootstrap_regions_created v) z (mm v).
Definition set_created x v := mk_vmm (region_list v) (regions v) (bootstrap_pool v)
  (bootstrap_pool_index v) (use_dynamic_allocation v) (vmm_region_page_virt v)
  (vmm_region_page_index v) (vmm_region_free_list v) x
  (total_regions_destroyed v) (bootstrap_regions_created v) (dynamic_regions_created v) (mm v).
Definition set_destroyed x v := mk_vmm (region_list v) (regions v) (bootstrap_pool v)
  (bootstrap_pool_index v) (use_dynamic_allocation v) (vmm_region_page_virt v)
  (vmm_region_page_index v) (vmm_region_free_list v) (total_regions_created v)
  x (bootstrap_regions_created v) (dynamic_regions_created v) (mm v).
Definition set_mm x v := mk_vmm (region_list v) (regions v) (bootstrap_pool v)
  (bootstrap_pool_index v) (use_dynamic_allocation v) (vmm_region_page_virt v)
  (vmm_region_page_index v) (vmm_region_free_list v) (total_regions_created v)
  (total_regions_destroyed v) (bootstrap_regions_created v) (dynamic_regions_created v) x.

Definition set_cell (p : Z) (r : vmm_region) (v : vmm) : vmm :=
  set_regions (regions v).[p <- r] v.

Definition is_kernel_address (addr : Z) : bool :=
  ((VMM_KERNEL_START <=? addr) && (addr <? VMM_USER_START)) ||
  ((VMM_KERNEL_HEAP <=? addr) && (addr <? VMM_KERNEL_END)).

(** ** Region cells *)

(** Returns the address of the cell, 0 for [NULL]. *)
Definition vmm_create_region (start end_ flags : Z) (is_free : bool) (v : vmm) : Z * vmm :=
  let '(region, v) :=
    if use_dynamic_allocation v then
      if negb (vmm_region_free_list v =? 0) then
        let region := vmm_region_free_list v in
        (region, set_dynamic (vmm_region_page_index v) (r_next (regions v region))
                   (u32 (dynamic_regions_created v + 1)) v)
      else if VMM_REGIONS_PER_PAGE <=? vmm_region_page_index v then (0, v)
      else
        (vmm_region_page_virt v + SIZEOF_REGION * vmm_region_page_index v,
         set_dynamic (vmm_region_page_index v + 1) (vmm_region_free_list v)
           (u32 (dynamic_regions_created v + 1)) v)
    else if VMM_BOOTSTRAP_POOL_SIZE <=? bootstrap_pool_index v then (0, v)
    else
      (bootstrap_pool v + SIZEOF_REGION * bootstrap_pool_index v,
       set_bootstrap (bootstrap_pool_index v + 1) (u32 (bootstrap_regions_created v + 1)) v) in
  if region =? 0 then (0, v) else
  let v := set_created (u32 (total_regions_created v + 1)) v in
  (region, set_cell region (mk_region start end_ flags is_free 0 0) v).

Definition vmm_destroy_region (region : Z) (v : vmm) : vmm :=
  if region =? 0 then v else
  let is_bootstrap := (bootstrap_pool v <=? region) &&
    (region <? bootstrap_pool v + SIZEOF_REGION * VMM_BOOTSTRAP_POOL_SIZE) in
  let is_from_dedicated_page := use_dynamic_allocation v &&
    (vmm_region_page_virt v <=? region) &&
    (region <? vmm_region_page_virt v + SIZEOF_REGION * VMM_REGIONS_PER_PAGE) in
  if is_bootstrap then set_destroyed (u32 (total_regions_destroyed v + 1)) v else
  if is_from_dedicated_page then
    let v := set_cell region (set_lnext (vmm_region_free_list v) (regions v region)) v in
    let v := set_cell region (set_lprev 0 (regions v region)) v in
    let v := set_dynamic (vmm_region_page_index v) region (dynamic_regions_created v) v in
    set_destroyed (u32 (total_regions_destroyed v + 1)) v
  else v.

(** ** The list *)

(** The insertion point: the last cell that starts before [start], and the cell
    after it. *)
Fixpoint insert_point (fuel : nat) (rs : Z -> vmm_region) (start prev current : Z) : Z * Z :=
  match fuel with
  | O => (prev, current)
  | S fuel =>
      if negb (current =? 0) && (r_start (rs current) <? start)
      then insert_point fuel rs start current (r_next (rs current))
      else (prev, current)
  end.

Definition vmm_insert_region (region : Z) (v : vmm) : vmm :=
  if region =? 0 then v else
  if region_list v =? 0 then set_region_list region v else
  let '(prev, current) :=
    insert_point LIST_FUEL (regions v) (r_start (regions v region)) 0 (region_list v) in
  if prev =? 0 then
    let v := set_cell region (set_lnext (region_list v) (regions v region)) v in
    let v := set_cell (region_list v) (set_lprev region (regions v (region_list v))) v in
    set_region_list region v
  else
    let v := set_cell region (set_lprev prev (regions v region)) v in
    let v := set_cell region (set_lnext current (regions v region)) v in
    let v := set_cell prev (set_lnext region (regions v prev)) v in
    if current =? 0 then v
    else set_cell current (set_lprev region (regions v current)) v.

Definition vmm_remove_region (region : Z) (v : vmm) : vmm :=
  if region =? 0 then v else
  let v :=
    if r_prev (regions v region) =? 0
    then set_region_list (r_next (regions v region)) v
    else
      let p := r_prev (regions v region) in
      set_cell p (set_lnext (r_next (regions v region)) (regions v p)) v in
  let v :=
    if r_next (regions v region) =? 0 then v
    else
      let n := r_next (regions v region) in
      set_cell n (set_lprev (r_prev (regions v region)) (regions v n)) v in
  vmm_destroy_region region v.

(** The first cell of the list with a property, 0 for [NULL]. *)
Fixpoint find_cell (fuel : nat) (rs : Z -> vmm_region) (f : vmm_region -> bool) (region : Z) : Z :=
  match fuel with
  | O => 0
  | S fuel =>
      if region =? 0 then 0
      else if f (rs region) then region
      else find_cell fuel rs f (r_next (rs region))
  end.

Definition vmm_find_region (virt : Z) (v : vmm) : Z :=
  find_cell LIST_FUEL (regions v) (fun r => (r_start r <=? virt) && (virt <? r_end r)) (region_list v).

Fixpoint merge_loop (fuel : nat) (region : Z) (v : vmm) : vmm :=
  match fuel with
  | O => v
  | S fuel =>
      if (region =? 0) || (r_next (regions v region) =? 0) then v else
      let next := r_next (regions v region) in
      if r_is_free (regions v region) && r_is_free (regions v next) &&
         (r_end (regions v region) =? r_start (regions v next))
      then
        let v := set_cell region (set_r_end (r_end (regions v next)) (regions v region)) v in
        let v := vmm_remove_region next v in
        merge_loop fuel region v
      else merge_loop fuel next v
  end.

Definition vmm_merge_free_regions (v : vmm) : vmm :=
  merge_loop LIST_FUEL (region_list v) v.

(** Linking the cell [second] in after [region]. *)
Definition link_after (region second : Z) (v : vmm) : vmm :=
  let v := set_cell second (set_lnext (r_next (regions v region)) (regions v second)) v in
  let v := set_cell second (set_lprev region (regions v second)) v in
  let v := set_cell region (set_lnext second (regions v region)) v in
  let n := r_next (regions v second) in
  if n =? 0 then v else set_cell n (set_lprev second (regions v n)) v.

(** Returns the first part, 0 for [NULL]. *)
Definition vmm_split_region (region split_point : Z) (v : vmm) : Z * vmm :=
  if (region =? 0) || (split_point <=? r_start (regions v region)) ||
     (r_end (regions v region) <=? split_point) then (0, v) else
  let '(second, v) := vmm_create_region split_point (r_end (regions v region))
    (r_flags (regions v region)) (r_is_free (regions v region)) v in
  if second =? 0 then (0, v) else
  let v := set_cell region (set_r_end split_point (regions v region)) v in
  (region, link_after region second v).

(** ** Initialization *)

Definition vmm_enable_dynamic_allocation (v : vmm) : vmm :=
  if use_dynamic_allocation v then v else
  let '(phys, p) := pmm_alloc_page (pm (mm v)) in
  let v := set_mm (set_pm p (mm v)) v in
  if phys =? 0 then v else
  mk_vmm (region_list v) (regions v) (bootstrap_pool v) (bootstrap_pool_index v) true
    (u32 (phys + PHYS_MAP_BASE)) 0 (vmm_region_free_list v) (total_regions_created v)
    (total_regions_destroyed v) (bootstrap_regions_created v) (dynamic_regions_created v) (mm v).

Definition vmm_init (v : vmm) : vmm :=
  let '(kernel_region, v) := vmm_create_region VMM_KERNEL_START VMM_USER_START
    (Z.lor (Z.lor VMM_KERNEL VMM_WRITE) VMM_PRESENT) false v in
  if kernel_region =? 0 then v else
  let v := vmm_insert_region kernel_region v in
  let '(user_region, v) := vmm_create_region VMM_USER_START VMM_USER_END
    (Z.lor VMM_USER VMM_WRITE) true v in
  if user_region =? 0 then v else
  let v := vmm_insert_region user_region v in
  let '(heap_region, v) := vmm_create_region VMM_KERNEL_HEAP VMM_KERNEL_END
    (Z.lor VMM_KERNEL VMM_WRITE) true v in
  if heap_region =? 0 then v else
  vmm_insert_region heap_region v.

(** ** Mapping *)

(** [for (j = 0; j < n; j++) paging_unmap_page(virt + j * PAGE_SIZE)] *)
Definition unmap_pages (n virt : Z) (m : mmu) : mmu :=
  for_loop n (fun j m => paging_unmap_page (u32 (virt + u32 (j * PAGE_SIZE))) m) m.

Fixpoint map_region_loop (n : nat) (i virt phys flags : Z) (m : mmu) : bool * mmu :=
  match n with
  | O => (true, m)
  | S n =>
      let '(ok, m) := paging_map_page (u32 (virt + u32 (i * PAGE_SIZE)))
                        (u32 (phys + u32 (i * PAGE_SIZE))) flags m in
      if ok then map_region_loop n (i + 1) virt phys flags m
      else (false, unmap_pages i virt m)
  end.

Definition vmm_map_region (virt phys pages flags : Z) (v : vmm) : bool * vmm :=
  if (virt =? 0) || (pages =? 0) then (false, v) else
  if negb (IS_PAGE_ALIGNED virt) || negb (IS_PAGE_ALIGNED phys) then (false, v) else
  let '(ok, m) := map_region_loop (Z.to_nat pages) 0 virt phys flags (mm v) in
  (ok, set_mm m v).

(** One page of [vmm_unmap_region]. *)
Definition unmap_free_page (v : Z) (m : mmu) : mmu :=
  let phys := paging_get_physical_address v m in
  let m := if phys =? 0 then m else set_pm (pmm_free_page phys (pm m)) m in
  paging_unmap_page v m.

Definition vmm_unmap_region (virt pages : Z) (v : vmm) : bool * vmm :=
  if (virt =? 0) || (pages =? 0) then (false, v) else
  if negb (IS_PAGE_ALIGNED virt) then (false, v) else
  (true, set_mm (for_loop pages
    (fun i => unmap_free_page (u32 (virt + u32 (i * PAGE_SIZE)))) (mm v)) v).

(** ** Allocation and release *)

(** Giving the region of a failed allocation back. *)
Definition alloc_failed (alloc_start i : Z) (v : vmm) : vmm :=
  let v := (vmm_unmap_region alloc_start i v).2 in
  let r := vmm_find_region alloc_start v in
  if r =? 0 then v else
  vmm_merge_free_regions (set_cell r (set_r_free true (regions v r)) v).

(** Mapping the pages from number [i] on. *)
Fixpoint alloc_pages_loop (n : nat) (i alloc_start flags : Z) (v : vmm) : Z * vmm :=
  match n with
  | O => (alloc_start, v)
  | S n =>
      let '(phys, p) := pmm_alloc_page (pm (mm v)) in
      let v := set_mm (set_pm p (mm v)) v in
      if phys =? 0 then (0, alloc_failed alloc_start i v) else
      let page_flags := Z.lor PAGE_PRESENT PAGE_WRITE in
      let page_flags := if Z.land flags VMM_USER =? 0 then page_flags
                        else Z.lor page_flags PAGE_USER in
      let '(ok, m) := paging_map_page (u32 (alloc_start + u32 (i * PAGE_SIZE))) phys page_flags (mm v) in
      let v := set_mm m v in
      if ok then alloc_pages_loop n (i + 1) alloc_start flags v
      else
        let v := set_mm (set_pm (pmm_free_page phys (pm (mm v))) (mm v)) v in
        (0, alloc_failed alloc_start i v)
  end.

Definition suitable (size flags : Z) (r : vmm_region) : bool :=
  r_is_free r && (size <=? u32 (r_end r - r_start r)) &&
  eqb (Z.land flags VMM_USER =? 0) (is_kernel_address (r_start r)).

Definition vmm_alloc (pages flags : Z) (v : vmm) : Z * vmm :=
  if pages =? 0 then (0, v) else
  let size := u32 (pages * PAGE_SIZE) in
  let region := find_cell LIST_FUEL (regions v) (suitable size flags) (region_list v) in
  if region =? 0 then (0, v) else
  let alloc_start := r_start (regions v region) in
  let alloc_end := u32 (alloc_start + size) in
  let '(allocated, v) :=
    if u32 (r_end (regions v region) - r_start (regions v region)) =? size
    then (region, v)
    else vmm_split_region region alloc_end v in
  if allocated =? 0 then (0, v) else
  let v := set_cell allocated (set_r_free false (regions v allocated)) v in
  let v := set_cell allocated (set_r_flags (Z.lor flags VMM_PRESENT) (regions v allocated)) v in
  alloc_pages_loop (Z.to_nat pages) 0 alloc_start flags v.

Definition vmm_free (virt pages : Z) (v : vmm) : bool * vmm :=
  if (virt =? 0) || (pages =? 0) then (false, v) else
  if negb (IS_PAGE_ALIGNED virt) then (false, v) else
  let region := vmm_find_region virt v in
  if region =? 0 then (false, v) else
  if r_is_free (regions v region) then (false, v) else
  let size := u32 (pages * PAGE_SIZE) in
  if negb (u32 (r_end (regions v region) - r_start (regions v region)) =? size) then (false, v) else
  let v := (vmm_unmap_region virt pages v).2 in
  let v := set_cell region (set_r_free true (regions v region)) v in
  (true, vmm_merge_free_regions v).

Definition vmm_is_range_free (virt pages : Z) (v : vmm) : bool :=
  let end_ := u32 (virt + u32 (pages * PAGE_SIZE)) in
  negb (find_cell LIST_FUEL (regions v)
    (fun r => r_is_free r && (r_start r <=? virt) && (end_ <=? r_end r)) (region_list v) =? 0).

Definition vmm_find_free_region (pages : Z) (v : vmm) : Z :=
  let size := u32 (pages * PAGE_SIZE) in
  let region := find_cell LIST_FUEL (regions v)
    (fun r => r_is_free r && (size <=? u32 (r_end r - r_start r))) (region_list v) in
  if region =? 0 then 0 else r_start (regions v region).

Definition vmm_kernel_alloc (size : Z) (v : vmm) : Z * vmm :=
  if size =? 0 then (0, v) else
  vmm_alloc (PAGE_ALIGN_UP size / PAGE_SIZE) (Z.lor VMM_KERNEL VMM_WRITE) v.

Definition vmm_kernel_free (ptr size : Z) (v : vmm) : vmm :=
  if (ptr =? 0) || (size =? 0) then v else
  (vmm_free ptr (PAGE_ALIGN_UP size / PAGE_SIZE) v).2.

(** ** Statistics *)

Record vmm_stats := mk_stats {
  total_virtual_space : Z; used_virtual_space : Z; free_virtual_space : Z;
  num_regions : Z; num_free_regions : Z; num_used_regions : Z;
  kernel_heap_start : Z; kernel_heap_current : Z }.

(** The counters after one region. *)
Definition stats_region (r : vmm_region) (s : vmm_stats) : vmm_stats :=
  let region_size := u32 (r_end r - r_start r) in
  let total := u32 (total_virtual_space s + region_size) in
  let n := u32 (num_regions s + 1) in
  if r_is_free r
  then mk_stats total (used_virtual_space s) (u32 (free_virtual_space s + region_size)) n
         (u32 (num_free_regions s + 1)) (num_used_regions s) (kernel_heap_start s) (kernel_heap_current s)
  else mk_stats total (u32 (used_virtual_space s + region_size)) (free_virtual_space s) n
         (num_free_regions s) (u32 (num_used_regions s + 1)) (kernel_heap_start s) (kernel_heap_current s).

Fixpoint stats_loop (fuel : nat) (rs : Z -> vmm_region) (region : Z) (s : vmm_stats) : vmm_stats :=
  match fuel with
  | O => s
  | S fuel =>
      if region =? 0 then s
      else stats_loop fuel rs (r_next (rs region)) (stats_region (rs region) s)
  end.

Definition vmm_get_stats (v : vmm) : vmm_stats :=
  stats_loop LIST_FUEL (regions v) (region_list v) (mk_stats 0 0 0 0 0 0 VMM_KERNEL_HEAP 0).
