(* ===== verification/VmmList.v ===== *)
(** The region list of the virtual memory manager as a list of segments.

    [region_inv v l fl] ties a state to the cells [l] of the region list and the
    cells [fl] kept for reuse; [segs v l] is what the cells say.  The operations
    on cells implement list operations on segments. *)

From S2P Require Import Prelude Dll Pmm Paging Vmm.
From Stdlib Require Import ZArith Lia Bool.
From stdpp Require Import base tactics numbers list sets gmap.
Open Scope Z_scope.

(** ** Segments *)

Record seg := mk_seg { s_start : Z; s_end : Z; s_flags : Z; s_free : bool }.

Definition seg_of (r : vmm_region) : seg := mk_seg (r_start r) (r_end r) (r_flags r) (r_is_free r).

Definition segs (v : vmm) (l : list Z) : list seg := map (fun p => seg_of (regions v p)) l.

(** The segments cover [a, b) without gap or overlap, page by page. *)
Fixpoint tiled (a b : Z) (T : list seg) : Prop :=
  match T with
  | [] => a = b
  | s :: T => s_start s = a /\ s_start s < s_end s /\ s_start s mod PAGE_SIZE = 0 /\
              s_end s mod PAGE_SIZE = 0 /\ tiled (s_end s) b T
  end.

Lemma tiled_app a b T1 T2 :
  tiled a b (T1 ++ T2) <-> exists c, tiled a c T1 /\ tiled c b T2.
Proof.
  revert a. induction T1 as [|s T1 IH]; intros a; cbn [app tiled].
  - split; [by exists a|]. by intros (c & -> & ?).
  - rewrite IH. naive_solver.
Qed.

Lemma tiled_le a b T : tiled a b T -> a <= b.
Proof.
  revert a. induction T as [|s T IH]; intros a; cbn [tiled]; [lia|].
  intros (<- & Hlt & _ & _ & H). apply IH in H. lia.
Qed.

Lemma tiled_in a b T s : tiled a b T -> s ∈ T -> a <= s_start s /\ s_start s < s_end s /\ s_end s <= b.
Proof.
  revert a. induction T as [|t T IH]; intros a; cbn [tiled]; [set_solver|].
  intros (<- & Hlt & _ & _ & H) [->|Hs]%elem_of_cons.
  - apply tiled_le in H. lia.
  - destruct (IH _ H Hs). lia.
Qed.

(** ** Singly linked chains: the cells kept for reuse *)

Fixpoint chain (rs : Z -> vmm_region) (p : Z) (l : list Z) : Prop :=
  match l with
  | [] => p = 0
  | x :: l => p = x /\ x <> 0 /\ chain rs (r_next (rs x)) l
  end.

Lemma chain_frame rs rs' p l :
  (forall x, x ∈ l -> r_next (rs' x) = r_next (rs x)) -> chain rs p l -> chain rs' p l.
Proof.
  revert p. induction l as [|x l IH]; intros p Hf; cbn [chain]; [done|].
  intros (-> & Hx & H). rewrite (Hf x) by set_solver. split; [done|]. split; [done|].
  apply IH; [|done]. set_solver.
Qed.

(** ** Cells *)

Definition boot_cell (v : vmm) (n x : Z) : Prop :=
  exists i, 0 <= i < n /\ x = bootstrap_pool v + SIZEOF_REGION * i.
Definition page_cell (v : vmm) (n x : Z) : Prop :=
  use_dynamic_allocation v = true /\
  exists i, 0 <= i < n /\ x = vmm_region_page_virt v + SIZEOF_REGION * i.

(** The pools, the cells in use [L] and the cells kept for reuse [fl]. *)
Record cells_ok (v : vmm) (L fl : list Z) : Prop := {
  co_boot : 0 < bootstrap_pool v /\ 0 <= bootstrap_pool_index v <= VMM_BOOTSTRAP_POOL_SIZE;
  co_page : use_dynamic_allocation v = true ->
    0 < vmm_region_page_virt v /\ 0 <= vmm_region_page_index v <= VMM_REGIONS_PER_PAGE /\
    (bootstrap_pool v + SIZEOF_REGION * VMM_BOOTSTRAP_POOL_SIZE <= vmm_region_page_virt v \/
     vmm_region_page_virt v + PAGE_SIZE <= bootstrap_pool v);
  co_live x : x ∈ L -> boot_cell v (bootstrap_pool_index v) x \/ page_cell v (vmm_region_page_index v) x;
  co_kept x : x ∈ fl -> page_cell v (vmm_region_page_index v) x;
  co_nodup : NoDup (L ++ fl);
  co_chain : chain (regions v) (vmm_region_free_list v) fl }.

Record region_inv (v : vmm) (l fl : list Z) : Prop := {
  ri_list : dlist (regions v) (region_list v) l;
  ri_cells : cells_ok v l fl }.

Lemma boot_cell_inj v n x i :
  0 <= i -> boot_cell v n x -> x = bootstrap_pool v + SIZEOF_REGION * i -> i < n.
Proof. intros Hi (j & Hj & ->). unfold SIZEOF_REGION. lia. Qed.

(** Arithmetic on the addresses of the pools. *)
Ltac pool_lia :=
  change VMM_REGIONS_PER_PAGE with 170 in *;
  unfold SIZEOF_REGION, VMM_BOOTSTRAP_POOL_SIZE, PAGE_SIZE in *; lia.

(** The two pools do not overlap. *)
Lemma pools_disjoint v L fl n m x :
  cells_ok v L fl -> n <= VMM_BOOTSTRAP_POOL_SIZE -> m <= VMM_REGIONS_PER_PAGE ->
  boot_cell v n x -> page_cell v m x -> False.
Proof.
  intros C Hn Hm (i & Hi & ->) (Hd & j & Hj & E). destruct (co_page _ _ _ C Hd) as (_ & _ & H).
  pool_lia.
Qed.

(** The pools bound the number of cells. *)
Definition pool_cells (v : vmm) : list Z :=
  map (fun i => bootstrap_pool v + SIZEOF_REGION * i) (seqZ 0 VMM_BOOTSTRAP_POOL_SIZE) ++
  map (fun i => vmm_region_page_virt v + SIZEOF_REGION * i) (seqZ 0 VMM_REGIONS_PER_PAGE).

Lemma region_fuel v L fl : cells_ok v L fl -> (length L < LIST_FUEL - 1)%nat.
Proof.
  intros C. pose proof (co_nodup _ _ _ C) as Hnd. apply NoDup_app in Hnd as (Hnd & _ & _).
  assert (Hincl : incl L (pool_cells v)).
  { intros x Hx. apply list_elem_of_In in Hx. apply list_elem_of_In. unfold pool_cells.
    destruct (co_boot _ _ _ C) as [_ Hb]. rewrite elem_of_app, !list_elem_of_fmap.
    destruct (co_live _ _ _ C x Hx) as [(i & Hi & ->)|(Hd & i & Hi & ->)]; [left|right]; exists i.
    - split; [done|]. apply elem_of_seqZ. lia.
    - destruct (co_page _ _ _ C Hd) as (_ & Hp & _). split; [done|]. apply elem_of_seqZ. lia. }
  apply NoDup_ListNoDup in Hnd. pose proof (NoDup_incl_length Hnd Hincl) as Hlen.
  unfold pool_cells in Hlen. rewrite length_app, !length_fmap, !length_seqZ in Hlen.
  change (Z.to_nat VMM_BOOTSTRAP_POOL_SIZE) with 32%nat in Hlen.
  change (Z.to_nat VMM_REGIONS_PER_PAGE) with 170%nat in Hlen. unfold LIST_FUEL. lia.
Qed.

Definition same_pools (v v' : vmm) : Prop :=
  bootstrap_pool v' = bootstrap_pool v /\ bootstrap_pool_index v' = bootstrap_pool_index v /\
  use_dynamic_allocation v' = use_dynamic_allocation v /\
  vmm_region_page_virt v' = vmm_region_page_virt v /\
  vmm_region_page_index v' = vmm_region_page_index v /\
  vmm_region_free_list v' = vmm_region_free_list v.

Lemma cells_ext v v' L L' fl :
  same_pools v v' -> L ≡ₚ L' -> (forall x, x ∈ fl -> r_next (regions v' x) = r_next (regions v x)) ->
  cells_ok v L fl -> cells_ok v' L' fl.
Proof.
  intros (E1 & E2 & E3 & E4 & E5 & E6) HL Hf [C1 C2 C3 C4 C5 C6].
  unfold boot_cell, page_cell in *. split; unfold boot_cell, page_cell; rewrite ?E1, ?E2, ?E3, ?E4, ?E5, ?E6.
  - done.
  - done.
  - intros x. rewrite <- HL. apply C3.
  - done.
  - by rewrite <- HL.
  - by eapply chain_frame.
Qed.

(** *** Creating a cell *)

(** What creation leaves alone. *)
Definition created (v v' : vmm) (x : Z) (r : vmm_region) : Prop :=
  regions v' = (regions v).[x <- r] /\ region_list v' = region_list v /\ mm v' = mm v.

Lemma new_cell_ok v v' L fl fl' x :
  cells_ok v L fl -> x <> 0 -> x ∉ L -> x ∉ fl' ->
  fl = fl' \/ fl = x :: fl' ->
  bootstrap_pool v' = bootstrap_pool v -> use_dynamic_allocation v' = use_dynamic_allocation v ->
  vmm_region_page_virt v' = vmm_region_page_virt v ->
  bootstrap_pool_index v <= bootstrap_pool_index v' <= VMM_BOOTSTRAP_POOL_SIZE ->
  (use_dynamic_allocation v = true ->
     vmm_region_page_index v <= vmm_region_page_index v' <= VMM_REGIONS_PER_PAGE) ->
  boot_cell v' (bootstrap_pool_index v') x \/ page_cell v' (vmm_region_page_index v') x ->
  chain (regions v') (vmm_region_free_list v') fl' -> cells_ok v' (x :: L) fl'.
Proof.
  intros [C1 C2 C3 C4 C5 C6] Hx HxL Hxf Hfl E1 E2 E3 Hb Hp Hcell Hch.
  assert (Hmono : forall y, boot_cell v (bootstrap_pool_index v) y \/ page_cell v (vmm_region_page_index v) y ->
    boot_cell v' (bootstrap_pool_index v') y \/ page_cell v' (vmm_region_page_index v') y).
  { unfold boot_cell, page_cell. rewrite E1, E2, E3.
    intros y [(i & Hi & ->)|(Hd & i & Hi & ->)].
    - left. exists i. split; [lia|done].
    - right. split; [done|]. exists i. specialize (Hp Hd). split; [lia|done]. }
  assert (Hsub : forall y, y ∈ fl' -> y ∈ fl) by (destruct Hfl as [->| ->]; set_solver).
  split.
  - rewrite E1. lia.
  - rewrite E1, E2, E3. intros Hd. destruct (C2 Hd) as (? & ? & ?). specialize (Hp Hd).
    split; [done|]. split; [lia|done].
  - intros y [->|Hy]%elem_of_cons; [done|]. by apply Hmono, C3.
  - intros y Hy. destruct (C4 y (Hsub y Hy)) as (Hd & i & Hi & ->).
    unfold page_cell. rewrite E2, E3. split; [done|]. exists i. specialize (Hp Hd). split; [lia|done].
  - cbn. apply NoDup_cons. split; [rewrite elem_of_app; tauto|].
    destruct Hfl as [->| ->]; [done|]. apply NoDup_app in C5 as (H1 & H2 & H3).
    apply NoDup_cons in H3 as [? ?]. apply NoDup_app. set_solver.
  - done.
Qed.

Lemma create_spec v L fl s e f b :
  cells_ok v L fl ->
  let '(x, v') := vmm_create_region s e f b v in
  (x = 0 /\ v' = v) \/
  (x <> 0 /\ x ∉ L /\ created v v' x (mk_region s e f b 0 0) /\ exists fl', cells_ok v' (x :: L) fl').
Proof.
  intros C. pose proof C as [C1 C2 C3 C4 C5 C6]. unfold vmm_create_region.
  assert (Hsep : forall y, y ∈ L -> y ∈ fl -> False).
  { apply NoDup_app in C5 as (_ & H & _). intros y H1 H2. by apply (H y). }
  destruct (use_dynamic_allocation v) eqn:Hd.
  - specialize (C2 eq_refl) as (Cv & Ci & Cd). destruct (Z.eqb_spec (vmm_region_free_list v) 0) as [Hz|Hz]; cbn [negb].
    + assert (fl = []) as -> by (destruct fl as [|y fl]; [done|]; destruct C6 as (? & ? & _); congruence).
      destruct (Z.leb_spec VMM_REGIONS_PER_PAGE (vmm_region_page_index v)) as [Hfull|Hroom]; [by left|].
      set (x := vmm_region_page_virt v + SIZEOF_REGION * vmm_region_page_index v).
      assert (Hx : x <> 0) by (unfold x, SIZEOF_REGION; lia).
      replace (x =? 0) with false by lia.
      assert (HxL : x ∉ L).
      { intros Hin. destruct (C3 x Hin) as [Hbc|(_ & i & Hi & E)].
        - eapply (pools_disjoint v L [] _ VMM_REGIONS_PER_PAGE x C); [apply C1|done|done|].
          split; [done|]. exists (vmm_region_page_index v). split; [lia|done].
        - unfold x, SIZEOF_REGION in E. lia. }
      right. split; [done|]. split; [done|]. split; [done|]. exists [].
      apply (new_cell_ok v _ L [] [] x C Hx HxL (not_elem_of_nil x) (or_introl eq_refl));
        [done|done|done|cbn; lia|cbn; lia| |done].
      right. split; [done|]. exists (vmm_region_page_index v). cbn. split; [lia|done].
    + destruct fl as [|x fl']; [done|]. destruct C6 as (Ex & Hx & Hch). rewrite Ex in *.
      replace (x =? 0) with false by lia.
      assert (HxL : x ∉ L) by (intros Hin; apply (Hsep x Hin); set_solver).
      assert (Hxf : x ∉ fl').
      { apply NoDup_app in C5 as (_ & _ & H). by apply NoDup_cons in H as [? _]. }
      right. split; [done|]. split; [done|]. split; [done|]. exists fl'.
      apply (new_cell_ok v _ L (x :: fl') fl' x C Hx HxL Hxf (or_intror eq_refl));
        [done|done|done|cbn; lia|cbn; lia| |].
      * right. apply (C4 x). set_solver.
      * eapply chain_frame; [|exact Hch]. intros y Hy. cbn. rewrite upd_ne; [done|]. by intros ->.
  - assert (fl = []) as ->.
    { destruct fl as [|y fl]; [done|]. destruct (C4 y ltac:(set_solver)) as [? _]. congruence. }
    destruct (Z.leb_spec VMM_BOOTSTRAP_POOL_SIZE (bootstrap_pool_index v)) as [Hfull|Hroom]; [by left|].
    set (x := bootstrap_pool v + SIZEOF_REGION * bootstrap_pool_index v).
    assert (Hx : x <> 0) by (unfold x, SIZEOF_REGION; lia).
    replace (x =? 0) with false by lia.
    assert (HxL : x ∉ L).
    { intros Hin. destruct (C3 x Hin) as [(i & Hi & E)|[? _]]; [|congruence].
      unfold x, SIZEOF_REGION in E. lia. }
    right. split; [done|]. split; [done|]. split; [done|]. exists [].
    apply (new_cell_ok v _ L [] [] x C Hx HxL (not_elem_of_nil x) (or_introl eq_refl));
      [done|done|done|cbn; lia|congruence| |done].
    left. exists (bootstrap_pool_index v). cbn. split; [lia|done].
Qed.

(** Whether there is a cell left does not depend on the region. *)
Definition no_cell (v : vmm) : Prop := (vmm_create_region 0 0 0 false v).1 = 0.

Lemma create_no_cell v s e f b v' : vmm_create_region s e f b v = (0, v') -> no_cell v.
Proof.
  unfold no_cell, vmm_create_region.
  repeat match goal with |- context [if ?b then _ else _] => destruct b eqn:?; try done end;
    intros [= ?]; cbn; done || lia.
Qed.

(** *** Changing what a cell says *)

Lemma segs_ext v v' l :
  (forall x, x ∈ l -> seg_of (regions v' x) = seg_of (regions v x)) -> segs v' l = segs v l.
Proof. intros H. apply map_ext_in. intros x Hx. apply H. by apply list_elem_of_In. Qed.

Lemma segs_app v l1 l2 : segs v (l1 ++ l2) = segs v l1 ++ segs v l2.
Proof. apply map_app. Qed.

Lemma set_cell_inv v l fl p r :
  region_inv v l fl -> p ∈ l ->
  r_next r = r_next (regions v p) -> r_prev r = r_prev (regions v p) ->
  region_inv (set_cell p r v) l fl.
Proof.
  intros [D C] Hp Hn Hv. split.
  - eapply dlist_frame; [|exact D]. intros x _. cbn. rewrite upd_cases. by case_decide; subst.
  - apply (cells_ext v _ l l fl); [done|done| |exact C]. intros x _. cbn. rewrite upd_cases. by case_decide; subst.
Qed.

Lemma set_cell_segs v l1 l2 p r :
  p ∉ l1 -> p ∉ l2 -> segs (set_cell p r v) (l1 ++ p :: l2) = segs v l1 ++ seg_of r :: segs v l2.
Proof.
  intros H1 H2. rewrite segs_app. cbn [segs map]. f_equal; [|f_equal].
  - apply segs_ext. intros x Hx. cbn. rewrite upd_ne; [done|by intros ->].
  - cbn. by rewrite upd_eq.
  - apply segs_ext. intros x Hx. cbn. rewrite upd_ne; [done|by intros ->].
Qed.

(** *** Splitting *)

Lemma link_after_spec v l1 p l2 fl x :
  dlist (regions v) (region_list v) (l1 ++ p :: l2) -> x <> 0 -> x ∉ l1 ++ p :: l2 -> x ∉ fl ->
  cells_ok v (x :: l1 ++ p :: l2) fl ->
  region_inv (link_after p x v) (l1 ++ p :: x :: l2) fl /\ mm (link_after p x v) = mm v /\
  (forall y, seg_of (regions (link_after p x v) y) = seg_of (regions v y)).
Proof.
  intros D Hx HxL Hxf C.
  destruct (dlist_links _ _ _ _ _ D) as (Hprev & Hnext & Hp0 & Hp1 & Hp2 & Hnd).
  assert (Hxp : x <> p) by set_solver.
  set (n := head_or 0 l2) in *. change (r_next (regions v p) = n) in Hnext.
  assert (Hpn : n <> 0 -> p <> n).
  { unfold n. destruct l2 as [|y l2]; [done|]. cbn. set_solver. }
  assert (Hxn : n <> 0 -> x <> n).
  { unfold n. destruct l2 as [|y l2]; [done|]. cbn. set_solver. }
  assert (Hcell : forall y, regions (link_after p x v) y =
    if decide (y = p) then set_lnext x (regions v p) else
    if decide (y = x) then set_lprev p (set_lnext n (regions v x)) else
    if decide (y = n /\ n <> 0) then set_lprev x (regions v y) else regions v y).
  { intros y. unfold link_after. cbn [regions set_cell set_regions].
    rewrite !upd_eq, !(upd_ne _ x p), !(upd_ne _ p x), !upd_eq, Hnext by done. cbn [r_next set_lnext set_lprev vmm_region_linked].
    destruct (Z.eqb_spec n 0) as [Hz|Hz]; cbn [regions set_cell set_regions]; rewrite !upd_cases;
      repeat case_decide; subst; try done; try tauto; exfalso; tauto. }
  assert (Hlp : p = last_or 0 (l1 ++ [p])) by (by rewrite last_or_snoc).
  split; [split|split].
  - assert (Hhd : region_list (link_after p x v) = region_list v)
      by (unfold link_after; cbn; by destruct (_ =? 0)).
    rewrite Hhd. change (l1 ++ p :: x :: l2) with (l1 ++ [p] ++ x :: l2). rewrite app_assoc.
    replace (region_list v) with (if decide (l1 ++ [p] = []) then x else region_list v)
      by (destruct l1; done).
    eapply dlist_insert; [by rewrite <- app_assoc|done|by rewrite <- app_assoc|..].
    + rewrite Hcell, decide_False, decide_True by done. cbn. exact Hlp.
    + rewrite Hcell, decide_False, decide_True by done. done.
    + intros y Hy. rewrite <- app_assoc in Hy. rewrite last_or_snoc. fold n. rewrite Hcell.
      assert (y <> x) by set_solver.
      assert (Hy0 : y <> 0) by (by eapply dlist_nonzero).
      destruct (decide (y = p)) as [->|Hyp].
      * split; [done|]. cbn. rewrite decide_False; [done|]. intros E. apply Hpn; congruence.
      * rewrite (decide_False (P := y = x)) by done. rewrite (decide_ext (y = n /\ n <> 0) (y = n)) by naive_solver.
        by destruct (decide (y = n)).
  - eapply (cells_ext v _ (x :: l1 ++ p :: l2)); [| | |exact C].
    + unfold link_after; cbn. by destruct (_ =? 0).
    + change (l1 ++ p :: x :: l2) with (l1 ++ [p] ++ x :: l2). rewrite app_assoc.
      rewrite <- (Permutation_middle (l1 ++ [p]) l2 x). by rewrite <- app_assoc.
    + intros y Hy. rewrite Hcell. destruct C as [_ _ _ _ Hnd' _]. apply NoDup_app in Hnd' as (_ & Hs & _).
      rewrite (decide_False (P := y = p)), (decide_False (P := y = x)) by (intros ->; apply (Hs p) || apply (Hs x); set_solver).
      by destruct (decide (y = n /\ n <> 0)).
  - unfold link_after; cbn. by destruct (_ =? 0).
  - intros y. rewrite Hcell. destruct (decide (y = p)) as [->|]; [done|].
    destruct (decide (y = x)) as [->|]; [done|]. by destruct (decide (y = n /\ n <> 0)).
Qed.

(** Creating a cell leaves the list and the other cells alone. *)
Lemma created_list v v' x r l :
  created v v' x r -> x ∉ l -> dlist (regions v) (region_list v) l ->
  dlist (regions v') (region_list v') l /\ segs v' l = segs v l.
Proof.
  intros (R1 & R2 & _) Hx D. rewrite R2. split.
  - eapply dlist_frame; [|exact D]. intros y Hy. rewrite R1, upd_ne by (by intros ->). done.
  - apply segs_ext. intros y Hy. by rewrite R1, upd_ne by (by intros ->).
Qed.

Lemma split_spec v l1 p l2 fl sp :
  region_inv v (l1 ++ p :: l2) fl ->
  r_start (regions v p) < sp < r_end (regions v p) ->
  let '(q, v') := vmm_split_region p sp v in
  (q = 0 /\ v' = v /\ no_cell v) \/
  (q = p /\ mm v' = mm v /\ exists x fl', region_inv v' (l1 ++ p :: x :: l2) fl' /\
     segs v' (l1 ++ p :: x :: l2) =
       segs v l1 ++ mk_seg (r_start (regions v p)) sp (r_flags (regions v p)) (r_is_free (regions v p)) ::
       mk_seg sp (r_end (regions v p)) (r_flags (regions v p)) (r_is_free (regions v p)) :: segs v l2).
Proof.
  intros [D C] Hsp. unfold vmm_split_region.
  destruct (dlist_links _ _ _ _ _ D) as (_ & _ & Hp0 & Hp1 & Hp2 & _).
  replace (p =? 0) with false by lia. replace (sp <=? _) with false by lia.
  replace (_ <=? sp) with false by lia. cbn [orb].
  pose proof (create_spec v (l1 ++ p :: l2) fl sp (r_end (regions v p)) (r_flags (regions v p))
    (r_is_free (regions v p)) C) as H.
  destruct (vmm_create_region _ _ _ _ v) as [x v1] eqn:Ecr.
  destruct H as [[-> ->]|(Hx & HxL & Hcr & fl' & C1)]; [left; split; [done|]; split; [done|]; by eapply create_no_cell|].
  replace (x =? 0) with false by lia. right.
  destruct (created_list _ _ _ _ _ Hcr HxL D) as [D1 S1].
  assert (Hxf : x ∉ fl').
  { pose proof (co_nodup _ _ _ C1) as Hnd. cbn in Hnd. apply NoDup_cons in Hnd as [Hnd _]. set_solver. }
  set (v2 := set_cell p (set_r_end sp (regions v1 p)) v1).
  assert (D2 : dlist (regions v2) (region_list v2) (l1 ++ p :: l2)).
  { eapply dlist_frame; [|exact D1]. intros y _. cbn. rewrite upd_cases. by case_decide; subst. }
  assert (C2 : cells_ok v2 (x :: l1 ++ p :: l2) fl').
  { apply (cells_ext v1 _ (x :: l1 ++ p :: l2)); [done|done| |done]. intros y _. cbn. rewrite upd_cases.
    by case_decide; subst. }
  destruct (link_after_spec v2 l1 p l2 fl' x D2 Hx HxL Hxf C2) as (I3 & M3 & S3).
  split; [done|]. split; [rewrite M3; apply Hcr|]. exists x, fl'. split; [done|].
  destruct Hcr as (R1 & _ & _). rewrite (segs_ext v2) by done.
  assert (Hxp : x <> p) by set_solver.
  assert (Hrest : forall l, p ∉ l -> x ∉ l -> segs v2 l = segs v l).
  { intros l Hpl Hxl. apply segs_ext. intros y Hy. cbn. rewrite R1, !upd_ne; [done|by intros ->..]. }
  rewrite segs_app. change (segs v2 (p :: x :: l2)) with (seg_of (regions v2 p) :: seg_of (regions v2 x) :: segs v2 l2).
  rewrite !Hrest by set_solver. f_equal. f_equal; [|f_equal].
  - cbn. by rewrite upd_eq, R1, upd_ne by done.
  - cbn. by rewrite upd_ne, R1, upd_eq by done.
Qed.

(** *** Removing a cell *)

Lemma cells_drop v x L fl : cells_ok v (x :: L) fl -> cells_ok v L fl.
Proof.
  intros [C1 C2 C3 C4 C5 C6]. split; try done.
  - intros y Hy. apply C3. set_solver.
  - by apply NoDup_cons in C5 as [_ ?].
Qed.

Lemma destroy_spec v l fl p :
  dlist (regions v) (region_list v) l -> cells_ok v (p :: l) fl -> p <> 0 ->
  exists fl', region_inv (vmm_destroy_region p v) l fl' /\ mm (vmm_destroy_region p v) = mm v /\
    (forall y, seg_of (regions (vmm_destroy_region p v) y) = seg_of (regions v y)).
Proof.
  intros D C Hp. pose proof C as [C1 C2 C3 C4 C5 C6]. unfold vmm_destroy_region.
  change (NoDup (p :: (l ++ fl))) in C5. apply NoDup_cons in C5 as [Hpl Hnd].
  replace (p =? 0) with false by lia.
  destruct (C3 p ltac:(set_solver)) as [(i & Hi & Ep)|(Hd & i & Hi & Ep)].
  - replace ((bootstrap_pool v <=? p) && _) with true
      by (symmetry; pool_lia).
    exists fl. split; [|done]. split; [exact D|].
    apply (cells_ext v _ l l fl); [done|done|done|]. by apply cells_drop in C.
  - destruct (C2 Hd) as (Hv & Hidx & Hsep).
    replace ((bootstrap_pool v <=? p) && _) with false
      by (symmetry; pool_lia).
    rewrite Hd. replace (true && _ && _) with true by (symmetry; pool_lia).
    cbn [set_cell set_regions regions]. exists (p :: fl). split; [split|split; [done|]].
    + eapply dlist_frame; [|exact D]. intros y Hy. cbn. rewrite !upd_ne; [done|intros ->; set_solver..].
    + split; cbn; try done.
      * intros x Hx. apply C3. set_solver.
      * intros x [->|Hx]%elem_of_cons; [|by apply C4]. split; [done|]. by exists i.
      * rewrite <- Permutation_middle. by constructor.
      * rewrite upd_eq. split; [done|]. split; [done|]. cbn. rewrite upd_eq. cbn.
        eapply chain_frame; [|exact C6]. intros y Hy. rewrite !upd_ne; [done|intros ->; set_solver..].
    + intros y. cbn. rewrite !upd_cases. repeat case_decide; by subst.
Qed.

Lemma remove_spec v l1 p l2 fl :
  region_inv v (l1 ++ p :: l2) fl ->
  exists fl', region_inv (vmm_remove_region p v) (l1 ++ l2) fl' /\ mm (vmm_remove_region p v) = mm v /\
    (forall y, seg_of (regions (vmm_remove_region p v) y) = seg_of (regions v y)).
Proof.
  intros [D C]. destruct (dlist_links _ _ _ _ _ D) as (Hprev & Hnext & Hp0 & Hp1 & Hp2 & Hnd).
  unfold vmm_remove_region. replace (p =? 0) with false by lia.
  change (r_prev (regions v p) = last_or 0 l1) in Hprev. change (r_next (regions v p) = head_or 0 l2) in Hnext.
  set (v1 := if r_prev (regions v p) =? 0 then _ else _).
  assert (Hpn : r_prev (regions v p) <> 0 -> p <> r_prev (regions v p)).
  { rewrite Hprev. destruct l1 as [|a l1]; [done|]. intros _ E. apply Hp1. rewrite E. by apply last_or_elem. }
  assert (Hpx : r_next (regions v p) <> 0 -> p <> r_next (regions v p)).
  { rewrite Hnext. destruct l2 as [|a l2]; [done|]. intros _ E. apply Hp2. rewrite E. by apply head_or_elem. }
  assert (Hv1p : regions v1 p = regions v p).
  { unfold v1. destruct (Z.eqb_spec (r_prev (regions v p)) 0); [done|]. cbn. rewrite upd_ne by auto. done. }
  rewrite Hv1p. set (v2 := if r_next (regions v p) =? 0 then _ else _).
  assert (Hcell : forall y, regions v2 y =
    let r := if decide (y = r_prev (regions v p) /\ y <> 0)
             then set_lnext (r_next (regions v p)) (regions v y) else regions v y in
    if decide (y = r_next (regions v p) /\ y <> 0) then set_lprev (r_prev (regions v p)) r else r).
  { intros y. unfold v2, v1.
    destruct (Z.eqb_spec (r_next (regions v p)) 0), (Z.eqb_spec (r_prev (regions v p)) 0);
      cbn [regions set_cell set_regions set_region_list]; rewrite ?upd_cases;
      repeat destruct (decide _); subst; try done; intuition congruence. }
  assert (Hpools : same_pools v v2 /\ mm v2 = mm v /\ region_list v2 =
    if decide (r_prev (regions v p) = 0) then r_next (regions v p) else region_list v).
  { unfold v2, v1. destruct (r_next (regions v p) =? 0), (Z.eqb_spec (r_prev (regions v p)) 0);
      by destruct (decide _). }
  destruct Hpools as (Hpools & Hmm & Hhd).
  assert (D2 : dlist (regions v2) (region_list v2) (l1 ++ l2)).
  { rewrite Hhd. apply (dlist_remove (regions v) (regions v2) (region_list v) l1 p l2 D). intros x Hx.
    assert (Hx0 : x <> 0) by (eapply dlist_nonzero; [exact D|set_solver]).
    rewrite Hcell. cbn. repeat destruct (decide _); try done; tauto. }
  assert (C2 : cells_ok v2 (p :: l1 ++ l2) fl).
  { apply (cells_ext v _ (l1 ++ p :: l2)); [done|by rewrite <- Permutation_middle| |exact C].
    intros x Hx. rewrite Hcell. cbn zeta. destruct (decide (x = r_prev (regions v p) /\ x <> 0)) as [[-> H0]|];
      [exfalso|by destruct (decide (x = r_next (regions v p) /\ x <> 0))].
    destruct C as [_ _ _ _ Hnd' _]. apply NoDup_app in Hnd' as (_ & Hs & _).
    apply (Hs (r_prev (regions v p))); [|done]. rewrite Hprev in *. apply elem_of_app. left.
    apply last_or_elem. by intros ->. }
  destruct (destroy_spec v2 _ _ _ D2 C2 Hp0) as (fl' & I & M & S).
  exists fl'. split; [done|]. split; [congruence|]. intros y. rewrite S, Hcell. cbn zeta. clear.
  by repeat destruct (decide _).
Qed.

(** *** Merging *)

(** What [vmm_merge_free_regions] does to the segments, from [s] on. *)
Fixpoint merge_segs (s : seg) (T : list seg) : list seg :=
  match T with
  | [] => [s]
  | t :: T =>
      if s_free s && s_free t && (s_end s =? s_start t)
      then merge_segs (mk_seg (s_start s) (s_end t) (s_flags s) (s_free s)) T
      else s :: merge_segs t T
  end.

Definition merge_all (T : list seg) : list seg :=
  match T with [] => [] | s :: T => merge_segs s T end.

Lemma merge_loop_spec l2 : forall fuel v l1 p fl,
  region_inv v (l1 ++ p :: l2) fl -> (length l2 < fuel)%nat ->
  exists l' fl', region_inv (merge_loop fuel p v) l' fl' /\ mm (merge_loop fuel p v) = mm v /\
    segs (merge_loop fuel p v) l' = segs v l1 ++ merge_segs (seg_of (regions v p)) (segs v l2).
Proof.
  induction l2 as [|n l2 IH]; intros fuel v l1 p fl I Hf; (destruct fuel as [|fuel]; [cbn in Hf; lia|]);
    destruct (dlist_links _ _ _ _ _ (ri_list _ _ _ I)) as (_ & Hnext & Hp0 & Hp1 & Hp2 & _);
    cbn [merge_loop]; change (r_next (regions v p)) with (lnext (regions v p)); rewrite Hnext.
  - rewrite orb_true_r. exists (l1 ++ [p]), fl. split; [done|]. split; [done|]. by rewrite segs_app.
  - assert (Hn0 : n <> 0) by (eapply dlist_nonzero; [apply I|set_solver]).
    change (head_or 0 (n :: l2)) with n.
    replace (p =? 0) with false by lia. replace (n =? 0) with false by lia. cbn [orb].
    cbn [segs map merge_segs]. change (map _ l2) with (segs v l2). cbn [seg_of s_free s_end s_start s_flags].
    destruct (_ && _ && _) eqn:E.
    + set (v1 := set_cell p (set_r_end (r_end (regions v n)) (regions v p)) v).
      assert (I1 : region_inv v1 (l1 ++ p :: n :: l2) fl) by (apply set_cell_inv; [done|set_solver|done|done]).
      pose proof I1 as I1'. change (l1 ++ p :: n :: l2) with (l1 ++ [p] ++ n :: l2) in I1'.
      rewrite app_assoc in I1'. destruct (remove_spec _ _ _ _ _ I1') as (fl1 & I2 & M2 & S2).
      rewrite <- app_assoc in I2. cbn [app] in I2.
      destruct (IH fuel _ l1 p fl1 I2) as (l' & fl' & I' & M' & S'); [cbn in Hf; lia|].
      exists l', fl'. split; [done|]. split; [by rewrite M', M2|]. rewrite S', S2.
      assert (Hrest : forall l, p ∉ l -> segs (vmm_remove_region n v1) l = segs v l).
      { intros l Hl. apply segs_ext. intros y Hy. rewrite S2. cbn. rewrite upd_ne; [done|by intros ->]. }
      rewrite !Hrest by set_solver. unfold v1. cbn [regions set_cell set_regions]. by rewrite upd_eq.
    + change (l1 ++ p :: n :: l2) with (l1 ++ [p] ++ n :: l2) in I. rewrite app_assoc in I.
      destruct (IH fuel v (l1 ++ [p]) n fl I) as (l' & fl' & I' & M' & S'); [cbn in Hf; lia|].
      exists l', fl'. split; [done|]. split; [done|]. rewrite S', segs_app, <- app_assoc. done.
Qed.

Lemma merge_spec v l fl :
  region_inv v l fl ->
  exists l' fl', region_inv (vmm_merge_free_regions v) l' fl' /\ mm (vmm_merge_free_regions v) = mm v /\
    segs (vmm_merge_free_regions v) l' = merge_all (segs v l).
Proof.
  intros I. pose proof (dlist_head _ _ _ (ri_list _ _ _ I)) as Hhd. unfold vmm_merge_free_regions.
  destruct l as [|p l]; cbn in Hhd; rewrite Hhd.
  - by exists [], fl.
  - apply (merge_loop_spec l LIST_FUEL v [] p fl I).
    pose proof (region_fuel _ _ _ (ri_cells _ _ _ I)) as H. cbn [length] in H. lia.
Qed.

(** *** Searching *)

Lemma find_cell_dseg rs f l : forall fuel pv p,
  dseg rs pv p l 0 -> (length l < fuel)%nat ->
  (find_cell fuel rs f p = 0 /\ forall x, x ∈ l -> f (rs x) = false) \/
  (exists l1 x l2, l = l1 ++ x :: l2 /\ find_cell fuel rs f p = x /\ f (rs x) = true /\
     forall y, y ∈ l1 -> f (rs y) = false).
Proof.
  induction l as [|x l IH]; intros fuel pv p D Hf; (destruct fuel as [|fuel]; [cbn in Hf; lia|]); cbn [find_cell].
  - cbn in D. subst. left. set_solver.
  - destruct D as (-> & Hx & _ & D). replace (x =? 0) with false by lia.
    destruct (f (rs x)) eqn:E.
    + right. exists [], x, l. set_solver.
    + destruct (IH fuel x (r_next (rs x)) D) as [[H1 H2]|(l1 & y & l2 & -> & H1 & H2 & H3)]; [cbn in Hf; lia|left|right].
      * split; [done|]. intros y [->|Hy]%elem_of_cons; auto.
      * exists (x :: l1), y, l2. split; [done|]. split; [done|]. split; [done|].
        intros z [->|Hz]%elem_of_cons; auto.
Qed.

Lemma find_cell_spec v l fl f :
  region_inv v l fl ->
  (find_cell LIST_FUEL (regions v) f (region_list v) = 0 /\ forall x, x ∈ l -> f (regions v x) = false) \/
  (exists l1 x l2, l = l1 ++ x :: l2 /\ find_cell LIST_FUEL (regions v) f (region_list v) = x /\ x <> 0 /\
     f (regions v x) = true /\ forall y, y ∈ l1 -> f (regions v y) = false).
Proof.
  intros [D C]. pose proof (region_fuel _ _ _ C) as Hf.
  destruct (find_cell_dseg (regions v) f l LIST_FUEL 0 (region_list v)) as [H|(l1 & x & l2 & -> & H1 & H2)];
    [apply D|lia|by left|right].
  exists l1, x, l2. split; [done|]. split; [done|]. split; [|done].
  apply (dlist_nonzero _ _ _ x D). rewrite elem_of_app, elem_of_cons. tauto.
Qed.

(** *** Sorted insertion *)

Lemma insert_point_spec rs start l : forall fuel pv prev cur,
  dseg rs pv cur l 0 -> (length l < fuel)%nat ->
  exists l1 l2, l = l1 ++ l2 /\ insert_point fuel rs start prev cur = (last_or prev l1, head_or 0 l2) /\
    (forall x, x ∈ l1 -> r_start (rs x) < start) /\ (forall x, head l2 = Some x -> start <= r_start (rs x)).
Proof.
  induction l as [|x l IH]; intros fuel pv prev cur D Hf; (destruct fuel as [|fuel]; [cbn in Hf; lia|]); cbn [insert_point].
  - cbn in D. subst. exists [], []. cbn. set_solver.
  - destruct D as (-> & Hx & _ & D). replace (x =? 0) with false by lia. cbn [negb andb].
    destruct (Z.ltb_spec (r_start (rs x)) start).
    + destruct (IH fuel x x (r_next (rs x)) D) as (l1 & l2 & -> & H1 & H2 & H3); [cbn in Hf; lia|].
      exists (x :: l1), l2. rewrite last_or_cons. split; [done|]. split; [done|]. split; [|done].
      intros y [->|Hy]%elem_of_cons; auto.
    + exists [], (x :: l). split; [done|]. split; [done|]. split; [set_solver|]. by intros y [= <-].
Qed.

Lemma insert_spec v l fl x :
  dlist (regions v) (region_list v) l -> cells_ok v (x :: l) fl -> x <> 0 ->
  r_next (regions v x) = 0 -> r_prev (regions v x) = 0 ->
  exists l1 l2, l = l1 ++ l2 /\ region_inv (vmm_insert_region x v) (l1 ++ x :: l2) fl /\
    mm (vmm_insert_region x v) = mm v /\
    (forall y, seg_of (regions (vmm_insert_region x v) y) = seg_of (regions v y)) /\
    (forall y, y ∈ l1 -> r_start (regions v y) < r_start (regions v x)) /\
    (forall y, head l2 = Some y -> r_start (regions v x) <= r_start (regions v y)).
Proof.
  intros D C Hx Hn Hp. pose proof (co_nodup _ _ _ C) as Hnd. cbn in Hnd. apply NoDup_cons in Hnd as [Hxn _].
  assert (HxL : x ∉ l) by set_solver. assert (Hxf : x ∉ fl) by set_solver.
  unfold vmm_insert_region. replace (x =? 0) with false by lia.
  destruct (Z.eqb_spec (region_list v) 0) as [Hz|Hz].
  { assert (l = []) as -> by (rewrite Hz in D; by apply dlist_zero in D). exists [], []. split; [done|].
    split; [|set_solver]. split; [|by apply (cells_ext v _ [x] [x] fl)].
    split; [|repeat constructor; set_solver]. cbn. rewrite Hn. done. }
  pose proof (region_fuel _ _ _ C) as Hf. cbn [length] in Hf.
  destruct (insert_point_spec (regions v) (r_start (regions v x)) l LIST_FUEL 0 0 (region_list v))
    as (l1 & l2 & -> & -> & H1 & H2); [apply D|lia|].
  exists l1, l2. split; [done|]. set (prev := last_or 0 l1). set (cur := head_or 0 l2).
  set (v' := if prev =? 0 then _ else _).
  assert (Hxp : prev <> 0 -> x <> prev).
  { unfold prev. intros H0 ->. destruct l1 as [|a l1]; [done|]. apply HxL, elem_of_app. left. by apply last_or_elem. }
  assert (Hxc : cur <> 0 -> x <> cur).
  { unfold cur. intros H0 ->. destruct l2 as [|a l2]; [done|]. apply HxL, elem_of_app. right. by apply head_or_elem. }
  assert (Hhead : prev = 0 -> region_list v = cur /\ l1 = []).
  { unfold prev, cur. intros H0. pose proof (dlist_head _ _ _ D) as Hh. destruct l1 as [|a l1]; [done|].
    exfalso. eapply (dlist_nonzero _ _ _ (last_or 0 (a :: l1)) D); [|done]. apply elem_of_app. left. by apply last_or_elem. }
  assert (Hv' : same_pools v v' /\ mm v' = mm v /\ region_list v' = if decide (l1 = []) then x else region_list v).
  { unfold v'. destruct (Z.eqb_spec prev 0) as [E|E].
    - destruct (Hhead E) as [_ Hl]. by rewrite decide_True.
    - rewrite decide_False by (intros ->; done). by destruct (cur =? 0). }
  assert (Hcell : forall y, seg_of (regions v' y) = seg_of (regions v y) /\
    r_next (regions v' y) = (if decide (y = x) then cur else
       if decide (y = prev /\ prev <> 0) then x else r_next (regions v y)) /\
    r_prev (regions v' y) = (if decide (y = x) then prev else
       if decide (y = cur /\ cur <> 0) then x else r_prev (regions v y))).
  { intros y. unfold v'. destruct (Z.eqb_spec prev 0) as [E|E]; [destruct (Hhead E) as [Hl _]|];
      destruct (Z.eqb_spec cur 0) as [E'|E']; cbn [regions set_cell set_regions set_region_list region_list];
      rewrite ?Hl; repeat (rewrite ?upd_cases; cbn [r_next r_prev set_lnext set_lprev vmm_region_linked]);
      repeat destruct (decide _); subst; cbn; rewrite ?upd_eq; cbn; repeat split; try done; try congruence; try tauto;
      unfold seg_of; cbn; congruence. }
  destruct Hv' as (Hpools & Hmm & Hhd). split; [split|].
  - rewrite Hhd. apply (dlist_insert (regions v) (regions v') _ l1 l2 x D Hx HxL); fold prev cur.
    + destruct (Hcell x) as (_ & _ & E). cbn. by rewrite E, decide_True.
    + destruct (Hcell x) as (_ & E & _). cbn. by rewrite E, decide_True.
    + intros y Hy. destruct (Hcell y) as (_ & E1 & E2). cbn. rewrite E1, E2.
      assert (Hy0 : y <> 0) by (by eapply dlist_nonzero). assert (y <> x) by (by intros ->).
      rewrite !(decide_False (P := y = x)) by done.
      split; apply decide_ext; naive_solver.
  - apply (cells_ext v v' (x :: l1 ++ l2)); [done|by rewrite Permutation_middle| |exact C].
    intros y Hy. destruct (Hcell y) as (_ & E & _). rewrite E. pose proof (co_nodup _ _ _ C) as Hnd.
    rewrite (decide_False (P := y = x)) by (by intros ->). rewrite decide_False; [done|].
    intros [-> H0]. assert (Hin : prev ∈ l1 ++ l2).
    { apply elem_of_app. left. unfold prev in *. destruct l1; [done|]. by apply last_or_elem. }
    apply NoDup_app in Hnd as (_ & Hs & _). apply (Hs prev); [by right|done].
  - split; [done|]. split; [apply Hcell|done].
Qed.
