(* ===== verification/VmmMap.v ===== *)
(** The pages of the virtual memory manager: which are mapped, and to what.

    [heap_inv m U F] says that the pages [U] in use are mapped to distinct frames
    that belong to nobody else, and that the free pages [F] are not mapped.  The
    loops of [vmm_alloc] and [vmm_unmap_region] move pages between the two. *)

From S2P Require Import Prelude Dll Pmm PmmMeta PmmInv PmmSteps PmmAlloc PmmFree PmmProps PmmInit PmmSpec Frames Paging PagingProps Vmm VmmList.
From Stdlib Require Import ZArith Lia Bool.
From stdpp Require Import base tactics numbers list sets gmap.
Open Scope Z_scope.

(** Page [q] is mapped to frame [f]. *)
Definition maps (m : mmu) (q f : Z) : Prop := translate m (4096 * q) = Some (4096 * f).

Definition page_no (q : Z) : Prop := 0 <= q < 2 ^ 20.

(** The pages [q], ..., [q + n - 1]. *)
Definition run (q n : Z) (x : Z) : Prop := q <= x < q + n.

Section Maps.
Context (R : (Z -> list Z) -> Prop) `{!block_stable R}.

Record heap_inv (m : mmu) (U F : Z -> Prop) : Prop := {
  hi_paging : paging_inv R m;
  hi_pages q : U q \/ F q -> page_no q;
  hi_free q : F q -> translate m (4096 * q) = None;
  hi_used q : U q -> exists f, maps m q f /\ pmm_owned (pm m) f /\ ~ table_frame m f;
  hi_inj q q' f : U q -> U q' -> maps m q f -> maps m q' f -> q = q' }.

Lemma heap_inv_ext m U U' F F' :
  (forall q, U q <-> U' q) -> (forall q, F q <-> F' q) -> heap_inv m U F -> heap_inv m U' F'.
Proof.
  intros EU EF [H1 H2 H3 H4 H5]. split; [done|..]; intros q.
  - rewrite <- EU, <- EF. apply H2.
  - rewrite <- EF. apply H3.
  - rewrite <- EU. apply H4.
  - intros q' f. rewrite <- !EU. apply H5.
Qed.

Lemma page_addr q : page_no q -> 0 <= 4096 * q < 2 ^ 32.
Proof. unfold page_no. lia. Qed.

Lemma page_div q : 4096 * q / 4096 = q.
Proof. rewrite Z.mul_comm. apply Z.div_mul. lia. Qed.

Lemma page_mod q : (4096 * q) mod 4096 = 0.
Proof. rewrite Z.mul_comm. apply Z.mod_mul. lia. Qed.

Lemma maps_fun m q f f' : maps m q f -> maps m q f' -> f = f'.
Proof. unfold maps. intros E1 E2. rewrite E1 in E2. injection E2. lia. Qed.

(** *** Giving a frame back *)

Lemma release_keeps m f :
  paging_inv R m -> pmm_owned (pm m) f -> ~ table_frame m f ->
  let m' := set_pm (pmm_free_page (4096 * f) (pm m)) m in
  paging_inv R m' /\
  (forall v, 0 <= v < 2 ^ 32 -> translate m' v = translate m v) /\
  (forall q, pmm_owned (pm m') q <-> pmm_owned (pm m) q /\ q <> f) /\
  (forall t, table_frame m' t <-> table_frame m t).
Proof.
  intros I Ho Ht. destruct (pmm_release_frame R (pm m) f (pg_pmm _ _ I) Ho) as [K O]. cbv zeta.
  destruct (tables_kept R m (set_pm (pmm_free_page (4096 * f) (pm m)) m) I) as [I' T];
    [done|done|apply I|exact K| |split; [exact I'|split; [exact T|split; [exact O|done]]]].
  intros t H. apply O. split; [by eapply table_frame_owned|]. intros ->. exact (Ht H).
Qed.

(** *** One page of [vmm_unmap_region] *)

Lemma unmap_free_page_spec m U F q f :
  heap_inv m U F -> U q -> maps m q f ->
  let m' := unmap_free_page (4096 * q) m in
  heap_inv m' (fun x => U x /\ x <> q) (fun x => F x \/ x = q) /\
  (forall x, page_no x -> x <> q -> translate m' (4096 * x) = translate m (4096 * x)) /\
  (forall x, pmm_owned (pm m') x <-> pmm_owned (pm m) x /\ x <> f) /\
  (forall t, table_frame m' t <-> table_frame m t).
Proof.
  intros [I P HF HU HI] Hq Hm. assert (Pq : page_no q) by auto. pose proof (page_addr q Pq) as Aq.
  destruct (HU q Hq) as (f' & Hf' & Ho & Ht). pose proof (maps_fun _ _ _ _ Hm Hf'). subst f'.
  assert (Hf0 : 0 < f) by apply Ho.
  unfold unmap_free_page. rewrite (get_physical_translate R m _ I Aq). rewrite Hm.
  change (default 0 (Some (4096 * f))) with (4096 * f). replace (4096 * f =? 0) with false by lia.
  destruct (release_keeps m f I Ho Ht) as (I1 & T1 & O1 & F1). cbv zeta.
  set (m1 := set_pm _ m) in *. destruct (unmap_page_spec R m1 (4096 * q) I1 Aq) as (I2 & P2 & F2 & T2).
  set (m2 := paging_unmap_page _ m1) in *. rewrite page_div in T2.
  assert (T : forall x, page_no x -> translate m2 (4096 * x) = if decide (x = q) then None else translate m (4096 * x)).
  { intros x Px. rewrite T2, page_div, T1 by (by apply page_addr). done. }
  split; [split|split; [|split]].
  - exact I2.
  - intros x [[Hx _]|[Hx| ->]]; auto.
  - intros x Hx. rewrite T by (destruct Hx as [?| ->]; auto). destruct (decide (x = q)); [done|]. naive_solver.
  - intros x [Hx Hne]. destruct (HU x Hx) as (g & Hg & Hgo & Hgt). exists g. unfold maps.
    rewrite T by auto. rewrite decide_False by done. split; [done|]. rewrite P2, O1, F2, F1.
    split; [|done]. split; [done|]. intros ->. apply Hne. by apply (HI x q f).
  - intros x x' g [Hx Hn] [Hx' Hn']. unfold maps. rewrite !T by auto. rewrite !decide_False by done. by apply HI.
  - intros x Px Hn. rewrite T by done. by rewrite decide_False.
  - intros x. rewrite P2. apply O1.
  - intros t. by rewrite F2, F1.
Qed.

(** *** One page of [vmm_alloc] *)

Lemma take_frame m :
  paging_inv R m ->
  let '(a, p) := pmm_alloc_page (pm m) in
  (a = 0 /\ set_pm p m = m) \/
  (exists f, a = 4096 * f /\ 0 < f < 2 ^ 20 /\ ~ pmm_owned (pm m) f /\ paging_inv R (set_pm p m) /\
     forall x, pmm_owned p x <-> pmm_owned (pm m) x \/ x = f).
Proof.
  intros I. pose proof (alloc_keeps_inv R m I) as I'.
  pose proof (alloc_frame (frame_source := pmm_frames R) (pm m) (pg_pmm _ _ I)) as H.
  destruct (pmm_alloc_page (pm m)) as [a p]. destruct H as [K [[-> ->]|(f & -> & Hf & O)]].
  - left. by rewrite mmu_eta.
  - right. exists f. split; [done|]. split; [|done].
    apply (owned_bound R p); [exact K|]. apply O. by right.
Qed.

Section MapFresh.
Context (m : mmu) (p : pmm) (U F : Z -> Prop) (q f flags : Z).
Context (H : heap_inv m U F) (Hq : F q) (Hf : 0 < f < 2 ^ 20).
Context (Hno : ~ pmm_owned (pm m) f) (I : paging_inv R (set_pm p m)).
Context (O : forall x, pmm_owned p x <-> pmm_owned (pm m) x \/ x = f).
Context (Hfl : Z.land flags PAGE_PRESENT <> 0).

Lemma map_fresh_spec :
  let '(ok, m') := paging_map_page (4096 * q) (4096 * f) flags (set_pm p m) in
  (ok = true /\ heap_inv m' (fun x => U x \/ x = q) (fun x => F x /\ x <> q) /\ maps m' q f /\
   (forall x, page_no x -> x <> q -> translate m' (4096 * x) = translate m (4096 * x)) /\
   exists ts, (length ts <= 1)%nat /\
     (forall x, pmm_owned (pm m') x <-> pmm_owned (pm m) x \/ x ∈ f :: ts) /\
     (forall t, table_frame m' t <-> table_frame m t \/ t ∈ ts) /\ f ∉ ts) \/
  (ok = false /\ m' = set_pm p m /\ (pmm_alloc_page p).1 = 0).
Proof using All.
  destruct H as [I0 P HF HU HI]. assert (Pq : page_no q) by auto.
  assert (Pf : 0 <= 4096 * f < 2 ^ 32) by lia.
  pose proof (map_page_spec R (set_pm p m) (4096 * q) (4096 * f) flags I (page_addr q Pq) Pf Hfl) as S.
  destruct (paging_map_page _ _ _ _) as [ok m']. destruct S as (I' & (ts & Hts & _ & G2 & G3 & G4) & Hfail & T).
  destruct ok; [left|right; by destruct (Hfail eq_refl)]. split; [done|].
  cbn [andb] in T. rewrite !page_div in T.
  assert (T' : forall x, page_no x -> translate m' (4096 * x) = if decide (x = q) then Some (4096 * f) else translate m (4096 * x)).
  { intros x Px. rewrite T, page_div, page_mod by (by apply page_addr). rewrite bool_decide_decide.
    destruct (decide (x = q)); [f_equal; lia|done]. }
  assert (Hft : f ∉ ts) by (intros Hin; apply (G4 f Hin); apply O; by right).
  assert (Hfm : ~ table_frame m f) by (intros Hin; apply Hno; by eapply table_frame_owned).
  split; [split|].
  - exact I'.
  - intros x [[Hx| ->]|[Hx _]]; auto.
  - intros x [Hx Hne]. rewrite T' by auto. rewrite decide_False by done. auto.
  - intros x Hx. destruct (decide (x = q)) as [->|Hne].
    + exists f. unfold maps. rewrite T', decide_True by done. split; [done|]. rewrite G2, G3. split.
      * left. apply O. by right.
      * intros [?|?]; [by apply Hfm|done].
    + destruct Hx as [Hx|?]; [|done]. destruct (HU x Hx) as (g & Hg & Ho & Ht). exists g. unfold maps.
      rewrite T', decide_False by auto. split; [done|]. rewrite G2, G3. cbn [pm set_pm]. rewrite O. split; [by left; left|].
      intros [?|Hin]; [by apply Ht|]. apply (G4 g Hin), O. by left.
  - assert (Hfresh : forall x, U x -> ~ maps m x f).
    { intros x Hx Hm. destruct (HU x Hx) as (g & Hg & Ho & _). rewrite (maps_fun _ _ _ _ Hm Hg) in Hno. done. }
    assert (Hnq : forall x, U x -> x <> q).
    { intros x Hx ->. destruct (HU q Hx) as (g & Hg & _). unfold maps in Hg. rewrite (HF q Hq) in Hg. done. }
    intros x x' g Hx Hx'. unfold maps. rewrite !T' by naive_solver.
    destruct (decide (x = q)) as [->|], (decide (x' = q)) as [->|]; [done|..]; intros E1 E2.
    + exfalso. apply (Hfresh x'); [naive_solver|]. unfold maps. congruence.
    + exfalso. apply (Hfresh x); [naive_solver|]. unfold maps. congruence.
    + apply (HI x x' g); naive_solver.
  - split; [unfold maps; by rewrite T', decide_True|]. split.
    + intros x Px Hne. by rewrite T', decide_False.
    + exists ts. split; [done|]. split; [|split; [exact G3|done]].
      intros x. rewrite G2, elem_of_cons. cbn [pm set_pm]. rewrite O. tauto.
Qed.

(** The frame of a page that could not be mapped goes back. *)
Lemma unmapped_frame_back :
  let m' := set_pm (pmm_free_page (4096 * f) p) (set_pm p m) in
  heap_inv m' U F /\ (forall v, 0 <= v < 2 ^ 32 -> translate m' v = translate m v) /\
  (forall x, pmm_owned (pm m') x <-> pmm_owned (pm m) x) /\
  (forall t, table_frame m' t <-> table_frame m t).
Proof using All.
  destruct H as [I0 P HF HU HI].
  assert (Hfm : ~ table_frame (set_pm p m) f) by (intros Hin; apply Hno; by eapply table_frame_owned).
  assert (Ho : pmm_owned (pm (set_pm p m)) f) by (apply O; by right).
  destruct (release_keeps (set_pm p m) f I Ho Hfm) as (I1 & T1 & O1 & F1). cbv zeta.
  change (pm (set_pm p m)) with p in *. set (m' := set_pm _ (set_pm p m)) in *.
  assert (O' : forall x, pmm_owned (pm m') x <-> pmm_owned (pm m) x).
  { intros x. rewrite O1, O. split; [tauto|]. intros Hx. split; [by left|]. by intros ->. }
  assert (T' : forall v, 0 <= v < 2 ^ 32 -> translate m' v = translate m v) by exact T1.
  split; [split|split; [exact T'|split; [exact O'|exact F1]]].
  - exact I1.
  - done.
  - intros x Hx. rewrite T' by (apply page_addr; auto). auto.
  - intros x Hx. destruct (HU x Hx) as (g & Hg & Hgo & Hgt). exists g. unfold maps. rewrite T' by (apply page_addr; auto).
    split; [done|]. rewrite O'. done.
  - intros x x' g Hx Hx'. unfold maps. rewrite !T' by (apply page_addr; auto). by apply HI.
Qed.
End MapFresh.

(** *** The loops *)

Lemma page_at q i : page_no (q + i) -> 0 <= q -> 0 <= i -> u32 (4096 * q + u32 (i * PAGE_SIZE)) = 4096 * (q + i).
Proof. unfold page_no, PAGE_SIZE. intros. rewrite (u32_small (i * 4096)), u32_small by lia. lia. Qed.

(** [m'] is [m] with the pages [q], ..., [q + n - 1] unmapped and their frames
    given back. *)
Record unmapped (m : mmu) (q n : Z) (m' : mmu) : Prop := {
  un_translate x : page_no x -> ~ run q n x -> translate m' (4096 * x) = translate m (4096 * x);
  un_owned x : pmm_owned (pm m') x <-> pmm_owned (pm m) x /\ ~ exists y, run q n y /\ maps m y x;
  un_tables t : table_frame m' t <-> table_frame m t }.

(** A way to release a page that is mapped. *)
Definition releases (f : Z -> mmu -> mmu) : Prop :=
  forall v m, paging_get_physical_address v m <> 0 -> f v m = unmap_free_page v m.

Lemma unmap_free_releases : releases unmap_free_page.
Proof. by intros v m _. Qed.

Lemma used_physical m U F q : heap_inv m U F -> U q -> paging_get_physical_address (4096 * q) m <> 0.
Proof.
  intros H Hq. rewrite (get_physical_translate R) by (apply H || apply page_addr, (hi_pages _ _ _ H); by left).
  destruct (hi_used _ _ _ H q Hq) as (f & -> & Ho & _). cbn.
  pose proof (owned_bound R _ _ (pg_pmm _ _ (hi_paging _ _ _ H)) Ho). lia.
Qed.

Lemma unmap_loop_spec f m U F q n :
  releases f -> heap_inv m U F -> 0 <= q -> 0 <= n -> (forall x, run q n x -> U x) ->
  let m' := for_loop n (fun i => f (u32 (4096 * q + u32 (i * PAGE_SIZE)))) m in
  heap_inv m' (fun x => U x /\ ~ run q n x) (fun x => F x \/ run q n x) /\ unmapped m q n m'.
Proof.
  intros Hrel H Hq Hn HU.
  apply (for_loop_ind (fun j m' => heap_inv m' (fun x => U x /\ ~ run q j x) (fun x => F x \/ run q j x) /\
    unmapped m q j m')); [done|split|].
  - eapply heap_inv_ext; [..|exact H]; unfold run; intros x; [|]; intuition lia.
  - split; [done| |done]. intros x. split; [|tauto]. intros Hx. split; [done|]. unfold run. intros (y & Hy & _). lia.
  - intros j m' Hj [H' [T O Tb]]. assert (Hrun : run q n (q + j)) by (unfold run; lia).
    assert (Hnot : ~ run q j (q + j)) by (unfold run; lia).
    assert (HUj : U (q + j)) by auto. assert (Pj : page_no (q + j)) by (apply (hi_pages _ _ _ H); auto).
    rewrite page_at by (done || lia). destruct (hi_used _ _ _ H (q + j) HUj) as (g & Hf & _).
    assert (Hf' : maps m' (q + j) g) by (unfold maps; rewrite T; done).
    rewrite Hrel by exact (used_physical m' _ _ (q + j) H' (conj HUj Hnot)).
    destruct (unmap_free_page_spec m' _ _ (q + j) g H' (conj HUj Hnot) Hf') as (H2 & T2 & O2 & F2). split; [|split].
    + eapply heap_inv_ext; [..|exact H2]; unfold run; intros x; [|]; intuition lia.
    + intros x Px Hx. rewrite T2, T; [done|done|unfold run in *; lia|done|unfold run in *; lia].
    + intros x. rewrite O2, O. split.
      * intros [[Hx Hno] Hne]. split; [done|]. intros (y & Hy & Hm). destruct (decide (y = q + j)) as [->|].
        -- apply Hne. by eapply maps_fun.
        -- apply Hno. exists y. split; [unfold run in *; lia|done].
      * intros [Hx Hno]. split; [split; [done|]|].
        -- intros (y & Hy & Hm). apply Hno. exists y. split; [unfold run in *; lia|done].
        -- intros ->. apply Hno. exists (q + j). split; [unfold run; lia|done].
    + intros t. by rewrite F2.
Qed.

(** [m'] is [m] with the pages [q], ..., [q + n - 1] mapped to fresh frames; [fs]
    are the frames taken: one for each page, and page tables. *)
Record mapped (m : mmu) (q n : Z) (fs : list Z) (m' : mmu) : Prop := {
  mp_translate x : page_no x -> ~ run q n x -> translate m' (4096 * x) = translate m (4096 * x);
  mp_fresh y f : run q n y -> maps m' y f -> ~ pmm_owned (pm m) f;
  mp_count : Z.of_nat (length fs) <= 2 * n;
  mp_owned x : pmm_owned (pm m') x <-> pmm_owned (pm m) x \/ x ∈ fs;
  mp_used f : f ∈ fs -> table_frame m' f \/ exists y, run q n y /\ maps m' y f;
  mp_tables t : table_frame m' t -> table_frame m t \/ t ∈ fs;
  mp_free : free_pages (pm m) <= free_pages (pm m') + 2 * n }.

(** Mapping a page takes at most one frame, for its table. *)
Lemma map_page_free v a fl m :
  pmm_ok R (pm m) -> free_pages (pm m) <= free_pages (pm (paging_map_page v a fl m).2) + 1.
Proof.
  intros K. unfold paging_map_page, paging_get_page_table. cbn [negb].
  pose proof (alloc_page_free R (pm m) K) as H. pose proof (pmm_alloc_page_effect R (pm m) K) as E.
  destruct (present _); cbn [negb].
  { destruct (_ =? 0); cbn [snd pm set_word]; lia. }
  destruct (pmm_alloc_page (pm m)) as [b p]. destruct E as [_ E].
  destruct H as [[-> H]|[Hb H]].
  - destruct E as [[_ ->]|(f & ? & ? & _)]; [|unfold PMM_PAGE_SIZE in *; lia].
    cbn [Z.eqb snd pm set_pm]. lia.
  - replace (b =? 0) with false by lia. cbn [pm set_word clear_page set_pm].
    replace (b =? 0) with false by lia. cbn [snd pm set_word clear_page set_pm]. lia.
Qed.

Lemma alloc_page_none s : pmm_ok R s -> (pmm_alloc_page s).1 = 0 -> free_pages s = 0.
Proof. intros K H. pose proof (alloc_page_free R s K). destruct (pmm_alloc_page s). cbn in H. lia. Qed.

Lemma mapped_nil m q : mapped m q 0 [] m.
Proof.
  split; [done| | | | | |]; unfold run.
  - lia.
  - cbn. lia.
  - set_solver.
  - set_solver.
  - by left.
  - lia.
Qed.

Lemma mapped_step m q i fs m1 m2 f ts :
  page_no (q + i) -> 0 <= q -> 0 <= i ->
  (forall y, run q i y -> page_no y) ->
  mapped m q i fs m1 -> paging_inv R m1 -> ~ pmm_owned (pm m1) f -> maps m2 (q + i) f ->
  (forall x, page_no x -> x <> q + i -> translate m2 (4096 * x) = translate m1 (4096 * x)) ->
  (length ts <= 1)%nat -> (forall x, pmm_owned (pm m2) x <-> pmm_owned (pm m1) x \/ x ∈ f :: ts) ->
  (forall t, table_frame m2 t <-> table_frame m1 t \/ t ∈ ts) ->
  free_pages (pm m1) <= free_pages (pm m2) + 2 ->
  mapped m q (i + 1) (fs ++ f :: ts) m2.
Proof.
  intros Pi Hq Hi Pr [M1 M2 M3 M4 M5 M6 M7] I1 Hno Hm T2 Hts O2 F2 Hfr.
  assert (Hold : forall y, run q i y -> translate m2 (4096 * y) = translate m1 (4096 * y)).
  { intros y Hy. apply T2; [auto|]. unfold run in Hy. lia. }
  assert (Hf0 : ~ pmm_owned (pm m) f) by (intros ?; apply Hno, M4; by left). split.
  - intros x Px Hx. rewrite T2, M1; [done|done|unfold run in *; lia|done|unfold run in *; lia].
  - intros y g Hy Hg. destruct (decide (y = q + i)) as [->|].
    + by rewrite (maps_fun _ _ _ _ Hg Hm).
    + assert (Hr : run q i y) by (unfold run in *; lia). apply (M2 y g Hr). unfold maps. by rewrite <- Hold.
  - rewrite length_app. cbn [length]. lia.
  - intros x. rewrite O2, M4, elem_of_app. tauto.
  - intros g [Hg|[->|Hg]%elem_of_cons]%elem_of_app.
    + destruct (M5 g Hg) as [Ht|(y & Hy & Hmy)]; [left; apply F2; by left|right].
      exists y. split; [unfold run in *; lia|]. unfold maps. by rewrite Hold.
    + right. exists (q + i). split; [unfold run; lia|done].
    + left. apply F2. by right.
  - intros t Ht. rewrite elem_of_app, elem_of_cons. apply F2 in Ht as [Ht|Ht]; [|tauto].
    destruct (M6 t Ht); tauto.
  - lia.
Qed.

(** *** Rolling an allocation back *)

(** All that is left of a failed allocation are page tables. *)
Record restored (m m' : mmu) : Prop := {
  rs_translate x : page_no x -> translate m' (4096 * x) = translate m (4096 * x);
  rs_kept x : pmm_owned (pm m) x -> pmm_owned (pm m') x;
  rs_new x : pmm_owned (pm m') x -> pmm_owned (pm m) x \/ table_frame m' x }.

Lemma mapped_ext m q n fs m1 m2 :
  (forall v, 0 <= v < 2 ^ 32 -> translate m2 v = translate m1 v) ->
  (forall x, run q n x -> page_no x) ->
  (forall x, pmm_owned (pm m2) x <-> pmm_owned (pm m1) x) ->
  (forall t, table_frame m2 t <-> table_frame m1 t) -> free_pages (pm m1) <= free_pages (pm m2) ->
  mapped m q n fs m1 -> mapped m q n fs m2.
Proof.
  intros T P O F Hfr [M1 M2 M3 M4 M5 M6 M7]. split; [| |done| | | |lia].
  - intros x Px Hx. rewrite T by (by apply page_addr). auto.
  - intros y f Hy. unfold maps. rewrite T by (apply page_addr; auto). by apply M2.
  - intros x. by rewrite O.
  - intros f Hf. rewrite F. destruct (M5 f Hf) as [?|(y & Hy & Hm)]; [by left|right]. exists y. split; [done|].
    unfold maps. rewrite T by (apply page_addr; auto). done.
  - intros t. rewrite F. apply M6.
Qed.

Lemma unmapped_restored m q n fs m1 m2 :
  mapped m q n fs m1 -> unmapped m1 q n m2 ->
  (forall x, run q n x -> translate m (4096 * x) = None /\ translate m2 (4096 * x) = None) ->
  restored m m2.
Proof.
  intros [M1 M2 M3 M4 M5 M6 _] [T O Tb] HN.
  assert (Hdec : forall x, Decision (run q n x)) by (intros x; unfold run; apply _). split.
  - intros x Px. destruct (Hdec x) as [Hr|Hr]; [|by rewrite T, M1]. by destruct (HN x Hr) as [-> ->].
  - intros x Hx. apply O. split; [apply M4; by left|]. intros (y & Hy & Hm). by apply (M2 y x Hy Hm).
  - intros x Hx. apply O in Hx as [Hx Hno]. apply M4 in Hx as [Hx|Hx]; [by left|right].
    destruct (M5 x Hx); [by apply Tb|done].
Qed.

Section Rollback.
Context (m0 : mmu) (U F : Z -> Prop) (q : Z).
Context (H0 : heap_inv m0 U F) (Hq : 0 < q).

Lemma rollback_spec f i fs m :
  releases f -> 0 <= i -> (forall x, run q i x -> F x) ->
  heap_inv m (fun x => U x \/ run q i x) (fun x => F x /\ ~ run q i x) -> mapped m0 q i fs m ->
  let m' := for_loop i (fun j => f (u32 (4096 * q + u32 (j * PAGE_SIZE)))) m in
  heap_inv m' U F /\ restored m0 m'.
Proof using All.
  intros Hrel Hi HF H M.
  destruct (unmap_loop_spec f m _ _ q i Hrel H ltac:(lia) Hi) as [H' U']; [tauto|]. cbv zeta.
  set (m' := for_loop _ _ m) in *.
  assert (Hdec : forall x, Decision (run q i x)) by (intros x; unfold run; apply _).
  assert (Hdisj : forall x, U x -> ~ run q i x).
  { intros x Hx Hr. destruct (hi_used _ _ _ H0 x Hx) as (g & Hf & _). unfold maps in Hf.
    by rewrite (hi_free _ _ _ H0 x (HF x Hr)) in Hf. }
  assert (HI : heap_inv m' U F).
  { eapply heap_inv_ext; [..|exact H']; intros x; cbn; [|destruct (Hdec x)]; naive_solver. }
  split; [exact HI|]. eapply unmapped_restored; [exact M|exact U'|].
  intros x Hr. split; [apply H0|apply HI]; auto.
Qed.

(** The rest of [alloc_failed]: the region becomes free again. *)
Definition give_back (a : Z) (v : vmm) : vmm :=
  let r := vmm_find_region a v in
  if r =? 0 then v else vmm_merge_free_regions (set_cell r (set_r_free true (regions v r)) v).

Lemma set_mm_id v : set_mm (mm v) v = v.
Proof. by destruct v. Qed.

Lemma page_aligned x : IS_PAGE_ALIGNED (4096 * x) = true.
Proof.
  unfold IS_PAGE_ALIGNED, PAGE_SIZE. change (4096 - 1) with (2 ^ 12 - 1). rewrite land_ones_mod by lia.
  change (2 ^ 12) with 4096. by rewrite page_mod.
Qed.

Lemma unmap_region_eq n v :
  0 <= n -> (vmm_unmap_region (4096 * q) n v).2 =
  set_mm (for_loop n (fun j => unmap_free_page (u32 (4096 * q + u32 (j * PAGE_SIZE)))) (mm v)) v.
Proof using Hq.
  intros Hn. unfold vmm_unmap_region. replace (4096 * q =? 0) with false by lia. cbn [orb].
  rewrite page_aligned. destruct (Z.eqb_spec n 0) as [->|]; [|done]. symmetry. apply set_mm_id.
Qed.

Lemma alloc_failed_spec i fs v :
  0 <= i -> (forall x, run q i x -> F x) ->
  heap_inv (mm v) (fun x => U x \/ run q i x) (fun x => F x /\ ~ run q i x) -> mapped m0 q i fs (mm v) ->
  exists m', alloc_failed (4096 * q) i v = give_back (4096 * q) (set_mm m' v) /\
    heap_inv m' U F /\ restored m0 m'.
Proof using All.
  intros Hi HF H M. destruct (rollback_spec unmap_free_page i fs (mm v) unmap_free_releases Hi HF H M) as [H' R'].
  exists (for_loop i (fun j => unmap_free_page (u32 (4096 * q + u32 (j * PAGE_SIZE)))) (mm v)).
  split; [|exact (conj H' R')]. unfold alloc_failed. rewrite unmap_region_eq by exact Hi. reflexivity.
Qed.

(** Page number [i] of an allocation: it is mapped to a fresh frame, or there is
    no frame, or no frame for its page table. *)
Lemma map_next fl i m fs :
  0 <= i -> F (q + i) -> (forall x, run q i x -> F x) -> Z.land fl PAGE_PRESENT <> 0 ->
  heap_inv m (fun x => U x \/ run q i x) (fun x => F x /\ ~ run q i x) -> mapped m0 q i fs m ->
  let '(a, p) := pmm_alloc_page (pm m) in
  (a = 0 /\ set_pm p m = m /\ free_pages (pm m0) <= 2 * i) \/
  (a <> 0 /\ let '(ok, m2) := paging_map_page (4096 * (q + i)) a fl (set_pm p m) in
   (ok = true /\ heap_inv m2 (fun x => U x \/ run q (i + 1) x) (fun x => F x /\ ~ run q (i + 1) x) /\
      exists fs', mapped m0 q (i + 1) fs' m2) \/
   (ok = false /\ free_pages (pm m0) <= 2 * i + 1 /\
    let m3 := set_pm (pmm_free_page a (pm m2)) m2 in
    heap_inv m3 (fun x => U x \/ run q i x) (fun x => F x /\ ~ run q i x) /\ mapped m0 q i fs m3)).
Proof using All.
  intros Hi HFq HF Hfl H M.
  assert (Pn : page_no (q + i)) by (apply (hi_pages _ _ _ H0); auto).
  assert (Hpr : forall x, run q i x -> page_no x) by (intros x Hx; apply (hi_pages _ _ _ H0); auto).
  assert (Hfree : F (q + i) /\ ~ run q i (q + i)) by (split; [auto|unfold run; lia]).
  pose proof (pg_pmm _ _ (hi_paging _ _ _ H)) as K. pose proof (mp_free _ _ _ _ _ M) as Hmf.
  pose proof (alloc_page_free R (pm m) K) as Hfr.
  pose proof (take_frame m (hi_paging _ _ _ H)) as S1. destruct (pmm_alloc_page (pm m)) as [a p].
  destruct S1 as [[-> Ep]|(f & -> & Hf & Hno & I1 & O1)].
  { left. split; [done|]. split; [done|]. destruct Hfr as [[_ ?]|[? _]]; [lia|done]. }
  right. split; [lia|]. assert (free_pages p = free_pages (pm m) - 1) as Hfp by lia. clear Hfr.
  pose proof (map_page_free (4096 * (q + i)) (4096 * f) fl (set_pm p m) (pg_pmm _ _ I1)) as Hmp.
  pose proof (map_fresh_spec m p _ _ (q + i) f fl H Hfree Hf Hno I1 O1 Hfl) as S2.
  destruct (paging_map_page _ _ _ _) as [ok m2].
  destruct S2 as [(-> & H2 & Hm & T2 & ts & Hts & O2 & F2 & _)|(-> & -> & Hdry)].
  - left. split; [done|]. split.
    + eapply heap_inv_ext; [..|exact H2]; unfold run; intros x; cbn; [|]; intuition lia.
    + exists (fs ++ f :: ts). apply (mapped_step m0 q i fs m m2 f ts); try done; [lia|apply H|].
      cbn [snd pm set_pm] in Hmp. lia.
  - right. split; [done|]. cbn [pm set_pm].
    destruct (unmapped_frame_back m p _ _ (q + i) f fl H Hfree Hf Hno I1 O1 Hfl) as (H3 & T3 & O3 & F3). split.
    + apply alloc_page_none in Hdry; [lia|apply I1].
    + split; [exact H3|]. eapply mapped_ext; [exact T3|exact Hpr|exact O3|exact F3| |exact M]. cbn [pm set_pm].
      assert (pmm_owned p f) as (Hf0 & Hu & Hr) by (apply O1; by right).
      pose proof (release_page_free R p f (pg_pmm _ _ I1) Hf0 Hu ltac:(lia)) as Hrf.
      change (PMM_PAGE_SIZE * f) with (4096 * f) in Hrf. lia.
Qed.

Lemma alloc_loop_spec flags n : forall i v fs,
  0 <= i -> (forall x, run q (i + Z.of_nat n) x -> F x) ->
  heap_inv (mm v) (fun x => U x \/ run q i x) (fun x => F x /\ ~ run q i x) -> mapped m0 q i fs (mm v) ->
  let '(r, v') := alloc_pages_loop n i (4096 * q) flags v in
  (r = 4096 * q /\ exists m' fs', v' = set_mm m' v /\
     heap_inv m' (fun x => U x \/ run q (i + Z.of_nat n) x) (fun x => F x /\ ~ run q (i + Z.of_nat n) x) /\
     mapped m0 q (i + Z.of_nat n) fs' m') \/
  (r = 0 /\ free_pages (pm m0) < 2 * (i + Z.of_nat n) /\ exists m', v' = give_back (4096 * q) (set_mm m' v) /\
     heap_inv m' U F /\ restored m0 m').
Proof using All.
  induction n as [|n IH]; intros i v fs Hi HF H M; cbn [alloc_pages_loop].
  { left. split; [done|]. exists (mm v), fs. rewrite set_mm_id. replace (i + Z.of_nat 0) with i by lia. done. }
  assert (HFi : forall x, run q i x -> F x) by (intros x Hx; apply HF; unfold run in *; lia).
  assert (HFq : F (q + i)) by (apply HF; unfold run; lia).
  assert (Pn : page_no (q + i)) by (apply (hi_pages _ _ _ H0); auto).
  set (fl := if Z.land flags VMM_USER =? 0 then _ else _).
  assert (Hfl : Z.land fl PAGE_PRESENT <> 0) by (unfold fl; by destruct (_ =? 0)).
  pose proof (map_next fl i (mm v) fs Hi HFq HFi Hfl H M) as S. destruct (pmm_alloc_page (pm (mm v))) as [a p].
  destruct S as [(-> & Ep & X)|(Ha & S)].
  { right. cbn [Z.eqb]. rewrite Ep, set_mm_id. split; [done|]. split; [lia|].
    by apply (alloc_failed_spec i fs v). }
  replace (a =? 0) with false by lia. rewrite page_at by (done || lia). change (mm (set_mm ?x v)) with x.
  destruct (paging_map_page _ _ _ _) as [ok m2]. destruct S as [(-> & H2 & fs' & M2)|(-> & X & H3 & M3)].
  - specialize (IH (i + 1) (set_mm m2 (set_mm (set_pm p (mm v)) v)) fs').
    replace (i + 1 + Z.of_nat n) with (i + Z.of_nat (S n)) in IH by lia. by apply IH; [lia| | |].
  - right. cbn [mm set_mm] in *. split; [done|]. split; [lia|].
    destruct (alloc_failed_spec i fs (set_mm (set_pm (pmm_free_page a (pm m2)) m2) v))
      as (m' & E & H'); [done|done|exact H3|exact M3|]. by exists m'.
Qed.
End Rollback.
End Maps.
