(* ===== verification/VmmSegs.v ===== *)
(** Lists of segments: what merging, reserving and releasing do to the pages a
    list of segments describes. *)

From S2P Require Import Prelude Dll Pmm Paging Vmm VmmList.
From Stdlib Require Import ZArith Lia Bool.
From stdpp Require Import base tactics numbers list sets gmap.
Open Scope Z_scope.

Definition seg_has (s : seg) (q : Z) : Prop := s_start s <= 4096 * q < s_end s.
Definition used_page (T : list seg) (q : Z) : Prop := exists s, s ∈ T /\ s_free s = false /\ seg_has s q.
Definition free_page (T : list seg) (q : Z) : Prop := exists s, s ∈ T /\ s_free s = true /\ seg_has s q.
Definition used_segs (T : list seg) : list seg := filter (fun s => s_free s = false) T.

(** No two neighbours are free. *)
Fixpoint separated (T : list seg) : Prop :=
  match T with
  | s :: (t :: _) as T' => (s_free s = true -> s_free t = false) /\ separated T'
  | _ => True
  end.

Lemma used_segs_app T1 T2 : used_segs (T1 ++ T2) = used_segs T1 ++ used_segs T2.
Proof. apply filter_app. Qed.

Lemma used_segs_cons s T : used_segs (s :: T) = if s_free s then used_segs T else s :: used_segs T.
Proof. unfold used_segs. rewrite filter_cons. by destruct (s_free s). Qed.

Lemma used_page_segs T q : used_page T q <-> exists s, s ∈ used_segs T /\ seg_has s q.
Proof. unfold used_page, used_segs. setoid_rewrite list_elem_of_filter. naive_solver. Qed.

Lemma used_page_ext T T' q : used_segs T = used_segs T' -> used_page T q <-> used_page T' q.
Proof. intros E. by rewrite !used_page_segs, E. Qed.

Lemma used_page_app T1 T2 q : used_page (T1 ++ T2) q <-> used_page T1 q \/ used_page T2 q.
Proof. unfold used_page. setoid_rewrite elem_of_app. naive_solver. Qed.

Lemma free_page_app T1 T2 q : free_page (T1 ++ T2) q <-> free_page T1 q \/ free_page T2 q.
Proof. unfold free_page. setoid_rewrite elem_of_app. naive_solver. Qed.

Lemma used_page_cons s T q : used_page (s :: T) q <-> (s_free s = false /\ seg_has s q) \/ used_page T q.
Proof. unfold used_page. setoid_rewrite elem_of_cons. naive_solver. Qed.

Lemma free_page_cons s T q : free_page (s :: T) q <-> (s_free s = true /\ seg_has s q) \/ free_page T q.
Proof. unfold free_page. setoid_rewrite elem_of_cons. naive_solver. Qed.

Lemma no_page_nil q : ~ used_page [] q /\ ~ free_page [] q.
Proof. unfold used_page, free_page. set_solver. Qed.

(** *** Merging *)

Lemma merge_used T : forall s, used_segs (merge_segs s T) = used_segs (s :: T).
Proof.
  induction T as [|t T IH]; intros s; cbn [merge_segs]; [done|].
  destruct (s_free s) eqn:Es, (s_free t) eqn:Et; cbn [andb]; rewrite !used_segs_cons, ?Es, ?Et;
    try (rewrite IH, used_segs_cons, Et; done).
  destruct (_ =? _); [|rewrite used_segs_cons, Es]; rewrite IH, used_segs_cons; cbn [s_free]; by rewrite ?Es, ?Et.
Qed.

Lemma merge_all_used T : used_segs (merge_all T) = used_segs T.
Proof. destruct T; [done|]. apply merge_used. Qed.

Lemma merge_tiled T : forall s a b, tiled a b (s :: T) -> tiled a b (merge_segs s T).
Proof.
  induction T as [|t T IH]; intros s a b H; cbn [merge_segs]; [done|].
  destruct H as (H1 & H2 & H3 & H4 & H5). destruct (_ && _ && _).
  - apply IH. destruct H5 as (H6 & H7 & H8 & H9 & H10). cbn [tiled s_start s_end]. repeat split; try done. lia.
  - cbn [tiled]. repeat split; try done. by apply IH.
Qed.

Lemma merge_free T : forall s a b q,
  tiled a b (s :: T) -> free_page (merge_segs s T) q <-> free_page (s :: T) q.
Proof.
  induction T as [|t T IH]; intros s a b q H; cbn [merge_segs]; [done|].
  destruct H as (H1 & H2 & H3 & H4 & H5). destruct (_ && _ && _) eqn:E.
  - pose proof H5 as (H6 & H7 & H8 & H9 & H10). rewrite (IH _ a b).
    2: { cbn [tiled s_start s_end]. repeat split; try done. lia. }
    rewrite !free_page_cons. unfold seg_has. cbn [s_free s_start s_end].
    destruct (s_free s), (s_free t); try discriminate E. intuition lia.
  - rewrite !(free_page_cons s), (IH _ _ _ _ H5). done.
Qed.

Lemma merge_separated T : forall s a b, tiled a b (s :: T) -> separated (merge_segs s T).
Proof.
  assert (Hhead : forall T s, exists t T', merge_segs s T = t :: T' /\ s_free t = s_free s).
  { clear. induction T as [|t T IH]; intros s; cbn [merge_segs]; [by exists s, []|].
    destruct (_ && _ && _); [|by exists s, (merge_segs t T)].
    destruct (IH (mk_seg (s_start s) (s_end t) (s_flags s) (s_free s))) as (u & T' & -> & E).
    by exists u, T'. }
  induction T as [|t T IH]; intros s a b H; cbn [merge_segs]; [done|].
  destruct H as (H1 & H2 & H3 & H4 & H5). destruct (_ && _ && _) eqn:E.
  - apply (IH _ a b). destruct H5 as (H6 & H7 & H8 & H9 & H10). cbn [tiled s_start s_end]. repeat split; try done. lia.
  - pose proof (IH _ _ _ H5) as Hs. destruct (Hhead T t) as (u & T' & Eu & Ef). rewrite Eu in *.
    cbn [separated]. split; [|done]. intros Hf. rewrite Ef. destruct H5 as (H6 & _).
    destruct (s_free t); [|done]. rewrite Hf, H6, Z.eqb_refl in E. done.
Qed.

Lemma merge_all_spec T a b :
  tiled a b T ->
  tiled a b (merge_all T) /\ separated (merge_all T) /\
  (forall q, free_page (merge_all T) q <-> free_page T q) /\
  (forall q, used_page (merge_all T) q <-> used_page T q).
Proof.
  intros H. split; [|split; [|split]].
  - destruct T; [done|]. by apply merge_tiled.
  - destruct T; [done|]. by eapply merge_separated.
  - intros q. destruct T; [done|]. by eapply merge_free.
  - intros q. apply used_page_ext, merge_all_used.
Qed.

(** *** A segment in the middle *)

Record mid_seg (A B : Z) (T1 : list seg) (s : seg) (T2 : list seg) : Prop := {
  bt_range : A <= s_start s /\ s_start s < s_end s /\ s_end s <= B;
  bt_aligned : s_start s mod PAGE_SIZE = 0 /\ s_end s mod PAGE_SIZE = 0;
  bt_before t : t ∈ T1 -> s_end t <= s_start s;
  bt_after t : t ∈ T2 -> s_end s <= s_start t }.

Lemma tiled_between A B T1 s T2 : tiled A B (T1 ++ s :: T2) -> mid_seg A B T1 s T2.
Proof.
  intros (c & H1 & <- & H2 & H3 & H4 & H5)%tiled_app. split.
  - apply tiled_le in H1, H5. lia.
  - done.
  - intros t Ht. by destruct (tiled_in _ _ _ _ H1 Ht) as (_ & _ & ?).
  - intros t Ht. by destruct (tiled_in _ _ _ _ H5 Ht) as (? & _ & _).
Qed.

(** Replacing a segment by others that cover the same addresses. *)
Lemma tiled_replace A B T1 s T2 S :
  tiled A B (T1 ++ s :: T2) -> tiled (s_start s) (s_end s) S -> tiled A B (T1 ++ S ++ T2).
Proof.
  intros (c & H1 & <- & _ & _ & _ & H5)%tiled_app HS. apply tiled_app. exists (s_start s). split; [done|].
  apply tiled_app. by exists (s_end s).
Qed.

(** An address lies in one segment only. *)
Lemma tiled_unique A B T1 s T2 T1' s' T2' a :
  tiled A B (T1 ++ s :: T2) -> T1 ++ s :: T2 = T1' ++ s' :: T2' ->
  s_start s <= a < s_end s -> s_start s' <= a < s_end s' -> T1 = T1' /\ s = s' /\ T2 = T2'.
Proof.
  intros H E Ha Ha'. pose proof H as H'. rewrite E in H'. apply tiled_between in H, H'.
  apply app_eq_app in E as [k [[-> E]|[-> E]]]; (destruct k as [|t k]; [rewrite app_nil_r; by injection E as -> -> |]);
    injection E as -> ->; exfalso.
  - pose proof (bt_before _ _ _ _ _ H t ltac:(set_solver)). lia.
  - pose proof (bt_before _ _ _ _ _ H' t ltac:(set_solver)). lia.
Qed.
