(* ===== verification/VmmOps.v ===== *)
(** Allocation and release of virtual memory, on regions and mappings together.

    [vmm_inv v T]: the region list of [v] is the kernel's own region followed by
    the segments [T], which tile the rest of the managed range; the pages of the
    segments in use are mapped to distinct frames that nobody else owns, and the
    pages of the free segments are not mapped. *)

From S2P Require Import Prelude Dll Pmm PmmMeta PmmInv PmmSteps PmmAlloc PmmFree PmmProps PmmInit PmmSpec Frames Paging PagingProps Vmm VmmList VmmMap VmmSegs.
From Stdlib Require Import ZArith Lia Bool.
From stdpp Require Import base tactics numbers list sets gmap.
Open Scope Z_scope.

Definition kernel_seg : seg :=
  mk_seg VMM_KERNEL_START VMM_USER_START (Z.lor (Z.lor VMM_KERNEL VMM_WRITE) VMM_PRESENT) false.

(** A free segment an allocation of [pages] pages may be taken from. *)
Definition fits (pages flags : Z) (s : seg) : bool :=
  s_free s && (PAGE_SIZE * pages <=? s_end s - s_start s) &&
  eqb (Z.land flags VMM_USER =? 0) (is_kernel_address (s_start s)).

(** What an allocation leaves of the segment it is taken from. *)
Definition remainder (pages : Z) (s : seg) : list seg :=
  if s_end s - s_start s =? PAGE_SIZE * pages then []
  else [mk_seg (s_start s + PAGE_SIZE * pages) (s_end s) (s_flags s) (s_free s)].

Definition taken (pages flags : Z) (s : seg) : seg :=
  mk_seg (s_start s) (s_start s + PAGE_SIZE * pages) (Z.lor flags VMM_PRESENT) false.

Section Ops.
Context (R : (Z -> list Z) -> Prop) `{!block_stable R}.

Record vmm_inv (v : vmm) (T : list seg) : Prop := {
  vi_regions : exists l fl, region_inv v l fl /\ segs v l = kernel_seg :: T;
  vi_tiled : tiled VMM_USER_START VMM_KERNEL_END T;
  vi_heap : heap_inv R (mm v) (used_page T) (free_page T) }.

Lemma managed_range A B T1 s T2 :
  mid_seg A B T1 s T2 -> A = VMM_USER_START -> B = VMM_KERNEL_END ->
  exists q e, s_start s = 4096 * q /\ s_end s = 4096 * e /\ 1024 <= q /\ q < e /\ e <= 786432.
Proof.
  intros [H1 [H2 H3] _ _] -> ->. exists (s_start s / 4096), (s_end s / 4096).
  unfold VMM_USER_START, VMM_KERNEL_END, PAGE_SIZE in *. dlia.
Qed.

(** *** Reserving a region *)

(** Marking a region, once it has the right size. *)
Lemma mark_spec v l1 p l2 fl flags :
  region_inv v (l1 ++ p :: l2) fl ->
  let v1 := set_cell p (set_r_free false (regions v p)) v in
  let v2 := set_cell p (set_r_flags flags (regions v1 p)) v1 in
  region_inv v2 (l1 ++ p :: l2) fl /\ mm v2 = mm v /\
  segs v2 (l1 ++ p :: l2) =
    segs v l1 ++ mk_seg (r_start (regions v p)) (r_end (regions v p)) flags false :: segs v l2.
Proof.
  intros I. destruct (dlist_links _ _ _ _ _ (ri_list _ _ _ I)) as (_ & _ & _ & H1 & H2 & _). cbv zeta.
  set (v1 := set_cell p _ v). assert (I1 : region_inv v1 (l1 ++ p :: l2) fl)
    by (apply set_cell_inv; [done|set_solver|done|done]).
  split; [|split; [done|]].
  - apply set_cell_inv; [done|set_solver|done|done].
  - rewrite set_cell_segs by done. f_equal; [|f_equal].
    + apply segs_ext. intros y Hy. cbn. rewrite upd_ne; [done|by intros ->].
    + cbn. by rewrite upd_eq.
    + apply segs_ext. intros y Hy. cbn. rewrite upd_ne; [done|by intros ->].
Qed.

Lemma reserve_spec v l1 p l2 fl pages flags q e :
  region_inv v (l1 ++ p :: l2) fl ->
  r_start (regions v p) = 4096 * q -> r_end (regions v p) = 4096 * e -> 1024 <= q -> e <= 786432 ->
  0 < pages -> pages <= e - q ->
  let s := seg_of (regions v p) in
  let '(x, v1) :=
    if u32 (r_end (regions v p) - r_start (regions v p)) =? u32 (pages * PAGE_SIZE) then (p, v)
    else vmm_split_region p (u32 (r_start (regions v p) + u32 (pages * PAGE_SIZE))) v in
  (x = 0 /\ v1 = v /\ no_cell v) \/
  (x = p /\ x <> 0 /\
   let v2 := set_cell x (set_r_free false (regions v1 x)) v1 in
   let v3 := set_cell x (set_r_flags flags (regions v2 x)) v2 in
   exists l' fl', region_inv v3 (l1 ++ p :: l') fl' /\ mm v3 = mm v /\
     segs v3 (l1 ++ p :: l') =
       segs v l1 ++ mk_seg (s_start s) (s_start s + PAGE_SIZE * pages) flags false ::
       remainder pages s ++ segs v l2).
Proof.
  intros I Es Ee Hq He Hp Hpe. cbv zeta. unfold remainder, PAGE_SIZE. cbn [seg_of s_start s_end s_flags s_free].
  destruct (dlist_links _ _ _ _ _ (ri_list _ _ _ I)) as (_ & _ & Hp0 & _ & _ & _).
  rewrite Es, Ee. rewrite (u32_small (pages * 4096)), (u32_small (_ - _)), (u32_small (_ + _)) by lia.
  rewrite (Z.mul_comm pages 4096). destruct (Z.eqb_spec (4096 * e - 4096 * q) (4096 * pages)) as [E|E].
  - right. split; [done|]. split; [done|]. exists l2, fl. destruct (mark_spec v l1 p l2 fl flags I) as (I2 & M & S).
    split; [done|]. split; [done|]. rewrite S, Es, Ee. cbn [app]. by replace (4096 * q + 4096 * pages) with (4096 * e) by lia.
  - pose proof (split_spec v l1 p l2 fl (4096 * q + 4096 * pages) I) as H. rewrite Es, Ee in H.
    specialize (H ltac:(lia)). destruct (vmm_split_region p _ v) as [x v1].
    destruct H as [H|(-> & M & y & fl' & I1 & S1)]; [by left|right].
    split; [done|]. split; [done|]. exists (y :: l2), fl'.
    destruct (mark_spec v1 l1 p (y :: l2) fl' flags I1) as (I2 & M2 & S2). cbv zeta in *.
    split; [done|]. split; [by rewrite M2|]. rewrite S2.
    rewrite segs_app in S1. cbn [segs map] in S1. change (map _ ?l) with (segs v1 l) in S1.
    apply app_inj_1 in S1 as [S1 S3]; [|by unfold segs; rewrite !length_map].
    injection S3 as E1 E2 _ _ E5 E6 E7 E8 E9. rewrite S1, E1, E2. cbn [segs map]. change (map _ ?l) with (segs v1 l).
    unfold seg_of. by rewrite E5, E6, E7, E8, E9.
Qed.

(** *** Finding a region *)

Lemma kernel_tiled T :
  tiled VMM_USER_START VMM_KERNEL_END T -> tiled VMM_KERNEL_START VMM_KERNEL_END (kernel_seg :: T).
Proof. intros H. by repeat split. Qed.

(** Splitting the cells the way the segments are split. *)
Lemma segs_split v l T1 s T2 :
  segs v l = T1 ++ s :: T2 ->
  exists l1 p l2, l = l1 ++ p :: l2 /\ segs v l1 = T1 /\ seg_of (regions v p) = s /\ segs v l2 = T2.
Proof.
  intros E. apply map_eq_app in E as (l1 & l' & -> & E1 & E2).
  apply map_eq_cons in E2 as (p & l2 & -> & E2 & E3). by exists l1, p, l2.
Qed.

Lemma find_region_at v l fl T1 s T2 a :
  region_inv v l fl -> segs v l = kernel_seg :: T1 ++ s :: T2 ->
  tiled VMM_USER_START VMM_KERNEL_END (T1 ++ s :: T2) -> s_start s <= a < s_end s ->
  exists l1 p l2, l = l1 ++ p :: l2 /\ vmm_find_region a v = p /\ p <> 0 /\ segs v l1 = kernel_seg :: T1 /\
    seg_of (regions v p) = s /\ segs v l2 = T2.
Proof.
  intros I E HT Ha. apply kernel_tiled in HT. unfold vmm_find_region.
  destruct (find_cell_spec v l fl (fun r => (r_start r <=? a) && (a <? r_end r)) I)
    as [[_ H]|(l1 & p & l2 & -> & Hp & Hp0 & Hf & _)].
  - destruct (segs_split v l (kernel_seg :: T1) s T2 E) as (l1 & p & l2 & -> & _ & <- & _).
    specialize (H p ltac:(set_solver)). cbn in Ha. lia.
  - exists l1, p, l2. split; [done|]. split; [done|]. split; [done|]. rewrite segs_app in E. cbn [segs map] in E.
    change (map _ ?l) with (segs v l) in E.
    destruct (tiled_unique VMM_KERNEL_START VMM_KERNEL_END (kernel_seg :: T1) s T2 (segs v l1) (seg_of (regions v p))
      (segs v l2) a HT (eq_sym E)) as (<- & <- & <-); [done| |done]. cbn. lia.
Qed.

Lemma merge_kernel T : merge_all (kernel_seg :: T) = kernel_seg :: merge_all T.
Proof. by destruct T. Qed.

(** Marking a region free and merging. *)
Lemma free_merge_spec v l1 p l2 fl T1 T2 :
  region_inv v (l1 ++ p :: l2) fl -> segs v l1 = kernel_seg :: T1 -> segs v l2 = T2 ->
  let r := regions v p in
  let v' := vmm_merge_free_regions (set_cell p (set_r_free true r) v) in
  exists l' fl', region_inv v' l' fl' /\ mm v' = mm v /\
    segs v' l' = kernel_seg :: merge_all (T1 ++ mk_seg (r_start r) (r_end r) (r_flags r) true :: T2).
Proof.
  intros I E1 E2. cbv zeta.
  destruct (dlist_links _ _ _ _ _ (ri_list _ _ _ I)) as (_ & _ & _ & H1 & H2 & _).
  assert (I1 : region_inv (set_cell p (set_r_free true (regions v p)) v) (l1 ++ p :: l2) fl)
    by (apply set_cell_inv; [done|set_solver|done|done]).
  destruct (merge_spec _ _ _ I1) as (l' & fl' & I' & M & S). exists l', fl'. split; [done|]. split; [by rewrite M|].
  rewrite S, set_cell_segs by done. rewrite E1, E2. apply merge_kernel.
Qed.

(** *** The pages of a reserved segment *)

Definition freed (s : seg) : seg := mk_seg (s_start s) (s_end s) (s_flags s) true.

Section Reserved.
Context (T1 T2 : list seg) (s : seg) (pages flags q e : Z).
Context (HT : tiled VMM_USER_START VMM_KERNEL_END (T1 ++ s :: T2)) (Hfree : s_free s = true).
Context (Es : s_start s = 4096 * q) (Ee : s_end s = 4096 * e) (Hp : 0 < pages) (Hpe : pages <= e - q).

Lemma reserved_tiled b f :
  tiled VMM_USER_START VMM_KERNEL_END
    (T1 ++ mk_seg (s_start s) (s_start s + PAGE_SIZE * pages) f b :: remainder pages s ++ T2).
Proof using All.
  apply (tiled_replace _ _ T1 s T2 (mk_seg (s_start s) (s_start s + PAGE_SIZE * pages) f b :: remainder pages s) HT).
  unfold remainder, PAGE_SIZE. rewrite Es, Ee. destruct (Z.eqb_spec (4096 * e - 4096 * q) (4096 * pages));
    cbn [tiled s_start s_end]; unfold PAGE_SIZE; replace (4096 * q + 4096 * pages) with (4096 * (q + pages)) by lia;
    rewrite ?page_mod; repeat split; lia.
Qed.

Lemma reserved_used x : used_page (T1 ++ taken pages flags s :: remainder pages s ++ T2) x <->
  used_page (T1 ++ s :: T2) x \/ run q pages x.
Proof using All.
  rewrite !used_page_app, !used_page_cons, used_page_app. unfold remainder.
  destruct (_ =? _); rewrite ?used_page_cons; pose proof (no_page_nil x); unfold run, seg_has, taken, PAGE_SIZE;
    cbn [s_start s_end s_free]; rewrite ?Hfree; rewrite ?Es; intuition (lia || discriminate).
Qed.

Lemma reserved_free x : free_page (T1 ++ taken pages flags s :: remainder pages s ++ T2) x <->
  free_page (T1 ++ s :: T2) x /\ ~ run q pages x.
Proof using All.
  pose proof (tiled_between _ _ _ _ _ HT) as [_ _ Hb Ha].
  assert (H1 : free_page T1 x -> ~ run q pages x).
  { intros (t & Ht & _ & H). specialize (Hb t Ht). unfold run, seg_has in *. lia. }
  assert (H2 : free_page T2 x -> ~ run q pages x).
  { intros (t & Ht & _ & H). specialize (Ha t Ht). unfold run, seg_has in *. lia. }
  rewrite !free_page_app, !free_page_cons, free_page_app. unfold remainder, PAGE_SIZE. rewrite Es, Ee.
  destruct (Z.eqb_spec (4096 * e - 4096 * q) (4096 * pages)); rewrite ?free_page_cons; pose proof (no_page_nil x);
    unfold run, seg_has, taken, PAGE_SIZE in *; cbn [s_start s_end s_free]; rewrite ?Hfree, ?Es, ?Ee;
    intuition (lia || discriminate).
Qed.

Lemma unreserved_free x : free_page (T1 ++ freed (taken pages flags s) :: remainder pages s ++ T2) x <->
  free_page (T1 ++ s :: T2) x.
Proof using All.
  rewrite !free_page_app, !free_page_cons, free_page_app. unfold remainder, PAGE_SIZE. rewrite Es, Ee.
  destruct (Z.eqb_spec (4096 * e - 4096 * q) (4096 * pages)); rewrite ?free_page_cons; pose proof (no_page_nil x);
    unfold seg_has, freed, taken, PAGE_SIZE; cbn [s_start s_end s_free]; rewrite ?Hfree, ?Es, ?Ee;
    intuition (lia || discriminate).
Qed.

Lemma unreserved_used :
  used_segs (T1 ++ freed (taken pages flags s) :: remainder pages s ++ T2) = used_segs (T1 ++ s :: T2).
Proof using All.
  rewrite !used_segs_app, !used_segs_cons, used_segs_app. cbn [s_free freed]. rewrite Hfree. f_equal.
  unfold remainder. destruct (_ =? _); [done|]. rewrite used_segs_cons. cbn [s_free]. by rewrite Hfree.
Qed.
End Reserved.

(** *** Allocation *)

Inductive alloc_outcome (v : vmm) (T : list seg) (pages flags : Z) : Z -> vmm -> list seg -> Prop :=
| alloc_refused v' T' :
    used_segs T' = used_segs T -> restored (mm v) (mm v') ->
    (forall s, s ∈ T -> fits pages flags s = false) \/ no_cell v \/ free_pages (pm (mm v)) < 2 * pages ->
    alloc_outcome v T pages flags 0 v' T'
| alloc_done T1 s T2 fs v' :
    T = T1 ++ s :: T2 -> fits pages flags s = true -> (forall t, t ∈ T1 -> fits pages flags t = false) ->
    mapped (mm v) (s_start s / PAGE_SIZE) pages fs (mm v') ->
    alloc_outcome v T pages flags (s_start s) v' (T1 ++ taken pages flags s :: remainder pages s ++ T2).

Lemma region_inv_mm v l fl m : region_inv v l fl -> region_inv (set_mm m v) l fl.
Proof. intros [D [C1 C2 C3 C4 C5 C6]]. split; [exact D|]. by split. Qed.

Lemma restored_refl m : restored m m.
Proof. split; auto. Qed.

Lemma suitable_fits pages flags r :
  0 <= r_end r - r_start r < 2 ^ 32 -> 0 < pages < 2 ^ 20 ->
  suitable (u32 (pages * PAGE_SIZE)) flags r = fits pages flags (seg_of r).
Proof.
  intros Hr Hp. unfold suitable, fits, PAGE_SIZE. cbn [seg_of s_free s_start s_end].
  rewrite !u32_small by lia. by rewrite Z.mul_comm.
Qed.

Lemma segs_elem v l s : s ∈ segs v l <-> exists x, s = seg_of (regions v x) /\ x ∈ l.
Proof. apply (list_elem_of_fmap (fun p => seg_of (regions v p))). Qed.

(** The cells of a region list, from the segments. *)
Lemma suitable_segs v l T pages flags :
  segs v l = kernel_seg :: T -> tiled VMM_USER_START VMM_KERNEL_END T -> 0 < pages < 2 ^ 20 ->
  forall x, x ∈ l -> suitable (u32 (pages * PAGE_SIZE)) flags (regions v x) = fits pages flags (seg_of (regions v x)).
Proof.
  intros E HT Hp x Hx. apply suitable_fits; [|done]. apply kernel_tiled in HT.
  assert (Hin : seg_of (regions v x) ∈ kernel_seg :: T) by (rewrite <- E; apply segs_elem; by exists x).
  destruct (tiled_in _ _ _ _ HT Hin) as (H1 & H2 & H3). unfold VMM_KERNEL_START, VMM_KERNEL_END in *. cbn in *. lia.
Qed.

Lemma alloc_pick v l1 p l2 T pages flags :
  segs v (l1 ++ p :: l2) = kernel_seg :: T -> fits pages flags (seg_of (regions v p)) = true ->
  exists T1, segs v l1 = kernel_seg :: T1 /\ T = T1 ++ seg_of (regions v p) :: segs v l2.
Proof.
  intros E Hf. rewrite segs_app in E. cbn [segs map] in E. change (map _ ?l) with (segs v l) in E.
  destruct (segs v l1) as [|k T1]; cbn [app] in E.
  - replace (seg_of (regions v p)) with kernel_seg in Hf by congruence. by unfold fits in Hf.
  - exists T1. split; congruence.
Qed.

Lemma alloc_finish v v3 T1 s T2 pages flags q e l fl :
  tiled VMM_USER_START VMM_KERNEL_END (T1 ++ s :: T2) -> fits pages flags s = true ->
  (forall t, t ∈ T1 -> fits pages flags t = false) ->
  s_start s = 4096 * q -> s_end s = 4096 * e -> 1024 <= q -> 0 < pages -> pages <= e - q ->
  heap_inv R (mm v) (used_page (T1 ++ s :: T2)) (free_page (T1 ++ s :: T2)) ->
  region_inv v3 l fl -> mm v3 = mm v ->
  segs v3 l = kernel_seg :: T1 ++ taken pages flags s :: remainder pages s ++ T2 ->
  let '(a, v') := alloc_pages_loop (Z.to_nat pages) 0 (4096 * q) flags v3 in
  exists T', vmm_inv v' T' /\ alloc_outcome v (T1 ++ s :: T2) pages flags a v' T'.
Proof.
  intros HT Hf Hfirst Es Ee Hq Hp Hpe H I3 M3 S3.
  assert (Hfree : s_free s = true) by (unfold fits in Hf; by destruct (s_free s)).
  pose proof (reserved_tiled T1 T2 s pages flags q e HT Hfree Es Ee Hp Hpe false (Z.lor flags VMM_PRESENT)) as HT3.
  assert (Hrun : forall x, run q (0 + Z.of_nat (Z.to_nat pages)) x -> free_page (T1 ++ s :: T2) x).
  { intros x Hx. apply free_page_app. right. apply free_page_cons. left. split; [done|]. unfold run, seg_has in *. lia. }
  pose proof (alloc_loop_spec R (mm v) _ _ q H ltac:(lia) flags (Z.to_nat pages) 0 v3 [] ltac:(lia) Hrun) as S.
  rewrite M3 in S. specialize (S ltac:(eapply heap_inv_ext; [..|exact H]; unfold run; intros x; cbn; intuition lia)
    (mapped_nil R _ _)). rewrite Z.add_0_l, Z2Nat.id in S by lia.
  destruct (alloc_pages_loop _ _ _ _ v3) as [a v'].
  destruct S as [(-> & m' & fs & -> & H' & M')|(-> & Hex & m' & -> & H' & R')].
  - exists (T1 ++ taken pages flags s :: remainder pages s ++ T2). split.
    + split; [|exact HT3|].
      * exists l, fl. split; [by apply region_inv_mm|exact S3].
      * eapply heap_inv_ext; [..|exact H']; intros x; symmetry;
          [by apply (reserved_used T1 T2 s pages flags q e)|by apply (reserved_free T1 T2 s pages flags q e)].
    + rewrite <- Es. apply (alloc_done _ _ _ _ T1 s T2 fs); [done|done|done|].
      unfold PAGE_SIZE. rewrite Es, page_div. exact M'.
  - assert (Ha : s_start (taken pages flags s) <= 4096 * q < s_end (taken pages flags s))
      by (unfold taken, PAGE_SIZE; cbn [s_start s_end]; lia).
    destruct (find_region_at (set_mm m' v3) l fl _ _ _ _ (region_inv_mm _ _ _ m' I3) S3 HT3 Ha)
      as (l1 & p & l2 & -> & Hfind & Hp0 & E1 & Ep & E2).
    unfold give_back. rewrite Hfind. replace (p =? 0) with false by lia.
    destruct (free_merge_spec _ l1 p l2 fl T1 _ (region_inv_mm _ _ _ m' I3) E1 E2) as (l' & fl' & I' & Mm & S').
    cbv zeta in *. set (v' := vmm_merge_free_regions _) in *.
    change (mk_seg _ _ _ true) with (freed (seg_of (regions (set_mm m' v3) p))) in S'. rewrite Ep in S'.
    pose proof (reserved_tiled T1 T2 s pages flags q e HT Hfree Es Ee Hp Hpe true (Z.lor flags VMM_PRESENT)) as HT4.
    destruct (merge_all_spec _ _ _ HT4) as (HT5 & _ & HF & HU).
    exists (merge_all (T1 ++ freed (taken pages flags s) :: remainder pages s ++ T2)). split.
    + split; [by exists l', fl'|exact HT5|]. rewrite Mm. cbn [mm set_mm].
      eapply heap_inv_ext; [..|exact H']; intros x; symmetry.
      * etransitivity; [apply HU|]. by apply used_page_ext, (unreserved_used T1 T2 s pages flags q e).
      * etransitivity; [apply HF|]. by apply (unreserved_free T1 T2 s pages flags q e).
    + apply alloc_refused; [|by rewrite Mm|by right; right].
      rewrite merge_all_used. by apply (unreserved_used T1 T2 s pages flags q e).
Qed.

Lemma vmm_alloc_spec v T pages flags :
  vmm_inv v T -> 0 < pages < 2 ^ 20 ->
  let '(a, v') := vmm_alloc pages flags v in
  exists T', vmm_inv v' T' /\ alloc_outcome v T pages flags a v' T'.
Proof.
  intros V Hp. pose proof V as [(l & fl & I & E) HT H]. unfold vmm_alloc. replace (pages =? 0) with false by lia.
  pose proof (suitable_segs v l T pages flags E HT Hp) as Hsuit.
  destruct (find_cell_spec v l fl (suitable (u32 (pages * PAGE_SIZE)) flags) I)
    as [[-> Hnone]|(l1 & p & l2 & -> & -> & Hp0 & Hf & Hfirst)].
  { cbn [Z.eqb]. exists T. split; [done|]. apply alloc_refused; [done|apply restored_refl|left].
    intros s Hs. assert (Hin : s ∈ segs v l) by (rewrite E; by right).
    apply segs_elem in Hin as (x & -> & Hx). rewrite <- Hsuit by done. auto. }
  replace (p =? 0) with false by lia. rewrite Hsuit in Hf by set_solver.
  destruct (alloc_pick v l1 p l2 T pages flags E Hf) as (T1 & E1 & ->). set (s := seg_of (regions v p)) in *.
  destruct (managed_range _ _ _ _ _ (tiled_between _ _ _ _ _ HT) eq_refl eq_refl) as (q & e & Es & Ee & Hq & Hqe & He).
  assert (Hfree : s_free s = true) by (unfold fits in Hf; by destruct (s_free s)).
  assert (Hpe : pages <= e - q) by (unfold fits, PAGE_SIZE in Hf; rewrite Es, Ee, Hfree in Hf; lia).
  assert (Hfirst' : forall t, t ∈ T1 -> fits pages flags t = false).
  { intros t Ht. assert (Hin : t ∈ segs v l1) by (rewrite E1; by right).
    apply segs_elem in Hin as (x & -> & Hx). rewrite <- Hsuit by set_solver. auto. }
  pose proof (reserve_spec v l1 p l2 fl pages (Z.lor flags VMM_PRESENT) q e I Es Ee Hq He ltac:(lia) Hpe) as S.
  cbv zeta in S. fold s in S. destruct (if _ =? _ then _ else _) as [x v1].
  destruct S as [(-> & -> & Hno)|(-> & _ & l' & fl' & I3 & M3 & S3)].
  { cbn [Z.eqb]. exists (T1 ++ s :: segs v l2). split; [done|]. apply alloc_refused; [done|apply restored_refl|by right; left]. }
  replace (p =? 0) with false by lia. set (v3 := set_cell p (set_r_flags _ _) _) in *.
  rewrite E1 in S3. change (s_start s = 4096 * q) with (r_start (regions v p) = 4096 * q) in Es. rewrite Es.
  apply (alloc_finish v v3 T1 s (segs v l2) pages flags q e (l1 ++ p :: l') fl'); done || lia.
Qed.

(** *** Release *)

(** The segment a call of [vmm_free] names. *)
Definition names_seg (virt pages : Z) (s : seg) : Prop :=
  s_free s = false /\ s_start s = virt /\ s_end s = virt + PAGE_SIZE * pages.

#[global] Instance names_seg_dec virt pages s : Decision (names_seg virt pages s).
Proof. unfold names_seg. apply _. Defined.

(** The caller does not point into the middle of a region in use. *)
Definition not_interior (virt : Z) (T : list seg) : Prop :=
  forall s, s ∈ T -> s_free s = false -> s_start s <= virt < s_end s -> s_start s = virt.

Inductive free_outcome (v : vmm) (T : list seg) (virt pages : Z) : bool -> vmm -> list seg -> Prop :=
| free_nothing :
    (forall s, s ∈ T -> ~ names_seg virt pages s) -> free_outcome v T virt pages false v T
| free_done T1 s T2 v' :
    T = T1 ++ s :: T2 -> names_seg virt pages s ->
    unmapped (mm v) (virt / PAGE_SIZE) pages (mm v') ->
    separated (merge_all (T1 ++ freed s :: T2)) ->
    free_outcome v T virt pages true v' (merge_all (T1 ++ freed s :: T2)).

Section Free.
Context (v : vmm) (T : list seg) (virt pages : Z).
Context (V : vmm_inv v T) (Hvirt : VMM_USER_START <= virt < 2 ^ 32) (Hpages : 0 <= pages < 2 ^ 20).

Lemma vmm_free_refuses :
  not_interior virt T -> (forall s, s ∈ T -> ~ names_seg virt pages s) -> vmm_free virt pages v = (false, v).
Proof using All.
  intros Hint Hno. destruct V as [(l & fl & I & E) HT _]. apply kernel_tiled in HT. unfold vmm_free.
  destruct (_ || _); [done|]. destruct (negb _); [done|]. unfold vmm_find_region.
  destruct (find_cell_spec v l fl (fun r => (r_start r <=? virt) && (virt <? r_end r)) I)
    as [[-> _]|(l1 & p & l2 & -> & -> & Hp0 & Hf & _)]; [done|].
  replace (p =? 0) with false by lia. destruct (r_is_free (regions v p)) eqn:Efree; [done|].
  assert (Hin : seg_of (regions v p) ∈ kernel_seg :: T) by (rewrite <- E; apply segs_elem; exists p; set_solver).
  destruct (tiled_in _ _ _ _ HT Hin) as (H1 & H2 & H3). cbn [seg_of s_start s_end] in *.
  destruct (Z.eqb_spec (u32 (r_end (regions v p) - r_start (regions v p))) (u32 (pages * PAGE_SIZE))) as [Esz|]; [|done].
  exfalso. apply elem_of_cons in Hin as [Hk|Hin].
  - assert (r_end (regions v p) = VMM_USER_START) by (change (r_end (regions v p)) with (s_end (seg_of (regions v p))); by rewrite Hk).
    lia.
  - apply (Hno _ Hin). pose proof (Hint _ Hin Efree ltac:(cbn; lia)) as Hs. cbn in Hs.
    split; [done|]. split; [done|]. cbn [seg_of s_end]. unfold VMM_KERNEL_START, VMM_KERNEL_END, PAGE_SIZE in *.
    rewrite !u32_small in Esz by lia. lia.
Qed.

Lemma vmm_free_accepts T1 s T2 :
  T = T1 ++ s :: T2 -> names_seg virt pages s ->
  exists v', vmm_free virt pages v = (true, v') /\
    vmm_inv v' (merge_all (T1 ++ freed s :: T2)) /\ unmapped (mm v) (virt / PAGE_SIZE) pages (mm v') /\
    separated (merge_all (T1 ++ freed s :: T2)).
Proof using All.
  intros -> (Hused & Es & Ee). pose proof V as [(l & fl & I & E) HT H].
  pose proof (tiled_between _ _ _ _ _ HT) as B.
  destruct (managed_range _ _ _ _ _ B eq_refl eq_refl) as (q & e & Eq & Ee' & Hq & Hqe & He).
  assert (Ev : virt = 4096 * q) by lia. assert (Epg : e = q + pages) by (unfold PAGE_SIZE in Ee; lia).
  destruct (find_region_at v l fl T1 s T2 virt I E HT ltac:(lia)) as (l1 & p & l2 & -> & Hfind & Hp0 & E1 & Ep & E2).
  assert (Efree : r_is_free (regions v p) = false) by (rewrite <- Ep in Hused; exact Hused).
  unfold vmm_free. replace ((virt =? 0) || (pages =? 0)) with false by lia.
  rewrite Ev in *. rewrite page_aligned. cbn [negb]. rewrite Hfind. replace (p =? 0) with false by lia.
  rewrite Efree. change (r_end (regions v p)) with (s_end (seg_of (regions v p))).
  change (r_start (regions v p)) with (s_start (seg_of (regions v p))). rewrite Ep, Eq, Ee'. unfold PAGE_SIZE.
  rewrite !u32_small by lia. replace (4096 * e - 4096 * q =? pages * 4096) with true by lia. cbn [negb].
  rewrite unmap_region_eq by lia. set (m' := for_loop _ _ _).
  destruct (free_merge_spec _ l1 p l2 fl T1 T2 (region_inv_mm v _ _ m' I) E1 E2) as (l' & fl' & I' & Mm & S').
  cbv zeta in *. change (regions (set_mm m' v)) with (regions v) in *. set (v' := vmm_merge_free_regions _) in *.
  change (mk_seg _ _ _ true) with (freed (seg_of (regions v p))) in S'. rewrite Ep in S'.
  assert (Hrun : forall x, run q pages x -> used_page (T1 ++ s :: T2) x).
  { intros x Hx. apply used_page_app. right. apply used_page_cons. left. split; [done|]. unfold run, seg_has in *. lia. }
  destruct (unmap_loop_spec R unmap_free_page (mm v) _ _ q pages unmap_free_releases H ltac:(lia) ltac:(lia) Hrun) as [H' U']. fold m' in H', U'.
  assert (HT' : tiled VMM_USER_START VMM_KERNEL_END (T1 ++ freed s :: T2)).
  { apply (tiled_replace _ _ T1 s T2 [freed s] HT). destruct (bt_range _ _ _ _ _ B). destruct (bt_aligned _ _ _ _ _ B).
    cbn [tiled freed s_start s_end]. repeat split; (done || lia). }
  destruct (merge_all_spec _ _ _ HT') as (HT5 & Hsep & HF & HU).
  exists v'. split; [done|]. split; [split; [by exists l', fl'|done|]|split; [|done]].
  - rewrite Mm. change (mm (set_mm m' v)) with m'.
    assert (Hb : forall x, used_page T1 x \/ used_page T2 x \/ free_page T1 x \/ free_page T2 x -> ~ run q pages x).
    { destruct B as [_ _ Hb Ha]. intros x Hx Hr. unfold run in Hr.
      destruct Hx as [(t & Ht & _ & Hx)|[(t & Ht & _ & Hx)|[(t & Ht & _ & Hx)|(t & Ht & _ & Hx)]]]; unfold seg_has in Hx;
        first [specialize (Hb t Ht)|specialize (Ha t Ht)]; lia. }
    eapply heap_inv_ext; [..|exact H']; intros x; cbn; symmetry; (etransitivity; [apply HU || apply HF|]);
      rewrite ?used_page_app, ?used_page_cons, ?free_page_app, ?free_page_cons; specialize (Hb x);
      unfold run, seg_has in *; cbn [freed s_free s_start s_end]; rewrite Hused, Eq, Ee'; intuition (lia || discriminate).
  - unfold PAGE_SIZE. rewrite page_div, Mm. exact U'.
Qed.

Lemma vmm_free_spec :
  not_interior virt T ->
  let '(ok, v') := vmm_free virt pages v in
  exists T', vmm_inv v' T' /\ free_outcome v T virt pages ok v' T'.
Proof using All.
  intros Hint. destruct (decide (Exists (names_seg virt pages) T)) as [Hex|Hno].
  - apply Exists_exists in Hex as (s & Hs & Hn). apply list_elem_of_split in Hs as (T1 & T2 & E).
    destruct (vmm_free_accepts T1 s T2 E Hn) as (v' & -> & V' & U & Sep).
    exists (merge_all (T1 ++ freed s :: T2)). split; [done|]. by apply free_done.
  - assert (Hno' : forall s, s ∈ T -> ~ names_seg virt pages s).
    { intros s Hs Hn. apply Hno. apply Exists_exists. by exists s. }
    rewrite (vmm_free_refuses Hint Hno'). exists T. split; [done|]. by apply free_nothing.
Qed.
End Free.
End Ops.
