(* ===== verification/VmmSpec.v ===== *)
(** The contract of the virtual memory manager: what its states look like from
    [vmm_init] on, and what [vmm_alloc] and [vmm_free] promise. *)

From S2P Require Import Prelude Dll Pmm PmmMeta PmmInv PmmSteps PmmAlloc PmmFree PmmProps PmmInit PmmSpec Frames Paging PagingProps PagingSpec Vmm VmmList VmmMap VmmSegs VmmOps.
From Stdlib Require Import ZArith Lia Bool.
From stdpp Require Import base tactics numbers list sets gmap relations.
Open Scope Z_scope.

(** ** Boot *)

(** The state the static initializers leave: no region, an unused pool, and an
    address space in which nothing the manager owns is mapped. *)
Record vmm_fresh (R : (Z -> list Z) -> Prop) (v : vmm) : Prop := {
  vf_list : region_list v = 0;
  vf_pool : 0 < bootstrap_pool v /\ bootstrap_pool_index v = 0;
  vf_dynamic : use_dynamic_allocation v = false;
  vf_kept : vmm_region_free_list v = 0;
  vf_paging : paging_inv R (mm v);
  vf_unmapped q : VMM_USER_START / 4096 <= q < VMM_KERNEL_END / 4096 -> translate (mm v) (4096 * q) = None }.

Definition user_seg : seg := mk_seg VMM_USER_START VMM_USER_END (Z.lor VMM_USER VMM_WRITE) true.
Definition heap_seg : seg := mk_seg VMM_KERNEL_HEAP VMM_KERNEL_END (Z.lor VMM_KERNEL VMM_WRITE) true.

(** The bootstrap pool has room for [n] more cells. *)
Definition boot_room (v : vmm) (n : Z) : Prop :=
  use_dynamic_allocation v = false /\ 0 < bootstrap_pool v /\ 0 <= bootstrap_pool_index v /\
  bootstrap_pool_index v + n <= VMM_BOOTSTRAP_POOL_SIZE.

Lemma create_boot v s e f b n :
  boot_room v (n + 1) -> 0 <= n ->
  (vmm_create_region s e f b v).1 <> 0 /\ boot_room (vmm_create_region s e f b v).2 n.
Proof.
  intros (Hd & Hb & Hi & Hn) Hn0. unfold vmm_create_region. rewrite Hd.
  replace (VMM_BOOTSTRAP_POOL_SIZE <=? _) with false by lia.
  replace (_ =? 0) with false by pool_lia. cbn [fst snd]. split; [pool_lia|].
  split; [exact Hd|]. cbn. lia.
Qed.

Lemma insert_boot v x n : boot_room v n -> boot_room (vmm_insert_region x v) n.
Proof.
  unfold vmm_insert_region. destruct (x =? 0); [done|]. destruct (region_list v =? 0); [done|].
  destruct (insert_point _ _ _ _ _) as [a c]. destruct (a =? 0); [done|]. by destruct (c =? 0).
Qed.

(** Creating a region above all others and inserting it appends it. *)
Lemma append_spec v l fl T s e f b n :
  region_inv v l fl -> segs v l = T -> boot_room v (n + 1) -> 0 <= n -> (forall t, t ∈ T -> s_start t < s) ->
  let '(x, v1) := vmm_create_region s e f b v in
  x <> 0 /\ let v' := vmm_insert_region x v1 in
  boot_room v' n /\ mm v' = mm v /\ exists l' fl', region_inv v' l' fl' /\ segs v' l' = T ++ [mk_seg s e f b].
Proof.
  intros [D C] E Hr Hn Hlt. pose proof (create_spec v l fl s e f b C) as S. pose proof (create_boot v s e f b n Hr Hn) as [Hx0 Hr1].
  destruct (vmm_create_region s e f b v) as [x v1]. cbn [fst snd] in *.
  destruct S as [[? _]|(Hx & Hxl & Hcr & fl' & C1)]; [done|]. split; [done|]. cbv zeta.
  destruct (created_list _ _ _ _ _ Hcr Hxl D) as [D1 S1]. destruct Hcr as (R1 & _ & M1).
  assert (Hcell : regions v1 x = mk_region s e f b 0 0) by (rewrite R1; apply upd_eq).
  destruct (insert_spec v1 l fl' x D1 C1 Hx) as (l1 & l2 & -> & I2 & M2 & S2 & H1 & H2); [by rewrite Hcell..|].
  assert (l2 = []) as ->.
  { destruct l2 as [|y l2]; [done|]. specialize (H2 y eq_refl). rewrite Hcell in H2. cbn in H2.
    assert (Hy : seg_of (regions v1 y) ∈ T) by (rewrite <- E, <- S1; apply segs_elem; exists y; set_solver).
    specialize (Hlt _ Hy). cbn in Hlt. lia. }
  split; [by apply insert_boot|]. split; [by rewrite M2|]. exists (l1 ++ [x]), fl'. split; [done|].
  rewrite (segs_ext v1) by done. rewrite app_nil_r in S1, E. rewrite segs_app, S1, E. cbn [segs map]. by rewrite Hcell.
Qed.

Section Spec.
Context (R : (Z -> list Z) -> Prop) `{!block_stable R}.

Lemma fresh_heap v : vmm_fresh R v ->
  heap_inv R (mm v) (used_page [user_seg; heap_seg]) (free_page [user_seg; heap_seg]).
Proof.
  intros [_ _ _ _ P HU].
  assert (Hno : forall q, ~ used_page [user_seg; heap_seg] q).
  { intros q. rewrite !used_page_cons. pose proof (no_page_nil q) as [? _]. cbn. naive_solver. }
  assert (Hfr : forall q, free_page [user_seg; heap_seg] q -> VMM_USER_START / 4096 <= q < VMM_KERNEL_END / 4096).
  { intros q. rewrite !free_page_cons. unfold seg_has. cbn. pose proof (no_page_nil q) as [_ ?].
    unfold VMM_USER_START, VMM_USER_END, VMM_KERNEL_HEAP, VMM_KERNEL_END. intros Hq. change (0x400000 / 4096) with 1024.
    change (0xC0000000 / 4096) with 786432. intuition lia. }
  split; [done| |auto| |].
  - intros q [Hq|Hq]; [by destruct (Hno q)|]. specialize (Hfr q Hq). unfold page_no.
    change (VMM_USER_START / 4096) with 1024 in Hfr. change (VMM_KERNEL_END / 4096) with 786432 in Hfr. lia.
  - intros q Hq. by destruct (Hno q).
  - intros q q' f Hq. by destruct (Hno q).
Qed.

Lemma vmm_init_spec v : vmm_fresh R v -> vmm_inv R (vmm_init v) [user_seg; heap_seg].
Proof.
  intros F. pose proof F as [F1 [F2 F2'] F3 F4 F5 F6].
  assert (I0 : region_inv v [] []).
  { split; [rewrite F1; apply dlist_nil|]. split; cbn; try set_solver; [unfold VMM_BOOTSTRAP_POOL_SIZE; lia|congruence|constructor]. }
  assert (B0 : boot_room v 3) by (split; [done|]; pool_lia). unfold vmm_init.
  pose proof (append_spec v [] [] [] VMM_KERNEL_START VMM_USER_START (Z.lor (Z.lor VMM_KERNEL VMM_WRITE) VMM_PRESENT)
    false 2 I0 eq_refl B0 ltac:(lia) ltac:(set_solver)) as S.
  destruct (vmm_create_region _ _ _ _ v) as [x1 v1]. destruct S as (Hx1 & B1 & M1 & l1 & fl1 & I1 & E1).
  replace (x1 =? 0) with false by lia. set (w1 := vmm_insert_region x1 v1) in *.
  pose proof (append_spec w1 l1 fl1 _ VMM_USER_START VMM_USER_END (Z.lor VMM_USER VMM_WRITE)
    true 1 I1 E1 B1 ltac:(lia)) as S.
  destruct (vmm_create_region _ _ _ _ w1) as [x2 v2].
  destruct S as (Hx2 & B2 & M2 & l2 & fl2 & I2 & E2); [intros t ->%list_elem_of_singleton; by vm_compute|].
  replace (x2 =? 0) with false by lia. set (w2 := vmm_insert_region x2 v2) in *.
  pose proof (append_spec w2 l2 fl2 _ VMM_KERNEL_HEAP VMM_KERNEL_END (Z.lor VMM_KERNEL VMM_WRITE)
    true 0 I2 E2 B2 ltac:(lia)) as S.
  destruct (vmm_create_region _ _ _ _ w2) as [x3 v3].
  destruct S as (Hx3 & B3 & M3 & l3 & fl3 & I3 & E3).
  { intros t Ht. cbn [app] in Ht. rewrite !elem_of_cons in Ht. destruct Ht as [->|[->|?]]; [by vm_compute..|set_solver]. }
  replace (x3 =? 0) with false by lia. set (w3 := vmm_insert_region x3 v3) in *. split.
  - exists l3, fl3. split; [exact I3|exact E3].
  - by repeat split.
  - rewrite M3, M2, M1. by apply fresh_heap.
Qed.

(** ** The page for region cells *)

Lemma take_heap m U F f p :
  heap_inv R m U F -> paging_inv R (set_pm p m) -> (forall x, pmm_owned p x <-> pmm_owned (pm m) x \/ x = f) ->
  heap_inv R (set_pm p m) U F.
Proof.
  intros [H1 H2 H3 H4 H5] I O. split; [done|done|exact H3| |exact H5].
  intros q Hq. destruct (H4 q Hq) as (g & Hg & Ho & Ht). exists g. split; [exact Hg|]. split; [|exact Ht].
  apply O. by left.
Qed.

Lemma enable_cells v L fl a :
  cells_ok v L fl -> use_dynamic_allocation v = false ->
  bootstrap_pool v + SIZEOF_REGION * VMM_BOOTSTRAP_POOL_SIZE <= PHYS_MAP_BASE -> PHYS_MAP_BASE <= a ->
  cells_ok (mk_vmm (region_list v) (regions v) (bootstrap_pool v) (bootstrap_pool_index v) true a 0
    (vmm_region_free_list v) (total_regions_created v) (total_regions_destroyed v)
    (bootstrap_regions_created v) (dynamic_regions_created v) (mm v)) L [].
Proof.
  intros [C1 C2 C3 C4 C5 C6] Hd Hb Ha.
  assert (fl = []) as ->.
  { destruct fl as [|y fl]; [done|]. destruct (C4 y ltac:(set_solver)) as [? _]. congruence. }
  split; [done| | |set_solver|done|done].
  - intros _. cbn. unfold PHYS_MAP_BASE in *. pool_lia.
  - intros x Hx. destruct (C3 x Hx) as [H|[H _]]; [by left|congruence].
Qed.

Lemma enable_spec v T :
  vmm_inv R v T -> (pmm_alloc_page (pm (mm v))).1 < 2 ^ 30 ->
  bootstrap_pool v + SIZEOF_REGION * VMM_BOOTSTRAP_POOL_SIZE <= PHYS_MAP_BASE ->
  vmm_inv R (vmm_enable_dynamic_allocation v) T.
Proof.
  intros V Ha Hb. pose proof V as [(l & fl & I & E) HT H]. unfold vmm_enable_dynamic_allocation.
  destruct (use_dynamic_allocation v) eqn:Hd; [done|].
  pose proof (take_frame R (mm v) (hi_paging _ _ _ _ H)) as S. destruct (pmm_alloc_page (pm (mm v))) as [a p].
  destruct S as [[-> Ep]|(f & -> & Hf & Hno & I1 & O1)].
  { cbn [Z.eqb]. by rewrite Ep, set_mm_id. }
  replace (4096 * f =? 0) with false by lia. cbn [fst] in Ha.
  unfold PHYS_MAP_BASE at 1. rewrite u32_small by lia.
  destruct I as [D C]. split; [|done|by eapply take_heap].
  exists l, []. split; [|exact E]. split; [exact D|].
  apply (enable_cells (set_mm (set_pm p (mm v)) v) l fl (4096 * f + 3221225472));
    [by destruct C; split|done|done|unfold PHYS_MAP_BASE; lia].
Qed.

(** ** Reachable states *)

(** The segments of the region list, as a walk of the list reads them. *)
Definition vmm_segs (v : vmm) : list seg := segs v (walk LIST_FUEL (regions v) (region_list v)).

Lemma vmm_segs_spec v T : vmm_inv R v T -> vmm_segs v = kernel_seg :: T.
Proof.
  intros [(l & fl & I & E) _ _]. unfold vmm_segs. rewrite (walk_dlist _ _ l); [done|apply I|].
  pose proof (region_fuel _ _ _ (ri_cells _ _ _ I)). lia.
Qed.

(** One call of the interface, with the callers' obligations: sizes below the
    address space, and no release of an address inside a region in use. *)
Inductive vmm_step : vmm -> vmm -> Prop :=
| step_enable v :
    (pmm_alloc_page (pm (mm v))).1 < 2 ^ 30 ->
    bootstrap_pool v + SIZEOF_REGION * VMM_BOOTSTRAP_POOL_SIZE <= PHYS_MAP_BASE ->
    vmm_step v (vmm_enable_dynamic_allocation v)
| step_alloc v pages flags :
    0 <= pages < 2 ^ 20 -> vmm_step v (vmm_alloc pages flags v).2
| step_free v virt pages :
    VMM_USER_START <= virt < 2 ^ 32 -> 0 <= pages < 2 ^ 20 -> not_interior virt (vmm_segs v) ->
    vmm_step v (vmm_free virt pages v).2.

Lemma step_inv v v' T : vmm_inv R v T -> vmm_step v v' -> exists T', vmm_inv R v' T'.
Proof.
  intros V S. destruct S as [v H1 H2|v pages flags Hp|v virt pages Hv Hp Hi].
  - exists T. by apply enable_spec.
  - destruct (decide (pages = 0)) as [->|Hne]; [by exists T|].
    pose proof (vmm_alloc_spec R v T pages flags V ltac:(lia)) as S. destruct (vmm_alloc pages flags v).
    destruct S as (T' & V' & _). by exists T'.
  - assert (Hi' : not_interior virt T).
    { intros s Hs. apply Hi. rewrite (vmm_segs_spec v T V). by right. }
    pose proof (vmm_free_spec R v T virt pages V Hv Hp Hi') as S. destruct (vmm_free virt pages v).
    destruct S as (T' & V' & _). by exists T'.
Qed.
Lemma alloc_keeps v T pages flags T' :
  vmm_inv R v T -> 0 < pages < 2 ^ 20 -> vmm_segs (vmm_alloc pages flags v).2 = kernel_seg :: T' ->
  vmm_inv R (vmm_alloc pages flags v).2 T'.
Proof.
  intros V Hp E. pose proof (vmm_alloc_spec R v T pages flags V Hp) as S.
  destruct (vmm_alloc pages flags v) as [a v']. destruct S as (T2 & V2 & _). cbn [snd] in *.
  rewrite (vmm_segs_spec v' T2 V2) in E. by injection E as ->.
Qed.
End Spec.

(** ** Statistics *)

Definition seg_size (s : seg) : Z := s_end s - s_start s.
Definition total_size (T : list seg) : Z := foldr (fun s n => seg_size s + n) 0 T.
Definition size_of (b : bool) (T : list seg) : Z := total_size (filter (fun s => s_free s = b) T).

Lemma tiled_total a b T : tiled a b T -> total_size T = b - a.
Proof.
  revert a. induction T as [|s T IH]; intros a; cbn [tiled total_size foldr]; [lia|].
  intros (<- & _ & _ & _ & H). apply IH in H. unfold total_size in H. rewrite H. unfold seg_size. lia.
Qed.

Lemma size_of_cons b t T :
  size_of b (t :: T) = (if Bool.eqb (s_free t) b then seg_size t else 0) + size_of b T.
Proof. unfold size_of. rewrite filter_cons. by destruct (s_free t), b. Qed.

Lemma sizes_nonneg T :
  (forall t, t ∈ T -> 0 <= seg_size t) -> 0 <= total_size T /\ forall b, 0 <= size_of b T.
Proof.
  induction T as [|t T IH]; intros Ht; [done|]. destruct IH as [IH1 IH2]; [set_solver|].
  pose proof (Ht t ltac:(set_solver)). split; [cbn; unfold total_size in IH1; lia|].
  intros b. rewrite size_of_cons. specialize (IH2 b). destruct (eqb _ _); lia.
Qed.

(** The counters over the rest of a list whose total does not overflow. *)
Lemma stats_loop_spec rs l : forall fuel pv p s,
  dseg rs pv p l 0 -> (length l < fuel)%nat ->
  let T := map (fun x => seg_of (rs x)) l in
  (forall t, t ∈ T -> 0 <= seg_size t) ->
  0 <= total_virtual_space s -> total_virtual_space s + total_size T < 2 ^ 32 ->
  0 <= used_virtual_space s -> used_virtual_space s + size_of false T < 2 ^ 32 ->
  0 <= free_virtual_space s -> free_virtual_space s + size_of true T < 2 ^ 32 ->
  let s' := stats_loop fuel rs p s in
  total_virtual_space s' = total_virtual_space s + total_size T /\
  used_virtual_space s' = used_virtual_space s + size_of false T /\
  free_virtual_space s' = free_virtual_space s + size_of true T.
Proof.
  induction l as [|x l IH]; intros fuel pv p s D Hf; (destruct fuel as [|fuel]; [cbn in Hf; lia|]); cbn [stats_loop map].
  { cbn in D. subst. intros. cbn in *. lia. }
  destruct D as (-> & Hx & _ & D). replace (x =? 0) with false by lia. set (T := map _ l) in *. cbv zeta.
  intros Ht. pose proof (Ht _ ltac:(by left)) as H0. assert (HtT : forall t, t ∈ T -> 0 <= seg_size t) by set_solver.
  destruct (sizes_nonneg T HtT) as [N1 N2]. pose proof (N2 true) as N3. pose proof (N2 false) as N4.
  change (total_size (seg_of (rs x) :: T)) with (seg_size (seg_of (rs x)) + total_size T). rewrite !size_of_cons.
  specialize (IH fuel x (r_next (rs x)) (stats_region (rs x) s) D ltac:(cbn in Hf; lia) HtT). cbv zeta in IH. revert IH.
  set (s2 := stats_loop _ _ _ _). clearbody s2. unfold stats_region, seg_size in *. cbn [seg_of s_free s_start s_end] in *.
  set (d := r_end (rs x) - r_start (rs x)) in *. intros IH Q1 Q2 Q3 Q4 Q5 Q6.
  destruct (r_is_free (rs x)); cbn [eqb total_virtual_space used_virtual_space free_virtual_space] in *;
    rewrite (u32_small d), !u32_small in IH by lia; lia.
Qed.

(** ** A concrete address space *)

Definition vmm_demo0 : vmm :=
  mk_vmm 0 (fun _ => mk_region 0 0 0 false 0 0) 0x200000 0 false 0 0 0 0 0 0 0 demo_dir.
Definition vmm_demo : vmm := vmm_init vmm_demo0.

Lemma vmm_demo_eq : vmm_init vmm_demo0 = vmm_demo.
Proof. exact eq_refl. Qed.

Lemma zero_unmapped pd p v : translate (mk_mmu (fun _ => 0) pd p) v = None.
Proof. reflexivity. Qed.

Lemma vmm_demo0_fresh : vmm_fresh coalesced vmm_demo0.
Proof.
  split; [reflexivity|split; [reflexivity|reflexivity]|reflexivity|reflexivity|exact demo_dir_inv|].
  intros q _. unfold vmm_demo0, demo_dir. cbn [mm]. destruct (pmm_alloc_page demo). apply zero_unmapped.
Qed.

Lemma vmm_demo_inv : vmm_inv coalesced vmm_demo [user_seg; heap_seg].
Proof. apply vmm_init_spec; [apply _|exact vmm_demo0_fresh]. Qed.

(** ** The theorems *)

(** C5: the address space is always well formed.  After [vmm_init] and any
    sequence of calls of the interface, the region list is the kernel's own region
    followed by regions that tile the rest of the managed range page by page,
    without gap or overlap; every page of a region in use is mapped to a frame
    that belongs to this page alone and is no page table, and no page of a free
    region is mapped. *)
Theorem vmm_reachable_inv R `{!block_stable R} v0 v :
  vmm_fresh R v0 -> rtc vmm_step (vmm_init v0) v ->
  exists T, vmm_segs v = kernel_seg :: T /\ tiled VMM_USER_START VMM_KERNEL_END T /\
    heap_inv R (mm v) (used_page T) (free_page T).
Proof.
  intros F S.
  assert (Hinv : forall w, rtc vmm_step w v -> (exists T, vmm_inv R w T) -> exists T, vmm_inv R v T).
  { clear F S. intros w S. induction S as [|w w' v Hs _ IH]; [done|]. intros [T V]. apply IH.
    exact (step_inv R w w' T V Hs). }
  destruct (Hinv _ S (ex_intro _ _ (vmm_init_spec R v0 F))) as [T V].
  exists T. split; [by eapply vmm_segs_spec|]. split; apply V.
Qed.

Lemma vmm_reachable_inv_witness :
  exists T, vmm_segs (vmm_alloc 2 VMM_WRITE (vmm_enable_dynamic_allocation vmm_demo)).2 = kernel_seg :: T /\
    length T = 3%nat.
Proof.
  assert (H1 : (pmm_alloc_page (pm (mm vmm_demo))).1 < 2 ^ 30) by by_vm.
  assert (H2 : bootstrap_pool vmm_demo + SIZEOF_REGION * VMM_BOOTSTRAP_POOL_SIZE <= PHYS_MAP_BASE) by by_vm.
  assert (H3 : 0 <= 2 < 2 ^ 20) by lia.
  destruct (vmm_reachable_inv coalesced vmm_demo0 (vmm_alloc 2 VMM_WRITE (vmm_enable_dynamic_allocation vmm_demo)).2
    vmm_demo0_fresh) as (T & E & _).
  - rewrite vmm_demo_eq.
    exact (rtc_l _ _ _ _ (step_enable vmm_demo H1 H2) (rtc_once _ _ (step_alloc _ 2 VMM_WRITE H3))).
  - exists T. split; [exact E|]. apply (f_equal (@length seg)) in E. cbn [length] in E.
    apply (f_equal pred) in E. cbn [pred] in E. rewrite <- E. by_vm.
Defined.

(** C10: allocation gives fresh, mapped memory or changes nothing that matters.
    [vmm_alloc] takes the first free region of the requested kind that is large
    enough: it becomes a region in use of exactly the requested size, the rest of
    it stays free, all its pages are mapped to frames nobody owned, and no other
    page is mapped differently.  It returns [NULL] only when no region fits, when
    there is no cell left to split a region, or when fewer than two pages of
    physical memory per requested page are free (one for the page, at most one
    for its table); then the regions in use and all mappings are as before, and the only
    frames taken are page tables. *)
Theorem vmm_alloc_correct R `{!block_stable R} v T pages flags :
  vmm_inv R v T -> 0 < pages < 2 ^ 20 ->
  let '(a, v') := vmm_alloc pages flags v in
  exists T', vmm_inv R v' T' /\ alloc_outcome v T pages flags a v' T'.
Proof. apply (vmm_alloc_spec R). Qed.

Lemma vmm_alloc_correct_witness :
  exists T', vmm_inv coalesced (vmm_alloc 3 VMM_WRITE vmm_demo).2 T' /\
    alloc_outcome vmm_demo [user_seg; heap_seg] 3 VMM_WRITE VMM_KERNEL_HEAP
      (vmm_alloc 3 VMM_WRITE vmm_demo).2 T'.
Proof.
  pose proof (vmm_alloc_correct coalesced vmm_demo [user_seg; heap_seg] 3 VMM_WRITE vmm_demo_inv ltac:(lia)) as H.
  assert (E : (vmm_alloc 3 VMM_WRITE vmm_demo).1 = VMM_KERNEL_HEAP) by by_vm.
  destruct (vmm_alloc 3 VMM_WRITE vmm_demo) as [a v']. cbn [fst] in E. subst a. exact H.
Defined.

(** Release undoes allocation.  When the address and the size name a region
    in use, [vmm_free] returns [true]: the region becomes free and is merged with
    its free neighbours, so that no two neighbours are free, its pages are
    unmapped and exactly their frames are given back.  Otherwise it returns
    [false] and changes nothing. *)
Theorem vmm_free_correct R `{!block_stable R} v T virt pages :
  vmm_inv R v T -> VMM_USER_START <= virt < 2 ^ 32 -> 0 <= pages < 2 ^ 20 -> not_interior virt T ->
  let '(ok, v') := vmm_free virt pages v in
  exists T', vmm_inv R v' T' /\ free_outcome v T virt pages ok v' T'.
Proof. apply (vmm_free_spec R). Qed.

Definition vmm_demo3 : vmm := (vmm_alloc 3 VMM_WRITE vmm_demo).2.

Definition demo3_segs : list seg := [user_seg] ++ taken 3 VMM_WRITE heap_seg :: remainder 3 heap_seg.

Lemma vmm_demo3_eq : vmm_demo3 = (vmm_alloc 3 VMM_WRITE vmm_demo).2.
Proof. unfold vmm_demo3. reflexivity. Qed.

Lemma vmm_demo3_segs : vmm_segs (vmm_alloc 3 VMM_WRITE vmm_demo).2 = kernel_seg :: demo3_segs.
Proof. by_vm. Qed.

Lemma vmm_demo3_inv : vmm_inv coalesced vmm_demo3 demo3_segs.
Proof.
  rewrite vmm_demo3_eq. assert (Hp : 0 < 3 < 2 ^ 20) by lia.
  exact (alloc_keeps coalesced vmm_demo [user_seg; heap_seg] 3 VMM_WRITE demo3_segs vmm_demo_inv Hp vmm_demo3_segs).
Qed.

Lemma demo3_not_interior : not_interior VMM_KERNEL_HEAP demo3_segs.
Proof.
  intros s Hs. unfold demo3_segs in Hs. cbn [app] in Hs.
  rewrite !elem_of_cons in Hs. destruct Hs as [->|[->|Hs]]; [done|done|].
  change (remainder 3 heap_seg) with [mk_seg (VMM_KERNEL_HEAP + 0x3000) VMM_KERNEL_END 2 true] in Hs.
  apply list_elem_of_singleton in Hs as ->. done.
Qed.

Lemma vmm_free_correct_witness :
  exists T', vmm_inv coalesced (vmm_free VMM_KERNEL_HEAP 3 vmm_demo3).2 T' /\
    free_outcome vmm_demo3 demo3_segs VMM_KERNEL_HEAP 3 true (vmm_free VMM_KERNEL_HEAP 3 vmm_demo3).2 T'.
Proof.
  assert (Hv : VMM_USER_START <= VMM_KERNEL_HEAP < 2 ^ 32) by by_vm.
  assert (Hp : 0 <= 3 < 2 ^ 20) by lia.
  pose proof (vmm_free_correct coalesced vmm_demo3 demo3_segs VMM_KERNEL_HEAP 3 vmm_demo3_inv
    Hv Hp demo3_not_interior) as H.
  assert (E : (vmm_free VMM_KERNEL_HEAP 3 vmm_demo3).1 = true) by by_vm.
  destruct (vmm_free VMM_KERNEL_HEAP 3 vmm_demo3) as [ok v']. cbn [fst] in E. subst ok. exact H.
Defined.

(** An allocation can always be released, and leaves no trace but page
    tables.  What [vmm_alloc] returned is accepted by [vmm_free]; afterwards the
    regions in use are those of before the allocation, every page is mapped as
    before, and the only frames the pair has kept are page tables. *)
Theorem vmm_alloc_free_roundtrip R `{!block_stable R} v T pages flags a v1 :
  vmm_inv R v T -> 0 < pages < 2 ^ 20 -> vmm_alloc pages flags v = (a, v1) -> a <> 0 ->
  exists v2 T2, vmm_free a pages v1 = (true, v2) /\ vmm_inv R v2 T2 /\
    used_segs T2 = used_segs T /\ restored (mm v) (mm v2).
Proof.
  intros V Hp E Ha. pose proof (vmm_alloc_spec R v T pages flags V Hp) as S. rewrite E in S.
  destruct S as (T' & V1 & O). pose proof V as [_ HT H].
  destruct O as [? ? _ _ _|T1 s T2 fs v' -> Hf _ M]; [done|].
  destruct (managed_range _ _ _ _ _ (tiled_between _ _ _ _ _ HT) eq_refl eq_refl) as (q & e & Es & Ee & Hq & Hqe & He).
  assert (Hfree : s_free s = true) by (unfold fits in Hf; by destruct (s_free s)).
  assert (Hpe : pages <= e - q) by (unfold fits, PAGE_SIZE in Hf; rewrite Es, Ee, Hfree in Hf; lia).
  assert (Hv : VMM_USER_START <= s_start s < 2 ^ 32) by (unfold VMM_USER_START; lia).
  destruct (vmm_free_accepts R v' _ (s_start s) pages V1 Hv ltac:(lia) T1 (taken pages flags s)
    (remainder pages s ++ T2) eq_refl) as (v2 & E2 & V2 & U2 & _); [done|].
  eexists v2, _. split; [exact E2|]. split; [exact V2|]. split.
  - rewrite merge_all_used. apply (unreserved_used R T1 T2 s pages flags q e); (done || lia).
  - eapply unmapped_restored; [exact M|exact U2|]. unfold PAGE_SIZE. rewrite Es, page_div. intros x Hx.
    assert (Hin : free_page (T1 ++ s :: T2) x).
    { apply free_page_app. right. apply free_page_cons. left. split; [done|]. unfold run, seg_has in *. lia. }
    split; [by apply H|]. apply (hi_free _ _ _ _ (vi_heap _ _ _ V2)).
    pose proof (reserved_tiled R T1 T2 s pages flags q e HT Hfree Es Ee ltac:(lia) Hpe true (Z.lor flags VMM_PRESENT)) as HT4.
    destruct (merge_all_spec _ _ _ HT4) as (_ & _ & HF & _). apply HF.
    by apply (unreserved_free R T1 T2 s pages flags q e); (done || lia).
Qed.

Lemma vmm_alloc_free_roundtrip_witness :
  exists v2 T2, vmm_free VMM_KERNEL_HEAP 3 vmm_demo3 = (true, v2) /\ vmm_inv coalesced v2 T2 /\
    used_segs T2 = [] /\ restored (mm vmm_demo) (mm v2).
Proof.
  assert (Hp : 0 < 3 < 2 ^ 20) by lia.
  assert (E : (vmm_alloc 3 VMM_WRITE vmm_demo).1 = VMM_KERNEL_HEAP) by by_vm.
  assert (Hz : VMM_KERNEL_HEAP <> 0) by discriminate. rewrite vmm_demo3_eq.
  pose proof (vmm_alloc_free_roundtrip coalesced vmm_demo [user_seg; heap_seg] 3 VMM_WRITE VMM_KERNEL_HEAP
    (vmm_alloc 3 VMM_WRITE vmm_demo).2 vmm_demo_inv Hp) as H.
  destruct (vmm_alloc 3 VMM_WRITE vmm_demo) as [a v1]. cbn [fst snd] in *. subst a.
  exact (H eq_refl Hz).
Defined.

(** [vmm_free] does not compare the address with the start of the region it
    finds.  Releasing three pages from the second page of a region of three pages
    is accepted: the whole region is free again for the allocator, but its first
    page is still mapped, so that a later allocation of it loses the frame. *)
Theorem vmm_free_interior_accepted :
  let '(ok, v') := vmm_free (VMM_KERNEL_HEAP + PAGE_SIZE) 3 vmm_demo3 in
  ok = true /\ vmm_segs v' = [kernel_seg; mk_seg VMM_USER_START VMM_KERNEL_END (s_flags user_seg) true] /\
  paging_is_mapped VMM_KERNEL_HEAP (mm v') = true.
Proof. by_vm. Qed.

(** Merging may take the kernel heap away from the kernel.  The user range
    ends where the kernel heap starts; once the first region of the heap has been
    allocated and released, the free region that contains it starts in the user
    range, and kernel allocations are refused although the whole heap is free. *)
Theorem vmm_kernel_heap_lost :
  let '(a, v1) := vmm_kernel_alloc 4096 vmm_demo in
  let v2 := vmm_kernel_free a 4096 v1 in
  a = VMM_KERNEL_HEAP /\ used_segs (vmm_segs v2) = [kernel_seg] /\ (vmm_kernel_alloc 4096 v2).1 = 0.
Proof. by_vm. Qed.

(** The statistics account for the whole address space.  In every reachable
    state the total is the size of the managed range, and the used and free
    amounts are the sizes of the regions in use and of the free regions. *)
Theorem vmm_get_stats_exact R `{!block_stable R} v T :
  vmm_inv R v T ->
  let st := vmm_get_stats v in
  total_virtual_space st = VMM_KERNEL_END - VMM_KERNEL_START /\
  used_virtual_space st = size_of false (kernel_seg :: T) /\
  free_virtual_space st = size_of true T /\
  used_virtual_space st + free_virtual_space st = total_virtual_space st.
Proof.
  intros [(l & fl & I & E) HT _]. apply kernel_tiled in HT. pose proof (tiled_total _ _ _ HT) as Htot.
  assert (Hnn : forall t, t ∈ kernel_seg :: T -> 0 <= seg_size t).
  { intros t Ht. destruct (tiled_in _ _ _ _ HT Ht). unfold seg_size. lia. }
  destruct (sizes_nonneg _ Hnn) as [N1 N2]. pose proof (N2 true) as N3. pose proof (N2 false) as N4.
  assert (Hsum : forall T, size_of false T + size_of true T = total_size T).
  { clear. induction T as [|t T IH]; [done|]. rewrite !size_of_cons. cbn [total_size foldr]. fold (total_size T).
    destruct (s_free t); cbn [eqb]; lia. }
  specialize (Hsum (kernel_seg :: T)). pose proof (region_fuel _ _ _ (ri_cells _ _ _ I)) as Hf.
  unfold segs in E. pose proof (stats_loop_spec (regions v) l LIST_FUEL 0 (region_list v)
    (mk_stats 0 0 0 0 0 0 VMM_KERNEL_HEAP 0) ltac:(apply I) ltac:(lia)) as S. cbv zeta in S. rewrite E in S.
  cbn [total_virtual_space used_virtual_space free_virtual_space] in S. rewrite Htot in *.
  unfold VMM_KERNEL_START, VMM_KERNEL_END in *.
  destruct S as (S1 & S2 & S3); [done|lia..|]. fold (vmm_get_stats v) in S1, S2, S3. cbv zeta.
  assert (Ht : size_of true (kernel_seg :: T) = size_of true T) by (by rewrite size_of_cons). lia.
Qed.

Lemma vmm_get_stats_exact_witness : used_virtual_space (vmm_get_stats vmm_demo3) = 0x300000 + 0x3000.
Proof.
  destruct (vmm_get_stats_exact coalesced vmm_demo3 demo3_segs vmm_demo3_inv) as (_ & -> & _). reflexivity.
Defined.
