(* ===== verification/LibTime.v ===== *)
(** Calendar arithmetic: a model of [src/libtime/src].

    The library counts milliseconds from 1 January 2001, midnight UTC.  [/] and
    [%] are C's truncating division and remainder ([Z.quot], [Z.rem]); fields of
    [libtime_datetime_t] are truncated to their width when they are stored. *)

From S2P Require Import Prelude.
From Stdlib Require Import ZArith Lia Bool.
From stdpp Require Import base tactics numbers list.
Open Scope Z_scope.

Record libtime_datetime := mk_dt {
  year : Z; month : Z; day : Z; hour : Z; minute : Z; second : Z; millis : Z }.

Definition libtime_days_since_epoch (year month day : Z) : Z :=
  let '(year, month) := if month <=? 2 then (u16 (year - 1), u8 (month + 12)) else (year, month) in
  let era := Z.quot year 400 in
  let yoe := year - era * 400 in
  let doy := Z.quot (153 * (month - 3) + 2) 5 + day - 1 in
  let doe := yoe * 365 + Z.quot yoe 4 - Z.quot yoe 100 + Z.quot yoe 400 + doy in
  era * 146097 + doe - 730791.

Definition libtime_datetime_to_timestamp (dt : option libtime_datetime) : Z :=
  match dt with
  | None => 0
  | Some dt =>
      let res := libtime_days_since_epoch (year dt) (month dt) (day dt) in
      let res := res * 24 + hour dt in
      let res := res * 60 + minute dt in
      let res := res * 60 + second dt in
      res * 1000 + millis dt
  end.

Definition MS_PER_DAY : Z := 24 * 60 * 60 * 1000.

(** The second half of [libtime_timestamp_to_datetime]: year, month and day from
    the day number; the locals are [int]s. *)
Definition days_to_date (ts : Z) : Z * Z * Z :=
  let ts := ts + 730791 in
  let era := i32 (Z.quot (if 0 <=? ts then ts else ts - 146096) 146097) in
  let doe := i32 (ts - era * 146097) in
  let yoe := Z.quot (doe - Z.quot doe 1460 + Z.quot doe 36524 - Z.quot doe 146096) 365 in
  let y := yoe + era * 400 in
  let doy := doe - (365 * yoe + Z.quot yoe 4 - Z.quot yoe 100) in
  let mp := Z.quot (5 * doy + 2) 153 in
  let d := doy - Z.quot (153 * mp + 2) 5 + 1 in
  let m := if mp <? 10 then mp + 3 else mp - 9 in
  (u16 (y + (if m <=? 2 then 1 else 0)), u8 m, u8 d).

(** The result is what is stored through the pointer, which is not [NULL]. *)
Definition libtime_timestamp_to_datetime (ts : Z) : libtime_datetime :=
  let ms := Z.rem ts MS_PER_DAY in
  let ms := if ms <? 0 then ms + MS_PER_DAY else ms in
  let ts := Z.quot (ts - ms) MS_PER_DAY in
  let millis := Z.rem ms 1000 in
  let ms := Z.quot ms 1000 in
  let second := Z.rem ms 60 in
  let ms := Z.quot ms 60 in
  let minute := Z.rem ms 60 in
  let hour := Z.quot ms 60 in
  let '(y, m, d) := days_to_date ts in
  mk_dt y m d (u8 hour) (u8 minute) (u8 second) (u16 millis).

Definition libtime_weekday_from_days (year month day : Z) : Z :=
  let z := libtime_days_since_epoch year month day in
  u8 (if -1 <=? z then Z.rem (z + 1) 7 else Z.rem (z + 2) 7 + 6).

Definition UNIX_EPOCH_OFFSET : Z := 978307200.

(** [time_t] is a 64-bit integer. *)
Definition libtime_timestamp_to_unix (timestamp : Z) : Z :=
  Z.quot timestamp 1000 + UNIX_EPOCH_OFFSET.

Definition libtime_unix_to_timestamp (unix_ts : Z) : Z :=
  (unix_ts - UNIX_EPOCH_OFFSET) * 1000.

(** ** The calendar *)

Definition is_leap (y : Z) : bool :=
  (y mod 4 =? 0) && (negb (y mod 100 =? 0) || (y mod 400 =? 0)).

Definition days_in_month (y m : Z) : Z :=
  if m =? 2 then (if is_leap y then 29 else 28)
  else if (m =? 4) || (m =? 6) || (m =? 9) || (m =? 11) then 30 else 31.

Definition valid_date (y m d : Z) : Prop := 1 <= m <= 12 /\ 1 <= d <= days_in_month y m.

(** The day after, by the rules of the Gregorian calendar. *)
Definition next_date (y m d : Z) : Z * Z * Z :=
  if d <? days_in_month y m then (y, m, d + 1)
  else if m <? 12 then (y, m + 1, 1)
  else (y + 1, 1, 1).

Definition valid_datetime (dt : libtime_datetime) : Prop :=
  1 <= year dt < 2 ^ 16 /\ valid_date (year dt) (month dt) (day dt) /\
  0 <= hour dt < 24 /\ 0 <= minute dt < 60 /\ 0 <= second dt < 60 /\ 0 <= millis dt < 1000.

(** ** Days *)

(** Years counted from March, so that the leap day comes last. *)
Definition march_year (y m : Z) : Z := if m <=? 2 then y - 1 else y.
Definition march_month (m : Z) : Z := if m <=? 2 then m + 9 else m - 3.
Definition year_days (Y : Z) : Z := 365 * Y + Y / 4 - Y / 100 + Y / 400.
Definition month_days (mp : Z) : Z := (153 * mp + 2) / 5.

Lemma era_days Y :
  0 <= Y -> let era := Y / 400 in let yoe := Y - era * 400 in
  era * 146097 + (yoe * 365 + yoe / 4 - yoe / 100 + yoe / 400) = year_days Y.
Proof. intros H. cbv zeta. unfold year_days. dlia. Qed.

Lemma days_since_epoch_spec y m d :
  1 <= y < 2 ^ 16 -> 1 <= m <= 12 -> 1 <= d ->
  libtime_days_since_epoch y m d = year_days (march_year y m) + month_days (march_month m) + d - 1 - 730791.
Proof.
  intros Hy Hm Hd. unfold libtime_days_since_epoch, march_year, march_month, month_days.
  destruct (Z.leb_spec m 2).
  - rewrite u16_small, u8_small by lia. replace (153 * (m + 12 - 3) + 2) with (153 * (m + 9) + 2) by lia.
    rewrite !Z.quot_div_nonneg by (try apply Z.quot_pos; dlia). rewrite <- (era_days (y - 1)) by lia. lia.
  - rewrite !Z.quot_div_nonneg by (try apply Z.quot_pos; dlia). rewrite <- (era_days y) by lia. lia.
Qed.

Lemma year_days_leap y : 1 <= y -> year_days y = year_days (y - 1) + 365 + (if is_leap y then 1 else 0).
Proof.
  intros Hy. unfold year_days, is_leap. destruct (Z.eqb_spec (y mod 4) 0), (Z.eqb_spec (y mod 100) 0),
    (Z.eqb_spec (y mod 400) 0); cbn [andb orb negb]; dlia.
Qed.

(** The length of a month is the distance of the months' first days. *)
Lemma month_length y m :
  1 <= m <= 12 -> m <> 2 -> days_in_month y m = month_days (march_month m + 1) - month_days (march_month m).
Proof.
  intros Hm Hne. assert (m = 1 \/ m = 3 \/ m = 4 \/ m = 5 \/ m = 6 \/ m = 7 \/ m = 8 \/ m = 9 \/ m = 10 \/ m = 11 \/ m = 12)
    as Hcases by lia. by repeat destruct Hcases as [->|Hcases]; try subst m.
Qed.

Lemma next_date_days y m d :
  1 <= y < 2 ^ 16 -> valid_date y m d -> (y, m, d) <> (65535, 12, 31) ->
  let '(y', m', d') := next_date y m d in
  1 <= y' < 2 ^ 16 /\ libtime_days_since_epoch y' m' d' = libtime_days_since_epoch y m d + 1.
Proof.
  intros Hy [Hm Hd] Hlast. unfold next_date. destruct (Z.ltb_spec d (days_in_month y m)).
  { split; [lia|]. rewrite !days_since_epoch_spec by lia. lia. }
  assert (d = days_in_month y m) as -> by lia.
  destruct (decide (m = 2)) as [->|Hne].
  { split; [lia|]. cbn [Z.ltb Z.compare Pos.compare Pos.compare_cont]. rewrite !days_since_epoch_spec by lia.
    change (2 + 1) with 3. change (march_year y 3) with y. change (march_year y 2) with (y - 1). rewrite (year_days_leap y) by lia.
    change (days_in_month y 2) with (if is_leap y then 29 else 28).
    change (month_days (march_month 3)) with 0. change (month_days (march_month 2)) with 337.
    destruct (is_leap y); lia. }
  pose proof (month_length y m Hm Hne) as L. destruct (Z.ltb_spec m 12).
  - split; [lia|]. rewrite !days_since_epoch_spec by lia. rewrite L. unfold march_year, march_month.
    destruct (Z.leb_spec m 2), (Z.leb_spec (m + 1) 2); try lia; replace (m + 1 + 9) with (m + 9 + 1) by lia;
      replace (m + 1 - 3) with (m - 3 + 1) by lia; lia.
  - assert (m = 12) as -> by lia. assert (y <> 65535) by (by intros ->). split; [lia|]. rewrite !days_since_epoch_spec by lia. rewrite L.
    unfold march_year. cbn [Z.leb Z.compare Pos.compare Pos.compare_cont]. replace (y + 1 - 1) with y by lia.
    change (march_month 12) with 9. change (march_month 1) with 10. change (9 + 1) with 10. lia.
Qed.

(** ** Dates from days *)

(** The year of the era, from the day of the era. *)
Lemma year_of_era yoe doy :
  0 <= yoe < 400 -> 0 <= doy <= 365 -> (doy = 365 -> is_leap (yoe + 1) = true) ->
  let doe := 365 * yoe + yoe / 4 - yoe / 100 + doy in
  (doe - doe / 1460 + doe / 36524 - doe / 146096) / 365 = yoe /\ 0 <= doe < 146097.
Proof.
  intros H1 H2 H3. cbv zeta.
  assert (H3' : doy = 365 -> (yoe + 1) mod 4 = 0 /\ ((yoe + 1) mod 100 <> 0 \/ yoe = 399)).
  { intros E. specialize (H3 E). unfold is_leap in H3. dlia. } clear H3.
  assert (exists c, yoe / 100 = c /\ (c = 0 \/ c = 1 \/ c = 2 \/ c = 3)) as (c & Hc & Hcc)
    by (exists (yoe / 100); split; [reflexivity|dlia]).
  assert (exists r, yoe = 100 * c + r /\ 0 <= r < 100) as (r & -> & Hr) by (exists (yoe mod 100); dlia).
  destruct Hcc as [->|[->|[->| ->]]]; dlia.
Qed.

(** Month and day of the month, from the day of a year that starts in March. *)
Lemma month_of_doy mp d :
  0 <= mp <= 11 -> 1 <= d <= 31 -> d <= month_days (mp + 1) - month_days mp ->
  let doy := month_days mp + d - 1 in (5 * doy + 2) / 153 = mp /\ 0 <= doy <= 366.
Proof.
  intros Hmp Hd Hlen. cbv zeta. unfold month_days in *.
  assert (mp = 0 \/ mp = 1 \/ mp = 2 \/ mp = 3 \/ mp = 4 \/ mp = 5 \/ mp = 6 \/ mp = 7 \/ mp = 8 \/ mp = 9 \/ mp = 10 \/ mp = 11)
    as Hcases by lia.
  repeat (destruct Hcases as [->|Hcases]; [cbn in *; dlia|]). subst. cbn in *. dlia.
Qed.

Lemma is_leap_era Y : is_leap (Y - Y / 400 * 400 + 1) = is_leap (Y + 1).
Proof.
  unfold is_leap. replace ((Y - Y / 400 * 400 + 1) mod 4) with ((Y + 1) mod 4) by dlia.
  replace ((Y - Y / 400 * 400 + 1) mod 100) with ((Y + 1) mod 100) by dlia.
  by replace ((Y - Y / 400 * 400 + 1) mod 400) with ((Y + 1) mod 400) by dlia.
Qed.

(** A valid date has a valid position in its era. *)
Lemma valid_position y m d :
  1 <= y < 2 ^ 16 -> valid_date y m d ->
  let mp := march_month m in let doy := month_days mp + d - 1 in
  0 <= mp <= 11 /\ 1 <= d <= 31 /\ d <= month_days (mp + 1) - month_days mp /\ 0 <= doy <= 365 /\
  (doy = 365 -> is_leap (march_year y m + 1) = true).
Proof.
  intros Hy [Hm Hd]. cbv zeta.
  assert (Hlen : days_in_month y m <= 31) by (unfold days_in_month; repeat case_match; lia).
  destruct (decide (m = 2)) as [->|Hne].
  - change (march_month 2) with 11. change (month_days 11) with 337. change (month_days (11 + 1)) with 367.
    unfold march_year. cbn [Z.leb Z.compare Pos.compare Pos.compare_cont]. replace (y - 1 + 1) with y by lia.
    unfold days_in_month in *. cbn in Hd. destruct (is_leap y); repeat split; (lia || done).
  - rewrite (month_length y m Hm Hne) in *. unfold march_month in *. destruct (Z.leb_spec m 2).
    + assert (m = 1) as -> by lia. change (month_days (1 + 9)) with 306 in *. change (month_days (1 + 9 + 1)) with 337 in *.
      repeat split; lia.
    + assert (Hmd : month_days (m - 3 + 1) <= 306) by (unfold month_days; dlia).
      assert (0 <= month_days (m - 3)) by (unfold month_days; dlia). repeat split; lia.
Qed.

Lemma days_to_date_inv y m d :
  1 <= y < 2 ^ 16 -> valid_date y m d -> days_to_date (libtime_days_since_epoch y m d) = (y, m, d).
Proof.
  intros Hy V. destruct (valid_position y m d Hy V) as (Hmp & Hd & Hlen & Hdoy & Hleap).
  pose proof V as [Hm Hd']. set (Y := march_year y m) in *. set (mp := march_month m) in *.
  assert (HY : 0 <= Y < 2 ^ 16) by (unfold Y, march_year; destruct (_ <=? _); lia).
  set (yoe := Y - Y / 400 * 400). assert (Hyoe : 0 <= yoe < 400) by (unfold yoe; dlia).
  set (doy := month_days mp + d - 1) in *.
  destruct (year_of_era yoe doy Hyoe Hdoy) as [Eyoe Hdoe].
  { intros E. unfold yoe. rewrite is_leap_era. auto. }
  destruct (month_of_doy mp d Hmp Hd Hlen) as [Emp _]. fold doy in Emp.
  set (doe := 365 * yoe + yoe / 4 - yoe / 100 + doy) in *.
  assert (Ez : libtime_days_since_epoch y m d + 730791 = Y / 400 * 146097 + doe).
  { rewrite days_since_epoch_spec by lia. fold Y mp. rewrite <- (era_days Y) by lia. unfold doe, doy, yoe. dlia. }
  assert (He : 0 <= Y / 400 < 164) by dlia.
  unfold days_to_date. rewrite Ez. replace (0 <=? _) with true by lia.
  rewrite (Z.quot_div_nonneg (_ + doe)) by lia.
  replace ((Y / 400 * 146097 + doe) / 146097) with (Y / 400) by (rewrite Z.div_add_l by lia; rewrite (Z.div_small doe); lia).
  rewrite (i32_small (Y / 400)) by lia. replace (Y / 400 * 146097 + doe - Y / 400 * 146097) with doe by lia.
  rewrite (i32_small doe) by lia. rewrite !(Z.quot_div_nonneg doe) by lia.
  rewrite (Z.quot_div_nonneg (doe - _ + _ - _)), Eyoe by dlia. rewrite !(Z.quot_div_nonneg yoe) by lia.
  replace (doe - (365 * yoe + yoe / 4 - yoe / 100)) with doy by (unfold doe; lia).
  rewrite (Z.quot_div_nonneg (5 * doy + 2)), Emp by lia. rewrite (Z.quot_div_nonneg (153 * mp + 2)) by lia.
  fold (month_days mp). replace (doy - month_days mp + 1) with d by (unfold doy; lia).
  replace (if mp <? 10 then mp + 3 else mp - 9) with m
    by (unfold mp, march_month; destruct (Z.leb_spec m 2), (Z.ltb_spec (m + 9) 10), (Z.ltb_spec (m - 3) 10); lia).
  replace (yoe + Y / 400 * 400) with Y by (unfold yoe; lia).
  replace (Y + (if m <=? 2 then 1 else 0)) with y by (unfold Y, march_year; destruct (m <=? 2); lia).
  by rewrite u16_small, !u8_small by lia.
Qed.

Lemma next_date_valid y m d :
  valid_date y m d -> let '(y', m', d') := next_date y m d in valid_date y' m' d'.
Proof.
  intros [Hm Hd]. unfold next_date, valid_date. destruct (Z.ltb_spec d (days_in_month y m)); [lia|].
  assert (Hpos : forall y m, 28 <= days_in_month y m) by (intros; unfold days_in_month; repeat case_match; lia).
  destruct (Z.ltb_spec m 12); [pose proof (Hpos y (m + 1))|pose proof (Hpos (y + 1) 1)]; lia.
Qed.

Definition FIRST_DAY : Z := libtime_days_since_epoch 1 1 1.
Definition LAST_DAY : Z := libtime_days_since_epoch 65535 12 31.

(** Every day of the range is the day of a valid date. *)
Lemma day_has_date N :
  FIRST_DAY <= N <= LAST_DAY ->
  exists y m d, 1 <= y < 2 ^ 16 /\ valid_date y m d /\ libtime_days_since_epoch y m d = N.
Proof.
  intros HN. replace N with (FIRST_DAY + Z.of_nat (Z.to_nat (N - FIRST_DAY))) by lia.
  assert (Hn : FIRST_DAY + Z.of_nat (Z.to_nat (N - FIRST_DAY)) <= LAST_DAY) by lia.
  revert Hn. generalize (Z.to_nat (N - FIRST_DAY)) as n. clear HN N.
  induction n as [|n IH]; intros Hn.
  { exists 1, 1, 1. rewrite Z.add_0_r. split; [lia|]. split; [by vm_compute|done]. }
  destruct IH as (y & m & d & Hy & V & E); [lia|].
  assert (Hlast : (y, m, d) <> (65535, 12, 31)) by (intros [= -> -> ->]; unfold LAST_DAY in Hn; lia).
  pose proof (next_date_days y m d Hy V Hlast) as Hnext. pose proof (next_date_valid y m d V) as Hvalid.
  destruct (next_date y m d) as [[y' m'] d']. destruct Hnext as [Hy' E']. exists y', m', d'.
  split; [done|]. split; [done|]. lia.
Qed.

(** ** The time of day *)

Lemma floor_parts ts :
  let ms := Z.rem ts MS_PER_DAY in
  let ms := if ms <? 0 then ms + MS_PER_DAY else ms in
  ms = ts mod MS_PER_DAY /\ Z.quot (ts - ms) MS_PER_DAY = ts / MS_PER_DAY.
Proof.
  cbv zeta. unfold MS_PER_DAY. change (24 * 60 * 60 * 1000) with 86400000.
  assert (E : (if Z.rem ts 86400000 <? 0 then Z.rem ts 86400000 + 86400000 else Z.rem ts 86400000) = ts mod 86400000).
  { destruct (Z.ltb_spec (Z.rem ts 86400000) 0); dlia. }
  rewrite E. split; [done|]. replace (ts - ts mod 86400000) with (ts / 86400000 * 86400000) by dlia.
  apply Z.quot_mul. lia.
Qed.

Lemma timestamp_to_datetime_spec ts y m d :
  days_to_date (ts / MS_PER_DAY) = (y, m, d) ->
  let t := ts mod MS_PER_DAY in
  libtime_timestamp_to_datetime ts =
    mk_dt y m d (t / 3600000) (t / 60000 mod 60) (t / 1000 mod 60) (t mod 1000).
Proof.
  intros E. cbv zeta. unfold libtime_timestamp_to_datetime. destruct (floor_parts ts) as [E1 E2]. cbv zeta in *.
  rewrite E1 in *. rewrite E2, E. unfold MS_PER_DAY. change (24 * 60 * 60 * 1000) with 86400000.
  assert (Ht : 0 <= ts mod 86400000 < 86400000) by dlia. set (t := ts mod 86400000) in *.
  rewrite !(Z.rem_mod_nonneg), !Z.quot_div_nonneg by (try apply Z.quot_pos; try apply Z.quot_pos; lia).
  rewrite !Z.div_div by lia. change (1000 * (60 * 60)) with 3600000. change (1000 * 60) with 60000.
  assert (B : 0 <= t / 3600000 < 24 /\ 0 <= t / 60000 mod 60 < 60 /\ 0 <= t / 1000 mod 60 < 60 /\ 0 <= t mod 1000 < 1000)
    by (clear -Ht; dlia).
  rewrite !u8_small, u16_small by (clear -B; lia). done.
Qed.

(** ** The theorems *)

(** The day number follows the Gregorian calendar.  1 January 2001 is day 0,
    and for every valid date from the year 1 on the day after, by the rules for
    month lengths and leap years, has the next number. *)
Theorem days_since_epoch_calendar y m d :
  1 <= y < 2 ^ 16 -> valid_date y m d -> (y, m, d) <> (65535, 12, 31) ->
  libtime_days_since_epoch 2001 1 1 = 0 /\
  let '(y', m', d') := next_date y m d in
  libtime_days_since_epoch y' m' d' = libtime_days_since_epoch y m d + 1.
Proof.
  intros Hy V Hl. split; [reflexivity|]. pose proof (next_date_days y m d Hy V Hl) as H.
  destruct (next_date y m d) as [[y' m'] d']. apply H.
Qed.

Lemma days_since_epoch_calendar_witness :
  libtime_days_since_epoch 2000 3 1 = libtime_days_since_epoch 2000 2 29 + 1.
Proof.
  apply (days_since_epoch_calendar 2000 2 29); [lia|by vm_compute|discriminate].
Defined.

(** A date and time survives the conversion to a timestamp and back. *)
Theorem datetime_roundtrip dt :
  valid_datetime dt -> libtime_timestamp_to_datetime (libtime_datetime_to_timestamp (Some dt)) = dt.
Proof.
  intros (Hy & V & H1 & H2 & H3 & H4). unfold libtime_datetime_to_timestamp.
  set (N := libtime_days_since_epoch _ _ _). set (t := ((hour dt * 60 + minute dt) * 60 + second dt) * 1000 + millis dt).
  assert (Ht : 0 <= t < 86400000) by (unfold t; lia).
  replace ((((N * 24 + hour dt) * 60 + minute dt) * 60 + second dt) * 1000 + millis dt) with (N * 86400000 + t) by (unfold t; lia).
  assert (Ed : (N * 86400000 + t) / MS_PER_DAY = N)
    by (unfold MS_PER_DAY; change (24 * 60 * 60 * 1000) with 86400000; dlia).
  assert (Em : (N * 86400000 + t) mod MS_PER_DAY = t)
    by (unfold MS_PER_DAY; change (24 * 60 * 60 * 1000) with 86400000; dlia).
  rewrite (timestamp_to_datetime_spec _ (year dt) (month dt) (day dt)).
  - rewrite Em. destruct dt as [y m d h mi s ms]. cbn in *. unfold t. f_equal; dlia.
  - rewrite Ed. unfold N. by apply days_to_date_inv.
Qed.

Lemma datetime_roundtrip_witness :
  libtime_timestamp_to_datetime (libtime_datetime_to_timestamp (Some (mk_dt 1999 12 31 23 59 58 997))) =
  mk_dt 1999 12 31 23 59 58 997.
Proof. apply datetime_roundtrip. by vm_compute. Defined.

(** Every timestamp of the years 1 to 65535 is the timestamp of a valid date
    and time, the one the conversion computes; this holds before the epoch too,
    where timestamps are negative. *)
Theorem timestamp_roundtrip ts :
  FIRST_DAY * MS_PER_DAY <= ts < (LAST_DAY + 1) * MS_PER_DAY ->
  valid_datetime (libtime_timestamp_to_datetime ts) /\
  libtime_datetime_to_timestamp (Some (libtime_timestamp_to_datetime ts)) = ts.
Proof.
  intros Hts. destruct (day_has_date (ts / MS_PER_DAY)) as (y & m & d & Hy & V & E).
  { unfold MS_PER_DAY in *. change (24 * 60 * 60 * 1000) with 86400000 in *. dlia. }
  rewrite (timestamp_to_datetime_spec ts y m d) by (rewrite <- E; by apply days_to_date_inv).
  unfold MS_PER_DAY in *. change (24 * 60 * 60 * 1000) with 86400000 in *. split.
  - split; [done|]. split; [done|]. cbn. dlia.
  - unfold libtime_datetime_to_timestamp. cbn [year month day hour minute second millis]. rewrite E. clear. dlia.
Qed.

Lemma timestamp_roundtrip_witness :
  valid_datetime (libtime_timestamp_to_datetime (-1)) /\
  libtime_datetime_to_timestamp (Some (libtime_timestamp_to_datetime (-1))) = -1.
Proof. apply timestamp_roundtrip. by vm_compute. Defined.

(** Weekdays are numbered from Sunday, 1 January 2001 is a Monday, and each
    day's weekday follows the one of the day before, also before the epoch. *)
Theorem weekday_follows y m d :
  1 <= y < 2 ^ 16 -> valid_date y m d -> (y, m, d) <> (65535, 12, 31) ->
  libtime_weekday_from_days 2001 1 1 = 1 /\ 0 <= libtime_weekday_from_days y m d < 7 /\
  let '(y', m', d') := next_date y m d in
  libtime_weekday_from_days y' m' d' = (libtime_weekday_from_days y m d + 1) mod 7.
Proof.
  intros Hy V Hl. split; [reflexivity|]. pose proof (next_date_days y m d Hy V Hl) as H.
  assert (Hw : forall z, u8 (if -1 <=? z then Z.rem (z + 1) 7 else Z.rem (z + 2) 7 + 6) = (z + 1) mod 7).
  { intros z. destruct (Z.leb_spec (-1) z); rewrite u8_small; dlia. }
  destruct (next_date y m d) as [[y' m'] d']. unfold libtime_weekday_from_days. rewrite !Hw.
  destruct H as [_ ->]. split; dlia.
Qed.

Lemma weekday_follows_witness :
  libtime_weekday_from_days 2000 12 31 = (libtime_weekday_from_days 2000 12 30 + 1) mod 7.
Proof. apply (weekday_follows 2000 12 30); [lia|by vm_compute|discriminate]. Defined.

(** Unix time survives the conversion to a timestamp and back, and whole
    seconds survive the other way. *)
Theorem unix_roundtrip t :
  libtime_timestamp_to_unix (libtime_unix_to_timestamp t) = t /\
  libtime_unix_to_timestamp (libtime_timestamp_to_unix (1000 * t)) = 1000 * t.
Proof.
  unfold libtime_timestamp_to_unix, libtime_unix_to_timestamp. rewrite Z.quot_mul by lia.
  rewrite (Z.mul_comm 1000 t), Z.quot_mul by lia. lia.
Qed.
