(* ===== verification/CMem.v ===== *)
(** Memory blocks: a model of [memcpy], [memmove], [memset] and [memcmp] of
    [src/libc/src/string], which kernel and user programs share.

    The memory is a store of bytes; the functions copy and fill in 32-bit words
    once the destination is aligned.  Pointers are addresses; blocks do not wrap
    around the end of the address space. *)

From S2P Require Import Prelude.
From Stdlib Require Import ZArith Lia Bool.
From stdpp Require Import base tactics numbers list.
Open Scope Z_scope.

Abbreviation memory := (Z -> Z) (only parsing).

(** 32-bit accesses, least significant byte first. *)
Definition load32 (m : memory) (a : Z) : Z :=
  m a + 2 ^ 8 * m (a + 1) + 2 ^ 16 * m (a + 2) + 2 ^ 24 * m (a + 3).
Definition store32 (m : memory) (a w : Z) : memory :=
  m.[a <- u8 w].[a + 1 <- u8 (w / 2 ^ 8)].[a + 2 <- u8 (w / 2 ^ 16)].[a + 3 <- u8 (w / 2 ^ 24)].

Definition bytes (m : memory) : Prop := forall a, 0 <= m a < 256.

(** ** The loops

    Each returns the pointers, the remaining size and the memory. *)

Record copying := mk_copying { c_dst : Z; c_src : Z; c_size : Z; c_mem : memory }.

(** [while (size > 0 && ((uintptr_t)dst & 3)) { *dst++ = *src++; size--; }] *)
Fixpoint copy_head (fuel : nat) (c : copying) : copying :=
  match fuel with
  | O => c
  | S fuel =>
      let '(mk_copying dst src size m) := c in
      if (0 <? size) && negb (Z.land dst 3 =? 0)
      then copy_head fuel (mk_copying (dst + 1) (src + 1) (size - 1) m.[dst <- m src])
      else c
  end.

(** [while (size >= 4) { *d32++ = *s32++; size -= 4; }] *)
Fixpoint copy_words (fuel : nat) (c : copying) : copying :=
  match fuel with
  | O => c
  | S fuel =>
      let '(mk_copying dst src size m) := c in
      if 4 <=? size
      then copy_words fuel (mk_copying (dst + 4) (src + 4) (size - 4) (store32 m dst (load32 m src)))
      else c
  end.

(** [while (size--) { *dst++ = *src++; }] *)
Fixpoint copy_tail (fuel : nat) (c : copying) : copying :=
  match fuel with
  | O => c
  | S fuel =>
      let '(mk_copying dst src size m) := c in
      if size =? 0 then c
      else copy_tail fuel (mk_copying (dst + 1) (src + 1) (size - 1) m.[dst <- m src])
  end.

Definition memcpy (dst src size : Z) (m : memory) : memory :=
  let n := Z.to_nat size in
  c_mem (copy_tail n (copy_words n (copy_head n (mk_copying dst src size m)))).

(** The same loops towards lower addresses, for [memmove]. *)
Fixpoint copy_head_back (fuel : nat) (c : copying) : copying :=
  match fuel with
  | O => c
  | S fuel =>
      let '(mk_copying dst src size m) := c in
      if (0 <? size) && negb (Z.land dst 3 =? 0)
      then copy_head_back fuel (mk_copying (dst - 1) (src - 1) (size - 1) m.[dst - 1 <- m (src - 1)])
      else c
  end.

Fixpoint copy_words_back (fuel : nat) (c : copying) : copying :=
  match fuel with
  | O => c
  | S fuel =>
      let '(mk_copying dst src size m) := c in
      if 4 <=? size
      then copy_words_back fuel
             (mk_copying (dst - 4) (src - 4) (size - 4) (store32 m (dst - 4) (load32 m (src - 4))))
      else c
  end.

Fixpoint copy_tail_back (fuel : nat) (c : copying) : copying :=
  match fuel with
  | O => c
  | S fuel =>
      let '(mk_copying dst src size m) := c in
      if size =? 0 then c
      else copy_tail_back fuel (mk_copying (dst - 1) (src - 1) (size - 1) m.[dst - 1 <- m (src - 1)])
  end.

Definition memmove (dst src size : Z) (m : memory) : memory :=
  let n := Z.to_nat size in
  if dst <? src
  then c_mem (copy_tail n (copy_words n (copy_head n (mk_copying dst src size m))))
  else c_mem (copy_tail_back n (copy_words_back n (copy_head_back n
         (mk_copying (dst + size) (src + size) size m)))).

Record filling := mk_filling { f_buf : Z; f_size : Z; f_mem : memory }.

Fixpoint fill_head (fuel : nat) (b : Z) (c : filling) : filling :=
  match fuel with
  | O => c
  | S fuel =>
      let '(mk_filling buf size m) := c in
      if (0 <? size) && negb (Z.land buf 3 =? 0)
      then fill_head fuel b (mk_filling (buf + 1) (size - 1) m.[buf <- b])
      else c
  end.

Fixpoint fill_words (fuel : nat) (w : Z) (c : filling) : filling :=
  match fuel with
  | O => c
  | S fuel =>
      let '(mk_filling buf size m) := c in
      if 4 <=? size
      then fill_words fuel w (mk_filling (buf + 4) (size - 4) (store32 m buf w))
      else c
  end.

Fixpoint fill_tail (fuel : nat) (b : Z) (c : filling) : filling :=
  match fuel with
  | O => c
  | S fuel =>
      let '(mk_filling buf size m) := c in
      if size =? 0 then c
      else fill_tail fuel b (mk_filling (buf + 1) (size - 1) m.[buf <- b])
  end.

Definition memset (buf value size : Z) (m : memory) : memory :=
  let n := Z.to_nat size in
  let b := u8 value in
  let w := u32 (Z.lor (Z.lor (Z.lor b (Z.shiftl b 8)) (Z.shiftl b 16)) (Z.shiftl b 24)) in
  f_mem (fill_tail n b (fill_words n w (fill_head n b (mk_filling buf size m)))).

Fixpoint memcmp_from (n : nat) (m : memory) (a b : Z) : Z :=
  match n with
  | O => 0
  | S n =>
      if m a <? m b then -1
      else if m b <? m a then 1
      else memcmp_from n m (a + 1) (b + 1)
  end.

Definition memcmp (a b size : Z) (m : memory) : Z := memcmp_from (Z.to_nat size) m a b.

(** ** Words and bytes *)

Lemma load32_bytes m a :
  bytes m -> let w := load32 m a in
  u8 w = m a /\ u8 (w / 2 ^ 8) = m (a + 1) /\ u8 (w / 2 ^ 16) = m (a + 2) /\ u8 (w / 2 ^ 24) = m (a + 3).
Proof.
  intros B. cbv zeta. unfold load32, u8.
  pose proof (B a). pose proof (B (a + 1)). pose proof (B (a + 2)). pose proof (B (a + 3)).
  change (2 ^ 8) with 256. change (2 ^ 16) with 65536. change (2 ^ 24) with 16777216. dlia.
Qed.

(** Storing the word of [s] at [d] copies four bytes. *)
Lemma store_load m d s x :
  bytes m -> store32 m d (load32 m s) x = if decide (d <= x < d + 4) then m (s + (x - d)) else m x.
Proof.
  intros B. destruct (load32_bytes m s B) as (E0 & E1 & E2 & E3). unfold store32. rewrite E0, E1, E2, E3.
  rewrite !upd_cases. repeat destruct (decide _); try lia; f_equal; lia.
Qed.

Lemma load32_store32 m a w : load32 (store32 m a w) a = u32 w.
Proof.
  unfold load32, store32, u8, u32. rewrite upd_eq, !upd_ne, !upd_eq, !upd_ne, upd_eq by lia. rewrite upd_ne, upd_eq by lia.
  change (2 ^ 8) with 256. change (2 ^ 16) with 65536. change (2 ^ 24) with 16777216. change (2 ^ 32) with 4294967296. dlia.
Qed.

Lemma load32_frame m m' a : (forall x, a <= x < a + 4 -> m' x = m x) -> load32 m' a = load32 m a.
Proof. intros H. unfold load32. rewrite !H by lia. done. Qed.

Lemma store32_frame m a w x : ~ (a <= x < a + 4) -> store32 m a w x = m x.
Proof. intros H. unfold store32. rewrite !upd_ne by lia. done. Qed.

Lemma store32_bytes m a w : bytes m -> bytes (store32 m a w).
Proof. intros B x. unfold store32. rewrite !upd_cases. repeat destruct (decide _); auto using u8_range. Qed.

Lemma load32_store32_ne m a b w : b + 4 <= a \/ a + 4 <= b -> load32 (store32 m a w) b = load32 m b.
Proof. intros H. apply load32_frame. intros x ?. apply store32_frame. lia. Qed.

Lemma load32_u32 m a : bytes m -> is_u32 (load32 m a).
Proof.
  intros B. unfold load32, is_u32. pose proof (B a). pose proof (B (a + 1)). pose proof (B (a + 2)).
  pose proof (B (a + 3)). lia.
Qed.

(** ** Copying *)

(** [m] is [m0] with the bytes at offsets [lo <= i < hi] copied. *)
Definition copied (m0 : memory) (dst src lo hi : Z) (m : memory) : Prop :=
  forall x, m x = if decide (dst + lo <= x < dst + hi) then m0 (src + (x - dst)) else m0 x.

Lemma copied_bytes m0 dst src lo hi m : bytes m0 -> copied m0 dst src lo hi m -> bytes m.
Proof. intros B C a. rewrite C. case_decide; apply B. Qed.

Lemma copied_nil m dst src k : copied m dst src k k m.
Proof. intros x. by rewrite decide_False by lia. Qed.

(** Copying towards higher addresses: the source bytes still to be read have not
    been overwritten. *)
Definition fwd_safe (dst src size : Z) : Prop := dst <= src \/ src + size <= dst.

Lemma copied_fwd_byte m0 dst src size k m :
  fwd_safe dst src size -> 0 <= k < size -> copied m0 dst src 0 k m ->
  copied m0 dst src 0 (k + 1) m.[dst + k <- m (src + k)].
Proof.
  intros Hs Hk C x. rewrite upd_cases, (C (src + k)). unfold fwd_safe in Hs.
  rewrite (decide_False (P := dst + 0 <= src + k < _)) by lia. destruct (decide (x = dst + k)) as [->|Hx].
  - rewrite decide_True by lia. f_equal. lia.
  - rewrite C. destruct (decide (dst + 0 <= x < dst + k)).
    + by rewrite decide_True by lia.
    + by rewrite decide_False by lia.
Qed.

Lemma copied_fwd_word m0 dst src size k m :
  bytes m0 -> fwd_safe dst src size -> 0 <= k -> k + 4 <= size -> copied m0 dst src 0 k m ->
  copied m0 dst src 0 (k + 4) (store32 m (dst + k) (load32 m (src + k))).
Proof.
  intros B Hs Hk Hk4 C x. rewrite store_load by (by eapply copied_bytes). unfold fwd_safe in Hs.
  destruct (decide (dst + k <= x < dst + k + 4)).
  - rewrite C, decide_False, decide_True by lia. f_equal. lia.
  - rewrite C. destruct (decide (dst + 0 <= x < dst + k)).
    + by rewrite decide_True by lia.
    + by rewrite decide_False by lia.
Qed.

(** A loop state in which the first [k] bytes have been copied. *)
Definition fwd_at (m0 : memory) (dst src size k : Z) (c : copying) : Prop :=
  0 <= k <= size /\ c_dst c = dst + k /\ c_src c = src + k /\ c_size c = size - k /\ copied m0 dst src 0 k (c_mem c).

Section Forward.
Context (m0 : memory) (dst src size : Z) (B : bytes m0) (Hs : fwd_safe dst src size).

Lemma copy_head_spec fuel : forall k c, fwd_at m0 dst src size k c ->
  exists k', fwd_at m0 dst src size k' (copy_head fuel c) /\ k <= k'.
Proof using All.
  induction fuel as [|fuel IH]; intros k [d s z m] H; cbn [copy_head]; [by exists k|].
  destruct (_ && _) eqn:E; [|by exists k]. destruct H as (Hk & Hd & Hsr & Hz & C). cbn in Hd, Hsr, Hz, C. subst.
  destruct (IH (k + 1) (mk_copying (dst + k + 1) (src + k + 1) (size - k - 1) m.[dst + k <- m (src + k)])) as (k' & H' & ?).
  - split; [lia|]. cbn. split; [lia|]. split; [lia|]. split; [lia|]. by apply (copied_fwd_byte m0 dst src size); [..|lia|].
  - exists k'. split; [done|lia].
Qed.

Lemma copy_words_spec fuel : forall k c, fwd_at m0 dst src size k c -> size - k <= Z.of_nat fuel ->
  exists k', fwd_at m0 dst src size k' (copy_words fuel c) /\ k <= k' /\ size - k' < 4.
Proof using All.
  induction fuel as [|fuel IH]; intros k [d s z m] H Hf; cbn [copy_words].
  { exists k. split; [done|]. destruct H as (Hk & _). lia. }
  destruct (Z.leb_spec 4 z) as [Hz4|]; destruct H as (Hk & Hd & Hsr & Hz & C); cbn in Hd, Hsr, Hz, C; subst.
  - destruct (IH (k + 4) (mk_copying (dst + k + 4) (src + k + 4) (size - k - 4) (store32 m (dst + k) (load32 m (src + k)))))
      as (k' & H' & ? & ?).
    + split; [lia|]. cbn. split; [lia|]. split; [lia|]. split; [lia|]. by apply (copied_fwd_word m0 dst src size); [..|lia|lia|].
    + lia.
    + exists k'. split; [done|lia].
  - exists k. split; [|lia]. exact (conj Hk (conj eq_refl (conj eq_refl (conj eq_refl C)))).
Qed.

Lemma copy_tail_spec fuel : forall k c, fwd_at m0 dst src size k c -> size - k <= Z.of_nat fuel ->
  fwd_at m0 dst src size size (copy_tail fuel c).
Proof using All.
  induction fuel as [|fuel IH]; intros k [d s z m] H Hf; cbn [copy_tail].
  { assert (k = size) as <- by (destruct H as (Hk & _); lia). done. }
  destruct H as (Hk & Hd & Hsr & Hz & C); cbn in Hd, Hsr, Hz, C; subst.
  destruct (Z.eqb_spec (size - k) 0).
  - assert (k = size) as -> by lia. exact (conj Hk (conj eq_refl (conj eq_refl (conj eq_refl C)))).
  - apply (IH (k + 1)); [|lia]. split; [lia|]. cbn. split; [lia|]. split; [lia|]. split; [lia|].
    by apply (copied_fwd_byte m0 dst src size); [..|lia|].
Qed.

Lemma copy_fwd_spec : 0 <= size ->
  let n := Z.to_nat size in
  copied m0 dst src 0 size (c_mem (copy_tail n (copy_words n (copy_head n (mk_copying dst src size m0))))).
Proof using All.
  intros Hz. cbv zeta. set (n := Z.to_nat size). assert (Hn : Z.of_nat n = size) by lia.
  assert (H0 : fwd_at m0 dst src size 0 (mk_copying dst src size m0)).
  { split; [lia|]. cbn. split; [lia|]. split; [lia|]. split; [lia|]. apply copied_nil. }
  destruct (copy_head_spec n 0 _ H0) as (k1 & H1 & ?).
  destruct (copy_words_spec n k1 _ H1) as (k2 & H2 & ? & ?); [lia|].
  apply (copy_tail_spec n k2 _ H2). lia.
Qed.
End Forward.

(** Copying towards lower addresses, for a destination above the source. *)
Lemma copied_back_byte m0 dst src lo size m :
  src <= dst -> lo <= size -> copied m0 dst src lo size m ->
  copied m0 dst src (lo - 1) size m.[dst + lo - 1 <- m (src + lo - 1)].
Proof.
  intros Hs Hk C x. rewrite upd_cases, (C (src + lo - 1)).
  rewrite (decide_False (P := _ <= src + lo - 1 < _)) by lia. destruct (decide (x = dst + lo - 1)) as [->|Hx].
  - rewrite decide_True by lia. f_equal. lia.
  - rewrite C. destruct (decide (dst + lo <= x < dst + size)).
    + by rewrite decide_True by lia.
    + by rewrite decide_False by lia.
Qed.

Lemma copied_back_word m0 dst src lo size m :
  bytes m0 -> src <= dst -> lo <= size -> copied m0 dst src lo size m ->
  copied m0 dst src (lo - 4) size (store32 m (dst + lo - 4) (load32 m (src + lo - 4))).
Proof.
  intros B Hs Hk C x. rewrite store_load by (by eapply copied_bytes).
  destruct (decide (dst + lo - 4 <= x < dst + lo - 4 + 4)).
  - rewrite C, decide_False, decide_True by lia. f_equal. lia.
  - rewrite C. destruct (decide (dst + lo <= x < dst + size)).
    + by rewrite decide_True by lia.
    + by rewrite decide_False by lia.
Qed.

(** A loop state in which [lo] bytes are left to copy. *)
Definition back_at (m0 : memory) (dst src size lo : Z) (c : copying) : Prop :=
  0 <= lo <= size /\ c_dst c = dst + lo /\ c_src c = src + lo /\ c_size c = lo /\ copied m0 dst src lo size (c_mem c).

Section Backward.
Context (m0 : memory) (dst src size : Z) (B : bytes m0) (Hs : src <= dst).

Lemma back_byte lo m :
  back_at m0 dst src size lo (mk_copying (dst + lo) (src + lo) lo m) -> 0 < lo ->
  back_at m0 dst src size (lo - 1)
    (mk_copying (dst + lo - 1) (src + lo - 1) (lo - 1) m.[dst + lo - 1 <- m (src + lo - 1)]).
Proof using All.
  intros (Hk & _ & _ & _ & C) Hlo. split; [lia|]. cbn in *. split; [lia|]. split; [lia|]. split; [done|].
  by apply copied_back_byte; [|lia|].
Qed.

Lemma back_word lo m :
  back_at m0 dst src size lo (mk_copying (dst + lo) (src + lo) lo m) -> 4 <= lo ->
  back_at m0 dst src size (lo - 4)
    (mk_copying (dst + lo - 4) (src + lo - 4) (lo - 4) (store32 m (dst + lo - 4) (load32 m (src + lo - 4)))).
Proof using All.
  intros (Hk & _ & _ & _ & C) Hlo. split; [lia|]. cbn in *. split; [lia|]. split; [lia|]. split; [done|].
  by apply copied_back_word; [..|lia|].
Qed.

Lemma copy_head_back_spec fuel : forall lo c, back_at m0 dst src size lo c ->
  exists lo', back_at m0 dst src size lo' (copy_head_back fuel c) /\ lo' <= lo.
Proof using All.
  induction fuel as [|fuel IH]; intros lo [d s z m] H; pose proof H as (Hk & Hd & Hsr & Hz & _); cbn in Hd, Hsr, Hz; subst z d s; cbn [copy_head_back]; [by exists lo|].
  destruct (Z.ltb_spec 0 lo); [|by exists lo]. destruct (negb _); cbn [andb]; [|by exists lo].
  destruct (IH _ _ (back_byte _ _ H ltac:(lia))) as (lo' & H' & ?). exists lo'. split; [done|lia].
Qed.

Lemma copy_words_back_spec fuel : forall lo c, back_at m0 dst src size lo c -> lo <= Z.of_nat fuel ->
  exists lo', back_at m0 dst src size lo' (copy_words_back fuel c) /\ lo' <= lo /\ lo' < 4.
Proof using All.
  induction fuel as [|fuel IH]; intros lo [d s z m] H Hf; pose proof H as (Hk & Hd & Hsr & Hz & _); cbn in Hd, Hsr, Hz; subst z d s; cbn [copy_words_back].
  { exists lo. split; [done|lia]. }
  destruct (Z.leb_spec 4 lo); [|exists lo; split; [done|lia]].
  destruct (IH _ _ (back_word _ _ H ltac:(lia))) as (lo' & H' & ? & ?); [lia|]. exists lo'. split; [done|lia].
Qed.

Lemma copy_tail_back_spec fuel : forall lo c, back_at m0 dst src size lo c -> lo <= Z.of_nat fuel ->
  back_at m0 dst src size 0 (copy_tail_back fuel c).
Proof using All.
  induction fuel as [|fuel IH]; intros lo [d s z m] H Hf; pose proof H as (Hk & Hd & Hsr & Hz & _); cbn in Hd, Hsr, Hz; subst z d s; cbn [copy_tail_back].
  { assert (lo = 0) as -> by lia. done. }
  destruct (Z.eqb_spec lo 0) as [->|]; [done|].
  apply (IH _ _ (back_byte _ _ H ltac:(lia))). lia.
Qed.

Lemma copy_back_spec : 0 <= size ->
  let n := Z.to_nat size in
  copied m0 dst src 0 size (c_mem (copy_tail_back n (copy_words_back n (copy_head_back n
    (mk_copying (dst + size) (src + size) size m0))))).
Proof using All.
  intros Hz. cbv zeta. set (n := Z.to_nat size). assert (Hn : Z.of_nat n = size) by lia.
  assert (H0 : back_at m0 dst src size size (mk_copying (dst + size) (src + size) size m0)).
  { split; [lia|]. cbn. split; [lia|]. split; [lia|]. split; [lia|]. apply copied_nil. }
  destruct (copy_head_back_spec n size _ H0) as (k1 & H1 & ?).
  destruct (copy_words_back_spec n k1 _ H1) as (k2 & H2 & ? & ?); [lia|].
  destruct (copy_tail_back_spec n k2 _ H2) as (_ & _ & _ & _ & C); [lia|exact C].
Qed.
End Backward.

(** ** Filling *)

Definition filled (m0 : memory) (buf size b : Z) (m : memory) : Prop :=
  forall x, m x = if decide (buf <= x < buf + size) then b else m0 x.

Lemma filled_byte m0 buf k b m : 0 <= k -> filled m0 buf k b m -> filled m0 buf (k + 1) b m.[buf + k <- b].
Proof. intros Hk F x. rewrite upd_cases, F. repeat destruct (decide _); (done || lia). Qed.

(** The word whose four bytes are [b]. *)
Lemma repeated_byte b :
  0 <= b < 256 -> let w := u32 (Z.lor (Z.lor (Z.lor b (Z.shiftl b 8)) (Z.shiftl b 16)) (Z.shiftl b 24)) in
  u8 w = b /\ u8 (w / 2 ^ 8) = b /\ u8 (w / 2 ^ 16) = b /\ u8 (w / 2 ^ 24) = b.
Proof.
  intros Hb. cbv zeta.
  assert (Hbits : forall i, 8 <= i -> Z.testbit b i = false).
  { intros i Hi. apply Z.bits_above_log2; [lia|]. destruct (decide (b = 0)) as [->|]; [cbn; lia|].
    assert (Z.log2 b < 8) by (apply Z.log2_lt_pow2; lia). lia. }
  assert (Hbyte : forall k, 0 <= k < 4 ->
    u8 (u32 (Z.lor (Z.lor (Z.lor b (Z.shiftl b 8)) (Z.shiftl b 16)) (Z.shiftl b 24)) / 2 ^ (8 * k)) = b).
  { intros k Hk. apply Z.bits_inj'. intros n Hn. unfold u8. destruct (decide (n < 8)).
    - rewrite Z.mod_pow2_bits_low, Z.div_pow2_bits, u32_bits by lia. replace (n + 8 * k <? 32) with true by lia. cbn [andb].
      rewrite !Z.lor_spec, !Z.shiftl_spec by lia.
      assert (Hi : forall i, 0 <= i < 4 -> Z.testbit b (n + 8 * k - 8 * i) = if decide (i = k) then Z.testbit b n else false).
      { intros i Hi. destruct (decide (i = k)) as [->|]; [f_equal; lia|].
        destruct (decide (i < k)); [apply Hbits; lia|apply Z.testbit_neg_r; lia]. }
      pose proof (Hi 0) as H0. pose proof (Hi 1) as H1. pose proof (Hi 2) as H2. pose proof (Hi 3) as H3.
      rewrite Z.mul_0_r, Z.sub_0_r in H0. change (8 * 1) with 8 in H1. change (8 * 2) with 16 in H2.
      change (8 * 3) with 24 in H3. rewrite H0, H1, H2, H3 by lia.
      assert (k = 0 \/ k = 1 \/ k = 2 \/ k = 3) as [->|[->|[->| ->]]] by lia; cbn; by rewrite ?orb_false_r.
    - rewrite Z.mod_pow2_bits_high, Hbits by lia. done. }
  split; [pose proof (Hbyte 0 ltac:(lia)) as E; change (2 ^ (8 * 0)) with 1 in E; by rewrite Z.div_1_r in E|].
  split; [apply (Hbyte 1); lia|]. split; [apply (Hbyte 2); lia|apply (Hbyte 3); lia].
Qed.

Lemma filled_word m0 buf k b w m :
  0 <= k -> u8 w = b -> u8 (w / 2 ^ 8) = b -> u8 (w / 2 ^ 16) = b -> u8 (w / 2 ^ 24) = b ->
  filled m0 buf k b m -> filled m0 buf (k + 4) b (store32 m (buf + k) w).
Proof.
  intros Hk E0 E1 E2 E3 F x. unfold store32. rewrite E0, E1, E2, E3, !upd_cases, F.
  repeat destruct (decide _); (done || lia).
Qed.

Definition fill_at (m0 : memory) (buf size b k : Z) (c : filling) : Prop :=
  0 <= k <= size /\ f_buf c = buf + k /\ f_size c = size - k /\ filled m0 buf k b (f_mem c).

Section Fill.
Context (m0 : memory) (buf size b w : Z).
Context (E0 : u8 w = b) (E1 : u8 (w / 2 ^ 8) = b) (E2 : u8 (w / 2 ^ 16) = b) (E3 : u8 (w / 2 ^ 24) = b).

Lemma fill_head_spec fuel : forall k c, fill_at m0 buf size b k c ->
  exists k', fill_at m0 buf size b k' (fill_head fuel b c) /\ k <= k'.
Proof using All.
  induction fuel as [|fuel IH]; intros k [p z m] H; cbn [fill_head]; [by exists k|].
  pose proof H as (Hk & Hp & Hz & F). cbn in Hp, Hz, F.
  destruct (Z.ltb_spec 0 z); [|by exists k]. destruct (negb _); cbn [andb]; [|by exists k]. subst p z.
  destruct (IH (k + 1) (mk_filling (buf + k + 1) (size - k - 1) m.[buf + k <- b])) as (k' & H' & ?).
  - split; [lia|]. cbn. split; [lia|]. split; [lia|]. by apply filled_byte; [lia|].
  - exists k'. split; [done|lia].
Qed.

Lemma fill_words_spec fuel : forall k c, fill_at m0 buf size b k c ->
  exists k', fill_at m0 buf size b k' (fill_words fuel w c) /\ k <= k'.
Proof using All.
  induction fuel as [|fuel IH]; intros k [p z m] H; cbn [fill_words]; [by exists k|].
  pose proof H as (Hk & Hp & Hz & F). cbn in Hp, Hz, F. destruct (Z.leb_spec 4 z); [|by exists k]. subst p z.
  destruct (IH (k + 4) (mk_filling (buf + k + 4) (size - k - 4) (store32 m (buf + k) w))) as (k' & H' & ?).
  - split; [lia|]. cbn. split; [lia|]. split; [lia|]. by apply filled_word; [lia|..].
  - exists k'. split; [done|lia].
Qed.

Lemma fill_tail_spec fuel : forall k c, fill_at m0 buf size b k c -> size - k <= Z.of_nat fuel ->
  fill_at m0 buf size b size (fill_tail fuel b c).
Proof using All.
  induction fuel as [|fuel IH]; intros k [p z m] H Hf; pose proof H as (Hk & Hp & Hz & F); cbn in Hp, Hz, F; cbn [fill_tail].
  { assert (k = size) as -> by lia. exact H. }
  destruct (Z.eqb_spec z 0); [assert (k = size) as -> by lia; exact H|]. subst p z.
  apply (IH (k + 1)); [|lia]. split; [lia|]. cbn. split; [lia|]. split; [lia|]. by apply filled_byte; [lia|].
Qed.
End Fill.

Lemma memset_spec buf value size m :
  0 <= size -> filled m buf size (u8 value) (memset buf value size m).
Proof.
  intros Hz. unfold memset. cbv zeta. destruct (repeated_byte (u8 value) (u8_range value)) as (E0 & E1 & E2 & E3).
  set (w := u32 _) in *. set (n := Z.to_nat size).
  assert (H0 : fill_at m buf size (u8 value) 0 (mk_filling buf size m)).
  { split; [lia|]. cbn. split; [lia|]. split; [lia|]. intros x. by rewrite decide_False by lia. }
  destruct (fill_head_spec m buf size (u8 value) w E0 E1 E2 E3 n 0 _ H0) as (k1 & H1 & ?).
  destruct (fill_words_spec m buf size (u8 value) w E0 E1 E2 E3 n k1 _ H1) as (k2 & H2 & ?).
  destruct (fill_tail_spec m buf size (u8 value) w E0 E1 E2 E3 n k2 _ H2) as (_ & _ & _ & F); [unfold n; lia|exact F].
Qed.

(** ** Comparison *)

Lemma memcmp_from_spec n m : forall a b,
  (memcmp_from n m a b = 0 <-> forall i, 0 <= i < Z.of_nat n -> m (a + i) = m (b + i)) /\
  (memcmp_from n m a b = -1 <-> exists i, 0 <= i < Z.of_nat n /\ m (a + i) < m (b + i) /\
     forall j, 0 <= j < i -> m (a + j) = m (b + j)) /\
  (memcmp_from n m a b = -1 \/ memcmp_from n m a b = 0 \/ memcmp_from n m a b = 1).
Proof.
  induction n as [|n IH]; intros a b; cbn [memcmp_from].
  { split; [split; [lia|done]|]. split; [|lia]. split; [lia|]. intros (i & Hi & _). lia. }
  assert (Hsplit : forall (P : Z -> Prop), (forall i, 0 <= i < Z.of_nat (S n) -> P i) <->
    P 0 /\ forall i, 0 <= i < Z.of_nat n -> P (1 + i)).
  { intros P. split; [intros H; split; [|intros i Hi]; apply H; lia|]. intros [H0 H] i Hi.
    destruct (decide (i = 0)) as [->|]; [done|]. replace i with (1 + (i - 1)) by lia. apply H. lia. }
  destruct (Z.ltb_spec (m a) (m b)) as [H1|H1].
  { split; [|split; [|lia]].
    - split; [lia|]. intros H. specialize (H 0 ltac:(lia)). rewrite !Z.add_0_r in H. lia.
    - split; [|lia]. intros _. exists 0. rewrite !Z.add_0_r. split; [lia|]. split; [done|lia]. }
  destruct (Z.ltb_spec (m b) (m a)) as [H2|H2].
  { split; [|split; [|lia]].
    - split; [lia|]. intros H. specialize (H 0 ltac:(lia)). rewrite !Z.add_0_r in H. lia.
    - split; [lia|]. intros (i & Hi & Hlt & Heq). destruct (decide (i = 0)) as [->|].
      + rewrite !Z.add_0_r in Hlt. lia.
      + specialize (Heq 0 ltac:(lia)). rewrite !Z.add_0_r in Heq. lia. }
  assert (E : m a = m b) by lia. destruct (IH (a + 1) (b + 1)) as (I1 & I2 & I3). split; [|split; [|done]].
  - rewrite I1, (Hsplit (fun i => m (a + i) = m (b + i))). rewrite !Z.add_0_r. split.
    + intros H. split; [done|]. intros i Hi. rewrite !Z.add_assoc. auto.
    + intros [_ H] i Hi. specialize (H i Hi). by rewrite !Z.add_assoc in H.
  - rewrite I2. split; intros (i & Hi & Hlt & Heq).
    + exists (1 + i). rewrite !Z.add_assoc. split; [lia|]. split; [done|]. intros j Hj.
      destruct (decide (j = 0)) as [->|]; [by rewrite !Z.add_0_r|].
      specialize (Heq (j - 1) ltac:(lia)). replace (a + 1 + (j - 1)) with (a + j) in Heq by lia.
      by replace (b + 1 + (j - 1)) with (b + j) in Heq by lia.
    + destruct (decide (i = 0)) as [->|]; [rewrite !Z.add_0_r in Hlt; lia|]. exists (i - 1).
      replace (a + 1 + (i - 1)) with (a + i) by lia. replace (b + 1 + (i - 1)) with (b + i) by lia.
      split; [lia|]. split; [done|]. intros j Hj. rewrite <- !Z.add_assoc. apply Heq. lia.
Qed.

(** ** The theorems *)

(** [memmove] copies the block for any two addresses, overlapping or not:
    the destination holds what the source held before the call, and no other byte
    changes. *)
Theorem memmove_correct dst src size m :
  bytes m -> 0 <= size -> copied m dst src 0 size (memmove dst src size m).
Proof.
  intros B Hz. unfold memmove. destruct (Z.ltb_spec dst src).
  - apply copy_fwd_spec; [done|left; lia|done].
  - apply copy_back_spec; [done|lia|done].
Qed.

Definition demo_mem : memory := fun a => if (0 <=? a) && (a <? 64) then a else 0.

Lemma demo_mem_bytes : bytes demo_mem.
Proof. intros a. unfold demo_mem. zbool; cbn; lia. Qed.

Lemma memmove_correct_witness :
  copied demo_mem 3 1 0 21 (memmove 3 1 21 demo_mem) /\ memmove 3 1 21 demo_mem 23 = 21.
Proof.
  assert (H := memmove_correct 3 1 21 demo_mem demo_mem_bytes ltac:(lia)).
  split; [exact H|]. rewrite H. reflexivity.
Defined.

(** [memcpy] copies the block when the two do not overlap, and also when the
    destination overlaps the source from below. *)
Theorem memcpy_correct dst src size m :
  bytes m -> 0 <= size -> fwd_safe dst src size -> copied m dst src 0 size (memcpy dst src size m).
Proof. intros. by apply copy_fwd_spec. Qed.

Lemma memcpy_correct_witness : copied demo_mem 30 2 0 19 (memcpy 30 2 19 demo_mem).
Proof. apply memcpy_correct; [exact demo_mem_bytes|lia|right; lia]. Defined.

(** [memset] fills the block with the low byte of the value and changes no
    other byte. *)
Theorem memset_correct buf value size m :
  0 <= size -> filled m buf size (u8 value) (memset buf value size m).
Proof. apply memset_spec. Qed.

Lemma memset_correct_witness : filled demo_mem 5 17 0xab (memset 5 0x7ab 17 demo_mem).
Proof. exact (memset_correct 5 0x7ab 17 demo_mem ltac:(lia)). Defined.
