(* ===== verification/CString.v ===== *)
(** Strings: a model of the [str*] functions of [src/libc/src/string].

    A string is a sequence of non-zero bytes ended by a zero byte.  The functions
    walk the memory until they find the end, so the models take [fuel]; [None]
    means that it ran out.  [cstr m a s] says that the string [s] is stored at
    [a], and the lemmas show that fuel above the length of the strings suffices. *)

From S2P Require Import Prelude CMem.
From Stdlib Require Import ZArith Lia Bool.
From stdpp Require Import base tactics numbers list sets gmap.
Open Scope Z_scope.

(** ** The functions *)

Fixpoint strlen_from (fuel : nat) (m : memory) (str len : Z) : option Z :=
  match fuel with
  | O => None
  | S fuel => if m (str + len) =? 0 then Some len else strlen_from fuel m str (len + 1)
  end.

Definition strlen (fuel : nat) (m : memory) (str : Z) : option Z := strlen_from fuel m str 0.

Fixpoint strcmp (fuel : nat) (m : memory) (a b : Z) : option Z :=
  match fuel with
  | O => None
  | S fuel =>
      if negb (m a =? 0) && (m a =? m b) then strcmp fuel m (a + 1) (b + 1)
      else Some (m a - m b)
  end.

(** The loop of [strncmp]; [c1] and [c2] are the last bytes read. *)
Fixpoint strncmp_loop (size : nat) (m : memory) (a b c1 c2 : Z) : Z :=
  match size with
  | O => c1 - c2
  | S size =>
      let c1 := m a in
      let c2 := m b in
      if (c1 =? 0) || negb (c1 =? c2) then c1 - c2
      else strncmp_loop size m (a + 1) (b + 1) c1 c2
  end.

Definition strncmp (m : memory) (s1 s2 size : Z) : Z := strncmp_loop (Z.to_nat size) m s1 s2 0 0.

(** The loop of [strcpy] from index [i] on. *)
Fixpoint strcpy_from (fuel : nat) (dest src i : Z) (m : memory) : option memory :=
  match fuel with
  | O => None
  | S fuel =>
      if m (src + i) =? 0 then Some m.[dest + i <- 0]
      else strcpy_from fuel dest src (i + 1) m.[dest + i <- m (src + i)]
  end.

Definition strcpy (fuel : nat) (dest src : Z) (m : memory) : option memory := strcpy_from fuel dest src 0 m.

(** [strcat] counts the destination and then copies as [strcpy] does. *)
Definition strcat (fuel : nat) (dest src : Z) (m : memory) : option memory :=
  match strlen fuel m dest with
  | None => None
  | Some dest_length => strcpy_from fuel (dest + dest_length) src 0 m
  end.

(** The two loops of [strncpy]. *)
Fixpoint strncpy_from (n : nat) (dest src i : Z) (m : memory) : memory :=
  match n with
  | O => m
  | S n' =>
      if m (src + i) =? 0 then for_from n i (fun i m => m.[dest + i <- 0]) m
      else strncpy_from n' dest src (i + 1) m.[dest + i <- m (src + i)]
  end.

Definition strncpy (dest src n : Z) (m : memory) : memory := strncpy_from (Z.to_nat n) dest src 0 m.

(** Returns the address, 0 for [NULL]. *)
Fixpoint strchr_loop (fuel : nat) (m : memory) (s ch : Z) : option Z :=
  match fuel with
  | O => None
  | S fuel =>
      if m s =? 0 then Some (if ch =? 0 then s else 0)
      else if m s =? ch then Some s
      else strchr_loop fuel m (s + 1) ch
  end.

Definition strchr (fuel : nat) (m : memory) (s c : Z) : option Z := strchr_loop fuel m s (u8 c).

(** The inner loop of [strspn]: whether the byte occurs in [accept]. *)
Fixpoint accepted (fuel : nat) (m : memory) (c a : Z) : option bool :=
  match fuel with
  | O => None
  | S fuel =>
      if m a =? 0 then Some false
      else if c =? m a then Some true
      else accepted fuel m c (a + 1)
  end.

Fixpoint strspn_loop (fuel : nat) (m : memory) (s accept count : Z) : option Z :=
  match fuel with
  | O => None
  | S fuel' =>
      if m s =? 0 then Some count
      else match accepted fuel m (m s) accept with
           | None => None
           | Some false => Some count
           | Some true => strspn_loop fuel' m (s + 1) accept (count + 1)
           end
  end.

Definition strspn (fuel : nat) (m : memory) (s accept : Z) : option Z := strspn_loop fuel m s accept 0.

(** Advancing [str] while the byte is not zero and [strchr(delim, byte)] finds it, and the same with the test
    negated when [stop] is true. *)
Fixpoint skip (fuel : nat) (stop : bool) (m : memory) (str delim : Z) : option Z :=
  match fuel with
  | O => None
  | S fuel' =>
      if m str =? 0 then Some str
      else match strchr fuel m delim (m str) with
           | None => None
           | Some p =>
               if eqb (p =? 0) stop then skip fuel' stop m (str + 1) delim else Some str
           end
  end.

(** Returns the token and the new [*saveptr], 0 for [NULL], and the memory. *)
Definition strtok_r (fuel : nat) (str delim saveptr : Z) (m : memory) : option (Z * Z * memory) :=
  let str := if str =? 0 then saveptr else str in
  if str =? 0 then Some (0, saveptr, m) else
  match skip fuel false m str delim with
  | None => None
  | Some str =>
      if m str =? 0 then Some (0, 0, m) else
      let token_start := str in
      match skip fuel true m str delim with
      | None => None
      | Some str =>
          if m str =? 0 then Some (token_start, 0, m)
          else Some (token_start, str + 1, m.[str <- 0])
      end
  end.

(** ** Strings in memory *)

Fixpoint cstr (m : memory) (a : Z) (s : list Z) : Prop :=
  match s with
  | [] => m a = 0
  | c :: s => m a = c /\ c <> 0 /\ cstr m (a + 1) s
  end.

Abbreviation len s := (Z.of_nat (length s)).

Lemma len_cons (c : Z) s : len (c :: s) = len s + 1.
Proof. cbn [length]. lia. Qed.

Lemma cstr_frame m m' a s :
  (forall x, a <= x <= a + len s -> m' x = m x) -> cstr m a s -> cstr m' a s.
Proof.
  revert a. induction s as [|c s IH]; intros a Hf; rewrite ?len_cons in *; cbn [cstr].
  - rewrite Hf by (cbn; lia). done.
  - intros (H1 & H2 & H3). rewrite Hf by lia. split; [done|]. split; [done|].
    apply IH; [|done]. intros x Hx. apply Hf. lia.
Qed.

Lemma cstr_at m a s i c : cstr m a s -> s !! i = Some c -> m (a + Z.of_nat i) = c /\ c <> 0.
Proof.
  revert a i. induction s as [|d s IH]; intros a i H Hi; [done|]. destruct H as (H1 & H2 & H3).
  destruct i as [|i]; cbn in Hi; simplify_eq.
  - by rewrite Z.add_0_r.
  - destruct (IH (a + 1) i H3 Hi). replace (a + Z.of_nat (S i)) with (a + 1 + Z.of_nat i) by lia. done.
Qed.

Lemma cstr_end m a s : cstr m a s -> m (a + len s) = 0.
Proof.
  revert a. induction s as [|c s IH]; intros a H; [by rewrite Z.add_0_r|]. destruct H as (_ & _ & H).
  rewrite len_cons. replace (a + (len s + 1)) with (a + 1 + len s) by lia. auto.
Qed.

(** A memory holds at most one string at an address. *)
Lemma cstr_unique m a s t : cstr m a s -> cstr m a t -> s = t.
Proof.
  revert a t. induction s as [|c s IH]; intros a [|d t] Hs Ht; cbn in Hs, Ht; [done|naive_solver congruence..|].
  destruct Hs as (E1 & ? & Hs), Ht as (E2 & ? & Ht). f_equal; [congruence|by eapply IH].
Qed.

(** ** Length, comparison, search *)

Lemma strlen_from_spec m a s : forall fuel i,
  cstr m (a + i) s -> (length s < fuel)%nat -> strlen_from fuel m a i = Some (i + len s).
Proof.
  induction s as [|c s IH]; intros fuel i H Hf; (destruct fuel as [|fuel]; [cbn in Hf; lia|]); cbn [strlen_from].
  - cbn in H. rewrite H. cbn. f_equal. lia.
  - destruct H as (-> & Hc & H). replace (c =? 0) with false by lia. rewrite <- Z.add_assoc in H.
    rewrite IH by (done || (cbn in Hf; lia)). f_equal. rewrite len_cons. lia.
Qed.

Lemma strlen_spec m a s fuel : cstr m a s -> (length s < fuel)%nat -> strlen fuel m a = Some (len s).
Proof. intros H Hf. unfold strlen. rewrite (strlen_from_spec m a s) by (rewrite ?Z.add_0_r; done). done. Qed.

(** The difference of the first bytes that differ, the end counting as 0. *)
Fixpoint byte_diff (s t : list Z) : Z :=
  match s, t with
  | c :: s, d :: t => if c =? d then byte_diff s t else c - d
  | c :: _, [] => c
  | [], d :: _ => - d
  | [], [] => 0
  end.

Lemma strcmp_spec m s : forall fuel a b t,
  cstr m a s -> cstr m b t -> (length s < fuel)%nat -> strcmp fuel m a b = Some (byte_diff s t).
Proof.
  induction s as [|c s IH]; intros fuel a b t Hs Ht Hf; (destruct fuel as [|fuel]; [cbn in Hf; lia|]); cbn [strcmp].
  - cbn in Hs. rewrite Hs. cbn. destruct t as [|d t]; cbn in Ht |- *; [by rewrite Ht|]. destruct Ht as (-> & _). done.
  - destruct Hs as (-> & Hc & Hs). replace (c =? 0) with false by lia. cbn [negb andb].
    destruct t as [|d t]; cbn in Ht.
    + rewrite Ht. replace (c =? 0) with false by lia. cbn. f_equal. lia.
    + destruct Ht as (-> & Hd & Ht). cbn [byte_diff]. destruct (c =? d); [|done]. apply IH; [done..|cbn in Hf; lia].
Qed.

Lemma byte_diff_zero s t : Forall (fun c => c <> 0) s -> Forall (fun c => c <> 0) t -> byte_diff s t = 0 <-> s = t.
Proof.
  revert t. induction s as [|c s IH]; intros [|d t] Hs Ht; cbn [byte_diff].
  - done.
  - apply Forall_cons in Ht as [? _]. split; [lia|done].
  - apply Forall_cons in Hs as [? _]. split; [lia|done].
  - apply Forall_cons in Hs as [? Hs]. apply Forall_cons in Ht as [? Ht].
    destruct (Z.eqb_spec c d) as [->|]; [rewrite IH by done; naive_solver|]. split; [lia|naive_solver].
Qed.

Lemma cstr_nonzero m a s : cstr m a s -> Forall (fun c => c <> 0) s.
Proof. revert a. induction s as [|c s IH]; intros a; cbn; [constructor|]. intros (_ & ? & ?). constructor; eauto. Qed.

Lemma strchr_loop_spec m s : forall fuel a ch,
  cstr m a s -> (length s < fuel)%nat -> ch <> 0 -> 0 < a ->
  exists p, strchr_loop fuel m a ch = Some p /\
    ((p = 0 /\ ch ∉ s) \/ exists i, p = a + Z.of_nat i /\ s !! i = Some ch /\ ch ∉ take i s).
Proof.
  induction s as [|c s IH]; intros fuel a ch H Hf Hch Ha; (destruct fuel as [|fuel]; [cbn in Hf; lia|]); cbn [strchr_loop].
  - cbn in H. rewrite H. replace (ch =? 0) with false by lia. exists 0. split; [done|]. left. set_solver.
  - destruct H as (-> & Hc & H). replace (c =? 0) with false by lia. destruct (Z.eqb_spec c ch) as [->|Hne].
    + exists a. split; [done|]. right. exists 0%nat. split; [lia|]. split; [done|]. set_solver.
    + destruct (IH fuel (a + 1) ch H) as (p & E & Hp); [cbn in Hf; lia|done|lia|]. exists p. split; [done|].
      destruct Hp as [[-> ?]|(i & -> & ? & ?)]; [left; set_solver|right].
      exists (S i). split; [lia|]. split; [done|]. cbn [take]. set_solver.
Qed.

(** Whether [strchr] finds the byte. *)
Lemma strchr_found m s fuel a ch :
  cstr m a s -> (length s < fuel)%nat -> 0 < ch < 256 -> 0 < a ->
  exists p, strchr fuel m a ch = Some p /\ (p =? 0) = negb (bool_decide (ch ∈ s)).
Proof.
  intros H Hf Hch Ha. unfold strchr. rewrite u8_small by lia.
  destruct (strchr_loop_spec m s fuel a ch H Hf) as (p & -> & Hp); [lia|done|]. exists p. split; [done|].
  destruct Hp as [[-> Hn]|(i & -> & Hi & _)].
  - by rewrite bool_decide_eq_false_2.
  - apply list_elem_of_lookup_2 in Hi. rewrite bool_decide_eq_true_2 by done. apply Z.eqb_neq. lia.
Qed.

Lemma accepted_spec m s : forall fuel a c,
  cstr m a s -> (length s < fuel)%nat -> accepted fuel m c a = Some (bool_decide (c ∈ s)).
Proof.
  induction s as [|d s IH]; intros fuel a c H Hf; (destruct fuel as [|fuel]; [cbn in Hf; lia|]); cbn [accepted].
  - cbn in H. rewrite H. by rewrite bool_decide_eq_false_2 by set_solver.
  - destruct H as (-> & Hd & H). replace (d =? 0) with false by lia. destruct (Z.eqb_spec c d) as [->|].
    + by rewrite bool_decide_eq_true_2 by set_solver.
    + rewrite IH by (done || (cbn in Hf; lia)). f_equal. apply bool_decide_ext. set_solver.
Qed.

Fixpoint take_while (p : Z -> bool) (s : list Z) : list Z :=
  match s with [] => [] | c :: s => if p c then c :: take_while p s else [] end.
Fixpoint drop_while (p : Z -> bool) (s : list Z) : list Z :=
  match s with [] => [] | c :: s' => if p c then drop_while p s' else s end.

Lemma take_drop_while p s : take_while p s ++ drop_while p s = s.
Proof. induction s as [|c s IH]; cbn; [done|]. destruct (p c); cbn; by rewrite ?IH. Qed.

Lemma strspn_loop_spec m s t : forall fuel a b n,
  cstr m a s -> cstr m b t -> (length s + length t < fuel)%nat ->
  strspn_loop fuel m a b n = Some (n + len (take_while (fun c => bool_decide (c ∈ t)) s)).
Proof.
  induction s as [|c s IH]; intros fuel a b n Hs Ht Hf; (destruct fuel as [|fuel]; [cbn in Hf; lia|]); cbn [strspn_loop].
  - cbn in Hs. rewrite Hs. cbn. f_equal. lia.
  - destruct Hs as (-> & Hc & Hs). replace (c =? 0) with false by lia.
    rewrite (accepted_spec m t) by (done || (cbn in Hf; lia)). cbn [take_while].
    destruct (bool_decide (c ∈ t)); [|cbn; f_equal; lia]. rewrite IH by (done || (cbn in Hf; lia)).
    f_equal. rewrite len_cons. lia.
Qed.

(** ** Copying *)

Fixpoint put (m : memory) (a : Z) (s : list Z) : memory :=
  match s with [] => m.[a <- 0] | c :: s => put m.[a <- c] (a + 1) s end.

Lemma put_frame s : forall m a x, ~ (a <= x <= a + len s) -> put m a s x = m x.
Proof.
  induction s as [|c s IH]; intros m a x Hx; rewrite ?len_cons in *; cbn [put].
  - rewrite upd_ne; [done|]. cbn in Hx. lia.
  - rewrite IH by lia. rewrite upd_ne; [done|lia].
Qed.

Lemma put_cstr s : forall m a, Forall (fun c => c <> 0) s -> cstr (put m a s) a s.
Proof.
  induction s as [|c s IH]; intros m a Hs; cbn [put cstr]; [apply upd_eq|]. apply Forall_cons in Hs as [Hc Hs].
  split; [|split; [done|auto]]. rewrite put_frame by lia. apply upd_eq.
Qed.

(** The ranges of two strings of length [n], terminators included, are apart. *)
Definition apart (a n b k : Z) : Prop := a + n < b \/ b + k < a.

Lemma strcpy_from_spec dest src s : forall fuel i m,
  cstr m (src + i) s -> (length s < fuel)%nat -> apart (dest + i) (len s) (src + i) (len s) ->
  strcpy_from fuel dest src i m = Some (put m (dest + i) s).
Proof.
  induction s as [|c s IH]; intros fuel i m H Hf Hd; (destruct fuel as [|fuel]; [cbn in Hf; lia|]); cbn [strcpy_from put].
  - cbn in H. by rewrite H.
  - destruct H as (-> & Hc & H). replace (c =? 0) with false by lia. unfold apart in *. rewrite len_cons in Hd.
    rewrite IH.
    + by rewrite Z.add_assoc.
    + rewrite Z.add_assoc. eapply cstr_frame; [|exact H]. intros x Hx. apply upd_ne. lia.
    + cbn in Hf. lia.
    + lia.
Qed.

Lemma cstr_append m a s t :
  cstr m (a + len s) t -> (forall i c, s !! i = Some c -> m (a + Z.of_nat i) = c /\ c <> 0) -> cstr m a (s ++ t).
Proof.
  revert a. induction s as [|c s IH]; intros a Ht Hs; [by rewrite Z.add_0_r in Ht|]. cbn [app cstr].
  destruct (Hs 0%nat c eq_refl) as [H0 Hc]. rewrite Z.add_0_r in H0. split; [done|]. split; [done|]. apply IH.
  - rewrite len_cons in Ht. by replace (a + 1 + len s) with (a + (len s + 1)) by lia.
  - intros i d Hi. destruct (Hs (S i) d Hi) as [Hm Hd]. split; [|done]. rewrite <- Hm. f_equal. lia.
Qed.

(** ** Tokens *)

Definition is_delim (d : list Z) (c : Z) : bool := bool_decide (c ∈ d).

(** The maximal runs of bytes that are no delimiters, in order; [cur] is the
    current run, reversed. *)
Fixpoint tokens_from (d cur s : list Z) : list (list Z) :=
  match s with
  | [] => match cur with [] => [] | _ => [rev cur] end
  | c :: s =>
      if is_delim d c
      then match cur with [] => tokens_from d [] s | _ => rev cur :: tokens_from d [] s end
      else tokens_from d (c :: cur) s
  end.

Definition tokens (d s : list Z) : list (list Z) := tokens_from d [] s.

Lemma tokens_skip d s : tokens d s = tokens d (drop_while (is_delim d) s).
Proof.
  unfold tokens. induction s as [|c s IH]; cbn [tokens_from drop_while]; [done|].
  destruct (is_delim d c) eqn:E; [done|]. cbn [tokens_from]. by rewrite E.
Qed.

Lemma tokens_run d s : forall cur, cur <> [] ->
  tokens_from d cur s =
    (rev cur ++ take_while (fun c => negb (is_delim d c)) s) ::
    tokens d (drop 1 (drop_while (fun c => negb (is_delim d c)) s)).
Proof.
  induction s as [|c s IH]; intros cur Hcur; cbn [tokens_from take_while drop_while].
  - destruct cur; [done|]. cbn. by rewrite app_nil_r.
  - destruct (is_delim d c) eqn:E; cbn [negb].
    + destruct cur; [done|]. cbn. by rewrite app_nil_r.
    + rewrite IH by done. cbn [rev]. by rewrite <- app_assoc.
Qed.

(** Bytes [0 < c < 256], as [strchr] takes them through an [int]. *)
Definition byte_string (s : list Z) : Prop := Forall (fun c => 0 < c < 256) s.

Lemma skip_spec m s d dl stop : forall fuel a,
  cstr m a s -> cstr m dl d -> byte_string s -> 0 < dl -> (length s + length d < fuel)%nat ->
  let p := fun c => eqb (negb (is_delim d c)) stop in
  skip fuel stop m a dl = Some (a + len (take_while p s)) /\
  cstr m (a + len (take_while p s)) (drop_while p s).
Proof.
  cbv zeta. induction s as [|c s IH]; intros fuel a Hs Hd Hb Hdl Hf; (destruct fuel as [|fuel]; [cbn in Hf; lia|]);
    cbn [skip take_while drop_while].
  - cbn in Hs. rewrite Hs. cbn. rewrite Z.add_0_r. done.
  - pose proof Hs as (Hm & Hc & Hs'). rewrite Hm. replace (c =? 0) with false by lia. apply Forall_cons in Hb as [Hcb Hb].
    destruct (strchr_found m d (S fuel) dl c Hd) as (p & -> & ->); [cbn in Hf; lia|done|done|].
    unfold is_delim at 1 3 5. destruct (eqb _ stop).
    + destruct (IH fuel (a + 1) Hs' Hd Hb Hdl) as [IH1 IH2]; [cbn in Hf; lia|]. rewrite len_cons.
      rewrite (Z.add_comm (len _) 1), Z.add_assoc. done.
    + cbn. by rewrite Z.add_0_r.
Qed.

(** [s] stored at [a] without its terminator being looked at. *)
Lemma cstr_cut m a s t c :
  cstr m a (s ++ c :: t) -> let m' := m.[a + len s <- 0] in
  cstr m' a s /\ cstr m' (a + len s + 1) t.
Proof.
  revert a. induction s as [|d s IH]; intros a H; cbn [app cstr] in *.
  - rewrite Z.add_0_r. destruct H as (_ & _ & H). split; [apply upd_eq|].
    eapply cstr_frame; [|exact H]. intros x Hx. apply upd_ne. lia.
  - destruct H as (H1 & H2 & H3). rewrite len_cons. replace (a + (len s + 1)) with (a + 1 + len s) by lia.
    destruct (IH (a + 1) H3) as [I1 I2]. split; [|done]. split; [rewrite upd_ne by lia; done|done].
Qed.

(** The call that finds the next token of [s]. *)
Lemma strtok_r_spec m a s dl d fuel :
  cstr m a s -> cstr m dl d -> byte_string s -> 0 < dl -> 0 < a -> (length s + length d < fuel)%nat ->
  forall str sv, (str = a \/ str = 0 /\ sv = a) ->
  (tokens d s = [] /\ strtok_r fuel str dl sv m = Some (0, 0, m)) \/
  (exists t tok next m', strtok_r fuel str dl sv m = Some (t, next, m') /\ a <= t /\ t + len tok <= a + len s /\
     cstr m' t tok /\ (forall x, x < t + len tok \/ a + len s <= x -> m' x = m x) /\
     ((next = 0 /\ tokens d s = [tok]) \/
      exists s', next = t + len tok + 1 /\ tokens d s = tok :: tokens d s' /\ cstr m' next s' /\
        next + len s' = a + len s /\ byte_string s')).
Proof.
  intros Hs Hd Hb Hdl Ha Hf str sv Hstr. unfold strtok_r.
  assert (E : (if str =? 0 then sv else str) = a) by (destruct Hstr as [->|[-> ->]]; [by replace (a =? 0) with false by lia|done]).
  rewrite E. replace (a =? 0) with false by lia.
  destruct (skip_spec m s d dl false fuel a Hs Hd Hb Hdl Hf) as [-> C1]. cbv zeta in *.
  set (p := fun c => eqb (negb (is_delim d c)) false) in *. set (a1 := a + len (take_while p s)) in *.
  assert (Ep : drop_while p s = drop_while (is_delim d) s).
  { clear. induction s as [|c s IH]; cbn; [done|]. unfold p at 1. destruct (is_delim d c); cbn; auto. }
  rewrite tokens_skip, <- Ep. pose proof (take_drop_while p s) as Hsplit.
  assert (Hlen : len (take_while p s) + len (drop_while p s) = len s) by (pose proof (f_equal length Hsplit) as HL; rewrite length_app in HL; lia).
  assert (Hb1 : byte_string (drop_while p s)) by (rewrite <- Hsplit in Hb; by apply Forall_app in Hb as [_ ?]).
  assert (Hhead : match drop_while p s with [] => True | c :: _ => is_delim d c = false end).
  { rewrite Ep. clear. induction s as [|c s IH]; cbn; [done|]. by destruct (is_delim d c) eqn:E. }
  destruct (drop_while p s) as [|c s1] eqn:E1.
  { left. cbn in C1. rewrite C1. done. }
  right. pose proof C1 as (Hm & Hc & _). rewrite Hm. replace (c =? 0) with false by lia.
  destruct (skip_spec m (c :: s1) d dl true fuel a1 C1 Hd Hb1 Hdl) as [-> C2]; [rewrite len_cons in Hlen; cbn [length] in *; lia|].
  cbv zeta in *. set (r := fun c => eqb (negb (is_delim d c)) true) in *.
  assert (Er : forall s, take_while r s = take_while (fun c => negb (is_delim d c)) s /\
    drop_while r s = drop_while (fun c => negb (is_delim d c)) s).
  { clear. induction s as [|c s IH]; cbn; [done|]. unfold r at 1 3. destruct (is_delim d c); cbn; [done|]. by destruct IH as [-> ->]. }
  destruct (Er (c :: s1)) as [Et Ed]. cbn [take_while drop_while] in Et, Ed. rewrite Hhead in Et, Ed. cbn [negb] in Et, Ed.
  assert (Htok : tokens d (c :: s1) = take_while r (c :: s1) :: tokens d (drop 1 (drop_while r (c :: s1)))).
  { unfold tokens at 1. cbn [tokens_from]. rewrite Hhead, tokens_run by done. cbn [rev app]. cbn [take_while drop_while].
    by rewrite Et, Ed. }
  pose proof (take_drop_while r (c :: s1)) as Hsplit2. set (tok := take_while r (c :: s1)) in *.
  assert (Hlen2 : len tok + len (drop_while r (c :: s1)) = len (c :: s1)) by (pose proof (f_equal length Hsplit2) as HL; rewrite length_app in HL; lia).
  destruct (drop_while r (c :: s1)) as [|e s2] eqn:E2.
  - change (m (a1 + len tok) = 0) in C2. rewrite C2. exists a1, tok, 0, m. split; [done|]. split; [lia|]. split; [cbn [length] in *; lia|].
    split; [|split; [done|by left]]. rewrite app_nil_r in Hsplit2. by rewrite Hsplit2.
  - pose proof C2 as (Hm2 & He & _). rewrite Hm2. replace (e =? 0) with false by lia.
    rewrite len_cons in Hlen2. rewrite <- Hsplit2 in C1. destruct (cstr_cut m a1 tok s2 e C1) as [K1 K2].
    exists a1, tok, (a1 + len tok + 1), m.[a1 + len tok <- 0]. split; [done|]. split; [lia|]. split; [lia|].
    split; [done|]. split; [intros x Hx; apply upd_ne; lia|]. right. exists s2. split; [done|]. split; [done|].
    split; [done|]. split; [lia|]. rewrite <- Hsplit2 in Hb1. apply Forall_app in Hb1 as [_ Hb1]. by apply Forall_cons in Hb1 as [_ ?].
Qed.

(** Calling [strtok_r] until it returns [NULL]: the tokens, in order. *)
Fixpoint strtok_all (n fuel : nat) (str delim saveptr : Z) (m : memory) : option (list Z * memory) :=
  match n with
  | O => None
  | S n =>
      match strtok_r fuel str delim saveptr m with
      | None => None
      | Some (t, next, m) =>
          if t =? 0 then Some ([], m) else
          match strtok_all n fuel 0 delim next m with
          | None => None
          | Some (ps, m) => Some (t :: ps, m)
          end
      end
  end.

Lemma tokens_nil d : tokens d [] = [].
Proof. done. Qed.

Lemma strtok_all_spec d dl fuel n : forall m a s str sv,
  cstr m a s -> cstr m dl d -> byte_string s -> 0 < dl -> 0 < a -> (length s + length d < fuel)%nat ->
  apart a (len s) dl (len d) -> (length s + 1 < n)%nat -> (str = a \/ str = 0 /\ sv = a) ->
  exists ps m', strtok_all n fuel str dl sv m = Some (ps, m') /\ Forall2 (cstr m') ps (tokens d s) /\
    forall x, x < a \/ a + len s <= x -> m' x = m x.
Proof.
  induction n as [|n IH]; intros m a s str sv Hs Hd Hb Hdl Ha Hf Hap Hn Hstr; [lia|]. cbn [strtok_all].
  destruct (strtok_r_spec m a s dl d fuel Hs Hd Hb Hdl Ha Hf str sv Hstr)
    as [[E ->]|(t & tok & next & m1 & -> & Ht & Htl & Ct & Fr & Hnext)].
  { cbn [Z.eqb]. rewrite E. exists [], m. by split. }
  replace (t =? 0) with false by lia. destruct Hnext as [[-> E]|(s' & -> & E & Cs & Hl & Hb')].
  - rewrite E. assert (Hs0 : s <> []) by (intros ->; by rewrite tokens_nil in E). destruct n as [|n]; [destruct s; [done|cbn in Hn; lia]|].
    cbn [strtok_all strtok_r]. exists [t], m1. split; [done|]. split; [by repeat constructor|]. intros x Hx. apply Fr. lia.
  - assert (Hd1 : cstr m1 dl d).
    { eapply cstr_frame; [|exact Hd]. intros x Hx. apply Fr. unfold apart in Hap. lia. }
    destruct (IH m1 (t + len tok + 1) s' 0 (t + len tok + 1) Cs Hd1 Hb' Hdl) as (ps & m2 & -> & HF & Fr2);
      [lia|lia|unfold apart in *; lia|lia|by right|].
    exists (t :: ps), m2. split; [done|]. rewrite E. split.
    + constructor; [|done]. eapply cstr_frame; [|exact Ct]. intros x Hx. apply Fr2. lia.
    + intros x Hx. rewrite Fr2 by lia. apply Fr. lia.
Qed.

(** ** The theorems *)

(** Calling [strtok_r] until it returns [NULL] splits the string.  The
    pointers returned are, in order, the maximal runs of bytes that are no
    delimiters; each is a terminated string in the final memory, and no byte
    outside the string is changed. *)
Theorem strtok_splits d dl fuel n m a s sv :
  cstr m a s -> cstr m dl d -> byte_string s -> 0 < dl -> 0 < a -> apart a (len s) dl (len d) ->
  (length s + length d < fuel)%nat -> (length s + 1 < n)%nat ->
  exists ps m', strtok_all n fuel a dl sv m = Some (ps, m') /\ Forall2 (cstr m') ps (tokens d s) /\
    forall x, x < a \/ a + len s <= x -> m' x = m x.
Proof. intros. by apply strtok_all_spec; [..|left]. Qed.

(** The string " ab,,c" at address 16 and the delimiters " ," at address 8. *)
Definition strtok_demo : memory := put (put (fun _ => 1) 16 [32; 97; 98; 44; 44; 99]) 8 [32; 44].

Lemma strtok_splits_witness :
  exists m', strtok_all 20 20 16 8 0 strtok_demo = Some ([17; 21], m') /\
    cstr m' 17 [97; 98] /\ cstr m' 21 [99].
Proof.
  destruct (strtok_splits [32; 44] 8 20 20 strtok_demo 16 [32; 97; 98; 44; 44; 99] 0) as (ps & m' & E & F & _);
    [by vm_compute|by vm_compute|by repeat constructor|lia|lia|unfold apart; cbn; lia|cbn; lia|cbn; lia|].
  exists m'. revert F. change (tokens _ _) with [[97; 98]; [99]]. intros F.
  inversion F as [|p1 ? l1 ? C1 F1]; subst. inversion F1 as [|p2 ? l2 ? C2 F2]; subst. inversion F2; subst.
  assert (Ep : [p1; p2] = [17; 21]).
  { assert (Hp : option_map fst (strtok_all 20 20 16 8 0 strtok_demo) = Some [17; 21]) by (vm_compute; reflexivity).
    rewrite E in Hp. by injection Hp as -> ->. }
  injection Ep as -> ->. done.
Defined.

(** [strcat] appends.  When the source lies outside the area written, the
    destination holds the concatenation afterwards, and nothing else changes. *)
Theorem strcat_correct fuel m dest src s t :
  cstr m dest s -> cstr m src t -> apart (dest + len s) (len t) src (len t) ->
  (length s < fuel)%nat -> (length t < fuel)%nat ->
  exists m', strcat fuel dest src m = Some m' /\ cstr m' dest (s ++ t) /\
    forall x, ~ (dest + len s <= x <= dest + len s + len t) -> m' x = m x.
Proof.
  intros Hs Ht Hap Hf1 Hf2. unfold strcat. rewrite (strlen_spec m dest s fuel Hs Hf1).
  rewrite (strcpy_from_spec _ _ t) by (rewrite ?Z.add_0_r; done). rewrite Z.add_0_r.
  exists (put m (dest + len s) t). split; [done|]. split; [|intros x Hx; by apply put_frame].
  apply cstr_append; [apply put_cstr; by eapply cstr_nonzero|].
  intros i c Hi. rewrite put_frame; [by apply (cstr_at m dest s)|]. apply lookup_lt_Some in Hi. lia.
Qed.

Lemma strcat_correct_witness :
  exists m', strcat 9 40 16 (put strtok_demo 40 [65; 66]) = Some m' /\
    cstr m' 40 [65; 66; 32; 97; 98; 44; 44; 99].
Proof.
  destruct (strcat_correct 9 (put strtok_demo 40 [65; 66]) 40 16 [65; 66] [32; 97; 98; 44; 44; 99]) as (m' & E & C & _);
    [by vm_compute|by vm_compute|unfold apart; cbn; lia|cbn; lia|cbn; lia|]. exists m'. by split.
Defined.

(** [strcmp] orders strings by their first difference.  The result is the
    difference of the first bytes that differ, the end of a string counting as
    zero, and is zero exactly for equal strings. *)
Theorem strcmp_correct fuel m a b s t :
  cstr m a s -> cstr m b t -> (length s < fuel)%nat ->
  strcmp fuel m a b = Some (byte_diff s t) /\ (byte_diff s t = 0 <-> s = t).
Proof.
  intros Hs Ht Hf. split; [by apply strcmp_spec|]. apply byte_diff_zero; by eapply cstr_nonzero.
Qed.

Lemma strcmp_correct_witness :
  strcmp 9 strtok_demo 17 18 = Some (byte_diff [97; 98; 44; 44; 99] [98; 44; 44; 99]).
Proof. apply strcmp_correct; [by vm_compute|by vm_compute|cbn; lia]. Defined.
