(* ===== verification/CMemmem.v ===== *)
(** Searching memory: a model of [memmem] and [strstr]
    ([src/libc/src/string/memmem.c], [strstr.c]).

    [memmem] scans naively for needles below eight bytes and uses a two-way
    search above.  The main loop of the latter takes [fuel]; [None] means that it
    is still running.  The theorems show that the naive scan finds the first
    occurrence, that the factorization of the needle always ends, and two inputs
    on which the two-way search goes wrong. *)

From S2P Require Import Prelude CMem CString.
From Stdlib Require Import ZArith Lia Bool.
From stdpp Require Import base tactics numbers list.
Open Scope Z_scope.

(** ** The functions *)

(** The loop of [critical_factorization]: the position and the period. *)
Fixpoint factor_loop (fuel : nat) (m : memory) (n nl ms p j k : Z) : option (Z * Z) :=
  match fuel with
  | O => None
  | S fuel =>
      if j + k <? nl then
        if m (n + (j + k)) =? m (n + (ms + k)) then
          if k =? p then factor_loop fuel m n nl ms p (j + p) 1
          else factor_loop fuel m n nl ms p j (k + 1)
        else if m (n + (ms + k)) <? m (n + (j + k)) then
          factor_loop fuel m n nl ms (j + k - ms) (j + k) 1
        else factor_loop fuel m n nl j 1 (j + 1) 1
      else Some (ms, p)
  end.

Definition critical_factorization (fuel : nat) (m : memory) (n nl : Z) : option (Z * Z) :=
  factor_loop fuel m n nl 0 1 0 1.

(** The loop for small needles: [k] positions from [i] on are left. *)
Fixpoint naive_loop (k : nat) (m : memory) (h n needlelen i : Z) : Z :=
  match k with
  | O => 0
  | S k =>
      if (m (h + i) =? m n) && (memcmp (h + i) n needlelen m =? 0) then h + i
      else naive_loop k m h n needlelen (i + 1)
  end.

(** The scan to the right: the first index from [i] on where the two differ. *)
Fixpoint match_right (fuel : nat) (m : memory) (h n needlelen j i : Z) : Z :=
  match fuel with
  | O => i
  | S fuel =>
      if (i <? needlelen) && (m (n + i) =? m (h + (j + i))) then match_right fuel m h n needlelen j (i + 1)
      else i
  end.

(** The scan to the left, down to [left]. *)
Fixpoint match_left (fuel : nat) (m : memory) (h n left j i : Z) : Z :=
  match fuel with
  | O => i
  | S fuel =>
      if (left <? i) && (m (n + (i - 1)) =? m (h + (j + i - 1))) then match_left fuel m h n left j (i - 1)
      else i
  end.

(** [(size_t)-1]. *)
Definition no_memory : Z := u32 (-1).

(** The main loop; [mem] is the variable [memory]. *)
Fixpoint two_way_loop (fuel : nat) (m : memory) (h hl n nl ms period : Z) (periodic : bool) (j mem : Z) : option Z :=
  match fuel with
  | O => None
  | S fuel =>
      if u32 (j + nl) <=? hl then
        let next := if periodic then u32 (nl - period - 1) else no_memory in
        let i := match_right (Z.to_nat nl) m h n nl j (u32 ((if mem <? ms then ms else mem) + 1)) in
        if i <? nl then two_way_loop fuel m h hl n nl ms period periodic (u32 (j + (i - ms))) next
        else
          let left := if mem =? no_memory then 0 else u32 (mem + 1) in
          let i := match_left (Z.to_nat nl) m h n left j (ms + 1) in
          if i <=? left then Some (h + j)
          else two_way_loop fuel m h hl n nl ms period periodic (u32 (j + period)) next
      else Some 0
  end.

Definition memmem (fuel : nat) (haystack haystacklen needle needlelen : Z) (m : memory) : option Z :=
  if needlelen =? 0 then Some haystack else
  if haystacklen <? needlelen then Some 0 else
  if needlelen <? 8 then
    Some (naive_loop (Z.to_nat (haystacklen - needlelen + 1)) m haystack needle needlelen 0)
  else
    match critical_factorization fuel m needle needlelen with
    | None => None
    | Some (ms, period) =>
        let periodic := memcmp needle (needle + period) (ms + 1) m =? 0 in
        two_way_loop fuel m haystack haystacklen needle needlelen ms period periodic 0 no_memory
    end.

Definition strstr (fuel : nat) (haystack needle : Z) (m : memory) : option Z :=
  match strlen fuel m haystack, strlen fuel m needle with
  | Some hl, Some nl => memmem fuel haystack hl needle nl m
  | _, _ => None
  end.

(** ** Small needles *)

(** The [nl] bytes at [n] are also at [a]. *)
Definition occurs (m : memory) (a n nl : Z) : Prop := forall k, 0 <= k < nl -> m (a + k) = m (n + k).

Lemma memcmp_zero m a n nl : 0 <= nl -> memcmp a n nl m = 0 <-> occurs m a n nl.
Proof. intros H. unfold memcmp. destruct (memcmp_from_spec (Z.to_nat nl) m a n) as [-> _]. by rewrite Z2Nat.id. Qed.

(** [p] is the first of the [lim] positions from [h] on where the needle
    occurs, or 0. *)
Definition first_occurrence (m : memory) (h n nl lim p : Z) : Prop :=
  (p = 0 /\ forall i, 0 <= i < lim -> ~ occurs m (h + i) n nl) \/
  (exists i, 0 <= i < lim /\ p = h + i /\ occurs m (h + i) n nl /\ forall i', 0 <= i' < i -> ~ occurs m (h + i') n nl).

Lemma naive_loop_spec m h n nl k : forall i,
  0 < nl -> 0 <= i -> (forall i', 0 <= i' < i -> ~ occurs m (h + i') n nl) ->
  first_occurrence m h n nl (i + Z.of_nat k) (naive_loop k m h n nl i).
Proof.
  induction k as [|k IH]; intros i Hn Hi Hno; cbn [naive_loop]; [left; split; [done|]; intros; apply Hno; lia|].
  destruct ((m (h + i) =? m n) && (memcmp (h + i) n nl m =? 0)) eqn:E.
  - apply andb_true_iff in E as [_ E]. apply Z.eqb_eq in E. apply memcmp_zero in E; [|lia]. right. exists i.
    split; [lia|done].
  - replace (i + Z.of_nat (S k)) with (i + 1 + Z.of_nat k) by lia. apply IH; [done|lia|].
    intros i' Hi'. destruct (Z.eq_dec i' i) as [->|]; [|apply Hno; lia]. intros Ho.
    apply andb_false_iff in E as [E|E]; apply Z.eqb_neq in E.
    + apply E. specialize (Ho 0). rewrite !Z.add_0_r in Ho. apply Ho. lia.
    + apply E, memcmp_zero; [lia|done].
Qed.

(** ** The factorization ends *)

(** The sum of the three positions grows in every round. *)
Lemma factor_loop_ends m n nl fuel : forall ms p j k,
  0 <= ms -> 1 <= k <= p -> (j = ms /\ p = 1 \/ p <= j - ms) -> 2 * nl - (ms + j + k) < Z.of_nat fuel ->
  0 < Z.of_nat fuel -> ms < nl -> exists ms' p', factor_loop fuel m n nl ms p j k = Some (ms', p') /\ 0 <= ms' < nl /\ 0 < p'.
Proof.
  induction fuel as [|fuel IH]; intros ms p j k Hms Hk Hp Hf H0 Hnl; [lia|]; cbn [factor_loop].
  destruct (Z.ltb_spec (j + k) nl); [|exists ms, p; split; [done|lia]].
  destruct (Z.eqb_spec (m (n + (j + k))) (m (n + (ms + k)))) as [He|He].
  - destruct (Z.eqb_spec k p) as [->|]; apply IH; lia.
  - destruct Hp as [[-> ->]|Hp]; [done|]. destruct (Z.ltb _ _); apply IH; lia.
Qed.

(** ** The theorems *)

(** For a needle of one to seven bytes, [memmem] returns the address of its
    first occurrence in the haystack, and [NULL] when there is none. *)
Theorem memmem_short_correct fuel h hl n nl m :
  0 < nl < 8 -> 0 <= hl ->
  exists p, memmem fuel h hl n nl m = Some p /\ first_occurrence m h n nl (hl - nl + 1) p.
Proof.
  intros Hn Hh. unfold memmem. replace (nl =? 0) with false by lia. replace (nl <? 8) with true by lia.
  destruct (Z.ltb_spec hl nl).
  - exists 0. split; [done|]. left. split; [done|]. intros i Hi. lia.
  - eexists. split; [done|]. pose proof (naive_loop_spec m h n nl (Z.to_nat (hl - nl + 1)) 0) as N.
    rewrite Z.add_0_l, Z2Nat.id in N by lia. apply N; [lia|lia|]. intros i Hi. lia.
Qed.

Lemma memmem_short_correct_witness :
  exists p, memmem 0 17 5 21 1 strtok_demo = Some p /\ first_occurrence strtok_demo 17 21 1 5 p.
Proof. exact (memmem_short_correct 0 17 5 21 1 strtok_demo ltac:(lia) ltac:(lia)). Defined.

(** The factorization of a needle ends within twice its length plus one
    rounds, with a position inside the needle and a positive period. *)
Theorem critical_factorization_ends m n nl fuel :
  0 < nl -> 2 * nl < Z.of_nat fuel ->
  exists ms p, critical_factorization fuel m n nl = Some (ms, p) /\ 0 <= ms < nl /\ 0 < p.
Proof. intros Hn Hf. apply factor_loop_ends; lia. Qed.

Lemma critical_factorization_ends_witness :
  exists ms p, critical_factorization 13 strtok_demo 16 6 = Some (ms, p) /\ 0 <= ms < 6 /\ 0 < p.
Proof. apply (critical_factorization_ends strtok_demo 16 6 13); lia. Defined.

(** The two-way search stays at one position for ever when the maximal suffix
    starts at 0 and the first bytes differ. *)
Lemma two_way_stuck m h hl n nl period fuel :
  0 < nl <= hl -> hl < 2 ^ 32 -> m n <> m h ->
  two_way_loop fuel m h hl n nl 0 period false 0 no_memory = None.
Proof.
  intros Hn Hh Hne. induction fuel as [|fuel IH]; [done|]. cbn [two_way_loop]. change (2 ^ 32) with 4294967296 in Hh.
  rewrite Z.add_0_l, u32_small by lia. replace (nl <=? hl) with true by lia.
  change (u32 ((if no_memory <? 0 then 0 else no_memory) + 1)) with 0.
  assert (E : match_right (Z.to_nat nl) m h n nl 0 0 = 0).
  { destruct (Z.to_nat nl); [done|]. cbn [match_right]. rewrite !Z.add_0_r.
    replace (m n =? m h) with false by lia. by rewrite andb_false_r. }
  rewrite E. replace (0 <? nl) with true by lia. exact IH.
Qed.

(** [memmem] does not return for some needles of eight bytes or more.
    When the factorization of the needle is at 0 with a period that the needle
    does not repeat, and the haystack does not start with the first byte of the
    needle, the main loop never advances. *)
Theorem memmem_diverges m h hl n nl period :
  8 <= nl <= hl -> hl < 2 ^ 32 -> m n <> m h -> m n <> m (n + period) ->
  (forall fuel, critical_factorization fuel m n nl = None \/ critical_factorization fuel m n nl = Some (0, period)) ->
  forall fuel, memmem fuel h hl n nl m = None.
Proof.
  intros Hn Hh Hne Hp Hc fuel. unfold memmem. replace (nl =? 0) with false by lia.
  replace (hl <? nl) with false by lia. replace (nl <? 8) with false by lia.
  destruct (Hc fuel) as [-> | ->]; [done|].
  replace (memcmp n (n + period) (0 + 1) m =? 0) with false; [apply two_way_stuck; [lia|done..]|].
  symmetry. apply Z.eqb_neq. rewrite memcmp_zero by lia. intros Ho. specialize (Ho 0). rewrite !Z.add_0_r in Ho.
  apply Hp, Ho. lia.
Qed.

(** The needle "abcdefgh" at address 8 and the haystack "xabcdefgh" at 32. *)
Definition memmem_demo : memory :=
  put (put (fun _ => 0) 8 [97; 98; 99; 100; 101; 102; 103; 104]) 32 [120; 97; 98; 99; 100; 101; 102; 103; 104].

Lemma memmem_diverges_witness :
  memmem 10 32 9 8 8 memmem_demo = None /\ memmem 1000 32 9 8 8 memmem_demo = None.
Proof.
  assert (D : forall fuel, memmem fuel 32 9 8 8 memmem_demo = None); [|exact (conj (D _) (D _))].
  apply (memmem_diverges memmem_demo 32 9 8 8 7); [lia|lia|by vm_compute|by vm_compute|].
  intros fuel. do 8 (destruct fuel as [|fuel]; [left; reflexivity|]). right. reflexivity.
Defined.

(** With a periodic needle [memmem] reports matches that are none.  It finds
    "aaaaaaaa" in "baaaaaaa", because after the first mismatch the bytes before
    the last are taken as matched. *)
Theorem memmem_false_match :
  let m := put (put (fun _ => 0) 8 [97; 97; 97; 97; 97; 97; 97; 97]) 32 [98; 97; 97; 97; 97; 97; 97; 97] in
  strstr 20 32 8 m = Some 32 /\ ~ occurs m 32 8 8.
Proof.
  cbv zeta. split; [vm_compute; reflexivity|]. intros Ho. specialize (Ho 0 ltac:(lia)). vm_compute in Ho. discriminate Ho.
Qed.
