(* ===== verification/Slab.v ===== *)
(** The slab allocator: a model of [src/kernel/kernel/memory/slab.c].

    A slab is one page: the [slab_t] structure at its start and, behind it,
    objects of one size.  The memory is a store of bytes.  The first word of a
    slab, its magic number, and the words that link the free objects are read and
    written in it, because the same words are read as something else when a
    pointer is looked up; the other fields of a [slab_t] are a record kept by
    address.  They occupy the bytes 4 to 35 of the page, which no object touches.
    A pointer to one of the eight caches is the index of the cache, and a pointer
    to one of its list heads is the cache and the kind of the list.  The pages
    come from [vmm_kernel_alloc], an interface here ([PageOps]).  Spinlocks are
    not modelled. *)

From S2P Require Import Prelude Dll CMem Paging.
From Stdlib Require Import ZArith Lia Bool.
From stdpp Require Import base tactics numbers list sets gmap.
Open Scope Z_scope.

(** What a client of the virtual memory manager calls: the size is in bytes, and
    the address 0 stands for failure. *)
Class PageOps (P : Type) := {
  page_alloc : Z -> P -> Z * P;
  page_free : Z -> Z -> P -> P }.

(** ** Data *)

Inductive slab_list_type := SLAB_LIST_EMPTY | SLAB_LIST_PARTIAL | SLAB_LIST_FULL.

#[export] Instance slab_list_type_eq_dec : EqDecision slab_list_type.
Proof. solve_decision. Defined.

Definition SLAB_MAX_SIZE : Z := 2048.
Definition SLAB_NUM_CACHES : Z := 8.
Definition SLAB_MAGIC : Z := 0x5AB5AB5A.
Definition SIZEOF_SLAB : Z := 36.

(** [SLAB_SIZE_CLASSES[i]]. *)
Definition SLAB_SIZE_CLASSES (i : Z) : Z :=
  match i with
  | 0 => 8 | 1 => 16 | 2 => 32 | 3 => 64 | 4 => 128 | 5 => 256 | 6 => 512 | 7 => 1024
  | _ => 0
  end.

(** [slab_t] without its magic number; [sl_cache] is the index of the cache. *)
Record slab := mk_slab {
  sl_next : Z; sl_prev : Z; sl_cache : Z; objects_start : Z; free_list : Z;
  num_objects : Z; num_free : Z; sl_object_size : Z; current_list : slab_list_type }.

Record slab_cache := mk_cache {
  object_size : Z; objects_per_slab : Z; slab_pages : Z;
  list_head : slab_list_type -> Z;
  num_slabs : Z; num_allocations : Z; num_frees : Z; num_active_objects : Z }.

Record slab_stats := mk_slab_stats {
  ss_total_allocated : Z; ss_total_freed : Z; ss_current_usage : Z; ss_peak_usage : Z;
  ss_num_allocations : Z; ss_num_frees : Z; ss_num_slabs_created : Z; ss_num_page_allocs : Z }.

(** The globals of the file, the memory and the state behind [PageOps]. *)
Record heap (P : Type) := mk_heap {
  mem : memory; slabs : Z -> slab; slab_caches : Z -> slab_cache;
  global_stats : slab_stats; slab_initialized : bool; pages : P }.
Arguments mk_heap {P}.
Arguments mem {P}.
Arguments slabs {P}.
Arguments slab_caches {P}.
Arguments global_stats {P}.
Arguments slab_initialized {P}.
Arguments pages {P}.

Section Setters.
Context {P : Type}.
Implicit Types (h : heap P).

Definition set_mem m h : heap P := mk_heap m (slabs h) (slab_caches h) (global_stats h) (slab_initialized h) (pages h).
Definition set_slab x s h : heap P :=
  mk_heap (mem h) (slabs h).[x <- s] (slab_caches h) (global_stats h) (slab_initialized h) (pages h).
Definition set_cache c k h : heap P :=
  mk_heap (mem h) (slabs h) (slab_caches h).[c <- k] (global_stats h) (slab_initialized h) (pages h).
Definition set_stats g h : heap P := mk_heap (mem h) (slabs h) (slab_caches h) g (slab_initialized h) (pages h).
Definition set_pages p h : heap P := mk_heap (mem h) (slabs h) (slab_caches h) (global_stats h) (slab_initialized h) p.
End Setters.

Definition set_sl_next v s := mk_slab v (sl_prev s) (sl_cache s) (objects_start s) (free_list s) (num_objects s) (num_free s) (sl_object_size s) (current_list s).
Definition set_sl_prev v s := mk_slab (sl_next s) v (sl_cache s) (objects_start s) (free_list s) (num_objects s) (num_free s) (sl_object_size s) (current_list s).
Definition set_free_list v n s := mk_slab (sl_next s) (sl_prev s) (sl_cache s) (objects_start s) v (num_objects s) n (sl_object_size s) (current_list s).
Definition set_current_list t s := mk_slab (sl_next s) (sl_prev s) (sl_cache s) (objects_start s) (free_list s) (num_objects s) (num_free s) (sl_object_size s) t.

#[export] Program Instance slab_linked : Linked slab := {|
  lnext := sl_next; lprev := sl_prev; set_lnext := set_sl_next; set_lprev := set_sl_prev |}.
Solve All Obligations with done.

(** The list head [t] of a cache set to [v]. *)
Definition set_head t v k : slab_cache :=
  mk_cache (object_size k) (objects_per_slab k) (slab_pages k)
    (fun t' => if decide (t' = t) then v else list_head k t')
    (num_slabs k) (num_allocations k) (num_frees k) (num_active_objects k).
Definition set_num_slabs n k : slab_cache :=
  mk_cache (object_size k) (objects_per_slab k) (slab_pages k) (list_head k)
    n (num_allocations k) (num_frees k) (num_active_objects k).
Definition set_counts a f n k : slab_cache :=
  mk_cache (object_size k) (objects_per_slab k) (slab_pages k) (list_head k) (num_slabs k) a f n.

(** ** Initialization *)

Definition calculate_slab_pages (object_size : Z) : Z :=
  let available_in_one_page := PAGE_SIZE - SIZEOF_SLAB in
  let objects_in_one_page := available_in_one_page / object_size in
  if (8 <=? objects_in_one_page) || (512 <=? object_size) then 1 else 2.

Definition calculate_objects_per_slab (object_size pages : Z) : Z :=
  let total_size := u32 (pages * PAGE_SIZE) in
  u32 (total_size - SIZEOF_SLAB) / object_size.

Definition init_cache (object_size : Z) : slab_cache :=
  let pages := calculate_slab_pages object_size in
  mk_cache object_size (calculate_objects_per_slab object_size pages) pages (fun _ => 0) 0 0 0 0.

Section Ops.
Context {P : Type} `{!PageOps P}.
Implicit Types (h : heap P).

Definition slab_init h : heap P :=
  if slab_initialized h then h else
  let caches := for_loop SLAB_NUM_CACHES
    (fun i cs => cs.[i <- init_cache (SLAB_SIZE_CLASSES i)]) (slab_caches h) in
  mk_heap (mem h) (slabs h) caches (mk_slab_stats 0 0 0 0 0 0 0 0) true (pages h).

(** The index of the cache, [None] for [NULL]. *)
Definition slab_find_cache (size : Z) : option Z :=
  if (size =? 0) || (SLAB_MAX_SIZE <? size) then None
  else find_from (Z.to_nat SLAB_NUM_CACHES) 0 (fun i => size <=? SLAB_SIZE_CLASSES i).

(** ** Lists of slabs *)

Definition remove_from_list (slab c : Z) (t : slab_list_type) h : heap P :=
  let prev := sl_prev (slabs h slab) in
  let next := sl_next (slabs h slab) in
  let h := if negb (prev =? 0) then set_slab prev (set_sl_next next (slabs h prev)) h
           else set_cache c (set_head t next (slab_caches h c)) h in
  let h := if negb (sl_next (slabs h slab) =? 0)
           then set_slab (sl_next (slabs h slab)) (set_sl_prev (sl_prev (slabs h slab)) (slabs h (sl_next (slabs h slab)))) h
           else h in
  let h := set_slab slab (set_sl_next 0 (slabs h slab)) h in
  set_slab slab (set_sl_prev 0 (slabs h slab)) h.

Definition add_to_list (slab c : Z) (t : slab_list_type) h : heap P :=
  let head := list_head (slab_caches h c) t in
  let h := set_slab slab (set_sl_next head (slabs h slab)) h in
  let h := set_slab slab (set_sl_prev 0 (slabs h slab)) h in
  let h := if negb (head =? 0) then set_slab head (set_sl_prev slab (slabs h head)) h else h in
  set_cache c (set_head t slab (slab_caches h c)) h.

(** The list a slab belongs to. *)
Definition target_list (s : slab) : slab_list_type :=
  if num_free s =? 0 then SLAB_LIST_FULL
  else if num_free s =? num_objects s then SLAB_LIST_EMPTY
  else SLAB_LIST_PARTIAL.

Definition slab_update_lists (slab : Z) h : heap P :=
  if (slab =? 0) || negb (load32 (mem h) slab =? SLAB_MAGIC) then h else
  let cache := sl_cache (slabs h slab) in
  let target := target_list (slabs h slab) in
  if decide (current_list (slabs h slab) = target) then h else
  let h := remove_from_list slab cache (current_list (slabs h slab)) h in
  let h := add_to_list slab cache target h in
  set_slab slab (set_current_list target (slabs h slab)) h.

(** ** Creation and destruction *)

(** The loop that threads the objects: the memory, the head of the free list and
    the next object. *)
Definition thread_object (object_size : Z) (_ : Z) (st : memory * Z * Z) : memory * Z * Z :=
  let '(m, fl, object_ptr) := st in (store32 m object_ptr fl, object_ptr, u32 (object_ptr + object_size)).

Definition slab_create_slab (c : Z) h : Z * heap P :=
  let cache := slab_caches h c in
  let '(slab_memory, p) := page_alloc (u32 (slab_pages cache * PAGE_SIZE)) (pages h) in
  let h := set_pages p h in
  if slab_memory =? 0 then (0, h) else
  let start := u32 (slab_memory + SIZEOF_SLAB) in
  let m := store32 (mem h) slab_memory SLAB_MAGIC in
  let n := u16 (objects_per_slab cache) in
  let '(m, fl, _) := for_loop n (thread_object (object_size cache)) (m, 0, start) in
  let h := set_mem m h in
  let h := set_slab slab_memory
    (mk_slab 0 0 c start fl n n (u16 (object_size cache)) SLAB_LIST_EMPTY) h in
  let h := set_cache c (set_num_slabs (u32 (num_slabs cache + 1)) cache) h in
  let g := global_stats h in
  let h := set_stats (mk_slab_stats (ss_total_allocated g) (ss_total_freed g) (ss_current_usage g) (ss_peak_usage g)
    (ss_num_allocations g) (ss_num_frees g) (u32 (ss_num_slabs_created g + 1))
    (u32 (ss_num_page_allocs g + slab_pages cache))) h in
  (slab_memory, add_to_list slab_memory c SLAB_LIST_EMPTY h).

Definition slab_destroy_slab (slab : Z) h : heap P :=
  if (slab =? 0) || negb (load32 (mem h) slab =? SLAB_MAGIC) then h else
  let c := sl_cache (slabs h slab) in
  let alloc_size := u32 (slab_pages (slab_caches h c) * PAGE_SIZE) in
  let h := remove_from_list slab c (target_list (slabs h slab)) h in
  let h := set_mem (store32 (mem h) slab 0) h in
  let h := set_pages (page_free slab alloc_size (pages h)) h in
  set_cache c (set_num_slabs (u32 (num_slabs (slab_caches h c) - 1)) (slab_caches h c)) h.

(** ** Objects *)

Definition slab_alloc_from_slab (slab : Z) h : Z * heap P :=
  if (slab =? 0) || negb (load32 (mem h) slab =? SLAB_MAGIC) || (num_free (slabs h slab) =? 0) then (0, h) else
  let obj := free_list (slabs h slab) in
  if obj =? 0 then (0, h) else
  (obj, set_slab slab (set_free_list (load32 (mem h) obj) (u16 (num_free (slabs h slab) - 1)) (slabs h slab)) h).

(** Whether the free list from [current] on contains [ptr].  A slab has at most
    507 objects, so a longer walk is one along a cycle, which does not end. *)
Fixpoint in_free_list (fuel : nat) (m : memory) (current ptr : Z) : option bool :=
  match fuel with
  | O => None
  | S fuel =>
      if current =? 0 then Some false
      else if current =? ptr then Some true
      else in_free_list fuel m (load32 m current) ptr
  end.

Definition FREE_LIST_FUEL : nat := 1024.

Definition slab_free_to_slab (slab ptr : Z) h : option (bool * heap P) :=
  if (slab =? 0) || negb (load32 (mem h) slab =? SLAB_MAGIC) || (ptr =? 0) then Some (false, h) else
  match in_free_list FREE_LIST_FUEL (mem h) (free_list (slabs h slab)) ptr with
  | None => None
  | Some true => Some (false, h)
  | Some false =>
      let h := set_mem (store32 (mem h) ptr (free_list (slabs h slab))) h in
      Some (true, set_slab slab (set_free_list ptr (u16 (num_free (slabs h slab) + 1)) (slabs h slab)) h)
  end.

(** ** Allocation and release *)

(** The counters after an allocation from cache [c]. *)
Definition count_alloc (c : Z) h : heap P :=
  let k := slab_caches h c in
  let h := set_cache c (set_counts (u32 (num_allocations k + 1)) (num_frees k) (u32 (num_active_objects k + 1)) k) h in
  let g := global_stats h in
  let usage := u32 (ss_current_usage g + object_size k) in
  set_stats (mk_slab_stats (u32 (ss_total_allocated g + object_size k)) (ss_total_freed g) usage
    (if ss_peak_usage g <? usage then usage else ss_peak_usage g)
    (u32 (ss_num_allocations g + 1)) (ss_num_frees g) (ss_num_slabs_created g) (ss_num_page_allocs g)) h.

Definition slab_alloc (size : Z) h : Z * heap P :=
  if negb (slab_initialized h) then (0, h) else
  if (size =? 0) || (SLAB_MAX_SIZE <? size) then (0, h) else
  match slab_find_cache size with
  | None => (0, h)
  | Some c =>
      let cache := slab_caches h c in
      let '(slab, h) :=
        if negb (list_head cache SLAB_LIST_PARTIAL =? 0) then (list_head cache SLAB_LIST_PARTIAL, h)
        else if negb (list_head cache SLAB_LIST_EMPTY =? 0) then (list_head cache SLAB_LIST_EMPTY, h)
        else slab_create_slab c h in
      if slab =? 0 then (0, h) else
      let '(ptr, h) := slab_alloc_from_slab slab h in
      if negb (ptr =? 0) then (ptr, slab_update_lists slab (count_alloc c h))
      else (ptr, h)
  end.

(** The slab of a pointer, 0 for [NULL]. *)
Definition slab_get_slab (ptr : Z) h : Z :=
  if ptr =? 0 then 0 else
  let slab := Z.land ptr (u32 (Z.lnot (PAGE_SIZE - 1))) in
  if negb (load32 (mem h) slab =? SLAB_MAGIC) then 0 else
  let obj_start := objects_start (slabs h slab) in
  let obj_end := u32 (obj_start + num_objects (slabs h slab) * sl_object_size (slabs h slab)) in
  if (ptr <? obj_start) || (obj_end <=? ptr) then 0 else slab.

(** The counters after a release to cache [c]. *)
Definition count_free (c : Z) h : heap P :=
  let k := slab_caches h c in
  let h := set_cache c (set_counts (num_allocations k) (u32 (num_frees k + 1)) (u32 (num_active_objects k - 1)) k) h in
  let g := global_stats h in
  set_stats (mk_slab_stats (ss_total_allocated g) (u32 (ss_total_freed g + object_size k))
    (u32 (ss_current_usage g - object_size k)) (ss_peak_usage g) (ss_num_allocations g) (u32 (ss_num_frees g + 1))
    (ss_num_slabs_created g) (ss_num_page_allocs g)) h.

Definition slab_free (ptr : Z) h : option (bool * heap P) :=
  if (ptr =? 0) || negb (slab_initialized h) then Some (false, h) else
  let slab := slab_get_slab ptr h in
  if slab =? 0 then Some (false, h) else
  let c := sl_cache (slabs h slab) in
  match slab_free_to_slab slab ptr h with
  | None => None
  | Some (false, h) => Some (false, h)
  | Some (true, h) =>
      let h := slab_update_lists slab (count_free c h) in
      let empty := list_head (slab_caches h c) SLAB_LIST_EMPTY in
      let h :=
        if (num_free (slabs h slab) =? num_objects (slabs h slab)) && negb (empty =? slab)
        then if negb (empty =? 0) && (sl_next (slabs h empty) =? slab) then slab_destroy_slab slab h else h
        else h in
      Some (true, h)
  end.

Definition slab_get_stats h : slab_stats := global_stats h.

(** ** Validation *)

(** The loop over one list of cache [c]; the walk of a cyclic list does not end. *)
Fixpoint validate_list (fuel : nat) (c slab : Z) (valid : bool) h : option bool :=
  match fuel with
  | O => None
  | S fuel =>
      if slab =? 0 then Some valid else
      let s := slabs h slab in
      let valid := if load32 (mem h) slab =? SLAB_MAGIC then valid else false in
      let valid := if sl_cache s =? c then valid else false in
      let valid := if num_objects s <? num_free s then false else valid in
      validate_list fuel c (sl_next s) valid h
  end.

Definition validate_cache (fuel : nat) h (c : Z) (valid : option bool) : option bool :=
  let step t valid := match valid with
                      | None => None
                      | Some b => validate_list fuel c (list_head (slab_caches h c) t) b h
                      end in
  step SLAB_LIST_EMPTY (step SLAB_LIST_FULL (step SLAB_LIST_PARTIAL valid)).

(** [fuel] bounds the number of slabs of a list. *)
Definition slab_validate (fuel : nat) h : option bool :=
  if negb (slab_initialized h) then Some false
  else for_loop SLAB_NUM_CACHES (validate_cache fuel h) (Some true).
End Ops.
