(* ===== verification/SlabInv.v ===== *)
(** The invariant of the slab allocator, and what its list operations do.

    [slab_inv h L F O]: the lists of slabs of the caches are [L], the free list of
    the slab [x] is [F x], and the page source has given out the regions [O].
    [refines h L F B] relates this to the abstract heap [B], which maps the
    address of every allocated object to its size. *)

From S2P Require Import Prelude Dll CMem Paging Slab.
From Stdlib Require Import ZArith Lia Bool.
From stdpp Require Import base tactics numbers list sets gmap.
Open Scope Z_scope.

(** What the clients of the virtual memory manager rely on.  [pg_inv p O]: the
    regions given out and not given back are [O], as pairs of an address and a
    number of pages. *)
Class PageSource (P : Type) `{!PageOps P} := {
  pg_inv : P -> list (Z * Z) -> Prop;
  pg_region p O a n : pg_inv p O -> (a, n) ∈ O ->
    0 < n /\ 0 < a /\ a mod 4096 = 0 /\ a + 4096 * n < 2 ^ 32;
  pg_disjoint p O a n b k : pg_inv p O -> (a, n) ∈ O -> (b, k) ∈ O -> (a, n) <> (b, k) ->
    a + 4096 * n <= b \/ b + 4096 * k <= a;
  pg_alloc p O n : pg_inv p O -> 0 < n < 2 ^ 20 ->
    let '(a, p') := page_alloc (4096 * n) p in
    (a = 0 /\ pg_inv p' O) \/ (a <> 0 /\ (a, n) ∉ O /\ pg_inv p' ((a, n) :: O));
  pg_free p O1 a n O2 : pg_inv p (O1 ++ (a, n) :: O2) -> n < 2 ^ 20 ->
    pg_inv (page_free a (4096 * n) p) (O1 ++ O2) }.

(** ** Words in memory *)

(** The free objects from [p] on, linked by their first words. *)
Fixpoint chain (m : memory) (p : Z) (l : list Z) : Prop :=
  match l with
  | [] => p = 0
  | x :: l => p = x /\ x <> 0 /\ chain m (load32 m x) l
  end.

Lemma free_chain_frame m m' p l :
  (forall o x, o ∈ l -> o <= x < o + 4 -> m' x = m x) -> chain m p l -> chain m' p l.
Proof.
  revert p. induction l as [|o l IH]; intros p Hf; [done|]. cbn [chain]. intros (-> & ? & H).
  split; [done|]. split; [done|]. rewrite (load32_frame m m') by (intros; eapply Hf; set_solver).
  apply IH; [|done]. intros o' x Ho. apply Hf. set_solver.
Qed.

Lemma in_free_list_spec m l ptr : forall fuel p,
  chain m p l -> (length l < fuel)%nat -> in_free_list fuel m p ptr = Some (bool_decide (ptr ∈ l)).
Proof.
  induction l as [|x l IH]; intros fuel p H Hf; (destruct fuel as [|fuel]; [cbn in Hf; lia|]); cbn [in_free_list].
  - cbn in H. subst p. cbn. by rewrite bool_decide_eq_false_2 by set_solver.
  - destruct H as (-> & Hx & H). replace (x =? 0) with false by lia. destruct (Z.eqb_spec x ptr) as [->|Hne].
    + by rewrite bool_decide_eq_true_2 by set_solver.
    + rewrite (IH fuel _ H) by (cbn in Hf; lia). f_equal. apply bool_decide_ext. set_solver.
Qed.

(** ** Objects *)

Abbreviation cache_no c := (0 <= c < 8) (only parsing).
Abbreviation size_of c := (SLAB_SIZE_CLASSES c) (only parsing).

(** The number of objects in a slab of cache [c]. *)
Definition per_slab (c : Z) : Z := 4060 / SLAB_SIZE_CLASSES c.

Lemma cache_cases (Q : Z -> Prop) : Q 0 -> Q 1 -> Q 2 -> Q 3 -> Q 4 -> Q 5 -> Q 6 -> Q 7 -> forall c, cache_no c -> Q c.
Proof.
  intros. assert (c = 0 \/ c = 1 \/ c = 2 \/ c = 3 \/ c = 4 \/ c = 5 \/ c = 6 \/ c = 7) as Hc by lia.
  by repeat destruct Hc as [->|Hc]; subst.
Qed.

Lemma class_facts c : cache_no c ->
  8 <= size_of c <= 1024 /\ 2 <= per_slab c <= 507 /\ SIZEOF_SLAB + size_of c * per_slab c <= 4096.
Proof. revert c. apply cache_cases; by vm_compute. Qed.

(** [o] is the address of an object in the slab [x] of cache [c]. *)
Definition is_obj (x c o : Z) : Prop := exists i, 0 <= i < per_slab c /\ o = x + SIZEOF_SLAB + size_of c * i.

Lemma is_obj_range x c o : cache_no c -> is_obj x c o -> x + SIZEOF_SLAB <= o /\ o + size_of c <= x + 4096.
Proof.
  intros Hc (i & Hi & ->). destruct (class_facts c Hc) as (H1 & H2 & H3). unfold SIZEOF_SLAB in *.
  assert (size_of c * (i + 1) <= size_of c * per_slab c) by (apply Z.mul_le_mono_nonneg_l; lia). nia.
Qed.

Lemma is_obj_apart x c o o' : cache_no c -> is_obj x c o -> is_obj x c o' -> o <> o' ->
  o + size_of c <= o' \/ o' + size_of c <= o.
Proof.
  intros Hc (i & Hi & ->) (j & Hj & ->) Hne. destruct (class_facts c Hc) as (H1 & _).
  assert (i <> j) by congruence. destruct (Z.lt_total i j) as [?|[?|?]]; [left|done|right]; nia.
Qed.

(** ** Slabs *)

Record slab_body (m : memory) (c x : Z) (s : slab) (fl : list Z) : Prop := {
  so_magic : load32 m x = SLAB_MAGIC;
  so_cache : sl_cache s = c;
  so_start : objects_start s = x + SIZEOF_SLAB;
  so_objects : num_objects s = per_slab c;
  so_size : sl_object_size s = SLAB_SIZE_CLASSES c;
  so_free : num_free s = Z.of_nat (length fl);
  so_chain : chain m (free_list s) fl;
  so_NoDup : NoDup fl;
  so_objs o : o ∈ fl -> is_obj x c o }.

(** The slab [x] of cache [c] with the free objects [fl], in the list [t]. *)
Record slab_ok (m : memory) (c : Z) (t : slab_list_type) (x : Z) (s : slab) (fl : list Z) : Prop := {
  so_body : slab_body m c x s fl;
  so_list : current_list s = t;
  so_target : target_list s = t }.

(** The fields of a slab that its lists do not use. *)
Definition core (s : slab) : slab := set_sl_next 0 (set_sl_prev 0 s).

Lemma core_fields s s' : core s' = core s ->
  sl_cache s' = sl_cache s /\ objects_start s' = objects_start s /\ free_list s' = free_list s /\
  num_objects s' = num_objects s /\ num_free s' = num_free s /\ sl_object_size s' = sl_object_size s /\
  current_list s' = current_list s.
Proof. destruct s, s'. unfold core, set_sl_next, set_sl_prev. cbn. intros E. by injection E. Qed.

Lemma slab_body_core m c x s s' fl : core s' = core s -> slab_body m c x s fl -> slab_body m c x s' fl.
Proof. intros (E1 & E2 & E3 & E4 & E5 & E6 & _)%core_fields []. split; by rewrite ?E1, ?E2, ?E3, ?E4, ?E5, ?E6. Qed.

Lemma core_set_current t s s' : core s' = core s -> core (set_current_list t s') = core (set_current_list t s).
Proof. destruct s, s'. unfold core, set_current_list, set_sl_next, set_sl_prev. cbn. congruence. Qed.

Lemma target_core s s' : core s' = core s -> target_list s' = target_list s.
Proof. intros (_ & _ & _ & E4 & E5 & _)%core_fields. unfold target_list. by rewrite E4, E5. Qed.

Lemma slab_ok_core m c t x s s' fl : core s' = core s -> slab_ok m c t x s fl -> slab_ok m c t x s' fl.
Proof.
  intros E [H1 H2 H3]. split; [by eapply slab_body_core| |by rewrite (target_core s)].
  apply core_fields in E as (_ & _ & _ & _ & _ & _ & ->). done.
Qed.

Lemma slab_ok_mem m m' c t x s fl :
  (forall y, x <= y < x + 4 -> m' y = m y) -> (forall o y, o ∈ fl -> o <= y < o + 4 -> m' y = m y) ->
  slab_ok m c t x s fl -> slab_ok m' c t x s fl.
Proof.
  intros H1 H2 [[] ? ?]. split; [|done..]. split; try done; [by rewrite (load32_frame m)|by eapply free_chain_frame].
Qed.

(** A free list has at most as many entries as the slab has objects. *)
Lemma objs_length x c fl : cache_no c -> NoDup fl -> (forall o, o ∈ fl -> is_obj x c o) -> Z.of_nat (length fl) <= per_slab c.
Proof.
  intros Hc Hn Ho. destruct (class_facts c Hc) as (H1 & H2 & _).
  set (all := map (fun i => x + SIZEOF_SLAB + size_of c * Z.of_nat i) (seq 0 (Z.to_nat (per_slab c)))).
  assert (Hs : fl ⊆ all).
  { intros o Hin. destruct (Ho o Hin) as (i & Hi & ->). apply list_elem_of_fmap. exists (Z.to_nat i).
    rewrite Z2Nat.id by lia. split; [done|]. apply elem_of_seq. lia. }
  pose proof (submseteq_length _ _ (NoDup_submseteq _ _ Hn Hs)) as Hl. unfold all in Hl. rewrite length_map, length_seq in Hl. lia.
Qed.

(** ** Lists of slabs *)

Definition slab_lists := Z -> slab_list_type -> list Z.

(** A slab is in one list. *)
Definition list_disjoint (L : slab_lists) : Prop :=
  forall c t c' t' x, cache_no c -> cache_no c' -> x ∈ L c t -> x ∈ L c' t' -> c = c' /\ t = t'.

Definition lupd (L : slab_lists) (c : Z) (t : slab_list_type) (l : list Z) : slab_lists :=
  fun c' t' => if decide (c' = c /\ t' = t) then l else L c' t'.

Lemma lupd_eq L c t l : lupd L c t l c t = l.
Proof. unfold lupd. by rewrite decide_True. Qed.

Lemma lupd_ne L c t l c' t' : ~ (c' = c /\ t' = t) -> lupd L c t l c' t' = L c' t'.
Proof. intros H. unfold lupd. by rewrite decide_False. Qed.

(** The lists [L'] are [L] with [x] moved to the list [t'] of cache [c]. *)
Definition moved (L L' : slab_lists) (x c : Z) (t' : slab_list_type) : Prop :=
  forall c0 t0 y, cache_no c0 -> y ∈ L' c0 t0 <-> (y = x /\ c0 = c /\ t0 = t') \/ (y <> x /\ y ∈ L c0 t0).

Lemma moved_id L x c t : cache_no c -> list_disjoint L -> x ∈ L c t -> moved L L x c t.
Proof.
  intros Hc HJ Hx c0 t0 y Hc0. destruct (decide (y = x)) as [->|]; [|naive_solver]. split; [|naive_solver].
  intros Hx0. left. by destruct (HJ c0 t0 c t x) as [-> ->].
Qed.

Lemma moved_lupd L c t l1 x l2 t' :
  cache_no c -> list_disjoint L -> NoDup (L c t) -> L c t = l1 ++ x :: l2 -> t <> t' ->
  moved L (lupd (lupd L c t (l1 ++ l2)) c t' (x :: L c t')) x c t'.
Proof.
  intros Hc HJ Hnd E Ht c0 t0 y Hc0.
  assert (Hxc : x ∈ L c t) by (rewrite E, elem_of_app; right; by left).
  assert (Hx : forall c0 t0, cache_no c0 -> x ∈ L c0 t0 -> c0 = c /\ t0 = t) by (intros ????; by apply (HJ _ _ _ _ x)).
  rewrite E in Hnd. apply NoDup_app in Hnd as (_ & Hnd1 & Hnd2). apply NoDup_cons in Hnd2 as [Hnd2 _].
  assert (Hx12 : x ∉ l1 ++ l2).
  { rewrite elem_of_app. intros [H1|H1]; [|done]. apply (Hnd1 x H1). by left. }
  unfold lupd. destruct (decide (c0 = c /\ t0 = t')) as [[-> ->]|N1]; [|destruct (decide (c0 = c /\ t0 = t)) as [[-> ->]|N2]].
  - rewrite elem_of_cons. destruct (decide (y = x)) as [->|]; intuition.
  - rewrite E. destruct (decide (y = x)) as [->|Hyx]; [split; [done|]; intros [(_ & _ & ?)|[? _]]; congruence|].
    rewrite !elem_of_app, elem_of_cons. intuition.
  - destruct (decide (y = x)) as [->|Hyx]; [|intuition]. split; [intros Hx0; destruct N2; by apply Hx|].
    intros [[? ?]|[? ?]]; [by destruct N1|done].
Qed.

Section Lists.
Context {P : Type}.
Implicit Types (h : heap P) (L : slab_lists).

Record lists h L : Prop := {
  li_dlist c t : cache_no c -> dlist (slabs h) (list_head (slab_caches h c) t) (L c t);
  li_disjoint : list_disjoint L }.

(** The sizes of a cache. *)
Definition geometry (k : slab_cache) := (object_size k, objects_per_slab k, slab_pages k).

(** Nothing but the links of slabs and the list heads differs. *)
Record relinked h h' : Prop := {
  rl_mem : mem h' = mem h;
  rl_pages : pages h' = pages h;
  rl_init : slab_initialized h' = slab_initialized h;
  rl_core y : core (slabs h' y) = core (slabs h y);
  rl_geometry c : geometry (slab_caches h' c) = geometry (slab_caches h c) }.

Lemma relinked_trans h1 h2 h3 : relinked h1 h2 -> relinked h2 h3 -> relinked h1 h3.
Proof. intros [] []. split; intros; congruence. Qed.

Lemma core_upd (f : Z -> slab) x s y : core s = core (f x) -> core (f.[x <- s] y) = core (f y).
Proof. intros H. rewrite upd_cases. destruct (decide (y = x)); congruence. Qed.

Lemma head_upd (f : Z -> slab_cache) c t v c' t' :
  list_head (f.[c <- set_head t v (f c)] c') t' = if decide (c' = c /\ t' = t) then v else list_head (f c') t'.
Proof.
  rewrite upd_cases. destruct (decide (c' = c)) as [->|Hc]; cbn.
  - destruct (decide (t' = t)) as [->|Ht]; [by rewrite decide_True|]. rewrite decide_False; [done|]. by intros [_ ?].
  - rewrite decide_False; [done|]. by intros [? _].
Qed.

(** *** Removal *)

Lemma remove_links h x c t :
  let h' := remove_from_list x c t h in
  let p := sl_prev (slabs h x) in
  let n := sl_next (slabs h x) in
  p <> x -> n <> x -> x <> 0 -> (p = n -> p = 0) ->
  relinked h h' /\
  (forall y, y <> x -> y <> 0 ->
     sl_next (slabs h' y) = (if decide (y = p) then n else sl_next (slabs h y)) /\
     sl_prev (slabs h' y) = (if decide (y = n) then p else sl_prev (slabs h y))) /\
  (forall c' t', list_head (slab_caches h' c') t' =
     if decide (c' = c /\ t' = t) then (if decide (p = 0) then n else list_head (slab_caches h c) t)
     else list_head (slab_caches h c') t').
Proof.
  cbv zeta. unfold remove_from_list. set (p := sl_prev (slabs h x)). set (n := sl_next (slabs h x)).
  intros Hp Hn Hx Hpn.
  set (h1 := if negb (p =? 0) then _ else _).
  assert (E1 : slabs h1 x = slabs h x).
  { unfold h1. destruct (Z.eqb_spec p 0); cbn; [done|]. by rewrite upd_ne. }
  rewrite E1. fold p n. set (h2 := if negb (n =? 0) then _ else _).
  assert (S2 : forall y, y <> x -> slabs h2 y =
    (let s := if decide (y = p /\ y <> 0) then set_sl_next n (slabs h y) else slabs h y in
     if decide (y = n /\ y <> 0) then set_sl_prev p s else s)).
  { intros y Hy. unfold h2, h1. destruct (Z.eqb_spec p 0), (Z.eqb_spec n 0); cbn; rewrite ?upd_cases;
      repeat destruct (decide _); try done; naive_solver lia. }
  assert (C2 : slab_caches h2 = if decide (p = 0) then (slab_caches h).[c <- set_head t n (slab_caches h c)] else slab_caches h).
  { unfold h2, h1. destruct (Z.eqb_spec p 0), (Z.eqb_spec n 0), (decide (p = 0)); done. }
  assert (R2 : relinked h h2).
  { split; [unfold h2, h1; by destruct (p =? 0), (n =? 0)..| |].
    - intros y. unfold h2, h1. destruct (p =? 0), (n =? 0); cbn; rewrite ?core_upd; done.
    - intros c'. rewrite C2. destruct (decide (p = 0)); [|done]. rewrite upd_cases.
      destruct (decide (c' = c)) as [->|]; done. }
  split; [|split].
  - eapply relinked_trans; [exact R2|]. split; [done..| |done]. intros y. cbn. rewrite upd_eq, !core_upd; [done|done|].
    by rewrite upd_eq.
  - intros y Hy Hy0. cbn. rewrite !upd_ne, S2 by done. cbv zeta.
    destruct (decide (y = p)), (decide (y = n)), (decide (y = p /\ y <> 0)), (decide (y = n /\ y <> 0)); cbn; tauto || naive_solver.
  - intros c' t'. cbn. rewrite C2. destruct (decide (p = 0)) as [Hp0|Hp0]; [apply head_upd|].
    destruct (decide (c' = c /\ t' = t)) as [[-> ->]|]; done.
Qed.

Lemma elem_or_zero d l : head_or 0 l = d -> d = 0 \/ d ∈ l.
Proof. destruct l; cbn; [by left|]. intros <-. right. set_solver. Qed.

Lemma last_or_zero d l : last_or 0 l = d -> d = 0 \/ d ∈ l.
Proof. intros <-. destruct l as [|y l]; [by left|]. right. by apply last_or_elem. Qed.

Lemma slab_remove_lists h L c t l1 x l2 :
  cache_no c -> lists h L -> L c t = l1 ++ x :: l2 ->
  let h' := remove_from_list x c t h in
  let L' := lupd L c t (l1 ++ l2) in
  lists h' L' /\ relinked h h' /\ forall c' t', cache_no c' -> x ∉ L' c' t'.
Proof.
  intros Hc [HD HJ] E. cbv zeta. pose proof (HD c t Hc) as D. rewrite E in D.
  destruct (dlist_links _ _ _ _ _ D) as (Hp & Hn & Hx & H1 & H2 & Hnd). cbn in Hp, Hn.
  pose proof (last_or_zero _ _ (eq_sym Hp)) as Hp'. pose proof (elem_or_zero _ _ (eq_sym Hn)) as Hn'.
  pose proof (proj1 (NoDup_app _ _) Hnd) as (_ & Hdj & _).
  destruct (remove_links h x c t) as (R & S & K).
  { intros Hpx. rewrite Hpx in Hp'. by destruct Hp'. }
  { intros Hnx. rewrite Hnx in Hn'. by destruct Hn'. }
  { done. }
  { intros Epn. rewrite <- Epn in Hn'. destruct Hp' as [?|Hp']; [done|]. destruct Hn' as [?|Hn']; [done|].
    by destruct (Hdj _ Hp'). }
  assert (Hxc : x ∈ L c t) by (rewrite E; set_solver).
  assert (Hin : forall y, y ∈ l1 ++ l2 -> y ∈ L c t) by (intros y; rewrite E; set_solver).
  split; [split|split; [done|]].
  - intros c' t' Hc'. rewrite K. destruct (decide (c' = c /\ t' = t)) as [[-> ->]|Hne].
    + rewrite lupd_eq. apply (dlist_remove _ _ _ _ _ _ D). intros y Hy. apply S.
      * intros ->. set_solver.
      * eapply dlist_nonzero; [exact D|]. set_solver.
    + rewrite lupd_ne by done. eapply dlist_frame; [|by apply HD]. intros y Hy.
      assert (Hy' : y ∉ L c t) by (intros Hy'; apply Hne, (HJ c' t' c t y); done).
      assert (Hy0 : y <> 0) by (eapply dlist_nonzero; [by apply HD|done]).
      destruct (S y) as [S1 S2]; [by intros ->|done|]. cbn [lnext lprev slab_linked]. rewrite S1, S2, !decide_False; [done| |].
      * intros ->. destruct Hn' as [?|?]; [done|]. apply Hy', Hin. set_solver.
      * intros ->. destruct Hp' as [?|?]; [done|]. apply Hy', Hin. set_solver.
  - intros c1 t1 c2 t2 y Hc1 Hc2. unfold lupd.
    destruct (decide (c1 = c /\ t1 = t)) as [[-> ->]|], (decide (c2 = c /\ t2 = t)) as [[-> ->]|]; eauto.
  - intros c' t' Hc'. unfold lupd. destruct (decide (c' = c /\ t' = t)) as [[-> ->]|Hne]; [set_solver|].
    intros Hy. apply Hne. by apply (HJ c' t' c t x).
Qed.

(** *** Insertion *)

Lemma slab_add_lists h L c t x :
  cache_no c -> lists h L -> x <> 0 -> (forall c' t', cache_no c' -> x ∉ L c' t') ->
  let h' := add_to_list x c t h in
  lists h' (lupd L c t (x :: L c t)) /\ relinked h h' /\ list_head (slab_caches h' c) t = x.
Proof.
  intros Hc [HD HJ] Hx Hno. cbv zeta. unfold add_to_list. pose proof (HD c t Hc) as D.
  pose proof (dlist_head _ _ _ D) as Hh. set (hd := list_head (slab_caches h c) t) in *.
  pose proof (elem_or_zero _ _ (eq_sym Hh)) as Hh'.
  assert (Hhx : hd <> x) by (intros ->; destruct Hh' as [?|Hh']; [done|]; by apply (Hno c t)).
  set (h2 := set_slab x (set_sl_prev 0 _) _).
  assert (E2 : slabs h2 x = set_sl_prev 0 (set_sl_next hd (slabs h x))) by (cbn; rewrite !upd_eq; done).
  assert (N2 : forall y, y <> x -> slabs h2 y = slabs h y) by (intros y Hy; cbn; rewrite !upd_ne; done).
  assert (R2 : relinked h h2).
  { split; [done..| |done]. intros y. cbn. rewrite upd_eq, !core_upd; [done|done|]. by rewrite upd_eq. }
  set (h3 := if negb (hd =? 0) then _ else _).
  assert (R3 : relinked h2 h3).
  { unfold h3. destruct (hd =? 0); [by split|]. split; [done..| |done]. intros y. cbn. by rewrite core_upd. }
  assert (S3 : forall y, y <> 0 -> slabs h3 y = if decide (y = hd) then set_sl_prev x (slabs h2 y) else slabs h2 y).
  { intros y Hy. unfold h3. destruct (Z.eqb_spec hd 0); cbn [negb].
    - rewrite decide_False; [done|congruence].
    - cbn [set_slab slabs]. rewrite upd_cases. destruct (decide (y = hd)) as [->|]; done. }
  assert (K3 : slab_caches h3 = slab_caches h) by (unfold h3; by destruct (hd =? 0)).
  split; [split|split].
  - intros c' t' Hc'. cbn [set_cache slab_caches slabs]. rewrite K3, head_upd.
    destruct (decide (c' = c /\ t' = t)) as [[-> ->]|Hne].
    + rewrite lupd_eq. pose proof (dlist_insert (slabs h) (slabs h3) hd [] (L c t) x D Hx (Hno c t Hc)) as I.
      cbn [app] in I. rewrite decide_True in I by done. apply I; clear I.
      * rewrite S3, decide_False, E2 by done. done.
      * rewrite S3, decide_False, E2 by done. cbn. done.
      * intros y Hy. assert (y <> x) by (intros ->; by apply (Hno c t)).
        assert (y <> 0) by (by eapply dlist_nonzero). rewrite S3 by done. rewrite N2 by done.
        rewrite <- Hh. cbn [last_or]. change (last_or 0 []) with 0. rewrite (decide_False (P := y = 0)) by done.
        by destruct (decide (y = hd)).
    + rewrite lupd_ne by done. eapply dlist_frame; [|by apply HD]. intros y Hy.
      assert (y <> x) by (intros ->; by apply (Hno c' t')).
      assert (y <> 0) by (by eapply dlist_nonzero; [by apply HD|]).
      rewrite S3, decide_False, N2; [done|done| |done].
      intros ->. destruct Hh' as [?|Hh']; [done|]. apply Hne, (HJ c' t' c t hd); done.
  - intros c1 t1 c2 t2 y H1 H2. unfold lupd.
    destruct (decide (c1 = c /\ t1 = t)) as [[-> ->]|N1], (decide (c2 = c /\ t2 = t)) as [[-> ->]|N2']; [done| | |by apply HJ].
    + intros [->|Hy]%elem_of_cons Hy2; [by destruct (Hno c2 t2)|]. by apply HJ with (x := y).
    + intros Hy2 [->|Hy]%elem_of_cons; [by destruct (Hno c1 t1)|]. by apply HJ with (x := y).
  - eapply relinked_trans; [exact R2|]. eapply relinked_trans; [exact R3|]. split; [done..|].
    intros c'. cbn. rewrite K3, upd_cases. by destruct (decide (c' = c)) as [->|].
  - cbn [set_cache slab_caches]. rewrite K3, head_upd. by rewrite decide_True.
Qed.

(** *** Moving a slab to the list it belongs to *)

Lemma update_spec h L c t l1 x l2 :
  cache_no c -> lists h L -> L c t = l1 ++ x :: l2 -> load32 (mem h) x = SLAB_MAGIC ->
  sl_cache (slabs h x) = c -> current_list (slabs h x) = t ->
  let h' := slab_update_lists x h in
  let t' := target_list (slabs h x) in
  exists L', lists h' L' /\ moved L L' x c t' /\
    mem h' = mem h /\ pages h' = pages h /\ slab_initialized h' = slab_initialized h /\
    (forall c, geometry (slab_caches h' c) = geometry (slab_caches h c)) /\
    (forall y, core (slabs h' y) = core (if decide (y = x) then set_current_list t' (slabs h x) else slabs h y)) /\
    (t <> t' -> list_head (slab_caches h' c) t' = x).
Proof.
  intros Hc HL E Hm Ec Et. cbv zeta. unfold slab_update_lists. rewrite Hm, Ec, Et.
  assert (Hx : x <> 0) by (eapply dlist_nonzero; [by apply HL|]; rewrite E; set_solver).
  replace (x =? 0) with false by lia. cbn [orb negb Z.eqb SLAB_MAGIC Pos.eqb].
  set (t' := target_list (slabs h x)). destruct (decide (t = t')) as [<-|Hne].
  - exists L. split; [done|]. split.
    { apply moved_id; [done|apply HL|]. rewrite E, elem_of_app. right. by left. }
    do 4 (split; [done|]). split; [|done]. intros y. destruct (decide (y = x)) as [->|]; [|done].
    rewrite <- Et. by destruct (slabs h x).
  - destruct (slab_remove_lists h L c t l1 x l2 Hc HL E) as (HL1 & R1 & No). set (h1 := remove_from_list _ _ _ _) in *.
    destruct (slab_add_lists h1 _ c t' x Hc HL1 Hx No) as (HL2 & R2 & Hd).
    destruct (relinked_trans _ _ _ R1 R2) as [M1 M2 M3 M4 M5]. set (h2 := add_to_list _ _ _ _) in *.
    exists (lupd (lupd L c t (l1 ++ l2)) c t' (x :: L c t')). split.
    { rewrite lupd_ne in HL2 by (intros [_ ?]; congruence). destruct HL2 as [HD HJ]. split; [|done].
      intros c0 t0 Hc0. eapply dlist_frame; [|by apply HD]. intros y _. cbn. rewrite upd_cases.
      by destruct (decide (y = x)) as [->|]. }
    split.
    { apply moved_lupd; [done|apply HL|by eapply dlist_NoDup, HL|done|done]. }
    do 4 (split; [done|]). split; [|done]. intros y. cbn [set_slab slabs]. rewrite upd_cases.
    destruct (decide (y = x)) as [->|]; [|apply M4]. by apply core_set_current.
Qed.
End Lists.

(** ** The invariant *)

Section Inv.
Context {P : Type} `{PageSource P}.
Implicit Types (h : heap P) (L : slab_lists) (F : Z -> list Z) (O : list (Z * Z)).

Definition cache_geometry (c : Z) (k : slab_cache) : Prop := geometry k = (SLAB_SIZE_CLASSES c, per_slab c, 1).

Record slab_inv h L F O : Prop := {
  si_bytes : bytes (mem h);
  si_init : slab_initialized h = true;
  si_pages : pg_inv (pages h) O;
  si_cache c : cache_no c -> cache_geometry c (slab_caches h c);
  si_lists : lists h L;
  si_slab c t x : cache_no c -> x ∈ L c t -> slab_ok (mem h) c t x (slabs h x) (F x);
  si_owned c t x : cache_no c -> x ∈ L c t -> (x, 1) ∈ O }.

(** [y] is an allocated object of [n] bytes. *)
Definition live L F (y n : Z) : Prop :=
  exists c t x, cache_no c /\ x ∈ L c t /\ is_obj x c y /\ y ∉ F x /\ n = SLAB_SIZE_CLASSES c.

(** The abstract heap. *)
Definition refines L F (B : gmap Z Z) : Prop := forall y n, B !! y = Some n <-> live L F y n.

Lemma slab_page h L F O c t x :
  slab_inv h L F O -> cache_no c -> x ∈ L c t -> 0 < x /\ x mod 4096 = 0 /\ x + 4096 < 2 ^ 32.
Proof.
  intros I Hc Hx. destruct (pg_region _ _ _ _ (si_pages _ _ _ _ I) (si_owned _ _ _ _ I c t x Hc Hx)). lia.
Qed.

Lemma slabs_apart h L F O c t x c' t' y :
  slab_inv h L F O -> cache_no c -> cache_no c' -> x ∈ L c t -> y ∈ L c' t' -> x <> y ->
  x + 4096 <= y \/ y + 4096 <= x.
Proof.
  intros I Hc Hc' Hx Hy Hne.
  destruct (pg_disjoint _ _ x 1 y 1 (si_pages _ _ _ _ I) (si_owned _ _ _ _ I c t x Hc Hx) (si_owned _ _ _ _ I c' t' y Hc' Hy));
    [congruence|lia|lia].
Qed.

(** An operation changes the slab [x] and the bytes of its page, and then puts
    it where it belongs. *)
Lemma change_slab h L F O c t x h1 fl :
  slab_inv h L F O -> cache_no c -> x ∈ L c t ->
  pages h1 = pages h -> slab_initialized h1 = slab_initialized h -> bytes (mem h1) ->
  (forall c, geometry (slab_caches h1 c) = geometry (slab_caches h c)) ->
  (forall c, list_head (slab_caches h1 c) = list_head (slab_caches h c)) ->
  (forall y, y <> x -> slabs h1 y = slabs h y) ->
  sl_next (slabs h1 x) = sl_next (slabs h x) -> sl_prev (slabs h1 x) = sl_prev (slabs h x) ->
  (forall y, ~ (x <= y < x + 4096) -> mem h1 y = mem h y) ->
  current_list (slabs h1 x) = t -> slab_body (mem h1) c x (slabs h1 x) fl ->
  let h' := slab_update_lists x h1 in
  exists L', slab_inv h' L' F.[x <- fl] O /\ moved L L' x c (target_list (slabs h1 x)) /\
    mem h' = mem h1 /\ pages h' = pages h /\ core (slabs h' x) = core (set_current_list (target_list (slabs h1 x)) (slabs h1 x)) /\
    (t <> target_list (slabs h1 x) -> list_head (slab_caches h' c) (target_list (slabs h1 x)) = x).
Proof.
  intros I Hc Hx Ep Ei Hb Eg Eh Es En Ev Em Et Hbody. cbv zeta.
  destruct (list_elem_of_split _ _ Hx) as (l1 & l2 & E).
  assert (HL1 : lists h1 L).
  { destruct (si_lists _ _ _ _ I) as [HD HJ]. split; [|done]. intros c0 t0 Hc0. rewrite Eh.
    eapply dlist_frame; [|by apply HD]. intros y _. cbn. destruct (decide (y = x)) as [->|]; [done|by rewrite Es]. }
  destruct (update_spec h1 L c t l1 x l2 Hc HL1 E (so_magic _ _ _ _ _ Hbody) (so_cache _ _ _ _ _ Hbody) Et)
    as (L' & HL' & Hmv & M1 & M2 & M3 & M4 & M5 & M6).
  set (h' := slab_update_lists x h1) in *. set (t' := target_list (slabs h1 x)) in *.
  exists L'. split; [|by rewrite M2, (M5 x), decide_True]. split.
  - by rewrite M1.
  - rewrite M3, Ei. apply I.
  - rewrite M2, Ep. apply I.
  - intros c0 Hc0. unfold cache_geometry. rewrite M4, Eg. by apply I.
  - done.
  - intros c0 t0 y Hc0 Hy. apply Hmv in Hy as [(-> & -> & ->)|[Hyx Hy]]; [..|done].
    + rewrite upd_eq, M1. apply slab_ok_core with (s := set_current_list t' (slabs h1 x)).
      * by rewrite M5, decide_True.
      * split; [|done..]. destruct Hbody. by split.
    + rewrite upd_ne, M1 by done. apply slab_ok_core with (s := slabs h y).
      { rewrite M5, decide_False, Es by done. done. }
      pose proof (slabs_apart h L F O c t x c0 t0 y I Hc Hc0 Hx Hy ltac:(done)) as Hap.
      pose proof (si_slab _ _ _ _ I c0 t0 y Hc0 Hy) as Hok.
      eapply slab_ok_mem; [| |exact Hok].
      * intros z Hz. apply Em. lia.
      * intros o z Ho Hz. apply Em.
        pose proof (is_obj_range y c0 o Hc0 (so_objs _ _ _ _ _ (so_body _ _ _ _ _ _ Hok) o Ho)).
        pose proof (class_facts c0 Hc0). unfold SIZEOF_SLAB in *. lia.
  - intros c0 t0 y Hc0 Hy. apply Hmv in Hy as [(-> & -> & ->)|[Hyx Hy]]; [..|done]; by eapply I.
Qed.
End Inv.
