(* ===== verification/SlabSpec.v ===== *)
(** What allocation from and release to the slab allocator do, against the
    interface of the page source. *)

From S2P Require Import Prelude Dll CMem Paging Slab SlabInv.
From Stdlib Require Import ZArith Lia Bool.
From stdpp Require Import base tactics numbers list sets gmap.
Open Scope Z_scope.

Section Spec.
Context {P : Type} `{PageSource P}.
Implicit Types (h : heap P) (L : slab_lists) (F : Z -> list Z) (O : list (Z * Z)).

(** ** Changes from outside *)

(** Other regions are taken from or given back to the page source. *)
Lemma slab_inv_pages h L F O p O' :
  slab_inv h L F O -> pg_inv p O' -> (forall c t x, cache_no c -> x ∈ L c t -> (x, 1) ∈ O') ->
  slab_inv (set_pages p h) L F O'.
Proof.
  intros [I1 I2 I3 I4 I5 I6 I7] Hp HO. destruct I5. split; try done.
Qed.

(** The bytes of the allocator: the magic numbers and the links of free objects. *)
Definition guarded L F (y : Z) : Prop :=
  exists c t x, cache_no c /\ x ∈ L c t /\ (x <= y < x + 4 \/ exists o, o ∈ F x /\ o <= y < o + 4).

Lemma slab_inv_mem h L F O m :
  slab_inv h L F O -> bytes m -> (forall y, guarded L F y -> m y = mem h y) -> slab_inv (set_mem m h) L F O.
Proof.
  intros [I1 I2 I3 I4 [I5 I5'] I6 I7] Hb Hm. split; try done.
  intros c t x Hc Hx. eapply slab_ok_mem; [| |by apply I6].
  - intros y Hy. apply Hm. exists c, t, x. auto.
  - intros o y Ho Hy. apply Hm. exists c, t, x. split; [done|]. split; [done|]. right. eauto.
Qed.

(** ** Objects and slabs *)

(** An object belongs to one slab. *)
Lemma obj_slab h L F O c t x c' t' x' y :
  slab_inv h L F O -> cache_no c -> cache_no c' -> x ∈ L c t -> x' ∈ L c' t' ->
  is_obj x c y -> is_obj x' c' y -> x = x' /\ c = c' /\ t = t'.
Proof.
  intros I Hc Hc' Hx Hx' Hy Hy'. assert (x = x') as <-.
  { destruct (decide (x = x')) as [|Hne]; [done|]. exfalso.
    pose proof (slabs_apart h L F O c t x c' t' x' I Hc Hc' Hx Hx' Hne).
    pose proof (is_obj_range _ _ _ Hc Hy). pose proof (is_obj_range _ _ _ Hc' Hy').
    pose proof (class_facts c Hc). pose proof (class_facts c' Hc'). unfold SIZEOF_SLAB in *. lia. }
  split; [done|]. by apply (li_disjoint _ _ (si_lists _ _ _ _ I) c t c' t' x).
Qed.

(** The free list of [x] becomes [fl], which has [o] more or less. *)
Lemma live_change h L F O c t x t' L' fl :
  slab_inv h L F O -> cache_no c -> x ∈ L c t -> moved L L' x c t' ->
  forall y n, live L' F.[x <- fl] y n <->
    (live L F y n /\ ~ is_obj x c y) \/ (is_obj x c y /\ y ∉ fl /\ n = SLAB_SIZE_CLASSES c).
Proof.
  intros I Hc Hx Hmv y n. split.
  - intros (c0 & t0 & x0 & Hc0 & Hx0 & Ho & Hf & ->). apply Hmv in Hx0; [|done]. destruct Hx0 as [(-> & -> & ->)|[Hne Hx0]].
    + rewrite upd_eq in Hf. by right.
    + left. rewrite upd_ne in Hf by done. split; [by exists c0, t0, x0|]. intros Ho'.
      by destruct (obj_slab h L F O c t x c0 t0 x0 y I Hc Hc0 Hx Hx0 Ho' Ho) as [-> _].
  - intros [[(c0 & t0 & x0 & Hc0 & Hx0 & Ho & Hf & ->) Hno]|(Ho & Hf & ->)].
    + assert (x0 <> x).
      { intros ->. destruct (li_disjoint _ _ (si_lists _ _ _ _ I) c0 t0 c t x) as [-> _]; done. }
      exists c0, t0, x0. rewrite upd_ne by done. split; [done|]. split; [|done]. apply Hmv; [done|by right].
    + exists c, t', x. rewrite upd_eq. split; [done|]. split; [|done]. apply Hmv; [done|by left].
Qed.

Lemma live_in h L F O c t x y n :
  slab_inv h L F O -> cache_no c -> x ∈ L c t -> is_obj x c y ->
  live L F y n <-> y ∉ F x /\ n = SLAB_SIZE_CLASSES c.
Proof.
  intros I Hc Hx Ho. split.
  - intros (c0 & t0 & x0 & Hc0 & Hx0 & Ho0 & Hf & ->).
    by destruct (obj_slab h L F O c t x c0 t0 x0 y I Hc Hc0 Hx Hx0 Ho Ho0) as (-> & -> & _).
  - intros [Hf ->]. by exists c, t, x.
Qed.

(** An allocated object lies in an owned page, behind the slab's own data. *)
Lemma live_page h L F O y n :
  slab_inv h L F O -> live L F y n ->
  exists x, (x, 1) ∈ O /\ load32 (mem h) x = SLAB_MAGIC /\ x + SIZEOF_SLAB <= y /\ y + n <= x + 4096 /\ 0 < n.
Proof.
  intros I (c & t & x & Hc & Hx & Ho & _ & ->). exists x. split; [by eapply I|].
  split; [by eapply so_magic, so_body, I|]. pose proof (is_obj_range _ _ _ Hc Ho). pose proof (class_facts c Hc). lia.
Qed.

(** Allocated objects do not overlap. *)
Lemma live_apart h L F O y n y' n' :
  slab_inv h L F O -> live L F y n -> live L F y' n' -> y <> y' -> y + n <= y' \/ y' + n' <= y.
Proof.
  intros I (c & t & x & Hc & Hx & Ho & _ & ->) (c' & t' & x' & Hc' & Hx' & Ho' & _ & ->) Hne.
  pose proof (is_obj_range _ _ _ Hc Ho). pose proof (is_obj_range _ _ _ Hc' Ho').
  destruct (decide (x = x')) as [<-|Hxx].
  - destruct (li_disjoint _ _ (si_lists _ _ _ _ I) c t c' t' x) as [<- _]; [done..|]. by apply (is_obj_apart x).
  - pose proof (slabs_apart h L F O c t x c' t' x' I Hc Hc' Hx Hx' Hxx). unfold SIZEOF_SLAB in *. lia.
Qed.

(** ** Taking an object *)

Lemma count_alloc_same c h :
  mem (count_alloc c h) = mem h /\ slabs (count_alloc c h) = slabs h /\ pages (count_alloc c h) = pages h /\
  slab_initialized (count_alloc c h) = slab_initialized h /\
  forall c', geometry (slab_caches (count_alloc c h) c') = geometry (slab_caches h c') /\
    list_head (slab_caches (count_alloc c h) c') = list_head (slab_caches h c').
Proof.
  do 4 (split; [done|]). intros c'. cbn. rewrite upd_cases. by destruct (decide (c' = c)) as [->|].
Qed.

Lemma count_free_same c h :
  mem (count_free c h) = mem h /\ slabs (count_free c h) = slabs h /\ pages (count_free c h) = pages h /\
  slab_initialized (count_free c h) = slab_initialized h /\
  forall c', geometry (slab_caches (count_free c h) c') = geometry (slab_caches h c') /\
    list_head (slab_caches (count_free c h) c') = list_head (slab_caches h c').
Proof.
  do 4 (split; [done|]). intros c'. cbn. rewrite upd_cases. by destruct (decide (c' = c)) as [->|].
Qed.

Lemma take_object h L F O c t x :
  slab_inv h L F O -> cache_no c -> x ∈ L c t -> t <> SLAB_LIST_FULL ->
  exists o fl h1, F x = o :: fl /\ slab_alloc_from_slab x h = (o, h1) /\ o <> 0 /\
    let h' := slab_update_lists x (count_alloc c h1) in
    exists L' t', slab_inv h' L' F.[x <- fl] O /\ moved L L' x c t' /\ mem h' = mem h.
Proof.
  intros I Hc Hx Ht. pose proof (si_slab _ _ _ _ I c t x Hc Hx) as [B El Et].
  pose proof (slab_page _ _ _ _ _ _ _ I Hc Hx) as Hp. pose proof (class_facts c Hc) as Hcf.
  destruct (F x) as [|o fl] eqn:EF.
  { destruct Ht. rewrite <- Et. unfold target_list. by rewrite (so_free _ _ _ _ _ B). }
  pose proof (objs_length x c (F x) Hc) as Hlen. rewrite EF in Hlen.
  specialize (Hlen (so_NoDup _ _ _ _ _ B) (so_objs _ _ _ _ _ B)). cbn [length] in Hlen.
  destruct (so_chain _ _ _ _ _ B) as (Ef & Ho & Hch). pose proof (so_free _ _ _ _ _ B) as En. cbn [length] in En.
  exists o, fl. unfold slab_alloc_from_slab. rewrite (so_magic _ _ _ _ _ B), Ef. replace (x =? 0) with false by lia.
  replace (num_free (slabs h x) =? 0) with false by lia. replace (o =? 0) with false by lia. cbn [orb negb Z.eqb SLAB_MAGIC Pos.eqb].
  eexists. split; [done|]. split; [done|]. split; [done|]. cbv zeta.
  set (h1 := set_slab x _ h). destruct (count_alloc_same c h1) as (M1 & M2 & M3 & M4 & M5).
  assert (E1 : slabs h1 x = set_free_list (load32 (mem h) o) (Z.of_nat (length fl)) (slabs h x)).
  { cbn. rewrite upd_eq, En, u16_small by lia. f_equal. lia. }
  destruct (change_slab h L F O c t x (count_alloc c h1) fl I Hc Hx) as (L' & I' & Hmv & Em & _).
  - done.
  - done.
  - rewrite M1. apply I.
  - intros c'. by rewrite (proj1 (M5 c')).
  - intros c'. by rewrite (proj2 (M5 c')).
  - intros y Hy. rewrite M2. cbn. by rewrite upd_ne.
  - by rewrite M2, E1.
  - by rewrite M2, E1.
  - intros y _. by rewrite M1.
  - by rewrite M2, E1.
  - rewrite M1, M2, E1. destruct B. apply NoDup_cons in so_NoDup as [_ ?]. split; try done. set_solver.
  - exists L', (target_list (slabs (count_alloc c h1) x)). split; [done|]. split; [done|]. by rewrite Em, M1.
Qed.

(** ** A new slab *)

Lemma thread_spec m start sz n :
  0 < start -> 4 <= sz -> 0 <= n -> start + sz * n < 2 ^ 32 -> bytes m ->
  let '(m', fl, _) := for_loop n (thread_object sz) (m, 0, start) in
  bytes m' /\ (forall y, ~ (start <= y < start + sz * n) -> m' y = m y) /\
  exists l, chain m' fl l /\ NoDup l /\ Z.of_nat (length l) = n /\
    forall o, o ∈ l <-> exists i, 0 <= i < n /\ o = start + sz * i.
Proof.
  intros Hs Hz Hn Hb Hm.
  pose proof (for_loop_ind (fun j '(m', fl, p) => p = start + sz * j /\
    bytes m' /\ (forall y, ~ (start <= y < start + sz * j) -> m' y = m y) /\
    exists l, chain m' fl l /\ NoDup l /\ Z.of_nat (length l) = j /\
      forall o, o ∈ l <-> exists i, 0 <= i < j /\ o = start + sz * i) n (thread_object sz) (m, 0, start) Hn) as L.
  destruct (for_loop n (thread_object sz) (m, 0, start)) as [[m' fl] p]. apply L; clear L m' fl p.
  - split; [lia|]. split; [done|]. split; [done|]. exists []. split; [done|]. split; [constructor|]. split; [done|].
    intros o. split; [set_solver|]. intros (i & Hi & _). lia.
  - intros j [[m' fl] p] Hj (-> & Hb' & Hf & l & Hc & Hnd & Hl & Ho). unfold thread_object.
    assert (Hjn : sz * j + sz <= sz * n) by nia.
    split; [rewrite u32_small by lia; lia|]. split; [by apply store32_bytes|]. split.
    { intros y Hy. rewrite store32_frame by lia. apply Hf. lia. }
    assert (Hfl : 0 <= fl < 2 ^ 32).
    { destruct l as [|o l]; [cbn in Hc; subst; lia|]. destruct Hc as (-> & _). destruct (Ho o) as [Hi _].
      destruct Hi as (i & Hi & ->); [by left|]. nia. }
    exists ((start + sz * j) :: l). split; [|split; [|split]].
    + cbn [chain]. split; [done|]. split; [lia|]. rewrite load32_store32, u32_small by lia.
      eapply free_chain_frame; [|exact Hc]. intros o y Hin Hy. apply store32_frame. apply Ho in Hin as (i & Hi & ->). nia.
    + constructor; [|done]. intros Hin. apply Ho in Hin as (i & Hi & Hii). nia.
    + cbn [length]. lia.
    + intros o. rewrite elem_of_cons, Ho. split.
      * intros [->|(i & Hi & ->)]; [exists j; split; [lia|done]|exists i; split; [lia|done]].
      * intros (i & Hi & ->). destruct (decide (i = j)) as [->|]; [by left|]. right. exists i. split; [lia|done].
Qed.

Lemma owned_other h L F O p a n :
  slab_inv h L F O -> (a, n) ∉ O -> pg_inv p ((a, n) :: O) -> 0 < n ->
  (forall c t, cache_no c -> a ∉ L c t) /\
  (forall b k y, (b, k) ∈ O -> b <= y < b + 4096 * k -> ~ (a <= y < a + 4096 * n)).
Proof.
  intros I Hno Hpg Hn. assert (Hdj : forall b k y, (b, k) ∈ O -> b <= y < b + 4096 * k -> ~ (a <= y < a + 4096 * n)).
  { intros b k y Hbk Hy Hay. assert ((a, n) <> (b, k)) by (by intros [= -> ->]).
    destruct (pg_disjoint _ _ a n b k Hpg); [by left|by right|done|lia|lia]. }
  split; [|done]. intros c t Hc Ha. pose proof (si_owned _ _ _ _ I c t a Hc Ha) as Ho.
  apply (Hdj a 1 a Ho); lia.
Qed.

Lemma create_slab h L F O c :
  slab_inv h L F O -> cache_no c ->
  let '(x, h') := slab_create_slab c h in
  (x = 0 /\ slab_inv h' L F O /\ mem h' = mem h) \/
  (x <> 0 /\ (x, 1) ∉ O /\ exists fl, let L' := lupd L c SLAB_LIST_EMPTY (x :: L c SLAB_LIST_EMPTY) in
    slab_inv h' L' F.[x <- fl] ((x, 1) :: O) /\ (forall y n, live L' F.[x <- fl] y n <-> live L F y n) /\
    forall y, ~ (x <= y < x + 4096) -> mem h' y = mem h y).
Proof.
  intros I Hc. pose proof (si_cache _ _ _ _ I c Hc) as G. unfold cache_geometry, geometry in G. injection G as G1 G2 G3.
  pose proof (class_facts c Hc) as (C1 & C2 & C3). unfold slab_create_slab. rewrite G1, G2, G3.
  change (u32 (1 * PAGE_SIZE)) with (4096 * 1).
  pose proof (pg_alloc (pages h) O 1 (si_pages _ _ _ _ I) ltac:(lia)) as A.
  destruct (page_alloc (4096 * 1) (pages h)) as [x p]. destruct A as [[-> Hp]|(Hx & Hno & Hp)].
  { left. split; [done|]. split; [|done]. eapply slab_inv_pages; [done..|apply I]. }
  replace (x =? 0) with false by lia. cbn [set_pages mem].
  destruct (pg_region _ _ x 1 Hp ltac:(by left)) as (_ & Hx0 & Hal & Hlim).
  rewrite (u32_small (x + _)), (u16_small (per_slab c)), (u16_small (SLAB_SIZE_CLASSES c)) by (unfold SIZEOF_SLAB; lia).
  pose proof (thread_spec (store32 (mem h) x SLAB_MAGIC) (x + SIZEOF_SLAB) (SLAB_SIZE_CLASSES c) (per_slab c)) as T.
  destruct (for_loop _ _ _) as [[m' flh] q].
  destruct T as (Hb & Hf & fl & Hch & Hnd & Hlen & Hobj);
    [unfold SIZEOF_SLAB; lia|lia|lia|unfold SIZEOF_SLAB in *; lia|apply store32_bytes, I|].
  right. split; [done|]. split; [done|]. exists fl. cbv zeta.
  destruct (owned_other h L F O p x 1 I Hno Hp ltac:(lia)) as [HnoL Hdj].
  assert (Hm' : forall y, ~ (x <= y < x + 4096) -> m' y = mem h y).
  { intros y Hy. rewrite Hf by (unfold SIZEOF_SLAB in *; lia). apply store32_frame. lia. }
  set (s := mk_slab _ _ _ _ _ _ _ _ _). set (h1 := set_stats _ _).
  assert (S1 : slabs h1 = (slabs h).[x <- s]) by done.
  assert (HL1 : lists h1 L).
  { destruct (si_lists _ _ _ _ I) as [HD HJ]. split; [|done]. intros c0 t0 Hc0.
    replace (list_head (slab_caches h1 c0) t0) with (list_head (slab_caches h c0) t0).
    - eapply dlist_frame; [|by apply HD]. intros y Hy. rewrite S1, upd_ne; [done|]. intros ->. by destruct (HnoL c0 t0 Hc0).
    - cbn. rewrite upd_cases. by destruct (decide (c0 = c)) as [->|]. }
  destruct (slab_add_lists h1 L c SLAB_LIST_EMPTY x Hc HL1 Hx HnoL) as (HL2 & R & _).
  destruct R as [R1 R2 R3 R4 R5]. set (h2 := add_to_list _ _ _ _) in *.
  assert (Hin : forall c0 t0 y, cache_no c0 -> y ∈ lupd L c SLAB_LIST_EMPTY (x :: L c SLAB_LIST_EMPTY) c0 t0 ->
    (y = x /\ c0 = c /\ t0 = SLAB_LIST_EMPTY) \/ (y <> x /\ y ∈ L c0 t0)).
  { intros c0 t0 y Hc0. unfold lupd. destruct (decide (c0 = c /\ t0 = SLAB_LIST_EMPTY)) as [[-> ->]|].
    - intros [->|Hy]%elem_of_cons; [by left|right]. split; [|done]. intros ->. by destruct (HnoL c SLAB_LIST_EMPTY Hc).
    - intros Hy. right. split; [|done]. intros ->. by destruct (HnoL c0 t0 Hc0). }
  assert (Hself : slab_ok m' c SLAB_LIST_EMPTY x s fl).
  { split; [split|done|]; cbn; try done.
    - rewrite (load32_frame (store32 (mem h) x SLAB_MAGIC)) by (intros; apply Hf; unfold SIZEOF_SLAB; lia).
      apply load32_store32.
    - intros o Ho. apply Hobj in Ho. exact Ho.
    - unfold target_list. cbn. replace (per_slab c =? 0) with false by lia. by rewrite Z.eqb_refl. }
  split; [split|split].
  - by rewrite R1.
  - rewrite R3. apply I.
  - rewrite R2. done.
  - intros c0 Hc0. unfold cache_geometry. rewrite R5. cbn. rewrite upd_cases.
    destruct (decide (c0 = c)) as [->|]; [|by apply I]. unfold geometry. cbn. by rewrite G1, G2, G3.
  - done.
  - intros c0 t0 y Hc0 Hy. rewrite R1. apply slab_ok_core with (s := slabs h1 y); [apply R4|]. rewrite S1.
    destruct (Hin c0 t0 y Hc0 Hy) as [(-> & -> & ->)|[Hne HyL]]; [by rewrite !upd_eq|]. rewrite !upd_ne by done.
    pose proof (si_slab _ _ _ _ I c0 t0 y Hc0 HyL) as Hok. pose proof (si_owned _ _ _ _ I c0 t0 y Hc0 HyL) as Hown.
    eapply slab_ok_mem; [| |exact Hok].
    + intros z Hz. apply Hm'. pose proof (Hdj y 1 z Hown). lia.
    + intros o z Ho Hz. apply Hm'.
      pose proof (is_obj_range y c0 o Hc0 (so_objs _ _ _ _ _ (so_body _ _ _ _ _ _ Hok) o Ho)).
      pose proof (class_facts c0 Hc0). pose proof (Hdj y 1 z Hown). unfold SIZEOF_SLAB in *. lia.
  - intros c0 t0 y Hc0 Hy. destruct (Hin c0 t0 y Hc0 Hy) as [(-> & _)|[_ HyL]]; [by left|]. right. by eapply I.
  - intros y n. split.
    + intros (c0 & t0 & x0 & Hc0 & Hx0' & Ho & Hfr & ->). destruct (Hin c0 t0 x0 Hc0 Hx0') as [(-> & -> & ->)|[Hne HyL]].
      * rewrite upd_eq in Hfr. destruct Hfr. apply Hobj. exact Ho.
      * rewrite upd_ne in Hfr by done. by exists c0, t0, x0.
    + intros (c0 & t0 & x0 & Hc0 & Hx0' & Ho & Hfr & ->). exists c0, t0, x0. split; [done|].
      assert (x0 <> x) by (intros ->; by destruct (HnoL c0 t0 Hc0)). rewrite upd_ne by done. split; [|done].
      unfold lupd. destruct (decide (c0 = c /\ t0 = SLAB_LIST_EMPTY)) as [[-> ->]|]; [by right|done].
  - intros y Hy. rewrite R1. by apply Hm'.
Qed.

(** ** Allocation *)

(** Requests of 1 to 1024 bytes have a cache; it is the smallest that fits. *)
Lemma find_cache_spec size :
  0 < size <= 1024 -> exists c, slab_find_cache size = Some c /\ cache_no c /\ size <= SLAB_SIZE_CLASSES c /\
    forall c', 0 <= c' < c -> SLAB_SIZE_CLASSES c' < size.
Proof.
  intros Hs. unfold slab_find_cache. replace (size =? 0) with false by lia.
  replace (SLAB_MAX_SIZE <? size) with false by (unfold SLAB_MAX_SIZE; lia). cbn [orb].
  destruct (find_from _ _ _) as [c|] eqn:E.
  - apply find_from_Some in E as (H1 & H2 & H3). unfold SLAB_NUM_CACHES in *. exists c. split; [done|].
    split; [lia|]. split; [lia|]. intros c' Hc'. specialize (H3 c' ltac:(lia)). lia.
  - pose proof (proj1 (find_from_None _ _ _) E 7 ltac:(unfold SLAB_NUM_CACHES; lia)) as H7.
    cbv beta in H7. change (SLAB_SIZE_CLASSES 7) with 1024 in H7. lia.
Qed.

(** Above 1024 bytes no cache fits. *)
Lemma find_cache_none size : 1024 < size -> slab_find_cache size = None.
Proof.
  intros Hs. unfold slab_find_cache. destruct (_ || _); [done|].
  destruct (find_from _ _ _) as [c|] eqn:E; [|done]. apply find_from_Some in E as (H1 & H2 & _).
  pose proof (class_facts c ltac:(unfold SLAB_NUM_CACHES in *; lia)). lia.
Qed.

(** What an allocation of [n] bytes at [o] does to the regions and the memory. *)
Record took h L F O o n h' L' F' O' : Prop := {
  tk_inv : slab_inv h' L' F' O';
  tk_live y k : live L' F' y k <-> live L F y k \/ (y = o /\ k = n);
  tk_fresh k : ~ live L F o k;
  tk_regions r : r ∈ O -> r ∈ O';
  tk_mem a k y : (a, k) ∈ O -> a <= y < a + 4096 * k -> mem h' y = mem h y }.

Lemma take_from h0 L0 F0 O0 h L F O c t x :
  slab_inv h L F O -> cache_no c -> x ∈ L c t -> t <> SLAB_LIST_FULL ->
  (forall y n, live L F y n <-> live L0 F0 y n) -> (forall r, r ∈ O0 -> r ∈ O) ->
  (forall a k y, (a, k) ∈ O0 -> a <= y < a + 4096 * k -> mem h y = mem h0 y) ->
  exists o h1, slab_alloc_from_slab x h = (o, h1) /\ o <> 0 /\
    exists L' F', took h0 L0 F0 O0 o (SLAB_SIZE_CLASSES c) (slab_update_lists x (count_alloc c h1)) L' F' O.
Proof.
  intros I Hc Hx Ht Hlive HO Hmem.
  destruct (take_object h L F O c t x I Hc Hx Ht) as (o & fl & h1 & EF & Ea & Ho & L' & t' & I' & Hmv & Em).
  exists o, h1. split; [done|]. split; [done|]. exists L', F.[x <- fl].
  pose proof (si_slab _ _ _ _ I c t x Hc Hx) as [B _ _]. rewrite EF in B.
  pose proof (so_objs _ _ _ _ _ B o ltac:(by left)) as Hobj. pose proof (so_NoDup _ _ _ _ _ B) as Hnd.
  apply NoDup_cons in Hnd as [Hofl _]. split; [done| | |done|].
  - intros y k. rewrite (live_change h L F O c t x t' L' fl I Hc Hx Hmv), <- Hlive. split.
    + intros [[? _]|(Hy & Hf & ->)]; [by left|]. destruct (decide (y = o)) as [->|]; [by right|]. left.
      rewrite (live_in h L F O c t x) by done. rewrite EF. set_solver.
    + intros [Hl|[-> ->]]; [|by right].
      destruct (decide (y ∈ (o :: fl))) as [Hin|Hin].
      * rewrite (live_in h L F O c t x y k I Hc Hx (so_objs _ _ _ _ _ B y Hin)), EF in Hl. by destruct Hl.
      * pose proof Hl as (c0 & t0 & x0 & Hc0 & Hx0 & Hy0 & Hf0 & ->).
        destruct (decide (x0 = x)) as [->|Hne].
        -- destruct (li_disjoint _ _ (si_lists _ _ _ _ I) c0 t0 c t x) as [-> _]; [done..|]. right.
           split; [done|]. split; [set_solver|done].
        -- left. split; [done|]. intros Hy. by destruct (obj_slab h L F O c0 t0 x0 c t x y I Hc0 Hc Hx0 Hx Hy0 Hy).
  - intros k. rewrite <- Hlive, (live_in h L F O c t x o k I Hc Hx Hobj), EF. intros [Hn _]. apply Hn. by left.
  - intros a k y Ha Hy. rewrite Em. by eapply Hmem.
Qed.

(** Allocation from a slab that has a free object, or a new slab. *)
Lemma slab_alloc_spec h L F O size :
  slab_inv h L F O -> 0 < size <= 1024 ->
  let '(o, h') := slab_alloc size h in
  (o = 0 /\ slab_inv h' L F O /\ mem h' = mem h) \/
  (o <> 0 /\ exists c L' F' O', slab_find_cache size = Some c /\ cache_no c /\ size <= SLAB_SIZE_CLASSES c /\
    took h L F O o (SLAB_SIZE_CLASSES c) h' L' F' O' /\ (O' = O \/ exists x, O' = (x, 1) :: O)).
Proof.
  intros I Hs. destruct (find_cache_spec size Hs) as (c & Ec & Hc & Hsc & _). unfold slab_alloc.
  rewrite (si_init _ _ _ _ I), Ec. cbn [negb].
  replace ((size =? 0) || (SLAB_MAX_SIZE <? size)) with false by (unfold SLAB_MAX_SIZE; lia).
  assert (Hhead : forall t, list_head (slab_caches h c) t <> 0 -> list_head (slab_caches h c) t ∈ L c t).
  { intros t Ht. destruct (dlist_cons_inv _ _ _ Ht (li_dlist _ _ (si_lists _ _ _ _ I) c t Hc)) as [l' ->]. by left. }
  assert (Hold : forall t, list_head (slab_caches h c) t <> 0 -> t <> SLAB_LIST_FULL ->
    exists o h1, slab_alloc_from_slab (list_head (slab_caches h c) t) h = (o, h1) /\ o <> 0 /\ exists L' F',
      took h L F O o (SLAB_SIZE_CLASSES c) (slab_update_lists (list_head (slab_caches h c) t) (count_alloc c h1)) L' F' O).
  { intros t Ht Hf. by apply (take_from h L F O h L F O c t); auto. }
  destruct (Z.eqb_spec (list_head (slab_caches h c) SLAB_LIST_PARTIAL) 0) as [_|Hp]; cbn [negb].
  2: { replace (_ =? 0) with false by lia. destruct (Hold _ Hp ltac:(done)) as (o & h1 & -> & Ho & L' & F' & T).
       replace (o =? 0) with false by lia. cbn [negb]. right. split; [done|]. exists c, L', F', O. do 4 (split; [done|]). by left. }
  destruct (Z.eqb_spec (list_head (slab_caches h c) SLAB_LIST_EMPTY) 0) as [_|He]; cbn [negb].
  2: { replace (_ =? 0) with false by lia. destruct (Hold _ He ltac:(done)) as (o & h1 & -> & Ho & L' & F' & T).
       replace (o =? 0) with false by lia. cbn [negb]. right. split; [done|]. exists c, L', F', O. do 4 (split; [done|]). by left. }
  pose proof (create_slab h L F O c I Hc) as C. destruct (slab_create_slab c h) as [x h1].
  destruct C as [[-> C]|(Hx & Hno & fl & I1 & Hl & Hm)]; [by left|]. replace (x =? 0) with false by lia.
  destruct (owned_other h L F O (pages h1) x 1 I Hno (si_pages _ _ _ _ I1) ltac:(lia)) as [_ Hdj].
  destruct (take_from h L F O h1 _ _ ((x, 1) :: O) c SLAB_LIST_EMPTY x I1 Hc) as (o & h2 & -> & Ho & L' & F' & T).
  - rewrite lupd_eq. by left.
  - done.
  - done.
  - by right.
  - intros a k y Ha Hy. apply Hm. pose proof (Hdj a k y Ha Hy). lia.
  - replace (o =? 0) with false by lia. cbn [negb]. right. split; [done|]. exists c, L', F', ((x, 1) :: O). do 4 (split; [done|]). right. by exists x.
Qed.

(** ** Release *)

Lemma page_mask y : 0 <= y < 2 ^ 32 -> Z.land y (u32 (Z.lnot (PAGE_SIZE - 1))) = 4096 * (y / 4096).
Proof. apply (land_mask 12). lia. Qed.

Lemma in_page x y : x mod 4096 = 0 -> x <= y < x + 4096 -> 4096 * (y / 4096) = x.
Proof. intros. dlia. Qed.

(** A pointer into the objects of a slab finds the slab. *)
Lemma get_slab_spec h L F O c t x y :
  slab_inv h L F O -> cache_no c -> x ∈ L c t -> x + SIZEOF_SLAB <= y < x + SIZEOF_SLAB + SLAB_SIZE_CLASSES c * per_slab c ->
  slab_get_slab y h = x.
Proof.
  intros I Hc Hx Hy. pose proof (slab_page _ _ _ _ _ _ _ I Hc Hx) as Hp. pose proof (class_facts c Hc) as Hcf.
  pose proof (si_slab _ _ _ _ I c t x Hc Hx) as [B _ _]. unfold slab_get_slab, SIZEOF_SLAB in *.
  replace (y =? 0) with false by lia. rewrite page_mask, (in_page x y) by lia.
  rewrite (so_magic _ _ _ _ _ B). cbn [Z.eqb SLAB_MAGIC Pos.eqb negb].
  rewrite (so_start _ _ _ _ _ B), (so_objects _ _ _ _ _ B), (so_size _ _ _ _ _ B). unfold SIZEOF_SLAB.
  rewrite u32_small by lia. replace (y <? x + 36) with false by lia.
  replace (_ <=? y) with false by lia. done.
Qed.

Lemma get_slab_obj h L F O c t x y :
  slab_inv h L F O -> cache_no c -> x ∈ L c t -> is_obj x c y -> slab_get_slab y h = x.
Proof.
  intros I Hc Hx (i & Hi & ->). apply (get_slab_spec h L F O c t x); [done..|]. pose proof (class_facts c Hc). nia.
Qed.

(** A pointer into another page finds none, unless the page looks like a slab. *)
Lemma get_slab_none h y :
  0 <= y < 2 ^ 32 -> load32 (mem h) (4096 * (y / 4096)) <> SLAB_MAGIC -> slab_get_slab y h = 0.
Proof.
  intros Hy Hm. unfold slab_get_slab. destruct (y =? 0); [done|]. rewrite page_mask by done.
  by replace (_ =? SLAB_MAGIC) with false by lia.
Qed.

(** The branch of [slab_free] that gives empty slabs back is never taken: the
    slab that has just become empty is the head of the list of empty slabs. *)
Lemma slab_free_spec h L F O y n :
  slab_inv h L F O -> live L F y n ->
  exists h' L' F', slab_free y h = Some (true, h') /\ slab_inv h' L' F' O /\ pages h' = pages h /\
    (forall z k, live L' F' z k <-> live L F z k /\ z <> y) /\
    (forall z, ~ (y <= z < y + 4) -> mem h' z = mem h z).
Proof.
  intros I (c & t & x & Hc & Hx & Ho & Hf & ->). pose proof (slab_page _ _ _ _ _ _ _ I Hc Hx) as Hp.
  pose proof (class_facts c Hc) as Hcf. pose proof (is_obj_range _ _ _ Hc Ho) as Hr. unfold SIZEOF_SLAB in Hr.
  pose proof (si_slab _ _ _ _ I c t x Hc Hx) as [B El Et].
  pose proof (objs_length x c (y :: F x) Hc) as Hlen. cbn [length] in Hlen.
  assert (Hnd : NoDup (y :: F x)) by (constructor; [done|apply B]).
  assert (Hobjs : forall o, o ∈ y :: F x -> is_obj x c o).
  { intros o [->|Hin]%elem_of_cons; [done|]. by apply (so_objs _ _ _ _ _ B). }
  specialize (Hlen Hnd Hobjs). pose proof (so_free _ _ _ _ _ B) as En.
  assert (Ha : forall o, o ∈ F x -> o + SLAB_SIZE_CLASSES c <= y \/ y + SLAB_SIZE_CLASSES c <= o).
  { intros o Hin. apply (is_obj_apart x); [done|by apply (so_objs _ _ _ _ _ B)|done|]. by intros ->. }
  assert (Hfl : 0 <= free_list (slabs h x) < 2 ^ 32).
  { pose proof (so_chain _ _ _ _ _ B) as Hch. pose proof (so_objs _ _ _ _ _ B) as Hob. destruct (F x) as [|o fl].
    - cbn in Hch. lia.
    - destruct Hch as (-> & _). pose proof (is_obj_range _ _ _ Hc (Hob o ltac:(by left))). unfold SIZEOF_SLAB in *. lia. }
  unfold slab_free. replace (y =? 0) with false by lia. rewrite (si_init _ _ _ _ I). cbn [negb orb].
  rewrite (get_slab_obj h L F O c t x y I Hc Hx Ho). replace (x =? 0) with false by lia.
  rewrite (so_cache _ _ _ _ _ B). unfold slab_free_to_slab. replace (x =? 0) with false by lia.
  rewrite (so_magic _ _ _ _ _ B). replace (y =? 0) with false by lia. cbn [negb orb Z.eqb SLAB_MAGIC Pos.eqb].
  rewrite (in_free_list_spec _ (F x)) by (apply (so_chain _ _ _ _ _ B) || (unfold FREE_LIST_FUEL; lia)).
  rewrite bool_decide_eq_false_2 by done. cbn [mem slabs set_mem].
  set (h1 := set_slab x _ _). destruct (count_free_same c h1) as (M1 & M2 & M3 & M4 & M5).
  assert (E1 : slabs h1 x = set_free_list y (Z.of_nat (length (F x)) + 1) (slabs h x)).
  { cbn. rewrite upd_eq, En, u16_small by lia. done. }
  assert (Em1 : mem h1 = store32 (mem h) y (free_list (slabs h x))) by done.
  destruct (change_slab h L F O c t x (count_free c h1) (y :: F x) I Hc Hx)
    as (L' & I' & Hmv & Em & Epg & Ecore & Ehead).
  - done.
  - done.
  - rewrite M1, Em1. apply store32_bytes, I.
  - intros c'. by rewrite (proj1 (M5 c')).
  - intros c'. by rewrite (proj2 (M5 c')).
  - intros z Hz. rewrite M2. cbn. by rewrite upd_ne.
  - by rewrite M2, E1.
  - by rewrite M2, E1.
  - intros z Hz. rewrite M1, Em1. apply store32_frame. lia.
  - by rewrite M2, E1.
  - rewrite M1, M2, E1, Em1. destruct B. split; cbn; try done.
    + rewrite <- so_magic. apply load32_frame. intros z Hz. apply store32_frame. lia.
    + lia.
    + split; [done|]. split; [lia|]. rewrite load32_store32, u32_small by lia.
      eapply free_chain_frame; [|done]. intros o z Hin Hz. apply store32_frame. specialize (Ha o Hin). lia.
  - rewrite M2 in Hmv, Ecore, Ehead. set (h' := slab_update_lists x (count_free c h1)) in *.
    set (t' := target_list (slabs h1 x)) in *.
    apply core_fields in Ecore as (_ & _ & _ & Eobj & Enf & _). cbn [num_objects num_free set_current_list] in Eobj, Enf.
    rewrite E1 in Eobj, Enf. cbn [num_objects num_free set_free_list] in Eobj, Enf.
    rewrite (so_objects _ _ _ _ _ B) in Eobj.
    assert (Hkeep : (num_free (slabs h' x) =? num_objects (slabs h' x)) &&
      negb (list_head (slab_caches h' c) SLAB_LIST_EMPTY =? x) = false).
    { rewrite Eobj, Enf. destruct (Z.eqb_spec (Z.of_nat (length (F x)) + 1) (per_slab c)) as [E|]; [|done].
      assert (Ht' : t' = SLAB_LIST_EMPTY).
      { unfold t', target_list. rewrite E1. cbn. rewrite (so_objects _ _ _ _ _ B), E.
        replace (per_slab c =? 0) with false by lia. by rewrite Z.eqb_refl. }
      rewrite Ht' in Ehead. rewrite Ehead; [by rewrite Z.eqb_refl|].
      rewrite <- Et. unfold target_list. rewrite En, (so_objects _ _ _ _ _ B).
      destruct (_ =? 0); [done|]. by replace (_ =? per_slab c) with false by lia. }
    rewrite Hkeep. exists h', L', F.[x <- y :: F x]. split; [done|]. split; [done|]. split; [done|]. split.
    + intros z k. rewrite (live_change h L F O c t x t' L' (y :: F x) I Hc Hx Hmv). split.
      * intros [[Hl Hno]|(Hz & Hzf & ->)]; [split; [done|]; by intros ->|].
        rewrite (live_in h L F O c t x) by done. set_solver.
      * intros [Hl Hzy]. pose proof Hl as (c0 & t0 & x0 & Hc0 & Hx0 & Hz0 & Hf0 & ->).
        destruct (decide (x0 = x)) as [->|Hne].
        -- destruct (li_disjoint _ _ (si_lists _ _ _ _ I) c0 t0 c t x) as [-> _]; [done..|]. right. set_solver.
        -- left. split; [done|]. intros Hz. by destruct (obj_slab h L F O c0 t0 x0 c t x z I Hc0 Hc Hx0 Hx Hz0 Hz).
    + intros z Hz. rewrite Em, M1, Em1. by apply store32_frame.
Qed.

(** Releasing an object that is free is refused. *)
Lemma slab_free_double h L F O c t x y :
  slab_inv h L F O -> cache_no c -> x ∈ L c t -> y ∈ F x -> slab_free y h = Some (false, h).
Proof.
  intros I Hc Hx Hy. pose proof (slab_page _ _ _ _ _ _ _ I Hc Hx) as Hp. pose proof (class_facts c Hc) as Hcf.
  pose proof (si_slab _ _ _ _ I c t x Hc Hx) as [B _ _]. pose proof (so_objs _ _ _ _ _ B y Hy) as Ho.
  pose proof (is_obj_range _ _ _ Hc Ho) as Hr. unfold SIZEOF_SLAB in Hr.
  pose proof (objs_length x c (F x) Hc (so_NoDup _ _ _ _ _ B) (so_objs _ _ _ _ _ B)) as Hlen.
  unfold slab_free. replace (y =? 0) with false by lia. rewrite (si_init _ _ _ _ I). cbn [negb orb].
  rewrite (get_slab_obj h L F O c t x y I Hc Hx Ho). replace (x =? 0) with false by lia.
  unfold slab_free_to_slab. replace (x =? 0) with false by lia. rewrite (so_magic _ _ _ _ _ B).
  replace (y =? 0) with false by lia. cbn [negb orb Z.eqb SLAB_MAGIC Pos.eqb].
  rewrite (in_free_list_spec _ (F x)) by (apply (so_chain _ _ _ _ _ B) || (unfold FREE_LIST_FUEL; lia)).
  by rewrite bool_decide_eq_true_2.
Qed.

(** ** Initialization *)

Lemma slab_init_spec h :
  bytes (mem h) -> pg_inv (pages h) [] -> slab_initialized h = false ->
  slab_inv (slab_init h) (fun _ _ => []) (fun _ => []) [].
Proof.
  intros Hb Hp Hi. unfold slab_init. rewrite Hi.
  assert (Hc : forall c, cache_no c -> for_loop SLAB_NUM_CACHES
    (fun i cs => cs.[i <- init_cache (SLAB_SIZE_CLASSES i)]) (slab_caches h) c = init_cache (SLAB_SIZE_CLASSES c)).
  { intros c Hc. pose proof (for_loop_ind (fun j (cs : Z -> slab_cache) =>
      forall i, 0 <= i < j -> cs i = init_cache (SLAB_SIZE_CLASSES i)) SLAB_NUM_CACHES
      (fun i cs => cs.[i <- init_cache (SLAB_SIZE_CLASSES i)]) (slab_caches h)) as Lp.
    apply Lp; [unfold SLAB_NUM_CACHES; lia|intros; lia| |unfold SLAB_NUM_CACHES; lia].
    intros j cs Hj IH i Hij. rewrite upd_cases. destruct (decide (i = j)) as [->|]; [done|]. apply IH. lia. }
  split; cbn; try done; try set_solver.
  - intros c Hc0. rewrite Hc by done. revert c Hc0. by apply cache_cases.
  - split; [|intros ? ? ? ? ? _ _ Hx; set_solver]. intros c t Hc0. cbn. rewrite Hc by done. apply dlist_nil.
Qed.
End Spec.
