(* ===== verification/Kmalloc.v ===== *)
(** Kernel memory allocation: a model of [src/kernel/kernel/memory/kmalloc.c].

    Up to 2048 bytes are served by the slab allocator, larger requests by whole
    pages with a header of twelve bytes in front: the magic number, the size and
    the flags, kept in the memory.  [None] means that a call does not return (a
    cyclic free list).  The lock is not modelled. *)

From S2P Require Import Prelude Dll CMem CString Paging Vmm Slab.
From Stdlib Require Import ZArith Lia Bool.
From stdpp Require Import base tactics numbers list sets gmap.
Open Scope Z_scope.

Definition KMALLOC_SLAB_THRESHOLD : Z := 2048.
Definition KMALLOC_ZERO : Z := 1.
Definition KMALLOC_MAGIC : Z := 0xDEADBEEF.
Definition SIZEOF_HEADER : Z := 12.
Definition SIZE_MAX : Z := 2 ^ 32 - 1.

Record kmalloc_stats := mk_kstats {
  ks_total_allocated : Z; ks_total_freed : Z; ks_current_usage : Z; ks_peak_usage : Z;
  ks_small_allocations : Z; ks_large_allocations : Z; ks_small_frees : Z; ks_large_frees : Z;
  ks_failed_allocations : Z }.

(** The globals of the file and the slab allocator. *)
Record kheap (P : Type) := mk_kheap {
  kh : heap P; kstats : kmalloc_stats; kmalloc_initialized : bool }.
Arguments mk_kheap {P}.
Arguments kh {P}.
Arguments kstats {P}.
Arguments kmalloc_initialized {P}.

Section Setters.
Context {P : Type}.
Definition set_kh (h : heap P) (k : kheap P) : kheap P := mk_kheap h (kstats k) (kmalloc_initialized k).
Definition set_kstats (s : kmalloc_stats) (k : kheap P) : kheap P := mk_kheap (kh k) s (kmalloc_initialized k).
Definition kmem (k : kheap P) : memory := mem (kh k).
Definition set_kmem (m : memory) (k : kheap P) : kheap P := set_kh (set_mem m (kh k)) k.
End Setters.

Definition align_large_size (size : Z) : Z :=
  let total := u32 (size + SIZEOF_HEADER) in
  PAGE_ALIGN_UP total.

(** The counters after an allocation, a release and a failure. *)
Definition count_small (n : Z) (s : kmalloc_stats) : kmalloc_stats :=
  let usage := u32 (ks_current_usage s + n) in
  mk_kstats (u32 (ks_total_allocated s + n)) (ks_total_freed s) usage
    (if ks_peak_usage s <? usage then usage else ks_peak_usage s)
    (u32 (ks_small_allocations s + 1)) (ks_large_allocations s) (ks_small_frees s) (ks_large_frees s)
    (ks_failed_allocations s).

Definition count_large (n : Z) (s : kmalloc_stats) : kmalloc_stats :=
  let usage := u32 (ks_current_usage s + n) in
  mk_kstats (u32 (ks_total_allocated s + n)) (ks_total_freed s) usage
    (if ks_peak_usage s <? usage then usage else ks_peak_usage s)
    (ks_small_allocations s) (u32 (ks_large_allocations s + 1)) (ks_small_frees s) (ks_large_frees s)
    (ks_failed_allocations s).

Definition count_failed (s : kmalloc_stats) : kmalloc_stats :=
  mk_kstats (ks_total_allocated s) (ks_total_freed s) (ks_current_usage s) (ks_peak_usage s)
    (ks_small_allocations s) (ks_large_allocations s) (ks_small_frees s) (ks_large_frees s)
    (u32 (ks_failed_allocations s + 1)).

Definition count_released (small : bool) (n : Z) (s : kmalloc_stats) : kmalloc_stats :=
  mk_kstats (ks_total_allocated s) (u32 (ks_total_freed s + n))
    (if n <=? ks_current_usage s then ks_current_usage s - n else 0) (ks_peak_usage s)
    (ks_small_allocations s) (ks_large_allocations s)
    (if small then u32 (ks_small_frees s + 1) else ks_small_frees s)
    (if small then ks_large_frees s else u32 (ks_large_frees s + 1))
    (ks_failed_allocations s).

Section Ops.
Context {P : Type} `{!PageOps P}.
Implicit Types (k : kheap P).

Definition kmalloc_init k : kheap P :=
  if kmalloc_initialized k then k else mk_kheap (kh k) (mk_kstats 0 0 0 0 0 0 0 0 0) true.

Definition kmalloc_flags (size flags : Z) k : Z * kheap P :=
  if negb (kmalloc_initialized k) then (0, k) else
  if size =? 0 then (0, k) else
  if size <=? KMALLOC_SLAB_THRESHOLD then
    let '(ptr, h) := slab_alloc size (kh k) in
    let k := set_kh h k in
    if negb (ptr =? 0) then
      let actual_size := match slab_find_cache size with
                         | Some c => object_size (slab_caches (kh k) c)
                         | None => size
                         end in
      let k := set_kstats (count_small actual_size (kstats k)) k in
      if negb (Z.land flags KMALLOC_ZERO =? 0) then (ptr, set_kmem (memset ptr 0 actual_size (kmem k)) k)
      else (ptr, k)
    else (0, set_kstats (count_failed (kstats k)) k)
  else
    let total_size := align_large_size size in
    let '(raw_ptr, p) := page_alloc total_size (pages (kh k)) in
    let k := set_kh (set_pages p (kh k)) k in
    if negb (raw_ptr =? 0) then
      let m := store32 (kmem k) raw_ptr KMALLOC_MAGIC in
      let m := store32 m (raw_ptr + 4) size in
      let m := store32 m (raw_ptr + 8) flags in
      let ptr := u32 (raw_ptr + SIZEOF_HEADER) in
      let k := set_kstats (count_large size (kstats k)) (set_kmem m k) in
      if negb (Z.land flags KMALLOC_ZERO =? 0) then (ptr, set_kmem (memset ptr 0 size (kmem k)) k)
      else (ptr, k)
    else (0, set_kstats (count_failed (kstats k)) k).

Definition kmalloc (size : Z) k : Z * kheap P := kmalloc_flags size 0 k.

Definition kcalloc (nmemb size : Z) k : Z * kheap P :=
  if negb (nmemb =? 0) && (SIZE_MAX / nmemb <? size) then (0, k) else
  kmalloc_flags (u32 (nmemb * size)) KMALLOC_ZERO k.

Definition kfree (ptr : Z) k : option (kheap P) :=
  if (ptr =? 0) || negb (kmalloc_initialized k) then Some k else
  let slab := slab_get_slab ptr (kh k) in
  if negb (slab =? 0) then
    let size := object_size (slab_caches (kh k) (sl_cache (slabs (kh k) slab))) in
    match slab_free ptr (kh k) with
    | None => None
    | Some (true, h) => Some (set_kstats (count_released true size (kstats k)) (set_kh h k))
    | Some (false, h) => Some (set_kh h k)
    end
  else
    let header := u32 (ptr - SIZEOF_HEADER) in
    if negb (load32 (kmem k) header =? KMALLOC_MAGIC) then Some k else
    let size := load32 (kmem k) (header + 4) in
    let total_size := align_large_size size in
    let k := set_kmem (store32 (kmem k) header 0) k in
    let k := set_kh (set_pages (page_free header total_size (pages (kh k))) (kh k)) k in
    Some (set_kstats (count_released false size (kstats k)) k).

Definition kmalloc_is_valid_ptr (ptr : Z) k : bool :=
  if ptr =? 0 then false else
  if negb (slab_get_slab ptr (kh k) =? 0) then true else
  load32 (kmem k) (u32 (ptr - SIZEOF_HEADER)) =? KMALLOC_MAGIC.

Definition kmalloc_size (ptr : Z) k : Z :=
  if ptr =? 0 then 0 else
  let slab := slab_get_slab ptr (kh k) in
  if negb (slab =? 0) then object_size (slab_caches (kh k) (sl_cache (slabs (kh k) slab))) else
  let header := u32 (ptr - SIZEOF_HEADER) in
  if load32 (kmem k) header =? KMALLOC_MAGIC then load32 (kmem k) (header + 4) else 0.

(** The end of [krealloc]: a new block, the copy and the release of the old. *)
Definition krealloc_move (ptr old_size new_size : Z) k : option (Z * kheap P) :=
  let '(new_ptr, k) := kmalloc new_size k in
  if new_ptr =? 0 then Some (0, k) else
  let copy_size := if old_size <? new_size then old_size else new_size in
  let k := set_kmem (memcpy new_ptr ptr copy_size (kmem k)) k in
  match kfree ptr k with
  | None => None
  | Some k => Some (new_ptr, k)
  end.

Definition krealloc (ptr new_size : Z) k : option (Z * kheap P) :=
  if ptr =? 0 then Some (kmalloc new_size k) else
  if new_size =? 0 then
    match kfree ptr k with
    | None => None
    | Some k => Some (0, k)
    end
  else
  let old_size := kmalloc_size ptr k in
  if old_size =? 0 then Some (0, k) else
  let slab := slab_get_slab ptr (kh k) in
  if negb (slab =? 0) then
    let actual_size := object_size (slab_caches (kh k) (sl_cache (slabs (kh k) slab))) in
    if new_size <=? actual_size then Some (ptr, k) else krealloc_move ptr old_size new_size k
  else if align_large_size old_size =? align_large_size new_size then
    let header := u32 (ptr - SIZEOF_HEADER) in
    Some (ptr, set_kmem (store32 (kmem k) (header + 4) new_size) k)
  else krealloc_move ptr old_size new_size k.

(** [fuel] bounds the length of the string. *)
Definition kstrdup (fuel : nat) (str : Z) k : option (Z * kheap P) :=
  if str =? 0 then Some (0, k) else
  match strlen fuel (kmem k) str with
  | None => None
  | Some len =>
      let '(dup, k) := kmalloc (u32 (len + 1)) k in
      if negb (dup =? 0) then Some (dup, set_kmem (memcpy dup str (u32 (len + 1)) (kmem k)) k)
      else Some (0, k)
  end.

(** The loop of [kstrndup]: [n] bytes from [len] on may still be read. *)
Fixpoint strnlen_from (n : nat) (m : memory) (str len : Z) : Z :=
  match n with
  | O => len
  | S n => if m (str + len) =? 0 then len else strnlen_from n m str (len + 1)
  end.

Definition kstrndup (str max : Z) k : Z * kheap P :=
  if str =? 0 then (0, k) else
  let len := strnlen_from (Z.to_nat max) (kmem k) str 0 in
  let '(dup, k) := kmalloc (u32 (len + 1)) k in
  if negb (dup =? 0) then (dup, set_kmem (memcpy dup str len (kmem k)).[dup + len <- 0] k)
  else (0, k).

Definition kmalloc_get_stats k : kmalloc_stats := kstats k.

Definition kmalloc_validate (fuel : nat) k : option bool :=
  if negb (kmalloc_initialized k) then Some false else
  match slab_validate fuel (kh k) with
  | None => None
  | Some false => Some false
  | Some true =>
      let s := kstats k in
      if ks_total_allocated s <? ks_total_freed s then Some false
      else if ks_total_allocated s <? ks_current_usage s then Some false
      else Some true
  end.
End Ops.
