(* ===== verification/KmallocSpec.v ===== *)
(** The contract of [kmalloc], [kfree] and [krealloc], against the interface of
    the page source.

    [kmalloc_ok k B]: the blocks allocated in [k] are exactly [B], a map from
    addresses to usable sizes, and all structures are intact.  The lemmas say what
    each call does to [B] and to the contents of the blocks. *)

From S2P Require Import Prelude Dll CMem CString Paging Vmm Slab SlabInv SlabSpec Kmalloc.
From Stdlib Require Import ZArith Lia Bool.
From stdpp Require Import base tactics numbers list sets gmap.
Open Scope Z_scope.

(** The sizes for which header and rounding do not overflow. *)
Definition large_limit : Z := 2 ^ 32 - 4107.

(** The pages of a large block of [n] bytes. *)
Definition large_pages (n : Z) : Z := (n + 4107) / 4096.

Lemma large_pages_facts n : 0 < n < large_limit -> 0 < large_pages n < 2 ^ 20 /\ n + 12 <= 4096 * large_pages n.
Proof. unfold large_limit, large_pages. intros. change (2 ^ 32) with 4294967296 in *. change (2 ^ 20) with 1048576. dlia. Qed.

Lemma align_large n : 0 < n < large_limit -> align_large_size n = 4096 * large_pages n.
Proof.
  unfold large_limit, align_large_size, PAGE_ALIGN_UP, large_pages, SIZEOF_HEADER, PAGE_SIZE. intros Hn.
  change (2 ^ 32) with 4294967296 in Hn. rewrite (u32_small (n + 12)), u32_small by lia.
  change 4096 with PAGE_SIZE at 2. rewrite page_mask by lia. f_equal. f_equal. lia.
Qed.

(** The bytes of the blocks are the same. *)
Definition kept (B : gmap Z Z) (m m' : memory) : Prop :=
  forall p n y, B !! p = Some n -> p <= y < p + n -> m' y = m y.

Lemma kept_trans B m1 m2 m3 : kept B m1 m2 -> kept B m2 m3 -> kept B m1 m3.
Proof. intros H1 H2 p n y Hp Hy. rewrite (H2 p n y), (H1 p n y) by done. done. Qed.

Lemma kept_subseteq B B' m m' : B ⊆ B' -> kept B' m m' -> kept B m m'.
Proof. intros Hs Hk p n y Hp. apply (Hk p). by eapply lookup_weaken. Qed.

Section Spec.
Context {P : Type} `{PageSource P}.
Implicit Types (k : kheap P) (L : slab_lists) (F : Z -> list Z) (O : list (Z * Z)) (G B : gmap Z Z).

(** [G]: the large blocks and their sizes. *)
Record kinv k L F O G : Prop := {
  ki_init : kmalloc_initialized k = true;
  ki_slab : slab_inv (kh k) L F O;
  ki_size y n : G !! y = Some n -> 0 < n < large_limit;
  ki_owned y n : G !! y = Some n -> (y - 12, large_pages n) ∈ O;
  ki_magic y n : G !! y = Some n -> load32 (kmem k) (y - 12) = KMALLOC_MAGIC;
  ki_header y n : G !! y = Some n -> load32 (kmem k) (y - 8) = n }.

Definition is_block L F G y n : Prop := live L F y n \/ G !! y = Some n.

Definition kmalloc_ok k B : Prop :=
  exists L F O G, kinv k L F O G /\ forall y n, B !! y = Some n <-> is_block L F G y n.

(** ** Where blocks are *)

Lemma large_region k L F O G y n :
  kinv k L F O G -> G !! y = Some n ->
  0 < y - 12 /\ (y - 12) mod 4096 = 0 /\ y + n <= y - 12 + 4096 * large_pages n /\
  y - 12 + 4096 * large_pages n < 2 ^ 32 /\ 0 < n.
Proof.
  intros K Hy. pose proof (pg_region _ _ _ _ (si_pages _ _ _ _ (ki_slab _ _ _ _ _ K)) (ki_owned _ _ _ _ _ K y n Hy)) as R.
  pose proof (large_pages_facts n (ki_size _ _ _ _ _ K y n Hy)). pose proof (ki_size _ _ _ _ _ K y n Hy). lia.
Qed.

(** A slab and a large block, and two large blocks, are in different regions. *)
Lemma slab_large_apart k L F O G c t x y n :
  kinv k L F O G -> cache_no c -> x ∈ L c t -> G !! y = Some n ->
  x + 4096 <= y - 12 \/ y - 12 + 4096 * large_pages n <= x.
Proof.
  intros K Hc Hx Hy. pose proof (ki_slab _ _ _ _ _ K) as I.
  destruct (pg_disjoint _ _ x 1 (y - 12) (large_pages n) (si_pages _ _ _ _ I) (si_owned _ _ _ _ I c t x Hc Hx)
    (ki_owned _ _ _ _ _ K y n Hy)); [|lia|lia].
  intros [= E _]. pose proof (ki_magic _ _ _ _ _ K y n Hy) as M. rewrite <- E in M.
  pose proof (so_magic _ _ _ _ _ (so_body _ _ _ _ _ _ (si_slab _ _ _ _ I c t x Hc Hx))) as M'. unfold kmem in M. rewrite M' in M. done.
Qed.

Lemma large_apart k L F O G y n y' n' :
  kinv k L F O G -> G !! y = Some n -> G !! y' = Some n' -> y <> y' ->
  y - 12 + 4096 * large_pages n <= y' - 12 \/ y' - 12 + 4096 * large_pages n' <= y - 12.
Proof.
  intros K Hy Hy' Hne. apply (pg_disjoint _ _ _ _ _ _ (si_pages _ _ _ _ (ki_slab _ _ _ _ _ K))).
  - exact (ki_owned _ _ _ _ _ K y n Hy).
  - exact (ki_owned _ _ _ _ _ K y' n' Hy').
  - intros [= E _]. lia.
Qed.

Lemma live_not_large k L F O G y n n' : kinv k L F O G -> live L F y n -> G !! y = Some n' -> False.
Proof.
  intros K (c & t & x & Hc & Hx & Ho & _) Hy. pose proof (is_obj_range _ _ _ Hc Ho). pose proof (class_facts c Hc).
  pose proof (large_region _ _ _ _ _ _ _ K Hy). destruct (slab_large_apart _ _ _ _ _ _ _ _ _ _ K Hc Hx Hy); unfold SIZEOF_SLAB in *; lia.
Qed.

(** Blocks do not overlap. *)
Lemma blocks_apart k L F O G y n y' n' :
  kinv k L F O G -> is_block L F G y n -> is_block L F G y' n' -> y <> y' -> y + n <= y' \/ y' + n' <= y.
Proof.
  intros K [Hl|Hg] [Hl'|Hg'] Hne.
  - eapply live_apart; [apply K|done..].
  - destruct Hl as (c & t & x & Hc & Hx & Ho & _ & ->). pose proof (is_obj_range _ _ _ Hc Ho).
    pose proof (large_region _ _ _ _ _ _ _ K Hg').
    destruct (slab_large_apart _ _ _ _ _ _ _ _ _ _ K Hc Hx Hg'); unfold SIZEOF_SLAB in *; lia.
  - destruct Hl' as (c & t & x & Hc & Hx & Ho & _ & ->). pose proof (is_obj_range _ _ _ Hc Ho).
    pose proof (large_region _ _ _ _ _ _ _ K Hg).
    destruct (slab_large_apart _ _ _ _ _ _ _ _ _ _ K Hc Hx Hg); unfold SIZEOF_SLAB in *; lia.
  - pose proof (large_region _ _ _ _ _ _ _ K Hg). pose proof (large_region _ _ _ _ _ _ _ K Hg').
    destruct (large_apart _ _ _ _ _ _ _ _ _ K Hg Hg' Hne); lia.
Qed.

(** A block does not contain a byte of the allocator. *)
Lemma block_unguarded k L F O G p n y :
  kinv k L F O G -> is_block L F G p n -> p <= y < p + n ->
  ~ guarded L F y /\ forall q j, G !! q = Some j -> ~ (q - 12 <= y < q).
Proof.
  intros K Hb Hy. pose proof (ki_slab _ _ _ _ _ K) as I. split.
  - intros (c & t & x & Hc & Hx & Hg).
    pose proof (si_slab _ _ _ _ I c t x Hc Hx) as [Bd _ _]. pose proof (class_facts c Hc) as Cf.
    assert (Hgx : x <= y < x + 4096).
    { destruct Hg as [?|(o & Ho & ?)]; [lia|]. pose proof (is_obj_range _ _ _ Hc (so_objs _ _ _ _ _ Bd o Ho)).
      unfold SIZEOF_SLAB in *. lia. }
    destruct Hb as [(c' & t' & x' & Hc' & Hx' & Ho' & Hf' & ->)|Hb].
    + pose proof (is_obj_range _ _ _ Hc' Ho') as R. unfold SIZEOF_SLAB in R.
      destruct (decide (x = x')) as [<-|Hne]; [|pose proof (slabs_apart _ L F O c t x c' t' x' I Hc Hc' Hx Hx' Hne); lia].
      destruct (li_disjoint _ _ (si_lists _ _ _ _ I) c t c' t' x) as [<- _]; [done..|].
      destruct Hg as [?|(o & Ho & ?)]; [lia|].
      destruct (is_obj_apart x c o p Hc (so_objs _ _ _ _ _ Bd o Ho) Ho'); [by intros ->|lia|lia].
    + pose proof (large_region _ _ _ _ _ _ _ K Hb). destruct (slab_large_apart _ _ _ _ _ _ _ _ _ _ K Hc Hx Hb); lia.
  - intros q j Hq Hqy. pose proof (large_region _ _ _ _ _ _ _ K Hq). pose proof (large_pages_facts j (ki_size _ _ _ _ _ K q j Hq)).
    destruct Hb as [(c' & t' & x' & Hc' & Hx' & Ho' & Hf' & ->)|Hb].
    + pose proof (is_obj_range _ _ _ Hc' Ho') as R. unfold SIZEOF_SLAB in R.
      destruct (slab_large_apart _ _ _ _ _ _ _ _ _ _ K Hc' Hx' Hq); lia.
    + pose proof (large_region _ _ _ _ _ _ _ K Hb). destruct (decide (p = q)) as [->|Hne]; [lia|].
      destruct (large_apart _ _ _ _ _ _ _ _ _ K Hb Hq Hne); lia.
Qed.

(** ** Writing into blocks *)

Lemma kinv_mem k L F O G m :
  kinv k L F O G -> bytes m -> (forall y, guarded L F y -> m y = kmem k y) ->
  (forall q j y, G !! q = Some j -> q - 12 <= y < q -> m y = kmem k y) -> kinv (set_kmem m k) L F O G.
Proof.
  intros [K1 K2 K3 K4 K5 K6] Hb Hg Hh. split; [done| |done|done| |].
  - by apply slab_inv_mem.
  - intros y n Hy. rewrite <- (K5 y n Hy). apply load32_frame. intros z Hz. eapply Hh; [done|lia].
  - intros y n Hy. rewrite <- (K6 y n Hy). apply load32_frame. intros z Hz. eapply Hh; [done|lia].
Qed.

(** Only bytes of the block [p] change. *)
Lemma kinv_write k L F O G m p n :
  kinv k L F O G -> is_block L F G p n -> bytes m -> (forall y, ~ (p <= y < p + n) -> m y = kmem k y) ->
  kinv (set_kmem m k) L F O G.
Proof.
  intros K Hb Hm Hw. apply kinv_mem; [done|done| |].
  - intros y Hg. apply Hw. intros Hy. by destruct (block_unguarded _ _ _ _ _ _ _ y K Hb Hy).
  - intros q j y Hq Hqy. apply Hw. intros Hy. destruct (block_unguarded _ _ _ _ _ _ _ y K Hb Hy) as [_ Hn]. by eapply Hn.
Qed.

(** The same on the abstract heap: other blocks keep their contents. *)
Lemma write_ok k B m p n :
  kmalloc_ok k B -> B !! p = Some n -> bytes m -> (forall y, ~ (p <= y < p + n) -> m y = kmem k y) ->
  kmalloc_ok (set_kmem m k) B /\ kept (delete p B) (kmem k) m.
Proof.
  intros (L & F & O & G & K & HB) Hp Hb Hm. apply HB in Hp. split.
  - exists L, F, O, G. split; [by eapply kinv_write|done].
  - intros q j y Hq Hy. apply lookup_delete_Some in Hq as [Hne Hq]. apply HB in Hq. apply Hm.
    destruct (blocks_apart _ _ _ _ _ _ _ _ _ K Hp Hq Hne); lia.
Qed.

(** ** Looking a pointer up *)

Lemma large_get_slab k L F O G y n : kinv k L F O G -> G !! y = Some n -> slab_get_slab y (kh k) = 0.
Proof.
  intros K Hy. pose proof (large_region _ _ _ _ _ _ _ K Hy) as R. pose proof (large_pages_facts n (ki_size _ _ _ _ _ K y n Hy)).
  apply get_slab_none; [lia|]. rewrite (in_page (y - 12)) by lia. change (mem (kh k)) with (kmem k).
  by rewrite (ki_magic _ _ _ _ _ K y n Hy).
Qed.

Lemma live_get_slab k L F O G y n : kinv k L F O G -> live L F y n ->
  exists x, slab_get_slab y (kh k) = x /\ 0 < x /\ object_size (slab_caches (kh k) (sl_cache (slabs (kh k) x))) = n.
Proof.
  intros K (c & t & x & Hc & Hx & Ho & Hf & ->). pose proof (ki_slab _ _ _ _ _ K) as I. exists x.
  split; [by eapply get_slab_obj|]. pose proof (slab_page _ _ _ _ _ _ _ I Hc Hx). split; [lia|].
  rewrite (so_cache _ _ _ _ _ (so_body _ _ _ _ _ _ (si_slab _ _ _ _ I c t x Hc Hx))).
  pose proof (si_cache _ _ _ _ I c Hc) as Gm. by injection Gm.
Qed.

Lemma block_size k L F O G y n : kinv k L F O G -> is_block L F G y n ->
  0 < y /\ 0 < n /\ y + n < 2 ^ 32 /\ kmalloc_size y k = n /\ kmalloc_is_valid_ptr y k = true.
Proof.
  intros K [Hl|Hg]; unfold kmalloc_size, kmalloc_is_valid_ptr.
  - destruct (live_get_slab _ _ _ _ _ _ _ K Hl) as (x & -> & Hx & ->).
    destruct (live_page _ _ _ _ _ _ (ki_slab _ _ _ _ _ K) Hl) as (x' & Hx' & _ & H1 & H2 & H3).
    pose proof (pg_region _ _ _ _ (si_pages _ _ _ _ (ki_slab _ _ _ _ _ K)) Hx'). unfold SIZEOF_SLAB in *.
    replace (y =? 0) with false by lia. replace (x =? 0) with false by lia. cbn. lia.
  - rewrite (large_get_slab _ _ _ _ _ _ _ K Hg). pose proof (large_region _ _ _ _ _ _ _ K Hg) as R.
    replace (y =? 0) with false by lia. cbn [negb Z.eqb]. unfold SIZEOF_HEADER. rewrite u32_small by lia.
    rewrite (ki_magic _ _ _ _ _ K y n Hg). replace (y - 12 + 4) with (y - 8) by lia.
    rewrite (ki_header _ _ _ _ _ K y n Hg). split; [lia|]. split; [lia|]. split; [lia|done].
Qed.

(** ** Allocation *)

Lemma kinv_stats k L F O G s : kinv k L F O G -> kinv (set_kstats s k) L F O G.
Proof. intros []. by split. Qed.

(** A small block. *)
Lemma small_ok k B size :
  kmalloc_ok k B -> 0 < size <= 1024 ->
  let '(p, h) := slab_alloc size (kh k) in
  let k' := set_kh h k in
  (p = 0 /\ kmalloc_ok k' B /\ kept B (kmem k) (kmem k')) \/
  (p <> 0 /\ B !! p = None /\ exists c, slab_find_cache size = Some c /\ size <= object_size (slab_caches h c) /\
    kmalloc_ok k' (<[p := object_size (slab_caches h c)]> B) /\ kept B (kmem k) (kmem k')).
Proof.
  intros (L & F & O & G & K & HB) Hs. pose proof K as [K1 K2 K3 K4 K5 K6]. pose proof (slab_alloc_spec _ L F O size K2 Hs) as S.
  destruct (slab_alloc size (kh k)) as [p h]. cbv zeta. destruct S as [(-> & I & Em)|(Hp & c & L' & F' & O' & Ec & Hc & Hsc & T & _)].
  { left. split; [done|]. assert (Ek : kmem (set_kh h k) = kmem k) by exact Em. split; [|rewrite Ek; by intros ?].
    exists L, F, O, G. split; [|done]. split; try done; intros y n Hy; rewrite Ek; eauto. }
  right. destruct T as [I Tl Tf Tr Tm].
  assert (Hsz : object_size (slab_caches h c) = SLAB_SIZE_CLASSES c).
  { pose proof (si_cache _ _ _ _ I c Hc) as Gm. by injection Gm. }
  assert (Hhd : forall y n a, G !! y = Some n -> y - 12 <= a < y -> mem h a = kmem k a).
  { intros y n a Hy Ha. pose proof (large_region _ _ _ _ _ _ _ K Hy). eapply Tm; [by eapply K4|]. lia. }
  assert (K' : kinv (set_kh h k) L' F' O' G).
  { split; try done; intros y n Hy.
    - by eapply Tr, K4.
    - rewrite <- (K5 y n Hy). apply load32_frame. intros a Ha. eapply Hhd; [done|lia].
    - rewrite <- (K6 y n Hy). apply load32_frame. intros a Ha. eapply Hhd; [done|lia]. }
  assert (Hlp : live L' F' p (SLAB_SIZE_CLASSES c)) by (apply Tl; by right).
  assert (Hno : B !! p = None).
  { destruct (B !! p) as [n|] eqn:E; [|done]. apply HB in E as [E|E]; [by destruct (Tf n)|].
    by destruct (live_not_large _ _ _ _ _ _ _ _ K' Hlp E). }
  split; [done|]. split; [done|]. exists c. rewrite Hsz. split; [done|]. split; [done|]. split.
  - exists L', F', O', G. split; [done|]. intros y n. unfold is_block. rewrite Tl.
    destruct (decide (y = p)) as [->|Hne].
    + rewrite lookup_insert_eq. split; [intros [= <-]; auto|]. intros [[Hl|[_ ->]]|Hg]; [by destruct (Tf n)|done|].
      by destruct (live_not_large _ _ _ _ _ _ _ _ K' Hlp Hg).
    + rewrite lookup_insert_ne by done. rewrite HB. unfold is_block. naive_solver.
  - intros q n a Hq Ha. apply HB in Hq as [Hl|Hg].
    + destruct (live_page _ _ _ _ _ _ K2 Hl) as (x & Hx & _ & ? & ? & ?). eapply Tm; [exact Hx|]. unfold SIZEOF_SLAB in *. lia.
    + pose proof (large_region _ _ _ _ _ _ _ K Hg). eapply Tm; [by eapply K4|]. lia.
Qed.

(** The header of a large block. *)
Definition put_header (m : memory) (a size flags : Z) : memory :=
  store32 (store32 (store32 m a KMALLOC_MAGIC) (a + 4) size) (a + 8) flags.

Lemma put_header_spec m a size flags :
  bytes m -> 0 <= size < 2 ^ 32 -> let m' := put_header m a size flags in
  bytes m' /\ load32 m' a = KMALLOC_MAGIC /\ load32 m' (a + 4) = size /\ forall y, ~ (a <= y < a + 12) -> m' y = m y.
Proof.
  intros Hb Hs. cbv zeta. unfold put_header. split; [by do 3 apply store32_bytes|]. split; [|split].
  - rewrite (load32_frame (store32 m a KMALLOC_MAGIC)); [apply load32_store32|].
    intros y Hy. rewrite !store32_frame by lia. done.
  - rewrite (load32_frame (store32 (store32 m a KMALLOC_MAGIC) (a + 4) size)).
    + rewrite load32_store32. by rewrite u32_small.
    + intros y Hy. apply store32_frame. lia.
  - intros y Hy. rewrite !store32_frame by lia. done.
Qed.

Lemma large_ok k B size flags :
  kmalloc_ok k B -> 0 < size < large_limit ->
  let '(a, p) := page_alloc (align_large_size size) (pages (kh k)) in
  let k1 := set_kh (set_pages p (kh k)) k in
  (a = 0 /\ kmalloc_ok k1 B /\ kept B (kmem k) (kmem k1)) \/
  (a <> 0 /\ 0 < a /\ a + 12 < 2 ^ 32 /\ let k' := set_kmem (put_header (kmem k) a size flags) k1 in
    B !! (a + 12) = None /\ kmalloc_ok k' (<[a + 12 := size]> B) /\ kept B (kmem k) (kmem k')).
Proof.
  intros (L & F & O & G & K & HB) Hs. pose proof K as [K1 K2 K3 K4 K5 K6]. rewrite align_large by done.
  pose proof (large_pages_facts size Hs) as Hlp.
  pose proof (pg_alloc _ O (large_pages size) (si_pages _ _ _ _ K2) ltac:(lia)) as A.
  destruct (page_alloc _ _) as [a p]. cbv zeta. destruct A as [[-> Hp]|(Ha & Hno & Hp)].
  { left. split; [done|]. split; [|by intros ?]. exists L, F, O, G. split; [|done]. split; try done.
    eapply slab_inv_pages; [done..|apply K2]. }
  right. split; [done|]. destruct (pg_region _ _ a _ Hp ltac:(by left)) as (_ & Ha0 & Hal & Hlim). split; [done|]. split; [lia|].
  destruct (owned_other _ L F O p a _ K2 Hno Hp ltac:(lia)) as [HnoL Hdj].
  destruct (put_header_spec (kmem k) a size flags) as (Hb & Hm1 & Hm2 & Hmf); [apply K2|unfold large_limit in Hs; lia|].
  set (m' := put_header (kmem k) a size flags) in *. set (k' := set_kmem _ _).
  assert (Hout : forall b j y, (b, j) ∈ O -> b <= y < b + 4096 * j -> m' y = kmem k y).
  { intros b j y Hbj Hy. apply Hmf. pose proof (Hdj b j y Hbj Hy). lia. }
  assert (HGa : G !! (a + 12) = None).
  { destruct (G !! (a + 12)) as [n|] eqn:E; [|done]. pose proof (K4 _ _ E) as Ho.
    pose proof (large_region _ _ _ _ _ _ _ K E). destruct (Hdj _ _ (a + 12) Ho); lia. }
  assert (K' : kinv k' L F ((a, large_pages size) :: O) (<[a + 12 := size]> G)).
  { split; [done| | | | |].
    - apply (slab_inv_mem (set_pages p (kh k)) L F).
      + eapply slab_inv_pages; [done..|]. intros c t x Hc Hx. right. by eapply K2.
      + done.
      + intros y (c & t & x & Hc & Hx & Hg). eapply Hout; [by eapply (si_owned _ _ _ _ K2)|].
        destruct Hg as [?|(o & Ho & ?)]; [lia|].
        pose proof (is_obj_range _ _ _ Hc (so_objs _ _ _ _ _ (so_body _ _ _ _ _ _ (si_slab _ _ _ _ K2 c t x Hc Hx)) o Ho)).
        pose proof (class_facts c Hc). unfold SIZEOF_SLAB in *. lia.
    - intros y n [[<- <-]|[_ Hy]]%lookup_insert_Some; [done|by eapply K3].
    - intros y n [[<- <-]|[_ Hy]]%lookup_insert_Some; [|right; by eapply K4].
      replace (a + 12 - 12) with a by lia. by left.
    - intros y n [[<- <-]|[_ Hy]]%lookup_insert_Some; [by replace (a + 12 - 12) with a by lia|].
      rewrite <- (K5 y n Hy). apply load32_frame. intros z Hz. eapply Hout; [by eapply K4|].
      pose proof (large_region _ _ _ _ _ _ _ K Hy). lia.
    - intros y n [[<- <-]|[_ Hy]]%lookup_insert_Some; [by replace (a + 12 - 8) with (a + 4) by lia|].
      rewrite <- (K6 y n Hy). apply load32_frame. intros z Hz. eapply Hout; [by eapply K4|].
      pose proof (large_region _ _ _ _ _ _ _ K Hy). lia. }
  assert (Hla : (<[a + 12 := size]> G) !! (a + 12) = Some size) by apply lookup_insert_eq.
  split; [|split].
  - destruct (B !! (a + 12)) as [n|] eqn:E; [|done]. apply HB in E as [E|E]; [|by rewrite HGa in E].
    by destruct (live_not_large _ _ _ _ _ _ _ _ K' E Hla).
  - exists L, F, ((a, large_pages size) :: O), (<[a + 12 := size]> G). split; [done|]. intros y n. unfold is_block.
    destruct (decide (y = a + 12)) as [->|Hne].
    + rewrite !lookup_insert_eq. split; [intros [= <-]; auto|]. intros [Hl|?]; [|done].
      by destruct (live_not_large _ _ _ _ _ _ _ _ K' Hl Hla).
    + rewrite !lookup_insert_ne by done. apply HB.
  - intros q n y Hq Hy. apply HB in Hq as [Hl|Hg].
    + destruct (live_page _ _ _ _ _ _ K2 Hl) as (x & Hx & _ & ? & ? & ?). eapply Hout; [exact Hx|]. unfold SIZEOF_SLAB in *. lia.
    + pose proof (large_region _ _ _ _ _ _ _ K Hg). eapply Hout; [by eapply K4|]. lia.
Qed.

Lemma ok_stats k B s : kmalloc_ok k B -> kmalloc_ok (set_kstats s k) B.
Proof. intros (L & F & O & G & K & HB). exists L, F, O, G. split; [by apply kinv_stats|done]. Qed.

Lemma ok_bytes k B : kmalloc_ok k B -> bytes (kmem k).
Proof. intros (L & F & O & G & K & HB). apply K. Qed.

Lemma ok_block k B y n : kmalloc_ok k B -> B !! y = Some n ->
  0 < y /\ 0 < n /\ y + n < 2 ^ 32 /\ kmalloc_size y k = n /\ kmalloc_is_valid_ptr y k = true.
Proof. intros (L & F & O & G & K & HB) Hy. apply HB in Hy. by eapply block_size. Qed.

Lemma ok_apart k B y n y' n' :
  kmalloc_ok k B -> B !! y = Some n -> B !! y' = Some n' -> y <> y' -> y + n <= y' \/ y' + n' <= y.
Proof. intros (L & F & O & G & K & HB) Hy Hy'. apply HB in Hy. apply HB in Hy'. by eapply blocks_apart. Qed.

(** Clearing a new block. *)
Lemma zero_ok k B p n :
  kmalloc_ok k (<[p := n]> B) -> B !! p = None -> let k' := set_kmem (memset p 0 n (kmem k)) k in
  kmalloc_ok k' (<[p := n]> B) /\ kept B (kmem k) (kmem k') /\ forall y, p <= y < p + n -> kmem k' y = 0.
Proof.
  intros K Hno. cbv zeta. assert (Hp : (<[p := n]> B) !! p = Some n) by apply lookup_insert_eq.
  pose proof (ok_block _ _ _ _ K Hp) as Hr. pose proof (memset_spec p 0 n (kmem k) ltac:(lia)) as Hf. unfold filled in Hf.
  assert (Hin : forall y, p <= y < p + n -> memset p 0 n (kmem k) y = 0) by (intros y Hy; rewrite Hf; by rewrite decide_True).
  assert (Hout : forall y, ~ (p <= y < p + n) -> memset p 0 n (kmem k) y = kmem k y)
    by (intros y Hy; rewrite Hf; by rewrite decide_False).
  destruct (write_ok k _ (memset p 0 n (kmem k)) p n K Hp) as [K' Hk].
  - intros y. destruct (decide (p <= y < p + n)) as [Hy|Hy]; [rewrite Hin by done; lia|]. rewrite Hout by done. by eapply ok_bytes.
  - exact Hout.
  - split; [done|]. split; [|done]. rewrite delete_insert_id in Hk by done. done.
Qed.

(** What an allocation does: nothing that matters, or a new block. *)
Definition alloc_effect k B size flags p k' : Prop :=
  kept B (kmem k) (kmem k') /\
  ((p = 0 /\ kmalloc_ok k' B) \/
   (p <> 0 /\ B !! p = None /\ exists n, size <= n /\ kmalloc_ok k' (<[p := n]> B) /\
      (Z.land flags KMALLOC_ZERO <> 0 -> forall y, p <= y < p + n -> kmem k' y = 0))).

(** The end of both branches of [kmalloc_flags]. *)
Lemma finish_ok k B size flags p n k1 s :
  kept B (kmem k) (kmem k1) -> p <> 0 -> B !! p = None -> size <= n -> kmalloc_ok k1 (<[p := n]> B) ->
  let k2 := set_kstats s k1 in
  let '(q, k') := if negb (Z.land flags KMALLOC_ZERO =? 0) then (p, set_kmem (memset p 0 n (kmem k2)) k2) else (p, k2) in
  alloc_effect k B size flags q k'.
Proof.
  intros Hk Hp Hno Hn K. cbv zeta. apply (ok_stats _ _ s) in K. destruct (Z.eqb_spec (Z.land flags KMALLOC_ZERO) 0); cbn [negb].
  - split; [done|]. right. split; [done|]. split; [done|]. by exists n.
  - destruct (zero_ok _ _ _ _ K Hno) as (K' & Hk' & Hz). split; [by eapply kept_trans|]. right.
    split; [done|]. split; [done|]. by exists n.
Qed.

Lemma kmalloc_flags_spec k B size flags :
  kmalloc_ok k B -> 0 < size < large_limit ->
  let '(p, k') := kmalloc_flags size flags k in alloc_effect k B size flags p k'.
Proof.
  intros K Hs. assert (Hi : kmalloc_initialized k = true) by (destruct K as (? & ? & ? & ? & K & _); apply K).
  unfold kmalloc_flags. rewrite Hi. cbn [negb]. replace (size =? 0) with false by lia. unfold KMALLOC_SLAB_THRESHOLD.
  destruct (Z.leb_spec size 2048).
  - destruct (decide (size <= 1024)) as [Hsm|Hbig].
    + pose proof (small_ok k B size K ltac:(lia)) as S. destruct (slab_alloc size (kh k)) as [p h].
      destruct S as [(-> & K' & Hk)|(Hp & Hno & c & -> & Hsz & K' & Hk)].
      * cbn [Z.eqb negb]. split; [done|]. left. split; [done|]. by apply ok_stats.
      * replace (p =? 0) with false by lia. cbn [negb]. by apply finish_ok.
    + unfold slab_alloc. rewrite find_cache_none by lia.
      assert (E : (if negb (slab_initialized (kh k)) then (0, kh k)
                   else if (size =? 0) || (SLAB_MAX_SIZE <? size) then (0, kh k) else (0, kh k)) = (0, kh k))
        by (by destruct (negb (slab_initialized (kh k))), ((size =? 0) || (SLAB_MAX_SIZE <? size))).
      rewrite E. cbn [Z.eqb negb]. split; [by intros ?|]. left. split; [done|]. apply ok_stats. by destruct k.
  - pose proof (large_ok k B size flags K Hs) as S. destruct (page_alloc _ _) as [a p].
    destruct S as [(-> & K' & Hk)|(Ha & Ha0 & Hlim & Hno & K' & Hk)].
    + cbn [Z.eqb negb]. split; [done|]. left. split; [done|]. by apply ok_stats.
    + replace (a =? 0) with false by lia. cbn [negb]. unfold SIZEOF_HEADER. rewrite u32_small by lia.
      apply (finish_ok k B size flags (a + 12) size); [done|lia|done|lia|done].
Qed.

(** ** Release *)

Lemma kfree_small k L F O G y n :
  kinv k L F O G -> live L F y n ->
  exists k' L' F', kfree y k = Some k' /\ kinv k' L' F' O G /\
    (forall z j, live L' F' z j <-> live L F z j /\ z <> y) /\
    (forall z, ~ (y <= z < y + 4) -> kmem k' z = kmem k z).
Proof.
  intros K Hl. destruct (slab_free_spec _ _ _ _ _ _ (ki_slab _ _ _ _ _ K) Hl) as (h' & L' & F' & E & I & _ & Hl' & Hm).
  destruct (live_get_slab _ _ _ _ _ _ _ K Hl) as (x & Ex & Hx & Ez). destruct (block_size _ _ _ _ _ _ _ K (or_introl Hl)) as (Hy & _).
  unfold kfree. replace (y =? 0) with false by lia. rewrite (ki_init _ _ _ _ _ K), Ex. cbn [orb negb].
  replace (x =? 0) with false by lia. cbn [negb]. rewrite E. eexists _, L', F'. split; [done|]. split; [|done].
  assert (Hhd : forall q j a, G !! q = Some j -> q - 12 <= a < q -> mem h' a = kmem k a).
  { intros q j a Hq Ha. apply Hm. intros Hya.
    destruct Hl as (c & t & x' & Hc & Hx' & Ho & _ & ->). pose proof (is_obj_range _ _ _ Hc Ho). pose proof (class_facts c Hc).
    pose proof (large_region _ _ _ _ _ _ _ K Hq). destruct (slab_large_apart _ _ _ _ _ _ _ _ _ _ K Hc Hx' Hq); unfold SIZEOF_SLAB in *; lia. }
  apply kinv_stats. destruct K as [K1 K2 K3 K4 K5 K6]. split; try done; intros q j Hq.
  - rewrite <- (K5 q j Hq). apply load32_frame. intros a Ha. eapply Hhd; [done|lia].
  - rewrite <- (K6 q j Hq). apply load32_frame. intros a Ha. eapply Hhd; [done|lia].
Qed.

(** Removing a region from the list of regions keeps the others. *)
Lemma region_left (O1 O2 : list (Z * Z)) r r' : r' ∈ O1 ++ r :: O2 -> r' <> r -> r' ∈ O1 ++ O2.
Proof. rewrite !elem_of_app, elem_of_cons. naive_solver. Qed.

Lemma kfree_large k L F O G y n :
  kinv k L F O G -> G !! y = Some n ->
  exists k' O', kfree y k = Some k' /\ kinv k' L F O' (delete y G) /\
    (forall z, ~ (y - 12 <= z < y) -> kmem k' z = kmem k z).
Proof.
  intros K Hy. pose proof K as [K1 K2 K3 K4 K5 K6]. pose proof (large_region _ _ _ _ _ _ _ K Hy) as R.
  unfold kfree. replace (y =? 0) with false by lia. rewrite K1, (large_get_slab _ _ _ _ _ _ _ K Hy). cbn [orb negb Z.eqb].
  unfold SIZEOF_HEADER. rewrite u32_small by lia. rewrite (K5 y n Hy). cbn [negb Z.eqb KMALLOC_MAGIC Pos.eqb].
  replace (y - 12 + 4) with (y - 8) by lia. rewrite (K6 y n Hy), align_large by eauto.
  destruct (list_elem_of_split _ _ (K4 y n Hy)) as (O1 & O2 & EO).
  eexists _, (O1 ++ O2). split; [done|].
  assert (Hm : forall z, ~ (y - 12 <= z < y) -> store32 (kmem k) (y - 12) 0 z = kmem k z)
    by (intros z Hz; apply store32_frame; lia).
  split; [|done]. apply kinv_stats. split; [done| | | | |].
  - apply (slab_inv_pages (set_mem _ (kh k)) L F O).
    + apply slab_inv_mem; [done|by apply store32_bytes, K2|]. intros z (c & t & x & Hc & Hx & Hg). apply Hm.
      pose proof (slab_large_apart _ _ _ _ _ _ _ _ _ _ K Hc Hx Hy). destruct Hg as [?|(o & Ho & ?)]; [lia|].
      pose proof (is_obj_range _ _ _ Hc (so_objs _ _ _ _ _ (so_body _ _ _ _ _ _ (si_slab _ _ _ _ K2 c t x Hc Hx)) o Ho)).
      pose proof (class_facts c Hc). unfold SIZEOF_SLAB in *. lia.
    + apply pg_free; [|apply large_pages_facts; eauto]. rewrite <- EO. apply K2.
    + intros c t x Hc Hx. apply (region_left _ _ (y - 12, large_pages n)); [rewrite <- EO; by eapply K2|].
      intros [= -> _]. destruct (slab_large_apart _ _ _ _ _ _ _ _ _ _ K Hc Hx Hy); lia.
  - intros q j [_ Hq]%lookup_delete_Some. eauto.
  - intros q j [Hne Hq]%lookup_delete_Some. apply (region_left _ _ (y - 12, large_pages n)); [rewrite <- EO; eauto|].
    intros [= E _]. lia.
  - intros q j [Hne Hq]%lookup_delete_Some. rewrite <- (K5 q j Hq). apply load32_frame. intros z Hz. apply Hm.
    pose proof (large_apart _ _ _ _ _ _ _ _ _ K Hy Hq Hne). pose proof (large_region _ _ _ _ _ _ _ K Hq).
    pose proof (large_pages_facts j (K3 q j Hq)). lia.
  - intros q j [Hne Hq]%lookup_delete_Some. rewrite <- (K6 q j Hq). apply load32_frame. intros z Hz. apply Hm.
    pose proof (large_apart _ _ _ _ _ _ _ _ _ K Hy Hq Hne). pose proof (large_region _ _ _ _ _ _ _ K Hq).
    pose proof (large_pages_facts j (K3 q j Hq)). lia.
Qed.

Lemma kfree_spec k B y n :
  kmalloc_ok k B -> B !! y = Some n ->
  exists k', kfree y k = Some k' /\ kmalloc_ok k' (delete y B) /\ kept (delete y B) (kmem k) (kmem k').
Proof.
  intros (L & F & O & G & K & HB) Hy. pose proof Hy as Hyb. apply HB in Hyb.
  assert (Hother : forall q j z, delete y B !! q = Some j -> q <= z < q + j -> ~ (y <= z < y + n) /\ is_block L F G q j).
  { intros q j z [Hne Hq]%lookup_delete_Some Hz. apply HB in Hq. split; [|done].
    destruct (blocks_apart _ _ _ _ _ _ _ _ _ K Hyb Hq Hne); lia. }
  destruct (block_size _ _ _ _ _ _ _ K Hyb) as (_ & Hn & _). destruct Hyb as [Hl|Hg].
  - destruct (kfree_small _ _ _ _ _ _ _ K Hl) as (k' & L' & F' & E & K' & Hl' & Hm). exists k'. split; [done|]. split.
    + exists L', F', O, G. split; [done|]. intros z j. rewrite lookup_delete_Some, HB. unfold is_block. rewrite Hl'.
      split; [naive_solver|]. intros [[? ?]|Hz]; [naive_solver|]. split; [|by right]. intros ->.
      by destruct (live_not_large _ _ _ _ _ _ _ _ K Hl Hz).
    + intros q j z Hq Hz. apply Hm. destruct (Hother q j z Hq Hz) as [Ho _].
      destruct Hl as (c & t & x & Hc & _ & _ & _ & ->). pose proof (class_facts c Hc). lia.
  - destruct (kfree_large _ _ _ _ _ _ _ K Hg) as (k' & O' & E & K' & Hm). exists k'. split; [done|]. split.
    + exists L, F, O', (delete y G). split; [done|]. intros z j. unfold is_block. rewrite !lookup_delete_Some, HB. unfold is_block.
      split; [naive_solver|]. intros [Hz|?]; [|naive_solver]. split; [|by left]. intros ->.
      by destruct (live_not_large _ _ _ _ _ _ _ _ K Hz Hg).
    + intros q j z Hq Hz. apply Hm. intros Hyz. destruct (Hother q j z Hq Hz) as [_ Ho].
      destruct (block_unguarded _ _ _ _ _ _ _ z K Ho Hz) as [_ Hun]. by apply (Hun y n).
Qed.

(** ** Resizing *)

(** The first bytes move along, the other blocks stay as they are. *)
Definition realloc_effect k B p n size q k' : Prop :=
  (q = 0 /\ kmalloc_ok k' B /\ kept B (kmem k) (kmem k')) \/
  (q <> 0 /\ exists n', size <= n' /\ kmalloc_ok k' (<[q := n']> (delete p B)) /\
    (forall i, 0 <= i < Z.min n size -> kmem k' (q + i) = kmem k (p + i)) /\ kept (delete p B) (kmem k) (kmem k')).

Lemma krealloc_move_spec k B p n size :
  kmalloc_ok k B -> B !! p = Some n -> 0 < size < large_limit ->
  exists q k', krealloc_move p n size k = Some (q, k') /\ realloc_effect k B p n size q k'.
Proof.
  intros K Hp Hs. unfold krealloc_move, kmalloc. pose proof (kmalloc_flags_spec k B size 0 K Hs) as A.
  destruct (kmalloc_flags size 0 k) as [q k1]. destruct A as [Hk1 [[-> K1]|(Hq & Hno & n' & Hn' & K1 & _)]].
  { exists 0, k1. split; [done|]. by left. }
  replace (q =? 0) with false by lia. set (cs := if n <? size then n else size).
  assert (Ecs : cs = Z.min n size) by (unfold cs; destruct (Z.ltb_spec n size); lia).
  assert (Hpq : p <> q) by (intros ->; congruence).
  assert (Hq1 : (<[q := n']> B) !! q = Some n') by apply lookup_insert_eq.
  assert (Hp1 : (<[q := n']> B) !! p = Some n) by (by rewrite lookup_insert_ne).
  pose proof (ok_block _ _ _ _ K1 Hp1) as Hrp. pose proof (ok_block _ _ _ _ K1 Hq1) as Hrq.
  pose proof (ok_apart _ _ _ _ _ _ K1 Hp1 Hq1 Hpq) as Hap.
  assert (Hcp : copied (kmem k1) q p 0 cs (memcpy q p cs (kmem k1))).
  { apply copy_fwd_spec; [by eapply ok_bytes| |lia]. unfold fwd_safe. lia. }
  unfold copied in Hcp.
  destruct (write_ok k1 _ (memcpy q p cs (kmem k1)) q n' K1 Hq1) as [K2 Hk2].
  - eapply copied_bytes; [by eapply ok_bytes|exact Hcp].
  - intros y Hy. rewrite Hcp, decide_False by lia. done.
  - set (k2 := set_kmem _ k1) in *. destruct (kfree_spec k2 _ p n K2 Hp1) as (k3 & -> & K3 & Hk3).
    exists q, k3. split; [done|]. right. split; [done|]. exists n'. split; [done|].
    rewrite delete_insert_ne in K3, Hk3 by done. split; [done|].
    rewrite delete_insert_id in Hk2 by done. split.
    + intros i Hi. rewrite (Hk3 q n') by (rewrite ?lookup_insert_eq; done || lia).
      change (kmem k2) with (memcpy q p cs (kmem k1)). rewrite Hcp, decide_True by lia.
      replace (p + (q + i - q)) with (p + i) by lia. apply (Hk1 p n); [done|lia].
    + intros r j y Hr Hy. rewrite (Hk3 r j) by (rewrite ?lookup_insert_ne; try done; intros ->;
        apply lookup_delete_Some in Hr as [_ Hr]; congruence).
      apply lookup_delete_Some in Hr as [_ Hr]. change (kmem k2) with (memcpy q p cs (kmem k1)).
      rewrite (Hk2 r j y Hr Hy). by apply (Hk1 r j).
Qed.

(** A large block whose pages stay the same gets a new size. *)
Lemma resize_large k L F O G y n size :
  kinv k L F O G -> G !! y = Some n -> 0 < size < large_limit -> large_pages n = large_pages size ->
  kinv (set_kmem (store32 (kmem k) (y - 8) size) k) L F O (<[y := size]> G).
Proof.
  intros K Hy Hs Hpg. pose proof K as [K1 K2 K3 K4 K5 K6]. pose proof (large_region _ _ _ _ _ _ _ K Hy) as R.
  assert (Hm : forall z, ~ (y - 8 <= z < y - 4) -> store32 (kmem k) (y - 8) size z = kmem k z)
    by (intros z Hz; apply store32_frame; lia).
  assert (Hoth : forall q j z, G !! q = Some j -> q <> y -> q - 12 <= z < q -> store32 (kmem k) (y - 8) size z = kmem k z).
  { intros q j z Hq Hne Hz. apply Hm. pose proof (large_apart _ _ _ _ _ _ _ _ _ K Hy Hq ltac:(done)).
    pose proof (large_region _ _ _ _ _ _ _ K Hq). pose proof (large_pages_facts j (K3 q j Hq)).
    pose proof (large_pages_facts n (K3 y n Hy)). lia. }
  split; [done| | | | |].
  - apply slab_inv_mem; [done|by apply store32_bytes, K2|]. intros z (c & t & x & Hc & Hx & Hg). apply Hm.
    pose proof (slab_large_apart _ _ _ _ _ _ _ _ _ _ K Hc Hx Hy). pose proof (large_pages_facts n (K3 y n Hy)).
    destruct Hg as [?|(o & Ho & ?)]; [lia|].
    pose proof (is_obj_range _ _ _ Hc (so_objs _ _ _ _ _ (so_body _ _ _ _ _ _ (si_slab _ _ _ _ K2 c t x Hc Hx)) o Ho)).
    pose proof (class_facts c Hc). unfold SIZEOF_SLAB in *. lia.
  - intros q j [[<- <-]|[_ Hq]]%lookup_insert_Some; [done|eauto].
  - intros q j [[<- <-]|[_ Hq]]%lookup_insert_Some; [rewrite <- Hpg; eauto|eauto].
  - intros q j [[<- <-]|[Hne Hq]]%lookup_insert_Some.
    + rewrite <- (K5 y n Hy). apply load32_frame. intros z Hz. apply Hm. lia.
    + rewrite <- (K5 q j Hq). apply load32_frame. intros z Hz. apply (Hoth q j); [done|done|lia].
  - intros q j [[<- <-]|[Hne Hq]]%lookup_insert_Some.
    + unfold set_kmem, kmem. cbn. rewrite load32_store32, u32_small by (unfold large_limit in Hs; lia). done.
    + rewrite <- (K6 q j Hq). apply load32_frame. intros z Hz. apply (Hoth q j); [done|done|lia].
Qed.

Lemma krealloc_spec k B p n size :
  kmalloc_ok k B -> B !! p = Some n -> 0 < size < large_limit ->
  exists q k', krealloc p size k = Some (q, k') /\ realloc_effect k B p n size q k'.
Proof.
  intros K Hp Hs. destruct (ok_block _ _ _ _ K Hp) as (Hp0 & Hn & Hlim & Esz & _). unfold krealloc.
  replace (p =? 0) with false by lia. replace (size =? 0) with false by lia. rewrite Esz.
  replace (n =? 0) with false by lia. pose proof K as (L & F & O & G & KI & HB). pose proof Hp as Hb. apply HB in Hb.
  destruct Hb as [Hl|Hg].
  - destruct (live_get_slab _ _ _ _ _ _ _ KI Hl) as (x & -> & Hx & ->). replace (x =? 0) with false by lia. cbn [negb].
    destruct (Z.leb_spec size n); [|by apply krealloc_move_spec].
    exists p, k. split; [done|]. right. split; [lia|]. exists n. split; [done|].
    rewrite insert_delete_id by done. split; [done|]. split; [done|]. by intros ?.
  - rewrite (large_get_slab _ _ _ _ _ _ _ KI Hg). cbn [negb Z.eqb].
    rewrite !align_large by (done || by eapply ki_size). destruct (Z.eqb_spec (4096 * large_pages n) (4096 * large_pages size)) as [E|];
      [|by apply krealloc_move_spec].
    pose proof (large_region _ _ _ _ _ _ _ KI Hg) as R. unfold SIZEOF_HEADER. rewrite u32_small by lia.
    replace (p - 12 + 4) with (p - 8) by lia.
    pose proof (resize_large _ _ _ _ _ _ _ size KI Hg Hs ltac:(lia)) as KI'.
    eexists p, _. split; [done|]. right. split; [lia|]. exists size. split; [lia|].
    assert (Hkeep : forall z, ~ (p - 12 <= z < p) -> store32 (kmem k) (p - 8) size z = kmem k z)
      by (intros z Hz; apply store32_frame; lia).
    split; [|split].
    + exists L, F, O, (<[p := size]> G). split; [done|]. intros y j. rewrite insert_delete_eq. unfold is_block.
      destruct (decide (y = p)) as [->|Hne].
      * rewrite !lookup_insert_eq. split; [auto|]. intros [Hl|?]; [|done]. by destruct (live_not_large _ _ _ _ _ _ _ _ KI Hl Hg).
      * rewrite !lookup_insert_ne by done. apply HB.
    + intros i Hi. apply Hkeep. lia.
    + intros q j y Hq Hy. apply Hkeep. apply lookup_delete_Some in Hq as [_ Hq]. apply HB in Hq.
      destruct (block_unguarded _ _ _ _ _ _ _ y KI Hq Hy) as [_ Hun]. by eapply Hun.
Qed.

(** ** Sequences of calls *)

(** One call, or one byte written by the owner of a block. *)
Inductive kstep : kheap P * gmap Z Z -> kheap P * gmap Z Z -> Prop :=
| ks_alloc k B size flags p k' :
    0 < size < large_limit -> kmalloc_flags size flags k = (p, k') ->
    kstep (k, B) (k', if decide (p = 0) then B else <[p := kmalloc_size p k']> B)
| ks_free k B p k' :
    is_Some (B !! p) -> kfree p k = Some k' -> kstep (k, B) (k', delete p B)
| ks_realloc k B p size q k' :
    is_Some (B !! p) -> 0 < size < large_limit -> krealloc p size k = Some (q, k') ->
    kstep (k, B) (k', if decide (q = 0) then B else <[q := kmalloc_size q k']> (delete p B))
| ks_write k B p n y v :
    B !! p = Some n -> p <= y < p + n -> 0 <= v < 256 -> kstep (k, B) (set_kmem (kmem k).[y <- v] k, B).

Lemma kstep_ok s s' : kstep s s' -> kmalloc_ok s.1 s.2 -> kmalloc_ok s'.1 s'.2.
Proof.
  intros S. destruct S as [k B size flags p k' Hs E|k B p k' [n Hp] E|k B p size q k' [n Hp] Hs E|k B p n y v Hp Hy Hv]; cbn [fst snd]; intros K.
  - pose proof (kmalloc_flags_spec k B size flags K Hs) as A. rewrite E in A.
    destruct A as [_ [[-> K']|(Hp & _ & n & _ & K' & _)]]; [by rewrite decide_True|]. rewrite decide_False by done.
    destruct (ok_block _ _ _ _ K' (lookup_insert_eq B p n)) as (_ & _ & _ & -> & _). done.
  - destruct (kfree_spec k B p n K Hp) as (k2 & E2 & K2 & _). rewrite E in E2. by injection E2 as <-.
  - destruct (krealloc_spec k B p n size K Hp Hs) as (q2 & k2 & E2 & R). rewrite E in E2. injection E2 as <- <-.
    destruct R as [(-> & K' & _)|(Hq & n' & _ & K' & _)]; [by rewrite decide_True|]. rewrite decide_False by done.
    destruct (ok_block _ _ _ _ K' (lookup_insert_eq _ q n')) as (_ & _ & _ & -> & _). done.
  - destruct (write_ok k B (kmem k).[y <- v] p n K Hp) as [K' _]; [| |done].
    + intros z. rewrite upd_cases. destruct (decide (z = y)); [done|]. by eapply ok_bytes.
    + intros z Hz. apply upd_ne. intros ->. lia.
Qed.

(** After initialization there is no block. *)
Lemma kmalloc_init_ok m p s c g st :
  bytes m -> pg_inv p [] ->
  kmalloc_ok (kmalloc_init (mk_kheap (slab_init (mk_heap m s c g false p)) st false)) ∅.
Proof.
  intros Hb Hp. exists (fun _ _ => []), (fun _ => []), [], ∅. split.
  - split; try done. by apply (slab_init_spec (mk_heap m s c g false p)).
  - intros y n. rewrite lookup_empty. split; [done|]. intros [(? & ? & ? & _ & Hx & _)|Hy]; [set_solver|].
    by rewrite lookup_empty in Hy.
Qed.
End Spec.
