(* ===== verification/KernelHeap.v ===== *)
(** The kernel heap: [kmalloc] on the slab allocator on the virtual memory
    manager.

    The virtual memory manager satisfies the interface that the slab allocator
    and [kmalloc] are proved against; the theorems about the whole heap follow. *)

From S2P Require Import Prelude Dll CMem CString Pmm PmmMeta PmmInv PmmSteps PmmAlloc PmmFree PmmProps PmmInit PmmSpec Frames Paging PagingProps PagingSpec Vmm VmmList VmmMap VmmSegs VmmOps VmmSpec Slab SlabInv SlabSpec Kmalloc KmallocSpec.
From Stdlib Require Import ZArith Lia Bool.
From stdpp Require Import base tactics numbers list sets gmap relations.
Open Scope Z_scope.

(** ** The virtual memory manager as a page source *)

#[export] Instance vmm_page_ops : PageOps vmm := {|
  page_alloc := vmm_kernel_alloc; page_free := vmm_kernel_free |}.

Lemma tiled_apart A B T s s' :
  tiled A B T -> s ∈ T -> s' ∈ T -> s <> s' -> s_end s <= s_start s' \/ s_end s' <= s_start s.
Proof.
  revert A. induction T as [|t T IH]; intros A H Hs Hs' Hne; [set_solver|]. destruct H as (<- & Hlt & _ & _ & H).
  apply elem_of_cons in Hs as [->|Hs]; apply elem_of_cons in Hs' as [->|Hs']; [done| | |by eapply IH].
  - destruct (tiled_in _ _ _ _ H Hs'). lia.
  - destruct (tiled_in _ _ _ _ H Hs). lia.
Qed.

(** The region [(a, n)] is a region in use. *)
Definition holds_region (T : list seg) (r : Z * Z) : Prop :=
  exists s, s ∈ T /\ s_free s = false /\ s_start s = r.1 /\ s_end s = r.1 + 4096 * r.2.

Lemma used_segs_elem T s : s ∈ used_segs T <-> s ∈ T /\ s_free s = false.
Proof. unfold used_segs. rewrite list_elem_of_filter. naive_solver. Qed.

Lemma holds_used T T' r : used_segs T' = used_segs T -> holds_region T r -> holds_region T' r.
Proof.
  intros E (s & Hs & Hf & Ha). exists s. assert (Hu : s ∈ used_segs T') by (rewrite E, used_segs_elem; done).
  apply used_segs_elem in Hu as [? _]. done.
Qed.

Section Source.
Context (R : (Z -> list Z) -> Prop) `{!block_stable R}.

Definition vmm_gives (v : vmm) (O : list (Z * Z)) : Prop :=
  NoDup O /\ exists T, vmm_inv R v T /\ forall r, r ∈ O -> holds_region T r.

Lemma align_pages n : 0 < n < 2 ^ 20 -> PAGE_ALIGN_UP (4096 * n) / PAGE_SIZE = n.
Proof.
  intros Hn. unfold PAGE_ALIGN_UP, PAGE_SIZE. change (2 ^ 20) with 1048576 in Hn. rewrite u32_small by lia.
  change 4096 with PAGE_SIZE at 3. rewrite page_mask by lia. dlia.
Qed.

Lemma vmm_gives_alloc v O n :
  vmm_gives v O -> 0 < n < 2 ^ 20 ->
  let '(a, v') := vmm_kernel_alloc (4096 * n) v in
  (a = 0 /\ vmm_gives v' O) \/ (a <> 0 /\ (a, n) ∉ O /\ vmm_gives v' ((a, n) :: O)).
Proof.
  intros (Hnd & T & V & HO) Hn. unfold vmm_kernel_alloc. replace (4096 * n =? 0) with false by lia. rewrite align_pages by done.
  pose proof (vmm_alloc_spec R v T n (Z.lor VMM_KERNEL VMM_WRITE) V Hn) as S. destruct (vmm_alloc _ _ v) as [a v'].
  destruct S as (T' & V' & A). pose proof (vi_tiled _ _ _ V) as HT. destruct A as [v' T' EU _ _|T1 s T2 fs v' -> Hfit _ _].
  { left. split; [done|]. split; [done|]. exists T'. split; [done|]. intros r Hr. eapply holds_used; [exact EU|auto]. }
  assert (Hfree : s_free s = true) by (unfold fits in Hfit; by destruct (s_free s)).
  assert (Hin : s ∈ T1 ++ s :: T2) by set_solver. pose proof (tiled_in _ _ _ _ HT Hin) as Hb.
  right. split; [unfold VMM_USER_START in Hb; lia|].
  assert (Hnew : (s_start s, n) ∉ O).
  { intros Ha. destruct (HO _ Ha) as (s' & Hs' & Hf' & Es & _). cbn in Es.
    destruct (tiled_apart _ _ _ s s' HT Hin Hs'); [congruence|lia|]. pose proof (tiled_in _ _ _ _ HT Hs'). lia. }
  split; [done|]. split; [by constructor|].
  - eexists. split; [exact V'|]. intros r [->|Hr]%elem_of_cons.
    + exists (taken n (Z.lor VMM_KERNEL VMM_WRITE) s). split; [set_solver|]. by repeat split.
    + destruct (HO _ Hr) as (s' & Hs' & Hf' & E). exists s'. split; [|done].
      assert (s' <> s) by (intros ->; congruence). set_solver.
Qed.

Lemma vmm_gives_free v O1 a n O2 :
  vmm_gives v (O1 ++ (a, n) :: O2) -> n < 2 ^ 20 ->
  vmm_gives (vmm_kernel_free a (4096 * n) v) (O1 ++ O2).
Proof.
  intros (Hnd & T & V & HO) Hn. pose proof (vi_tiled _ _ _ V) as HT.
  destruct (HO (a, n) ltac:(set_solver)) as (s & Hs & Hf & Es & Ee). cbn [fst snd] in Es, Ee.
  pose proof (tiled_in _ _ _ _ HT Hs) as Hb. unfold VMM_USER_START, VMM_KERNEL_END in Hb.
  unfold vmm_kernel_free. replace ((a =? 0) || (4096 * n =? 0)) with false by lia. rewrite align_pages by lia.
  destruct (list_elem_of_split _ _ Hs) as (T1 & T2 & ->).
  destruct (vmm_free_accepts R v _ a n V) with (T1 := T1) (s := s) (T2 := T2) as (v' & -> & V' & _);
    [unfold VMM_USER_START; lia|lia|done|by repeat split|].
  pose proof (proj1 (NoDup_app _ _) Hnd) as (Hnd1 & Hd & Hnd2). apply NoDup_cons in Hnd2 as [Hn2 Hnd2]. split.
  { apply NoDup_app. split; [done|]. split; [|done]. intros r Hr1 Hr2. apply (Hd r Hr1). by right. }
  exists (merge_all (T1 ++ freed s :: T2)). split; [exact V'|]. intros r Hr.
  apply (holds_used (T1 ++ freed s :: T2)); [apply merge_all_used|].
  destruct (HO r) as (s' & Hs' & Hf' & E1 & E2); [rewrite elem_of_app, elem_of_cons; rewrite elem_of_app in Hr; tauto|].
  exists s'. split; [|done]. assert (s' <> s).
  { intros ->. assert (r = (a, n)) as ->.
    { destruct r as [b k]. cbn in E1, E2. f_equal; lia. }
    apply elem_of_app in Hr as [Hr|Hr]; [|done]. apply (Hd _ Hr). by left. }
  rewrite elem_of_app, elem_of_cons in Hs' |- *. tauto.
Qed.

Lemma vmm_gives_region v O a n :
  vmm_gives v O -> (a, n) ∈ O -> 0 < n /\ 0 < a /\ a mod 4096 = 0 /\ a + 4096 * n < 2 ^ 32.
Proof.
  intros (_ & T & V & HO) Ha. destruct (HO _ Ha) as (s & Hs & _ & Es & Ee). cbn [fst snd] in *.
  pose proof (tiled_in _ _ _ _ (vi_tiled _ _ _ V) Hs) as Hb. destruct (list_elem_of_split _ _ Hs) as (T1 & T2 & ->).
  destruct (tiled_between _ _ _ _ _ (vi_tiled _ _ _ V)) as [_ [Hm _] _ _]. unfold PAGE_SIZE in Hm. rewrite Es in Hm.
  unfold VMM_USER_START, VMM_KERNEL_END in Hb. lia.
Qed.

Lemma vmm_gives_disjoint v O a n b k :
  vmm_gives v O -> (a, n) ∈ O -> (b, k) ∈ O -> (a, n) <> (b, k) -> a + 4096 * n <= b \/ b + 4096 * k <= a.
Proof.
  intros (_ & T & V & HO) Ha Hb Hne. destruct (HO _ Ha) as (s & Hs & _ & Es & Ee), (HO _ Hb) as (s' & Hs' & _ & Es' & Ee').
  cbn [fst snd] in *. rewrite <- Es, <- Es', <- Ee, <- Ee' in *. apply (tiled_apart _ _ _ _ _ (vi_tiled _ _ _ V) Hs Hs').
  intros ->. apply Hne. f_equal. lia.
Qed.

Definition vmm_source : PageSource vmm := {|
  pg_inv := vmm_gives; pg_region := vmm_gives_region; pg_disjoint := vmm_gives_disjoint;
  pg_alloc := vmm_gives_alloc; pg_free := vmm_gives_free |}.
End Source.

(** ** A concrete heap *)

Definition kdemo : kheap vmm :=
  kmalloc_init (mk_kheap (slab_init (mk_heap (fun _ => 0) (fun _ => mk_slab 0 0 0 0 0 0 0 0 SLAB_LIST_EMPTY)
    (fun _ => init_cache 8) (mk_slab_stats 0 0 0 0 0 0 0 0) false vmm_demo)) (mk_kstats 0 0 0 0 0 0 0 0 0) false).

Lemma kdemo_ok : kmalloc_ok (H := vmm_source coalesced) kdemo ∅.
Proof.
  unfold kdemo. apply kmalloc_init_ok; [by intros ?|]. split; [constructor|]. exists [user_seg; heap_seg].
  split; [exact vmm_demo_inv|]. intros r Hr. set_solver.
Qed.

(** ** The theorems *)

Section Theorems.
Context {P : Type} `{PageSource P}.
Implicit Types (k : kheap P) (B : gmap Z Z).

(** C4: the kernel heap is safe.  Start from an initialized heap and apply any
    sequence of allocations, releases and resizings of allocated blocks, with the
    owners writing into their blocks in between.  Then the allocated blocks lie in
    the address space and do not overlap; each is recognized by
    [kmalloc_is_valid_ptr], [kmalloc_size] gives its size, and [kfree] returns. *)
Theorem kmalloc_reachable_safe k0 k B :
  kmalloc_ok k0 ∅ -> rtc kstep (k0, ∅) (k, B) ->
  forall p n, B !! p = Some n ->
    0 < p /\ 0 < n /\ p + n < 2 ^ 32 /\ kmalloc_size p k = n /\ kmalloc_is_valid_ptr p k = true /\
    is_Some (kfree p k) /\ forall p' n', B !! p' = Some n' -> p' <> p -> p + n <= p' \/ p' + n' <= p.
Proof.
  intros K0 S. assert (K : kmalloc_ok k B).
  { change (kmalloc_ok (k, B).1 (k, B).2). eapply (rtc_ind_r (fun s => kmalloc_ok s.1 s.2) (k0, ∅)); [done| |exact S].
    intros s s' _ Hs K. by eapply kstep_ok. }
  intros p n Hp. destruct (ok_block _ _ _ _ K Hp) as (H1 & H2 & H3 & H4 & H5).
  destruct (kfree_spec _ _ _ _ K Hp) as (k' & -> & _). do 5 (split; [done|]). split; [done|].
  intros p' n' Hp' Hne. by eapply ok_apart.
Qed.

(** C12: an allocation gives a new block.  [kmalloc_flags] returns [NULL] and keeps
    the blocks, or the address of a block of at least the requested size that
    overlaps no other, zeroed when asked for; in both cases the contents of all
    other blocks are unchanged. *)
Theorem kmalloc_flags_correct k B size flags :
  kmalloc_ok k B -> 0 < size < large_limit ->
  let '(p, k') := kmalloc_flags size flags k in
  kept B (kmem k) (kmem k') /\
  ((p = 0 /\ kmalloc_ok k' B) \/
   (p <> 0 /\ B !! p = None /\ exists n, size <= n /\ kmalloc_ok k' (<[p := n]> B) /\
      (Z.land flags KMALLOC_ZERO <> 0 -> forall y, p <= y < p + n -> kmem k' y = 0))).
Proof. apply kmalloc_flags_spec. Qed.

(** A release frees exactly the block.  [kfree] of an allocated block returns,
    the block is gone, and the contents of the others are unchanged. *)
Theorem kfree_correct k B p n :
  kmalloc_ok k B -> B !! p = Some n ->
  exists k', kfree p k = Some k' /\ kmalloc_ok k' (delete p B) /\ kept (delete p B) (kmem k) (kmem k').
Proof. apply kfree_spec. Qed.

(** C13: resizing keeps the contents.  [krealloc] of an allocated block returns
    [NULL] and keeps everything, or a block of at least the new size that replaces
    the old one and starts with its contents; the other blocks are unchanged. *)
Theorem krealloc_correct k B p n size :
  kmalloc_ok k B -> B !! p = Some n -> 0 < size < large_limit ->
  exists q k', krealloc p size k = Some (q, k') /\
    ((q = 0 /\ kmalloc_ok k' B /\ kept B (kmem k) (kmem k')) \/
     (q <> 0 /\ exists n', size <= n' /\ kmalloc_ok k' (<[q := n']> (delete p B)) /\
       (forall i, 0 <= i < Z.min n size -> kmem k' (q + i) = kmem k (p + i)) /\ kept (delete p B) (kmem k) (kmem k'))).
Proof. apply krealloc_spec. Qed.

(** Releasing an object twice is detected, and slabs are never given back.
    The release of a free object returns [false] and changes nothing; the release
    of an allocated one returns [true] and leaves the page source as it was, even
    when the slab has become empty. *)
Theorem slab_free_correct (h : heap P) L F O :
  slab_inv h L F O ->
  (forall c t x y, cache_no c -> x ∈ L c t -> y ∈ F x -> slab_free y h = Some (false, h)) /\
  (forall y n, live L F y n -> exists h' L' F', slab_free y h = Some (true, h') /\ slab_inv h' L' F' O /\
     pages h' = pages h /\ forall z j, live L' F' z j <-> live L F z j /\ z <> y).
Proof.
  intros I. split; [intros; by eapply slab_free_double|]. intros y n Hl.
  destruct (slab_free_spec h L F O y n I Hl) as (h' & L' & F' & E & I' & Ep & Hl' & _). by exists h', L', F'.
Qed.

(** Requests of 1025 to 2048 bytes always fail.  They are below the threshold
    for whole pages, and no size class of the slab allocator holds them. *)
Theorem kmalloc_gap k size flags :
  1024 < size <= 2048 -> (kmalloc_flags size flags k).1 = 0.
Proof.
  intros Hs. unfold kmalloc_flags. destruct (negb (kmalloc_initialized k)); [done|]. destruct (size =? 0); [done|].
  replace (size <=? KMALLOC_SLAB_THRESHOLD) with true by (unfold KMALLOC_SLAB_THRESHOLD; lia).
  unfold slab_alloc. rewrite find_cache_none by lia.
  by destruct (negb (slab_initialized (kh k))), ((size =? 0) || (SLAB_MAX_SIZE <? size)).
Qed.

(** The size of a huge request wraps around.  For the last eleven sizes below
    4 GiB the size with the header wraps to a few bytes: one page is allocated, and
    a pointer into it is returned as a block of the full size. *)
Theorem kmalloc_wraps k size a p :
  2 ^ 32 - 12 < size < 2 ^ 32 -> kmalloc_initialized k = true ->
  page_alloc 4096 (pages (kh k)) = (a, p) -> 0 < a -> a + 4096 <= 2 ^ 32 ->
  exists k', kmalloc size k = (a + 12, k') /\ pages (kh k') = p /\ load32 (kmem k') (a + 4) = size.
Proof.
  intros Hs Hi Ha Ha0 Hal. change (2 ^ 32) with 4294967296 in *. unfold kmalloc, kmalloc_flags. rewrite Hi.
  replace (size =? 0) with false by lia. replace (size <=? KMALLOC_SLAB_THRESHOLD) with false by (unfold KMALLOC_SLAB_THRESHOLD; lia).
  assert (E : align_large_size size = 4096).
  { unfold align_large_size, SIZEOF_HEADER. assert (Et : u32 (size + 12) = size + 12 - 4294967296).
    { unfold u32. change (2 ^ 32) with 4294967296. dlia. }
    rewrite Et. unfold PAGE_ALIGN_UP, PAGE_SIZE. rewrite u32_small by lia. change 4096 with PAGE_SIZE at 2.
    rewrite page_mask by lia. dlia. }
  rewrite E, Ha. replace (a =? 0) with false by lia. cbn [negb]. eexists. unfold SIZEOF_HEADER. rewrite u32_small by lia.
  split; [reflexivity|]. split; [done|]. unfold kmem. cbn. rewrite (load32_frame (store32 (store32 (mem (kh k)) a KMALLOC_MAGIC) (a + 4) size)).
  - rewrite load32_store32. by rewrite u32_small by lia.
  - intros y Hy. apply store32_frame. lia.
Qed.
End Theorems.

(** Concrete calls on the demonstration heap. *)
Definition kdemo1 : kheap vmm := (kmalloc_flags 100 1 kdemo).2.
Definition kdemo_ptr : Z := VMM_KERNEL_HEAP + 36 + 30 * 128.

Lemma kdemo1_ptr : (kmalloc_flags 100 1 kdemo).1 = kdemo_ptr.
Proof. by_vm. Qed.

Lemma kdemo1_size : kmalloc_size kdemo_ptr (kmalloc_flags 100 1 kdemo).2 = 128.
Proof. by_vm. Qed.

Lemma kdemo1_eq : kdemo1 = (kmalloc_flags 100 1 kdemo).2.
Proof. unfold kdemo1. reflexivity. Qed.

Lemma demo_size : 0 < 100 < large_limit.
Proof. by_vm. Qed.

(** The demonstration heap with one block. *)
Lemma kdemo1_ok : kmalloc_ok (H := vmm_source coalesced) kdemo1 {[kdemo_ptr := 128]}.
Proof.
  rewrite kdemo1_eq. pose proof (kmalloc_flags_spec (H := vmm_source coalesced) kdemo ∅ 100 1 kdemo_ok demo_size) as A.
  pose proof kdemo1_ptr as Ep. pose proof kdemo1_size as Es. destruct (kmalloc_flags 100 1 kdemo) as [p k']. cbn [fst snd] in *.
  subst p. destruct A as [_ [[E _]|(_ & _ & n & _ & K & _)]]; [discriminate E|].
  destruct (ok_block _ _ _ _ K (lookup_insert_eq _ _ _)) as (_ & _ & _ & En & _). rewrite Es in En. subst n.
  exact K.
Qed.

Lemma kmalloc_flags_correct_witness :
  exists n, 100 <= n /\ kmalloc_ok (H := vmm_source coalesced) kdemo1 {[kdemo_ptr := n]} /\
    forall y, kdemo_ptr <= y < kdemo_ptr + n -> kmem kdemo1 y = 0.
Proof.
  rewrite kdemo1_eq. pose proof (kmalloc_flags_correct (H := vmm_source coalesced) kdemo ∅ 100 1 kdemo_ok demo_size) as A.
  pose proof kdemo1_ptr as Ep. destruct (kmalloc_flags 100 1 kdemo) as [p k']. cbn [fst snd] in *. subst p.
  destruct A as [_ [[E _]|(_ & _ & n & Hn & K & Hz)]]; [discriminate E|]. exists n. split; [exact Hn|]. split; [exact K|].
  apply Hz. discriminate.
Defined.

Lemma kdemo1_block : ({[kdemo_ptr := 128]} : gmap Z Z) !! kdemo_ptr = Some 128.
Proof. apply lookup_insert_eq. Qed.

Lemma kfree_correct_witness :
  exists k', kfree kdemo_ptr kdemo1 = Some k' /\ kmalloc_ok (H := vmm_source coalesced) k' ∅.
Proof.
  destruct (kfree_correct (H := vmm_source coalesced) kdemo1 {[kdemo_ptr := 128]} kdemo_ptr 128 kdemo1_ok kdemo1_block)
    as (k' & E & K & _). exists k'. split; [exact E|]. rewrite delete_singleton_eq in K. exact K.
Defined.

Lemma krealloc_correct_witness :
  exists q k', krealloc kdemo_ptr 120 kdemo1 = Some (q, k') /\
    (q = 0 \/ forall i, 0 <= i < 120 -> kmem k' (q + i) = kmem kdemo1 (kdemo_ptr + i)).
Proof.
  assert (Hs : 0 < 120 < large_limit) by by_vm.
  destruct (krealloc_correct (H := vmm_source coalesced) kdemo1 {[kdemo_ptr := 128]} kdemo_ptr 128 120 kdemo1_ok kdemo1_block Hs)
    as (q & k' & E & [[Hq _]|(_ & n' & _ & _ & Hc & _)]); exists q, k'; (split; [exact E|]); [by left|right; exact Hc].
Defined.

Lemma kmalloc_reachable_safe_witness :
  0 < kdemo_ptr /\ kmalloc_size kdemo_ptr kdemo1 = 128 /\ is_Some (kfree kdemo_ptr kdemo1).
Proof.
  assert (S : rtc (kstep (P := vmm)) (kdemo, ∅) (kdemo1, {[kdemo_ptr := 128]})).
  { apply rtc_once. pose proof (ks_alloc (P := vmm) kdemo ∅ 100 1 (kmalloc_flags 100 1 kdemo).1
      (kmalloc_flags 100 1 kdemo).2 demo_size (surjective_pairing _)) as S.
    rewrite kdemo1_ptr, kdemo1_size in S. rewrite decide_False in S by discriminate. exact S. }
  destruct (kmalloc_reachable_safe (H := vmm_source coalesced) kdemo kdemo1 {[kdemo_ptr := 128]} kdemo_ok S
    kdemo_ptr 128 kdemo1_block) as (H1 & _ & _ & H4 & _ & H6 & _). split; [exact H1|]. split; [exact H4|exact H6].
Defined.

Lemma slab_free_correct_witness :
  exists h', slab_free kdemo_ptr (kh kdemo1) = Some (true, h') /\ pages h' = pages (kh kdemo1).
Proof.
  destruct kdemo1_ok as (L & F & O & G & K & HB).
  destruct (slab_free_correct (H := vmm_source coalesced) (kh kdemo1) L F O (ki_slab _ _ _ _ _ K)) as [_ Hf].
  pose proof (proj1 (HB kdemo_ptr 128) kdemo1_block) as [Hl|Hg].
  - destruct (Hf kdemo_ptr 128 Hl) as (h' & L' & F' & E & _ & Ep & _). exists h'. split; [exact E|exact Ep].
  - exfalso. pose proof (ki_owned _ _ _ _ _ K kdemo_ptr 128 Hg) as Ho.
    destruct (vmm_gives_region coalesced _ _ _ _ (si_pages _ _ _ _ (ki_slab _ _ _ _ _ K)) Ho) as (_ & _ & Hm & _).
    vm_compute in Hm. discriminate Hm.
Defined.

Lemma kmalloc_gap_witness : (kmalloc_flags 2000 0 kdemo).1 = 0.
Proof. exact (kmalloc_gap kdemo 2000 0 ltac:(lia)). Defined.

Lemma kdemo_pages_eq : pages (kh kdemo) = vmm_demo.
Proof. unfold kdemo. reflexivity. Qed.

Lemma kmalloc_wraps_witness :
  exists k', kmalloc 4294967290 kdemo = (VMM_KERNEL_HEAP + 12, k') /\ load32 (kmem k') (VMM_KERNEL_HEAP + 4) = 4294967290.
Proof.
  assert (E : (page_alloc 4096 (pages (kh kdemo))).1 = VMM_KERNEL_HEAP) by by_vm.
  assert (Hi : kmalloc_initialized kdemo = true) by by_vm.
  destruct (page_alloc 4096 (pages (kh kdemo))) as [a p] eqn:Ea. cbn [fst] in E. subst a.
  destruct (kmalloc_wraps kdemo 4294967290 VMM_KERNEL_HEAP p ltac:(lia) Hi Ea) as (k' & Ek & _ & El); [by_vm|by_vm|].
  exists k'. split; [exact Ek|exact El].
Defined.

(** A pointer into the middle of an object is accepted.  [kfree] looks only
    whether the address lies in the slab's object area: freeing four bytes behind
    the start of an allocated object of eight bytes succeeds, and the next
    allocation of eight bytes overlaps that object, which is still in use. *)
Theorem kfree_interior_overlaps :
  let '(p, k1) := kmalloc 8 kdemo in
  exists k2, kfree (p + 4) k1 = Some k2 /\ ks_small_frees (kstats k2) = 1 /\ (kmalloc 8 k2).1 = p + 4.
Proof.
  assert (H1 : let '(p, k1) := kmalloc 8 kdemo in
    option_map (fun k2 => (ks_small_frees (kstats k2), (kmalloc 8 k2).1)) (kfree (p + 4) k1) = Some (1, p + 4)) by by_vm.
  destruct (kmalloc 8 kdemo) as [p k1]. destruct (kfree (p + 4) k1) as [k2|]; [|discriminate H1].
  exists k2. split; [reflexivity|]. cbn [option_map] in H1. injection H1 as Ha Hb. split; [exact Ha|exact Hb].
Qed.
