(* ===== verification/RingBuf.v ===== *)
(** Ring buffers: a model of [src/libds/src/ringbuf.c].

    The structure is a record; the items are kept in the memory of bytes at
    [storage].  A null pointer is [None].  [Panic] is the division by zero of a
    buffer of capacity 0.  The theorem shows that a buffer behaves like a bounded
    queue, which refuses or drops the oldest item when it is full. *)

From S2P Require Import Prelude CMem.
From Stdlib Require Import ZArith Lia Bool.
From stdpp Require Import base tactics numbers list.
Open Scope Z_scope.

Inductive ds_result :=
| DS_SUCCESS | DS_ERR_INVALID | DS_ERR_FULL | DS_ERR_EMPTY | DS_ERR_DUPLICATE | DS_ERR_NOT_FOUND.

Record ds_ringbuf := mk_ringbuf {
  capacity : Z; item_size : Z; current_count : Z; fail_on_full : bool;
  read_ptr : Z; write_ptr : Z; storage : Z }.

Definition elem_ptr (rb : ds_ringbuf) (index : Z) : Z :=
  u32 (storage rb + u32 (item_size rb * index)).

(** [addr] is what the allocator returned for the storage. *)
Definition ds_ringbuf_create (capacity item_size : Z) (fail_on_full : bool) (addr : Z) : ds_ringbuf :=
  mk_ringbuf capacity item_size 0 fail_on_full 0 0 addr.

(** [(p + 1) % capacity]. *)
Definition advance (rb : ds_ringbuf) (p : Z) : Z := u32 (p + 1) mod capacity rb.

Definition set_read r n rb :=
  mk_ringbuf (capacity rb) (item_size rb) n (fail_on_full rb) r (write_ptr rb) (storage rb).
Definition set_write w n rb :=
  mk_ringbuf (capacity rb) (item_size rb) n (fail_on_full rb) (read_ptr rb) w (storage rb).

Definition ds_ringbuf_push (ringbuf : option ds_ringbuf) (value : Z) (m : memory) :
    outcome (ds_result * option ds_ringbuf * memory) :=
  match ringbuf with
  | None => Done (DS_ERR_INVALID, None, m)
  | Some rb =>
      let full := current_count rb =? capacity rb in
      if full && fail_on_full rb then Done (DS_ERR_FULL, Some rb, m) else
      if capacity rb =? 0 then Panic else
      let rb := if full then set_read (advance rb (read_ptr rb)) (u32 (current_count rb - 1)) rb else rb in
      let m := memcpy (elem_ptr rb (write_ptr rb)) value (item_size rb) m in
      Done (DS_SUCCESS, Some (set_write (advance rb (write_ptr rb)) (u32 (current_count rb + 1)) rb), m)
  end.

Definition ds_ringbuf_pop (ringbuf : option ds_ringbuf) (addr : Z) (m : memory) :
    outcome (ds_result * option ds_ringbuf * memory) :=
  match ringbuf with
  | None => Done (DS_ERR_INVALID, None, m)
  | Some rb =>
      if current_count rb =? 0 then Done (DS_ERR_EMPTY, Some rb, m) else
      let m := memcpy addr (elem_ptr rb (read_ptr rb)) (item_size rb) m in
      if capacity rb =? 0 then Panic else
      Done (DS_SUCCESS, Some (set_read (advance rb (read_ptr rb)) (u32 (current_count rb - 1)) rb), m)
  end.

Definition ds_ringbuf_peek (ringbuf : option ds_ringbuf) (addr : Z) (m : memory) : ds_result * memory :=
  match ringbuf with
  | None => (DS_ERR_INVALID, m)
  | Some rb =>
      if current_count rb =? 0 then (DS_ERR_EMPTY, m) else
      (DS_SUCCESS, memcpy addr (elem_ptr rb (read_ptr rb)) (item_size rb) m)
  end.

Definition ds_ringbuf_poke (ringbuf : option ds_ringbuf) (addr : Z) (m : memory) : ds_result * memory :=
  match ringbuf with
  | None => (DS_ERR_INVALID, m)
  | Some rb =>
      if current_count rb =? 0 then (DS_ERR_EMPTY, m) else
      (DS_SUCCESS, memcpy (elem_ptr rb (read_ptr rb)) addr (item_size rb) m)
  end.

Definition ds_ringbuf_clear (ringbuf : option ds_ringbuf) : ds_result * option ds_ringbuf :=
  match ringbuf with
  | None => (DS_ERR_INVALID, None)
  | Some rb => (DS_SUCCESS, Some (mk_ringbuf (capacity rb) (item_size rb) 0 (fail_on_full rb) 0 0 (storage rb)))
  end.

Definition ds_ringbuf_size (ringbuf : option ds_ringbuf) : Z :=
  match ringbuf with None => 0 | Some rb => current_count rb end.

Definition ds_ringbuf_capacity (ringbuf : option ds_ringbuf) : Z :=
  match ringbuf with None => 0 | Some rb => capacity rb end.

Definition ds_ringbuf_free_space (rb : option ds_ringbuf) : Z :=
  u32 (ds_ringbuf_capacity rb - ds_ringbuf_size rb).
Definition ds_ringbuf_is_empty (rb : option ds_ringbuf) : bool := ds_ringbuf_size rb =? 0.
Definition ds_ringbuf_is_full (rb : option ds_ringbuf) : bool := ds_ringbuf_size rb =? ds_ringbuf_capacity rb.

(** ** Bounded queues *)

(** An item is a list of bytes. *)
Inductive queue_op := QPush (v : list Z) | QPop | QPeek | QPoke (v : list Z) | QClear | QSize.

(** What a call returns: the status and, for [QPop] and [QPeek], the item; for
    [QSize] the number of items. *)
Inductive queue_answer := QDone (r : ds_result) | QItem (v : list Z) | QNum (n : Z).

(** The queue [q] of at most [cap] items; [strict] queues refuse when full. *)
Definition queue_exec (cap : Z) (strict : bool) (o : queue_op) (q : list (list Z)) : queue_answer * list (list Z) :=
  match o with
  | QPush v =>
      if Z.of_nat (length q) =? cap
      then if strict then (QDone DS_ERR_FULL, q) else (QDone DS_SUCCESS, tail q ++ [v])
      else (QDone DS_SUCCESS, q ++ [v])
  | QPop => match q with [] => (QDone DS_ERR_EMPTY, q) | v :: q' => (QItem v, q') end
  | QPeek => match q with [] => (QDone DS_ERR_EMPTY, q) | v :: _ => (QItem v, q) end
  | QPoke v => match q with [] => (QDone DS_ERR_EMPTY, q) | _ :: q' => (QDone DS_SUCCESS, v :: q') end
  | QClear => (QDone DS_SUCCESS, [])
  | QSize => (QNum (Z.of_nat (length q)), q)
  end.

(** ** Blocks of bytes *)

Definition block (m : memory) (a n : Z) : list Z := map (fun i => m (a + Z.of_nat i)) (seq 0 (Z.to_nat n)).

Fixpoint put_block (m : memory) (a : Z) (v : list Z) : memory :=
  match v with [] => m | c :: v => put_block m.[a <- c] (a + 1) v end.

(** The calls of a client that passes items through a buffer at [buf]. *)
Definition ringbuf_exec (buf : Z) (o : queue_op) (s : ds_ringbuf * memory) : outcome (queue_answer * (ds_ringbuf * memory)) :=
  let '(rb, m) := s in
  let back (r : ds_result) (ob : option ds_ringbuf) (m : memory) (item : bool) :=
    match r, ob with
    | DS_SUCCESS, Some rb => Done (if item then QItem (block m buf (item_size rb)) else QDone DS_SUCCESS, (rb, m))
    | r, _ => Done (QDone r, (rb, m))
    end in
  match o with
  | QPush v => match ds_ringbuf_push (Some rb) buf (put_block m buf v) with
               | Done (r, ob, m) => back r ob m false | Panic => Panic end
  | QPop => match ds_ringbuf_pop (Some rb) buf m with
            | Done (r, ob, m) => back r ob m true | Panic => Panic end
  | QPeek => let '(r, m) := ds_ringbuf_peek (Some rb) buf m in back r (Some rb) m true
  | QPoke v => let '(r, m) := ds_ringbuf_poke (Some rb) buf (put_block m buf v) in back r (Some rb) m false
  | QClear => let '(r, ob) := ds_ringbuf_clear (Some rb) in back r ob m false
  | QSize => Done (QNum (ds_ringbuf_size (Some rb)), (rb, m))
  end.

(** A sequence of calls and their answers. *)
Fixpoint ringbuf_run (buf : Z) (os : list queue_op) (s : ds_ringbuf * memory) : outcome (list queue_answer) :=
  match os with
  | [] => Done []
  | o :: os => match ringbuf_exec buf o s with
               | Panic => Panic
               | Done (a, s) => match ringbuf_run buf os s with Panic => Panic | Done l => Done (a :: l) end
               end
  end.

Fixpoint queue_run (cap : Z) (strict : bool) (os : list queue_op) (q : list (list Z)) : list queue_answer :=
  match os with
  | [] => []
  | o :: os => let '(a, q) := queue_exec cap strict o q in a :: queue_run cap strict os q
  end.

(** ** Lemmas on blocks *)

Lemma block_length m a n : 0 <= n -> Z.of_nat (length (block m a n)) = n.
Proof. intros. unfold block. rewrite length_map, length_seq. lia. Qed.

Lemma block_ext m m' a a' n :
  (forall i, 0 <= i < n -> m' (a' + i) = m (a + i)) -> block m' a' n = block m a n.
Proof.
  intros Hf. unfold block. apply map_ext_in. intros i Hi%in_seq. apply Hf. lia.
Qed.

Lemma put_block_frame v : forall m a x, ~ (a <= x < a + Z.of_nat (length v)) -> put_block m a v x = m x.
Proof.
  induction v as [|c v IH]; intros m a x Hx; cbn [put_block length] in *; [done|].
  rewrite IH by lia. apply upd_ne. lia.
Qed.

Lemma put_block_at v : forall m a i c, v !! i = Some c -> put_block m a v (a + Z.of_nat i) = c.
Proof.
  induction v as [|d v IH]; intros m a [|i] c Hi; cbn in Hi; simplify_eq; cbn [put_block].
  - rewrite put_block_frame by lia. rewrite Z.add_0_r. apply upd_eq.
  - replace (a + Z.of_nat (S i)) with (a + 1 + Z.of_nat i) by lia. by apply IH.
Qed.

Lemma put_block_block m a v n : Z.of_nat (length v) = n -> block (put_block m a v) a n = v.
Proof.
  intros Hn. apply list_eq. intros i. unfold block. rewrite list_lookup_fmap.
  destruct (v !! i) as [c|] eqn:E.
  - pose proof (lookup_lt_Some _ _ _ E). rewrite lookup_seq_lt by lia. cbn. f_equal. by apply put_block_at.
  - apply lookup_ge_None in E. rewrite lookup_seq_ge by lia. done.
Qed.

Lemma put_block_bytes v : forall m a, bytes m -> Forall (fun c => 0 <= c < 256) v -> bytes (put_block m a v).
Proof.
  induction v as [|c v IH]; intros m a Hb Hv; [done|]. apply Forall_cons in Hv as [Hc Hv]. apply IH; [|done].
  intros x. rewrite upd_cases. destruct (decide (x = a)); auto.
Qed.

(** [memcpy] of [n] bytes between blocks that do not overlap. *)
Lemma memcpy_block m d s n :
  bytes m -> 0 <= n -> d + n <= s \/ s + n <= d ->
  bytes (memcpy d s n m) /\ block (memcpy d s n m) d n = block m s n /\
  forall x, ~ (d <= x < d + n) -> memcpy d s n m x = m x.
Proof.
  intros Hb Hn Hap. assert (C : copied m d s 0 n (memcpy d s n m)) by (apply copy_fwd_spec; [done|unfold fwd_safe; lia|done]).
  split; [by eapply copied_bytes|]. split.
  - apply block_ext. intros i Hi. rewrite C, decide_True by lia. f_equal. lia.
  - intros x Hx. rewrite C, decide_False by lia. done.
Qed.

(** ** The invariant *)

(** The address of the [i]-th item of the queue. *)
Definition slot (rb : ds_ringbuf) (i : Z) : Z := storage rb + item_size rb * ((read_ptr rb + i) mod capacity rb).

Record ringbuf_ok (rb : ds_ringbuf) : Prop := {
  ro_item : 0 <= item_size rb;
  ro_capacity : 0 < capacity rb < 2 ^ 32;
  ro_storage : 0 <= storage rb /\ storage rb + item_size rb * capacity rb < 2 ^ 32;
  ro_count : 0 <= current_count rb <= capacity rb;
  ro_read : 0 <= read_ptr rb < capacity rb;
  ro_write : write_ptr rb = (read_ptr rb + current_count rb) mod capacity rb }.

(** The items of the queue, the oldest first. *)
Definition items (rb : ds_ringbuf) (m : memory) : list (list Z) :=
  map (fun i => block m (slot rb (Z.of_nat i)) (item_size rb)) (seq 0 (Z.to_nat (current_count rb))).

Section Slots.
Context (rb : ds_ringbuf) (H : ringbuf_ok rb).

Lemma slot_range i : storage rb <= slot rb i /\ slot rb i + item_size rb <= storage rb + item_size rb * capacity rb.
Proof using H.
  destruct H. unfold slot. pose proof (Z.mod_pos_bound (read_ptr rb + i) (capacity rb) ltac:(lia)). nia.
Qed.

Lemma slot_apart i j :
  0 <= i < capacity rb -> 0 <= j < capacity rb -> i <> j ->
  slot rb i + item_size rb <= slot rb j \/ slot rb j + item_size rb <= slot rb i.
Proof using H.
  intros Hi Hj Hne. destruct H. unfold slot.
  assert ((read_ptr rb + i) mod capacity rb <> (read_ptr rb + j) mod capacity rb).
  { intros E. apply Hne. assert (Hd : (i - j) mod capacity rb = 0).
    { replace (i - j) with (read_ptr rb + i - (read_ptr rb + j)) by lia. rewrite Zminus_mod, E, Z.sub_diag. apply Z.mod_0_l. lia. }
    apply Z.mod_divide in Hd as [q Hq]; [|lia]. assert (q = 0) by nia. lia. }
  nia.
Qed.

Lemma elem_ptr_slot i p : p = (read_ptr rb + i) mod capacity rb -> elem_ptr rb p = slot rb i.
Proof using H.
  intros ->. pose proof (slot_range i) as R. destruct H. unfold elem_ptr, slot in *.
  pose proof (Z.mod_pos_bound (read_ptr rb + i) (capacity rb) ltac:(lia)).
  change (2 ^ 32) with 4294967296 in *. rewrite (u32_small (item_size rb * _)) by nia. apply u32_small. nia.
Qed.

Lemma elem_ptr_read : elem_ptr rb (read_ptr rb) = slot rb 0.
Proof using H. apply elem_ptr_slot. destruct H. rewrite Z.add_0_r, Z.mod_small by lia. done. Qed.

Lemma elem_ptr_write : elem_ptr rb (write_ptr rb) = slot rb (current_count rb).
Proof using H. apply elem_ptr_slot. by destruct H. Qed.

Lemma advance_spec p : 0 <= p < capacity rb -> advance rb p = (p + 1) mod capacity rb.
Proof using H.
  intros Hp. destruct H. unfold advance. change (2 ^ 32) with 4294967296 in *.
  destruct (decide (p + 1 < 4294967296)) as [|Hp1]; [by rewrite u32_small by lia|].
  exfalso. lia.
Qed.
End Slots.

(** ** The operations on the queue *)

(** What does not change over the life of a buffer. *)
Definition same_shape (rb rb' : ds_ringbuf) : Prop :=
  capacity rb' = capacity rb /\ item_size rb' = item_size rb /\ storage rb' = storage rb /\ fail_on_full rb' = fail_on_full rb.

(** The buffer lies outside the storage. *)
Definition outside (rb : ds_ringbuf) (a : Z) : Prop :=
  a + item_size rb <= storage rb \/ storage rb + item_size rb * capacity rb <= a.

Lemma items_length rb m : ringbuf_ok rb -> Z.of_nat (length (items rb m)) = current_count rb.
Proof. intros []. unfold items. rewrite length_map, length_seq. lia. Qed.

Lemma items_frame rb m m' :
  ringbuf_ok rb -> (forall x, storage rb <= x < storage rb + item_size rb * capacity rb -> m' x = m x) ->
  items rb m' = items rb m.
Proof.
  intros H Hf. unfold items. apply map_ext_in. intros i Hi%in_seq. apply block_ext. intros j Hj. apply Hf.
  pose proof (slot_range rb H (Z.of_nat i)). lia.
Qed.

Lemma items_head rb m : ringbuf_ok rb -> 0 < current_count rb ->
  items rb m = block m (slot rb 0) (item_size rb) :: tail (items rb m).
Proof.
  intros H Hc. unfold items. destruct (Z.to_nat (current_count rb)) as [|n] eqn:E; [lia|]. done.
Qed.

(** Dropping the oldest item. *)
Lemma drop_item rb m :
  ringbuf_ok rb -> 0 < current_count rb ->
  let rb' := set_read (advance rb (read_ptr rb)) (u32 (current_count rb - 1)) rb in
  ringbuf_ok rb' /\ current_count rb' = current_count rb - 1 /\ items rb' m = tail (items rb m) /\
  forall i, slot rb' i = slot rb (i + 1).
Proof.
  intros H Hc. cbv zeta. rewrite advance_spec by (done || apply H). pose proof H as [].
  change (2 ^ 32) with 4294967296 in *. rewrite u32_small by lia.
  pose proof (Z.mod_pos_bound (read_ptr rb + 1) (capacity rb) ltac:(lia)) as Hm.
  assert (Hslot : forall i, slot (set_read ((read_ptr rb + 1) mod capacity rb) (current_count rb - 1) rb) i = slot rb (i + 1)).
  { intros i. unfold slot. cbn. rewrite Zplus_mod_idemp_l. do 3 f_equal. lia. }
  split; [|split; [done|split; [|done]]].
  - split; cbn; try done; [lia|]. rewrite Zplus_mod_idemp_l, ro_write0. f_equal. lia.
  - unfold items. cbn [current_count set_read item_size]. replace (Z.to_nat (current_count rb)) with (S (Z.to_nat (current_count rb - 1))) by lia.
    cbn [seq map tail]. rewrite <- seq_shift, map_map. apply map_ext. intros i. rewrite Hslot. do 2 f_equal. lia.
Qed.

(** Adding an item. *)
Lemma add_item rb m value :
  ringbuf_ok rb -> current_count rb < capacity rb -> bytes m -> outside rb value ->
  let m' := memcpy (elem_ptr rb (write_ptr rb)) value (item_size rb) m in
  let rb' := set_write (advance rb (write_ptr rb)) (u32 (current_count rb + 1)) rb in
  ringbuf_ok rb' /\ bytes m' /\ items rb' m' = items rb m ++ [block m value (item_size rb)].
Proof.
  intros H Hc Hb Ho. cbv zeta. rewrite elem_ptr_write by done.
  pose proof H as []. change (2 ^ 32) with 4294967296 in *.
  pose proof (Z.mod_pos_bound (read_ptr rb + current_count rb) (capacity rb) ltac:(lia)) as Hm.
  rewrite advance_spec, u32_small by (done || lia).
  pose proof (slot_range rb H (current_count rb)) as Hs.
  destruct (memcpy_block m (slot rb (current_count rb)) value (item_size rb)) as (Hb' & Hblk & Hfr);
    [done|done|unfold outside in Ho; lia|]. split; [|split; [done|]].
  - split; cbn; try done; [lia|]. rewrite ro_write0, Zplus_mod_idemp_l. f_equal. lia.
  - unfold items. cbn [current_count set_write item_size].
    replace (Z.to_nat (current_count rb + 1)) with (S (Z.to_nat (current_count rb))) by lia.
    rewrite seq_S, map_app. cbn [map Nat.add]. f_equal.
    + apply map_ext_in. intros i Hi%in_seq. apply block_ext. intros j Hj. apply Hfr.
      destruct (slot_apart rb H (Z.of_nat i) (current_count rb)); [lia|lia|lia|unfold slot in *; cbn; lia..].
    + rewrite Z2Nat.id by lia. rewrite <- Hblk. done.
Qed.

Lemma push_spec rb m value :
  ringbuf_ok rb -> bytes m -> outside rb value ->
  let '(a, q) := queue_exec (capacity rb) (fail_on_full rb) (QPush (block m value (item_size rb))) (items rb m) in
  exists r rb' m', ds_ringbuf_push (Some rb) value m = Done (r, Some rb', m') /\ a = QDone r /\
    ringbuf_ok rb' /\ bytes m' /\ same_shape rb rb' /\ items rb' m' = q /\ (r <> DS_SUCCESS -> rb' = rb).
Proof.
  intros H Hb Ho. cbn [queue_exec]. rewrite items_length by done. unfold ds_ringbuf_push.
  pose proof (ro_capacity rb H). replace (capacity rb =? 0) with false by lia.
  destruct (Z.eqb_spec (current_count rb) (capacity rb)) as [E|E]; cbn [andb].
  - destruct (fail_on_full rb) eqn:Ef.
    + exists DS_ERR_FULL, rb, m. by repeat (split; [done|]).
    + destruct (drop_item rb m H ltac:(lia)) as (H1 & Hc1 & Hi1 & _). set (rb1 := set_read _ _ rb) in *.
      destruct (add_item rb1 m value H1) as (H2 & Hb2 & Hi2); [rewrite Hc1; cbn; lia|done|done|].
      eexists DS_SUCCESS, _, _. split; [reflexivity|]. split; [done|]. split; [done|]. split; [done|].
      split; [done|]. split; [|done]. rewrite Hi2, Hi1. done.
  - destruct (add_item rb m value H) as (H2 & Hb2 & Hi2); [pose proof (ro_count rb H); lia|done|done|].
    eexists DS_SUCCESS, _, _. split; [reflexivity|]. by repeat (split; [done|]).
Qed.

(** The memory after the oldest item is copied to [addr]. *)
Lemma copy_out rb m addr :
  ringbuf_ok rb -> bytes m -> outside rb addr -> 0 < current_count rb ->
  let m' := memcpy addr (elem_ptr rb (read_ptr rb)) (item_size rb) m in
  bytes m' /\ items rb m' = items rb m /\ block m' addr (item_size rb) = block m (slot rb 0) (item_size rb).
Proof.
  intros H Hb Ho Hc. cbv zeta. rewrite elem_ptr_read by done. pose proof (slot_range rb H 0) as Hs.
  destruct (memcpy_block m addr (slot rb 0) (item_size rb)) as (Hb' & Hblk & Hfr); [done|apply H|unfold outside in Ho; lia|].
  split; [done|]. split; [|done]. apply items_frame; [done|]. intros x Hx. apply Hfr. unfold outside in Ho. lia.
Qed.

Lemma poke_items rb m addr :
  ringbuf_ok rb -> bytes m -> outside rb addr -> 0 < current_count rb ->
  let m' := memcpy (elem_ptr rb (read_ptr rb)) addr (item_size rb) m in
  bytes m' /\ items rb m' = block m addr (item_size rb) :: tail (items rb m).
Proof.
  intros H Hb Ho Hc. cbv zeta. rewrite elem_ptr_read by done. pose proof (slot_range rb H 0) as Hs.
  destruct (memcpy_block m (slot rb 0) addr (item_size rb)) as (Hb' & Hblk & Hfr); [done|apply H|unfold outside in Ho; lia|].
  split; [done|]. rewrite (items_head rb (memcpy _ _ _ m)) by done. f_equal; [done|].
  unfold items. replace (Z.to_nat (current_count rb)) with (S (Z.to_nat (current_count rb - 1))) by lia.
  cbn [seq map tail]. apply map_ext_in. intros i Hi%in_seq. apply block_ext. intros j Hj. apply Hfr.
  pose proof (ro_count rb H). destruct (slot_apart rb H 0 (Z.of_nat i)); lia.
Qed.

(** ** Refinement *)

(** The items a client passes have the right size. *)
Definition fits_item (rb : ds_ringbuf) (o : queue_op) : Prop :=
  match o with
  | QPush v | QPoke v => Z.of_nat (length v) = item_size rb /\ Forall (fun c => 0 <= c < 256) v
  | _ => True
  end.

(** The state in which a client's calls are made. *)
Definition client_ok (buf : Z) (s : ds_ringbuf * memory) : Prop :=
  ringbuf_ok s.1 /\ bytes s.2 /\ outside s.1 buf.

Lemma shape_client rb rb' buf : same_shape rb rb' -> outside rb buf -> outside rb' buf.
Proof. intros (E1 & E2 & E3 & E4). unfold outside. by rewrite E1, E2, E3. Qed.

Lemma exec_step buf o rb m :
  client_ok buf (rb, m) -> fits_item rb o ->
  let '(a, q) := queue_exec (capacity rb) (fail_on_full rb) o (items rb m) in
  exists rb' m', ringbuf_exec buf o (rb, m) = Done (a, (rb', m')) /\
    client_ok buf (rb', m') /\ same_shape rb rb' /\ items rb' m' = q.
Proof.
  intros (H & Hb & Ho) Hv. cbn [fst snd] in *. assert (Hsame : same_shape rb rb) by done.
  assert (Hput : forall v, Z.of_nat (length v) = item_size rb -> items rb (put_block m buf v) = items rb m).
  { intros v Hl. apply items_frame; [done|]. intros x Hx. apply put_block_frame. unfold outside in Ho. lia. }
  destruct o as [v| | |v| |]; cbn [ringbuf_exec].
  - destruct Hv as [Hl Hf]. pose proof (push_spec rb (put_block m buf v) buf H (put_block_bytes v m buf Hb Hf) Ho) as S.
    rewrite put_block_block, Hput in S by done. destruct (queue_exec _ _ _ _) as [a q].
    destruct S as (r & rb' & m' & -> & -> & H' & Hb' & Hs & Hi & Hne).
    exists rb', m'. split; [|split; [|done]].
    + destruct r; try done; by rewrite (Hne ltac:(done)).
    + split; [done|]. split; [done|]. by eapply shape_client.
  - cbn [queue_exec]. unfold ds_ringbuf_pop. pose proof (items_length rb m H) as Hlen.
    destruct (Z.eqb_spec (current_count rb) 0) as [E|E].
    + destruct (items rb m) as [|v q] eqn:Ei; [|cbn in Hlen; lia]. by exists rb, m.
    + pose proof (ro_count rb H). rewrite (items_head rb m) by (done || lia). pose proof (ro_capacity rb H).
      replace (capacity rb =? 0) with false by lia.
      destruct (copy_out rb m buf H Hb Ho ltac:(lia)) as (Hb' & Hi' & Hblk).
      set (m' := memcpy _ _ _ m) in *. destruct (drop_item rb m' H ltac:(lia)) as (Hok & _ & Hi1 & _).
      eexists _, m'. split; [by rewrite <- Hblk|]. split; [by split|]. split; [done|]. by rewrite Hi1, Hi'.
  - cbn [queue_exec]. unfold ds_ringbuf_peek. pose proof (items_length rb m H) as Hlen.
    destruct (Z.eqb_spec (current_count rb) 0) as [E|E].
    + destruct (items rb m) as [|v q] eqn:Ei; [|cbn in Hlen; lia]. by exists rb, m.
    + pose proof (ro_count rb H). destruct (copy_out rb m buf H Hb Ho ltac:(lia)) as (Hb' & Hi' & Hblk).
      rewrite (items_head rb m) by (done || lia). eexists rb, _. split; [by rewrite <- Hblk|]. split; [by split|].
      split; [done|]. rewrite Hi'. by apply items_head; [|lia].
  - destruct Hv as [Hl Hf]. cbn [queue_exec]. unfold ds_ringbuf_poke. pose proof (items_length rb m H) as Hlen.
    destruct (Z.eqb_spec (current_count rb) 0) as [E|E].
    + destruct (items rb m) as [|w q] eqn:Ei; [|cbn in Hlen; lia]. exists rb, (put_block m buf v). split; [done|].
      split; [split; [done|split; [by apply put_block_bytes|done]]|]. split; [done|]. by rewrite Hput.
    + pose proof (ro_count rb H).
      destruct (poke_items rb (put_block m buf v) buf H (put_block_bytes v m buf Hb Hf) Ho ltac:(lia)) as (Hb' & Hi').
      rewrite put_block_block, Hput in Hi' by done. rewrite (items_head rb m) by (done || lia).
      eexists rb, _. split; [done|]. split; [by split|]. split; [done|]. done.
  - cbn [queue_exec ds_ringbuf_clear]. eexists _, m. split; [done|]. split; [|done]. split; [|done].
    destruct H. split; cbn; try done; lia.
  - cbn [queue_exec]. exists rb, m. rewrite items_length by done. done.
Qed.

Lemma exec_run buf os : forall rb m,
  client_ok buf (rb, m) -> Forall (fits_item rb) os ->
  ringbuf_run buf os (rb, m) = Done (queue_run (capacity rb) (fail_on_full rb) os (items rb m)).
Proof.
  induction os as [|o os IH]; intros rb m C Hv; [done|]. apply Forall_cons in Hv as [Ho Hv]. cbn [ringbuf_run queue_run].
  pose proof (exec_step buf o rb m C Ho) as S. destruct (queue_exec _ _ o _) as [a q].
  destruct S as (rb' & m' & -> & C' & Hs & <-). pose proof Hs as (E1 & E2 & E3 & E4).
  rewrite IH; [by rewrite E1, E4|done|]. eapply Forall_impl; [exact Hv|]. intros o' Hf. unfold fits_item in *.
  rewrite E2. done.
Qed.

(** A ring buffer is a bounded queue.  From its creation on, every sequence of
    pushes, pops, peeks, pokes, clears and size queries gives the answers of a
    queue of the capacity that, when full, refuses a new item or drops the oldest
    one, depending on [fail_on_full]; nothing traps. *)
Theorem ringbuf_refines_queue cap item strict addr buf m os :
  0 < cap < 2 ^ 32 -> 0 <= item -> 0 <= addr -> addr + item * cap < 2 ^ 32 -> bytes m ->
  buf + item <= addr \/ addr + item * cap <= buf ->
  Forall (fits_item (ds_ringbuf_create cap item strict addr)) os ->
  ringbuf_run buf os (ds_ringbuf_create cap item strict addr, m) = Done (queue_run cap strict os []).
Proof.
  intros Hc Hi Ha Hl Hb Ho Hv. apply exec_run; [|done]. split; [|split; [done|exact Ho]].
  split; cbn; try done; lia.
Qed.

Lemma ringbuf_refines_queue_witness :
  ringbuf_run 64 [QPush [1; 2]; QPush [3; 4]; QPush [5; 6]; QPeek; QPop; QPoke [7; 8]; QSize; QPop; QPop]
    (ds_ringbuf_create 2 2 false 16, fun _ => 0) =
    Done [QDone DS_SUCCESS; QDone DS_SUCCESS; QDone DS_SUCCESS; QItem [3; 4]; QItem [3; 4];
          QDone DS_SUCCESS; QNum 1; QItem [7; 8]; QDone DS_ERR_EMPTY].
Proof.
  apply (ringbuf_refines_queue 2 2 false 16 64); [lia|lia|lia|lia|by intros ?|lia|]. repeat constructor; lia.
Defined.

(** A ring buffer of capacity 0 that overwrites traps: the first push divides
    by the capacity. *)
Lemma ringbuf_zero_traps item addr value m :
  ds_ringbuf_push (Some (ds_ringbuf_create 0 item false addr)) value m = Panic.
Proof. done. Qed.
