(* ===== verification/StrDict.v ===== *)
(** String dictionaries: a model of [src/libds/src/strdict.c].

    A C string is the list of its bytes before the terminator.  The array
    [items] is a list of cells, a null pointer is [None]; a cell that was
    allocated and not yet written is [Undef].  Operations return [None] where the
    code would use such a cell, leave the array or overrun a string buffer, so
    that the theorems show that this never happens.  Allocation succeeds (the
    code does not test its result). *)

From S2P Require Import Prelude RingBuf.
From Stdlib Require Import ZArith Lia Bool.
From stdpp Require Import base tactics numbers list gmap.
Open Scope Z_scope.

Definition cstring : Type := list Z.

Definition DICT_GROW_COUNT : Z := 10.
Definition SIZEOF_PTR : Z := 4.
Definition EQUALS : Z := 61.

Inductive cell := Undef | Null | Str (s : cstring).

Record ds_strdict := mk_strdict {
  d_capacity : Z; d_count : Z; d_items : option (list cell) }.

Definition set_count n d := mk_strdict (d_capacity d) n (d_items d).
Definition set_items l d := mk_strdict (d_capacity d) (d_count d) l.

(** ** Accesses *)

(** [items[i]] *)
Definition get_cell (d : ds_strdict) (i : Z) : option cell :=
  items ← d_items d; if decide (0 <= i) then items !! Z.to_nat i else None.

Definition get_str (d : ds_strdict) (i : Z) : option cstring :=
  match get_cell d i with Some (Str s) => Some s | _ => None end.

(** [items[i] = c] *)
Definition put_cell (i : Z) (c : cell) (d : ds_strdict) : option ds_strdict :=
  items ← d_items d;
  if decide (0 <= i < Z.of_nat (length items)) then Some (set_items (Some (<[Z.to_nat i := c]> items)) d)
  else None.

(** [libds_free(items[i])]: the cell must hold a pointer. *)
Definition free_cell (d : ds_strdict) (i : Z) : option () :=
  match get_cell d i with Some Undef | None => None | _ => Some () end.

(** [libds_malloc(size)] followed by [strcpy]. *)
Definition copy_string (size : Z) (s : cstring) : option cell :=
  if Z.of_nat (length s) <? size then Some (Str s) else None.

(** [strlen] *)
Definition slen (s : cstring) : Z := Z.of_nat (length s).

(** ** Operations *)

Definition dict_grow (d : ds_strdict) : option ds_strdict :=
  let old_capacity := d_capacity d in
  let capacity := u32 (old_capacity + DICT_GROW_COUNT) in
  let items := resize (Z.to_nat (u32 (SIZEOF_PTR * capacity * 2) / SIZEOF_PTR)) Undef (default [] (d_items d)) in
  let zeros := replicate (Z.to_nat (DICT_GROW_COUNT * 2)) Null in
  let start := Z.to_nat (old_capacity * 2) in
  if decide (start + length zeros <= length items)%nat
  then Some (mk_strdict capacity (d_count d) (Some (list_inserts start zeros items)))
  else None.

Fixpoint find_key_loop (n : nat) (i : Z) (d : ds_strdict) (key : cstring) : option Z :=
  match n with
  | O => Some (-1)
  | S n =>
      k ← get_str d (i * 2);
      if decide (key = k) then Some (i32 i) else find_key_loop n (i + 1) d key
  end.

Definition dict_find_key (d : ds_strdict) (key : cstring) : option Z :=
  find_key_loop (Z.to_nat (d_count d)) 0 d key.

Definition ds_strdict_create : ds_strdict := mk_strdict 0 0 None.

(** The position of the first byte [c], as [strchr] finds it. *)
Fixpoint find_byte (s : cstring) (c : Z) : option nat :=
  match s with
  | [] => None
  | b :: s => if b =? c then Some O else S <$> find_byte s c
  end.

(** One entry of the loop of [ds_strdict_create_environ]. *)
Definition environ_entry (d : ds_strdict) (entry : cstring) : option ds_strdict :=
  match find_byte entry EQUALS with
  | None => Some d
  | Some key_len =>
      let key := take key_len entry in
      let val := drop (S key_len) entry in
      d ← put_cell (d_count d * 2) (Str key) d;
      d ← put_cell (d_count d * 2 + 1) (Str val) d;
      Some (set_count (u32 (d_count d + 1)) d)
  end.

Fixpoint environ_loop (environ : list cstring) (d : ds_strdict) : option ds_strdict :=
  match environ with
  | [] => Some d
  | entry :: environ => d ← environ_entry d entry; environ_loop environ d
  end.

Definition ds_strdict_create_environ (environ : option (list cstring)) : option ds_strdict :=
  match environ with
  | None => Some ds_strdict_create
  | Some environ =>
      let n := Z.of_nat (length environ) in
      let items := if 0 <? n
                   then Some (replicate (Z.to_nat (u32 (SIZEOF_PTR * n * 2) / SIZEOF_PTR)) Undef) else None in
      environ_loop environ (mk_strdict n 0 items)
  end.

Definition ds_strdict_set (dict : option ds_strdict) (key value : cstring) (overwrite : bool) :
    option (ds_result * option ds_strdict) :=
  match dict with
  | None => Some (DS_ERR_INVALID, None)
  | Some d =>
      existing_index ← dict_find_key d key;
      if (0 <=? existing_index) && negb overwrite then Some (DS_ERR_DUPLICATE, Some d) else
      if 0 <=? existing_index then
        let value_idx := existing_index * 2 + 1 in
        _ ← free_cell d value_idx;
        c ← copy_string (slen value + 1) value;
        d ← put_cell value_idx c d;
        Some (DS_SUCCESS, Some d)
      else
        d ← (if d_capacity d =? d_count d then dict_grow d else Some d);
        let key_idx := d_count d * 2 in
        k ← copy_string (slen key + 1) key;
        v ← copy_string (slen value + 1) value;
        d ← put_cell key_idx k d;
        d ← put_cell (key_idx + 1) v d;
        Some (DS_SUCCESS, Some (set_count (u32 (d_count d + 1)) d))
  end.

Definition ds_strdict_add (dict : option ds_strdict) (key value : cstring) :
    option (ds_result * option ds_strdict) :=
  r ← ds_strdict_set dict key value false;
  Some (match r.1 with DS_ERR_DUPLICATE => DS_SUCCESS | res => res end, r.2).

(** The result and the string stored at [val], if any. *)
Definition ds_strdict_get (dict : option ds_strdict) (key : cstring) : option (ds_result * option cstring) :=
  match dict with
  | None => Some (DS_ERR_INVALID, None)
  | Some d =>
      index ← dict_find_key d key;
      if index <? 0 then Some (DS_ERR_NOT_FOUND, None) else
      v ← get_str d (index * 2 + 1);
      Some (DS_SUCCESS, Some v)
  end.

Definition ds_strdict_has (dict : option ds_strdict) (key : cstring) : option bool :=
  match dict with
  | None => Some false
  | Some d => index ← dict_find_key d key; Some (0 <=? index)
  end.

Fixpoint free_loop (n : nat) (i : Z) (d : ds_strdict) : option () :=
  match n with
  | O => Some ()
  | S n => _ ← free_cell d i; free_loop n (i + 1) d
  end.

Definition ds_strdict_clear (dict : option ds_strdict) : option (ds_result * option ds_strdict) :=
  match dict with
  | None => Some (DS_ERR_INVALID, None)
  | Some d =>
      _ ← (match d_items d with
           | None => Some ()
           | Some _ => free_loop (Z.to_nat (d_count d * 2)) 0 d
           end);
      Some (DS_SUCCESS, Some (mk_strdict 0 0 None))
  end.

(** [None] is also the dictionary that is gone. *)
Definition ds_strdict_destroy (dict : option ds_strdict) : option (option ds_strdict) :=
  match dict with
  | None => Some None
  | Some d => _ ← ds_strdict_clear (Some d); Some None
  end.

(** [memmove] of [n] cells inside the array. *)
Definition move_cells (dst src n : Z) (d : ds_strdict) : option ds_strdict :=
  items ← d_items d;
  if decide (0 <= dst /\ 0 <= src /\ Z.max dst src + n <= Z.of_nat (length items))
  then Some (set_items (Some (list_inserts (Z.to_nat dst) (take (Z.to_nat n) (drop (Z.to_nat src) items)) items)) d)
  else None.

Definition ds_strdict_remove (dict : option ds_strdict) (key : cstring) :
    option (ds_result * option ds_strdict) :=
  match dict with
  | None => Some (DS_ERR_INVALID, None)
  | Some d =>
      index ← dict_find_key d key;
      if index <? 0 then Some (DS_ERR_NOT_FOUND, Some d) else
      let key_idx := index * 2 in
      _ ← free_cell d key_idx;
      _ ← free_cell d (key_idx + 1);
      let items_to_move := u32 (u32 (d_count d - index - 1) * 2) in
      d ← (if 0 <? items_to_move then move_cells key_idx (key_idx + 2) items_to_move d else Some d);
      let d := set_count (u32 (d_count d - 1)) d in
      d ← put_cell (d_count d * 2) Null d;
      d ← put_cell (d_count d * 2 + 1) Null d;
      Some (DS_SUCCESS, Some d)
  end.

Definition ds_strdict_size (dict : option ds_strdict) : Z :=
  match dict with None => 0 | Some d => d_count d end.

Definition ds_strdict_is_empty (dict : option ds_strdict) : bool := ds_strdict_size dict =? 0.

(** The string ["key=value"] in a buffer of [len] bytes. *)
Definition dump_entry (key val : cstring) : option cstring :=
  let key_len := slen key in
  let len := key_len + slen val + 2 in
  if (key_len + 1 <=? len) && (key_len + 1 + slen val + 1 <=? len) then Some (key ++ EQUALS :: val) else None.

Fixpoint dump_loop (n : nat) (i : Z) (d : ds_strdict) : option (list cstring) :=
  match n with
  | O => Some []
  | S n =>
      key ← get_str d (i * 2);
      val ← get_str d (i * 2 + 1);
      entry ← dump_entry key val;
      rest ← dump_loop n (i + 1) d;
      Some (entry :: rest)
  end.

(** The strings before the terminating null pointer. *)
Definition ds_strdict_dump_environ (dict : option ds_strdict) : option (option (list cstring)) :=
  match dict with
  | None => Some None
  | Some d => entries ← dump_loop (Z.to_nat (d_count d)) 0 d; Some (Some entries)
  end.

(** ** The dictionary as a list of pairs *)

Definition entry_list : Type := list (cstring * cstring).

Fixpoint flat (l : entry_list) : list cell :=
  match l with
  | [] => []
  | (k, v) :: l => Str k :: Str v :: flat l
  end.

Definition cells (d : ds_strdict) : list cell := default [] (d_items d).

(** [d] holds the pairs [l], in this order, in an array of its capacity. *)
Definition holds (d : ds_strdict) (l : entry_list) : Prop :=
  d_count d = Z.of_nat (length l) /\ 0 <= d_capacity d < 2 ^ 28 /\
  Z.of_nat (length (cells d)) = 2 * d_capacity d /\ exists rest, cells d = flat l ++ rest.

(** The number of the pair of [key], -1 without one. *)
Definition key_index (l : entry_list) (key : cstring) : Z :=
  match list_find (fun p => p.1 = key) l with Some (i, _) => Z.of_nat i | None => -1 end.

(** *** The operations of the specification *)

Inductive dict_op :=
| OpSet (key value : cstring) (overwrite : bool)
| OpAdd (key value : cstring)
| OpGet (key : cstring)
| OpHas (key : cstring)
| OpRemove (key : cstring)
| OpClear
| OpSize
| OpIsEmpty.

Inductive dict_answer :=
| AResult (r : ds_result)
| AValue (r : ds_result) (v : option cstring)
| ABool (b : bool)
| ASize (n : Z).

Definition dict_exec (op : dict_op) (d : ds_strdict) : option (dict_answer * option ds_strdict) :=
  match op with
  | OpSet k v o => r ← ds_strdict_set (Some d) k v o; Some (AResult r.1, r.2)
  | OpAdd k v => r ← ds_strdict_add (Some d) k v; Some (AResult r.1, r.2)
  | OpGet k => r ← ds_strdict_get (Some d) k; Some (AValue r.1 r.2, Some d)
  | OpHas k => b ← ds_strdict_has (Some d) k; Some (ABool b, Some d)
  | OpRemove k => r ← ds_strdict_remove (Some d) k; Some (AResult r.1, r.2)
  | OpClear => r ← ds_strdict_clear (Some d); Some (AResult r.1, r.2)
  | OpSize => Some (ASize (ds_strdict_size (Some d)), Some d)
  | OpIsEmpty => Some (ABool (ds_strdict_is_empty (Some d)), Some d)
  end.

Fixpoint dict_run (ops : list dict_op) (d : ds_strdict) : option (list dict_answer * ds_strdict) :=
  match ops with
  | [] => Some ([], d)
  | op :: ops =>
      r ← dict_exec op d;
      d ← r.2;
      rs ← dict_run ops d;
      Some (r.1 :: rs.1, rs.2)
  end.

(** The same calls on a finite map. *)
Definition map_exec (op : dict_op) (m : gmap cstring cstring) : dict_answer * gmap cstring cstring :=
  match op with
  | OpSet k v o =>
      if decide (is_Some (m !! k) /\ o = false) then (AResult DS_ERR_DUPLICATE, m)
      else (AResult DS_SUCCESS, <[k := v]> m)
  | OpAdd k v => (AResult DS_SUCCESS, match m !! k with Some _ => m | None => <[k := v]> m end)
  | OpGet k => (match m !! k with Some v => AValue DS_SUCCESS (Some v) | None => AValue DS_ERR_NOT_FOUND None end, m)
  | OpHas k => (ABool (bool_decide (is_Some (m !! k))), m)
  | OpRemove k =>
      (AResult (match m !! k with Some _ => DS_SUCCESS | None => DS_ERR_NOT_FOUND end), delete k m)
  | OpClear => (AResult DS_SUCCESS, ∅)
  | OpSize => (ASize (Z.of_nat (size m)), m)
  | OpIsEmpty => (ABool (bool_decide (m = ∅)), m)
  end.

Fixpoint map_run (ops : list dict_op) (m : gmap cstring cstring) : list dict_answer * gmap cstring cstring :=
  match ops with
  | [] => ([], m)
  | op :: ops =>
      let '(a, m) := map_exec op m in
      let '(rs, m) := map_run ops m in
      (a :: rs, m)
  end.

(** *** Cells *)

Lemma flat_length l : length (flat l) = (2 * length l)%nat.
Proof. induction l as [|[k v] l IH]; simpl; lia. Qed.

Lemma flat_app l1 l2 : flat (l1 ++ l2) = flat l1 ++ flat l2.
Proof. induction l1 as [|[k v] l1 IH]; simpl; [done | by rewrite IH]. Qed.

Lemma flat_lookup l i k v :
  l !! i = Some (k, v) ->
  flat l !! (2 * i)%nat = Some (Str k) /\ flat l !! (2 * i + 1)%nat = Some (Str v).
Proof.
  intros H. rewrite <- (take_drop_middle l i (k, v) H), flat_app.
  assert (length (flat (take i l)) = (2 * i)%nat) as L.
  { rewrite flat_length, length_take. apply lookup_lt_Some in H. lia. }
  rewrite !lookup_app_r by lia. rewrite L.
  replace (2 * i - 2 * i)%nat with O by lia. by replace (2 * i + 1 - 2 * i)%nat with 1%nat by lia.
Qed.

Lemma get_cell_spec d i : 0 <= i -> get_cell d i = cells d !! Z.to_nat i.
Proof.
  intros H. unfold get_cell, cells. destruct (d_items d); simpl; [|done]. by rewrite decide_True.
Qed.

Lemma put_cell_spec d i c :
  0 <= i < Z.of_nat (length (cells d)) ->
  put_cell i c d = Some (set_items (Some (<[Z.to_nat i := c]> (cells d))) d).
Proof.
  unfold put_cell, cells. destruct (d_items d); simpl; [|lia]. intros H. by rewrite decide_True.
Qed.

Lemma cells_set_items L d : cells (set_items (Some L) d) = L.
Proof. done. Qed.

Lemma cells_set_count n d : cells (set_count n d) = cells d.
Proof. done. Qed.

Lemma holds_get d l i k v :
  holds d l -> l !! i = Some (k, v) ->
  get_str d (Z.of_nat i * 2) = Some k /\ get_str d (Z.of_nat i * 2 + 1) = Some v.
Proof.
  intros (_ & _ & _ & rest & E) H. destruct (flat_lookup l i k v H) as [H1 H2].
  unfold get_str. rewrite !get_cell_spec by lia. rewrite E.
  replace (Z.to_nat (Z.of_nat i * 2)) with (2 * i)%nat by lia.
  replace (Z.to_nat (Z.of_nat i * 2 + 1)) with (2 * i + 1)%nat by lia.
  by rewrite (lookup_app_l_Some _ _ _ _ H1), (lookup_app_l_Some _ _ _ _ H2).
Qed.

Lemma holds_count d l : holds d l -> 0 <= d_count d <= d_capacity d.
Proof.
  intros (C & K & L & rest & E). rewrite E, length_app, flat_length in L. lia.
Qed.

Lemma holds_free d l i : holds d l -> 0 <= i < 2 * d_count d -> free_cell d i = Some ().
Proof.
  intros H Hi. pose proof H as (C & _). 
  destruct (lookup_lt_is_Some_2 l (Z.to_nat (i / 2))) as [[k v] E]; [dlia|].
  destruct (holds_get d l _ k v H E) as [H1 H2].
  assert (i = Z.of_nat (Z.to_nat (i / 2)) * 2 \/ i = Z.of_nat (Z.to_nat (i / 2)) * 2 + 1) as [->| ->] by dlia;
    unfold get_str in H1, H2; unfold free_cell; repeat case_match; naive_solver.
Qed.

(** *** Finding *)

Lemma find_key_drop d l key i :
  holds d l -> (i <= length l)%nat ->
  find_key_loop (length l - i) (Z.of_nat i) d key =
  Some (let j := key_index (drop i l) key in if j <? 0 then -1 else Z.of_nat i + j).
Proof.
  intros H Hi. pose proof (holds_count _ _ H) as Hc. pose proof H as (C & K & _).
  remember (length l - i)%nat as n eqn:En. revert i Hi En.
  induction n as [|n IH]; intros i Hi En; simpl.
  - rewrite drop_ge by lia. done.
  - destruct (lookup_lt_is_Some_2 l i) as [[k v] E]; [lia|].
    destruct (holds_get d l _ k v H E) as [-> _]. cbn [mbind option_bind].
    rewrite (drop_S l (k, v) i E). unfold key_index. cbn [list_find fst].
    case_decide as D1; subst.
    + rewrite decide_True by done. simpl. f_equal. rewrite i32_small; lia.
    + rewrite decide_False by done. replace (Z.of_nat i + 1) with (Z.of_nat (S i)) by lia.
      rewrite IH by lia. unfold key_index.
      destruct (list_find _ (drop (S i) l)) as [[j p]|] eqn:Ef; simpl; [|done].
      rewrite !(proj2 (Z.ltb_ge _ _)) by lia. f_equal. lia.
Qed.

Lemma find_key_spec d l key : holds d l -> dict_find_key d key = Some (key_index l key).
Proof.
  intros H. unfold dict_find_key. pose proof H as (-> & _).
  pose proof (find_key_drop d l key 0 H ltac:(lia)) as F. rewrite Nat.sub_0_r, drop_0 in F.
  rewrite Nat2Z.id. change (Z.of_nat 0) with 0 in F. rewrite F. cbn [Z.add].
  unfold key_index. destruct (list_find _ l) as [[j p]|]; [|done].
  by rewrite (proj2 (Z.ltb_ge _ _)) by lia.
Qed.

Lemma key_index_Some l key :
  0 <= key_index l key ->
  exists l1 v l2, l = l1 ++ (key, v) :: l2 /\ key_index l key = Z.of_nat (length l1) /\ key ∉ l1.*1.
Proof.
  unfold key_index. destruct (list_find _ l) as [[i [k v]]|] eqn:E; [|lia]. intros _.
  apply list_find_Some in E as (E & Hk & Hn). simpl in Hk. subst k.
  exists (take i l), v, (drop (S i) l). split; [by rewrite take_drop_middle|].
  rewrite length_take, Nat.min_l by (apply lookup_lt_Some in E; lia). split; [done|].
  intros Hin. apply list_elem_of_fmap in Hin as ([k' v'] & -> & Hin).
  apply list_elem_of_lookup in Hin as [j Hj]. apply lookup_take_Some in Hj as [Hj Hlt].
  by apply (Hn j (k', v') Hj Hlt).
Qed.

Lemma key_index_None l key : key_index l key < 0 -> key_index l key = -1 /\ key ∉ l.*1.
Proof.
  unfold key_index. destruct (list_find _ l) as [[i p]|] eqn:E; [lia|]. intros _. split; [done|].
  apply list_find_None in E. rewrite Forall_forall in E.
  intros ([k v] & -> & Hin)%list_elem_of_fmap. by apply (E (k, v)).
Qed.

(** *** Each operation *)

Lemma copy_string_spec s : copy_string (slen s + 1) s = Some (Str s).
Proof. unfold copy_string, slen. by rewrite (proj2 (Z.ltb_lt _ _)) by lia. Qed.

Lemma get_spec d l key :
  holds d l ->
  ds_strdict_get (Some d) key =
    Some (match (list_to_map l : gmap cstring cstring) !! key with
          | Some v => (DS_SUCCESS, Some v) | None => (DS_ERR_NOT_FOUND, None) end).
Proof.
  intros H. unfold ds_strdict_get. rewrite (find_key_spec d l key H). cbn [mbind option_bind].
  destruct (Z_lt_le_dec (key_index l key) 0) as [Hn|Hp].
  - rewrite (proj2 (Z.ltb_lt _ _)) by done. apply key_index_None in Hn as [_ Hn].
    by rewrite (not_elem_of_list_to_map_1 _ _ Hn).
  - rewrite (proj2 (Z.ltb_ge _ _)) by done. apply key_index_Some in Hp as (l1 & v & l2 & -> & -> & Hn).
    destruct (holds_get d _ (length l1) key v H) as [_ ->]; [by apply list_lookup_middle|].
    rewrite list_to_map_app, lookup_union_r by by apply not_elem_of_list_to_map_1.
    simpl. by rewrite lookup_insert_eq.
Qed.

Lemma has_spec d l key :
  holds d l -> ds_strdict_has (Some d) key = Some (bool_decide (key ∈ l.*1)).
Proof.
  intros H. unfold ds_strdict_has. rewrite (find_key_spec d l key H). cbn [mbind option_bind].
  destruct (Z_lt_le_dec (key_index l key) 0) as [Hn|Hp]; f_equal.
  - rewrite (proj2 (Z.leb_gt _ _)) by done. apply key_index_None in Hn as [_ Hn].
    by rewrite bool_decide_eq_false_2.
  - rewrite (proj2 (Z.leb_le _ _)) by done. apply key_index_Some in Hp as (l1 & v & l2 & -> & _).
    rewrite bool_decide_eq_true_2; [done|]. apply list_elem_of_fmap. exists (key, v). split; [done|]. apply elem_of_app. right. by left.
Qed.

(** Overwriting the value of the pair at [length l1]. *)
Lemma overwrite_holds d l1 k v w l2 :
  holds d (l1 ++ (k, v) :: l2) ->
  exists d', put_cell (Z.of_nat (length l1) * 2 + 1) (Str w) d = Some d' /\
    holds d' (l1 ++ (k, w) :: l2) /\ d_capacity d' = d_capacity d.
Proof.
  intros H. pose proof (holds_count _ _ H) as Hc. pose proof H as (C & K & L & rest & E).
  rewrite length_app in C. simpl in C.
  eexists. split; [apply put_cell_spec; lia|]. split; [|done].
  split; [cbn [d_count set_items]; rewrite length_app; simpl; lia|].
  split; [done|]. rewrite cells_set_items. split; [rewrite length_insert; exact L|].
  exists rest. rewrite E, !flat_app. simpl. rewrite <- !app_assoc. simpl.
  replace (Z.to_nat (Z.of_nat (length l1) * 2 + 1)) with (length (flat l1) + 1)%nat
    by (rewrite flat_length; lia).
  by rewrite insert_app_r.
Qed.

(** Writing a new pair behind the others and counting it. *)
Lemma append_holds d l k v :
  holds d l -> d_count d < d_capacity d ->
  exists d1 d2, put_cell (d_count d * 2) (Str k) d = Some d1 /\
    put_cell (d_count d * 2 + 1) (Str v) d1 = Some d2 /\
    d_count d1 = d_count d /\ d_count d2 = d_count d /\
    holds (set_count (u32 (d_count d + 1)) d2) (l ++ [(k, v)]) /\ d_capacity d2 = d_capacity d.
Proof.
  intros H Hlt. pose proof H as (C & K & L & rest & E).
  assert (exists a b rest', rest = a :: b :: rest') as (a & b & rest' & ->).
  { rewrite E, length_app, flat_length in L. destruct rest as [|a [|b rest']]; simpl in L; [lia..|eauto]. }
  eexists _, _. split; [apply put_cell_spec; lia|].
  split; [apply put_cell_spec; rewrite cells_set_items, length_insert; lia|].
  split; [done|]. split; [done|]. split; [|done].
  rewrite u32_small by lia.
  split; [cbn [d_count set_count]; rewrite length_app; simpl; lia|]. split; [done|].
  rewrite cells_set_count, !cells_set_items. split; [rewrite !length_insert; exact L|].
  exists rest'. rewrite E, flat_app, <- app_assoc. simpl.
  replace (Z.to_nat (d_count d * 2)) with (length (flat l) + 0)%nat by (rewrite flat_length; lia).
  replace (Z.to_nat (d_count d * 2 + 1)) with (length (flat l) + 1)%nat by (rewrite flat_length; lia).
  by rewrite !insert_app_r.
Qed.

Lemma grow_holds d l :
  holds d l -> d_capacity d = d_count d -> d_capacity d + 10 < 2 ^ 28 ->
  exists d', dict_grow d = Some d' /\ holds d' l /\ d_capacity d' = d_capacity d + 10.
Proof.
  intros H Heq Hcap. pose proof H as (C & K & L & rest & E). unfold dict_grow, DICT_GROW_COUNT, SIZEOF_PTR.
  fold (cells d). rewrite (u32_small (d_capacity d + 10)) by lia.
  rewrite u32_small by lia. replace (4 * (d_capacity d + 10) * 2 / 4) with (2 * d_capacity d + 20) by dlia.
  rewrite length_replicate, length_resize. rewrite decide_True by lia.
  eexists. split; [done|]. split; [|done]. split; [done|]. cbn [d_capacity d_count]. split; [lia|].
  unfold cells at 1 2. cbn [d_items default from_option id]. rewrite length_inserts, length_resize. split; [lia|].
  assert (rest = []) as ->.
  { apply length_zero_iff_nil. rewrite E, length_app, flat_length in L. lia. }
  rewrite app_nil_r in E. exists (replicate 20 Null).
  rewrite resize_ge by lia. rewrite E, flat_length in *.
  replace (Z.to_nat (d_capacity d * 2)) with (length (flat l) + 0)%nat by (rewrite flat_length; lia).
  rewrite list_inserts_app_r. f_equal.
  replace (Z.to_nat (2 * d_capacity d + 20) - 2 * length l)%nat with 20%nat by lia. done.
Qed.

Lemma key_index_middle l1 k v l2 : k ∉ l1.*1 -> key_index (l1 ++ (k, v) :: l2) k = Z.of_nat (length l1).
Proof.
  intros Hk. unfold key_index. rewrite list_find_app_r.
  - simpl. rewrite decide_True by done. simpl. lia.
  - apply list_find_None, Forall_forall. intros [k' v'] Hin. simpl. intros ->. apply Hk.
    apply list_elem_of_fmap. by exists (k, v').
Qed.

Lemma key_index_absent l k : k ∉ l.*1 -> key_index l k = -1.
Proof.
  intros Hk. destruct (Z_lt_le_dec (key_index l k) 0) as [Hn|Hp]; [by apply key_index_None|].
  destruct (key_index_Some _ _ Hp) as (l1 & v & l2 & -> & _). exfalso. apply Hk.
  apply list_elem_of_fmap. exists (k, v). split; [done|]. apply elem_of_app. right. by left.
Qed.

Lemma set_new d l k v o :
  holds d l -> k ∉ l.*1 -> d_capacity d + 10 < 2 ^ 28 ->
  exists d', ds_strdict_set (Some d) k v o = Some (DS_SUCCESS, Some d') /\
    holds d' (l ++ [(k, v)]) /\ d_capacity d' <= d_capacity d + 10.
Proof.
  intros H Hk Hcap. unfold ds_strdict_set. rewrite (find_key_spec d l k H). cbn [mbind option_bind].
  rewrite (key_index_absent l k Hk). cbn [Z.leb Z.compare andb].
  assert (exists d1, (if d_capacity d =? d_count d then dict_grow d else Some d) = Some d1 /\
    holds d1 l /\ d_count d1 < d_capacity d1 /\ d_capacity d1 <= d_capacity d + 10) as (d1 & -> & H1 & Hlt & Hle).
  { destruct (Z.eqb_spec (d_capacity d) (d_count d)) as [E|E].
    - destruct (grow_holds d l H E Hcap) as (d' & -> & H' & Ec). exists d'. repeat split; [apply H'..| |lia].
      destruct H' as (C & _), H as (C' & _). lia.
    - exists d. pose proof (holds_count _ _ H). repeat split; try apply H; lia. }
  cbn [mbind option_bind]. rewrite !copy_string_spec. cbn [mbind option_bind].
  destruct (append_holds d1 l k v H1 Hlt) as (d2 & d3 & -> & E3 & C2 & C3 & H3 & K3).
  cbn [mbind option_bind]. rewrite E3. cbn [mbind option_bind]. rewrite C3.
  eexists. split; [done|]. split; [exact H3|]. cbn [d_capacity set_count]. lia.
Qed.

Lemma set_old d l1 k w l2 v o :
  holds d (l1 ++ (k, w) :: l2) -> k ∉ l1.*1 ->
  if o : bool
  then exists d', ds_strdict_set (Some d) k v o = Some (DS_SUCCESS, Some d') /\
         holds d' (l1 ++ (k, v) :: l2) /\ d_capacity d' = d_capacity d
  else ds_strdict_set (Some d) k v o = Some (DS_ERR_DUPLICATE, Some d).
Proof.
  intros H Hk. unfold ds_strdict_set. rewrite (find_key_spec d _ k H). cbn [mbind option_bind].
  rewrite (key_index_middle l1 k w l2 Hk).
  rewrite (proj2 (Z.leb_le _ _)) by lia. destruct o; cbn [andb negb]; [|done].
  rewrite (holds_free d _ _ H); [|destruct H as (C & _); rewrite length_app in C; simpl in C; lia].
  cbn [mbind option_bind]. rewrite copy_string_spec. cbn [mbind option_bind].
  destruct (overwrite_holds d l1 k w v l2 H) as (d' & -> & H'). by exists d'.
Qed.

Lemma list_inserts_0 {A} (k l : list A) :
  (length k <= length l)%nat -> list_inserts 0 k l = k ++ drop (length k) l.
Proof.
  intros H. rewrite <- (take_drop (length k) l) at 1. apply list_inserts_0_r.
  rewrite length_take. lia.
Qed.

(** Closing the gap of a removed pair. *)
Lemma move_holds d l1 k v l2 :
  holds d (l1 ++ (k, v) :: l2) ->
  exists d' rest, (if 0 <? 2 * Z.of_nat (length l2)
    then move_cells (Z.of_nat (length l1) * 2) (Z.of_nat (length l1) * 2 + 2) (2 * Z.of_nat (length l2)) d
    else Some d) = Some d' /\
    cells d' = flat (l1 ++ l2) ++ rest /\ length (cells d') = length (cells d) /\
    d_count d' = d_count d /\ d_capacity d' = d_capacity d.
Proof.
  intros (C & K & L & rest & E). rewrite flat_app in E. simpl in E. rewrite <- app_assoc in E. simpl in E.
  destruct (Z.ltb_spec 0 (2 * Z.of_nat (length l2))) as [Hm|Hm].
  2: { destruct l2; [|simpl in Hm; lia]. exists d, (Str k :: Str v :: rest). simpl in E.
       rewrite app_nil_r. auto. }
  unfold move_cells. assert (d_items d = Some (cells d)) as ->.
  { unfold cells in *. destruct (d_items d); [done|]. simpl in E. by destruct (flat l1). }
  assert (length (cells d) = 2 * length l1 + 2 + 2 * length l2 + length rest)%nat as Hl.
  { rewrite E, length_app. simpl. rewrite length_app, !flat_length. lia. }
  cbn [mbind option_bind]. rewrite decide_True by lia.
  eexists _, (drop (2 * length l2) (Str k :: Str v :: flat l2 ++ rest)). split; [done|].
  rewrite cells_set_items, length_inserts. split; [|done].
  replace (take _ _) with (flat l2).
  - replace (Z.to_nat (Z.of_nat (length l1) * 2)) with (length (flat l1) + 0)%nat by (rewrite flat_length; lia).
    rewrite E, list_inserts_app_r, list_inserts_0 by (simpl; rewrite length_app; lia).
    by rewrite flat_app, flat_length, app_assoc.
  - rewrite E. replace (Z.to_nat (Z.of_nat (length l1) * 2 + 2)) with (length (flat l1) + 2)%nat
      by (rewrite flat_length; lia).
    rewrite <- drop_drop, drop_app_length. simpl. rewrite drop_0, take_app_le, take_ge; [done|..];
      rewrite flat_length; lia.
Qed.

Lemma remove_old d l1 k v l2 :
  holds d (l1 ++ (k, v) :: l2) -> k ∉ l1.*1 ->
  exists d', ds_strdict_remove (Some d) k = Some (DS_SUCCESS, Some d') /\
    holds d' (l1 ++ l2) /\ d_capacity d' = d_capacity d.
Proof.
  intros H Hk. unfold ds_strdict_remove. rewrite (find_key_spec d _ k H). cbn [mbind option_bind].
  rewrite (key_index_middle l1 k v l2 Hk). rewrite (proj2 (Z.ltb_ge _ _)) by lia.
  pose proof H as (C & K & _). pose proof (holds_count _ _ H) as Hc. rewrite length_app in C. simpl in C.
  rewrite !(holds_free d _ _ H) by lia. cbn [mbind option_bind].
  rewrite (u32_small (_ - 1)) by lia. rewrite u32_small by lia.
  replace ((d_count d - Z.of_nat (length l1) - 1) * 2) with (2 * Z.of_nat (length l2)) by lia.
  destruct (move_holds d l1 k v l2 H) as (d1 & rest & -> & E1 & L1 & C1 & K1).
  cbn [mbind option_bind]. rewrite C1, (u32_small (d_count d - 1)) by lia.
  assert (Z.of_nat (length (cells d)) = 2 * d_capacity d) as Hl by apply H.
  rewrite put_cell_spec by (rewrite cells_set_count; cbn [d_count set_count]; lia). cbn [mbind option_bind].
  rewrite put_cell_spec by (rewrite cells_set_items, length_insert, cells_set_count; cbn [d_count set_count set_items]; lia).
  cbn [mbind option_bind]. eexists. split; [done|]. split; [|done].
  split; [cbn [d_count set_count set_items]; rewrite length_app; lia|]. split; [cbn; lia|].
  rewrite cells_set_items, cells_set_items, cells_set_count. cbn [d_capacity d_count set_count set_items].
  split; [rewrite !length_insert; lia|]. rewrite E1. 
  replace (Z.to_nat ((d_count d - 1) * 2)) with (length (flat (l1 ++ l2)) + 0)%nat
    by (rewrite flat_length, length_app; lia).
  replace (Z.to_nat ((d_count d - 1) * 2 + 1)) with (length (flat (l1 ++ l2)) + 1)%nat
    by (rewrite flat_length, length_app; lia).
  rewrite !insert_app_r. by eexists.
Qed.

Lemma remove_none d l k :
  holds d l -> k ∉ l.*1 -> ds_strdict_remove (Some d) k = Some (DS_ERR_NOT_FOUND, Some d).
Proof.
  intros H Hk. unfold ds_strdict_remove. rewrite (find_key_spec d l k H). cbn [mbind option_bind].
  by rewrite (key_index_absent l k Hk).
Qed.

Lemma free_loop_spec d l n i :
  holds d l -> 0 <= i -> i + Z.of_nat n <= 2 * d_count d -> free_loop n i d = Some ().
Proof.
  intros H. revert i. induction n as [|n IH]; intros i Hi Hn; [done|]. cbn [free_loop].
  rewrite (holds_free d l i H) by lia. cbn [mbind option_bind]. apply IH; lia.
Qed.

Lemma clear_spec d l :
  holds d l -> ds_strdict_clear (Some d) = Some (DS_SUCCESS, Some ds_strdict_create).
Proof.
  intros H. unfold ds_strdict_clear. pose proof (holds_count _ _ H).
  rewrite (free_loop_spec d l _ 0 H) by lia. by destruct (d_items d).
Qed.

Lemma holds_create : holds ds_strdict_create [].
Proof. repeat split; try done. by exists []. Qed.

(** ** Refinement of a finite map *)

Abbreviation to_map l := (list_to_map l : gmap cstring cstring).

(** [d] implements the map [m]. *)
Definition implements (d : ds_strdict) (m : gmap cstring cstring) : Prop :=
  exists l, holds d l /\ NoDup l.*1 /\ m = to_map l.

Lemma key_cases (l : entry_list) k :
  NoDup l.*1 ->
  (k ∉ l.*1 /\ to_map l !! k = None) \/
  exists l1 v l2, l = l1 ++ (k, v) :: l2 /\ k ∉ l1.*1 /\ k ∉ l2.*1 /\ to_map l !! k = Some v.
Proof.
  intros Hnd. destruct (decide (k ∈ l.*1)) as [Hin|Hn].
  - right. apply list_elem_of_fmap in Hin as ([k' v] & -> & Hin).
    pose proof (elem_of_list_to_map_1 l k' v Hnd Hin) as Hv. simpl.
    apply list_elem_of_split in Hin as (l1 & l2 & ->). exists l1, v, l2.
    rewrite fmap_app in Hnd. simpl in Hnd. apply NoDup_app in Hnd as (_ & H1 & H2).
    apply NoDup_cons in H2 as [H2 _]. repeat split; try done. intros Hin. by apply (H1 _ Hin); left.
  - left. split; [done|]. by apply not_elem_of_list_to_map_1.
Qed.

Lemma to_map_middle l1 k (v w : cstring) l2 :
  k ∉ l1.*1 -> to_map (l1 ++ (k, w) :: l2) = <[k := w]> (to_map (l1 ++ (k, v) :: l2)).
Proof.
  intros Hk. rewrite !list_to_map_app. simpl. rewrite insert_union_r by by apply not_elem_of_list_to_map_1.
  by rewrite insert_insert_eq.
Qed.

Lemma to_map_delete l1 k (v : cstring) l2 :
  k ∉ l1.*1 -> k ∉ l2.*1 -> to_map (l1 ++ l2) = delete k (to_map (l1 ++ (k, v) :: l2)).
Proof.
  intros H1 H2. rewrite !list_to_map_app. simpl. rewrite delete_union.
  rewrite (delete_id (list_to_map l1)) by by apply not_elem_of_list_to_map_1.
  by rewrite delete_insert_id by by apply not_elem_of_list_to_map_1.
Qed.

Lemma to_map_snoc l k (v : cstring) : k ∉ l.*1 -> to_map (l ++ [(k, v)]) = <[k := v]> (to_map l).
Proof.
  intros H. rewrite list_to_map_app. simpl. rewrite insert_empty.
  rewrite <- insert_union_singleton_r; [done|]. by apply not_elem_of_list_to_map_1.
Qed.

Section Exec.
Context (d : ds_strdict) (m : gmap cstring cstring).
Context (Himp : implements d m) (Hcap : d_capacity d + 10 < 2 ^ 28).

(** The call returns the answer [a], and the result implements [m']. *)
Definition refined {A} (r : option (A * option ds_strdict)) (a : A) (m' : gmap cstring cstring) : Prop :=
  exists d', r = Some (a, Some d') /\ implements d' m' /\ d_capacity d' <= d_capacity d + 10.

Lemma set_refines k v o :
  refined (ds_strdict_set (Some d) k v o)
    (if decide (is_Some (m !! k) /\ o = false) then DS_ERR_DUPLICATE else DS_SUCCESS)
    (if decide (is_Some (m !! k) /\ o = false) then m else <[k := v]> m).
Proof.
  destruct Himp as (l & H & Hnd & ->). unfold refined.
  destruct (key_cases l k Hnd) as [[Hk ->]|(l1 & w & l2 & -> & H1 & H2 & ->)].
  - rewrite !decide_False by (intros [[? ?] _]; done).
    destruct (set_new d l k v o H Hk Hcap) as (d' & -> & H' & Hle). exists d'. split; [done|]. split; [|done].
    exists (l ++ [(k, v)]). split; [done|]. rewrite to_map_snoc by done. split; [|done].
    rewrite fmap_app. apply NoDup_app. split; [done|]. split; [|apply NoDup_singleton].
    intros x Hx. simpl. rewrite list_elem_of_singleton. by intros ->.
  - pose proof (set_old d l1 k w l2 v o H H1) as Hs. destruct o.
    + rewrite !decide_False by by intros [_ ?]. destruct Hs as (d' & -> & H' & Hc).
      exists d'. split; [done|]. split; [|lia]. exists (l1 ++ (k, v) :: l2). split; [done|].
      rewrite <- to_map_middle by done. split; [|done]. by rewrite fmap_app in *.
    + rewrite !decide_True by by split. exists d. split; [done|]. split; [|lia]. by eexists.
Qed.

Lemma remove_refines k :
  refined (ds_strdict_remove (Some d) k)
    (match m !! k with Some _ => DS_SUCCESS | None => DS_ERR_NOT_FOUND end) (delete k m).
Proof.
  destruct Himp as (l & H & Hnd & ->). unfold refined.
  destruct (key_cases l k Hnd) as [[Hk E]|(l1 & w & l2 & -> & H1 & H2 & ->)].
  - rewrite E, (remove_none d l k H Hk). exists d. split; [done|]. split; [|lia].
    exists l. rewrite delete_id; [done|]. by apply not_elem_of_list_to_map_1.
  - destruct (remove_old d l1 k w l2 H H1) as (d' & -> & H' & Hc). exists d'. split; [done|]. split; [|lia].
    exists (l1 ++ l2). rewrite <- to_map_delete by done. split; [done|]. split; [|done].
    rewrite fmap_app in *. simpl in Hnd. eapply sublist_NoDup; [exact Hnd|].
    apply sublist_app; [done|]. by apply sublist_cons.
Qed.

Lemma dict_exec_refines op :
  refined (dict_exec op d) (map_exec op m).1 (map_exec op m).2.
Proof.
  destruct Himp as (l & H & Hnd & Em).
  assert (size m = length l) as Hsize.
  { rewrite Em, <- length_map_to_list. by rewrite map_to_list_to_map by done. }
  pose proof H as (C & _).
  destruct op as [k v o|k v|k|k|k| | |]; cbn [dict_exec map_exec fst snd].
  - destruct (set_refines k v o) as (d' & -> & H' & Hle). exists d'. cbn. by destruct (decide _).
  - unfold ds_strdict_add. destruct (set_refines k v false) as (d' & -> & H' & Hle). exists d'. cbn.
    destruct (m !! k) as [w|] eqn:Ek.
    + rewrite decide_True in * by (split; [by eexists|done]). done.
    + rewrite decide_False in * by (intros [[? ?] _]; done). done.
  - rewrite (get_spec d l k H), <- Em. exists d. split; [|split; [by eexists|lia]].
    by destruct (m !! k).
  - rewrite (has_spec d l k H). exists d. cbn. split; [|split; [by eexists|lia]]. do 4 f_equal.
    apply bool_decide_ext. rewrite Em. destruct (key_cases l k Hnd) as [[Hk ->]|(l1 & w & l2 & -> & _ & _ & ->)].
    + split; [done|by intros []].
    + split; [by eexists|]. intros _. rewrite fmap_app. apply elem_of_app. right. by left.
  - destruct (remove_refines k) as (d' & -> & H' & Hle). by exists d'.
  - rewrite (clear_spec d l H). exists ds_strdict_create. split; [done|]. split; [|cbn; pose proof (holds_count _ _ H); lia].
    exists []. split; [apply holds_create|]. split; [apply NoDup_nil_2|done].
  - exists d. cbn. rewrite C, Hsize. split; [done|]. split; [by eexists|lia].
  - exists d. unfold ds_strdict_is_empty, ds_strdict_size. split; [|split; [by eexists|lia]].
    do 4 f_equal. rewrite C. destruct (Z.eqb_spec (Z.of_nat (length l)) 0) as [E|E]; symmetry.
    + apply bool_decide_eq_true_2, map_size_empty_inv. lia.
    + apply bool_decide_eq_false_2. intros E'. apply E. rewrite <- Hsize, E', map_size_empty. done.
Qed.

End Exec.

Lemma dict_run_refines ops d m :
  implements d m -> d_capacity d + 10 * (Z.of_nat (length ops) + 1) < 2 ^ 28 ->
  exists d', dict_run ops d = Some ((map_run ops m).1, d') /\ implements d' (map_run ops m).2.
Proof.
  revert d m. induction ops as [|op ops IH]; intros d m H Hb; simpl in *; [by exists d|].
  destruct (dict_exec_refines d m H ltac:(lia) op) as (d1 & -> & H1 & Hle). cbn [mbind option_bind fst snd].
  destruct (map_exec op m) as [a m1]. cbn [fst snd] in *.
  destruct (IH d1 m1 H1 ltac:(lia)) as (d' & -> & H'). cbn [mbind option_bind fst snd].
  exists d'. by destruct (map_run ops m1).
Qed.

(** ** Environments *)

Definition entry_string (p : cstring * cstring) : cstring := p.1 ++ EQUALS :: p.2.

(** The pair of an entry with an equals sign. *)
Definition parse_entry (entry : cstring) : option (cstring * cstring) :=
  n ← find_byte entry EQUALS; Some (take n entry, drop (S n) entry).

Lemma dump_entry_spec k v : dump_entry k v = Some (entry_string (k, v)).
Proof.
  unfold dump_entry, slen. rewrite !(proj2 (Z.leb_le _ _)) by lia. done.
Qed.

Lemma dump_drop d l i :
  holds d l -> (i <= length l)%nat ->
  dump_loop (length l - i) (Z.of_nat i) d = Some (entry_string <$> drop i l).
Proof.
  intros H Hi. remember (length l - i)%nat as n eqn:En. revert i Hi En.
  induction n as [|n IH]; intros i Hi En; [by rewrite drop_ge by lia|].
  destruct (lookup_lt_is_Some_2 l i) as [[k v] E]; [lia|].
  destruct (holds_get d l _ k v H E) as [H1 H2]. cbn [dump_loop]. rewrite H1, H2. cbn [mbind option_bind].
  rewrite dump_entry_spec. cbn [mbind option_bind]. replace (Z.of_nat i + 1) with (Z.of_nat (S i)) by lia.
  rewrite (IH (S i)) by lia. by rewrite (drop_S l (k, v) i E).
Qed.

Lemma dump_spec d l : holds d l -> ds_strdict_dump_environ (Some d) = Some (Some (entry_string <$> l)).
Proof.
  intros H. unfold ds_strdict_dump_environ. pose proof H as (-> & _).
  pose proof (dump_drop d l 0 H ltac:(lia)) as F. rewrite Nat.sub_0_r in F.
  rewrite Nat2Z.id. change (Z.of_nat 0) with 0 in F. by rewrite F.
Qed.

Lemma environ_loop_spec env d l :
  holds d l -> d_count d + Z.of_nat (length env) <= d_capacity d ->
  exists d', environ_loop env d = Some d' /\ holds d' (l ++ omap parse_entry env).
Proof.
  revert d l. induction env as [|e env IH]; intros d l H Hb; simpl in *.
  { exists d. by rewrite app_nil_r. }
  unfold environ_entry, parse_entry at 1. destruct (find_byte e EQUALS) as [n|]; cbn [mbind option_bind].
  - destruct (append_holds d l (take n e) (drop (S n) e) H ltac:(lia)) as (d1 & d2 & -> & E2 & C1 & C2 & H2 & K2).
    cbn [mbind option_bind]. rewrite C1, E2. cbn [mbind option_bind]. rewrite C2.
    pose proof (holds_count _ _ H2) as Hc. pose proof H as (C & K & _).
    destruct (IH _ _ H2) as (d' & -> & H').
    { cbn [d_count d_capacity set_count]. rewrite u32_small; lia. }
    exists d'. split; [done|]. by rewrite <- app_assoc in H'.
  - apply IH; [done|lia].
Qed.

Lemma create_environ_spec env :
  Z.of_nat (length env) < 2 ^ 28 ->
  exists d, ds_strdict_create_environ (Some env) = Some d /\ holds d (omap parse_entry env).
Proof.
  intros Hb. unfold ds_strdict_create_environ, SIZEOF_PTR. rewrite u32_small by lia.
  replace (4 * Z.of_nat (length env) * 2 / 4) with (2 * Z.of_nat (length env)) by dlia.
  apply (environ_loop_spec env _ []); [|cbn; lia].
  split; [done|]. split; [cbn; lia|]. cbn [d_capacity].
  destruct (Z.ltb_spec 0 (Z.of_nat (length env))) as [E|E]; unfold cells; cbn [d_items default from_option id].
  - rewrite length_replicate. split; [lia|]. by eexists.
  - split; [cbn; lia|]. by exists [].
Qed.

Lemma find_byte_app k c s : c ∉ k -> find_byte (k ++ c :: s) c = Some (length k).
Proof.
  induction k as [|b k IH]; intros Hc; simpl; [by rewrite Z.eqb_refl|].
  rewrite (proj2 (Z.eqb_neq _ _)) by (intros ->; apply Hc; by left).
  rewrite IH; [done|]. intros Hin. apply Hc. by right.
Qed.

Lemma parse_entry_string k v : EQUALS ∉ k -> parse_entry (entry_string (k, v)) = Some (k, v).
Proof.
  intros H. unfold parse_entry, entry_string. cbn [fst snd]. rewrite find_byte_app by done.
  cbn [mbind option_bind]. rewrite take_app_length.
  replace (S (length k)) with (length k + 1)%nat by lia. by rewrite <- drop_drop, drop_app_length.
Qed.

Lemma parse_dump (l : entry_list) :
  (forall k, k ∈ l.*1 -> EQUALS ∉ k) -> omap parse_entry (entry_string <$> l) = l.
Proof.
  induction l as [|[k v] l IH]; intros H; [done|]. rewrite fmap_cons. cbn [omap list_omap].
  rewrite parse_entry_string by (apply H; left). f_equal. apply IH. intros k' Hk. apply H. by right.
Qed.

(** ** Properties *)

(** C34: every sequence of calls on a new dictionary gives the answers of a finite map
    from strings to strings, ends in a dictionary that implements the final map, and
    never leaves the array, uses an unset cell or overruns a string. *)
Theorem strdict_refines_map ops :
  Z.of_nat (length ops) <= 2 ^ 24 ->
  exists d, dict_run ops ds_strdict_create = Some ((map_run ops ∅).1, d) /\
    implements d (map_run ops ∅).2.
Proof.
  intros H. apply dict_run_refines; [|cbn; lia].
  exists []. split; [apply holds_create|]. split; [apply NoDup_nil_2|done].
Qed.

Definition dict_demo : list dict_op :=
  [OpSet [65] [49] false; OpSet [66] [50] false; OpSet [65] [51] false; OpSet [65] [52] true; OpGet [65];
   OpRemove [65]; OpHas [65]; OpGet [66]; OpSize].

Lemma strdict_refines_map_witness :
  exists d, dict_run dict_demo ds_strdict_create = Some ((map_run dict_demo ∅).1, d) /\
    implements d (map_run dict_demo ∅).2.
Proof. apply (strdict_refines_map dict_demo). by_vm. Defined.

(** The environment dumped from a dictionary whose keys have no equals sign, read
    back, gives a dictionary with the same contents. *)
Theorem strdict_environ_roundtrip d m :
  implements d m -> (forall k, is_Some (m !! k) -> EQUALS ∉ k) ->
  exists env d', ds_strdict_dump_environ (Some d) = Some (Some env) /\
    length env = size m /\
    ds_strdict_create_environ (Some env) = Some d' /\ implements d' m.
Proof.
  intros (l & H & Hnd & ->) Hk. exists (entry_string <$> l).
  pose proof (holds_count _ _ H) as Hc. pose proof H as (C & K & _).
  destruct (create_environ_spec (entry_string <$> l)) as (d' & Ed & H'); [rewrite length_fmap; lia|].
  exists d'. split; [by apply dump_spec|].
  rewrite <- length_map_to_list, map_to_list_to_map, !length_fmap by done.
  split; [done|]. split; [done|]. rewrite parse_dump in H'; [by exists l|].
  intros k Hin. apply Hk. destruct (key_cases l k Hnd) as [[Hn _]|(l1 & v & l2 & -> & _ & _ & ->)]; [done|by eexists].
Qed.

Definition env_demo : ds_strdict := mk_strdict 2 1 (Some [Str [65]; Str [49; 61]; Undef; Null]).

Lemma strdict_environ_roundtrip_witness :
  exists env d', ds_strdict_dump_environ (Some env_demo) = Some (Some env) /\
    length env = size ({[ [65] := [49; 61] ]} : gmap cstring cstring) /\
    ds_strdict_create_environ (Some env) = Some d' /\ implements d' {[ [65] := [49; 61] ]}.
Proof.
  apply (strdict_environ_roundtrip env_demo).
  - exists [([65], [49; 61])]. split; [|split; [apply NoDup_singleton|done]].
    split; [done|]. split; [by_vm|]. split; [done|]. by exists [Undef; Null].
  - intros k [v [<- _]%lookup_singleton_Some]. apply not_elem_of_cons. split; [done|apply not_elem_of_nil].
Defined.

(** A dictionary read from an environment that gives a variable twice holds both
    pairs: the first value is found, and after the removal of the key the second
    one still is. *)
Theorem strdict_environ_duplicates k v w :
  EQUALS ∉ k ->
  exists d d', ds_strdict_create_environ (Some [entry_string (k, v); entry_string (k, w)]) = Some d /\
    ds_strdict_size (Some d) = 2 /\ ds_strdict_get (Some d) k = Some (DS_SUCCESS, Some v) /\
    ds_strdict_remove (Some d) k = Some (DS_SUCCESS, Some d') /\
    ds_strdict_get (Some d') k = Some (DS_SUCCESS, Some w).
Proof.
  intros Hk. destruct (create_environ_spec [entry_string (k, v); entry_string (k, w)]) as (d & -> & H); [done|].
  cbn [omap list_omap] in H. rewrite !parse_entry_string in H by done.
  destruct (remove_old d [] k v [(k, w)] H) as (d' & E & H' & _); [by intros ?%elem_of_nil|].
  exists d, d'. split; [done|]. split; [apply H|]. rewrite (get_spec _ _ k H), (get_spec _ _ k H'), E.
  simpl. by rewrite !lookup_insert_eq.
Qed.

Lemma strdict_environ_duplicates_witness :
  exists d d', ds_strdict_create_environ (Some [entry_string ([65], [49]); entry_string ([65], [50])]) = Some d /\
    ds_strdict_size (Some d) = 2 /\ ds_strdict_get (Some d) [65] = Some (DS_SUCCESS, Some [49]) /\
    ds_strdict_remove (Some d) [65] = Some (DS_SUCCESS, Some d') /\
    ds_strdict_get (Some d') [65] = Some (DS_SUCCESS, Some [50]).
Proof.
  apply (strdict_environ_duplicates [65] [49] [50]).
  apply not_elem_of_cons. split; [done|apply not_elem_of_nil].
Defined.
