(* ===== verification/Vfs.v ===== *)
(** The virtual file system: a model of [src/kernel/kernel/vfs/vfs.c].

    Directory entries, inodes and file handles are objects with numbers, 0 being
    [NULL].  Entries and handles are kept in finite maps: an object that was freed
    is not in its map, and an operation that uses one returns [None].  The
    operations of a file system are function pointers in the inode, as in the
    code; what a pointer does is a parameter of the model (class [FsCalls]), whose
    laws (class [FsLaws] in VfsSpec) the theorems rely on; Initrd is an instance.  New objects get new
    numbers; [kmalloc] succeeds, as the code assumes. *)

From S2P Require Import Prelude Errno StrDict.
From Stdlib Require Import ZArith Lia Bool.
From stdpp Require Import base tactics numbers list gmap.
Open Scope Z_scope.

(** ** Constants *)

Definition O_RDONLY : Z := 0x01.
Definition O_WRONLY : Z := 0x02.
Definition O_RDWR : Z := 0x04.
Definition O_TRUNC : Z := 0x08.
Definition O_CREAT : Z := 0x10.
Definition O_APPEND : Z := 0x20.
Definition O_DIRECTORY : Z := 0x40.

Definition VFS_TYPE_FILE : Z := 0x01.
Definition VFS_TYPE_DIRECTORY : Z := 0x02.
Definition VFS_TYPE_SYMLINK : Z := 0x04.
Definition VFS_TYPE_CHARACTER_DEVICE : Z := 0x08.
Definition VFS_TYPE_BLOCK_DEVICE : Z := 0x10.
Definition VFS_TYPE_FIFO : Z := 0x20.

Definition VFS_MAX_PATH_LENGTH : Z := 4096.
Definition VFS_MAX_FILENAME : Z := 256.
Definition VFS_FILE_HANDLE_REALLOC_SIZE : nat := 10.

(** Whether [flags] has a bit of [bits]. *)
Definition has (flags bits : Z) : bool := negb (Z.land flags bits =? 0).

(** The characters of the [DT_] constants. *)
Definition vfs_type_to_dirent (type : Z) : Z :=
  if type =? VFS_TYPE_FILE then 82 else
  if type =? VFS_TYPE_DIRECTORY then 68 else
  if type =? VFS_TYPE_SYMLINK then 76 else
  if type =? VFS_TYPE_CHARACTER_DEVICE then 67 else
  if type =? VFS_TYPE_BLOCK_DEVICE then 66 else
  if type =? VFS_TYPE_FIFO then 70 else 85.

(** ** State *)

Record dentry := mk_dentry { d_name : cstring; d_parent : Z; d_inode : Z }.

Record vfs_file := mk_file {
  f_dentry : Z; f_id : Z; f_offset : Z; f_readable : bool; f_writeable : bool;
  f_metadata : Z; f_refcount : Z }.

(** The function pointers of an inode. *)
Inductive node_op :=
| OnRelease | OpenNode | CloseNode | ReadNode | WriteNode | ReaddirNode | FinddirNode
| MkdirNode | MkfileNode | IoctlNode | SyncNode | StatNode | ReadlinkNode | TruncateNode.

#[global] Instance node_op_eq_dec : EqDecision node_op.
Proof. solve_decision. Defined.

Record vfs_node := mk_node {
  n_filename : cstring; n_type : Z; n_inode : Z; n_length : Z; n_permissions : Z;
  n_open_count : Z; n_ops : node_op -> Z; n_metadata : Z }.

Record dirent := mk_dirent { d_ino : Z; d_type : Z; dirent_name : cstring }.

(** [fs] is the state of the file systems. *)
Record vfs (F : Type) := mk_vfs {
  dentries : gmap Z dentry;
  nodes : Z -> vfs_node;
  files : gmap Z vfs_file;
  file_handles : list Z;
  file_handles_open_count : Z;
  root_content : list (cstring * Z);
  vfs_root : Z;
  next_object : Z;
  fs : F }.
Arguments mk_vfs {F}.
Arguments dentries {F}.
Arguments nodes {F}.
Arguments files {F}.
Arguments file_handles {F}.
Arguments file_handles_open_count {F}.
Arguments root_content {F}.
Arguments vfs_root {F}.
Arguments next_object {F}.
Arguments fs {F}.

Definition set_offset o f :=
  mk_file (f_dentry f) (f_id f) o (f_readable f) (f_writeable f) (f_metadata f) (f_refcount f).
Definition set_refcount n f :=
  mk_file (f_dentry f) (f_id f) (f_offset f) (f_readable f) (f_writeable f) (f_metadata f) n.
Definition set_f_metadata v f :=
  mk_file (f_dentry f) (f_id f) (f_offset f) (f_readable f) (f_writeable f) v (f_refcount f).
Definition set_open_count n x :=
  mk_node (n_filename x) (n_type x) (n_inode x) (n_length x) (n_permissions x) n (n_ops x) (n_metadata x).

Section State.
Context {F : Type}.
Implicit Types s : vfs F.

Definition set_dentries d s := mk_vfs d (nodes s) (files s) (file_handles s) (file_handles_open_count s)
  (root_content s) (vfs_root s) (next_object s) (fs s).
Definition set_node x n s := mk_vfs (dentries s) (nodes s).[x <- n] (files s) (file_handles s)
  (file_handles_open_count s) (root_content s) (vfs_root s) (next_object s) (fs s).
Definition set_files f s := mk_vfs (dentries s) (nodes s) f (file_handles s) (file_handles_open_count s)
  (root_content s) (vfs_root s) (next_object s) (fs s).
Definition set_handles l n s := mk_vfs (dentries s) (nodes s) (files s) l n
  (root_content s) (vfs_root s) (next_object s) (fs s).
Definition set_root_content l s := mk_vfs (dentries s) (nodes s) (files s) (file_handles s)
  (file_handles_open_count s) l (vfs_root s) (next_object s) (fs s).
Definition set_next n s := mk_vfs (dentries s) (nodes s) (files s) (file_handles s)
  (file_handles_open_count s) (root_content s) (vfs_root s) n (fs s).
Definition set_root r s := mk_vfs (dentries s) (nodes s) (files s) (file_handles s)
  (file_handles_open_count s) (root_content s) r (next_object s) (fs s).
Definition set_fs (v : F) s : vfs F := mk_vfs (dentries s) (nodes s) (files s) (file_handles s)
  (file_handles_open_count s) (root_content s) (vfs_root s) (next_object s) v.

(** A new object. *)
Definition new_dentry (d : dentry) s : Z * vfs F :=
  (next_object s, set_next (next_object s + 1) (set_dentries (<[next_object s := d]> (dentries s)) s)).
Definition new_node (n : vfs_node) s : Z * vfs F :=
  (next_object s, set_next (next_object s + 1) (set_node (next_object s) n s)).
Definition new_file (f : vfs_file) s : Z * vfs F :=
  (next_object s, set_next (next_object s + 1) (set_files (<[next_object s := f]> (files s)) s)).

(** [file->dentry->inode] *)
Definition file_node (file : Z) s : option Z :=
  f ← files s !! file; d ← dentries s !! f_dentry f; Some (d_inode d).

(** [*file = g *file] *)
Definition update_file (file : Z) (g : vfs_file -> vfs_file) s : option (vfs F) :=
  f ← files s !! file; Some (set_files (<[file := g f]> (files s)) s).

End State.

(** ** The calls of file systems

    The first argument of each is the function pointer. *)
Class FsCalls (F : Type) := {
  call_open : Z -> Z -> Z -> Z -> vfs F -> Z * vfs F;
  call_close : Z -> Z -> Z -> vfs F -> vfs F;
  call_release : Z -> Z -> vfs F -> vfs F;
  call_truncate : Z -> Z -> vfs F -> Z * vfs F;
  (** pointer, file, offset, size; the bytes read go to the buffer *)
  call_read : Z -> Z -> Z -> Z -> vfs F -> Z * list Z * vfs F;
  (** pointer, file, offset and the bytes to write *)
  call_write : Z -> Z -> Z -> list Z -> vfs F -> Z * vfs F;
  call_readdir : Z -> Z -> Z -> vfs F -> option dirent;
  call_finddir : Z -> Z -> cstring -> vfs F -> Z * vfs F;
  call_mkdir : Z -> Z -> cstring -> vfs F -> Z * vfs F;
  call_mkfile : Z -> Z -> cstring -> vfs F -> Z * vfs F;
  (** the result and the bytes stored in the buffer *)
  call_readlink : Z -> Z -> Z -> vfs F -> Z * list Z;
  call_stat : Z -> Z -> vfs F -> Z;
  call_sync : Z -> Z -> vfs F -> vfs F }.

Section Vfs.
Context {F : Type} `{!FsCalls F}.
Implicit Types s : vfs F.

(** ** File handles *)

Definition new_handle (dentry mode length : Z) : vfs_file :=
  mk_file dentry 0 (if has mode O_APPEND then length else 0)
    (has mode (Z.lor O_RDONLY O_RDWR)) (has mode (Z.lor O_WRONLY O_RDWR)) 0 1.

Definition set_id (i : Z) (f : vfs_file) : vfs_file :=
  mk_file (f_dentry f) i (f_offset f) (f_readable f) (f_writeable f) (f_metadata f) (f_refcount f).

Definition allocate_file_handle (dentry mode : Z) s : option (Z * vfs F) :=
  d ← dentries s !! dentry;
  let '(handle, s) := new_file (new_handle dentry mode (n_length (nodes s (d_inode d)))) s in
  if file_handles_open_count s =? Z.of_nat (length (file_handles s)) then
    let i := file_handles_open_count s in
    let table := file_handles s ++ replicate VFS_FILE_HANDLE_REALLOC_SIZE 0 in
    let s := set_handles (<[Z.to_nat i := handle]> table) (u32 (i + 1)) s in
    s ← update_file handle (set_id i) s;
    Some (handle, s)
  else
    match list_find (fun h => h = 0) (file_handles s) with
    | None => Some (handle, s)
    | Some (i, _) =>
        let s := set_handles (<[i := handle]> (file_handles s)) (u32 (file_handles_open_count s + 1)) s in
        s ← update_file handle (set_id (Z.of_nat i)) s;
        Some (handle, s)
    end.

Definition deallocate_file_handle (handle : Z) s : option (vfs F) :=
  f ← files s !! handle;
  if decide (0 <= f_id f < Z.of_nat (length (file_handles s))) then
    let s := set_handles (<[Z.to_nat (f_id f) := 0]> (file_handles s)) (u32 (file_handles_open_count s - 1)) s in
    Some (set_files (delete handle (files s)) s)
  else None.

Definition vfs_close (file : Z) s : option (vfs F) :=
  if file =? 0 then Some s else
  s ← update_file file (fun f => set_refcount (i32 (f_refcount f - 1)) f) s;
  f ← files s !! file;
  if negb (f_refcount f =? 0) then Some s else
  node ← file_node file s;
  let close_node := n_ops (nodes s node) CloseNode in
  let s := if close_node =? 0 then s else call_close close_node node file s in
  let s := set_node node (set_open_count (u32 (n_open_count (nodes s node) - 1)) (nodes s node)) s in
  let on_release := n_ops (nodes s node) OnRelease in
  let s := if (n_open_count (nodes s node) =? 0) && negb (on_release =? 0)
           then call_release on_release node s else s in
  deallocate_file_handle file s.

(** The handle, 0 with an error number. *)
Definition vfs_open (dentry mode : Z) s : option (Z * Z * vfs F) :=
  let mode := u8 mode in
  d ← dentries s !! dentry;
  let node := d_inode d in
  if has (n_type (nodes s node)) VFS_TYPE_DIRECTORY
     && has mode (Z.lor (Z.lor (Z.lor (Z.lor O_WRONLY O_RDWR) O_APPEND) O_CREAT) O_TRUNC)
  then Some (0, EINVAL, s) else
  if negb (has (n_type (nodes s node)) VFS_TYPE_DIRECTORY) && has mode O_DIRECTORY
  then Some (0, ENOTDIR, s) else
  let s := set_node node (set_open_count (u32 (n_open_count (nodes s node) + 1)) (nodes s node)) s in
  '(handle, s) ← allocate_file_handle dentry mode s;
  let open_node := n_ops (nodes s node) OpenNode in
  let '(res, s) := if open_node =? 0 then (0, s) else call_open open_node node handle mode s in
  if negb (res =? 0) then
    s ← vfs_close handle s;
    Some (0, res, s)
  else
    let truncate_node := n_ops (nodes s node) TruncateNode in
    if has mode O_TRUNC && negb (truncate_node =? 0) then
      let '(res, s) := call_truncate truncate_node handle s in
      if negb (res =? 0) then
        s ← vfs_close handle s;
        Some (0, res, s)
      else
        s ← update_file handle (set_offset 0) s;
        Some (handle, 0, s)
    else Some (handle, 0, s).

Definition vfs_bump_refcount (file : Z) s : option (vfs F) :=
  if file =? 0 then Some s else update_file file (fun f => set_refcount (i32 (f_refcount f + 1)) f) s.

(** ** Reading and writing *)

Definition u64_add (a b : Z) : Z := (a + b) mod 2 ^ 64.

(** The result as [size_t], the bytes read, and the state. *)
Definition vfs_read (file size : Z) s : option (Z * list Z * vfs F) :=
  f ← files s !! file;
  node ← file_node file s;
  if has (n_type (nodes s node)) VFS_TYPE_DIRECTORY then Some (u32 (- EISDIR), [], s) else
  let read_node := n_ops (nodes s node) ReadNode in
  if read_node =? 0 then Some (0, [], s) else
  let '(bytes, data, s) := call_read read_node file (u32 (f_offset f)) size s in
  s ← (if 0 <? bytes then update_file file (fun f => set_offset (u64_add (f_offset f) bytes) f) s else Some s);
  Some (bytes, data, s).

Definition vfs_seek (file offset : Z) s : option (vfs F) := update_file file (set_offset offset) s.

Definition vfs_write (file : Z) (data : list Z) s : option (Z * vfs F) :=
  f ← files s !! file;
  node ← file_node file s;
  if has (n_type (nodes s node)) VFS_TYPE_DIRECTORY then Some (u32 (- EISDIR), s) else
  let write_node := n_ops (nodes s node) WriteNode in
  if write_node =? 0 then Some (0, s) else
  let '(bytes, s) := call_write write_node file (u32 (f_offset f)) data s in
  s ← (if 0 <? bytes then update_file file (fun f => set_offset (u64_add (f_offset f) bytes) f) s else Some s);
  Some (bytes, s).

(** ** Directories *)

(** The functions [root_finddir] and [root_readdir] as pointers. *)
Definition ROOT_FINDDIR : Z := -1.
Definition ROOT_READDIR : Z := -2.

(** The inode of the first entry called [name], 0 without one. *)
Definition root_finddir (name : cstring) s : option Z :=
  match list_find (fun p => name = p.1) (root_content s) with
  | None => Some 0
  | Some (_, p) => d ← dentries s !! p.2; Some (d_inode d)
  end.

Definition root_readdir (index : Z) s : option (option dirent) :=
  if Z.of_nat (length (root_content s)) <=? index then Some None else
  p ← root_content s !! Z.to_nat index;
  d ← dentries s !! p.2;
  let n := nodes s (d_inode d) in
  if VFS_MAX_FILENAME <=? slen p.1 then None else
  Some (Some (mk_dirent (n_inode n) (vfs_type_to_dirent (n_type n)) p.1)).

(** [strncpy] into a name. *)
Definition dentry_name (name : cstring) : cstring := take (Z.to_nat (VFS_MAX_FILENAME - 1)) name.

Definition vfs_dentry_create (parent : Z) (name : cstring) (inode : Z) s : Z * vfs F :=
  new_dentry (mk_dentry (dentry_name name) parent inode) s.

Definition vfs_readdir (dentry index : Z) s : option (option dirent) :=
  d ← dentries s !! dentry;
  let inode := nodes s (d_inode d) in
  if negb (has (n_type inode) VFS_TYPE_DIRECTORY) then Some None else
  let readdir_node := n_ops inode ReaddirNode in
  if readdir_node =? 0 then Some None else
  if readdir_node =? ROOT_READDIR then root_readdir index s
  else Some (call_readdir readdir_node (d_inode d) index s).

(** The call of [inode->finddir_node]. *)
Definition finddir_inode (inode : Z) (name : cstring) s : option (Z * vfs F) :=
  let finddir_node := n_ops (nodes s inode) FinddirNode in
  if finddir_node =? ROOT_FINDDIR then r ← root_finddir name s; Some (r, s)
  else Some (call_finddir finddir_node inode name s).

(** The new entry, 0 if there is none. *)
Definition vfs_finddir (dentry : Z) (name : cstring) s : option (Z * vfs F) :=
  d ← dentries s !! dentry;
  let inode := nodes s (d_inode d) in
  if negb (has (n_type inode) VFS_TYPE_DIRECTORY) then Some (0, s) else
  if n_ops inode FinddirNode =? 0 then Some (0, s) else
  '(child_inode, s) ← finddir_inode (d_inode d) name s;
  if child_inode =? 0 then Some (0, s) else
  Some (new_dentry (mk_dentry (dentry_name name) dentry child_inode) s).

(** The fields that [vfs_populate_node] sets; [mkfile_node] is not among them.  The
    name is copied with [strcpy], which must not leave the field. *)
Definition vfs_populate_node (filename : cstring) (type : Z) (n : vfs_node) : option vfs_node :=
  if slen filename <? VFS_MAX_FILENAME
  then Some (mk_node filename type 0 0 0 0 (fun op => if decide (op = MkfileNode) then n_ops n op else 0) 0)
  else None.

(** The memory [kmalloc_flags(sizeof(vfs_node_t), KMALLOC_ZERO)] returns. *)
Definition zero_node : vfs_node := mk_node [] 0 0 0 0 0 (fun _ => 0) 0.

Definition set_op (op : node_op) (v : Z) (n : vfs_node) : vfs_node :=
  mk_node (n_filename n) (n_type n) (n_inode n) (n_length n) (n_permissions n) (n_open_count n)
    (fun o => if decide (o = op) then v else n_ops n o) (n_metadata n).

Definition vfs_init s : option (vfs F) :=
  n ← vfs_populate_node [] VFS_TYPE_DIRECTORY zero_node;
  let n := set_op ReaddirNode ROOT_READDIR n in
  let n := set_op FinddirNode ROOT_FINDDIR n in
  let '(root_inode, s) := new_node n s in
  let '(root, s) := new_dentry (mk_dentry [] (next_object s) root_inode) s in
  Some (set_root root s).

Definition add_entry_to_root_content (name : cstring) (dentry : Z) s : option (vfs F) :=
  d ← dentries s !! dentry;
  let n := nodes s (d_inode d) in
  let s := set_root_content (root_content s ++ [(name, dentry)]) s in
  Some (set_node (d_inode d) (set_open_count (u32 (n_open_count n + 1)) n) s).

Definition vfs_add_node (name : cstring) (inode : Z) s : option (Z * vfs F) :=
  if vfs_root s =? 0 then Some (0, s) else
  let '(dentry, s) := vfs_dentry_create (vfs_root s) name inode s in
  s ← add_entry_to_root_content name dentry s;
  Some (dentry, s).

(** The common body of [vfs_mkdir] and [vfs_mkfile]: [type], the operation of the
    parent and the call it makes. *)
Definition make_entry (type : Z) (op : node_op) (call : Z -> Z -> cstring -> vfs F -> Z * vfs F)
    (parent : Z) (name : cstring) s : option (Z * vfs F) :=
  if parent =? 0 then Some (ENOENT, s) else
  d ← dentries s !! parent;
  if negb (has (n_type (nodes s (d_inode d))) VFS_TYPE_DIRECTORY) then Some (ENOTDIR, s) else
  n ← vfs_populate_node name type zero_node;
  let '(inode, s) := new_node n s in
  let ptr := n_ops (nodes s (d_inode d)) op in
  let '(res, s) := if ptr =? 0 then (0, s) else call ptr (d_inode d) name s in
  if parent =? vfs_root s then
    let '(dentry, s) := vfs_dentry_create parent name inode s in
    s ← add_entry_to_root_content name dentry s;
    Some (res, s)
  else Some (res, s).

Definition vfs_mkdir : Z -> cstring -> vfs F -> option (Z * vfs F) :=
  make_entry VFS_TYPE_DIRECTORY MkdirNode call_mkdir.

Definition vfs_mkfile : Z -> cstring -> vfs F -> option (Z * vfs F) :=
  make_entry VFS_TYPE_FILE MkfileNode call_mkfile.

Definition vfs_dentry_unref (dentry : Z) s : option (vfs F) :=
  if (dentry =? 0) || (dentry =? vfs_root s) then Some s else
  d ← dentries s !! dentry;
  let inode := d_inode d in
  let s := set_dentries (delete dentry (dentries s)) s in
  let on_release := n_ops (nodes s inode) OnRelease in
  if negb (inode =? 0) && negb (on_release =? 0) && (n_open_count (nodes s inode) =? 0)
  then Some (call_release on_release inode s) else Some s.

Definition vfs_sync (file : Z) s : option (vfs F) :=
  if file =? 0 then Some s else
  f ← files s !! file;
  if f_dentry f =? 0 then Some s else
  node ← file_node file s;
  if node =? 0 then Some s else
  let sync_node := n_ops (nodes s node) SyncNode in
  if sync_node =? 0 then Some s else Some (call_sync sync_node file s).

(** The result and the bytes stored, with [buf] not [NULL]. *)
Definition vfs_readlink (dentry len : Z) s : option (Z * list Z) :=
  if dentry =? 0 then Some (- EINVAL, []) else
  d ← dentries s !! dentry;
  if d_inode d =? 0 then Some (- EINVAL, []) else
  let node := nodes s (d_inode d) in
  let readlink_node := n_ops node ReadlinkNode in
  if negb (n_type node =? VFS_TYPE_SYMLINK) || (readlink_node =? 0) then Some (- EINVAL, []) else
  if len =? 0 then Some (0, []) else
  Some (call_readlink readlink_node (d_inode d) len s).

Definition vfs_stat (dentry : Z) s : option Z :=
  if dentry =? 0 then Some ENOENT else
  d ← dentries s !! dentry;
  if d_inode d =? 0 then Some ENOENT else
  let stat_node := n_ops (nodes s (d_inode d)) StatNode in
  if stat_node =? 0 then Some ENOTSUP else Some (call_stat stat_node (d_inode d) s).

End Vfs.
