(* ===== verification/VfsSpec.v ===== *)
(** The virtual file system: the invariant of file handles, entries and inodes, and
    what each operation of Vfs does to it.

    [vinv s R D] says that the handle table lists exactly the open handles, that the
    reference count of each handle [h] is [R h], that every entry in use exists, and
    that the count of an inode [x] is the number of handles and root entries on it,
    but for [D x] handles that are being closed. *)

From S2P Require Import Prelude StrDict Errno Vfs.
From Stdlib Require Import ZArith Lia Bool.
From stdpp Require Import base tactics numbers list gmap.
Open Scope Z_scope.

(** ** Counting in finite maps *)

Section Count.
Context {A : Type}.

Definition mcount (P : A -> bool) (m : gmap Z A) : Z :=
  map_fold (fun _ a n => (if P a then 1 else 0) + n) 0 m.

Lemma mcount_insert P m k a :
  m !! k = None -> mcount P (<[k := a]> m) = (if P a then 1 else 0) + mcount P m.
Proof.
  intros H. unfold mcount. rewrite map_fold_insert_L; [done| |done].
  intros. destruct (P z1), (P z2); lia.
Qed.

Lemma mcount_delete P m k a :
  m !! k = Some a -> mcount P m = (if P a then 1 else 0) + mcount P (delete k m).
Proof.
  intros H. rewrite <- (insert_delete_id m k a H) at 1. apply mcount_insert, lookup_delete_eq.
Qed.

Lemma mcount_update P m k a b :
  m !! k = Some a -> P b = P a -> mcount P (<[k := b]> m) = mcount P m.
Proof.
  intros H E. rewrite (mcount_delete P m k a H), <- insert_delete_eq, mcount_insert, E; [done|].
  apply lookup_delete_eq.
Qed.

Lemma mcount_nonneg P m : 0 <= mcount P m.
Proof.
  induction m as [|k a m H IH] using map_ind; [done|]. rewrite mcount_insert by done. destruct (P a); lia.
Qed.

Lemma mcount_ext P Q m : (forall k a, m !! k = Some a -> P a = Q a) -> mcount P m = mcount Q m.
Proof.
  induction m as [|k a m H IH] using map_ind; intros E; [done|].
  rewrite !mcount_insert by done. rewrite (E k a) by apply lookup_insert_eq. f_equal. apply IH.
  intros k' a' H'. apply (E k'). rewrite lookup_insert_ne; [done|]. intros <-. congruence.
Qed.

Lemma mcount_pos P m : 0 < mcount P m -> exists k a, m !! k = Some a /\ P a = true.
Proof.
  induction m as [|k a m H IH] using map_ind; [by intros ?%Z.lt_irrefl|].
  rewrite mcount_insert by done. intros Hp. destruct (P a) eqn:E.
  - exists k, a. by rewrite lookup_insert_eq.
  - destruct IH as (k' & a' & H' & E'); [lia|]. exists k', a'. rewrite lookup_insert_ne; [done|].
    intros <-. congruence.
Qed.

End Count.

(** The number of entries of a list with a property. *)
Fixpoint lcount {A} (P : A -> bool) (l : list A) : Z :=
  match l with [] => 0 | x :: l => (if P x then 1 else 0) + lcount P l end.

Lemma lcount_app {A} P (l1 l2 : list A) : lcount P (l1 ++ l2) = lcount P l1 + lcount P l2.
Proof. induction l1; simpl; lia. Qed.

Lemma lcount_nonneg {A} P (l : list A) : 0 <= lcount P l.
Proof. induction l as [|x l IH]; simpl; [lia|]. destruct (P x); lia. Qed.

Lemma lcount_le {A} P (l : list A) : lcount P l <= Z.of_nat (length l).
Proof. induction l as [|x l IH]; simpl; [lia|]. destruct (P x); lia. Qed.

Lemma lcount_insert {A} P (l : list A) i x y :
  l !! i = Some x ->
  lcount P (<[i := y]> l) = lcount P l - (if P x then 1 else 0) + (if P y then 1 else 0).
Proof.
  revert i. induction l as [|z l IH]; intros [|i] H; simpl in *; simplify_eq; [lia|].
  rewrite (IH i H). lia.
Qed.

Lemma lcount_zero {A} P (l : list A) : (forall x, x ∈ l -> P x = false) -> lcount P l = 0.
Proof.
  induction l as [|x l IH]; intros H; simpl; [done|]. rewrite H by left. rewrite IH; [done|].
  intros y Hy. apply H. by right.
Qed.

Lemma lcount_full {A} P (l : list A) : (forall x, x ∈ l -> P x = true) -> lcount P l = Z.of_nat (length l).
Proof.
  induction l as [|x l IH]; intros H; simpl; [done|]. rewrite H by left. rewrite IH; [lia|].
  intros y Hy. apply H. by right.
Qed.

Lemma lcount_ext {A} P Q (l : list A) : (forall x, x ∈ l -> P x = Q x) -> lcount P l = lcount Q l.
Proof.
  induction l as [|x l IH]; intros H; simpl; [done|]. rewrite H by left. f_equal. apply IH.
  intros y Hy. apply H. by right.
Qed.

(** ** What file systems may change *)

(** The objects the file systems refer to have numbers below the next one. *)
Class FsOk (F : Type) := {
  fs_ok : F -> Z -> Prop;
  fs_ok_mono v a b : a <= b -> fs_ok v a -> fs_ok v b }.

Section Spec.
Context {F : Type} `{!FsOk F}.
Implicit Types s : vfs F.

(** Equality but for the field [metadata]. *)
Definition same_file (f f' : vfs_file) : Prop := set_f_metadata 0 f = set_f_metadata 0 f'.
Definition same_files (m m' : gmap Z vfs_file) : Prop :=
  forall h, set_f_metadata 0 <$> m !! h = set_f_metadata 0 <$> m' !! h.

(** A file system keeps the tables of the VFS and the counts; it may make new inodes. *)
Record kept s s' : Prop := {
  kept_dentries : dentries s' = dentries s;
  kept_files : same_files (files s) (files s');
  kept_handles : file_handles s' = file_handles s;
  kept_count : file_handles_open_count s' = file_handles_open_count s;
  kept_content : root_content s' = root_content s;
  kept_root : vfs_root s' = vfs_root s;
  kept_next : next_object s <= next_object s';
  kept_open x : x < next_object s \/ n_open_count (nodes s x) = 0 ->
    n_open_count (nodes s' x) = n_open_count (nodes s x);
  kept_fs : fs_ok (fs s) (next_object s) -> fs_ok (fs s') (next_object s') }.

Lemma kept_refl s : kept s s.
Proof. split; try done; intros; lia. Qed.

(** ** Invariants *)

(** Every entry has a number in use, an inode and an existing parent, if any. *)
Definition dentries_ok s : Prop :=
  0 < next_object s /\
  forall x d, dentries s !! x = Some d ->
    0 < x < next_object s /\ 0 < d_inode d < next_object s /\
    (d_parent d = 0 \/ is_Some (dentries s !! d_parent d)).

Definition dentry_node s (x : Z) : Z := from_option d_inode 0 (dentries s !! x).

(** The handles and root entries on an inode. *)
Definition node_refs s (x : Z) : Z :=
  mcount (fun f => dentry_node s (f_dentry f) =? x) (files s) +
  lcount (fun p => dentry_node s p.2 =? x) (root_content s).

Definition nonzero (h : Z) : bool := negb (h =? 0).

Record table_ok s : Prop := {
  tab_count : file_handles_open_count s = lcount nonzero (file_handles s);
  tab_length : Z.of_nat (length (file_handles s)) <= 2 ^ 31;
  tab_files h f : files s !! h = Some f ->
    0 <= f_id f /\ file_handles s !! Z.to_nat (f_id f) = Some h;
  tab_slots i h : file_handles s !! i = Some h -> h <> 0 ->
    exists f, files s !! h = Some f /\ f_id f = Z.of_nat i }.

Record vinv s (R D : Z -> Z) : Prop := {
  inv_dentries : dentries_ok s;
  inv_table : table_ok s;
  inv_file h f : files s !! h = Some f ->
    0 < h < next_object s /\ is_Some (dentries s !! f_dentry f) /\ f_refcount f = R h;
  inv_free h : files s !! h = None -> R h = 0;
  inv_content p : p ∈ root_content s -> is_Some (dentries s !! p.2);
  inv_closing x : next_object s <= x -> D x = 0;
  inv_refs x : n_open_count (nodes s x) = node_refs s x - D x;
  inv_fs : fs_ok (fs s) (next_object s) }.

(** Nothing is being closed. *)
Definition settled : Z -> Z := fun _ => 0.

(** Few enough handles and entries for the counters. *)
Definition small s : Prop :=
  file_handles_open_count s + Z.of_nat (length (root_content s)) + 10 < 2 ^ 31.

(** *** Files up to their metadata *)

Lemma same_files_None m m' h : same_files m m' -> m !! h = None -> m' !! h = None.
Proof. intros H E. specialize (H h). rewrite E in H. by destruct (m' !! h). Qed.

Lemma same_files_Some m m' h f :
  same_files m m' -> m' !! h = Some f -> exists f0, m !! h = Some f0 /\ same_file f0 f.
Proof.
  intros H E. specialize (H h). rewrite E in H. destruct (m !! h) as [f0|]; [|done].
  exists f0. split; [done|]. by apply (inj Some) in H.
Qed.

Lemma same_files_sym m m' : same_files m m' -> same_files m' m.
Proof. intros H h. by rewrite H. Qed.

Lemma same_file_fields f f' :
  same_file f f' -> f_dentry f' = f_dentry f /\ f_id f' = f_id f /\ f_refcount f' = f_refcount f.
Proof. destruct f, f'. unfold same_file. cbn. by intros [=]. Qed.

Lemma mcount_same P m m' :
  (forall f f', same_file f f' -> P f = P f') -> same_files m m' -> mcount P m = mcount P m'.
Proof.
  intros HP. revert m'. induction m as [|k a m Hk IH] using map_ind; intros m' H.
  - replace m' with (∅ : gmap Z vfs_file); [done|]. apply map_eq. intros i.
    rewrite lookup_empty. symmetry. eapply same_files_None; [exact H|]. apply lookup_empty.
  - pose proof (H k) as Hk'. rewrite lookup_insert_eq in Hk'. simpl in Hk'.
    destruct (m' !! k) as [a'|] eqn:E; [|done]. simpl in Hk'. apply (inj Some) in Hk' as Ha.
    rewrite mcount_insert by done. rewrite (mcount_delete P m' k a' E), (HP a a' Ha). f_equal. apply IH.
    intros i. destruct (decide (i = k)) as [->|Hne].
    + by rewrite lookup_delete_eq, Hk.
    + rewrite lookup_delete_ne by done. rewrite <- (H i), lookup_insert_ne by done. done.
Qed.

Lemma kept_refs s s' x : kept s s' -> node_refs s' x = node_refs s x.
Proof.
  intros K. unfold node_refs. rewrite (kept_content _ _ K).
  assert (forall y, dentry_node s' y = dentry_node s y) as E.
  { intros y. unfold dentry_node. by rewrite (kept_dentries _ _ K). }
  f_equal.
  - rewrite <- (mcount_same _ (files s)); [|intros f f' (-> & _)%same_file_fields; done|apply K].
    apply mcount_ext. intros. by rewrite E.
  - apply lcount_ext. intros. by rewrite E.
Qed.

(** An inode that was never made has no handles and entries. *)
Lemma node_refs_new s R D x : vinv s R D -> next_object s <= x -> node_refs s x = 0.
Proof.
  intros I Hx. unfold node_refs.
  assert (forall y, is_Some (dentries s !! y) -> (dentry_node s y =? x) = false) as E.
  { intros y [d Hd]. unfold dentry_node. rewrite Hd. cbn. apply Z.eqb_neq.
    destruct (inv_dentries _ _ _ I) as [_ H]. destruct (H y d Hd) as (_ & ? & _). lia. }
  rewrite lcount_zero.
  - rewrite (mcount_ext _ (fun _ => false)).
    + induction (files s) as [|k a m Hk IH] using map_ind; [done|]. rewrite mcount_insert by done. lia.
    + intros h f Hf. apply E. by apply (inv_file _ _ _ I h f).
  - intros p Hp. apply E. by apply (inv_content _ _ _ I).
Qed.

Lemma kept_vinv s s' R D : vinv s R D -> kept s s' -> vinv s' R D.
Proof.
  intros I K. pose proof (kept_next _ _ K) as Hn. split.
  - destruct (inv_dentries _ _ _ I) as [H0 H]. split; [lia|]. rewrite (kept_dentries _ _ K).
    intros x d Hd. destruct (H x d Hd) as (? & ? & ?). repeat split; try lia; done.
  - destruct (inv_table _ _ _ I) as [T1 T2 T3 T4].
    split; rewrite ?(kept_handles _ _ K), ?(kept_count _ _ K); try done.
    + intros h f (f0 & Hf & E)%(same_files_Some _ _ _ _ (kept_files _ _ K)).
      destruct (same_file_fields _ _ E) as (_ & -> & _). by apply T3.
    + intros i h Hi Hh. destruct (T4 i h Hi Hh) as (f0 & Hf & Hid).
      destruct (same_files_Some _ _ h f0 (same_files_sym _ _ (kept_files _ _ K)) Hf) as (f1 & H1 & E).
      destruct (same_file_fields _ _ E) as (_ & Eid & _). exists f1. split; [done|congruence].
  - intros h f (f0 & Hf & E)%(same_files_Some _ _ _ _ (kept_files _ _ K)).
    destruct (same_file_fields _ _ E) as (-> & _ & ->). destruct (inv_file _ _ _ I h f0 Hf) as (? & ? & ?).
    rewrite (kept_dentries _ _ K). repeat split; try done; lia.
  - intros h Hh. apply (inv_free _ _ _ I). eapply same_files_None; [|exact Hh]. apply same_files_sym, K.
  - rewrite (kept_content _ _ K), (kept_dentries _ _ K). apply I.
  - intros x Hx. apply (inv_closing _ _ _ I). lia.
  - intros x. rewrite (kept_refs s s' x K), (kept_open _ _ K x); [apply I|].
    destruct (Z_lt_le_dec x (next_object s)) as [Hlt|Hge]; [by left|right].
    by rewrite (inv_refs _ _ _ I x), (node_refs_new s R D x I Hge), (inv_closing _ _ _ I x Hge).
  - apply (kept_fs _ _ K), I.
Qed.

End Spec.

(** The documented behaviour of file systems. *)
Class FsLaws (F : Type) `{!FsCalls F} `{!FsOk F} := {
  open_kept p n f mode (s : vfs F) : kept s (call_open p n f mode s).2;
  close_kept p n f (s : vfs F) : kept s (call_close p n f s);
  release_kept p n (s : vfs F) : kept s (call_release p n s);
  truncate_kept p f (s : vfs F) : kept s (call_truncate p f s).2;
  read_kept p f off size (s : vfs F) : kept s (call_read p f off size s).2;
  write_kept p f off data (s : vfs F) : kept s (call_write p f off data s).2;
  mkdir_kept p n name (s : vfs F) : kept s (call_mkdir p n name s).2;
  mkfile_kept p n name (s : vfs F) : kept s (call_mkfile p n name s).2;
  finddir_kept p n name (s : vfs F) : kept s (call_finddir p n name s).2;
  finddir_node p n name (s : vfs F) : 0 < next_object s -> fs_ok (fs s) (next_object s) ->
    0 <= (call_finddir p n name s).1 < next_object (call_finddir p n name s).2 }.

(** ** Handles *)

Section Handles.
Context {F : Type} `{!FsOk F}.
Implicit Types s : vfs F.

(** The counts after a new handle on [node]. *)
Lemma node_refs_insert s h f x :
  files s !! h = None ->
  mcount (fun f => dentry_node s (f_dentry f) =? x) (<[h := f]> (files s)) +
    lcount (fun p => dentry_node s p.2 =? x) (root_content s) =
  node_refs s x + (if dentry_node s (f_dentry f) =? x then 1 else 0).
Proof. intros H. unfold node_refs. rewrite mcount_insert by done. lia. Qed.

Lemma node_refs_bound s x : 0 <= node_refs s x.
Proof.
  unfold node_refs.
  pose proof (mcount_nonneg (fun f => dentry_node s (f_dentry f) =? x) (files s)).
  pose proof (lcount_nonneg (fun p => dentry_node s p.2 =? x) (root_content s)). lia.
Qed.

(** No more handles are open than the table counts. *)
Lemma mcount_slots (m : gmap Z vfs_file) (L : list Z) P :
  (forall h f, m !! h = Some f -> h <> 0 /\ 0 <= f_id f /\ L !! Z.to_nat (f_id f) = Some h) ->
  mcount P m <= lcount nonzero L.
Proof.
  revert L. induction m as [|k f m Hk IH] using map_ind; intros L H; [apply lcount_nonneg|].
  rewrite mcount_insert by done.
  destruct (H k f) as (H0 & H1 & H2); [apply lookup_insert_eq|].
  assert (mcount P m <= lcount nonzero (<[Z.to_nat (f_id f) := 0]> L)) as Hm.
  { apply IH. intros h g Hg. assert (h <> k) as Hne by congruence.
    destruct (H h g) as (G0 & G1 & G2); [by rewrite lookup_insert_ne|]. repeat split; try done.
    rewrite list_lookup_insert_ne; [done|]. intros E. rewrite E in H2. congruence. }
  rewrite (lcount_insert nonzero L _ k 0 H2) in Hm. unfold nonzero in *.
  rewrite (proj2 (Z.eqb_neq k 0) H0) in Hm. cbn in Hm. destruct (P f); lia.
Qed.

Lemma inv_slots s R D : vinv s R D -> forall h f, files s !! h = Some f ->
  h <> 0 /\ 0 <= f_id f /\ file_handles s !! Z.to_nat (f_id f) = Some h.
Proof.
  intros I h f Hf. destruct (inv_file _ _ _ I h f Hf) as (? & _).
  destruct (tab_files _ (inv_table _ _ _ I) h f Hf). repeat split; [lia|done|done].
Qed.

Lemma node_refs_small s R D x : vinv s R D -> small s -> node_refs s x + 10 < 2 ^ 31.
Proof.
  intros I Hs. unfold node_refs, small in *. rewrite (tab_count _ (inv_table _ _ _ I)) in Hs.
  pose proof (mcount_slots (files s) (file_handles s) (fun f => dentry_node s (f_dentry f) =? x) (inv_slots s R D I)).
  pose proof (lcount_le (fun p => dentry_node s p.2 =? x) (root_content s)). lia.
Qed.

(** The state after a new handle [f] in slot [i] of the table [L]. *)
Definition opened s (f : vfs_file) (i : nat) (L : list Z) : vfs F :=
  let h := next_object s in let node := dentry_node s (f_dentry f) in
  mk_vfs (dentries s)
    (nodes s).[node <- set_open_count (u32 (n_open_count (nodes s node) + 1)) (nodes s node)]
    (<[h := f]> (files s)) (<[i := h]> L) (u32 (file_handles_open_count s + 1))
    (root_content s) (vfs_root s) (h + 1) (fs s).

Lemma opened_vinv s R f i L :
  vinv s R settled -> small s -> is_Some (dentries s !! f_dentry f) ->
  f_id f = Z.of_nat i -> f_refcount f = 1 ->
  L !! i = Some 0 -> lcount nonzero L = lcount nonzero (file_handles s) ->
  Z.of_nat (length L) <= 2 ^ 31 ->
  (forall j h, h <> 0 -> file_handles s !! j = Some h <-> L !! j = Some h) ->
  vinv (opened s f i L) R.[next_object s <- 1] settled.
Proof.
  intros I Hs [d Hd] Hid Href Hi Hcount Hlen HL. pose proof (node_refs_small s R settled) as Hsm.
  pose proof (inv_dentries _ _ _ I) as [Hn0 Hden]. pose proof (inv_table _ _ _ I) as T.
  assert (files s !! next_object s = None) as Hnew.
  { destruct (files s !! next_object s) as [g|] eqn:E; [|done]. destruct (inv_file _ _ _ I _ _ E). lia. }
  assert (0 < dentry_node s (f_dentry f) < next_object s) as Hnode.
  { unfold dentry_node. rewrite Hd. cbn. by destruct (Hden _ _ Hd) as (_ & ? & _). }
  split.
  - split; [cbn; lia|]. cbn. intros x e He. destruct (Hden x e He) as (? & ? & ?). repeat split; try lia; done.
  - split; cbn.
    + rewrite (lcount_insert nonzero L i 0) by done. rewrite Hcount, <- (tab_count _ T). cbn.
      unfold nonzero. rewrite (proj2 (Z.eqb_neq _ 0)) by lia. cbn.
      pose proof (lcount_nonneg nonzero (file_handles s)) as Hc. rewrite <- (tab_count _ T) in Hc.
      unfold small in Hs. rewrite u32_small by lia. lia.
    + by rewrite length_insert.
    + intros h g Hg. destruct (decide (h = next_object s)) as [->|Hne].
      * rewrite lookup_insert_eq in Hg. simplify_eq. rewrite Hid, Nat2Z.id.
        split; [lia|]. apply list_lookup_insert_eq. by apply lookup_lt_Some in Hi.
      * rewrite lookup_insert_ne in Hg by done. destruct (inv_slots s R settled I h g Hg) as (H0 & H1 & H2).
        split; [done|]. apply HL in H2; [|done]. rewrite list_lookup_insert_ne; [done|].
        intros ->. congruence.
    + intros j h Hj Hh. apply list_lookup_insert_Some in Hj as [(-> & <- & _)|[_ Hj]].
      * exists f. by rewrite lookup_insert_eq.
      * apply HL in Hj; [|done]. destruct (tab_slots _ T j h Hj Hh) as (g & Hg & Hgi).
        exists g. rewrite lookup_insert_ne by congruence. done.
  - cbn. intros h g Hg. destruct (decide (h = next_object s)) as [->|Hne].
    + rewrite lookup_insert_eq in Hg. simplify_eq. rewrite upd_eq, Href, Hd. repeat split; try lia. by eexists.
    + rewrite lookup_insert_ne in Hg by done. rewrite upd_ne by done.
      destruct (inv_file _ _ _ I h g Hg) as (? & ? & ?). repeat split; try lia; done.
  - cbn. intros h Hh. apply lookup_insert_None in Hh as [Hh Hne]. rewrite upd_ne by done. by apply (inv_free _ _ _ I).
  - apply I.
  - done.
  - cbn. intros x. unfold node_refs. cbn [opened files root_content].
    change (dentry_node (opened s f i L)) with (dentry_node s). rewrite node_refs_insert by done.
    rewrite upd_cases. case_decide as E; cbn [set_open_count n_open_count].
    + subst x. rewrite Z.eqb_refl, (inv_refs _ _ _ I). specialize (Hsm (dentry_node s (f_dentry f)) I Hs).
      pose proof (node_refs_bound s (dentry_node s (f_dentry f))). unfold settled. rewrite u32_small; lia.
    + rewrite (proj2 (Z.eqb_neq _ _)) by done. rewrite Z.add_0_r. apply (inv_refs _ _ _ I).
  - cbn. eapply fs_ok_mono; [|apply I]. lia.
Qed.

Lemma update_file_eq h (g : vfs_file -> vfs_file) f s :
  files s !! h = Some f -> update_file h g s = Some (set_files (<[h := g f]> (files s)) s).
Proof. intros H. unfold update_file. by rewrite H. Qed.

(** Changing fields of a handle but its entry and slot. *)
Lemma update_file_vinv s R D h f g n :
  vinv s R D -> files s !! h = Some f ->
  f_dentry (g f) = f_dentry f -> f_id (g f) = f_id f -> f_refcount (g f) = n ->
  exists s', update_file h g s = Some s' /\ vinv s' R.[h <- n] D /\
    s' = set_files (<[h := g f]> (files s)) s.
Proof.
  intros I Hf Hd Hi Hn. unfold update_file. rewrite Hf. cbn [mbind option_bind].
  eexists. split; [done|]. split; [|done]. pose proof (inv_table _ _ _ I) as T. split.
  - apply I.
  - split; cbn; try apply T.
    + intros h' f' Hf'. destruct (decide (h' = h)) as [->|Hne].
      * rewrite lookup_insert_eq in Hf'. simplify_eq. rewrite Hi. by apply T.
      * rewrite lookup_insert_ne in Hf' by done. by apply T.
    + intros i h' Hi' Hh'. destruct (tab_slots _ T i h' Hi' Hh') as (f' & Hf' & Hid').
      destruct (decide (h' = h)) as [->|Hne]; [|exists f'; by rewrite lookup_insert_ne].
      exists (g f). rewrite lookup_insert_eq. split; [done|]. congruence.
  - cbn. intros h' f' Hf'. destruct (decide (h' = h)) as [->|Hne].
    + rewrite lookup_insert_eq in Hf'. simplify_eq. rewrite upd_eq, Hd.
      destruct (inv_file _ _ _ I h f Hf) as (? & ? & ?). done.
    + rewrite lookup_insert_ne in Hf' by done. rewrite upd_ne by done. by apply (inv_file _ _ _ I).
  - cbn. intros h' Hh'. apply lookup_insert_None in Hh' as [Hh' Hne]. rewrite upd_ne by done. by apply (inv_free _ _ _ I).
  - apply I.
  - apply I.
  - intros x. cbn. rewrite (inv_refs _ _ _ I x). unfold node_refs. cbn [files set_files root_content].
    rewrite (mcount_update _ _ h f); [done|done|]. by rewrite Hd.
  - apply I.
Qed.

(** A function that gives the same reference counts. *)
Lemma vinv_ext s R R' D : vinv s R D -> (forall h, R' h = R h) -> vinv s R' D.
Proof.
  intros I E. split; try apply I.
  - intros h f Hf. rewrite E. by apply (inv_file _ _ _ I).
  - intros h Hh. rewrite E. by apply (inv_free _ _ _ I).
Qed.

Lemma update_keeps s R D h f g :
  vinv s R D -> files s !! h = Some f ->
  f_dentry (g f) = f_dentry f -> f_id (g f) = f_id f -> f_refcount (g f) = f_refcount f ->
  exists s', update_file h g s = Some s' /\ vinv s' R D /\ s' = set_files (<[h := g f]> (files s)) s.
Proof.
  intros I Hf Hd Hi Hn. destruct (update_file_vinv s R D h f g _ I Hf Hd Hi Hn) as (s' & E & I' & Es).
  exists s'. split; [done|]. split; [|done]. apply (vinv_ext s' _ R D I').
  intros h'. rewrite upd_cases. case_decide; [|done]. subst. symmetry. by apply (inv_file _ _ _ I).
Qed.

(** *** Opening *)

Lemma free_slot (L : list Z) :
  lcount nonzero L <> Z.of_nat (length L) ->
  exists i, list_find (fun h => h = 0) L = Some (i, 0) /\ L !! i = Some 0.
Proof.
  intros H. destruct (list_find (fun h => h = 0) L) as [[i h]|] eqn:E.
  - pose proof E as (Hi & -> & _)%list_find_Some. by exists i.
  - apply list_find_None in E. rewrite Forall_forall in E. exfalso. apply H, lcount_full.
    intros x Hx. unfold nonzero. by rewrite (proj2 (Z.eqb_neq x 0)) by by apply E.
Qed.

(** What opening leaves alone. *)
Definition same_tree s s' : Prop :=
  dentries s' = dentries s /\ root_content s' = root_content s /\ vfs_root s' = vfs_root s /\
  next_object s <= next_object s'.

Lemma same_tree_refl s : same_tree s s.
Proof. repeat split; lia. Qed.

Lemma same_tree_trans s1 s2 s3 : same_tree s1 s2 -> same_tree s2 s3 -> same_tree s1 s3.
Proof. intros (A & B & C & D) (A' & B' & C' & D'). repeat split; [congruence..|lia]. Qed.

Lemma kept_tree s s' : kept s s' -> same_tree s s'.
Proof. intros K. repeat split; apply K. Qed.

(** Every handle is referred to. *)
Definition exact s (R : Z -> Z) : Prop := forall h, is_Some (files s !! h) -> 0 < R h.

Lemma kept_exact s s' R : kept s s' -> exact s R -> exact s' R.
Proof.
  intros K E h [f Hf]. destruct (same_files_Some _ _ _ _ (kept_files _ _ K) Hf) as (f0 & H0 & _).
  apply E. by eexists.
Qed.

Lemma allocate_spec s R dentry d mode :
  vinv s R settled -> small s -> dentries s !! dentry = Some d ->
  let node := d_inode d in
  let s1 := set_node node (set_open_count (u32 (n_open_count (nodes s node) + 1)) (nodes s node)) s in
  exists s' f, allocate_file_handle dentry mode s1 = Some (next_object s, s') /\
    vinv s' R.[next_object s <- 1] settled /\ same_tree s s' /\
    files s' = <[next_object s := f]> (files s) /\ f_dentry f = dentry.
Proof.
  intros I Hs Hd node s1. pose proof (inv_table _ _ _ I) as T.
  set (f0 := new_handle dentry mode (n_length (nodes s1 node))).
  assert (forall i L, L !! i = Some 0 -> lcount nonzero L = lcount nonzero (file_handles s) ->
    Z.of_nat (length L) <= 2 ^ 31 ->
    (forall j h, h <> 0 -> file_handles s !! j = Some h <-> L !! j = Some h) ->
    vinv (opened s (set_id (Z.of_nat i) f0) i L) R.[next_object s <- 1] settled) as Hop.
  { intros i L H1 H2 H3 H4. apply opened_vinv; try done. }
  assert (dentry_node s dentry = node) as Hnode by (unfold dentry_node; by rewrite Hd).
  assert (forall i L n, n = u32 (file_handles_open_count s + 1) ->
    update_file (next_object s) (set_id (Z.of_nat i)) (set_handles (<[i := next_object s]> L) n
      (set_next (next_object s + 1) (set_files (<[next_object s := f0]> (files s)) s1))) =
    Some (opened s (set_id (Z.of_nat i) f0) i L)) as Hup.
  { intros i L n ->. rewrite (update_file_eq _ _ f0) by apply lookup_insert_eq. f_equal.
    unfold opened. cbn [f_dentry set_id f0 new_handle]. rewrite Hnode.
    rewrite <- (insert_insert_eq (files s) (next_object s) (set_id (Z.of_nat i) f0) f0). done. }
  assert (forall i L, same_tree s (opened s (set_id (Z.of_nat i) f0) i L)) as Htree.
  { intros. repeat split; cbn; lia. }
  unfold allocate_file_handle. change (dentries s1) with (dentries s). rewrite Hd. cbn [mbind option_bind].
  fold node. fold f0. unfold new_file. cbv zeta iota beta.
  cbn [file_handles_open_count file_handles set_next set_files]. change (next_object s1) with (next_object s).
  change (files s1) with (files s). change (file_handles s1) with (file_handles s).
  change (file_handles_open_count s1) with (file_handles_open_count s).
  destruct (Z.eqb_spec (file_handles_open_count s) (Z.of_nat (length (file_handles s)))) as [E|E].
  - set (i := length (file_handles s)). rewrite E, Nat2Z.id. fold i.
    rewrite Hup by by rewrite E. cbn [mbind option_bind].
    eexists _, (set_id (Z.of_nat i) f0). split; [done|]. split; [|split; [apply Htree|done]]. apply Hop.
    + by rewrite lookup_app_r, Nat.sub_diag by done.
    + rewrite lcount_app. cbn. lia.
    + rewrite length_app. cbn. unfold small in Hs. lia.
    + intros j h Hh. split; [intros Hj; by apply lookup_app_l_Some|].
      intros [?|[_ Hj]]%lookup_app_Some; [done|]. apply lookup_replicate in Hj as [-> _]. done.
  - destruct (free_slot (file_handles s)) as (i & -> & Hi); [by rewrite <- (tab_count _ T)|].
    rewrite Hup by done. cbn [mbind option_bind].
    eexists _, (set_id (Z.of_nat i) f0). split; [done|]. split; [|split; [apply Htree|done]].
    apply Hop; try done. apply T.
Qed.

(** *** Closing *)

Lemma deallocate_spec s R D h f :
  vinv s R D -> files s !! h = Some f -> R h = 0 ->
  (forall x, D x = if dentry_node s (f_dentry f) =? x then 1 else 0) ->
  exists s', deallocate_file_handle h s = Some s' /\ vinv s' R settled /\ same_tree s s' /\
    files s' = delete h (files s).
Proof.
  intros I Hf HR HD. pose proof (inv_table _ _ _ I) as T. unfold deallocate_file_handle. rewrite Hf.
  cbn [mbind option_bind]. destruct (tab_files _ T h f Hf) as [H0 H1].
  destruct (inv_slots s R D I h f Hf) as (Hh0 & _).
  rewrite decide_True by (apply lookup_lt_Some in H1; lia).
  eexists. split; [done|]. split; [|split; [repeat split; cbn; lia|done]]. split.
  - apply I.
  - assert (lcount nonzero (file_handles s) - 1 = lcount nonzero (<[Z.to_nat (f_id f):=0]> (file_handles s))) as Hc.
    { rewrite (lcount_insert _ _ _ h) by done. unfold nonzero. rewrite (proj2 (Z.eqb_neq h 0)) by done. cbn. lia. }
    pose proof (tab_length _ T) as Hl.
    pose proof (lcount_nonneg nonzero (<[Z.to_nat (f_id f):=0]> (file_handles s))) as Hc0.
    pose proof (lcount_le nonzero (file_handles s)) as Hc1.
    split; cbn [file_handles file_handles_open_count set_files set_handles files].
    + rewrite (tab_count _ T), Hc, u32_small; lia.
    + by rewrite length_insert.
    + intros h' f' Hf'. apply lookup_delete_Some in Hf' as [Hne Hf'].
      destruct (tab_files _ T h' f' Hf') as [G0 G1]. split; [done|].
      rewrite list_lookup_insert_ne; [done|]. intros E. rewrite E in H1. congruence.
    + intros i h' Hi Hh'. apply list_lookup_insert_Some in Hi as [(_ & E0 & _)|[Hni Hi]]; [congruence|].
      destruct (tab_slots _ T i h' Hi Hh') as (f' & Hf' & Hid). rewrite lookup_delete_ne; [by exists f'|].
      intros <-. simplify_eq. apply Hni. lia.
  - cbn. intros h' f' Hf'. apply lookup_delete_Some in Hf' as [Hne Hf']. by apply (inv_file _ _ _ I).
  - cbn. intros h' Hh'. destruct (decide (h' = h)) as [->|Hne]; [done|].
    rewrite lookup_delete_ne in Hh' by done. by apply (inv_free _ _ _ I).
  - apply I.
  - done.
  - intros x. cbn. rewrite (inv_refs _ _ _ I x), HD. unfold node_refs, settled. cbn [files set_files set_handles root_content].
    change (dentry_node (set_files _ _)) with (dentry_node s).
    rewrite (mcount_delete _ (files s) h f Hf). lia.
  - apply I.
Qed.
End Handles.

(** ** The operations *)

Section Ops.
Context {F : Type} `{!FsCalls F} `{!FsOk F} `{!FsLaws F}.
Implicit Types s : vfs F.

(** Handles are counted exactly by [R]. *)
Definition open_ok s (R : Z -> Z) : Prop := vinv s R settled /\ exact s R.

Lemma open_ok_ext s R R' : open_ok s R -> (forall h, R' h = R h) -> open_ok s R'.
Proof.
  intros [I X] E. split; [by apply (vinv_ext s R)|]. intros h Hh. rewrite E. by apply X.
Qed.

Lemma kept_open_ok s s' R : open_ok s R -> kept s s' -> open_ok s' R.
Proof. intros [I X] K. split; [by apply (kept_vinv s)|by apply (kept_exact s)]. Qed.

Lemma open_file s R h : open_ok s R -> 0 < R h -> exists f, files s !! h = Some f /\ f_refcount f = R h /\
  0 < h /\ is_Some (dentries s !! f_dentry f).
Proof.
  intros [I _] H. destruct (files s !! h) as [f|] eqn:Hf.
  - exists f. destruct (inv_file _ _ _ I h f Hf) as (? & ? & ?). repeat split; try done; lia.
  - pose proof (inv_free _ _ _ I h Hf). lia.
Qed.

Lemma file_node_spec s h f : files s !! h = Some f -> is_Some (dentries s !! f_dentry f) ->
  file_node h s = Some (dentry_node s (f_dentry f)).
Proof. intros Hf [d Hd]. unfold file_node, dentry_node. rewrite Hf. cbn. by rewrite Hd. Qed.

(** Counting a handle of [node] out. *)
Lemma uncount_vinv s R node :
  vinv s R settled -> 0 < node_refs s node -> node_refs s node < 2 ^ 32 ->
  vinv (set_node node (set_open_count (u32 (n_open_count (nodes s node) - 1)) (nodes s node)) s) R
    (fun x => if node =? x then 1 else 0).
Proof.
  intros I H0 H1. split; try apply I.
  - destruct (inv_table _ _ _ I). by split.
  - intros x Hx. cbn in Hx. destruct (Z.eqb_spec node x) as [->|_]; [|done].
    rewrite (node_refs_new s R settled x I Hx) in H0. lia.
  - intros x. cbn. change (node_refs (set_node _ _ s)) with (node_refs s). rewrite upd_cases.
    case_decide as E; cbn [set_open_count n_open_count].
    + subst. rewrite Z.eqb_refl, (inv_refs _ _ _ I). unfold settled. rewrite u32_small; lia.
    + rewrite (proj2 (Z.eqb_neq _ _)) by congruence. apply I.
Qed.

Lemma node_refs_file s R D h f :
  vinv s R D -> files s !! h = Some f -> 0 < node_refs s (dentry_node s (f_dentry f)) < 2 ^ 32 \/
    2 ^ 31 <= Z.of_nat (length (root_content s)).
Proof.
  intros I Hf. unfold node_refs.
  pose proof (lcount_nonneg (fun p => dentry_node s p.2 =? dentry_node s (f_dentry f)) (root_content s)).
  pose proof (lcount_le (fun p => dentry_node s p.2 =? dentry_node s (f_dentry f)) (root_content s)).
  pose proof (mcount_slots (files s) (file_handles s) (fun g => dentry_node s (f_dentry g) =? dentry_node s (f_dentry f))
    (inv_slots s R D I)).
  pose proof (lcount_le nonzero (file_handles s)). pose proof (tab_length _ (inv_table _ _ _ I)).
  rewrite (mcount_delete _ _ h f Hf), Z.eqb_refl in *.
  pose proof (mcount_nonneg (fun g => dentry_node s (f_dentry g) =? dentry_node s (f_dentry f)) (delete h (files s))).
  lia.
Qed.

Lemma kept_files_Some s s' h f :
  kept s s' -> files s !! h = Some f ->
  exists f', files s' !! h = Some f' /\ f_dentry f' = f_dentry f /\ dentry_node s' (f_dentry f') = dentry_node s (f_dentry f).
Proof.
  intros K Hf. destruct (same_files_Some _ _ h f (same_files_sym _ _ (kept_files _ _ K)) Hf) as (f' & H' & E).
  destruct (same_file_fields _ _ E) as (Ed & _). exists f'. rewrite <- Ed. unfold dentry_node.
  by rewrite (kept_dentries _ _ K).
Qed.

(** Closing the last reference. *)
Lemma close_last s R h f :
  vinv s R settled -> files s !! h = Some f -> R h = 0 -> Z.of_nat (length (root_content s)) < 2 ^ 31 ->
  exists s', (node ← file_node h s;
    let close_node := n_ops (nodes s node) CloseNode in
    let s := if close_node =? 0 then s else call_close close_node node h s in
    let s := set_node node (set_open_count (u32 (n_open_count (nodes s node) - 1)) (nodes s node)) s in
    let on_release := n_ops (nodes s node) OnRelease in
    let s := if (n_open_count (nodes s node) =? 0) && negb (on_release =? 0)
             then call_release on_release node s else s in
    deallocate_file_handle h s) = Some s' /\
    vinv s' R settled /\ same_tree s s' /\ (forall h', is_Some (files s' !! h') -> is_Some (files s !! h') /\ h' <> h).
Proof.
  intros I Hf HR Hrc. destruct (inv_file _ _ _ I h f Hf) as (_ & Hd & _).
  rewrite (file_node_spec s h f Hf Hd). cbn [mbind option_bind]. cbv zeta.
  set (node := dentry_node s (f_dentry f)).
  set (s1 := if n_ops (nodes s node) CloseNode =? 0 then s else call_close (n_ops (nodes s node) CloseNode) node h s).
  assert (kept s s1) as K1 by (unfold s1; case_match; [apply kept_refl|apply close_kept]).
  destruct (kept_files_Some s s1 h f K1 Hf) as (f1 & Hf1 & Ed1 & En1).
  pose proof (kept_vinv _ _ _ _ I K1) as I1.
  destruct (node_refs_file s1 R settled h f1 I1 Hf1) as [[Hr0 Hr1]|Hbad];
    [|rewrite (kept_content _ _ K1) in Hbad; lia].
  rewrite En1 in Hr0, Hr1. fold node in Hr0, Hr1.
  pose proof (uncount_vinv s1 R node I1 Hr0 Hr1) as I2.
  set (s2 := set_node node _ s1) in *.
  match goal with |- context [deallocate_file_handle h ?t] => set (s3 := t) end.
  assert (kept s2 s3) as K3 by (unfold s3; case_match; [apply release_kept|apply kept_refl]).
  destruct (kept_files_Some s2 s3 h f1 K3 Hf1) as (f3 & Hf3 & Ed3 & En3).
  pose proof (kept_vinv _ _ _ _ I2 K3) as I3.
  destruct (deallocate_spec s3 R _ h f3 I3 Hf3 HR) as (s' & E' & I' & T' & Fs').
  { intros x. rewrite En3. change (dentry_node s2) with (dentry_node s1). by rewrite En1. }
  exists s'. split; [done|]. split; [done|]. split.
  - eapply same_tree_trans; [by apply kept_tree|]. apply (same_tree_trans _ s2); [repeat split; cbn; lia|].
    eapply same_tree_trans; [by apply kept_tree|done].
  - intros h' [g Hg]. rewrite Fs' in Hg. apply lookup_delete_Some in Hg as [Hne Hg]. split; [|done].
    destruct (same_files_Some _ _ _ _ (kept_files _ _ K3) Hg) as (g2 & Hg2 & _).
    destruct (same_files_Some _ _ _ _ (kept_files _ _ K1) Hg2) as (g1 & Hg1 & _). by eexists.
Qed.

Definition small_root s : Prop := Z.of_nat (length (root_content s)) < 2 ^ 31.

Lemma vfs_close_spec s R h :
  open_ok s R -> small_root s -> 0 < R h < 2 ^ 31 ->
  exists s', vfs_close h s = Some s' /\ open_ok s' R.[h <- R h - 1] /\ same_tree s s'.
Proof.
  intros [I X] Hrc HR. destruct (open_file s R h (conj I X)) as (f & Hf & Hn & Hh & Hd); [lia|].
  unfold vfs_close. rewrite (proj2 (Z.eqb_neq h 0)) by lia.
  destruct (update_file_vinv s R settled h f (fun f => set_refcount (i32 (f_refcount f - 1)) f) (R h - 1) I Hf)
    as (s1 & E1 & I1 & Es1); [done|done|cbn; rewrite Hn, i32_small; lia|].
  rewrite E1. cbn [mbind option_bind].
  assert (exists g, files s1 !! h = Some g /\ f_refcount g = R h - 1) as (g & Hg & Hgn).
  { subst s1. cbn. rewrite lookup_insert_eq. eexists. split; [done|]. cbn. rewrite Hn, i32_small; lia. }
  rewrite Hg. cbn [mbind option_bind]. rewrite Hgn.
  assert (same_tree s s1) as T1 by (subst s1; repeat split; cbn; lia).
  assert (forall h', is_Some (files s1 !! h') -> is_Some (files s !! h')) as Hsome.
  { intros h'. subst s1. cbn. rewrite lookup_insert_is_Some. intros [<-|[_ ?]]; [by eexists|done]. }
  destruct (Z.eqb_spec (R h - 1) 0) as [E|E]; cbn [negb].
  - destruct (close_last s1 R.[h <- R h - 1] h g I1 Hg) as (s' & E' & I' & T' & Hs').
    { by rewrite upd_eq. }
    { by destruct T1 as (_ & -> & _). }
    exists s'. split; [exact E'|]. split; [|by eapply same_tree_trans]. split; [done|].
    intros h' [H1 H2]%Hs'. rewrite upd_ne by done. by apply X, Hsome.
  - exists s1. split; [done|]. split; [|done]. split; [done|].
    intros h' H'. rewrite upd_cases. case_decide; [lia|]. by apply X, Hsome.
Qed.

Lemma vfs_bump_spec s R h :
  open_ok s R -> 0 < R h -> R h + 1 < 2 ^ 31 ->
  exists s', vfs_bump_refcount h s = Some s' /\ open_ok s' R.[h <- R h + 1] /\ same_tree s s'.
Proof.
  intros [I X] HR Hb. destruct (open_file s R h (conj I X)) as (f & Hf & Hn & Hh & Hd); [lia|].
  unfold vfs_bump_refcount. rewrite (proj2 (Z.eqb_neq h 0)) by lia.
  destruct (update_file_vinv s R settled h f (fun f => set_refcount (i32 (f_refcount f + 1)) f) (R h + 1) I Hf)
    as (s1 & E1 & I1 & Es1); [done|done|cbn; rewrite Hn, i32_small; lia|].
  exists s1. split; [done|]. split; [|subst s1; repeat split; cbn; lia]. split; [done|].
  intros h' H'. rewrite upd_cases. case_decide; [lia|]. apply X. subst s1. cbn in H'.
  by rewrite lookup_insert_ne in H' by done.
Qed.

Lemma update_open_ok s R h g :
  open_ok s R -> 0 < R h ->
  (forall f, f_dentry (g f) = f_dentry f /\ f_id (g f) = f_id f /\ f_refcount (g f) = f_refcount f) ->
  exists s', update_file h g s = Some s' /\ open_ok s' R /\ same_tree s s'.
Proof.
  intros [I X] HR Hg. destruct (open_file s R h (conj I X) HR) as (f & Hf & _).
  destruct (Hg f) as (H1 & H2 & H3).
  destruct (update_keeps s R settled h f g I Hf H1 H2 H3) as (s' & E & I' & ->).
  eexists. split; [done|]. split; [|repeat split; cbn; lia]. split; [done|].
  intros h' H'. apply X. cbn in H'. apply lookup_insert_is_Some in H' as [<-|[_ ?]]; [by eexists|done].
Qed.

(** The handle is 0 and an error is reported, or a new handle has one reference. *)
Lemma vfs_open_spec s R dentry mode :
  open_ok s R -> small s -> is_Some (dentries s !! dentry) ->
  exists h err s', vfs_open dentry mode s = Some (h, err, s') /\ same_tree s s' /\
    ((h = 0 /\ err <> 0 /\ open_ok s' R) \/
     (h = next_object s /\ err = 0 /\ R h = 0 /\ open_ok s' R.[h <- 1])).
Proof.
  intros [I X] Hs [d Hd]. unfold vfs_open. rewrite Hd. cbn [mbind option_bind].
  case_match; [exists 0, EINVAL, s; split; [done|]; split; [apply same_tree_refl|]; left; split; [done|]; by split|].
  case_match; [exists 0, ENOTDIR, s; split; [done|]; split; [apply same_tree_refl|]; left; split; [done|]; by split|].
  clear H H0. destruct (allocate_spec s R dentry d (u8 mode) I Hs Hd) as (s1 & f & -> & I1 & T1 & F1 & Ef).
  cbn [mbind option_bind]. set (h := next_object s) in *. set (node := d_inode d) in *.
  assert (R h = 0) as HR0.
  { apply (inv_free _ _ _ I). destruct (files s !! h) eqn:E; [|done].
    destruct (inv_file _ _ _ I _ _ E). unfold h in *. lia. }
  assert (open_ok s1 R.[h <- 1]) as O1.
  { split; [done|]. intros h' H'. rewrite upd_cases. case_decide; [lia|]. apply X.
    rewrite F1, lookup_insert_ne in H' by done. done. }
  assert (small_root s) as Hrc.
  { unfold small, small_root in *. pose proof (lcount_nonneg nonzero (file_handles s)).
    rewrite (tab_count _ (inv_table _ _ _ I)) in Hs. lia. }
  (* closing the handle again after a failure *)
  assert (forall res s2, res <> 0 -> same_tree s s2 -> open_ok s2 R.[h <- 1] ->
    exists h' err s', (s ← vfs_close h s2; Some (0, res, s)) = Some (h', err, s') /\ same_tree s s' /\
      ((h' = 0 /\ err <> 0 /\ open_ok s' R) \/ (h' = h /\ err = 0 /\ R h' = 0 /\ open_ok s' R.[h' <- 1]))) as Hfail.
  { intros res s2 Hres T2 O2. destruct (vfs_close_spec s2 R.[h <- 1] h O2) as (s3 & -> & O3 & T3).
    - unfold small_root in *. by destruct T2 as (_ & -> & _).
    - rewrite upd_eq. lia.
    - exists 0, res, s3. split; [done|]. split; [by eapply same_tree_trans|]. left. split; [done|]. split; [done|].
      apply (open_ok_ext _ _ R O3). intros h'. rewrite !upd_cases. repeat case_decide; subst; lia. }
  assert (exists res s2, (if n_ops (nodes s1 node) OpenNode =? 0 then (0, s1)
    else call_open (n_ops (nodes s1 node) OpenNode) node h (u8 mode) s1) = (res, s2) /\ kept s1 s2)
    as (res & s2 & -> & K2).
  { case_match; [eexists _, _; split; [done|]; apply kept_refl|].
    eexists _, _. split; [apply surjective_pairing|]. apply open_kept. }
  pose proof (kept_open_ok _ _ _ O1 K2) as O2.
  assert (same_tree s s2) as T2 by (eapply same_tree_trans; [done|by apply kept_tree]).
  destruct (Z.eqb_spec res 0) as [Er|Er]; cbn [negb]; [|by apply Hfail].
  assert (exists h' err s', Some (h, 0, s2) = Some (h', err, s') /\ same_tree s s' /\
      ((h' = 0 /\ err <> 0 /\ open_ok s' R) \/ (h' = h /\ err = 0 /\ R h' = 0 /\ open_ok s' R.[h' <- 1]))) as Hdone.
  { eexists _, _, _. split; [done|]. split; [done|]. right. done. }
  case_match; [|done]. clear H.
  pose proof (truncate_kept (n_ops (nodes s2 node) TruncateNode) h s2) as K3.
  destruct (call_truncate _ h s2) as [res' s3]. cbn [snd] in K3.
  pose proof (kept_open_ok _ _ _ O2 K3) as O3.
  assert (same_tree s s3) as T3 by (eapply same_tree_trans; [done|by apply kept_tree]).
  destruct (Z.eqb_spec res' 0) as [Er'|Er']; cbn [negb]; [|by apply Hfail].
  destruct (update_open_ok s3 R.[h <- 1] h (set_offset 0) O3) as (s4 & -> & O4 & T4); [rewrite upd_eq; lia|done|].
  eexists _, _, s4. split; [done|]. split; [by eapply same_tree_trans|]. by right.
Qed.

Lemma rw_offset_spec s s1 R h bytes :
  open_ok s R -> 0 < R h -> kept s s1 ->
  exists s', (if 0 <? bytes then update_file h (fun f => set_offset (u64_add (f_offset f) bytes) f) s1 else Some s1)
    = Some s' /\ open_ok s' R /\ same_tree s s'.
Proof.
  intros O HR K. pose proof (kept_open_ok _ _ _ O K) as O1. case_match.
  - destruct (update_open_ok s1 R h (fun f => set_offset (u64_add (f_offset f) bytes) f) O1 HR) as (s' & -> & O' & T');
      [done|]. exists s'. split; [done|]. split; [done|]. eapply same_tree_trans; [by apply kept_tree|done].
  - exists s1. split; [done|]. split; [done|]. by apply kept_tree.
Qed.

Lemma vfs_read_spec s R h size :
  open_ok s R -> 0 < R h ->
  exists n data s', vfs_read h size s = Some (n, data, s') /\ open_ok s' R /\ same_tree s s'.
Proof.
  intros O HR. destruct (open_file s R h O HR) as (f & Hf & _ & _ & Hd).
  unfold vfs_read. rewrite Hf. cbn [mbind option_bind]. rewrite (file_node_spec s h f Hf Hd). cbn [mbind option_bind].
  case_match; [eexists _, _, s; split; [done|]; split; [done|apply same_tree_refl]|].
  case_match; [eexists _, _, s; split; [done|]; split; [done|apply same_tree_refl]|].
  set (p := n_ops _ ReadNode). pose proof (read_kept p h (u32 (f_offset f)) size s) as K.
  destruct (call_read p h (u32 (f_offset f)) size s) as [[bytes data] s1]. cbn [snd] in K.
  destruct (rw_offset_spec s s1 R h bytes O HR K) as (s' & -> & O' & T'). by eexists _, _, s'.
Qed.

Lemma vfs_write_spec s R h data :
  open_ok s R -> 0 < R h ->
  exists n s', vfs_write h data s = Some (n, s') /\ open_ok s' R /\ same_tree s s'.
Proof.
  intros O HR. destruct (open_file s R h O HR) as (f & Hf & _ & _ & Hd).
  unfold vfs_write. rewrite Hf. cbn [mbind option_bind]. rewrite (file_node_spec s h f Hf Hd). cbn [mbind option_bind].
  case_match; [eexists _, s; split; [done|]; split; [done|apply same_tree_refl]|].
  case_match; [eexists _, s; split; [done|]; split; [done|apply same_tree_refl]|].
  set (p := n_ops _ WriteNode). pose proof (write_kept p h (u32 (f_offset f)) data s) as K.
  destruct (call_write p h (u32 (f_offset f)) data s) as [bytes s1]. cbn [snd] in K.
  destruct (rw_offset_spec s s1 R h bytes O HR K) as (s' & -> & O' & T'). by eexists _, s'.
Qed.

(** *** Entries *)

(** More entries, the same otherwise. *)
Definition grows s s' : Prop :=
  dentries s ⊆ dentries s' /\ root_content s' = root_content s /\ vfs_root s' = vfs_root s /\
  next_object s <= next_object s' /\ file_handles_open_count s' = file_handles_open_count s.

Lemma grows_refl s : grows s s.
Proof. repeat split; done || lia. Qed.

Lemma grows_trans s1 s2 s3 : grows s1 s2 -> grows s2 s3 -> grows s1 s3.
Proof.
  intros (A & B & C & D & E) (A' & B' & C' & D' & E'). split; [by etrans|]. repeat split; [congruence..|lia|congruence].
Qed.

Lemma grows_Some s s' x : grows s s' -> is_Some (dentries s !! x) -> is_Some (dentries s' !! x).
Proof. intros (H & _) [d Hd]. exists d. by apply (lookup_weaken (dentries s)). Qed.

Lemma kept_grows s s' : kept s s' -> grows s s'.
Proof. intros K. split; [by rewrite (kept_dentries _ _ K)|]. repeat split; apply K. Qed.

Lemma new_dentry_spec s R d :
  open_ok s R -> 0 < d_inode d < next_object s ->
  (d_parent d = 0 \/ is_Some (dentries s !! d_parent d)) ->
  open_ok (new_dentry d s).2 R /\ grows s (new_dentry d s).2 /\
  dentries (new_dentry d s).2 !! (new_dentry d s).1 = Some d /\ 0 < (new_dentry d s).1.
Proof.
  intros [I X] Hi Hp. unfold new_dentry. cbn [fst snd]. destruct (inv_dentries _ _ _ I) as [H0 Hden].
  assert (dentries s !! next_object s = None) as Hnew.
  { destruct (dentries s !! next_object s) as [e|] eqn:E; [|done]. destruct (Hden _ _ E). lia. }
  assert (forall x, is_Some (dentries s !! x) -> is_Some (<[next_object s:=d]> (dentries s) !! x)) as Hmono.
  { intros x Hx. apply lookup_insert_is_Some. destruct (decide (next_object s = x)); [by left|by right]. }
  assert (forall x, is_Some (dentries s !! x) ->
    from_option d_inode 0 (<[next_object s:=d]> (dentries s) !! x) = dentry_node s x) as Hdn.
  { intros x [e He]. rewrite lookup_insert_ne by congruence. done. }
  split.
  - split; [|done]. split; cbn.
    + split; [cbn; lia|]. cbn. intros x e He. destruct (decide (x = next_object s)) as [->|Hne].
      * rewrite lookup_insert_eq in He. simplify_eq. split; [lia|]. split; [lia|].
        destruct Hp as [?|?]; [by left|right; by apply Hmono].
      * rewrite lookup_insert_ne in He by done. destruct (Hden x e He) as (? & ? & Hpe). split; [lia|]. split; [lia|].
        destruct Hpe as [?|?]; [by left|right; by apply Hmono].
    + destruct (inv_table _ _ _ I). by split.
    + intros h f Hf. destruct (inv_file _ _ _ I h f Hf) as (? & ? & ?). split; [lia|]. split; [by apply Hmono|done].
    + apply I.
    + intros p Hin. by apply Hmono, (inv_content _ _ _ I).
    + done.
    + intros x. rewrite (inv_refs _ _ _ I x). unfold node_refs. cbn [files root_content set_next set_dentries]. f_equal.
      unfold dentry_node at 3 4. cbn [dentries set_next set_dentries]. f_equal.
      * apply mcount_ext. intros h f Hf. rewrite Hdn; [done|]. by apply (inv_file _ _ _ I h f).
      * apply lcount_ext. intros p Hin. rewrite Hdn; [done|]. by apply (inv_content _ _ _ I).
    + eapply fs_ok_mono; [|apply I]. lia.
  - split; [|split; [cbn; apply lookup_insert_eq|done]]. split; [cbn; by apply insert_subseteq|].
    repeat split; cbn; lia.
Qed.

Lemma root_finddir_spec s R name :
  open_ok s R -> exists r, root_finddir name s = Some r /\ 0 <= r < next_object s.
Proof.
  intros [I _]. destruct (inv_dentries _ _ _ I) as [H0 Hden]. unfold root_finddir.
  destruct (list_find _ (root_content s)) as [[i p]|] eqn:E; [|exists 0; split; [done|lia]].
  apply list_find_Some in E as (Hi & _). destruct (inv_content _ _ _ I p) as [d Hd].
  { by eapply list_elem_of_lookup_2. }
  rewrite Hd. cbn. exists (d_inode d). destruct (Hden _ _ Hd) as (_ & ? & _). split; [done|lia].
Qed.

Lemma vfs_finddir_spec s R dentry name :
  open_ok s R -> is_Some (dentries s !! dentry) ->
  exists x s', vfs_finddir dentry name s = Some (x, s') /\ open_ok s' R /\ grows s s' /\
    (x = 0 \/ is_Some (dentries s' !! x)).
Proof.
  intros O [d Hd]. unfold vfs_finddir. rewrite Hd. cbn [mbind option_bind].
  case_match; [exists 0, s; split; [done|]; split; [done|]; split; [apply grows_refl|by left]|].
  case_match; [exists 0, s; split; [done|]; split; [done|]; split; [apply grows_refl|by left]|]. clear H H0.
  assert (exists r s1, finddir_inode (d_inode d) name s = Some (r, s1) /\ kept s s1 /\ 0 <= r < next_object s1)
    as (r & s1 & -> & K1 & Hr).
  { unfold finddir_inode. case_match.
    - destruct (root_finddir_spec s R name O) as (r & -> & Hr). exists r, s. split; [done|]. split; [apply kept_refl|done].
    - eexists _, _. split; [f_equal; apply surjective_pairing|]. split; [apply finddir_kept|].
      apply finddir_node; apply O. }
  cbn [mbind option_bind]. pose proof (kept_open_ok _ _ _ O K1) as O1.
  destruct (Z.eqb_spec r 0) as [E|E].
  { exists 0, s1. split; [done|]. split; [done|]. split; [by apply kept_grows|by left]. }
  destruct (new_dentry_spec s1 R (mk_dentry (dentry_name name) dentry r) O1) as (O2 & G2 & H2 & _).
  { cbn. lia. }
  { right. cbn. rewrite (kept_dentries _ _ K1). by eexists. }
  eexists _, _. split; [f_equal; apply surjective_pairing|]. split; [done|].
  split; [eapply grows_trans; [by apply kept_grows|done]|]. right. by eexists.
Qed.

(** *** New files and directories *)

(** Entries are kept; there may be new ones, also in the root. *)
Definition extends s s' : Prop :=
  dentries s ⊆ dentries s' /\ vfs_root s' = vfs_root s /\ next_object s <= next_object s'.

Lemma extends_refl s : extends s s.
Proof. split; [done|]. split; [done|lia]. Qed.

Lemma extends_trans s1 s2 s3 : extends s1 s2 -> extends s2 s3 -> extends s1 s3.
Proof. intros (A & B & C) (A' & B' & C'). split; [by etrans|]. split; [congruence|lia]. Qed.

Lemma grows_extends s s' : grows s s' -> extends s s'.
Proof. intros (A & _ & B & C & _). done. Qed.

Lemma tree_extends s s' : same_tree s s' -> extends s s'.
Proof. intros (A & _ & B & C). split; [by rewrite A|done]. Qed.

Lemma extends_Some s s' x : extends s s' -> is_Some (dentries s !! x) -> is_Some (dentries s' !! x).
Proof. intros (H & _) [d Hd]. exists d. by apply (lookup_weaken (dentries s)). Qed.

Lemma new_node_spec s R n :
  open_ok s R -> n_open_count n = 0 ->
  open_ok (new_node n s).2 R /\ grows s (new_node n s).2.
Proof.
  intros [I X] Hn. split; [|split; [done|]; repeat split; cbn; lia]. split; [|done].
  destruct (inv_dentries _ _ _ I) as [H0 Hden]. split; cbn; try apply I.
  - split; [cbn; lia|]. intros x d Hd. destruct (Hden x d Hd) as (? & ? & ?). cbn. split; [lia|]. split; [lia|done].
  - destruct (inv_table _ _ _ I). by split.
  - intros h f Hf. destruct (inv_file _ _ _ I h f Hf) as (? & ? & ?). split; [lia|done].
  - done.
  - intros x. change (node_refs (set_next _ _)) with (node_refs s). rewrite upd_cases. case_decide; [|apply I].
    subst. rewrite Hn, (node_refs_new s R settled _ I); [done|lia].
  - eapply fs_ok_mono; [|apply I]. lia.
Qed.

Lemma add_entry_spec s R name x d :
  open_ok s R -> small s -> dentries s !! x = Some d ->
  exists s', add_entry_to_root_content name x s = Some s' /\ open_ok s' R /\ extends s s'.
Proof.
  intros [I X] Hs Hd. unfold add_entry_to_root_content. rewrite Hd. cbn [mbind option_bind].
  eexists. split; [done|]. split; [|split; [done|]; split; [done|cbn; lia]]. split; [|done]. split; try apply I.
  - destruct (inv_table _ _ _ I). by split.
  - cbn. intros p [Hp| ->%list_elem_of_singleton]%elem_of_app; [by apply (inv_content _ _ _ I)|by eexists].
  - intros y. cbn [nodes set_node]. unfold node_refs. cbn [files root_content set_node set_root_content].
    change (dentry_node (set_node _ _ _)) with (dentry_node s). rewrite lcount_app. cbn [lcount].
    assert (dentry_node s (name, x).2 = d_inode d) as -> by (unfold dentry_node; cbn; by rewrite Hd).
    pose proof (inv_refs _ _ _ I y) as Hy. pose proof (node_refs_small s R settled y I Hs) as Hsm.
    pose proof (node_refs_bound s y) as Hb. unfold node_refs in Hy, Hsm, Hb. unfold settled in *.
    rewrite upd_cases. case_decide as E; cbn [set_open_count n_open_count].
    + subst y. rewrite Z.eqb_refl, u32_small; lia.
    + rewrite (proj2 (Z.eqb_neq _ _)) by congruence. cbn [nodes set_root_content]. lia.
Qed.

(** At most one more entry in the root, and no more handles. *)
Definition one_more s s' : Prop :=
  file_handles_open_count s' = file_handles_open_count s /\
  (length (root_content s') <= S (length (root_content s)))%nat.

Lemma grows_one_more s s' : grows s s' -> one_more s s'.
Proof. intros (_ & A & _ & _ & B). split; [done|]. rewrite A. lia. Qed.

Lemma make_entry_spec s R type op call parent name :
  (forall p n (name : cstring) s, kept s (call p n name s).2) ->
  open_ok s R -> small s -> is_Some (dentries s !! parent) -> slen name < VFS_MAX_FILENAME ->
  exists res s', make_entry type op call parent name s = Some (res, s') /\ open_ok s' R /\ extends s s' /\
    one_more s s'.
Proof.
  intros Hcall O Hs [d Hd] Hname. unfold make_entry. pose proof O as [I _].
  destruct (inv_dentries _ _ _ I) as [H0 Hden]. destruct (Hden _ _ Hd) as (Hp & _).
  rewrite (proj2 (Z.eqb_neq parent 0)) by lia. rewrite Hd. cbn [mbind option_bind].
  case_match; [eexists _, s; split; [done|]; split; [done|]; split; [apply extends_refl|by apply grows_one_more, grows_refl]|].
  unfold vfs_populate_node. rewrite (proj2 (Z.ltb_lt _ _)) by done. cbn [mbind option_bind].
  set (n := mk_node name _ _ _ _ _ _ _). destruct (new_node_spec s R n O eq_refl) as [O1 G1].
  assert (new_node n s = (next_object s, (new_node n s).2)) as -> by done. set (s1 := (new_node n s).2) in *.
  assert (small s1) as Hs1 by done.
  assert (exists res s2, (if n_ops (nodes s1 (d_inode d)) op =? 0 then (0, s1)
    else call (n_ops (nodes s1 (d_inode d)) op) (d_inode d) name s1) = (res, s2) /\ kept s1 s2)
    as (res & s2 & -> & K2).
  { case_match; [eexists _, _; split; [done|]; apply kept_refl|].
    eexists _, _. split; [apply surjective_pairing|]. apply Hcall. }
  pose proof (kept_open_ok _ _ _ O1 K2) as O2. pose proof (kept_grows _ _ K2) as G2.
  assert (extends s s2) as E2 by (by eapply grows_extends, grows_trans).
  assert (grows s s2) as G by (by eapply grows_trans).
  destruct (Z.eqb_spec parent (vfs_root s2)) as [Ep|Ep]; [|eexists _, s2; by pose proof (grows_one_more _ _ G)].
  unfold vfs_dentry_create. set (e := mk_dentry _ _ _).
  destruct (new_dentry_spec s2 R e O2) as (O3 & G3 & He & _).
  { cbn. pose proof (kept_next _ _ K2) as Hn. unfold s1 in Hn. cbn in Hn. lia. }
  { right. by apply (extends_Some s). }
  destruct (new_dentry e s2) as [y s3]. cbn [fst snd] in *.
  assert (small s3) as Hs3.
  { unfold small in *. destruct G3 as (_ & -> & _ & _ & ->), G2 as (_ & -> & _ & _ & ->). done. }
  destruct (add_entry_spec s3 R name y e O3 Hs3 He) as (s4 & Es4 & O4 & E4). rewrite Es4. cbn [mbind option_bind].
  eexists _, s4. split; [done|]. split; [done|]. split.
  - eapply extends_trans; [exact E2|]. eapply extends_trans; [by apply grows_extends|done].
  - assert (grows s s3) as (_ & A & _ & _ & B) by (by eapply grows_trans). unfold add_entry_to_root_content in Es4.
    rewrite He in Es4. cbn in Es4. injection Es4 as <-. split; cbn; [done|]. rewrite A, length_app. simpl. lia.
Qed.

End Ops.
