(* ===== verification/Path.v ===== *)
(** Path resolution: a model of [src/kernel/kernel/vfs/path.c].

    The loop works on the rest of the path, the code on a pointer into a copy of
    it.  As in Vfs, [None] is the use of a freed object. *)

From S2P Require Import Prelude StrDict Errno Vfs.
From Stdlib Require Import ZArith Lia Bool.
From stdpp Require Import base tactics numbers list gmap.
Open Scope Z_scope.

Definition VFS_SYMLINK_MAX_DEPTH : nat := 40.
Definition SLASH : Z := 47.
Definition DOT : cstring := [46].
Definition DOTDOT : cstring := [46; 46].

(** [while ( *ptr == '/') ptr++] *)
Fixpoint skip_slashes (p : cstring) : cstring :=
  match p with
  | c :: p' => if c =? SLASH then skip_slashes p' else p
  | [] => []
  end.

(** The bytes up to the next slash, and the rest from it on. *)
Fixpoint next_component (p : cstring) : cstring * cstring :=
  match p with
  | [] => ([], [])
  | c :: p' => if c =? SLASH then ([], p) else let '(x, rest) := next_component p' in (c :: x, rest)
  end.

(** The string a buffer holds. *)
Fixpoint c_str (bytes : list Z) : cstring :=
  match bytes with
  | [] => []
  | b :: bytes => if b =? 0 then [] else b :: c_str bytes
  end.

(** What a resolution returns: the entry (0 for [NULL]), whether the last entry
    does not exist, and the name stored at [basename], if one was asked for. *)
Record resolved := mk_resolved { r_node : Z; r_missing : bool; r_basename : option cstring }.

Section Path.
Context {F : Type} `{!FsCalls F}.
Implicit Types s : vfs F.

Section Impl.
Context (root : Z) (follow_last_symlink allow_nonexisting_last_entry want_basename : bool).

(** [if (basename != NULL) ...] at the end. *)
Definition finish (node : Z) (missing : bool) (captured : option cstring) s : option (resolved * vfs F) :=
  if negb want_basename then Some (mk_resolved node missing None, s) else
  match captured with
  | Some b => Some (mk_resolved node missing (Some b), s)
  | None =>
      if node =? 0 then Some (mk_resolved node missing None, s) else
      d ← dentries s !! node;
      Some (mk_resolved node missing (Some (d_name d)), s)
  end.

(** [..] *)
Definition parent_of (node : Z) s : option Z :=
  if node =? root then Some node else
  d ← dentries s !! node;
  Some (if d_parent d =? 0 then root else d_parent d).

(** Whether [node] is a symbolic link. *)
Definition is_symlink (node : Z) s : option bool :=
  d ← dentries s !! node; Some (n_type (nodes s (d_inode d)) =? VFS_TYPE_SYMLINK).

(** The path with the target of the link [node] in place of the link: [None] when it
    cannot be read. *)
Definition link_path (node : Z) (rest : cstring) s : option (option cstring) :=
  d ← dentries s !! node;
  let readlink_node := n_ops (nodes s (d_inode d)) ReadlinkNode in
  if readlink_node =? 0 then Some None else
  let '(r, bytes) := call_readlink readlink_node (d_inode d) (VFS_MAX_PATH_LENGTH - 1) s in
  if r <? 0 then Some None else
  let target := c_str (take (Z.to_nat r) bytes) in
  Some (Some (take (Z.to_nat (VFS_MAX_PATH_LENGTH - 1)) (target ++ rest))).

(** The loop over the components.  [again] resolves the path of a symbolic link from
    a base; [fuel] exceeds the length of [ptr]. *)
Fixpoint resolve_loop (again : Z -> cstring -> vfs F -> option (resolved * vfs F))
    (fuel : nat) (ptr : cstring) (node : Z) s : option (resolved * vfs F) :=
  match fuel with
  | O => None
  | S fuel =>
      match skip_slashes ptr with
      | [] => finish node false None s
      | ptr =>
          if node =? 0 then finish node false None s else
          let '(name, rest) := next_component ptr in
          if decide (name = DOT) then resolve_loop again fuel rest node s else
          if decide (name = DOTDOT) then
            node ← parent_of node s;
            resolve_loop again fuel rest node s
          else
            let parent_dir := node in
            '(node, s) ← vfs_finddir node name s;
            if (node =? 0) && allow_nonexisting_last_entry && bool_decide (skip_slashes rest = [])
            then finish parent_dir true (Some name) s else
            if node =? 0 then finish node false None s else
            link ← is_symlink node s;
            if link && (follow_last_symlink || negb (bool_decide (rest = []))) then
              target ← link_path node rest s;
              match target with
              | None => finish 0 false None s
              | Some combined =>
                  let base := match combined with c :: _ => if c =? SLASH then root else parent_dir
                                                | [] => parent_dir end in
                  again base combined s
              end
            else resolve_loop again fuel rest node s
      end
  end.

(** [hops] is [VFS_SYMLINK_MAX_DEPTH - symlink_depth]. *)
Fixpoint path_resolve_impl (hops : nat) (start : Z) (path : cstring) s : option (resolved * vfs F) :=
  match hops with
  | O => Some (mk_resolved 0 false None, s)
  | S hops =>
      match path with
      | [] =>
          if start =? 0 then Some (mk_resolved start false None, s) else finish start false None s
      | c :: _ =>
          let node := if c =? SLASH then root else start in
          resolve_loop (path_resolve_impl hops) (S (length path)) path node s
      end
  end.

End Impl.

Definition path_resolve_absolute (abs_path : cstring) s : option (Z * vfs F) :=
  '(r, s) ← path_resolve_impl (vfs_root s) true false false VFS_SYMLINK_MAX_DEPTH (vfs_root s) abs_path s;
  Some (r_node r, s).

Definition path_resolve_relative (root current : Z) (path : cstring) s : option (Z * vfs F) :=
  match path with
  | [] => Some (current, s)
  | _ =>
      '(r, s) ← path_resolve_impl root true false false VFS_SYMLINK_MAX_DEPTH current path s;
      Some (r_node r, s)
  end.

Definition path_resolve_relative_no_follow (root current : Z) (path : cstring) s : option (Z * vfs F) :=
  match path with
  | [] => Some (current, s)
  | _ =>
      '(r, s) ← path_resolve_impl root false false false VFS_SYMLINK_MAX_DEPTH current path s;
      Some (r_node r, s)
  end.

(** The entry, [*basename] and [*path_exists]. *)
Definition path_resolve_optional (root current : Z) (path : cstring) s :
    option (Z * option cstring * bool * vfs F) :=
  '(r, s) ← path_resolve_impl root true true true VFS_SYMLINK_MAX_DEPTH current path s;
  Some (r_node r, r_basename r, negb (r_missing r), s).

(** ** Building a path *)

(** The names from [current] up to [root].  [fuel] bounds the depth of the tree. *)
Fixpoint path_parts (fuel : nat) (root current : Z) s : option (list cstring) :=
  match fuel with
  | O => None
  | S fuel =>
      if current =? root then Some [] else
      d ← dentries s !! current;
      parts ← path_parts fuel root (d_parent d) s;
      Some (d_name d :: parts)
  end.

Fixpoint total_length (parts : list cstring) : Z :=
  match parts with [] => 0 | p :: parts => slen p + total_length parts end.

Fixpoint write_parts (parts : list cstring) : cstring :=
  match parts with [] => [] | p :: parts => SLASH :: p ++ write_parts parts end.

(** The string written to the buffer of [size] bytes, [None] inside for [NULL]. *)
Definition path_build_absolute (fuel : nat) (root current size : Z) s : option (option cstring) :=
  parts ← path_parts fuel root current s;
  let parts_count := Z.of_nat (length parts) in
  let sep_count := if parts_count =? 0 then 1 else parts_count in
  if size <? sep_count + total_length parts + 1 then Some None else
  if parts_count =? 0 then Some (Some [SLASH]) else
  Some (Some (write_parts (reverse parts))).

End Path.
