(* ===== verification/PathSpec.v ===== *)
(** Path resolution: it always returns, keeps the invariant of the virtual file
    system, and is inverse to the construction of absolute paths. *)

From S2P Require Import Prelude StrDict Errno Vfs VfsSpec Path.
From Stdlib Require Import ZArith Lia Bool.
From stdpp Require Import base tactics numbers list gmap.
Open Scope Z_scope.

(** ** Components *)

Lemma skip_slashes_length p : (length (skip_slashes p) <= length p)%nat.
Proof. induction p as [|c p IH]; simpl; [done|]. case_match; simpl; lia. Qed.

Lemma skip_slashes_head p c q : skip_slashes p = c :: q -> (c =? SLASH) = false.
Proof. induction p as [|b p IH]; simpl; [done|]. case_match; [done|]. by intros [= -> _]. Qed.

Lemma next_component_length p name rest :
  next_component p = (name, rest) -> length p = (length name + length rest)%nat.
Proof.
  revert name rest. induction p as [|c p IH]; simpl; intros name rest E; [by simplify_eq|].
  destruct (c =? SLASH); [by simplify_eq|]. destruct (next_component p) as [x r]. simplify_eq.
  simpl. by rewrite (IH x rest).
Qed.

Lemma next_component_nonempty c p name rest :
  (c =? SLASH) = false -> next_component (c :: p) = (name, rest) -> (length rest < S (length p))%nat.
Proof.
  intros Hc E. pose proof (next_component_length _ _ _ E) as L. simpl in *. rewrite Hc in E.
  destruct (next_component p). simplify_eq. simpl in *. lia.
Qed.

(** ** Look-ups *)

(** A look-up of a driver frees and adds no entry; it may make inodes and open and
    close devices. *)
Class FsLookup (F : Type) `{!FsCalls F} := {
  lookup_dentries p n name (s : vfs F) : dentries (call_finddir p n name s).2 = dentries s;
  lookup_content p n name (s : vfs F) : root_content (call_finddir p n name s).2 = root_content s;
  lookup_next p n name (s : vfs F) : next_object s <= next_object (call_finddir p n name s).2 }.

(** Entries have numbers in use and existing parents, and those of the root exist. *)
Definition entries_ok {F} (s : vfs F) : Prop :=
  0 < next_object s /\
  (forall x d, dentries s !! x = Some d ->
    0 < x < next_object s /\ (d_parent d = 0 \/ is_Some (dentries s !! d_parent d))) /\
  (forall p, p ∈ root_content s -> is_Some (dentries s !! p.2)).

Lemma vinv_entries {F} `{!FsOk F} (s : vfs F) R D : vinv s R D -> entries_ok s.
Proof.
  intros I. destruct (inv_dentries _ _ _ I) as [H0 H]. split; [done|]. split; [|apply I].
  intros x d Hd. by destruct (H x d Hd) as (? & _ & ?).
Qed.

Lemma finddir_entries {F} `{!FsCalls F} `{!FsLookup F} (s : vfs F) node name :
  entries_ok s -> is_Some (dentries s !! node) ->
  exists x s', vfs_finddir node name s = Some (x, s') /\ entries_ok s' /\ dentries s ⊆ dentries s' /\
    (x = 0 \/ is_Some (dentries s' !! x)).
Proof.
  intros O [d Hd]. unfold vfs_finddir. rewrite Hd. cbn [mbind option_bind].
  case_match; [exists 0, s; split; [done|]; split; [done|]; split; [done|by left]|].
  case_match; [exists 0, s; split; [done|]; split; [done|]; split; [done|by left]|]. clear H H0.
  assert (exists r s1, finddir_inode (d_inode d) name s = Some (r, s1) /\ entries_ok s1 /\ dentries s1 = dentries s)
    as (r & s1 & -> & O1 & E1).
  { pose proof O as (H0 & Hden & Hrc). unfold finddir_inode. case_match.
    - unfold root_finddir. destruct (list_find _ (root_content s)) as [[i p]|] eqn:E; [|by eexists _, s].
      apply list_find_Some in E as (Hi & _). destruct (Hrc p) as [e He]; [by eapply list_elem_of_lookup_2|].
      rewrite He. by eexists _, s.
    - eexists _, _. split; [f_equal; apply surjective_pairing|]. split; [|apply lookup_dentries].
      set (p := n_ops _ FinddirNode). pose proof (lookup_next p (d_inode d) name s) as Hn.
      unfold entries_ok. rewrite lookup_dentries, lookup_content. split; [lia|]. split; [|done].
      intros x e He. destruct (Hden x e He). split; [lia|done]. }
  cbn [mbind option_bind]. destruct (Z.eqb_spec r 0) as [E|E].
  { exists 0, s1. split; [done|]. split; [done|]. split; [by rewrite E1|by left]. }
  destruct O1 as (H0 & Hden & Hrc). set (e := mk_dentry _ node r). unfold new_dentry.
  assert (dentries s1 !! next_object s1 = None) as Hnew.
  { destruct (dentries s1 !! next_object s1) as [f|] eqn:Ef; [|done]. destruct (Hden _ _ Ef). lia. }
  assert (forall x, is_Some (dentries s1 !! x) -> is_Some (<[next_object s1 := e]> (dentries s1) !! x)) as Hmono.
  { intros x Hx. apply lookup_insert_is_Some. destruct (decide (next_object s1 = x)); [by left|by right]. }
  eexists _, _. split; [done|]. split; [|split; [cbn; rewrite <- E1; by apply insert_subseteq|]].
  - split; [cbn; lia|]. cbn. split; [|intros p Hp; by apply Hmono, Hrc].
    intros x f [[<- <-]|[_ Hf]]%lookup_insert_Some.
    + split; [lia|]. right. apply Hmono. rewrite E1. by eexists.
    + destruct (Hden x f Hf) as [? [?|?]]; (split; [lia|]); [by left|right; by apply Hmono].
  - right. cbn. rewrite lookup_insert_eq. by eexists.
Qed.

Section Resolve.
Context {F : Type} `{!FsCalls F}.
Implicit Types s : vfs F.

(** An invariant that look-ups keep, and how they may change the state. *)
Record lookups (Inv : vfs F -> Prop) (G : vfs F -> vfs F -> Prop) : Prop := {
  lk_refl s : G s s;
  lk_trans s1 s2 s3 : G s1 s2 -> G s2 s3 -> G s1 s3;
  lk_Some s s' x : G s s' -> is_Some (dentries s !! x) -> is_Some (dentries s' !! x);
  lk_parent s x d : Inv s -> dentries s !! x = Some d -> d_parent d = 0 \/ is_Some (dentries s !! d_parent d);
  lk_finddir s node name : Inv s -> is_Some (dentries s !! node) ->
    exists x s', vfs_finddir node name s = Some (x, s') /\ Inv s' /\ G s s' /\ (x = 0 \/ is_Some (dentries s' !! x)) }.

Context (Inv : vfs F -> Prop) (G : vfs F -> vfs F -> Prop) (LK : lookups Inv G).

(** ** Resolution returns and keeps the invariant *)

(** A result that keeps the invariant. *)
Definition resolves s (r : option (resolved * vfs F)) : Prop :=
  exists x s', r = Some (x, s') /\ Inv s' /\ G s s' /\
    (r_node x = 0 \/ is_Some (dentries s' !! r_node x)) /\
    (r_missing x = true -> r_node x <> 0).

Context (root : Z) (follow allow want : bool).

Lemma resolves_grows s s' r : G s s' -> resolves s' r -> resolves s r.
Proof.
  intros HG (x & s2 & -> & O & G2 & H). exists x, s2. split; [done|]. split; [done|].
  split; [by apply (lk_trans _ _ LK s s')|done].
Qed.

Lemma finish_spec s node missing captured :
  Inv s -> node = 0 \/ is_Some (dentries s !! node) -> (missing = true -> node <> 0) ->
  resolves s (finish want node missing captured s).
Proof.
  intros O Hn Hm. unfold finish.
  assert (forall b, resolves s (Some (mk_resolved node missing b, s))) as H.
  { intros b. eexists _, s. split; [done|]. split; [done|]. split; [apply (lk_refl _ _ LK)|done]. }
  destruct want; cbn [negb]; [|done]. destruct captured; [done|].
  destruct (Z.eqb_spec node 0) as [E|E]; [done|].
  destruct Hn as [?|[d Hd]]; [done|]. rewrite Hd. cbn. apply H.
Qed.

Lemma parent_of_spec s node :
  Inv s -> is_Some (dentries s !! root) -> is_Some (dentries s !! node) ->
  exists x, parent_of root node s = Some x /\ is_Some (dentries s !! x).
Proof.
  intros I Hr [d Hd]. unfold parent_of. case_match; [exists node; split; [done|by eexists]|].
  rewrite Hd. cbn. pose proof (lk_parent _ _ LK s node d I Hd) as Hp.
  destruct (Z.eqb_spec (d_parent d) 0) as [E|E]; [by eexists|]. destruct Hp; [done|by eexists].
Qed.

Lemma loop_spec (again : Z -> cstring -> vfs F -> option (resolved * vfs F)) :
  (forall base path s, Inv s -> is_Some (dentries s !! root) -> is_Some (dentries s !! base) ->
    resolves s (again base path s)) ->
  forall fuel ptr node s, (length ptr < fuel)%nat -> Inv s -> is_Some (dentries s !! root) ->
    node = 0 \/ is_Some (dentries s !! node) ->
    resolves s (resolve_loop root follow allow want again fuel ptr node s).
Proof.
  intros Hagain fuel. induction fuel as [|fuel IH]; intros ptr node s Hf O Hr Hn; [lia|]. cbn [resolve_loop].
  pose proof (skip_slashes_length ptr) as Hl.
  destruct (skip_slashes ptr) as [|c p] eqn:E; [by apply finish_spec|].
  destruct (Z.eqb_spec node 0) as [E0|E0]; [by apply finish_spec; [..|auto]|].
  destruct Hn as [?|Hn]; [done|].
  destruct (next_component (c :: p)) as [name rest] eqn:Ec.
  pose proof (next_component_nonempty c p name rest (skip_slashes_head _ _ _ E) Ec) as Hrest.
  assert (length rest < fuel)%nat as Hfuel by (simpl in Hl; lia).
  case_decide; [by apply IH; auto|]. case_decide.
  { destruct (parent_of_spec s node O Hr Hn) as (x & -> & Hx). cbn. apply IH; auto. }
  destruct (lk_finddir _ _ LK s node name O Hn) as (x & s1 & -> & O1 & G1 & Hx). cbn [mbind option_bind].
  apply (resolves_grows s s1); [done|].
  pose proof (lk_Some _ _ LK _ _ _ G1 Hr) as Hr1. pose proof (lk_Some _ _ LK _ _ _ G1 Hn) as Hn1.
  case_match; [by apply finish_spec; [|right|]|].
  destruct (Z.eqb_spec x 0) as [Ex|Ex]; [subst x; apply finish_spec; auto; done|].
  destruct Hx as [?|[d Hd]]; [done|]. unfold is_symlink. rewrite Hd. cbn [mbind option_bind].
  case_match; [|apply IH; auto; right; by eexists].
  unfold link_path. rewrite Hd. cbn [mbind option_bind].
  case_match; [cbn; apply finish_spec; auto; done|].
  destruct (call_readlink _ _ _ s1) as [r bytes].
  destruct (r <? 0); [cbn; apply finish_spec; auto; done|]. cbn [mbind option_bind].
  apply Hagain; [done|done|]. case_match; [done|]. by case_match.
Qed.

Lemma impl_spec hops start path s :
  Inv s -> is_Some (dentries s !! root) -> is_Some (dentries s !! start) ->
  resolves s (path_resolve_impl root follow allow want hops start path s).
Proof.
  revert start path s. induction hops as [|hops IH]; intros start path s O Hr Hs; cbn [path_resolve_impl].
  - eexists _, s. split; [done|]. split; [done|]. split; [apply (lk_refl _ _ LK)|]. split; [by left|done].
  - destruct path as [|c p].
    + case_match; [|apply finish_spec; auto; done].
      eexists _, s. split; [done|]. split; [done|]. split; [apply (lk_refl _ _ LK)|]. split; [by right|done].
    + apply loop_spec; auto. right. by case_match.
Qed.

End Resolve.

Lemma lookups_open {F} `{!FsCalls F} `{!FsOk F} `{!FsLaws F} (R : Z -> Z) :
  lookups (fun s : vfs F => open_ok s R) grows.
Proof.
  split.
  - apply grows_refl.
  - apply grows_trans.
  - apply grows_Some.
  - intros s x d [I _] Hd. destruct (inv_dentries _ _ _ I) as [_ H]. by destruct (H x d Hd) as (_ & _ & ?).
  - intros. by apply vfs_finddir_spec.
Qed.

Lemma lookups_entries {F} `{!FsCalls F} `{!FsLookup F} :
  lookups (F := F) entries_ok (fun s s' => dentries s ⊆ dentries s').
Proof.
  split.
  - done.
  - intros s1 s2 s3 H1 H2. by etrans.
  - intros s s' x H [d Hd]. exists d. by apply (lookup_weaken (dentries s)).
  - intros s x d (_ & H & _) Hd. by apply (H x d Hd).
  - intros. by apply finddir_entries.
Qed.

Section Wrappers.
Context {F : Type} `{!FsCalls F} `{!FsOk F} `{!FsLaws F}.
Implicit Types s : vfs F.

Lemma relative_spec s R root current path follow :
  open_ok s R -> is_Some (dentries s !! root) -> is_Some (dentries s !! current) ->
  exists x s', (if follow : bool then path_resolve_relative root current path s
                else path_resolve_relative_no_follow root current path s) = Some (x, s') /\
    open_ok s' R /\ grows s s' /\ (x = 0 \/ is_Some (dentries s' !! x)).
Proof.
  intros O Hr Hc. destruct path as [|c p].
  { exists current, s. split; [by destruct follow|]. split; [done|]. split; [apply grows_refl|by right]. }
  destruct (impl_spec _ _ (lookups_open R) root follow false false VFS_SYMLINK_MAX_DEPTH current (c :: p) s O Hr Hc)
    as (x & s' & E & O' & G & Hx & _).
  exists (r_node x), s'. split; [|done]. unfold path_resolve_relative, path_resolve_relative_no_follow.
  destruct follow; rewrite E; done.
Qed.

Lemma optional_spec s R root current path :
  open_ok s R -> is_Some (dentries s !! root) -> is_Some (dentries s !! current) ->
  exists x b e s', path_resolve_optional root current path s = Some (x, b, e, s') /\
    open_ok s' R /\ grows s s' /\ (x = 0 \/ is_Some (dentries s' !! x)).
Proof.
  intros O Hr Hc.
  destruct (impl_spec _ _ (lookups_open R) root true true true VFS_SYMLINK_MAX_DEPTH current path s O Hr Hc)
    as (x & s' & E & O' & G & Hx & _).
  unfold path_resolve_optional. rewrite E. cbn. eexists _, _, _, s'. split; [done|done].
Qed.

End Wrappers.

(** ** Building and resolving *)

(** A name that a component of a path can have. *)
Definition valid_name (n : cstring) : Prop :=
  n <> [] /\ SLASH ∉ n /\ n <> DOT /\ n <> DOTDOT /\ (length n <= 255)%nat.

Lemma next_component_app n rest :
  SLASH ∉ n -> next_component (n ++ write_parts rest) = (n, write_parts rest).
Proof.
  induction n as [|c n IH]; intros Hn; simpl.
  - destruct rest; [done|]. simpl. done.
  - apply not_elem_of_cons in Hn as [Hc Hn]. rewrite (proj2 (Z.eqb_neq c SLASH)) by congruence.
    by rewrite IH.
Qed.

Lemma skip_slashes_app n rest : valid_name n -> skip_slashes (SLASH :: n ++ write_parts rest) = n ++ write_parts rest.
Proof.
  intros (Hne & Hs & _). destruct n as [|c n]; [done|]. apply not_elem_of_cons in Hs as [Hc _]. simpl.
  by rewrite (proj2 (Z.eqb_neq c SLASH)) by congruence.
Qed.

Section Build.
Context {F : Type} `{!FsCalls F}.
Implicit Types s : vfs F.

(** The entries from [root] down to [x], with their names. *)
Inductive chain s (root : Z) : Z -> list cstring -> Prop :=
| chain_root : chain s root root []
| chain_child x d names :
    x <> root -> dentries s !! x = Some d -> chain s root (d_parent d) names ->
    chain s root x (names ++ [d_name d]).

(** The file system has the path [names] from inode [i] to inode [j], without
    symbolic links. *)
Fixpoint tree_path s (i : Z) (names : list cstring) (j : Z) : Prop :=
  match names with
  | [] => i = j
  | n :: names => valid_name n /\ has (n_type (nodes s i)) VFS_TYPE_DIRECTORY = true /\
      n_ops (nodes s i) FinddirNode <> 0 /\
      exists k, finddir_inode i n s = Some (k, s) /\ k <> 0 /\
        n_type (nodes s k) <> VFS_TYPE_SYMLINK /\ tree_path s k names j
  end.

Lemma chain_mono s s' root x names :
  (forall y d, dentries s !! y = Some d -> dentries s' !! y = Some d) ->
  chain s root x names -> chain s' root x names.
Proof.
  intros H. induction 1 as [|x d names Hx Hd Hc IH]; [apply chain_root|]. apply chain_child; auto.
Qed.

Lemma chain_parts s root x names :
  chain s root x names -> forall fuel, (length names < fuel)%nat ->
  path_parts fuel root x s = Some (reverse names).
Proof.
  induction 1 as [|x d names Hx Hd Hc IH]; intros [|fuel] Hf; try lia; cbn [path_parts].
  - by rewrite Z.eqb_refl.
  - rewrite (proj2 (Z.eqb_neq x root)) by done. rewrite Hd. cbn [mbind option_bind].
    rewrite length_app in Hf. simpl in Hf. rewrite IH by lia. cbn. by rewrite reverse_snoc.
Qed.

Lemma total_length_app a b : total_length (a ++ b) = total_length a + total_length b.
Proof. induction a; simpl; lia. Qed.

Lemma total_length_reverse l : total_length (reverse l) = total_length l.
Proof. induction l as [|p l IH]; [done|]. rewrite reverse_cons, total_length_app. simpl. lia. Qed.

Lemma write_parts_length l : slen (write_parts l) = Z.of_nat (length l) + total_length l.
Proof.
  induction l as [|p l IH]; simpl; [done|]. unfold slen in *. simpl. rewrite length_app. lia.
Qed.

(** The path of the names, which the buffer must hold with its terminator. *)
Definition path_string (names : list cstring) : cstring :=
  match names with [] => [SLASH] | _ => write_parts names end.

Lemma build_spec s root x names fuel size :
  chain s root x names -> (length names < fuel)%nat ->
  path_build_absolute fuel root x size s =
    Some (if size <? slen (path_string names) + 1 then None else Some (path_string names)).
Proof.
  intros Hc Hf. unfold path_build_absolute. rewrite (chain_parts s root x names Hc fuel Hf). cbn [mbind option_bind].
  rewrite length_reverse, total_length_reverse. unfold path_string. destruct names as [|n names]; [change (slen [SLASH]) with 1; cbn; by destruct (size <? _)|].
  rewrite (proj2 (Z.eqb_neq _ 0)) by (simpl; lia). rewrite reverse_involutive, write_parts_length.
  by destruct (size <? _).
Qed.

(** Entries added to [s]; everything else the same. *)
Definition entries_added s s' : Prop :=
  exists ds n, s' = set_next n (set_dentries ds s) /\ dentries s ⊆ ds /\ next_object s <= n.

(** File systems whose directories are fixed: a lookup changes nothing. *)
Context (lookup : F -> (Z -> vfs_node) -> Z -> Z -> cstring -> Z)
  (Hpure : forall p i n s, call_finddir p i n s = (lookup (fs s) (nodes s) p i n, s)).

Lemma finddir_added s s' i n k :
  entries_added s s' -> (forall p, p ∈ root_content s -> is_Some (dentries s !! p.2)) ->
  finddir_inode i n s = Some (k, s) -> finddir_inode i n s' = Some (k, s').
Proof.
  intros (ds & m & -> & Hds & _) Hrc. unfold finddir_inode. cbn [nodes set_next set_dentries]. case_match.
  - unfold root_finddir. cbn [root_content dentries set_next set_dentries].
    destruct (list_find _ (root_content s)) as [[j p]|] eqn:E; cbn; [|by intros [= <-]].
    apply list_find_Some in E as (Hj & _). destruct (Hrc p) as [d Hd]; [by eapply list_elem_of_lookup_2|].
    rewrite Hd, (lookup_weaken _ _ _ _ Hd Hds). cbn. by intros [= <-].
  - rewrite !Hpure. by intros [= <-].
Qed.

Lemma tree_path_added s s' i names j :
  entries_added s s' -> (forall p, p ∈ root_content s -> is_Some (dentries s !! p.2)) ->
  tree_path s i names j -> tree_path s' i names j.
Proof.
  intros A Hrc. revert i. induction names as [|n names IH]; intros i; [done|]. cbn [tree_path].
  intros (Hn & Hdir & Hop & k & Hk & Hk0 & Hl & Hp).
  pose proof A as (ds & m & E & _). subst s'. cbn [nodes set_next set_dentries].
  split; [done|]. split; [done|]. split; [done|]. exists k. split; [by apply (finddir_added s)|].
  split; [done|]. split; [done|]. by apply IH.
Qed.

Context (root : Z).

(** Resolving the names from the entry [y]. *)
Lemma resolve_names again follow names : forall y s fuel i j prefix,
  (0 < next_object s) ->
  (forall x, is_Some (dentries s !! x) -> 0 < x < next_object s) ->
  (forall p, p ∈ root_content s -> is_Some (dentries s !! p.2)) ->
  dentry_node s y = i -> is_Some (dentries s !! y) -> chain s root y prefix ->
  is_Some (dentries s !! root) ->
  tree_path s i names j -> (length (write_parts names) < fuel)%nat ->
  exists z s', resolve_loop root follow false false again fuel (write_parts names) y s =
      Some (mk_resolved z false None, s') /\
    dentry_node s' z = j /\ is_Some (dentries s' !! z) /\ chain s' root z (prefix ++ names).
Proof.
  induction names as [|n names IH]; intros y s fuel i j prefix H0 Hlt Hrc Hi Hy Hch Hr Hp Hf.
  - destruct fuel as [|fuel]; [simpl in Hf; lia|]. cbn. exists y, s. rewrite app_nil_r.
    cbn in Hp. subst. done.
  - destruct fuel as [|fuel]; [simpl in Hf; lia|].
    destruct Hp as (Hn & Hdir & Hop & k & Hk & Hk0 & Hl & Hp). pose proof Hn as (Hne & Hsl & Hd1 & Hd2 & Hlen).
    cbn [resolve_loop]. change (write_parts (n :: names)) with (SLASH :: n ++ write_parts names) in *.
    rewrite (skip_slashes_app n names Hn).
    destruct Hy as [d Hd]. assert (y <> 0) as Hy0 by (destruct (Hlt y); [by eexists|lia]).
    assert (d_inode d = i) as Hdi by (unfold dentry_node in Hi; rewrite Hd in Hi; done).
    destruct (n ++ write_parts names) as [|c q] eqn:Eq; [by destruct n|]. rewrite <- Eq.
    rewrite (proj2 (Z.eqb_neq y 0)) by done. rewrite (next_component_app n names Hsl).
    rewrite !decide_False by done. unfold vfs_finddir. rewrite Hd. cbn [mbind option_bind]. rewrite Hdi, Hdir.
    cbn [negb]. rewrite (proj2 (Z.eqb_neq _ 0)) by done. rewrite Hk. cbn [mbind option_bind].
    rewrite (proj2 (Z.eqb_neq k 0)) by done.
    set (e := mk_dentry (dentry_name n) y k). set (z := next_object s).
    assert (entries_added s (new_dentry e s).2) as Hadd.
    { eexists _, _. split; [done|]. split; [|lia]. apply insert_subseteq.
      destruct (dentries s !! next_object s) as [e'|] eqn:E; [|done].
      destruct (Hlt (next_object s)); [by eexists|lia]. }
    destruct (new_dentry e s) as [z' s1] eqn:Enew. assert (z' = z) as -> by (by injection Enew).
    assert (s1 = set_next (z + 1) (set_dentries (<[z := e]> (dentries s)) s)) as Es1 by (by injection Enew).
    cbn [snd] in Hadd. cbn [mbind option_bind].
    rewrite (proj2 (Z.eqb_neq z 0)) by (unfold z; lia). cbn [andb].
    assert (dentries s1 !! z = Some e) as Hz by (subst s1; cbn; apply lookup_insert_eq).
    unfold is_symlink. rewrite Hz. cbn [mbind option_bind].
    assert (nodes s1 = nodes s) as Hnodes by (by subst s1).
    rewrite Hnodes, (proj2 (Z.eqb_neq _ _)) by done. cbn [andb].
    assert (forall x, x <> z -> dentries s1 !! x = dentries s !! x) as Hold.
    { intros x Hx. subst s1. cbn. by rewrite lookup_insert_ne. }
    assert (forall x d', dentries s !! x = Some d' -> dentries s1 !! x = Some d') as Hmono.
    { intros x d' Hx. rewrite Hold; [done|]. destruct (Hlt x); [by eexists|unfold z; lia]. }
    assert (dentry_name n = n) as Hname by (unfold dentry_name; apply take_ge; change (Z.to_nat (VFS_MAX_FILENAME - 1)) with 255%nat; lia).
    assert (chain s1 root z (prefix ++ [n])) as Hch1.
    { rewrite <- Hname. apply (chain_child s1 root z e); [|done|by apply (chain_mono s)].
      intros E. rewrite <- E in Hr. destruct (Hlt _ Hr). unfold z in *. lia. }
    destruct (IH z s1 fuel k j (prefix ++ [n])) as (w & s' & E & Hw1 & Hw2 & Hw3); try done.
    + subst s1. cbn. unfold z. lia.
    + intros x Hx. subst s1. cbn in Hx |- *. apply lookup_insert_is_Some in Hx as [<-|[_ Hx]]; [unfold z; lia|].
      specialize (Hlt x Hx). unfold z. lia.
    + intros p Hin. assert (p ∈ root_content s) as Hin' by (by subst s1).
      destruct (Hrc p Hin') as [d' Hd']. exists d'. by apply Hmono.
    + unfold dentry_node. by rewrite Hz.
    + destruct Hr as [d' Hd']. exists d'. by apply Hmono.
    + by apply (tree_path_added s).
    + assert (length (c :: q) = length n + length (write_parts names))%nat as HL by (by rewrite <- Eq, length_app).
      simpl in Hf, HL. destruct n; [done|]. simpl in HL. lia.
    + exists w, s'. rewrite E. rewrite <- app_assoc in Hw3. done.
Qed.

End Build.

Lemma impl_slash {F : Type} `{!FsCalls F} root follow allow want hops start p (s : vfs F) :
  path_resolve_impl root follow allow want (S hops) start (SLASH :: p) s =
  resolve_loop root follow allow want (path_resolve_impl root follow allow want hops)
    (S (length (SLASH :: p))) (SLASH :: p) root s.
Proof. done. Qed.

(** Building and resolving, in a file system whose directories are fixed. *)
Lemma build_resolve {F : Type} `{!FsCalls F} (lookup : F -> (Z -> vfs_node) -> Z -> Z -> cstring -> Z)
    (root current x : Z) (names : list cstring) (fuel : nat) (size : Z) (s : vfs F) :
  (forall p i n s, call_finddir p i n s = (lookup (fs s) (nodes s) p i n, s)) ->
  entries_ok s -> is_Some (dentries s !! root) -> chain s root x names ->
  tree_path s (dentry_node s root) names (dentry_node s x) -> (length names < fuel)%nat ->
  path_build_absolute fuel root x size s =
    Some (if size <? slen (path_string names) + 1 then None else Some (path_string names)) /\
  exists y s', path_resolve_relative root current (path_string names) s = Some (y, s') /\
    dentry_node s' y = dentry_node s x /\
    path_build_absolute fuel root y size s' = path_build_absolute fuel root x size s.
Proof.
  intros Hpure (H0 & Hden & Hrc) Hr Hc Ht Hf. rewrite (build_spec s root x names fuel size Hc Hf). split; [done|].
  assert (forall y, is_Some (dentries s !! y) -> 0 < y < next_object s) as Hlt.
  { intros y [d Hd]. by destruct (Hden y d Hd). }
  destruct (resolve_names lookup Hpure root (path_resolve_impl root true false false 39) true names root s
    (S (length (path_string names))) _ _ [] H0 Hlt Hrc eq_refl Hr (chain_root s root) Hr Ht)
    as (y & s' & E & Hy & _ & Hch).
  { destruct names; simpl; lia. }
  exists y, s'. assert (path_resolve_relative root current (path_string names) s = Some (y, s')) as ->.
  { unfold path_resolve_relative. destruct names as [|n names]; [cbn in E |- *; by injection E as <- <-|].
    cbn [path_string write_parts] in *. change VFS_SYMLINK_MAX_DEPTH with 40%nat. by rewrite impl_slash, E. }
  split; [done|]. split; [done|]. by rewrite (build_spec s' root y names fuel size Hch Hf).
Qed.

(** ** Properties *)

(** C39: path resolution returns for every path, whatever the look-ups of the drivers
    find and the symbolic links hold, as long as a look-up frees no entry: within one
    round per byte and 40 symbolic links it gives an entry that exists or [NULL], it
    uses no freed entry, and all entries there were are kept. *)
Theorem path_resolve_returns {F : Type} `{!FsCalls F} `{!FsLookup F} (root : Z) (follow allow want : bool)
    (start : Z) (path : cstring) (s : vfs F) :
  entries_ok s -> is_Some (dentries s !! root) -> is_Some (dentries s !! start) ->
  exists x s', path_resolve_impl root follow allow want VFS_SYMLINK_MAX_DEPTH start path s = Some (x, s') /\
    entries_ok s' /\ dentries s ⊆ dentries s' /\ (r_node x = 0 \/ is_Some (dentries s' !! r_node x)) /\
    (r_missing x = true -> r_node x <> 0).
Proof. apply (impl_spec _ _ lookups_entries). Qed.

(** A file system with the directory [/a] and the file [/a/b]. *)
Definition demo_lookup (_ i : Z) (n : cstring) : Z :=
  if decide (i = 1 /\ n = [97]) then 2 else if decide (i = 2 /\ n = [98]) then 3 else 0.

Definition demo_calls : FsCalls () := {|
  call_open _ _ _ _ s := (0, s); call_close _ _ _ s := s; call_release _ _ s := s;
  call_truncate _ _ s := (0, s); call_read _ _ _ _ s := (0, [], s); call_write _ _ _ _ s := (0, s);
  call_readdir _ _ _ _ := None; call_finddir p i n s := (demo_lookup p i n, s);
  call_mkdir _ _ _ s := (0, s); call_mkfile _ _ _ s := (EIO, s); call_readlink _ _ _ _ := (0, []);
  call_stat _ _ _ := 0; call_sync _ _ s := s |}.

Definition demo_node (t : Z) : vfs_node :=
  mk_node [] t 0 0 0 0 (fun op => if decide (op = FinddirNode) then 7 else 0) 0.

Definition demo_vfs : vfs () :=
  mk_vfs {[ 10 := mk_dentry [] 10 1; 11 := mk_dentry [97] 10 2; 12 := mk_dentry [98] 11 3 ]}
    (fun i => if i =? 3 then demo_node VFS_TYPE_FILE else demo_node VFS_TYPE_DIRECTORY)
    ∅ [] 0 [] 10 20 ().

Definition no_refs : Z -> Z := fun _ => 0.

#[export] Instance unit_ok : FsOk () := {| fs_ok _ _ := True; fs_ok_mono _ _ _ _ H := H |}.

Lemma demo_open_ok : open_ok demo_vfs no_refs.
Proof.
  split; [|intros h [f Hf]; cbn in Hf; by rewrite lookup_empty in Hf]. split; try done.
  - split; [done|]. intros x d Hd. cbn [demo_vfs dentries] in *.
    apply lookup_insert_Some in Hd as [[<- <-]|[_ Hd]]; [by split; [|split; [|right; by eexists]]|].
    apply lookup_insert_Some in Hd as [[<- <-]|[_ Hd]]; [by split; [|split; [|right; by eexists]]|].
    apply lookup_singleton_Some in Hd as [<- <-]. by split; [|split; [|right; by eexists]].
  - intros p Hp. by apply elem_of_nil in Hp.
  - intros x. cbn. by case_match.
Qed.

(** The same tree, with a new inode for each lookup. *)
Definition lazy_calls : FsCalls () := {|
  call_open _ _ _ _ s := (0, s); call_close _ _ _ s := s; call_release _ _ s := s;
  call_truncate _ _ s := (0, s); call_read _ _ _ _ s := (0, [], s); call_write _ _ _ _ s := (0, s);
  call_readdir _ _ _ _ := None;
  call_finddir p i n s := if demo_lookup p i n =? 0 then (0, s) else
    new_node (set_open_count 0 (nodes s (demo_lookup p i n))) s;
  call_mkdir _ _ _ s := (0, s); call_mkfile _ _ _ s := (EIO, s); call_readlink _ _ _ _ := (0, []);
  call_stat _ _ _ := 0; call_sync _ _ s := s |}.

#[export] Instance lazy_laws : @FsLaws () lazy_calls unit_ok.
Proof.
  split; intros; try apply kept_refl; cbn -[demo_lookup] in *.
  - case_match; [apply kept_refl|]. split; cbn; try done; [lia|].
    intros x Hx. rewrite upd_cases. case_decide; [|done]. subst. cbn. destruct Hx as [?|Hx]; [lia|done].
  - case_match; cbn; lia.
Qed.

#[export] Instance lazy_lookup : @FsLookup () lazy_calls.
Proof. split; intros; cbn -[demo_lookup]; case_match; cbn; done || lia. Qed.

Lemma path_resolve_returns_witness :
  exists x s', @path_resolve_impl () lazy_calls 10 true false false VFS_SYMLINK_MAX_DEPTH 11 [46; 46; 47; 97] demo_vfs
      = Some (x, s') /\
    entries_ok s' /\ dentries demo_vfs ⊆ dentries s' /\ (r_node x = 0 \/ is_Some (dentries s' !! r_node x)) /\
    (r_missing x = true -> r_node x <> 0).
Proof.
  apply (@path_resolve_returns () lazy_calls lazy_lookup 10 true false false 11).
  - apply (vinv_entries _ no_refs settled), demo_open_ok.
  - by eexists.
  - by eexists.
Defined.
