(* ===== verification/FileDesc.v ===== *)
(** File descriptors and the system calls on files: a model of [task_add_fd],
    [task_setup_stdio] and the descriptor parts of [task_fork] and [task_destroy] in
    [src/kernel/kernel/task/task.c], of [syscall_get_descriptor_by_fd], and of the
    calls in [src/kernel/kernel/task/syscall/].

    A task owns its descriptors, so its array is a list of records and a pointer to
    a descriptor is an index.  As in Vfs, [None] is the use of a freed object. *)

From S2P Require Import Prelude StrDict Errno Vfs Path.
From Stdlib Require Import ZArith Lia Bool.
From stdpp Require Import base tactics numbers list gmap.
Open Scope Z_scope.

Record fdesc := mk_fdesc { fd_file : Z; fd_identifier : Z }.

(** What a task has of the file system. *)
Record task_files := mk_task_files { fds : list fdesc; root_node : Z; working_directory : Z }.

Definition set_fds l t := mk_task_files l (root_node t) (working_directory t).
Definition set_cwd d t := mk_task_files (fds t) (root_node t) d.

Record kernel (F : Type) := mk_kernel { kvfs : vfs F; ktasks : gmap Z task_files }.
Arguments mk_kernel {F}.
Arguments kvfs {F}.
Arguments ktasks {F}.

Definition AT_FDCWD : Z := -1.
Definition SEEK_SET : Z := 1.
Definition SEEK_CUR : Z := 2.
Definition SEEK_END : Z := 3.

(** ** Descriptors *)

(** The largest identifier as [int], -1 without descriptors. *)
Fixpoint largest_identifier (l : list fdesc) (largest : Z) : Z :=
  match l with
  | [] => largest
  | d :: l => largest_identifier l (if largest <? i32 (fd_identifier d) then i32 (fd_identifier d) else largest)
  end.

(** The descriptor for [handler] and the new array; [None] for [NULL]. *)
Definition task_add_fd (l : list fdesc) (handler : Z) : option (nat * list fdesc) :=
  if handler =? 0 then None else
  match list_find (fun d => fd_file d = 0) l with
  | Some (i, d) => Some (i, <[i := mk_fdesc handler (fd_identifier d)]> l)
  | None => Some (length l, l ++ [mk_fdesc handler (u32 (largest_identifier l (-1) + 1))])
  end.

Definition descriptor_by_fd (l : list fdesc) (fd : Z) : option nat :=
  if fd <? 0 then None else
  fst <$> list_find (fun d => fd_file d <> 0 /\ fd_identifier d = u32 fd) l.

(** [fd[i]->file = file] *)
Definition set_fd_file (i : nat) (file : Z) (l : list fdesc) : list fdesc :=
  alter (fun d => mk_fdesc file (fd_identifier d)) i l.

Section Calls.
Context {F : Type} `{!FsCalls F}.
Implicit Types (k : kernel F) (s : vfs F).

Definition set_kvfs s k : kernel F := mk_kernel s (ktasks k).
Definition set_task_files (pid : Z) t k : kernel F := mk_kernel (kvfs k) (<[pid := t]> (ktasks k)).

(** The body of a call of the task [pid]; -[ENOTSUP] without a current task. *)
Definition with_task (pid : Z) k (body : task_files -> option (Z * kernel F)) : option (Z * kernel F) :=
  match ktasks k !! pid with None => Some (- ENOTSUP, k) | Some t => body t end.

(** *** Opening and closing *)

(** The entry to open, or the error to return. *)
Definition open_node_for (t : task_files) (path : cstring) (flags : Z) s : option (Z * Z * vfs F) :=
  '(node, basename, file_exists, s) ← path_resolve_optional (root_node t) (working_directory t) path s;
  if node =? 0 then Some (0, - ENOENT, s) else
  if negb file_exists && negb (has flags O_CREAT) then Some (0, - ENOENT, s) else
  if negb file_exists then
    let parent := node in
    let name := default [] basename in
    '(mkfile_res, s) ← vfs_mkfile parent name s;
    if negb (mkfile_res =? 0) then
      s ← vfs_dentry_unref parent s;
      Some (0, - mkfile_res, s)
    else
      '(node, s) ← vfs_finddir parent name s;
      if node =? 0 then Some (0, - ENOENT, s) else Some (node, 0, s)
  else Some (node, 0, s).

Definition sys_open (pid : Z) (path : cstring) (flags : Z) k : option (Z * kernel F) :=
  with_task pid k (fun t =>
    '(node, err, s) ← open_node_for t path flags (kvfs k);
    if node =? 0 then Some (err, set_kvfs s k) else
    '(handler, err, s) ← vfs_open node flags s;
    if handler =? 0 then Some (if err =? 0 then - EIO else - err, set_kvfs s k) else
    match task_add_fd (fds t) handler with
    | None => Some (- EIO, set_kvfs s k)
    | Some (i, l) =>
        d ← l !! i;
        Some (fd_identifier d, set_task_files pid (set_fds l t) (set_kvfs s k))
    end).

Definition sys_close (pid fd : Z) k : option (Z * kernel F) :=
  match ktasks k !! pid with
  | None => Some (- ENOTSUP, k)
  | Some t =>
      match descriptor_by_fd (fds t) fd with
      | None => Some (- ENOTSUP, k)
      | Some i =>
          d ← fds t !! i;
          s ← vfs_close (fd_file d) (kvfs k);
          Some (0, set_task_files pid (set_fds (set_fd_file i 0 (fds t)) t) (set_kvfs s k))
      end
  end.

(** *** Duplicating *)

Definition sys_dup_no_newfd (pid : Z) (t : task_files) (fd_obj : nat) k : option (Z * kernel F) :=
  d ← fds t !! fd_obj;
  match task_add_fd (fds t) (fd_file d) with
  | None => Some (- EIO, k)
  | Some (i, l) =>
      e ← l !! i;
      s ← vfs_bump_refcount (fd_file e) (kvfs k);
      Some (fd_identifier e, set_task_files pid (set_fds l t) (set_kvfs s k))
  end.

Definition sys_dup_with_newfd (pid : Z) (t : task_files) (fd_obj : nat) (newfd : Z) k : option (Z * kernel F) :=
  match list_find (fun d => fd_identifier d = u32 newfd) (fds t) with
  | None =>
      d ← fds t !! fd_obj;
      match task_add_fd (fds t) (fd_file d) with
      | None => Some (- EIO, k)
      | Some (i, l) =>
          let l := alter (fun e => mk_fdesc (fd_file e) (u32 newfd)) i l in
          d ← l !! fd_obj;
          s ← vfs_bump_refcount (fd_file d) (kvfs k);
          Some (newfd, set_task_files pid (set_fds l t) (set_kvfs s k))
      end
  | Some (i, existing) =>
      s ← (if fd_file existing =? 0 then Some (kvfs k) else vfs_close (fd_file existing) (kvfs k));
      d ← fds t !! fd_obj;
      let l := set_fd_file i (fd_file d) (fds t) in
      d ← l !! fd_obj;
      s ← vfs_bump_refcount (fd_file d) s;
      Some (newfd, set_task_files pid (set_fds l t) (set_kvfs s k))
  end.

Definition sys_dup (pid oldfd newfd flags : Z) k : option (Z * kernel F) :=
  if negb (flags =? 0) || (oldfd <? 0) then Some (- EINVAL, k) else
  with_task pid k (fun t =>
    match descriptor_by_fd (fds t) oldfd with
    | None => Some (- EBADF, k)
    | Some fd_obj =>
        if newfd =? -1 then sys_dup_no_newfd pid t fd_obj k else sys_dup_with_newfd pid t fd_obj newfd k
    end).

(** *** Reading and writing *)

(** A call on the file of a descriptor; [missing] is its error. *)
Definition on_file (pid fd missing : Z) k (body : Z -> option (Z * kernel F)) : option (Z * kernel F) :=
  match ktasks k !! pid with
  | None => Some (- missing, k)
  | Some t =>
      match descriptor_by_fd (fds t) fd with
      | None => Some (- missing, k)
      | Some i => d ← fds t !! i; body (fd_file d)
      end
  end.

(** The bytes go to the buffer of the caller, which is not part of this state. *)
Definition sys_read (pid fd count : Z) k : option (Z * kernel F) :=
  on_file pid fd EBADF k (fun file =>
    '(result, _, s) ← vfs_read file count (kvfs k);
    Some (i32 result, set_kvfs s k)).

Definition sys_write (pid fd : Z) (buf : list Z) k : option (Z * kernel F) :=
  on_file pid fd EBADF k (fun file =>
    '(result, s) ← vfs_write file buf (kvfs k);
    Some (i32 result, set_kvfs s k)).

Definition sys_lseek (pid fd offset whence : Z) k : option (Z * kernel F) :=
  on_file pid fd EBADF k (fun file =>
    f ← files (kvfs k) !! file;
    let seek new_offset :=
      s ← vfs_seek file (new_offset mod 2 ^ 64) (kvfs k);
      Some (new_offset, set_kvfs s k) in
    if whence =? SEEK_SET then seek offset else
    if whence =? SEEK_CUR then seek (i32 (f_offset f + offset)) else
    if whence =? SEEK_END then
      node ← file_node file (kvfs k);
      seek (i32 (n_length (nodes (kvfs k) node) + offset))
    else Some (- EINVAL, k)).

Definition sys_fstat (pid fd : Z) k : option (Z * kernel F) :=
  on_file pid fd ENOENT k (fun file =>
    f ← files (kvfs k) !! file;
    r ← vfs_stat (f_dentry f) (kvfs k);
    Some (- r, k)).

(** *** Directories *)

Definition sys_stat (pid : Z) (path : cstring) (link_ignore : bool) k : option (Z * kernel F) :=
  with_task pid k (fun t =>
    '(node, s) ← (if link_ignore
       then path_resolve_relative_no_follow (root_node t) (working_directory t) path (kvfs k)
       else path_resolve_relative (root_node t) (working_directory t) path (kvfs k));
    if node =? 0 then Some (- ENOENT, set_kvfs s k) else
    r ← vfs_stat node s;
    Some (- r, set_kvfs s k)).

Definition sys_chdir (pid : Z) (path : cstring) k : option (Z * kernel F) :=
  with_task pid k (fun t =>
    '(new_workdir, s) ← path_resolve_relative (root_node t) (working_directory t) path (kvfs k);
    if new_workdir =? 0 then Some (- ENOENT, set_kvfs s k) else
    Some (0, set_task_files pid (set_cwd new_workdir t) (set_kvfs s k))).

(** The string in the buffer, if it fits. *)
Definition sys_getcwd (fuel : nat) (pid size : Z) k : option (option cstring) :=
  match ktasks k !! pid with
  | None => Some None
  | Some t => path_build_absolute fuel (root_node t) (working_directory t) size (kvfs k)
  end.

Definition sys_mkdir (pid dirfd : Z) (path : cstring) k : option (Z * kernel F) :=
  with_task pid k (fun t =>
    let s := kvfs k in
    let base :=
      if dirfd =? AT_FDCWD then Some (Some (working_directory t)) else
      match descriptor_by_fd (fds t) dirfd with
      | None => Some None
      | Some i => d ← fds t !! i; f ← files s !! fd_file d; Some (Some (f_dentry f))
      end in
    base ← base;
    match base with
    | None => Some (- EBADF, k)
    | Some relative_base =>
        if relative_base =? 0 then Some (- EBADF, k) else
        b ← dentries s !! relative_base;
        if negb (has (n_type (nodes s (d_inode b))) VFS_TYPE_DIRECTORY) then Some (- ENOTDIR, k) else
        '(parent_node, basename, file_already_exists, s) ← path_resolve_optional (root_node t) relative_base path s;
        if parent_node =? 0 then Some (- ENOENT, set_kvfs s k) else
        if (file_already_exists : bool) then Some (- EEXIST, set_kvfs s k) else
        '(res, s) ← vfs_mkdir parent_node (default [] basename) s;
        Some (- res, set_kvfs s k)
    end).

(** The entries from the offset on, at most [n], and the new offset. *)
Fixpoint getdents_loop (n : nat) (dentry offset : Z) s : option (list dirent * Z) :=
  match n with
  | O => Some ([], offset)
  | S n =>
      res ← vfs_readdir dentry (u32 offset) s;
      match res with
      | None => Some ([], offset)
      | Some e => '(l, o) ← getdents_loop n dentry (u64_add offset 1) s; Some (e :: l, o)
      end
  end.

(** The number of entries, those entries, and the state. *)
Definition sys_getdents (pid fd count : Z) k : option (Z * list dirent * kernel F) :=
  match ktasks k !! pid with
  | None => Some (- EBADF, [], k)
  | Some t =>
      match descriptor_by_fd (fds t) fd with
      | None => Some (- EBADF, [], k)
      | Some i =>
          d ← fds t !! i;
          f ← files (kvfs k) !! fd_file d;
          if f_dentry f =? 0 then Some (- EBADF, [], k) else
          node ← file_node (fd_file d) (kvfs k);
          if node =? 0 then Some (- EBADF, [], k) else
          if negb (has (n_type (nodes (kvfs k) node)) VFS_TYPE_DIRECTORY) then Some (- ENOTDIR, [], k) else
          '(l, offset) ← getdents_loop (Z.to_nat count) (f_dentry f) (f_offset f) (kvfs k);
          s ← update_file (fd_file d) (set_offset offset) (kvfs k);
          Some (Z.of_nat (length l), l, set_kvfs s k)
      end
  end.

(** ** Tasks *)

(** The descriptors of a child. *)
Fixpoint bump_all (l : list fdesc) s : option (vfs F) :=
  match l with
  | [] => Some s
  | d :: l => s ← vfs_bump_refcount (fd_file d) s; bump_all l s
  end.

Definition fork_files (parent child : Z) k : option (kernel F) :=
  t ← ktasks k !! parent;
  s ← bump_all (fds t) (kvfs k);
  Some (set_task_files child t (set_kvfs s k)).

(** The end of a task. *)
Fixpoint close_all (l : list fdesc) s : option (vfs F) :=
  match l with
  | [] => Some s
  | d :: l =>
      s ← (if fd_file d =? 0 then Some s else vfs_close (fd_file d) s);
      close_all l s
  end.

Definition destroy_files (pid : Z) k : option (kernel F) :=
  t ← ktasks k !! pid;
  s ← close_all (fds t) (kvfs k);
  Some (mk_kernel s (delete pid (ktasks k))).

(** The path ["/dev/tty"]. *)
Definition DEV_TTY : cstring := [47; 100; 101; 118; 47; 116; 116; 121].

Definition task_setup_stdio (pid : Z) k : option (kernel F) :=
  match ktasks k !! pid with
  | None => Some k
  | Some t =>
      if negb (Z.of_nat (length (fds t)) =? 0) then Some k else
      '(tty_node, s) ← path_resolve_relative (root_node t) (root_node t) DEV_TTY (kvfs k);
      if tty_node =? 0 then Some (set_kvfs s k) else
      '(stdin, _, s) ← vfs_open tty_node O_RDONLY s;
      if stdin =? 0 then Some (set_kvfs s k) else
      '(stdout, _, s) ← vfs_open tty_node O_WRONLY s;
      if stdout =? 0 then s ← vfs_close stdin s; Some (set_kvfs s k) else
      '(stderr, _, s) ← vfs_open tty_node O_WRONLY s;
      if stderr =? 0 then s ← vfs_close stdin s; s ← vfs_close stdout s; Some (set_kvfs s k) else
      Some (set_task_files pid (set_fds [mk_fdesc stdin 0; mk_fdesc stdout 1; mk_fdesc stderr 2] t) (set_kvfs s k))
  end.

End Calls.
