(* ===== verification/FileDescSpec.v ===== *)
(** File descriptors: the reference count of a file handle is the number of
    descriptors that refer to it.

    The invariant [kinv] holds after every sequence of the modelled system calls,
    forks and exits, and under it no call uses a freed handle or entry.  The two
    exceptions the code has are theorems: duplicating a descriptor onto itself and a
    failed creation of a file in the working directory. *)

From S2P Require Import Prelude StrDict Errno Vfs VfsSpec Path PathSpec FileDesc.
From Stdlib Require Import ZArith Lia Bool.
From stdpp Require Import base tactics numbers list gmap relations.
Open Scope Z_scope.

(** ** Sums over tasks *)

Section Sum.
Context {A : Type}.
Implicit Types (g : A -> Z) (m : gmap Z A).

Definition msum g m : Z := map_fold (fun _ a n => g a + n) 0 m.

Lemma msum_insert g m k a : m !! k = None -> msum g (<[k := a]> m) = g a + msum g m.
Proof. intros H. unfold msum. rewrite map_fold_insert_L; [done| |done]. intros. lia. Qed.

Lemma msum_delete g m k a : m !! k = Some a -> msum g m = g a + msum g (delete k m).
Proof.
  intros H. rewrite <- (insert_delete_id m k a H) at 1. apply msum_insert, lookup_delete_eq.
Qed.

Lemma msum_update g m k a b : m !! k = Some a -> msum g (<[k := b]> m) = msum g m - g a + g b.
Proof.
  intros H. rewrite (msum_delete g m k a H), <- insert_delete_eq, msum_insert; [lia|]. apply lookup_delete_eq.
Qed.

Lemma msum_nonneg g m : (forall a, 0 <= g a) -> 0 <= msum g m.
Proof.
  intros Hg. induction m as [|k a m H IH] using map_ind; [done|]. rewrite msum_insert by done.
  specialize (Hg a). lia.
Qed.

Lemma msum_le g g' m : (forall a, g a <= g' a) -> msum g m <= msum g' m.
Proof.
  intros Hg. induction m as [|k a m H IH] using map_ind; [done|]. rewrite !msum_insert by done.
  specialize (Hg a). lia.
Qed.

End Sum.

(** ** References *)

Definition fd_count (h : Z) (l : list fdesc) : Z := lcount (fun d => fd_file d =? h) l.

(** The descriptors of all tasks that refer to the handle [h]. *)
Definition refs (T : gmap Z task_files) (h : Z) : Z :=
  if h =? 0 then 0 else msum (fun t => fd_count h (fds t)) T.

(** Descriptors of a task that have the same number below 2^31 are the same. *)
Definition ids_ok (l : list fdesc) : Prop :=
  (forall d, d ∈ l -> 0 <= fd_identifier d < 2 ^ 32) /\
  forall i j d e, l !! i = Some d -> l !! j = Some e ->
    fd_identifier d = fd_identifier e -> fd_identifier d < 2 ^ 31 -> i = j.

Record task_ok {F} (s : vfs F) (t : task_files) : Prop := {
  ok_root : is_Some (dentries s !! root_node t);
  ok_cwd : is_Some (dentries s !! working_directory t);
  ok_ids : ids_ok (fds t) }.

Definition kinv {F} `{!FsOk F} (k : kernel F) : Prop :=
  open_ok (kvfs k) (refs (ktasks k)) /\
  forall pid t, ktasks k !! pid = Some t -> task_ok (kvfs k) t.

(** Few enough descriptors, handles and root entries for the counters. *)
Definition roomy {F} (k : kernel F) : Prop :=
  file_handles_open_count (kvfs k) + Z.of_nat (length (root_content (kvfs k))) + 20 < 2 ^ 31 /\
  msum (fun t => Z.of_nat (length (fds t))) (ktasks k) < 2 ^ 30.

Lemma refs_nonneg T h : 0 <= refs T h.
Proof. unfold refs. case_match; [done|]. apply msum_nonneg. intros. apply lcount_nonneg. Qed.

Lemma refs_small {F} (k : kernel F) h : roomy k -> refs (ktasks k) h < 2 ^ 30.
Proof.
  intros [_ H]. unfold refs. case_match; [done|].
  pose proof (msum_le (fun t => fd_count h (fds t)) (fun t => Z.of_nat (length (fds t))) (ktasks k)
    ltac:(intros; apply lcount_le)). lia.
Qed.

Lemma refs_insert T pid t h :
  T !! pid = None -> refs (<[pid := t]> T) h = refs T h + (if h =? 0 then 0 else fd_count h (fds t)).
Proof. intros H. unfold refs. case_match; [done|]. rewrite msum_insert by done. lia. Qed.

Lemma refs_update T pid t t' h :
  T !! pid = Some t ->
  refs (<[pid := t']> T) h = refs T h + (if h =? 0 then 0 else fd_count h (fds t') - fd_count h (fds t)).
Proof. intros H. unfold refs. case_match; [done|]. rewrite (msum_update _ _ _ t) by done. lia. Qed.

Lemma refs_delete T pid t h :
  T !! pid = Some t -> refs T h = refs (delete pid T) h + (if h =? 0 then 0 else fd_count h (fds t)).
Proof. intros H. unfold refs. case_match; [done|]. rewrite (msum_delete _ _ _ t) by done. lia. Qed.

Lemma lcount_lookup {A} P (l : list A) i x : l !! i = Some x -> P x = true -> 0 < lcount P l.
Proof.
  intros H E. rewrite <- (take_drop_middle l i x H), lcount_app. simpl. rewrite E.
  pose proof (lcount_nonneg P (take i l)). pose proof (lcount_nonneg P (drop (S i) l)). lia.
Qed.

Lemma refs_pos T pid t i d h :
  T !! pid = Some t -> fds t !! i = Some d -> fd_file d = h -> h <> 0 ->
  0 < fd_count h (fds t) <= refs T h.
Proof.
  intros Ht Hi Hd Hh. unfold refs. rewrite (proj2 (Z.eqb_neq h 0)) by done.
  assert (0 < fd_count h (fds t)) as H.
  { apply (lcount_lookup _ _ i d Hi). by apply Z.eqb_eq. }
  rewrite (msum_delete _ _ _ t) by done.
  pose proof (msum_nonneg (fun t => fd_count h (fds t)) (delete pid T) ltac:(intros; apply lcount_nonneg)). lia.
Qed.

(** *** Descriptor arrays *)

Lemma list_alter_insert {A} (g : A -> A) (l : list A) i x : l !! i = Some x -> alter g i l = <[i := g x]> l.
Proof.
  revert i. induction l as [|y l IH]; intros [|i] H; simpl in *; simplify_eq; [done|].
  f_equal. by apply IH.
Qed.

Lemma fd_count_set i file l d h :
  l !! i = Some d ->
  fd_count h (set_fd_file i file l) =
    fd_count h l - (if fd_file d =? h then 1 else 0) + (if file =? h then 1 else 0).
Proof.
  intros H. unfold set_fd_file, fd_count. rewrite (list_alter_insert _ _ _ d H).
  by rewrite (lcount_insert _ _ _ d _ H).
Qed.

Lemma ids_ok_alter i g l :
  (forall d, fd_identifier (g d) = fd_identifier d) -> ids_ok l -> ids_ok (alter g i l).
Proof.
  intros Hg [H1 H2]. split.
  - intros d Hd. apply list_elem_of_lookup in Hd as [j Hj]. 
    destruct (decide (i = j)) as [->|Hne].
    + rewrite list_lookup_alter_eq in Hj. apply fmap_Some in Hj as (e & He & ->). rewrite Hg.
      apply H1. by eapply list_elem_of_lookup_2.
    + rewrite list_lookup_alter_ne in Hj by done. apply H1. by eapply list_elem_of_lookup_2.
  - assert (forall j d, alter g i l !! j = Some d -> exists e, l !! j = Some e /\ fd_identifier e = fd_identifier d) as Hl.
    { intros j d Hj. destruct (decide (i = j)) as [->|Hne].
      - rewrite list_lookup_alter_eq in Hj. apply fmap_Some in Hj as (e & He & ->). exists e. by rewrite Hg.
      - rewrite list_lookup_alter_ne in Hj by done. by exists d. }
    intros a b d e (d' & Hd & Ed)%Hl (e' & He & Ee)%Hl E Hlt. apply (H2 a b d' e'); try done; congruence.
Qed.

Lemma largest_ge l m : m <= largest_identifier l m /\
  forall d, d ∈ l -> i32 (fd_identifier d) <= largest_identifier l m.
Proof.
  revert m. induction l as [|e l IH]; intros m; simpl.
  - split; [lia|]. by intros d ?%elem_of_nil.
  - destruct (IH (if m <? i32 (fd_identifier e) then i32 (fd_identifier e) else m)) as [H1 H2].
    assert (m <= largest_identifier l (if m <? i32 (fd_identifier e) then i32 (fd_identifier e) else m) /\
      i32 (fd_identifier e) <= largest_identifier l (if m <? i32 (fd_identifier e) then i32 (fd_identifier e) else m)) as [G1 G2].
    { destruct (Z.ltb_spec m (i32 (fd_identifier e))); lia. }
    split; [done|]. intros d [->|Hd]%elem_of_cons; [done|by apply H2].
Qed.

Lemma largest_lt l m : m < 2 ^ 31 -> largest_identifier l m < 2 ^ 31.
Proof.
  revert m. induction l as [|e l IH]; intros m Hm; simpl; [done|]. apply IH.
  pose proof (i32_range (fd_identifier e)). case_match; lia.
Qed.

Lemma ids_ok_snoc l file :
  ids_ok l -> ids_ok (l ++ [mk_fdesc file (u32 (largest_identifier l (-1) + 1))]).
Proof.
  intros [H1 H2]. destruct (largest_ge l (-1)) as [G0 G1]. pose proof (largest_lt l (-1) ltac:(lia)) as G2.
  rewrite u32_small by lia. set (n := largest_identifier l (-1) + 1).
  assert (forall j d, l !! j = Some d -> fd_identifier d = n -> n < 2 ^ 31 -> False) as Hnew.
  { intros j d Hj E Hn. specialize (G1 d (list_elem_of_lookup_2 _ _ _ Hj)).
    rewrite i32_small in G1 by lia. lia. }
  split.
  - intros d [Hd| ->%list_elem_of_singleton]%elem_of_app; [by apply H1|]. cbn. lia.
  - intros i j d e [Hi|[Hi1 Hi]]%lookup_app_Some [Hj|[Hj1 Hj]]%lookup_app_Some E Hlt.
    + by apply (H2 i j d e).
    + apply list_lookup_singleton_Some in Hj as [_ <-]. cbn in E. exfalso. apply (Hnew i d Hi); [done|lia].
    + apply list_lookup_singleton_Some in Hi as [_ <-]. cbn in E, Hlt. exfalso. by apply (Hnew j e Hj).
    + apply list_lookup_singleton_Some in Hi as [? _], Hj as [? _]. lia.
Qed.

Lemma task_add_fd_spec l file :
  file <> 0 -> ids_ok l ->
  exists i l' id, task_add_fd l file = Some (i, l') /\ l' !! i = Some (mk_fdesc file id) /\ ids_ok l' /\
    (forall h, h <> 0 -> fd_count h l' = fd_count h l + (if file =? h then 1 else 0)) /\
    (forall j d, l !! j = Some d -> fd_file d <> 0 -> l' !! j = Some d) /\
    (forall j d, j <> i -> l' !! j = Some d -> l !! j = Some d).
Proof.
  intros Hf Hids. unfold task_add_fd. rewrite (proj2 (Z.eqb_neq file 0)) by done.
  destruct (list_find (fun d => fd_file d = 0) l) as [[i d]|] eqn:E.
  - apply list_find_Some in E as (Hi & Hd & _). exists i, (<[i := mk_fdesc file (fd_identifier d)]> l), (fd_identifier d).
    split; [done|]. split; [apply list_lookup_insert_eq; by apply lookup_lt_Some in Hi|].
    split; [rewrite <- (list_alter_insert (fun d => mk_fdesc file (fd_identifier d)) _ _ d Hi); by apply ids_ok_alter|].
    split; [|split; [|intros j e Hj; by rewrite list_lookup_insert_ne]].
    + intros h Hh. unfold fd_count. rewrite (lcount_insert _ _ _ d _ Hi). cbn. rewrite Hd.
      rewrite (proj2 (Z.eqb_neq 0 h)) by congruence. lia.
    + intros j e Hj He. rewrite list_lookup_insert_ne; [done|]. intros ->. congruence.
  - eexists (length l), _, _. split; [done|]. split; [by rewrite lookup_app_r, Nat.sub_diag by done|].
    split; [by apply ids_ok_snoc|]. split; [|split].
    + intros h Hh. unfold fd_count. rewrite lcount_app. cbn. lia.
    + intros j e Hj He. by apply lookup_app_l_Some.
    + intros j e Hj [He|[Hl He]]%lookup_app_Some; [done|].
      apply list_lookup_singleton_Some in He as [? _]. lia.
Qed.

Lemma descriptor_by_fd_Some l fd i :
  descriptor_by_fd l fd = Some i -> 0 <= fd /\ exists d, l !! i = Some d /\ fd_file d <> 0 /\ fd_identifier d = u32 fd.
Proof.
  unfold descriptor_by_fd. destruct (Z.ltb_spec fd 0); [done|]. intros ([j d] & E & ->)%fmap_Some.
  apply list_find_Some in E as (Hj & [? ?] & _). split; [done|]. by exists d.
Qed.

(** ** The calls *)

Section Calls.
Context {F : Type} `{!FsCalls F} `{!FsOk F} `{!FsLaws F}.
Implicit Types (k : kernel F) (s : vfs F).

(** The call returns and the invariant holds. *)
Definition ok_call {A} (r : option (A * kernel F)) : Prop := exists v k', r = Some (v, k') /\ kinv k'.

Lemma task_ok_extends s s' t : extends s s' -> task_ok s t -> task_ok s' t.
Proof. intros E [H1 H2 H3]. split; [by apply (extends_Some s)..|done]. Qed.

Lemma kinv_vfs k s : kinv k -> open_ok s (refs (ktasks k)) -> extends (kvfs k) s -> kinv (set_kvfs s k).
Proof.
  intros [_ T] O E. split; [done|]. intros pid t Ht. by apply (task_ok_extends (kvfs k)), (T pid).
Qed.

Lemma kinv_task k s pid t :
  kinv k -> open_ok s (refs (<[pid := t]> (ktasks k))) -> extends (kvfs k) s -> task_ok s t ->
  kinv (set_task_files pid t (set_kvfs s k)).
Proof.
  intros [_ T] O E H. split; [done|]. intros p t' Ht. cbn in Ht.
  apply lookup_insert_Some in Ht as [[<- <-]|[_ Ht]]; [done|].
  by apply (task_ok_extends (kvfs k)), (T p).
Qed.

(** Counts after a change of the descriptors of a task. *)
Lemma refs_changed T pid t l (R' : Z -> Z) :
  T !! pid = Some t -> (forall h, h <> 0 -> R' h = refs T h + (fd_count h l - fd_count h (fds t))) -> R' 0 = 0 ->
  forall h, refs (<[pid := set_fds l t]> T) h = R' h.
Proof.
  intros Ht HR H0 h. rewrite (refs_update T pid t) by done. cbn [fds set_fds].
  destruct (Z.eqb_spec h 0) as [->|Hh]; [rewrite H0; done|]. by rewrite HR.
Qed.

Lemma roomy_small k : roomy k -> small (kvfs k).
Proof. intros [H _]. unfold small. lia. Qed.

Lemma small_root_of k : roomy k -> kinv k -> small_root (kvfs k).
Proof.
  intros [Hs _] [[I _] _]. unfold small_root in *. rewrite (tab_count _ (inv_table _ _ _ I)) in Hs.
  pose proof (lcount_nonneg nonzero (file_handles (kvfs k))). lia.
Qed.

(** Closing the file of descriptor [i]. *)
Lemma close_fd k pid t i d s :
  kinv k -> roomy k -> ktasks k !! pid = Some t -> fds t !! i = Some d -> fd_file d <> 0 -> s = kvfs k ->
  exists s', vfs_close (fd_file d) s = Some s' /\
    open_ok s' (refs (ktasks k)).[fd_file d <- refs (ktasks k) (fd_file d) - 1] /\ extends s s' /\ same_tree s s'.
Proof.
  intros K Hr Ht Hi Hd ->. pose proof (refs_pos _ _ _ _ _ _ Ht Hi eq_refl Hd) as [Hp1 Hp2].
  destruct (vfs_close_spec (kvfs k) (refs (ktasks k)) (fd_file d)) as (s' & E & O & T).
  - apply K.
  - by apply small_root_of.
  - pose proof (refs_small k (fd_file d) Hr). lia.
  - exists s'. split; [done|]. split; [done|]. split; [by apply tree_extends|done].
Qed.

Lemma sys_close_ok k pid fd : kinv k -> roomy k -> ok_call (sys_close pid fd k).
Proof.
  intros K Hr. unfold sys_close. destruct (ktasks k !! pid) as [t|] eqn:Ht; [|by eexists _, k].
  destruct (descriptor_by_fd (fds t) fd) as [i|] eqn:Ei; [|by eexists _, k].
  apply descriptor_by_fd_Some in Ei as (_ & d & Hi & Hd & _). rewrite Hi. cbn [mbind option_bind].
  destruct (close_fd k pid t i d _ K Hr Ht Hi Hd eq_refl) as (s' & -> & O & E & _). cbn [mbind option_bind].
  eexists _, _. split; [done|]. destruct K as [K T]. apply kinv_task; [done| |done|].
  - apply (open_ok_ext _ _ _ O). apply (refs_changed _ pid t); [done| |].
    + intros h Hh. rewrite (fd_count_set i 0 _ d h Hi), upd_cases.
      rewrite (proj2 (Z.eqb_neq 0 h)) by congruence.
      case_decide as E1; [subst; rewrite Z.eqb_refl; lia|]. rewrite (proj2 (Z.eqb_neq _ _)) by congruence. lia.
    + rewrite upd_ne by congruence. done.
  - destruct (task_ok_extends _ s' t E (T pid t Ht)) as [H1 H2 H3]. split; [done|done|]. by apply ids_ok_alter.
Qed.

(** Adding a descriptor for a handle whose count [R'] has one more than before. *)
Lemma add_fd_kinv k pid t file s R' l' :
  kinv k -> ktasks k !! pid = Some t -> file <> 0 -> extends (kvfs k) s -> open_ok s R' ->
  (forall h, R' h = refs (ktasks k) h + (if file =? h then 1 else 0)) ->
  ids_ok l' -> (forall h, h <> 0 -> fd_count h l' = fd_count h (fds t) + (if file =? h then 1 else 0)) ->
  kinv (set_task_files pid (set_fds l' t) (set_kvfs s k)).
Proof.
  intros K Ht Hf E O HR Hids Hc. pose proof K as [_ T]. apply kinv_task; [done| |done|].
  - apply (open_ok_ext _ _ _ O). apply (refs_changed _ pid t); [done| |].
    + intros h Hh. rewrite HR, Hc by done. lia.
    + rewrite HR, (proj2 (Z.eqb_neq file 0)) by done. done.
  - destruct (task_ok_extends _ s t E (T pid t Ht)) as [H1 H2 H3]. by split.
Qed.

(** The entry to open exists; the creation of a file succeeds or is not asked for. *)
Lemma open_node_ok k t path flags :
  kinv k -> roomy k -> task_ok (kvfs k) t -> has flags O_CREAT = false ->
  exists node err s, open_node_for t path flags (kvfs k) = Some (node, err, s) /\
    open_ok s (refs (ktasks k)) /\ grows (kvfs k) s /\ (node = 0 \/ is_Some (dentries s !! node)).
Proof.
  intros [K _] Hr [H1 H2 _] Hc. unfold open_node_for.
  destruct (optional_spec (kvfs k) (refs (ktasks k)) (root_node t) (working_directory t) path K H1 H2)
    as (x & b & e & s & -> & O & G & Hx). cbn [mbind option_bind]. rewrite Hc.
  destruct (x =? 0); [eexists _, _, s; split; [done|]; split; [done|]; split; [done|by left]|].
  destruct e; cbn [negb andb]; eexists _, _, s; (split; [done|]; split; [done|]; split; [done|auto]).
Qed.

Lemma open_entry_ok k pid t s node flags err0 :
  kinv k -> ktasks k !! pid = Some t -> open_ok s (refs (ktasks k)) -> extends (kvfs k) s -> small s ->
  (node = 0 \/ is_Some (dentries s !! node)) ->
  ok_call (if node =? 0 then Some (err0, set_kvfs s k) else
    '(handler, err, s) ← vfs_open node flags s;
    if handler =? 0 then Some (if err =? 0 then - EIO else - err, set_kvfs s k) else
    match task_add_fd (fds t) handler with
    | None => Some (- EIO, set_kvfs s k)
    | Some (i, l) =>
        d ← l !! i;
        Some (fd_identifier d, set_task_files pid (set_fds l t) (set_kvfs s k))
    end).
Proof.
  intros K Ht O E Hs Hn. destruct (Z.eqb_spec node 0) as [E0|E0].
  { eexists _, _. split; [done|]. by apply kinv_vfs. }
  destruct Hn as [?|Hn]; [done|].
  destruct (vfs_open_spec s (refs (ktasks k)) node flags O Hs Hn) as (h & err & s' & -> & T' & H').
  assert (extends (kvfs k) s') as E' by (eapply extends_trans; [done|by apply tree_extends]).
  cbn [mbind option_bind]. destruct H' as [(-> & Herr & O')|(Hh & -> & HR & O')].
  - cbn [Z.eqb]. eexists _, _. split; [done|]. by apply kinv_vfs.
  - assert (h <> 0) as Hh0 by (subst; destruct O as [I _]; destruct (inv_dentries _ _ _ I); lia).
    rewrite (proj2 (Z.eqb_neq h 0)) by done. pose proof K as [_ T].
    destruct (task_add_fd_spec (fds t) h Hh0 (ok_ids _ _ (T pid t Ht))) as (i & l & id & -> & Hi & Hids & Hc & _).
    rewrite Hi. cbn [mbind option_bind]. eexists _, _. split; [done|].
    eapply add_fd_kinv; try done. intros h'. rewrite upd_cases. case_decide as Eh.
    + subst h'. rewrite HR, Z.eqb_refl. done.
    + rewrite (proj2 (Z.eqb_neq h h')) by congruence. lia.
Qed.

Lemma grows_small s s' : grows s s' -> small s -> small s'.
Proof. intros (_ & A & _ & _ & B). unfold small. by rewrite A, B. Qed.

Lemma sys_open_ok k pid path flags :
  kinv k -> roomy k -> has flags O_CREAT = false -> ok_call (sys_open pid path flags k).
Proof.
  intros K Hr Hc. unfold sys_open, with_task. destruct (ktasks k !! pid) as [t|] eqn:Ht; [|by eexists _, k].
  destruct (open_node_ok k t path flags K Hr (proj2 K pid t Ht) Hc) as (node & err & s & -> & O & G & Hn).
  cbn [mbind option_bind]. apply open_entry_ok; try done; [by apply grows_extends|].
  by apply (grows_small (kvfs k)), roomy_small.
Qed.

(** *** Duplicating *)

Lemma bump_ok k s R' h :
  open_ok s R' -> 0 < R' h -> R' h < 2 ^ 30 -> extends (kvfs k) s ->
  exists s', vfs_bump_refcount h s = Some s' /\ open_ok s' R'.[h <- R' h + 1] /\ extends (kvfs k) s'.
Proof.
  intros O Hp Hb E. destruct (vfs_bump_spec s R' h O Hp) as (s' & Es & O' & T); [lia|].
  exists s'. split; [done|]. split; [done|]. eapply extends_trans; [done|by apply tree_extends].
Qed.

Lemma dup_new k pid t i d :
  kinv k -> roomy k -> ktasks k !! pid = Some t -> fds t !! i = Some d -> fd_file d <> 0 ->
  exists s j l id, task_add_fd (fds t) (fd_file d) = Some (j, l) /\ l !! j = Some (mk_fdesc (fd_file d) id) /\
    l !! i = Some d /\ ids_ok l /\ (forall b e, b <> j -> l !! b = Some e -> fds t !! b = Some e) /\
    vfs_bump_refcount (fd_file d) (kvfs k) = Some s /\
    (forall l', ids_ok l' -> (forall h, fd_count h l' = fd_count h l) ->
      kinv (set_task_files pid (set_fds l' t) (set_kvfs s k))).
Proof.
  intros K Hr Ht Hi Hd. pose proof K as [O T]. pose proof (refs_pos _ _ _ _ _ _ Ht Hi eq_refl Hd) as [Hp1 Hp2].
  destruct (task_add_fd_spec (fds t) (fd_file d) Hd (ok_ids _ _ (T pid t Ht)))
    as (j & l & id & El & Hj & Hids & Hc & Hold & Hrest).
  destruct (bump_ok k (kvfs k) (refs (ktasks k)) (fd_file d) O ltac:(lia) (refs_small k _ Hr) (extends_refl _))
    as (s & Es & O' & E').
  exists s, j, l, id. split; [done|]. split; [done|]. split; [by apply Hold|]. split; [done|]. split; [done|]. split; [done|].
  intros l' Hids' Hc'. eapply (add_fd_kinv k pid t (fd_file d)); try done.
  - intros h. rewrite upd_cases. case_decide as Eh.
    + subst. by rewrite Z.eqb_refl.
    + rewrite (proj2 (Z.eqb_neq _ h)) by congruence. lia.
  - intros h Hh. by rewrite Hc', Hc.
Qed.

Lemma ids_ok_newfd l i newfd :
  ids_ok l -> (forall b d, b <> i -> l !! b = Some d -> fd_identifier d <> u32 newfd) ->
  ids_ok (alter (fun e => mk_fdesc (fd_file e) (u32 newfd)) i l).
Proof.
  intros [H1 H2] Hnew. set (g := fun e => mk_fdesc (fd_file e) (u32 newfd)).
  assert (forall j d, alter g i l !! j = Some d ->
    (j = i /\ fd_identifier d = u32 newfd) \/ (j <> i /\ l !! j = Some d)) as Hl.
  { intros j d Hj. destruct (decide (j = i)) as [->|Hne].
    - rewrite list_lookup_alter_eq in Hj. apply fmap_Some in Hj as (e & He & ->). by left.
    - rewrite list_lookup_alter_ne in Hj by done. by right. }
  split.
  - intros d [j Hj]%list_elem_of_lookup. destruct (Hl j d Hj) as [[_ ->]|[_ H]]; [apply u32_range|].
    apply H1. by eapply list_elem_of_lookup_2.
  - intros a b d e Ha Hb E Hlt. destruct (Hl a d Ha) as [[-> Ea]|[Hna Ha']], (Hl b e Hb) as [[-> Eb]|[Hnb Hb']];
      [done| | |by apply (H2 a b d e)].
    + exfalso. apply (Hnew b e); [done|done|congruence].
    + exfalso. apply (Hnew a d); [done|done|congruence].
Qed.

Lemma fd_count_identifier g i l h :
  (forall d, fd_file (g d) = fd_file d) -> fd_count h (alter g i l) = fd_count h l.
Proof.
  intros Hg. destruct (l !! i) as [d|] eqn:Hi.
  - unfold fd_count. rewrite (list_alter_insert _ _ _ d Hi), (lcount_insert _ _ _ d _ Hi), Hg. lia.
  - f_equal. apply list_eq. intros j. destruct (decide (i = j)) as [->|Hne];
      [by rewrite list_lookup_alter_eq, Hi|by rewrite list_lookup_alter_ne].
Qed.

Lemma dup_no_newfd_ok k pid t i d :
  kinv k -> roomy k -> ktasks k !! pid = Some t -> fds t !! i = Some d -> fd_file d <> 0 ->
  ok_call (sys_dup_no_newfd pid t i k).
Proof.
  intros K Hr Ht Hi Hd. unfold sys_dup_no_newfd. rewrite Hi. cbn [mbind option_bind].
  destruct (dup_new k pid t i d K Hr Ht Hi Hd) as (s & j & l & id & -> & Hj & Hli & Hids & _ & Es & Hk).
  rewrite Hj. cbn [mbind option_bind fd_file]. rewrite Es. cbn. eexists _, _. split; [done|]. by apply Hk.
Qed.

(** Two descriptors on one file count twice. *)
Lemma fd_count_two l i j d e h :
  i <> j -> l !! i = Some d -> l !! j = Some e -> fd_file d = h -> fd_file e = h -> 2 <= fd_count h l.
Proof.
  intros Hne Hi Hj Hd He. pose proof (fd_count_set i (h + 1) l d h Hi) as E.
  rewrite Hd, Z.eqb_refl, (proj2 (Z.eqb_neq (h + 1) h)) in E by lia.
  assert (0 < fd_count h (set_fd_file i (h + 1) l)); [|lia].
  apply (lcount_lookup _ _ j e); [|by apply Z.eqb_eq].
  unfold set_fd_file. by rewrite list_lookup_alter_ne.
Qed.

(** Onto another descriptor that exists. *)
Lemma dup_existing_ok k pid t i d j existing :
  kinv k -> roomy k -> ktasks k !! pid = Some t -> fds t !! i = Some d -> fd_file d <> 0 ->
  fds t !! j = Some existing -> i <> j ->
  exists s, (s ← (if fd_file existing =? 0 then Some (kvfs k) else vfs_close (fd_file existing) (kvfs k));
      vfs_bump_refcount (fd_file d) s) = Some s /\
    kinv (set_task_files pid (set_fds (set_fd_file j (fd_file d) (fds t)) t) (set_kvfs s k)).
Proof.
  intros K Hr Ht Hi Hd Hj Hij. pose proof K as [O T].
  pose proof (refs_pos _ _ _ _ _ _ Ht Hi eq_refl Hd) as [Hp1 Hp2]. pose proof (refs_small k (fd_file d) Hr) as Hsm.
  assert (exists s1 R1, (if fd_file existing =? 0 then Some (kvfs k) else vfs_close (fd_file existing) (kvfs k)) = Some s1 /\
    open_ok s1 R1 /\ extends (kvfs k) s1 /\ 0 < R1 (fd_file d) < 2 ^ 30 /\ R1 0 = 0 /\
    forall h, h <> 0 -> R1 h = refs (ktasks k) h - (if fd_file existing =? h then 1 else 0))
    as (s1 & R1 & -> & O1 & E1 & Hb1 & HR0 & HR1).
  { destruct (Z.eqb_spec (fd_file existing) 0) as [E|E].
    - exists (kvfs k), (refs (ktasks k)). split; [done|]. split; [done|]. split; [apply extends_refl|]. split; [lia|].
      split; [done|]. intros h Hh. rewrite E, (proj2 (Z.eqb_neq 0 h)) by congruence. lia.
    - destruct (close_fd k pid t j existing _ K Hr Ht Hj E eq_refl) as (s1 & E1 & O1 & X1 & _).
      eexists s1, _. split; [done|]. split; [exact O1|]. split; [done|]. split; [|split].
      + rewrite upd_cases. case_decide as Eh; [|lia]. rewrite <- Eh.
        pose proof (fd_count_two (fds t) i j d existing (fd_file d) Hij Hi Hj eq_refl (eq_sym Eh)). lia.
      + by rewrite upd_ne by congruence.
      + intros h Hh. rewrite upd_cases. case_decide as Eh; [subst; rewrite Z.eqb_refl; lia|].
        rewrite (proj2 (Z.eqb_neq _ h)) by congruence. lia. }
  cbn [mbind option_bind]. destruct (bump_ok k s1 R1 (fd_file d) O1 ltac:(lia) ltac:(lia) E1) as (s & Es & O' & E').
  exists s. split; [done|]. apply kinv_task; [done| |done|].
  - apply (open_ok_ext _ _ _ O'). apply (refs_changed _ pid t); [done| |by rewrite upd_ne by congruence].
    intros h Hh. rewrite (fd_count_set j _ _ existing h Hj), upd_cases. case_decide as Eh.
    + subst h. rewrite HR1, Z.eqb_refl by done. lia.
    + rewrite HR1, (proj2 (Z.eqb_neq (fd_file d) h)) by congruence. lia.
  - destruct (task_ok_extends _ s t E' (T pid t Ht)) as [H1 H2 H3]. split; [done|done|]. by apply ids_ok_alter.
Qed.

Lemma u32_inj_i32 a b : is_i32 a -> is_i32 b -> u32 a = u32 b -> a = b.
Proof. unfold is_i32, u32. intros. dlia. Qed.

Lemma sys_dup_ok k pid oldfd newfd flags :
  kinv k -> roomy k -> is_i32 oldfd -> is_i32 newfd -> oldfd <> newfd -> ok_call (sys_dup pid oldfd newfd flags k).
Proof.
  intros K Hr Ho Hn Hne. unfold sys_dup, with_task. case_match; [by eexists _, k|].
  destruct (ktasks k !! pid) as [t|] eqn:Ht; [|by eexists _, k].
  destruct (descriptor_by_fd (fds t) oldfd) as [i|] eqn:Ei; [|by eexists _, k].
  apply descriptor_by_fd_Some in Ei as (_ & d & Hi & Hd & Hid).
  case_match; [by eapply dup_no_newfd_ok|]. unfold sys_dup_with_newfd.
  destruct (list_find _ (fds t)) as [[j existing]|] eqn:Ej.
  - apply list_find_Some in Ej as (Hj & Hidj & _).
    assert (i <> j) as Hij.
    { intros ->. rewrite Hi in Hj. simplify_eq. apply Hne, u32_inj_i32; [done..|congruence]. }
    destruct (dup_existing_ok k pid t i d j existing K Hr Ht Hi Hd Hj Hij) as (s & Es & Hk).
    destruct (if fd_file existing =? 0 then _ else _) as [s1|]; [|done]. cbn [mbind option_bind] in *.
    rewrite Hi. cbn [mbind option_bind].
    assert (set_fd_file j (fd_file d) (fds t) !! i = Some d) as -> by (unfold set_fd_file; by rewrite list_lookup_alter_ne).
    cbn [mbind option_bind]. rewrite Es. cbn [mbind option_bind]. by eexists _, _.
  - rewrite Hi. cbn [mbind option_bind].
    destruct (dup_new k pid t i d K Hr Ht Hi Hd) as (s & j & l & id & -> & Hj & Hli & Hids & Hrest & Es & Hk).
    apply list_find_None in Ej. rewrite Forall_forall in Ej.
    assert (i <> j \/ i = j) as Hij by lia.
    assert (exists e, alter (fun e => mk_fdesc (fd_file e) (u32 newfd)) j l !! i = Some e /\ fd_file e = fd_file d)
      as (e & -> & He).
    { destruct Hij as [Hij| ->]; [rewrite list_lookup_alter_ne by done; by exists d|].
      rewrite list_lookup_alter_eq, Hli. by eexists. }
    cbn [mbind option_bind]. rewrite He, Es. cbn [mbind option_bind]. eexists _, _. split; [done|]. apply Hk.
    + apply ids_ok_newfd; [done|]. intros b e' Hb Hbe. apply Ej. eapply list_elem_of_lookup_2. by apply Hrest in Hbe.
    + intros h. by apply fd_count_identifier.
Qed.

(** *** Reading, writing and directories *)

Lemma on_file_ok k pid fd missing body :
  kinv k -> (forall file, 0 < refs (ktasks k) file -> ok_call (body file)) ->
  ok_call (on_file pid fd missing k body).
Proof.
  intros K Hb. unfold on_file. destruct (ktasks k !! pid) as [t|] eqn:Ht; [|by eexists _, k].
  destruct (descriptor_by_fd (fds t) fd) as [i|] eqn:Ei; [|by eexists _, k].
  apply descriptor_by_fd_Some in Ei as (_ & d & Hi & Hd & _). rewrite Hi. cbn. apply Hb.
  pose proof (refs_pos _ _ _ _ _ _ Ht Hi eq_refl Hd). lia.
Qed.

Lemma tree_kinv k s : kinv k -> open_ok s (refs (ktasks k)) -> same_tree (kvfs k) s -> kinv (set_kvfs s k).
Proof. intros K O T. apply kinv_vfs; [done|done|by apply tree_extends]. Qed.

Lemma sys_read_ok k pid fd count : kinv k -> ok_call (sys_read pid fd count k).
Proof.
  intros K. apply on_file_ok; [done|]. intros file Hf.
  destruct (vfs_read_spec (kvfs k) _ file count (proj1 K) Hf) as (n & data & s & -> & O & T). cbn.
  eexists _, _. split; [done|]. by apply tree_kinv.
Qed.

Lemma sys_write_ok k pid fd buf : kinv k -> ok_call (sys_write pid fd buf k).
Proof.
  intros K. apply on_file_ok; [done|]. intros file Hf.
  destruct (vfs_write_spec (kvfs k) _ file buf (proj1 K) Hf) as (n & s & -> & O & T). cbn.
  eexists _, _. split; [done|]. by apply tree_kinv.
Qed.

Lemma sys_lseek_ok k pid fd offset whence : kinv k -> ok_call (sys_lseek pid fd offset whence k).
Proof.
  intros K. apply on_file_ok; [done|]. intros file Hf.
  destruct (open_file _ _ file (proj1 K) Hf) as (f & Ef & _ & _ & Hd). rewrite Ef. cbn [mbind option_bind].
  assert (forall o, ok_call (s ← vfs_seek file (o mod 2 ^ 64) (kvfs k); Some (o, set_kvfs s k))) as Hseek.
  { intros o. unfold vfs_seek.
    destruct (update_open_ok (kvfs k) _ file (set_offset (o mod 2 ^ 64)) (proj1 K) Hf) as (s & -> & O & T); [done|].
    cbn. eexists _, _. split; [done|]. by apply tree_kinv. }
  case_match; [apply Hseek|]. case_match; [apply Hseek|]. case_match; [|by eexists _, k].
  rewrite (file_node_spec _ _ _ Ef Hd). cbn [mbind option_bind]. apply Hseek.
Qed.

Lemma sys_chdir_ok k pid path : kinv k -> ok_call (sys_chdir pid path k).
Proof.
  intros K. unfold sys_chdir, with_task. destruct (ktasks k !! pid) as [t|] eqn:Ht; [|by eexists _, k].
  destruct (proj2 K pid t Ht) as [H1 H2 H3].
  destruct (relative_spec (kvfs k) _ (root_node t) (working_directory t) path true (proj1 K) H1 H2)
    as (x & s & -> & O & G & Hx). cbn [mbind option_bind]. pose proof (grows_extends _ _ G) as E.
  destruct (Z.eqb_spec x 0) as [E0|E0]; [eexists _, _; split; [done|]; by apply kinv_vfs|].
  destruct Hx as [?|Hx]; [done|]. eexists _, _. split; [done|]. apply kinv_task; [done| |done|].
  - apply (open_ok_ext _ _ _ O). intros h. rewrite (refs_update _ _ t) by done. cbn [fds set_cwd]. case_match; lia.
  - split; [by apply (extends_Some (kvfs k))|done|done].
Qed.

(** *** Tasks *)

Lemma bump_all_spec l s R :
  open_ok s R -> (forall d, d ∈ l -> fd_file d <> 0 -> 0 < R (fd_file d)) ->
  (forall h, R h + fd_count h l < 2 ^ 31) -> 
  exists s', bump_all l s = Some s' /\ same_tree s s' /\
    open_ok s' (fun h => R h + (if h =? 0 then 0 else fd_count h l)).
Proof.
  revert s R. induction l as [|d l IH]; intros s R O Hp Hb; cbn [bump_all].
  { exists s. split; [done|]. split; [apply same_tree_refl|]. apply (open_ok_ext _ _ _ O).
    intros h. cbn. case_match; lia. }
  assert (forall h, R h + fd_count h l + (if fd_file d =? h then 1 else 0) < 2 ^ 31) as Hb'.
  { intros h. specialize (Hb h). cbn in Hb. unfold fd_count. lia. }
  destruct (Z.eqb_spec (fd_file d) 0) as [E|E].
  - assert (vfs_bump_refcount (fd_file d) s = Some s) as -> by (unfold vfs_bump_refcount; by rewrite E).
    cbn [mbind option_bind]. destruct (IH s R O) as (s' & -> & T & O').
    + intros e He. apply Hp. by right.
    + intros h. specialize (Hb' h). case_match; lia.
    + exists s'. split; [done|]. split; [done|]. apply (open_ok_ext _ _ _ O').
      intros h. cbn. rewrite E. destruct (Z.eqb_spec h 0); [done|]. rewrite (proj2 (Z.eqb_neq 0 h)) by congruence. done.
  - pose proof (Hp d ltac:(left) E) as Hpd. pose proof (Hb' (fd_file d)) as Hbd. rewrite Z.eqb_refl in Hbd.
    pose proof (lcount_nonneg (fun e => fd_file e =? fd_file d) l) as Hnn. unfold fd_count in Hbd.
    destruct (vfs_bump_spec s R (fd_file d) O Hpd) as (s1 & -> & O1 & T1); [lia|]. cbn [mbind option_bind].
    destruct (IH s1 _ O1) as (s' & -> & T & O').
    + intros e He Hne. rewrite upd_cases. case_decide; [lia|]. apply Hp; [by right|done].
    + intros h. specialize (Hb' h). rewrite upd_cases. case_decide as Eh; [subst; rewrite Z.eqb_refl in Hb'; lia|].
      rewrite (proj2 (Z.eqb_neq (fd_file d) h)) in Hb' by congruence. lia.
    + exists s'. split; [done|]. split; [by eapply same_tree_trans|]. apply (open_ok_ext _ _ _ O').
      intros h. rewrite upd_cases. unfold fd_count. cbn [lcount]. case_decide as Eh.
      * subst. rewrite Z.eqb_refl, (proj2 (Z.eqb_neq (fd_file d) 0)) by done. lia.
      * rewrite (proj2 (Z.eqb_neq (fd_file d) h)) by congruence. done.
Qed.

Lemma fd_member (l : list fdesc) d h : d ∈ l -> fd_file d = h -> 0 < fd_count h l.
Proof. intros [i Hi]%list_elem_of_lookup E. apply (lcount_lookup _ _ i d Hi). by apply Z.eqb_eq. Qed.

Lemma fork_files_ok k parent child :
  kinv k -> roomy k -> is_Some (ktasks k !! parent) -> ktasks k !! child = None ->
  exists k', fork_files parent child k = Some k' /\ kinv k'.
Proof.
  intros K Hr [t Ht] Hc. unfold fork_files. rewrite Ht. cbn [mbind option_bind].
  destruct (bump_all_spec (fds t) (kvfs k) (refs (ktasks k)) (proj1 K)) as (s & -> & T & O).
  - intros d Hd Hne. apply list_elem_of_lookup in Hd as [i Hi].
    pose proof (refs_pos _ _ _ _ _ _ Ht Hi eq_refl Hne). lia.
  - intros h. pose proof (refs_small k h Hr). pose proof (lcount_le (fun d => fd_file d =? h) (fds t)) as Hl.
    destruct Hr as [_ Hr]. rewrite (msum_delete _ _ _ t Ht) in Hr.
    pose proof (msum_nonneg (fun t => Z.of_nat (length (fds t))) (delete parent (ktasks k)) ltac:(intros; cbn; lia)).
    unfold fd_count. lia.
  - cbn. eexists. split; [done|]. apply kinv_task; [done| |by apply tree_extends|].
    + apply (open_ok_ext _ _ _ O). intros h. by rewrite refs_insert.
    + apply (task_ok_extends (kvfs k)); [by apply tree_extends|]. by apply (proj2 K parent).
Qed.

Lemma close_all_spec l s R :
  open_ok s R -> small_root s -> (forall h, h <> 0 -> fd_count h l <= R h < 2 ^ 31) ->
  exists s', close_all l s = Some s' /\ same_tree s s' /\
    open_ok s' (fun h => R h - (if h =? 0 then 0 else fd_count h l)).
Proof.
  revert s R. induction l as [|d l IH]; intros s R O Hs Hb; cbn [close_all].
  { exists s. split; [done|]. split; [apply same_tree_refl|]. apply (open_ok_ext _ _ _ O).
    intros h. cbn. case_match; lia. }
  assert (forall h, h <> 0 -> fd_count h l + (if fd_file d =? h then 1 else 0) <= R h < 2 ^ 31) as Hb'.
  { intros h Hh. specialize (Hb h Hh). cbn in Hb. unfold fd_count. lia. }
  destruct (Z.eqb_spec (fd_file d) 0) as [E|E]; cbn [mbind option_bind].
  - destruct (IH s R O Hs) as (s' & -> & T & O').
    + intros h Hh. specialize (Hb' h Hh). rewrite E, (proj2 (Z.eqb_neq 0 h)) in Hb' by congruence. lia.
    + exists s'. split; [done|]. split; [done|]. apply (open_ok_ext _ _ _ O').
      intros h. cbn. rewrite E. destruct (Z.eqb_spec h 0); [done|]. rewrite (proj2 (Z.eqb_neq 0 h)) by congruence. done.
  - pose proof (Hb' (fd_file d) E) as Hbd. rewrite Z.eqb_refl in Hbd.
    pose proof (lcount_nonneg (fun e => fd_file e =? fd_file d) l) as Hnn. unfold fd_count in Hbd.
    destruct (vfs_close_spec s R (fd_file d) O Hs) as (s1 & -> & O1 & T1); [lia|]. cbn [mbind option_bind].
    destruct (IH s1 _ O1) as (s' & -> & T & O').
    + unfold small_root. by destruct T1 as (_ & -> & _).
    + intros h Hh. specialize (Hb' h Hh). rewrite upd_cases. case_decide as Eh; [subst; rewrite Z.eqb_refl in Hb'; lia|].
      rewrite (proj2 (Z.eqb_neq (fd_file d) h)) in Hb' by congruence. lia.
    + exists s'. split; [done|]. split; [by eapply same_tree_trans|]. apply (open_ok_ext _ _ _ O').
      intros h. rewrite upd_cases. unfold fd_count. cbn [lcount]. case_decide as Eh.
      * subst. rewrite Z.eqb_refl, (proj2 (Z.eqb_neq (fd_file d) 0)) by done. lia.
      * rewrite (proj2 (Z.eqb_neq (fd_file d) h)) by congruence. done.
Qed.

Lemma destroy_files_ok k pid :
  kinv k -> roomy k -> is_Some (ktasks k !! pid) ->
  exists k', destroy_files pid k = Some k' /\ kinv k'.
Proof.
  intros K Hr [t Ht]. unfold destroy_files. rewrite Ht. cbn [mbind option_bind].
  destruct (close_all_spec (fds t) (kvfs k) (refs (ktasks k)) (proj1 K) (small_root_of k Hr K)) as (s & -> & T & O).
  - intros h Hh. pose proof (refs_small k h Hr). pose proof (refs_delete _ _ t h Ht) as E.
    rewrite (proj2 (Z.eqb_neq h 0)) in E by done. pose proof (refs_nonneg (delete pid (ktasks k)) h). lia.
  - cbn. eexists. split; [done|]. split.
    + apply (open_ok_ext _ _ _ O). intros h. cbn. rewrite (refs_delete _ _ t h Ht). lia.
    + intros p t' Ht'. cbn in Ht'. apply lookup_delete_Some in Ht' as [_ Ht'].
      apply (task_ok_extends (kvfs k)); [by apply tree_extends|]. by apply (proj2 K p).
Qed.

(** *** Creating *)

Lemma mkfile_Some k s parent name res s' :
  roomy k -> open_ok s (refs (ktasks k)) -> grows (kvfs k) s -> is_Some (dentries s !! parent) ->
  vfs_mkfile parent name s = Some (res, s') ->
  open_ok s' (refs (ktasks k)) /\ extends s s' /\ small s'.
Proof.
  intros Hr O G Hp E.
  assert (slen name < VFS_MAX_FILENAME \/ (res = ENOTDIR /\ s' = s)) as [Hn|[-> ->]].
  { unfold vfs_mkfile, make_entry in E. destruct (parent =? 0) eqn:E0.
    - apply Z.eqb_eq in E0. subst. destruct O as [I _], Hp as [d Hd].
      destruct (inv_dentries _ _ _ I) as [_ H]. destruct (H 0 d Hd). lia.
    - destruct Hp as [d Hd]. rewrite Hd in E. cbn in E. case_match; [simplify_eq; by right|].
      unfold vfs_populate_node in E. destruct (Z.ltb_spec (slen name) VFS_MAX_FILENAME); [by left|done]. }
  - destruct (make_entry_spec s (refs (ktasks k)) VFS_TYPE_FILE MkfileNode call_mkfile parent name)
      as (res' & s1 & E1 & O1 & X1 & M1 & M2); try done.
    { apply mkfile_kept. }
    { by apply (grows_small (kvfs k)), roomy_small. }
    unfold vfs_mkfile in E. rewrite E1 in E. simplify_eq. split; [done|]. split; [done|].
    destruct G as (_ & A & _ & _ & B), Hr as [Hr _]. unfold small. rewrite A, B in *. lia.
  - split; [done|]. split; [apply extends_refl|]. by apply (grows_small (kvfs k)), roomy_small.
Qed.

Lemma open_node_created k t path flags node err s :
  kinv k -> roomy k -> task_ok (kvfs k) t -> open_node_for t path flags (kvfs k) = Some (node, err, s) -> node <> 0 ->
  open_ok s (refs (ktasks k)) /\ extends (kvfs k) s /\ small s /\ is_Some (dentries s !! node).
Proof.
  intros [K _] Hr [H1 H2 _] E Hn. unfold open_node_for in E.
  destruct (optional_spec (kvfs k) (refs (ktasks k)) (root_node t) (working_directory t) path K H1 H2)
    as (x & b & e & s1 & Ex & O & G & Hx). rewrite Ex in E. cbn [mbind option_bind] in E.
  destruct (Z.eqb_spec x 0) as [E0|E0]; [congruence|]. destruct Hx as [?|Hx]; [done|].
  pose proof (grows_small _ _ G (roomy_small k Hr)) as Hs1.
  destruct e; cbn [negb andb] in E.
  { simplify_eq. split; [done|]. split; [by apply grows_extends|]. done. }
  destruct (has flags O_CREAT); cbn [negb] in E; [|congruence].
  destruct (vfs_mkfile x (default [] b) s1) as [[res s2]|] eqn:Em; [|done]. cbn [mbind option_bind] in E.
  destruct (mkfile_Some k s1 x _ res s2 Hr O G Hx Em) as (O2 & X2 & Hs2).
  destruct (res =? 0); cbn [negb] in E.
  - destruct (vfs_finddir_spec s2 _ x (default [] b) O2) as (y & s3 & Ey & O3 & G3 & Hy).
    { by apply (extends_Some s1). }
    rewrite Ey in E. cbn [mbind option_bind] in E. destruct (Z.eqb_spec y 0); [congruence|]. simplify_eq.
    split; [done|]. split; [|split; [by apply (grows_small s2)|by destruct Hy]].
    eapply extends_trans; [by apply grows_extends|]. eapply extends_trans; [done|by apply grows_extends].
  - destruct (vfs_dentry_unref x s2); cbn in E; congruence.
Qed.

Lemma sys_open_created k pid t path flags node err s :
  kinv k -> roomy k -> ktasks k !! pid = Some t ->
  open_node_for t path flags (kvfs k) = Some (node, err, s) -> node <> 0 -> ok_call (sys_open pid path flags k).
Proof.
  intros K Hr Ht E Hn. unfold sys_open, with_task. rewrite Ht, E. cbn [mbind option_bind].
  destruct (open_node_created k t path flags node err s K Hr (proj2 K pid t Ht) E Hn) as (O & X & Hs & Hd).
  apply open_entry_ok; auto.
Qed.

(** ** Steps *)

(** The system calls, forks and exits of all tasks, in any order. *)
Inductive fstep k : kernel F -> Prop :=
| step_open pid path flags r k' :
    roomy k -> sys_open pid path flags k = Some (r, k') -> has flags O_CREAT = false -> fstep k k'
| step_create pid t path flags r k' node err s :
    roomy k -> ktasks k !! pid = Some t -> open_node_for t path flags (kvfs k) = Some (node, err, s) -> node <> 0 ->
    sys_open pid path flags k = Some (r, k') -> fstep k k'
| step_close pid fd r k' : roomy k -> sys_close pid fd k = Some (r, k') -> fstep k k'
| step_dup pid oldfd newfd flags r k' :
    roomy k -> is_i32 oldfd -> is_i32 newfd -> oldfd <> newfd ->
    sys_dup pid oldfd newfd flags k = Some (r, k') -> fstep k k'
| step_read pid fd count r k' : sys_read pid fd count k = Some (r, k') -> fstep k k'
| step_write pid fd buf r k' : sys_write pid fd buf k = Some (r, k') -> fstep k k'
| step_lseek pid fd offset whence r k' : sys_lseek pid fd offset whence k = Some (r, k') -> fstep k k'
| step_chdir pid path r k' : sys_chdir pid path k = Some (r, k') -> fstep k k'
| step_fork parent child k' :
    roomy k -> ktasks k !! child = None -> fork_files parent child k = Some k' -> fstep k k'
| step_exit pid k' : roomy k -> destroy_files pid k = Some k' -> fstep k k'.

Lemma ok_call_Some {A} (r : option (A * kernel F)) v k' : ok_call r -> r = Some (v, k') -> kinv k'.
Proof. intros (v' & k1 & -> & H) E. by simplify_eq. Qed.

Lemma fstep_kinv k k' : kinv k -> fstep k k' -> kinv k'.
Proof.
  intros K S. destruct S as [pid path flags r k' Hr E Hc|pid t path flags r k' node err s Hr Ht E1 Hn E|pid fd r k' Hr E
    |pid oldfd newfd flags r k' Hr Ho Hn Hne E|pid fd count r k' E|pid fd buf r k' E|pid fd offset whence r k' E
    |pid path r k' E|parent child k' Hr Hc E|pid k' Hr E].
  - eapply ok_call_Some; [|exact E]. by apply sys_open_ok.
  - eapply ok_call_Some; [|exact E]. by eapply sys_open_created.
  - eapply ok_call_Some; [|exact E]. by apply sys_close_ok.
  - eapply ok_call_Some; [|exact E]. by apply sys_dup_ok.
  - eapply ok_call_Some; [|exact E]. by apply sys_read_ok.
  - eapply ok_call_Some; [|exact E]. by apply sys_write_ok.
  - eapply ok_call_Some; [|exact E]. by apply sys_lseek_ok.
  - eapply ok_call_Some; [|exact E]. by apply sys_chdir_ok.
  - destruct (ktasks k !! parent) as [t|] eqn:Ht; [|unfold fork_files in E; by rewrite Ht in E].
    destruct (fork_files_ok k parent child K Hr ltac:(by eexists) Hc) as (k1 & E1 & K1). by simplify_eq.
  - destruct (ktasks k !! pid) as [t|] eqn:Ht; [|unfold destroy_files in E; by rewrite Ht in E].
    destruct (destroy_files_ok k pid K Hr ltac:(by eexists)) as (k1 & E1 & K1). by simplify_eq.
Qed.

Lemma fsteps_kinv k k' : kinv k -> rtc fstep k k' -> kinv k'.
Proof. intros K H. induction H as [|k k1 k2 H1 H2 IH]; [done|]. by apply IH, (fstep_kinv k). Qed.

End Calls.

(** ** Reachable states *)

(** The reference count of an open file is the number of descriptors that refer to it,
    and its entry exists; the file of a descriptor is open; the numbers of the
    descriptors of a task are unique; the root and working directory of a task exist;
    and the next call returns. *)
Record fd_safe {F : Type} `{!FsCalls F} (k : kernel F) : Prop := {
  safe_count h f : files (kvfs k) !! h = Some f ->
    f_refcount f = refs (ktasks k) h /\ 0 < refs (ktasks k) h /\ is_Some (dentries (kvfs k) !! f_dentry f);
  safe_open pid t d : ktasks k !! pid = Some t -> d ∈ fds t -> fd_file d <> 0 -> is_Some (files (kvfs k) !! fd_file d);
  safe_task pid t : ktasks k !! pid = Some t -> task_ok (kvfs k) t;
  safe_calls : roomy k -> forall pid fd,
    (exists r k', sys_close pid fd k = Some (r, k')) /\
    (forall path flags, has flags O_CREAT = false -> exists r k', sys_open pid path flags k = Some (r, k')) /\
    (forall newfd flags, is_i32 fd -> is_i32 newfd -> fd <> newfd -> exists r k', sys_dup pid fd newfd flags k = Some (r, k')) /\
    (forall count, exists r k', sys_read pid fd count k = Some (r, k')) /\
    (forall buf, exists r k', sys_write pid fd buf k = Some (r, k')) /\
    (forall offset whence, exists r k', sys_lseek pid fd offset whence k = Some (r, k')) /\
    (forall path, exists r k', sys_chdir pid path k = Some (r, k')) /\
    (forall child, is_Some (ktasks k !! pid) -> ktasks k !! child = None -> is_Some (fork_files pid child k)) /\
    (is_Some (ktasks k !! pid) -> is_Some (destroy_files pid k)) }.

Lemma reachable_safe {F : Type} `{!FsCalls F} `{!FsOk F} `{!FsLaws F} (k0 k : kernel F) :
  kinv k0 -> rtc fstep k0 k -> fd_safe k.
Proof.
  intros K0 Hsteps. pose proof (fsteps_kinv k0 k K0 Hsteps) as K. pose proof K as [[I X] T].
  assert (forall (r : option (Z * kernel F)), ok_call r -> exists v k', r = Some (v, k')) as Hok.
  { intros r (v & k' & -> & _). by eexists _, _. }
  split; [| |done|intros Hr pid fd; split].

  - intros h f Hf. destruct (inv_file _ _ _ I h f Hf) as (_ & ? & ?). split; [done|]. split; [|done]. apply X. by eexists.
  - intros pid t d Ht [i Hi]%list_elem_of_lookup Hd.
    pose proof (refs_pos _ _ _ _ _ _ Ht Hi eq_refl Hd) as [H1 H2].
    destruct (open_file _ _ (fd_file d) (conj I X)) as (f & Hf & _); [lia|by eexists].
  - by apply Hok, sys_close_ok.
  - split; [|split; [|split; [|split; [|split; [|split; [|split]]]]]].
    + intros path flags Hc. by apply Hok, sys_open_ok.
    + intros newfd flags H1 H2 H3. by apply Hok, sys_dup_ok.
    + intros count. by apply Hok, sys_read_ok.
    + intros buf. by apply Hok, sys_write_ok.
    + intros offset whence. by apply Hok, sys_lseek_ok.
    + intros path. by apply Hok, sys_chdir_ok.
    + intros child Hp Hc. destruct (fork_files_ok k pid child K Hr Hp Hc) as (k' & -> & _). by eexists.
    + intros Hp. destruct (destroy_files_ok k pid K Hr Hp) as (k' & -> & _). by eexists.
Qed.

(** One task without descriptors, in the directory [/a]. *)
Definition demo_kernel : kernel () := mk_kernel demo_vfs {[ 1 := mk_task_files [] 10 11 ]}.

Lemma demo_kinv : kinv demo_kernel.
Proof.
  split.
  - apply (open_ok_ext _ no_refs); [apply demo_open_ok|]. intros h. unfold refs, demo_kernel. cbn [ktasks].
    case_match; [done|]. unfold msum. by rewrite map_fold_singleton.
  - intros pid t Ht. cbn in Ht. apply lookup_singleton_Some in Ht as [<- <-]. split; [by eexists|by eexists|]. split.
    + by intros d ?%elem_of_nil.
    + intros i j d e Hi. cbn in Hi. by rewrite lookup_nil in Hi.
Qed.

(** The kernel after [open("b", O_RDONLY)]. *)
Definition demo_opened : kernel () :=
  match @sys_open () lazy_calls 1 [98] O_RDONLY demo_kernel with Some (_, k) => k | None => demo_kernel end.

(** ** Properties *)

(** [dup2] of a descriptor onto itself, when no other descriptor refers to its
    file, closes and frees the file and then uses it. *)
Theorem dup_same_fd_use_after_free {F : Type} `{!FsCalls F} `{!FsOk F} `{!FsLaws F} (k : kernel F) pid t fd i d :
  kinv k -> roomy k -> ktasks k !! pid = Some t -> is_i32 fd ->
  descriptor_by_fd (fds t) fd = Some i -> fds t !! i = Some d -> refs (ktasks k) (fd_file d) = 1 ->
  sys_dup pid fd fd 0 k = None.
Proof.
  intros K Hr Ht Hfd Ei Hi HR. pose proof Ei as (H0 & d' & Hi' & Hd & Hid)%descriptor_by_fd_Some. simplify_eq.
  unfold sys_dup, with_task. cbn [Z.eqb negb orb]. rewrite (proj2 (Z.ltb_ge _ _)) by done. rewrite Ht, Ei.
  rewrite (proj2 (Z.eqb_neq fd (-1))) by lia. unfold sys_dup_with_newfd.
  destruct (list_find _ (fds t)) as [[j e]|] eqn:Ej.
  2: { apply list_find_None in Ej. rewrite Forall_forall in Ej. exfalso. apply (Ej d); [|done].
       by eapply list_elem_of_lookup_2. }
  apply list_find_Some in Ej as (Hj & Hidj & _).
  assert (i = j) as <-.
  { eapply (proj2 (ok_ids _ _ (proj2 K pid t Ht))); [done|done|congruence|].
    rewrite Hid. unfold is_i32 in Hfd. rewrite u32_small; lia. }
  simplify_eq. rewrite (proj2 (Z.eqb_neq _ 0)) by done.
  destruct (close_fd k pid t i d _ K Hr Ht Hi Hd eq_refl) as (s & -> & [I X] & _). cbn [mbind option_bind].
  rewrite Hi. cbn [mbind option_bind]. unfold set_fd_file. rewrite list_lookup_alter_eq, Hi. cbn [fmap option_fmap option_map mbind option_bind fd_file].
  assert (files s !! fd_file d = None) as Hnone.
  { destruct (files s !! fd_file d) eqn:E; [|done]. specialize (X (fd_file d) ltac:(by eexists)).
    rewrite upd_eq in X. lia. }
  unfold vfs_bump_refcount, update_file. rewrite (proj2 (Z.eqb_neq _ 0)), Hnone by done. done.
Qed.

Lemma dup_same_fd_use_after_free_witness : @sys_dup () lazy_calls 1 0 0 0 demo_opened = None.
Proof.
  assert (kinv demo_opened) as K.
  { apply (@fsteps_kinv () lazy_calls _ lazy_laws demo_kernel); [apply demo_kinv|].
    apply rtc_once. apply (step_open demo_kernel 1 [98] O_RDONLY 0); [split; by_vm| |done]. by vm_compute. }
  apply (@dup_same_fd_use_after_free () lazy_calls _ lazy_laws demo_opened 1
    (mk_task_files [mk_fdesc 22 0] 10 11) 0 0%nat (mk_fdesc 22 0)).
  - exact K.
  - split; by_vm.
  - by vm_compute.
  - by_vm.
  - by vm_compute.
  - by vm_compute.
  - by vm_compute.
Defined.

(** When the creation of a file in the working directory fails, the entry of the
    working directory is freed although the task still uses it: the next path that is
    resolved from it uses the freed entry. *)
Theorem failed_create_frees_cwd :
  exists k, @sys_open () demo_calls 1 [120] (Z.lor O_WRONLY O_CREAT)
      (mk_kernel (set_node 2 (set_op MkfileNode 8 (nodes demo_vfs 2)) demo_vfs) (ktasks demo_kernel)) = Some (- EIO, k) /\
    ktasks k = ktasks demo_kernel /\ dentries (kvfs k) !! 11 = None /\
    @sys_chdir () demo_calls 1 [98] k = None.
Proof. eexists. split; [by vm_compute|]. by vm_compute. Qed.
