(* ===== verification/Sched.v ===== *)
(** The scheduler: a model of [src/kernel/kernel/task/scheduler.c].

    Tasks are a store by address, of which the model keeps the fields the
    scheduler uses.  The four queues are threaded through [next] and [prev].
    [task_destroy] frees the memory of a task; here the task is put on the list
    [destroyed].  The switch of stacks, the page directory and the timer are not
    modelled, nor is the spinlock.  [None] means that a walk does not end within
    [fuel], which bounds the number of tasks; [Panic] is [abort()]. *)

From S2P Require Import Prelude Dll.
From Stdlib Require Import ZArith Lia Bool.
From stdpp Require Import base tactics numbers list sets gmap.
Open Scope Z_scope.

Inductive task_state :=
| TASK_WAITING | TASK_RUNNING | TASK_BLOCKED | TASK_SLEEPING | TASK_ZOMBIE | TASK_DEAD.

#[export] Instance task_state_eq_dec : EqDecision task_state.
Proof. solve_decision. Defined.

Record task := mk_task { t_pid : Z; t_state : task_state; t_next : Z; t_prev : Z; total_runtime : Z }.

Definition set_t_state v t := mk_task (t_pid t) v (t_next t) (t_prev t) (total_runtime t).
Definition set_t_next v t := mk_task (t_pid t) (t_state t) v (t_prev t) (total_runtime t).
Definition set_t_prev v t := mk_task (t_pid t) (t_state t) (t_next t) v (total_runtime t).
Definition set_runtime v t := mk_task (t_pid t) (t_state t) (t_next t) (t_prev t) v.

#[export] Program Instance task_linked : Linked task := {|
  lnext := t_next; lprev := t_prev; set_lnext := set_t_next; set_lprev := set_t_prev |}.
Solve All Obligations with done.

Definition SCHEDULER_RESCHEDULE_COUNT : Z := 1.

Record scheduler_stats := mk_sched_stats {
  num_tasks : Z; num_waiting : Z; num_blocked : Z; num_sleeping : Z; total_idle_time : Z }.

(** The globals of the file.  [queue] is the head of the queue of a state:
    [waiting_queue], [blocked_queue], [sleeping_queue] and [zombie_queue]. *)
Record sched := mk_sched {
  tasks : Z -> task; queue : task_state -> Z; idle_task_pid : Z; current_task : Z;
  tick_count : Z; stats : scheduler_stats; destroyed : list Z }.

Definition set_task x t s := mk_sched (tasks s).[x <- t] (queue s) (idle_task_pid s) (current_task s) (tick_count s) (stats s) (destroyed s).
Definition set_queue q v s :=
  mk_sched (tasks s) (fun q' => if decide (q' = q) then v else queue s q') (idle_task_pid s) (current_task s) (tick_count s) (stats s) (destroyed s).
Definition set_current c s := mk_sched (tasks s) (queue s) (idle_task_pid s) c (tick_count s) (stats s) (destroyed s).
Definition set_tick n s := mk_sched (tasks s) (queue s) (idle_task_pid s) (current_task s) n (stats s) (destroyed s).
Definition set_sched_stats g s := mk_sched (tasks s) (queue s) (idle_task_pid s) (current_task s) (tick_count s) g (destroyed s).
Definition set_destroyed l s := mk_sched (tasks s) (queue s) (idle_task_pid s) (current_task s) (tick_count s) (stats s) l.

(** Adding to the counter of a state. *)
Definition count_state (st : task_state) (f : Z -> Z) (g : scheduler_stats) : scheduler_stats :=
  match st with
  | TASK_WAITING => mk_sched_stats (num_tasks g) (f (num_waiting g)) (num_blocked g) (num_sleeping g) (total_idle_time g)
  | TASK_BLOCKED => mk_sched_stats (num_tasks g) (num_waiting g) (f (num_blocked g)) (num_sleeping g) (total_idle_time g)
  | TASK_SLEEPING => mk_sched_stats (num_tasks g) (num_waiting g) (num_blocked g) (f (num_sleeping g)) (total_idle_time g)
  | _ => g
  end.
Definition set_num_tasks n g := mk_sched_stats n (num_waiting g) (num_blocked g) (num_sleeping g) (total_idle_time g).

(** The states that have a queue, in the order of the code. *)
Definition has_queue (st : task_state) : bool :=
  match st with TASK_RUNNING | TASK_DEAD => false | _ => true end.

(** ** Queues *)

(** [if (head == task) head = task->next] *)
Definition drop_head (q : task_state) (task : Z) (s : sched) : sched :=
  if queue s q =? task then set_queue q (t_next (tasks s task)) s else s.

Definition remove_from_queue (task : Z) (s : sched) : sched :=
  if task =? 0 then s else
  let s := if negb (t_prev (tasks s task) =? 0)
           then set_task (t_prev (tasks s task)) (set_t_next (t_next (tasks s task)) (tasks s (t_prev (tasks s task)))) s
           else s in
  let s := if negb (t_next (tasks s task) =? 0)
           then set_task (t_next (tasks s task)) (set_t_prev (t_prev (tasks s task)) (tasks s (t_next (tasks s task)))) s
           else s in
  let s := drop_head TASK_WAITING task s in
  let s := drop_head TASK_BLOCKED task s in
  let s := drop_head TASK_SLEEPING task s in
  let s := drop_head TASK_ZOMBIE task s in
  let s := set_task task (set_t_prev 0 (tasks s task)) s in
  set_task task (set_t_next 0 (tasks s task)) s.

(** [while (last->next != NULL) last = last->next] *)
Fixpoint last_of (fuel : nat) (ts : Z -> task) (p : Z) : option Z :=
  match fuel with
  | O => None
  | S fuel => if t_next (ts p) =? 0 then Some p else last_of fuel ts (t_next (ts p))
  end.

Section Sched.
Context (fuel : nat).

Definition add_to_queue (task : Z) (s : sched) : option sched :=
  if task =? 0 then Some s else
  let q := t_state (tasks s task) in
  if negb (has_queue q) then Some s else
  if queue s q =? 0 then
    let s := set_queue q task s in
    let s := set_task task (set_t_prev 0 (tasks s task)) s in
    Some (set_task task (set_t_next 0 (tasks s task)) s)
  else
    match last_of fuel (tasks s) (queue s q) with
    | None => None
    | Some last =>
        let s := set_task last (set_t_next task (tasks s last)) s in
        let s := set_task task (set_t_prev last (tasks s task)) s in
        Some (set_task task (set_t_next 0 (tasks s task)) s)
    end.

Definition scheduler_move_task_to_state (task : Z) (new_state : task_state) (s : sched) : option sched :=
  if task =? 0 then Some s else
  let s := set_sched_stats (count_state (t_state (tasks s task)) (fun n => if 0 <? n then n - 1 else n) (stats s)) s in
  let s := remove_from_queue task s in
  let s := set_task task (set_t_state new_state (tasks s task)) s in
  let s := set_sched_stats (count_state new_state (fun n => u32 (n + 1)) (stats s)) s in
  add_to_queue task s.

Definition scheduler_add_task (task : Z) (s : sched) : option sched :=
  scheduler_move_task_to_state task TASK_WAITING s.

(** The loop of [cleanup_dead_tasks]. *)
Fixpoint cleanup_loop (fuel : nat) (zombie : Z) (s : sched) : option sched :=
  match fuel with
  | O => None
  | S fuel =>
      if zombie =? 0 then Some s else
      let next := t_next (tasks s zombie) in
      let s :=
        if decide (t_state (tasks s zombie) = TASK_DEAD) then
          let s := remove_from_queue zombie s in
          let s := set_destroyed (zombie :: destroyed s) s in
          set_sched_stats (set_num_tasks (u32 (num_tasks (stats s) - 1)) (stats s)) s
        else s in
      cleanup_loop fuel next s
  end.

Definition cleanup_dead_tasks (s : sched) : option sched := cleanup_loop fuel (queue s TASK_ZOMBIE) s.

(** ** Choosing a task *)

Definition count_taken (s : sched) : sched :=
  set_sched_stats (count_state TASK_WAITING (fun n => u32 (n - 1)) (stats s)) s.

(** The task, 0 for [NULL].  [depth] bounds the recursion. *)
Fixpoint scheduler_get_next_task (depth : nat) (s : sched) : option (Z * sched) :=
  match depth with
  | O => None
  | S depth =>
      let first := queue s TASK_WAITING in
      if first =? 0 then Some (0, s) else
      if negb (t_pid (tasks s first) =? idle_task_pid s) then
        let s := set_queue TASK_WAITING (t_next (tasks s first)) s in
        let s := set_task first (set_t_next 0 (tasks s first)) s in
        Some (first, count_taken s)
      else if t_next (tasks s first) =? 0 then
        let state := t_state (tasks s (current_task s)) in
        if decide (state = TASK_RUNNING \/ state = TASK_WAITING) then Some (0, s) else
        let s := set_queue TASK_WAITING 0 s in
        let s := set_task first (set_t_next 0 (tasks s first)) s in
        let s := set_task first (set_t_prev 0 (tasks s first)) s in
        Some (first, count_taken s)
      else
        match last_of fuel (tasks s) first with
        | None => None
        | Some last =>
            let s := set_task last (set_t_next first (tasks s last)) s in
            let s := set_task first (set_t_prev last (tasks s first)) s in
            let s := set_queue TASK_WAITING (t_next (tasks s first)) s in
            let s := set_task first (set_t_next 0 (tasks s first)) s in
            let second := queue s TASK_WAITING in
            let s := set_task second (set_t_prev 0 (tasks s second)) s in
            scheduler_get_next_task depth s
        end
  end.

(** The idle task is moved to the end once, so two rounds suffice. *)
Definition NEXT_DEPTH : nat := 2.

(** The end of [scheduler_reschedule]: states, queue and current task. *)
Definition switch_to (old_task next_task : Z) (s : sched) : option sched :=
  let s := if decide (t_state (tasks s old_task) = TASK_RUNNING)
           then set_task old_task (set_t_state TASK_WAITING (tasks s old_task)) s else s in
  let s := set_task next_task (set_t_state TASK_RUNNING (tasks s next_task)) s in
  match
    (if decide (t_state (tasks s old_task) = TASK_WAITING) then
       match add_to_queue old_task s with
       | None => None
       | Some s => Some (set_sched_stats (count_state TASK_WAITING (fun n => u32 (n + 1)) (stats s)) s)
       end
     else Some s)
  with
  | None => None
  | Some s => Some (set_current next_task s)
  end.

Definition scheduler_reschedule (s : sched) : option (outcome sched) :=
  match cleanup_dead_tasks s with
  | None => None
  | Some s =>
      let old_task := current_task s in
      match scheduler_get_next_task NEXT_DEPTH s with
      | None => None
      | Some (next_task, s) =>
          let state := t_state (tasks s old_task) in
          if decide (state = TASK_ZOMBIE \/ state = TASK_DEAD) then
            let '(next_task, s) :=
              if next_task =? 0 then
                let next_task := queue s TASK_WAITING in
                if negb (next_task =? 0) && (t_pid (tasks s next_task) =? idle_task_pid s) then
                  let s := set_queue TASK_WAITING (t_next (tasks s next_task)) s in
                  let s := if negb (queue s TASK_WAITING =? 0)
                           then set_task (queue s TASK_WAITING) (set_t_prev 0 (tasks s (queue s TASK_WAITING))) s else s in
                  let s := set_task next_task (set_t_next 0 (tasks s next_task)) s in
                  let s := set_task next_task (set_t_prev 0 (tasks s next_task)) s in
                  (next_task, count_taken s)
                else (next_task, s)
              else (next_task, s) in
            if next_task =? 0 then Some Panic
            else option_map Done (switch_to old_task next_task s)
          else if next_task =? 0 then Some (Done s)
          else option_map Done (switch_to old_task next_task s)
      end
  end.

Definition scheduler_yield (s : sched) : option (outcome sched) := scheduler_reschedule s.

Definition scheduler_tick (s : sched) : option (outcome sched) :=
  let s := set_tick (u8 (tick_count s + 1)) s in
  let c := current_task s in
  let g := stats s in
  let s := if t_pid (tasks s c) =? idle_task_pid s
           then set_sched_stats (mk_sched_stats (num_tasks g) (num_waiting g) (num_blocked g) (num_sleeping g)
                  ((total_idle_time g + 1) mod 2 ^ 64)) s
           else s in
  let s := set_task c (set_runtime ((total_runtime (tasks s c) + 1) mod 2 ^ 64) (tasks s c)) s in
  if tick_count s =? SCHEDULER_RESCHEDULE_COUNT then scheduler_reschedule (set_tick 0 s)
  else Some (Done s).

(** ** Removing a task by its process number *)

Fixpoint find_pid (fuel : nat) (ts : Z -> task) (p pid : Z) : option Z :=
  match fuel with
  | O => None
  | S fuel =>
      if negb (t_pid (ts p) =? pid) && negb (t_next (ts p) =? 0) then find_pid fuel ts (t_next (ts p)) pid
      else Some p
  end.

Definition scheduler_remove_task (task : Z) (s : sched) : option (outcome sched) :=
  match t_state (tasks s task) with
  | TASK_DEAD => Some (Done s)
  | TASK_RUNNING => Some Panic
  | q =>
      if queue s q =? 0 then Some Panic else
      match find_pid fuel (tasks s) (queue s q) (t_pid (tasks s task)) with
      | None => None
      | Some p =>
          let prev := t_prev (tasks s p) in
          let s := if negb (prev =? 0) then set_task prev (set_t_next (t_next (tasks s p)) (tasks s prev)) s else s in
          let next := t_next (tasks s p) in
          let s := if negb (next =? 0) then set_task next (set_t_prev (t_prev (tasks s p)) (tasks s next)) s else s in
          Some (Done s)
      end
  end.
End Sched.

(** [scheduler_init]: [idle] is the address of the idle task that [task_create]
    returned. *)
Definition scheduler_init (idle : Z) (s : sched) : sched :=
  let s := set_sched_stats (mk_sched_stats 0 0 0 0 0) s in
  let s := set_task idle (set_t_state TASK_RUNNING (tasks s idle)) s in
  mk_sched (tasks s) (queue s) (t_pid (tasks s idle)) idle (tick_count s) (stats s) (destroyed s).
