(* ===== verification/SchedSpec.v ===== *)
(** What the scheduler guarantees.

    The scheduler runs the waiting tasks round robin: [sched_ok s idle c st W Zs]
    says that [c] is the current task and has the state [st], that the waiting queue
    is [W] and the zombie queue [Zs], read along the [next] links; [rr] is the
    abstract choice.  Moving a task
    between queues is correct when the [prev] links are right too, which
    [scheduler_get_next_task] does not maintain.  The last part is for the
    components that use the scheduler: the effect of
    [scheduler_move_task_to_state] on the queues and on every task. *)

From S2P Require Import Prelude Dll Sched.
From Stdlib Require Import ZArith Lia Bool.
From stdpp Require Import base tactics numbers list sets gmap.
Open Scope Z_scope.

(** ** Queues along the next links *)

Fixpoint fwd (ts : Z -> task) (p : Z) (l : list Z) : Prop :=
  match l with
  | [] => p = 0
  | x :: l => p = x /\ x <> 0 /\ fwd ts (t_next (ts x)) l
  end.

Lemma fwd_frame ts ts' l : forall p, (forall x, x ∈ l -> t_next (ts' x) = t_next (ts x)) -> fwd ts p l -> fwd ts' p l.
Proof.
  induction l as [|x l IH]; intros p Hf; [done|]. cbn [fwd]. intros (-> & Hx & H). split; [done|]. split; [done|].
  rewrite Hf by (by left). apply IH; [|done]. intros y Hy. apply Hf. by right.
Qed.

Lemma fwd_nonzero ts l : forall p x, fwd ts p l -> x ∈ l -> x <> 0.
Proof.
  induction l as [|y l IH]; intros p x H Hx; [by apply elem_of_nil in Hx|]. destruct H as (-> & Hy & H).
  apply elem_of_cons in Hx as [->|Hx]; [done|]. by eapply IH.
Qed.

Lemma last_of_spec ts l : forall fuel p x, fwd ts p (l ++ [x]) -> (length l < fuel)%nat -> last_of fuel ts p = Some x.
Proof.
  induction l as [|y l IH]; intros fuel p x H Hf; (destruct fuel as [|fuel]; [cbn in Hf; lia|]); cbn [last_of].
  - destruct H as (-> & _ & ->). done.
  - destruct H as (-> & Hy & H). assert (t_next (ts y) <> 0).
    { destruct l as [|z l]; destruct H as (-> & Hz & _); done. }
    replace (t_next (ts y) =? 0) with false by lia. apply IH; [done|]. cbn in Hf. lia.
Qed.

(** Appending [y] behind the last task [x]. *)
Lemma fwd_snoc ts ts' l x y : forall p,
  fwd ts p (l ++ [x]) -> (forall z, z ∈ l -> t_next (ts' z) = t_next (ts z)) ->
  t_next (ts' x) = y -> y <> 0 -> t_next (ts' y) = 0 -> fwd ts' p (l ++ [x; y]).
Proof.
  induction l as [|z l IH]; intros p H Hf Hx Hy Hyn; cbn [app fwd] in *.
  - destruct H as (-> & Hx0 & _). rewrite Hx, Hyn. done.
  - destruct H as (-> & Hz & H). split; [done|]. split; [done|]. rewrite Hf by (by left). apply IH; try done.
    intros w Hw. apply Hf. by right.
Qed.

(** A projection that an update keeps. *)
Lemma upd_proj {A B} (g : A -> B) (f : Z -> A) y v x : g v = g (f y) -> g (f.[y <- v] x) = g (f x).
Proof. intros E. rewrite upd_cases. by destruct (decide (x = y)) as [->|]. Qed.

(** ** The state at a rescheduling *)

(** The current task [c] has the state [st]; [W] are the tasks of the waiting queue,
    which [c] is not in, and [Zs] the zombies.  A task whose state is not
    [TASK_RUNNING] has blocked, gone to sleep or exited, and is about to be
    switched away from. *)
Record sched_ok (s : sched) (idle c : Z) (st : task_state) (W Zs : list Z) : Prop := {
  sk_current : current_task s = c;
  sk_state : t_state (tasks s c) = st;
  sk_zero : c <> 0;
  sk_waiting : fwd (tasks s) (queue s TASK_WAITING) W;
  sk_states x : x ∈ W -> t_state (tasks s x) = TASK_WAITING;
  sk_NoDup : NoDup (c :: W);
  sk_idle x : x ∈ c :: W -> t_pid (tasks s x) = idle_task_pid s <-> x = idle;
  sk_zombies : fwd (tasks s) (queue s TASK_ZOMBIE) Zs;
  sk_zombie x : x ∈ Zs -> t_state (tasks s x) = TASK_ZOMBIE;
  sk_not_waiting : st <> TASK_WAITING }.

(** The abstract choice: the task to run next and the rest of the queue, or none
    if the current task runs on.  The idle task is chosen only if no other task
    waits and the current task cannot run. *)
Definition choose (idle : Z) (st : task_state) (W : list Z) : option (Z * list Z) :=
  match W with
  | [] => None
  | x :: W' =>
      if decide (x = idle) then
        match W' with
        | [] => if decide (st = TASK_RUNNING) then None else Some (idle, [])
        | y :: W'' => Some (y, W'' ++ [idle])
        end
      else Some (x, W')
  end.

(** The current task, its state and the queue after a rescheduling: a task that
    was running goes to the end of the queue, any other does not. *)
Definition rr (idle : Z) (a : Z * task_state * list Z) : Z * task_state * list Z :=
  let '(c, st, W) := a in
  match choose idle st W with
  | None => (c, st, W)
  | Some (n, R) => (n, TASK_RUNNING, R ++ (if decide (st = TASK_RUNNING) then [c] else []))
  end.

(** A task that has exited cannot run on. *)
Definition exited (st : task_state) : Prop := st = TASK_ZOMBIE \/ st = TASK_DEAD.

Section Spec.
Context (fuel : nat).

Lemma cleanup_nothing Zs : forall n p s,
  fwd (tasks s) p Zs -> (forall x, x ∈ Zs -> t_state (tasks s x) = TASK_ZOMBIE) -> (length Zs < n)%nat ->
  cleanup_loop n p s = Some s.
Proof.
  induction Zs as [|x Zs IH]; intros n p s H Hz Hn; (destruct n as [|n]; [cbn in Hn; lia|]); cbn [cleanup_loop].
  - cbn in H. subst p. done.
  - destruct H as (-> & Hx & H). replace (x =? 0) with false by lia.
    rewrite decide_False by (rewrite Hz by (by left); done). apply IH; [done| |cbn in Hn; lia].
    intros y Hy. apply Hz. by right.
Qed.

(** Appending the old task to the waiting queue. *)
Lemma add_waiting s c W :
  fwd (tasks s) (queue s TASK_WAITING) W -> c <> 0 -> c ∉ W -> NoDup W -> t_state (tasks s c) = TASK_WAITING ->
  (length W < fuel)%nat ->
  exists s', add_to_queue fuel c s = Some s' /\ fwd (tasks s') (queue s' TASK_WAITING) (W ++ [c]) /\
    (forall q, q <> TASK_WAITING -> queue s' q = queue s q) /\ idle_task_pid s' = idle_task_pid s /\
    (forall x, t_state (tasks s' x) = t_state (tasks s x) /\ t_pid (tasks s' x) = t_pid (tasks s x)) /\
    (forall x, x ∉ W -> x <> c -> t_next (tasks s' x) = t_next (tasks s x)).
Proof.
  intros HW Hc HcW Hnd Hst Hf. unfold add_to_queue. replace (c =? 0) with false by lia. rewrite Hst. cbn [has_queue negb].
  destruct W as [|w W _] using rev_ind.
  - cbn in HW. rewrite HW. cbn [Z.eqb]. eexists. split; [reflexivity|]. cbn [app fwd]. split; [|split; [|split; [|split]]].
    + cbn. by rewrite upd_eq.
    + intros q Hq. cbn. by rewrite decide_False.
    + done.
    + intros x. cbn. split; do 2 (rewrite upd_proj by done); done.
    + intros x _ Hx. cbn. rewrite !upd_ne by done. done.
  - assert (Hne : queue s TASK_WAITING <> 0) by (destruct W; destruct HW as (-> & ? & _); done).
    replace (_ =? 0) with false by lia. rewrite (last_of_spec _ W) with (x := w); [|done|rewrite length_app in Hf; cbn in Hf; lia].
    assert (Hwc : w <> c) by set_solver. apply NoDup_app in Hnd as (_ & Hnd & _).
    eexists. split; [reflexivity|]. rewrite <- app_assoc. cbn [app]. split; [|split; [|split; [|split]]].
    + eapply fwd_snoc; [exact HW| | |done|].
      * intros z Hz. cbn. rewrite !upd_ne; [done|..]; [|set_solver|set_solver]. intros ->. apply (Hnd w Hz). by left.
      * cbn. rewrite !upd_ne by done. by rewrite upd_eq.
      * cbn. by rewrite upd_eq.
    + done.
    + done.
    + intros x. cbn. split; do 3 (rewrite upd_proj by done); done.
    + intros x HxW Hxc. cbn. rewrite !upd_ne; [done|set_solver..].
Qed.

(** What choosing a task leaves alone. *)
Record chosen (s s' : sched) (W : list Z) : Prop := {
  ch_current : current_task s' = current_task s;
  ch_idle : idle_task_pid s' = idle_task_pid s;
  ch_queue q : q <> TASK_WAITING -> queue s' q = queue s q;
  ch_state x : t_state (tasks s' x) = t_state (tasks s x);
  ch_pid x : t_pid (tasks s' x) = t_pid (tasks s x);
  ch_next x : x ∉ W -> t_next (tasks s' x) = t_next (tasks s x) }.

Lemma chosen_trans s1 s2 s3 W : chosen s1 s2 W -> chosen s2 s3 W -> chosen s1 s3 W.
Proof.
  intros [] []. split; try congruence; intros; [rewrite ch_queue1, ch_queue0|rewrite ch_next1, ch_next0]; done.
Qed.

(** The head of the queue is not the idle task. *)
Lemma take_head depth s x R :
  fwd (tasks s) (queue s TASK_WAITING) (x :: R) -> x ∉ R -> t_pid (tasks s x) <> idle_task_pid s ->
  exists s', scheduler_get_next_task fuel (S depth) s = Some (x, s') /\
    fwd (tasks s') (queue s' TASK_WAITING) R /\ chosen s s' (x :: R).
Proof.
  intros (E & Hx & H) HxR Hp. cbn [scheduler_get_next_task]. rewrite E. replace (x =? 0) with false by lia.
  replace (_ =? idle_task_pid s) with false by lia. cbn [negb]. eexists. split; [reflexivity|]. split.
  - cbn. eapply fwd_frame; [|exact H]. intros y Hy. rewrite upd_ne; [done|]. by intros ->.
  - split; try done; cbn.
    + intros q Hq. by rewrite decide_False.
    + intros y. by rewrite upd_proj.
    + intros y. by rewrite upd_proj.
    + intros y Hy. rewrite upd_ne; [done|]. set_solver.
Qed.

(** The idle task is first and others wait: it goes to the end. *)
Lemma rotate_idle depth s i y R :
  fwd (tasks s) (queue s TASK_WAITING) (i :: y :: R) -> NoDup (i :: y :: R) -> t_pid (tasks s i) = idle_task_pid s ->
  (length (y :: R) < fuel)%nat ->
  exists s', scheduler_get_next_task fuel (S depth) s = scheduler_get_next_task fuel depth s' /\
    fwd (tasks s') (queue s' TASK_WAITING) (y :: R ++ [i]) /\ chosen s s' (i :: y :: R).
Proof.
  intros Hf Hnd Hp Hfuel. pose proof Hf as (E & Hi & Hy & Hy0 & HR). cbn [scheduler_get_next_task]. rewrite E.
  replace (i =? 0) with false by lia. rewrite Hp, Z.eqb_refl. cbn [negb]. rewrite Hy. replace (y =? 0) with false by lia.
  apply NoDup_cons in Hnd as [HiR Hnd].
  destruct (exists_last (l := y :: R)) as (l & w & El); [done|].
  assert (Hfl : fwd (tasks s) (queue s TASK_WAITING) ((i :: l) ++ [w])) by (cbn [app]; rewrite <- El; exact Hf).
  rewrite (last_of_spec _ (i :: l)) with (x := w);
    [|by rewrite E in Hfl|apply (f_equal length) in El; rewrite length_app in El; cbn in *; lia].
  assert (Hw : w ∈ y :: R) by (rewrite El; set_solver). assert (Hwi : w <> i) by (by intros ->).
  rewrite El in Hnd. apply NoDup_app in Hnd as (_ & Hnd & _).
  set (s1 := set_task w _ s). set (s2 := set_task i (set_t_prev w _) s1). set (s3 := set_queue _ _ s2).
  set (s4 := set_task i (set_t_next 0 _) s3). set (s5 := set_task (queue s4 TASK_WAITING) _ s4).
  assert (E2 : t_next (tasks s2 i) = y).
  { unfold s2, s1. cbn. rewrite upd_eq. cbn. by rewrite upd_ne. }
  assert (Eq : queue s4 TASK_WAITING = y) by (unfold s4, s3; cbn; exact E2).
  assert (N5 : forall z, t_next (tasks s5 z) = if decide (z = i) then 0 else if decide (z = w) then i else t_next (tasks s z)).
  { intros z. unfold s5. rewrite Eq. cbn [set_task tasks]. rewrite upd_proj by done.
    unfold s4. cbn [set_task tasks]. rewrite upd_cases. destruct (decide (z = i)) as [->|Hzi]; [done|].
    unfold s3, s2, s1. cbn. rewrite upd_ne by done. rewrite upd_cases. by destruct (decide (z = w)) as [->|]. }
  exists s5. split; [done|]. split.
  - change (y :: R ++ [i]) with ((y :: R) ++ [i]). rewrite El, <- app_assoc. cbn [app].
    assert (Eq5 : queue s5 TASK_WAITING = y) by exact Eq. rewrite Eq5.
    apply fwd_snoc with (ts := tasks s).
    + rewrite <- El. split; [done|]. split; [done|]. exact HR.
    + intros z Hz. rewrite N5, !decide_False; [done| |].
      * intros ->. apply (Hnd w Hz). by left.
      * intros ->. apply HiR. rewrite El. set_solver.
    + rewrite N5, decide_False, decide_True by done. done.
    + done.
    + by rewrite N5, decide_True.
  - split; try done.
    + intros q Hq. unfold s5, s4, s3. cbn. by rewrite decide_False.
    + intros z. unfold s5, s4, s3, s2, s1. cbn. do 4 (rewrite upd_proj by done). done.
    + intros z. unfold s5, s4, s3, s2, s1. cbn. do 4 (rewrite upd_proj by done). done.
    + intros z Hz. rewrite N5, !decide_False; [done|set_solver|set_solver].
Qed.

(** Only the idle task waits, and the current task cannot run. *)
Lemma take_idle depth s i :
  fwd (tasks s) (queue s TASK_WAITING) [i] -> t_pid (tasks s i) = idle_task_pid s ->
  t_state (tasks s (current_task s)) <> TASK_RUNNING -> t_state (tasks s (current_task s)) <> TASK_WAITING ->
  exists s', scheduler_get_next_task fuel (S depth) s = Some (i, s') /\
    fwd (tasks s') (queue s' TASK_WAITING) [] /\ chosen s s' [i].
Proof.
  intros (E & Hi & En) Hp Hr Hw. cbn in En. cbn [scheduler_get_next_task]. rewrite E. replace (i =? 0) with false by lia.
  rewrite Hp, Z.eqb_refl. cbn [negb]. rewrite En. cbn [Z.eqb]. rewrite decide_False by (by intros [?|?]).
  eexists. split; [reflexivity|]. split; [done|]. split; try done; cbn.
  - intros q Hq. by rewrite decide_False.
  - intros y. do 2 (rewrite upd_proj by done). done.
  - intros y. do 2 (rewrite upd_proj by done). done.
  - intros y Hy. rewrite !upd_ne by set_solver. done.
Qed.

(** What [choose] chooses from. *)
Lemma choose_spec idle st W n R :
  choose idle st W = Some (n, R) -> NoDup W ->
  n ∈ W /\ n ∉ R /\ (forall x, x ∈ n :: R <-> x ∈ W) /\ NoDup R /\ length W = S (length R).
Proof.
  destruct W as [|x W]; [done|]. cbn [choose]. intros E Hnd. pose proof Hnd as [Hx Hnd']%NoDup_cons.
  destruct (decide (x = idle)) as [->|].
  - destruct W as [|y W].
    + destruct (decide _); [done|]. injection E as <- <-. split; [by left|]. split; [set_solver|].
      split; [done|]. split; [constructor|done].
    + injection E as <- <-. apply NoDup_cons in Hnd' as [Hy Hnd'].
      split; [set_solver|]. split; [set_solver|]. split; [set_solver|]. split.
      * apply NoDup_app. split; [done|]. split; [set_solver|]. by repeat constructor; set_solver.
      * rewrite length_app. cbn. lia.
  - injection E as <- <-. split; [by left|]. split; [done|]. split; [done|]. split; [done|done].
Qed.

(** [scheduler_get_next_task] chooses. *)
Lemma next_spec s idle c st W Zs :
  sched_ok s idle c st W Zs -> (length W < fuel)%nat ->
  match choose idle st W with
  | None => scheduler_get_next_task fuel NEXT_DEPTH s = Some (0, s)
  | Some (n, R) => exists s1, scheduler_get_next_task fuel NEXT_DEPTH s = Some (n, s1) /\
      fwd (tasks s1) (queue s1 TASK_WAITING) R /\ chosen s s1 W
  end.
Proof.
  intros K Hf. pose proof K as [K1 K2 K3 K4 K5 K6 K7 _ _ K10]. unfold NEXT_DEPTH. destruct W as [|x W'].
  { cbn in K4. cbn [choose scheduler_get_next_task]. by rewrite K4. }
  apply NoDup_cons in K6 as [HcW HndW]. pose proof HndW as HndW2. apply NoDup_cons in HndW2 as [HxW' HndW'].
  cbn [choose]. destruct (decide (x = idle)) as [->|Hxi].
  - pose proof (proj2 (K7 idle ltac:(set_solver)) eq_refl) as Hpid. destruct W' as [|y W''].
    + destruct (decide (st = TASK_RUNNING)) as [->|Hst].
      * cbn in K4. destruct K4 as (E & Hi & En). cbn [scheduler_get_next_task]. rewrite E.
        replace (idle =? 0) with false by lia. rewrite Hpid, Z.eqb_refl. cbn [negb]. rewrite En. cbn [Z.eqb].
        rewrite K1, decide_True by (by left). done.
      * apply take_idle; [done|done|congruence|congruence].
    + destruct (rotate_idle 1 s idle y W'' K4 HndW Hpid) as (s1 & -> & F1 & C1); [cbn in *; lia|].
      apply NoDup_cons in HndW' as [HyW'' HndW''].
      assert (Hyi : y <> idle) by set_solver.
      destruct (take_head 0 s1 y (W'' ++ [idle]) F1) as (s2 & -> & F2 & C2).
      { set_solver. }
      { rewrite (ch_pid _ _ _ C1), (ch_idle _ _ _ C1). intros Hp. apply K7 in Hp; [done|]. set_solver. }
      exists s2. split; [done|]. split; [done|].
      eapply chosen_trans; [exact C1|]. destruct C2. split; try done. intros z Hz. apply ch_next0. set_solver.
  - apply (take_head 1 s x W' K4 HxW'). intros Hp. apply K7 in Hp; [done|]. set_solver.
Qed.

(** The old task: back to the queue if it was running. *)
Lemma switch_spec s c n st R :
  t_state (tasks s c) = st -> st <> TASK_WAITING -> n <> c -> c <> 0 -> c ∉ R -> n ∉ R -> NoDup R -> (length R < fuel)%nat ->
  fwd (tasks s) (queue s TASK_WAITING) R ->
  exists s', switch_to fuel c n s = Some s' /\ current_task s' = n /\
    fwd (tasks s') (queue s' TASK_WAITING) (R ++ (if decide (st = TASK_RUNNING) then [c] else [])) /\
    (forall q, q <> TASK_WAITING -> queue s' q = queue s q) /\ idle_task_pid s' = idle_task_pid s /\
    (forall x, t_state (tasks s' x) = if decide (x = n) then TASK_RUNNING
       else if decide (x = c /\ st = TASK_RUNNING) then TASK_WAITING else t_state (tasks s x)) /\
    (forall x, t_pid (tasks s' x) = t_pid (tasks s x)) /\
    (forall x, x ∉ R -> x <> c \/ st <> TASK_RUNNING -> t_next (tasks s' x) = t_next (tasks s x)).
Proof.
  intros Hst Hnw Hnc Hc HcR HnR Hnd Hf HF. unfold switch_to. rewrite Hst.
  destruct (decide (st = TASK_RUNNING)) as [Er|Er].
  - set (s2 := set_task c _ s). set (s3 := set_task n _ s2).
    assert (T3 : forall x, t_state (tasks s3 x) = if decide (x = n) then TASK_RUNNING else if decide (x = c) then TASK_WAITING else t_state (tasks s x)).
    { intros x. unfold s3, s2. cbn. rewrite !upd_cases. destruct (decide (x = n)) as [->|]; [done|].
      by destruct (decide (x = c)) as [->|]. }
    assert (N3 : forall x, t_next (tasks s3 x) = t_next (tasks s x) /\ t_pid (tasks s3 x) = t_pid (tasks s x)).
    { intros x. unfold s3, s2. cbn. split; do 2 (rewrite upd_proj by done); done. }
    assert (Hc3 : t_state (tasks s3 c) = TASK_WAITING) by (rewrite T3, decide_False, decide_True; done).
    rewrite Hc3. rewrite decide_True by done.
    destruct (add_waiting s3 c R) as (s4 & -> & F4 & Q4 & I4 & ST4 & NX4); try done.
    { eapply fwd_frame; [|exact HF]. intros x _. apply N3. }
    eexists. split; [reflexivity|]. split; [done|]. split; [exact F4|]. split; [exact Q4|]. split; [exact I4|].
    split; [|split].
    + intros x. cbn. rewrite (proj1 (ST4 x)), T3. destruct (decide (x = n)); [done|].
      destruct (decide (x = c)); [by rewrite decide_True|by rewrite decide_False by tauto].
    + intros x. cbn. rewrite (proj2 (ST4 x)). apply N3.
    + intros x HxR [Hx|?]; [|done]. cbn. rewrite NX4 by done. apply N3.
  - set (s3 := set_task n _ s).
    assert (Hc3 : t_state (tasks s3 c) = st) by (unfold s3; cbn; by rewrite upd_ne).
    rewrite Hc3, decide_False by done. eexists. split; [reflexivity|]. rewrite app_nil_r. split; [done|].
    split; [eapply fwd_frame; [|exact HF]; intros x _; unfold s3; cbn; by rewrite upd_proj|].
    split; [done|]. split; [done|]. split; [|split].
    + intros x. unfold s3. cbn. rewrite upd_cases. destruct (decide (x = n)) as [->|]; [done|].
      by rewrite decide_False by tauto.
    + intros x. unfold s3. cbn. by rewrite upd_proj.
    + intros x _ _. unfold s3. cbn. by rewrite upd_proj.
Qed.

(** The parts of [scheduler_reschedule] after the choice. *)
Lemma reschedule_none s idle c st W Zs :
  sched_ok s idle c st W Zs -> (length Zs < fuel)%nat -> choose idle st W = None ->
  scheduler_get_next_task fuel NEXT_DEPTH s = Some (0, s) ->
  (exited st -> scheduler_reschedule fuel s = Some Panic) /\
  (~ exited st -> scheduler_reschedule fuel s = Some (Done s)).
Proof.
  intros K Hz Hch E. pose proof K as [K1 K2 K3 K4 K5 K6 K7 K8 K9 K10]. unfold scheduler_reschedule, cleanup_dead_tasks.
  rewrite (cleanup_nothing Zs) by done. rewrite K1, E, K2. cbn [Z.eqb]. split; intros Hx.
  - rewrite decide_True by done. destruct W as [|x W].
    + cbn in K4. by rewrite K4.
    + exfalso. cbn [choose] in Hch. destruct (decide (x = idle)); [|done]. destruct W; [|done].
      destruct (decide (st = TASK_RUNNING)) as [->|]; [|done]. by destruct Hx.
  - by rewrite decide_False.
Qed.

Lemma reschedule_some s idle c st W Zs n s1 :
  sched_ok s idle c st W Zs -> (length Zs < fuel)%nat -> n <> 0 ->
  scheduler_get_next_task fuel NEXT_DEPTH s = Some (n, s1) ->
  scheduler_reschedule fuel s = option_map Done (switch_to fuel c n s1).
Proof.
  intros K Hz Hn E. pose proof K as [K1 K2 K3 K4 K5 K6 K7 K8 K9 K10]. unfold scheduler_reschedule, cleanup_dead_tasks.
  rewrite (cleanup_nothing Zs) by done. rewrite K1, E. replace (n =? 0) with false by lia. cbv zeta.
  destruct (decide (_ \/ _)); [|done]. cbn [negb]. by replace (n =? 0) with false by lia.
Qed.

Lemma reschedule_spec s idle c st W Zs :
  sched_ok s idle c st W Zs -> (length W < fuel)%nat -> (length Zs < fuel)%nat ->
  (exited st /\ W = [] -> scheduler_reschedule fuel s = Some Panic) /\
  (~ (exited st /\ W = []) -> exists s', scheduler_reschedule fuel s = Some (Done s') /\
    let '(c', st', W') := rr idle (c, st, W) in sched_ok s' idle c' st' W' Zs).
Proof.
  intros K Hf Hz. pose proof K as [K1 K2 K3 K4 K5 K6 K7 K8 K9 K10]. pose proof (next_spec s idle c st W Zs K Hf) as N.
  cbn [rr]. destruct (choose idle st W) as [[n R]|] eqn:Hch.
  - split; [intros [_ ->]; discriminate Hch|intros _]. destruct N as (s1 & En & F1 & C).
    apply NoDup_cons in K6 as [HcW HndW]. destruct (choose_spec _ _ _ _ _ Hch HndW) as (HnW & HnR & HRW & HndR & HlR).
    assert (Hn0 : n <> 0) by exact (fwd_nonzero _ _ _ _ K4 HnW).
    assert (Hnc : n <> c) by (by intros ->). assert (HcR : c ∉ R) by (intros ?; apply HcW, HRW; by right).
    assert (Hs1 : t_state (tasks s1 c) = st) by (by rewrite (ch_state _ _ _ C)).
    rewrite (reschedule_some s idle c st W Zs n s1 K Hz Hn0 En).
    destruct (switch_spec s1 c n st R Hs1 K10 Hnc K3 HcR HnR HndR ltac:(lia) F1) as (s' & -> & Hcur & F & HQ & HI & HS & HP & HN).
    exists s'. split; [done|].
    assert (Hd : forall x, x ∈ Zs -> x ∉ W /\ (x <> c \/ st <> TASK_RUNNING)).
    { intros x Hx. specialize (K9 x Hx). split; [intros HxW; rewrite K5 in K9; done|].
      destruct (decide (x = c)) as [->|]; [right; congruence|by left]. }
    split.
    + done.
    + by rewrite HS, decide_True.
    + done.
    + exact F.
    + intros x Hx. rewrite HS. assert (x <> n) by (intros ->; apply elem_of_app in Hx as [?|Hx]; [done|]; destruct (decide _); set_solver).
      rewrite decide_False by done. apply elem_of_app in Hx as [Hx|Hx].
      * assert (x ∈ W) by (apply HRW; by right). rewrite decide_False; [rewrite (ch_state _ _ _ C); auto|]. by intros [-> _].
      * destruct (decide (st = TASK_RUNNING)); [|set_solver]. rewrite decide_True; [done|]. split; [set_solver|done].
    + constructor; [intros Hx; apply elem_of_app in Hx as [?|Hx]; [done|]; destruct (decide _); set_solver|].
      destruct (decide _); [|by rewrite app_nil_r]. apply NoDup_app. split; [done|]. split; [set_solver|]. by repeat constructor; set_solver.
    + intros x Hx. rewrite HI, HP, (ch_idle _ _ _ C), (ch_pid _ _ _ C). apply K7.
      apply elem_of_cons in Hx as [->|Hx]; [by right|]. apply elem_of_app in Hx as [Hx|Hx]; [right; apply HRW; by right|].
      destruct (decide _); set_solver.
    + rewrite HQ, (ch_queue _ _ _ C) by done. eapply fwd_frame; [|exact K8]. intros x Hx. destruct (Hd x Hx) as [H1 H2].
      rewrite HN by (done || (intros ?; apply H1, HRW; by right)). by apply (ch_next _ _ _ C).
    + intros x Hx. destruct (Hd x Hx) as [H1 H2]. rewrite HS, !decide_False; [rewrite (ch_state _ _ _ C); auto|tauto|by intros ->].
    + done.
  - destruct (reschedule_none s idle c st W Zs K Hz Hch N) as [P1 P2]. split; [intros [Hx _]; by apply P1|].
    intros Hx. exists s. split; [|done]. apply P2. intros He. apply Hx. split; [done|].
    destruct W as [|x W]; [done|]. exfalso. cbn [choose] in Hch. destruct (decide (x = idle)); [|done]. destruct W; [|done].
    destruct (decide (st = TASK_RUNNING)) as [->|]; [|done]. by destruct He.
Qed.
End Spec.

(** ** Fairness of the abstract choice *)

Fixpoint rr_n (k : nat) (idle : Z) (a : Z * task_state * list Z) : Z * task_state * list Z :=
  match k with O => a | S k => rr_n k idle (rr idle a) end.

Lemma rr_length idle c st W : (length (rr idle (c, st, W)).2 <= length W)%nat.
Proof.
  cbn [rr]. destruct W as [|x W]; [done|]. cbn [choose]. destruct (decide (x = idle)).
  - destruct W as [|y W]; [destruct (decide _); cbn; lia|]. cbn [snd]. rewrite !length_app. destruct (decide _); cbn; lia.
  - cbn [snd]. rewrite length_app. destruct (decide _); cbn; lia.
Qed.

Lemma rr_reaches idle x n : forall i c st W,
  (i < n)%nat -> W !! i = Some x -> x <> idle ->
  exists k, (0 < k <= S i)%nat /\ (rr_n k idle (c, st, W)).1.1 = x.
Proof.
  induction n as [|n IH]; intros i c st W Hi Hx Hxi; [lia|]. destruct W as [|w W]; [done|].
  destruct (decide (w = idle)) as [->|Hw].
  - destruct i as [|i]; cbn in Hx; [congruence|]. destruct W as [|y W]; [done|]. destruct i as [|i]; cbn in Hx.
    + injection Hx as ->. exists 1%nat. split; [lia|]. cbn. by rewrite decide_True.
    + destruct (IH i y TASK_RUNNING ((W ++ [idle]) ++ (if decide (st = TASK_RUNNING) then [c] else []))) as (k & Hk & E);
        [lia|by do 2 apply lookup_app_l_Some|done|].
      exists (S k). split; [lia|]. cbn [rr_n rr choose]. by rewrite decide_True.
  - destruct i as [|i]; cbn in Hx.
    + injection Hx as ->. exists 1%nat. split; [lia|]. cbn. by rewrite decide_False.
    + destruct (IH i w TASK_RUNNING (W ++ (if decide (st = TASK_RUNNING) then [c] else []))) as (k & Hk & E);
        [lia|by apply lookup_app_l_Some|done|].
      exists (S k). split; [lia|]. cbn [rr_n rr choose]. by rewrite decide_False.
Qed.

(** ** Sequences of reschedulings *)

Fixpoint yields (fuel : nat) (k : nat) (s : sched) : option (outcome sched) :=
  match k with
  | O => Some (Done s)
  | S k => match scheduler_yield fuel s with
           | Some (Done s) => yields fuel k s
           | r => r
           end
  end.

(** After a rescheduling the current task has not exited, unless nothing changed. *)
Lemma rr_goes_on idle c st W :
  ~ (exited st /\ W = []) -> let '(_, st', W') := rr idle (c, st, W) in ~ (exited st' /\ W' = []).
Proof.
  intros H. cbn [rr]. destruct (choose idle st W) as [[n R]|]; [|done]. intros [Hx _]. by destruct Hx.
Qed.

Lemma yields_spec fuel idle Zs : forall k s c st W,
  sched_ok s idle c st W Zs -> ~ (exited st /\ W = []) -> (length W < fuel)%nat -> (length Zs < fuel)%nat ->
  exists s', yields fuel k s = Some (Done s') /\ current_task s' = (rr_n k idle (c, st, W)).1.1.
Proof.
  induction k as [|k IH]; intros s c st W K Hx HW HZ; [exists s; split; [done|apply K]|]. cbn [yields rr_n].
  destruct (reschedule_spec fuel s idle c st W Zs K HW HZ) as [_ H]. destruct (H Hx) as (s1 & E & K1).
  unfold scheduler_yield. rewrite E. pose proof (rr_length idle c st W) as Hl. pose proof (rr_goes_on idle c st W Hx) as Hg.
  destruct (rr idle (c, st, W)) as [[c1 st1] W1]. cbn [fst snd] in *. apply (IH s1 c1 st1 W1); [done|done|lia|done].
Qed.

(** ** A concrete system *)

(** The idle task at 100 and three tasks at 200, 300 and 400. *)
Definition sched_demo0 : sched :=
  scheduler_init 100 (mk_sched (fun x => mk_task (x / 100) TASK_WAITING 0 0 0) (fun _ => 0) 0 0 0
    (mk_sched_stats 0 0 0 0 0) []).

Definition sched_then (s : option sched) (f : sched -> option sched) : option sched :=
  match s with Some s => f s | None => None end.
Definition outcome_state (r : option (outcome sched)) : option sched :=
  match r with Some (Done s) => Some s | _ => None end.

(** Tasks 200 and 300 become ready; the idle task runs. *)
Definition sched_demo : option sched :=
  sched_then (scheduler_add_task 10 200 sched_demo0) (scheduler_add_task 10 300).

(** 200 runs, then 300; 400 becomes ready; 300 blocks and gives the processor up. *)
Definition sched_lost : option sched :=
  sched_then (sched_then (sched_then (sched_then (sched_then sched_demo
    (fun s => outcome_state (scheduler_yield 10 s)))
    (fun s => outcome_state (scheduler_yield 10 s)))
    (scheduler_add_task 10 400))
    (scheduler_move_task_to_state 10 300 TASK_BLOCKED))
    (fun s => outcome_state (scheduler_yield 10 s)).

Ltac sched_ok_vm :=
  split; [vm_compute; reflexivity|vm_compute; reflexivity|vm_compute; discriminate
         |vm_compute; repeat split; discriminate
         |let x := fresh in let H := fresh in intros x H;
          repeat (apply elem_of_cons in H as [->|H]; [vm_compute; reflexivity|]); by apply elem_of_nil in H
         |repeat constructor; set_solver
         |let x := fresh in let H := fresh in intros x H;
          repeat (apply elem_of_cons in H as [->|H]; [vm_compute; (split; [discriminate || done|discriminate || done])|]); by apply elem_of_nil in H
         |vm_compute; reflexivity
         |let x := fresh in let H := fresh in intros x H; by apply elem_of_nil in H
         |discriminate].

Lemma sched_demo_ok : exists s, sched_demo = Some s /\ sched_ok s 100 100 TASK_RUNNING [200; 300] [].
Proof.
  destruct sched_demo as [s|] eqn:E; [|vm_compute in E; discriminate E]. exists s. split; [done|].
  vm_compute in E. injection E as <-. sched_ok_vm.
Qed.

(** 200 runs and blocks; it has not been switched away from yet. *)
Definition sched_blocked : option sched :=
  sched_then (sched_then sched_demo (fun s => outcome_state (scheduler_yield 10 s)))
    (scheduler_move_task_to_state 10 200 TASK_BLOCKED).

Lemma sched_blocked_ok : exists s, sched_blocked = Some s /\ sched_ok s 100 200 TASK_BLOCKED [300; 100] [].
Proof.
  destruct sched_blocked as [s|] eqn:E; [|vm_compute in E; discriminate E]. exists s. split; [done|].
  vm_compute in E. injection E as <-. sched_ok_vm.
Qed.

(** ** Moving tasks between queues *)

(** The queues are [Q]: doubly linked lists without common tasks, each task in the
    queue of its state. *)
Record queues (s : sched) (Q : task_state -> list Z) : Prop := {
  qu_list q : has_queue q = true -> dlist (tasks s) (queue s q) (Q q);
  qu_disjoint q q' x : has_queue q = true -> has_queue q' = true -> x ∈ Q q -> x ∈ Q q' -> q = q' }.

Definition qupd (Q : task_state -> list Z) (q : task_state) (l : list Z) : task_state -> list Z :=
  fun q' => if decide (q' = q) then l else Q q'.

Lemma head_in s Q q x : queues s Q -> has_queue q = true -> queue s q = x -> x <> 0 -> x ∈ Q q.
Proof. intros H Hq E Hx. destruct (dlist_cons_inv _ _ _ Hx ltac:(rewrite <- E; by apply H)) as [l ->]. by left. Qed.

(** The head updates of [remove_from_queue]: only the queue that starts with the
    task changes. *)
Lemma drop_heads s x (D := fun q s => drop_head q x s) :
  let s' := D TASK_ZOMBIE (D TASK_SLEEPING (D TASK_BLOCKED (D TASK_WAITING s))) in
  tasks s' = tasks s /\ stats s' = stats s /\ current_task s' = current_task s /\ idle_task_pid s' = idle_task_pid s /\
  forall q, has_queue q = true -> queue s' q = if decide (queue s q = x) then t_next (tasks s x) else queue s q.
Proof.
  cbv zeta. unfold D.
  assert (S : forall q s, tasks (drop_head q x s) = tasks s /\ stats (drop_head q x s) = stats s /\
    current_task (drop_head q x s) = current_task s /\ idle_task_pid (drop_head q x s) = idle_task_pid s /\
    forall q', queue (drop_head q x s) q' = if decide (q' = q) then (if decide (queue s q = x) then t_next (tasks s x) else queue s q) else queue s q').
  { intros q t. unfold drop_head. destruct (Z.eqb_spec (queue t q) x) as [E|E]; cbn.
    - do 4 (split; [done|]). intros q'. destruct (decide (q' = q)); [|done]. by rewrite decide_True.
    - do 4 (split; [done|]). intros q'. destruct (decide (q' = q)) as [->|]; [|done]. by rewrite decide_False. }
  set (s1 := drop_head TASK_WAITING x s). set (s2 := drop_head TASK_BLOCKED x s1). set (s3 := drop_head TASK_SLEEPING x s2).
  destruct (S TASK_WAITING s) as (A1 & B1 & C1 & I1 & Q1), (S TASK_BLOCKED s1) as (A2 & B2 & C2 & I2 & Q2),
    (S TASK_SLEEPING s2) as (A3 & B3 & C3 & I3 & Q3), (S TASK_ZOMBIE s3) as (A4 & B4 & C4 & I4 & Q4).
  fold s1 in A1, B1, C1, I1, Q1. fold s2 in A2, B2, C2, I2, Q2. fold s3 in A3, B3, C3, I3, Q3.
  split; [congruence|]. split; [congruence|]. split; [congruence|]. split; [congruence|].
  intros q Hq. rewrite Q4, !Q3, !Q2, !Q1, A3, A2, A1. destruct q; cbn in Hq; try done; repeat (rewrite decide_False by done); reflexivity.
Qed.

(** What moving a task leaves alone. *)
Record requeued (s s' : sched) : Prop := {
  rq_state x : t_state (tasks s' x) = t_state (tasks s x);
  rq_pid x : t_pid (tasks s' x) = t_pid (tasks s x);
  rq_stats : stats s' = stats s;
  rq_current : current_task s' = current_task s;
  rq_idle : idle_task_pid s' = idle_task_pid s }.

Lemma remove_queue s Q q l1 x l2 :
  queues s Q -> has_queue q = true -> Q q = l1 ++ x :: l2 ->
  let s' := remove_from_queue x s in
  queues s' (qupd Q q (l1 ++ l2)) /\ requeued s s' /\ x <> 0 /\
  forall q', has_queue q' = true -> x ∉ qupd Q q (l1 ++ l2) q'.
Proof.
  intros [HD HJ] Hq E. cbv zeta. pose proof (HD q Hq) as D. rewrite E in D.
  destruct (dlist_links _ _ _ _ _ D) as (Hp & Hn & Hx & H1 & H2 & Hnd). cbn in Hp, Hn.
  assert (Hp' : t_prev (tasks s x) = 0 \/ t_prev (tasks s x) ∈ l1).
  { rewrite Hp. destruct l1 as [|y l1]; [by left|]. right. by apply last_or_elem. }
  assert (Hn' : t_next (tasks s x) = 0 \/ t_next (tasks s x) ∈ l2).
  { rewrite Hn. destruct l2 as [|y l2]; [by left|]. right. by apply head_or_elem. }
  pose proof (proj1 (NoDup_app _ _) Hnd) as (_ & Hdj & _).
  assert (Hinq : forall y, y ∈ l1 ++ l2 -> y ∈ Q q) by (intros y Hy; rewrite E; apply elem_of_app in Hy; apply elem_of_app; rewrite elem_of_cons; tauto).
  assert (HxQ : x ∈ Q q) by (rewrite E; apply elem_of_app; right; by left).
  set (p := t_prev (tasks s x)) in *. set (n := t_next (tasks s x)) in *.
  assert (Hpx : p <> x) by (intros Epx; rewrite Epx in Hp'; by destruct Hp').
  assert (Hnx : n <> x) by (intros Enx; rewrite Enx in Hn'; by destruct Hn').
  unfold remove_from_queue. replace (x =? 0) with false by lia. fold p n.
  set (s1 := if negb (p =? 0) then _ else s).
  assert (X1 : tasks s1 x = tasks s x) by (unfold s1; destruct (p =? 0); [done|]; cbn; by rewrite upd_ne).
  rewrite X1. fold p n. set (s2 := if negb (n =? 0) then _ else s1).
  destruct (drop_heads s2 x) as (D1 & D2 & D3 & D4 & D5). set (s3 := drop_head TASK_ZOMBIE x _) in *.
  assert (T2 : forall y, y <> 0 -> tasks s2 y =
    (let t := if decide (y = p) then set_t_next n (tasks s y) else tasks s y in if decide (y = n) then set_t_prev p t else t)).
  { intros y Hy. unfold s2, s1. destruct (Z.eqb_spec p 0) as [Ep|Ep], (Z.eqb_spec n 0) as [En|En]; cbn [negb set_task tasks]; rewrite ?upd_cases.
    - rewrite !decide_False by congruence. done.
    - rewrite (decide_False (P := y = p)) by congruence. by destruct (decide (y = n)) as [->|].
    - rewrite (decide_False (P := y = n)) by congruence. by destruct (decide (y = p)) as [->|].
    - destruct (decide (y = n)) as [->|]; [|by destruct (decide (y = p)) as [->|]]. by destruct (decide (n = p)) as [->|]. }
  assert (Q2 : queue s2 = queue s) by (unfold s2, s1; by destruct (p =? 0), (n =? 0)).
  assert (L4 : forall y, y <> 0 -> y <> x ->
    t_next (tasks (set_task x (set_t_next 0 (tasks (set_task x (set_t_prev 0 (tasks s3 x)) s3) x)) (set_task x (set_t_prev 0 (tasks s3 x)) s3)) y) =
      (if decide (y = p) then n else t_next (tasks s y)) /\
    t_prev (tasks (set_task x (set_t_next 0 (tasks (set_task x (set_t_prev 0 (tasks s3 x)) s3) x)) (set_task x (set_t_prev 0 (tasks s3 x)) s3)) y) =
      (if decide (y = n) then p else t_prev (tasks s y))).
  { intros y Hy Hyx. cbn [set_task tasks]. rewrite !upd_ne by done. rewrite D1, T2 by done. cbv zeta.
    by destruct (decide (y = p)), (decide (y = n)). }
  set (s5 := set_task x (set_t_next 0 _) _) in *.
  assert (Q5 : forall q', has_queue q' = true -> queue s5 q' = if decide (queue s q' = x) then n else queue s q').
  { intros q' Hq'. change (queue s5) with (queue s3). rewrite D5, Q2 by done. rewrite (T2 x) by done. cbv zeta.
    by rewrite (decide_False (P := x = n)), (decide_False (P := x = p)) by congruence. }
  split; [split|split; [|split; [done|]]].
  - intros q' Hq'. rewrite Q5 by done. unfold qupd. destruct (decide (q' = q)) as [->|Hne].
    + pose proof (dlist_remove _ (tasks s5) _ _ _ _ D) as R. cbn in R. fold p n in R.
      replace (if decide (queue s q = x) then n else queue s q) with (if decide (p = 0) then n else queue s q); [apply R|].
      * intros y Hy. apply L4; [eapply dlist_nonzero; [exact D|]; apply elem_of_app in Hy; apply elem_of_app; rewrite elem_of_cons; tauto|].
        intros ->. apply elem_of_app in Hy as [?|?]; done.
      * pose proof (dlist_head _ _ _ D) as Hh. rewrite Hh. destruct l1 as [|y l1].
        -- rewrite Hp. cbn. by rewrite !decide_True.
        -- rewrite decide_False; [rewrite decide_False; [done|]|].
           ++ cbn. intros ->. apply H1. by left.
           ++ destruct Hp' as [Hp0|Hp1]; [|eapply dlist_nonzero; [exact D|]; apply elem_of_app; by left].
              rewrite Hp in Hp0. exfalso. eapply dlist_nonzero; [exact D| |exact Hp0]. apply elem_of_app. left. by apply last_or_elem.
    + assert (HqN : forall y, y ∈ Q q' -> y ∉ Q q) by (intros y Hy Hy'; by apply Hne, (HJ q' q y)).
      rewrite decide_False.
      * eapply dlist_frame; [|by apply HD]. intros y Hy. assert (Hy0 : y <> 0) by (eapply dlist_nonzero; [by apply HD|done]).
        destruct (L4 y Hy0) as [Ly1 Ly2]; [by intros ->; apply (HqN x)|]. cbn [lnext lprev task_linked]. rewrite Ly1, Ly2.
        rewrite !decide_False; [done| |].
        -- intros ->. destruct Hn' as [?|?]; [done|]. apply (HqN n Hy), Hinq, elem_of_app. by right.
        -- intros ->. destruct Hp' as [?|?]; [done|]. apply (HqN p Hy), Hinq, elem_of_app. by left.
      * intros Eh. apply (HqN x); [|done]. eapply (head_in s Q); [by split|done|done|done].
  - intros q1 q2 y Hq1 Hq2. unfold qupd. destruct (decide (q1 = q)) as [->|], (decide (q2 = q)) as [->|]; [done|..].
    + intros Hy1 Hy2. by apply (HJ q q2 y); auto.
    + intros Hy1 Hy2. by apply (HJ q1 q y); auto.
    + by apply HJ.
  - assert (P5 : forall (B : Type) (g : task -> B) y, (forall t v, g (set_t_next v t) = g t) -> (forall t v, g (set_t_prev v t) = g t) -> g (tasks s5 y) = g (tasks s y)).
    { intros B g y G1 G2. unfold s5. cbn [set_task tasks]. rewrite upd_eq. rewrite upd_proj by (rewrite upd_eq; by rewrite G1). rewrite upd_proj by apply G2. rewrite D1.
      unfold s2, s1. destruct (p =? 0), (n =? 0); cbn [negb set_task tasks]; rewrite ?upd_proj; auto. }
    split; [intros y; by apply P5|intros y; by apply P5| | |].
    + change (stats s5) with (stats s3). rewrite D2. unfold s2, s1. by destruct (p =? 0), (n =? 0).
    + change (current_task s5) with (current_task s3). rewrite D3. unfold s2, s1. by destruct (p =? 0), (n =? 0).
    + change (idle_task_pid s5) with (idle_task_pid s3). rewrite D4. unfold s2, s1. by destruct (p =? 0), (n =? 0).
  - intros q' Hq'. unfold qupd. destruct (decide (q' = q)) as [->|Hne]; [by intros [?|?]%elem_of_app|].
    intros Hy. by apply Hne, (HJ q' q x).
Qed.

Lemma add_queue fuel s Q q x :
  queues s Q -> x <> 0 -> (forall q', has_queue q' = true -> x ∉ Q q') -> t_state (tasks s x) = q -> has_queue q = true ->
  (length (Q q) < fuel)%nat ->
  exists s', add_to_queue fuel x s = Some s' /\ queues s' (qupd Q q (Q q ++ [x])) /\ requeued s s'.
Proof.
  intros [HD HJ] Hx Hno Hst Hq Hf. unfold add_to_queue. replace (x =? 0) with false by lia. rewrite Hst, Hq. cbn [negb].
  pose proof (HD q Hq) as D. pose proof (dlist_head _ _ _ D) as Hh.
  assert (HJ' : forall q1 q2 y, has_queue q1 = true -> has_queue q2 = true ->
    y ∈ qupd Q q (Q q ++ [x]) q1 -> y ∈ qupd Q q (Q q ++ [x]) q2 -> q1 = q2).
  { intros q1 q2 y Hq1 Hq2. unfold qupd. destruct (decide (q1 = q)) as [->|], (decide (q2 = q)) as [->|]; [done| | |by apply HJ].
    - rewrite elem_of_app, list_elem_of_singleton. intros [Hy| ->] Hy2; [by apply (HJ q q2 y)|]. by destruct (Hno q2).
    - rewrite elem_of_app, list_elem_of_singleton. intros Hy2 [Hy| ->]; [by apply (HJ q1 q y)|]. by destruct (Hno q1). }
  assert (Hother : forall s', (forall q', has_queue q' = true -> q' <> q -> queue s' q' = queue s q') ->
    (forall y q', has_queue q' = true -> y ∈ Q q' -> q' <> q -> t_next (tasks s' y) = t_next (tasks s y) /\ t_prev (tasks s' y) = t_prev (tasks s y)) ->
    dlist (tasks s') (queue s' q) (Q q ++ [x]) -> queues s' (qupd Q q (Q q ++ [x]))).
  { intros s' Hqs Hts HDq. split; [|exact HJ']. intros q' Hq'. unfold qupd. destruct (decide (q' = q)) as [->|Hne]; [done|].
    rewrite Hqs by done. eapply dlist_frame; [|by apply HD]. intros y Hy. by eapply Hts. }
  destruct (Z.eqb_spec (queue s q) 0) as [E0|E0].
  - rewrite E0 in D. apply dlist_zero in D. eexists. split; [reflexivity|]. split.
    + apply Hother.
      * intros q' _ Hne. cbn. by rewrite decide_False.
      * intros y q' Hq' Hy Hne. assert (y <> x) by (intros ->; by destruct (Hno q')). cbn. rewrite !upd_ne by done. done.
      * rewrite D. split; [|apply NoDup_singleton]. cbn. rewrite decide_True by done. cbn. by rewrite !upd_eq.
    + split; cbn; try done; intros y; do 2 (rewrite upd_proj by done); done.
  - destruct (exists_last (l := Q q)) as (l & w & El).
    { intros En. rewrite En in Hh. done. }
    assert (Hfw : forall l0 p pv, dseg (tasks s) pv p l0 0 -> fwd (tasks s) p l0).
    { clear. induction l0 as [|y l0 IH]; intros p pv H; [done|]. destruct H as (-> & Hy & _ & H). split; [done|]. split; [done|].
      by eapply IH. }
    rewrite (last_of_spec _ l) with (x := w); [| |rewrite El, length_app in Hf; cbn in Hf; lia].
    2: { rewrite <- El. eapply Hfw. apply D. }
    assert (Hw : w ∈ Q q) by (rewrite El; apply elem_of_app; right; by left). assert (Hwx : w <> x) by (intros ->; by destruct (Hno q)).
    eexists. split; [reflexivity|]. split.
    + apply Hother.
      * done.
      * intros y q' Hq' Hy Hne. assert (y <> x) by (intros ->; by destruct (Hno q')).
        assert (y <> w) by (intros ->; by apply Hne, (HJ q' q w)). cbn. rewrite !upd_ne by done. done.
      * pose proof (dlist_insert (tasks s) (tasks (set_task x (set_t_next 0 (tasks (set_task x (set_t_prev w (tasks (set_task w (set_t_next x (tasks s w)) s) x))
          (set_task w (set_t_next x (tasks s w)) s)) x)) (set_task x (set_t_prev w (tasks (set_task w (set_t_next x (tasks s w)) s) x)) (set_task w (set_t_next x (tasks s w)) s))))
          (queue s q) (Q q) [] x) as I. rewrite !app_nil_r in I. rewrite decide_False in I by (intros En; rewrite En in Hw; by apply elem_of_nil in Hw).
        apply I; clear I; [done|done|by apply Hno| | |].
        -- cbn. rewrite !upd_eq. cbn. by rewrite El, last_or_snoc.
        -- cbn. by rewrite !upd_eq.
        -- intros y Hy. assert (y <> x) by (intros ->; by destruct (Hno q)). assert (y <> 0) by (by eapply dlist_nonzero).
           rewrite El, last_or_snoc. cbn. rewrite !upd_ne by done. rewrite upd_cases.
           rewrite (decide_False (P := y = 0)) by done. by destruct (decide (y = w)) as [->|].
    + split; cbn; try done; intros y; do 3 (rewrite upd_proj by done); done.
Qed.

(** ** The theorems *)

(** C23: waiting tasks run round robin.  Let [W] be the waiting queue and [st] the
    state of the current task [c], which is not in the queue: it runs, or it has
    blocked, gone to sleep or exited.  A rescheduling runs the first waiting task
    that is not the idle task (which goes to the end of the queue if it comes
    first); the idle task is run only if no other task waits and [c] cannot run on.
    [c] is appended to the queue if it was running, and not otherwise.  If nothing
    else can be run [c] stays the current task, but if it has exited the kernel
    aborts.  The zombie queue [Zs] holds no task that is to be destroyed.  The
    result satisfies the same conditions. *)
Theorem reschedule_round_robin fuel s idle c st W Zs :
  sched_ok s idle c st W Zs -> (length W < fuel)%nat -> (length Zs < fuel)%nat ->
  (exited st /\ W = [] -> scheduler_reschedule fuel s = Some Panic) /\
  (~ (exited st /\ W = []) -> exists s', scheduler_reschedule fuel s = Some (Done s') /\
    let '(c', st', W') := rr idle (c, st, W) in sched_ok s' idle c' st' W' Zs).
Proof. apply reschedule_spec. Qed.

Lemma reschedule_round_robin_witness :
  (exists s s', sched_demo = Some s /\ scheduler_reschedule 10 s = Some (Done s') /\
     sched_ok s' 100 200 TASK_RUNNING [300; 100] []) /\
  (exists s s', sched_blocked = Some s /\ scheduler_reschedule 10 s = Some (Done s') /\
     sched_ok s' 100 300 TASK_RUNNING [100] []).
Proof.
  split.
  - destruct sched_demo_ok as (s & E & K).
    destruct (reschedule_round_robin 10 s 100 100 TASK_RUNNING [200; 300] [] K) as [_ H]; [cbn; lia|cbn; lia|].
    destruct H as (s' & E' & K'); [by intros [_ ?]|]. exists s, s'. split; [exact E|]. split; [exact E'|exact K'].
  - destruct sched_blocked_ok as (s & E & K).
    destruct (reschedule_round_robin 10 s 100 200 TASK_BLOCKED [300; 100] [] K) as [_ H]; [cbn; lia|cbn; lia|].
    destruct H as (s' & E' & K'); [by intros [_ ?]|]. exists s, s'. split; [exact E|]. split; [exact E'|exact K'].
Defined.

(** C24: no task in the waiting queue starves while the scheduler is only called
    again and again.  From a state as in the theorem on a single rescheduling
    ([sched_ok]), a task [x] of the waiting queue other than the idle task becomes
    the current task within as many consecutive reschedulings as there are tasks in
    the queue.  Between these no task is moved to another state: a task whose state
    says that it waits but that is not in the queue is not covered, nor are tasks
    that block or wake up in the meantime, which can lose others
    ([sched_lost]). *)
Theorem scheduler_fair fuel s idle c st W Zs x :
  sched_ok s idle c st W Zs -> (length W < fuel)%nat -> (length Zs < fuel)%nat -> x ∈ W -> x <> idle ->
  exists k s', (0 < k <= length W)%nat /\ yields fuel k s = Some (Done s') /\ current_task s' = x.
Proof.
  intros K HW HZ Hx Hxi. apply list_elem_of_lookup_1 in Hx as [i Hi]. pose proof (lookup_lt_Some _ _ _ Hi).
  destruct (rr_reaches idle x (S i) i c st W ltac:(lia) Hi Hxi) as (k & Hk & Er).
  destruct (yields_spec fuel idle Zs k s c st W K) as (s' & E & Ec); [intros [_ ->]; done|done|done|].
  exists k, s'. split; [lia|]. split; [done|]. by rewrite Ec.
Qed.

Lemma scheduler_fair_witness :
  exists s k s', sched_demo = Some s /\ (0 < k <= 2)%nat /\ yields 10 k s = Some (Done s') /\ current_task s' = 300.
Proof.
  destruct sched_demo_ok as (s & E & K).
  destruct (scheduler_fair 10 s 100 100 TASK_RUNNING [200; 300] [] 300 K) as (k & s' & Hk & E' & Ec);
    [cbn; lia|cbn; lia|by right; left|discriminate|].
  exists s, k, s'. split; [exact E|]. split; [exact Hk|]. split; [exact E'|exact Ec].
Defined.

(** Changing a task's state moves it to the end of the right queue.  When the
    queues are properly linked, [scheduler_move_task_to_state] takes the task out
    of its queue and appends it to the queue of the new state, or to none if the
    new state has none; no other task moves. *)
Theorem move_task_correct fuel s Q q l1 x l2 q' :
  queues s Q -> has_queue q = true -> Q q = l1 ++ x :: l2 -> (forall q, (length (Q q) < fuel)%nat) ->
  exists s', scheduler_move_task_to_state fuel x q' s = Some s' /\ t_state (tasks s' x) = q' /\
    (forall y, y <> x -> t_state (tasks s' y) = t_state (tasks s y)) /\
    let Q1 := qupd Q q (l1 ++ l2) in queues s' (if has_queue q' then qupd Q1 q' (Q1 q' ++ [x]) else Q1).
Proof.
  intros HQ Hq E Hf. unfold scheduler_move_task_to_state.
  set (s0 := set_sched_stats _ s). assert (HQ0 : queues s0 Q) by (destruct HQ; by split).
  destruct (remove_queue s0 Q q l1 x l2 HQ0 Hq E) as (HQ1 & R1 & Hx & Hno). replace (x =? 0) with false by lia.
  set (s1 := remove_from_queue x s0) in *. set (s2 := set_sched_stats _ _).
  assert (HQ2 : queues s2 (qupd Q q (l1 ++ l2))).
  { destruct HQ1 as [HD HJ]. split; [|done]. intros q0 Hq0. eapply dlist_frame; [|by apply HD]. intros y _.
    cbn. rewrite upd_cases. by destruct (decide (y = x)) as [->|]. }
  assert (Hst : t_state (tasks s2 x) = q') by (cbn; by rewrite upd_eq).
  assert (Hst' : forall y, y <> x -> t_state (tasks s2 y) = t_state (tasks s y)).
  { intros y Hy. cbn. rewrite upd_ne by done. apply (rq_state _ _ R1). }
  cbv zeta. destruct (has_queue q') eqn:Hq'.
  - destruct (add_queue fuel s2 (qupd Q q (l1 ++ l2)) q' x) as (s' & Ea & HQ' & R'); try done.
    { unfold qupd. destruct (decide (q' = q)); [|apply Hf]. specialize (Hf q). rewrite E, length_app in Hf. cbn in Hf.
      rewrite length_app. lia. }
    exists s'. split; [done|]. split; [by rewrite (rq_state _ _ R')|]. split; [|done].
    intros y Hy. rewrite (rq_state _ _ R'). by apply Hst'.
  - exists s2. split; [|done]. unfold add_to_queue. replace (x =? 0) with false by lia. by rewrite Hst, Hq'.
Qed.

Lemma move_task_correct_witness :
  exists s s', sched_demo = Some s /\ scheduler_move_task_to_state 10 200 TASK_SLEEPING s = Some s' /\
    dlist (tasks s') (queue s' TASK_SLEEPING) [200] /\ dlist (tasks s') (queue s' TASK_WAITING) [300].
Proof.
  destruct sched_demo as [s|] eqn:E; [|vm_compute in E; discriminate E].
  assert (HQ : queues s (fun q => if decide (q = TASK_WAITING) then [200; 300] else [])).
  { vm_compute in E. injection E as <-. split.
    - intros q _. destruct q; (split; [vm_compute; repeat split; discriminate|]); repeat constructor; set_solver.
    - intros q q' x _ _. destruct (decide (q = TASK_WAITING)) as [->|], (decide (q' = TASK_WAITING)) as [->|]; set_solver. }
  destruct (move_task_correct 10 s _ TASK_WAITING [] 200 [300] TASK_SLEEPING HQ) as (s' & E' & _ & _ & HQ');
    [done|done|intros q; destruct (decide (q = TASK_WAITING)); cbn; lia|].
  exists s, s'. split; [done|]. split; [exact E'|]. cbn [has_queue] in HQ'.
  split; [exact (qu_list _ _ HQ' TASK_SLEEPING eq_refl)|exact (qu_list _ _ HQ' TASK_WAITING eq_refl)].
Defined.

(** C25: a ready task can be lost.  [scheduler_get_next_task] leaves the [prev]
    link of the new head of the queue pointing at the task it has taken.  When that
    head later runs and blocks, [remove_from_queue] cuts the queue behind the other
    task: here task 400, which has become ready in the meantime, stays in the
    waiting state but is in no queue, and never runs again, however often the
    scheduler is called. *)
Theorem scheduler_loses_task :
  exists s, sched_lost = Some s /\ t_state (tasks s 400) = TASK_WAITING /\
    forall k, exists s', yields 10 k s = Some (Done s') /\ current_task s' = 200.
Proof.
  destruct sched_lost as [s|] eqn:E; [|vm_compute in E; discriminate E]. exists s. split; [done|].
  vm_compute in E. injection E as <-. split; [reflexivity|]. intros k.
  match goal with |- exists s', yields _ _ ?s = _ /\ _ => assert (K : sched_ok s 100 200 TASK_RUNNING [100] []) by sched_ok_vm end.
  destruct (yields_spec 10 100 [] k _ 200 TASK_RUNNING [100] K) as (s' & E' & Ec); [by intros [_ ?]|cbn; lia|cbn; lia|]. exists s'. split; [exact E'|].
  rewrite Ec. clear. induction k as [|k IH]; [done|]. cbn [rr_n rr choose]. by rewrite !decide_True.
Qed.

(** 200 blocks, is woken up before it is switched away from, and 400 becomes ready;
    then the scheduler runs. *)
Definition sched_woken : option sched :=
  sched_then (sched_then (sched_then sched_blocked
    (scheduler_move_task_to_state 10 200 TASK_WAITING))
    (scheduler_add_task 10 400))
    (fun s => outcome_state (scheduler_yield 10 s)).

(** A current task that is woken up before it is switched away from is in the
    waiting queue already; [scheduler_reschedule] appends it once more, which cuts
    off the tasks behind it: 400 waits but is in no queue. *)
Theorem scheduler_woken_loses_task :
  exists s, sched_woken = Some s /\ current_task s = 300 /\ fwd (tasks s) (queue s TASK_WAITING) [100; 200] /\
    t_state (tasks s 400) = TASK_WAITING.
Proof.
  destruct sched_woken as [s|] eqn:E; [|vm_compute in E; discriminate E]. exists s. split; [done|].
  vm_compute in E. injection E as <-. vm_compute. repeat split; discriminate.
Qed.

(** A task is linked into one queue, or into none and has no links. *)
Definition queued (Q : task_state -> list Z) (x : Z) : Prop := exists q, has_queue q = true /\ x ∈ Q q.
Definition unlinked (s : sched) (x : Z) : Prop := t_prev (tasks s x) = 0 /\ t_next (tasks s x) = 0.
Definition placed (s : sched) (Q : task_state -> list Z) (x : Z) : Prop := x <> 0 /\ (queued Q x \/ ~ queued Q x /\ unlinked s x).

(** The queues after a task was moved. *)
Definition qdel (Q : task_state -> list Z) (x : Z) : task_state -> list Z := fun q => filter (fun y => y <> x) (Q q).
Definition qmove (Q : task_state -> list Z) (x : Z) (q' : task_state) : task_state -> list Z :=
  if has_queue q' then qupd (qdel Q x) q' (qdel Q x q' ++ [x]) else qdel Q x.

Lemma queues_ext s Q Q' : (forall q, has_queue q = true -> Q q = Q' q) -> queues s Q -> queues s Q'.
Proof.
  intros E [HD HJ]. split.
  - intros q Hq. rewrite <- E by done. by apply HD.
  - intros q q' x Hq Hq'. rewrite <- !E by done. by apply HJ.
Qed.

Lemma filter_ne_id (x : Z) (l : list Z) : x ∉ l -> filter (fun y => y <> x) l = l.
Proof.
  induction l as [|y l IH]; intros H; [done|]. apply not_elem_of_cons in H as [? ?]. rewrite filter_cons_True by congruence. by rewrite IH.
Qed.

Lemma filter_ne_mid (x : Z) (l1 l2 : list Z) : x ∉ l1 -> x ∉ l2 -> filter (fun y => y <> x) (l1 ++ x :: l2) = l1 ++ l2.
Proof. intros H1 H2. rewrite filter_app, filter_cons_False by tauto. by rewrite !filter_ne_id. Qed.

(** What [remove_from_queue] and [add_to_queue] leave alone. *)
Lemma remove_frame s x y :
  y <> x -> y <> t_prev (tasks s x) -> y <> t_next (tasks s x) -> t_prev (tasks s x) <> x ->
  tasks (remove_from_queue x s) y = tasks s y.
Proof.
  intros H1 H2 H3 H4. unfold remove_from_queue. destruct (x =? 0); [done|].
  set (s1 := if negb (t_prev (tasks s x) =? 0) then _ else s).
  assert (E1 : forall z, z <> t_prev (tasks s x) -> tasks s1 z = tasks s z).
  { intros z Hz. subst s1. destruct (_ =? 0); [done|]. cbn. by apply upd_ne. }
  rewrite (E1 x) by done. set (s2 := if negb (t_next (tasks s x) =? 0) then _ else s1).
  destruct (drop_heads s2 x) as (D & _). set (s3 := drop_head TASK_ZOMBIE x _) in *. cbn. rewrite !upd_ne, D by done.
  subst s2. clearbody s1. destruct (negb _); cbn; rewrite ?upd_ne by done; by apply E1.
Qed.

Lemma remove_unlinked s x : x <> 0 -> unlinked (remove_from_queue x s) x.
Proof. intros Hx. unfold remove_from_queue. replace (x =? 0) with false by lia. split; cbn; rewrite ?upd_eq; done. Qed.

(** Removing a task that is in no queue changes nothing. *)
Lemma remove_clean s Q x :
  queues s Q -> x <> 0 -> ~ queued Q x -> unlinked s x ->
  queues (remove_from_queue x s) Q /\ requeued s (remove_from_queue x s) /\ forall y, tasks (remove_from_queue x s) y = tasks s y.
Proof.
  intros HQ Hx Hn [Hp Hnx]. unfold remove_from_queue. replace (x =? 0) with false by lia. rewrite Hp, Hnx. cbn [negb Z.eqb].
  rewrite Hnx. cbn [negb Z.eqb]. destruct (drop_heads s x) as (D1 & D2 & D3 & D4 & D5). set (s3 := drop_head TASK_ZOMBIE x _) in *.
  assert (T : forall y, tasks (set_task x (set_t_next 0 (tasks (set_task x (set_t_prev 0 (tasks s3 x)) s3) x)) (set_task x (set_t_prev 0 (tasks s3 x)) s3)) y = tasks s y).
  { intros y. cbn. rewrite upd_eq, D1. destruct (decide (y = x)) as [->|]; [|by rewrite !upd_ne].
    rewrite upd_eq. clear - Hp Hnx. revert Hp Hnx. destruct (tasks s x). cbn. by intros -> ->. }
  set (s5 := set_task x _ _) in *. assert (Q5 : forall q, has_queue q = true -> queue s5 q = queue s q).
  { intros q Hq. change (queue s5) with (queue s3). rewrite D5 by done. apply decide_False.
    intros E. apply Hn. exists q. split; [done|]. by eapply head_in. }
  split; [|split; [|done]].
  - destruct HQ as [HD HJ]. split; [|done]. intros q Hq. rewrite Q5 by done. eapply dlist_frame; [|by apply HD]. intros y _. by rewrite T.
  - split; [intros y; by rewrite T|intros y; by rewrite T|done|done|done].
Qed.

Lemma last_of_in ts l : forall fuel p, fwd ts p l -> p <> 0 -> (length l < fuel)%nat -> exists w, last_of fuel ts p = Some w /\ w ∈ l.
Proof.
  intros fuel p H Hp Hf. destruct l as [|y l _] using rev_ind; [by cbn in H|]. exists y. split; [|set_solver].
  apply (last_of_spec ts l); [done|]. rewrite length_app in Hf. cbn in Hf. lia.
Qed.

Lemma dseg_fwd ts l : forall p pv, dseg ts pv p l 0 -> fwd ts p l.
Proof. induction l as [|y l IH]; intros p pv H; [done|]. destruct H as (-> & Hy & _ & H). split; [done|]. split; [done|]. by eapply IH. Qed.

Lemma add_frame fuel s Q x s' :
  queues s Q -> add_to_queue fuel x s = Some s' -> (forall q, (length (Q q) < fuel)%nat) ->
  forall y, y <> x -> ~ queued Q y -> tasks s' y = tasks s y.
Proof.
  intros [HD _] E Hf y Hy Hn. unfold add_to_queue in E. destruct (x =? 0); [congruence|].
  destruct (has_queue (t_state (tasks s x))) eqn:Hq; [|cbn in E; congruence]. cbn [negb] in E.
  destruct (Z.eqb_spec (queue s (t_state (tasks s x))) 0) as [E0|E0].
  - injection E as <-. cbn. by rewrite !upd_ne.
  - destruct (last_of_in (tasks s) (Q (t_state (tasks s x))) fuel (queue s (t_state (tasks s x)))) as (w & Ew & Hw); [|done|done|].
    { destruct (HD _ Hq) as [D _]. by eapply dseg_fwd. }
    rewrite Ew in E. injection E as <-. cbn. rewrite !upd_ne; [done| |done|done]. intros ->. apply Hn. by exists (t_state (tasks s x)).
Qed.

(** The first half of a move: the task leaves its queue. *)
Lemma remove_from_queue_spec s Q x :
  queues s Q -> placed s Q x ->
  let s' := remove_from_queue x s in
  queues s' (qdel Q x) /\ requeued s s' /\ ~ queued (qdel Q x) x /\ unlinked s' x /\
  forall y, y <> 0 -> y <> x -> ~ queued Q y -> tasks s' y = tasks s y.
Proof.
  intros HQ [Hx Hp]. cbv zeta.
  assert (Hno : ~ queued (qdel Q x) x) by (intros (q & _ & Hin); unfold qdel in Hin; apply list_elem_of_filter in Hin as [? _]; done).
  destruct Hp as [(q & Hq & Hin)|[Hn Hu]].
  - apply list_elem_of_split in Hin as (l1 & l2 & E). destruct (remove_queue s Q q l1 x l2 HQ Hq E) as (HQ1 & R & _ & Hno1).
    pose proof (qu_list _ _ HQ q Hq) as D. rewrite E in D. destruct (dlist_links _ _ _ _ _ D) as (Lp & Ln & _ & N1 & N2 & Hnd). cbn in Lp, Ln.
    split; [|split; [done|split; [done|split; [by apply remove_unlinked|]]]].
    + eapply queues_ext; [|exact HQ1]. intros q' Hq'. unfold qupd, qdel. destruct (decide (q' = q)) as [->|Hne].
      * by rewrite E, filter_ne_mid.
      * symmetry. apply filter_ne_id. intros Hin. apply Hne. apply (qu_disjoint _ _ HQ q' q x Hq' Hq Hin). rewrite E. set_solver.
    + intros y Hy0 Hy Hny. assert (Hin1 : forall z, z ∈ l1 ++ l2 -> y <> z) by (intros z Hz ->; apply Hny; exists q; split; [done|]; rewrite E; set_solver).
      apply remove_frame; [done| | |]; rewrite ?Lp, ?Ln.
      * destruct l1 as [|w l1 _] using rev_ind; [done|]. rewrite last_or_snoc. apply Hin1. set_solver.
      * destruct l2 as [|w l2]; [done|]. apply Hin1. set_solver.
      * destruct l1 as [|w l1 _] using rev_ind; [done|]. rewrite last_or_snoc. intros ->. apply N1. set_solver.
  - destruct (remove_clean s Q x HQ Hx Hn Hu) as (HQ1 & R & F).
    split; [|split; [done|split; [done|split; [by apply remove_unlinked|]]]]; [|intros y _ _ _; apply F].
    eapply queues_ext; [|exact HQ1]. intros q Hq. symmetry. apply filter_ne_id. intros Hin. apply Hn. by exists q.
Qed.

(** What a move of [x] to the state [st] does. *)
Record moved (s s' : sched) (Q : task_state -> list Z) (x : Z) (st : task_state) : Prop := {
  mv_queues : queues s' (qmove Q x st);
  mv_state : t_state (tasks s' x) = st;
  mv_states y : y <> x -> t_state (tasks s' y) = t_state (tasks s y);
  mv_pid y : t_pid (tasks s' y) = t_pid (tasks s y);
  mv_current : current_task s' = current_task s;
  mv_idle : idle_task_pid s' = idle_task_pid s;
  mv_placed y : placed s Q y -> placed s' (qmove Q x st) y }.

Lemma qmove_queued Q x st y : y <> x -> queued (qmove Q x st) y <-> queued Q y.
Proof.
  intros Hy. unfold queued, qmove, qupd, qdel. split; intros (q & Hq & Hin); exists q; (split; [done|]).
  - destruct (has_queue st); [destruct (decide (q = st)) as [->|]|]; rewrite ?elem_of_app, list_elem_of_filter, ?list_elem_of_singleton in Hin; naive_solver.
  - destruct (has_queue st); [destruct (decide (q = st)) as [->|]|]; rewrite ?elem_of_app, list_elem_of_filter; naive_solver.
Qed.

Lemma move_spec fuel s Q x st :
  queues s Q -> placed s Q x -> (forall q, (length (Q q) < fuel)%nat) ->
  exists s', scheduler_move_task_to_state fuel x st s = Some s' /\ moved s s' Q x st.
Proof.
  intros HQ HP Hf. unfold scheduler_move_task_to_state. replace (x =? 0) with false by (destruct HP; lia).
  set (s0 := set_sched_stats _ s). assert (HQ0 : queues s0 Q) by (destruct HQ; by split).
  destruct (remove_from_queue_spec s0 Q x HQ0 HP) as (HQ1 & R1 & Hno & Hu & Fr). set (s1 := remove_from_queue x s0) in *. set (s2 := set_sched_stats _ _).
  assert (L2 : forall y, t_next (tasks s2 y) = t_next (tasks s1 y) /\ t_prev (tasks s2 y) = t_prev (tasks s1 y) /\ t_pid (tasks s2 y) = t_pid (tasks s1 y)).
  { intros y. cbn. rewrite upd_cases. by destruct (decide (y = x)) as [->|]. }
  assert (HQ2 : queues s2 (qdel Q x)).
  { destruct HQ1 as [HD HJ]. split; [|done]. intros q0 Hq0. eapply dlist_frame; [|by apply HD]. intros y _. by destruct (L2 y) as (? & ? & _). }
  assert (Hst : t_state (tasks s2 x) = st) by (cbn; by rewrite upd_eq).
  assert (Hst' : forall y, y <> x -> t_state (tasks s2 y) = t_state (tasks s y)).
  { intros y Hy. cbn. rewrite upd_ne by done. apply (rq_state _ _ R1). }
  assert (Hpid : forall y, t_pid (tasks s2 y) = t_pid (tasks s y)) by (intros y; destruct (L2 y) as (_ & _ & ->); apply (rq_pid _ _ R1)).
  assert (Hlen : forall q, (length (qdel Q x q) < fuel)%nat) by (intros q; pose proof (length_filter (fun y => y <> x) (Q q)); specialize (Hf q); unfold qdel; lia).
  assert (Hun : forall y, y <> 0 -> y <> x -> ~ queued Q y -> unlinked s y -> unlinked s2 y).
  { intros y H0 Hy Hn [U1 U2]. destruct (L2 y) as (E1 & E2 & _). unfold unlinked. rewrite E1, E2, Fr by done. done. }
  destruct (has_queue st) eqn:Hq.
  - destruct (add_queue fuel s2 (qdel Q x) st x HQ2) as (s' & Ea & HQ' & R'); [destruct HP; done| |done|done|done|].
    { intros q' Hq' Hin. apply Hno. by exists q'. }
    assert (Fr' := add_frame fuel s2 (qdel Q x) x s' HQ2 Ea Hlen).
    exists s'. split; [done|]. split.
    + unfold qmove. by rewrite Hq.
    + by rewrite (rq_state _ _ R').
    + intros y Hy. rewrite (rq_state _ _ R'). by apply Hst'.
    + intros y. by rewrite (rq_pid _ _ R').
    + by rewrite (rq_current _ _ R'), (rq_current _ _ R1 : current_task s2 = current_task s).
    + by rewrite (rq_idle _ _ R'), (rq_idle _ _ R1 : idle_task_pid s2 = idle_task_pid s).
    + intros y [H0 Hy]. split; [done|]. destruct (decide (y = x)) as [->|Hyx].
      * left. exists st. split; [done|]. unfold qmove, qupd. rewrite Hq, decide_True by done. set_solver.
      * rewrite qmove_queued by done. destruct Hy as [Hy|[Hy1 Hy2]]; [by left|right]. split; [done|]. unfold unlinked.
        rewrite Fr'; [by apply Hun|done|]. intros (q & Hq1 & Hin). apply Hy1. exists q. split; [done|]. unfold qdel in Hin. apply list_elem_of_filter in Hin as [_ ?]. done.
  - exists s2. split; [unfold add_to_queue; replace (x =? 0) with false by (destruct HP; lia); by rewrite Hst, Hq|]. split; try done.
    + unfold qmove. by rewrite Hq.
    + apply (rq_current _ _ R1).
    + apply (rq_idle _ _ R1).
    + intros y [H0 Hy]. split; [done|]. destruct (decide (y = x)) as [->|Hyx].
      * right. unfold qmove. rewrite Hq. split; [done|]. destruct (L2 x) as (E1 & E2 & _), Hu. unfold unlinked. by rewrite E1, E2.
      * rewrite qmove_queued by done. destruct Hy as [Hy|[Hy1 Hy2]]; [by left|right]. split; [done|]. by apply Hun.
Qed.
