(* ===== verification/Signals.v ===== *)
(** Signals: a model of [src/kernel/kernel/task/sighandler.c], of
    [sys_sigact] and [sys_sigreturn] in [src/kernel/kernel/task/syscall], and of
    the signal sets of [src/libc/src/signal].

    A task is its two signal sets, its 32 registered actions, the words that the
    system call stub pushed on the kernel stack (from which it returns to user
    mode) and the memory as its page directory maps it.  [task_exit] does not return: the functions that
    may call it give [Exits] with the exit code and the task as it was left. *)

From S2P Require Import Prelude Errno Paging CMem.
From Stdlib Require Import ZArith Lia Bool.
From stdpp Require Import base tactics numbers list.
Open Scope Z_scope.

(** ** Signal sets *)

(** The functions take a pointer to the set, [None] for [NULL], and return
    their result and the set. *)
Definition sigemptyset (set : option Z) : Z * option Z :=
  match set with
  | None => (-1, None)
  | Some _ => (0, Some 0)
  end.

Definition sigfillset (set : option Z) : Z * option Z :=
  match set with
  | None => (-1, None)
  | Some _ => (0, Some (2 ^ 32 - 1))
  end.

Definition sigaddset (sig : Z) (set : option Z) : Z * option Z :=
  match set with
  | None => (-1, None)
  | Some s =>
      if (sig <? 0) || (31 <? sig) then (-1, Some s)
      else (0, Some (Z.lor s (u32 (Z.shiftl 1 sig))))
  end.

Definition sigdelset (sig : Z) (set : option Z) : Z * option Z :=
  match set with
  | None => (-1, None)
  | Some s =>
      if (sig <? 0) || (31 <? sig) then (-1, Some s)
      else (0, Some (Z.land s (u32 (Z.lnot (Z.shiftl 1 sig)))))
  end.

Definition sigismember (set : option Z) (sig : Z) : Z :=
  match set with
  | None => -1
  | Some s =>
      if (sig <? 0) || (31 <? sig) then -1
      else if Z.land s (u32 (Z.shiftl 1 sig)) =? 0 then 0 else 1
  end.

(** [sigaddset(&set, sig)] and [sigdelset(&set, sig)] on a set that is a field. *)
Definition add_signal (sig s : Z) : Z := default s (sigaddset sig (Some s)).2.
Definition del_signal (sig s : Z) : Z := default s (sigdelset sig (Some s)).2.

(** ** Actions *)

Definition SIGKILL : Z := 9.
Definition SIGSEGV : Z := 11.
Definition SIGCHLD : Z := 17.
Definition SIGCONT : Z := 18.
Definition SIGSTOP : Z := 19.
Definition SIGURG : Z := 23.
Definition SIGWINCH : Z := 28.

Definition SIG_DFL : Z := 0.
Definition SIG_IGN : Z := 1.

Definition SA_SIGINFO : Z := 1.
Definition SA_NODEFER : Z := 2.
Definition SA_RESETHAND : Z := 4.

(** [struct sigaction]; pointers and flags are 32-bit words. *)
Record sigaction := mk_sigaction {
  sa_handler : Z; sa_sigaction : Z; sa_mask : Z; sa_flags : Z; sa_restorer : Z }.

Inductive sig_default_action := SIG_ACTION_TERMINATE | SIG_ACTION_IGNORE.

Definition default_actions (sig : Z) : sig_default_action :=
  if bool_decide (sig ∈ [0; SIGCHLD; SIGCONT; SIGURG; SIGWINCH]) then SIG_ACTION_IGNORE
  else SIG_ACTION_TERMINATE.

(** ** Tasks *)

Record sigtask := mk_sigtask {
  sig_pending : Z;
  sig_blocked : Z;
  sig_handlers : Z -> sigaction;
  sframe : Z -> Z;      (** the words at [context.syscall_frame_ptr] *)
  umem : Z -> Z         (** the memory, by virtual address *) }.

Definition set_sig_pending x t := mk_sigtask x (sig_blocked t) (sig_handlers t) (sframe t) (umem t).
Definition set_sig_blocked x t := mk_sigtask (sig_pending t) x (sig_handlers t) (sframe t) (umem t).
Definition set_sig_handlers x t := mk_sigtask (sig_pending t) (sig_blocked t) x (sframe t) (umem t).
Definition set_sframe x t := mk_sigtask (sig_pending t) (sig_blocked t) (sig_handlers t) x (umem t).
Definition set_umem x t := mk_sigtask (sig_pending t) (sig_blocked t) (sig_handlers t) (sframe t) x.

Inductive ended (A : Type) := Exits (code : Z) (t : sigtask) | Returns (a : A).
Arguments Exits {A} code t.
Arguments Returns {A} a.

Definition FRAME_EAX : Z := 0.
Definition FRAME_ECX : Z := 1.
Definition FRAME_EDX : Z := 2.
Definition FRAME_EBX : Z := 3.
Definition FRAME_EBP : Z := 4.
Definition FRAME_ESI : Z := 5.
Definition FRAME_EDI : Z := 6.
Definition FRAME_EIP : Z := 7.
Definition FRAME_CS : Z := 8.
Definition FRAME_EFLAGS : Z := 9.
Definition FRAME_ESP : Z := 10.
Definition FRAME_SS : Z := 11.

(** ** Registering actions *)

Definition task_reset_sighandler (signum : Z) (t : option sigtask) : option sigtask :=
  match t with
  | None => None
  | Some t =>
      if (signum <? 0) || (31 <? signum) then Some t
      else
        let a := sig_handlers t signum in
        Some (set_sig_handlers (sig_handlers t).[signum <-
          mk_sigaction SIG_DFL (sa_sigaction a) (sa_mask a) 0 (sa_restorer a)] t)
  end.

(** A [struct sigaction] in the user memory: five words. *)
Definition load_action (m : Z -> Z) (a : Z) : sigaction :=
  mk_sigaction (load32 m a) (load32 m (a + 4)) (load32 m (a + 8)) (load32 m (a + 12)) (load32 m (a + 16)).
Definition store_action (m : Z -> Z) (a : Z) (x : sigaction) : Z -> Z :=
  store32 (store32 (store32 (store32 (store32 m a (sa_handler x)) (a + 4) (sa_sigaction x))
    (a + 8) (sa_mask x)) (a + 12) (sa_flags x)) (a + 16) (sa_restorer x).

(** [act] and [oldact] are user addresses, 0 for [NULL]. *)
Definition sys_sigact (sig act oldact : Z) (current : option sigtask) : Z * option sigtask :=
  if (sig <? 0) || (31 <? sig) then (- EINVAL, current) else
  if (sig =? SIGKILL) || (sig =? SIGSTOP) then (- EINVAL, current) else
  match current with
  | None => (- ENOTSUP, None)
  | Some t =>
      let t := if oldact =? 0 then t else set_umem (store_action (umem t) oldact (sig_handlers t sig)) t in
      let t := if act =? 0 then t else set_sig_handlers (sig_handlers t).[sig <- load_action (umem t) act] t in
      (0, Some t)
  end.

(** ** The signal frame

    [sigframe_t]: [pretcode], [sig], the saved context of 13 words, and the 8
    bytes of the trampoline. *)

Definition sizeof_sigframe : Z := 68.
Definition OFF_PRETCODE : Z := 0.
Definition OFF_SIG : Z := 4.
Definition OFF_CTX : Z := 8.
Definition OFF_OLD_SIG_BLOCKED : Z := 56.
Definition OFF_TRAMPOLINE : Z := 60.
Definition SYS_SIGRETURN : Z := 0x52.

(** Accesses through pointers that the user chose: addresses wrap at 2^32. *)
Definition uload32 (m : Z -> Z) (a : Z) : Z := load32 (fun i => m (u32 (a + i))) 0.
Definition ustore8 (m : Z -> Z) (a b : Z) : Z -> Z := m.[u32 a <- b].
Definition ustore32 (m : Z -> Z) (a w : Z) : Z -> Z :=
  ustore8 (ustore8 (ustore8 (ustore8 m a (u8 w)) (a + 1) (u8 (w / 2 ^ 8)))
    (a + 2) (u8 (w / 2 ^ 16))) (a + 3) (u8 (w / 2 ^ 24)).

(** The fields of [sigcontext_t] are in the order of the words of the system
    call frame: [eax], [ecx], ..., [esp], [ss]. *)
Definition off_ctx (reg : Z) : Z := OFF_CTX + 4 * reg.

Definition write_trampoline (a : Z) (m : Z -> Z) : Z -> Z :=
  let m := ustore8 m a 0xb8 in
  let m := ustore8 m (a + 1) SYS_SIGRETURN in
  let m := ustore8 m (a + 2) 0 in
  let m := ustore8 m (a + 3) 0 in
  let m := ustore8 m (a + 4) 0 in
  let m := ustore8 m (a + 5) 0xcd in
  let m := ustore8 m (a + 6) 0x80 in
  ustore8 m (a + 7) 0x90.

Definition write_context (sf : Z) (frame : Z -> Z) (m : Z -> Z) : Z -> Z :=
  let save reg m := ustore32 m (sf + off_ctx reg) (frame reg) in
  let m := save FRAME_EAX m in
  let m := save FRAME_ECX m in
  let m := save FRAME_EDX m in
  let m := save FRAME_EBX m in
  let m := save FRAME_EBP m in
  let m := save FRAME_ESI m in
  let m := save FRAME_EDI m in
  let m := save FRAME_EIP m in
  let m := save FRAME_CS m in
  let m := save FRAME_EFLAGS m in
  let m := save FRAME_ESP m in
  save FRAME_SS m.

Definition write_sigframe (sf sig blocked : Z) (frame : Z -> Z) (m : Z -> Z) : Z -> Z :=
  let m := write_trampoline (sf + OFF_TRAMPOLINE) m in
  let m := ustore32 m (sf + OFF_PRETCODE) (u32 (sf + OFF_TRAMPOLINE)) in
  let m := ustore32 m (sf + OFF_SIG) sig in
  let m := write_context sf frame m in
  ustore32 m (sf + OFF_OLD_SIG_BLOCKED) blocked.

(** The check of the address of a frame; the sum is a 32-bit one. *)
Definition bad_frame (sf : Z) : bool :=
  (sf <? VMM_USER_START) || (VMM_USER_END <? u32 (sf + sizeof_sigframe)).

(** ** Delivery *)

Definition ctz (x : Z) : Z := default 32 (find_from 32 0 (Z.testbit x)).

(** [sa] points into the task's table of actions: it is read again after
    [task_reset_sighandler] has changed the table. *)
Definition deliver (sig : Z) (t : sigtask) : ended (option sigtask) :=
  let user_esp := sframe t FRAME_ESP in
  let new_user_esp := Z.land (u32 (user_esp - sizeof_sigframe)) (u32 (Z.lnot 0xF)) in
  if bad_frame new_user_esp then Exits (- SIGSEGV) t else
  let t := set_umem (write_sigframe new_user_esp sig (sig_blocked t) (sframe t) (umem t)) t in
  let t := if Z.land (sa_flags (sig_handlers t sig)) SA_NODEFER =? 0
           then set_sig_blocked (add_signal sig (sig_blocked t)) t else t in
  let t := set_sig_blocked (Z.lor (sig_blocked t) (sa_mask (sig_handlers t sig))) t in
  let t := if Z.land (sa_flags (sig_handlers t sig)) SA_RESETHAND =? 0 then t
           else default t (task_reset_sighandler sig (Some t)) in
  Returns (Some (set_sframe
    (sframe t).[FRAME_EIP <- sa_handler (sig_handlers t sig)].[FRAME_ESP <- new_user_esp] t)).

Definition deliverable (t : sigtask) : Z := Z.land (sig_pending t) (u32 (Z.lnot (sig_blocked t))).

Definition task_signal_dispatch_pending (current : option sigtask) : ended (option sigtask) :=
  match current with
  | None => Returns None
  | Some t =>
      if deliverable t =? 0 then Returns (Some t) else
      let sig := ctz (deliverable t) in
      let t := set_sig_pending (del_signal sig (sig_pending t)) t in
      let sa := sig_handlers t sig in
      if sa_handler sa =? SIG_IGN then Returns (Some t) else
      if sa_handler sa =? SIG_DFL then
        match default_actions sig with
        | SIG_ACTION_TERMINATE => Exits (- sig) t
        | SIG_ACTION_IGNORE => Returns (Some t)
        end
      else deliver sig t
  end.

(** ** Return from a handler *)

Definition restore_context (sf : Z) (m : Z -> Z) (frame : Z -> Z) : Z -> Z :=
  let load reg frame := frame.[reg <- uload32 m (sf + off_ctx reg)] in
  let frame := load FRAME_ECX frame in
  let frame := load FRAME_EDX frame in
  let frame := load FRAME_EBX frame in
  let frame := load FRAME_EBP frame in
  let frame := load FRAME_ESI frame in
  let frame := load FRAME_EDI frame in
  let frame := load FRAME_EIP frame in
  let frame := load FRAME_EFLAGS frame in
  load FRAME_ESP frame.

Definition task_sigreturn (task : option sigtask) : ended (Z * option sigtask) :=
  match task with
  | None => Returns (- ENOTSUP, None)
  | Some t =>
      let sf := u32 (sframe t FRAME_ESP - 4) in
      if bad_frame sf then Exits (- SIGSEGV) t else
      let eax := uload32 (umem t) (sf + off_ctx FRAME_EAX) in
      let blocked := uload32 (umem t) (sf + OFF_OLD_SIG_BLOCKED) in
      let t := set_sframe (restore_context sf (umem t) (sframe t)) t in
      Returns (i32 eax, Some (set_sig_blocked blocked t))
  end.

Definition sys_sigreturn (current : option sigtask) : ended (Z * option sigtask) :=
  match current with
  | None => Returns (- ENOTSUP, None)
  | Some t => task_sigreturn (Some t)
  end.

(** The end of [syscall_stub]: the result of the system call goes to the slot of
    EAX, then pending signals are delivered. *)
Definition syscall_return (result : Z) (current : option sigtask) : ended (option sigtask) :=
  task_signal_dispatch_pending
    (option_map (fun t => set_sframe (sframe t).[FRAME_EAX <- u32 result] t) current).
