(* ===== verification/SignalsSpec.v ===== *)
(** Theorems on signals: the sets are sets, tasks stay well typed, what the
    delivery of a signal does on each branch, and that a handler which returns
    through the trampoline resumes the interrupted code. *)

From S2P Require Import Prelude Errno Paging CMem Signals.
From Stdlib Require Import ZArith Lia Bool.
From stdpp Require Import base tactics numbers list.
Open Scope Z_scope.

(** ** Signal sets *)

(** [sig] is a member of the set [s]. *)
Definition member (sig s : Z) : Prop := 0 <= sig < 32 /\ Z.testbit s sig = true.

#[export] Instance member_dec sig s : Decision (member sig s).
Proof. unfold member. apply _. Defined.

Lemma u32_testbit x i : 0 <= i < 32 -> Z.testbit (u32 x) i = Z.testbit x i.
Proof. intros H. unfold u32. by rewrite Z.mod_pow2_bits_low by lia. Qed.

Lemma bit_testbit sig i : 0 <= sig -> Z.testbit (Z.shiftl 1 sig) i = bool_decide (i = sig).
Proof.
  intros H. rewrite Z.shiftl_1_l, Z.pow2_bits_eqb by lia.
  destruct (Z.eqb_spec sig i); [by rewrite bool_decide_true by lia | by rewrite bool_decide_false by lia].
Qed.

Lemma add_signal_member sig s k :
  0 <= sig < 32 -> member k (add_signal sig s) <-> k = sig \/ member k s.
Proof.
  intros H. unfold add_signal, sigaddset. rewrite (proj2 (Z.ltb_ge sig 0)), (proj2 (Z.ltb_ge 31 sig)) by lia.
  cbn [orb snd default]. unfold member. destruct (decide (0 <= k < 32)); [|intuition lia].
  cbn. rewrite Z.lor_spec, u32_testbit, bit_testbit, orb_true_iff, bool_decide_eq_true by lia. intuition lia.
Qed.

Lemma del_signal_member sig s k :
  0 <= sig < 32 -> member k (del_signal sig s) <-> k <> sig /\ member k s.
Proof.
  intros H. unfold del_signal, sigdelset. rewrite (proj2 (Z.ltb_ge sig 0)), (proj2 (Z.ltb_ge 31 sig)) by lia.
  unfold member. destruct (decide (0 <= k < 32)); [|intuition lia].
  cbn. rewrite Z.land_spec, u32_testbit, Z.lnot_spec, bit_testbit, andb_true_iff, negb_true_iff, bool_decide_eq_false by lia.
  intuition lia.
Qed.

Lemma land_bit_zero s sig : 0 <= sig < 32 -> (Z.land s (u32 (Z.shiftl 1 sig)) =? 0) = negb (Z.testbit s sig).
Proof.
  intros H. assert (u32 (Z.shiftl 1 sig) = Z.shiftl 1 sig) as ->.
  { apply u32_small. rewrite Z.shiftl_1_l. split; [lia|]. apply (Z.pow_lt_mono_r 2 sig 32); lia. }
  destruct (Z.testbit s sig) eqn:E; cbn.
  - apply Z.eqb_neq. intros Hz. assert (Z.testbit (Z.land s (Z.shiftl 1 sig)) sig = true) as Ht.
    { by rewrite Z.land_spec, E, bit_testbit, bool_decide_true by lia. }
    rewrite Hz, Z.bits_0 in Ht. done.
  - apply Z.eqb_eq. apply Z.bits_inj_0. intros n. rewrite Z.land_spec, bit_testbit by lia.
    destruct (decide (n = sig)) as [->|]; [by rewrite E | by rewrite bool_decide_false, andb_false_r by lia].
Qed.

Lemma land_u32 x y : is_u32 x -> is_u32 (Z.land x y).
Proof.
  intros H. assert (Z.land x y = u32 (Z.land x y)) as ->; [|apply u32_range].
  unfold u32. rewrite <- Z.land_ones by lia. apply Z.bits_inj'. intros n Hn.
  rewrite !Z.land_spec, Z.testbit_ones_nonneg by lia. destruct (Z.ltb_spec n 32); [by rewrite andb_true_r|].
  rewrite (Z.bits_above_log2 x); [done|unfold is_u32 in H; lia|].
  destruct (decide (x = 0)) as [->|]; [cbn; lia|]. apply Z.log2_lt_pow2; [unfold is_u32 in H; lia|].
  unfold is_u32 in H. pose proof (Z.pow_le_mono_r 2 32 n). lia.
Qed.

Lemma lor_u32 x y : is_u32 x -> is_u32 y -> is_u32 (Z.lor x y).
Proof.
  unfold is_u32. intros Hx Hy. split; [apply Z.lor_nonneg; lia|].
  destruct (decide (Z.lor x y = 0)) as [->|]; [lia|]. apply Z.log2_lt_pow2; [pose proof (Z.lor_nonneg x y); lia|].
  rewrite Z.log2_lor by lia. apply Z.max_lub_lt.
  - destruct (decide (x = 0)) as [->|]; [cbn; lia|]. apply Z.log2_lt_pow2; lia.
  - destruct (decide (y = 0)) as [->|]; [cbn; lia|]. apply Z.log2_lt_pow2; lia.
Qed.

Lemma add_signal_u32 sig s : is_u32 s -> is_u32 (add_signal sig s).
Proof.
  intros H. unfold add_signal, sigaddset. destruct (_ || _); [done|]. apply lor_u32; [done|apply u32_range].
Qed.

Lemma del_signal_u32 sig s : is_u32 s -> is_u32 (del_signal sig s).
Proof. intros H. unfold del_signal, sigdelset. destruct (_ || _); [done|]. by apply land_u32. Qed.

Lemma member_lor k x y : member k (Z.lor x y) <-> member k x \/ member k y.
Proof. unfold member. rewrite Z.lor_spec, orb_true_iff. intuition. Qed.

(** A 32-bit set is determined by its members. *)
Lemma set_ext x y : is_u32 x -> is_u32 y -> (forall k, member k x <-> member k y) -> x = y.
Proof.
  intros Hx Hy E. rewrite <- (u32_small x), <- (u32_small y) by (unfold is_u32 in *; lia).
  unfold u32. rewrite <- !Z.land_ones by lia. apply Z.bits_inj'. intros n Hn.
  rewrite !Z.land_spec, Z.testbit_ones_nonneg by lia.
  destruct (Z.ltb_spec n 32); [|by rewrite !andb_false_r]. rewrite !andb_true_r.
  specialize (E n). unfold member in E. destruct (Z.testbit x n), (Z.testbit y n); intuition.
Qed.

(** ** Well-typed tasks *)

Record typed_action (a : sigaction) : Prop := {
  ta_handler : is_u32 (sa_handler a); ta_sigaction : is_u32 (sa_sigaction a);
  ta_mask : is_u32 (sa_mask a); ta_flags : is_u32 (sa_flags a); ta_restorer : is_u32 (sa_restorer a) }.

(** Every field has its width, and SIGKILL and SIGSTOP have no handler. *)
Record typed (t : sigtask) : Prop := {
  ty_pending : is_u32 (sig_pending t);
  ty_blocked : is_u32 (sig_blocked t);
  ty_actions : forall sig, typed_action (sig_handlers t sig);
  ty_frame : forall i, is_u32 (sframe t i);
  ty_mem : bytes (umem t);
  ty_kill : sa_handler (sig_handlers t SIGKILL) = SIG_DFL;
  ty_stop : sa_handler (sig_handlers t SIGSTOP) = SIG_DFL }.

Ltac typed_fields :=
  split; cbn [sig_pending sig_blocked sig_handlers sframe umem
    set_sig_pending set_sig_blocked set_sig_handlers set_sframe set_umem]; auto.

Lemma typed_pending t x : typed t -> is_u32 x -> typed (set_sig_pending x t).
Proof. intros [] ?. by typed_fields. Qed.

Lemma typed_blocked t x : typed t -> is_u32 x -> typed (set_sig_blocked x t).
Proof. intros [] ?. by typed_fields. Qed.

Lemma typed_sframe t f : typed t -> (forall i, is_u32 (f i)) -> typed (set_sframe f t).
Proof. intros [] ?. by typed_fields. Qed.

Lemma typed_umem t m : typed t -> bytes m -> typed (set_umem m t).
Proof. intros [] ?. by typed_fields. Qed.

Lemma typed_action_set t sig a :
  typed t -> typed_action a -> (sig = SIGKILL \/ sig = SIGSTOP -> sa_handler a = SIG_DFL) ->
  typed (set_sig_handlers (sig_handlers t).[sig <- a] t).
Proof.
  intros [] Ha Hd. typed_fields; intros *; rewrite upd_cases; case_decide; subst; auto.
Qed.

Lemma is_u32_0 : is_u32 0.
Proof. unfold is_u32. lia. Qed.

Lemma typed_reset t sig : typed t -> typed (default t (task_reset_sighandler sig (Some t))).
Proof.
  intros H. cbn. destruct (_ || _); [done|]. cbn. destruct (ty_actions t H sig).
  apply typed_action_set; [done| |done]. split; cbn; auto using is_u32_0.
Qed.

Lemma load_action_typed m a : bytes m -> typed_action (load_action m a).
Proof. intros H. split; by apply load32_u32. Qed.

Lemma store_action_bytes m a x : bytes m -> bytes (store_action m a x).
Proof. intros H. by repeat apply store32_bytes. Qed.

Lemma upd_u32 f i v : (forall j, is_u32 (f j)) -> is_u32 v -> forall j, is_u32 (f.[i <- v] j).
Proof. intros Hf Hv j. rewrite upd_cases. by case_decide. Qed.

Lemma ustore8_bytes m i v : bytes m -> 0 <= v < 256 -> bytes (ustore8 m i v).
Proof. intros Hm Hv j. unfold ustore8. rewrite upd_cases. by case_decide. Qed.

Lemma ustore32_bytes m a w : bytes m -> bytes (ustore32 m a w).
Proof. intros Hm. unfold ustore32. by repeat (apply ustore8_bytes; [|apply u8_range]). Qed.

Lemma uload32_u32 m a : bytes m -> is_u32 (uload32 m a).
Proof. intros Hm. apply load32_u32. intros i. apply Hm. Qed.

Lemma write_sigframe_bytes sf sig blocked f m : bytes m -> bytes (write_sigframe sf sig blocked f m).
Proof.
  intros H. unfold write_sigframe, write_context. repeat apply ustore32_bytes.
  unfold write_trampoline, SYS_SIGRETURN. by repeat (apply ustore8_bytes; [|lia]).
Qed.

Lemma restore_context_u32 sf m f :
  bytes m -> (forall i, is_u32 (f i)) -> forall i, is_u32 (restore_context sf m f i).
Proof.
  intros Hm Hf. unfold restore_context. by repeat (apply upd_u32; [|by apply uload32_u32]).
Qed.

(** The task that a function leaves, if it returns. *)
Definition left_typed (r : ended (option sigtask)) : Prop :=
  match r with Exits _ t => typed t | Returns r => match r with Some t => typed t | None => False end end.

Lemma deliver_typed sig t : typed t -> left_typed (deliver sig t).
Proof.
  intros H. unfold deliver. destruct (bad_frame _); [done|]. cbv zeta.
  set (t1 := set_umem _ t).
  assert (typed t1) as H1. { apply typed_umem; [done|]. apply write_sigframe_bytes. apply H. }
  generalize dependent t1. intros t1 H1.
  set (t2 := if _ =? 0 then set_sig_blocked _ t1 else t1).
  assert (typed t2) as H2.
  { unfold t2. destruct (_ =? 0); [|done]. apply typed_blocked; [done|]. apply add_signal_u32, H1. }
  generalize dependent t2. intros t2 H2.
  set (t3 := set_sig_blocked _ t2).
  assert (typed t3) as H3.
  { apply typed_blocked; [done|]. apply lor_u32; [apply H2|apply ty_actions, H2]. }
  generalize dependent t3. intros t3 H3.
  set (t4 := if _ =? 0 then t3 else _).
  assert (typed t4) as H4. { unfold t4. destruct (_ =? 0); [done|]. by apply typed_reset. }
  generalize dependent t4. intros t4 H4. cbn. apply typed_sframe; [done|].
  apply upd_u32; [apply upd_u32|]; [apply H4|apply ty_actions, H4|]. apply land_u32, u32_range.
Qed.

Lemma dispatch_typed t : typed t -> left_typed (task_signal_dispatch_pending (Some t)).
Proof.
  intros H. cbn. destruct (_ =? 0); [done|].
  set (t1 := set_sig_pending _ t).
  assert (typed t1) as H1. { apply typed_pending; [done|]. apply del_signal_u32, H. }
  clearbody t1. destruct (_ =? SIG_IGN); [done|]. destruct (_ =? SIG_DFL); [by destruct (default_actions _)|].
  by apply deliver_typed.
Qed.

Lemma sigreturn_typed t :
  typed t ->
  match task_sigreturn (Some t) with
  | Exits _ t' => typed t'
  | Returns (eax, t') => is_i32 eax /\ match t' with Some t' => typed t' | None => False end
  end.
Proof.
  intros H. cbn. destruct (bad_frame _); [done|]. split; [apply i32_range|].
  apply typed_blocked; [apply typed_sframe; [done|]|].
  - apply restore_context_u32; apply H.
  - apply uload32_u32, H.
Qed.

Lemma sigact_typed sig act oldact t r t' :
  typed t -> sys_sigact sig act oldact (Some t) = (r, t') -> match t' with Some t' => typed t' | None => False end.
Proof.
  intros H. unfold sys_sigact. destruct (_ || _); [by intros [= <- <-]|].
  destruct (_ || _) eqn:Hs; [by intros [= <- <-]|]. intros [= <- <-].
  set (t1 := if oldact =? 0 then t else _).
  assert (typed t1) as H1.
  { unfold t1. destruct (_ =? 0); [done|]. apply typed_umem; [done|]. apply store_action_bytes, H. }
  clearbody t1. destruct (_ =? 0); [done|]. apply typed_action_set; [done| |].
  - apply load_action_typed, H1.
  - intros []; subst; done.
Qed.

(** ** The signal frame *)

Lemma uload_load m a : 0 <= a -> a + 4 <= 2 ^ 32 -> uload32 m a = load32 m a.
Proof.
  intros H1 H2. unfold uload32, load32. rewrite Z.add_0_r, !Z.add_0_l.
  by rewrite (u32_small a), (u32_small (a + 1)), (u32_small (a + 2)), (u32_small (a + 3)) by lia.
Qed.

Lemma ustore_store m a w : 0 <= a -> a + 4 <= 2 ^ 32 -> ustore32 m a w = store32 m a w.
Proof.
  intros H1 H2. unfold ustore32, ustore8, store32.
  by rewrite (u32_small a), (u32_small (a + 1)), (u32_small (a + 2)), (u32_small (a + 3)) by lia.
Qed.

Section Frame.
Context (sf sig blocked : Z) (f m : Z -> Z).
Hypotheses (Hlo : 0 <= sf) (Hhi : sf + OFF_TRAMPOLINE <= 2 ^ 32) (Hend : sf + sizeof_sigframe <= 2 ^ 32).

Ltac off_simpl :=
  unfold off_ctx, OFF_CTX, OFF_PRETCODE, OFF_SIG, OFF_OLD_SIG_BLOCKED, OFF_TRAMPOLINE, sizeof_sigframe,
    FRAME_EAX, FRAME_ECX, FRAME_EDX, FRAME_EBX, FRAME_EBP, FRAME_ESI, FRAME_EDI, FRAME_EIP, FRAME_CS,
    FRAME_EFLAGS, FRAME_ESP, FRAME_SS in *.

Ltac frame_words :=
  unfold write_sigframe, write_context; off_simpl; rewrite ?ustore_store by lia;
  repeat (rewrite load32_store32 || rewrite load32_store32_ne by lia).

Lemma frame_context reg : 0 <= reg < 12 -> load32 (write_sigframe sf sig blocked f m) (sf + off_ctx reg) = u32 (f reg).
Proof using Hlo Hhi.
  intros H. assert (reg ∈ seqZ 0 12) as Hr by (apply elem_of_seqZ; lia). cbn in Hr.
  repeat (apply elem_of_cons in Hr as [->|Hr]; [frame_words; done|]). by apply not_elem_of_nil in Hr.
Qed.

Lemma frame_blocked : load32 (write_sigframe sf sig blocked f m) (sf + OFF_OLD_SIG_BLOCKED) = u32 blocked.
Proof using Hlo Hhi. frame_words. done. Qed.

Lemma frame_pretcode : load32 (write_sigframe sf sig blocked f m) (sf + OFF_PRETCODE) = u32 (sf + OFF_TRAMPOLINE).
Proof using Hlo Hhi. frame_words. apply u32_small, u32_range. Qed.

Lemma frame_sig : load32 (write_sigframe sf sig blocked f m) (sf + OFF_SIG) = u32 sig.
Proof using Hlo Hhi. frame_words. done. Qed.

(** [mov eax, SYS_SIGRETURN; int 0x80; nop] *)
Definition trampoline : list Z := [0xb8; SYS_SIGRETURN; 0; 0; 0; 0xcd; 0x80; 0x90].

Lemma frame_trampoline i b :
  trampoline !! i = Some b -> write_sigframe sf sig blocked f m (sf + OFF_TRAMPOLINE + Z.of_nat i) = b.
Proof using Hlo Hhi Hend.
  intros H. assert (Z.of_nat i < 8) by (apply lookup_lt_Some in H; cbn in H; lia).
  unfold write_sigframe, write_context. off_simpl. rewrite !ustore_store by lia. rewrite !store32_frame by lia.
  unfold write_trampoline, ustore8. rewrite !u32_small by lia.
  do 8 (destruct i as [|i]; [cbn in H; injection H as <-;
    repeat (rewrite upd_cases; case_decide; [first [done | lia]|]); lia|]). done.
Qed.

Lemma frame_other x : x < sf \/ sf + sizeof_sigframe <= x -> write_sigframe sf sig blocked f m x = m x.
Proof using Hlo Hhi Hend.
  intros H. unfold write_sigframe, write_context. off_simpl. rewrite !ustore_store by lia. rewrite !store32_frame by lia.
  unfold write_trampoline, ustore8. rewrite !u32_small by lia. by rewrite !upd_ne by lia.
Qed.
End Frame.

(** ** The next signal *)

(** [sig] is the lowest signal that is pending and not blocked. *)
Definition next_signal (t : sigtask) (sig : Z) : Prop :=
  member sig (sig_pending t) /\ ~ member sig (sig_blocked t) /\
  (forall k, k < sig -> member k (sig_pending t) -> member k (sig_blocked t)).

Lemma deliverable_bit t k :
  0 <= k < 32 ->
  Z.testbit (deliverable t) k = Z.testbit (sig_pending t) k && negb (Z.testbit (sig_blocked t) k).
Proof. intros H. unfold deliverable. by rewrite Z.land_spec, u32_testbit, Z.lnot_spec by lia. Qed.

Lemma next_signal_ctz t sig : next_signal t sig -> (deliverable t =? 0) = false /\ ctz (deliverable t) = sig.
Proof.
  intros ([Hr Hp] & Hb & Hl). unfold member in Hb.
  assert (Z.testbit (deliverable t) sig = true) as Hd.
  { rewrite deliverable_bit, Hp by done. destruct (Z.testbit (sig_blocked t) sig); [tauto|done]. }
  split.
  - apply Z.eqb_neq. intros E. rewrite E, Z.bits_0 in Hd. done.
  - unfold ctz. assert (find_from 32 0 (Z.testbit (deliverable t)) = Some sig) as ->; [|done].
    apply find_from_Some. repeat split; [lia|lia|done|]. intros k Hk. rewrite deliverable_bit by lia.
    destruct (Z.testbit (sig_pending t) k) eqn:E; [|done].
    destruct (Hl k) as [_ ->]; [lia|split; [lia|done]|done].
Qed.

Lemma no_signal t : typed t -> (forall k, member k (sig_pending t) -> member k (sig_blocked t)) -> deliverable t = 0.
Proof.
  intros T H. apply set_ext; [apply land_u32, T|apply is_u32_0|]. intros k. unfold member. rewrite Z.bits_0.
  split; [|by intros []]. intros [Hr Hk]. rewrite deliverable_bit in Hk by done.
  destruct (Z.testbit (sig_pending t) k) eqn:E; [|done]. destruct (H k) as [_ Hb]; [done|]. by rewrite Hb in Hk.
Qed.

(** ** Delivery *)

(** Where the frame goes: below the stack pointer, at a multiple of 16. *)
Definition handler_sp (t : sigtask) : Z := 16 * (u32 (sframe t FRAME_ESP - sizeof_sigframe) / 16).

(** The frame lies in the user part of the address space. *)
Definition stack_ok (t : sigtask) : Prop :=
  VMM_USER_START <= handler_sp t /\ handler_sp t + sizeof_sigframe <= VMM_USER_END.

Lemma bad_frame_false sf : VMM_USER_START <= sf -> sf + sizeof_sigframe <= VMM_USER_END -> bad_frame sf = false.
Proof.
  intros H1 H2. unfold bad_frame. unfold VMM_USER_START, VMM_USER_END, sizeof_sigframe in *.
  rewrite u32_small by lia. apply orb_false_iff. split; apply Z.ltb_ge; lia.
Qed.

Definition user_handler (a : sigaction) : Prop := sa_handler a <> SIG_DFL /\ sa_handler a <> SIG_IGN.
Definition nodefer (a : sigaction) : bool := negb (Z.land (sa_flags a) SA_NODEFER =? 0).
Definition resethand (a : sigaction) : bool := negb (Z.land (sa_flags a) SA_RESETHAND =? 0).

(** The task [t'] is about to run the handler of [sig] in the task [t]. *)
Record entered (sig : Z) (t t' : sigtask) : Prop := {
  en_eip : sframe t' FRAME_EIP = if resethand (sig_handlers t sig) then SIG_DFL else sa_handler (sig_handlers t sig);
  en_esp : sframe t' FRAME_ESP = handler_sp t;
  en_regs : forall r, r <> FRAME_EIP -> r <> FRAME_ESP -> sframe t' r = sframe t r;
  en_return : load32 (umem t') (handler_sp t) = handler_sp t + OFF_TRAMPOLINE;
  en_arg : load32 (umem t') (handler_sp t + OFF_SIG) = sig;
  en_code : forall i b, trampoline !! i = Some b -> umem t' (handler_sp t + OFF_TRAMPOLINE + Z.of_nat i) = b;
  en_saved : forall r, 0 <= r < 12 -> load32 (umem t') (handler_sp t + off_ctx r) = sframe t r;
  en_saved_blocked : load32 (umem t') (handler_sp t + OFF_OLD_SIG_BLOCKED) = sig_blocked t;
  en_mem : forall x, x < handler_sp t \/ handler_sp t + sizeof_sigframe <= x -> umem t' x = umem t x;
  en_pending : forall k, member k (sig_pending t') <-> k <> sig /\ member k (sig_pending t);
  en_blocked : forall k, member k (sig_blocked t') <->
    member k (sig_blocked t) \/ member k (sa_mask (sig_handlers t sig)) \/
    (k = sig /\ nodefer (sig_handlers t sig) = false);
  en_actions : forall k, k <> sig -> sig_handlers t' k = sig_handlers t k;
  en_action : sa_handler (sig_handlers t' sig) =
    if resethand (sig_handlers t sig) then SIG_DFL else sa_handler (sig_handlers t sig) }.

Lemma deliver_fields sig t :
  0 <= sig < 32 -> bad_frame (handler_sp t) = false ->
  exists t', deliver sig t = Returns (Some t') /\
    umem t' = write_sigframe (handler_sp t) sig (sig_blocked t) (sframe t) (umem t) /\
    sig_pending t' = sig_pending t /\
    sig_blocked t' = Z.lor (if nodefer (sig_handlers t sig) then sig_blocked t else add_signal sig (sig_blocked t))
      (sa_mask (sig_handlers t sig)) /\
    (forall k, k <> sig -> sig_handlers t' k = sig_handlers t k) /\
    sa_handler (sig_handlers t' sig) =
      (if resethand (sig_handlers t sig) then SIG_DFL else sa_handler (sig_handlers t sig)) /\
    sframe t' = (sframe t).[FRAME_EIP <- sa_handler (sig_handlers t' sig)].[FRAME_ESP <- handler_sp t].
Proof.
  intros Hs Hb. unfold deliver. rewrite (land_mask 4) by (lia || apply u32_range). change (2 ^ 4) with 16. fold (handler_sp t).
  rewrite Hb. cbv zeta. unfold nodefer, resethand.
  cbn [sig_handlers set_umem]. destruct (Z.land (sa_flags (sig_handlers t sig)) SA_NODEFER =? 0) eqn:E1;
    cbn [sig_handlers set_umem set_sig_blocked negb];
    destruct (Z.land (sa_flags (sig_handlers t sig)) SA_RESETHAND =? 0) eqn:E2; cbn [negb].
  all: try (eexists; split; [reflexivity|]; by repeat split).
  all: unfold task_reset_sighandler; rewrite (proj2 (Z.ltb_ge sig 0)), (proj2 (Z.ltb_ge 31 sig)) by lia; cbn [orb default].
  all: eexists; split; [reflexivity|]; repeat split; cbn.
  all: first [by intros; rewrite upd_ne | by rewrite upd_eq].
Qed.

Lemma dispatch_deliver sig t :
  next_signal t sig -> user_handler (sig_handlers t sig) ->
  task_signal_dispatch_pending (Some t) = deliver sig (set_sig_pending (del_signal sig (sig_pending t)) t).
Proof.
  intros N [Hd Hi]. destruct (next_signal_ctz t sig N) as [Hz Hc].
  unfold task_signal_dispatch_pending. rewrite Hz, Hc. cbv zeta. cbn [sig_handlers set_sig_pending].
  by rewrite (proj2 (Z.eqb_neq _ _) Hd), (proj2 (Z.eqb_neq _ _) Hi).
Qed.

Lemma handler_entered sig t :
  typed t -> next_signal t sig -> user_handler (sig_handlers t sig) -> stack_ok t ->
  exists t', task_signal_dispatch_pending (Some t) = Returns (Some t') /\ entered sig t t'.
Proof.
  intros T N Hh Ho. rewrite (dispatch_deliver sig) by done. destruct N as ([Hr _] & _).
  set (t1 := set_sig_pending _ t).
  destruct (deliver_fields sig t1) as (t' & -> & Em & Ep & Eb & Ea & Eh & Ef);
    [done|apply (bad_frame_false (handler_sp t)); apply Ho|].
  change (handler_sp t1) with (handler_sp t) in *. change (sig_handlers t1) with (sig_handlers t) in *.
  change (sframe t1) with (sframe t) in *. change (umem t1) with (umem t) in *.
  change (sig_blocked t1) with (sig_blocked t) in *.
  change (sig_pending t1) with (del_signal sig (sig_pending t)) in *. clearbody t1.
  exists t'. split; [done|]. destruct Ho as [Hlo Hhi].
  assert (0 <= handler_sp t) as H0 by (unfold VMM_USER_START in Hlo; lia).
  assert (handler_sp t + sizeof_sigframe <= 2 ^ 32) as H1 by (unfold VMM_USER_END in Hhi; lia).
  assert (handler_sp t + OFF_TRAMPOLINE <= 2 ^ 32) as H2 by (unfold OFF_TRAMPOLINE, sizeof_sigframe in *; lia).
  split; rewrite ?Ef, ?Em, ?Ep, ?Eb.
  - by rewrite upd_ne, upd_eq.
  - by rewrite upd_eq.
  - intros r ? ?. by rewrite !upd_ne.
  - rewrite <- (Z.add_0_r (handler_sp t)) at 2. rewrite frame_pretcode by done.
    apply u32_small. unfold OFF_TRAMPOLINE, sizeof_sigframe in *. lia.
  - rewrite frame_sig by done. apply u32_small. lia.
  - by apply frame_trampoline.
  - intros r ?. rewrite frame_context by done. apply u32_small, T.
  - rewrite frame_blocked by done. apply u32_small, T.
  - by apply frame_other.
  - intros k. by apply del_signal_member.
  - intros k. rewrite member_lor. destruct (nodefer _); [intuition done|]. rewrite add_signal_member by done. intuition.
  - done.
  - done.
Qed.

(** C7: what [task_signal_dispatch_pending] does.  With every pending signal
    blocked nothing changes.  Otherwise the lowest signal [sig] that is pending
    and not blocked is taken out of the pending ones, and it depends on its
    action alone what happens: an ignored signal has no further effect; a signal
    with the default action ends the task with the code [-sig], unless its
    default is to be ignored; and a signal with a handler enters it, with the
    signal number as argument and the trampoline as return address, the old
    registers and the old mask saved on the user stack, and the signal and
    [sa_mask] blocked ([SA_RESETHAND] makes the entry point address 0).  SIGKILL
    and SIGSTOP never enter a handler. *)
Theorem signal_dispatch_correct t :
  typed t ->
  ((forall k, member k (sig_pending t) -> member k (sig_blocked t)) ->
   task_signal_dispatch_pending (Some t) = Returns (Some t)) /\
  (forall sig, next_signal t sig ->
   let a := sig_handlers t sig in
   let t1 := set_sig_pending (del_signal sig (sig_pending t)) t in
   (forall k, member k (sig_pending t1) <-> k <> sig /\ member k (sig_pending t)) /\
   (sa_handler a = SIG_IGN -> task_signal_dispatch_pending (Some t) = Returns (Some t1)) /\
   (sa_handler a = SIG_DFL -> task_signal_dispatch_pending (Some t) =
      if bool_decide (sig ∈ [0; SIGCHLD; SIGCONT; SIGURG; SIGWINCH]) then Returns (Some t1) else Exits (- sig) t1) /\
   (user_handler a -> stack_ok t -> exists t',
      task_signal_dispatch_pending (Some t) = Returns (Some t') /\ entered sig t t') /\
   (sig = SIGKILL \/ sig = SIGSTOP -> task_signal_dispatch_pending (Some t) = Exits (- sig) t1)).
Proof.
  intros T. split.
  { intros H. unfold task_signal_dispatch_pending. by rewrite no_signal. }
  intros sig N. cbv zeta. destruct (next_signal_ctz t sig N) as [Hz Hc].
  split; [intros k; exact (del_signal_member _ _ k (proj1 (proj1 N)))|].
  assert (sa_handler (sig_handlers t sig) = SIG_DFL -> task_signal_dispatch_pending (Some t) =
      let t1 := set_sig_pending (del_signal sig (sig_pending t)) t in
      if bool_decide (sig ∈ [0; SIGCHLD; SIGCONT; SIGURG; SIGWINCH]) then Returns (Some t1) else Exits (- sig) t1) as D.
  { intros E. unfold task_signal_dispatch_pending. rewrite Hz, Hc. cbv zeta. cbn [sig_handlers set_sig_pending].
    rewrite E. cbn [SIG_DFL SIG_IGN Z.eqb]. unfold default_actions. by destruct (bool_decide _). }
  split; [|split; [|split]].
  - intros E. unfold task_signal_dispatch_pending. rewrite Hz, Hc. cbv zeta. cbn [sig_handlers set_sig_pending].
    by rewrite E.
  - exact D.
  - by apply handler_entered.
  - intros [->| ->]; (rewrite D; [done|apply T]).
Qed.

(** ** Runs of a task *)

Definition new_sigtask (f m : Z -> Z) : sigtask :=
  mk_sigtask 0 0 (fun _ => mk_sigaction SIG_DFL 0 0 0 0) (fun i => u32 (f i)) (fun a => u8 (m a)).

(** User code changes registers and memory and enters the kernel; signals are
    sent; the system calls end with the delivery of a pending signal. *)
Inductive sig_op :=
| User (f m : Z -> Z)
| Send (sig : Z)
| Sigact (sig act oldact : Z)
| Sigreturn
| Other_syscall (result : Z).

Definition sig_exec (op : sig_op) (t : sigtask) : ended (option sigtask) :=
  match op with
  | User f m => Returns (Some (set_umem (fun a => u8 (m a)) (set_sframe (fun i => u32 (f i)) t)))
  | Send sig => Returns (Some (set_sig_pending (add_signal sig (sig_pending t)) t))
  | Sigact sig act oldact =>
      let '(r, t) := sys_sigact sig act oldact (Some t) in syscall_return r t
  | Sigreturn =>
      match sys_sigreturn (Some t) with
      | Exits code t => Exits code t
      | Returns (r, t) => syscall_return r t
      end
  | Other_syscall r => syscall_return r (Some t)
  end.

Fixpoint sig_run (ops : list sig_op) (t : sigtask) : ended (option sigtask) :=
  match ops with
  | [] => Returns (Some t)
  | op :: ops =>
      match sig_exec op t with
      | Returns (Some t) => sig_run ops t
      | r => r
      end
  end.

Lemma syscall_return_typed r t : typed t -> left_typed (syscall_return r (Some t)).
Proof.
  intros T. unfold syscall_return. cbn [option_map]. apply dispatch_typed. apply typed_sframe; [done|].
  apply upd_u32; [apply T|apply u32_range].
Qed.

Lemma sig_exec_typed op t : typed t -> left_typed (sig_exec op t).
Proof.
  intros T. destruct op as [f m|sig|sig act oldact| |r]; cbn [sig_exec].
  - cbn. apply typed_umem; [apply typed_sframe; [done|]|]; intros ?; [apply u32_range|apply u8_range].
  - cbn. apply typed_pending; [done|]. apply add_signal_u32, T.
  - destruct (sys_sigact _ _ _ _) as [r t'] eqn:E. apply sigact_typed in E; [|done].
    destruct t'; [|done]. by apply syscall_return_typed.
  - cbn [sys_sigreturn]. pose proof (sigreturn_typed t T) as H.
    destruct (task_sigreturn (Some t)) as [|[r [t'|]]]; [done| |by destruct H].
    apply syscall_return_typed, H.
  - by apply syscall_return_typed.
Qed.

Lemma new_sigtask_typed f m : typed (new_sigtask f m).
Proof.
  pose proof is_u32_0 as H0.
  split; [done|done|by split|intros i; apply u32_range|intros a; apply u8_range|done|done].
Qed.

(** C38: whatever a task does, from its creation on, and whichever signals it
    gets, its signal state stays well typed: the two sets, the actions, the saved
    registers and the memory keep their machine widths, and SIGKILL and SIGSTOP
    keep the default action. *)
Theorem signals_well_typed f m ops : left_typed (sig_run ops (new_sigtask f m)).
Proof.
  generalize (new_sigtask_typed f m). generalize (new_sigtask f m).
  induction ops as [|op ops IH]; intros t T; cbn [sig_run]; [done|].
  pose proof (sig_exec_typed op t T) as H. destruct (sig_exec op t) as [|[t'|]]; [done| |done]. by apply IH.
Qed.

(** ** The way back *)

(** C8: a handler that returns resumes the interrupted code.  When the handler
    of a signal has been entered, has not overwritten the saved context on its
    stack and returns (popping the address of the trampoline), [sys_sigreturn]
    restores every general register, the program counter, the flags and the
    stack pointer of the interrupted code and its mask of blocked signals; the
    value it returns is that of EAX. *)
Theorem signal_roundtrip t sig t1 t2 :
  typed t -> next_signal t sig -> user_handler (sig_handlers t sig) -> stack_ok t ->
  task_signal_dispatch_pending (Some t) = Returns (Some t1) ->
  sframe t2 FRAME_ESP = sframe t1 FRAME_ESP + 4 ->
  (forall x, handler_sp t + OFF_CTX <= x < handler_sp t + OFF_TRAMPOLINE -> umem t2 x = umem t1 x) ->
  exists t3, sys_sigreturn (Some t2) = Returns (i32 (sframe t FRAME_EAX), Some t3) /\
    (forall r, r ∈ [FRAME_ECX; FRAME_EDX; FRAME_EBX; FRAME_EBP; FRAME_ESI; FRAME_EDI; FRAME_EIP; FRAME_EFLAGS; FRAME_ESP] ->
       sframe t3 r = sframe t r) /\
    sig_blocked t3 = sig_blocked t /\ sig_pending t3 = sig_pending t2 /\
    sig_handlers t3 = sig_handlers t2 /\ umem t3 = umem t2.
Proof.
  intros T N Hh [Hlo Hhi] E Hesp Hmem.
  destruct (handler_entered sig t) as (t' & E' & H); [done..|]. rewrite E in E'. injection E' as <-.
  assert (u32 (sframe t2 FRAME_ESP - 4) = handler_sp t) as Hsf.
  { rewrite Hesp, (en_esp _ _ _ H). rewrite Z.add_simpl_r. apply u32_small.
    unfold VMM_USER_START, VMM_USER_END, sizeof_sigframe in *. lia. }
  assert (forall r, 0 <= r < 12 -> uload32 (umem t2) (handler_sp t + off_ctx r) = sframe t r) as Hr.
  { intros r Hr. rewrite <- (en_saved _ _ _ H r Hr). unfold VMM_USER_START, VMM_USER_END, sizeof_sigframe in *.
    rewrite uload_load by (unfold off_ctx, OFF_CTX; lia). apply load32_frame. intros x Hx. apply Hmem.
    unfold off_ctx, OFF_CTX, OFF_TRAMPOLINE in *. lia. }
  cbn [sys_sigreturn task_sigreturn]. rewrite Hsf, bad_frame_false by done. eexists. split; [|split; [|split]].
  - rewrite (Hr FRAME_EAX) by done. reflexivity.
  - intros r Hin. cbn. unfold restore_context. rewrite !Hr by done.
    repeat (apply elem_of_cons in Hin as [->|Hin]; [by vm_compute|]). by apply not_elem_of_nil in Hin.
  - cbn. rewrite <- (en_saved_blocked _ _ _ H). unfold VMM_USER_START, VMM_USER_END, sizeof_sigframe in *.
    rewrite uload_load by (unfold OFF_OLD_SIG_BLOCKED; lia). apply load32_frame. intros x Hx. apply Hmem.
    unfold OFF_OLD_SIG_BLOCKED, OFF_CTX, OFF_TRAMPOLINE in *. lia.
  - done.
Qed.

(** ** Frames that wrap around *)

(** The check of the address of a signal frame does not catch a frame that
    wraps around the end of the address space.  A task that enters the kernel
    with a small stack pointer and a pending signal with a handler makes the
    kernel write its twelve registers to the entries 1010 to 1021 of the page
    directory, which is mapped at 0xFFFFF000. *)
Theorem sigframe_overwrites_directory t sig :
  typed t -> next_signal t sig -> user_handler (sig_handlers t sig) -> 4 <= sframe t FRAME_ESP < 20 ->
  exists t', task_signal_dispatch_pending (Some t) = Returns (Some t') /\
    forall r, 0 <= r < 12 -> load32 (umem t') (0xFFFFF000 + 4 * (1010 + r)) = sframe t r.
Proof.
  intros T N Hh He. rewrite (dispatch_deliver sig) by done. destruct N as ([Hr _] & _).
  set (t1 := set_sig_pending _ t).
  assert (handler_sp t = 0xFFFFFFC0) as Hsp by (unfold handler_sp, sizeof_sigframe, u32; dlia).
  destruct (deliver_fields sig t1) as (t' & E & Em & _);
    [done|change (handler_sp t1) with (handler_sp t); by rewrite Hsp|].
  exists t'. split; [done|]. intros r ?. rewrite Em. change (handler_sp t1) with (handler_sp t). rewrite Hsp.
  replace (0xFFFFF000 + 4 * (1010 + r)) with (0xFFFFFFC0 + off_ctx r) by (unfold off_ctx, OFF_CTX; lia).
  rewrite frame_context by (unfold OFF_TRAMPOLINE; lia). apply u32_small, T.
Qed.

(** ** Examples *)

(** A task with the handler 0x400100 for SIGINT, which is pending. *)
Definition demo_handlers : Z -> sigaction :=
  (fun _ => mk_sigaction SIG_DFL 0 0 0 0).[2 <- mk_sigaction 0x400100 0 (2 ^ 15) 0 0].
Definition demo_sigtask (esp : Z) : sigtask :=
  mk_sigtask 4 0 demo_handlers ((fun i => 100 + u8 i).[FRAME_ESP <- u32 esp]) (fun _ => 0).

Lemma demo_sigtask_typed esp : typed (demo_sigtask esp).
Proof.
  split; cbn; [unfold is_u32; lia|unfold is_u32; lia| | |intros a; lia|done|done].
  - intros sig. unfold demo_handlers. rewrite upd_cases. case_decide; split; by vm_compute.
  - apply upd_u32; [|apply u32_range]. intros i. pose proof (u8_range i). unfold is_u32. lia.
Qed.

Lemma demo_next_signal esp : next_signal (demo_sigtask esp) 2.
Proof.
  split; [by vm_compute|]. split; [intros [_ H]; done|]. intros k Hk [Hr Hb]. cbn in Hb.
  assert (k = 0 \/ k = 1) as [->| ->] by lia; done.
Qed.

Lemma demo_user_handler esp : user_handler (sig_handlers (demo_sigtask esp) 2).
Proof. by vm_compute. Qed.

Lemma demo_stack_ok : stack_ok (demo_sigtask 0x3FFFE000).
Proof. by vm_compute. Qed.

Lemma signal_dispatch_correct_witness :
  exists t', task_signal_dispatch_pending (Some (demo_sigtask 0x3FFFE000)) = Returns (Some t') /\
    entered 2 (demo_sigtask 0x3FFFE000) t'.
Proof.
  destruct (signal_dispatch_correct (demo_sigtask 0x3FFFE000) (demo_sigtask_typed _)) as [_ H].
  destruct (H 2 (demo_next_signal _)) as (_ & _ & _ & H2 & _). apply H2; [apply demo_user_handler|apply demo_stack_ok].
Defined.

(** The task after delivery, and when its handler has returned. *)
Definition demo_entered : sigtask :=
  match task_signal_dispatch_pending (Some (demo_sigtask 0x3FFFE000)) with
  | Returns (Some t) => t
  | _ => demo_sigtask 0
  end.
Definition demo_returning : sigtask :=
  set_sframe (fun i => if i =? FRAME_ESP then sframe demo_entered FRAME_ESP + 4 else 7) demo_entered.

Lemma signal_roundtrip_witness :
  exists t3, sys_sigreturn (Some demo_returning) = Returns (100, Some t3) /\
    sframe t3 FRAME_ESP = 0x3FFFE000 /\ sig_blocked t3 = 0.
Proof.
  destruct (signal_roundtrip (demo_sigtask 0x3FFFE000) 2 demo_entered demo_returning) as (t3 & E & Hr & Hb & _).
  - apply demo_sigtask_typed.
  - apply demo_next_signal.
  - apply demo_user_handler.
  - apply demo_stack_ok.
  - reflexivity.
  - reflexivity.
  - reflexivity.
  - exists t3. split; [exact E|]. split; [|exact Hb]. rewrite Hr; [reflexivity|do 8 apply list_elem_of_further; apply list_elem_of_here].
Defined.

Lemma sigframe_overwrites_directory_witness :
  exists t', task_signal_dispatch_pending (Some (demo_sigtask 16)) = Returns (Some t') /\
    load32 (umem t') (0xFFFFF000 + 4 * 1012) = 102.
Proof.
  destruct (sigframe_overwrites_directory (demo_sigtask 16) 2) as (t' & E & H).
  - apply demo_sigtask_typed.
  - apply demo_next_signal.
  - apply demo_user_handler.
  - by vm_compute.
  - exists t'. split; [exact E|]. exact (H FRAME_EDX ltac:(by vm_compute)).
Defined.
