(* ===== verification/Context.v ===== *)
(** Kernel stacks of tasks: a model of [task_setup_initial_stack],
    [task_save_syscall_user_context] and the stack part of [task_fork] in
    [src/kernel/kernel/task/task.c], of [task_push_args] in [task_args.c], and of
    the assembly of [switch_to_stack.s], [task_switch_return.s] and [isr.s].

    The processor is its registers; the memory is a store of bytes by virtual
    address.  The addresses of [task_entry_trampoline] and
    [task_switch_return_point] are parameters: the linker chooses them. *)

From S2P Require Import Prelude CMem CString.
From Stdlib Require Import ZArith Lia Bool.
From stdpp Require Import base tactics numbers list.
Open Scope Z_scope.

(** ** The processor *)

Record cpu := mk_cpu {
  eax : Z; ecx : Z; edx : Z; ebx : Z; esp : Z; ebp : Z; esi : Z; edi : Z;
  eip : Z; cs : Z; eflags : Z; ss : Z; ds : Z; es : Z; fs : Z; gs : Z }.

Definition set_esp x c := mk_cpu (eax c) (ecx c) (edx c) (ebx c) x (ebp c) (esi c) (edi c)
  (eip c) (cs c) (eflags c) (ss c) (ds c) (es c) (fs c) (gs c).
Definition set_ebp x c := mk_cpu (eax c) (ecx c) (edx c) (ebx c) (esp c) x (esi c) (edi c)
  (eip c) (cs c) (eflags c) (ss c) (ds c) (es c) (fs c) (gs c).
Definition set_eip x c := mk_cpu (eax c) (ecx c) (edx c) (ebx c) (esp c) (ebp c) (esi c) (edi c)
  x (cs c) (eflags c) (ss c) (ds c) (es c) (fs c) (gs c).
Definition set_regs a c_ d c := mk_cpu a c_ d (ebx c) (esp c) (ebp c) (esi c) (edi c)
  (eip c) (cs c) (eflags c) (ss c) (ds c) (es c) (fs c) (gs c).
Definition set_saved b si di c := mk_cpu (eax c) (ecx c) (edx c) b (esp c) (ebp c) si di
  (eip c) (cs c) (eflags c) (ss c) (ds c) (es c) (fs c) (gs c).
Definition set_segments d e f g c := mk_cpu (eax c) (ecx c) (edx c) (ebx c) (esp c) (ebp c) (esi c) (edi c)
  (eip c) (cs c) (eflags c) (ss c) d e f g.

(** The word [i] words above the stack pointer. *)
Definition stack_word (m : Z -> Z) (c : cpu) (i : Z) : Z := load32 m (u32 (esp c + 4 * i)).

Definition cpu_push (w : Z) (s : cpu * (Z -> Z)) : cpu * (Z -> Z) :=
  let '(c, m) := s in
  let sp := u32 (esp c - 4) in
  (set_esp sp c, store32 m sp w).

(** [void switch_to_stack(uint32_t* old_esp_ptr, uint32_t new_esp)], entered by a
    [call]: the return address is on top of the stack, the parameters above. *)
Definition switch_to_stack (s : cpu * (Z -> Z)) : cpu * (Z -> Z) :=
  let s := cpu_push (ebp s.1) s in
  let s := (set_ebp (esp s.1) s.1, s.2) in
  let s := cpu_push (ebx s.1) s in
  let s := cpu_push (esi s.1) s in
  let '(c, m) := cpu_push (edi s.1) s in
  let a := load32 m (u32 (ebp c + 8)) in
  let d := load32 m (u32 (ebp c + 12)) in
  let m := if a =? 0 then m else store32 m a (esp c) in
  let c := set_regs a (ecx c) d (set_ebp d (set_esp d c)) in
  let c := set_saved (stack_word m c 2) (stack_word m c 1) (stack_word m c 0) (set_ebp (stack_word m c 3) c) in
  let c := set_eip (stack_word m c 4) c in
  (set_esp (u32 (esp c + 20)) c, m).

(** [popal]: the saved ESP is skipped. *)
Definition popal (m : Z -> Z) (c : cpu) : cpu :=
  mk_cpu (stack_word m c 7) (stack_word m c 6) (stack_word m c 5) (stack_word m c 4)
    (u32 (esp c + 32)) (stack_word m c 2) (stack_word m c 1) (stack_word m c 0)
    (eip c) (cs c) (eflags c) (ss c) (ds c) (es c) (fs c) (gs c).

(** [iret] in kernel mode: a return to user mode pops the stack pointer, too. *)
Definition iret (m : Z -> Z) (c : cpu) : cpu :=
  let new_cs := stack_word m c 1 in
  let '(new_esp, new_ss) :=
    if Z.land new_cs 3 =? 0 then (u32 (esp c + 12), ss c) else (stack_word m c 3, stack_word m c 4) in
  mk_cpu (eax c) (ecx c) (edx c) (ebx c) new_esp (ebp c) (esi c) (edi c)
    (stack_word m c 0) new_cs (stack_word m c 2) new_ss (ds c) (es c) (fs c) (gs c).

(** [popal; pop %ds; pop %es; pop %fs; pop %gs; addl $8, %esp; iret], the end of
    an interrupt. *)
Definition interrupt_return (m : Z -> Z) (c : cpu) : cpu :=
  let c := popal m c in
  let c := set_segments (stack_word m c 0) (stack_word m c 1) (stack_word m c 2) (stack_word m c 3) c in
  let c := set_esp (u32 (esp c + 16)) c in
  iret m (set_esp (u32 (esp c + 8)) c).

(** [pushl $0; call pic_send_eoi; addl $4, %esp] writes below the stack pointer
    and leaves arbitrary values [a], [x], [d] in the registers that a C function
    need not preserve; [ret] is the address after the call. *)
Definition task_switch_return_point (ret a x d : Z) (s : cpu * (Z -> Z)) : cpu * (Z -> Z) :=
  let s := cpu_push 0 s in
  let '(c, m) := cpu_push ret s in
  let c := set_regs a x d (set_esp (u32 (esp c + 4)) c) in
  let c := set_esp (u32 (esp c + 4)) c in
  (interrupt_return m c, m).

(** ** Initial stacks *)

(** The fields of [task_t] that hold stacks and the context. *)
Record stacks := mk_stacks {
  kernel_stack_base : Z; kernel_stack_size : Z; user_stack_base : Z; user_stack_size : Z }.

Record task_cpu_context := mk_context {
  ctx_esp : Z; syscall_user_eip : Z; syscall_user_esp : Z; syscall_user_eax : Z; syscall_user_ecx : Z;
  syscall_user_edx : Z; syscall_user_ebx : Z; syscall_user_ebp : Z; syscall_user_esi : Z;
  syscall_user_edi : Z; syscall_frame_ptr : Z }.

Definition set_ctx_esp x k := mk_context x (syscall_user_eip k) (syscall_user_esp k) (syscall_user_eax k)
  (syscall_user_ecx k) (syscall_user_edx k) (syscall_user_ebx k) (syscall_user_ebp k) (syscall_user_esi k)
  (syscall_user_edi k) (syscall_frame_ptr k).

(** [stack--; *stack = w;] *)
Definition stack_push (w : Z) (s : Z * (Z -> Z)) : Z * (Z -> Z) :=
  let '(stack, m) := s in
  let stack := u32 (stack - 4) in
  (stack, store32 m stack w).

Definition push_all (ws : list Z) (s : Z * (Z -> Z)) : Z * (Z -> Z) := foldl (fun s w => stack_push w s) s ws.

Section Tasks.
Context (task_entry_trampoline return_point : Z).

Definition task_setup_initial_stack (task : stacks) (entrypoint : Z) (is_kernel : bool) (user_esp : Z)
    (k : task_cpu_context) (m : Z -> Z) : task_cpu_context * (Z -> Z) :=
  let s := (u32 (kernel_stack_base task + kernel_stack_size task), m) in
  let s :=
    if negb is_kernel then
      let s := if user_esp =? 0 then stack_push task_entry_trampoline s else s in
      let s := stack_push 0x23 s in
      stack_push (if user_esp =? 0 then u32 (user_stack_base task + user_stack_size task) else user_esp) s
    else stack_push task_entry_trampoline s in
  let s := stack_push 0x202 s in
  let s := stack_push (if is_kernel then 0x08 else 0x1B) s in
  let s := push_all [entrypoint; 0; 0] s in
  let s := if is_kernel then push_all [0x10; 0x10; 0x10; 0x10] s else push_all [0x23; 0x23; 0x23; 0x23] s in
  let s := push_all [0; 0; 0; 0; 0; 0; 0; 0] s in
  let s := stack_push return_point s in
  let s := push_all [0; 0; 0; 0] s in
  (set_ctx_esp s.1 k, s.2).

(** [syscall_frame] is the address of the words that [syscall_stub] pushed. *)
Definition task_save_syscall_user_context (syscall_frame : Z) (m : Z -> Z) (k : task_cpu_context) : task_cpu_context :=
  let frame i := load32 m (u32 (syscall_frame + 4 * i)) in
  mk_context (ctx_esp k) (frame 7) (frame 10) (frame 0) (frame 1) (frame 2) (frame 3) (frame 4) (frame 5) (frame 6)
    syscall_frame.

(** [uint32_t* p; p[i] = w;] *)
Definition store_at (p i w : Z) (m : Z -> Z) : Z -> Z := store32 m (u32 (p + 4 * i)) w.

(** The kernel stack of the child in [task_fork]. *)
Definition fork_stack (child : stacks) (parent k : task_cpu_context) (m : Z -> Z) : task_cpu_context * (Z -> Z) :=
  let '(k, m) := task_setup_initial_stack child (syscall_user_eip parent) false (syscall_user_esp parent) k m in
  let m := store_at (ctx_esp k) 5 (syscall_user_edi parent) m in
  let m := store_at (ctx_esp k) 6 (syscall_user_esi parent) m in
  let m := store_at (ctx_esp k) 7 (syscall_user_ebp parent) m in
  let m := store_at (ctx_esp k) 9 (syscall_user_ebx parent) m in
  let m := store_at (ctx_esp k) 10 (syscall_user_edx parent) m in
  let m := store_at (ctx_esp k) 11 (syscall_user_ecx parent) m in
  (k, m).

(** The new user stack pointer that [elf_create_task] stores in the initial stack. *)
Definition TASK_INITIAL_USER_ESP_OFFSET : Z := 22.
Definition patch_user_esp (user_esp : Z) (k : task_cpu_context) (m : Z -> Z) : Z -> Z :=
  store_at (ctx_esp k) TASK_INITIAL_USER_ESP_OFFSET user_esp m.

Definition task_set_fork_child_return (child : task_cpu_context) (m : Z -> Z) : Z -> Z :=
  store32 m (u32 (ctx_esp child + 36)) 0.
End Tasks.

(** ** Arguments *)

(** [for (int i = n - 1; i >= 0; i--)] over an array of strings: each is copied
    below [sp]; the list holds the new addresses.  [strlen] runs with [fuel]. *)
Fixpoint push_strings (fuel : nat) (strs : list Z) (sp : Z) (m : Z -> Z) : option (list Z * Z * (Z -> Z)) :=
  match strs with
  | [] => Some ([], sp, m)
  | str :: strs =>
      '(ptrs, sp, m) ← push_strings fuel strs sp m;
      n ← strlen fuel m str;
      let len := u32 (n + 1) in
      let sp := u32 (sp - len) in
      Some (sp :: ptrs, sp, memcpy sp str len m)
  end.

(** The pointers of an array, from the last to the first. *)
Fixpoint push_pointers (ptrs : list Z) (s : Z * (Z -> Z)) : Z * (Z -> Z) :=
  match ptrs with
  | [] => s
  | p :: ptrs => stack_push p (push_pointers ptrs s)
  end.

(** [argv] and [envp] are the arrays of [argc] and [envc] pointers; the scratch
    arrays of [kmalloc] are the lists of addresses. *)
Definition task_push_args (fuel : nat) (esp_inout : Z) (argv envp : list Z) (m : Z -> Z) : option (Z * (Z -> Z)) :=
  '(envp_ptrs, sp, m) ← push_strings fuel envp esp_inout m;
  '(argv_ptrs, sp, m) ← push_strings fuel argv sp m;
  let sp := Z.land sp (u32 (Z.lnot 3)) in
  let s := stack_push 0 (sp, m) in
  let s := push_pointers envp_ptrs s in
  let s := stack_push 0 s in
  let s := push_pointers argv_ptrs s in
  Some (stack_push (u32 (Z.of_nat (length argv))) s).
