(* ===== verification/ContextSpec.v ===== *)
(** Theorems on the kernel stacks of tasks: a context switch saves and restores
    the task, a new task starts at its entry point, the child of a fork resumes
    where its parent called, and a program finds its arguments on its stack. *)

From S2P Require Import Prelude CMem CString Context.
From Stdlib Require Import ZArith Lia Bool.
From stdpp Require Import base tactics numbers list.
Open Scope Z_scope.

(** ** Words on a stack *)

Definition words (m : Z -> Z) (a : Z) (l : list Z) : Prop :=
  forall i w, l !! i = Some w -> load32 m (a + 4 * Z.of_nat i) = w.

Lemma words_nil m a : words m a [].
Proof. by intros i w ?. Qed.

Lemma words_cons m a w l : words m a (w :: l) <-> load32 m a = w /\ words m (a + 4) l.
Proof.
  split.
  - intros H. split; [rewrite <- (H 0%nat w) by done; f_equal; lia|].
    intros i x Hi. rewrite <- (H (S i) x) by done. f_equal. lia.
  - intros [H1 H2] [|i] x Hi; cbn in Hi; simplify_eq; [f_equal; lia|]. rewrite <- (H2 i x) by done. f_equal. lia.
Qed.

Lemma words_app m a l k : words m a (l ++ k) <-> words m a l /\ words m (a + 4 * Z.of_nat (length l)) k.
Proof.
  revert a. induction l as [|w l IH]; intros a; cbn [app length].
  - replace (a + 4 * Z.of_nat 0) with a by lia. split; [by split; [apply words_nil|]|by intros [_ ?]].
  - rewrite !words_cons, IH. replace (a + 4 + 4 * Z.of_nat (length l)) with (a + 4 * Z.of_nat (S (length l))) by lia. tauto.
Qed.

Lemma words_frame m m' a l :
  (forall x, a <= x < a + 4 * Z.of_nat (length l) -> m' x = m x) -> words m a l -> words m' a l.
Proof.
  intros H W i w Hi. rewrite <- (W i w Hi). apply load32_frame. intros x Hx. apply H.
  apply lookup_lt_Some in Hi. lia.
Qed.

Lemma words_store m a l i w :
  (i < length l)%nat -> is_u32 w -> words m a l -> words (store32 m (a + 4 * Z.of_nat i) w) a (<[i:=w]> l).
Proof.
  intros Hi Hw W j x Hj. destruct (decide (i = j)) as [<-|Hne].
  - rewrite list_lookup_insert_eq in Hj by done. injection Hj as <-. rewrite load32_store32. apply u32_small, Hw.
  - rewrite list_lookup_insert_ne in Hj by done. rewrite load32_store32_ne by lia. by apply W.
Qed.

(** [s] is what pushing the words of [l] leaves on the stack with top [top] in the memory [m]. *)
Record stacked (m : Z -> Z) (top : Z) (l : list Z) (s : Z * (Z -> Z)) : Prop := {
  st_sp : s.1 = top - 4 * Z.of_nat (length l);
  st_words : words s.2 s.1 l;
  st_frame : forall x, x < s.1 \/ top <= x -> s.2 x = m x }.

Lemma stacked_nil m top : stacked m top [] (top, m).
Proof. split; cbn [fst snd length]; [lia|apply words_nil|done]. Qed.

Lemma stacked_push m top l s w :
  top <= 2 ^ 32 -> 4 * Z.of_nat (length l) + 4 <= top -> is_u32 w ->
  stacked m top l s -> stacked m top (w :: l) (stack_push w s).
Proof.
  intros Ht Hl Hw [H1 H2 H3]. destruct s as [a m1]. cbn [fst snd] in *.
  unfold stack_push. rewrite (u32_small (a - 4)) by lia. split; cbn [fst snd length].
  - lia.
  - apply words_cons. split; [rewrite load32_store32; apply u32_small, Hw|].
    replace (a - 4 + 4) with a by lia. eapply words_frame; [|done]. intros x Hx. apply store32_frame. lia.
  - intros x Hx. rewrite store32_frame by lia. apply H3. lia.
Qed.

Lemma stacked_push_all m top ws : forall l s,
  top <= 2 ^ 32 -> 4 * Z.of_nat (length l) + 4 * Z.of_nat (length ws) <= top -> Forall is_u32 ws ->
  stacked m top l s -> stacked m top (rev ws ++ l) (push_all ws s).
Proof.
  induction ws as [|w ws IH]; intros l s Ht Hl Hw H; [done|]. cbn [rev]. rewrite <- app_assoc. cbn [length] in Hl.
  apply Forall_cons in Hw as [Hw Hws]. apply (IH (w :: l) (stack_push w s)); cbn [length]; [done|lia|done|].
  apply stacked_push; [done|lia|done|done].
Qed.

(** ** The context switch *)

(** [switch_to_stack(old, new)] has been called on this processor and memory. *)
Record calls_switch (c : cpu) (m : Z -> Z) (old new : Z) : Prop := {
  cs_low : 16 <= esp c; cs_high : esp c + 12 <= 2 ^ 32;
  cs_old : load32 m (esp c + 4) = old; cs_new : load32 m (esp c + 8) = new;
  cs_regs : is_u32 (ebx c) /\ is_u32 (esi c) /\ is_u32 (edi c) /\ is_u32 (ebp c);
  cs_apart : old = 0 \/ (0 <= old /\ (old + 4 <= esp c - 16 \/ esp c + 12 <= old)) }.

(** The memory after the old task is saved. *)
Definition switch_saved (c : cpu) (m : Z -> Z) (old : Z) : Z -> Z :=
  let m := store32 m (esp c - 4) (ebp c) in
  let m := store32 m (esp c - 8) (ebx c) in
  let m := store32 m (esp c - 12) (esi c) in
  let m := store32 m (esp c - 16) (edi c) in
  if old =? 0 then m else store32 m old (esp c - 16).

Lemma switch_saved_frame c m old x :
  ~ (esp c - 16 <= x < esp c) -> (old = 0 \/ ~ (old <= x < old + 4)) -> switch_saved c m old x = m x.
Proof.
  intros H1 H2. unfold switch_saved. destruct (Z.eqb_spec old 0); rewrite !store32_frame by lia; done.
Qed.

Lemma switch_saved_words c m old new :
  calls_switch c m old new ->
  words (switch_saved c m old) (esp c - 16) [edi c; esi c; ebx c; ebp c; load32 m (esp c)].
Proof.
  intros [Hl Hh _ _ (Hb & Hs & Hd & Hp) Ha].
  assert (forall x, esp c - 16 <= x < esp c + 4 -> switch_saved c m old x =
    store32 (store32 (store32 (store32 m (esp c - 4) (ebp c)) (esp c - 8) (ebx c)) (esp c - 12) (esi c))
      (esp c - 16) (edi c) x) as E.
  { intros x Hx. unfold switch_saved. destruct (Z.eqb_spec old 0); [done|]. apply store32_frame. lia. }
  eapply words_frame; [intros x Hx; cbn [length] in Hx; apply E; lia|]. clear E.
  repeat (apply words_cons; split; [|]); [| | | | |apply words_nil].
  - rewrite load32_store32. apply u32_small, Hd.
  - replace (esp c - 16 + 4) with (esp c - 12) by lia. rewrite load32_store32_ne, load32_store32 by lia. apply u32_small, Hs.
  - replace (esp c - 16 + 4 + 4) with (esp c - 8) by lia. rewrite !load32_store32_ne, load32_store32 by lia. apply u32_small, Hb.
  - replace (esp c - 16 + 4 + 4 + 4) with (esp c - 4) by lia.
    rewrite !load32_store32_ne, load32_store32 by lia. apply u32_small, Hp.
  - replace (esp c - 16 + 4 + 4 + 4 + 4) with (esp c) by lia. by rewrite !load32_store32_ne by lia.
Qed.

(** The registers of the new task, read from the memory [m]. *)
Definition switch_loaded (c : cpu) (m : Z -> Z) (old new : Z) : cpu :=
  let c := set_regs old (ecx c) new (set_ebp new (set_esp new c)) in
  let c := set_saved (stack_word m c 2) (stack_word m c 1) (stack_word m c 0) (set_ebp (stack_word m c 3) c) in
  let c := set_eip (stack_word m c 4) c in
  set_esp (u32 (esp c + 20)) c.

Lemma switch_unfold c m old new :
  calls_switch c m old new ->
  switch_to_stack (c, m) = (switch_loaded c (switch_saved c m old) old new, switch_saved c m old).
Proof.
  intros [Hl Hh Ho Hn _ Ha].
  unfold switch_to_stack, cpu_push. cbn [fst snd esp ebp ebx esi edi set_esp set_ebp].
  rewrite (u32_small (esp c - 4)) by lia. rewrite (u32_small (esp c - 4 - 4)) by lia.
  rewrite (u32_small (esp c - 4 - 4 - 4)) by lia. rewrite (u32_small (esp c - 4 - 4 - 4 - 4)) by lia.
  rewrite (u32_small (esp c - 4 + 8)), (u32_small (esp c - 4 + 12)) by lia.
  replace (esp c - 4 - 4) with (esp c - 8) by lia. replace (esp c - 8 - 4) with (esp c - 12) by lia.
  replace (esp c - 12 - 4) with (esp c - 16) by lia.
  rewrite !load32_store32_ne by lia.
  replace (esp c - 4 + 8) with (esp c + 4) by lia. replace (esp c - 4 + 12) with (esp c + 8) by lia.
  rewrite Ho, Hn. done.
Qed.

Lemma switch_loaded_spec c m old new di si bx bp ip :
  0 <= new -> new + 20 <= 2 ^ 32 -> words m new [di; si; bx; bp; ip] ->
  switch_loaded c m old new =
    mk_cpu old (ecx c) new bx (u32 (new + 20)) bp si di ip (cs c) (eflags c) (ss c) (ds c) (es c) (fs c) (gs c).
Proof.
  intros H1 H2 W. rewrite !words_cons in W. destruct W as (W0 & W1 & W2 & W3 & W4 & _).
  unfold switch_loaded, stack_word.
  cbn [esp ebp ebx esi edi eax ecx edx eip set_esp set_ebp set_regs set_saved set_eip cs eflags ss ds es fs gs].
  rewrite !(u32_small (new + 4 * _)) by lia.
  replace (new + 4 * 0) with new by lia. replace (new + 4 * 1) with (new + 4) by lia.
  replace (new + 4 * 2) with (new + 4 + 4) by lia. replace (new + 4 * 3) with (new + 4 + 4 + 4) by lia.
  replace (new + 4 * 4) with (new + 4 + 4 + 4 + 4) by lia. by rewrite W0, W1, W2, W3, W4.
Qed.

(** A context switch and back.  A task that calls [switch_to_stack] has the
    address of its saved registers stored at [old]; when any later call, on any
    other stack, switches to that address, with the saved words intact, the task
    continues after its call with the stack pointer and the registers EBX, ESI,
    EDI and EBP that it had. *)
Theorem context_switch_roundtrip c0 m0 old new c2 m2 old2 :
  calls_switch c0 m0 old new -> old <> 0 ->
  let m1 := (switch_to_stack (c0, m0)).2 in
  calls_switch c2 m2 old2 (load32 m1 old) ->
  (forall x, esp c0 - 16 <= x < esp c0 + 4 -> m2 x = m1 x) ->
  (esp c2 <= esp c0 - 16 \/ esp c0 + 4 <= esp c2 - 16) ->
  (old2 = 0 \/ old2 + 4 <= esp c0 - 16 \/ esp c0 + 4 <= old2) ->
  let c3 := (switch_to_stack (c2, m2)).1 in
  eip c3 = load32 m0 (esp c0) /\ esp c3 = u32 (esp c0 + 4) /\
  ebx c3 = ebx c0 /\ esi c3 = esi c0 /\ edi c3 = edi c0 /\ ebp c3 = ebp c0.
Proof.
  intros C0 Ho. cbv zeta. rewrite (switch_unfold _ _ _ _ C0). cbn [snd].
  assert (load32 (switch_saved c0 m0 old) old = esp c0 - 16) as ->.
  { unfold switch_saved. rewrite (proj2 (Z.eqb_neq old 0) Ho), load32_store32. apply u32_small.
    destruct C0. lia. }
  intros C2 Hm Hs Hp. rewrite (switch_unfold _ _ _ _ C2). cbn [fst].
  erewrite switch_loaded_spec; [|destruct C0; lia|destruct C0; lia|].
  - cbn [eip esp ebx esi edi ebp]. replace (esp c0 - 16 + 20) with (esp c0 + 4) by lia. done.
  - eapply words_frame; [|eapply words_frame; [|exact (switch_saved_words _ _ _ _ C0)]].
    + intros x Hx. cbn [length] in Hx. apply switch_saved_frame; lia.
    + intros x Hx. cbn [length] in Hx. apply Hm. lia.
Qed.

(** ** Starting a task *)

(** The words that a task in user mode is started from, from its [context.esp] upwards:
    the registers that [switch_to_stack] pops, the return address, the registers of
    [popal], the segments, the interrupt number and error code, and the [iret] frame. *)
Definition start_words (rp di si bp bx dx cx ax entry uesp : Z) : list Z :=
  [0; 0; 0; 0; rp; di; si; bp; 0; bx; dx; cx; ax; 0x23; 0x23; 0x23; 0x23; 0; 0; entry; 0x1B; 0x202; uesp; 0x23].

(** The processor when the task runs. *)
Definition user_cpu (di si bp bx dx cx ax entry uesp : Z) : cpu :=
  mk_cpu ax cx dx bx uesp bp si di entry 0x1B 0x202 0x23 0x23 0x23 0x23 0x23.

(** Evaluates a load with [L], which gives the words of a list by their index. *)
Ltac load_at L a i n :=
  first [rewrite (L a i _ eq_refl) by lia | lazymatch n with S ?k => load_at L a (S i) k end].
Ltac load_from L := match goal with |- context [load32 _ ?a] => load_at L a 0%nat 24%nat end.

Lemma interrupt_return_spec m c di si bp sk bx dx cx ax i1 i2 entry uesp :
  let l := [di; si; bp; sk; bx; dx; cx; ax; 0x23; 0x23; 0x23; 0x23; i1; i2; entry; 0x1B; 0x202; uesp; 0x23] in
  0 <= esp c -> esp c + 4 * Z.of_nat (length l) <= 2 ^ 32 -> words m (esp c) l ->
  interrupt_return m c = user_cpu di si bp bx dx cx ax entry uesp.
Proof.
  intros l H0 H1 W. cbn [length l] in H1.
  assert (forall a i w, l !! i = Some w -> a = esp c + 4 * Z.of_nat i -> load32 m a = w) as L.
  { intros a i w Hi ->. by apply W. }
  unfold interrupt_return, iret, popal, stack_word.
  cbn [esp set_esp set_segments eax ecx edx ebx ebp esi edi cs ss ds es fs gs eip eflags].
  rewrite !(u32_small (esp c + 4 * _)) by lia. rewrite (u32_small (esp c + 32)) by lia.
  rewrite (u32_small (esp c + 32 + 16)) by lia. rewrite (u32_small (esp c + 32 + 16 + 8)) by lia.
  rewrite !(u32_small (esp c + 32 + 4 * _)), !(u32_small (esp c + 32 + 16 + 8 + 4 * _)) by lia.
  repeat load_from L. done.
Qed.

Lemma return_point_spec m c ret a x d di si bp bx dx cx ax i1 i2 entry uesp rest :
  let l := [di; si; bp; 0; bx; dx; cx; ax; 0x23; 0x23; 0x23; 0x23; i1; i2; entry; 0x1B; 0x202; uesp; 0x23] in
  8 <= esp c -> esp c + 4 * Z.of_nat (length l) <= 2 ^ 32 -> words m (esp c) (l ++ rest) ->
  (task_switch_return_point ret a x d (c, m)).1 = user_cpu di si bp bx dx cx ax entry uesp.
Proof.
  intros l H0 H1 W. apply words_app in W as [W _]. unfold task_switch_return_point, cpu_push. cbn [length l] in H1.
  cbn [esp set_esp fst snd]. rewrite (u32_small (esp c - 4)), (u32_small (esp c - 4 - 4)) by lia. cbn [fst].
  set (m2 := store32 (store32 m _ _) _ _).
  apply (interrupt_return_spec m2 _ di si bp 0 bx dx cx ax i1 i2 entry uesp);
    cbn [esp set_esp set_regs]; rewrite (u32_small (esp c - 4 - 4 + 4)), (u32_small (esp c - 4 - 4 + 4 + 4)) by lia.
  - lia.
  - cbn [length]. lia.
  - replace (esp c - 4 - 4 + 4 + 4) with (esp c) by lia. eapply words_frame; [|exact W].
    intros y Hy. unfold m2. rewrite !store32_frame by lia. done.
Qed.

(** [c] and [m] are about to switch to the stack at [sp], which holds [l]. *)
Record switches_to (c : cpu) (m : Z -> Z) (old sp : Z) (l : list Z) : Prop := {
  sw_call : calls_switch c m old sp;
  sw_words : words m sp l;
  sw_low : 0 <= sp; sw_high : sp + 4 * Z.of_nat (length l) <= 2 ^ 32;
  sw_stack : esp c <= sp \/ sp + 4 * Z.of_nat (length l) <= esp c - 16;
  sw_old : old = 0 \/ old + 4 <= sp \/ sp + 4 * Z.of_nat (length l) <= old }.

(** Whatever runs before, a task with these words on its stack starts in user mode. *)
Lemma task_starts c m old sp rp di si bp bx dx cx ax entry uesp rest ret a x d :
  switches_to c m old sp (start_words rp di si bp bx dx cx ax entry uesp ++ rest) ->
  let s := switch_to_stack (c, m) in
  eip s.1 = rp /\ (task_switch_return_point ret a x d s).1 = user_cpu di si bp bx dx cx ax entry uesp.
Proof.
  intros [C W H0 H1 Hs Ho]. cbv zeta. rewrite length_app in *. cbn [length start_words] in H1, Hs, Ho.
  rewrite (switch_unfold _ _ _ _ C). cbn [fst snd].
  assert (words (switch_saved c m old) sp (start_words rp di si bp bx dx cx ax entry uesp ++ rest)) as W'.
  { eapply words_frame; [|exact W]. intros y Hy. rewrite length_app in Hy. cbn [length start_words] in Hy.
    apply switch_saved_frame; lia. }
  change (start_words _ _ _ _ _ _ _ _ _ _) with ([0; 0; 0; 0; rp] ++
    [di; si; bp; 0; bx; dx; cx; ax; 0x23; 0x23; 0x23; 0x23; 0; 0; entry; 0x1B; 0x202; uesp; 0x23]) in W'.
  rewrite <- app_assoc in W'. apply words_app in W' as [W1 W2]. cbn [length] in W2.
  rewrite (switch_loaded_spec _ _ _ _ 0 0 0 0 rp) by (done || lia). split; [done|].
  eapply return_point_spec; cbn [esp length]; rewrite (u32_small (sp + 20)) by lia; [lia|lia|exact W2].
Qed.

Section Initial.
Context (tramp rp : Z) (Htramp : is_u32 tramp) (Hrp : is_u32 rp).

(** The kernel stack of a task has room for its initial words. *)
Definition room (t : stacks) : Prop :=
  0 <= kernel_stack_base t /\ 128 <= kernel_stack_size t /\ kernel_stack_base t + kernel_stack_size t < 2 ^ 32.

Ltac pushes :=
  repeat first
    [ apply stacked_push; [lia|cbn [length app rev]; lia|first [done | by vm_compute]|]
    | apply stacked_push_all; [lia|cbn [length app rev]; lia|by repeat constructor; first [done | by vm_compute]|] ].

Lemma initial_stack_eq t entry uesp k m :
  let r := task_setup_initial_stack tramp rp t entry false uesp k m in
  let s := (u32 (kernel_stack_base t + kernel_stack_size t), m) in
  (ctx_esp r.1, r.2) =
    push_all [0; 0; 0; 0] (stack_push rp (push_all [0; 0; 0; 0; 0; 0; 0; 0] (push_all [0x23; 0x23; 0x23; 0x23]
      (push_all [entry; 0; 0] (stack_push 0x1B (stack_push 0x202
        (stack_push (if uesp =? 0 then u32 (user_stack_base t + user_stack_size t) else uesp)
          (stack_push 0x23 (if uesp =? 0 then stack_push tramp s else s))))))))).
Proof.
  cbv zeta. unfold task_setup_initial_stack. cbv zeta. cbn [negb].
  match goal with |- (ctx_esp (set_ctx_esp ?s.1 k, _).1, _) = _ => generalize s end.
  intros s. symmetry. exact (surjective_pairing s).
Qed.

Lemma start_stacked m top entry sp0 rest s :
  128 <= top -> top <= 2 ^ 32 -> is_u32 entry -> is_u32 sp0 -> (length rest <= 1)%nat -> stacked m top rest s ->
  stacked m top (start_words rp 0 0 0 0 0 0 0 entry sp0 ++ rest)
    (push_all [0; 0; 0; 0] (stack_push rp (push_all [0; 0; 0; 0; 0; 0; 0; 0] (push_all [0x23; 0x23; 0x23; 0x23]
      (push_all [entry; 0; 0] (stack_push 0x1B (stack_push 0x202 (stack_push sp0 (stack_push 0x23 s))))))))).
Proof using Hrp.
  intros H1 H2 He Hs Hl S. revert S. generalize dependent s. intros s S.
  change (start_words _ _ _ _ _ _ _ _ _ _ ++ _) with (rev [0; 0; 0; 0] ++ rp :: rev [0; 0; 0; 0; 0; 0; 0; 0] ++
      rev [0x23; 0x23; 0x23; 0x23] ++ rev [entry; 0; 0] ++ [0x1B; 0x202; sp0; 0x23] ++ rest).
  cbn [app]. pushes. exact S.
Qed.

Lemma initial_stack_user t entry uesp k m :
  room t -> is_u32 entry -> is_u32 uesp ->
  let top := kernel_stack_base t + kernel_stack_size t in
  let sp0 := if uesp =? 0 then u32 (user_stack_base t + user_stack_size t) else uesp in
  let rest := if uesp =? 0 then [tramp] else [] in
  let r := task_setup_initial_stack tramp rp t entry false uesp k m in
  stacked m top (start_words rp 0 0 0 0 0 0 0 entry sp0 ++ rest) (ctx_esp r.1, r.2).
Proof using Htramp Hrp.
  intros (H0 & H1 & H2) He Hu. cbv zeta. rewrite initial_stack_eq.
  rewrite (u32_small (kernel_stack_base t + kernel_stack_size t)) by lia.
  apply start_stacked; [lia|lia|done|destruct (uesp =? 0); [apply u32_range|done]|by destruct (uesp =? 0); cbn; lia|].
  destruct (uesp =? 0); [|apply stacked_nil]. apply stacked_push; [lia|cbn; lia|done|apply stacked_nil].
Qed.

Lemma stacked_store m top l a m1 i w :
  0 <= a -> top < 2 ^ 32 -> (i < length l)%nat -> is_u32 w ->
  stacked m top l (a, m1) -> stacked m top (<[i:=w]> l) (a, store_at a (Z.of_nat i) w m1).
Proof.
  intros Ha Ht Hi Hw [H1 H2 H3]. cbn [fst snd] in *. unfold store_at. rewrite u32_small by lia.
  split; cbn [fst snd].
  - by rewrite length_insert.
  - by apply words_store.
  - intros x Hx. rewrite store32_frame by lia. by apply H3.
Qed.

(** The registers that a system call saved are words. *)
Record saved_words (k : task_cpu_context) : Prop := {
  sv_eip : is_u32 (syscall_user_eip k); sv_esp : is_u32 (syscall_user_esp k);
  sv_edi : is_u32 (syscall_user_edi k); sv_esi : is_u32 (syscall_user_esi k); sv_ebp : is_u32 (syscall_user_ebp k);
  sv_ebx : is_u32 (syscall_user_ebx k); sv_edx : is_u32 (syscall_user_edx k); sv_ecx : is_u32 (syscall_user_ecx k) }.

Lemma fork_stack_words t p k m :
  room t -> saved_words p -> syscall_user_esp p <> 0 ->
  let r := fork_stack tramp rp t p k m in
  stacked m (kernel_stack_base t + kernel_stack_size t)
    (start_words rp (syscall_user_edi p) (syscall_user_esi p) (syscall_user_ebp p) (syscall_user_ebx p)
      (syscall_user_edx p) (syscall_user_ecx p) 0 (syscall_user_eip p) (syscall_user_esp p)) (ctx_esp r.1, r.2).
Proof using Htramp Hrp.
  intros R [] Hne. cbv zeta. unfold fork_stack.
  pose proof (initial_stack_user t (syscall_user_eip p) (syscall_user_esp p) k m R) as H. cbv zeta in H.
  rewrite (proj2 (Z.eqb_neq _ _) Hne), app_nil_r in H. specialize (H ltac:(done) ltac:(done)).
  destruct (task_setup_initial_stack _ _ _ _ _ _ _ _) as [k1 m1]. cbn [fst snd] in *.
  destruct R as (R0 & R1 & R2).
  assert (0 <= ctx_esp k1) as Ha. { pose proof (st_sp _ _ _ _ H) as E. cbn in E. lia. }
  generalize dependent (ctx_esp k1). intros a H Ha. clear k1.
  apply (stacked_store _ _ _ _ _ 5 (syscall_user_edi p)) in H; [|done|done|cbn; lia|done].
  apply (stacked_store _ _ _ _ _ 6 (syscall_user_esi p)) in H; [|done|done|cbn; lia|done].
  apply (stacked_store _ _ _ _ _ 7 (syscall_user_ebp p)) in H; [|done|done|cbn; lia|done].
  apply (stacked_store _ _ _ _ _ 9 (syscall_user_ebx p)) in H; [|done|done|cbn; lia|done].
  apply (stacked_store _ _ _ _ _ 10 (syscall_user_edx p)) in H; [|done|done|cbn; lia|done].
  apply (stacked_store _ _ _ _ _ 11 (syscall_user_ecx p)) in H; [|done|done|cbn; lia|done].
  exact H.
Qed.

(** C28: the child of a fork resumes where its parent called.  When a task has
    entered the kernel with the given words of its registers on its kernel stack
    and forks, then whenever the scheduler later switches to the child, with the
    child's kernel stack intact, the child starts in user mode after the system
    call with the registers, the program counter and the stack pointer of the
    parent, and with 0 as the result of the call. *)
Theorem fork_child_resumes frame m0 ax cx dx bx bp si di ip cs0 fl sp ss0 kp child kc ret ga gx gd c m old :
  words m0 frame [ax; cx; dx; bx; bp; si; di; ip; cs0; fl; sp; ss0] -> bytes m0 ->
  0 <= frame -> frame + 48 <= 2 ^ 32 -> sp <> 0 -> room child ->
  let p := task_save_syscall_user_context frame m0 kp in
  let r := fork_stack tramp rp child p kc m0 in
  let top := kernel_stack_base child + kernel_stack_size child in
  calls_switch c m old (ctx_esp r.1) ->
  (forall x, ctx_esp r.1 <= x < top -> m x = r.2 x) ->
  (esp c <= ctx_esp r.1 \/ top <= esp c - 16) ->
  (old = 0 \/ old + 4 <= ctx_esp r.1 \/ top <= old) ->
  let s := switch_to_stack (c, m) in
  eip s.1 = rp /\
  (task_switch_return_point ret ga gx gd s).1 = user_cpu di si bp bx dx cx 0 ip sp.
Proof using Htramp Hrp.
  intros W B F0 F1 Hsp R. cbv zeta.
  assert (forall a i w, [ax; cx; dx; bx; bp; si; di; ip; cs0; fl; sp; ss0] !! i = Some w ->
    a = frame + 4 * Z.of_nat i -> load32 m0 a = w) as L by (intros a i w Hi ->; by apply W).
  set (p := task_save_syscall_user_context frame m0 kp).
  assert (saved_words p) as Sv by (split; apply load32_u32, B).
  assert (p = mk_context (ctx_esp kp) ip sp ax cx dx bx bp si di frame) as Ep.
  { unfold p, task_save_syscall_user_context. rewrite !u32_small by lia. repeat load_from L. done. }
  assert (syscall_user_esp p <> 0) as Hne by (rewrite Ep; exact Hsp).
  pose proof (fork_stack_words child p kc m0 R Sv Hne) as H. cbv zeta in H.
  destruct (fork_stack tramp rp child p kc m0) as [k1 m1]. cbn [fst snd] in *.
  intros C Hm Hs Ho. destruct R as (R0 & R1 & R2).
  pose proof (st_sp _ _ _ _ H) as E. cbn [fst length start_words] in E.
  apply (task_starts _ _ old (ctx_esp k1) rp di si bp bx dx cx 0 ip sp []). rewrite app_nil_r.
  split; cbn [length start_words]; [done| |lia|lia|lia|lia].
  eapply words_frame; [|pose proof (st_words _ _ _ _ H) as Hw; rewrite Ep in Hw; exact Hw].
  intros x Hx. cbn [length start_words] in Hx. apply Hm. lia.
Qed.
End Initial.

(** ** Arguments *)

Definition total (ss : list (list Z)) : Z := foldr (fun s n => len s + 1 + n) 0 ss.

Lemma total_nonneg ss : 0 <= total ss.
Proof. induction ss as [|s ss IH]; cbn [total foldr]; [lia|]. fold (total ss). lia. Qed.

(** The string [s] at [p] lies outside of the addresses [lo] to [hi]. *)
Definition source (m : Z -> Z) (lo hi p : Z) (s : list Z) : Prop :=
  cstr m p s /\ (p + len s < lo \/ hi <= p).

Lemma source_frame m m' lo hi p s :
  (forall x, x < lo \/ hi <= x -> m' x = m x) -> source m lo hi p s -> source m' lo hi p s.
Proof. intros H [Hc Ha]. split; [|done]. eapply cstr_frame; [|done]. intros x Hx. apply H. lia. Qed.

Lemma copied_cstr m m' dst src s : copied m dst src 0 (len s + 1) m' -> cstr m src s -> cstr m' dst s.
Proof.
  intros C. assert (forall x, 0 <= x < len s + 1 -> m' (dst + x) = m (src + x)) as E.
  { intros x Hx. rewrite C, decide_True by lia. f_equal. lia. }
  clear C. revert dst src E. induction s as [|c s IH]; intros dst src E; cbn [cstr].
  - specialize (E 0 ltac:(cbn; lia)). rewrite !Z.add_0_r in E. by rewrite E.
  - rewrite len_cons in E. intros (H1 & H2 & H3). split; [|split; [done|]].
    + specialize (E 0 ltac:(lia)). rewrite !Z.add_0_r in E. by rewrite E.
    + apply (IH _ (src + 1)); [|done]. intros x Hx. replace (dst + 1 + x) with (dst + (1 + x)) by lia.
      rewrite E by lia. f_equal. lia.
Qed.

Lemma Forall2_both {A B} (P Q : A -> B -> Prop) l k :
  Forall2 P l k -> Forall2 Q l k -> Forall2 (fun a b => P a b /\ Q a b) l k.
Proof. intros HP. induction HP; intros HQ; inversion_clear HQ; constructor; auto. Qed.

(** What copying strings below [sp] leaves: the strings at the new addresses. *)
Record pushed_strings (m : Z -> Z) (sp : Z) (ss : list (list Z)) (ptrs : list Z) (sp' : Z) (m' : Z -> Z) : Prop := {
  ps_sp : sp' = sp - total ss;
  ps_cstr : Forall2 (cstr m') ptrs ss;
  ps_range : Forall2 (fun p s => sp' <= p /\ p + len s < sp) ptrs ss;
  ps_frame : forall x, x < sp' \/ sp <= x -> m' x = m x;
  ps_bytes : bytes m' }.

Lemma push_strings_spec fuel lo hi sp m strs ss :
  bytes m -> 0 <= lo -> sp <= hi -> hi < 2 ^ 32 -> lo <= sp - total ss ->
  Forall2 (source m lo hi) strs ss -> Forall (fun s => (length s < fuel)%nat) ss ->
  exists ptrs sp' m', push_strings fuel strs sp m = Some (ptrs, sp', m') /\ pushed_strings m sp ss ptrs sp' m'.
Proof.
  intros B H0 H1 H2 Hlo Hs Hf. induction Hs as [|p s strs ss Hp Hs IH].
  { exists [], sp, m. split; [done|]. split; cbn; [lia|constructor|constructor|done|done]. }
  cbn [total foldr] in Hlo. fold (total ss) in Hlo. apply Forall_cons in Hf as [Hf1 Hf2].
  pose proof (total_nonneg ss). pose proof (total_nonneg (s :: ss)).
  destruct IH as (ptrs & sp1 & m1 & E & [P1 P2 P3 P4 P5]); [lia|done|].
  cbn [push_strings]. rewrite E. cbn [mbind option_bind].
  assert (source m1 lo hi p s) as [Hc Ha]. { eapply source_frame; [|done]. intros x Hx. apply P4. lia. }
  rewrite (strlen_spec m1 p s fuel) by done. cbn [mbind option_bind].
  rewrite (u32_small (len s + 1)) by lia. rewrite (u32_small (sp1 - (len s + 1))) by lia.
  assert (copied m1 (sp1 - (len s + 1)) p 0 (len s + 1) (memcpy (sp1 - (len s + 1)) p (len s + 1) m1)) as C.
  { apply memcpy_correct; [done|lia|]. unfold fwd_safe. lia. }
  eexists _, _, _. split; [reflexivity|]. split.
  - cbn [total foldr]. fold (total ss). lia.
  - constructor; [by eapply copied_cstr|]. eapply Forall2_impl; [exact (Forall2_both _ _ _ _ P2 P3)|].
    intros q u [Hq [Hr Hr']]. eapply cstr_frame; [|exact Hq]. intros x Hx. rewrite C, decide_False by lia. done.
  - constructor; [lia|]. eapply Forall2_impl; [exact P3|]. cbn. intros q u ?. lia.
  - intros x Hx. rewrite C, decide_False by lia. apply P4. lia.
  - by eapply copied_bytes.
Qed.

Lemma stacked_pointers m top ptrs l s :
  top <= 2 ^ 32 -> 4 * Z.of_nat (length l) + 4 * Z.of_nat (length ptrs) <= top -> Forall is_u32 ptrs ->
  stacked m top l s -> stacked m top (ptrs ++ l) (push_pointers ptrs s).
Proof.
  intros Ht Hl Hp S. induction Hp as [|p ptrs Hp Hps IH]; [done|]. cbn [push_pointers app length] in *.
  apply stacked_push; [done|rewrite length_app; lia|done|]. apply IH. lia.
Qed.

Lemma ptrs_u32 sp sp' ptrs (ss : list (list Z)) :
  0 <= sp' -> sp < 2 ^ 32 -> Forall2 (fun p s => sp' <= p /\ p + len s < sp) ptrs ss -> Forall is_u32 ptrs.
Proof.
  intros H0 H1 H. induction H as [|p s ptrs ss Hp _ IH]; constructor; [unfold is_u32; lia|done].
Qed.

(** The words on the stack of a new program. *)
Definition args_words (aptrs eptrs : list Z) : list Z :=
  Z.of_nat (length aptrs) :: aptrs ++ 0 :: eptrs ++ [0].

Lemma push_args_stacked m top aptrs eptrs :
  top < 2 ^ 32 -> 4 * Z.of_nat (length (args_words aptrs eptrs)) <= top -> Forall is_u32 aptrs -> Forall is_u32 eptrs ->
  stacked m top (args_words aptrs eptrs)
    (stack_push (u32 (Z.of_nat (length aptrs))) (push_pointers aptrs (stack_push 0 (push_pointers eptrs (stack_push 0 (top, m)))))).
Proof.
  unfold args_words. intros Ht Hl Ha He. cbn [length] in Hl. rewrite length_app in Hl. cbn [length] in Hl.
  rewrite length_app in Hl. cbn [length] in Hl. rewrite (u32_small (Z.of_nat _)) by lia.
  assert (is_u32 0) by (unfold is_u32; lia).
  apply stacked_push; [lia|rewrite length_app; cbn [length]; rewrite length_app; cbn [length]; lia|unfold is_u32; lia|].
  apply stacked_pointers; [lia|cbn [length]; rewrite length_app; cbn [length]; lia|done|].
  apply stacked_push; [lia|rewrite length_app; cbn [length]; lia|done|].
  apply stacked_pointers; [lia|cbn [length]; lia|done|].
  apply stacked_push; [lia|cbn; lia|done|apply stacked_nil].
Qed.

(** The room that arguments take on the stack. *)
Definition args_size (av ev : list (list Z)) : Z :=
  total av + total ev + 3 + 4 * (Z.of_nat (length av) + Z.of_nat (length ev) + 3).

(** A program finds its arguments.  After [task_push_args] the stack pointer
    is a multiple of 4 and points to [argc], followed by the [argc] pointers of
    [argv] and a null pointer, then by the pointers of [envp] and a null pointer;
    each pointer is the address of a copy of the string it stands for; and nothing
    outside of the new part of the stack has changed. *)
Theorem task_push_args_correct fuel top argv envp av ev m :
  bytes m -> args_size av ev <= top < 2 ^ 32 ->
  Forall2 (source m (top - args_size av ev) top) argv av ->
  Forall2 (source m (top - args_size av ev) top) envp ev ->
  Forall (fun s => (length s < fuel)%nat) (av ++ ev) ->
  exists sp m' aptrs eptrs,
    task_push_args fuel top argv envp m = Some (sp, m') /\
    sp mod 4 = 0 /\ top - args_size av ev <= sp /\
    words m' sp (args_words aptrs eptrs) /\
    Forall2 (cstr m') aptrs av /\ Forall2 (cstr m') eptrs ev /\
    (forall x, x < sp \/ top <= x -> m' x = m x).
Proof.
  intros B [Hsz Ht] Ha He Hf. apply Forall_app in Hf as [Hfa Hfe].
  pose proof (total_nonneg av). pose proof (total_nonneg ev). unfold task_push_args.
  remember (top - args_size av ev) as lo eqn:Hlo. unfold args_size in Hsz, Hlo.
  destruct (push_strings_spec fuel lo top top m envp ev B ltac:(lia) (Z.le_refl top) Ht ltac:(lia) He Hfe)
    as (eptrs & sp1 & m1 & -> & [E1 E2 E3 E4 E5]). cbn [mbind option_bind].
  assert (Forall2 (source m1 lo top) argv av) as Ha1.
  { eapply Forall2_impl; [exact Ha|]. intros p s. apply source_frame. intros x Hx. apply E4. lia. }
  destruct (push_strings_spec fuel lo top sp1 m1 argv av E5 ltac:(lia) ltac:(lia) Ht ltac:(lia) Ha1 Hfa)
    as (aptrs & sp2 & m2 & -> & [A1 A2 A3 A4 A5]). cbn [mbind option_bind].
  rewrite (land_mask 2) by lia. change (2 ^ 2) with 4. set (top' := 4 * (sp2 / 4)).
  assert (sp2 - 3 <= top' <= sp2) as Htop by (unfold top'; dlia).
  assert (top' mod 4 = 0) as Hmod by (unfold top'; rewrite Z.mul_comm; apply Z.mod_mul; lia). clearbody top'.
  assert (length argv = length aptrs) as Lv by (rewrite (Forall2_length _ _ _ A2); exact (Forall2_length _ _ _ Ha)).
  pose proof (Forall2_length _ _ _ A2) as La. pose proof (Forall2_length _ _ _ E2) as Le. rewrite Lv.
  assert (Z.of_nat (length (args_words aptrs eptrs)) = Z.of_nat (length av) + Z.of_nat (length ev) + 3) as Hlen.
  { unfold args_words. cbn [length]. rewrite length_app. cbn [length]. rewrite length_app. cbn [length]. lia. }
  pose proof (push_args_stacked m2 top' aptrs eptrs ltac:(lia) ltac:(lia)
    (ptrs_u32 sp1 sp2 aptrs av ltac:(lia) ltac:(lia) A3) (ptrs_u32 top sp1 eptrs ev ltac:(lia) ltac:(lia) E3)) as S.
  destruct (stack_push _ (push_pointers _ _)) as [sp m']. destruct S as [S1 S2 S3]. cbn [fst snd] in *.
  exists sp, m', aptrs, eptrs. split; [done|]. split; [dlia|]. split; [lia|]. split; [done|]. split; [|split].
  - eapply Forall2_impl; [exact (Forall2_both _ _ _ _ A2 A3)|]. intros p s [Hc Hr].
    eapply cstr_frame; [|exact Hc]. intros x Hx. apply S3. lia.
  - eapply Forall2_impl; [exact (Forall2_both _ _ _ _ E2 E3)|]. intros p s [Hc Hr].
    eapply cstr_frame; [|exact Hc]. intros x Hx. rewrite S3 by lia. apply A4. lia.
  - intros x Hx. rewrite S3, A4, E4 by lia. done.
Qed.

(** ** Examples *)

Definition demo_cpu (sp : Z) : cpu := mk_cpu 1 2 3 4 sp 6 7 8 9 8 0x202 0x10 0x10 0x10 0x10 0x10.

(** A call of [switch_to_stack(5000, 2000)] from the stack at 1000, then one of
    [switch_to_stack(NULL, 984)] from the stack at 3000. *)
Definition demo_call : Z -> Z := store32 (store32 (store32 (fun _ => 0) 1000 77) 1004 5000) 1008 2000.
Definition demo_switched : Z -> Z := store32 (switch_to_stack (demo_cpu 1000, demo_call)).2 3008 984.

Lemma context_switch_roundtrip_witness :
  let c3 := (switch_to_stack (demo_cpu 3000, demo_switched)).1 in eip c3 = 77 /\ esp c3 = 1004 /\ ebx c3 = 4.
Proof.
  assert (calls_switch (demo_cpu 1000) demo_call 5000 2000) as C0.
  { split; cbn [esp demo_cpu]; [lia|lia|by vm_compute|by vm_compute|by vm_compute|right; lia]. }
  assert (calls_switch (demo_cpu 3000) demo_switched 0 (load32 (switch_to_stack (demo_cpu 1000, demo_call)).2 5000)) as C2.
  { split; cbn [esp demo_cpu]; [lia|lia|by vm_compute|by vm_compute|by vm_compute|by left]. }
  destruct (context_switch_roundtrip (demo_cpu 1000) demo_call 5000 2000 (demo_cpu 3000) demo_switched 0
    C0 ltac:(lia) C2) as (E1 & E2 & E3 & _).
  - intros x Hx. apply store32_frame. cbn in Hx. lia.
  - cbn. lia.
  - by left.
  - split; [rewrite E1; by vm_compute|]. split; [rewrite E2; by vm_compute|]. exact E3.
Defined.

(** A system call with the words 100 to 111 on the kernel stack at 9000, and a child
    with the kernel stack 10000 to 11000. *)
Definition demo_frame : Z -> Z := (push_all [111; 110; 109; 108; 107; 106; 105; 104; 103; 102; 101; 100] (9048, fun _ => 0)).2.
Definition demo_stacks : stacks := mk_stacks 10000 1000 0x3FFFD000 0x2000.
Definition demo_context : task_cpu_context := mk_context 0 0 0 0 0 0 0 0 0 0 0.
Definition demo_fork : task_cpu_context * (Z -> Z) :=
  fork_stack 50 60 demo_stacks (task_save_syscall_user_context 9000 demo_frame demo_context) demo_context demo_frame.
Definition demo_fork_mem : Z -> Z := store32 demo_fork.2 3008 (ctx_esp demo_fork.1).

Lemma demo_frame_words : words demo_frame 9000 [100; 101; 102; 103; 104; 105; 106; 107; 108; 109; 110; 111].
Proof. repeat (apply words_cons; split; [by vm_compute|]). apply words_nil. Qed.

Lemma demo_frame_bytes : bytes demo_frame.
Proof. unfold demo_frame, push_all. cbn [foldl]. by do 12 apply store32_bytes. Qed.

Lemma fork_child_resumes_witness :
  (task_switch_return_point 0 1 2 3 (switch_to_stack (demo_cpu 3000, demo_fork_mem))).1 =
    user_cpu 106 105 104 103 102 101 0 107 110.
Proof.
  apply (fork_child_resumes 50 60 ltac:(by vm_compute) ltac:(by vm_compute) 9000 demo_frame
    100 101 102 103 104 105 106 107 108 109 110 111 demo_context demo_stacks demo_context 0 1 2 3
    (demo_cpu 3000) demo_fork_mem 0).
  - exact demo_frame_words.
  - exact demo_frame_bytes.
  - lia.
  - lia.
  - lia.
  - by vm_compute.
  - split; cbn [esp demo_cpu]; [lia|lia|by vm_compute|by vm_compute|by vm_compute|by left].
  - intros x Hx. apply store32_frame. assert (ctx_esp demo_fork.1 = 10904) as E by by vm_compute.
    assert (10904 <= x) by (rewrite <- E; apply Hx). lia.
  - left. by vm_compute.
  - by left.
Defined.

(** The arguments [a] and [bc] and no environment. *)
Definition demo_args : Z -> Z := put (put (fun _ => 0) 100 [97]) 200 [98; 99].

Lemma task_push_args_correct_witness :
  exists sp m' aptrs eptrs, task_push_args 10 9000 [100; 200] [] demo_args = Some (sp, m') /\
    words m' sp (args_words aptrs eptrs) /\ Forall2 (cstr m') aptrs [[97]; [98; 99]].
Proof.
  destruct (task_push_args_correct 10 9000 [100; 200] [] [[97]; [98; 99]] [] demo_args)
    as (sp & m' & aptrs & eptrs & E & _ & _ & W & A & _).
  - intros x. unfold demo_args. cbn [put]. rewrite !upd_cases. repeat case_decide; lia.
  - by vm_compute.
  - repeat constructor; try (by vm_compute); cbn; lia.
  - constructor.
  - repeat constructor; cbn; lia.
  - exists sp, m', aptrs, eptrs. split; [exact E|]. split; [exact W|exact A].
Defined.
