(* ===== verification/Elf.v ===== *)
(** The ELF loader: a model of [validate.c], [parse.c] and [load_segments.c] of
    [src/kernel/kernel/elf], and of the bookkeeping that [task_exec] and
    [elf_create_task] do with a loaded image.

    The file is read from the memory, a store of bytes by virtual address in the
    active page directory; pages are mapped in the page tables of Paging. *)

From S2P Require Import Prelude Pmm Paging Vmm CMem.
From Stdlib Require Import ZArith Lia Bool.
From stdpp Require Import base tactics numbers list.
Open Scope Z_scope.

Definition load16 (m : Z -> Z) (a : Z) : Z := m a + 2 ^ 8 * m (a + 1).

(** ** The file format *)

Definition ELF_OBJ_TYPE_EXEC : Z := 2.
Definition ELF_OBJ_TYPE_DYN : Z := 3.
Definition ELF_OBJ_MACHINE_X86 : Z := 3.
Definition ELF_SEGMENT_TYPE_NULL : Z := 0.
Definition ELF_SEGMENT_TYPE_LOAD : Z := 1.
Definition ELF_SEGMENT_TYPE_DYNAMIC : Z := 2.
Definition ELF_SEGMENT_TYPE_INTERP : Z := 3.
Definition ELF_SEGMENT_TYPE_NOTE : Z := 4.
Definition ELF_SEGMENT_FLAGS_WRITE : Z := 2.
Definition ELF_SECTION_TYPE_NULL : Z := 0.

(** The header fields the loader uses, at their offsets in [elf_header_32bit_t]. *)
Definition magic (m : Z -> Z) (addr i : Z) : Z := m (addr + i).
Definition elf_class (m : Z -> Z) (addr : Z) : Z := m (addr + 4).
Definition endianness (m : Z -> Z) (addr : Z) : Z := m (addr + 5).
Definition version (m : Z -> Z) (addr : Z) : Z := m (addr + 6).
Definition obj_type (m : Z -> Z) (addr : Z) : Z := load16 m (addr + 16).
Definition machine (m : Z -> Z) (addr : Z) : Z := load16 m (addr + 18).
Definition entrypoint (m : Z -> Z) (addr : Z) : Z := load32 m (addr + 24).
Definition pht_pointer (m : Z -> Z) (addr : Z) : Z := load32 m (addr + 28).
Definition sht_pointer (m : Z -> Z) (addr : Z) : Z := load32 m (addr + 32).
Definition pht_entry_size (m : Z -> Z) (addr : Z) : Z := load16 m (addr + 42).
Definition pht_num (m : Z -> Z) (addr : Z) : Z := load16 m (addr + 44).
Definition sht_entry_size (m : Z -> Z) (addr : Z) : Z := load16 m (addr + 46).
Definition sht_num (m : Z -> Z) (addr : Z) : Z := load16 m (addr + 48).

(** [elf_program_header_32bit_t] *)
Record program_header := mk_pht {
  p_type : Z; p_offset : Z; p_vaddr : Z; p_paddr : Z; p_filesz : Z; p_memsz : Z; p_flags : Z; p_align : Z }.

Definition read_pht (m : Z -> Z) (a : Z) : program_header :=
  mk_pht (load32 m a) (load32 m (a + 4)) (load32 m (a + 8)) (load32 m (a + 12)) (load32 m (a + 16))
    (load32 m (a + 20)) (load32 m (a + 24)) (load32 m (a + 28)).

(** [addr + header->pht_pointer + (header->pht_entry_size * phti)], and the same for sections. *)
Definition pht_at (m : Z -> Z) (addr phti : Z) : Z := u32 (addr + pht_pointer m addr + u32 (pht_entry_size m addr * phti)).
Definition sht_at (m : Z -> Z) (addr shti : Z) : Z := u32 (addr + sht_pointer m addr + u32 (sht_entry_size m addr * shti)).

(** ** Validation *)

(** The types that the two switches know; entries of type NULL are skipped. *)
Definition pht_type_ok (t : Z) : bool := (0 <=? t) && (t <=? ELF_SEGMENT_TYPE_NOTE).
Definition sht_type_ok (t : Z) : bool := (0 <=? t) && (t <=? 0x0B) || (0x0E <=? t) && (t <=? 0x13).

Definition elf_validate (m : Z -> Z) (addr : Z) : bool :=
  if negb (magic m addr 0 =? 0x7F) || negb (magic m addr 1 =? 0x45)
     || negb (magic m addr 2 =? 0x4C) || negb (magic m addr 3 =? 0x46) then false else
  if negb (elf_class m addr =? 1) then false else
  if negb (endianness m addr =? 1) then false else
  if negb (version m addr =? 1) then false else
  if negb (machine m addr =? ELF_OBJ_MACHINE_X86) then false else
  if negb (obj_type m addr =? ELF_OBJ_TYPE_EXEC) then false else
  let pht_invalid := for_loop (pht_num m addr) (fun phti bad =>
    if pht_type_ok (load32 m (pht_at m addr phti)) then bad else true) false in
  let sht_invalid := for_loop (sht_num m addr) (fun shti bad =>
    if sht_type_ok (load32 m (sht_at m addr shti + 4)) then bad else true) false in
  if pht_invalid || sht_invalid then false else true.

(** ** Parsing *)

Record elf_segment := mk_segment { s_vaddr : Z; s_memsz : Z; s_filesz : Z; s_offset : Z; s_page_flags : Z }.

(** [segments] holds the first [segment_count] entries of the array. *)
Record elf := mk_elf {
  success : bool; entry_point : Z; min_vaddr : Z; max_vaddr : Z; segments : list elf_segment }.

Definition MAX_SEGMENTS : nat := 32.

Definition segment_of (pht : program_header) : elf_segment :=
  mk_segment (p_vaddr pht) (p_memsz pht) (p_filesz pht) (p_offset pht)
    (if Z.land (p_flags pht) ELF_SEGMENT_FLAGS_WRITE =? 0 then Z.lor PAGE_PRESENT PAGE_USER
     else Z.lor (Z.lor PAGE_PRESENT PAGE_USER) PAGE_WRITE).

(** One round of the loop.  [None] is a write past the end of [segments]. *)
Definition parse_pht (pht : program_header) (e : elf) : option elf :=
  if negb (p_type pht =? ELF_SEGMENT_TYPE_LOAD) then Some e else
  if (MAX_SEGMENTS <=? length (segments e))%nat then None else
  let fin := u32 (p_vaddr pht + p_memsz pht) in
  Some (mk_elf (success e) (entry_point e)
    (if p_vaddr pht <? min_vaddr e then p_vaddr pht else min_vaddr e)
    (if max_vaddr e <? fin then fin else max_vaddr e)
    (segments e ++ [segment_of pht])).

Fixpoint parse_phts (phts : list program_header) (e : elf) : option elf :=
  match phts with
  | [] => Some e
  | pht :: phts => e ← parse_pht pht e; parse_phts phts e
  end.

Definition program_headers (m : Z -> Z) (addr : Z) : list program_header :=
  (fun i => read_pht m (pht_at m addr i)) <$> seqZ 0 (pht_num m addr).

Definition elf_parse (m : Z -> Z) (addr : Z) : option elf :=
  if negb (elf_validate m addr) then Some (mk_elf false 0 0 0 []) else
  e ← parse_phts (program_headers m addr) (mk_elf false (entrypoint m addr) (2 ^ 32 - 1) 0 []);
  Some (mk_elf true (entry_point e) (min_vaddr e) (max_vaddr e) (segments e)).

(** ** Loading *)

Record loader := mk_loader { l_mmu : mmu; l_mem : Z -> Z }.

Definition in_userspace (addr : Z) : bool := addr <? VMM_USER_END.
Definition PAGE_ALIGN_DOWN (addr : Z) : Z := Z.land addr (u32 (Z.lnot (PAGE_SIZE - 1))).

(** The contents of the page at [vaddr]: the part of the file that belongs there, then zeros. *)
Definition fill_page (elf_data : Z) (segment : elf_segment) (vaddr : Z) (m : Z -> Z) : Z -> Z :=
  let page_offset := u32 (vaddr - s_vaddr segment) in
  if page_offset <? s_filesz segment then
    let bytes_to_copy := if s_filesz segment <? u32 (page_offset + PAGE_SIZE)
                         then u32 (s_filesz segment - page_offset) else PAGE_SIZE in
    let m := memcpy vaddr (u32 (elf_data + s_offset segment + page_offset)) bytes_to_copy m in
    if bytes_to_copy <? PAGE_SIZE then memset (u32 (vaddr + bytes_to_copy)) 0 (PAGE_SIZE - bytes_to_copy) m else m
  else memset vaddr 0 PAGE_SIZE m.

Definition load_page (elf_data : Z) (segment : elf_segment) (vaddr : Z) (s : loader) : bool * loader :=
  if paging_is_mapped vaddr (l_mmu s) then (false, s) else
  let '(phys, p) := pmm_alloc_page (pm (l_mmu s)) in
  let m := set_pm p (l_mmu s) in
  if phys =? 0 then (false, mk_loader m (l_mem s)) else
  let load_flags := Z.lor (s_page_flags segment) PAGE_WRITE in
  let '(ok, m) := paging_map_page vaddr phys load_flags m in
  if negb ok then (false, mk_loader (set_pm (pmm_free_page phys (pm m)) m) (l_mem s)) else
  let mem := fill_page elf_data segment vaddr (l_mem s) in
  let m := if Z.land (s_page_flags segment) PAGE_WRITE =? 0
           then (paging_map_page vaddr phys (s_page_flags segment) m).2 else m in
  (true, mk_loader m mem).

(** The pages from [vaddr] on; the first that fails ends the load. *)
Fixpoint load_pages (n : nat) (elf_data : Z) (segment : elf_segment) (vaddr : Z) (s : loader) : bool * loader :=
  match n with
  | O => (true, s)
  | S n =>
      let '(ok, s) := load_page elf_data segment vaddr s in
      if negb ok then (false, s) else load_pages n elf_data segment (u32 (vaddr + PAGE_SIZE)) s
  end.

Definition load_segment (elf_data : Z) (segment : elf_segment) (s : loader) : bool * loader :=
  let vaddr_start := PAGE_ALIGN_DOWN (s_vaddr segment) in
  let vaddr_end := PAGE_ALIGN_UP (u32 (s_vaddr segment + s_memsz segment)) in
  let num_pages := u32 (vaddr_end - vaddr_start) / PAGE_SIZE in
  load_pages (Z.to_nat num_pages) elf_data segment vaddr_start s.

Fixpoint load_all (elf_data : Z) (segs : list elf_segment) (s : loader) : bool * loader :=
  match segs with
  | [] => (true, s)
  | segment :: segs =>
      let '(ok, s) := load_segment elf_data segment s in
      if negb ok then (false, s) else load_all elf_data segs s
  end.

Definition segment_in_userspace (segment : elf_segment) : bool :=
  in_userspace (s_vaddr segment) && in_userspace (u32 (s_vaddr segment + s_memsz segment)).

Definition elf_load_segments (elf_data : Z) (parsed : elf) (s : loader) : bool * loader :=
  if negb (in_userspace (entry_point parsed)) then (false, s) else
  if negb (forallb segment_in_userspace (segments parsed)) then (false, s) else
  load_all elf_data (segments parsed) s.

(** ** The image of a task *)

Definition MIN_HEAP_STACK_GAP : Z := 1024 * 1024.

(** [start], [end] and flags of a [task_memory_region_t]; the heap bounds. *)
Record image := mk_image {
  memory_regions : list (Z * Z * Z); heap_start : Z; heap_end : Z; heap_max : Z }.

Definition segment_region (seg : elf_segment) : Z * Z * Z :=
  (PAGE_ALIGN_DOWN (s_vaddr seg), PAGE_ALIGN_UP (u32 (s_vaddr seg + s_memsz seg)), s_page_flags seg).

(** [task_exec]: the regions of the old image are freed, the heap is reset. *)
Definition exec_image (parsed : elf) (user_stack_base : Z) : image :=
  let start := PAGE_ALIGN_UP (max_vaddr parsed) in
  mk_image (segment_region <$> segments parsed) start start (u32 (user_stack_base - MIN_HEAP_STACK_GAP)).

(** [elf_create_task] does the same, but refuses an image that leaves no heap. *)
Definition create_image (parsed : elf) (user_stack_base : Z) : option image :=
  let i := exec_image parsed user_stack_base in
  if heap_max i <=? heap_start i then None else Some i.
