(* ===== verification/ElfSpec.v ===== *)
(** Theorems on the ELF loader: what a loaded image contains and how it is
    mapped, what parsing yields, and where the heap starts. *)

From S2P Require Import Prelude Pmm PmmMeta PmmInv PmmSteps PmmAlloc PmmFree PmmProps PmmInit PmmSpec Frames Paging PagingProps PagingSpec Vmm VmmMap CMem Elf.
From Stdlib Require Import ZArith Lia Bool.
From stdpp Require Import base tactics numbers list.
Open Scope Z_scope.

(** ** The contents of a page *)

(** A segment that the loader can be given: its file part lies in the file at
    [data], which is kernel memory, and neither the file nor the segment wraps around. *)
Record segment_ok (data : Z) (seg : elf_segment) : Prop := {
  so_vaddr : 0 <= s_vaddr seg; so_memsz : 0 <= s_memsz seg; so_filesz : 0 <= s_filesz seg; so_offset : 0 <= s_offset seg;
  so_end : s_vaddr seg + s_memsz seg < 2 ^ 32;
  so_data : VMM_USER_END <= data; so_file : data + s_offset seg + s_filesz seg < 2 ^ 32;
  so_flags : s_page_flags seg = 5 \/ s_page_flags seg = 7 }.

(** The byte at the address [x] of a segment of the file at [data] in [m].  When
    the segment does not start at a page boundary, its first page is zero. *)
Definition image_byte (m : Z -> Z) (data : Z) (seg : elf_segment) (x : Z) : Z :=
  if decide (s_vaddr seg <= 4096 * (x / 4096) /\ x - s_vaddr seg < s_filesz seg)
  then m (data + s_offset seg + (x - s_vaddr seg)) else 0.

Lemma fill_page_spec data seg q m :
  bytes m -> segment_ok data seg -> 0 <= q -> 4096 * q + 4096 <= VMM_USER_END -> s_vaddr seg < 4096 * q + 4096 ->
  forall x, fill_page data seg (4096 * q) m x =
    if decide (x / 4096 = q) then image_byte m data seg x else m x.
Proof.
  intros B [Hv Hm Hf Ho He Hd Hfe Hfl] Hq Hqe Hst x. unfold VMM_USER_END in *. unfold fill_page, PAGE_SIZE, image_byte.
  assert (x / 4096 = q <-> 4096 * q <= x < 4096 * q + 4096) as Hx by (split; [intros <-|intros]; dlia).
  destruct (decide (s_vaddr seg <= 4096 * q)) as [Hle|Hlt].
  - rewrite (u32_small (4096 * q - s_vaddr seg)) by lia.
    destruct (Z.ltb_spec (4096 * q - s_vaddr seg) (s_filesz seg)) as [Hin|Hout].
    + rewrite (u32_small (data + s_offset seg + (4096 * q - s_vaddr seg))) by lia.
      rewrite (u32_small (4096 * q - s_vaddr seg + 4096)) by lia.
      set (n := if s_filesz seg <? _ then _ else 4096).
      assert (n = Z.min 4096 (s_filesz seg - (4096 * q - s_vaddr seg))) as Hn.
      { unfold n. destruct (Z.ltb_spec (s_filesz seg) (4096 * q - s_vaddr seg + 4096)); [rewrite u32_small by lia|]; lia. }
      clearbody n. set (src := data + s_offset seg + (4096 * q - s_vaddr seg)).
      assert (copied m (4096 * q) src 0 n (memcpy (4096 * q) src n m)) as C.
      { apply memcpy_correct; [done|lia|]. unfold fwd_safe, src. lia. }
      assert (forall y, (if n <? 4096 then memset (u32 (4096 * q + n)) 0 (4096 - n) (memcpy (4096 * q) src n m)
        else memcpy (4096 * q) src n m) y =
        if decide (4096 * q + n <= y < 4096 * q + 4096) then 0 else memcpy (4096 * q) src n m y) as E.
      { intros y. destruct (Z.ltb_spec n 4096).
        - rewrite u32_small by lia. rewrite (memset_correct (4096 * q + n) 0 (4096 - n)) by lia.
          replace (4096 * q + n + (4096 - n)) with (4096 * q + 4096) by lia. done.
        - by rewrite decide_False by lia. }
      rewrite E, C. unfold src. repeat case_decide; try lia; f_equal; lia.
    + rewrite (memset_correct (4096 * q) 0 4096) by lia. repeat case_decide; try lia; done.
  - assert (u32 (4096 * q - s_vaddr seg) = 4096 * q - s_vaddr seg + 2 ^ 32) as ->.
    { unfold u32. symmetry. apply (Z.mod_unique _ _ (-1)); lia. }
    replace (_ <? s_filesz seg) with false by lia.
    rewrite (memset_correct (4096 * q) 0 4096) by lia. repeat case_decide; try lia; done.
Qed.

(** ** Mapping *)

Section Load.
Context (R : (Z -> list Z) -> Prop) `{!block_stable R}.
Context (data : Z).

Definition writable (seg : elf_segment) : bool := negb (Z.land (s_page_flags seg) PAGE_WRITE =? 0).

(** The page [q] is mapped for user code, writable or not. *)
Definition user_page (m : mmu) (q : Z) (w : bool) : Prop :=
  exists e, (forall v, v / 4096 = q -> leaf m v = Some e) /\ Z.testbit e PTE_USER = true /\ Z.testbit e PTE_RW = w.

(** Loading the pages of [P] for [seg] has turned [s] into [s']. *)
Record loaded (seg : elf_segment) (P : Z -> Prop) (s s' : loader) : Prop := {
  ld_inv : paging_inv R (l_mmu s');
  ld_bytes : bytes (l_mem s');
  ld_new q : P q -> leaf (l_mmu s) (4096 * q) = None;
  ld_map q : P q -> user_page (l_mmu s') q (writable seg);
  ld_other v : 0 <= v < 2 ^ 32 -> ~ P (v / 4096) -> leaf (l_mmu s') v = leaf (l_mmu s) v;
  ld_mem x : P (x / 4096) -> l_mem s' x = image_byte (l_mem s) data seg x;
  ld_mem_other x : ~ P (x / 4096) -> l_mem s' x = l_mem s x }.

Lemma flags_ok seg : segment_ok data seg ->
  Z.land (s_page_flags seg) PAGE_PRESENT <> 0 /\ Z.land (Z.lor (s_page_flags seg) PAGE_WRITE) PAGE_PRESENT <> 0 /\
  negb (Z.land (s_page_flags seg) PAGE_USER =? 0) = true /\
  negb (Z.land (Z.lor (s_page_flags seg) PAGE_WRITE) PAGE_USER =? 0) = true /\
  negb (Z.land (Z.lor (s_page_flags seg) PAGE_WRITE) PAGE_WRITE =? 0) = true.
Proof. intros H. destruct (so_flags _ _ H) as [-> | ->]; by vm_compute. Qed.

(** A page is mapped with the flags; the rest keeps its entries. *)
Lemma map_user_page m q phys flags :
  paging_inv R m -> page_no q -> 0 <= phys < 2 ^ 32 ->
  Z.land flags PAGE_PRESENT <> 0 -> negb (Z.land flags PAGE_USER =? 0) = true ->
  let '(ok, m') := paging_map_page (4096 * q) phys flags m in
  paging_inv R m' /\
  (ok = true -> user_page m' q (negb (Z.land flags PAGE_WRITE =? 0)) /\
     forall v, 0 <= v < 2 ^ 32 -> v / 4096 <> q -> leaf m' v = leaf m v).
Proof using block_stable0.
  intros I Pq Hph Hp Hu. pose proof (page_addr q Pq) as Hq.
  pose proof (map_page_spec R m (4096 * q) phys flags I Hq Hph Hp) as H1.
  pose proof (map_page_leaf R m (4096 * q) phys flags I Hq Hph Hp) as H2.
  destruct (paging_map_page _ _ _ _) as [ok m']. destruct H1 as (I' & _). destruct H2 as [old L].
  split; [done|]. intros ->. cbn [andb] in L. rewrite page_div in L. split.
  - exists (map_entry flags (4096 * (phys / 4096)) old). split; [|by rewrite map_entry_user, map_entry_rw].
    intros v Hv. rewrite L, bool_decide_true by (done || unfold page_no in Pq; dlia). done.
  - intros v Hv Hne. by rewrite L, bool_decide_false.
Qed.

Lemma load_page_spec seg q s s' :
  paging_inv R (l_mmu s) -> bytes (l_mem s) -> segment_ok data seg ->
  0 <= q -> 4096 * q + 4096 <= VMM_USER_END -> s_vaddr seg < 4096 * q + 4096 ->
  load_page data seg (4096 * q) s = (true, s') -> loaded seg (eq q) s s'.
Proof using block_stable0.
  intros I B So Hq Hqe Hst. destruct (flags_ok seg So) as (F1 & F2 & F3 & F4 & F5).
  assert (page_no q) as Pq by (unfold page_no; unfold VMM_USER_END in Hqe; lia). pose proof (page_addr q Pq) as Ha.
  unfold load_page. rewrite (is_mapped_spec R (l_mmu s) (4096 * q) I Ha), translate_leaf.
  destruct (leaf (l_mmu s) (4096 * q)) eqn:Hnew; [done|]. cbn [fmap option_fmap option_map].
  rewrite bool_decide_false by (by intros [? ?]).
  pose proof (take_frame R (l_mmu s) I) as Tk. destruct (pmm_alloc_page (pm (l_mmu s))) as [phys p].
  destruct Tk as [[-> _]|(f & -> & Hf & _ & I1 & _)]; [done|].
  replace (4096 * f =? 0) with false by lia.
  pose proof (map_user_page (set_pm p (l_mmu s)) q (4096 * f) _ I1 Pq ltac:(lia) F2 F4) as M1.
  destruct (paging_map_page _ _ _ _) as [[|] m1]; [|done]. cbn [negb]. destruct M1 as [I2 M1].
  destruct (M1 eq_refl) as [U1 L1]. clear M1. rewrite F5 in U1.
  pose proof (fill_page_spec data seg q (l_mem s) B So Hq Hqe Hst) as Fill.
  assert (bytes (fill_page data seg (4096 * q) (l_mem s))) as B'.
  { intros x. rewrite Fill. unfold image_byte. repeat case_decide; (apply B || lia). }
  intros [= <-]. cbn [l_mmu l_mem].
  assert (exists m2, (if Z.land (s_page_flags seg) PAGE_WRITE =? 0 then
      (paging_map_page (4096 * q) (4096 * f) (s_page_flags seg) m1).2 else m1) = m2 /\ paging_inv R m2 /\
      user_page m2 q (writable seg) /\ forall v, 0 <= v < 2 ^ 32 -> v / 4096 <> q -> leaf m2 v = leaf (l_mmu s) v)
    as (m2 & -> & I3 & U2 & L2).
  { unfold writable. destruct (Z.land (s_page_flags seg) PAGE_WRITE =? 0) eqn:Ew; [|by exists m1].
    pose proof (map_page_again R m1 (4096 * q) (4096 * f) (s_page_flags seg) I2 Ha) as Ok.
    rewrite page_div in Ok. destruct U1 as (e & Ue & _). rewrite Ue in Ok by apply page_div. specialize (Ok ltac:(done)).
    pose proof (map_user_page m1 q (4096 * f) _ I2 Pq ltac:(lia) F1 F3) as M2.
    destruct (paging_map_page _ _ _ m1) as [ok m2]. cbn [fst snd] in *. subst ok. destruct M2 as [I3 M2].
    destruct (M2 eq_refl) as [U2 L2]. exists m2. split; [done|]. split; [done|]. split; [by rewrite Ew in U2|].
    intros v Hv Hne. rewrite L2, L1 by done. done. }
  split; cbn [l_mmu l_mem]; [done|done|by intros ? <-|by intros ? <-| | |].
  - intros v Hv Hne. apply L2; [done|]. intros E. by apply Hne.
  - intros x E. by rewrite Fill, decide_True.
  - intros x Hne. rewrite Fill, decide_False; [done|]. intros E. by apply Hne.
Qed.

Lemma image_byte_frame m m' seg x :
  segment_ok data seg -> (forall y, VMM_USER_END <= y -> m' y = m y) -> image_byte m' data seg x = image_byte m data seg x.
Proof.
  intros [] H. unfold image_byte. case_decide as E; [|done]. apply H. unfold VMM_USER_END in *.
  assert (4096 * (x / 4096) <= x) by dlia. lia.
Qed.

(** Pages of the user part of the address space. *)
Definition user_pages (P : Z -> Prop) : Prop := forall q, P q -> 0 <= q < 2 ^ 18.

Lemma loaded_kernel seg P s s' y :
  loaded seg P s s' -> user_pages P -> VMM_USER_END <= y -> l_mem s' y = l_mem s y.
Proof.
  intros L U Hy. apply (ld_mem_other _ _ _ _ L). intros Hp. apply U in Hp. unfold VMM_USER_END in Hy. dlia.
Qed.

Lemma user_page_leaf m q w : user_page m q w -> leaf m (4096 * q) <> None.
Proof. intros (e & H & _). by rewrite H by apply page_div. Qed.

(** An entry of another page stays. *)
Lemma user_page_keep m m' q w :
  0 <= q < 2 ^ 18 -> (forall v, 0 <= v < 2 ^ 32 -> v / 4096 = q -> leaf m' v = leaf m v) ->
  user_page m q w -> user_page m' q w.
Proof.
  intros Hq H (e & He & Hb). exists e. split; [|done]. intros v Hv. rewrite H by (done || dlia). by apply He.
Qed.

Lemma loaded_trans seg P Q s s1 s2 :
  segment_ok data seg -> user_pages P -> user_pages Q ->
  loaded seg P s s1 -> loaded seg Q s1 s2 -> loaded seg (fun q => P q \/ Q q) s s2.
Proof.
  intros So UP UQ L1 L2.
  assert (forall q, P q -> ~ Q q) as Hd.
  { intros q Hp Hq. apply (user_page_leaf _ _ _ (ld_map _ _ _ _ L1 q Hp)). by apply (ld_new _ _ _ _ L2). }
  split.
  - apply L2.
  - apply L2.
  - intros q Hpq. destruct (decide (0 <= q < 2 ^ 18)) as [Hr|Hr]; [|destruct Hpq as [H|H]; [apply UP in H|apply UQ in H]; lia].
    destruct Hpq as [Hp|Hq]; [by apply L1|]. pose proof (ld_new _ _ _ _ L2 q Hq) as E.
    rewrite (ld_other _ _ _ _ L1) in E; [done|lia|]. rewrite page_div. intros Hp. by apply (Hd q).
  - intros q [Hp|Hq]; [|by apply L2]. apply (user_page_keep (l_mmu s1)); [by apply UP| |by apply L1].
    intros v Hv <-. apply (ld_other _ _ _ _ L2); [done|]. by apply Hd.
  - intros v Hv Hn. rewrite (ld_other _ _ _ _ L2), (ld_other _ _ _ _ L1) by tauto. done.
  - intros x [Hp|Hq].
    + rewrite (ld_mem_other _ _ _ _ L2 x (Hd _ Hp)). exact (ld_mem _ _ _ _ L1 x Hp).
    + rewrite (ld_mem _ _ _ _ L2 x Hq). apply image_byte_frame; [done|]. intros y Hy. by eapply loaded_kernel.
  - intros x Hn. rewrite (ld_mem_other _ _ _ _ L2), (ld_mem_other _ _ _ _ L1) by tauto. done.
Qed.

Lemma loaded_ext seg P Q s s' : (forall q, P q <-> Q q) -> loaded seg P s s' -> loaded seg Q s s'.
Proof.
  intros E [H1 H2 H3 H4 H5 H6 H7]. split; [done|done| | | | |].
  - intros q. rewrite <- E. apply H3.
  - intros q. rewrite <- E. apply H4.
  - intros v Hv. rewrite <- E. by apply H5.
  - intros x. rewrite <- E. apply H6.
  - intros x. rewrite <- E. apply H7.
Qed.

Lemma load_pages_spec seg n : forall q s s',
  paging_inv R (l_mmu s) -> bytes (l_mem s) -> segment_ok data seg ->
  0 <= q -> 4096 * (q + Z.of_nat n) <= VMM_USER_END -> s_vaddr seg < 4096 * q + 4096 ->
  load_pages n data seg (4096 * q) s = (true, s') -> loaded seg (fun x => q <= x < q + Z.of_nat n) s s'.
Proof using block_stable0.
  induction n as [|n IH]; intros q s s' I B So Hq Hqe Hst; cbn [load_pages].
  { intros [= <-]. split; [done|done|lia|lia|done|lia|done]. }
  destruct (load_page data seg (4096 * q) s) as [[|] s1] eqn:E; [|done]. cbn [negb].
  apply load_page_spec in E as L; [|done|done|done|done|lia|done].
  unfold PAGE_SIZE. rewrite u32_small by (unfold VMM_USER_END in Hqe; lia).
  replace (4096 * q + 4096) with (4096 * (q + 1)) by lia. intros E2.
  apply IH in E2; [|apply L|apply L|done|lia|lia|lia].
  eapply loaded_ext; [|eapply loaded_trans; [done| | |exact L|exact E2]]; unfold VMM_USER_END in Hqe.
  - cbn. lia.
  - intros x <-. lia.
  - intros x ?. lia.
Qed.

(** The pages of a segment. *)
Definition seg_pages (seg : elf_segment) (q : Z) : Prop :=
  s_vaddr seg / 4096 <= q < (s_vaddr seg + s_memsz seg + 4095) / 4096.

Lemma load_segment_spec seg s s' :
  paging_inv R (l_mmu s) -> bytes (l_mem s) -> segment_ok data seg -> segment_in_userspace seg = true ->
  load_segment data seg s = (true, s') -> loaded seg (seg_pages seg) s s' /\ user_pages (seg_pages seg).
Proof using block_stable0.
  intros I B So Hu. pose proof So as [Hv Hm _ _ He _ _ _]. unfold segment_in_userspace, in_userspace in Hu.
  rewrite u32_small in Hu by lia. apply andb_true_iff in Hu as [Hu1%Z.ltb_lt Hu2%Z.ltb_lt]. unfold VMM_USER_END in *.
  unfold load_segment, PAGE_ALIGN_DOWN, PAGE_ALIGN_UP, PAGE_SIZE. rewrite (u32_small (s_vaddr seg + s_memsz seg)) by lia.
  rewrite (u32_small (s_vaddr seg + s_memsz seg + 4096 - 1)) by lia.
  rewrite !(land_mask 12) by lia. change (2 ^ 12) with 4096.
  replace (s_vaddr seg + s_memsz seg + 4096 - 1) with (s_vaddr seg + s_memsz seg + 4095) by lia.
  set (a := s_vaddr seg / 4096). set (b := (s_vaddr seg + s_memsz seg + 4095) / 4096).
  assert (0 <= a <= b /\ b <= 2 ^ 18) as Hab by (unfold a, b; dlia).
  rewrite (u32_small (4096 * b - 4096 * a)) by lia.
  replace ((4096 * b - 4096 * a) / 4096) with (b - a) by (replace (4096 * b - 4096 * a) with ((b - a) * 4096) by lia;
    rewrite Z.div_mul; lia).
  intros E. apply load_pages_spec in E; [|done|done|done|lia|unfold VMM_USER_END; lia|unfold a; dlia].
  assert (user_pages (seg_pages seg)) by (intros q [H1 H2]; fold a b in H1, H2; lia).
  split; [|done]. eapply loaded_ext; [|exact E]. intros q. unfold seg_pages. fold a b. lia.
Qed.

(** What loading a list of segments does. *)
Record image_loaded (segs : list elf_segment) (s s' : loader) : Prop := {
  il_inv : paging_inv R (l_mmu s');
  il_bytes : bytes (l_mem s');
  il_seg seg q : seg ∈ segs -> seg_pages seg q ->
    0 <= q < 2 ^ 18 /\ leaf (l_mmu s) (4096 * q) = None /\ user_page (l_mmu s') q (writable seg);
  il_mem seg x : seg ∈ segs -> seg_pages seg (x / 4096) -> l_mem s' x = image_byte (l_mem s) data seg x;
  il_other v : 0 <= v < 2 ^ 32 -> (forall seg, seg ∈ segs -> ~ seg_pages seg (v / 4096)) -> leaf (l_mmu s') v = leaf (l_mmu s) v;
  il_mem_other x : (forall seg, seg ∈ segs -> ~ seg_pages seg (x / 4096)) -> l_mem s' x = l_mem s x }.

Lemma image_cons seg segs s s1 s2 :
  Forall (segment_ok data) (seg :: segs) -> user_pages (seg_pages seg) ->
  loaded seg (seg_pages seg) s s1 -> image_loaded segs s1 s2 -> image_loaded (seg :: segs) s s2.
Proof.
  intros [So Sos]%Forall_cons U L IL.
  assert (forall q, seg_pages seg q -> forall sg, sg ∈ segs -> ~ seg_pages sg q) as Hd.
  { intros q Hq sg Hin Hq'. apply (user_page_leaf _ _ _ (ld_map _ _ _ _ L q Hq)). by apply (il_seg _ _ _ IL sg). }
  split.
  - apply IL.
  - apply IL.
  - intros sg q [->|Hin]%elem_of_cons Hq.
    + split; [by apply U|]. split; [by apply L|]. apply (user_page_keep (l_mmu s1)); [by apply U| |by apply L].
      intros v Hv <-. apply (il_other _ _ _ IL); [done|]. by apply Hd.
    + destruct (il_seg _ _ _ IL sg q Hin Hq) as (Hr & Hn & Hu). split; [done|]. split; [|done].
      rewrite (ld_other _ _ _ _ L) in Hn; [done|lia|]. rewrite page_div. intros Hq'. by apply (Hd q Hq' sg).
  - intros sg x [->|Hin]%elem_of_cons Hq.
    + rewrite (il_mem_other _ _ _ IL x (Hd _ Hq)). exact (ld_mem _ _ _ _ L x Hq).
    + rewrite (il_mem _ _ _ IL sg) by done. apply image_byte_frame; [|intros y Hy; by eapply loaded_kernel].
      rewrite Forall_forall in Sos. by apply Sos.
  - intros v Hv Hn. rewrite (il_other _ _ _ IL); [|done|intros sg ?; apply Hn; by right].
    apply (ld_other _ _ _ _ L); [done|]. apply Hn. by left.
  - intros x Hn. rewrite (il_mem_other _ _ _ IL); [|intros sg ?; apply Hn; by right].
    apply (ld_mem_other _ _ _ _ L). apply Hn. by left.
Qed.

Lemma load_all_spec segs : forall s s',
  paging_inv R (l_mmu s) -> bytes (l_mem s) -> Forall (segment_ok data) segs ->
  forallb segment_in_userspace segs = true ->
  load_all data segs s = (true, s') -> image_loaded segs s s'.
Proof using block_stable0.
  induction segs as [|seg segs IH]; intros s s' I B So Hu; cbn [load_all].
  { intros [= <-]. split; [done|done|by intros ? ? ?%elem_of_nil|by intros ? ? ?%elem_of_nil|done|done]. }
  cbn [forallb] in Hu. apply andb_true_iff in Hu as [Hu Hus]. pose proof So as [So1 Sos]%Forall_cons.
  destruct (load_segment data seg s) as [[|] s1] eqn:E; [|done]. cbn [negb]. intros E2.
  apply load_segment_spec in E as [L U]; [|done..]. apply IH in E2; [|apply L|apply L|done|done].
  by eapply image_cons.
Qed.
End Load.

(** What the file says of the byte at [x]: the contents of the segment up to
    [filesz], and zero after it. *)
Definition file_byte (m : Z -> Z) (data : Z) (seg : elf_segment) (x : Z) : Z :=
  if decide (s_vaddr seg <= x < s_vaddr seg + s_filesz seg)
  then m (data + s_offset seg + (x - s_vaddr seg)) else 0.

(** C9: what a successful load does.  Every page of every segment was unmapped
    before and is mapped now, for user code, writable exactly if the segment is;
    all pages lie in the user part of the address space.  In every page that does
    not start before its segment, in particular in all pages of a segment that
    starts at a page boundary, the bytes are those of the file up to [filesz] and
    zero from there to the end of the page.  The first page of a segment that does
    not start at a page boundary is all zero: the bytes of the file that belong
    there are not loaded.  No other page table entry and no other byte of memory
    changes, and the paging structures stay well formed. *)
Theorem elf_load_correct R `{!block_stable R} data parsed s s' :
  paging_inv R (l_mmu s) -> bytes (l_mem s) -> Forall (segment_ok data) (segments parsed) ->
  elf_load_segments data parsed s = (true, s') ->
  entry_point parsed < VMM_USER_END /\ paging_inv R (l_mmu s') /\
  (forall seg q, seg ∈ segments parsed -> seg_pages seg q ->
     0 <= q < VMM_USER_END / PAGE_SIZE /\ paging_is_mapped (PAGE_SIZE * q) (l_mmu s) = false /\
     user_page (l_mmu s') q (writable seg)) /\
  (forall seg x, seg ∈ segments parsed -> seg_pages seg (x / PAGE_SIZE) ->
     l_mem s' x = if decide (s_vaddr seg <= PAGE_SIZE * (x / PAGE_SIZE)) then file_byte (l_mem s) data seg x else 0) /\
  (forall v, is_u32 v -> (forall seg, seg ∈ segments parsed -> ~ seg_pages seg (v / PAGE_SIZE)) ->
     leaf (l_mmu s') v = leaf (l_mmu s) v /\ l_mem s' v = l_mem s v).
Proof.
  intros I B So. unfold elf_load_segments. destruct (in_userspace (entry_point parsed)) eqn:He; [|done].
  destruct (forallb _ _) eqn:Hu; [|done]. cbn [negb]. intros E.
  apply (load_all_spec R) in E as [L1 L2 L3 L4 L5 L6]; [|done..]. unfold PAGE_SIZE.
  split; [by apply Z.ltb_lt|]. split; [done|]. split; [|split].
  - intros seg q Hin Hq. destruct (L3 seg q Hin Hq) as (Hr & Hn & Hm). split; [done|]. split; [|done].
    rewrite (is_mapped_spec R) by (done || lia). rewrite translate_leaf, Hn. by apply bool_decide_false; intros [? ?].
  - intros seg x Hin Hq. rewrite (L4 seg) by done. unfold image_byte, file_byte.
    pose proof (Z.div_mod x 4096). pose proof (Z.mod_pos_bound x 4096).
    repeat case_decide; (done || lia).
  - intros v Hv Hn. by rewrite L5, L6.
Qed.

(** ** Parsing *)

Definition is_load (pht : program_header) : Prop := p_type pht = ELF_SEGMENT_TYPE_LOAD.

#[export] Instance is_load_dec pht : Decision (is_load pht).
Proof. unfold is_load. apply _. Defined.

Lemma parse_phts_spec phts : forall e,
  (length (segments e) <= MAX_SEGMENTS)%nat ->
  let loads := filter is_load phts in
  if decide (length (segments e) + length loads <= MAX_SEGMENTS)%nat then
    exists e', parse_phts phts e = Some e' /\ entry_point e' = entry_point e /\
      segments e' = segments e ++ (segment_of <$> loads) /\ max_vaddr e <= max_vaddr e' /\ min_vaddr e' <= min_vaddr e /\
      forall pht, pht ∈ loads -> u32 (p_vaddr pht + p_memsz pht) <= max_vaddr e' /\ min_vaddr e' <= p_vaddr pht
  else parse_phts phts e = None.
Proof.
  induction phts as [|pht phts IH]; intros e Hle; cbv zeta in *.
  { rewrite decide_True by (cbn; lia). exists e. cbn [parse_phts filter list_filter fmap list_fmap]. rewrite app_nil_r.
    split; [done|]. do 2 (split; [done|]). split; [lia|]. split; [lia|]. by intros ? ?%elem_of_nil. }
  cbn [parse_phts]. unfold parse_pht. destruct (decide (is_load pht)) as [Hl|Hl].
  - rewrite filter_cons_True by done. rewrite (proj2 (Z.eqb_eq _ _) Hl). cbn [negb length].
    destruct (Nat.leb_spec MAX_SEGMENTS (length (segments e))) as [Hf|Hf].
    { rewrite decide_False by lia. done. }
    cbn [mbind option_bind].
    set (e1 := mk_elf _ _ _ _ _). specialize (IH e1).
    assert (length (segments e1) = S (length (segments e))) as H1 by (cbn; rewrite length_app; cbn; lia).
    rewrite H1 in IH. specialize (IH ltac:(lia)). case_decide as D; [rewrite decide_True by lia|by rewrite decide_False by lia].
    destruct IH as (e' & -> & E1 & E2 & E3 & E4 & E5). exists e'. split; [done|]. split; [done|].
    split; [rewrite E2; cbn; by rewrite <- app_assoc|]. cbn [max_vaddr min_vaddr e1] in E3, E4.
    destruct (Z.ltb_spec (max_vaddr e) (u32 (p_vaddr pht + p_memsz pht))), (Z.ltb_spec (p_vaddr pht) (min_vaddr e));
      (split; [lia|split; [lia|intros p [->|Hp]%elem_of_cons; [split; lia|apply E5; exact Hp]]]).
  - rewrite filter_cons_False by done. rewrite (proj2 (Z.eqb_neq _ _) Hl). cbn [negb mbind option_bind]. by apply IH.
Qed.

(** C35: parsing.  A file that does not pass validation is reported as such.  For
    a valid file with at most 32 loadable program headers the parser stores exactly
    those, in their order, together with the entry point and bounds that enclose
    the addresses of all of them.  A valid file with more loadable headers makes it
    write past the end of the array of segments: the count is not checked. *)
Theorem elf_parse_bounds m addr :
  let loads := filter is_load (program_headers m addr) in
  if negb (elf_validate m addr) then elf_parse m addr = Some (mk_elf false 0 0 0 [])
  else if decide (length loads <= 32)%nat then
    exists e, elf_parse m addr = Some e /\ success e = true /\ entry_point e = entrypoint m addr /\
      segments e = segment_of <$> loads /\
      forall pht, pht ∈ loads -> u32 (p_vaddr pht + p_memsz pht) <= max_vaddr e /\ min_vaddr e <= p_vaddr pht
  else elf_parse m addr = None.
Proof.
  cbv zeta. unfold elf_parse. destruct (elf_validate m addr); [|done]. cbn [negb].
  pose proof (parse_phts_spec (program_headers m addr) (mk_elf false (entrypoint m addr) (2 ^ 32 - 1) 0 []) ltac:(cbn; lia)) as H.
  cbv zeta in H. cbn [segments length Nat.add] in H. unfold MAX_SEGMENTS in H. case_decide; [|by rewrite H].
  destruct H as (e & -> & E1 & E2 & _ & _ & E5). eexists. split; [reflexivity|]. cbn. by rewrite E1, E2.
Qed.

(** ** The heap *)

(** The heap of a new image starts above every region of its segments. *)
Lemma exec_image_heap m addr e stack :
  bytes m -> elf_parse m addr = Some e -> max_vaddr e + 4095 < 2 ^ 32 ->
  Forall (fun seg => s_vaddr seg + s_memsz seg < 2 ^ 32) (segments e) ->
  forall a b f, (a, b, f) ∈ memory_regions (exec_image e stack) -> b <= heap_start (exec_image e stack).
Proof.
  intros B E Hmax Hs a b f Hin. cbn in Hin. apply list_elem_of_fmap in Hin as (seg & [= -> -> ->] & Hin).
  rewrite Forall_forall in Hs. specialize (Hs seg Hin). cbn [heap_start exec_image].
  assert (0 <= s_vaddr seg + s_memsz seg <= max_vaddr e) as Hle.
  { revert E Hin. unfold elf_parse. destruct (elf_validate m addr); [|by intros [= <-] ?%elem_of_nil]. cbn [negb].
    pose proof (parse_phts_spec (program_headers m addr) (mk_elf false (entrypoint m addr) (2 ^ 32 - 1) 0 []) ltac:(cbn; lia)) as H.
    cbv zeta in H. case_decide; [|by rewrite H]. destruct H as (e' & -> & _ & E2 & _ & _ & E5). cbn.
    intros [= <-]. cbn. rewrite E2. cbn. intros (pht & -> & Hp)%list_elem_of_fmap.
    destruct (E5 pht Hp) as [H1 _]. cbn in Hs |- *. apply list_elem_of_filter in Hp as [_ Hp].
    unfold program_headers in Hp. apply list_elem_of_fmap in Hp as (i & -> & _). cbn in *.
    pose proof (load32_u32 m (pht_at m addr i + 8) B). pose proof (load32_u32 m (pht_at m addr i + 20) B).
    unfold is_u32 in *. rewrite u32_small in H1 by lia. lia. }
  unfold PAGE_ALIGN_UP, PAGE_SIZE. rewrite (u32_small (s_vaddr seg + s_memsz seg)) by lia.
  rewrite (u32_small (s_vaddr seg + s_memsz seg + 4096 - 1)), (u32_small (max_vaddr e + 4096 - 1)) by lia.
  rewrite !(land_mask 12) by lia.
  change (2 ^ 12) with 4096. apply Z.mul_le_mono_nonneg_l; [lia|]. apply Z.div_le_mono; lia.
Qed.

(** ** Examples *)

(** One writable segment of 100 bytes at 0x500000, 50 of them in the file at 0x50000000. *)
Definition demo_segment : elf_segment := mk_segment 0x500000 100 50 0x1000 7.
Definition demo_parsed : elf := mk_elf true 0x500010 0x500000 0x500064 [demo_segment].
Definition demo_loader : loader := mk_loader demo_dir (fun a => u8 a).
Definition demo_loaded : loader := (elf_load_segments 0x50000000 demo_parsed demo_loader).2.

Lemma elf_load_correct_witness :
  l_mem demo_loaded 0x500020 = 0x20 /\ l_mem demo_loaded 0x500040 = 0 /\ user_page (l_mmu demo_loaded) 0x500 true.
Proof.
  destruct (elf_load_correct coalesced 0x50000000 demo_parsed demo_loader demo_loaded) as (_ & _ & H1 & H2 & _).
  - exact demo_dir_inv.
  - intros a. apply u8_range.
  - constructor; [|constructor]. split; try (by vm_compute). by right.
  - rewrite (surjective_pairing (elf_load_segments 0x50000000 demo_parsed demo_loader)).
    apply (f_equal2 pair); [vm_compute; reflexivity|unfold demo_loaded; reflexivity].
  - split; [rewrite (H2 demo_segment); [by vm_compute|by left|by vm_compute]|].
    split; [rewrite (H2 demo_segment); [by vm_compute|by left|by vm_compute]|].
    apply (H1 demo_segment 0x500); [by left|by vm_compute].
Defined.

(** A file of 84 bytes whose program header table has 33 entries of size 0. *)
Definition overflow_file : list Z :=
  [0x7F; 0x45; 0x4C; 0x46; 1; 1; 1] ++ replicate 9 0 ++ [2; 0; 3; 0] ++ replicate 8 0 ++ [52; 0; 0; 0] ++
  replicate 12 0 ++ [33; 0] ++ replicate 6 0 ++ [1; 0; 0; 0] ++ replicate 28 0.

Lemma elf_parse_overflow : elf_parse (fun a => default 0 (overflow_file !! Z.to_nat a)) 0 = None.
Proof. by vm_compute. Qed.
