(* ===== verification/BrkSpec.v ===== *)
(** The program break: a model of [src/kernel/kernel/task/syscall/brk.c] and of
    the wrappers [brk] and [sbrk] of the C library, and its theorems: the kernel
    grows and shrinks the heap by whole pages, and gives every page back when it
    cannot grow.

    The heap bounds of the task are those of its image (Elf); its pages are mapped
    in the active page directory, and the memory is a store of bytes by virtual
    address. *)

From S2P Require Import Prelude Errno Pmm PmmMeta PmmInv PmmSteps PmmAlloc PmmFree PmmProps PmmInit PmmSpec Frames Paging PagingProps PagingSpec Vmm VmmList VmmMap VmmSegs VmmOps VmmSpec CMem Elf.
From Stdlib Require Import ZArith Lia Bool.
From stdpp Require Import base tactics numbers list.
Open Scope Z_scope.

Record heap_task := mk_heap_task { ht_mmu : mmu; ht_mem : Z -> Z; ht_image : image }.

Definition set_heap_end (x : Z) (i : image) : image := mk_image (memory_regions i) (heap_start i) x (heap_max i).

Definition PAGE_FLAGS_USER : Z := Z.lor (Z.lor PAGE_PRESENT PAGE_WRITE) PAGE_USER.

(** One round of the roll-back loops. *)
Definition release_page (vaddr : Z) (m : mmu) : mmu :=
  let phys := paging_get_physical_address vaddr m in
  let m := paging_unmap_page vaddr m in
  set_pm (pmm_free_page phys (pm m)) m.

Definition rollback (i old_heap_end : Z) (m : mmu) : mmu :=
  for_loop i (fun j => release_page (u32 (old_heap_end + u32 (j * PAGE_SIZE)))) m.

(** The pages from number [i] on; [false] after a roll-back. *)
Fixpoint expand_heap (n : nat) (i old_heap_end : Z) (m : mmu) (mem : Z -> Z) : bool * mmu * (Z -> Z) :=
  match n with
  | O => (true, m, mem)
  | S n =>
      let vaddr := u32 (old_heap_end + u32 (i * PAGE_SIZE)) in
      let '(phys, p) := pmm_alloc_page (pm m) in
      let m := set_pm p m in
      if phys =? 0 then (false, rollback i old_heap_end m, mem) else
      let '(ok, m) := paging_map_page vaddr phys PAGE_FLAGS_USER m in
      if negb ok then
        let m := set_pm (pmm_free_page phys (pm m)) m in
        (false, rollback i old_heap_end m, mem)
      else expand_heap n (i + 1) old_heap_end m (memset vaddr 0 PAGE_SIZE mem)
  end.

(** One round of the loop that shrinks the heap. *)
Definition shrink_page (vaddr : Z) (m : mmu) : mmu :=
  let phys := paging_get_physical_address vaddr m in
  if phys =? 0 then m else
  let m := paging_unmap_page vaddr m in
  set_pm (pmm_free_page phys (pm m)) m.

Definition sys_brk (addr : Z) (task : option heap_task) : Z * option heap_task :=
  match task with
  | None => (0, None)
  | Some t =>
      let i := ht_image t in
      if addr =? 0 then (i32 (heap_end i), Some t) else
      if addr <? heap_start i then (0, Some t) else
      if heap_max i <? addr then (- ENOMEM, Some t) else
      let old_heap_end := PAGE_ALIGN_UP (heap_end i) in
      let new_heap_end := PAGE_ALIGN_UP addr in
      if old_heap_end =? new_heap_end then (i32 (heap_end i), Some t) else
      if old_heap_end <? new_heap_end then
        let num_pages := (new_heap_end - old_heap_end) / PAGE_SIZE in
        let '(ok, m, mem) := expand_heap (Z.to_nat num_pages) 0 old_heap_end (ht_mmu t) (ht_mem t) in
        if negb ok then (i32 (heap_end i), Some (mk_heap_task m mem i))
        else (i32 addr, Some (mk_heap_task m mem (set_heap_end addr i)))
      else
        let num_pages := (old_heap_end - new_heap_end) / PAGE_SIZE in
        let m := for_loop num_pages (fun k => shrink_page (u32 (new_heap_end + u32 (k * PAGE_SIZE)))) (ht_mmu t) in
        (i32 addr, Some (mk_heap_task m (ht_mem t) (set_heap_end addr i)))
  end.

(** ** The C library *)

(** [brk]: -1, as an address, when the kernel reports an error. *)
Definition brk (addr : Z) (t : option heap_task) : Z * option heap_task :=
  let '(res, t) := sys_brk addr t in
  if res <? 0 then (u32 (-1), t) else (res, t).

(** The statics of [sbrk.c]; [NULL] is 0. *)
Record sbrk_state := mk_sbrk { current_brk : Z; brk_initialized : bool; sb_task : option heap_task }.

Definition sbrk (increment : Z) (s : sbrk_state) : Z * sbrk_state :=
  let s := if brk_initialized s then s
           else let '(b, t) := brk 0 (sb_task s) in mk_sbrk b true t in
  if increment =? 0 then (current_brk s, s) else
  let new_brk := u32 (current_brk s + increment) in
  let '(result, t) := brk new_brk (sb_task s) in
  let s := mk_sbrk (current_brk s) true t in
  if (result =? current_brk s) && negb (increment =? 0) then (u32 (-1), s) else
  let old_brk := current_brk s in
  (old_brk, mk_sbrk result true t).

(** ** Releasing pages *)

Lemma unmap_set_pm v p m : paging_unmap_page v (set_pm p m) = set_pm p (paging_unmap_page v m).
Proof.
  unfold paging_unmap_page, paging_get_page_table. cbn [physmem current_pd set_pm negb].
  destruct (present _); cbn [negb]; [|by rewrite Z.eqb_refl].
  destruct (_ =? 0); [done|]. cbn [physmem set_pm]. by destruct (present _).
Qed.

Lemma unmap_pm v m : pm (paging_unmap_page v m) = pm m.
Proof.
  unfold paging_unmap_page, paging_get_page_table. cbn [negb].
  destruct (present _); cbn [negb]; [|by rewrite Z.eqb_refl].
  destruct (_ =? 0); [done|]. by destruct (present _).
Qed.

(** The order of unmapping and freeing does not matter. *)
Lemma release_page_releases : releases release_page.
Proof.
  intros v m H. unfold release_page, unmap_free_page. rewrite (proj2 (Z.eqb_neq _ _) H), unmap_set_pm.
  by rewrite unmap_pm.
Qed.

Lemma shrink_page_releases : releases shrink_page.
Proof.
  intros v m H. rewrite <- release_page_releases by done. unfold shrink_page. by rewrite (proj2 (Z.eqb_neq _ _) H).
Qed.

(** ** Growing *)

Section Grow.
Context (R : (Z -> list Z) -> Prop) `{!block_stable R}.
Context (m0 : mmu) (U F : Z -> Prop) (q : Z).
Context (H0 : heap_inv R m0 U F) (Hq : 0 < q).

(** The bytes of the pages [q], ..., [q + n - 1] are zero. *)
Definition zeroed (n : Z) (mem mem' : Z -> Z) : Prop :=
  forall x, mem' x = if decide (run q n (x / 4096)) then 0 else mem x.

Lemma expand_spec n : forall i m mem mem0 fs,
  0 <= i -> (forall x, run q (i + Z.of_nat n) x -> F x) -> zeroed i mem0 mem ->
  heap_inv R m (fun x => U x \/ run q i x) (fun x => F x /\ ~ run q i x) -> mapped m0 q i fs m ->
  let '(ok, m', mem') := expand_heap n i (4096 * q) m mem in
  (ok = true /\ heap_inv R m' (fun x => U x \/ run q (i + Z.of_nat n) x) (fun x => F x /\ ~ run q (i + Z.of_nat n) x) /\
     (exists fs', mapped m0 q (i + Z.of_nat n) fs' m') /\ zeroed (i + Z.of_nat n) mem0 mem') \/
  (ok = false /\ free_pages (pm m0) < 2 * (i + Z.of_nat n) /\ heap_inv R m' U F /\ restored m0 m').
Proof using All.
  induction n as [|n IH]; intros i m mem mem0 fs Hi HF Hz H M; cbn [expand_heap].
  { left. replace (i + Z.of_nat 0) with i by lia. eauto. }
  assert (HFi : forall x, run q i x -> F x) by (intros x Hx; apply HF; unfold run in *; lia).
  assert (HFq : F (q + i)) by (apply HF; unfold run; lia).
  assert (Pn : page_no (q + i)) by (apply (hi_pages _ _ _ _ H0); auto).
  pose proof (map_next R m0 U F q H0 Hq PAGE_FLAGS_USER i m fs Hi HFq HFi ltac:(done) H M) as S.
  destruct (pmm_alloc_page (pm m)) as [a p]. destruct S as [(-> & Ep & X)|(Ha & S)].
  { right. cbn [Z.eqb]. rewrite Ep. split; [done|]. split; [lia|].
    by apply (rollback_spec R m0 U F q H0 Hq release_page i fs m release_page_releases). }
  replace (a =? 0) with false by lia. rewrite page_at by (done || lia).
  destruct (paging_map_page _ _ _ _) as [ok m2]. destruct S as [(-> & H2 & fs' & M2)|(-> & X & H3 & M3)].
  - cbn [negb]. specialize (IH (i + 1) m2 (memset (4096 * (q + i)) 0 PAGE_SIZE mem) mem0 fs').
    replace (i + 1 + Z.of_nat n) with (i + Z.of_nat (S n)) in IH by lia. apply IH; [lia|done| |done|done].
    intros x. rewrite (memset_correct (4096 * (q + i)) 0 PAGE_SIZE) by (unfold PAGE_SIZE; lia).
    rewrite Hz. unfold run, PAGE_SIZE. repeat case_decide; try done; dlia.
  - cbn [negb]. right. split; [done|]. split; [lia|].
    by apply (rollback_spec R m0 U F q H0 Hq release_page i fs _ release_page_releases).
Qed.
End Grow.

(** ** The system call *)

(** The first page after [addr], and the pages of the heap. *)
Definition page_up (addr : Z) : Z := (addr + 4095) / 4096.

Definition heap_used (i : image) (x : Z) : Prop := heap_start i / 4096 <= x < page_up (heap_end i).
Definition heap_rest (i : image) (x : Z) : Prop := page_up (heap_end i) <= x < page_up (heap_max i).

Section Call.
Context (R : (Z -> list Z) -> Prop) `{!block_stable R}.

(** The pages up to the break are mapped to frames of their own, the rest are free. *)
Record brk_inv (t : heap_task) : Prop := {
  bi_heap : heap_inv R (ht_mmu t) (heap_used (ht_image t)) (heap_rest (ht_image t));
  bi_start : 0 < heap_start (ht_image t); bi_aligned : heap_start (ht_image t) mod 4096 = 0;
  bi_end : heap_start (ht_image t) <= heap_end (ht_image t) <= heap_max (ht_image t);
  bi_max : heap_max (ht_image t) < VMM_USER_END }.

Lemma align_up_page a : 0 <= a < VMM_USER_END -> PAGE_ALIGN_UP a = 4096 * page_up a.
Proof.
  unfold VMM_USER_END, PAGE_ALIGN_UP, PAGE_SIZE, page_up. intros H. rewrite (u32_small (a + 4096 - 1)) by lia.
  rewrite (land_mask 12) by lia. change (2 ^ 12) with 4096. f_equal. f_equal. lia.
Qed.

Lemma page_up_le a b : a <= b -> page_up a <= page_up b.
Proof. intros H. apply Z.div_le_mono; lia. Qed.

(** What growing the heap from the break [e] to [addr] does: the new pages are
    mapped to fresh frames and zero, all others are as they were. *)
Definition grown (t : heap_task) (addr : Z) (t' : heap_task) : Prop :=
  let q := page_up (heap_end (ht_image t)) in let n := page_up addr - q in
  ht_image t' = set_heap_end addr (ht_image t) /\
  (exists fs, mapped (ht_mmu t) q n fs (ht_mmu t')) /\ zeroed q n (ht_mem t) (ht_mem t').

Definition shrunk (t : heap_task) (addr : Z) (t' : heap_task) : Prop :=
  let q := page_up addr in let n := page_up (heap_end (ht_image t)) - q in
  ht_image t' = set_heap_end addr (ht_image t) /\
  unmapped (ht_mmu t) q n (ht_mmu t') /\ ht_mem t' = ht_mem t.

Lemma grow_spec t addr :
  brk_inv t -> heap_start (ht_image t) <= addr <= heap_max (ht_image t) ->
  page_up (heap_end (ht_image t)) < page_up addr ->
  exists r t', sys_brk addr (Some t) = (r, Some t') /\ brk_inv t' /\
    ((r = addr /\ grown t addr t') \/
     (r = heap_end (ht_image t) /\ ht_image t' = ht_image t /\ restored (ht_mmu t) (ht_mmu t') /\
      free_pages (pm (ht_mmu t)) < 2 * (page_up addr - page_up (heap_end (ht_image t))))).
Proof using block_stable0.
  intros [H Hs Ha He Hm] Hr Hlt. unfold sys_brk. unfold VMM_USER_END in Hm.
  replace (addr =? 0) with false by lia. replace (addr <? heap_start (ht_image t)) with false by lia.
  replace (heap_max (ht_image t) <? addr) with false by lia.
  rewrite !align_up_page by (unfold VMM_USER_END; lia). set (q := page_up (heap_end (ht_image t))) in *.
  replace (4096 * q =? 4096 * page_up addr) with false by lia.
  replace (4096 * q <? 4096 * page_up addr) with true by lia. unfold PAGE_SIZE.
  replace ((4096 * page_up addr - 4096 * q) / 4096) with (page_up addr - q)
    by (replace (4096 * page_up addr - 4096 * q) with ((page_up addr - q) * 4096) by lia; rewrite Z.div_mul; lia).
  assert (0 < q) as Hq by (unfold q, page_up; dlia).
  pose proof (page_up_le addr (heap_max (ht_image t)) ltac:(lia)) as Hle.
  assert (zeroed q 0 (ht_mem t) (ht_mem t)) as Z0 by (intros x; rewrite decide_False by (unfold run; lia); done).
  pose proof (expand_spec R (ht_mmu t) _ _ q H Hq (Z.to_nat (page_up addr - q)) 0 (ht_mmu t) (ht_mem t) (ht_mem t) []
    (Z.le_refl 0)) as E.
  replace (0 + Z.of_nat (Z.to_nat (page_up addr - q))) with (page_up addr - q) in E by lia.
  specialize (E ltac:(intros x Hx; unfold run, heap_rest in *; lia) Z0).
  specialize (E ltac:(eapply heap_inv_ext; [..|exact H]; unfold run; intros x; cbn; intuition lia) (mapped_nil R (ht_mmu t) q)).
  destruct (expand_heap _ _ _ _ _) as [[ok m'] mem']. destruct E as [(-> & H' & M & Z)|(-> & X & H' & M)]; cbn [negb].
  - exists addr, (mk_heap_task m' mem' (set_heap_end addr (ht_image t))). split; [by rewrite i32_small by lia|].
    split; [|left; by split]. split; cbn [ht_mmu ht_image heap_start heap_end heap_max set_heap_end]; [|done|done|lia|done].
    eapply heap_inv_ext; [..|exact H']; unfold heap_used, heap_rest, run; cbn [heap_start heap_end heap_max set_heap_end];
      fold q; intros x; assert (heap_start (ht_image t) / 4096 <= q) by (unfold q, page_up; dlia); intuition lia.
  - exists (heap_end (ht_image t)), (mk_heap_task m' mem' (ht_image t)). split; [by rewrite i32_small by lia|].
    split; [by split|]. by right.
Qed.

Lemma shrink_spec t addr :
  brk_inv t -> heap_start (ht_image t) <= addr <= heap_max (ht_image t) ->
  page_up addr < page_up (heap_end (ht_image t)) ->
  exists t', sys_brk addr (Some t) = (addr, Some t') /\ brk_inv t' /\ shrunk t addr t'.
Proof using block_stable0.
  intros [H Hs Ha He Hm] Hr Hlt. unfold sys_brk. unfold VMM_USER_END in Hm.
  replace (addr =? 0) with false by lia. replace (addr <? heap_start (ht_image t)) with false by lia.
  replace (heap_max (ht_image t) <? addr) with false by lia.
  rewrite !align_up_page by (unfold VMM_USER_END; lia). set (q := page_up addr) in *.
  set (e := page_up (heap_end (ht_image t))) in *.
  replace (4096 * e =? 4096 * q) with false by lia.
  replace (4096 * e <? 4096 * q) with false by lia. unfold PAGE_SIZE.
  replace ((4096 * e - 4096 * q) / 4096) with (e - q)
    by (replace (4096 * e - 4096 * q) with ((e - q) * 4096) by lia; rewrite Z.div_mul; lia).
  assert (heap_start (ht_image t) / 4096 <= q) as Hsq by (unfold q, page_up; dlia).
  pose proof (page_up_le (heap_end (ht_image t)) (heap_max (ht_image t)) ltac:(lia)) as Hle.
  assert (0 <= q) by (unfold q, page_up; dlia).
  destruct (unmap_loop_spec R shrink_page (ht_mmu t) _ _ q (e - q) shrink_page_releases H) as [H' M];
    [lia|lia|intros x Hx; unfold run, heap_used in *; lia|]. fold PAGE_SIZE. unfold PAGE_SIZE in *.
  eexists. split; [by rewrite i32_small by lia|]. split; [|by split].
  split; cbn [ht_mmu ht_image heap_start heap_end heap_max set_heap_end]; [|done|done|lia|done].
  eapply heap_inv_ext; [..|exact H']; unfold heap_used, heap_rest, run; cbn [heap_start heap_end heap_max set_heap_end];
    fold q e; intros x; intuition lia.
Qed.
End Call.

(** Proves the branches whose conditions do not hold, and those that are trivial. *)
Ltac branches :=
  repeat first [split; [intros [?|?]; (exfalso; lia) || done|] | split; [intros; (exfalso; lia) || done|]];
  intros; (exfalso; lia) || done.

(** C29: The program break of a process none of whose heap pages is shared with
    another process ([brk_inv]; the pages a fork shares are the subject of
    [brk_keeps_shared_counts]).  Outside of the bounds of the heap the call changes
    nothing and reports it; a break in the last page of the heap changes nothing
    either, not even the break (although it is said to move).  A higher break
    maps every page up to it to a fresh frame, filled with zeros; only when fewer
    than two pages of physical memory per new page are free it may instead leave
    all pages mapped as they were.  A lower break unmaps the pages above it and
    gives their frames back.  The pages of the heap stay mapped to frames of their
    own. *)
Theorem sys_brk_correct R `{!block_stable R} t addr :
  brk_inv R t -> is_u32 addr ->
  let i := ht_image t in
  exists r t', sys_brk addr (Some t) = (r, Some t') /\ brk_inv R t' /\
    (addr = 0 \/ heap_start i <= addr <= heap_max i /\ page_up addr = page_up (heap_end i) -> r = heap_end i /\ t' = t) /\
    (0 < addr < heap_start i -> r = 0 /\ t' = t) /\
    (heap_max i < addr -> r = - ENOMEM /\ t' = t) /\
    (heap_start i <= addr <= heap_max i -> page_up (heap_end i) < page_up addr ->
       (r = addr /\ grown t addr t') \/
       (r = heap_end i /\ ht_image t' = i /\ restored (ht_mmu t) (ht_mmu t') /\
        free_pages (pm (ht_mmu t)) < 2 * (page_up addr - page_up (heap_end i)))) /\
    (heap_start i <= addr <= heap_max i -> page_up addr < page_up (heap_end i) -> r = addr /\ shrunk t addr t').
Proof.
  intros B Ha. cbv zeta. pose proof B as [_ Hs _ He Hm]. unfold VMM_USER_END in Hm. unfold is_u32 in Ha.
  destruct (decide (heap_start (ht_image t) <= addr <= heap_max (ht_image t))) as [Hr|Hr].
  - destruct (Z.lt_trichotomy (page_up (heap_end (ht_image t))) (page_up addr)) as [Hl|[Hl|Hl]].
    + destruct (grow_spec R t addr B Hr Hl) as (r & t' & E & B' & G). exists r, t'.
      split; [done|]. split; [done|]. branches.
    + exists (heap_end (ht_image t)), t. split; [|split; [done|branches]].
      unfold sys_brk. rewrite !align_up_page by (unfold VMM_USER_END; lia). rewrite Hl, Z.eqb_refl.
      replace (addr =? 0) with false by lia. replace (addr <? heap_start (ht_image t)) with false by lia.
      replace (heap_max (ht_image t) <? addr) with false by lia. by rewrite i32_small by lia.
    + destruct (shrink_spec R t addr B Hr Hl) as (t' & E & B' & G). exists addr, t'.
      split; [done|]. split; [done|]. branches.
  - unfold sys_brk. destruct (Z.eqb_spec addr 0) as [->|Hz].
    { exists (heap_end (ht_image t)), t. split; [by rewrite i32_small by lia|]. split; [done|]. branches. }
    destruct (Z.ltb_spec addr (heap_start (ht_image t))) as [Hl|Hl].
    { exists 0, t. split; [done|]. split; [done|]. branches. }
    replace (heap_max (ht_image t) <? addr) with true by lia.
    exists (- ENOMEM), t. split; [done|]. split; [done|]. branches.
Qed.

(** ** Shared pages *)

(** A page of the heap that another process maps too. *)
Definition shared_page (m : mmu) (x : Z) : Prop :=
  page_no x /\ exists f, maps m x f /\ 0 < f /\ used_block (pm m) f 0 /\ 1 < refcount_map (pm m) f.

Lemma free_shared R s f :
  pmm_ok R s -> 0 < f -> used_block s f 0 -> 1 < refcount_map s f -> pmm_free_page (4096 * f) s = s.
Proof.
  intros K Hf Hu Hr. destruct (ok_inv _ _ K) as (F & I & _).
  destruct (bi_page_range _ _ _ I f 0 (or_introl Hu)) as [_ Hp20].
  assert (Ha : PMM_PAGE_SIZE <= PMM_PAGE_SIZE * f < 2 ^ 32) by (unfold PMM_PAGE_SIZE; lia).
  unfold pmm_free_page, pmm_addr_to_page. change 4096 with PMM_PAGE_SIZE. rewrite page_of_addr.
  destruct (free_cases (PMM_PAGE_SIZE * f) s F I Ha) as [[_ E]|(_ & Hle & _)]; rewrite page_of_addr in *; [done|].
  exfalso. destruct Hu as (_ & _ & Ho). rewrite Ho in Hle. specialize (Hle f (covers_head f 0 ltac:(lia))). lia.
Qed.

(** Shrinking the heap does not drop the references to shared pages.  After a
    fork the pages of the heap are shared; a lower break then unmaps the pages
    above it, but [pmm_free_page] refuses a frame with more than one reference, so
    that the frame allocator is left as it was: the count of each of these frames
    stays one too high. *)
Theorem brk_keeps_shared_counts R `{!block_stable R} t addr :
  paging_inv R (ht_mmu t) -> 0 < heap_start (ht_image t) <= addr ->
  addr <= heap_end (ht_image t) <= heap_max (ht_image t) -> heap_max (ht_image t) < VMM_USER_END ->
  let q := page_up addr in let n := page_up (heap_end (ht_image t)) - q in
  0 < n -> (forall x, run q n x -> shared_page (ht_mmu t) x) ->
  exists t', sys_brk addr (Some t) = (addr, Some t') /\ pm (ht_mmu t') = pm (ht_mmu t) /\
    forall x, run q n x -> translate (ht_mmu t') (4096 * x) = None.
Proof.
  intros I Hs He Hm q n Hn HS. unfold sys_brk. unfold VMM_USER_END in Hm.
  replace (addr =? 0) with false by lia. replace (addr <? heap_start (ht_image t)) with false by lia.
  replace (heap_max (ht_image t) <? addr) with false by lia.
  rewrite !align_up_page by (unfold VMM_USER_END; lia). fold q.
  set (e := page_up (heap_end (ht_image t))) in *. assert (0 <= q) by (unfold q, page_up; dlia).
  replace (4096 * e =? 4096 * q) with false by lia. replace (4096 * e <? 4096 * q) with false by lia.
  replace ((4096 * e - 4096 * q) / PAGE_SIZE) with n
    by (unfold PAGE_SIZE; replace (4096 * e - 4096 * q) with (n * 4096) by lia; rewrite Z.div_mul; lia).
  eexists. split; [by rewrite i32_small by lia|]. cbn [ht_mmu].
  destruct (for_loop_ind (fun j m => paging_inv R m /\ pm m = pm (ht_mmu t) /\
    (forall x, run q n x -> ~ run q j x -> translate m (4096 * x) = translate (ht_mmu t) (4096 * x)) /\
    forall x, run q j x -> translate m (4096 * x) = None) n
    (fun k => shrink_page (u32 (4096 * q + u32 (k * PAGE_SIZE)))) (ht_mmu t)) as (_ & HP & _ & HT);
    [lia| |intros j m Hj (Im & Pm & T & N)|by split].
  { split; [done|]. split; [done|]. split; [done|]. unfold run. lia. }
  assert (Hrun : run q n (q + j)) by (unfold run; lia).
  destruct (HS _ Hrun) as (Pq & f & Hf & Hf0 & Hu & Hr). pose proof (page_addr _ Pq) as Aq.
  rewrite page_at by (done || lia). unfold shrink_page. rewrite (get_physical_translate R m _ Im Aq).
  rewrite T, Hf by (done || unfold run; lia).
  change (default 0 (Some (4096 * f))) with (4096 * f). replace (4096 * f =? 0) with false by lia.
  destruct (unmap_page_spec R m (4096 * (q + j)) Im Aq) as (I2 & P2 & _ & T2). rewrite page_div in T2.
  rewrite P2, Pm, (free_shared R) by (done || apply I). rewrite <- Pm, <- P2, mmu_eta.
  split; [done|]. split; [by rewrite P2|]. split.
  - intros x Hx Hnx. pose proof (page_addr x (proj1 (HS x Hx))).
    rewrite T2, page_div, decide_False, T by (done || (unfold run in *; lia)). done.
  - intros x Hx. assert (Hxn : run q n x) by (unfold run in *; lia).
    pose proof (page_addr x (proj1 (HS x Hxn))). rewrite T2, page_div by done.
    case_decide; [done|]. apply N. unfold run in *. lia.
Qed.

(** ** The wrapper of the C library *)

(** [sbrk] gets the two boundary cases wrong.  Growing the heap past its
    maximum fails in the kernel, but [sbrk] returns the old break, as if the memory
    were there, and from then on takes -1 for the break; growing it within the
    last page, which is mapped, is reported as a failure. *)
Theorem sbrk_boundaries R `{!block_stable R} t increment :
  brk_inv R t -> 0 < increment < 2 ^ 31 ->
  let e := heap_end (ht_image t) in
  let s := mk_sbrk e true (Some t) in
  (heap_max (ht_image t) < e + increment ->
     sbrk increment s = (e, mk_sbrk (u32 (-1)) true (Some t))) /\
  (e + increment <= heap_max (ht_image t) -> page_up (e + increment) = page_up e ->
     sbrk increment s = (u32 (-1), s)).
Proof.
  intros [_ Hs _ He Hm] Hi. cbv zeta. unfold VMM_USER_END in Hm. unfold sbrk.
  cbn [brk_initialized current_brk sb_task]. replace (increment =? 0) with false by lia.
  rewrite u32_small by lia. unfold brk, sys_brk. cbn [brk_initialized current_brk sb_task].
  replace (_ + increment =? 0) with false by lia.
  replace (_ + increment <? heap_start (ht_image t)) with false by lia. split.
  - intros Hmax. replace (heap_max (ht_image t) <? _) with true by lia. change (- ENOMEM <? 0) with true.
    cbn [current_brk]. change (u32 (-1)) with 4294967295. replace (4294967295 =? heap_end (ht_image t)) with false by lia.
    done.
  - intros Hmax Hp. replace (heap_max (ht_image t) <? _) with false by lia.
    rewrite !align_up_page by (unfold VMM_USER_END; lia). rewrite Hp, Z.eqb_refl, i32_small by lia.
    replace (heap_end (ht_image t) <? 0) with false by lia. cbn [current_brk]. by rewrite Z.eqb_refl.
Qed.

(** ** Examples *)

(** A heap that may grow from 0x600000 to 0x700000, in an address space without user pages. *)
Definition demo_heap : heap_task :=
  mk_heap_task demo_dir (fun _ => 1) (mk_image [] 0x600000 0x600000 0x700000).

Lemma demo_unmapped q : page_no q -> translate demo_dir (4096 * q) = None.
Proof. intros _. unfold demo_dir. destruct (pmm_alloc_page demo). apply zero_unmapped. Qed.

Lemma demo_heap_inv : brk_inv coalesced demo_heap.
Proof.
  split; [|by vm_compute|by vm_compute|by vm_compute|by vm_compute].
  split; unfold heap_used, heap_rest; cbn [ht_mmu ht_image demo_heap heap_start heap_end heap_max].
  - exact demo_dir_inv.
  - change (0x600000 / 4096) with 0x600. change (page_up 0x600000) with 0x600. change (page_up 0x700000) with 0x700.
    unfold page_no. lia.
  - intros q Hq. apply demo_unmapped. revert Hq. change (page_up 0x600000) with 0x600. change (page_up 0x700000) with 0x700.
    unfold page_no. lia.
  - change (0x600000 / 4096) with 0x600. change (page_up 0x600000) with 0x600. lia.
  - change (0x600000 / 4096) with 0x600. change (page_up 0x600000) with 0x600. lia.
Qed.

Lemma sys_brk_correct_witness :
  exists r t', sys_brk 0x600010 (Some demo_heap) = (r, Some t') /\ brk_inv coalesced t' /\ r = 0x600010 /\ grown demo_heap 0x600010 t'.
Proof.
  destruct (sys_brk_correct coalesced demo_heap 0x600010 demo_heap_inv ltac:(by vm_compute))
    as (r & t' & E & B & _ & _ & _ & G & _).
  exists r, t'. split; [exact E|]. split; [exact B|].
  destruct G as [G|(Hr & _)]; [by_vm|by_vm|exact G|].
  exfalso. assert ((sys_brk 0x600010 (Some demo_heap)).1 = 0x600010) as E' by by_vm.
  rewrite E in E'. cbn [fst] in E'. clear E B. rewrite E' in Hr. vm_compute in Hr. discriminate Hr.
Defined.

Lemma sbrk_boundaries_witness :
  sbrk 0x200000 (mk_sbrk 0x600000 true (Some demo_heap)) = (0x600000, mk_sbrk (u32 (-1)) true (Some demo_heap)).
Proof. apply (sbrk_boundaries coalesced demo_heap 0x200000 demo_heap_inv); by vm_compute. Defined.
