(* ===== verification/Tasks.v ===== *)
(** Processes: a model of the task table, the hierarchy of tasks, waiting and exit
    of [src/kernel/kernel/task/task.c], of [src/kernel/kernel/task/wait.c] and of
    the system calls on processes in [src/kernel/kernel/task/syscall].

    The fields of a task that the scheduler uses are those of Sched; the other
    ones that these functions use are a second record at the same address.
    [kmalloc] gives the addresses of new tasks and wait objects, which are
    arguments here.  What happens while a task waits is an argument too: [yield]
    is the effect of [scheduler_yield] until it returns to the caller, that is of
    the other tasks. *)

From S2P Require Import Prelude Errno Dll Sched Signals.
From Stdlib Require Import ZArith Lia Bool.
From stdpp Require Import base tactics numbers list.
Open Scope Z_scope.

Record proc := mk_proc {
  pgid : Z; exit_code : Z; parent : Z; first_child : Z; prev_sibling : Z; next_sibling : Z;
  waiting_queue : Z; children_wait_queue : Z; sig_pending : Z }.

Definition set_pgid v p := mk_proc v (exit_code p) (parent p) (first_child p) (prev_sibling p) (next_sibling p) (waiting_queue p) (children_wait_queue p) (sig_pending p).
Definition set_exit_code v p := mk_proc (pgid p) v (parent p) (first_child p) (prev_sibling p) (next_sibling p) (waiting_queue p) (children_wait_queue p) (sig_pending p).
Definition set_parent v p := mk_proc (pgid p) (exit_code p) v (first_child p) (prev_sibling p) (next_sibling p) (waiting_queue p) (children_wait_queue p) (sig_pending p).
Definition set_first_child v p := mk_proc (pgid p) (exit_code p) (parent p) v (prev_sibling p) (next_sibling p) (waiting_queue p) (children_wait_queue p) (sig_pending p).
Definition set_prev_sibling v p := mk_proc (pgid p) (exit_code p) (parent p) (first_child p) v (next_sibling p) (waiting_queue p) (children_wait_queue p) (sig_pending p).
Definition set_next_sibling v p := mk_proc (pgid p) (exit_code p) (parent p) (first_child p) (prev_sibling p) v (waiting_queue p) (children_wait_queue p) (sig_pending p).
Definition set_pending v p := mk_proc (pgid p) (exit_code p) (parent p) (first_child p) (prev_sibling p) (next_sibling p) (waiting_queue p) (children_wait_queue p) v.

#[export] Program Instance proc_linked : Linked proc := {|
  lnext := next_sibling; lprev := prev_sibling; set_lnext := set_next_sibling; set_lprev := set_prev_sibling |}.
Solve All Obligations with done.

(** A wait object: the tasks in [waiters], the first [count] entries. *)
Record wait_obj := mk_wait_obj { waiters : list Z; capacity : Z; wakeup_all : bool }.

(** The scheduler, the tasks, the array [tasks] with its two counters, the wait
    objects and [any_child_zombie_found]. *)
Record system := mk_system {
  sched_of : sched; procs : Z -> proc; table : Z -> Z; tasks_length : Z; tasks_present : Z;
  wait_objs : Z -> wait_obj; any_child_zombie_found : Z }.

Definition set_sched v s := mk_system v (procs s) (table s) (tasks_length s) (tasks_present s) (wait_objs s) (any_child_zombie_found s).
Definition set_procs v s := mk_system (sched_of s) v (table s) (tasks_length s) (tasks_present s) (wait_objs s) (any_child_zombie_found s).
Definition set_table t n k s := mk_system (sched_of s) (procs s) t n k (wait_objs s) (any_child_zombie_found s).
Definition set_wait_objs v s := mk_system (sched_of s) (procs s) (table s) (tasks_length s) (tasks_present s) v (any_child_zombie_found s).
Definition set_zombie_found v s := mk_system (sched_of s) (procs s) (table s) (tasks_length s) (tasks_present s) (wait_objs s) v.
Definition set_proc x p s := set_procs (procs s).[x <- p] s.

Definition state_of (s : system) (x : Z) : task_state := t_state (tasks (sched_of s) x).
Definition pid_of (s : system) (x : Z) : Z := t_pid (tasks (sched_of s) x).
Definition set_state x st s := set_sched (set_task x (set_t_state st (tasks (sched_of s) x)) (sched_of s)) s.

(** ** The table of tasks *)

Definition TASKS_LIST_REALLOC_SIZE : Z := 10.

(** [task_allocate], with the addresses of the task and of its two wait objects.
    The zeroed state is set by the callers before it is read; it is
    [TASK_WAITING] from the start here. *)
Definition task_allocate (task q1 q2 : Z) (s : system) : system :=
  let event := mk_wait_obj [] 5 true in
  let s := set_wait_objs (wait_objs s).[q1 <- event].[q2 <- event] s in
  let s := set_proc task (mk_proc 0 0 0 0 0 0 q1 q2 0) s in
  let '(pid, s) :=
    if tasks_length s =? tasks_present s then
      let new_size := u32 (tasks_length s + TASKS_LIST_REALLOC_SIZE) in
      let t := for_loop TASKS_LIST_REALLOC_SIZE (fun i t => t.[tasks_length s + i <- 0]) (table s) in
      let pid := tasks_present s in
      (pid, set_table t.[pid <- task] new_size (u32 (tasks_present s + 1)) s)
    else
      match find_from (Z.to_nat (tasks_length s)) 0 (fun i => table s i =? 0) with
      | Some i => (i, set_table (table s).[i <- task] (tasks_length s) (u32 (tasks_present s + 1)) s)
      | None => (0, s)
      end in
  let s := set_sched (set_task task (mk_task pid TASK_WAITING 0 0 0) (sched_of s)) s in
  set_proc task (set_pgid pid (procs s task)) s.

(** The end of [task_destroy]: the entry of the table. *)
Definition task_destroy (task : Z) (s : system) : system :=
  if task =? 0 then s else
  set_table (table s).[pid_of s task <- 0] (tasks_length s) (u32 (tasks_present s - 1)) s.

Definition task_get_tasks_count (s : system) : Z := tasks_present s.

(** The loop over the table that counts to [index]. *)
Fixpoint nth_present (n : nat) (i found index : Z) (t : Z -> Z) : Z :=
  match n with
  | O => 0
  | S n =>
      if negb (t i =? 0) then
        if found =? index then t i else nth_present n (i + 1) (found + 1) index t
      else nth_present n (i + 1) found index t
  end.

Definition task_get_task_by_index (index : Z) (s : system) : Z :=
  if tasks_present s <=? index then 0
  else nth_present (Z.to_nat (tasks_length s)) 0 0 index (table s).

Definition task_get_task_by_pid (pid : Z) (s : system) : Z :=
  match find_from (Z.to_nat (tasks_length s)) 0 (fun i => negb (table s i =? 0) && (pid_of s (table s i) =? pid)) with
  | Some i => table s i
  | None => 0
  end.

(** The array without the [NULL] at its end. *)
Fixpoint with_pgid (n : nat) (i g : Z) (s : system) : list Z :=
  match n with
  | O => []
  | S n =>
      if negb (table s i =? 0) && (pgid (procs s (table s i)) =? g) then table s i :: with_pgid n (i + 1) g s
      else with_pgid n (i + 1) g s
  end.

Definition task_get_tasks_by_pgid (g : Z) (s : system) : list Z := with_pgid (Z.to_nat (tasks_length s)) 0 g s.

(** ** Wait objects *)

Definition enqueue_waiter (w waiter : Z) (s : system) : system :=
  let o := wait_objs s w in
  let cap := if Z.of_nat (length (waiters o)) =? capacity o then capacity o + 10 else capacity o in
  set_wait_objs (wait_objs s).[w <- mk_wait_obj (waiters o ++ [waiter]) cap (wakeup_all o)] s.

Fixpoint remove_first (x : Z) (l : list Z) : list Z :=
  match l with [] => [] | y :: l => if y =? x then l else y :: remove_first x l end.

Definition dequeue_waiter (w waiter : Z) (s : system) : system :=
  let o := wait_objs s w in
  set_wait_objs (wait_objs s).[w <- mk_wait_obj (remove_first waiter (waiters o)) (capacity o) (wakeup_all o)] s.

Section Tasks.
Context (fuel : nat).

Definition move_to_state (x : Z) (st : task_state) (s : system) : option system :=
  c ← scheduler_move_task_to_state fuel x st (sched_of s); Some (set_sched c s).

Fixpoint wake_all (l : list Z) (s : system) : option system :=
  match l with
  | [] => Some s
  | x :: l => s ← move_to_state x TASK_WAITING s; wake_all l s
  end.

Definition wait_wake_up (w : Z) (s : system) : option system :=
  let o := wait_objs s w in
  if wakeup_all o then wake_all (waiters o) s
  else match waiters o with [] => Some s | x :: _ => move_to_state x TASK_WAITING s end.

(** ** The hierarchy *)

(** [while (last->next_sibling != NULL) last = last->next_sibling;] *)
Fixpoint last_sibling (n : nat) (ps : Z -> proc) (p : Z) : option Z :=
  match n with
  | O => None
  | S n => if next_sibling (ps p) =? 0 then Some p else last_sibling n ps (next_sibling (ps p))
  end.

(** The end of [task_create] and of [task_fork]. *)
Definition add_child (par child : Z) (s : system) : option system :=
  let s := set_proc child (set_parent par (procs s child)) s in
  if first_child (procs s par) =? 0 then Some (set_proc par (set_first_child child (procs s par)) s)
  else
    last ← last_sibling fuel (procs s) (first_child (procs s par));
    let s := set_proc last (set_next_sibling child (procs s last)) s in
    Some (set_proc child (set_prev_sibling last (procs s child)) s).

(** [task_create]: the table and the hierarchy. *)
Definition task_create (task q1 q2 : Z) (s : system) : option system :=
  let s := task_allocate task q1 q2 s in
  let par := current_task (sched_of s) in
  if par =? 0 then Some (set_proc task (set_parent 0 (procs s task)) s) else add_child par task s.

(** [task_fork]: the table, the process group, the hierarchy and the scheduler. *)
Definition task_fork (child q1 q2 : Z) (s : system) : option system :=
  let par := current_task (sched_of s) in
  let s := task_allocate child q1 q2 s in
  let s := set_proc child (set_pgid (pgid (procs s par)) (procs s child)) s in
  s ← add_child par child s;
  let s := set_state child TASK_WAITING s in
  c ← scheduler_add_task fuel child (sched_of s); Some (set_sched c s).

(** The loop of [task_exit] over the children. *)
Fixpoint exit_children (n : nat) (current child : Z) (s : system) : option system :=
  match n with
  | O => None
  | S n =>
      if child =? 0 then Some s else
      let next_child := next_sibling (procs s child) in
      s ← (if decide (state_of s child = TASK_ZOMBIE) then move_to_state child TASK_DEAD s
           else Some (set_proc child (set_parent (parent (procs s current)) (procs s child)) s));
      exit_children n current next_child s
  end.

(** [task_exit] up to [scheduler_yield], which does not return. *)
Definition task_exit (code : Z) (s : system) : outcome (option system) :=
  let current := current_task (sched_of s) in
  if current =? 0 then Panic else
  let s := set_proc current (set_exit_code code (procs s current)) s in
  Done (
    s ← move_to_state current TASK_ZOMBIE s;
    s ← wait_wake_up (waiting_queue (procs s current)) s;
    s ← (if negb (parent (procs s current) =? 0)
         then wait_wake_up (children_wait_queue (procs s (parent (procs s current)))) s else Some s);
    exit_children fuel current (first_child (procs s current)) s).

(** ** Waiting *)

(** A condition: its result, and its effect on the state. *)
Definition condition : Type := system -> option (bool * system).

Context (yield : system -> option system).

Fixpoint wait_loop (n : nat) (cond : condition) (task : Z) (block_state : task_state) (s : system) : option system :=
  match n with
  | O => None
  | S n =>
      if decide (state_of s task = block_state) then
        r ← cond s;
        let '(holds, s) := (r : bool * system) in
        if holds then Some s else s ← yield s; wait_loop n cond task block_state s
      else Some s
  end.

Definition wait_on_condition_impl (w : Z) (cond : condition) (block_state : task_state) (s : system) : option system :=
  let task := current_task (sched_of s) in
  if task =? 0 then Some s else
  s ← move_to_state task block_state s;
  let s := enqueue_waiter w task s in
  s ← wait_loop fuel cond task block_state s;
  let s := dequeue_waiter w task s in
  if decide (state_of s task = block_state) then move_to_state task TASK_RUNNING s else Some s.

Definition wait_on_condition (w : Z) (cond : condition) (s : system) : option system :=
  wait_on_condition_impl w cond TASK_BLOCKED s.

(** [while (child != NULL && !p(child)) child = child->next_sibling;] *)
Fixpoint find_sibling (n : nat) (s : system) (p : Z -> bool) (child : Z) : option Z :=
  match n with
  | O => None
  | S n => if (child =? 0) || p child then Some child else find_sibling n s p (next_sibling (procs s child))
  end.

Definition is_state (s : system) (st : task_state) (x : Z) : bool := bool_decide (state_of s x = st).

(** The two conditions; the exit code they store is stored again by [task_wait]. *)
Definition task_wait_for_child (pid : Z) : condition := fun s =>
  let par := current_task (sched_of s) in
  if par =? 0 then Some (false, s) else
  child ← find_sibling fuel s (fun x => pid_of s x =? u32 pid) (first_child (procs s par));
  if child =? 0 then Some (false, s) else Some (is_state s TASK_ZOMBIE child, s).

Definition task_wait_for_any_child : condition := fun s =>
  let par := current_task (sched_of s) in
  if par =? 0 then Some (false, s) else
  child ← find_sibling fuel s (is_state s TASK_ZOMBIE) (first_child (procs s par));
  if child =? 0 then Some (false, s) else Some (true, set_zombie_found child s).

(** The end of both branches of [task_wait]: the result and the exit code. *)
Definition reap (par child : Z) (s : system) : Z * Z * system :=
  let code := exit_code (procs s child) in
  let s :=
    if negb (prev_sibling (procs s child) =? 0)
    then set_proc (prev_sibling (procs s child)) (set_next_sibling (next_sibling (procs s child)) (procs s (prev_sibling (procs s child)))) s
    else set_proc par (set_first_child (next_sibling (procs s child)) (procs s par)) s in
  let s :=
    if negb (next_sibling (procs s child) =? 0)
    then set_proc (next_sibling (procs s child)) (set_prev_sibling (prev_sibling (procs s child)) (procs s (next_sibling (procs s child)))) s
    else s in
  let s := set_proc child (set_prev_sibling 0 (procs s child)) s in
  let s := set_proc child (set_next_sibling 0 (procs s child)) s in
  let s := set_state child TASK_DEAD s in
  (i32 (pid_of s child), code, s).

(** The result, the exit code stored through the pointer, if any, and the state.
    An address 0 that is dereferenced is the object at 0 here. *)
Definition task_wait (pid : Z) (s : system) : option (Z * option Z * system) :=
  let par := current_task (sched_of s) in
  if first_child (procs s par) =? 0 then Some (-1, None, s) else
  if 0 <=? pid then
    child ← find_sibling fuel s (fun x => pid_of s x =? u32 pid) (first_child (procs s par));
    if child =? 0 then Some (-2, None, s) else
    s ← wait_on_condition (waiting_queue (procs s child)) (task_wait_for_child pid) s;
    let '(r, code, s) := reap par child s in
    Some (r, Some code, s)
  else
    s ← wait_on_condition (children_wait_queue (procs s par)) task_wait_for_any_child s;
    let '(r, code, s) := reap par (any_child_zombie_found s) s in
    Some (r, Some code, s).

(** ** System calls *)

Definition WNOHANG : Z := 1.

Definition find_child (par pid : Z) (s : system) : option Z :=
  child ← find_sibling fuel s (fun x => pid_of s x =? u32 pid) (first_child (procs s par));
  Some (if negb (child =? 0) && is_state s TASK_ZOMBIE child then child else 0).

Definition find_any_zombie_child (par : Z) (s : system) : option Z :=
  find_sibling fuel s (is_state s TASK_ZOMBIE) (first_child (procs s par)).

Definition wait_and_report (pid : Z) (s : system) : option (Z * option Z * system) :=
  r ← task_wait pid s;
  let '(reaped_pid, code, s) := (r : Z * option Z * system) in
  Some (if 0 <? reaped_pid then reaped_pid else - ENOTSUP, code, s).

Definition sys_wait (pid options : Z) (s : system) : option (Z * option Z * system) :=
  let curr := current_task (sched_of s) in
  if curr =? 0 then Some (- ENOTSUP, None, s) else
  if negb (Z.land options WNOHANG =? 0) then
    if 0 <? pid then
      child ← find_child curr pid s;
      if child =? 0 then Some (- ECHILD, None, s)
      else if negb (is_state s TASK_ZOMBIE child) then Some (0, None, s)
      else wait_and_report pid s
    else if first_child (procs s curr) =? 0 then Some (- ECHILD, None, s)
    else
      zombie ← find_any_zombie_child curr s;
      if zombie =? 0 then Some (0, None, s) else wait_and_report pid s
  else wait_and_report pid s.

Definition sys_sigsend_impl (receiver sig : Z) (s : system) : option system :=
  let s := set_proc receiver (set_pending (add_signal sig (sig_pending (procs s receiver))) (procs s receiver)) s in
  if decide (state_of s receiver = TASK_BLOCKED \/ state_of s receiver = TASK_SLEEPING)
  then move_to_state receiver TASK_WAITING s else Some s.

Fixpoint send_all (l : list Z) (sig : Z) (s : system) : option system :=
  match l with
  | [] => Some s
  | x :: l => s ← sys_sigsend_impl x sig s; send_all l sig s
  end.

Definition sys_sigsend (pid sig : Z) (s : system) : option (Z * system) :=
  if (sig <? 0) || (31 <? sig) then Some (- EINVAL, s) else
  let sender := current_task (sched_of s) in
  if sender =? 0 then Some (- ENOTSUP, s) else
  if 0 <? pid then
    let receiver := task_get_task_by_pid pid s in
    if receiver =? 0 then Some (- ESRCH, s) else
    s ← sys_sigsend_impl receiver sig s; Some (0, s)
  else
    let g := if pid =? 0 then i32 (pgid (procs s sender)) else if pid <? -1 then i32 (- pid) else -1 in
    if negb (g =? -1) then
      let receivers := task_get_tasks_by_pgid (u32 g) s in
      match receivers with
      | [] => Some (- ESRCH, s)
      | _ => s ← send_all receivers sig s; Some (0, s)
      end
    else Some (- EINVAL, s).

(** [sys_fork] *)
Definition sys_fork (child q1 q2 : Z) (s : system) : option (Z * system) :=
  s ← task_fork child q1 q2 s; Some (i32 (pid_of s child), s).

Definition sys_getpid (s : system) : Z :=
  let current := current_task (sched_of s) in if current =? 0 then 0 else pid_of s current.

Definition sys_getppid (s : system) : Z :=
  let current := current_task (sched_of s) in
  if (current =? 0) || (parent (procs s current) =? 0) then 0 else pid_of s (parent (procs s current)).

(** The task the two calls on process groups are about, or the error. *)
Definition group_target (pid : Z) (s : system) : Z + Z :=
  if pid =? 0 then
    let t := current_task (sched_of s) in if t =? 0 then inr (- ENOTSUP) else inl t
  else
    let t := task_get_task_by_pid pid s in if t =? 0 then inr (- ESRCH) else inl t.

Definition sys_getpgid (pid : Z) (s : system) : Z :=
  match group_target pid s with inl t => pgid (procs s t) | inr e => u32 e end.

Definition sys_setpgid (pid g : Z) (s : system) : Z * system :=
  match group_target pid s with
  | inl t => (0, set_proc t (set_pgid (if 0 <? g then g else pid_of s t) (procs s t)) s)
  | inr e => (e, s)
  end.
End Tasks.
