(* ===== verification/TasksSpec.v ===== *)
(** Processes: the table of tasks is a finite map from process numbers, and what
    fork, exit and wait do to the hierarchy and to the queues of the scheduler. *)

From S2P Require Import Prelude Errno Dll Sched SchedSpec Signals Tasks.
From Stdlib Require Import ZArith Lia Bool.
From stdpp Require Import base tactics numbers list sets gmap.
Open Scope Z_scope.

(** ** The table *)

(** [M] maps the number of every present task to its address. *)
Record table_rep (s : system) (M : gmap Z Z) : Prop := {
  tr_length : 0 <= tasks_length s < 2 ^ 32;
  tr_entry i : 0 <= i < tasks_length s -> table s i = default 0 (M !! i);
  tr_task i x : M !! i = Some x -> x <> 0 /\ pid_of s x = i /\ 0 <= i < tasks_length s;
  tr_present : tasks_present s = Z.of_nat (size M) }.

(** The least number that is not in use. *)
Definition least_free (M : gmap Z Z) (p : Z) : Prop :=
  0 <= p /\ M !! p = None /\ forall q, 0 <= q < p -> is_Some (M !! q).

Lemma size_seqZ n : 0 <= n -> size (list_to_set (seqZ 0 n) : gset Z) = Z.to_nat n.
Proof. intros Hn. rewrite size_list_to_set by apply NoDup_seqZ. apply length_seqZ. Qed.

Lemma table_dom s M : table_rep s M -> dom M ⊆ (list_to_set (seqZ 0 (tasks_length s)) : gset Z).
Proof.
  intros T p Hp. apply elem_of_dom in Hp as [x Hx]. apply elem_of_list_to_set, elem_of_seqZ.
  destruct (tr_task _ _ T p x Hx) as (_ & _ & ?). lia.
Qed.

(** The table is full exactly when the counters are equal. *)
Lemma table_full s M : table_rep s M ->
  (tasks_length s = tasks_present s -> forall i, 0 <= i < tasks_length s -> is_Some (M !! i)) /\
  (tasks_length s <> tasks_present s -> exists i, 0 <= i < tasks_length s /\ M !! i = None) /\
  tasks_present s <= tasks_length s.
Proof.
  intros T. pose proof (table_dom s M T) as Hd. pose proof (tr_length _ _ T) as Hl. pose proof (tr_present _ _ T) as Hp.
  pose proof (subseteq_size _ _ Hd) as Hs. rewrite size_seqZ in Hs by lia. rewrite size_dom in Hs. split; [|split; [|lia]].
  - intros E i Hi. apply elem_of_dom. assert (dom M = list_to_set (seqZ 0 (tasks_length s))) as ->.
    { apply leibniz_equiv, set_subseteq_size_equiv; [done|]. rewrite size_seqZ, size_dom by lia. lia. }
    apply elem_of_list_to_set, elem_of_seqZ. lia.
  - intros E. destruct (decide (Exists (fun i => M !! i = None) (seqZ 0 (tasks_length s)))) as [(i & Hi & Hn)%Exists_exists|Hno].
    + exists i. apply elem_of_seqZ in Hi. split; [lia|done].
    + exfalso. assert ((list_to_set (seqZ 0 (tasks_length s)) : gset Z) ⊆ dom M) as Hsub.
      { intros i Hi. apply elem_of_list_to_set in Hi. apply elem_of_dom. destruct (M !! i) eqn:Ei; [done|]. exfalso. apply Hno, Exists_exists. by exists i. }
      apply subseteq_size in Hsub. rewrite size_seqZ, size_dom in Hsub by lia. lia.
Qed.

Lemma zero_fill n t a i :
  0 <= n -> for_loop n (fun i t => t.[a + i <- 0]) t i = if (a <=? i) && (i <? a + n) then 0 else t i.
Proof.
  intros Hn. apply (for_loop_ind (fun k (t' : Z -> Z) => t' i = if (a <=? i) && (i <? a + k) then 0 else t i)); [done|..].
  - by replace (_ && _) with false by lia.
  - intros j t' Hj E. unfold upd. rewrite E. zbool; cbn; try lia; done.
Qed.

(** A table with a new entry. *)
Lemma table_rep_insert s s' M p task :
  table_rep s M -> M !! p = None -> task <> 0 -> (forall q, M !! q <> Some task) ->
  0 <= p < tasks_length s' -> tasks_length s <= tasks_length s' < 2 ^ 32 ->
  (forall i, 0 <= i < tasks_length s' -> table s' i = if decide (i = p) then task else if decide (i < tasks_length s) then table s i else 0) ->
  tasks_present s' = tasks_present s + 1 -> pid_of s' task = p -> (forall x, x <> task -> pid_of s' x = pid_of s x) ->
  table_rep s' (<[p := task]> M).
Proof.
  intros T Hp Ht Hf Hr Hl He Hn Hpid Hpids. split.
  - pose proof (tr_length _ _ T). lia.
  - intros i Hi. rewrite He by done. destruct (decide (i = p)) as [->|]; [by rewrite lookup_insert_eq|]. rewrite lookup_insert_ne by done.
    case_decide; [apply (tr_entry _ _ T); lia|]. destruct (M !! i) as [x|] eqn:E; [|done]. destruct (tr_task _ _ T i x E). lia.
  - intros i x. rewrite lookup_insert_Some. intros [[<- <-]|[Hne E]]; [done|]. destruct (tr_task _ _ T i x E) as (? & ? & ?).
    rewrite Hpids by (intros ->; by apply (Hf i)). split; [done|]. split; [done|lia].
  - rewrite map_size_insert_None, Hn, (tr_present _ _ T) by done. lia.
Qed.

Lemma task_allocate_spec s M task q1 q2 :
  table_rep s M -> tasks_length s + TASKS_LIST_REALLOC_SIZE < 2 ^ 32 -> task <> 0 -> (forall p, M !! p <> Some task) ->
  let s' := task_allocate task q1 q2 s in
  exists p, least_free M p /\ table_rep s' (<[p := task]> M) /\
    procs s' = (procs s).[task <- mk_proc 0 0 0 0 0 0 q1 q2 0].[task <- mk_proc p 0 0 0 0 0 q1 q2 0] /\
    sched_of s' = set_task task (mk_task p TASK_WAITING 0 0 0) (sched_of s) /\
    wait_objs s' = (wait_objs s).[q1 <- mk_wait_obj [] 5 true].[q2 <- mk_wait_obj [] 5 true].
Proof.
  intros T Hl Ht Hfresh. destruct (table_full s M T) as (F1 & F2 & F3). pose proof (tr_length _ _ T) as HL. unfold TASKS_LIST_REALLOC_SIZE in Hl.
  cbv zeta. unfold task_allocate. set (s1 := set_proc task _ _).
  assert (Hpids : forall p x t n k, pid_of (set_proc task (set_pgid p (procs s1 task)) (set_sched (set_task task (mk_task p TASK_WAITING 0 0 0) (sched_of s1)) (set_table t n k s1))) x
    = if decide (x = task) then p else pid_of s x).
  { intros p x t n k. unfold pid_of. cbn. rewrite upd_cases. by destruct (decide (x = task)). }
  change (tasks_length s1) with (tasks_length s). change (tasks_present s1) with (tasks_present s).
  destruct (Z.eqb_spec (tasks_length s) (tasks_present s)) as [E|E].
  - exists (tasks_present s). assert (Hfree : M !! tasks_present s = None).
    { destruct (M !! tasks_present s) as [x|] eqn:Ex; [|done]. destruct (tr_task _ _ T _ _ Ex). lia. }
    pose proof (tr_present _ _ T). split; [split; [lia|split; [done|]]; intros q Hq; apply F1; [done|lia]|].
    unfold TASKS_LIST_REALLOC_SIZE in *. rewrite !u32_small by lia. split; [|split; [cbn; by rewrite upd_eq|done]].
    apply (table_rep_insert s); try done; cbn; try lia.
    + intros i Hi. rewrite upd_cases, zero_fill by lia. destruct (decide (i = tasks_present s)); [done|].
      change (table s1) with (table s). zbool; cbn; repeat case_decide; try lia; done.
    + rewrite Hpids. by rewrite decide_True.
    + intros x Hx. rewrite Hpids. by rewrite decide_False.
  - destruct (F2 E) as (i & Hi & Hn).
    destruct (find_from (Z.to_nat (tasks_length s)) 0 (fun i => table s1 i =? 0)) as [p|] eqn:Ef.
    2: { rewrite find_from_None in Ef. specialize (Ef i ltac:(lia)). change (table s1 i) with (table s i) in Ef. rewrite (tr_entry _ _ T i Hi), Hn in Ef. done. }
    apply find_from_Some in Ef as (Hp & Hp0 & Hq). change (table s1) with (table s) in *. exists p.
    assert (Hfree : forall i, 0 <= i < tasks_length s -> table s i = 0 <-> M !! i = None).
    { intros j Hj. rewrite (tr_entry _ _ T j Hj). destruct (M !! j) as [x|] eqn:Ex; [|done]. destruct (tr_task _ _ T j x Ex). cbn. naive_solver. }
    split; [split; [lia|split]|].
    + apply Hfree; lia.
    + intros q Hq'. specialize (Hq q ltac:(lia)). destruct (M !! q) eqn:Eq; [done|]. apply Hfree in Eq; lia.
    + rewrite u32_small by (pose proof (tr_present _ _ T); lia). split; [|split; [cbn; by rewrite upd_eq|done]].
      apply (table_rep_insert s); try done; cbn; try lia.
      * apply Hfree; lia.
      * intros j Hj. rewrite upd_cases. repeat case_decide; try lia; done.
      * rewrite Hpids. by rewrite decide_True.
      * intros x Hx. rewrite Hpids. by rewrite decide_False.
Qed.

Lemma task_destroy_spec s M p x : table_rep s M -> M !! p = Some x -> table_rep (task_destroy x s) (delete p M).
Proof.
  intros T E. destruct (tr_task _ _ T p x E) as (Hx & Hp & Hr). unfold task_destroy. replace (x =? 0) with false by lia. rewrite Hp.
  assert (1 <= size M)%nat by (pose proof (map_size_non_empty_iff M) as H; destruct H as [_ H]; specialize (H ltac:(intros ->; done)); lia).
  pose proof (tr_length _ _ T). destruct (table_full s M T) as (_ & _ & HF). pose proof (tr_present _ _ T).
  rewrite u32_small by lia. split; [done|..].
  - intros i Hi. cbn. rewrite upd_cases. destruct (decide (i = p)) as [->|]; [by rewrite lookup_delete_eq|].
    rewrite lookup_delete_ne by done. by apply (tr_entry _ _ T).
  - intros i y. rewrite lookup_delete_Some. intros [_ Ei]. by apply (tr_task _ _ T).
  - cbn. rewrite map_size_delete_Some by done. lia.
Qed.

Lemma by_pid_spec s M p : table_rep s M -> task_get_task_by_pid p s = default 0 (M !! p).
Proof.
  intros T. unfold task_get_task_by_pid. destruct (find_from _ 0 _) as [i|] eqn:Ef.
  - apply find_from_Some in Ef as (Hi & Hp & _). apply andb_true_iff in Hp as [H0 Hp]. apply negb_true_iff in H0.
    rewrite (tr_entry _ _ T i ltac:(lia)) in *. destruct (M !! i) as [x|] eqn:E; [|done]. destruct (tr_task _ _ T i x E) as (_ & Ep & _).
    cbn in Hp. rewrite Ep in Hp. apply Z.eqb_eq in Hp as <-. by rewrite E.
  - rewrite find_from_None in Ef. destruct (M !! p) as [x|] eqn:E; [|done]. exfalso. destruct (tr_task _ _ T p x E) as (Hx & Ep & Hr).
    specialize (Ef p ltac:(lia)). rewrite (tr_entry _ _ T p Hr), E in Ef. cbn in Ef. rewrite Ep in Ef. lia.
Qed.

(** The present tasks in the order of their numbers. *)
Definition present (s : system) (M : gmap Z Z) : list Z := omap (fun i => M !! i) (seqZ 0 (tasks_length s)).

Lemma nth_present_spec s M : table_rep s M -> forall n i found index,
  0 <= i -> i + Z.of_nat n <= tasks_length s -> found <= index ->
  nth_present n i found index (table s) = default 0 (omap (fun i => M !! i) (seqZ i (Z.of_nat n)) !! Z.to_nat (index - found)).
Proof.
  intros T. induction n as [|n IH]; intros i found index Hi Hn Hf; [done|]. cbn [nth_present].
  rewrite seqZ_cons by lia. replace (Z.pred (Z.of_nat (S n))) with (Z.of_nat n) by lia. rewrite <- Z.add_1_r. cbn [omap list_omap].
  rewrite (tr_entry _ _ T i) by lia. destruct (M !! i) as [x|] eqn:E; cbn.
  - destruct (tr_task _ _ T i x E) as (Hx & _). replace (x =? 0) with false by lia. cbn [negb]. destruct (Z.eqb_spec found index) as [->|].
    + by rewrite Z.sub_diag.
    + rewrite IH by lia. replace (Z.to_nat (index - found)) with (S (Z.to_nat (index - (found + 1)))) by lia. done.
  - apply IH; lia.
Qed.

Lemma with_pgid_spec s M g : table_rep s M -> forall n i x,
  0 <= i -> i + Z.of_nat n <= tasks_length s ->
  x ∈ with_pgid n i g s <-> exists p, i <= p < i + Z.of_nat n /\ M !! p = Some x /\ pgid (procs s x) = g.
Proof.
  intros T. induction n as [|n IH]; intros i x Hi Hn; cbn [with_pgid].
  - rewrite elem_of_nil. split; [done|]. intros (p & ? & _). lia.
  - rewrite (tr_entry _ _ T i) by lia.
    assert (forall P, (exists p, i <= p < i + Z.of_nat (S n) /\ P p) <-> P i \/ exists p, i + 1 <= p < i + 1 + Z.of_nat n /\ P p) as Hsplit.
    { intros P. split; [intros (p & Hp & HP)|intros [HP|(p & Hp & HP)]].
      - destruct (decide (p = i)) as [->|]; [by left|right]. exists p. split; [lia|done].
      - exists i. split; [lia|done].
      - exists p. split; [lia|done]. }
    rewrite Hsplit. destruct (M !! i) as [y|] eqn:E; cbn [default].
    + destruct (tr_task _ _ T i y E) as (Hy & _). unfold id. replace (y =? 0) with false by lia. cbn [negb andb].
      destruct (Z.eqb_spec (pgid (procs s y)) g) as [Eg|Eg]; rewrite ?elem_of_cons, IH by lia; naive_solver.
    + cbn. rewrite IH by lia. naive_solver.
Qed.

Lemma omap_length (M : gmap Z Z) n : (length (omap (fun i => M !! i) (seqZ 0 n)) <= size M)%nat.
Proof.
  assert (forall l : list Z, length (omap (fun i => M !! i) l) = length (filter (fun i => is_Some (M !! i)) l)) as ->.
  { induction l as [|i l IH]; [done|]. rewrite filter_cons. cbn. destruct (M !! i) as [x|] eqn:E; cbn.
    - rewrite decide_True by done. cbn. by rewrite IH.
    - rewrite decide_False by (by intros [? ?]). done. }
  set (l := filter _ _). assert (size (list_to_set l : gset Z) = length l) as <- by (apply size_list_to_set; subst l; apply NoDup_filter, NoDup_seqZ).
  rewrite <- (size_dom M). apply subseteq_size. subst l. intros i Hi. apply elem_of_list_to_set, list_elem_of_filter in Hi as [Hi _]. by apply elem_of_dom.
Qed.

(** C14: The table of tasks refines a finite map from process numbers.  Allocation
    gives the least number not in use, destruction takes the entry out, and the
    lookups by number, by position and by group find exactly the tasks of the
    map. *)
Theorem task_table_refines s M :
  table_rep s M ->
  (forall task q1 q2, tasks_length s + TASKS_LIST_REALLOC_SIZE < 2 ^ 32 -> task <> 0 -> (forall p, M !! p <> Some task) ->
     exists p, least_free M p /\ table_rep (task_allocate task q1 q2 s) (<[p := task]> M)) /\
  (forall p x, M !! p = Some x -> table_rep (task_destroy x s) (delete p M)) /\
  (forall p, task_get_task_by_pid p s = default 0 (M !! p)) /\
  (forall k, 0 <= k -> task_get_task_by_index k s = default 0 (present s M !! Z.to_nat k)) /\
  (forall g x, x ∈ task_get_tasks_by_pgid g s <-> exists p, M !! p = Some x /\ pgid (procs s x) = g) /\
  task_get_tasks_count s = Z.of_nat (size M).
Proof.
  intros T. pose proof (tr_length _ _ T). split; [|split; [|split; [|split; [|split]]]].
  - intros task q1 q2 Hl Ht Hf. destruct (task_allocate_spec s M task q1 q2 T Hl Ht Hf) as (p & ? & ? & _). by exists p.
  - intros p x. by apply task_destroy_spec.
  - intros p. by apply by_pid_spec.
  - intros k Hk. unfold task_get_task_by_index, present. pose proof (nth_present_spec s M T (Z.to_nat (tasks_length s)) 0 0 k) as N.
    rewrite Z2Nat.id, Z.sub_0_r in N by lia. destruct (Z.leb_spec (tasks_present s) k); [|apply N; lia].
    rewrite lookup_ge_None_2; [done|].
    assert (length (omap (fun i => M !! i) (seqZ 0 (tasks_length s))) <= size M)%nat; [|pose proof (tr_present _ _ T); lia].
    apply omap_length.
  - intros g x. unfold task_get_tasks_by_pgid. rewrite (with_pgid_spec s M g T) by lia. split.
    + intros (p & _ & ?). by exists p.
    + intros (p & E & ?). exists p. destruct (tr_task _ _ T p x E) as (_ & _ & ?). split; [lia|done].
  - apply (tr_present _ _ T).
Qed.

(** ** The hierarchy *)

(** The children of a task, in order. *)
Record family (s : system) (p : Z) (l : list Z) : Prop := {
  fm_list : dlist (procs s) (first_child (procs s p)) l;
  fm_parent x : x ∈ l -> parent (procs s x) = p }.

Lemma family_head s p l : family s p l -> first_child (procs s p) = head_or 0 l.
Proof. intros [D _]. by eapply dlist_head. Qed.

Lemma find_sibling_dseg s P l : forall n pv p, dseg (procs s) pv p l 0 -> (length l < n)%nat ->
  find_sibling n s P p = Some (default 0 (head (filter (fun x => P x = true) l))).
Proof.
  induction l as [|x l IH]; intros [|n] pv p D Hn; cbn in Hn; try lia; cbn [find_sibling].
  - cbn in D. by subst p.
  - destruct D as (-> & Hx & _ & D). replace (x =? 0) with false by lia. cbn [orb]. rewrite filter_cons. destruct (P x).
    + by rewrite decide_True.
    + rewrite decide_False by done. eapply IH; [done|lia].
Qed.

Lemma find_sibling_spec s p l n P : family s p l -> (length l < n)%nat ->
  find_sibling n s P (first_child (procs s p)) = Some (default 0 (head (filter (fun x => P x = true) l))).
Proof. intros [[D _] _]. by eapply find_sibling_dseg. Qed.

(** The first child that satisfies a test. *)
Lemma filter_first (P : Z -> bool) l1 c l2 : (forall x, x ∈ l1 -> P x = false) -> P c = true ->
  default 0 (head (filter (fun x => P x = true) (l1 ++ c :: l2))) = c.
Proof.
  intros H Hc. induction l1 as [|x l1 IH]; cbn [app].
  - by rewrite filter_cons_True.
  - rewrite filter_cons_False by (rewrite H by set_solver; done). apply IH. intros y Hy. apply H. set_solver.
Qed.

Lemma filter_none (P : Z -> bool) l : (forall x, x ∈ l -> P x = false) -> default 0 (head (filter (fun x => P x = true) l)) = 0.
Proof.
  intros H. induction l as [|x l IH]; [done|]. rewrite filter_cons_False by (rewrite H by set_solver; done).
  apply IH. intros y Hy. apply H. set_solver.
Qed.

Lemma last_sibling_spec ps l : forall n pv p x, dseg ps pv p (l ++ [x]) 0 -> (length l < n)%nat -> last_sibling n ps p = Some x.
Proof.
  induction l as [|y l IH]; intros [|n] pv p x D Hn; cbn in Hn; try lia; cbn [last_sibling app].
  - destruct D as (-> & _ & _ & E). cbn in E. by rewrite E.
  - destruct D as (-> & Hy & _ & D). assert (next_sibling (ps y) <> 0) by (destruct l as [|z l]; destruct D as (E & Hz & _); cbn in E; by rewrite E).
    replace (next_sibling (ps y) =? 0) with false by lia. eapply IH; [done|lia].
Qed.

(** A new task is appended to the children of its parent. *)
Lemma add_child_spec fuel s par child l :
  family s par l -> child <> 0 -> child <> par -> child ∉ l -> par ∉ l -> (length l < fuel)%nat ->
  next_sibling (procs s child) = 0 -> prev_sibling (procs s child) = 0 ->
  exists s', add_child fuel par child s = Some s' /\ s' = set_procs (procs s') s /\ family s' par (l ++ [child]) /\
    (forall p l', p <> par -> p <> child -> child ∉ l' -> family s p l' -> family s' p l') /\
    (forall x, pgid (procs s' x) = pgid (procs s x) /\ exit_code (procs s' x) = exit_code (procs s x) /\
      waiting_queue (procs s' x) = waiting_queue (procs s x) /\ children_wait_queue (procs s' x) = children_wait_queue (procs s x) /\
      (x <> par -> first_child (procs s' x) = first_child (procs s x))).
Proof.
  intros F Hc Hcp Hcl Hpl Hf Hn Hp. pose proof F as [D HP]. unfold add_child. set (s1 := set_proc child _ s).
  assert (P1 : forall x, procs s1 x = if decide (x = child) then set_parent par (procs s child) else procs s x) by (intros x; cbn; apply upd_cases).
  rewrite (P1 par), decide_False by done. pose proof (family_head s par l F) as Eh. destruct l as [|y l _] using rev_ind.
  - cbn in Eh. rewrite Eh. cbn [Z.eqb]. eexists. split; [reflexivity|]. split; [done|].
    set (s2 := set_proc par _ s1).
    assert (P2 : forall x, procs s2 x = if decide (x = par) then set_first_child child (procs s par) else procs s1 x).
    { intros x. cbn. rewrite upd_cases. by destruct (decide (x = par)). }
    clearbody s2. split; [|split].
    + split; [|intros x ->%list_elem_of_singleton; rewrite P2, decide_False, P1, decide_True by done; done].
      rewrite P2, decide_True by done. cbn. split; [|apply NoDup_singleton]. cbn.
      rewrite P2, decide_False, P1, decide_True by done. by cbn.
    + intros p l' Hpp Hpc Hcl' [D' HP']. split.
      * rewrite P2, decide_False, P1, decide_False by done. eapply dlist_frame; [|exact D']. intros x Hx. cbn.
        rewrite P2. destruct (decide (x = par)) as [->|]; [done|]. rewrite P1, decide_False by (by intros ->). done.
      * intros x Hx. rewrite P2. destruct (decide (x = par)) as [->|]; [by apply HP'|]. rewrite P1, decide_False by (by intros ->). by apply HP'.
    + intros x. rewrite P2, P1. repeat case_decide; simplify_eq; done.
  - assert (Hh : first_child (procs s par) <> 0) by (rewrite Eh; eapply dlist_nonzero; [exact D|]; apply head_or_elem; by destruct l).
    replace (_ =? 0) with false by lia. rewrite length_app in Hf. cbn in Hf.
    assert (D1 : dlist (procs s1) (first_child (procs s par)) (l ++ [y])).
    { eapply dlist_frame; [|exact D]. intros x Hx. by rewrite P1, decide_False by (by intros ->). }
    rewrite (last_sibling_spec (procs s1) l fuel 0 _ y) by (apply D1 || lia). cbn [mbind option_bind].
    assert (Hyl : y ∈ l ++ [y]) by set_solver. assert (Hyc : y <> child) by (by intros ->). assert (Hyp : y <> par) by (by intros ->).
    eexists. split; [reflexivity|]. split; [done|]. set (s3 := set_proc child _ _).
    assert (P3 : forall x, procs s3 x = if decide (x = child) then set_prev_sibling y (set_parent par (procs s child))
      else if decide (x = y) then set_next_sibling child (procs s y) else procs s x).
    { intros x. cbn. rewrite !upd_cases. repeat case_decide; simplify_eq; done. }
    clearbody s3. split; [|split].
    + split.
      * rewrite P3, !decide_False by done. pose proof (dlist_insert (procs s) (procs s3) (first_child (procs s par)) (l ++ [y]) [] child) as I.
        rewrite decide_False in I by (by destruct l). rewrite app_nil_r in I. apply I; clear I.
        -- done.
        -- done.
        -- done.
        -- rewrite P3, decide_True by done. cbn. by rewrite last_or_snoc.
        -- rewrite P3, decide_True by done. cbn. done.
        -- intros x Hx. assert (x <> child) by (by intros ->). assert (x <> 0) by (by eapply dlist_nonzero).
           rewrite P3, (decide_False (P := x = child)), last_or_snoc, (decide_False (P := x = head_or 0 [])) by done.
           by destruct (decide (x = y)) as [->|].
      * intros x [Hx| ->%list_elem_of_singleton]%elem_of_app; [|by rewrite P3, decide_True by done].
        rewrite P3, decide_False by (by intros ->). destruct (decide (x = y)) as [->|]; by apply HP.
    + intros p l' Hpp Hpc Hcl' [D' HP']. assert (Hyl' : y ∉ l') by (intros Hy; apply Hpp; rewrite <- (HP' y Hy); by apply HP).
      split.
      * rewrite P3, (decide_False (P := p = child)) by done.
        replace (first_child (if decide (p = y) then set_next_sibling child (procs s y) else procs s p)) with (first_child (procs s p)) by (by destruct (decide (p = y)) as [->|]).
        eapply dlist_frame; [|exact D']. intros x Hx. cbn. rewrite P3, !decide_False by (by intros ->). done.
      * intros x Hx. rewrite P3, !decide_False by (by intros ->). by apply HP'.
    + intros x. rewrite P3. repeat case_decide; simplify_eq; done.
Qed.

(** ** Fork *)

(** A task of the store that no queue refers to may change. *)
Lemma queues_frame s s' Q :
  queues s Q -> queue s' = queue s -> (forall x, queued Q x -> t_next (tasks s' x) = t_next (tasks s x) /\ t_prev (tasks s' x) = t_prev (tasks s x)) ->
  queues s' Q.
Proof.
  intros [HD HJ] Eq Hf. split; [|done]. intros q Hq. rewrite Eq. eapply dlist_frame; [|by apply HD]. intros x Hx. apply Hf. by exists q.
Qed.

(** An address that nothing refers to. *)
Record fresh (s : system) (M : gmap Z Z) (Q : task_state -> list Z) (x : Z) : Prop := {
  fr_zero : x <> 0; fr_table p : M !! p <> Some x; fr_queued : ~ queued Q x }.

Lemma table_rep_procs s M f w : table_rep s M -> table_rep (set_wait_objs w (set_procs f s)) M.
Proof. intros []. by split. Qed.

Lemma table_rep_sched s M c : table_rep s M -> (forall x, t_pid (tasks c x) = pid_of s x) -> table_rep (set_sched c s) M.
Proof.
  intros [] E. split; try done. intros i x Hx. unfold pid_of. cbn. rewrite E. by apply tr_task0.
Qed.

(** C16: Fork.  The child gets the least free process number, the process group of
    its parent, the last place among its children and one in the queue of waiting
    tasks; the children of the other tasks stay as they are. *)
Theorem task_fork_correct fuel s M Q l child q1 q2 :
  let par := current_task (sched_of s) in
  table_rep s M -> family s par l -> queues (sched_of s) Q -> fresh s M Q child ->
  par <> 0 -> par <> child -> child ∉ l -> par ∉ l -> (length l < fuel)%nat -> (forall q, (length (Q q) < fuel)%nat) ->
  tasks_length s + TASKS_LIST_REALLOC_SIZE < 2 ^ 32 ->
  exists s' p, task_fork fuel child q1 q2 s = Some s' /\ least_free M p /\ table_rep s' (<[p := child]> M) /\
    pgid (procs s' child) = pgid (procs s par) /\ family s' par (l ++ [child]) /\ family s' child [] /\
    (forall p l', p <> par -> p <> child -> child ∉ l' -> family s p l' -> family s' p l') /\
    state_of s' child = TASK_WAITING /\ queues (sched_of s') (qmove Q child TASK_WAITING) /\
    (forall x, x <> child -> state_of s' x = state_of s x).
Proof.
  intros par T F HQ [Hc0 Hct Hcq] Hp0 Hpc Hcl Hpl Hf Hfq Hlen. unfold task_fork. fold par.
  destruct (task_allocate_spec s M child q1 q2 T Hlen Hc0 Hct) as (p & Hleast & T1 & Ep & Es & Ew). set (s1 := task_allocate child q1 q2 s) in *.
  set (s2 := set_proc child _ s1).
  assert (P2 : forall x, procs s2 x = if decide (x = child) then mk_proc (pgid (procs s par)) 0 0 0 0 0 q1 q2 0 else procs s x).
  { intros x. cbn. rewrite Ep, !upd_eq, (upd_ne _ child par), (upd_ne _ child par) by done. rewrite !upd_cases. by destruct (decide (x = child)). }
  assert (F2 : forall p l', p <> child -> child ∉ l' -> family s p l' -> family s2 p l').
  { intros p' l' Hp' Hl' [D HP]. split.
    - rewrite P2, decide_False by done. eapply dlist_frame; [|exact D]. intros x Hx. by rewrite P2, decide_False by (by intros ->).
    - intros x Hx. rewrite P2, decide_False by (by intros ->). by apply HP. }
  destruct (add_child_spec fuel s2 par child l) as (s3 & -> & E3 & F3 & O3 & K3); [by apply F2|done|congruence|done|done|done| | |].
  { by rewrite P2, decide_True. }
  { by rewrite P2, decide_True. }
  cbn [mbind option_bind]. set (s4 := set_state child TASK_WAITING s3).
  assert (S3 : sched_of s3 = sched_of s1) by (rewrite E3; done).
  assert (S4 : forall x, tasks (sched_of s4) x = if decide (x = child) then mk_task p TASK_WAITING 0 0 0 else tasks (sched_of s) x).
  { intros x. cbn. rewrite S3, Es. cbn. rewrite upd_eq, !upd_cases. by destruct (decide (x = child)). }
  assert (HQ4 : queues (sched_of s4) Q).
  { eapply queues_frame; [exact HQ|cbn; by rewrite S3, Es|]. intros x Hx. rewrite S4, decide_False by (by intros ->). done. }
  destruct (move_spec fuel (sched_of s4) Q child TASK_WAITING HQ4) as (c & Em & [V1 V2 V3 V4 V5 V6 V7]); [|done|].
  { split; [done|right]. split; [done|]. unfold unlinked. by rewrite S4, decide_True. }
  unfold scheduler_add_task. rewrite Em. cbn [mbind option_bind].
  exists (set_sched c s4), p. split; [done|]. split; [done|]. split; [|split; [|split; [|split; [|split]]]].
  - apply table_rep_sched.
    + assert (table_rep s3 (<[p:=child]> M)) as T3 by (rewrite E3; by destruct T1).
      apply table_rep_sched; [done|]. intros x. cbn. rewrite upd_cases. by destruct (decide (x = child)) as [->|].
    + intros x. by rewrite V4.
  - destruct (K3 child) as [E _]. cbn. rewrite E, P2, decide_True by done. done.
  - destruct F3. by split.
  - destruct (K3 child) as (_ & _ & _ & _ & E). split; [|by intros x Hx%elem_of_nil]. cbn. rewrite E, P2, decide_True by done. apply dlist_nil.
  - intros p' l' H1 H2 H3 H4. destruct (O3 p' l' H1 H2 H3) as [D HP]; [by apply F2|]. by split.
  - split; [exact V2|]. split; [exact V1|]. intros x Hx. unfold state_of. cbn. rewrite V3, S4, decide_False by done. done.
Qed.
