(* ===== verification/TasksWait.v ===== *)
(** Waiting and exit: a task that waits for a child that has exited gets its exit
    code and the child is destroyed; what is missing in the other cases. *)

From S2P Require Import Prelude Errno Dll Sched SchedSpec Signals Tasks TasksSpec.
From Stdlib Require Import ZArith Lia Bool.
From stdpp Require Import base tactics numbers list sets gmap.
Open Scope Z_scope.

(** ** Reaping *)

(** What [reap] leaves alone. *)
Record reaped (s s' : system) (c : Z) : Prop := {
  rp_state : state_of s' c = TASK_DEAD;
  rp_states x : x <> c -> state_of s' x = state_of s x;
  rp_links x : t_next (tasks (sched_of s') x) = t_next (tasks (sched_of s) x) /\ t_prev (tasks (sched_of s') x) = t_prev (tasks (sched_of s) x);
  rp_pid x : pid_of s' x = pid_of s x;
  rp_queue : queue (sched_of s') = queue (sched_of s);
  rp_current : current_task (sched_of s') = current_task (sched_of s);
  rp_destroyed : destroyed (sched_of s') = destroyed (sched_of s);
  rp_wait_objs : wait_objs s' = wait_objs s;
  rp_table : table s' = table s /\ tasks_length s' = tasks_length s /\ tasks_present s' = tasks_present s }.

Lemma reap_spec s par l1 c l2 :
  family s par (l1 ++ c :: l2) -> par ∉ l1 ++ c :: l2 ->
  exists s', reap par c s = (i32 (pid_of s c), exit_code (procs s c), s') /\ family s' par (l1 ++ l2) /\ reaped s s' c.
Proof.
  intros [D HP] Hpar. destruct (dlist_links _ _ _ _ _ D) as (Lp & Ln & Hc & N1 & N2 & Hnd). cbn in Lp, Ln.
  assert (Hcp : c <> par) by (intros ->; set_solver).
  assert (Hin : forall x, x ∈ l1 ++ l2 -> x <> 0 /\ x <> par /\ x <> c).
  { intros x Hx. split; [eapply dlist_nonzero; [exact D|]; set_solver|]. split; [intros ->; set_solver|]. intros ->. set_solver. }
  assert (Hp : prev_sibling (procs s c) = 0 \/ prev_sibling (procs s c) ∈ l1).
  { rewrite Lp. destruct l1 as [|y l1 _] using rev_ind; [by left|right]. rewrite last_or_snoc. set_solver. }
  assert (Hn : next_sibling (procs s c) = 0 \/ next_sibling (procs s c) ∈ l2).
  { rewrite Ln. destruct l2 as [|y l2]; [by left|right]. cbn. set_solver. }
  unfold reap. set (pv := prev_sibling (procs s c)) in *. set (nx := next_sibling (procs s c)) in *.
  assert (Hpc : pv <> c) by (intros E; rewrite E in Hp; by destruct Hp). assert (Hnc : nx <> c) by (intros E; rewrite E in Hn; by destruct Hn).
  set (s1 := if negb (pv =? 0) then _ else _).
  assert (C1 : procs s1 c = procs s c) by (subst s1; destruct (negb _); cbn; by rewrite upd_ne).
  rewrite C1. fold pv nx. set (s2 := if negb (nx =? 0) then _ else s1).
  eexists. split; [f_equal; f_equal; unfold pid_of; cbn; rewrite upd_eq; cbn; subst s2 s1; by destruct (negb _), (negb _)|].
  set (s3 := set_state c TASK_DEAD _).
  assert (P3 : forall x, x <> c -> procs s3 x = procs s2 x) by (intros x Hx; cbn; by rewrite !upd_ne).
  assert (P2 : forall x, x ∈ l1 ++ l2 -> procs s2 x = (let t := if decide (x = pv) then set_next_sibling nx (procs s x) else procs s x in
    if decide (x = nx) then set_prev_sibling pv t else t)).
  { intros x Hx. destruct (Hin x Hx) as (H0 & H1 & H2). subst s2 s1.
    destruct (Z.eqb_spec pv 0) as [Epv|Epv], (Z.eqb_spec nx 0) as [Enx|Enx]; cbn [negb set_proc set_procs procs];
      rewrite !upd_cases; repeat case_decide; try congruence; try done. }
  assert (Hsched : sched_of s2 = sched_of s /\ wait_objs s2 = wait_objs s /\ table s2 = table s /\ tasks_length s2 = tasks_length s /\ tasks_present s2 = tasks_present s)
    by (subst s2 s1; by destruct (negb _), (negb _)).
  destruct Hsched as (Es & Ew & Et & El & En).
  split.
  - split.
    + assert (first_child (procs s3 par) = if decide (pv = 0) then nx else first_child (procs s par)) as ->.
      { rewrite P3 by done. assert (nx = 0 \/ par <> nx) as Hpn by (destruct Hn as [?|Hn]; [by left|right; intros ->; set_solver]).
        assert (first_child (procs s2 par) = first_child (procs s1 par)) as ->.
        { subst s2. clearbody s1. destruct (Z.eqb_spec nx 0); cbn [negb set_proc set_procs procs]; [done|]. rewrite upd_ne by naive_solver. done. }
        subst s1. destruct (Z.eqb_spec pv 0) as [E|E]; cbn [negb set_proc set_procs procs]; [by rewrite upd_eq, decide_True|].
        rewrite upd_ne, decide_False; [done|done|]. destruct Hp as [?|Hp]; [done|]. intros ->. set_solver. }
      apply (dlist_remove (procs s) (procs s3) _ l1 c l2 D). intros x Hx. rewrite P3, P2 by (done || by apply Hin). cbv zeta. cbn [lnext lprev proc_linked]. fold pv nx.
      by destruct (decide (x = pv)), (decide (x = nx)).
    + intros x Hx. rewrite P3, P2 by (done || by apply Hin). cbv zeta. rewrite <- (HP x) by set_solver.
      by destruct (decide (x = pv)), (decide (x = nx)).
  - split; unfold state_of, pid_of; cbn; rewrite ?Es, ?Ew, ?Et, ?El, ?En; try done.
    + by rewrite upd_eq.
    + intros x Hx. by rewrite upd_ne.
    + intros x. rewrite upd_cases. by destruct (decide (x = c)) as [->|].
    + intros x. rewrite upd_cases. by destruct (decide (x = c)) as [->|].
Qed.

(** ** Waiting for a condition that holds *)

(** The running task is in no queue. *)
Record running (s : system) (Q : task_state -> list Z) (c : Z) : Prop := {
  rn_current : current_task (sched_of s) = c;
  rn_zero : c <> 0;
  rn_state : state_of s c = TASK_RUNNING;
  rn_queued : ~ queued Q c;
  rn_unlinked : unlinked (sched_of s) c }.

Lemma remove_first_snoc x l : x ∉ l -> remove_first x (l ++ [x]) = l.
Proof.
  induction l as [|y l IH]; intros H; cbn; [by rewrite Z.eqb_refl|]. apply not_elem_of_cons in H as [H1 H2].
  replace (y =? x) with false by lia. by rewrite IH.
Qed.

(** What waiting leaves alone. *)
Record waited (s s' : system) (Q : task_state -> list Z) (c : Z) : Prop := {
  wt_queues : queues (sched_of s') Q;
  wt_running : running s' Q c;
  wt_states x : state_of s' x = state_of s x;
  wt_pid x : pid_of s' x = pid_of s x;
  wt_procs : procs s' = procs s;
  wt_table : table s' = table s /\ tasks_length s' = tasks_length s /\ tasks_present s' = tasks_present s;
  wt_waiters v : waiters (wait_objs s' v) = waiters (wait_objs s v) }.

Lemma qmove_back Q c st : ~ queued Q c -> forall q, has_queue q = true -> qmove (qmove Q c st) c TASK_RUNNING q = Q q.
Proof.
  intros Hn q Hq. assert (Hc : c ∉ Q q) by (intros H; apply Hn; by exists q). unfold qmove at 1. cbn [has_queue]. unfold qdel at 1, qmove.
  destruct (has_queue st).
  - unfold qupd. destruct (decide (q = st)) as [->|]; unfold qdel; rewrite ?filter_app, ?(filter_cons_False _ c) by tauto;
      rewrite ?filter_nil, ?app_nil_r, !filter_ne_id by (rewrite ?filter_ne_id; done); done.
  - unfold qdel. by rewrite !filter_ne_id by (rewrite ?filter_ne_id; done).
Qed.

(** The state in which a condition is tested first. *)
Definition blocking (fuel : nat) (w c : Z) (s : system) : option system :=
  s ← move_to_state fuel c TASK_BLOCKED s; Some (enqueue_waiter w c s).

Lemma blocking_spec fuel s Q c w :
  queues (sched_of s) Q -> running s Q c -> (forall q, (length (Q q) + 1 < fuel)%nat) ->
  exists s1, blocking fuel w c s = Some s1 /\ moved (sched_of s) (sched_of s1) Q c TASK_BLOCKED /\
    s1 = enqueue_waiter w c (set_sched (sched_of s1) s).
Proof.
  intros HQ R Hf. pose proof R as [R1 R2 R3 R4 R5]. unfold blocking, move_to_state.
  destruct (move_spec fuel (sched_of s) Q c TASK_BLOCKED HQ) as (c1 & -> & V); [split; [done|right; done]|intros q; specialize (Hf q); lia|].
  cbn [mbind option_bind]. eexists. split; [reflexivity|]. done.
Qed.

Lemma wait_immediate fuel yield s Q c w cond z :
  queues (sched_of s) Q -> running s Q c -> (forall q, (length (Q q) + 1 < fuel)%nat) -> c ∉ waiters (wait_objs s w) ->
  (forall s1, blocking fuel w c s = Some s1 -> cond s1 = Some (true, set_zombie_found z s1)) ->
  exists s', wait_on_condition fuel yield w cond s = Some s' /\ waited s s' Q c /\ any_child_zombie_found s' = z.
Proof.
  intros HQ R Hf Hw Hcond. pose proof R as [R1 R2 R3 R4 R5]. unfold wait_on_condition, wait_on_condition_impl. rewrite R1.
  replace (c =? 0) with false by lia.
  destruct (blocking_spec fuel s Q c w HQ R Hf) as (s1 & B & V1 & E1). pose proof (Hcond s1 B) as Hc1. unfold blocking in B.
  destruct (move_to_state fuel c TASK_BLOCKED s) as [s0|]; [|done]. cbn [mbind option_bind] in B |- *. injection B as Es0. rewrite Es0.
  assert (S1 : state_of s1 c = TASK_BLOCKED) by apply (mv_state _ _ _ _ _ V1).
  destruct fuel as [|fuel']; [specialize (Hf TASK_BLOCKED); lia|]. set (fuel := S fuel') in *. cbn [wait_loop].
  change (wait_loop yield fuel) with (wait_loop yield (S fuel')). cbn [wait_loop]. rewrite decide_True, Hc1 by done. cbn [mbind option_bind].
  set (s2 := dequeue_waiter w c (set_zombie_found z s1)). assert (S2 : state_of s2 c = TASK_BLOCKED) by done. rewrite decide_True by done.
  unfold move_to_state. assert (HQ2 : queues (sched_of s2) (qmove Q c TASK_BLOCKED)) by apply (mv_queues _ _ _ _ _ V1).
  destruct (move_spec fuel (sched_of s2) (qmove Q c TASK_BLOCKED) c TASK_RUNNING HQ2) as (c3 & -> & V3).
  { apply (mv_placed _ _ _ _ _ V1). split; [done|right; done]. }
  { intros q. specialize (Hf q). unfold qmove, qupd, qdel. cbn [has_queue]. pose proof (length_filter (fun y => y <> c) (Q q)).
    destruct (decide (q = TASK_BLOCKED)) as [->|]; rewrite ?length_app; cbn; lia. }
  cbn [mbind option_bind]. exists (set_sched c3 s2). split; [done|].
  assert (HQ3 : queues c3 Q) by (eapply queues_ext; [|apply (mv_queues _ _ _ _ _ V3)]; by apply qmove_back).
  split; [|done]. split.
  - done.
  - split; cbn.
    + rewrite (mv_current _ _ _ _ _ V3), (mv_current _ _ _ _ _ V1 : current_task (sched_of s2) = _). done.
    + done.
    + apply (mv_state _ _ _ _ _ V3).
    + done.
    + destruct (mv_placed _ _ _ _ _ V3 c) as [_ [(q & Hq & Hin)|[_ ?]]]; [apply (mv_placed _ _ _ _ _ V1); split; [done|right; done]| |done].
      rewrite qmove_back in Hin by done. exfalso. apply R4. by exists q.
  - intros x. unfold state_of. cbn. destruct (decide (x = c)) as [->|Hx]; [by rewrite (mv_state _ _ _ _ _ V3)|].
    by rewrite (mv_states _ _ _ _ _ V3), (mv_states _ _ _ _ _ V1 : forall y, _ -> t_state (tasks (sched_of s2) y) = _) by done.
  - intros x. unfold pid_of. cbn. by rewrite (mv_pid _ _ _ _ _ V3), (mv_pid _ _ _ _ _ V1 : forall y, t_pid (tasks (sched_of s2) y) = _).
  - subst s2. rewrite E1. done.
  - subst s2. rewrite E1. done.
  - intros v. subst s2. rewrite E1. cbn. rewrite !upd_cases. destruct (decide (v = w)) as [->|]; [|done]. cbn.
    rewrite !decide_True by done. cbn. by rewrite remove_first_snoc.
Qed.

(** ** Waiting for a child that has exited *)

Lemma family_ext s s' p l : procs s' = procs s -> family s p l -> family s' p l.
Proof. intros E [D HP]. split; by rewrite E. Qed.

Lemma blocking_view fuel s Q c w s1 :
  queues (sched_of s) Q -> running s Q c -> (forall q, (length (Q q) + 1 < fuel)%nat) -> blocking fuel w c s = Some s1 ->
  current_task (sched_of s1) = c /\ procs s1 = procs s /\ (forall x, pid_of s1 x = pid_of s x) /\
  (forall x, x <> c -> state_of s1 x = state_of s x) /\ any_child_zombie_found s1 = any_child_zombie_found s.
Proof.
  intros HQ R Hf B. destruct (blocking_spec fuel s Q c w HQ R Hf) as (s1' & B' & V & E). rewrite B' in B. injection B as <-.
  split; [rewrite (mv_current _ _ _ _ _ V); apply R|]. split; [by rewrite E|]. split; [apply V|]. split; [apply V|]. by rewrite E.
Qed.

(** The child the caller waits for: the one with that number, or the first one that
    has exited. *)
Definition selects (s : system) (pid : Z) (l1 : list Z) (z : Z) : Prop :=
  (0 <= pid < 2 ^ 31 /\ pid_of s z = pid /\ forall x, x ∈ l1 -> pid_of s x <> pid) \/
  (pid < 0 /\ forall x, x ∈ l1 -> state_of s x <> TASK_ZOMBIE).

Lemma task_wait_spec fuel yield s Q c l1 z l2 pid :
  queues (sched_of s) Q -> running s Q c -> family s c (l1 ++ z :: l2) -> c ∉ l1 ++ z :: l2 ->
  state_of s z = TASK_ZOMBIE -> selects s pid l1 z -> c ∉ waiters (wait_objs s (waiting_queue (procs s z))) -> c ∉ waiters (wait_objs s (children_wait_queue (procs s c))) ->
  (forall q, (length (Q q) + 1 < fuel)%nat) -> (length (l1 ++ z :: l2) < fuel)%nat ->
  exists s' s1, task_wait fuel yield pid s = Some (i32 (pid_of s z), Some (exit_code (procs s z)), s') /\
    waited s s1 Q c /\ reaped s1 s' z /\ family s' c (l1 ++ l2).
Proof.
  intros HQ R F Hc Hz Hsel Hw1 Hw2 Hf Hl. unfold task_wait. rewrite (rn_current _ _ _ R).
  assert (Hz0 : z <> 0) by (destruct F as [D _]; eapply dlist_nonzero; [exact D|set_solver]).
  replace (first_child (procs s c) =? 0) with false.
  2: { symmetry. apply Z.eqb_neq. rewrite (family_head _ _ _ F). destruct F as [D _]. eapply dlist_nonzero; [exact D|]. apply head_or_elem. by destruct l1. }
  assert (Hend : forall s1, waited s s1 Q c -> exists s', reap c z s1 = (i32 (pid_of s z), exit_code (procs s z), s') /\ family s' c (l1 ++ l2) /\ reaped s1 s' z).
  { intros s1 W. destruct (reap_spec s1 c l1 z l2) as (s' & E & F' & R'); [by apply (family_ext s), F; apply W|done|].
    exists s'. rewrite E, (wt_pid _ _ _ _ W), (wt_procs _ _ _ _ W). done. }
  destruct Hsel as [(Hp & Hpz & Hfirst)|(Hp & Hfirst)].
  - replace (0 <=? pid) with true by lia. rewrite (find_sibling_spec s c (l1 ++ z :: l2)) by done.
    rewrite filter_first; [|intros x Hx; specialize (Hfirst x Hx); rewrite u32_small by lia; lia|rewrite u32_small by lia; lia].
    cbn [mbind option_bind]. replace (z =? 0) with false by lia.
    destruct (wait_immediate fuel yield s Q c (waiting_queue (procs s z)) (task_wait_for_child fuel pid) (any_child_zombie_found s) HQ R Hf Hw1) as (s1 & -> & W & _).
    { intros s1 B. destruct (blocking_view fuel s Q c _ s1 HQ R Hf B) as (C1 & C2 & C3 & C4 & C5). unfold task_wait_for_child.
      rewrite C1. replace (c =? 0) with false by (destruct R; lia). rewrite (find_sibling_spec s1 c (l1 ++ z :: l2)) by (done || by apply (family_ext s)).
      rewrite filter_first; [|intros x Hx; rewrite C3; specialize (Hfirst x Hx); rewrite u32_small by lia; lia|rewrite C3, u32_small by lia; lia].
      cbn [mbind option_bind]. replace (z =? 0) with false by lia. unfold is_state. rewrite C4, bool_decide_eq_true_2; [|done|intros ->; set_solver].
      rewrite <- C5. by destruct s1. }
    cbn [mbind option_bind]. destruct (Hend s1 W) as (s' & -> & F' & R'). by exists s', s1.
  - replace (0 <=? pid) with false by lia.
    destruct (wait_immediate fuel yield s Q c (children_wait_queue (procs s c)) (task_wait_for_any_child fuel) z HQ R Hf Hw2) as (s1 & -> & W & Ez).
    { intros s1 B. destruct (blocking_view fuel s Q c _ s1 HQ R Hf B) as (C1 & C2 & C3 & C4 & C5). unfold task_wait_for_any_child.
      rewrite C1. replace (c =? 0) with false by (destruct R; lia). rewrite (find_sibling_spec s1 c (l1 ++ z :: l2)) by (done || by apply (family_ext s)).
      rewrite filter_first; unfold is_state.
      - cbn [mbind option_bind]. by replace (z =? 0) with false by lia.
      - intros x Hx. rewrite C4 by (intros ->; set_solver). rewrite bool_decide_eq_false_2; [done|by apply Hfirst].
      - rewrite C4 by (intros ->; set_solver). by rewrite bool_decide_eq_true_2. }
    cbn [mbind option_bind]. rewrite Ez. destruct (Hend s1 W) as (s' & -> & F' & R'). by exists s', s1.
Qed.

(** ** Destruction *)

Lemma cleanup_prefix z1 : forall n p s l,
  fwd (tasks s) p (z1 ++ l) -> (forall x, x ∈ z1 -> t_state (tasks s x) <> TASK_DEAD) -> (length z1 < n)%nat ->
  cleanup_loop n p s = cleanup_loop (n - length z1) (head_or 0 l) s.
Proof.
  induction z1 as [|x z1 IH]; intros n p s l H Hs Hn.
  - cbn [length app] in *. rewrite Nat.sub_0_r. f_equal. destruct l; cbn in H |- *; [done|by destruct H].
  - destruct n as [|n]; [cbn in Hn; lia|]. destruct H as (-> & Hx & H). cbn [cleanup_loop]. replace (x =? 0) with false by lia.
    rewrite decide_False by (apply Hs; by left). cbn [length Nat.sub]. apply IH; [done| |cbn in Hn; lia]. intros y Hy. apply Hs. by right.
Qed.

(** The scheduler destroys the only dead task among the zombies. *)
Lemma cleanup_one fuel s Q z1 z z2 :
  queues s Q -> Q TASK_ZOMBIE = z1 ++ z :: z2 -> t_state (tasks s z) = TASK_DEAD ->
  (forall x, x ∈ z1 ++ z2 -> t_state (tasks s x) = TASK_ZOMBIE) -> (length (Q TASK_ZOMBIE) < fuel)%nat ->
  exists s', cleanup_dead_tasks fuel s = Some s' /\ queues s' (qdel Q z) /\ destroyed s' = z :: destroyed s.
Proof.
  intros HQ E Hz Hst Hf. rewrite E, length_app in Hf. cbn in Hf. pose proof (qu_list _ _ HQ TASK_ZOMBIE eq_refl) as D. rewrite E in D.
  destruct (dlist_links _ _ _ _ _ D) as (_ & Ln & Hz0 & N1 & N2 & _). cbn in Ln.
  unfold cleanup_dead_tasks. rewrite (cleanup_prefix z1 fuel _ s (z :: z2)); [|by eapply dseg_fwd, D| |lia].
  2: { intros x Hx. rewrite Hst by set_solver. done. }
  change (head_or 0 (z :: z2)) with z. destruct (fuel - length z1)%nat as [|n] eqn:En; [lia|]. cbn [cleanup_loop].
  replace (z =? 0) with false by lia. rewrite decide_True by done.
  destruct (remove_from_queue_spec s Q z HQ) as (HQ1 & R1 & _ & _ & _); [split; [done|left; exists TASK_ZOMBIE; split; [done|rewrite E; set_solver]]|].
  set (s1 := set_sched_stats _ _). assert (HQ2 : queues s1 (qdel Q z)) by (destruct HQ1; by split).
  assert (E1 : qdel Q z TASK_ZOMBIE = z1 ++ z2) by (unfold qdel; rewrite E; by apply filter_ne_mid).
  rewrite (cleanup_nothing z2).
  - exists s1. split; [done|]. split; [done|]. cbn. unfold remove_from_queue. replace (z =? 0) with false by lia.
    cbn [set_task destroyed]. unfold drop_head. repeat match goal with |- context [if ?b then _ else _] => destruct b; cbn [set_queue set_task destroyed] end; done.
  - pose proof (qu_list _ _ HQ2 TASK_ZOMBIE eq_refl) as D2. rewrite E1 in D2. destruct D2 as [D2 _]. apply dseg_app in D2 as (m & _ & D2).
    rewrite Ln. rewrite (dseg_head _ _ _ _ _ D2) in D2. by eapply dseg_fwd.
  - intros x Hx. change (tasks s1) with (tasks (remove_from_queue z s)). rewrite (rq_state _ _ R1). apply Hst. set_solver.
  - lia.
Qed.

Lemma wait_exited fuel yield s M Q c l1 z l2 z1 z2 pid :
  table_rep s M -> M !! pid_of s z = Some z ->
  queues (sched_of s) Q -> running s Q c -> family s c (l1 ++ z :: l2) -> c ∉ l1 ++ z :: l2 ->
  Q TASK_ZOMBIE = z1 ++ z :: z2 -> (forall x, x ∈ Q TASK_ZOMBIE -> state_of s x = TASK_ZOMBIE) ->
  selects s pid l1 z -> c ∉ waiters (wait_objs s (waiting_queue (procs s z))) -> c ∉ waiters (wait_objs s (children_wait_queue (procs s c))) ->
  (forall q, (length (Q q) + 1 < fuel)%nat) -> (length (l1 ++ z :: l2) < fuel)%nat ->
  exists s' sd, task_wait fuel yield pid s = Some (i32 (pid_of s z), Some (exit_code (procs s z)), s') /\
    running s' Q c /\ family s' c (l1 ++ l2) /\ (forall x, x <> z -> state_of s' x = state_of s x) /\
    cleanup_dead_tasks fuel (sched_of s') = Some sd /\ queues sd (qdel Q z) /\ destroyed sd = z :: destroyed (sched_of s') /\
    table_rep (task_destroy z s') (delete (pid_of s z) M).
Proof.
  intros T HM HQ R F Hc EZ HZ Hsel Hw1 Hw2 Hf Hl.
  destruct (task_wait_spec fuel yield s Q c l1 z l2 pid HQ R F Hc) as (s' & s1 & E & W & P & F'); try done; [apply HZ; rewrite EZ; set_solver|].
  assert (HQ' : queues (sched_of s') Q) by (eapply queues_frame; [apply W|apply P|]; intros x _; apply (rp_links _ _ _ P)).
  assert (Hnd : z ∉ z1 ++ z2).
  { pose proof (qu_list _ _ HQ TASK_ZOMBIE eq_refl) as D. rewrite EZ in D. destruct (dlist_links _ _ _ _ _ D) as (_ & _ & _ & ? & ? & _). set_solver. }
  destruct (cleanup_one fuel (sched_of s') Q z1 z z2 HQ' EZ) as (sd & Ec & HQd & Ed); [apply P| |specialize (Hf TASK_ZOMBIE); lia|].
  { intros x Hx. assert (x <> z) by (by intros ->). change (state_of s' x = TASK_ZOMBIE). rewrite (rp_states _ _ _ P), (wt_states _ _ _ _ W) by done.
    apply HZ. rewrite EZ. set_solver. }
  exists s', sd. split; [done|]. assert (z <> c) by (intros ->; set_solver). split; [|split; [done|split; [|split; [done|split; [done|split; [done|]]]]]].
  - destruct (wt_running _ _ _ _ W) as [W1 W2 W3 W4 [W5 W6]]. split; [by rewrite (rp_current _ _ _ P)|done|by rewrite (rp_states _ _ _ P) by done|done|].
    destruct (rp_links _ _ _ P c) as [L1 L2]. unfold unlinked. by rewrite L1, L2.
  - intros x Hx. by rewrite (rp_states _ _ _ P), (wt_states _ _ _ _ W).
  - apply task_destroy_spec; [|done]. destruct T as [T1 T2 T3 T4]. destruct (rp_table _ _ _ P) as (Q1 & Q2 & Q3), (wt_table _ _ _ _ W) as (Q4 & Q5 & Q6).
    split; rewrite ?Q1, ?Q2, ?Q3, ?Q4, ?Q5, ?Q6; try done. intros i x Hx. rewrite (rp_pid _ _ _ P), (wt_pid _ _ _ _ W). by apply T3.
Qed.

(** The calls that fail: a task without children, and a child that does not exist. *)
Lemma wait_fails fuel yield s Q c l pid :
  running s Q c -> family s c l -> (length l < fuel)%nat ->
  (l = [] -> task_wait fuel yield pid s = Some (-1, None, s)) /\
  (l <> [] -> 0 <= pid < 2 ^ 31 -> (forall x, x ∈ l -> pid_of s x <> pid) ->
     task_wait fuel yield pid s = Some (-2, None, s)).
Proof.
  intros R F Hl. unfold task_wait. rewrite (rn_current _ _ _ R), (family_head _ _ _ F). split; [by intros ->|].
  intros Hne Hp Hno. replace (head_or 0 l =? 0) with false.
  2: { symmetry. apply Z.eqb_neq. destruct F as [D _]. eapply dlist_nonzero; [exact D|]. by apply head_or_elem. }
  replace (0 <=? pid) with true by lia. rewrite <- (family_head _ _ _ F).
  rewrite (find_sibling_spec s c l), filter_none; [done| |done|done].
  intros x Hx. rewrite u32_small by lia. specialize (Hno x Hx). lia.
Qed.


(** [WNOHANG] does not do what is said of it.  For a child that still runs the
    call fails as if there were no such child, instead of returning 0; with the
    number 0, which stands for any child, it fails although a child has exited. *)
Theorem sys_wait_nohang fuel yield s Q c l1 x l2 :
  running s Q c -> family s c (l1 ++ x :: l2) -> (length (l1 ++ x :: l2) < fuel)%nat ->
  (state_of s x <> TASK_ZOMBIE -> 0 < pid_of s x < 2 ^ 31 -> (forall y, y ∈ l1 -> pid_of s y <> pid_of s x) ->
     sys_wait fuel yield (pid_of s x) WNOHANG s = Some (- ECHILD, None, s)) /\
  ((forall y, y ∈ l1 -> state_of s y <> TASK_ZOMBIE) -> state_of s x = TASK_ZOMBIE -> (forall y, y ∈ l1 ++ x :: l2 -> pid_of s y <> 0) ->
     sys_wait fuel yield 0 WNOHANG s = Some (- ENOTSUP, None, s)).
Proof.
  intros R F Hl. assert (Hx0 : x <> 0) by (destruct F as [D _]; eapply dlist_nonzero; [exact D|set_solver]).
  assert (Hfc : first_child (procs s c) =? 0 = false).
  { apply Z.eqb_neq. rewrite (family_head _ _ _ F). destruct F as [D _]. eapply dlist_nonzero; [exact D|]. apply head_or_elem. by destruct l1. }
  unfold sys_wait. rewrite (rn_current _ _ _ R). replace (c =? 0) with false by (destruct R; lia). change (negb (Z.land WNOHANG WNOHANG =? 0)) with true. split.
  - intros Hz Hp Hfirst. replace (0 <? pid_of s x) with true by lia. unfold find_child. rewrite (find_sibling_spec s c (l1 ++ x :: l2)) by done.
    rewrite filter_first; [|intros y Hy; specialize (Hfirst y Hy); rewrite u32_small by lia; lia|rewrite u32_small by lia; lia].
    cbn [mbind option_bind]. unfold is_state. rewrite bool_decide_eq_false_2 by done. by rewrite andb_false_r.
  - intros Hfirst Hz Hp. change (0 <? 0) with false. rewrite Hfc. unfold find_any_zombie_child. rewrite (find_sibling_spec s c (l1 ++ x :: l2)) by done.
    rewrite filter_first; [|intros y Hy; unfold is_state; rewrite bool_decide_eq_false_2; [done|by apply Hfirst]|unfold is_state; by rewrite bool_decide_eq_true_2].
    cbn [mbind option_bind]. replace (x =? 0) with false by lia. unfold wait_and_report, task_wait. rewrite (rn_current _ _ _ R), Hfc. change (0 <=? 0) with true.
    rewrite (find_sibling_spec s c (l1 ++ x :: l2)), filter_none; [done| |done|done].
    intros y Hy. change (u32 0) with 0. specialize (Hp y Hy). lia.
Qed.
