(* ===== verification/TasksExit.v ===== *)
(** Exit: the task becomes a zombie and wakes the tasks that wait for it; what
    becomes of its children, and of a task that is woken while it waits. *)

From S2P Require Import Prelude Errno Dll Sched SchedSpec Signals Tasks TasksSpec TasksWait.
From Stdlib Require Import ZArith Lia Bool.
From stdpp Require Import base tactics numbers list sets gmap.
Open Scope Z_scope.

(** Only the tasks of [X] were moved. *)
Record evolves (s s' : sched) (Q Q' : task_state -> list Z) (X : list Z) : Prop := {
  ev_queues : queues s' Q';
  ev_states y : y ∉ X -> t_state (tasks s' y) = t_state (tasks s y);
  ev_in y q : y ∉ X -> has_queue q = true -> y ∈ Q' q <-> y ∈ Q q;
  ev_pid y : t_pid (tasks s' y) = t_pid (tasks s y);
  ev_current : current_task s' = current_task s;
  ev_placed y : placed s Q y -> placed s' Q' y;
  ev_length q : (length (Q' q) <= length (Q q) + length X)%nat }.

Lemma evolves_refl s Q : queues s Q -> evolves s s Q Q [].
Proof. intros HQ. split; try done. intros q. cbn. lia. Qed.

Lemma evolves_trans s1 s2 s3 Q1 Q2 Q3 X Y : evolves s1 s2 Q1 Q2 X -> evolves s2 s3 Q2 Q3 Y -> evolves s1 s3 Q1 Q3 (X ++ Y).
Proof.
  intros [] []. split.
  - done.
  - intros y [? ?]%not_elem_of_app. rewrite ev_states1, ev_states0; done.
  - intros y q [? ?]%not_elem_of_app Hq. rewrite ev_in1, ev_in0; done.
  - intros y. by rewrite ev_pid1.
  - by rewrite ev_current1.
  - auto.
  - intros q. specialize (ev_length0 q). specialize (ev_length1 q). rewrite length_app. lia.
Qed.

Lemma moved_evolves s s' Q x st : moved s s' Q x st -> evolves s s' Q (qmove Q x st) [x].
Proof.
  intros V. split; try apply V.
  - intros y Hy. apply V. set_solver.
  - intros y q Hy Hq. assert (y <> x) by set_solver. unfold qmove, qupd, qdel.
    destruct (has_queue st); [destruct (decide (q = st)) as [->|]|]; rewrite ?elem_of_app, list_elem_of_filter, ?list_elem_of_singleton; naive_solver.
  - intros q. unfold qmove, qupd, qdel. pose proof (length_filter (fun y => y <> x) (Q q)).
    destruct (has_queue st); [destruct (decide (q = st)) as [->|]|]; rewrite ?length_app; cbn; lia.
Qed.

Lemma qmove_in Q x st : has_queue st = true -> x ∈ qmove Q x st st.
Proof. intros H. unfold qmove, qupd. rewrite H, decide_True by done. set_solver. Qed.

Lemma move_system fuel s Q x st :
  queues (sched_of s) Q -> placed (sched_of s) Q x -> (forall q, (length (Q q) < fuel)%nat) ->
  exists s', move_to_state fuel x st s = Some s' /\ moved (sched_of s) (sched_of s') Q x st /\ s' = set_sched (sched_of s') s.
Proof.
  intros HQ HP Hf. unfold move_to_state. destruct (move_spec fuel (sched_of s) Q x st HQ HP Hf) as (c & -> & V).
  exists (set_sched c s). split; [done|]. done.
Qed.

(** All waiters become ready. *)
Lemma wake_all_spec fuel W : forall s Q,
  queues (sched_of s) Q -> (forall x, x ∈ W -> placed (sched_of s) Q x) -> (forall q, (length (Q q) + length W < fuel)%nat) ->
  exists s' Q', wake_all fuel W s = Some s' /\ s' = set_sched (sched_of s') s /\ evolves (sched_of s) (sched_of s') Q Q' W /\
    forall x, x ∈ W -> state_of s' x = TASK_WAITING /\ x ∈ Q' TASK_WAITING.
Proof.
  induction W as [|x W IH]; intros s Q HQ HP Hf; cbn [wake_all].
  - exists s, Q. split; [done|]. split; [by destruct s|]. split; [by apply evolves_refl|]. by intros x Hx%elem_of_nil.
  - destruct (move_system fuel s Q x TASK_WAITING HQ) as (s1 & -> & V & E1); [apply HP; set_solver|intros q; specialize (Hf q); cbn in Hf; lia|].
    cbn [mbind option_bind]. pose proof (moved_evolves _ _ _ _ _ V) as V1.
    destruct (IH s1 (qmove Q x TASK_WAITING)) as (s2 & Q2 & -> & E2 & V2 & H2).
    + apply V.
    + intros y Hy. apply V. apply HP. set_solver.
    + intros q. specialize (Hf q). pose proof (ev_length _ _ _ _ _ V1 q). cbn in *. lia.
    + exists s2, Q2. split; [done|]. split; [rewrite E2, E1; done|]. split; [exact (evolves_trans _ _ _ _ _ _ [x] W V1 V2)|].
      intros y [->|Hy]%elem_of_cons; [|by apply H2]. destruct (decide (x ∈ W)) as [Hx|Hx]; [by apply H2|].
      split; [unfold state_of; rewrite (ev_states _ _ _ _ _ V2) by done; apply V|].
      apply (ev_in _ _ _ _ _ V2); [done|done|]. by apply qmove_in.
Qed.

(** The zombies among the children leave the queues; the others get a new parent. *)
Lemma exit_children_spec fuel c l : forall n s Q pv p,
  queues (sched_of s) Q -> dseg (procs s) pv p l 0 -> NoDup l -> c ∉ l ->
  (forall x, x ∈ l -> state_of s x = TASK_ZOMBIE -> placed (sched_of s) Q x) ->
  (forall q, (length (Q q) + length l < fuel)%nat) -> (length l < n)%nat ->
  exists s' Q', exit_children fuel n c p s = Some s' /\
    s' = set_sched (sched_of s') (set_procs (procs s') s) /\ evolves (sched_of s) (sched_of s') Q Q' (filter (fun x => state_of s x = TASK_ZOMBIE) l) /\
    (forall x, x ∈ l -> state_of s x = TASK_ZOMBIE -> state_of s' x = TASK_DEAD /\ ~ queued Q' x) /\
    (forall x, procs s' x = if decide (x ∈ l /\ state_of s x <> TASK_ZOMBIE) then set_parent (parent (procs s c)) (procs s x) else procs s x).
Proof.
  induction l as [|x l IH]; intros [|n] s Q pv p HQ D Hnd Hc HP Hf Hn; cbn in Hn; try lia; cbn [exit_children].
  - cbn in D. subst p. exists s, Q. split; [done|]. split; [by destruct s|]. split; [by apply evolves_refl|]. split; [by intros x Hx%elem_of_nil|].
    intros x. rewrite decide_False; [done|]. intros [Hx _]. by apply elem_of_nil in Hx.
  - destruct D as (-> & Hx0 & _ & D). cbn in D. replace (x =? 0) with false by lia. apply NoDup_cons in Hnd as [Hxl Hnd]. apply not_elem_of_cons in Hc as [Hcx Hc].
    rewrite filter_cons. destruct (decide (state_of s x = TASK_ZOMBIE)) as [Hz|Hz].
    + destruct (move_system fuel s Q x TASK_DEAD HQ) as (s1 & -> & V & E1); [apply HP; [set_solver|done]|intros q; specialize (Hf q); lia|].
      cbn [mbind option_bind]. pose proof (moved_evolves _ _ _ _ _ V) as V1. assert (P1 : procs s1 = procs s) by (by rewrite E1).
      assert (S1 : forall y, y ∈ l -> state_of s1 y = state_of s y) by (intros y Hy; apply V; by intros ->).
      destruct (IH n s1 (qmove Q x TASK_DEAD) x (next_sibling (procs s x))) as (s2 & Q2 & -> & E2 & V2 & H2 & P2).
      * apply V.
      * by rewrite P1.
      * done.
      * done.
      * intros y Hy Hyz. apply V, HP; [set_solver|]. by rewrite <- S1.
      * intros q. specialize (Hf q). pose proof (ev_length _ _ _ _ _ V1 q). cbn in *. lia.
      * lia.
      * assert (Ef : filter (fun y => state_of s1 y = TASK_ZOMBIE) l = filter (fun y => state_of s y = TASK_ZOMBIE) l).
        { clear - S1. induction l as [|y l IH]; [done|]. rewrite !filter_cons, IH by (intros z Hz; apply S1; set_solver).
          by rewrite S1 by set_solver. }
        rewrite Ef in V2. exists s2, Q2. split; [done|]. split; [rewrite E2, E1; done|]. split; [exact (evolves_trans _ _ _ _ _ _ [x] _ V1 V2)|]. split.
        -- intros y [->|Hy]%elem_of_cons Hyz; [|apply H2; [done|by rewrite S1]].
           assert (Hxf : x ∉ filter (fun y => state_of s y = TASK_ZOMBIE) l) by (intros [_ ?]%list_elem_of_filter; done).
           split; [unfold state_of; rewrite (ev_states _ _ _ _ _ V2) by done; apply V|].
           intros (q & Hq & Hin). apply (ev_in _ _ _ _ _ V2) in Hin; [|done|done]. unfold qmove, qdel in Hin. cbn in Hin. by apply list_elem_of_filter in Hin as [? _].
        -- intros y. rewrite P2, P1. destruct (decide (y = x)) as [->|Hyx]; [rewrite !decide_False by naive_solver; done|].
           destruct (decide (y ∈ l)) as [Hy|Hy]; [rewrite S1 by done|]; repeat case_decide; set_solver.
    + cbn [mbind option_bind]. set (s1 := set_proc x _ s).
      assert (P1 : forall y, procs s1 y = if decide (y = x) then set_parent (parent (procs s c)) (procs s x) else procs s y) by (intros y; cbn; apply upd_cases).
      destruct (IH n s1 Q x (next_sibling (procs s x))) as (s2 & Q2 & -> & E2 & V2 & H2 & P2).
      * done.
      * eapply dseg_frame; [|exact D]. intros y Hy. rewrite P1, decide_False by (by intros ->). done.
      * done.
      * done.
      * intros y Hy Hyz. apply HP; [set_solver|done].
      * intros q. specialize (Hf q). cbn in Hf. lia.
      * lia.
      * exists s2, Q2. split; [done|]. split; [rewrite E2; done|]. split; [exact V2|]. split.
        -- intros y [->|Hy]%elem_of_cons Hyz; [done|]. by apply H2.
        -- intros y. rewrite P2. change (state_of s1 y) with (state_of s y). assert (procs s1 c = procs s c) as -> by (by rewrite P1, decide_False). rewrite P1.
           destruct (decide (y = x)) as [->|Hyx]; [repeat case_decide; try done; exfalso; set_solver|].
           repeat case_decide; set_solver.
Qed.

(** The tasks an exit wakes: those that wait for the task, and its parent if that
    waits for any child. *)
Definition awakened (s : system) (c : Z) : list Z :=
  waiters (wait_objs s (waiting_queue (procs s c))) ++
  (if parent (procs s c) =? 0 then [] else waiters (wait_objs s (children_wait_queue (procs s (parent (procs s c)))))).

(** Both wait objects wake all their waiters, none of which is the task itself. *)
Record exits_from (s : system) (Q : task_state -> list Z) (c : Z) (l : list Z) : Prop := {
  xf_queues : queues (sched_of s) Q;
  xf_running : running s Q c;
  xf_family : family s c l;
  xf_own : c ∉ l /\ c ∉ awakened s c;
  xf_event : wakeup_all (wait_objs s (waiting_queue (procs s c))) = true /\
    (parent (procs s c) <> 0 -> wakeup_all (wait_objs s (children_wait_queue (procs s (parent (procs s c))))) = true);
  xf_waiters x : x ∈ awakened s c -> placed (sched_of s) Q x /\ state_of s x <> TASK_ZOMBIE;
  xf_children x : x ∈ l -> state_of s x = TASK_ZOMBIE -> placed (sched_of s) Q x }.

Lemma wake_up_event fuel s w : wakeup_all (wait_objs s w) = true -> wait_wake_up fuel w s = wake_all fuel (waiters (wait_objs s w)) s.
Proof. intros E. unfold wait_wake_up. by rewrite E. Qed.

(** The state after an exit. *)
Record exited (s s' : system) (Q' : task_state -> list Z) (c code : Z) (l : list Z) : Prop := {
  xd_queues : queues (sched_of s') Q';
  xd_code : exit_code (procs s' c) = code;
  xd_zombie : state_of s' c = TASK_ZOMBIE /\ c ∈ Q' TASK_ZOMBIE;
  xd_awake x : x ∈ awakened s c -> state_of s' x = TASK_WAITING /\ x ∈ Q' TASK_WAITING;
  xd_orphans x : x ∈ l -> state_of s x <> TASK_ZOMBIE -> parent (procs s' x) = parent (procs s c);
  xd_leaked x : x ∈ l -> state_of s x = TASK_ZOMBIE -> state_of s' x = TASK_DEAD /\ ~ queued Q' x;
  xd_links x : first_child (procs s' x) = first_child (procs s x) /\ next_sibling (procs s' x) = next_sibling (procs s x) /\
    prev_sibling (procs s' x) = prev_sibling (procs s x);
  xd_pid x : pid_of s' x = pid_of s x;
  xd_others x : x <> c -> x ∉ awakened s c -> x ∉ l -> state_of s' x = state_of s x;
  xd_table : table s' = table s /\ tasks_length s' = tasks_length s /\ tasks_present s' = tasks_present s }.

Lemma task_exit_spec fuel s Q c l code :
  exits_from s Q c l -> (forall q, (length (Q q) + 1 + length (awakened s c) + length l < fuel)%nat) -> (length l < fuel)%nat ->
  exists s' Q', task_exit fuel code s = Done (Some s') /\ exited s s' Q' c code l.
Proof.
  intros [HQ R F [Hcl Hca] [Hev1 Hev2] HW HC] Hf Hl. unfold task_exit. pose proof R as [R1 R2 R3 R4 R5]. rewrite R1. replace (c =? 0) with false by lia.
  set (s0 := set_proc c _ s).
  assert (P0 : forall x, procs s0 x = if decide (x = c) then set_exit_code code (procs s c) else procs s x) by (intros x; cbn; apply upd_cases).
  destruct (move_system fuel s0 Q c TASK_ZOMBIE HQ) as (s1 & -> & V1 & E1); [split; [done|right; done]|intros q; specialize (Hf q); lia|].
  cbn [mbind option_bind]. pose proof (moved_evolves _ _ _ _ _ V1) as X1. change (sched_of s0) with (sched_of s) in *.
  assert (Pf : forall s2, procs s2 = procs s0 -> waiting_queue (procs s2 c) = waiting_queue (procs s c) /\ parent (procs s2 c) = parent (procs s c) /\
    first_child (procs s2 c) = first_child (procs s c) /\ forall x, children_wait_queue (procs s2 x) = children_wait_queue (procs s x)).
  { intros s2 E. rewrite E, P0, decide_True by done. split; [done|]. split; [done|]. split; [done|]. intros x. rewrite P0. by destruct (decide (x = c)) as [->|]. }
  assert (Ep1 : procs s1 = procs s0 /\ wait_objs s1 = wait_objs s) by (by rewrite E1). destruct Ep1 as [Ep1 Ew1].
  destruct (Pf s1 Ep1) as (-> & _ & _ & _). unfold awakened in *. set (W1 := waiters (wait_objs s (waiting_queue (procs s c)))) in *.
  set (W2 := if parent (procs s c) =? 0 then _ else _) in *. rewrite wake_up_event, Ew1 by (by rewrite Ew1). fold W1.
  destruct (wake_all_spec fuel W1 s1 (qmove Q c TASK_ZOMBIE)) as (s2 & Q2 & -> & E2 & X2 & H2).
  { apply V1. } { intros x Hx. apply V1, HW. set_solver. }
  { intros q. specialize (Hf q). pose proof (ev_length _ _ _ _ _ X1 q) as Hq. rewrite length_app in Hf. cbn [length] in Hq. lia. }
  cbn [mbind option_bind]. assert (Ep2 : procs s2 = procs s0 /\ wait_objs s2 = wait_objs s) by (by rewrite E2). destruct Ep2 as [Ep2 Ew2].
  destruct (Pf s2 Ep2) as (_ & -> & _ & ECW). rewrite ECW.
  assert (exists s3 Q3, (if negb (parent (procs s c) =? 0) then wait_wake_up fuel (children_wait_queue (procs s (parent (procs s c)))) s2 else Some s2) = Some s3 /\
    s3 = set_sched (sched_of s3) s2 /\ evolves (sched_of s2) (sched_of s3) Q2 Q3 W2 /\ forall x, x ∈ W2 -> state_of s3 x = TASK_WAITING /\ x ∈ Q3 TASK_WAITING)
    as (s3 & Q3 & -> & E3 & X3 & H3).
  { subst W2. destruct (Z.eqb_spec (parent (procs s c)) 0) as [E0|E0]; cbn [negb].
    - exists s2, Q2. split; [done|]. split; [by destruct s2|]. split; [apply evolves_refl, X2|]. by intros x Hx%elem_of_nil.
    - rewrite wake_up_event, Ew2 by (rewrite Ew2; by apply Hev2). apply wake_all_spec; [apply X2| |].
      + intros x Hx. apply X2, V1, HW. set_solver.
      + intros q. specialize (Hf q). pose proof (ev_length _ _ _ _ _ X1 q) as L1. pose proof (ev_length _ _ _ _ _ X2 q) as L2. rewrite length_app in Hf. cbn [length] in L1. lia. }
  cbn [mbind option_bind]. assert (Ep3 : procs s3 = procs s0) by (by rewrite E3). destruct (Pf s3 Ep3) as (_ & _ & -> & _).
  pose proof (evolves_trans _ _ _ _ _ _ _ _ (evolves_trans _ _ _ _ _ _ _ _ X1 X2) X3) as X13.
  assert (S3 : forall x, x ∈ l -> state_of s x = TASK_ZOMBIE <-> state_of s3 x = TASK_ZOMBIE).
  { intros x Hx. assert (x <> c) by (by intros ->). destruct (decide (x ∈ W1 ++ W2)) as [Hw|Hw].
    - destruct (HW x Hw) as [_ Hnz]. split; [done|]. destruct (decide (x ∈ W2)) as [Hx2|Hx2]; [destruct (H3 x Hx2) as [-> _]; done|].
      unfold state_of. rewrite (ev_states _ _ _ _ _ X3) by done. destruct (H2 x) as [E _]; [set_solver|]. unfold state_of in E. by rewrite E.
    - unfold state_of. rewrite (ev_states _ _ _ _ _ X13); [done|]. set_solver. }
  destruct F as [D HP].
  destruct (exit_children_spec fuel c l fuel s3 Q3 0 (first_child (procs s c))) as (s4 & Q4 & -> & E4 & X4 & H4 & P4).
  { apply X3. } { eapply dseg_frame; [|apply D]. intros x Hx. rewrite Ep3, P0, decide_False by (by intros ->). done. }
  { apply D. } { done. } { intros x Hx Hz. apply X3, X2, V1, HC; [done|]. by apply S3. }
  { intros q. specialize (Hf q). pose proof (ev_length _ _ _ _ _ X13 q) as L. rewrite !length_app in L. rewrite length_app in Hf. cbn [length] in L. lia. } { done. }
  exists s4, Q4. split; [done|].
  set (Zs := filter _ l) in *. assert (HcZ : c ∉ Zs) by (subst Zs; intros [_ ?]%list_elem_of_filter; done).
  assert (HWZ : forall x, x ∈ W1 ++ W2 -> x ∉ Zs).
  { intros x Hx Hz. subst Zs. apply list_elem_of_filter in Hz as [Hz Hxl]. apply S3 in Hz; [|done]. by destruct (HW x Hx). }
  assert (PP : forall x, procs s4 x = if decide (x ∈ l /\ state_of s3 x <> TASK_ZOMBIE) then set_parent (parent (procs s c)) (procs s0 x) else procs s0 x).
  { intros x. rewrite P4, Ep3. destruct (Pf s3 Ep3) as (_ & E & _). rewrite Ep3 in E. by rewrite E. }
  split.
  - apply X4.
  - rewrite PP, decide_False by naive_solver. by rewrite P0, decide_True.
  - assert (HcW : c ∉ W1 ++ W2) by done. split.
    + unfold state_of. rewrite (ev_states _ _ _ _ _ X4), (ev_states _ _ _ _ _ X3), (ev_states _ _ _ _ _ X2) by set_solver. apply V1.
    + apply (ev_in _ _ _ _ _ X4), (ev_in _ _ _ _ _ X3), (ev_in _ _ _ _ _ X2); [set_solver..|]. by apply qmove_in.
  - intros x Hx. assert (state_of s3 x = TASK_WAITING /\ x ∈ Q3 TASK_WAITING) as [A B].
    { destruct (decide (x ∈ W2)) as [Hx2|Hx2]; [by apply H3|]. destruct (H2 x) as [A B]; [set_solver|].
      split; [unfold state_of; by rewrite (ev_states _ _ _ _ _ X3)|]. by apply (ev_in _ _ _ _ _ X3). }
    split; [unfold state_of; rewrite (ev_states _ _ _ _ _ X4) by (by apply HWZ); done|]. apply (ev_in _ _ _ _ _ X4); [by apply HWZ|done|done].
  - intros x Hx Hz. rewrite PP, decide_True; [done|]. split; [done|]. by rewrite <- S3.
  - intros x Hx Hz. apply H4; [done|]. by apply S3.
  - intros x. rewrite PP. case_decide; rewrite P0; by destruct (decide (x = c)) as [->|].
  - intros x. unfold pid_of. by rewrite (ev_pid _ _ _ _ _ X4), (ev_pid _ _ _ _ _ X13).
  - intros x H5 H6 H7. unfold state_of. rewrite (ev_states _ _ _ _ _ X4), (ev_states _ _ _ _ _ X13); [done| |].
    + set_solver.
    + subst Zs. by intros [_ ?]%list_elem_of_filter.
  - rewrite E4, E3, E2, E1. done.
Qed.

(** ** The theorems *)


(** Orphans cannot be waited for.  A running child of a task that exits gets
    the parent of that task as its parent, but not a place among the parent's
    children: when the parent waits for it, it is told that there is no such
    child. *)
Theorem exit_loses_orphans fuel yield s Q c l code g lg x :
  exits_from s Q c l -> (forall q, (length (Q q) + 1 + length (awakened s c) + length l < fuel)%nat) -> (length l < fuel)%nat ->
  parent (procs s c) = g -> g <> 0 -> family s g lg -> c ∈ lg -> (length lg < fuel)%nat ->
  x ∈ l -> state_of s x <> TASK_ZOMBIE -> 0 <= pid_of s x < 2 ^ 31 -> (forall y, y ∈ lg -> pid_of s y <> pid_of s x) ->
  exists s', task_exit fuel code s = Done (Some s') /\ parent (procs s' x) = g /\
    let s2 := set_sched (set_current g (sched_of s')) s' in
    task_wait fuel yield (pid_of s x) s2 = Some (-2, None, s2) /\
    sys_wait fuel yield (pid_of s x) 0 s2 = Some (- ENOTSUP, None, s2).
Proof.
  intros Hx Hf Hl Hg Hg0 Fg Hcg Hlg Hxl Hxz Hp Hpid. destruct (task_exit_spec fuel s Q c l code Hx Hf Hl) as (s' & Q' & E & X).
  exists s'. split; [done|]. split; [by rewrite (xd_orphans _ _ _ _ _ _ X), Hg|]. cbv zeta. set (s2 := set_sched _ s').
  assert (D2 : dlist (procs s2) (first_child (procs s2 g)) lg).
  { destruct (xd_links _ _ _ _ _ _ X g) as [Eg _]. change (procs s2) with (procs s'). rewrite Eg. destruct Fg as [D _].
    eapply dlist_frame; [|exact D]. intros y _. destruct (xd_links _ _ _ _ _ _ X y) as (_ & E1 & E2). done. }
  assert (Ew : task_wait fuel yield (pid_of s x) s2 = Some (-2, None, s2)).
  { unfold task_wait. change (current_task (sched_of s2)) with g.
    replace (first_child (procs s2 g) =? 0) with false.
    2: { symmetry. apply Z.eqb_neq. rewrite (dlist_head _ _ _ D2). eapply dlist_nonzero; [exact D2|]. apply head_or_elem. by destruct lg; [apply elem_of_nil in Hcg|]. }
    replace (0 <=? pid_of s x) with true by lia. destruct D2 as [D2 _]. rewrite (find_sibling_dseg s2 _ lg fuel 0 _ D2 Hlg), filter_none.
    - done.
    - intros y Hy. change (pid_of s2 y) with (pid_of s' y). rewrite (xd_pid _ _ _ _ _ _ X), u32_small by lia. specialize (Hpid y Hy). lia. }
  split; [exact Ew|]. unfold sys_wait. change (current_task (sched_of s2)) with g. replace (g =? 0) with false by lia. cbn [Z.land Z.eqb negb].
  unfold wait_and_report. by rewrite Ew.
Qed.

(** A task that is woken while it waits for a child takes the child for dead.
    Whatever made the waiting task run again, the condition is not tested again:
    [task_wait] reports the child, takes it out of the family and marks it dead,
    whatever its state. *)
Theorem task_wait_reaps_running fuel yield s Q c l1 x l2 pid s2 :
  queues (sched_of s) Q -> running s Q c -> family s c (l1 ++ x :: l2) -> c ∉ l1 ++ x :: l2 ->
  0 <= pid < 2 ^ 31 -> pid_of s x = pid -> (forall y, y ∈ l1 -> pid_of s y <> pid) -> state_of s x <> TASK_ZOMBIE ->
  (forall q, (length (Q q) + 1 < fuel)%nat) -> (length (l1 ++ x :: l2) < fuel)%nat -> (1 < fuel)%nat ->
  (forall s1, blocking fuel (waiting_queue (procs s x)) c s = Some s1 -> yield s1 = Some s2) ->
  state_of s2 c <> TASK_BLOCKED -> family s2 c (l1 ++ x :: l2) ->
  exists s', task_wait fuel yield pid s = Some (i32 (pid_of s2 x), Some (exit_code (procs s2 x)), s') /\
    state_of s' x = TASK_DEAD /\ family s' c (l1 ++ l2).
Proof.
  intros HQ R F Hc Hp Hpx Hfirst Hz Hf Hl Hf2 Hy Hs2 F2. unfold task_wait. rewrite (rn_current _ _ _ R).
  assert (Hx0 : x <> 0) by (destruct F as [D _]; eapply dlist_nonzero; [exact D|set_solver]). assert (Hxc : x <> c) by (intros ->; set_solver).
  replace (first_child (procs s c) =? 0) with false.
  2: { symmetry. apply Z.eqb_neq. rewrite (family_head _ _ _ F). destruct F as [D _]. eapply dlist_nonzero; [exact D|]. apply head_or_elem. by destruct l1. }
  replace (0 <=? pid) with true by lia. rewrite (find_sibling_spec s c (l1 ++ x :: l2)) by done.
  rewrite filter_first; [|intros y Hy'; specialize (Hfirst y Hy'); rewrite u32_small by lia; lia|rewrite u32_small by lia; lia].
  cbn [mbind option_bind]. replace (x =? 0) with false by lia. set (w := waiting_queue (procs s x)) in *.
  destruct (blocking_spec fuel s Q c w HQ R Hf) as (s1 & B & V & _). destruct (blocking_view fuel s Q c w s1 HQ R Hf B) as (C1 & C2 & C3 & C4 & _).
  assert (Ec : task_wait_for_child fuel pid s1 = Some (false, s1)).
  { unfold task_wait_for_child. rewrite C1. replace (c =? 0) with false by (destruct R; lia).
    rewrite (find_sibling_spec s1 c (l1 ++ x :: l2)) by (done || by apply (family_ext s)).
    rewrite filter_first; [|intros y Hy'; rewrite C3; specialize (Hfirst y Hy'); rewrite u32_small by lia; lia|rewrite C3, u32_small by lia; lia].
    cbn [mbind option_bind]. replace (x =? 0) with false by lia. unfold is_state. by rewrite C4, bool_decide_eq_false_2. }
  unfold wait_on_condition, wait_on_condition_impl. rewrite (rn_current _ _ _ R). replace (c =? 0) with false by (destruct R; lia).
  pose proof B as B'. unfold blocking in B'. destruct (move_to_state fuel c TASK_BLOCKED s) as [s0|]; [|done]. cbn [mbind option_bind] in B' |- *. injection B' as Es0. rewrite Es0.
  assert (S1 : state_of s1 c = TASK_BLOCKED) by apply (mv_state _ _ _ _ _ V).
  assert (El : wait_loop yield fuel (task_wait_for_child fuel pid) c TASK_BLOCKED s1 = Some s2).
  { destruct fuel as [|[|n]]; [lia|lia|]. cbn [wait_loop]. rewrite decide_True, Ec by done. cbn [mbind option_bind]. rewrite (Hy s1 B). cbn [mbind option_bind].
    by rewrite decide_False. }
  rewrite El. cbn [mbind option_bind]. set (s3 := dequeue_waiter w c s2). change (state_of s3 c) with (state_of s2 c). rewrite decide_False by done.
  cbn [mbind option_bind]. destruct (reap_spec s3 c l1 x l2) as (s' & -> & F' & P); [by apply (family_ext s2)|done|].
  exists s'. split; [done|]. split; [apply P|done].
Qed.
