(* ===== verification/TasksDemo.v ===== *)
(** Processes at work: concrete systems for the theorems on processes.

    The idle task (at 100, process 0) is created first, and forks the task 200
    (process 1), which forks 300 (process 2); the wait objects of a task are at ten
    times its address, and at the address after that. *)

From S2P Require Import Prelude Errno Dll Sched SchedSpec Signals Tasks TasksSpec TasksWait TasksExit.
From Stdlib Require Import ZArith Lia Bool.
From stdpp Require Import base tactics numbers list sets gmap.
Open Scope Z_scope.

Definition no_system : system :=
  mk_system (mk_sched (fun _ => mk_task 0 TASK_DEAD 0 0 0) (fun _ => 0) 0 0 0 (mk_sched_stats 0 0 0 0 0) [])
    (fun _ => mk_proc 0 0 0 0 0 0 0 0 0) (fun _ => 0) 0 0 (fun _ => mk_wait_obj [] 0 false) 0.

Definition fork_at (x : Z) (s : system) : option system := task_fork 20 x (10 * x) (10 * x + 1) s.
Definition yield_once (s : system) : option system :=
  match scheduler_yield 20 (sched_of s) with Some (Done c) => Some (set_sched c s) | _ => None end.

(** The idle task runs. *)
Definition booted : option system :=
  s ← task_create 20 100 1000 1001 no_system; Some (set_sched (scheduler_init 100 (sched_of s)) s).

(** Task 200 runs and has a child, 300, that is ready. *)
Definition parent_runs : option system := s ← booted; s ← fork_at 200 s; s ← yield_once s; fork_at 300 s.

(** The child has exited with code 7, and 200 runs. *)
Definition child_exited : option system :=
  s ← parent_runs;
  let s := set_proc 300 (set_exit_code 7 (procs s 300)) s in
  move_to_state 20 300 TASK_ZOMBIE s.

(** Task 300 runs and has a child, 400, that is ready; 200 waits for 300. *)
Definition child_runs : option system :=
  s ← parent_runs;
  s ← move_to_state 20 300 TASK_RUNNING s;
  s ← move_to_state 20 200 TASK_BLOCKED s;
  let s := enqueue_waiter 3000 200 s in
  fork_at 400 (set_sched (set_current 300 (sched_of s)) s).

Definition only (st : task_state) (l : list Z) : task_state -> list Z := fun q => if decide (q = st) then l else [].

(** [from_computation] names the state a demonstration computes. *)
Ltac from_computation t := destruct t as [s|] eqn:E; [exists s; split; [reflexivity|]; vm_compute in E; injection E as <-|vm_compute in E; discriminate E].
Ltac queues_vm := split; [intros q _; destruct q; (split; [vm_compute; repeat split; discriminate|]); repeat constructor; set_solver
  |intros q q' x _ _; destruct q, q'; vm_compute; set_solver].
Ltac not_queued := intros (q & Hq & Hin); destruct q; try discriminate Hq; vm_compute in Hin; set_solver.
Ltac family_vm := split; [split; [vm_compute; repeat split; discriminate|repeat constructor; set_solver]|apply Forall_forall; repeat constructor].

Definition parent_queues : task_state -> list Z := only TASK_WAITING [100; 300].
Definition parent_table : gmap Z Z := <[0 := 100]> (<[1 := 200]> (<[2 := 300]> ∅)).

Lemma parent_runs_ok : exists s, parent_runs = Some s /\ queues (sched_of s) parent_queues /\ running s parent_queues 200 /\ family s 200 [300] /\
  pid_of s 300 = 2 /\ state_of s 300 = TASK_WAITING.
Proof.
  from_computation parent_runs. split; [queues_vm|]. split; [split; [reflexivity|done|reflexivity|not_queued|by_vm]|]. split; [family_vm|]. by_vm.
Qed.

(** Task 300 is at the end of the queue of zombies, after none. *)
Definition exited_queues : task_state -> list Z := fun q => match q with TASK_WAITING => [100] | TASK_ZOMBIE => [300] | _ => [] end.

Ltac table_vm :=
  split; [by_vm| | |reflexivity];
  [intros i Hi; assert (i = 0 \/ i = 1 \/ i = 2 \/ i = 3 \/ i = 4 \/ i = 5 \/ i = 6 \/ i = 7 \/ i = 8 \/ i = 9) as Hcases by (cbn [tasks_length] in Hi; lia);
   repeat destruct Hcases as [->|Hcases]; try subst i; vm_compute; reflexivity
  |intros i x; unfold parent_table; rewrite !lookup_insert_Some, lookup_empty; intros H;
   repeat (destruct H as [[<- <-]|[_ H]]; [by_vm|]); discriminate H].

Lemma child_exited_ok : exists s, child_exited = Some s /\ table_rep s parent_table /\ queues (sched_of s) exited_queues /\
  running s exited_queues 200 /\ family s 200 [300] /\ (forall x, x ∈ [300] -> state_of s x = TASK_ZOMBIE) /\
  pid_of s 300 = 2 /\ exit_code (procs s 300) = 7 /\ waiters (wait_objs s (waiting_queue (procs s 300))) = [] /\
  waiters (wait_objs s (children_wait_queue (procs s 200))) = [].
Proof.
  from_computation child_exited. split; [table_vm|]. split; [queues_vm|]. split; [split; [reflexivity|done|reflexivity|not_queued|by_vm]|].
  split; [family_vm|]. split; [apply Forall_forall; repeat constructor|]. by_vm.
Qed.


Lemma task_table_refines_witness :
  exists s, child_exited = Some s /\ task_get_task_by_pid 2 s = 300 /\ table_rep (task_destroy 300 s) (delete 2 parent_table).
Proof.
  destruct child_exited_ok as (s & E & T & _). destruct (task_table_refines s parent_table T) as (_ & D & P & _).
  exists s. split; [exact E|]. split; [rewrite (P 2); reflexivity|]. apply D. reflexivity.
Defined.

(** The parent before its fork: only the idle task is ready. *)
Definition before_fork : option system := s ← booted; s ← fork_at 200 s; yield_once s.
Definition before_table : gmap Z Z := <[0 := 100]> (<[1 := 200]> ∅).

Lemma before_fork_ok : exists s, before_fork = Some s /\ table_rep s before_table /\ queues (sched_of s) (only TASK_WAITING [100]) /\
  current_task (sched_of s) = 200 /\ family s 200 [] /\ tasks_length s = 10.
Proof.
  from_computation before_fork. split.
  - split; [by_vm| | |reflexivity].
    + intros i Hi. assert (i = 0 \/ i = 1 \/ i = 2 \/ i = 3 \/ i = 4 \/ i = 5 \/ i = 6 \/ i = 7 \/ i = 8 \/ i = 9) as Hcases by (cbn [tasks_length] in Hi; lia).
      repeat destruct Hcases as [->|Hcases]; try subst i; vm_compute; reflexivity.
    + intros i x. unfold before_table. rewrite !lookup_insert_Some, lookup_empty. intros H.
      repeat (destruct H as [[<- <-]|[_ H]]; [by_vm|]). discriminate H.
  - split; [queues_vm|]. split; [reflexivity|]. split; [|reflexivity]. split; [split; [reflexivity|constructor]|]. intros x Hx. by apply elem_of_nil in Hx.
Qed.

Lemma task_fork_correct_witness :
  exists s s' p, before_fork = Some s /\ task_fork 20 300 3000 3001 s = Some s' /\ least_free before_table p /\ family s' 200 [300].
Proof.
  destruct before_fork_ok as (s & E & T & HQ & C & F & L).
  pose proof (task_fork_correct 20 s before_table (only TASK_WAITING [100]) [] 300 3000 3001) as W. cbv zeta in W. rewrite C in W.
  destruct (W T F HQ) as (s' & p & Ef & Hp & _ & _ & F' & _).
  - split.
    + discriminate.
    + intros p Hm. unfold before_table in Hm. rewrite !lookup_insert_Some, lookup_empty in Hm. clear E.
      repeat (destruct Hm as [[_ Hm]|[_ Hm]]; [discriminate Hm|]). discriminate Hm.
    + clear E. not_queued.
  - discriminate.
  - discriminate.
  - clear. set_solver.
  - clear. set_solver.
  - cbn. lia.
  - intros q. destruct q; vm_compute; lia.
  - rewrite L. reflexivity.
  - exists s, s', p. split; [exact E|]. split; [exact Ef|]. split; [exact Hp|exact F'].
Defined.

(** Task 300 runs, 200 waits for it, 400 is ready. *)
Definition child_queues : task_state -> list Z := fun q => match q with TASK_WAITING => [100; 400] | TASK_BLOCKED => [200] | _ => [] end.

Lemma child_runs_ok : exists s, child_runs = Some s /\ exits_from s child_queues 300 [400] /\ parent (procs s 300) = 200 /\ family s 200 [300] /\
  state_of s 400 <> TASK_ZOMBIE /\ pid_of s 400 = 3 /\ pid_of s 300 = 2 /\ awakened s 300 = [200].
Proof.
  from_computation child_runs. split; [split|].
  - queues_vm.
  - split; [reflexivity|done|reflexivity|not_queued|by_vm].
  - family_vm.
  - vm_compute. set_solver.
  - by_vm.
  - apply Forall_forall. vm_compute. constructor; [|constructor]. split; [|discriminate]. split; [discriminate|]. left. exists TASK_BLOCKED. split; [reflexivity|]. clear. set_solver.
  - apply (Forall_forall (fun x => state_of _ x = TASK_ZOMBIE -> placed _ _ x)). constructor; [|constructor]. vm_compute. discriminate.
  - split; [reflexivity|]. split; [family_vm|]. split; [vm_compute; discriminate|]. by_vm.
Qed.


Lemma exit_loses_orphans_witness :
  exists s s', child_runs = Some s /\ task_exit 20 7 s = Done (Some s') /\ parent (procs s' 400) = 200 /\
    let s2 := set_sched (set_current 200 (sched_of s')) s' in
    task_wait 20 (fun _ => None) 3 s2 = Some (-2, None, s2) /\ sys_wait 20 (fun _ => None) 3 0 s2 = Some (- ENOTSUP, None, s2).
Proof.
  destruct child_runs_ok as (s & E & X & P & F & Z4 & P4 & P3 & A).
  destruct (exit_loses_orphans 20 (fun _ => None) s child_queues 300 [400] 7 200 [300] 400 X) as (s' & Ex & Hpar & W).
  - intros q. rewrite A. destruct q; vm_compute; lia.
  - cbn. lia.
  - exact P.
  - discriminate.
  - exact F.
  - clear. set_solver.
  - cbn. lia.
  - clear. set_solver.
  - exact Z4.
  - rewrite P4. lia.
  - intros y Hy. apply list_elem_of_singleton in Hy as ->. rewrite P3, P4. discriminate.
  - rewrite P4 in W. exists s, s'. split; [exact E|]. split; [exact Ex|]. split; [exact Hpar|exact W].
Defined.

(** While 200 waits for 300, that one runs, sends a signal to 200 and yields. *)
Definition signal_parent (s : system) : option system :=
  s ← yield_once s;
  r ← sys_sigsend 20 1 10 s;
  yield_once (snd r).

Definition woken (s : system) : option system := s ← blocking 20 (waiting_queue (procs s 300)) 200 s; signal_parent s.

Lemma woken_ok : exists s2, (s ← parent_runs; woken s) = Some s2 /\ state_of s2 200 <> TASK_BLOCKED /\ family s2 200 [300] /\
  pid_of s2 300 = 2 /\ exit_code (procs s2 300) = 0 /\ state_of s2 300 = TASK_WAITING.
Proof.
  from_computation (s ← parent_runs; woken s). split; [vm_compute; discriminate|]. split; [family_vm|]. by_vm.
Qed.

#[local] Opaque signal_parent parent_runs.

Lemma some_bind {A B} (x : option A) (a : A) (k : A -> option B) o : x = Some a -> (x ≫= k) = o -> k a = o.
Proof. intros -> E. exact E. Qed.

Lemma woken_yield s s1 s2 : woken s = Some s2 -> blocking 20 (waiting_queue (procs s 300)) 200 s = Some s1 -> signal_parent s1 = Some s2.
Proof. unfold woken. intros E B. exact (some_bind _ _ _ _ B E). Qed.

#[local] Opaque woken.

Lemma woken_from s o : parent_runs = Some s -> (s ← parent_runs; woken s) = o -> woken s = o.
Proof. intros E1 E. exact (some_bind _ _ _ _ E1 E). Qed.

Lemma task_wait_reaps_running_witness :
  exists s s2 s', parent_runs = Some s /\ woken s = Some s2 /\ state_of s2 300 = TASK_WAITING /\
    task_wait 20 signal_parent 2 s = Some (2, Some 0, s') /\ state_of s' 300 = TASK_DEAD.
Proof.
  destruct parent_runs_ok as (s & E & HQ & R & F & P3 & S3). destruct woken_ok as (s2 & E2 & S2 & F2 & P2 & X2 & W2).
  pose proof (woken_from _ _ E E2) as E3.
  destruct (task_wait_reaps_running 20 signal_parent s parent_queues 200 [] 300 [] 2 s2) as (s' & Ew & D & _).
  - exact HQ.
  - exact R.
  - exact F.
  - clear. set_solver.
  - lia.
  - exact P3.
  - intros y Hy. apply elem_of_nil in Hy. destruct Hy.
  - rewrite S3. discriminate.
  - intros q. destruct q; vm_compute; lia.
  - cbn. lia.
  - lia.
  - intros s1 B. exact (woken_yield s s1 s2 E3 B).
  - exact S2.
  - exact F2.
  - rewrite P2, X2 in Ew. exists s, s2, s'. split; [exact E|]. split; [exact E3|]. split; [exact W2|]. split; [exact Ew|exact D].
Defined.

Lemma sys_wait_nohang_witness :
  exists s s2, parent_runs = Some s /\ sys_wait 20 (fun _ => None) 2 WNOHANG s = Some (- ECHILD, None, s) /\
    child_exited = Some s2 /\ sys_wait 20 (fun _ => None) 0 WNOHANG s2 = Some (- ENOTSUP, None, s2).
Proof.
  destruct parent_runs_ok as (s & E & HQ & R & F & P3 & S3). destruct child_exited_ok as (s2 & E2 & _ & _ & R2 & F2 & Z2 & P2 & _).
  exists s, s2. split; [exact E|]. split.
  - rewrite <- P3. apply (sys_wait_nohang 20 (fun _ => None) s parent_queues 200 [] 300 []).
    + exact R.
    + exact F.
    + cbn. lia.
    + rewrite S3. discriminate.
    + rewrite P3. lia.
    + intros y Hy. apply elem_of_nil in Hy. destruct Hy.
  - split; [exact E2|]. apply (sys_wait_nohang 20 (fun _ => None) s2 exited_queues 200 [] 300 []).
    + exact R2.
    + exact F2.
    + cbn. lia.
    + intros y Hy. apply elem_of_nil in Hy. destruct Hy.
    + apply Z2. apply list_elem_of_singleton. reflexivity.
    + intros y Hy. apply list_elem_of_singleton in Hy as ->. rewrite P2. discriminate.
Defined.
