(* ===== verification/Strtol.v ===== *)
(** Characters and numbers in text: a model of [src/libc/include/ctype.h], of
    [strtol], [strtoul] and [atoi] of [src/libc/src/stdlib], and the reference they
    are equivalent to.

    The macros of [ctype.h] look a character up in a table of 128 entries with any
    [uint8_t]; the models return [None] where the table is read out of its bounds.
    The functions walk the string, so their models take [fuel]; [None] means that
    it ran out or that the table was read out of its bounds.  Signed overflow,
    which C leaves undefined, wraps around here. *)

From S2P Require Import Prelude CMem CString.
From Stdlib Require Import ZArith Lia Bool Ascii String.
From stdpp Require Import base tactics numbers list.
Open Scope Z_scope.

(** A character constant of the source. *)
Definition chr (c : ascii) : Z := Z.of_N (N_of_ascii c).
Arguments chr c%_char_scope.

(** The characters of a string constant. *)
Fixpoint chrs (s : String.string) : list Z :=
  match s with String.EmptyString => [] | String.String c s => chr c :: chrs s end.
Arguments chrs s%_string_scope.

(** [chars] replaces character constants by their codes. *)
Ltac chars :=
  repeat match goal with
  | |- context [chr ?c] => let v := eval vm_compute in (chr c) in change (chr c) with v
  | H : context [chr ?c] |- _ => let v := eval vm_compute in (chr c) in change (chr c) with v in H
  end.

Definition _ASCII_FLAGS : list Z :=
  [0x01; 0x01; 0x01; 0x01; 0x01; 0x01; 0x01; 0x01; 0x01; 0x31; 0x21; 0x21; 0x21; 0x21; 0x01; 0x01;
   0x01; 0x01; 0x01; 0x01; 0x01; 0x01; 0x01; 0x01; 0x01; 0x01; 0x01; 0x01; 0x01; 0x01; 0x01; 0x01;
   0x30; 0x88; 0x88; 0x88; 0x88; 0x88; 0x88; 0x88; 0x88; 0x88; 0x88; 0x88; 0x88; 0x88; 0x88; 0x88;
   0xc2; 0xc2; 0xc2; 0xc2; 0xc2; 0xc2; 0xc2; 0xc2; 0xc2; 0xc2; 0x88; 0x88; 0x88; 0x88; 0x88; 0x88;
   0x88; 0xcc; 0xcc; 0xcc; 0xcc; 0xcc; 0xcc; 0x8c; 0x8c; 0x8c; 0x8c; 0x8c; 0x8c; 0x8c; 0x8c; 0x8c;
   0x8c; 0x8c; 0x8c; 0x8c; 0x8c; 0x8c; 0x8c; 0x8c; 0x8c; 0x8c; 0x8c; 0x88; 0x88; 0x88; 0x88; 0x88;
   0x88; 0xc4; 0xc4; 0xc4; 0xc4; 0xc4; 0xc4; 0x84; 0x84; 0x84; 0x84; 0x84; 0x84; 0x84; 0x84; 0x84;
   0x84; 0x84; 0x84; 0x84; 0x84; 0x84; 0x84; 0x84; 0x84; 0x84; 0x84; 0x88; 0x88; 0x88; 0x88; 0x01].

Definition ascii_flags (c : Z) : option Z := _ASCII_FLAGS !! Z.to_nat (u8 c).

(** [(_ASCII_FLAGS[(uint8_t)(c)] & mask) > 0], and the same with [== value]. *)
Definition has_flag (mask c : Z) : option bool := (fun f => 0 <? Z.land f mask) <$> ascii_flags c.
Definition flags_are (mask value c : Z) : option bool := (fun f => Z.land f mask =? value) <$> ascii_flags c.

Definition iscntrl (c : Z) : option bool := has_flag 0x01 c.
Definition isblank (c : Z) : option bool := has_flag 0x10 c.
Definition isspace (c : Z) : option bool := has_flag 0x20 c.
Definition isupper (c : Z) : option bool := flags_are 0x0c 0x0c c.
Definition islower (c : Z) : option bool := flags_are 0x0c 0x04 c.
Definition isalpha (c : Z) : option bool := has_flag 0x04 c.
Definition isdigit (c : Z) : option bool := has_flag 0x02 c.
Definition isxdigit (c : Z) : option bool := has_flag 0x40 c.
Definition isalnum (c : Z) : option bool := has_flag 0x06 c.
Definition ispunct (c : Z) : option bool := flags_are 0x0c 0x08 c.
Definition isgraph (c : Z) : option bool := has_flag 0x80 c.
Definition isprint (c : Z) : option bool := flags_are 0x01 0 c.

(** ** The classes of ASCII *)

Definition in_span (a b c : Z) : bool := (a <=? c) && (c <=? b).

Definition is_space (c : Z) : bool := in_span 9 13 c || (c =? 32).
Definition is_digit (c : Z) : bool := in_span 48 57 c.
Definition is_upper (c : Z) : bool := in_span 65 90 c.
Definition is_lower (c : Z) : bool := in_span 97 122 c.
Definition is_alpha (c : Z) : bool := is_upper c || is_lower c.
Definition is_xdigit (c : Z) : bool := is_digit c || in_span 65 70 c || in_span 97 102 c.
Definition is_graph (c : Z) : bool := in_span 33 126 c.

Definition is_ascii (c : Z) : Prop := 0 <= c < 128.

Lemma ascii_forall (P : Z -> Prop) : Forall P (seqZ 0 128) -> forall c, is_ascii c -> P c.
Proof. intros H c Hc. rewrite Forall_forall in H. apply H, elem_of_seqZ. unfold is_ascii in Hc. lia. Qed.

(** [by_table] checks a property of the 128 characters, one by one. *)
Ltac by_table := apply ascii_forall; repeat (apply Forall_cons; split; [reflexivity|]); apply Forall_nil; exact I.

Lemma isspace_ascii : forall c, is_ascii c -> isspace c = Some (is_space c).
Proof. by_table. Qed.

Lemma isdigit_ascii : forall c, is_ascii c -> isdigit c = Some (is_digit c).
Proof. by_table. Qed.

Lemma isalpha_ascii : forall c, is_ascii c -> isalpha c = Some (is_alpha c).
Proof. by_table. Qed.

Lemma isupper_ascii : forall c, is_ascii c -> isupper c = Some (is_upper c).
Proof. by_table. Qed.

Lemma isxdigit_ascii : forall c, is_ascii c -> isxdigit c = Some (is_xdigit c).
Proof. by_table. Qed.

(** Each macro decides its class of ASCII characters, and reads past the table
    for every other byte. *)
Theorem ctype_classes c : is_u8 c ->
  let tests := [iscntrl; isblank; isspace; isupper; islower; isalpha; isdigit; isxdigit; isalnum; ispunct; isgraph; isprint] in
  map (fun test => test c) tests =
  if c <? 128
  then map Some [in_span 0 31 c || (c =? 127); (c =? 9) || (c =? 32); is_space c; is_upper c; is_lower c; is_alpha c;
         is_digit c; is_xdigit c; is_alpha c || is_digit c; is_graph c && negb (is_alpha c || is_digit c); is_graph c; in_span 32 126 c]
  else replicate 12 None.
Proof.
  intros Hc. cbv zeta. destruct (Z.ltb_spec c 128) as [H|H].
  - assert (is_ascii c) as Ha by (unfold is_u8, is_ascii in *; lia). revert c Ha Hc H. apply (ascii_forall (fun c => is_u8 c -> c < 128 -> _)).
    repeat (apply Forall_cons; split; [intros _ _; reflexivity|]). by apply Forall_nil.
  - assert (ascii_flags c = None) as E.
    { apply lookup_ge_None. unfold is_u8 in Hc. rewrite u8_small by lia. change (length _ASCII_FLAGS) with 128%nat. lia. }
    cbn [map]. unfold iscntrl, isblank, isspace, isupper, islower, isalpha, isdigit, isxdigit, isalnum, ispunct, isgraph, isprint, has_flag, flags_are.
    by rewrite E.
Qed.

(** [while (isspace( *str )) str++;] *)
Fixpoint skip_space (fuel : nat) (m : memory) (str : Z) : option Z :=
  match fuel with
  | O => None
  | S fuel => space ← isspace (m str); if space : bool then skip_space fuel m (str + 1) else Some str
  end.

(** The value after [0x], if [str] points to such a prefix. *)
Definition hex_prefix (m : memory) (str : Z) : option bool :=
  if (m (str + 1) =? chr "x") || (m (str + 1) =? chr "X") then isxdigit (m (str + 2)) else Some false.

(** The detection of the base: the base and the start of the digits. *)
Definition detect_base (m : memory) (str base : Z) : option (Z * Z) :=
  if base =? 0 then
    if m str =? chr "0" then
      hex ← hex_prefix m str;
      Some (if hex : bool then (16, str + 2) else (8, str))
    else Some (10, str)
  else if base =? 16 then
    if m str =? chr "0" then
      hex ← hex_prefix m str;
      Some (if hex : bool then (base, str + 2) else (base, str))
    else Some (base, str)
  else Some (base, str).

(** The digit a character stands for; [Some None] is the [break]. *)
Definition digit_of (c : Z) : option (option Z) :=
  d ← isdigit c;
  if d : bool then Some (Some (c - chr "0")) else
  a ← isalpha c;
  if a : bool then
    u ← isupper c;
    Some (Some (if u : bool then c - chr "A" + 10 else c - chr "a" + 10))
  else Some None.

(** The loop over the digits, [wrap] being the conversion to the type of
    [result]: the end, the result and [found_digit]. *)
Fixpoint convert (fuel : nat) (wrap : Z -> Z) (m : memory) (base str result : Z) (found : bool) : option (Z * Z * bool) :=
  match fuel with
  | O => None
  | S fuel =>
      if m str =? 0 then Some (str, result, found) else
      d ← digit_of (m str);
      match d with
      | None => Some (str, result, found)
      | Some digit =>
          if base <=? digit then Some (str, result, found)
          else convert fuel wrap m base (str + 1) (wrap (result * base + digit)) true
      end
  end.

(** The result, the address stored in [*endptr] and whether [errno] is set to
    [EINVAL]. *)
Definition strtol (fuel : nat) (m : memory) (str base : Z) : option (Z * Z * bool) :=
  let start := str in
  if (base <? 0) || (base =? 1) || (36 <? base) then Some (0, str, true) else
  str ← skip_space fuel m str;
  let '(sign, str) := if m str =? chr "-" then (-1, str + 1) else if m str =? chr "+" then (1, str + 1) else (1, str) in
  bs ← detect_base m str base;
  let '(base, str) := (bs : Z * Z) in
  c ← convert fuel i32 m base str 0 false;
  let '(str, result, found) := (c : Z * Z * bool) in
  Some (i32 (sign * result), if found then str else start, false).

Definition strtoul (fuel : nat) (m : memory) (str base : Z) : option (Z * Z * bool) :=
  let start := str in
  if (base <? 0) || (base =? 1) || (36 <? base) then Some (0, str, true) else
  str ← skip_space fuel m str;
  let str := if m str =? chr "+" then str + 1 else str in
  bs ← detect_base m str base;
  let '(base, str) := (bs : Z * Z) in
  c ← convert fuel u32 m base str 0 false;
  let '(str, result, found) := (c : Z * Z * bool) in
  Some (result, if found then str else start, false).

Fixpoint atoi_digits (fuel : nat) (m : memory) (str result : Z) : option Z :=
  match fuel with
  | O => None
  | S fuel =>
      d ← isdigit (m str);
      if d : bool then atoi_digits fuel m (str + 1) (i32 (result * 10 + (m str - chr "0"))) else Some result
  end.

Definition atoi (fuel : nat) (m : memory) (str : Z) : option Z :=
  str ← skip_space fuel m str;
  let '(sign, str) := if m str =? chr "-" then (-1, str + 1) else if m str =? chr "+" then (1, str + 1) else (1, str) in
  result ← atoi_digits fuel m str 0;
  Some (i32 (sign * result)).

(** ** The reference

    On the list of the characters: white space, a sign, a prefix and the longest
    sequence of digits of the base, whose value is the positional one. *)

Definition digit_value (c : Z) : option Z :=
  if is_digit c then Some (c - 48) else if is_upper c then Some (c - 55) else if is_lower c then Some (c - 87) else None.

Definition valid_digit (base c : Z) : bool :=
  match digit_value c with Some d => d <? base | None => false end.

(** The value of digits, the most significant first. *)
Definition positional (base : Z) (ds : list Z) : Z := fold_left (fun v d => v * base + d) ds 0.

Definition value (base : Z) (s : list Z) : Z := positional base (map (fun c => default 0 (digit_value c)) s).

Definition sign_of (s : list Z) : Z * list Z :=
  match s with
  | c :: t => if c =? 45 then (-1, t) else if c =? 43 then (1, t) else (1, s)
  | [] => (1, [])
  end.

Definition plus_of (s : list Z) : list Z :=
  match s with c :: t => if c =? 43 then t else s | [] => [] end.

Definition prefix_of (base : Z) (s : list Z) : Z * list Z :=
  let hex := match s with z :: x :: d :: _ => (z =? 48) && ((x =? 120) || (x =? 88)) && is_xdigit d | _ => false end in
  if ((base =? 0) || (base =? 16)) && hex then (16, drop 2 s)
  else if base =? 0 then (if bool_decide (head s = Some 48) then 8 else 10, s)
  else (base, s).

(** The number at the start of [s]: sign, base, digits, and what follows. *)
Definition number (signed : bool) (base : Z) (s : list Z) : Z * Z * list Z * list Z :=
  let t := drop_while is_space s in
  let '(sign, t) := if signed then sign_of t else (1, plus_of t) in
  let '(base, t) := prefix_of base t in
  (sign, base, take_while (valid_digit base) t, drop_while (valid_digit base) t).

(** ** Equivalence *)

Definition ascii_string (s : list Z) : Prop := Forall is_ascii s.

Lemma digit_of_ascii c : is_ascii c -> digit_of c = Some (digit_value c).
Proof.
  intros H. unfold digit_of, digit_value. rewrite isdigit_ascii, isalpha_ascii, isupper_ascii by done. cbn. chars.
  unfold is_alpha. destruct (is_digit c); [done|]. destruct (is_upper c); cbn; [f_equal; f_equal; lia|].
  destruct (is_lower c); cbn; [|done]. do 2 f_equal. lia.
Qed.

(** [tail_at m e t]: the string [t] ends, with its terminator, at [e]. *)
Definition tail_at (m : memory) (e : Z) (t : list Z) : Prop := cstr m (e - len t) t /\ ascii_string t.

Lemma tail_cons m e c t : tail_at m e (c :: t) -> m (e - len (c :: t)) = c /\ c <> 0 /\ is_ascii c /\ tail_at m e t.
Proof.
  intros [(H1 & H2 & H3) H]. apply Forall_cons in H as [? ?]. rewrite len_cons in *.
  replace (e - (len t + 1) + 1) with (e - len t) in H3 by lia. done.
Qed.

Lemma tail_next e (c : Z) t : e - len (c :: t) + 1 = e - len t.
Proof. rewrite len_cons. lia. Qed.

Lemma tail_head m e t : tail_at m e t -> m (e - len t) = default 0 (head t) /\ is_ascii (default 0 (head t)).
Proof. destruct t as [|c t]; [by intros [H _]|]. intros (? & ? & ? & ?)%tail_cons. done. Qed.

Lemma drop_while_len p (s : list Z) : (length (drop_while p s) <= length s)%nat.
Proof. induction s as [|c s IH]; cbn; [done|]. destruct (p c); cbn; lia. Qed.

Lemma skip_space_spec m e s : forall fuel,
  tail_at m e s -> (length s < fuel)%nat ->
  skip_space fuel m (e - len s) = Some (e - len (drop_while is_space s)) /\ tail_at m e (drop_while is_space s).
Proof.
  induction s as [|c s IH]; intros [|fuel] Ht Hf; cbn in Hf; [lia| |lia|]; cbn [skip_space drop_while].
  - destruct (tail_head _ _ _ Ht) as [-> ?]. done.
  - destruct (tail_cons _ _ _ _ Ht) as (-> & ? & ? & Ht'). rewrite isspace_ascii by done. cbn [mbind option_bind]. destruct (is_space c); [|done].
    rewrite tail_next. apply IH; [done|lia].
Qed.

(** The second and third characters, where the first one is not the terminator. *)
Lemma hex_prefix_spec m e t :
  tail_at m e (48 :: t) ->
  hex_prefix m (e - len (48 :: t)) =
  Some (match t with x :: d :: _ => ((x =? 120) || (x =? 88)) && is_xdigit d | _ => false end).
Proof.
  intros (_ & _ & _ & Ht)%tail_cons. unfold hex_prefix. chars. rewrite tail_next.
  replace (e - len (48 :: t) + 2) with (e - len t + 1) by (rewrite len_cons; lia).
  destruct t as [|x t]; [by destruct (tail_head _ _ _ Ht) as [-> _]|]. destruct (tail_cons _ _ _ _ Ht) as (-> & _ & _ & Ht').
  rewrite tail_next. destruct (tail_head _ _ _ Ht') as [-> ?]. rewrite isxdigit_ascii by done.
  destruct (_ || _); [|by destruct t]. by destruct t.
Qed.

Lemma detect_base_spec m e t base :
  tail_at m e t -> 0 <= base ->
  let '(base', t') := prefix_of base t in
  detect_base m (e - len t) base = Some (base', e - len t') /\ tail_at m e t' /\ (length t' <= length t)%nat.
Proof.
  intros Ht Hb. unfold prefix_of, detect_base. chars. destruct (tail_head _ _ _ Ht) as [-> _].
  destruct (Z.eqb_spec base 0) as [->|H0]; [|destruct (Z.eqb_spec base 16) as [->|H16]; [|done]]; cbn [orb andb].
  all: destruct t as [|z t]; [done|]; cbn [head from_option]; unfold id; destruct (Z.eqb_spec z 48) as [->|Hz];
    [|destruct t as [|x [|d t]]; cbn [andb]; rewrite ?bool_decide_eq_false_2 by congruence; done].
  all: rewrite (hex_prefix_spec m e t Ht); rewrite ?bool_decide_eq_true_2 by done; cbn [mbind option_bind];
    destruct t as [|x [|d t]]; cbn [andb]; try done; destruct (_ && _) eqn:E; cbn [drop]; try done.
  all: split; [do 2 f_equal; rewrite !len_cons; lia|split; [|cbn; lia]].
  all: apply tail_cons in Ht as (_ & _ & _ & Ht); apply tail_cons in Ht as (_ & _ & _ & Ht); done.
Qed.

(** Conversions that agree with [Z] modulo a word. *)
Definition wrapping (wrap : Z -> Z) : Prop := forall x a b, wrap (wrap x * a + b) = wrap (x * a + b).

Lemma i32_wrapping : wrapping i32.
Proof.
  intros x a b. unfold i32. f_equal.
  set (y := (x + 2 ^ 31) mod 2 ^ 32 - 2 ^ 31). assert (exists k, y = x + k * 2 ^ 32) as [k ->].
  { exists (- ((x + 2 ^ 31) / 2 ^ 32)). subst y. pose proof (Z.div_mod (x + 2 ^ 31) (2 ^ 32)). lia. }
  replace ((x + k * 2 ^ 32) * a + b + 2 ^ 31) with (x * a + b + 2 ^ 31 + k * a * 2 ^ 32) by ring. apply Z.mod_add. lia.
Qed.

Lemma i32_succ x : i32 (i32 x + 1) = i32 (x + 1).
Proof. pose proof (i32_wrapping x 1 1) as H. by rewrite !Z.mul_1_r in H. Qed.

Lemma u32_wrapping : wrapping u32.
Proof.
  intros x a b. unfold u32. rewrite <- (Z.add_mod_idemp_l (_ * a)), Z.mul_mod_idemp_l, Z.add_mod_idemp_l by lia. done.
Qed.

Lemma convert_spec wrap m e base s : wrapping wrap -> forall fuel v found,
  tail_at m e s -> (length s < fuel)%nat ->
  convert fuel wrap m base (e - len s) (wrap v) found =
    Some (e - len (drop_while (valid_digit base) s),
          wrap (fold_left (fun v d => v * base + d) (map (fun c => default 0 (digit_value c)) (take_while (valid_digit base) s)) v),
          found || negb (bool_decide (take_while (valid_digit base) s = []))).
Proof.
  intros Hw. induction s as [|c s IH]; intros [|fuel] v found Ht Hf; cbn in Hf; [lia| |lia|]; cbn [convert take_while drop_while map fold_left].
  - destruct (tail_head _ _ _ Ht) as [-> _]. cbn. by rewrite orb_false_r.
  - destruct (tail_cons _ _ _ _ Ht) as (-> & Hc & Ha & Ht'). replace (c =? 0) with false by lia.
    rewrite digit_of_ascii by done. cbn [mbind option_bind].
    destruct (valid_digit base c) eqn:V; unfold valid_digit in V; destruct (digit_value c) as [d|] eqn:E; try discriminate.
    + replace (base <=? d) with false by lia. rewrite tail_next, Hw, IH by (done || lia).
      rewrite (bool_decide_eq_false_2 (c :: _ = [])) by done. cbn [negb map fold_left]. by rewrite E, orb_true_r.
    + replace (base <=? d) with true by lia. cbn. by rewrite orb_false_r.
    + cbn. by rewrite orb_false_r.
Qed.

Lemma sign_spec m e t :
  tail_at m e t ->
  let '(sign, t') := sign_of t in
  (if m (e - len t) =? 45 then (-1, e - len t + 1) else if m (e - len t) =? 43 then (1, e - len t + 1) else (1, e - len t))
    = (sign, e - len t') /\ tail_at m e t' /\ (length t' <= length t)%nat.
Proof.
  intros Ht. destruct t as [|c t]; [destruct (tail_head _ _ _ Ht) as [-> _]; done|].
  destruct (tail_cons _ _ _ _ Ht) as (-> & _ & _ & Ht'). unfold sign_of. rewrite tail_next.
  destruct (c =? 45); [|destruct (c =? 43)]; (split; [done|split; [done|cbn; lia]]).
Qed.

Lemma plus_spec m e t :
  tail_at m e t ->
  (if m (e - len t) =? 43 then e - len t + 1 else e - len t) = e - len (plus_of t) /\
  tail_at m e (plus_of t) /\ (length (plus_of t) <= length t)%nat.
Proof.
  intros Ht. destruct t as [|c t]; [destruct (tail_head _ _ _ Ht) as [-> _]; done|].
  destruct (tail_cons _ _ _ _ Ht) as (-> & _ & _ & Ht'). unfold plus_of. rewrite tail_next.
  destruct (c =? 43); (split; [done|split; [done|cbn; lia]]).
Qed.

(** What the two functions have in common: white space first ... *)
Lemma space_first m a s fuel :
  cstr m a s -> ascii_string s -> (length s < fuel)%nat ->
  let t := drop_while is_space s in
  skip_space fuel m a = Some (a + len s - len t) /\ tail_at m (a + len s) t /\ (length t <= length s)%nat.
Proof.
  intros Hs Ha Hf. cbv zeta. assert (tail_at m (a + len s) s) as Ht by (split; [by replace (a + len s - len s) with a by lia|done]).
  destruct (skip_space_spec m (a + len s) s fuel Ht Hf) as [E Ht1]. replace (a + len s - len s) with a in E by lia.
  split; [done|]. split; [done|apply drop_while_len].
Qed.

(** ... and then the prefix and the digits. *)
Lemma digits_last wrap m e t base fuel :
  wrapping wrap -> wrap 0 = 0 -> tail_at m e t -> 0 <= base -> (length t < fuel)%nat ->
  let '(base', t') := prefix_of base t in
  let digits := take_while (valid_digit base') t' in
  detect_base m (e - len t) base = Some (base', e - len t') /\
  convert fuel wrap m base' (e - len t') 0 false =
    Some (e - len (drop_while (valid_digit base') t'), wrap (value base' digits), negb (bool_decide (digits = []))).
Proof.
  intros Hw H0 Ht Hb Hf. pose proof (detect_base_spec m e t base Ht Hb) as D. destruct (prefix_of base t) as [base' t'].
  destruct D as (D & Ht' & HL). split; [done|]. rewrite <- H0 at 1. rewrite convert_spec by (done || lia). done.
Qed.

Lemma strtol_spec m a s base fuel :
  cstr m a s -> ascii_string s -> 0 <= base <= 36 -> base <> 1 -> (length s < fuel)%nat ->
  let '(sign, base', digits, rest) := number true base s in
  strtol fuel m a base =
    Some (i32 (sign * value base' digits), if bool_decide (digits = []) then a else a + len s - len rest, false).
Proof.
  intros Hs Ha Hb Hb1 Hf. destruct (space_first m a s fuel Hs Ha Hf) as (E & Ht & HL). unfold number, strtol.
  replace (_ || _) with false by lia. rewrite E. cbn [mbind option_bind]. chars.
  set (e := a + len s) in *. set (t := drop_while is_space s) in *. clearbody t.
  pose proof (sign_spec m e t Ht) as D. destruct (sign_of t) as [sign t1]. destruct D as (-> & Ht1 & HL1).
  pose proof (digits_last i32 m e t1 base fuel i32_wrapping eq_refl Ht1 ltac:(lia) ltac:(lia)) as D.
  destruct (prefix_of base t1) as [base' t2]. destruct D as [-> D]. cbn [mbind option_bind]. rewrite D. cbn [mbind option_bind].
  rewrite Z.mul_comm, <- (Z.add_0_r (_ * sign)), i32_wrapping, Z.add_0_r, Z.mul_comm. by destruct (bool_decide _).
Qed.

(** C33: [strtol] computes the reference: past white space and a sign, the base by
    its prefix, the longest sequence of digits of that base; the result is their
    positional value with the sign, modulo the size of a [long], and [*endptr] the
    end of the digits, or the start of the string when there are none. *)
Theorem strtol_correct m a s base fuel :
  cstr m a s -> ascii_string s -> 0 <= base <= 36 -> base <> 1 -> (length s < fuel)%nat ->
  let '(sign, base', digits, rest) := number true base s in
  strtol fuel m a base =
    Some (i32 (sign * value base' digits), if bool_decide (digits = []) then a else a + len s - len rest, false).
Proof. apply strtol_spec. Qed.

Theorem strtoul_correct m a s base fuel :
  cstr m a s -> ascii_string s -> 0 <= base <= 36 -> base <> 1 -> (length s < fuel)%nat ->
  let '(_, base', digits, rest) := number false base s in
  strtoul fuel m a base =
    Some (u32 (value base' digits), if bool_decide (digits = []) then a else a + len s - len rest, false).
Proof.
  intros Hs Ha Hb Hb1 Hf. destruct (space_first m a s fuel Hs Ha Hf) as (E & Ht & HL). unfold number, strtoul.
  replace (_ || _) with false by lia. rewrite E. cbn [mbind option_bind]. chars.
  set (e := a + len s) in *. set (t := drop_while is_space s) in *. clearbody t.
  destruct (plus_spec m e t Ht) as (-> & Ht1 & HL1).
  pose proof (digits_last u32 m e (plus_of t) base fuel u32_wrapping eq_refl Ht1 ltac:(lia) ltac:(lia)) as D.
  destruct (prefix_of base (plus_of t)) as [base' t2]. destruct D as [-> D]. cbn [mbind option_bind]. rewrite D. cbn [mbind option_bind].
  by destruct (bool_decide _).
Qed.

(** The digits of base ten are those of [isdigit]. *)
Lemma valid_digit_10 c : valid_digit 10 c = is_digit c.
Proof.
  unfold valid_digit, digit_value, is_digit, is_upper, is_lower, in_span. zbool; cbn; try lia; try done.
  all: destruct (Z.ltb_spec (c - 48) 10); lia.
Qed.

Lemma atoi_digits_convert m e s : forall fuel v found,
  tail_at m e s ->
  atoi_digits fuel m (e - len s) v = (fun '(_, r, _) => r) <$> convert fuel i32 m 10 (e - len s) v found.
Proof.
  induction s as [|c s IH]; intros [|fuel] v found Ht; try done; cbn [atoi_digits convert].
  - by destruct (tail_head _ _ _ Ht) as [-> _].
  - destruct (tail_cons _ _ _ _ Ht) as (-> & Hc & Ha & Ht'). replace (c =? 0) with false by lia.
    rewrite isdigit_ascii, digit_of_ascii by done. cbn [mbind option_bind]. rewrite <- valid_digit_10. chars.
    unfold valid_digit. destruct (digit_value c) as [d|] eqn:E; [|done]. rewrite Z.leb_antisym.
    destruct (Z.ltb_spec d 10) as [Hd|]; [|done]. cbn [negb]. rewrite tail_next.
    assert (d = c - 48) as <- by (revert E; unfold digit_value, is_digit, is_upper, is_lower, in_span; zbool; cbn; intros [=]; lia).
    by apply IH.
Qed.

(** [atoi] is [strtol] in base ten. *)
Theorem atoi_strtol m a s fuel :
  cstr m a s -> ascii_string s -> (length s < fuel)%nat ->
  atoi fuel m a = (fun '(v, _, _) => v) <$> strtol fuel m a 10.
Proof.
  intros Hs Ha Hf. destruct (space_first m a s fuel Hs Ha Hf) as (E & Ht & HL). unfold atoi, strtol. cbn [orb Z.ltb Z.eqb Z.compare Pos.compare Pos.compare_cont Pos.eqb].
  rewrite E. cbn [mbind option_bind]. chars. set (e := a + len s) in *. set (t := drop_while is_space s) in *. clearbody t.
  pose proof (sign_spec m e t Ht) as D. destruct (sign_of t) as [sign t1]. destruct D as (-> & Ht1 & HL1).
  change (detect_base m (e - len t1) 10) with (Some (10, e - len t1)). cbn [mbind option_bind].
  rewrite (atoi_digits_convert m e t1 fuel 0 false Ht1). by destruct (convert _ _ _ _ _ _ _) as [[[p v] b]|].
Qed.

Definition demo_text (s : String.string) : memory := fun x => default 0 (chrs s !! Z.to_nat x).
Arguments demo_text s%_string_scope _.

Lemma strtol_correct_witness : strtol 32 (demo_text "  -0x1fZ") 0 0 = Some (-31, 7, false).
Proof.
  assert (cstr (demo_text "  -0x1fZ") 0 (chrs "  -0x1fZ")) as H by (vm_compute; repeat split; discriminate).
  apply (strtol_correct (demo_text "  -0x1fZ") 0 (chrs "  -0x1fZ") 0 32 H); [|lia|lia|vm_compute; lia].
  repeat (apply Forall_cons; split; [by_vm|]). apply Forall_nil; exact I.
Defined.

Lemma atoi_strtol_witness : atoi 32 (demo_text "+42 ") 0 = Some 42.
Proof.
  assert (cstr (demo_text "+42 ") 0 (chrs "+42 ")) as H by (vm_compute; repeat split; discriminate).
  rewrite (atoi_strtol (demo_text "+42 ") 0 (chrs "+42 ") 32 H); [reflexivity| |vm_compute; lia].
  repeat (apply Forall_cons; split; [by_vm|]). apply Forall_nil; exact I.
Defined.
