(* ===== verification/Initrd.v ===== *)
(** The initial RAM disk: a model of [src/kernel/kernel/vfs/initrd.c], and the
    theorems about descriptors and paths in a kernel that has it mounted.

    The disk is a TAR image in memory, which the boot loader put there as a module.
    [initrd_mount] builds an inode for every file and directory; the inodes are
    those of the virtual file system (Vfs), the objects their [metadata] points to
    are in [initrd_state].  The memory that [kmalloc] returns is what [nodes] holds
    at the new number.  Using the metadata of a file as that of a directory, and
    names that [split_path] does not find, are undefined ([None]).  [initrd_calls]
    gives the function pointers of the driver their meaning, and [initrd_laws] shows
    that the driver obeys the laws that the virtual file system relies on. *)

From S2P Require Import Prelude Errno StrDict CMem CString Strtol Vfs VfsSpec Path PathSpec FileDesc FileDescSpec.
From Stdlib Require Import ZArith Lia Bool.
From stdpp Require Import base tactics numbers list gmap relations.
Open Scope Z_scope.

(** ** State *)

(** [dir_children] are the objects of type [initrd_directory_data_t],
    [file_address] those of type [initrd_file_data_t]; [initrd_node] and
    [initrd_mounted] are the static variables [initrd] and [mounted]. *)
Record initrd_state := mk_initrd {
  dir_children : Z -> list Z;
  file_address : Z -> Z;
  tar_memory : Z -> Z;
  initrd_node : Z;
  initrd_mounted : bool }.

Abbreviation rvfs := (vfs initrd_state).

Definition set_children a l (v : initrd_state) : initrd_state :=
  mk_initrd (dir_children v).[a <- l] (file_address v) (tar_memory v) (initrd_node v) (initrd_mounted v).
Definition set_address a p (v : initrd_state) : initrd_state :=
  mk_initrd (dir_children v) (file_address v).[a <- p] (tar_memory v) (initrd_node v) (initrd_mounted v).
Definition set_memory m (v : initrd_state) : initrd_state :=
  mk_initrd (dir_children v) (file_address v) m (initrd_node v) (initrd_mounted v).
Definition set_mounted x b (v : initrd_state) : initrd_state :=
  mk_initrd (dir_children v) (file_address v) (tar_memory v) x b.

Definition set_metadata v n :=
  mk_node (n_filename n) (n_type n) (n_inode n) (n_length n) (n_permissions n) (n_open_count n) (n_ops n) v.
Definition set_length v n :=
  mk_node (n_filename n) (n_type n) (n_inode n) v (n_permissions n) (n_open_count n) (n_ops n) (n_metadata n).

(** The function pointers of the driver. *)
Definition INITRD_READDIR : Z := 1.
Definition INITRD_FINDDIR : Z := 2.
Definition INITRD_STAT : Z := 3.
Definition INITRD_READ : Z := 4.

Definition PHYS_TO_VIRT (phys : Z) : Z := u32 (phys + 0xC0000000).

(** ** Operations *)

Definition initrd_readdir (directory index : Z) (s : rvfs) : option dirent :=
  child ← dir_children (fs s) (n_metadata (nodes s directory)) !! Z.to_nat index;
  let n := nodes s child in
  Some (mk_dirent (n_inode n) (vfs_type_to_dirent (n_type n)) (n_filename n)).

(** The child, 0 for [NULL]. *)
Definition initrd_finddir (directory : Z) (name : cstring) (s : rvfs) : Z :=
  match list_find (fun c => n_filename (nodes s c) = name) (dir_children (fs s) (n_metadata (nodes s directory))) with
  | Some (_, c) => c
  | None => 0
  end.

(** The result and [stat->st_size]. *)
Definition initrd_stat (node : Z) (s : rvfs) : Z * Z := (0, n_length (nodes s node)).

Definition memory_slice (m : Z -> Z) (a n : Z) : list Z := (fun i => m (a + Z.of_nat i)) <$> seq 0 (Z.to_nat n).

(** The number of bytes and the bytes that go to the buffer. *)
Definition initrd_read (file offset size : Z) (s : rvfs) : option (Z * list Z) :=
  node ← file_node file s;
  let file_start := file_address (fs s) (n_metadata (nodes s node)) in
  let file_end := u32 (file_start + n_length (nodes s node)) in
  let read_start := u32 (file_start + offset) in
  let read_end := u32 (read_start + size) in
  let read_start := if read_start <? file_start then file_start else read_start in
  let read_start := if file_end <? read_start then file_end else read_start in
  let read_end := if read_end <? read_start then read_start else read_end in
  let read_end := if file_end <? read_end then file_end else read_end in
  let read_size := u32 (read_end - read_start) in
  Some (read_size, memory_slice (tar_memory (fs s)) read_start read_size).

(** ** Loading *)

Definition create_new_file (filename : cstring) (type : Z) (s : rvfs) : option (Z * rvfs) :=
  n ← vfs_populate_node filename type (nodes s (next_object s));
  let '(x, s) := new_node (set_op StatNode INITRD_STAT n) s in
  if has type VFS_TYPE_DIRECTORY then
    let data := next_object s in
    let s := set_fs (set_children data [] (fs s)) (set_next (data + 1) s) in
    let n := set_metadata data (nodes s x) in
    Some (x, set_node x (set_op FinddirNode INITRD_FINDDIR (set_op ReaddirNode INITRD_READDIR n)) s)
  else if has type VFS_TYPE_FILE then
    Some (x, set_node x (set_op ReadNode INITRD_READ (nodes s x)) s)
  else Some (x, s).

(** [strtok] splits as [tokens] does (CString). *)
Definition split_path (filename : cstring) : list cstring := tokens [SLASH] filename.

(** The metadata of [node] as that of a directory. *)
Definition dir_data (node : Z) (s : rvfs) : option Z :=
  if has (n_type (nodes s node)) VFS_TYPE_DIRECTORY then Some (n_metadata (nodes s node)) else None.

(** [children[children_count++] = child], after [krealloc]. *)
Definition append_child (parent child : Z) (s : rvfs) : option rvfs :=
  data ← dir_data parent s;
  Some (set_fs (set_children data (dir_children (fs s) data ++ [child]) (fs s)) s).

Definition get_directory (parent : Z) (name : cstring) (s : rvfs) : option (Z * rvfs) :=
  _ ← dir_data parent s;
  let directory := initrd_finddir parent name s in
  if negb (directory =? 0) then Some (directory, s) else
  '(directory, s) ← create_new_file name VFS_TYPE_DIRECTORY s;
  s ← append_child parent directory s;
  Some (directory, s).

Fixpoint get_parent (parent : Z) (parts : list cstring) (s : rvfs) : option (Z * rvfs) :=
  match parts with
  | [] => Some (parent, s)
  | name :: parts => '(parent, s) ← get_directory parent name s; get_parent parent parts s
  end.

(** The terminated string at [a]. *)
Fixpoint string_at (n : nat) (m : Z -> Z) (a : Z) : cstring :=
  match n with
  | O => []
  | S n => if m a =? 0 then [] else m a :: string_at n m (a + 1)
  end.

(** The address of the next header, 0 for [NULL]; [fuel] bounds the octal number. *)
Definition initrd_load_tar (fuel : nat) (tar_header : Z) (s : rvfs) : option (Z * rvfs) :=
  if bool_decide (memory_slice (tar_memory (fs s)) tar_header 100 = replicate 100 0) then Some (0, s) else
  let m := (tar_memory (fs s)).[tar_header + 99 <- 0] in
  let s := set_fs (set_memory m (fs s)) s in
  '(size, _, _) ← strtol fuel m (tar_header + 124) 8;
  let size_bytes := u32 size in
  let parts := split_path (string_at 100 m tar_header) in
  name ← last parts;
  '(parent, s) ← get_parent (initrd_node (fs s)) (removelast parts) s;
  let size_aligned :=
    if negb (size_bytes mod 512 =? 0) then u32 (size_bytes + (512 - size_bytes mod 512)) else size_bytes in
  let next := u32 (tar_header + 512 + size_aligned) in
  '(new_file, s) ← create_new_file name VFS_TYPE_FILE s;
  let file_metadata := next_object s in
  let s := set_fs (set_address file_metadata (u32 (tar_header + 512)) (fs s)) (set_next (file_metadata + 1) s) in
  let s := set_node new_file (set_metadata file_metadata (set_length size_bytes (nodes s new_file))) s in
  s ← append_child parent new_file s;
  Some (next, s).

(** [do initrd_load_tar(tar_header, &tar_header); while (tar_header != NULL)] *)
Fixpoint load_entries (fuel : nat) (tar_header : Z) (s : rvfs) : option rvfs :=
  match fuel with
  | O => None
  | S fuel' =>
      '(next, s) ← initrd_load_tar fuel tar_header s;
      if next =? 0 then Some s else load_entries fuel' next s
  end.

(** ** The driver *)

#[export] Instance initrd_calls : FsCalls initrd_state := {|
  call_open _ _ _ _ s := (0, s); call_close _ _ _ s := s; call_release _ _ s := s;
  call_truncate _ _ s := (0, s);
  call_read p file offset size s :=
    if p =? INITRD_READ then (default (0, []) (initrd_read file offset size s), s) else (0, [], s);
  call_write _ _ _ _ s := (0, s);
  call_readdir p dir index s := if p =? INITRD_READDIR then initrd_readdir dir index s else None;
  call_finddir p dir name s := if p =? INITRD_FINDDIR then (initrd_finddir dir name s, s) else (0, s);
  call_mkdir _ _ _ s := (0, s); call_mkfile _ _ _ s := (0, s); call_readlink _ _ _ _ := (0, []);
  call_stat p node s := if p =? INITRD_STAT then (initrd_stat node s).1 else 0;
  call_sync _ _ s := s |}.

Definition INITRD : cstring := [105; 110; 105; 116; 114; 100].

(** The boot modules with their names and physical addresses.  Returns the entry, 0
    for [NULL]. *)
Definition initrd_mount (fuel : nat) (modules : list (cstring * Z)) (s : rvfs) : option (Z * rvfs) :=
  if initrd_mounted (fs s) then path_resolve_absolute (SLASH :: INITRD) s else
  let s := set_fs (set_mounted (initrd_node (fs s)) true (fs s)) s in
  match list_find (fun b => INITRD = b.1) modules with
  | None => Some (0, s)
  | Some (_, module) =>
      n ← vfs_populate_node INITRD VFS_TYPE_DIRECTORY (nodes s (next_object s));
      let '(x, s) := new_node (set_op FinddirNode INITRD_FINDDIR (set_op ReaddirNode INITRD_READDIR n)) s in
      let data := next_object s in
      let s := set_fs (set_children data [] (set_mounted x true (fs s))) (set_next (data + 1) s) in
      let s := set_node x (set_metadata data (nodes s x)) s in
      s ← load_entries fuel (PHYS_TO_VIRT module.2) s;
      vfs_add_node INITRD (initrd_node (fs s)) s
  end.

(** The state at boot, with [memory] and zeroed inodes. *)
Definition boot (memory : Z -> Z) : rvfs :=
  mk_vfs ∅ (fun _ => zero_node) ∅ [] 0 [] 0 1 (mk_initrd (fun _ => []) (fun _ => 0) memory 0 false).

(** The calls of [main]. *)
Definition boot_initrd (fuel : nat) (memory : Z -> Z) (modules : list (cstring * Z)) : option (Z * rvfs) :=
  s ← vfs_init (boot memory); initrd_mount fuel modules s.

(** ** The laws *)

Definition children_ok (v : initrd_state) (n : Z) : Prop := forall a c, c ∈ dir_children v a -> 0 < c < n.

Lemma children_ok_mono v a b : a <= b -> children_ok v a -> children_ok v b.
Proof. intros Hab H x c Hc. destruct (H x c Hc). lia. Qed.

#[export] Instance initrd_ok : FsOk initrd_state := {| fs_ok := children_ok; fs_ok_mono := children_ok_mono |}.

#[export] Instance initrd_laws : FsLaws initrd_state.
Proof.
  split; intros; cbn [call_open call_close call_release call_truncate call_read call_write call_mkdir call_mkfile
    call_finddir initrd_calls] in *; try apply kept_refl; try (case_match; apply kept_refl).
  case_match; cbn [fst snd]; [|lia]. unfold initrd_finddir.
  destruct (list_find _ _) as [[i c]|] eqn:E; [|lia]. apply list_find_Some in E as (Hi & _).
  apply list_elem_of_lookup_2 in Hi. destruct (H0 _ _ Hi). lia.
Qed.

#[export] Instance initrd_lookup : FsLookup initrd_state.
Proof. split; intros; cbn; case_match; cbn; done || lia. Qed.

(** ** Mounting keeps the invariant *)

(** Changes of a driver to its own state, of the next number and of inodes. *)
Lemma open_ok_fs (s : rvfs) R n v :
  open_ok s R -> next_object s <= n -> fs_ok v n -> open_ok (set_fs v (set_next n s)) R.
Proof.
  intros [I X] Hn Hv. split; [|done]. destruct (inv_dentries _ _ _ I) as [H0 Hden]. split; cbn; try apply I; try done.
  - split; [cbn; lia|]. intros x d Hd. destruct (Hden x d Hd) as (? & ? & ?). cbn. split; [lia|]. split; [lia|done].
  - destruct (inv_table _ _ _ I). by split.
  - intros h f Hf. destruct (inv_file _ _ _ I h f Hf) as (? & ? & ?). split; [lia|done].
Qed.

Lemma open_ok_node (s : rvfs) R x n :
  open_ok s R -> n_open_count n = n_open_count (nodes s x) -> open_ok (set_node x n s) R.
Proof.
  intros [I X] Hn. split; [|done]. split; cbn; try apply I.
  - destruct (inv_table _ _ _ I). by split.
  - intros y. change (node_refs (set_node _ _ s)) with (node_refs s). rewrite upd_cases. case_decide; [|apply I].
    subst. rewrite Hn. apply I.
Qed.

Lemma children_ok_set v n a l :
  children_ok v n -> (forall c, c ∈ l -> 0 < c < n) -> children_ok (set_children a l v) n.
Proof.
  intros H Hl b c. cbn. rewrite upd_cases. case_decide; [apply Hl|apply H].
Qed.

Lemma grows_change (s s' : rvfs) :
  dentries s' = dentries s -> root_content s' = root_content s -> vfs_root s' = vfs_root s ->
  next_object s <= next_object s' -> file_handles_open_count s' = file_handles_open_count s -> grows s s'.
Proof. intros E. split; [by rewrite E|done]. Qed.

Section Mount.
Context (R : Z -> Z).
Implicit Types s : rvfs.

Lemma open_children s : open_ok s R -> children_ok (fs s) (next_object s).
Proof. intros [I _]. exact (inv_fs _ _ _ I). Qed.

(** What loading does to the state. *)
Definition loads s s' : Prop := open_ok s' R /\ grows s s' /\ initrd_node (fs s') = initrd_node (fs s).

Lemma loads_trans s1 s2 s3 : loads s1 s2 -> loads s2 s3 -> loads s1 s3.
Proof. intros (_ & G1 & E1) (O & G2 & E2). split; [done|]. split; [by eapply grows_trans|congruence]. Qed.

Lemma loads_next s s' : loads s s' -> next_object s <= next_object s'.
Proof. by intros (_ & (_ & _ & _ & ? & _) & _). Qed.

Lemma create_ok s name type x s' :
  open_ok s R -> create_new_file name type s = Some (x, s') -> loads s s' /\ 0 < x < next_object s'.
Proof.
  intros O E. unfold create_new_file, vfs_populate_node in E. destruct (slen name <? VFS_MAX_FILENAME); [|done].
  cbn [mbind option_bind] in E. set (n := set_op _ _ _) in E.
  destruct (new_node_spec s R n O eq_refl) as [O1 G1].
  assert (0 < next_object s) as H0 by apply O.
  assert (new_node n s = (next_object s, (new_node n s).2)) as En by done. rewrite En in E.
  assert (next_object (new_node n s).2 = next_object s + 1) as Hn by done.
  assert (loads s (new_node n s).2) as L by done.
  set (s1 := (new_node n s).2) in *. clearbody s1. case_match.
  - injection E as <- <-. split; [|cbn; lia]. apply (loads_trans _ s1); [done|]. split; [|split; [|done]].
    + apply open_ok_node; [|done]. apply open_ok_fs; [done|lia|]. apply children_ok_set; [|by intros c ?%elem_of_nil].
      apply (children_ok_mono _ (next_object s1)); [lia|]. by apply open_children.
    + apply grows_change; cbn; done || lia.
  - case_match; injection E as <- <-; (split; [|cbn; lia]); [|done]. apply (loads_trans _ s1); [done|].
    split; [by apply open_ok_node|]. split; [|done]. apply grows_change; cbn; done || lia.
Qed.

Lemma append_child_ok s parent c s' :
  open_ok s R -> 0 < c < next_object s -> append_child parent c s = Some s' -> loads s s'.
Proof.
  intros O Hc E. unfold append_child in E. destruct (dir_data parent s) as [data|]; [|done].
  cbn [mbind option_bind] in E. injection E as <-. split; [|split; [apply grows_change; done || (cbn; lia)|done]].
  apply (open_ok_fs s R (next_object s)); [done|lia|]. apply children_ok_set; [by apply open_children|].
  intros d [Hd| ->%list_elem_of_singleton]%elem_of_app; [by apply (open_children s O data)|done].
Qed.

Lemma get_directory_ok s parent name x s' :
  open_ok s R -> get_directory parent name s = Some (x, s') -> loads s s'.
Proof.
  intros O E. unfold get_directory in E. destruct (dir_data parent s); [|done]. cbn [mbind option_bind] in E.
  case_match; [injection E as <- <-; split; [done|]; split; [apply grows_refl|done]|].
  destruct (create_new_file name VFS_TYPE_DIRECTORY s) as [[y s1]|] eqn:Ec; [|done]. cbn [mbind option_bind] in E.
  destruct (create_ok s name _ y s1 O Ec) as [L1 Hy]. destruct (append_child parent y s1) as [s2|] eqn:Ea; [|done].
  cbn [mbind option_bind] in E. injection E as <- <-. apply (loads_trans _ s1); [done|].
  by apply (append_child_ok s1 parent y); [apply L1|..].
Qed.

Lemma get_parent_ok parts : forall s parent x s',
  open_ok s R -> get_parent parent parts s = Some (x, s') -> loads s s'.
Proof.
  induction parts as [|name parts IH]; intros s parent x s' O E; cbn [get_parent] in E.
  - injection E as <- <-. split; [done|]. split; [apply grows_refl|done].
  - destruct (get_directory parent name s) as [[y s1]|] eqn:Eg; [|done]. cbn [mbind option_bind] in E.
    pose proof (get_directory_ok s parent name y s1 O Eg) as L1. apply (loads_trans _ s1); [done|].
    by apply (IH s1 y x); [apply L1|].
Qed.

Lemma load_tar_ok fuel h s next s' : open_ok s R -> initrd_load_tar fuel h s = Some (next, s') -> loads s s'.
Proof.
  intros O E. unfold initrd_load_tar in E. case_match; [injection E as <- <-; split; [done|]; split; [apply grows_refl|done]|].
  set (m := (tar_memory (fs s)).[h + 99 <- 0]) in *. set (s0 := set_fs (set_memory m (fs s)) s) in *.
  assert (loads s s0) as L0.
  { split; [|split; [apply grows_change; done || (cbn; lia)|done]].
    apply (open_ok_fs s R (next_object s)); [done|lia|]. by apply open_children. }
  clearbody s0. destruct (strtol fuel m (h + 124) 8) as [[[size e] b]|]; [|done]. cbn [mbind option_bind] in E.
  destruct (last _) as [name|]; [|done]. cbn [mbind option_bind] in E.
  destruct (get_parent _ _ s0) as [[parent s1]|] eqn:Ep; [|done]. cbn [mbind option_bind] in E.
  pose proof (get_parent_ok _ _ _ _ _ (proj1 L0) Ep) as L1.
  destruct (create_new_file name VFS_TYPE_FILE s1) as [[x s2]|] eqn:Ec; [|done]. cbn [mbind option_bind] in E.
  destruct (create_ok s1 name _ x s2 (proj1 L1) Ec) as [L2 Hx].
  set (s3 := set_node _ _ _) in E. assert (loads s2 s3) as L3.
  { split; [|split; [apply grows_change; cbn; done || lia|done]]. apply open_ok_node; [|done].
    apply open_ok_fs; [apply L2|lia|]. apply (children_ok_mono _ (next_object s2)); [lia|]. apply open_children, L2. }
  pose proof (loads_next _ _ L3) as H3.
  destruct (append_child parent x s3) as [s4|] eqn:Ea; [|done]. cbn [mbind option_bind] in E. injection E as <- <-.
  apply (loads_trans _ s0); [done|]. apply (loads_trans _ s1); [done|]. apply (loads_trans _ s2); [done|].
  apply (loads_trans _ s3); [done|]. apply (append_child_ok s3 parent x); [apply L3|lia|done].
Qed.

Lemma load_entries_ok fuel : forall h s s', open_ok s R -> load_entries fuel h s = Some s' -> loads s s'.
Proof.
  induction fuel as [|fuel IH]; intros h s s' O E; [done|]. cbn [load_entries] in E.
  destruct (initrd_load_tar (S fuel) h s) as [[next s1]|] eqn:El; [|done]. cbn [mbind option_bind] in E.
  pose proof (load_tar_ok _ _ _ _ _ O El) as L1. case_match; [by injection E as <-|].
  apply (loads_trans _ s1); [done|]. by apply (IH next); [apply L1|].
Qed.

(** The entry of the root is kept and the new one exists. *)
Lemma mount_ok fuel modules s d s' :
  open_ok s R -> small s -> initrd_mounted (fs s) = false -> vfs_root s <> 0 -> is_Some (dentries s !! vfs_root s) ->
  initrd_mount fuel modules s = Some (d, s') ->
  open_ok s' R /\ extends s s' /\ (d = 0 \/ is_Some (dentries s' !! d)).
Proof.
  intros O Hs Hm Hr0 Hr E. unfold initrd_mount in E. rewrite Hm in E.
  set (s0 := set_fs (set_mounted _ true (fs s)) s) in E.
  assert (open_ok s0 R) as O0.
  { apply (open_ok_fs s R (next_object s)); [done|lia|]. by apply open_children. }
  assert (grows s s0) as G0 by (apply grows_change; done || (cbn; lia)).
  destruct (list_find _ modules) as [[i b]|]; [|injection E as <- <-; split; [done|]; split; [by apply grows_extends|by left]].
  unfold vfs_populate_node in E. cbn [mbind option_bind] in E. case_match; [|done]. cbn [mbind option_bind] in E.
  set (n := set_op _ _ _) in E. destruct (new_node_spec s0 R n O0 eq_refl) as [O1 G1].
  assert (new_node n s0 = (next_object s, (new_node n s0).2)) as En by done. rewrite En in E. clear En.
  assert (next_object (new_node n s0).2 = next_object s + 1) as Hn by done.
  set (s1 := (new_node n s0).2) in *. clearbody s1.
  set (s2 := set_node _ _ _) in E. assert (open_ok s2 R /\ grows s s2 /\ initrd_node (fs s2) = next_object s) as (O2 & G2 & E2).
  { split; [|split; [|done]].
    - apply open_ok_node; [|done]. apply open_ok_fs; [done|lia|]. apply children_ok_set; [|by intros c ?%elem_of_nil].
      apply (children_ok_mono _ (next_object s1)); [lia|]. by apply open_children.
    - apply (grows_trans _ s0); [done|]. apply (grows_trans _ s1); [done|]. apply grows_change; cbn; done || lia. }
  assert (next_object s2 = next_object s + 2) as Hn2 by (cbn; lia). clearbody s2.
  destruct (load_entries _ _ s2) as [s3|] eqn:El; [|done]. cbn [mbind option_bind] in E.
  pose proof (load_entries_ok _ _ _ _ O2 El) as L3. pose proof (loads_next _ _ L3) as Hn3. destruct L3 as (O3 & G3 & E3).
  pose proof (grows_trans _ _ _ G2 G3) as G. unfold vfs_add_node in E.
  assert (vfs_root s3 = vfs_root s) as Er by apply G. rewrite Er, (proj2 (Z.eqb_neq _ _) Hr0), E3, E2 in E.
  assert (0 < next_object s) as H0 by apply O.
  destruct (new_dentry_spec s3 R (mk_dentry (dentry_name INITRD) (vfs_root s) (next_object s)) O3) as (O4 & G4 & H4 & _).
  { cbn. lia. }
  { right. by apply (grows_Some s). }
  unfold vfs_dentry_create in E. destruct (new_dentry _ s3) as [x s4]. cbn [fst snd] in *.
  assert (small s4) as Hs4.
  { destruct G4 as (_ & A4 & _ & _ & B4), G as (_ & A & _ & _ & B). unfold small in *. by rewrite A4, B4, A, B. }
  destruct (add_entry_spec s4 R INITRD x _ O4 Hs4 H4) as (s5 & E5 & O5 & X5).
  rewrite E5 in E. cbn [mbind option_bind] in E. injection E as <- <-. split; [done|]. split.
  - eapply extends_trans; [by apply grows_extends|]. eapply extends_trans; [by apply grows_extends|done].
  - right. apply (extends_Some s4); [done|]. by eexists.
Qed.

End Mount.

Lemma vfs_init_ok memory s :
  vfs_init (boot memory) = Some s -> open_ok s no_refs /\ small s /\ initrd_mounted (fs s) = false /\
    vfs_root s <> 0 /\ is_Some (dentries s !! vfs_root s).
Proof.
  intros [= <-]. split; [|split; [done|]; split; [done|]; split; [done|by eexists]].
  split; [|intros h [f Hf]; cbn in Hf; by rewrite lookup_empty in Hf]. split; try done.
  - split; [done|]. intros x d Hd. cbn in Hd. apply lookup_insert_Some in Hd as [[<- <-]|[_ Hd]]; [|by rewrite lookup_empty in Hd].
    cbn. split; [done|]. split; [done|]. right. by eexists.
  - intros p Hp. by apply elem_of_nil in Hp.
  - intros x. cbn. rewrite upd_cases. by case_decide.
  - intros a c Hc. cbn in Hc. by apply elem_of_nil in Hc.
Qed.

Lemma boot_ok fuel memory modules d s :
  boot_initrd fuel memory modules = Some (d, s) ->
  open_ok s no_refs /\ is_Some (dentries s !! vfs_root s) /\ (d = 0 \/ is_Some (dentries s !! d)).
Proof.
  intros E. unfold boot_initrd in E. destruct (vfs_init (boot memory)) as [s0|] eqn:Ei; [|done].
  destruct (vfs_init_ok memory s0 Ei) as (O & Hs & Hm & Hr0 & Hr).
  destruct (mount_ok no_refs fuel modules s0 d s O Hs Hm Hr0 Hr E) as (O' & X & Hd). split; [done|]. split; [|done].
  destruct X as (H1 & -> & _). destruct Hr as [e He]. exists e. by apply (lookup_weaken (dentries s0)).
Qed.

Lemma boot_kinv fuel memory modules d s0 (T0 : gmap Z task_files) :
  boot_initrd fuel memory modules = Some (d, s0) ->
  (forall pid t, T0 !! pid = Some t -> t = mk_task_files [] (vfs_root s0) (vfs_root s0)) -> kinv (mk_kernel s0 T0).
Proof.
  intros Hb HT. destruct (boot_ok fuel memory modules d s0 Hb) as (O & Hr & _). split.
  - apply (open_ok_ext _ no_refs); [done|]. intros h. cbn. unfold refs, no_refs. case_match; [done|].
    clear O. induction T0 as [|pid t T Hp IH] using map_ind; [done|]. rewrite msum_insert by done.
    rewrite (HT pid t) by apply lookup_insert_eq. rewrite IH; [done|]. intros p t' Hp'. apply (HT p).
    rewrite lookup_insert_ne by congruence. done.
  - intros pid t Ht. rewrite (HT pid t Ht). split; [done|done|]. split; [by intros e ?%elem_of_nil|].
    intros i j e f Hi. cbn in Hi. by rewrite lookup_nil in Hi.
Qed.

(** ** Properties *)

(** C6: in a kernel that has booted and mounted its RAM disk, whose tasks start in the
    root without descriptors, after every sequence of open, close, dup, read, write,
    seek, chdir, fork and exit by any tasks, the reference count of every open file is
    the number of descriptors that refer to it, every file a descriptor refers to is
    open, the entries of open files and the directories of tasks exist, numbers of
    descriptors are unique, and the next call returns without using a freed handle or
    entry.  Two calls are no steps, because they break this: [dup] of a descriptor onto
    itself and [open] with [O_CREAT] that fails (theorems in FileDescSpec). *)
Theorem fd_reachable_safe (fuel : nat) (memory : Z -> Z) (modules : list (cstring * Z)) (d : Z) (s0 : rvfs)
    (T0 : gmap Z task_files) (k : kernel initrd_state) :
  boot_initrd fuel memory modules = Some (d, s0) ->
  (forall pid t, T0 !! pid = Some t -> t = mk_task_files [] (vfs_root s0) (vfs_root s0)) ->
  rtc fstep (mk_kernel s0 T0) k -> fd_safe k.
Proof.
  intros Hb HT. apply reachable_safe. by apply (boot_kinv fuel memory modules d).
Qed.

Definition pure_lookup (v : initrd_state) (ns : Z -> vfs_node) (p i : Z) (name : cstring) : Z :=
  if p =? INITRD_FINDDIR then
    match list_find (fun c => n_filename (ns c) = name) (dir_children v (n_metadata (ns i))) with
    | Some (_, c) => c
    | None => 0
    end
  else 0.

(** C36: in the RAM disk and the root directory, the absolute path of an entry, resolved
    from any directory, leads to an entry with the same inode and the same absolute path;
    the path is built exactly when the buffer holds it with its terminator. *)
Theorem path_build_resolve (root current x : Z) (names : list cstring) (fuel : nat) (size : Z) (s : rvfs) :
  entries_ok s -> is_Some (dentries s !! root) -> chain s root x names ->
  tree_path s (dentry_node s root) names (dentry_node s x) -> (length names < fuel)%nat ->
  path_build_absolute fuel root x size s =
    Some (if size <? slen (path_string names) + 1 then None else Some (path_string names)) /\
  exists y s', path_resolve_relative root current (path_string names) s = Some (y, s') /\
    dentry_node s' y = dentry_node s x /\
    path_build_absolute fuel root y size s' = path_build_absolute fuel root x size s.
Proof.
  apply (build_resolve pure_lookup). intros p i n s'. cbn. unfold pure_lookup. by case_match.
Qed.

(** ** A RAM disk with the files [d/b] and [a] *)

Definition tar_entry (name size data : list Z) : list Z :=
  name ++ replicate (124 - length name) 0 ++ size ++ replicate (388 - length size) 0 ++
  data ++ replicate (match data with [] => 0 | _ => 512 - length data end) 0.

Definition demo_tar : list Z := tar_entry [100; 47; 98] [48; 51] [120; 121; 122] ++ tar_entry [97] [48; 49] [119].

Definition demo_memory (x : Z) : Z := default 0 (demo_tar !! Z.to_nat (x - PHYS_TO_VIRT 0x1000)).

Definition demo_boot : Z * rvfs := default (0, boot demo_memory) (boot_initrd 20 demo_memory [(INITRD, 0x1000)]).

Lemma demo_booted : boot_initrd 20 demo_memory [(INITRD, 0x1000)] = Some demo_boot.
Proof.
  unfold demo_boot. destruct (boot_initrd 20 demo_memory [(INITRD, 0x1000)]) eqn:E; [done|]. exfalso.
  assert (match boot_initrd 20 demo_memory [(INITRD, 0x1000)] with Some _ => true | None => false end = true) as H
    by (vm_compute; reflexivity). rewrite E in H. done.
Qed.

Definition demo_start : kernel initrd_state :=
  mk_kernel demo_boot.2 {[ 1 := mk_task_files [] (vfs_root demo_boot.2) (vfs_root demo_boot.2) ]}.

(** [/initrd/d/b] *)
Definition demo_path : cstring := SLASH :: INITRD ++ [47; 100; 47; 98].

Definition demo_open : Z * kernel initrd_state := default (0, demo_start) (sys_open 1 demo_path O_RDONLY demo_start).

Lemma demo_tasks pid t :
  ktasks demo_start !! pid = Some t -> t = mk_task_files [] (vfs_root demo_boot.2) (vfs_root demo_boot.2).
Proof. cbn. by intros [_ <-]%lookup_singleton_Some. Qed.

Lemma demo_step : fstep demo_start demo_open.2.
Proof.
  apply (step_open demo_start 1 demo_path O_RDONLY demo_open.1); [split; by_vm| |done]. unfold demo_open.
  destruct (sys_open 1 demo_path O_RDONLY demo_start) as [[r k]|] eqn:E; [done|]. exfalso.
  assert (match sys_open 1 demo_path O_RDONLY demo_start with Some _ => true | None => false end = true) as H
    by (vm_compute; reflexivity). rewrite E in H. done.
Qed.

Lemma fd_reachable_safe_witness :
  fd_safe demo_open.2 /\ files (kvfs demo_open.2) !! 15 = Some (mk_file 14 0 0 true false 0 1).
Proof.
  split; [|by vm_compute].
  apply (fd_reachable_safe 20 demo_memory [(INITRD, 0x1000)] demo_boot.1 demo_boot.2 (ktasks demo_start)).
  - rewrite demo_booted. by destruct demo_boot.
  - apply demo_tasks.
  - apply rtc_once, demo_step.
Defined.

(** Look-ups of the driver do not change the state. *)
Lemma finddir_same (s : rvfs) i n k : fst <$> finddir_inode i n s = Some k -> finddir_inode i n s = Some (k, s).
Proof.
  unfold finddir_inode. case_match; [destruct (root_finddir n s) as [r|]; [|done]; cbn; by intros [= ->]|].
  cbn. case_match; cbn; by intros [= ->].
Qed.

Lemma path_build_resolve_witness :
  path_build_absolute 4 2 14 100 (kvfs demo_open.2) = Some (Some demo_path) /\
  exists y s', path_resolve_relative 2 13 demo_path (kvfs demo_open.2) = Some (y, s') /\
    dentry_node s' y = 7 /\
    path_build_absolute 4 2 y 100 s' = path_build_absolute 4 2 14 100 (kvfs demo_open.2).
Proof.
  apply (path_build_resolve 2 13 14 [INITRD; [100]; [98]] 4 100 (kvfs demo_open.2)).
  - apply (vinv_entries _ (refs (ktasks demo_open.2)) settled).
    apply (fstep_kinv demo_start); [|apply demo_step].
    apply (boot_kinv 20 demo_memory [(INITRD, 0x1000)] demo_boot.1 demo_boot.2 (ktasks demo_start));
      [rewrite demo_booted; by destruct demo_boot|apply demo_tasks].
  - exists (mk_dentry [] 2 1). by vm_compute.
  - apply (chain_child _ 2 14 (mk_dentry [98] 13 7) [INITRD; [100]]); [done|by vm_compute|].
    apply (chain_child _ 2 13 (mk_dentry [100] 12 5) [INITRD]); [done|by vm_compute|].
    apply (chain_child _ 2 12 (mk_dentry INITRD 2 3) []); [done|by vm_compute|]. apply chain_root.
  - assert (forall c n, c <> 46 -> SLASH ∉ c :: n -> (length n <= 254)%nat -> valid_name (c :: n)) as V.
    { intros c n H1 H2 H3. split; [done|]. split; [done|]. split; [intros [= E _]; done|].
      split; [intros [= E _]; done|]. simpl. lia. }
    assert (forall n : cstring, bool_decide (SLASH ∉ n) = true -> SLASH ∉ n) as S by (intros n; apply bool_decide_eq_true_1).
    replace (dentry_node (kvfs demo_open.2) 2) with 1 by (by vm_compute).
    replace (dentry_node (kvfs demo_open.2) 14) with 7 by (by vm_compute). cbn [tree_path].
    split; [apply V; [done|by apply S|simpl; lia]|]. split; [by vm_compute|]. split; [by vm_compute|].
    exists 3. split; [by apply finddir_same; vm_compute|]. split; [done|]. split; [by vm_compute|].
    split; [apply V; [done|by apply S|simpl; lia]|]. split; [by vm_compute|]. split; [by vm_compute|].
    exists 5. split; [by apply finddir_same; vm_compute|]. split; [done|]. split; [by vm_compute|].
    split; [apply V; [done|by apply S|simpl; lia]|]. split; [by vm_compute|]. split; [by vm_compute|].
    exists 7. split; [by apply finddir_same; vm_compute|]. split; [done|]. by vm_compute.
  - simpl. lia.
Defined.

(** A TAR image in which [d/], the entry that [tar] writes for a directory, precedes the
    file [d/b]: [d] is loaded as a file, and its metadata is then used as that of a
    directory. *)
Theorem initrd_directory_entry :
  boot_initrd 20 (fun x => default 0 ((tar_entry [100; 47] [48] [] ++ demo_tar) !! Z.to_nat (x - PHYS_TO_VIRT 0x1000)))
    [(INITRD, 0x1000)] = None.
Proof. by vm_compute. Qed.
