(* ===== verification/Stdio.v ===== *)
(** Formatted output: a model of [src/libc/src/stdio/_stdio_format.c] and of
    [vsnprintf], [vdprintf] and [vprintf], its clients.

    The formatter is a program over a state: the output it emits to, the memory,
    the number of characters emitted and the variable arguments, which are the
    words on the stack after the named ones.  A refused character makes it return
    at once.  It takes [fuel] for its loops; the result is [None] when that runs
    out, when there are fewer arguments than conversions, and when a table is
    read out of its bounds.

    The buffers the functions write to are [restrict] pointers, so they are kept
    apart from the memory the format and the strings are read from.  Floating
    point arithmetic is that of the processor, an argument of the model (class
    [fpu]). *)

From S2P Require Import Prelude CMem CString Strtol.
From Stdlib Require Import ZArith Lia Bool Ascii String.
From stdpp Require Import base tactics numbers list.
Open Scope Z_scope.

(** ** [__int_to_str]

    The local arrays share a store: [b] at 0 and [a] at 256. *)

Definition decimal_digits : list Z := chrs "0123456789".
Definition lower_digits : list Z := chrs "0123456789abcdef".
Definition upper_digits : list Z := chrs "0123456789ABCDEF".

(** An index of [digit]: the array has 32 entries, the last ones zero. *)
Definition digit_at (digit : list Z) (i : Z) : option Z :=
  if (i <? 0) || (32 <=? i) then None else Some (default 0 (digit !! Z.to_nat i)).

(** [do { ++p; shifter = shifter / base; } while (shifter);] *)
Fixpoint count_digits (fuel : nat) (base p shifter : Z) : option Z :=
  match fuel with
  | O => None
  | S fuel =>
      let p := p + 1 in
      let shifter := Z.quot shifter base in
      if shifter =? 0 then Some p else count_digits fuel base p shifter
  end.

(** [do { *--p = digit[i % base]; i = i / base; } while (i);] *)
Fixpoint fill_digits (fuel : nat) (digit : list Z) (base p i : Z) (b : memory) : option memory :=
  match fuel with
  | O => None
  | S fuel =>
      let p := p - 1 in
      c ← digit_at digit (Z.rem i base);
      let b := b.[p <- c] in
      let i := Z.quot i base in
      if i =? 0 then Some b else fill_digits fuel digit base p i b
  end.

(** [while (padding--) s[strlen(s)] = c;] *)
Fixpoint pad_string (fuel padding : nat) (s c : Z) (b : memory) : option memory :=
  match padding with
  | O => Some b
  | S padding => l ← strlen fuel b s; pad_string fuel padding s c b.[s + l <- c]
  end.

(** The padding of the text in [b]. *)
Definition pad_int (fuel : nat) (b : memory) (minWidth : Z) (alignLeft zeroPad : bool) : option memory :=
  l ← strlen fuel b 0;
  let padding := minWidth - l in
  let padding := if padding <? 0 then 0 else padding in
  let c := if zeroPad then chr "0" else chr " " in
  if alignLeft then pad_string fuel (Z.to_nat padding) 0 c b
  else
    let b := fun x => if 256 <=? x then 0 else b x in
    b ← pad_string fuel (Z.to_nat padding) 256 c b;
    b ← strcat fuel 256 0 b;
    strcpy fuel 0 256 b.

Definition int_to_str (fuel : nat) (i : Z) (b : memory) (base : Z) (prependPlus prependSpace : bool) (minWidth : Z) (alignLeft zeroPad : bool) : option memory :=
  let '(digit, base) :=
    if base =? 16 then (lower_digits, 16) else if base =? 17 then (upper_digits, 16) else (decimal_digits, base) in
  let '(p, i, b) :=
    if i <? 0 then (1, i64 (i * -1), b.[0 <- chr "-"])
    else if prependPlus then (1, i, b.[0 <- chr "+"])
    else if prependSpace then (1, i, b.[0 <- chr " "])
    else (0, i, b) in
  p ← count_digits fuel base p i;
  let b := b.[p <- 0] in
  b ← fill_digits fuel digit base p i b;
  pad_int fuel b minWidth alignLeft zeroPad.

(** ** Format placeholders *)

Record flags := mk_flags { leftAlign : bool; plusPrepend : bool; spacePrepend : bool; zeroPad : bool; altMode : bool }.

Fixpoint read_flags (fuel : nat) (m : memory) (p : Z) (f : flags) : option (flags * Z) :=
  match fuel with
  | O => None
  | S fuel =>
      let '(mk_flags l s b z a) := f in
      let c := m p in
      if c =? chr "-" then read_flags fuel m (p + 1) (mk_flags true s b z a)
      else if c =? chr "+" then read_flags fuel m (p + 1) (mk_flags l true b z a)
      else if c =? chr " " then read_flags fuel m (p + 1) (mk_flags l s true z a)
      else if c =? chr "0" then read_flags fuel m (p + 1) (mk_flags l s b true a)
      else if c =? chr "#" then read_flags fuel m (p + 1) (mk_flags l s b z true)
      else Some (f, p)
  end.

(** The loops that read a width or a precision into a [uint8_t]. *)
Fixpoint read_number (fuel : nat) (m : memory) (p n : Z) : option (Z * Z) :=
  match fuel with
  | O => None
  | S fuel =>
      d ← isdigit (m p);
      if d : bool then read_number fuel m (p + 1) (u8 (u8 (n * 10) + (m p - chr "0"))) else Some (n, p)
  end.

Definition read_size (m : memory) (p : Z) : Z * Z :=
  let c := m p in
  if (c =? chr "h") || (c =? chr "l") || (c =? chr "j") || (c =? chr "z") || (c =? chr "t") || (c =? chr "L") then
    let p := p + 1 in
    if m p =? chr "h" then (chr "H", p + 1)
    else if m p =? chr "l" then (chr "q", p + 1)
    else (c, p)
  else (0, p).

Record placeholder := mk_placeholder {
  ph_flags : flags; ph_width : Z; ph_precision : Z; ph_precision_specified : bool; ph_size : Z; ph_type : Z
}.

(** The placeholder after the [%] and the position of its type. *)
Definition read_placeholder (fuel : nat) (m : memory) (p : Z) : option (placeholder * Z) :=
  fp ← read_flags fuel m p (mk_flags false false false false false);
  let '(f, p) := (fp : flags * Z) in
  wp ← read_number fuel m p 0;
  let '(width, p) := (wp : Z * Z) in
  pp ← (if m p =? chr "." then pp ← read_number fuel m (p + 1) 0; Some (pp, true) else Some ((6, p), false));
  let '((precision, p), specified) := (pp : (Z * Z) * bool) in
  let '(size, p) := read_size m p in
  Some (mk_placeholder f width precision specified size (m p), p).

(** ** The formatter *)

(** The processor's arithmetic on [double], as far as the formatter uses it. *)
Class fpu (D : Type) := {
  d_of_words : Z -> Z -> D;   (* a double from its two words on the stack *)
  d_of_int : Z -> D;
  d_hundredth : D;
  d_le : D -> D -> bool;
  d_lt : D -> D -> bool;
  d_add : D -> D -> D;
  d_sub : D -> D -> D;
  d_mul : D -> D -> D;
  d_div : D -> D -> D;
  d_trunc : D -> Z
}.

Record fstate (O : Type) := mk_fstate { f_out : O; f_mem : memory; f_chars : Z; f_va : list Z }.
Arguments mk_fstate {O} _ _ _ _.
Arguments f_out {O} _.
Arguments f_mem {O} _ _.
Arguments f_chars {O} _.
Arguments f_va {O} _.

(** [Some (None, s)] is the [return chars] after a refused character. *)
Definition fmt (O A : Type) : Type := fstate O -> option (option A * fstate O).

#[export] Instance fmt_ret O : MRet (fmt O) := fun _ a s => Some (Some a, s).
#[export] Instance fmt_bind O : MBind (fmt O) := fun _ _ k f s =>
  match f s with
  | Some (Some a, s) => k a s
  | Some (None, s) => Some (None, s)
  | None => None
  end.

Definition of_option {O A} (x : option A) : fmt O A := fun s => (fun a => (Some a, s)) <$> x.
Definition get_mem {O} : fmt O memory := fun s => Some (Some (f_mem s), s).
Definition set_mem {O} (m : memory) : fmt O unit := fun s => Some (Some tt, mk_fstate (f_out s) m (f_chars s) (f_va s)).
Definition get_chars {O} : fmt O Z := fun s => Some (Some (f_chars s), s).

(** [va_arg] of a type of one word, and of two. *)
Definition va_arg {O} : fmt O Z := fun s =>
  match f_va s with
  | w :: va => Some (Some w, mk_fstate (f_out s) (f_mem s) (f_chars s) va)
  | [] => None
  end.
Definition va_arg64 {O} : fmt O Z := lo ← va_arg; hi ← va_arg; mret (lo + 2 ^ 32 * hi).

Definition i8 (z : Z) : Z := (z + 2 ^ 7) mod 2 ^ 8 - 2 ^ 7.
Definition i16 (z : Z) : Z := (z + 2 ^ 15) mod 2 ^ 16 - 2 ^ 15.

(** The argument of an unsigned conversion, converted to [intmax_t] through the
    type of the variable; [None] where the size is none of the cases. *)
Definition unsigned_arg {O} (size : Z) : option (fmt O Z) :=
  if size =? 0 then Some (w ← va_arg; mret (u32 w))
  else if size =? chr "H" then Some (w ← va_arg; mret (u8 w))
  else if size =? chr "h" then Some (w ← va_arg; mret (u16 w))
  else if size =? chr "l" then Some (w ← va_arg; mret (u32 w))
  else if size =? chr "q" then Some (w ← va_arg64; mret (i64 w))
  else if size =? chr "j" then Some (w ← va_arg64; mret (i64 w))
  else if size =? chr "z" then Some (w ← va_arg; mret (u32 w))
  else if size =? chr "t" then Some (w ← va_arg; mret (i32 w))
  else None.

Definition signed_arg {O} (size : Z) : option (fmt O Z) :=
  if size =? 0 then Some (w ← va_arg; mret (i32 w))
  else if size =? chr "H" then Some (w ← va_arg; mret (i8 w))
  else if size =? chr "h" then Some (w ← va_arg; mret (i16 w))
  else if size =? chr "l" then Some (w ← va_arg; mret (i32 w))
  else if size =? chr "q" then Some (w ← va_arg64; mret (i64 w))
  else if size =? chr "j" then Some (w ← va_arg64; mret (i64 w))
  else if size =? chr "z" then Some (w ← va_arg; mret (u32 w))
  else if size =? chr "t" then Some (w ← va_arg; mret (i32 w))
  else None.

(** [%n]: [chars] stored in the type the size names. *)
Definition store_chars {O} (size : Z) : fmt O unit :=
  chars ← get_chars;
  m ← get_mem;
  if size =? chr "H" then p ← va_arg; set_mem m.[p <- u8 chars]
  else if size =? chr "h" then p ← va_arg; set_mem m.[p <- u8 chars].[p + 1 <- u8 (chars / 2 ^ 8)]
  else if (size =? 0) || (size =? chr "l") || (size =? chr "z") || (size =? chr "t") then
    p ← va_arg; set_mem (store32 m p chars)
  else if (size =? chr "q") || (size =? chr "j") then
    p ← va_arg; set_mem (store32 (store32 m p chars) (p + 4) (chars / 2 ^ 32))
  else mret tt.

Section formatter.
Context {Out D : Type} `{!fpu D}.

(** [out->emit_char]: whether the character is accepted. *)
Variable emit_char : Z -> Out -> bool * Out.

(** [EMIT(c)] *)
Definition emit (c : Z) : fmt Out unit := fun s =>
  let '(ok, o) := emit_char (u8 c) (f_out s) in
  if ok then Some (Some tt, mk_fstate o (f_mem s) (i32 (f_chars s + 1)) (f_va s))
  else Some (None, mk_fstate o (f_mem s) (f_chars s) (f_va s)).

Fixpoint emit_str (fuel : nat) (m : memory) (s : Z) : fmt Out unit :=
  match fuel with
  | O => fun _ => None
  | S fuel => if m s =? 0 then mret tt else emit (m s);; emit_str fuel m (s + 1)
  end.

Fixpoint emit_str_with_limit (fuel : nat) (m : memory) (s limit : Z) : fmt Out unit :=
  match fuel with
  | O => fun _ => None
  | S fuel =>
      if m s =? 0 then mret tt
      else if limit =? 0 then mret tt
      else emit (m s);; emit_str_with_limit fuel m (s + 1) (limit - 1)
  end.

(** [for (i = 0; i < n; i++) EMIT(c);] *)
Fixpoint emit_times (n : nat) (c : Z) : fmt Out unit :=
  match n with
  | 0%nat => mret tt
  | S n => emit c;; emit_times n c
  end.

(** The characters of a string constant. *)
Fixpoint emit_list (cs : list Z) : fmt Out unit :=
  match cs with [] => mret tt | c :: cs => emit c;; emit_list cs end.

(** One case of the switches over the sizes of an integer. *)
Definition print_int (fuel : nat) (arg : option (fmt Out Z)) (base : Z) (ph : placeholder) : fmt Out unit :=
  match arg with
  | None => mret tt
  | Some arg =>
      integer ← arg;
      let f := ph_flags ph in
      b ← of_option (int_to_str fuel integer (fun _ => 0) base (plusPrepend f) (spacePrepend f) (ph_width ph) (leftAlign f) (zeroPad f));
      emit_str fuel b 0
  end.

Definition print_string (fuel : nat) (ph : placeholder) : fmt Out unit :=
  val ← va_arg;
  m ← get_mem;
  val_length ← of_option (strlen fuel m val);
  let pad_count := if val_length <? ph_width ph then ph_width ph - val_length else 0 in
  let c := if zeroPad (ph_flags ph) then chr "0" else chr " " in
  (if (0 <? pad_count) && negb (leftAlign (ph_flags ph)) then emit_times (Z.to_nat pad_count) c else mret tt);;
  (if ph_precision_specified ph then emit_str_with_limit fuel m val (ph_precision ph) else emit_str fuel m val);;
  (if (0 <? pad_count) && leftAlign (ph_flags ph) then emit_times (Z.to_nat pad_count) c else mret tt).

(** [while (eMode && (floating >= 10 || floating <= -10)) { floating /= 10; expo++; }] *)
Fixpoint scale_down (fuel : nat) (x : D) (expo : Z) : option (D * Z) :=
  match fuel with
  | 0%nat => None
  | S fuel =>
      if d_le (d_of_int 10) x || d_le x (d_of_int (-10)) then scale_down fuel (d_div x (d_of_int 10)) (expo + 1)
      else Some (x, expo)
  end.

(** [while (eMode && floating < 1 && floating > -1) { floating *= 10; expo--; }] *)
Fixpoint scale_up (fuel : nat) (x : D) (expo : Z) : option (D * Z) :=
  match fuel with
  | 0%nat => None
  | S fuel =>
      if d_lt x (d_of_int 1) && d_lt (d_of_int (-1)) x then scale_up fuel (d_mul x (d_of_int 10)) (expo - 1)
      else Some (x, expo)
  end.

Definition print_double (fuel : nat) (eMode eModeUppercase : bool) (ph : placeholder) : fmt Out unit :=
  let f := ph_flags ph in
  let precision := ph_precision ph in
  lo ← va_arg;
  hi ← va_arg;
  let floating := d_of_words lo hi in
  fe ← of_option (if eMode then fe ← scale_down fuel floating 0; scale_up fuel (fst fe) (snd fe) else Some (floating, 0));
  let '(floating, expo) := (fe : D * Z) in
  let intPart := d_trunc floating in
  let frac := d_sub floating (d_of_int intPart) in
  let frac := if d_lt frac (d_of_int 0) then d_mul frac (d_of_int (-1)) else frac in
  let frac := for_loop precision (fun _ frac => d_mul frac (d_of_int 10)) frac in
  let decPlaces := d_trunc frac in
  let nextDigit := u8 (d_trunc (d_add (d_sub (d_mul frac (d_of_int 10)) (d_of_int (i64 (decPlaces * 10)))) d_hundredth)) in
  let decPlaces := if 5 <=? nextDigit then decPlaces + 1 else decPlaces in
  let divisor := for_loop precision (fun _ d => i64 (d * 10)) 1 in
  let '(decPlaces, intPart) :=
    if divisor <=? decPlaces
    then (decPlaces - divisor, i64 (intPart + (if d_le (d_of_int 0) floating then 1 else -1)))
    else (decPlaces, intPart) in
  let form := ph_width ph - precision - expo - (if negb (precision =? 0) || altMode f then 1 else 0) in
  let form := if eMode then form - 4 else form in
  let form := if form <? 0 then 0 else form in
  b ← of_option (int_to_str fuel intPart (fun _ => 0) 10 (plusPrepend f) (spacePrepend f) (u8 form) (leftAlign f) (zeroPad f));
  emit_str fuel b 0;;
  b ← (if negb (precision =? 0) then
         emit (chr ".");;
         b ← of_option (int_to_str fuel decPlaces b 10 false false precision false true);
         let b := b.[precision <- 0] in
         emit_str fuel b 0;;
         mret b
       else if altMode f then emit (chr ".");; mret b
       else mret b);
  if eMode then
    emit (if eModeUppercase then chr "E" else chr "e");;
    b ← of_option (int_to_str fuel expo b 10 false false 0 false false);
    emit_str fuel b 0
  else mret tt.

(** The specifiers that become [u]: the base, the size, the type and what the
    alternate form puts first. *)
Definition unsigned_type (ph : placeholder) : Z * Z * Z * list Z :=
  let alt s := if altMode (ph_flags ph) then s else [] in
  let t := ph_type ph in
  if t =? chr "o" then (8, ph_size ph, chr "u", alt (chrs "0"))
  else if t =? chr "p" then (16, chr "z", chr "u", [])
  else if t =? chr "x" then (16, ph_size ph, chr "u", alt (chrs "0x"))
  else if t =? chr "X" then (17, ph_size ph, chr "u", alt (chrs "0X"))
  else (10, ph_size ph, t, []).

Definition print_placeholder (fuel : nat) (ph : placeholder) : fmt Out unit :=
  let '(base, size, t, first) := unsigned_type ph in
  emit_list first;;
  if t =? chr "u" then print_int fuel (unsigned_arg size) base ph
  else if (t =? chr "d") || (t =? chr "i") then print_int fuel (signed_arg size) base ph
  else if t =? chr "c" then c ← va_arg; emit c
  else if t =? chr "s" then print_string fuel ph
  else if t =? chr "n" then store_chars size
  else if (t =? chr "f") || (t =? chr "F") then print_double fuel false false ph
  else if t =? chr "e" then print_double fuel true false ph
  else if t =? chr "E" then print_double fuel true true ph
  else if t =? chr "%" then emit (chr "%")
  else mret tt.

(** The loop over the format, from the address [p] on. *)
Fixpoint format_from (fuel : nat) (p : Z) : fmt Out unit :=
  match fuel with
  | 0%nat => fun _ => None
  | S fuel' =>
      m ← get_mem;
      if m p =? 0 then mret tt
      else if negb (m p =? chr "%") then emit (m p);; format_from fuel' (p + 1)
      else
        pp ← of_option (read_placeholder fuel m (p + 1));
        let '(ph, p) := (pp : placeholder * Z) in
        print_placeholder fuel ph;;
        format_from fuel' (p + 1)
  end.

(** Returns [chars], with the state of the output and the memory. *)
Definition __stdio_format_core (fuel : nat) (out : Out) (format : Z) (m : memory) (va : list Z) : option (Z * Out * memory) :=
  match format_from fuel format (mk_fstate out m 0 va) with
  | None => None
  | Some (_, s) => Some (f_chars s, f_out s, f_mem s)
  end.

End formatter.

(** ** Outputs *)

(** A buffer: its contents, its size and the characters in it. *)
Record str_out := mk_str_out { so_s : memory; so_cap : Z; so_len : Z }.

Definition str_emit (c : Z) (o : str_out) : bool * str_out :=
  if u32 (so_len o + 1) <? so_cap o
  then (true, mk_str_out (so_s o).[so_len o <- c] (so_cap o) (u32 (so_len o + 1)))
  else (false, o).

(** The result and the contents of the buffer. *)
Definition vsnprintf {D} `{!fpu D} (fuel : nat) (buffer : memory) (n format : Z) (m : memory) (va : list Z) : option (Z * memory * memory) :=
  r ← __stdio_format_core str_emit fuel (mk_str_out buffer n 0) format m va;
  let '(res, out, m) := (r : Z * str_out * memory) in
  Some (res, if 0 <? n then (so_s out).[so_len out <- 0] else so_s out, m).

Definition SIZE_MAX : Z := 2 ^ 32 - 1.

Definition vsprintf {D} `{!fpu D} (fuel : nat) (buffer : memory) (format : Z) (m : memory) (va : list Z) : option (Z * memory * memory) :=
  vsnprintf fuel buffer SIZE_MAX format m va.

Definition STDIO_BUF_SIZE : Z := 128.

(** A file descriptor: the buffer, and what [write] was called with so far. *)
Record fd_out := mk_fd_out { fo_buf : memory; fo_len : Z; fo_written : list (list Z) }.

Definition fd_flush (o : fd_out) : fd_out :=
  mk_fd_out (fo_buf o) 0 (fo_written o ++ [map (fo_buf o) (seqZ 0 (fo_len o))]).

Definition fd_emit (c : Z) (o : fd_out) : bool * fd_out :=
  let o := if (fo_len o =? STDIO_BUF_SIZE) || (c =? 0) then fd_flush o else o in
  if negb (c =? 0) then (true, mk_fd_out (fo_buf o).[fo_len o <- c] (fo_len o + 1) (fo_written o))
  else (false, o).

(** The result and the calls of [write]; [buf] is the uninitialised buffer. *)
Definition vdprintf {D} `{!fpu D} (fuel : nat) (buf : memory) (format : Z) (m : memory) (va : list Z) : option (Z * list (list Z) * memory) :=
  r ← __stdio_format_core fd_emit fuel (mk_fd_out buf 0 []) format m va;
  let '(res, out, m) := (r : Z * fd_out * memory) in
  let '(_, out) := fd_emit 0 out in
  Some (res, fo_written out, m).

(** [putchar]: writes the character and returns it as an [int]. *)
Definition EOF : Z := -1.
Definition putchar (c : Z) (written : list Z) : Z * list Z := (i8 c, written ++ [u8 c]).

Definition stdout_emit (c : Z) (o : list Z) : bool * list Z :=
  let '(r, o) := putchar c o in (negb (r =? EOF), o).

Definition vprintf {D} `{!fpu D} (fuel : nat) (format : Z) (m : memory) (va : list Z) : option (Z * list Z * memory) :=
  __stdio_format_core stdout_emit fuel [] format m va.
