(* ===== verification/StdioInt.v ===== *)
(** Integers as text: what [__int_to_str] writes, and that [strtol] reads it back. *)

From S2P Require Import Prelude CMem CString Strtol Stdio.
From Stdlib Require Import ZArith Lia Bool Ascii String.
From stdpp Require Import base tactics numbers list.
Open Scope Z_scope.

(** ** Numerals *)

(** [ds] are the digits of [n], the most significant first and without leading
    zeros. *)
Inductive numeral (base : Z) : Z -> list Z -> Prop :=
| numeral_digit d : 0 <= d < base -> numeral base d [d]
| numeral_more n ds d : numeral base n ds -> n <> 0 -> 0 <= d < base -> numeral base (n * base + d) (ds ++ [d]).

Fixpoint digits_upto (k : nat) (base n : Z) : list Z :=
  match k with
  | O => []
  | S k => if n <? base then [n] else digits_upto k base (n / base) ++ [n mod base]
  end.

(** Enough for the numbers below [2 ^ 64]. *)
Definition digits (base n : Z) : list Z := digits_upto 64 base n.

Lemma digits_upto_numeral base k : 2 <= base -> forall n,
  0 <= n < base ^ Z.of_nat k -> (0 < k)%nat -> numeral base n (digits_upto k base n) /\ (length (digits_upto k base n) <= k)%nat.
Proof.
  intros Hb. induction k as [|k IH]; intros n Hn Hk; [lia|]. cbn [digits_upto]. destruct (Z.ltb_spec n base).
  - split; [constructor; lia|cbn; lia].
  - assert (0 < n / base) by (apply Z.div_str_pos; lia).
    assert (n / base < base ^ Z.of_nat k) by (apply Z.div_lt_upper_bound; [lia|]; rewrite <- Z.pow_succ_r, <- Nat2Z.inj_succ by lia; lia).
    assert (0 < k)%nat by (destruct k; [cbn in *; lia|lia]).
    destruct (IH (n / base)) as [I L]; [lia|lia|]. split.
    + rewrite (Z.div_mod n base) at 1 by lia. rewrite (Z.mul_comm base). constructor; [done|lia|]. apply Z.mod_pos_bound. lia.
    + rewrite length_app. cbn. lia.
Qed.

Lemma numeral_range base n ds : numeral base n ds -> 0 < base -> 0 <= n /\ Forall (fun d => 0 <= d < base) ds /\ ds <> [].
Proof.
  intros H Hb. induction H as [d Hd|n ds d H IH Hn Hd].
  - split; [lia|]. split; [by apply Forall_singleton|done].
  - destruct IH as (? & ? & ?). split; [nia|]. split; [apply Forall_app; by rewrite Forall_singleton|by destruct ds].
Qed.

Lemma numeral_positional base n ds : numeral base n ds -> positional base ds = n.
Proof.
  induction 1 as [d|n ds d H IH Hn Hd]; [done|]. unfold positional in *. rewrite fold_left_app, IH. done.
Qed.

Lemma digits_numeral base n : 2 <= base -> 0 <= n < 2 ^ 64 -> numeral base n (digits base n) /\ (length (digits base n) <= 64)%nat.
Proof.
  intros Hb Hn. apply digits_upto_numeral; [done| |lia]. split; [lia|].
  pose proof (Z.pow_le_mono_l 2 base (Z.of_nat 64)). change (2 ^ Z.of_nat 64) with (2 ^ 64) in *. lia.
Qed.

(** ** The loops *)

Lemma numeral_quot base n ds d :
  numeral base n ds -> 0 <= d < base -> Z.quot (n * base + d) base = n /\ Z.rem (n * base + d) base = d.
Proof.
  intros H Hd. destruct (numeral_range base n ds H) as [Hn _]; [lia|]. rewrite Z.quot_div_nonneg, Z.rem_mod_nonneg by nia.
  rewrite Z.add_comm, Z.div_add, Z.mod_add, Z.div_small, Z.mod_small by lia. lia.
Qed.

Lemma count_digits_spec base n ds : numeral base n ds -> forall fuel p,
  (length ds <= fuel)%nat -> count_digits fuel base p n = Some (p + len ds).
Proof.
  induction 1 as [d Hd|n ds d H IH Hn Hd]; intros [|fuel] p Hf; try (rewrite ?length_app in Hf; cbn in Hf; lia); cbn [count_digits].
  - rewrite Z.quot_small by lia. done.
  - destruct (numeral_quot base n ds d H Hd) as [-> _]. replace (n =? 0) with false by lia.
    rewrite length_app in *. cbn in Hf. rewrite IH by lia. f_equal. cbn. lia.
Qed.

(** [b'] is [b] with [cs] stored at [p]. *)
Definition stored (b b' : memory) (p : Z) (cs : list Z) : Prop :=
  (forall i c, cs !! i = Some c -> b' (p + Z.of_nat i) = c) /\ (forall x, ~ (p <= x < p + len cs) -> b' x = b x).

Definition digit_char (digit : list Z) (d : Z) : Z := default 0 (digit !! Z.to_nat d).

Lemma fill_digits_spec digit base n ds : numeral base n ds -> base <= 32 -> forall fuel p b,
  (length ds <= fuel)%nat ->
  exists b', fill_digits fuel digit base (p + len ds) n b = Some b' /\ stored b b' p (map (digit_char digit) ds).
Proof.
  intros H Hb. assert (forall d, 0 <= d < base -> digit_at digit d = Some (digit_char digit d)) as Hat.
  { intros d Hd. unfold digit_at. by replace (_ || _) with false by lia. }
  induction H as [d Hd|n ds d H IH Hn Hd]; intros [|fuel] p b Hf; try (rewrite ?length_app in Hf; cbn in Hf; lia); cbn [fill_digits].
  - rewrite Z.rem_small, Z.quot_small, Hat by lia. cbn. exists b.[p + 1 - 1 <- digit_char digit d]. split; [done|].
    replace (p + 1 - 1) with p by lia. split; [|intros x Hx; apply upd_ne; cbn in Hx; lia].
    intros [|i] c; cbn; [|done]. intros [= <-]. rewrite Z.add_0_r. apply upd_eq.
  - destruct (numeral_quot base n ds d H Hd) as [-> ->]. rewrite Hat by done. cbn [mbind option_bind]. replace (n =? 0) with false by lia.
    rewrite length_app in *. cbn in Hf. replace (p + Z.of_nat (length ds + length [d]) - 1) with (p + len ds) by (cbn; lia).
    destruct (IH fuel p b.[p + len ds <- digit_char digit d]) as (b' & -> & S1 & S2); [lia|]. exists b'. split; [done|].
    rewrite length_map in S2. split.
    + intros i c Hi. rewrite map_app, lookup_app_Some in Hi. destruct Hi as [Hi|[Hl Hi]]; [by apply S1|].
      rewrite length_map in *. destruct (i - length ds)%nat eqn:E; [|done]. cbn in Hi. simplify_eq.
      rewrite S2 by lia. replace (p + Z.of_nat i) with (p + len ds) by lia. apply upd_eq.
    + intros x Hx. rewrite map_app, length_app, length_map in Hx. cbn in Hx. rewrite S2 by lia. apply upd_ne. lia.
Qed.

(** A string from its characters and its terminator. *)
Lemma cstr_intro m a s :
  (forall i c, s !! i = Some c -> m (a + Z.of_nat i) = c /\ c <> 0) -> m (a + len s) = 0 -> cstr m a s.
Proof. intros H H0. rewrite <- (app_nil_r s). by apply cstr_append. Qed.

(** Padding appends to a string that zeros follow. *)
Lemma pad_string_spec fuel a c n : c <> 0 -> forall s b,
  cstr b a s -> (forall x, a + len s <= x <= a + len s + Z.of_nat n -> b x = 0) -> (length s + n < fuel)%nat ->
  exists b', pad_string fuel n a c b = Some b' /\ cstr b' a (s ++ replicate n c) /\
    (forall x, ~ (a + len s <= x < a + len s + Z.of_nat n) -> b' x = b x).
Proof.
  intros Hc. induction n as [|n IH]; intros s b Hs Hz Hf; cbn [pad_string replicate].
  - exists b. rewrite app_nil_r. done.
  - rewrite (strlen_spec b a s) by (done || lia). cbn [mbind option_bind].
    destruct (IH (s ++ [c]) b.[a + len s <- c]) as (b' & -> & C & F).
    + apply cstr_append; [|intros i d Hi; rewrite upd_ne by (apply lookup_lt_Some in Hi; lia); by apply (cstr_at b a s)].
      cbn [cstr]. rewrite upd_eq, upd_ne by lia. split; [done|]. split; [done|]. apply Hz. lia.
    + intros x Hx. rewrite length_app in Hx. cbn in Hx. rewrite upd_ne by lia. apply Hz. lia.
    + rewrite length_app. cbn. lia.
    + rewrite <- app_assoc in C. exists b'. split; [done|]. split; [done|]. intros x Hx. rewrite F, upd_ne; [done|lia|].
      rewrite length_app. cbn. lia.
Qed.

(** ** The text of an integer *)

Definition sign_text (i : Z) (plus space : bool) : list Z :=
  if i <? 0 then [45] else if plus then [43] else if space then [32] else [].

(** The padding, after the text or before it. *)
Definition padded (width : Z) (left zero : bool) (t : list Z) : list Z :=
  let pad := replicate (Z.to_nat (width - len t)) (if zero then 48 else 32) in
  if left then t ++ pad else pad ++ t.

(** Base 17 stands for 16 in capital letters. *)
Definition radix (base : Z) : Z := if base =? 17 then 16 else base.
Definition digit_table (base : Z) : list Z :=
  if base =? 16 then lower_digits else if base =? 17 then upper_digits else decimal_digits.

Definition int_text (i base : Z) (plus space : bool) : list Z :=
  sign_text i plus space ++ map (digit_char (digit_table base)) (digits (radix base) (Z.abs i)).

Definition number_base (base : Z) : Prop := base = 8 \/ base = 10 \/ base = 16 \/ base = 17.

Lemma digit_char_range base d : number_base base -> 0 <= d < radix base ->
  32 < digit_char (digit_table base) d < 128 /\ digit_value (digit_char (digit_table base) d) = Some d.
Proof.
  intros Hb Hd. assert (d ∈ seqZ 0 (radix base)) as Hin by (apply elem_of_seqZ; lia). clear Hd. revert d Hin.
  apply Forall_forall. destruct Hb as [->|[->|[->| ->]]]; vm_compute; repeat constructor; lia.
Qed.

Lemma digits_range base n : number_base base -> 0 <= n < 2 ^ 64 ->
  numeral (radix base) n (digits (radix base) n) /\ (length (digits (radix base) n) <= 64)%nat /\ 2 <= radix base <= 16.
Proof.
  intros Hb Hn. assert (2 <= radix base <= 16) by (unfold radix; destruct Hb as [->|[->|[->| ->]]]; cbn; lia).
  destruct (digits_numeral (radix base) n); [lia|done|]. done.
Qed.

Lemma int_text_chars i base plus space : number_base base -> Z.abs i < 2 ^ 64 ->
  Forall (fun c => 0 < c < 128) (int_text i base plus space) /\ (length (int_text i base plus space) <= 65)%nat.
Proof.
  intros Hb Hi. destruct (digits_range base (Z.abs i) Hb ltac:(lia)) as (H & HL & HR). unfold int_text. split.
  - apply Forall_app. split; [unfold sign_text; destruct (i <? 0), plus, space; repeat constructor; lia|].
    destruct (numeral_range _ _ _ H) as (_ & Hd & _); [lia|]. apply Forall_map. eapply Forall_impl; [exact Hd|]. cbn. intros d Hdr.
    destruct (digit_char_range base d Hb Hdr). lia.
  - rewrite length_app, length_map. unfold sign_text. destruct (i <? 0), plus, space; cbn [length]; lia.
Qed.

(** The sign, the digits and the terminator. *)
Lemma write_int b b1 sign digit base n fuel :
  (forall i c, sign !! i = Some c -> b1 (Z.of_nat i) = c /\ c <> 0) -> (forall x, len sign <= x -> b1 x = b x) ->
  base <= 32 -> numeral base n (digits base n) -> (length (digits base n) <= fuel)%nat ->
  (forall d, d ∈ digits base n -> digit_char digit d <> 0) ->
  let t := sign ++ map (digit_char digit) (digits base n) in
  exists b2,
    (p ← count_digits fuel base (len sign) n; fill_digits fuel digit base p n b1.[p <- 0]) = Some b2 /\
    cstr b2 0 t /\ (forall x, len t < x -> b2 x = b x).
Proof.
  intros Hs Hb1 Hb Hn Hf Hd. cbv zeta. rewrite (count_digits_spec base n _ Hn) by done. cbn [mbind option_bind].
  destruct (fill_digits_spec digit base n _ Hn Hb fuel (len sign) b1.[len sign + len (digits base n) <- 0] Hf) as (b2 & -> & S1 & S2).
  exists b2. split; [done|]. rewrite length_map in S2. split.
  - apply cstr_append.
    + apply cstr_intro.
      * intros i c Hi. split; [rewrite <- (S1 i c Hi); f_equal; lia|]. apply list_lookup_fmap_Some in Hi as (d & -> & Hi).
        apply Hd. by eapply list_elem_of_lookup_2.
      * rewrite length_map, S2, Z.add_0_l by lia. apply upd_eq.
    + intros i c Hi. rewrite Z.add_0_l. pose proof (lookup_lt_Some _ _ _ Hi). rewrite S2, upd_ne by lia. by apply Hs.
  - intros x Hx. rewrite length_app, length_map in Hx. rewrite S2, upd_ne by lia. apply Hb1. lia.
Qed.

Lemma pad_int_spec fuel b t width left zero :
  cstr b 0 t -> (left = true -> forall x, len t < x < 256 -> b x = 0) ->
  (length t <= 255)%nat -> 0 <= width <= 255 -> (512 < fuel)%nat ->
  exists b', pad_int fuel b width left zero = Some b' /\ cstr b' 0 (padded width left zero t) /\ (length (padded width left zero t) <= 255)%nat.
Proof.
  intros Ht Hz Hl Hw Hf. unfold pad_int, padded. rewrite (strlen_spec b 0 t) by (done || lia). cbn [mbind option_bind]. chars.
  set (n := Z.to_nat (if width - len t <? 0 then 0 else width - len t)).
  replace (Z.to_nat (width - len t)) with n by (subst n; zbool; lia).
  assert (Hn : (n <= 255)%nat /\ (length t + n <= 255)%nat) by (subst n; zbool; lia). clearbody n. destruct Hn as [Hn1 Hn2].
  assert (Hc : (if zero then 48 else 32) <> 0) by (by destruct zero). set (c := if zero then 48 else 32) in *. clearbody c.
  destruct left.
  - destruct (pad_string_spec fuel 0 c n Hc t b Ht) as (b' & -> & C & _); [|lia|].
    + intros x Hx. destruct (decide (x = len t)) as [->|]; [by apply (cstr_end b 0 t)|]. apply Hz; [done|lia].
    + exists b'. rewrite length_app, length_replicate. split; [done|]. split; [done|lia].
  - set (b1 := fun x => if 256 <=? x then 0 else b x).
    assert (Hz1 : forall x, 256 <= x -> b1 x = 0) by (intros x Hx; unfold b1; by replace (256 <=? x) with true by lia).
    assert (Hb1 : forall x, x < 256 -> b1 x = b x) by (intros x Hx; unfold b1; by replace (256 <=? x) with false by lia). clearbody b1.
    destruct (pad_string_spec fuel 256 c n Hc [] b1) as (b2 & -> & C2 & F2); [apply Hz1; lia|intros; apply Hz1; cbn in *; lia|cbn; lia|].
    cbn [mbind option_bind app] in *.
    assert (cstr b2 0 t) as Ht2.
    { apply (cstr_frame b b2 0 t); [|done]. intros x Hx. rewrite F2, Hb1; [done|lia|]. cbn. lia. }
    destruct (strcat_correct fuel b2 256 0 (replicate n c) t C2 Ht2) as (b3 & -> & C3 & _);
      [unfold apart; lia|rewrite length_replicate; lia|lia|]. cbn [mbind option_bind]. unfold strcpy.
    rewrite (strcpy_from_spec 0 256 (replicate n c ++ t)); rewrite ?length_app, ?length_replicate; [|done|lia|unfold apart; lia].
    eexists. split; [done|]. split; [|lia]. apply put_cstr. by eapply cstr_nonzero.
Qed.

Lemma int_to_str_spec fuel i b base plus space width left zero :
  - 2 ^ 63 < i < 2 ^ 63 -> number_base base -> 0 <= width <= 255 -> (512 < fuel)%nat ->
  (left = true -> forall x, 0 <= x < 256 -> b x = 0) ->
  let text := padded width left zero (int_text i base plus space) in
  exists b', int_to_str fuel i b base plus space width left zero = Some b' /\ cstr b' 0 text /\ (length text <= 255)%nat.
Proof.
  intros Hi Hb Hw Hf Hz. cbv zeta. destruct (digits_range base (Z.abs i) Hb ltac:(lia)) as (Hn & HL & HR).
  destruct (int_text_chars i base plus space Hb ltac:(lia)) as [_ HT].
  assert (Hd : forall d, d ∈ digits (radix base) (Z.abs i) -> digit_char (digit_table base) d <> 0).
  { intros d Hd. destruct (numeral_range _ _ _ Hn) as (_ & F & _); [lia|]. rewrite Forall_forall in F.
    destruct (digit_char_range base d Hb (F d Hd)). lia. }
  set (b1 := if i <? 0 then b.[0 <- 45] else if plus then b.[0 <- 43] else if space then b.[0 <- 32] else b).
  destruct (write_int b b1 (sign_text i plus space) (digit_table base) (radix base) (Z.abs i) fuel) as (b2 & E & C & F);
    [|intros x Hx; subst b1; revert Hx; unfold sign_text; destruct (i <? 0), plus, space; cbn; intros; rewrite ?upd_ne by lia; done|lia|done|lia|done|].
  { intros k c. subst b1. unfold sign_text. destruct (i <? 0), plus, space; destruct k as [|k]; cbn; try done; intros [= <-]; by rewrite upd_eq. }
  fold (int_text i base plus space) in C, F.
  destruct (pad_int_spec fuel b2 (int_text i base plus space) width left zero C) as (b' & P & C' & L); [|lia|done|done|].
  { intros Hl x Hx. rewrite F by lia. apply Hz; [done|lia]. }
  exists b'. split; [|done]. rewrite <- P. unfold int_to_str.
  assert (E0 : (if base =? 16 then (lower_digits, 16) else if base =? 17 then (upper_digits, 16) else (decimal_digits, base)) = (digit_table base, radix base))
    by (destruct Hb as [->|[->|[->| ->]]]; done). rewrite E0. chars.
  assert (E1 : (if i <? 0 then (1, i64 (i * -1), b.[0 <- 45]) else if plus then (1, i, b.[0 <- 43]) else if space then (1, i, b.[0 <- 32]) else (0, i, b))
    = (len (sign_text i plus space), Z.abs i, b1)).
  { subst b1. unfold sign_text. destruct (Z.ltb_spec i 0).
    - rewrite i64_small by lia. do 2 f_equal. lia.
    - rewrite Z.abs_eq by lia. by destruct plus, space. }
  rewrite E1. destruct (count_digits _ _ _ _) as [p|]; [|done]. cbn [mbind option_bind] in *. rewrite E. done.
Qed.

(** The text of an integer.  For every integer but the least one, every width
    and every base the formatter uses, [__int_to_str] leaves in the buffer the sign
    and the digits, padded to the width; the text fits the buffer of 256 bytes. *)
Theorem int_to_str_correct fuel i b base plus space width left zero :
  - 2 ^ 63 < i < 2 ^ 63 -> number_base base -> 0 <= width <= 255 -> (512 < fuel)%nat ->
  (left = true -> forall x, 0 <= x < 256 -> b x = 0) ->
  let text := padded width left zero (int_text i base plus space) in
  exists b', int_to_str fuel i b base plus space width left zero = Some b' /\ cstr b' 0 text /\ (length text <= 255)%nat.
Proof. apply int_to_str_spec. Qed.

(** ** Reading the text back *)

Lemma value_digits base ds : number_base base -> Forall (fun d => 0 <= d < radix base) ds ->
  value (radix base) (map (digit_char (digit_table base)) ds) = positional (radix base) ds /\
  Forall (fun c => valid_digit (radix base) c = true) (map (digit_char (digit_table base)) ds).
Proof.
  intros Hb Hd. split.
  - unfold value. rewrite map_map. f_equal. rewrite <- (map_id ds) at 2. apply map_ext_in. intros d Hin.
    rewrite Forall_forall in Hd. apply list_elem_of_In in Hin. destruct (digit_char_range base d Hb (Hd d Hin)) as [_ ->]. done.
  - apply Forall_map. eapply Forall_impl; [exact Hd|]. cbn. intros d Hr. destruct (digit_char_range base d Hb Hr) as [_ E].
    unfold valid_digit. rewrite E. lia.
Qed.

Lemma take_while_all p s : Forall (fun c => p c = true) s -> take_while p s = s /\ drop_while p s = [].
Proof. induction 1 as [|c s Hc H [IH1 IH2]]; cbn; [done|]. by rewrite Hc, IH1, IH2. Qed.

Lemma prefix_of_digits base t : number_base base -> Forall (fun c => valid_digit (radix base) c = true) t -> prefix_of (radix base) t = (radix base, t).
Proof.
  intros Hb Ht. unfold prefix_of. assert (Hr : radix base <> 0) by (destruct Hb as [->|[->|[->| ->]]]; done).
  replace (radix base =? 0) with false by lia. cbn [orb]. destruct t as [|z [|x [|d t]]]; rewrite ?andb_false_r; try done.
  apply Forall_cons in Ht as [_ Ht]. apply Forall_cons in Ht as [Hx _]. replace ((x =? 120) || (x =? 88)) with false.
  - by rewrite !andb_false_r.
  - destruct (Z.eqb_spec x 120) as [->|]; [destruct Hb as [->|[->|[->| ->]]]; discriminate|].
    destruct (Z.eqb_spec x 88) as [->|]; [destruct Hb as [->|[->|[->| ->]]]; discriminate|done].
Qed.

Lemma drop_spaces n t : drop_while is_space (replicate n 32 ++ t) = drop_while is_space t.
Proof. induction n as [|n IH]; cbn; done. Qed.

Lemma padded_ascii i base plus space width :
  number_base base -> Z.abs i < 2 ^ 64 -> ascii_string (padded width false false (int_text i base plus space)).
Proof.
  intros Hb Hi. destruct (int_text_chars i base plus space Hb Hi) as [H _]. apply Forall_app. split.
  - apply Forall_replicate. unfold is_ascii. lia.
  - eapply Forall_impl; [exact H|]. unfold is_ascii. cbn. lia.
Qed.

(** The number the text of an integer stands for. *)
Lemma number_int_text i base plus space width :
  number_base base -> Z.abs i < 2 ^ 64 ->
  number true (radix base) (padded width false false (int_text i base plus space)) =
    (if i <? 0 then -1 else 1, radix base, map (digit_char (digit_table base)) (digits (radix base) (Z.abs i)), []).
Proof.
  intros Hb Hi. destruct (digits_range base (Z.abs i) Hb ltac:(lia)) as (Hn & HL & HR).
  destruct (numeral_range _ _ _ Hn) as (_ & Hd & Hne); [lia|]. destruct (value_digits base _ Hb Hd) as [_ Hv].
  unfold number, padded. rewrite drop_spaces. unfold int_text. set (ds := map _ _) in *.
  assert (Hhd : drop_while is_space ds = ds /\ sign_of ds = (1, ds)).
  { destruct (digits (radix base) (Z.abs i)) as [|d l]; [done|]. apply Forall_cons in Hd as [Hd _]. cbn [map] in ds. subst ds.
    destruct (digit_char_range base d Hb Hd) as [Hc E]. cbn [drop_while sign_of].
    set (c := digit_char _ d) in *. unfold is_space, in_span. replace (_ || _) with false by lia. split; [done|].
    replace (c =? 45) with false; [replace (c =? 43) with false; [done|]|];
      symmetry; apply Z.eqb_neq; intros Hc'; rewrite Hc' in E; discriminate. }
  destruct Hhd as [E1 E2]. destruct (take_while_all _ _ Hv) as [T1 T2].
  assert (E3 : sign_of (drop_while is_space (sign_text i plus space ++ ds)) = (if i <? 0 then -1 else 1, ds)).
  { unfold sign_text. destruct (i <? 0); [done|]. destruct plus; [done|].
    destruct space; [change (drop_while is_space ([32] ++ ds)) with (drop_while is_space ds)|cbn [app]]; by rewrite E1. }
  rewrite E3, (prefix_of_digits base ds Hb Hv), T1, T2. done.
Qed.

(** C32: Printing and reading an integer.  [strtol] reads the text of a [long] that
    [__int_to_str] has written, in the same base and with any width and sign
    flags, as that number, up to the end. *)
Theorem int_text_roundtrip fuel i base plus space width :
  is_i32 i -> number_base base -> 0 <= width <= 255 -> (512 < fuel)%nat ->
  exists b, int_to_str fuel i (fun _ => 0) base plus space width false false = Some b /\
    exists e, strtol fuel b 0 (radix base) = Some (i, e, false) /\ b e = 0.
Proof.
  intros Hi Hb Hw Hf. unfold is_i32 in Hi.
  destruct (int_to_str_spec fuel i (fun _ => 0) base plus space width false false) as (b & E & C & L); [lia|done..|].
  exists b. split; [done|]. exists (len (padded width false false (int_text i base plus space))). split.
  - assert (Hr : 8 <= radix base <= 16) by (destruct Hb as [->|[->|[->| ->]]]; cbn; lia).
    destruct (digits_range base (Z.abs i) Hb ltac:(lia)) as (Hn & _ & _). destruct (numeral_range _ _ _ Hn) as (_ & Hd & Hne); [lia|].
    pose proof (strtol_spec b 0 (padded width false false (int_text i base plus space)) (radix base) fuel C) as S.
    rewrite (number_int_text i base plus space width Hb ltac:(lia)) in S. rewrite S; [|apply padded_ascii; [done|lia]|lia|lia|lia].
    rewrite bool_decide_eq_false_2 by (by destruct (digits (radix base) (Z.abs i))).
    destruct (value_digits base _ Hb Hd) as [-> _]. rewrite (numeral_positional _ _ _ Hn). do 3 f_equal; [|cbn; lia].
    destruct (Z.ltb_spec i 0); rewrite i32_small; lia.
  - by apply (cstr_end b 0).
Qed.

Lemma int_to_str_correct_witness :
  exists b, int_to_str 513 (-255) (fun _ => 0) 17 false false 8 false true = Some b /\ cstr b 0 (chrs "00000-FF").
Proof.
  destruct (int_to_str_correct 513 (-255) (fun _ => 0) 17 false false 8 false true) as (b & E & C & _);
    [lia|unfold number_base; lia|lia|lia|done|]. exists b. split; [exact E|]. exact C.
Defined.

Lemma int_text_roundtrip_witness :
  exists b, int_to_str 513 (-255) (fun _ => 0) 16 false false 8 false false = Some b /\
    exists e, strtol 513 b 0 16 = Some (-255, e, false) /\ b e = 0.
Proof. apply (int_text_roundtrip 513 (-255) 16 false false 8); [by_vm|unfold number_base; lia|lia|lia]. Defined.
