(* ===== verification/StdioSpec.v ===== *)
(** The formatter: its output does not depend on where it goes, and is the
    expansion of the format. *)

From S2P Require Import Prelude CMem CString Strtol Stdio StdioInt.
From Stdlib Require Import ZArith Lia Bool Ascii String.
From stdpp Require Import base tactics numbers list.
Open Scope Z_scope.

(** ** Outputs

    [feed emit cs o]: the characters are offered in turn until one is refused; the
    number of accepted ones and the output afterwards. *)

Fixpoint feed {Out} (emit : Z -> Out -> bool * Out) (cs : list Z) (o : Out) : Z * Out * bool :=
  match cs with
  | [] => (0, o, true)
  | c :: cs =>
      let '(ok, o) := emit c o in
      if ok then let '(n, o, full) := feed emit cs o in (n + 1, o, full) else (0, o, false)
  end.

(** The output that accepts everything. *)
Definition collect (c : Z) (o : list Z) : bool * list Z := (true, o ++ [c]).

Lemma feed_app {Out} (emit : Z -> Out -> bool * Out) s t o :
  feed emit (s ++ t) o =
    let '(n, o', ok) := feed emit s o in
    if ok then let '(k, o'', ok) := feed emit t o' in (n + k, o'', ok) else (n, o', false).
Proof.
  revert o. induction s as [|c s IH]; intros o; cbn [app feed].
  - by destruct (feed emit t o) as [[? ?] ?].
  - destruct (emit c o) as [[] o']; [|done]. rewrite IH. destruct (feed emit s o') as [[n o2] []]; [|done].
    destruct (feed emit t o2) as [[k o3] ok]. do 2 f_equal. lia.
Qed.

Lemma feed_count {Out} (emit : Z -> Out -> bool * Out) cs o : 0 <= (feed emit cs o).1.1 <= len cs.
Proof.
  revert o. induction cs as [|c cs IH]; intros o; cbn [feed]; [cbn; lia|]. rewrite len_cons.
  destruct (emit c o) as [[] o']; [|cbn; lia]. pose proof (IH o') as H. destruct (feed emit cs o') as [[n o2] b]. cbn in *. lia.
Qed.

Create HintDb outputs.

(** The runs of a program with an output and with [collect]: as long as all that was
    collected has been accepted they go the same way; otherwise the first one has
    returned with the characters before the refused one. *)

Section outputs.
Context {Out D : Type} `{!fpu D} (emit_char : Z -> Out -> bool * Out) (o0 : Out).

(** The characters collected so far went to the output. *)
Definition agree (s : fstate Out) (l : fstate (list Z)) : Prop :=
  feed emit_char (f_out l) o0 = (len (f_out l), f_out s, true) /\
  f_mem s = f_mem l /\ f_va s = f_va l /\ f_chars s = f_chars l /\ f_chars l = i32 (len (f_out l)).

(** One of them was refused. *)
Definition refused (s : fstate Out) (l : fstate (list Z)) : Prop :=
  exists n, feed emit_char (f_out l) o0 = (n, f_out s, false) /\ f_chars s = i32 n.

Definition extends (l l' : fstate (list Z)) : Prop := exists more, f_out l' = f_out l ++ more.

(** A program that collects never returns early. *)
Definition collects {A} (g : fmt (list Z) A) : Prop :=
  forall l a l', g l = Some (a, l') -> is_Some a /\ extends l l'.

Record same {A} (f : fmt Out A) (g : fmt (list Z) A) : Prop := {
  same_collects : collects g;
  same_runs s l x l' : agree s l -> g l = Some (Some x, l') ->
    (exists s', f s = Some (Some x, s') /\ agree s' l') \/ (exists s', f s = Some (None, s') /\ refused s' l')
}.

Lemma collected_trans l1 l2 l3 : extends l1 l2 -> extends l2 l3 -> extends l1 l3.
Proof. intros [m1 E1] [m2 E2]. exists (m1 ++ m2). by rewrite E2, E1, app_assoc. Qed.

Lemma refused_extends s l l' : refused s l -> extends l l' -> refused s l'.
Proof. intros (n & E & C) [more E']. exists n. split; [|done]. by rewrite E', feed_app, E. Qed.

(** A program that leaves the output alone, and does the same with any. *)
Lemma same_pure {A} (f : fmt Out A) (g : fmt (list Z) A) :
  (forall s l a l', f_mem s = f_mem l -> f_va s = f_va l -> f_chars s = f_chars l -> g l = Some (a, l') ->
    is_Some a /\ f_out l' = f_out l /\ f_chars l' = f_chars l /\
    f s = Some (a, mk_fstate (f_out s) (f_mem l') (f_chars l') (f_va l'))) ->
  same f g.
Proof.
  intros H. split.
  - intros l a l' E. destruct (H (mk_fstate o0 (f_mem l) (f_chars l) (f_va l)) l a l') as (? & Eo & _); [done..|].
    split; [done|]. exists []. by rewrite app_nil_r.
  - intros s l x l' (F & Hm & Hv & Hc & Hl) E. destruct (H s l (Some x) l') as (_ & Eo & Ec & Ef); [done..|]. left.
    eexists. split; [exact Ef|]. unfold agree. cbn. by rewrite Eo, Ec.
Qed.

Lemma same_none {A} : same (fun _ => None : option (option A * _)) (fun _ => None).
Proof. by apply same_pure. Qed.

Lemma same_ret {A} (a : A) : same (mret a) (mret a).
Proof. apply same_pure. intros [] [] ? ? ? ? ? [= <- <-]. cbn in *. by subst. Qed.

Lemma same_option {A} (x : option A) : same (of_option x) (of_option x).
Proof. apply same_pure. destruct x; [|done]. intros [] [] ? ? ? ? ? [= <- <-]. cbn in *. by subst. Qed.

Lemma same_get_mem : same get_mem get_mem.
Proof. apply same_pure. intros [] [] ? ? ? ? ? [= <- <-]. cbn in *. by subst. Qed.

Lemma same_set_mem m : same (set_mem m) (set_mem m).
Proof. apply same_pure. intros [] [] ? ? ? ? ? [= <- <-]. cbn in *. by subst. Qed.

Lemma same_get_chars : same get_chars get_chars.
Proof. apply same_pure. intros [] [] ? ? ? ? ? [= <- <-]. cbn in *. by subst. Qed.

Lemma same_va_arg : same va_arg va_arg.
Proof. apply same_pure. intros [? ? ? va] [? ? ? va'] ? ? ? ? ?; cbn in *. subst. destruct va'; [done|]. by intros [= <- <-]. Qed.

Lemma same_bind {A B} (f : fmt Out A) g (k : A -> fmt Out B) k' :
  same f g -> (forall a, same (k a) (k' a)) -> same (f ≫= k) (g ≫= k').
Proof.
  intros [C S] K. unfold mbind, fmt_bind. split.
  - intros l b l'. destruct (g l) as [[a l1]|] eqn:E; [|done]. destruct (C l a l1 E) as [[x ->] E1]. intros E2.
    destruct (same_collects _ _ (K x) l1 b l' E2) as [? ?]. split; [done|]. by eapply collected_trans.
  - intros s l b l' Hs. destruct (g l) as [[a l1]|] eqn:E; [|done]. destruct (C l a l1 E) as [[x ->] E1]. intros E2.
    destruct (S s l x l1 Hs E) as [(s1 & -> & H1)|(s1 & -> & H1)].
    + by apply (same_runs _ _ (K x) s1 l1).
    + right. exists s1. split; [done|]. eapply refused_extends; [exact H1|]. by destruct (same_collects _ _ (K x) l1 _ l' E2).
Qed.

Lemma same_emit c : same (emit emit_char c) (emit collect c).
Proof.
  split.
  - intros l a l' [= <- <-]. split; [done|]. by exists [u8 c].
  - intros s l x l' (F & Hm & Hv & Hc & Hl) [= <- <-]. unfold emit. destruct (emit_char (u8 c) (f_out s)) as [ok o] eqn:E.
    assert (F' : feed emit_char (f_out l ++ [u8 c]) o0 = (if ok then len (f_out l) + 1 else len (f_out l), o, ok)).
    { rewrite feed_app, F. cbn. rewrite E. destruct ok; [done|]. by rewrite Z.add_0_r. }
    destruct ok; [left|right]; (eexists; split; [done|]); cbn.
    + unfold agree. cbn. rewrite F', length_app. cbn. rewrite Nat2Z.inj_add, Hc, Hl. repeat split; try done. apply i32_succ.
    + exists (len (f_out l)). cbn. rewrite F', Hc. done.
Qed.

#[local] Hint Resolve same_ret same_none same_option same_get_mem same_set_mem same_get_chars same_va_arg same_emit : outputs.

(** [same_run] walks the two runs of one program. *)
Ltac same_run :=
  repeat match goal with
  | |- forall _, _ => intro
  | |- same (_ ≫= _) _ => apply same_bind
  | |- same (if ?b then _ else _) _ => destruct b
  | |- same (let '(_, _) := ?x in _) _ => destruct x
  | |- same (match ?x with Some _ => _ | None => _ end) _ => destruct x
  | |- same _ _ => solve [eauto with outputs nocore]
  end.

Lemma same_emit_str fuel m : forall p, same (emit_str emit_char fuel m p) (emit_str collect fuel m p).
Proof. induction fuel as [|fuel IH]; intros p; cbn [emit_str]; same_run. Qed.

Lemma same_emit_limit fuel m : forall p n, same (emit_str_with_limit emit_char fuel m p n) (emit_str_with_limit collect fuel m p n).
Proof. induction fuel as [|fuel IH]; intros p n; cbn [emit_str_with_limit]; same_run. Qed.

Lemma same_emit_times n c : same (emit_times emit_char n c) (emit_times collect n c).
Proof. induction n as [|n IH]; cbn [emit_times]; same_run. Qed.

Lemma same_emit_list cs : same (emit_list emit_char cs) (emit_list collect cs).
Proof. induction cs as [|c cs IH]; cbn [emit_list]; same_run. Qed.
#[local] Hint Resolve same_emit_str same_emit_limit same_emit_times same_emit_list : outputs.

Definition same_arg (f : option (fmt Out Z)) (g : option (fmt (list Z) Z)) : Prop :=
  match f, g with Some f, Some g => same f g | None, None => True | _, _ => False end.

Lemma same_print_int fuel f g base ph :
  same_arg f g ->
  same (print_int emit_char fuel f base ph) (print_int collect fuel g base ph).
Proof. intros H. unfold print_int. destruct f, g; try done; same_run; done. Qed.

Lemma same_print_string fuel ph : same (print_string emit_char fuel ph) (print_string collect fuel ph).
Proof. unfold print_string. same_run. Qed.

Lemma same_print_double fuel e u ph : same (print_double emit_char fuel e u ph) (print_double collect fuel e u ph).
Proof. unfold print_double. same_run. Qed.

Lemma same_store_chars size : same (store_chars size) (store_chars size).
Proof. unfold store_chars. same_run. Qed.
#[local] Hint Resolve same_print_string same_print_double same_store_chars : outputs.

Ltac same_cases :=
  repeat match goal with |- context [if ?b then Some _ else _] => destruct b; [cbn; solve [same_run]|] end; exact I.

Lemma same_unsigned size : same_arg (unsigned_arg size) (unsigned_arg size).
Proof. unfold unsigned_arg, va_arg64. same_cases. Qed.

Lemma same_signed size : same_arg (signed_arg size) (signed_arg size).
Proof. unfold signed_arg, va_arg64. same_cases. Qed.

Lemma same_print_placeholder fuel ph : same (print_placeholder emit_char fuel ph) (print_placeholder collect fuel ph).
Proof.
  unfold print_placeholder. destruct (unsigned_type ph) as [[[base size] t] first]. apply same_bind; [same_run|]. intros _.
  destruct (t =? _); [apply same_print_int, same_unsigned|].
  destruct (_ || _); [apply same_print_int, same_signed|]. same_run.
Qed.
#[local] Hint Resolve same_print_placeholder : outputs.

Lemma same_format fuel : forall p, same (format_from emit_char fuel p) (format_from collect fuel p).
Proof. induction fuel as [|fuel IH]; intros p; cbn [format_from]; same_run. Qed.
End outputs.

Lemma format_outputs {Out D} `{!fpu D} (emit_char : Z -> Out -> bool * Out) fuel o format m va n text m' :
  __stdio_format_core collect fuel [] format m va = Some (n, text, m') ->
  exists m1, let '(k, o', accepted) := feed emit_char text o in
  __stdio_format_core emit_char fuel o format m va = Some (i32 k, o', m1) /\ (accepted = true -> i32 k = n /\ m1 = m').
Proof.
  unfold __stdio_format_core. intros H. set (l := mk_fstate [] m 0 va) in *.
  pose proof (same_format emit_char o fuel format) as [C S].
  destruct (format_from collect fuel format l) as [[a l']|] eqn:E; [|done]. destruct (C l a l' E) as [[x ->] _]. injection H as <- <- <-.
  destruct (S (mk_fstate o m 0 va) l x l') as [(s' & -> & F & Hm & _ & Hc & Hl)|(s' & -> & k & F & Hk)]; [done|done| |]; exists (f_mem s'); rewrite F.
  - split; [by rewrite Hc, Hl|]. intros _. by rewrite Hl.
  - split; [by rewrite Hk|done].
Qed.

(** C31: The output does not depend on where it goes.  What any output is given is
    the text that an output without bounds collects, character by character up to
    the first one it refuses, and the result is the number of those it accepted. *)
Theorem format_any_output {Out D} `{!fpu D} (emit_char : Z -> Out -> bool * Out) fuel o format m va n text m' :
  __stdio_format_core collect fuel [] format m va = Some (n, text, m') ->
  exists m1, let '(k, o', accepted) := feed emit_char text o in
  __stdio_format_core emit_char fuel o format m va = Some (i32 k, o', m1) /\ (accepted = true -> i32 k = n /\ m1 = m').
Proof. apply format_outputs. Qed.

(** ** The outputs of the library *)

Lemma feed_str text : forall o,
  0 <= so_len o -> so_len o + 1 <= so_cap o < 2 ^ 32 ->
  let k := Z.to_nat (so_cap o - 1 - so_len o) in
  exists b, feed str_emit text o = (len (take k text), mk_str_out b (so_cap o) (so_len o + len (take k text)), bool_decide (len text <= so_cap o - 1 - so_len o)) /\
    stored (so_s o) b (so_len o) (take k text).
Proof.
  induction text as [|c text IH]; intros [b0 cap l] Hl Hc; cbn [so_s so_cap so_len] in *; cbn [feed].
  - rewrite take_nil. exists b0. cbn. rewrite Z.add_0_r. rewrite bool_decide_eq_true_2 by lia. split; [done|]. split; [done|]. done.
  - unfold str_emit at 1. cbn [so_s so_cap so_len]. rewrite u32_small by lia. destruct (Z.ltb_spec (l + 1) cap) as [H|H].
    + destruct (IH (mk_str_out b0.[l <- c] cap (l + 1))) as (b & E & S1 & S2); cbn [so_s so_cap so_len] in *; [lia|lia|]. rewrite E.
      replace (Z.to_nat (cap - 1 - l)) with (S (Z.to_nat (cap - 1 - (l + 1)))) by lia. cbn [take]. rewrite len_cons.
      exists b. split; [do 2 f_equal; [f_equal; lia|apply bool_decide_ext; rewrite len_cons; lia]|]. split.
      * intros [|i] d; cbn [lookup list_lookup].
        -- intros [= <-]. rewrite Z.add_0_r, S2 by lia. apply upd_eq.
        -- intros Hi. rewrite <- (S1 i d Hi). f_equal. lia.
      * intros x Hx. rewrite len_cons in Hx. rewrite S2, upd_ne by lia. done.
    + replace (Z.to_nat (cap - 1 - l)) with 0%nat by lia. rewrite take_0. exists b0. cbn. rewrite Z.add_0_r.
      rewrite bool_decide_eq_false_2 by lia. split; [done|]. split; [done|]. done.
Qed.

(** C30: [vsnprintf] stores the text, cut to [n - 1] characters, and a terminator,
    and returns the number of characters stored; it changes nothing else of the
    buffer, and nothing at all when [n] is 0. *)
Theorem vsnprintf_correct {D} `{!fpu D} fuel buffer n format m va r text m' :
  __stdio_format_core collect fuel [] format m va = Some (r, text, m') -> is_u32 n -> len text < 2 ^ 31 ->
  exists b m1,
    let stored_text := take (Z.to_nat (n - 1)) text in
    vsnprintf fuel buffer n format m va = Some (len stored_text, b, m1) /\
    (n = 0 -> b = buffer) /\ (0 < n -> stored buffer b 0 (stored_text ++ [0])).
Proof.
  intros H Hn HL. unfold is_u32 in Hn. destruct (format_outputs str_emit fuel (mk_str_out buffer n 0) format m va r text m' H) as (m1 & F).
  unfold vsnprintf. destruct (decide (n = 0)) as [->|Hn0].
  - exists buffer, m1. assert (feed str_emit text (mk_str_out buffer 0 0) = (0, mk_str_out buffer 0 0, bool_decide (text = []))) as E by (by destruct text).
    rewrite E in F. destruct F as [-> _]. split; [done|]. split; [done|lia].
  - destruct (feed_str text (mk_str_out buffer n 0)) as (b & E & S1 & S2); cbn [so_s so_cap so_len] in *; [lia|lia|]. rewrite E in F.
    rewrite Z.sub_0_r in *. set (t := take (Z.to_nat (n - 1)) text) in *. destruct F as [-> _]. cbn [mbind option_bind so_s so_len].
    assert (len t <= len text) by (subst t; rewrite length_take; lia).
    replace (0 <? n) with true by lia. exists b.[0 + len t <- 0], m1. rewrite i32_small by lia. split; [done|]. split; [done|]. intros _. split.
    + intros i c Hi. rewrite lookup_app_Some in Hi. destruct Hi as [Hi|[Hi1 Hi]].
      * rewrite upd_ne by (apply lookup_lt_Some in Hi; lia). by apply S1.
      * destruct (i - length t)%nat eqn:Ei; [|done]. cbn in Hi. simplify_eq. replace (Z.of_nat i) with (len t) by lia. apply upd_eq.
    + intros x Hx. rewrite length_app in Hx. cbn in Hx. rewrite upd_ne, S2 by lia. done.
Qed.

(** The characters written so far and those in the buffer. *)
Definition fd_text (o : fd_out) : list Z := concat (fo_written o) ++ map (fo_buf o) (seqZ 0 (fo_len o)).

Definition fd_inv (o : fd_out) : Prop := 0 <= fo_len o <= STDIO_BUF_SIZE /\ Forall (fun w => (length w <= 128)%nat) (fo_written o).

Lemma fd_flush_text o : fd_inv o -> fd_text (fd_flush o) = fd_text o /\ fd_inv (fd_flush o) /\ concat (fo_written (fd_flush o)) = fd_text o.
Proof.
  intros [Hl Hw]. unfold fd_text, fd_flush. cbn. rewrite concat_app. cbn. rewrite !app_nil_r. split; [done|]. split; [|done].
  split; cbn; [unfold STDIO_BUF_SIZE in *; lia|]. apply Forall_app. split; [done|]. apply Forall_singleton.
  rewrite length_map, length_seqZ. unfold STDIO_BUF_SIZE in Hl. lia.
Qed.

Lemma fd_emit_text o c : fd_inv o -> c <> 0 -> exists o', fd_emit c o = (true, o') /\ fd_text o' = fd_text o ++ [c] /\ fd_inv o'.
Proof.
  intros Ho Hc. unfold fd_emit. replace (c =? 0) with false by lia. rewrite orb_false_r. cbn [negb].
  set (o1 := if fo_len o =? STDIO_BUF_SIZE then fd_flush o else o).
  assert (fd_text o1 = fd_text o /\ fd_inv o1 /\ fo_len o1 < STDIO_BUF_SIZE) as (<- & [Hl Hw] & Hlt).
  { subst o1. destruct (Z.eqb_spec (fo_len o) STDIO_BUF_SIZE).
    - destruct (fd_flush_text o Ho) as (-> & ? & _). done.
    - destruct Ho as [Hol ?]. split; [done|]. split; [done|]. lia. }
  eexists. split; [done|]. split; [|split; [cbn; lia|done]]. unfold fd_text. cbn. rewrite <- app_assoc. f_equal.
  rewrite (seqZ_app 0 (fo_len o1) 1), map_app by lia. rewrite Z.add_0_l.
  rewrite (seqZ_cons (fo_len o1) 1), (seqZ_nil _ (Z.pred 1)) by lia. cbn [map]. rewrite upd_eq. f_equal. apply map_ext_in. intros i Hi.
  apply list_elem_of_In, elem_of_seqZ in Hi. apply upd_ne. lia.
Qed.

Lemma feed_fd text : forall o, fd_inv o -> Forall (fun c => c <> 0) text ->
  exists o', feed fd_emit text o = (len text, o', true) /\ fd_text o' = fd_text o ++ text /\ fd_inv o'.
Proof.
  induction text as [|c text IH]; intros o Ho Ht; cbn [feed].
  - exists o. by rewrite app_nil_r.
  - apply Forall_cons in Ht as [Hc Ht]. destruct (fd_emit_text o c Ho Hc) as (o1 & -> & E1 & H1).
    destruct (IH o1 H1 Ht) as (o2 & -> & E2 & H2). exists o2. rewrite E2, E1, <- app_assoc, len_cons. done.
Qed.

(** [vdprintf] writes the text, in blocks of at most 128 characters, and returns its
    length, if no character of the text is zero. *)
Theorem vdprintf_correct {D} `{!fpu D} fuel buf format m va r text m' :
  __stdio_format_core collect fuel [] format m va = Some (r, text, m') -> Forall (fun c => c <> 0) text ->
  exists blocks, vdprintf fuel buf format m va = Some (r, blocks, m') /\ concat blocks = text /\
    Forall (fun w => (length w <= 128)%nat) blocks.
Proof.
  intros H Ht. destruct (format_outputs fd_emit fuel (mk_fd_out buf 0 []) format m va r text m' H) as (m1 & F).
  destruct (feed_fd text (mk_fd_out buf 0 [])) as (o & E & Eo & Ho); [by split; [cbn; unfold STDIO_BUF_SIZE; lia|]|done|].
  rewrite E in F. destruct F as [F Hr]. destruct (Hr eq_refl) as [Er ->]. unfold vdprintf. rewrite F. cbn [mbind option_bind].
  destruct (fd_flush_text o Ho) as (_ & [_ Hb] & Eb). cbn. rewrite orb_true_r. rewrite Er.
  eexists. split; [done|]. by rewrite Eb, Eo.
Qed.

(** A byte 255 passes for the end of file when it is printed: [putchar] returns it
    as -1, and the rest of the output is dropped. *)
Example vprintf_stops : stdout_emit 255 [] = (false, [255]).
Proof. reflexivity. Qed.
