(* ===== verification/StdioText.v ===== *)
(** Formats: the formatter reads back the placeholders of a format, and its output
    is the concatenation of what they stand for. *)

From S2P Require Import Prelude CMem CString Strtol Stdio StdioInt StdioSpec.
From Stdlib Require Import ZArith Lia Bool Ascii String QArith_base Qreduction.
From stdpp Require Import base tactics numbers list sets gmap.
Open Scope Z_scope.

(** ** Formats *)

(** The sizes of an integer argument. *)
Inductive isize := IInt | IChar | IShort | ILong | ILongLong | IMax | ISize | IPtrdiff.

Definition size_text (s : isize) : list Z :=
  match s with
  | IInt => [] | IChar => chrs "hh" | IShort => chrs "h" | ILong => chrs "l" | ILongLong => chrs "ll"
  | IMax => chrs "j" | ISize => chrs "z" | IPtrdiff => chrs "t"
  end.

(** A part of a format: a character, or a placeholder with its flags, width,
    precision, size and type. *)
Inductive piece :=
| Lit (c : Z)
| Conv (fl : list Z) (width : Z) (precision : option Z) (size : isize) (type : Z).

Definition number_text (n : Z) : list Z := map (digit_char decimal_digits) (digits 10 n).

Definition piece_text (x : piece) : list Z :=
  match x with
  | Lit c => [c]
  | Conv fl width precision size type =>
      37 :: fl ++ (if width =? 0 then [] else number_text width) ++
      match precision with None => [] | Some p => 46 :: number_text p end ++ size_text size ++ [type]
  end.

Definition flag_chars : list Z := chrs "-+ 0#".
Definition type_chars : list Z := chrs "diuoxXpcsneEfF%".

Definition wf_piece (x : piece) : Prop :=
  match x with
  | Lit c => 0 < c < 256 /\ c <> 37
  | Conv fl width precision size type =>
      Forall (fun c => c ∈ flag_chars) fl /\ 0 <= width <= 255 /\
      match precision with None => True | Some p => 0 <= p <= 255 end /\ type ∈ type_chars
  end.

Definition format_text (ps : list piece) : list Z := concat (map piece_text ps).

(** The placeholder as the formatter keeps it. *)
Definition flags_of (fl : list Z) : flags :=
  let has c := bool_decide (c ∈ fl) in mk_flags (has 45) (has 43) (has 32) (has 48) (has 35).

Definition size_code (s : isize) : Z :=
  match s with
  | IInt => 0 | IChar => chr "H" | IShort => chr "h" | ILong => chr "l" | ILongLong => chr "q"
  | IMax => chr "j" | ISize => chr "z" | IPtrdiff => chr "t"
  end.

Definition placeholder_of (fl : list Z) (width : Z) (precision : option Z) (size : isize) (type : Z) : placeholder :=
  mk_placeholder (flags_of fl) width (default 6 precision) (bool_decide (is_Some precision)) (size_code size) type.

(** ** Reading placeholders *)

Lemma cstr_suffix m a s t : cstr m a (s ++ t) -> cstr m (a + len s) t.
Proof.
  revert a. induction s as [|c s IH]; intros a; cbn [app]; [by rewrite Z.add_0_r|]. intros (_ & _ & H).
  rewrite len_cons. replace (a + (len s + 1)) with (a + 1 + len s) by lia. auto.
Qed.

Lemma cstr_head m a s : cstr m a s -> m a = default 0 (head s).
Proof. destruct s; [done|]. by intros [? _]. Qed.

Definition add_flag (f : flags) (c : Z) : flags :=
  let '(mk_flags l s b z a) := f in
  mk_flags (l || (c =? 45)) (s || (c =? 43)) (b || (c =? 32)) (z || (c =? 48)) (a || (c =? 35)).

Lemma flag_cases c : c ∈ flag_chars -> c = 45 \/ c = 43 \/ c = 32 \/ c = 48 \/ c = 35.
Proof. unfold flag_chars. cbn. chars. rewrite !elem_of_cons, elem_of_nil. tauto. Qed.

Lemma read_flags_spec m fl t : forall fuel p f,
  cstr m p (fl ++ t) -> Forall (fun c => c ∈ flag_chars) fl -> default 0 (head t) ∉ flag_chars -> (length fl < fuel)%nat ->
  read_flags fuel m p f = Some (fold_left add_flag fl f, p + len fl).
Proof.
  induction fl as [|c fl IH]; intros [|fuel] p f Hs Hfl Ht Hf; try (cbn in Hf; lia).
  - rewrite app_nil_l in Hs. set (c := default 0 (head t)) in *.
    destruct f as [l s b z a]. cbn [read_flags]. chars. rewrite (cstr_head _ _ _ Hs). fold c.
    assert (forall d, d ∈ flag_chars -> (c =? d) = false) as N by (intros d Hd; apply Z.eqb_neq; by intros ->).
    rewrite !N by (unfold flag_chars; cbn; chars; set_solver). cbn. by rewrite Z.add_0_r.
  - apply Forall_cons in Hfl as [Hc Hfl]. destruct Hs as (Hm & _ & Hs). cbn [read_flags fold_left].
    rewrite len_cons. replace (p + (len fl + 1)) with (p + 1 + len fl) by lia. cbn in Hf.
    destruct f as [l s b z a]. chars. rewrite Hm.
    rewrite <- (IH fuel (p + 1) (add_flag (mk_flags l s b z a) c) Hs Hfl Ht) by lia.
    destruct (flag_cases c Hc) as [->|[->|[->|[->| ->]]]]; cbn; by rewrite ?orb_false_r, ?orb_true_r.
Qed.

Lemma fold_add_flag fl : forall l s b z a,
  fold_left add_flag fl (mk_flags l s b z a) =
    mk_flags (l || bool_decide (45 ∈ fl)) (s || bool_decide (43 ∈ fl)) (b || bool_decide (32 ∈ fl))
      (z || bool_decide (48 ∈ fl)) (a || bool_decide (35 ∈ fl)).
Proof.
  assert (forall d (c : Z) fl, (c =? d) || bool_decide (d ∈ fl) = bool_decide (d ∈ c :: fl)) as E.
  { intros d c l. apply eq_iff_eq_true. rewrite orb_true_iff, Z.eqb_eq, !bool_decide_eq_true, elem_of_cons. naive_solver. }
  induction fl as [|c fl IH]; intros l s b z a; cbn [fold_left add_flag].
  - by rewrite !bool_decide_eq_false_2, !orb_false_r by set_solver.
  - rewrite IH. by rewrite <- !orb_assoc, !E.
Qed.

Lemma numeral_lt base n ds : numeral base n ds -> 0 < base -> n < base ^ len ds.
Proof.
  intros H Hb. induction H as [d Hd|n ds d H IH Hn Hd]; [cbn; lia|].
  rewrite length_app, Nat2Z.inj_add, Z.pow_add_r by lia. cbn. rewrite Z.pow_1_r. nia.
Qed.

Lemma decimal_char d : 0 <= d < 10 -> digit_char decimal_digits d = 48 + d /\ isdigit (48 + d) = Some true.
Proof.
  intros Hd. assert (d ∈ seqZ 0 10) as Hin by (apply elem_of_seqZ; lia). clear Hd. revert d Hin. apply Forall_forall.
  vm_compute. repeat constructor.
Qed.

(** Reading the digits of a number below 256. *)
Lemma read_number_digits m n ds : numeral 10 n ds -> forall t fuel p,
  cstr m p (map (digit_char decimal_digits) ds ++ t) -> n < 256 -> is_digit (default 0 (head t)) = false ->
  is_ascii (default 0 (head t)) -> (length ds < fuel)%nat ->
  read_number fuel m p 0 = Some (n, p + len ds).
Proof.
  intros H.
  assert (forall fuel' t p, cstr m p (map (digit_char decimal_digits) ds ++ t) -> n < 256 ->
    read_number (length ds + fuel') m p 0 = read_number fuel' m (p + len ds) n) as R.
  { induction H as [d Hd|n ds d H IH Hn Hd]; intros fuel' t p Hs Hlt.
    - destruct Hs as (Hm & _ & _). cbn [length Nat.add read_number]. rewrite Hm.
      destruct (decimal_char d Hd) as [-> ->]. cbn [mbind option_bind]. chars.
      f_equal. rewrite !u8_small; rewrite ?u8_small; lia.
    - destruct (numeral_range _ _ _ H) as [Hn0 _]; [lia|]. rewrite length_app. cbn [length]. rewrite <- Nat.add_assoc.
      rewrite map_app, <- app_assoc in Hs. rewrite (IH (1 + fuel')%nat _ p Hs) by lia. apply cstr_suffix in Hs. rewrite length_map in Hs.
      destruct Hs as (Hm & _ & _). cbn [Nat.add read_number]. rewrite Hm.
      destruct (decimal_char d Hd) as [-> ->]. cbn [mbind option_bind]. chars.
      f_equal; [lia|]. rewrite (u8_small (n * 10)) by lia. rewrite u8_small by lia. lia. }
  intros t fuel p Hs Hn Ht Ha Hf. replace fuel with (length ds + S (fuel - length ds - 1))%nat by lia. rewrite (R _ t p Hs Hn). cbn [read_number].
  apply cstr_suffix in Hs. rewrite length_map in Hs. rewrite (cstr_head _ _ _ Hs), isdigit_ascii, Ht by done. done.
Qed.

Lemma read_number_none m p t fuel :
  cstr m p t -> is_digit (default 0 (head t)) = false -> is_ascii (default 0 (head t)) -> (0 < fuel)%nat ->
  read_number fuel m p 0 = Some (0, p).
Proof. intros Hs Hd Ha Hf. destruct fuel; [lia|]. cbn [read_number]. by rewrite (cstr_head _ _ _ Hs), isdigit_ascii, Hd by done. Qed.

Lemma number_text_head n : 0 < n <= 255 -> exists d t, number_text n = 48 + d :: t /\ 0 < d < 10.
Proof.
  assert (forallb (fun n => match number_text n with c :: _ => (48 <? c) && (c <? 58) | [] => false end) (seqZ 1 255) = true) as H by by_vm.
  rewrite forallb_forall in H. intros Hn. specialize (H n). rewrite <- list_elem_of_In, elem_of_seqZ in H.
  destruct (number_text n) as [|c t]; [specialize (H ltac:(lia)); done|]. exists (c - 48), t. split; [f_equal; lia|]. specialize (H ltac:(lia)). lia.
Qed.

(** A width or a precision and what follows it. *)
Lemma read_number_spec m p n t fuel :
  cstr m p (number_text n ++ t) -> 0 <= n <= 255 -> is_digit (default 0 (head t)) = false -> is_ascii (default 0 (head t)) ->
  (64 < fuel)%nat -> read_number fuel m p 0 = Some (n, p + len (number_text n)).
Proof.
  intros Hs Hn Hd Ha Hf. destruct (digits_numeral 10 n) as [N L]; [lia|lia|]. unfold number_text in *. rewrite length_map.
  eapply read_number_digits; [done..|lia|done|done|lia].
Qed.

(** The characters that follow the precision. *)
Definition end_chars : list Z := chrs "hljztdiuoxXpcsneEfF%".

Lemma end_chars_facts c : c ∈ end_chars -> c ∉ flag_chars /\ c <> 46 /\ is_digit c = false /\ is_ascii c.
Proof. revert c. apply Forall_forall. vm_compute. repeat constructor; try lia; try done; intros H; repeat (apply elem_of_cons in H as [?|H]; [discriminate|]); by apply elem_of_nil in H. Qed.

Lemma size_type_head s type t : type ∈ type_chars -> default 0 (head (size_text s ++ type :: t)) ∈ end_chars.
Proof.
  intros H. destruct s; cbn -[end_chars]; try (unfold end_chars; cbn; chars; set_solver).
Qed.

Lemma read_size_spec m p s type t :
  type ∈ type_chars -> cstr m p (size_text s ++ type :: t) -> read_size m p = (size_code s, p + len (size_text s)) /\ m (p + len (size_text s)) = type.
Proof.
  intros Ht Hs. split; [|by destruct (cstr_suffix _ _ _ _ Hs)].
  assert (N : forall c, c ∈ chrs "hljztL" -> (type =? c) = false).
  { intros c Hc. apply Z.eqb_neq. intros ->. revert Hc Ht. unfold type_chars. cbn. chars. rewrite !elem_of_cons, !elem_of_nil. lia. }
  unfold read_size. rewrite (cstr_head _ _ _ Hs). cbn in N. chars.
  destruct s; cbn [size_text chrs app head from_option id] in *; chars; destruct Hs as (Hm & _ & Hs); cbn; rewrite ?N by set_solver; cbn; try by rewrite Z.add_0_r.
  all: rewrite (cstr_head _ _ _ Hs); cbn; rewrite ?N by set_solver; done || (f_equal; lia).
Qed.

(** The formatter reads every placeholder back: flags, width, precision, size and
    type, and the position of the type. *)
Lemma read_placeholder_spec m p fl width precision size type t fuel :
  wf_piece (Conv fl width precision size type) ->
  cstr m p (piece_text (Conv fl width precision size type) ++ t) ->
  (length fl + 64 < fuel)%nat ->
  read_placeholder fuel m (p + 1) =
    Some (placeholder_of fl width precision size type, p + len (piece_text (Conv fl width precision size type)) - 1).
Proof.
  intros (Hfl & Hw & Hp & Ht) Hs Hf. destruct Hs as (_ & _ & Hs).
  set (t3 := size_text size ++ type :: t). set (P := match precision with None => [] | Some p => 46 :: number_text p end).
  set (W := if width =? 0 then [] else number_text width).
  assert (Es : (fl ++ W ++ P ++ size_text size ++ [type]) ++ t = fl ++ W ++ P ++ t3) by (unfold t3; rewrite <- !app_assoc; done).
  change (cstr m (p + 1) ((fl ++ W ++ P ++ size_text size ++ [type]) ++ t)) in Hs. rewrite Es in Hs. clear Es.
  destruct (end_chars_facts _ (size_type_head size type t Ht)) as (F1 & F2 & F3 & F4). fold t3 in F1, F2, F3, F4.
  assert (FP : default 0 (head (P ++ t3)) ∉ flag_chars /\ is_digit (default 0 (head (P ++ t3))) = false /\ is_ascii (default 0 (head (P ++ t3)))).
  { subst P. destruct precision; [|done]. cbn. split; [by intros Hin%flag_cases; lia|]. split; [done|]. unfold is_ascii. lia. }
  assert (FW : default 0 (head (W ++ P ++ t3)) ∉ flag_chars).
  { subst W. destruct (Z.eqb_spec width 0) as [->|]; [apply FP|]. destruct (number_text_head width) as (d & r & -> & Hd); [lia|].
    cbn. intros Hin%flag_cases. lia. }
  unfold read_placeholder. rewrite (read_flags_spec m fl (W ++ P ++ t3) fuel (p + 1) _ Hs Hfl FW) by lia. cbn [mbind option_bind].
  apply cstr_suffix in Hs.
  assert (EW : read_number fuel m (p + 1 + len fl) 0 = Some (width, p + 1 + len fl + len W)).
  { destruct FP as (_ & Fd & Fa). subst W. destruct (Z.eqb_spec width 0) as [->|]; [cbn [length]; rewrite Z.add_0_r; by eapply read_number_none; [..|lia]|].
    by eapply read_number_spec; [..|lia]. }
  rewrite EW. cbn [mbind option_bind]. apply cstr_suffix in Hs. set (q := p + 1 + len fl + len W) in *.
  assert (EP : (if m q =? chr "." then pp ← read_number fuel m (q + 1) 0; Some (pp, true) else Some ((6, q), false)) =
    Some ((default 6 precision, q + len P), bool_decide (is_Some precision))).
  { chars. subst P. destruct precision as [n|].
    - destruct Hs as (-> & _ & Hs). cbn [Z.eqb Pos.eqb]. rewrite (read_number_spec m (q + 1) n t3 fuel Hs Hp F3 F4) by lia.
      cbn [mbind option_bind default]. rewrite len_cons, bool_decide_eq_true_2 by done. do 3 f_equal. lia.
    - rewrite (cstr_head _ _ _ Hs). cbn [app]. replace (_ =? 46) with false by (symmetry; by apply Z.eqb_neq).
      cbn [length]. by rewrite Z.add_0_r, bool_decide_eq_false_2 by (by intros [? ?]). }
  rewrite EP. cbn [mbind option_bind]. apply cstr_suffix in Hs. destruct (read_size_spec m _ size type t Ht Hs) as [-> Em]. rewrite Em.
  unfold placeholder_of, flags_of. rewrite fold_add_flag. do 2 f_equal. cbn [piece_text]. rewrite len_cons, !length_app.
  fold P W. subst q. cbn [length]. lia.
Qed.

(** ** What a format stands for *)

Definition isize_bits (s : isize) : Z :=
  match s with IChar => 8 | IShort => 16 | ILongLong | IMax => 64 | _ => 32 end.
Definition isize_words (s : isize) : nat := match s with ILongLong | IMax => 2 | _ => 1 end.

(** The value of an argument of that size: [size_t] is unsigned and [ptrdiff_t]
    signed for every conversion. *)
Definition arg_value (signed : bool) (s : isize) (ws : list Z) : Z :=
  let x := positional (2 ^ 32) (rev ws) in
  let b := isize_bits s in
  if match s with ISize => false | IPtrdiff => true | _ => signed end
  then (x + 2 ^ (b - 1)) mod 2 ^ b - 2 ^ (b - 1) else x mod 2 ^ b.

(** Whether a conversion is signed, its base, and its alternate form. *)
Definition int_type (type : Z) : option (bool * Z * list Z) :=
  if (type =? chr "d") || (type =? chr "i") then Some (true, 10, [])
  else if type =? chr "u" then Some (false, 10, [])
  else if type =? chr "o" then Some (false, 8, chrs "0")
  else if type =? chr "x" then Some (false, 16, chrs "0x")
  else if type =? chr "X" then Some (false, 17, chrs "0X")
  else if type =? chr "p" then Some (false, 16, [])
  else None.

Definition string_text (width : Z) (left zero : bool) (precision : option Z) (s : list Z) : list Z :=
  let pad := replicate (Z.to_nat (width - len s)) (if zero then 48 else 32) in
  let t := match precision with Some p => take (Z.to_nat p) s | None => s end in
  if left then t ++ pad else pad ++ t.

(** [renders m k x va text va']: with the arguments [va] the part [x] of a format
    stands for [text], and the arguments [va'] are left; the strings in memory
    have at most [k] characters. *)
Inductive renders (m : memory) (k : nat) : piece -> list Z -> list Z -> list Z -> Prop :=
| renders_lit c va : renders m k (Lit c) va [c] va
| renders_percent fl w p s va : renders m k (Conv fl w p s (chr "%")) va [chr "%"] va
| renders_char fl w p s x va : renders m k (Conv fl w p s (chr "c")) (x :: va) [u8 x] va
| renders_string fl w p s a t va :
    cstr m a t -> byte_string t -> (length t <= k)%nat ->
    renders m k (Conv fl w p s (chr "s")) (a :: va)
      (string_text w (leftAlign (flags_of fl)) (zeroPad (flags_of fl)) p t) va
| renders_int fl w p s type signed base alt ws va :
    int_type type = Some (signed, base, alt) ->
    let s' := if type =? chr "p" then ISize else s in
    let i := arg_value signed s' ws in
    let f := flags_of fl in
    length ws = isize_words s' -> - 2 ^ 63 < i < 2 ^ 63 ->
    renders m k (Conv fl w p s type) (ws ++ va)
      ((if altMode f then alt else []) ++ padded w (leftAlign f) (zeroPad f) (int_text i base (plusPrepend f) (spacePrepend f))) va.

Inductive renders_all (m : memory) (k : nat) : list piece -> list Z -> list Z -> Prop :=
| renders_nil va : renders_all m k [] va []
| renders_cons x ps va va' text rest :
    renders m k x va text va' -> renders_all m k ps va' rest -> renders_all m k (x :: ps) va (text ++ rest).

(** A state of the formatter after the text [o]. *)
Definition after (o : list Z) (m : memory) (va : list Z) : fstate (list Z) := mk_fstate o m (i32 (len o)) va.

Lemma bind_after {Out A B} (f : fmt Out A) (k : A -> fmt Out B) s a s' :
  f s = Some (Some a, s') -> (f ≫= k) s = k a s'.
Proof. intros E. unfold mbind, fmt_bind. by rewrite E. Qed.

Lemma bind_none {Out A B} (f : fmt Out A) (k : A -> fmt Out B) s : f s = None -> (f ≫= k) s = None.
Proof. intros E. unfold mbind, fmt_bind. by rewrite E. Qed.

Section text.
Context {D : Type} `{!fpu D}.
Implicit Types (o : list Z) (m : memory) (va : list Z).

Lemma emit_after c o m va : emit collect c (after o m va) = Some (Some tt, after (o ++ [u8 c]) m va).
Proof.
  unfold emit, collect, after. cbn. by rewrite i32_succ, length_app, Nat2Z.inj_add.
Qed.

Lemma emit_list_after cs : forall o m va,
  byte_string cs -> emit_list collect cs (after o m va) = Some (Some tt, after (o ++ cs) m va).
Proof.
  induction cs as [|c cs IH]; intros o m va Hb; cbn [emit_list]; [by rewrite app_nil_r|]. apply Forall_cons in Hb as [Hc Hb].
  rewrite (bind_after _ _ _ _ _ (emit_after c o m va)), IH, <- app_assoc, u8_small by (done || lia). done.
Qed.

Lemma emit_times_after n c : forall o m va,
  0 <= c < 256 -> emit_times collect n c (after o m va) = Some (Some tt, after (o ++ replicate n c) m va).
Proof.
  induction n as [|n IH]; intros o m va Hc; cbn [emit_times replicate]; [by rewrite app_nil_r|].
  rewrite (bind_after _ _ _ _ _ (emit_after c o m va)), IH, <- app_assoc, u8_small by (done || lia). done.
Qed.

Lemma emit_str_after b s : forall fuel p o m va,
  cstr b p s -> byte_string s -> (length s < fuel)%nat ->
  emit_str collect fuel b p (after o m va) = Some (Some tt, after (o ++ s) m va).
Proof.
  induction s as [|c s IH]; intros [|fuel] p o m va Hs Hb Hf; try (cbn in Hf; lia); cbn [emit_str].
  - rewrite (cstr_head _ _ _ Hs). cbn. by rewrite app_nil_r.
  - destruct Hs as (-> & Hc & Hs). apply Forall_cons in Hb as [Hcb Hb]. replace (c =? 0) with false by lia.
    rewrite (bind_after _ _ _ _ _ (emit_after c o m va)), IH, <- app_assoc, u8_small by (done || lia || (cbn in Hf; lia)). done.
Qed.

Lemma emit_limit_after b s : forall fuel p n o m va,
  cstr b p s -> byte_string s -> (length s < fuel)%nat -> 0 <= n ->
  emit_str_with_limit collect fuel b p n (after o m va) = Some (Some tt, after (o ++ take (Z.to_nat n) s) m va).
Proof.
  induction s as [|c s IH]; intros [|fuel] p n o m va Hs Hb Hf Hn; try (cbn in Hf; lia); cbn [emit_str_with_limit].
  - rewrite (cstr_head _ _ _ Hs). cbn. by rewrite take_nil, app_nil_r.
  - destruct Hs as (-> & Hc & Hs). apply Forall_cons in Hb as [Hcb Hb]. replace (c =? 0) with false by lia.
    destruct (Z.eqb_spec n 0) as [->|Hn0]; [by rewrite take_0, app_nil_r|].
    rewrite (bind_after _ _ _ _ _ (emit_after c o m va)), IH, <- app_assoc, u8_small by (done || lia || (cbn in Hf; lia)).
    replace (Z.to_nat n) with (S (Z.to_nat (n - 1))) by lia. done.
Qed.

Lemma va_arg_after w va o m : va_arg (after o m (w :: va)) = Some (Some w, after o m va).
Proof. done. Qed.

(** The two kinds of arguments, taken from the words on the stack. *)
Lemma signed_arg_after s ws o m va : length ws = isize_words s ->
  exists f, signed_arg (size_code s) = Some f /\ f (after o m (ws ++ va)) = Some (Some (arg_value true s ws), after o m va).
Proof.
  intros Hl. assert (positional (2 ^ 32) [] = 0) by done.
  destruct s; cbn [isize_words] in Hl; destruct ws as [|w1 [|w2 [|]]]; try discriminate Hl;
    (eexists; split; [reflexivity|]); cbv [mbind fmt_bind va_arg64 va_arg after mret fmt_ret f_va f_out f_mem f_chars app]; do 4 f_equal;
    unfold arg_value, positional, i8, i16, i32, i64, u32; cbn [rev app fold_left isize_bits]; rewrite ?Z.mul_0_l, ?Z.add_0_l; try done.
  all: rewrite (Z.add_comm w1), (Z.mul_comm (2 ^ 32)); done.
Qed.

Lemma i64_mod x : x mod 2 ^ 64 < 2 ^ 63 -> i64 x = x mod 2 ^ 64.
Proof.
  intros H. unfold i64. rewrite <- Z.add_mod_idemp_l by lia. pose proof (Z.mod_pos_bound x (2 ^ 64) ltac:(lia)).
  rewrite Z.mod_small by lia. lia.
Qed.

Lemma unsigned_arg_after s ws o m va : length ws = isize_words s -> arg_value false s ws < 2 ^ 63 ->
  exists f, unsigned_arg (size_code s) = Some f /\ f (after o m (ws ++ va)) = Some (Some (arg_value false s ws), after o m va).
Proof.
  intros Hl Hv. destruct s; cbn [isize_words] in Hl; destruct ws as [|w1 [|w2 [|]]]; try discriminate Hl;
    (eexists; split; [reflexivity|]); cbv [mbind fmt_bind va_arg64 va_arg after mret fmt_ret f_va f_out f_mem f_chars app]; do 4 f_equal;
    unfold arg_value, positional, u8, u16, i32, u32 in *; cbn [rev app fold_left isize_bits] in *; rewrite ?Z.mul_0_l, ?Z.add_0_l in *; try done.
  all: rewrite (Z.add_comm w1), (Z.mul_comm (2 ^ 32)); by apply i64_mod.
Qed.

Lemma print_int_after fuel arg i base ph o m va va' :
  arg (after o m va) = Some (Some i, after o m va') -> - 2 ^ 63 < i < 2 ^ 63 -> number_base base -> 0 <= ph_width ph <= 255 -> (512 < fuel)%nat ->
  let f := ph_flags ph in
  print_int collect fuel (Some arg) base ph (after o m va) =
    Some (Some tt, after (o ++ padded (ph_width ph) (leftAlign f) (zeroPad f) (int_text i base (plusPrepend f) (spacePrepend f))) m va').
Proof.
  intros Ea Hi Hb Hw Hf. cbv zeta. unfold print_int. rewrite (bind_after _ _ _ _ _ Ea).
  destruct (int_to_str_spec fuel i (fun _ => 0) base (plusPrepend (ph_flags ph)) (spacePrepend (ph_flags ph)) (ph_width ph)
    (leftAlign (ph_flags ph)) (zeroPad (ph_flags ph)) Hi Hb Hw Hf ltac:(done)) as (b & E & C & L).
  unfold of_option at 1. rewrite E. cbn [mbind fmt_bind fmap option_fmap option_map].
  apply (emit_str_after b); [done| |lia]. unfold padded. destruct (int_text_chars i base (plusPrepend (ph_flags ph)) (spacePrepend (ph_flags ph)) Hb ltac:(lia)) as [Hc _].
  assert (byte_string (replicate (Z.to_nat (ph_width ph - len (int_text i base (plusPrepend (ph_flags ph)) (spacePrepend (ph_flags ph))))) (if zeroPad (ph_flags ph) then 48 else 32))).
  { apply Forall_replicate. destruct (zeroPad _); lia. }
  assert (byte_string (int_text i base (plusPrepend (ph_flags ph)) (spacePrepend (ph_flags ph)))) by (eapply Forall_impl; [exact Hc|]; cbn; lia).
  destruct (leftAlign _); apply Forall_app; done.
Qed.

Lemma print_string_after fuel ph a t o m va :
  cstr m a t -> byte_string t -> (length t < fuel)%nat -> 0 <= ph_width ph <= 255 -> 0 <= ph_precision ph ->
  print_string collect fuel ph (after o m (a :: va)) =
    Some (Some tt, after (o ++ string_text (ph_width ph) (leftAlign (ph_flags ph)) (zeroPad (ph_flags ph))
      (if ph_precision_specified ph then Some (ph_precision ph) else None) t) m va).
Proof.
  intros Ht Hb Hf Hw Hp. unfold print_string. rewrite (bind_after _ _ _ _ _ (va_arg_after a va o m)).
  rewrite (bind_after get_mem _ _ m (after o m va)) by done.
  rewrite (bind_after (of_option _) _ _ (len t) (after o m va)) by (unfold of_option; by rewrite (strlen_spec m a t)).
  chars. unfold string_text. set (n := Z.to_nat (ph_width ph - len t)).
  set (c := if zeroPad (ph_flags ph) then 48 else 32). assert (Hc : 0 <= c < 256) by (subst c; destruct (zeroPad _); lia). clearbody c.
  set (pc := if len t <? ph_width ph then ph_width ph - len t else 0).
  assert (Epc : forall b o, (if (0 <? pc) && b then emit_times collect (Z.to_nat pc) c else mret tt) (after o m va) =
    Some (Some tt, after (o ++ if b : bool then replicate n c else []) m va)).
  { intros b o'. subst pc n. destruct (Z.ltb_spec (len t) (ph_width ph)).
    - replace (0 <? _) with true by lia. destruct b; cbn [andb]; [by apply emit_times_after|by rewrite app_nil_r].
    - replace (Z.to_nat (ph_width ph - len t)) with 0%nat by lia. cbn. by destruct b; rewrite app_nil_r. }
  rewrite (bind_after _ _ _ _ _ (Epc (negb (leftAlign (ph_flags ph))) o)).
  set (o1 := o ++ _).
  assert (E2 : (if ph_precision_specified ph then emit_str_with_limit collect fuel m a (ph_precision ph) else emit_str collect fuel m a) (after o1 m va) =
    Some (Some tt, after (o1 ++ match (if ph_precision_specified ph then Some (ph_precision ph) else None) with Some p => take (Z.to_nat p) t | None => t end) m va)).
  { destruct (ph_precision_specified ph); [by apply emit_limit_after|by apply emit_str_after]. }
  rewrite (bind_after _ _ _ _ _ E2), Epc. subst o1. destruct (leftAlign (ph_flags ph)); cbn [negb]; rewrite ?app_nil_r, <- ?app_assoc; done.
Qed.

(** The conversions of integers, by the type. *)
Lemma print_int_type fuel fl w p s type signed base alt ws o m va :
  0 <= w <= 255 -> int_type type = Some (signed, base, alt) ->
  let s' := if type =? chr "p" then ISize else s in
  let i := arg_value signed s' ws in
  let f := flags_of fl in
  length ws = isize_words s' -> - 2 ^ 63 < i < 2 ^ 63 -> (512 < fuel)%nat ->
  print_placeholder collect fuel (placeholder_of fl w p s type) (after o m (ws ++ va)) =
    Some (Some tt, after (o ++ (if altMode f then alt else []) ++ padded w (leftAlign f) (zeroPad f) (int_text i base (plusPrepend f) (spacePrepend f))) m va).
Proof.
  intros Hw Ht. cbv zeta. intros Hl Hi Hf.
  assert (number_base base /\ byte_string alt) as [Hb Ha].
  { revert Ht. unfold int_type, number_base. repeat (match goal with |- context [if ?b then _ else _] => destruct b end; [intros [= <- <- <-]; split; [lia|vm_compute; repeat constructor; lia]|]). done. }
  assert (E : print_placeholder collect fuel (placeholder_of fl w p s type) =
    (emit_list collect (if altMode (flags_of fl) then alt else []);;
     print_int collect fuel (if signed then signed_arg (size_code (if type =? chr "p" then ISize else s)) else unsigned_arg (size_code (if type =? chr "p" then ISize else s)))
       base (placeholder_of fl w p s type))).
  { revert Ht. unfold int_type, print_placeholder, unsigned_type, placeholder_of. cbn [ph_type ph_flags ph_size]. chars.
    destruct (Z.eqb_spec type 100) as [->|]; [intros [= <- <- <-]; by destruct (altMode _)|].
    destruct (Z.eqb_spec type 105) as [->|]; [intros [= <- <- <-]; by destruct (altMode _)|]. cbn [orb].
    destruct (Z.eqb_spec type 117) as [->|]; [intros [= <- <- <-]; by destruct (altMode _)|].
    destruct (Z.eqb_spec type 111) as [->|]; [by intros [= <- <- <-]|].
    destruct (Z.eqb_spec type 120) as [->|]; [by intros [= <- <- <-]|].
    destruct (Z.eqb_spec type 88) as [->|]; [by intros [= <- <- <-]|].
    destruct (Z.eqb_spec type 112) as [->|]; [intros [= <- <- <-]; by destruct (altMode _)|done]. }
  rewrite E. set (s' := if type =? chr "p" then ISize else s) in *.
  rewrite (bind_after _ _ _ _ _ (emit_list_after (if altMode (flags_of fl) then alt else []) o m (ws ++ va) ltac:(by destruct (altMode _); [|constructor]))).
  rewrite app_assoc.
  destruct signed.
  - destruct (signed_arg_after s' ws (o ++ if altMode (flags_of fl) then alt else []) m va Hl) as (f & -> & Ef).
    exact (print_int_after fuel f _ base (placeholder_of fl w p s type) _ _ _ _ Ef Hi Hb Hw Hf).
  - destruct (unsigned_arg_after s' ws (o ++ if altMode (flags_of fl) then alt else []) m va Hl) as (f & -> & Ef); [lia|].
    exact (print_int_after fuel f _ base (placeholder_of fl w p s type) _ _ _ _ Ef Hi Hb Hw Hf).
Qed.

Lemma print_placeholder_after fuel k fl w p s type o m va text va' :
  wf_piece (Conv fl w p s type) -> renders m k (Conv fl w p s type) va text va' -> (k + 512 < fuel)%nat ->
  print_placeholder collect fuel (placeholder_of fl w p s type) (after o m va) = Some (Some tt, after (o ++ text) m va').
Proof.
  intros (Hfl & Hw & Hp & Ht) Hr Hf. inversion Hr; subst; clear Hr.
  - transitivity (emit collect (chr "%") (after o m va')); [reflexivity|]. by rewrite emit_after.
  - transitivity (emit collect x (after o m va')); [reflexivity|]. by rewrite emit_after.
  - transitivity (print_string collect fuel (placeholder_of fl w p s (chr "s")) (after o m (a :: va'))); [reflexivity|].
    rewrite (print_string_after fuel (placeholder_of fl w p s (chr "s")) a t o m va') by (done || lia || (destruct p; cbn; lia)).
    do 4 f_equal. by destruct p.
  - by apply print_int_type with (signed := signed) (base := base) (alt := alt); [..|lia].
Qed.

Lemma format_from_after ps : forall fuel k p o m va text,
  Forall wf_piece ps -> cstr m p (format_text ps) -> renders_all m k ps va text -> (length (format_text ps) + k + 512 < fuel)%nat ->
  exists va', format_from collect fuel p (after o m va) = Some (Some tt, after (o ++ text) m va').
Proof.
  induction ps as [|x ps IH]; intros [|fuel] k p o m va text Hwf Hs Hr Hf; try lia; cbn [format_from];
    rewrite (bind_after get_mem _ _ m (after o m va)) by done; inversion Hr; subst; clear Hr.
  - rewrite (cstr_head _ _ _ Hs). cbn. exists va. by rewrite app_nil_r.
  - apply Forall_cons in Hwf as [Hx Hwf]. unfold format_text in Hs, Hf. cbn [map concat] in Hs, Hf. fold (format_text ps) in Hs, Hf.
    rewrite length_app in Hf. pose proof (cstr_suffix _ _ _ _ Hs) as Hs'. rewrite app_assoc. destruct x as [c|fl w pr sz ty].
    + inversion H1; subst. destruct Hs as (-> & Hc & _). destruct Hx as [Hc1 Hc2]. replace (c =? 0) with false by lia. chars.
      replace (c =? 37) with false by lia. cbn [negb]. rewrite (bind_after _ _ _ _ _ (emit_after c o m va')), u8_small by lia.
      apply (IH fuel k); [done|done|done|cbn in Hf; lia].
    + destruct (Hs) as (Em & _). rewrite Em. chars. cbn [Z.eqb Pos.eqb negb].
      assert (length fl <= length (piece_text (Conv fl w pr sz ty)))%nat by (cbn [piece_text]; cbn [length]; rewrite length_app; lia).
      pose proof (read_placeholder_spec m p fl w pr sz ty (format_text ps) (S fuel) Hx Hs ltac:(lia)) as E.
      rewrite (bind_after (of_option _) _ _ _ (after o m va)) by (unfold of_option; rewrite E; done). cbn [fst snd].
      rewrite (bind_after _ _ _ _ _ (print_placeholder_after (S fuel) k fl w pr sz ty o m va text0 va' Hx H1 ltac:(lia))).
      rewrite Z.sub_add. apply (IH fuel k); [done|done|done|]. cbn [piece_text length] in Hf. lia.
Qed.
End text.


(** ** Defects *)

(** The scientific notation of zero is never found: the loop that scales a small
    number up multiplies zero by ten for ever. *)
Theorem format_zero_diverges {Out D} `{!fpu D} (emit_char : Z -> Out -> bool * Out) fuel o format m va :
  (let zero := d_of_words 0 0 in
   d_le (d_of_int 10) zero = false /\ d_le zero (d_of_int (-10)) = false /\
   d_lt zero (d_of_int 1) = true /\ d_lt (d_of_int (-1)) zero = true /\ d_mul zero (d_of_int 10) = zero) ->
  cstr m format (chrs "%e") ->
  __stdio_format_core emit_char fuel o format m (0 :: 0 :: va) = None.
Proof.
  intros (H1 & H2 & H3 & H4 & H5) Hs.
  assert (Hup : forall n expo, scale_up n (d_of_words 0 0) expo = None).
  { induction n as [|n IH]; intros expo; cbn [scale_up]; [done|]. rewrite H3, H4, H5. apply IH. }
  assert (Hd : forall n, (fe ← scale_down n (d_of_words 0 0) 0; scale_up n (fst fe) (snd fe)) = None).
  { intros [|n]; [done|]. cbn [scale_down]. rewrite H1, H2. apply Hup. }
  destruct fuel as [|fuel]; [done|].
  assert (E : read_placeholder (S fuel) m (format + 1) = Some (placeholder_of [] 0 None IInt (chr "e"), format + 1)).
  { destruct Hs as (_ & _ & Hm & _). set (q := format + 1) in *. unfold read_placeholder.
    assert (read_flags (S fuel) m q (mk_flags false false false false false) = Some (mk_flags false false false false false, q)) as ->
      by (cbn [read_flags]; rewrite Hm; reflexivity).
    assert (read_number (S fuel) m q 0 = Some (0, q)) as E1 by (cbn [read_number]; rewrite Hm; reflexivity).
    assert (read_size m q = (0, q)) as E2 by (unfold read_size; rewrite Hm; reflexivity).
    cbn [mbind option_bind]. rewrite E1. cbn [mbind option_bind]. rewrite Hm. change (chr "e" =? chr ".") with false. cbn [mbind option_bind].
    rewrite E2, Hm. reflexivity. }
  unfold __stdio_format_core. cbn [format_from]. set (s := mk_fstate o m 0 (0 :: 0 :: va)).
  rewrite (bind_after get_mem _ s m s) by done. destruct Hs as (-> & _). change (chr "%" =? 0) with false. change (chr "%" =? chr "%") with true. cbn [negb].
  rewrite (bind_after (of_option _) _ s _ s) by (unfold of_option; by rewrite E). cbv beta iota. rewrite bind_none; [done|].
  transitivity (print_double emit_char (S fuel) true false (placeholder_of [] 0 None IInt (chr "e")) s); [reflexivity|].
  unfold print_double. rewrite (bind_after va_arg _ s 0 (mk_fstate o m 0 (0 :: va))) by done.
  rewrite (bind_after va_arg _ (mk_fstate o m 0 (0 :: va)) 0 (mk_fstate o m 0 va)) by done. rewrite bind_none; [done|].
  unfold of_option. by rewrite Hd.
Qed.

(** Exact arithmetic, as an instance. *)
Definition Q_of_words (lo hi : Z) : Q :=
  let e := Z.land (hi / 2 ^ 20) 0x7ff in
  let f := lo + 2 ^ 32 * Z.land hi 0xfffff in
  let f := if e =? 0 then f else f + 2 ^ 52 in
  let s := if 2 ^ 31 <=? hi then -1 else 1 in
  let k := Z.max e 1 - 1075 in
  if 0 <=? k then Qmake (s * f * 2 ^ k) 1 else Qmake (s * f) (Z.to_pos (2 ^ (- k))).

#[local] Instance fpu_Q : fpu Q := {
  d_of_words lo hi := Qred (Q_of_words lo hi);
  d_of_int i := Qmake i 1;
  d_hundredth := Qmake 1 100;
  d_le := Qle_bool;
  d_lt a b := negb (Qle_bool b a);
  d_add a b := Qred (Qplus a b);
  d_sub a b := Qred (Qminus a b);
  d_mul a b := Qred (Qmult a b);
  d_div a b := Qred (Qdiv a b);
  d_trunc a := Z.quot (Qnum a) (Zpos (Qden a))
}.

Definition demo_pieces : list piece := [Lit 120; Lit 61; Conv [48] 5 None IInt (chr "d"); Lit 32; Conv [45] 4 None IInt (chr "s"); Lit 33].
Definition demo_memory : memory := put (put (fun _ => 0) 100 (chrs "ab")) 0 (format_text demo_pieces).
Definition demo_args : list Z := [2 ^ 32 - 42; 100].

Lemma demo_format : cstr demo_memory 0 (chrs "x=%05d %-4s!").
Proof. vm_compute. repeat split; discriminate. Qed.

Lemma demo_renders : Forall wf_piece demo_pieces /\ renders_all demo_memory 2 demo_pieces demo_args (chrs "x=00-42 ab  !").
Proof.
  split.
  - repeat constructor; try by_vm; try (unfold wf_piece); try lia; try (unfold flag_chars, type_chars; cbn; chars; set_solver).
  - change (chrs "x=00-42 ab  !") with ([120] ++ [61] ++ chrs "00-42" ++ [32] ++ chrs "ab  " ++ [33] ++ []).
    econstructor; [constructor|]. econstructor; [constructor|].
    econstructor; [apply (renders_int demo_memory 2 [48] 5 None IInt (chr "d") true 10 [] [2 ^ 32 - 42]); [done|done|by_vm]|].
    econstructor; [constructor|].
    econstructor; [apply (renders_string demo_memory 2 [45] 4 None IInt 100 (chrs "ab")); [vm_compute; repeat split; discriminate|vm_compute; repeat constructor; lia|cbn; lia]|].
    econstructor; [constructor|]. constructor.
Qed.


(** Two differences between the comment of the formatter and its code: [%+u] marks
    an unsigned number, and [%3c] does not pad. *)
Lemma format_flag_deviations :
  let m := put (fun _ => 0) 0 (chrs "%+u|%3c|") in
  __stdio_format_core collect 600 [] 0 m [5; 120] = Some (5, chrs "+5|x|", m).
Proof. vm_compute. reflexivity. Qed.

Lemma demo_collected : __stdio_format_core collect 600 [] 0 demo_memory demo_args = Some (13, chrs "x=00-42 ab  !", demo_memory).
Proof. vm_compute. reflexivity. Qed.

Lemma format_any_output_witness :
  exists m1, __stdio_format_core str_emit 600 (mk_str_out (fun _ => 0) 5 0) 0 demo_memory demo_args =
    Some (4, (feed str_emit (chrs "x=00-42 ab  !") (mk_str_out (fun _ => 0) 5 0)).1.2, m1).
Proof.
  destruct (format_any_output str_emit 600 (mk_str_out (fun _ => 0) 5 0) 0 demo_memory demo_args 13 _ _ demo_collected) as (m1 & E & _).
  exists m1. exact E.
Defined.

Lemma vsnprintf_correct_witness :
  exists b m1, vsnprintf 600 (fun _ => 7) 5 0 demo_memory demo_args = Some (4, b, m1) /\ stored (fun _ => 7) b 0 (chrs "x=00" ++ [0]).
Proof.
  destruct (vsnprintf_correct 600 (fun _ => 7) 5 0 demo_memory demo_args 13 _ _ demo_collected) as (b & m1 & E & _ & S); [by_vm|by_vm|].
  exists b, m1. split; [exact E|]. exact (S ltac:(lia)).
Defined.

Lemma format_zero_diverges_witness :
  __stdio_format_core collect 1000 [] 0 (demo_text "%e") [0; 0] = None.
Proof.
  apply (format_zero_diverges collect 1000 [] 0 (demo_text "%e") []); [by_vm|]. vm_compute. repeat split; discriminate.
Defined.

(** A format that ends in a placeholder without a type is read past its end. *)
Example format_reads_past_end :
  __stdio_format_core collect 20 [] 0 ((demo_text "a%?secret").[2 <- 0]) [] = Some (7, chrs "asecret", (demo_text "a%?secret").[2 <- 0]).
Proof. vm_compute. reflexivity. Qed.

(** With exact arithmetic: a fraction is rounded to the precision. *)
Example format_double :
  (fun '(_, t, _) => t) <$> __stdio_format_core collect 300 [] 0 (demo_text "%.2f") [0; 0x400e0000] = Some (chrs "3.75").
Proof. vm_compute. reflexivity. Qed.

(** The sign of a negative number whose integer part is zero is lost. *)
Example format_negative_fraction :
  (fun '(_, t, _) => t) <$> __stdio_format_core collect 300 [] 0 (demo_text "%.1f") [0; 0xbfe00000] = Some (chrs "0.5").
Proof. vm_compute. reflexivity. Qed.
