(* ===== verification/BlockIo.v ===== *)
(** Programs over a block device.

    The file system code reaches its device through handles: [vfs_open],
    [vfs_seek], [vfs_read], [vfs_write] of [src/kernel/kernel/vfs/vfs.c], which
    call [hd_read] and [hd_write].  A function of the file system is a program
    that reads and writes ranges of bytes, and [run] runs it on an array of bytes.
    A seek and the transfer after it are one step; the offset of a transfer is a
    [size_t]. *)

From S2P Require Import Prelude CMem Vfs.
From Stdlib Require Import ZArith Lia Bool.
From stdpp Require Import base tactics numbers list.
Open Scope Z_scope.

(** Buffers are stores of bytes that start at 0.  [k] gets the bytes of the
    device and how many there are. *)
Inductive io (A : Type) : Type :=
| Ret (a : A)
| Read (off n : Z) (k : memory -> Z -> io A)
| Write (off n : Z) (buf : memory) (k : io A).

Arguments Ret {A} a.
Arguments Read {A} off n k.
Arguments Write {A} off n buf k.

Fixpoint io_bind {A B} (f : A -> io B) (p : io A) : io B :=
  match p with
  | Ret a => f a
  | Read off n k => Read off n (fun m c => io_bind f (k m c))
  | Write off n buf k => Write off n buf (io_bind f k)
  end.

#[export] Instance io_mbind : MBind io := @io_bind.
#[export] Instance io_mret : MRet io := @Ret.

(** [n] bytes of [src] put into [m] at [at_]. *)
Definition blit (m : memory) (at_ n : Z) (src : memory) : memory :=
  fun i => if (at_ <=? i) && (i <? at_ + n) then src (i - at_) else m i.

Definition zeros : memory := fun _ => 0.

(** ** Handles *)

(** [handle->readable] and [handle->writeable] of a handle opened with [mode]. *)
Definition can_read (mode : Z) : bool := has mode (Z.lor O_RDONLY O_RDWR).
Definition can_write (mode : Z) : bool := has mode (Z.lor O_WRONLY O_RDWR).

(** [vfs_seek(file, off); vfs_read(file, n, buf)]: the buffer after it. *)
Definition dev_read (mode off n : Z) (buf : memory) : io memory :=
  if can_read mode then Read (u32 off) n (fun src c => Ret (blit buf 0 c src)) else Ret buf.

(** [vfs_seek(file, off); vfs_write(file, n, buf)] *)
Definition dev_write (mode off n : Z) (buf : memory) : io unit :=
  if can_write mode then Write (u32 off) n buf (Ret tt) else Ret tt.

(** ** A device as an array of [len] bytes *)

Definition clip (len off n : Z) : Z := if len <=? off then 0 else Z.min n (len - off).

Fixpoint run {A} (len : Z) (p : io A) (d : memory) : A * memory :=
  match p with
  | Ret a => (a, d)
  | Read off n k => run len (k (fun i => d (off + i)) (clip len off n)) d
  | Write off n buf k => run len k (blit d off (clip len off n) buf)
  end.

Lemma run_bind {A B} len (f : A -> io B) p d :
  run len (p ≫= f) d = let '(a, d) := run len p d in run len (f a) d.
Proof. revert d. induction p as [a|off n k IH|off n buf k IH]; intros d; cbn; [done|apply IH|apply IH]. Qed.

Lemma run_ret {A} len (a : A) d : run len (mret a) d = (a, d).
Proof. done. Qed.

Lemma run_read {A} len mode off n buf d (f : memory -> io A) : can_read mode = true ->
  run len (dev_read mode off n buf ≫= f) d = run len (f (blit buf 0 (clip len (u32 off) n) (fun i => d (u32 off + i)))) d.
Proof. intros H. unfold dev_read. by rewrite H. Qed.

Lemma run_write {A} len mode off n buf d (f : unit -> io A) : can_write mode = true ->
  run len (dev_write mode off n buf ≫= f) d = run len (f tt) (blit d (u32 off) (clip len (u32 off) n) buf).
Proof. intros H. unfold dev_write. by rewrite H. Qed.

(** ** Buffers *)

Lemma blit_in m a n src i : a <= i < a + n -> blit m a n src i = src (i - a).
Proof. intros H. unfold blit. by replace ((a <=? i) && (i <? a + n)) with true by lia. Qed.

Lemma blit_out m a n src i : ~ (a <= i < a + n) -> blit m a n src i = m i.
Proof. intros H. unfold blit. by replace ((a <=? i) && (i <? a + n)) with false by lia. Qed.

Lemma blit_bytes m a n src : bytes m -> bytes src -> bytes (blit m a n src).
Proof. intros Hm Hs i. unfold blit. by case_match. Qed.

Lemma zeros_bytes : bytes zeros.
Proof. intros i. by unfold zeros. Qed.

Lemma clip_inside len off n : 0 <= off -> 0 <= n -> off + n <= len -> off < len -> clip len off n = n.
Proof. intros. unfold clip. case_match; lia. Qed.

