(* ===== verification/Ext2.v ===== *)
(** The ext2 file system: a model of [src/kernel/kernel/vfs/mount/ext2].

    The functions are programs over the device of BlockIo.  The packed structures
    of the disk (superblock, group descriptor, inode, directory entry) are buffers
    of bytes with accessors at the offsets of their fields, as the code overlays
    them.  [kmalloc] succeeds and [vfs_open] of the device succeeds; the time is
    an argument. *)

From S2P Require Import Prelude Errno CMem Vfs Elf BlockIo.
From Stdlib Require Import ZArith Lia Bool.
From stdpp Require Import base tactics numbers list.
Open Scope Z_scope.

Definition store16 (m : memory) (a w : Z) : memory := m.[a <- u8 w].[a + 1 <- u8 (w / 2 ^ 8)].

(** ** Structures *)

Definition sizeof_superblock : Z := 90.
Definition total_inodes (sb : memory) : Z := load32 sb 0.
Definition total_blocks (sb : memory) : Z := load32 sb 4.
Definition total_unalloc_blocks (sb : memory) : Z := load32 sb 12.
Definition total_unalloc_inodes (sb : memory) : Z := load32 sb 16.
Definition sb_block_size (sb : memory) : Z := load32 sb 24.
Definition blocks_per_group (sb : memory) : Z := load32 sb 32.
Definition sb_inodes_per_group (sb : memory) : Z := load32 sb 40.
Definition signature (sb : memory) : Z := load16 sb 56.
Definition major_version (sb : memory) : Z := load32 sb 76.
Definition first_unreserved_inode (sb : memory) : Z := load32 sb 84.
Definition sb_inode_size (sb : memory) : Z := load16 sb 88.
Definition set_total_unalloc_blocks v (sb : memory) : memory := store32 sb 12 v.
Definition set_total_unalloc_inodes v (sb : memory) : memory := store32 sb 16 v.

Definition sizeof_gdt : Z := 32.
Definition block_usage_bitmap_addr (gdt : memory) : Z := load32 gdt 0.
Definition inode_usage_bitmap_addr (gdt : memory) : Z := load32 gdt 4.
Definition inode_table_start_addr (gdt : memory) : Z := load32 gdt 8.
Definition unalloc_blocks_count (gdt : memory) : Z := load16 gdt 12.
Definition unalloc_inodes_count (gdt : memory) : Z := load16 gdt 14.
Definition set_unalloc_blocks_count v (gdt : memory) : memory := store16 gdt 12 v.
Definition set_unalloc_inodes_count v (gdt : memory) : memory := store16 gdt 14 v.

Definition sizeof_inode : Z := 128.
Definition type_and_permissions (i : memory) : Z := load16 i 0.
Definition user_id (i : memory) : Z := load16 i 2.
Definition size_lo (i : memory) : Z := load32 i 4.
Definition last_access_time (i : memory) : Z := load32 i 8.
Definition creation_time (i : memory) : Z := load32 i 12.
Definition last_modification_time (i : memory) : Z := load32 i 16.
Definition group_id (i : memory) : Z := load16 i 24.
Definition hard_links_count (i : memory) : Z := load16 i 26.
Definition disk_sectors_count (i : memory) : Z := load32 i 28.
Definition direct_block_pointers (i : memory) (k : Z) : Z := load32 i (40 + 4 * k).
Definition singly_indirect_block_pointer (i : memory) : Z := load32 i 88.
Definition doubly_indirect_block_pointer (i : memory) : Z := load32 i 92.
Definition triply_indirect_block_pointer (i : memory) : Z := load32 i 96.
Definition set_type_and_permissions v (i : memory) : memory := store16 i 0 v.
Definition set_user_id v (i : memory) : memory := store16 i 2 v.
Definition set_size_lo v (i : memory) : memory := store32 i 4 v.
Definition set_last_access_time v (i : memory) : memory := store32 i 8 v.
Definition set_creation_time v (i : memory) : memory := store32 i 12 v.
Definition set_last_modification_time v (i : memory) : memory := store32 i 16 v.
Definition set_group_id v (i : memory) : memory := store16 i 24 v.
Definition set_hard_links_count v (i : memory) : memory := store16 i 26 v.
Definition set_disk_sectors_count v (i : memory) : memory := store32 i 28 v.
Definition set_direct_block_pointers (k v : Z) (i : memory) : memory := store32 i (40 + 4 * k) v.
Definition set_singly_indirect_block_pointer v (i : memory) : memory := store32 i 88 v.
Definition set_doubly_indirect_block_pointer v (i : memory) : memory := store32 i 92 v.
Definition set_triply_indirect_block_pointer v (i : memory) : memory := store32 i 96 v.

(** A directory entry at [o]. *)
Definition de_inode (b : memory) (o : Z) : Z := load32 b o.
Definition de_rec_len (b : memory) (o : Z) : Z := load16 b (o + 4).
Definition de_name_len (b : memory) (o : Z) : Z := b (o + 6).
Definition de_file_type (b : memory) (o : Z) : Z := b (o + 7).

Definition EXT2_TYPE_FIFO : Z := 0x1000.
Definition EXT2_TYPE_CHARACTER_DEVICE : Z := 0x2000.
Definition EXT2_TYPE_DIRECTORY : Z := 0x4000.
Definition EXT2_TYPE_BLOCK_DEVICE : Z := 0x6000.
Definition EXT2_TYPE_FILE : Z := 0x8000.
Definition EXT2_TYPE_SYMLINK : Z := 0xA000.

Definition ext2_type_to_vfs (type_and_permissions : Z) : Z :=
  let t := Z.land type_and_permissions 0xF000 in
  if t =? EXT2_TYPE_FIFO then VFS_TYPE_FIFO
  else if t =? EXT2_TYPE_DIRECTORY then VFS_TYPE_DIRECTORY
  else if t =? EXT2_TYPE_FILE then VFS_TYPE_FILE
  else if t =? EXT2_TYPE_SYMLINK then VFS_TYPE_SYMLINK
  else if t =? EXT2_TYPE_BLOCK_DEVICE then VFS_TYPE_BLOCK_DEVICE
  else if t =? EXT2_TYPE_CHARACTER_DEVICE then VFS_TYPE_CHARACTER_DEVICE
  else VFS_TYPE_FILE.

Definition ext2_mode_to_perm (type_and_permissions : Z) : Z := Z.land type_and_permissions 0xFFF.

(** The part of [ext2_inode_metadata_t] that a mount fixes. *)
Record ext2_meta := mk_meta { inodes_per_group : Z; block_size : Z; inode_size : Z }.

Definition gdt_start (bs : Z) : Z := u32 ((if bs =? 1024 then 2 else 1) * bs).

(** Bit [bit] of a bitmap. *)
Definition bit_clear (bitmap : memory) (bit : Z) : bool := Z.land (bitmap (bit / 8)) (Z.shiftl 1 (bit mod 8)) =? 0.
Definition set_bit_in (bitmap : memory) (bit : Z) : memory :=
  bitmap.[bit / 8 <- u8 (Z.lor (bitmap (bit / 8)) (Z.shiftl 1 (bit mod 8)))].
Definition clear_bit_in (bitmap : memory) (bit : Z) : memory :=
  bitmap.[bit / 8 <- u8 (Z.land (bitmap (bit / 8)) (Z.lnot (Z.shiftl 1 (bit mod 8))))].

(** ** Blocks: [alloc_block.c], [free_block.c] *)

(** The loop over the groups from [g], [n] of them left; the buffers keep what a
    short read does not overwrite. *)
Fixpoint alloc_block_groups (bs group_count : Z) (n : nat) (g : Z) (sb gdt bitmap : memory) : io Z :=
  match n with
  | O => mret 0
  | S n =>
      let bpg := blocks_per_group sb in
      gdt ← dev_read O_RDWR (gdt_start bs + g * sizeof_gdt) sizeof_gdt gdt;
      if unalloc_blocks_count gdt =? 0 then alloc_block_groups bs group_count n (g + 1) sb gdt bitmap else
      bitmap ← dev_read O_RDWR (block_usage_bitmap_addr gdt * bs) bs bitmap;
      let blocks_in_group := if g =? group_count - 1 then u32 (total_blocks sb - g * bpg) else bpg in
      match find_from (Z.to_nat blocks_in_group) 0 (bit_clear bitmap) with
      | None => alloc_block_groups bs group_count n (g + 1) sb gdt bitmap
      | Some bit =>
          let bitmap := set_bit_in bitmap bit in
          _ ← dev_write O_RDWR (block_usage_bitmap_addr gdt * bs) bs bitmap;
          let gdt := set_unalloc_blocks_count (unalloc_blocks_count gdt - 1) gdt in
          _ ← dev_write O_RDWR (gdt_start bs + g * sizeof_gdt) sizeof_gdt gdt;
          let sb := set_total_unalloc_blocks (total_unalloc_blocks sb - 1) sb in
          _ ← dev_write O_RDWR 1024 sizeof_superblock sb;
          let result := u32 (g * bpg + bit) in
          if result =? 0 then alloc_block_groups bs group_count n (g + 1) sb gdt bitmap else mret result
      end
  end.

Definition ext2_alloc_block (bs : Z) : io Z :=
  sb ← dev_read O_RDWR 1024 sizeof_superblock zeros;
  if total_unalloc_blocks sb =? 0 then mret 0 else
  let bpg := blocks_per_group sb in
  let group_count := u32 (total_blocks sb + bpg - 1) / bpg in
  alloc_block_groups bs group_count (Z.to_nat group_count) 0 sb zeros zeros.

Definition ext2_free_block (block_num bs : Z) : io unit :=
  sb ← dev_read O_RDWR 1024 sizeof_superblock zeros;
  let bpg := blocks_per_group sb in
  let group := block_num / bpg in
  let bit := block_num mod bpg in
  gdt ← dev_read O_RDWR (gdt_start bs + group * sizeof_gdt) sizeof_gdt zeros;
  bitmap ← dev_read O_RDWR (block_usage_bitmap_addr gdt * bs) bs zeros;
  let bitmap := clear_bit_in bitmap bit in
  _ ← dev_write O_RDWR (block_usage_bitmap_addr gdt * bs) bs bitmap;
  let gdt := set_unalloc_blocks_count (unalloc_blocks_count gdt + 1) gdt in
  _ ← dev_write O_RDWR (gdt_start bs + group * sizeof_gdt) sizeof_gdt gdt;
  let sb := set_total_unalloc_blocks (total_unalloc_blocks sb + 1) sb in
  dev_write O_RDWR 1024 sizeof_superblock sb.

(** ** Inodes: [alloc_inode.c], [read_inode.c], [write_inode.c] *)

Fixpoint alloc_inode_groups (bs groups_count : Z) (n : nat) (g : Z) (sb gdt bitmap : memory) : io Z :=
  match n with
  | O => mret 0
  | S n =>
      let ipg := sb_inodes_per_group sb in
      gdt ← dev_read O_RDONLY (gdt_start bs + g * sizeof_gdt) sizeof_gdt gdt;
      if unalloc_inodes_count gdt =? 0 then alloc_inode_groups bs groups_count n (g + 1) sb gdt bitmap else
      bitmap ← dev_read O_RDONLY (inode_usage_bitmap_addr gdt * bs) bs bitmap;
      let inodes_in_group := if g =? groups_count - 1 then u32 (total_inodes sb - g * ipg) else ipg in
      match find_from (Z.to_nat inodes_in_group) 0
              (fun bit => bit_clear bitmap bit && negb (u32 (g * ipg + bit + 1) <? first_unreserved_inode sb)) with
      | None => alloc_inode_groups bs groups_count n (g + 1) sb gdt bitmap
      | Some bit =>
          let bitmap := set_bit_in bitmap bit in
          _ ← dev_write O_RDONLY (inode_usage_bitmap_addr gdt * bs) bs bitmap;
          let gdt := set_unalloc_inodes_count (unalloc_inodes_count gdt - 1) gdt in
          _ ← dev_write O_RDONLY (gdt_start bs + g * sizeof_gdt) sizeof_gdt gdt;
          let sb := set_total_unalloc_inodes (total_unalloc_inodes sb - 1) sb in
          _ ← dev_write O_RDONLY 1024 sizeof_superblock sb;
          let result := u32 (g * ipg + bit + 1) in
          if result =? 0 then alloc_inode_groups bs groups_count n (g + 1) sb gdt bitmap else mret result
      end
  end.

Definition ext2_alloc_inode (bs : Z) : io Z :=
  sb ← dev_read O_RDONLY 1024 sizeof_superblock zeros;
  if total_unalloc_inodes sb =? 0 then mret 0 else
  let ipg := sb_inodes_per_group sb in
  let groups_count := u32 (total_inodes sb + ipg - 1) / ipg in
  alloc_inode_groups bs groups_count (Z.to_nat groups_count) 0 sb zeros zeros.

Definition ext2_read_inode (mode : Z) (m : ext2_meta) (inode_num : Z) : io memory :=
  let bs := block_size m in
  let block_group := u32 (inode_num - 1) / inodes_per_group m in
  let index_in_group := u32 (inode_num - 1) mod inodes_per_group m in
  gdt ← dev_read mode (u32 (gdt_start bs + block_group * sizeof_gdt)) sizeof_gdt zeros;
  let inode_table_byte := u32 (inode_table_start_addr gdt * bs) in
  let inode_byte := u32 (inode_table_byte + index_in_group * inode_size m) in
  dev_read mode inode_byte sizeof_inode zeros.

(** [gdt] is not initialised in the code; the zeros stand for what it holds. *)
Definition ext2_write_inode (m : ext2_meta) (inode_num : Z) (inode : memory) : io unit :=
  let bs := block_size m in
  let block_group := u32 (inode_num - 1) / inodes_per_group m in
  let index_in_group := u32 (inode_num - 1) mod inodes_per_group m in
  gdt ← dev_read O_RDWR (gdt_start bs + block_group * sizeof_gdt) sizeof_gdt zeros;
  dev_write O_RDWR (inode_table_start_addr gdt * bs + index_in_group * inode_size m) sizeof_inode inode.

(** ** Block pointers: [block_id_to_addr.c], [set_block_ptr.c] *)

Definition read_block_ptr (mode block_num index bs : Z) : io Z :=
  ptr ← dev_read mode (block_num * bs + index * 4) 4 zeros;
  mret (load32 ptr 0).

Definition ext2_block_id_to_addr (inode : memory) (block_id bs : Z) : io Z :=
  if size_lo inode <=? block_id * bs then mret 0 else
  if block_id <? 12 then mret (u32 (direct_block_pointers inode block_id * bs)) else
  let block_id := block_id - 12 in
  let ppb := bs / 4 in
  if block_id <? ppb then
    block_num ← read_block_ptr O_RDONLY (singly_indirect_block_pointer inode) block_id bs;
    mret (u32 (block_num * bs))
  else
    let block_id := block_id - ppb in
    if block_id <? u32 (ppb * ppb) then
      block_num ← read_block_ptr O_RDONLY (doubly_indirect_block_pointer inode) (block_id / ppb) bs;
      block_num ← read_block_ptr O_RDONLY block_num (block_id mod ppb) bs;
      mret (u32 (block_num * bs))
    else
      let block_id := block_id - u32 (ppb * ppb) in
      block_num ← read_block_ptr O_RDONLY (triply_indirect_block_pointer inode) (block_id / u32 (ppb * ppb)) bs;
      block_num ← read_block_ptr O_RDONLY block_num (block_id / ppb mod ppb) bs;
      block_num ← read_block_ptr O_RDONLY block_num (block_id mod ppb) bs;
      mret (u32 (block_num * bs)).

(** The number of the indirect block, 0 on failure; the code stores it through
    [ptr_field]. *)
Definition ensure_indirect (ptr_field bs : Z) : io Z :=
  if negb (ptr_field =? 0) then mret ptr_field else
  new_block ← ext2_alloc_block bs;
  if new_block =? 0 then mret 0 else
  _ ← dev_write O_RDWR (new_block * bs) bs zeros;
  mret new_block.

(** The next level: entry [index] of the table [l], allocated if it is 0. *)
Definition ensure_entry (l index bs : Z) : io Z :=
  l2 ← read_block_ptr O_RDWR l index bs;
  if negb (l2 =? 0) then mret l2 else
  l2 ← ext2_alloc_block bs;
  if l2 =? 0 then mret 0 else
  _ ← dev_write O_RDWR (l2 * bs) bs zeros;
  _ ← dev_write O_RDWR (l * bs + index * 4) 4 (store32 zeros 0 l2);
  mret l2.

Definition write_block_ptr (l index bs v : Z) : io unit := dev_write O_RDWR (l * bs + index * 4) 4 (store32 zeros 0 v).

Definition ext2_set_block_id (inode : memory) (block_id bs new_block_num : Z) : io (bool * memory) :=
  if block_id <? 12 then mret (true, set_direct_block_pointers block_id new_block_num inode) else
  let block_id := block_id - 12 in
  let ppb := bs / 4 in
  if block_id <? ppb then
    l1 ← ensure_indirect (singly_indirect_block_pointer inode) bs;
    let inode := set_singly_indirect_block_pointer l1 inode in
    if l1 =? 0 then mret (false, inode) else
    _ ← write_block_ptr l1 block_id bs new_block_num;
    mret (true, inode)
  else
    let block_id := block_id - ppb in
    if block_id <? u32 (ppb * ppb) then
      l1 ← ensure_indirect (doubly_indirect_block_pointer inode) bs;
      let inode := set_doubly_indirect_block_pointer l1 inode in
      if l1 =? 0 then mret (false, inode) else
      l2 ← ensure_entry l1 (block_id / ppb) bs;
      if l2 =? 0 then mret (false, inode) else
      _ ← write_block_ptr l2 (block_id mod ppb) bs new_block_num;
      mret (true, inode)
    else
      let block_id := block_id - u32 (ppb * ppb) in
      l1 ← ensure_indirect (triply_indirect_block_pointer inode) bs;
      let inode := set_triply_indirect_block_pointer l1 inode in
      if l1 =? 0 then mret (false, inode) else
      l2 ← ensure_entry l1 (block_id / u32 (ppb * ppb)) bs;
      if l2 =? 0 then mret (false, inode) else
      l3 ← ensure_entry l2 (block_id / ppb mod ppb) bs;
      if l3 =? 0 then mret (false, inode) else
      _ ← write_block_ptr l3 (block_id mod ppb) bs new_block_num;
      mret (true, inode).

(** ** Files: [open.c], [read.c], [write.c], [truncate.c] *)

(** A handle of a file with its [ext2_file_metadata_t]: the number and the length
    in its node, the two flags, [meta->cached_inode], and [cached_inode] of the
    node. *)
Record ext2_file := mk_ext2_file {
  f_ino : Z; f_length : Z; f_readable : bool; f_writeable : bool; f_inode : memory; f_node_inode : option memory }.

Definition set_f_inode v f := mk_ext2_file (f_ino f) (f_length f) (f_readable f) (f_writeable f) v (f_node_inode f).
Definition set_f_length v f := mk_ext2_file (f_ino f) v (f_readable f) (f_writeable f) (f_inode f) (f_node_inode f).
Definition set_f_node_inode v f := mk_ext2_file (f_ino f) (f_length f) (f_readable f) (f_writeable f) (f_inode f) v.

Section Ext2.
Context (m : ext2_meta) (now : Z).

(** [ext2_open] on a node without and with a cached inode. *)
Definition ext2_open (ino length : Z) (mode : Z) (cached : option memory) : io ext2_file :=
  cached ← match cached with None => ext2_read_inode O_RDONLY m ino | Some i => mret i end;
  mret (mk_ext2_file ino length (can_read mode) (can_write mode) cached (Some cached)).

(** The part of [offset, offset + size) in block [i]: its start and its length. *)
Definition block_part (offset size start_block_id end_block_id i : Z) : Z * Z :=
  let block_file_start := u32 (i * block_size m) in
  let part_start := if i =? start_block_id then offset else block_file_start in
  let part_end := if i =? end_block_id then u32 (offset + size) else u32 (block_file_start + block_size m) in
  (part_start, u32 (part_end - part_start)).

Fixpoint read_blocks (inode : memory) (offset size start_block_id end_block_id : Z) (n : nat) (i bytes_read : Z) (out : memory)
    : io (Z * memory) :=
  match n with
  | O => mret (bytes_read, out)
  | S n =>
      let '(read_start, bytes_this_block) := block_part offset size start_block_id end_block_id i in
      if bytes_this_block =? 0 then mret (bytes_read, out) else
      block_addr ← ext2_block_id_to_addr inode i (block_size m);
      if block_addr =? 0 then mret (bytes_read, out) else
      let src_off := u32 (read_start - u32 (i * block_size m)) in
      part ← dev_read O_RDONLY (u32 (block_addr + src_off)) bytes_this_block (fun k => out (bytes_read + k));
      read_blocks inode offset size start_block_id end_block_id n (i + 1) (bytes_read + bytes_this_block)
        (blit out bytes_read bytes_this_block part)
  end.

(** The number of bytes, the buffer and the handle. *)
Definition ext2_read (f : ext2_file) (offset size : Z) (out : memory) : io (Z * memory * ext2_file) :=
  if negb (f_readable f) then mret (0, out, f) else
  let file_size := u32 (f_length f) in
  if file_size <=? offset then mret (0, out, f) else
  let size := if file_size <? u32 (offset + size) then file_size - offset else size in
  if size =? 0 then mret (0, out, f) else
  let start_block_id := offset / block_size m in
  let end_block_id := u32 (offset + size) / block_size m in
  let f := set_f_inode (set_last_access_time (u32 now) (f_inode f)) f in
  _ ← ext2_write_inode m (f_ino f) (f_inode f);
  r ← read_blocks (f_inode f) offset size start_block_id end_block_id (Z.to_nat (end_block_id + 1 - start_block_id)) start_block_id 0 out;
  let '(bytes_read, out) := (r : Z * memory) in
  mret (bytes_read, out, f).

(** The body of the loop for a block that is not there: its address, unless it
    fails, and the inode. *)
Definition add_block (inode : memory) (i : Z) : io (option Z * memory) :=
  let bs := block_size m in
  new_block ← ext2_alloc_block bs;
  if new_block =? 0 then mret (None, inode) else
  r ← ext2_set_block_id inode i bs new_block;
  let '(ok, inode) := (r : bool * memory) in
  if negb ok then mret (None, inode) else
  _ ← dev_write O_WRONLY (new_block * bs) bs zeros;
  mret (Some (u32 (new_block * bs)), inode).

(** The result: the number of bytes, the inode, and whether blocks were added. *)
Fixpoint write_blocks (offset size start_block_id end_block_id : Z) (src : memory) (n : nat) (i bytes_written : Z) (inode : memory) (dirty : bool)
    : io (Z * memory * bool) :=
  match n with
  | O => mret (bytes_written, inode, dirty)
  | S n =>
      let '(write_start, bytes_this_block) := block_part offset size start_block_id end_block_id i in
      if bytes_this_block =? 0 then mret (bytes_written, inode, dirty) else
      block_addr ← ext2_block_id_to_addr inode i (block_size m);
      r ← (if block_addr =? 0 then add_block inode i else mret (Some block_addr, inode));
      match (r : option Z * memory) with
      | (None, inode) => mret (bytes_written, inode, dirty)
      | (Some addr, inode) =>
      let dirty := (block_addr =? 0) || dirty in
      let dst_off := u32 (write_start - u32 (i * block_size m)) in
      _ ← dev_write O_WRONLY (u32 (addr + dst_off)) bytes_this_block (fun k => src (bytes_written + k));
      write_blocks offset size start_block_id end_block_id src n (i + 1) (bytes_written + bytes_this_block) inode dirty
      end
  end.

Definition ext2_write (f : ext2_file) (offset size : Z) (src : memory) : io (Z * ext2_file) :=
  if negb (f_writeable f) then mret (0, f) else
  let file_size := u32 (f_length f) in
  if file_size <? offset then mret (0, f) else
  if size =? 0 then mret (0, f) else
  let start_block_id := offset / block_size m in
  let end_block_id := u32 (offset + size) / block_size m in
  let inode := set_last_modification_time (u32 now) (f_inode f) in
  _ ← ext2_write_inode m (f_ino f) inode;
  r ← write_blocks offset size start_block_id end_block_id src (Z.to_nat (end_block_id + 1 - start_block_id)) start_block_id 0 inode false;
  let '(bytes_written, inode, dirty) := (r : Z * memory * bool) in
  let new_end := u32 (offset + bytes_written) in
  let '(inode, f, dirty) :=
    if file_size <? new_end then (set_size_lo new_end inode, set_f_length new_end f, true) else (inode, f, dirty) in
  let f := set_f_inode inode f in
  _ ← (if (dirty : bool) then ext2_write_inode m (f_ino f) inode else mret tt);
  mret (bytes_written, f).

(** The loop over a table of pointers. *)
Fixpoint free_entries (child : Z -> io unit) (n : nat) (i : Z) (table : memory) : io unit :=
  match n with
  | O => mret tt
  | S n =>
      _ ← (if negb (load32 table (4 * i) =? 0) then child (load32 table (4 * i)) else mret tt);
      free_entries child n (i + 1) table
  end.

(** The three functions differ in what they call for an entry. *)
Definition free_indirect (child : Z -> io unit) (block : Z) : io unit :=
  table ← dev_read O_RDONLY (block * block_size m) (block_size m) zeros;
  _ ← free_entries child (Z.to_nat (block_size m / 4)) 0 table;
  ext2_free_block block (block_size m).

Definition free_data_block (b : Z) : io unit := ext2_free_block b (block_size m).
Definition free_indirect1 : Z -> io unit := free_indirect free_data_block.
Definition free_indirect2 : Z -> io unit := free_indirect free_indirect1.
Definition free_indirect3 : Z -> io unit := free_indirect free_indirect2.

Fixpoint free_direct (n : nat) (i : Z) (inode : memory) : io memory :=
  match n with
  | O => mret inode
  | S n =>
      if negb (direct_block_pointers inode i =? 0) then
        _ ← ext2_free_block (direct_block_pointers inode i) (block_size m);
        free_direct n (i + 1) (set_direct_block_pointers i 0 inode)
      else free_direct n (i + 1) inode
  end.

Definition ext2_truncate (f : ext2_file) : io (Z * ext2_file) :=
  if f_length f =? 0 then mret (0, f) else
  inode ← free_direct 12 0 (f_inode f);
  _ ← (if negb (singly_indirect_block_pointer inode =? 0) then free_indirect1 (singly_indirect_block_pointer inode) else mret tt);
  let inode := if negb (singly_indirect_block_pointer inode =? 0) then set_singly_indirect_block_pointer 0 inode else inode in
  _ ← (if negb (doubly_indirect_block_pointer inode =? 0) then free_indirect2 (doubly_indirect_block_pointer inode) else mret tt);
  let inode := if negb (doubly_indirect_block_pointer inode =? 0) then set_doubly_indirect_block_pointer 0 inode else inode in
  _ ← (if negb (triply_indirect_block_pointer inode =? 0) then free_indirect3 (triply_indirect_block_pointer inode) else mret tt);
  let inode := if negb (triply_indirect_block_pointer inode =? 0) then set_triply_indirect_block_pointer 0 inode else inode in
  let inode := set_last_modification_time (u32 now) (set_disk_sectors_count 0 (set_size_lo 0 inode)) in
  let f := set_f_length 0 (set_f_inode inode f) in
  let f := match f_node_inode f with None => f | Some _ => set_f_node_inode (Some inode) f end in
  _ ← ext2_write_inode m (f_ino f) inode;
  mret (0, f).

(** ** Directories: [read_inode.c], [finddir.c], [readdir.c], [add_inode_to_dir.c],
    [create_inode.c], [mkdir.c], [mkfile.c] *)

(** A node with the part of its metadata that is its own: the cached inode, and
    the cached content of a directory with its size. *)
Record ext2_node := mk_ext2_node {
  x_ino : Z; x_type : Z; x_length : Z; x_inode : option memory; x_dir : option (Z * memory) }.

Definition set_x_inode v x := mk_ext2_node (x_ino x) (x_type x) (x_length x) v (x_dir x).
Definition set_x_dir v x := mk_ext2_node (x_ino x) (x_type x) (x_length x) (x_inode x) v.

(** A [NULL] inode is never dereferenced by the functions below: they load it. *)
Definition x_cached (x : ext2_node) : memory := from_option id zeros (x_inode x).

Fixpoint load_dir_blocks (inode : memory) (n : nat) (i : Z) (cache : memory) : io memory :=
  match n with
  | O => mret cache
  | S n =>
      let bs := block_size m in
      byte_off ← ext2_block_id_to_addr inode i bs;
      if byte_off =? 0 then mret cache else
      part ← dev_read O_RDONLY byte_off bs (fun k => cache (u32 (i * bs) + k));
      load_dir_blocks inode n (i + 1) (blit cache (u32 (i * bs)) bs part)
  end.

Definition ext2_ensure_dir_cache (x : ext2_node) : io ext2_node :=
  match x_dir x with
  | Some _ => mret x
  | None =>
      inode ← match x_inode x with None => ext2_read_inode O_RDONLY m (x_ino x) | Some i => mret i end;
      let bs := block_size m in
      let block_count := if 0 <? size_lo inode then u32 (size_lo inode + bs - 1) / bs else 0 in
      cache ← load_dir_blocks inode (Z.to_nat block_count) 0 zeros;
      mret (set_x_dir (Some (u32 (block_count * bs), cache)) (set_x_inode (Some inode) x))
  end.

(** The name of the entry at [o]. *)
Definition de_name (b : memory) (o : Z) : list Z := (fun k => b (o + 8 + k)) <$> seqZ 0 (de_name_len b o).

(** The loop of [ext2_finddir]; a record has at least one byte, so that [size]
    rounds are enough. *)
Fixpoint find_entry (n : nat) (dir : memory) (size offset : Z) (name : list Z) : Z :=
  match n with
  | O => 0
  | S n =>
      if size <=? offset then 0 else
      if de_rec_len dir offset =? 0 then 0 else
      if negb (de_inode dir offset =? 0) && bool_decide (de_name dir offset = name) then de_inode dir offset
      else find_entry n dir size (u32 (offset + de_rec_len dir offset)) name
  end.

Definition touch_dir (x : ext2_node) : io ext2_node :=
  let x := set_x_inode (Some (set_last_access_time (u32 now) (x_cached x))) x in
  _ ← ext2_write_inode m (x_ino x) (x_cached x);
  mret x.

(** The node that is found, and the directory. *)
Definition ext2_finddir (x : ext2_node) (name : list Z) : io (option ext2_node * ext2_node) :=
  x ← ext2_ensure_dir_cache x;
  x ← touch_dir x;
  let '(size, dir) := from_option id (0, zeros) (x_dir x) in
  let found_inode_num := find_entry (Z.to_nat size) dir size 0 name in
  if found_inode_num =? 0 then mret (None, x) else
  child ← ext2_read_inode O_RDONLY m found_inode_num;
  mret (Some (mk_ext2_node found_inode_num (ext2_type_to_vfs (type_and_permissions child)) (size_lo child) None None), x).

(** The loop of [ext2_readdir]: the offset of the [index]-th used entry. *)
Fixpoint nth_entry (n : nat) (dir : memory) (size offset count index : Z) : option Z :=
  match n with
  | O => None
  | S n =>
      if size <=? offset then None else
      if de_rec_len dir offset =? 0 then None else
      if negb (de_inode dir offset =? 0) then
        if count =? index then Some offset
        else nth_entry n dir size (u32 (offset + de_rec_len dir offset)) (count + 1) index
      else nth_entry n dir size (u32 (offset + de_rec_len dir offset)) count index
  end.

(** The number, the name and the type of the entry. *)
Definition ext2_readdir (x : ext2_node) (index : Z) : io (option (Z * list Z * Z) * ext2_node) :=
  x ← ext2_ensure_dir_cache x;
  let '(size, dir) := from_option id (0, zeros) (x_dir x) in
  if size =? 0 then mret (None, x) else
  x ← touch_dir x;
  match nth_entry (Z.to_nat size) dir size 0 0 index with
  | None => mret (None, x)
  | Some o =>
      child ← ext2_read_inode O_RDONLY m (de_inode dir o);
      mret (Some (de_inode dir o, take (Z.to_nat (VFS_MAX_FILENAME - 1)) (de_name dir o),
                  vfs_type_to_dirent (ext2_type_to_vfs (type_and_permissions child))), x)
  end.

Definition dir_entry_file_type (vfs_type : Z) : Z :=
  if vfs_type =? VFS_TYPE_FILE then 1
  else if vfs_type =? VFS_TYPE_DIRECTORY then 2
  else if vfs_type =? VFS_TYPE_SYMLINK then 7
  else if vfs_type =? VFS_TYPE_CHARACTER_DEVICE then 3
  else if vfs_type =? VFS_TYPE_BLOCK_DEVICE then 4
  else 0.

Definition pad_len (len : Z) : Z := u16 (Z.land (len + 3) (Z.lnot 3)).

(** An entry: its header and the first [name_length] bytes of the name. *)
Definition dir_entry (inode rec_len name_length file_type : Z) (name : list Z) : memory :=
  blit (store16 (store32 zeros 0 inode) 4 rec_len).[6 <- name_length].[7 <- file_type] 8 name_length
    (fun k => nth (Z.to_nat k) name 0).

(** The loop over the entries of a block: the block with the entry, if there is
    room for it. *)
Fixpoint place_entry (n : nat) (bs rec_length : Z) (entry : Z -> memory) (buffer : memory) (bytes_read : Z) : option memory :=
  match n with
  | O => None
  | S n =>
      if bs <=? bytes_read then None else
      if de_inode buffer bytes_read =? 0 then
        if rec_length <=? de_rec_len buffer bytes_read then
          let rec_len_original := de_rec_len buffer bytes_read in
          Some (store16 (blit buffer bytes_read rec_length (entry rec_length)) (bytes_read + 4) rec_len_original)
        else if de_rec_len buffer bytes_read =? 0 then None
        else place_entry n bs rec_length entry buffer (bytes_read + de_rec_len buffer bytes_read)
      else
        let real_len := u16 (8 + pad_len (de_name_len buffer bytes_read)) in
        let slack_space := u16 (de_rec_len buffer bytes_read - real_len) in
        if rec_length <=? slack_space then
          let buffer := store16 buffer (bytes_read + 4) real_len in
          Some (blit buffer (bytes_read + real_len) rec_length (entry slack_space))
        else place_entry n bs rec_length entry buffer (bytes_read + de_rec_len buffer bytes_read)
  end.

(** The loop over the blocks, which has no bound of its own: [None] is no end
    within [n] rounds.  The result: success, and the inode of the directory. *)
Fixpoint add_entry_blocks (n : nat) (rec_length name_length : Z) (entry : Z -> memory) (buffer parent_inode : memory) (index : Z) : io (option (bool * memory)) :=
  match n with
  | O => mret None
  | S n =>
      let bs := block_size m in
      block_addr ← ext2_block_id_to_addr parent_inode index bs;
      if block_addr =? 0 then
        new_block ← ext2_alloc_block bs;
        if new_block =? 0 then mret (Some (false, parent_inode)) else
        r ← ext2_set_block_id parent_inode index bs new_block;
        let '(ok, parent_inode) := (r : bool * memory) in
        if negb ok then mret (Some (false, parent_inode)) else
        _ ← dev_write O_RDWR (new_block * bs) bs zeros;
        let parent_inode := set_size_lo (u32 (size_lo parent_inode + bs)) parent_inode in
        _ ← dev_read O_RDWR (u32 (new_block * bs)) bs buffer;
        _ ← dev_write O_RDWR (u32 (new_block * bs)) bs (entry (u16 bs));
        mret (Some (true, parent_inode))
      else
        buffer ← dev_read O_RDWR block_addr bs buffer;
        match place_entry (Z.to_nat bs) bs rec_length entry buffer 0 with
        | Some buffer => _ ← dev_write O_RDWR block_addr bs buffer; mret (Some (true, parent_inode))
        | None => add_entry_blocks n rec_length name_length entry buffer parent_inode (index + 1)
        end
  end.

Definition ext2_add_inode_to_dir (fuel : nat) (parent_inode_num child_inode_num : Z) (name : list Z) : io (option bool) :=
  parent_inode ← ext2_read_inode O_RDWR m parent_inode_num;
  if Z.land (ext2_type_to_vfs (type_and_permissions parent_inode)) VFS_TYPE_DIRECTORY =? 0 then mret (Some false) else
  child_inode ← ext2_read_inode O_RDWR m child_inode_num;
  let name_length := u8 (Z.of_nat (length name)) in
  let rec_length := u8 (pad_len name_length + 8) in
  let child_type := ext2_type_to_vfs (type_and_permissions child_inode) in
  let entry rec_len := dir_entry child_inode_num rec_len name_length (dir_entry_file_type child_type) name in
  r ← add_entry_blocks fuel rec_length name_length entry zeros parent_inode 0;
  match (r : option (bool * memory)) with
  | None => mret None
  | Some (false, _) => mret (Some false)
  | Some (true, parent_inode) =>
      let parent_inode := set_last_modification_time (u32 now) parent_inode in
      if parent_inode_num =? child_inode_num then
        let parent_inode := set_hard_links_count (hard_links_count parent_inode + 1) parent_inode in
        _ ← ext2_write_inode m parent_inode_num parent_inode;
        mret (Some true)
      else
        let child_inode := set_hard_links_count (hard_links_count child_inode + 1) child_inode in
        _ ← ext2_write_inode m parent_inode_num parent_inode;
        _ ← ext2_write_inode m child_inode_num child_inode;
        mret (Some true)
  end.

Definition check_if_exists (x : ext2_node) (name : list Z) : io (bool * ext2_node) :=
  r ← ext2_finddir x name;
  let '(existing, x) := (r : option ext2_node * ext2_node) in
  mret (bool_decide (is_Some existing), x).

Definition populate_inode_metadata (inode parent : memory) (type : Z) : memory :=
  let timestamp := u32 now in
  let inode := set_type_and_permissions (Z.lor type 0x1ED) inode in
  let inode := set_group_id (group_id parent) (set_user_id (user_id parent) inode) in
  let inode := set_last_modification_time timestamp (set_last_access_time timestamp (set_creation_time timestamp inode)) in
  let inode := set_hard_links_count 0 (set_size_lo 0 inode) in
  let inode := blit inode 40 48 zeros in
  set_triply_indirect_block_pointer 0 (set_doubly_indirect_block_pointer 0 (set_singly_indirect_block_pointer 0 inode)).

(** The number of the new inode (0 on failure) and the directory. *)
Definition ext2_create_inode (fuel : nat) (x : ext2_node) (name : list Z) (type : Z) : io (option (Z * ext2_node)) :=
  if Z.land (x_type x) VFS_TYPE_DIRECTORY =? 0 then mret (Some (0, x)) else
  r ← check_if_exists x name;
  let '(exists_, x) := (r : bool * ext2_node) in
  if exists_ then mret (Some (0, x)) else
  ino ← ext2_alloc_inode (block_size m);
  if ino =? 0 then mret (Some (0, x)) else
  _ ← ext2_write_inode m ino (populate_inode_metadata zeros (x_cached x) type);
  added ← ext2_add_inode_to_dir fuel (x_ino x) ino name;
  match (added : option bool) with
  | None => mret None
  | Some false => mret (Some (0, x))
  | Some true => mret (Some (ino, set_x_inode None (set_x_dir None x)))
  end.

Definition dot : Z := 46.

Definition ext2_mkdir (fuel : nat) (x : ext2_node) (name : list Z) : io (option (Z * ext2_node)) :=
  r ← ext2_create_inode fuel x name EXT2_TYPE_DIRECTORY;
  match (r : option (Z * ext2_node)) with
  | None => mret None
  | Some (ino, x) =>
      if ino =? 0 then mret (Some (ENOTSUP, x)) else
      added ← ext2_add_inode_to_dir fuel ino ino [dot];
      match (added : option bool) with
      | None => mret None
      | Some false => mret (Some (ENOTSUP, x))
      | Some true =>
          added ← ext2_add_inode_to_dir fuel ino (x_ino x) [dot; dot];
          match (added : option bool) with
          | None => mret None
          | Some ok => mret (Some (if ok then 0 else ENOTSUP, x))
          end
      end
  end.

Definition ext2_mkfile (fuel : nat) (x : ext2_node) (name : list Z) : io (option (Z * ext2_node)) :=
  r ← ext2_create_inode fuel x name EXT2_TYPE_FILE;
  mret (option_map (fun '(ino, x) => (if ino =? 0 then ENOTSUP else 0, x)) r).

(** ** [readlink.c], [stat.c] and [ext2.c] *)

Fixpoint readlink_blocks (inode : memory) (len : Z) (n : nat) (i bytes_read : Z) (buf : memory) : io (Z * memory) :=
  match n with
  | O => mret (bytes_read, buf)
  | S n =>
      let bs := block_size m in
      let bytes_this_block := if i =? len / bs then u32 (len - bytes_read) else bs in
      if bytes_this_block =? 0 then mret (bytes_read, buf) else
      block_addr ← ext2_block_id_to_addr inode i bs;
      if block_addr =? 0 then mret (bytes_read, buf) else
      part ← dev_read O_RDONLY block_addr bytes_this_block (fun k => buf (bytes_read + k));
      readlink_blocks inode len n (i + 1) (bytes_read + bytes_this_block) (blit buf bytes_read bytes_this_block part)
  end.

(** The result and the buffer. *)
Definition ext2_readlink (x : ext2_node) (len : Z) (buf : memory) : io (Z * memory) :=
  inode ← ext2_read_inode O_RDONLY m (x_ino x);
  if negb (ext2_type_to_vfs (type_and_permissions inode) =? VFS_TYPE_SYMLINK) then mret (- EINVAL, buf) else
  let inode := set_last_access_time (u32 now) inode in
  _ ← ext2_write_inode m (x_ino x) inode;
  let len := if len <? x_length x then len else x_length x in
  if disk_sectors_count inode =? 0 then mret (i32 len, blit buf 0 len (fun k => inode (40 + k)))
  else readlink_blocks inode len (Z.to_nat (len / block_size m + 1)) 0 0 buf.

Record ext2_stat_t := mk_ext2_stat {
  st_ino : Z; st_mode : Z; st_nlink : Z; st_uid : Z; st_gid : Z; st_rdev : option Z; st_size : Z; st_blksize : Z;
  st_atim : Z; st_mtim : Z; st_ctim : Z }.

(** [None]: the cached inode is [NULL] and is dereferenced.  [st_rdev] is set for
    devices only; the fields that are always 0 are left out. *)
Definition ext2_stat (x : ext2_node) : option ext2_stat_t :=
  inode ← x_inode x;
  let vfs_type := ext2_type_to_vfs (type_and_permissions inode) in
  Some (mk_ext2_stat (x_ino x) (type_and_permissions inode) (hard_links_count inode) (user_id inode) (group_id inode)
          (if (vfs_type =? VFS_TYPE_BLOCK_DEVICE) || (vfs_type =? VFS_TYPE_CHARACTER_DEVICE) then Some (direct_block_pointers inode 0) else None)
          (u32 (x_length x)) (block_size m) (last_access_time inode) (last_modification_time inode) (creation_time inode)).
End Ext2.

(** [vfs_mount_ext2] on a device of [length] bytes: what it reads from the
    superblock, unless the device is not in the format.  The two numbers of groups
    are rounded up quotients, which the code computes in floating point without
    error: the operands have 32 bits. *)
Definition vfs_mount_ext2 (length : Z) : io (option (ext2_meta * ext2_node)) :=
  if length <? 2048 then mret None else
  sb ← dev_read O_RDONLY 1024 1024 zeros;
  if negb (signature sb =? 0xEF53) then mret None else
  let group_count_from_blocks := (total_blocks sb + blocks_per_group sb - 1) / blocks_per_group sb in
  let group_count_from_inodes := (total_inodes sb + sb_inodes_per_group sb - 1) / sb_inodes_per_group sb in
  if negb (group_count_from_blocks =? group_count_from_inodes) then mret None else
  mret (Some (mk_meta (sb_inodes_per_group sb) (u32 (Z.shiftl 1024 (sb_block_size sb)))
                (if 1 <=? major_version sb then sb_inode_size sb else 128),
              mk_ext2_node 2 VFS_TYPE_DIRECTORY 0 None None)).
