(* ===== verification/Ext2Alloc.v ===== *)
(** The block allocator of ext2.

    [geometry] names the places of a volume: which blocks hold the superblock, the
    group descriptors, the bitmaps and the inode tables; every other block holds
    data.  [fs_ok] is the invariant of a disk with that geometry: its tables say
    so, the free counts are the numbers of clear bits, and only data blocks are
    free.  The theorems: an allocation takes a free data block, if there is one,
    and changes nothing but its bit and the counts; a release is its inverse. *)

From S2P Require Import Prelude CMem Vfs Elf BlockIo Ext2.
From Stdlib Require Import ZArith Lia Bool FunctionalExtensionality.
From stdpp Require Import base tactics numbers list.
Open Scope Z_scope.

(** ** Buffers and stores *)

Lemma load16_frame d d' a : (forall x, a <= x < a + 2 -> d' x = d x) -> load16 d' a = load16 d a.
Proof. intros H. unfold load16. by rewrite !H by lia. Qed.

Lemma store16_frame d a w x : ~ (a <= x < a + 2) -> store16 d a w x = d x.
Proof. intros H. unfold store16. by rewrite !upd_ne by lia. Qed.

Lemma load16_store16 d a w : load16 (store16 d a w) a = u16 w.
Proof. unfold load16, store16. rewrite upd_ne by lia. rewrite !upd_eq. unfold u8, u16. dlia. Qed.

Lemma store16_bytes d a w : bytes d -> bytes (store16 d a w).
Proof. intros H i. unfold store16. upds; auto using u8_range. Qed.

Lemma load16_u16 d a : bytes d -> 0 <= load16 d a < 65536.
Proof. intros H. unfold load16. pose proof (H a). pose proof (H (a + 1)). lia. Qed.

Lemma upd_bytes (d : memory) a v : bytes d -> 0 <= v < 256 -> bytes d.[a <- v].
Proof. intros H Hv i. upds; auto. Qed.

(** What a read of [n] bytes at [off] leaves in [buf]. *)
Definition fetch (d : memory) (off n : Z) (buf : memory) : memory := blit buf 0 n (fun i => d (off + i)).

Lemma fetch_at d off n buf i : 0 <= i < n -> fetch d off n buf i = d (off + i).
Proof. intros H. unfold fetch. rewrite blit_in by lia. f_equal. lia. Qed.

Lemma fetch_load32 d off n buf k : 0 <= k -> k + 4 <= n -> load32 (fetch d off n buf) k = load32 d (off + k).
Proof. intros. unfold load32. rewrite !fetch_at by lia. by rewrite !Z.add_assoc. Qed.

Lemma fetch_load16 d off n buf k : 0 <= k -> k + 2 <= n -> load16 (fetch d off n buf) k = load16 d (off + k).
Proof. intros. unfold load16. rewrite !fetch_at by lia. by rewrite !Z.add_assoc. Qed.

(** Writing back a buffer with one field changed changes the field. *)
Lemma write_back_upd d off n buf k v : 0 <= k < n -> blit d off n ((fetch d off n buf).[k <- v]) = d.[off + k <- v].
Proof.
  intros Hk. apply functional_extensionality. intros a. destruct (decide (off <= a < off + n)) as [Ha|Ha].
  - rewrite blit_in by lia. rewrite !upd_cases. repeat case_decide; try lia. rewrite fetch_at by lia. f_equal. lia.
  - rewrite blit_out, upd_ne by lia. done.
Qed.

Lemma blit_upd_in d off n src k v : 0 <= k < n -> blit d off n (src.[k <- v]) = (blit d off n src).[off + k <- v].
Proof.
  intros Hk. apply functional_extensionality. intros a. destruct (decide (off <= a < off + n)) as [Ha|Ha].
  - rewrite blit_in by lia. rewrite !upd_cases. repeat case_decide; try lia. by rewrite blit_in by lia.
  - rewrite blit_out, upd_ne, blit_out by lia. done.
Qed.

Lemma blit_fetch d off n buf : blit d off n (fetch d off n buf) = d.
Proof.
  apply functional_extensionality. intros a. destruct (decide (off <= a < off + n)) as [Ha|Ha]; [|by rewrite blit_out].
  rewrite blit_in, fetch_at by lia. f_equal. lia.
Qed.

Lemma write_back_store32 d off n buf k v : 0 <= k -> k + 4 <= n -> blit d off n (store32 (fetch d off n buf) k v) = store32 d (off + k) v.
Proof. intros. unfold store32. rewrite !blit_upd_in, blit_fetch by lia. by rewrite !Z.add_assoc. Qed.

Lemma write_back_store16 d off n buf k v : 0 <= k -> k + 2 <= n -> blit d off n (store16 (fetch d off n buf) k v) = store16 d (off + k) v.
Proof. intros. unfold store16. rewrite !blit_upd_in, blit_fetch by lia. by rewrite !Z.add_assoc. Qed.

Lemma fetch_ext d d' off n buf : (forall i, 0 <= i < n -> d' (off + i) = d (off + i)) -> fetch d' off n buf = fetch d off n buf.
Proof.
  intros H. apply functional_extensionality. intros i. unfold fetch. destruct (decide (0 <= i < n)).
  - rewrite !blit_in by lia. apply H. lia.
  - by rewrite !blit_out by lia.
Qed.

(** Transfers within the device. *)
Section Transfers.
Context {A : Type} (len : Z) (Hlen : len <= 2 ^ 32).

Lemma run_read_in mode off n buf d (f : memory -> io A) : can_read mode = true -> 0 <= off -> 0 < n -> off + n <= len ->
  run len (dev_read mode off n buf ≫= f) d = run len (f (fetch d off n buf)) d.
Proof. intros Hm Ho Hn Hl. rewrite run_read by done. rewrite u32_small by lia. by rewrite clip_inside by lia. Qed.

Lemma run_write_in mode off n buf d (f : unit -> io A) : can_write mode = true -> 0 <= off -> 0 < n -> off + n <= len ->
  run len (dev_write mode off n buf ≫= f) d = run len (f tt) (blit d off n buf).
Proof. intros Hm Ho Hn Hl. rewrite run_write by done. rewrite u32_small by lia. by rewrite clip_inside by lia. Qed.
End Transfers.

Lemma run_last_write len mode off n buf d : len <= 2 ^ 32 -> can_write mode = true -> 0 <= off -> 0 < n -> off + n <= len ->
  run len (dev_write mode off n buf) d = (tt, blit d off n buf).
Proof. intros Hl Hm Ho Hn Ho2. unfold dev_write. rewrite Hm. cbn. rewrite u32_small by lia. by rewrite clip_inside by lia. Qed.

(** ** The geometry of a volume *)

Inductive zone := ZSuper | ZDesc | ZBitmap (g : Z) | ZInodeMap (g : Z) | ZTable (g : Z) | ZData.

#[export] Instance zone_eq_dec : EqDecision zone.
Proof. solve_decision. Defined.

Record geometry := mk_geometry {
  g_len : Z; g_bs : Z; g_blocks : Z; g_bpg : Z; g_inodes : Z; g_ipg : Z; g_isize : Z;
  g_bm : Z -> Z; g_im : Z -> Z; g_it : Z -> Z; g_zone : Z -> zone }.

Definition g_groups (G : geometry) : Z := (g_blocks G + g_bpg G - 1) / g_bpg G.
Definition desc (G : geometry) (g : Z) : Z := gdt_start (g_bs G) + g * sizeof_gdt.
Definition inode_addr (G : geometry) (n : Z) : Z := g_it G ((n - 1) / g_ipg G) * g_bs G + (n - 1) mod g_ipg G * g_isize G.

Record geometry_ok (G : geometry) : Prop := {
  go_bs : 1024 <= g_bs G <= 32768 /\ g_bs G mod 1024 = 0;
  go_len : g_blocks G * g_bs G <= g_len G < 2 ^ 32;
  go_blocks : 0 < g_blocks G;
  go_bpg : 0 < g_bpg G <= 8 * g_bs G /\ g_bpg G < 65536;
  go_ipg : 0 < g_ipg G;
  go_numbers : g_inodes G < 2 ^ 32;
  go_isize : 128 <= g_isize G /\ g_bs G mod g_isize G = 0;
  go_boot : g_zone G 0 = ZSuper;
  go_super : g_zone G (1024 / g_bs G) = ZSuper /\ 1024 / g_bs G < g_blocks G;
  go_desc : forall g, 0 <= g < g_groups G -> g_zone G (desc G g / g_bs G) = ZDesc /\ desc G g / g_bs G < g_blocks G;
  go_bitmap : forall g, 0 <= g < g_groups G -> g_zone G (g_bm G g) = ZBitmap g /\ 0 <= g_bm G g < g_blocks G;
  go_inodes : forall n, 0 < n <= g_inodes G -> 0 <= (n - 1) / g_ipg G < g_groups G /\
    g_zone G (inode_addr G n / g_bs G) = ZTable ((n - 1) / g_ipg G) /\ 0 <= inode_addr G n / g_bs G < g_blocks G }.

(** The bit of block [b]. *)
Definition bit_addr (G : geometry) (b : Z) : Z := g_bm G (b / g_bpg G) * g_bs G + b mod g_bpg G / 8.
Definition used (G : geometry) (d : memory) (b : Z) : bool := Z.testbit (d (bit_addr G b)) (b mod g_bpg G mod 8).
Definition free (G : geometry) (d : memory) (b : Z) : bool := negb (used G d b).

(** The number of blocks of group [g]. *)
Definition group_size (G : geometry) (g : Z) : Z := Z.min (g_bpg G) (g_blocks G - g * g_bpg G).

Record fs_ok (G : geometry) (d : memory) : Prop := {
  fo_bytes : bytes d;
  fo_blocks : load32 d (1024 + 4) = g_blocks G;
  fo_bpg : load32 d (1024 + 32) = g_bpg G;
  fo_ipg : load32 d (1024 + 40) = g_ipg G;
  fo_desc : forall g, 0 <= g < g_groups G -> load32 d (desc G g) = g_bm G g /\ load32 d (desc G g + 8) = g_it G g;
  fo_free : load32 d (1024 + 12) = count_below (Z.to_nat (g_blocks G)) (free G d);
  fo_group : forall g, 0 <= g < g_groups G ->
    load16 d (desc G g + 12) = count_below (Z.to_nat (group_size G g)) (fun i => free G d (g * g_bpg G + i));
  fo_meta : forall b, 0 <= b < g_blocks G -> g_zone G b <> ZData -> used G d b = true }.

(** The bookkeeping of blocks. *)
Definition book (G : geometry) (a : Z) : Prop :=
  match g_zone G (a / g_bs G) with ZSuper | ZDesc | ZBitmap _ => True | _ => False end.

(** From [d] to [d'] the bit of [b] becomes [v], and the counts follow. *)
Record marked (G : geometry) (d : memory) (b : Z) (v : bool) (d' : memory) : Prop := {
  mk_ok : fs_ok G d';
  mk_used : forall b', 0 <= b' < g_blocks G -> used G d' b' = if decide (b' = b) then v else used G d b';
  mk_frame : forall a, 0 <= a -> ~ book G a -> d' a = d a }.

Section Geometry.
Context (G : geometry) (HG : geometry_ok G).

Abbreviation bs := (g_bs G).
Abbreviation bpg := (g_bpg G).

Lemma bs_pos : 1024 <= bs.
Proof. apply HG. Qed.

Lemma bs_mult : exists k, bs = 1024 * k /\ 1 <= k <= 32.
Proof. destruct (go_bs _ HG) as [H1 H2]. exists (bs / 1024). dlia. Qed.

Lemma len_small : g_len G <= 2 ^ 32.
Proof. pose proof (go_len _ HG). lia. Qed.

Lemma bpg_pos : 0 < bpg.
Proof. apply HG. Qed.

(** An address within a block. *)
Lemma in_block b k : 0 <= k < bs -> (b * bs + k) / bs = b.
Proof. intros. pose proof bs_pos. rewrite Z.div_add_l by lia. rewrite Z.div_small by lia. lia. Qed.

Lemma block_inside b k : 0 <= b < g_blocks G -> 0 <= k <= bs -> 0 <= b * bs + k <= g_len G.
Proof. intros. pose proof bs_pos. pose proof (go_len _ HG). nia. Qed.

Lemma block_end b : 0 <= b < g_blocks G -> b * bs + bs <= g_len G.
Proof. intros H. pose proof bs_pos. apply (block_inside b bs H). lia. Qed.

Lemma sb_block k : 0 <= k < 1024 -> (1024 + k) / bs = 1024 / bs.
Proof.
  intros Hk. destruct bs_mult as (m & Hm & Hm1 & Hm2). rewrite Hm.
  destruct (decide (m = 1)) as [->|Hm3]; [change (1024 * 1) with 1024; dlia|].
  rewrite !Z.div_small by lia. done.
Qed.

Lemma sb_zone k : 0 <= k < 1024 -> g_zone G ((1024 + k) / bs) = ZSuper.
Proof. intros. rewrite sb_block by done. apply HG. Qed.

Lemma sb_inside : 1024 + 90 <= g_len G.
Proof.
  destruct (go_super _ HG) as [_ H]. pose proof (sb_block 1023 ltac:(lia)) as E. pose proof bs_pos.
  pose proof (go_len _ HG). change (1024 + 1023) with 2047 in E.
  pose proof (Z.mul_succ_div_gt 2047 bs ltac:(lia)). nia.
Qed.

Lemma gdt_start_eq : gdt_start bs = (if bs =? 1024 then 2 else 1) * bs.
Proof. unfold gdt_start. destruct bs_mult as (m & Hm & Hm2). apply u32_small. destruct (bs =? 1024); lia. Qed.

Lemma desc_block g k : 0 <= g -> 0 <= k < 32 -> (desc G g + k) / bs = desc G g / bs.
Proof.
  intros Hg Hk. unfold desc, sizeof_gdt. rewrite gdt_start_eq. destruct bs_mult as (m & Hm & Hm2).
  set (q := if bs =? 1024 then 2 else 1). rewrite <- Z.add_assoc. rewrite !Z.div_add_l by lia. f_equal. rewrite Hm.
  replace (1024 * m) with (32 * (32 * m)) by lia. rewrite <- !Z.div_div by lia.
  f_equal. dlia.
Qed.

Lemma desc_zone g k : 0 <= g < g_groups G -> 0 <= k < 32 -> g_zone G ((desc G g + k) / bs) = ZDesc.
Proof. intros Hg Hk. rewrite desc_block by lia. by apply HG. Qed.

Lemma desc_inside g : 0 <= g < g_groups G -> 0 <= desc G g /\ desc G g + 32 <= g_len G.
Proof.
  intros Hg. destruct (go_desc _ HG g Hg) as [_ H]. pose proof (desc_block g 31 ltac:(lia) ltac:(lia)) as E.
  pose proof bs_pos. pose proof (go_len _ HG). split.
  - unfold desc, sizeof_gdt. rewrite gdt_start_eq. destruct (bs =? 1024); lia.
  - rewrite <- E in H. pose proof (Z.mul_succ_div_gt (desc G g + 31) bs ltac:(lia)). nia.
Qed.

Lemma group_of b : 0 <= b < g_blocks G -> 0 <= b / bpg < g_groups G.
Proof.
  intros Hb. pose proof bpg_pos. unfold g_groups. split; [apply Z.div_pos; lia|].
  apply Z.div_lt_upper_bound; [lia|]. pose proof (Z.mul_succ_div_gt (g_blocks G + bpg - 1) bpg ltac:(lia)). lia.
Qed.

Lemma index_of b : 0 <= b mod bpg < bpg.
Proof. apply Z.mod_pos_bound, bpg_pos. Qed.

Lemma index_in_group b : 0 <= b < g_blocks G -> 0 <= b mod bpg < group_size G (b / bpg).
Proof. intros Hb. pose proof (index_of b). pose proof bpg_pos. unfold group_size. pose proof (Z_div_mod_eq_full b bpg). lia. Qed.

Lemma in_group g i : 0 <= g -> 0 <= i < group_size G g -> 0 <= g * bpg + i < g_blocks G /\ (g * bpg + i) / bpg = g /\ (g * bpg + i) mod bpg = i.
Proof.
  intros Hg Hi. unfold group_size in Hi. pose proof bpg_pos. split; [nia|]. split.
  - rewrite Z.div_add_l, Z.div_small by lia. lia.
  - rewrite Z.add_comm, Z.mod_add by lia. apply Z.mod_small. lia.
Qed.

Lemma bit_block b : bit_addr G b / bs = g_bm G (b / bpg).
Proof. unfold bit_addr. apply in_block. pose proof (index_of b). pose proof (go_bpg _ HG). dlia. Qed.

Lemma bit_zone b : 0 <= b < g_blocks G -> g_zone G (bit_addr G b / bs) = ZBitmap (b / bpg).
Proof. intros Hb. rewrite bit_block. apply HG. by apply group_of. Qed.

Lemma bit_addr_inj b b' : 0 <= b < g_blocks G -> 0 <= b' < g_blocks G ->
  bit_addr G b = bit_addr G b' -> b mod bpg mod 8 = b' mod bpg mod 8 -> b = b'.
Proof.
  intros Hb Hb' E M. assert (Eg : b / bpg = b' / bpg).
  { pose proof (bit_zone b Hb) as Z1. rewrite E, (bit_zone b' Hb') in Z1. by injection Z1. }
  unfold bit_addr in E. rewrite Eg in E. pose proof (Z_div_mod_eq_full b bpg). pose proof (Z_div_mod_eq_full b' bpg).
  rewrite Eg in *. assert (b mod bpg / 8 = b' mod bpg / 8) by lia. dlia.
Qed.

(** ** One bit *)

(** [w] is the byte of [b] with its bit set to [v]. *)
Definition new_byte (d : memory) (b : Z) (v : bool) (w : Z) : Prop :=
  0 <= w < 256 /\ forall j, 0 <= j < 8 -> Z.testbit w j = if decide (j = b mod bpg mod 8) then v else Z.testbit (d (bit_addr G b)) j.

Definition recount (d : memory) (b w k : Z) : memory :=
  store32 (store16 (d.[bit_addr G b <- w]) (desc G (b / bpg) + 12) (load16 d (desc G (b / bpg) + 12) + k)) (1024 + 12) (load32 d (1024 + 12) + k).

Lemma recount_frame d b w k x : 
  x <> bit_addr G b -> ~ (desc G (b / bpg) + 12 <= x < desc G (b / bpg) + 14) -> ~ (1024 + 12 <= x < 1024 + 16) ->
  recount d b w k x = d x.
Proof. intros. unfold recount. rewrite store32_frame, store16_frame, upd_ne by lia. done. Qed.

Lemma recount_zone d b w k x : 0 <= b < g_blocks G -> 
  g_zone G (x / bs) <> ZSuper -> g_zone G (x / bs) <> ZDesc -> g_zone G (x / bs) <> ZBitmap (b / bpg) -> recount d b w k x = d x.
Proof.
  intros Hb H1 H2 H3. pose proof (group_of b Hb). apply recount_frame.
  - intros ->. by rewrite bit_zone in H3.
  - intros Hx. apply H2. replace x with (desc G (b / bpg) + (x - desc G (b / bpg))) by lia. apply desc_zone; lia.
  - intros Hx. apply H1. replace x with (1024 + (x - 1024)) by lia. apply sb_zone. lia.
Qed.

Lemma used_recount d b w k v b' : 0 <= b < g_blocks G -> 0 <= b' < g_blocks G -> new_byte d b v w ->
  used G (recount d b w k) b' = if decide (b' = b) then v else used G d b'.
Proof.
  intros Hb Hb' [Hw Hn]. pose proof (group_of b Hb). unfold used.
  assert (E : recount d b w k (bit_addr G b') = d.[bit_addr G b <- w] (bit_addr G b')).
  { pose proof (bit_zone b' Hb') as Z'. unfold recount. rewrite store32_frame, store16_frame; [done| |].
    - intros Hx. pose proof (desc_zone (b / bpg) (bit_addr G b' - desc G (b / bpg)) ltac:(lia) ltac:(lia)) as ZD.
      replace (desc G (b / bpg) + (bit_addr G b' - desc G (b / bpg))) with (bit_addr G b') in ZD by lia. congruence.
    - intros Hx. pose proof (sb_zone (bit_addr G b' - 1024) ltac:(lia)) as ZS.
      replace (1024 + (bit_addr G b' - 1024)) with (bit_addr G b') in ZS by lia. congruence. }
  rewrite E, upd_cases. case_decide as D1.
  - rewrite Hn by dlia. rewrite <- D1. repeat case_decide; try done; [|congruence].
    exfalso. match goal with H : _ <> _ |- _ => apply H end. by apply bit_addr_inj.
  - case_decide; [congruence|done].
Qed.

Lemma recount_load32 d b w k x : 0 <= b < g_blocks G ->
  (exists o, x = 1024 + o /\ 0 <= o <= 86 /\ (o + 4 <= 12 \/ 16 <= o)) \/ (exists g o, x = desc G g + o /\ 0 <= g < g_groups G /\ 0 <= o <= 8) ->
  load32 (recount d b w k) x = load32 d x.
Proof.
  intros Hb Hx. pose proof (group_of b Hb) as Hg. apply load32_frame. intros y Hy. destruct Hx as [(o & -> & Ho & Ho2)|(g & o & -> & Hg2 & Ho)].
  - assert (Zy : g_zone G (y / bs) = ZSuper) by (replace y with (1024 + (y - 1024)) by lia; apply sb_zone; lia).
    apply recount_frame; [intros ->; rewrite bit_zone in Zy; [done|done]| |lia].
    intros H. pose proof (desc_zone (b / bpg) (y - desc G (b / bpg)) ltac:(lia) ltac:(lia)) as ZD.
    replace (desc G (b / bpg) + (y - desc G (b / bpg))) with y in ZD by lia. congruence.
  - assert (Zy : g_zone G (y / bs) = ZDesc) by (replace y with (desc G g + (y - desc G g)) by lia; apply desc_zone; lia).
    apply recount_frame; [intros ->; rewrite bit_zone in Zy; done| |].
    + unfold desc, sizeof_gdt in *. lia.
    + intros H. pose proof (sb_zone (y - 1024) ltac:(lia)) as ZS. replace (1024 + (y - 1024)) with y in ZS by lia. congruence.
Qed.

(** ** The counts *)

Lemma count_flip n p p' b v : 0 <= b < Z.of_nat n -> p b = v ->
  (forall i, 0 <= i < Z.of_nat n -> p' i = if decide (i = b) then negb v else p i) ->
  count_below n p' = count_below n p + (if v then -1 else 1).
Proof.
  intros Hb Hp Hp'. destruct v.
  - rewrite (count_below_add n p' p b 1); [lia|lia|lia|lia| |].
    + intros i Hi. replace i with b by lia. rewrite Hp', decide_True by (done || lia). done.
    + intros i Hi Hi2. rewrite Hp' by lia. rewrite decide_False by lia. done.
  - apply (count_below_add n p p' b 1); [lia|lia|lia| |].
    + intros i Hi. replace i with b by lia. rewrite Hp', decide_True by (done || lia). done.
    + intros i Hi Hi2. rewrite Hp' by lia. rewrite decide_False by lia. done.
Qed.

Definition step_of (v : bool) : Z := if v then -1 else 1.

Section Mark.
Context (d : memory) (b w : Z) (v : bool).
Context (Hfs : fs_ok G d) (Hb : 0 <= b < g_blocks G) (Hw : new_byte d b v w) (Hv : used G d b = negb v) (Hz : g_zone G b = ZData).

Definition marked_disk : memory := recount d b w (step_of v).

Lemma free_mark b' : 0 <= b' < g_blocks G -> free G marked_disk b' = if decide (b' = b) then negb v else free G d b'.
Proof. intros Hb'. unfold free, marked_disk. rewrite (used_recount _ _ _ _ v) by done. by case_decide. Qed.

Lemma total_mark : count_below (Z.to_nat (g_blocks G)) (free G marked_disk) = count_below (Z.to_nat (g_blocks G)) (free G d) + step_of v.
Proof.
  apply (count_flip _ _ _ b v); [lia| |].
  - unfold free. rewrite Hv. by destruct v.
  - intros i Hi. apply free_mark. lia.
Qed.

Lemma group_mark g : 0 <= g < g_groups G ->
  count_below (Z.to_nat (group_size G g)) (fun i => free G marked_disk (g * bpg + i)) =
  count_below (Z.to_nat (group_size G g)) (fun i => free G d (g * bpg + i)) + (if decide (g = b / bpg) then step_of v else 0).
Proof.
  intros Hg. pose proof bpg_pos. pose proof (Z_div_mod_eq_full b bpg) as Eb. pose proof (index_in_group b Hb) as Hi. case_decide as D.
  - subst g. apply (count_flip _ _ _ (b mod bpg) v); [lia| |].
    + replace (b / bpg * bpg + b mod bpg) with b by lia. unfold free. rewrite Hv. by destruct v.
    + intros i Hi2. destruct (in_group (b / bpg) i ltac:(lia) ltac:(lia)) as (I1 & I2 & I3). rewrite free_mark by done.
      assert (b / bpg * bpg + i = b <-> i = b mod bpg) by lia. repeat case_decide; tauto || done.
  - rewrite Z.add_0_r. apply count_below_ext. intros i Hi2. destruct (in_group g i ltac:(lia) ltac:(lia)) as (I1 & I2 & I3).
    rewrite free_mark by done. rewrite decide_False; [done|]. intros E. apply D. by rewrite <- I2, E.
Qed.

Lemma mark_bytes : bytes marked_disk.
Proof. apply store32_bytes, store16_bytes, upd_bytes; [apply Hfs|apply Hw]. Qed.

Lemma total_bound : 0 <= load32 d (1024 + 12) + step_of v <= g_blocks G.
Proof. rewrite (fo_free _ _ Hfs), <- total_mark. pose proof (count_below_bound (Z.to_nat (g_blocks G)) (free G marked_disk)). lia. Qed.

Lemma group_bound : 0 <= load16 d (desc G (b / bpg) + 12) + step_of v <= group_size G (b / bpg).
Proof.
  pose proof (group_of b Hb) as Hg. rewrite (fo_group _ _ Hfs) by done.
  pose proof (group_mark (b / bpg) Hg) as E. rewrite decide_True in E by done. rewrite <- E.
  pose proof (index_in_group b Hb). pose proof (count_below_bound (Z.to_nat (group_size G (b / bpg))) (fun i => free G marked_disk (b / bpg * bpg + i))). lia.
Qed.

Lemma group_count_mark g : 0 <= g < g_groups G ->
  load16 marked_disk (desc G g + 12) = load16 d (desc G g + 12) + (if decide (g = b / bpg) then step_of v else 0).
Proof.
  intros Hg. pose proof (group_of b Hb) as Hgb. unfold marked_disk, recount.
  assert (Hsb : forall y, desc G g <= y < desc G g + 32 -> ~ (1024 <= y < 1024 + 90)).
  { intros y Hy H. pose proof (sb_zone (y - 1024) ltac:(lia)) as ZS. pose proof (desc_zone g (y - desc G g) Hg ltac:(lia)) as ZD.
    replace (1024 + (y - 1024)) with y in ZS by lia. replace (desc G g + (y - desc G g)) with y in ZD by lia. congruence. }
  rewrite (load16_frame (store16 _ _ _)) by (intros y Hy; apply store32_frame; specialize (Hsb y); lia).
  case_decide as D.
  - subst g. rewrite load16_store16. apply u16_small. pose proof group_bound. pose proof (go_bpg _ HG). unfold group_size in *. lia.
  - rewrite Z.add_0_r. apply load16_frame. intros y Hy. rewrite store16_frame by (unfold desc, sizeof_gdt in *; lia). apply upd_ne.
    intros ->. pose proof (desc_zone g (bit_addr G b - desc G g) Hg ltac:(lia)) as ZD.
    replace (desc G g + (bit_addr G b - desc G g)) with (bit_addr G b) in ZD by lia. by rewrite bit_zone in ZD.
Qed.

Lemma mark_bit_spec : marked G d b v marked_disk.
Proof.
  pose proof (group_of b Hb) as Hg. split.
  - split.
    + exact mark_bytes.
    + unfold marked_disk. rewrite recount_load32; [apply Hfs|done|left; exists 4; lia].
    + unfold marked_disk. rewrite recount_load32; [apply Hfs|done|left; exists 32; lia].
    + unfold marked_disk. rewrite recount_load32; [apply Hfs|done|left; exists 40; lia].
    + intros g Hg'. unfold marked_disk. rewrite !recount_load32; [by apply Hfs|done|right; exists g, 8; lia|done|right; exists g, 0; lia].
    + rewrite total_mark, <- (fo_free _ _ Hfs). unfold marked_disk, recount. rewrite load32_store32. apply u32_small.
      pose proof total_bound. pose proof (go_len _ HG). pose proof bs_pos. nia.
    + intros g Hg'. rewrite group_count_mark, group_mark, (fo_group _ _ Hfs) by done. done.
    + intros b' Hb' Hz'. unfold marked_disk. rewrite (used_recount _ _ _ _ v) by done. rewrite decide_False by congruence. by apply Hfs.
  - intros b' Hb'. unfold marked_disk. by apply used_recount.
  - intros a Ha Hbook. unfold book in Hbook. apply recount_zone; [done| | |]; intros E; rewrite E in Hbook; tauto.
Qed.
End Mark.
End Geometry.

(** ** Allocation and release *)

Lemma u8_bits (z n : Z) : 0 <= n < 8 -> Z.testbit (u8 z) n = Z.testbit z n.
Proof. intros H. unfold u8. apply Z.mod_pow2_bits_low. lia. Qed.

Lemma bit_clear_testbit m i : bit_clear m i = negb (Z.testbit (m (i / 8)) (i mod 8)).
Proof.
  unfold bit_clear. rewrite Z.shiftl_1_l, <- land_pow2_nonzero by dlia. by rewrite negb_involutive.
Qed.

Section Alloc.
Context (G : geometry) (HG : geometry_ok G).

Lemma new_byte_set d b : new_byte G d b true (u8 (Z.lor (d (bit_addr G b)) (Z.shiftl 1 (b mod g_bpg G mod 8)))).
Proof.
  split; [apply u8_range|]. intros j Hj. rewrite u8_bits by done. rewrite Z.lor_spec, Z.shiftl_1_l.
  assert (0 <= b mod g_bpg G mod 8) by dlia. case_decide as D.
  - subst j. by rewrite Z.pow2_bits_true, orb_true_r.
  - rewrite Z.pow2_bits_false by lia. apply orb_false_r.
Qed.

Lemma new_byte_clear d b : new_byte G d b false (u8 (Z.land (d (bit_addr G b)) (Z.lnot (Z.shiftl 1 (b mod g_bpg G mod 8))))).
Proof.
  split; [apply u8_range|]. intros j Hj. rewrite u8_bits by done. rewrite Z.land_spec, Z.lnot_spec, Z.shiftl_1_l by lia.
  assert (0 <= b mod g_bpg G mod 8) by dlia. case_decide as D.
  - subst j. by rewrite Z.pow2_bits_true, andb_false_r.
  - rewrite Z.pow2_bits_false by lia. apply andb_true_r.
Qed.

Lemma count_below_zero n p : count_below n p = 0 -> forall i, 0 <= i < Z.of_nat n -> p i = false.
Proof.
  induction n as [|n IH]; cbn [count_below]; intros E i Hi; [lia|]. pose proof (count_below_bound n p).
  destruct (decide (i = Z.of_nat n)) as [->|]; [destruct (p (Z.of_nat n)); [lia|done]|]. apply IH; [destruct (p (Z.of_nat n)); lia|lia].
Qed.

(** The outcome of an allocation. *)
Definition alloc_result (d : memory) (r : Z) (d' : memory) : Prop :=
  (r = 0 /\ d' = d /\ forall b, 0 <= b < g_blocks G -> used G d b = true) \/
  (0 < r < g_blocks G /\ g_zone G r = ZData /\ used G d r = false /\ marked G d r true d').

Lemma bit_in_bitmap d g i buf : 0 <= g -> 0 <= i < group_size G g ->
  bit_clear (fetch d (g_bm G g * g_bs G) (g_bs G) buf) i = free G d (g * g_bpg G + i).
Proof.
  intros Hg Hi. destruct (in_group G HG g i Hg Hi) as (I1 & I2 & I3). pose proof (go_bpg _ HG). unfold group_size in Hi.
  rewrite bit_clear_testbit, fetch_at by dlia. unfold free, used, bit_addr. by rewrite I2, I3.
Qed.

Lemma blocks_in_group g : 0 <= g < g_groups G ->
  (if g =? g_groups G - 1 then u32 (g_blocks G - g * g_bpg G) else g_bpg G) = group_size G g.
Proof.
  intros Hg. pose proof (bpg_pos _ HG) as HB. pose proof (go_len _ HG). pose proof (bs_pos _ HG). pose proof (go_blocks _ HG).
  assert (g_blocks G < 2 ^ 22) by nia. unfold group_size, g_groups in *.
  pose proof (Z.mul_div_le (g_blocks G + g_bpg G - 1) (g_bpg G) HB) as L.
  pose proof (Z.mul_succ_div_gt (g_blocks G + g_bpg G - 1) (g_bpg G) HB) as U.
  set (q := (g_blocks G + g_bpg G - 1) / g_bpg G) in *. clearbody q.
  destruct (Z.eqb_spec g (q - 1)) as [->|N]; [rewrite u32_small by nia; nia|].
  assert (g * g_bpg G <= (q - 2) * g_bpg G) by (apply Z.mul_le_mono_nonneg_r; lia). lia.
Qed.

(** The addresses of the three stores of an update. *)
Lemma desc_not_bit g b k : 0 <= g < g_groups G -> 0 <= b < g_blocks G -> 0 <= k < 32 -> desc G g + k <> bit_addr G b.
Proof. intros Hg Hb Hk E. pose proof (desc_zone G HG g k Hg Hk) as Z1. rewrite E, (bit_zone G HG) in Z1 by done. done. Qed.

Lemma sb_not_bit b k : 0 <= b < g_blocks G -> 0 <= k < 90 -> 1024 + k <> bit_addr G b.
Proof. intros Hb Hk E. pose proof (sb_zone G HG k ltac:(lia)) as Z1. rewrite E, (bit_zone G HG) in Z1 by done. done. Qed.

Lemma sb_not_desc g k j : 0 <= g < g_groups G -> 0 <= k < 90 -> 0 <= j < 32 -> 1024 + k <> desc G g + j.
Proof. intros Hg Hk Hj E. pose proof (sb_zone G HG k ltac:(lia)) as Z1. rewrite E, (desc_zone G HG) in Z1 by done. done. Qed.

(** Writing back the bitmap, the descriptor and the superblock, each read before
    and with one field changed. *)
Lemma update_writes d b w k sb gdt map : 0 <= b < g_blocks G ->
  let g := b / g_bpg G in
  let off := g_bm G g * g_bs G in
  let gd := fetch d (desc G g) 32 gdt in
  let s := fetch d 1024 90 sb in
  let d1 := blit d off (g_bs G) ((fetch d off (g_bs G) map).[b mod g_bpg G / 8 <- w]) in
  let d2 := blit d1 (desc G g) 32 (set_unalloc_blocks_count (unalloc_blocks_count gd + k) gd) in
  blit d2 1024 90 (set_total_unalloc_blocks (total_unalloc_blocks s + k) s) = recount G d b w k.
Proof.
  intros Hb g off gd s d1 d2. pose proof (group_of G HG b Hb) as Hg. pose proof (index_of G HG b). pose proof (go_bpg _ HG).
  unfold recount, set_unalloc_blocks_count, set_total_unalloc_blocks, unalloc_blocks_count, total_unalloc_blocks, sizeof_gdt in *.
  assert (E1 : d1 = d.[bit_addr G b <- w]) by (unfold d1; rewrite write_back_upd by dlia; done).
  assert (Eg : gd = fetch d1 (desc G g) 32 gdt).
  { symmetry. apply fetch_ext. intros i Hi. rewrite E1. apply upd_ne. by apply desc_not_bit. }
  assert (E2 : d2 = store16 d1 (desc G g + 12) (load16 d (desc G g + 12) + k)).
  { unfold d2. replace (load16 gd 12) with (load16 d (desc G g + 12)) by (symmetry; apply fetch_load16; lia).
    rewrite Eg, write_back_store16 by lia. done. }
  assert (Es : s = fetch d2 1024 90 sb).
  { symmetry. apply fetch_ext. intros i Hi. rewrite E2, store16_frame, E1, upd_ne; [done|by apply sb_not_bit|].
    intros Hx. apply (sb_not_desc g i (1024 + i - desc G g)); lia. }
  replace (load32 s 12) with (load32 d (1024 + 12)) by (symmetry; apply fetch_load32; lia).
  rewrite Es, write_back_store32 by lia. by rewrite E2, E1.
Qed.

Lemma total_groups d sb : fs_ok G d ->
  let s := fetch d 1024 90 sb in u32 (total_blocks s + blocks_per_group s - 1) / blocks_per_group s = g_groups G.
Proof.
  intros Hfs s. unfold total_blocks, blocks_per_group, s. rewrite !fetch_load32 by lia. rewrite (fo_blocks _ _ Hfs), (fo_bpg _ _ Hfs).
  pose proof (go_len _ HG). pose proof (bs_pos _ HG). pose proof (go_bpg _ HG). pose proof (go_blocks _ HG). rewrite u32_small by nia. done.
Qed.

(** A block in group [g] that is free, and the updates that take it. *)
Lemma take_block d g i sb gdt map : fs_ok G d -> 0 <= g < g_groups G -> 0 <= i < group_size G g ->
  free G d (g * g_bpg G + i) = true ->
  let b := g * g_bpg G + i in
  let off := g_bm G g * g_bs G in
  let gd := fetch d (desc G g) 32 gdt in
  let s := fetch d 1024 90 sb in
  let d1 := blit d off (g_bs G) (set_bit_in (fetch d off (g_bs G) map) i) in
  let d2 := blit d1 (desc G g) 32 (set_unalloc_blocks_count (unalloc_blocks_count gd - 1) gd) in
  alloc_result d b (blit d2 1024 90 (set_total_unalloc_blocks (total_unalloc_blocks s - 1) s)).
Proof.
  intros Hfs Hg Hi Hfree b off gd s d1 d2. destruct (in_group G HG g i ltac:(lia) Hi) as (I1 & I2 & I3).
  fold b in Hfree, I1, I2, I3. apply negb_true_iff in Hfree. assert (Hz : g_zone G b = ZData).
  { destruct (decide (g_zone G b = ZData)) as [|N]; [done|]. rewrite (fo_meta _ _ Hfs) in Hfree by done. done. }
  right. split_and!; [|lia|done|done|].
  { assert (b <> 0); [|lia]. intros ->. by rewrite (go_boot _ HG) in Hz. }
  pose proof (update_writes d b (u8 (Z.lor (d (bit_addr G b)) (Z.shiftl 1 (b mod g_bpg G mod 8)))) (-1) sb gdt map I1) as U.
  rewrite I2, I3 in U. pose proof (go_bpg _ HG). assert (i < g_bpg G) by (unfold group_size in Hi; lia).
  unfold d2, d1, set_bit_in. rewrite fetch_at by dlia.
  replace (off + i / 8) with (bit_addr G b) by (unfold bit_addr; by rewrite I2, I3).
  unfold s, gd, off. unfold Z.sub. change (Z.opp 1) with (-1). rewrite U. replace (i mod 8) with (b mod g_bpg G mod 8) by (by rewrite I3).
  apply (mark_bit_spec G HG d b _ true); [done|done|apply new_byte_set|done|done].
Qed.

Lemma alloc_groups_spec d n : fs_ok G d -> forall g sb gdt map, 0 <= g -> g + Z.of_nat n = g_groups G ->
  (forall b, 0 <= b < g_blocks G -> b / g_bpg G < g -> used G d b = true) ->
  exists r d', run (g_len G) (alloc_block_groups (g_bs G) (g_groups G) n g (fetch d 1024 90 sb) gdt map) d = (r, d') /\ alloc_result d r d'.
Proof.
  intros Hfs. pose proof (len_small G HG) as HL. pose proof (bs_pos G HG) as HB. induction n as [|n IH]; intros g sb gdt map Hg Hn Hused.
  { exists 0, d. split; [done|]. left. split_and!; [done|done|]. intros b Hb. apply Hused; [done|]. pose proof (group_of G HG b Hb). lia. }
  assert (Hgr : 0 <= g < g_groups G) by lia. destruct (desc_inside G HG g Hgr) as [D1 D2]. destruct (fo_desc _ _ Hfs g Hgr) as [F1 _].
  destruct (go_bitmap _ HG g Hgr) as [_ B1]. pose proof (block_end G HG _ B1) as B2. cbn [alloc_block_groups].
  assert (Hnext : (forall i, 0 <= i < group_size G g -> free G d (g * g_bpg G + i) = false) -> forall b, 0 <= b < g_blocks G -> b / g_bpg G < g + 1 -> used G d b = true).
  { intros Hall b Hb Hlt. destruct (decide (b / g_bpg G = g)) as [E|E]; [|apply Hused; [done|lia]].
    apply negb_false_iff. pose proof (index_in_group G HG b Hb) as Hi. rewrite E in Hi. specialize (Hall _ Hi).
    replace (g * g_bpg G + b mod g_bpg G) with b in Hall by (rewrite <- E; pose proof (Z_div_mod_eq_full b (g_bpg G)); lia). done. }
  fold (desc G g). rewrite run_read_in by (done || lia). set (gd := fetch d (desc G g) sizeof_gdt gdt).
  assert (Ec : unalloc_blocks_count gd = count_below (Z.to_nat (group_size G g)) (fun i => free G d (g * g_bpg G + i))).
  { unfold unalloc_blocks_count, gd, sizeof_gdt. rewrite fetch_load16 by lia. by apply Hfs. }
  destruct (Z.eqb_spec (unalloc_blocks_count gd) 0) as [E0|E0].
  { apply IH; [lia|lia|]. apply Hnext. intros i Hi. rewrite E0 in Ec. symmetry in Ec. by apply (count_below_zero _ _ Ec); lia. }
  replace (block_usage_bitmap_addr gd) with (g_bm G g)
    by (unfold block_usage_bitmap_addr, gd, sizeof_gdt; rewrite fetch_load32 by lia; by rewrite Z.add_0_r).
  rewrite run_read_in by (done || lia).
  replace (total_blocks (fetch d 1024 90 sb)) with (g_blocks G)
    by (unfold total_blocks; rewrite fetch_load32 by lia; symmetry; apply Hfs).
  replace (blocks_per_group (fetch d 1024 90 sb)) with (g_bpg G)
    by (unfold blocks_per_group; rewrite fetch_load32 by lia; symmetry; apply Hfs).
  rewrite blocks_in_group by done. destruct (find_from _ _ _) as [i|] eqn:Ef.
  - apply find_from_Some in Ef as (Hi & Hp & _). assert (Hi2 : 0 <= i < group_size G g) by lia.
    rewrite bit_in_bitmap in Hp by (done || lia). destruct (in_group G HG g i Hg Hi2) as (I1 & _).
    pose proof (take_block d g i sb gdt map Hfs Hgr Hi2 Hp) as T. cbv zeta in T. pose proof (go_len _ HG). pose proof (sb_inside G HG).
    rewrite run_write_in by (done || lia). rewrite run_write_in by (done || lia). rewrite run_write_in by (unfold sizeof_superblock; done || lia).
    assert (Hr : u32 (g * g_bpg G + i) = g * g_bpg G + i) by (apply u32_small; nia). rewrite Hr.
    destruct T as [(T0 & _)|T]; [|replace (g * g_bpg G + i =? 0) with false by lia; eexists _, _; split; [done|right; exact T]].
    exfalso. rewrite T0 in Hp. apply negb_true_iff in Hp. rewrite (fo_meta _ _ Hfs) in Hp; [done| |by rewrite (go_boot _ HG)]. pose proof (go_blocks _ HG). lia.
  - apply IH; [lia|lia|]. apply Hnext. intros i Hi. rewrite <- bit_in_bitmap with (buf := map) by (done || lia).
    rewrite find_from_None in Ef. apply Ef. lia.
Qed.

Lemma alloc_block_spec d : fs_ok G d -> exists r d', run (g_len G) (ext2_alloc_block (g_bs G)) d = (r, d') /\ alloc_result d r d'.
Proof.
  intros Hfs. pose proof (len_small G HG). pose proof (sb_inside G HG). unfold ext2_alloc_block, sizeof_superblock.
  rewrite run_read_in by (done || lia). rewrite total_groups by done. case_match eqn:E0.
  - exists 0, d. split; [done|]. left. split_and!; [done|done|]. intros b Hb. apply negb_false_iff.
    apply (count_below_zero (Z.to_nat (g_blocks G)) (free G d)); [|lia]. rewrite <- (fo_free _ _ Hfs).
    unfold total_unalloc_blocks in E0. rewrite fetch_load32 in E0 by lia. lia.
  - assert (0 <= g_groups G) by (unfold g_groups; pose proof (bpg_pos G HG); pose proof (go_blocks _ HG); apply Z.div_pos; lia).
    apply alloc_groups_spec; [done|lia|lia|]. intros b Hb Hl. pose proof (group_of G HG b Hb). lia.
Qed.

Lemma free_block_spec d b : fs_ok G d -> 0 <= b < g_blocks G -> g_zone G b = ZData -> used G d b = true ->
  exists d', run (g_len G) (ext2_free_block b (g_bs G)) d = (tt, d') /\ marked G d b false d'.
Proof.
  intros Hfs Hb Hz Hu. pose proof (len_small G HG). pose proof (sb_inside G HG). pose proof (bs_pos G HG).
  pose proof (group_of G HG b Hb) as Hg. destruct (desc_inside G HG _ Hg). destruct (go_bitmap _ HG _ Hg) as [_ B1]. pose proof (block_end G HG _ B1).
  destruct (fo_desc _ _ Hfs _ Hg) as [F1 _]. unfold ext2_free_block, sizeof_superblock. rewrite run_read_in by (done || lia).
  replace (blocks_per_group (fetch d 1024 90 zeros)) with (g_bpg G)
    by (unfold blocks_per_group; rewrite fetch_load32 by lia; symmetry; apply Hfs).
  fold (desc G (b / g_bpg G)). unfold sizeof_gdt. rewrite run_read_in by (done || lia).
  replace (block_usage_bitmap_addr (fetch d (desc G (b / g_bpg G)) 32 zeros)) with (g_bm G (b / g_bpg G))
    by (unfold block_usage_bitmap_addr; rewrite fetch_load32 by lia; by rewrite Z.add_0_r).
  rewrite run_read_in by (done || lia). rewrite run_write_in by (done || lia). rewrite run_write_in by (done || lia).
  rewrite run_last_write by (done || lia). eexists. split; [reflexivity|]. pose proof (go_bpg _ HG). pose proof (index_of G HG b).
  unfold clear_bit_in. rewrite fetch_at by dlia. fold (bit_addr G b). rewrite (update_writes d b) by done.
  apply (mark_bit_spec G HG d b _ false); [done|done|apply new_byte_clear|done|done].
Qed.
End Alloc.
