(* ===== verification/Ext2Tree.v ===== *)
(** The blocks of an inode.

    The pointers of an inode and of its indirect blocks are a forest of fifteen
    trees of depth 0 to 3.  A node is named by its slot in the inode and the
    indices on the way to it; [tree_ok] says that different nodes are different
    data blocks in use.  Linking a new block changes one node.  The theorems:
    [ext2_block_id_to_addr] follows the path of a block, and [ext2_set_block_id]
    sets the pointer of one block, adds the indirect blocks it needs, and leaves
    every other block alone. *)

From S2P Require Import Prelude CMem Vfs Elf BlockIo Ext2 Ext2Alloc.
From Stdlib Require Import ZArith Lia Bool FunctionalExtensionality.
From stdpp Require Import base tactics numbers list.
Open Scope Z_scope.

Lemma store32_same m a : bytes m -> store32 m a (load32 m a) = m.
Proof.
  intros H. apply functional_extensionality. intros x. unfold store32, load32, u8.
  pose proof (H a). pose proof (H (a + 1)). pose proof (H (a + 2)). pose proof (H (a + 3)).
  rewrite !upd_cases. repeat case_decide; subst; try done; dlia.
Qed.

Lemma load32_blit_in m a n src x : a <= x -> x + 4 <= a + n -> load32 (blit m a n src) x = load32 src (x - a).
Proof. intros. unfold load32. rewrite !blit_in by lia. repeat f_equal; lia. Qed.

Lemma load32_blit_out m a n src x : x + 4 <= a \/ a + n <= x -> load32 (blit m a n src) x = load32 m x.
Proof. intros. apply load32_frame. intros y Hy. apply blit_out. lia. Qed.

Section Tree.
Context (G : geometry) (HG : geometry_ok G).

Abbreviation bs := (g_bs G).
Definition ppb : Z := bs / 4.

Definition slot (ino : memory) (s : Z) : Z := load32 ino (40 + 4 * s).
Definition ptr (d : memory) (b i : Z) : Z := load32 d (b * bs + i * 4).

(** The block a path leads to; 0 if a pointer on the way is 0. *)
Fixpoint node (d : memory) (b : Z) (p : list Z) : Z :=
  match p with
  | [] => b
  | i :: p => if b =? 0 then 0 else node d (ptr d b i) p
  end.

Definition at_ (d ino : memory) (s : Z) (p : list Z) : Z := node d (slot ino s) p.

Definition depth (s : Z) : nat := if s <? 12 then 0 else if s =? 12 then 1 else if s =? 13 then 2 else 3.

Definition path_ok (s : Z) (p : list Z) : Prop := 0 <= s < 15 /\ (length p <= depth s)%nat /\ Forall (fun i => 0 <= i < ppb) p.

Definition data_block (d : memory) (b : Z) : Prop := 0 < b < g_blocks G /\ g_zone G b = ZData /\ used G d b = true.

Record tree_ok (d ino : memory) : Prop := {
  to_data : forall s p, path_ok s p -> at_ d ino s p <> 0 -> data_block d (at_ d ino s p);
  to_inj : forall s p s' p', path_ok s p -> path_ok s' p' -> at_ d ino s p = at_ d ino s' p' -> at_ d ino s p <> 0 -> s = s' /\ p = p' }.

(** ** Arithmetic *)

Lemma ppb_pos : 256 <= ppb <= 8192 /\ 4 * ppb = bs.
Proof. unfold ppb. destruct (bs_mult G HG) as (k & -> & Hk). dlia. Qed.

Lemma ptr_block b i k : 0 <= i < ppb -> 0 <= k < 4 -> (b * bs + i * 4 + k) / bs = b.
Proof. intros. pose proof ppb_pos. rewrite <- Z.add_assoc. apply in_block; [done|]. lia. Qed.

Lemma ptr_frame d d' b i : 0 <= i < ppb -> (forall a, 0 <= a -> a / bs = b -> d' a = d a) -> 0 <= b -> ptr d' b i = ptr d b i.
Proof.
  intros Hi H Hb. pose proof (bs_pos G HG). apply load32_frame. intros x Hx.
  assert (Eb : x / bs = b) by (replace x with (b * bs + i * 4 + (x - (b * bs + i * 4))) by lia; apply ptr_block; lia).
  apply H; [nia|done].
Qed.

Lemma data_block_inside d b : data_block d b -> 0 <= b * bs /\ b * bs + bs <= g_len G.
Proof. intros [Hb _]. pose proof (bs_pos G HG). split; [nia|]. apply block_end; [done|lia]. Qed.

(** ** Paths *)

Lemma node_zero d p : node d 0 p = 0.
Proof. by destruct p. Qed.

Lemma node_snoc d b p i : node d b (p ++ [i]) = if node d b p =? 0 then 0 else ptr d (node d b p) i.
Proof.
  revert b. induction p as [|j p IH]; intros b; cbn [node app]; [done|].
  destruct (b =? 0); [done|]. apply IH.
Qed.

Lemma at_snoc d ino s p i : at_ d ino s (p ++ [i]) = if at_ d ino s p =? 0 then 0 else ptr d (at_ d ino s p) i.
Proof. apply node_snoc. Qed.

Lemma path_ok_prefix s p i : path_ok s (p ++ [i]) -> path_ok s p /\ (length p < depth s)%nat /\ 0 <= i < ppb.
Proof. intros (Hs & Hl & HF). rewrite length_app in Hl. cbn in Hl. apply Forall_app in HF as [HF HI]. rewrite Forall_singleton in HI. split_and!; try done; unfold path_ok; try split_and!; try done; lia. Qed.

Lemma path_ok_nil s : 0 <= s < 15 -> path_ok s [].
Proof. intros. split; [done|]. split; [cbn; lia|constructor]. Qed.

(** Two disks that agree on the blocks of the tree have the same tree. *)
Lemma at_frame d d' ino ino' s p : path_ok s p -> (forall s, 0 <= s < 15 -> slot ino' s = slot ino s) ->
  (forall p i, path_ok s (p ++ [i]) -> at_ d ino s p <> 0 -> ptr d' (at_ d ino s p) i = ptr d (at_ d ino s p) i) ->
  at_ d' ino' s p = at_ d ino s p.
Proof.
  intros Hp Hs H. induction p as [|i p IH] using rev_ind; [apply Hs; apply Hp|].
  destruct (path_ok_prefix _ _ _ Hp) as (Hp' & _). rewrite !at_snoc, IH by done. destruct (Z.eqb_spec (at_ d ino s p) 0) as [|N]; [done|]. by apply H.
Qed.

(** ** Linking a block *)

(** [nb] is a block in use that is not in the tree. *)
Definition fresh_block (d ino : memory) (nb : Z) : Prop :=
  data_block d nb /\ forall s p, path_ok s p -> at_ d ino s p <> nb.

(** The tree with one more node. *)
Definition adds (d ino : memory) (s : Z) (p : list Z) (nb : Z) (d' ino' : memory) : Prop :=
  forall s' q, path_ok s' q -> at_ d' ino' s' q = if decide (s' = s /\ q = p) then nb else at_ d ino s' q.

Lemma adds_tree_ok d ino s p nb d' ino' : path_ok s p -> at_ d ino s p = 0 -> tree_ok d ino -> fresh_block d ino nb -> adds d ino s p nb d' ino' ->
  (forall b, 0 <= b < g_blocks G -> used G d b = true -> used G d' b = true) -> tree_ok d' ino'.
Proof.
  intros Hp H0 [T1 T2] [N1 N2] A U.
  assert (Udata : forall b, data_block d b -> data_block d' b) by (intros b (? & ? & ?); split_and!; [lia|lia|done|apply U; [lia|done]]).
  split.
  - intros s' q Hq. rewrite (A _ _ Hq). case_decide; [auto|]. intros Hne. apply Udata. by apply T1.
  - intros s' q s'' q' Hq Hq'. rewrite (A _ _ Hq), (A _ _ Hq'). repeat case_decide; intros E Hne.
    + intuition congruence.
    + exfalso. by apply (N2 s'' q' Hq').
    + exfalso. by apply (N2 s' q Hq).
    + by apply T2.
Qed.

(** A block all of whose pointers are 0, which matters above the leaves. *)
Definition blank (d : memory) (s : Z) (p : list Z) (nb : Z) : Prop :=
  (length p < depth s)%nat -> forall i, 0 <= i < ppb -> ptr d nb i = 0.

Lemma link_slot d ino s nb : 0 <= s < 15 -> slot ino s = 0 -> tree_ok d ino -> fresh_block d ino nb -> blank d s [] nb ->
  adds d ino s [] nb d (store32 ino (40 + 4 * s) nb).
Proof.
  intros Hs H0 T [N1 N2] B. assert (Hnb : is_u32 nb).
  { destruct N1 as (? & _). pose proof (go_len _ HG). pose proof (bs_pos G HG). unfold is_u32. nia. }
  assert (Hslot : forall s', 0 <= s' < 15 -> slot (store32 ino (40 + 4 * s) nb) s' = if decide (s' = s) then nb else slot ino s').
  { intros s' Hs'. unfold slot. case_decide as D; [subst; rewrite load32_store32; by apply u32_small|]. apply load32_store32_ne. lia. }
  intros s' q Hq. induction q as [|i q IH] using rev_ind.
  - unfold at_ at 1. cbn [node]. rewrite Hslot by apply Hq. destruct (decide (s' = s)) as [->|]; [by rewrite decide_True|]. rewrite decide_False by naive_solver. done.
  - destruct (path_ok_prefix _ _ _ Hq) as (Hq' & Hlen & Hi). rewrite !at_snoc, (IH Hq'). rewrite (decide_False (P := _ /\ _ ++ _ = _)) by (intros [_ E]; by destruct q).
    case_decide as D; [|done]. destruct D as [-> ->]. replace (nb =? 0) with false by (destruct N1; lia).
    rewrite (B Hlen i Hi). replace (at_ d ino s [] =? 0) with true by (cbn; lia). done.
Qed.

Lemma link_entry d ino s p i nb : path_ok s (p ++ [i]) -> at_ d ino s p <> 0 -> at_ d ino s (p ++ [i]) = 0 -> tree_ok d ino -> fresh_block d ino nb -> blank d s (p ++ [i]) nb ->
  adds d ino s (p ++ [i]) nb (store32 d (at_ d ino s p * bs + i * 4) nb) ino.
Proof.
  intros Hpi Hb H0 T [N1 N2] B. destruct (path_ok_prefix _ _ _ Hpi) as (Hp & Hlen & Hi). set (b := at_ d ino s p) in *.
  assert (Hnb : is_u32 nb).
  { destruct N1 as (? & _). pose proof (go_len _ HG). pose proof (bs_pos G HG). unfold is_u32. nia. }
  destruct (to_data _ _ T s p Hp Hb) as (Hbr & _).
  assert (Hptr : forall c j, 0 <= c -> 0 <= j < ppb -> ptr (store32 d (b * bs + i * 4) nb) c j = if decide (c = b /\ j = i) then nb else ptr d c j).
  { intros c j Hc Hj. unfold ptr. case_decide as D; [destruct D as [-> ->]; rewrite load32_store32; by apply u32_small|].
    destruct (decide (c = b)) as [->|Ncb]; [apply load32_store32_ne; lia|].
    apply load32_frame. intros x Hx. apply store32_frame. intros Hx2. apply Ncb.
    rewrite <- (ptr_block c j (x - (c * bs + j * 4))) by lia. rewrite <- (ptr_block b i (x - (b * bs + i * 4))) by lia. f_equal. lia. }
  intros s' q Hq. induction q as [|j q IH] using rev_ind.
  - rewrite decide_False by (intros [_ E]; by destruct p). done.
  - destruct (path_ok_prefix _ _ _ Hq) as (Hq' & Hlen' & Hj). rewrite !at_snoc, (IH Hq'). destruct (decide (s' = s /\ q = p ++ [i])) as [[-> ->]|D].
    + rewrite H0, Z.eqb_refl. replace (nb =? 0) with false by (destruct N1; lia). rewrite Hptr by (destruct N1; lia).
      rewrite decide_False by (intros [E _]; apply (N2 s p Hp); done). rewrite (B Hlen' j Hj).
      rewrite decide_False; [done|]. intros [_ E]. apply app_inj_2 in E as [E _]; [|done]. apply (f_equal length) in E. rewrite length_app in E. cbn in E. lia.
    + destruct (Z.eqb_spec (at_ d ino s' q) 0) as [E|E].
      * rewrite decide_False; [done|]. intros [-> Eq]. apply app_inj_2 in Eq as [-> _]; [|done]. done.
      * destruct (to_data _ _ T s' q Hq' E) as (Hc & _). rewrite Hptr by lia.
        destruct (decide (at_ d ino s' q = b /\ j = i)) as [[E1 ->]|N].
        { destruct (to_inj _ _ T s' q s p Hq' Hp E1 E) as [-> ->]. by rewrite decide_True. }
        rewrite decide_False; [done|]. intros [-> Eq]. apply app_inj_2 in Eq as [-> [= ->]]; [|done]. by apply N.
Qed.

(** ** Changes outside the bookkeeping *)

Lemma used_frame d d' b : 0 <= b < g_blocks G -> (forall a, 0 <= a -> book G a -> d' a = d a) -> used G d' b = used G d b.
Proof.
  intros Hb H. unfold used. rewrite H; [done| |].
  - unfold bit_addr. destruct (go_bitmap _ HG _ (group_of G HG b Hb)) as [_ B]. pose proof (bs_pos G HG). pose proof (index_of G HG b).
    assert (0 <= b mod g_bpg G / 8) by dlia. nia.
  - unfold book. by rewrite (bit_zone G HG).
Qed.

Lemma fs_ok_frame d d' : fs_ok G d -> bytes d' -> (forall a, 0 <= a -> book G a -> d' a = d a) -> fs_ok G d'.
Proof.
  intros F Hb H. assert (U : forall b, 0 <= b < g_blocks G -> used G d' b = used G d b) by (intros; by apply used_frame).
  assert (S : forall k, 0 <= k < 90 -> d' (1024 + k) = d (1024 + k)).
  { intros k Hk. apply H; [lia|]. unfold book. by rewrite (sb_zone G HG) by lia. }
  assert (D : forall g k, 0 <= g < g_groups G -> 0 <= k < 32 -> d' (desc G g + k) = d (desc G g + k)).
  { intros g k Hg Hk. destruct (desc_inside G HG g Hg). apply H; [lia|]. unfold book. by rewrite (desc_zone G HG) by lia. }
  assert (S4 : forall k, 0 <= k <= 86 -> load32 d' (1024 + k) = load32 d (1024 + k)).
  { intros k Hk. apply load32_frame. intros x Hx. replace x with (1024 + (x - 1024)) by lia. apply S. lia. }
  split.
  - done.
  - rewrite S4 by lia. apply F.
  - rewrite S4 by lia. apply F.
  - rewrite S4 by lia. apply F.
  - intros g Hg. destruct (fo_desc _ _ F g Hg) as [<- <-]. split; apply load32_frame; intros x Hx;
      (replace x with (desc G g + (x - desc G g)) by lia); apply D; lia.
  - rewrite S4 by lia. rewrite (fo_free _ _ F). apply count_below_ext. intros i Hi. unfold free. by rewrite U by lia.
  - intros g Hg. rewrite <- (count_below_ext _ (fun i => free G d (g * g_bpg G + i))).
    + rewrite <- (fo_group _ _ F g Hg). apply load16_frame. intros x Hx. replace x with (desc G g + (x - desc G g)) by lia. apply D; lia.
    + intros i Hi. destruct (in_group G HG g i ltac:(lia) ltac:(lia)) as (I1 & _). unfold free. by rewrite U.
  - intros b Hb' Hz. rewrite U by done. by apply F.
Qed.

Lemma data_not_book a : g_zone G (a / bs) = ZData -> ~ book G a.
Proof. unfold book. intros ->. tauto. Qed.

(** ** A new block, filled with zeros *)

Record zeroed (d ino : memory) (r : Z) (d2 : memory) : Prop := {
  ze_fs : fs_ok G d2;
  ze_used : forall b, 0 <= b < g_blocks G -> used G d2 b = if decide (b = r) then true else used G d b;
  ze_new : used G d r = false;
  ze_at : forall s p, path_ok s p -> at_ d2 ino s p = at_ d ino s p;
  ze_tree : tree_ok d2 ino;
  ze_fresh : fresh_block d2 ino r;
  ze_zero : forall a, 0 <= a -> a / bs = r -> d2 a = 0;
  ze_frame : forall a, 0 <= a -> ~ book G a -> a / bs <> r -> d2 a = d a }.

Lemma block_offset r a : r * bs <= a < r * bs + bs <-> a / bs = r.
Proof.
  pose proof (bs_pos G HG). split; intros H0.
  - replace a with (r * bs + (a - r * bs)) by lia. apply in_block; [done|lia].
  - pose proof (Z_div_mod_eq_full a bs). pose proof (Z.mod_pos_bound a bs ltac:(lia)). subst r. lia.
Qed.

(** The tree is kept by changes outside of it and by marks. *)
Lemma at_kept d d' ino : tree_ok d ino ->
  (forall a s p, 0 <= a -> path_ok s p -> at_ d ino s p = a / bs -> at_ d ino s p <> 0 -> d' a = d a) ->
  forall s p, path_ok s p -> at_ d' ino s p = at_ d ino s p.
Proof.
  intros T H s p Hp. apply at_frame; [done|done|]. intros q i Hq Hne. destruct (path_ok_prefix _ _ _ Hq) as (Hq' & _ & Hi).
  destruct (to_data _ _ T s q Hq' Hne) as (Hr & _). apply ptr_frame; [done| |lia]. intros a Ha Ea. by apply (H a s q).
Qed.

Lemma tree_ok_kept d d' ino : tree_ok d ino -> (forall s p, path_ok s p -> at_ d' ino s p = at_ d ino s p) ->
  (forall b, 0 <= b < g_blocks G -> used G d b = true -> used G d' b = true) -> tree_ok d' ino.
Proof.
  intros [T1 T2] E U. split.
  - intros s p Hp. rewrite E by done. intros Hne. destruct (T1 s p Hp Hne) as (? & ? & ?). split_and!; try lia; [done|apply U; [lia|done]].
  - intros s p s' p' Hp Hp'. rewrite !E by done. by apply T2.
Qed.

Lemma alloc_zeroed d ino r d1 : fs_ok G d -> tree_ok d ino -> 0 < r < g_blocks G -> g_zone G r = ZData -> used G d r = false -> marked G d r true d1 ->
  zeroed d ino r (blit d1 (r * bs) bs zeros).
Proof.
  intros F T Hr Hz Hu [M1 M2 M3]. set (d2 := blit d1 (r * bs) bs zeros).
  assert (In : forall a, a / bs = r -> d2 a = 0) by (intros a Ha; apply block_offset in Ha; unfold d2; by rewrite blit_in by lia).
  assert (Out : forall a, a / bs <> r -> d2 a = d1 a) by (intros a Ha; unfold d2; apply blit_out; rewrite <- block_offset in Ha; lia).
  assert (B : forall a, 0 <= a -> book G a -> d2 a = d1 a).
  { intros a Ha Hb. apply Out. intros E. unfold book in Hb. by rewrite E, Hz in Hb. }
  assert (F2 : fs_ok G d2).
  { apply (fs_ok_frame d1); [done| |done]. apply blit_bytes; [apply M1|apply zeros_bytes]. }
  assert (U2 : forall b, 0 <= b < g_blocks G -> used G d2 b = if decide (b = r) then true else used G d b).
  { intros b Hb. rewrite (used_frame d1 d2) by done. by apply M2. }
  assert (A2 : forall s p, path_ok s p -> at_ d2 ino s p = at_ d ino s p).
  { apply at_kept; [done|]. intros a s p Ha Hp E Hne. destruct (to_data _ _ T s p Hp Hne) as (R1 & R2 & R3).
    rewrite E in R1, R2, R3. rewrite Out by congruence. apply M3; [done|]. by apply data_not_book. }
  assert (T2 : tree_ok d2 ino).
  { apply (tree_ok_kept d); [done|done|]. intros b Hb Hub. rewrite U2 by done. by case_decide. }
  split; [done|done|done|done|done| |by intros; apply In|].
  - split; [split_and!; [lia|lia|done|rewrite U2 by lia; by rewrite decide_True]|].
    intros s p Hp E. rewrite A2 in E by done. destruct (to_data _ _ T s p Hp ltac:(lia)) as (_ & _ & R3). congruence.
  - intros a Ha Hb Hn. rewrite Out by done. by apply M3.
Qed.

(** ** Growth of the tree above its leaves *)

Record grows (d ino d' ino' : memory) : Prop := {
  gr_fs : fs_ok G d';
  gr_tree : tree_ok d' ino';
  gr_bytes : bytes ino';
  gr_used : forall b, 0 <= b < g_blocks G -> used G d b = true -> used G d' b = true;
  gr_new : forall b, 0 < b < g_blocks G -> used G d' b = true -> used G d b = true \/ exists s p, path_ok s p /\ at_ d' ino' s p = b;
  gr_leaf : forall s p, path_ok s p -> length p = depth s -> at_ d' ino' s p = at_ d ino s p;
  gr_keep : forall s p, path_ok s p -> at_ d ino s p <> 0 -> at_ d' ino' s p = at_ d ino s p;
  gr_inner : forall s p, path_ok s p -> at_ d' ino' s p = at_ d ino s p \/ used G d (at_ d' ino' s p) = false /\ 0 <= at_ d' ino' s p < g_blocks G;
  gr_frame : forall a, 0 <= a -> ~ book G a ->
    (g_zone G (a / bs) = ZData -> used G d (a / bs) = true /\ 0 <= a / bs < g_blocks G /\ forall s p, path_ok s p -> (length p < depth s)%nat -> at_ d ino s p <> a / bs) ->
    d' a = d a;
  gr_inode : forall x, ~ (40 <= x < 100) -> ino' x = ino x }.

Lemma tree_grows_refl d ino : fs_ok G d -> tree_ok d ino -> bytes ino -> grows d ino d ino.
Proof. intros F T B. split; auto. Qed.

Lemma tree_grows_trans d ino d1 ino1 d2 ino2 : grows d ino d1 ino1 -> grows d1 ino1 d2 ino2 -> grows d ino d2 ino2.
Proof.
  intros A B. split.
  - apply B.
  - apply B.
  - apply B.
  - intros b Hb H. apply (gr_used _ _ _ _ B); [done|]. by apply (gr_used _ _ _ _ A).
  - intros b Hb H. destruct (gr_new _ _ _ _ B b Hb H) as [H1|H1]; [|by right].
    destruct (gr_new _ _ _ _ A b Hb H1) as [H2|(s & p & Hp & E)]; [by left|]. right. exists s, p. split; [done|].
    rewrite (gr_keep _ _ _ _ B); [done|done|]. lia.
  - intros s p Hp Hl. rewrite (gr_leaf _ _ _ _ B) by done. by apply (gr_leaf _ _ _ _ A).
  - intros s p Hp Hne. rewrite (gr_keep _ _ _ _ B); [by apply (gr_keep _ _ _ _ A)|done|]. by rewrite (gr_keep _ _ _ _ A).
  - intros s p Hp. destruct (gr_inner _ _ _ _ B s p Hp) as [E|[E R]]; [rewrite E; by apply (gr_inner _ _ _ _ A)|].
    right. split; [|done]. destruct (used G d (at_ d2 ino2 s p)) eqn:U; [|done]. rewrite (gr_used _ _ _ _ A) in E by done. done.
  - intros a Ha Hb Hd. rewrite (gr_frame _ _ _ _ B); [by apply (gr_frame _ _ _ _ A)|done|done|].
    intros Hz. destruct (Hd Hz) as (U & R & N). split; [by apply (gr_used _ _ _ _ A)|]. split; [done|]. intros s p Hp Hl E.
    destruct (gr_inner _ _ _ _ A s p Hp) as [E1|[E1 _]]; [by apply (N s p Hp Hl); rewrite <- E1|]. rewrite E in E1. congruence.
  - intros x Hx. rewrite (gr_inode _ _ _ _ B) by done. by apply (gr_inode _ _ _ _ A).
Qed.

Lemma grows_link d ino r d2 s p d3 ino3 : tree_ok d ino -> zeroed d ino r d2 -> path_ok s p -> (length p < depth s)%nat -> at_ d ino s p = 0 ->
  adds d2 ino s p r d3 ino3 -> bytes d3 -> bytes ino3 ->
  (forall a, 0 <= a -> d3 a = d2 a \/ exists s q, path_ok s q /\ (length q < depth s)%nat /\ at_ d ino s q = a / bs /\ a / bs <> 0) ->
  (forall x, ~ (40 <= x < 100) -> ino3 x = ino x) -> grows d ino d3 ino3.
Proof.
  intros T Z Hp Hl H0 A B3 BI Ch HI. destruct (ze_fresh _ _ _ _ Z) as [(R1 & R2 & R3) _].
  assert (A' : forall s' q, path_ok s' q -> at_ d3 ino3 s' q = if decide (s' = s /\ q = p) then r else at_ d ino s' q).
  { intros s' q Hq. rewrite (A s' q Hq), (ze_at _ _ _ _ Z) by done. done. }
  assert (Bk : forall a, 0 <= a -> book G a -> d3 a = d2 a).
  { intros a Ha Hb. destruct (Ch a Ha) as [E|(s' & q & Hq & _ & E & Hne)]; [done|]. exfalso. rewrite <- E in Hne.
    destruct (to_data _ _ T s' q Hq Hne) as (_ & Hz & _). rewrite E in Hz. by apply (data_not_book a). }
  assert (F3 : fs_ok G d3) by (apply (fs_ok_frame d2); [apply Z|done|done]).
  assert (U3 : forall b, 0 <= b < g_blocks G -> used G d3 b = if decide (b = r) then true else used G d b).
  { intros b Hb. rewrite (used_frame d2 d3) by done. by apply Z. }
  assert (U : forall b, 0 <= b < g_blocks G -> used G d b = true -> used G d3 b = true).
  { intros b Hb Hu. rewrite U3 by done. by case_decide. }
  split; [done| |done|done| | | | | |done].
  - apply (adds_tree_ok d2 ino s p r); [done|by rewrite (ze_at _ _ _ _ Z)|apply Z|apply Z|done|]. intros b Hb Hu. by rewrite (used_frame d2 d3).
  - intros b Hb Hu. rewrite U3 in Hu by lia. case_decide as D; [|by left]. right. exists s, p. split; [done|]. rewrite A' by done. by rewrite decide_True.
  - intros s' q Hq Hlq. rewrite A' by done. rewrite decide_False; [done|]. intros [-> ->]. lia.
  - intros s' q Hq Hne. rewrite A' by done. rewrite decide_False; [done|]. intros [-> ->]. done.
  - intros s' q Hq. rewrite A' by done. case_decide; [|by left]. right. split; [apply Z|lia].
  - intros a Ha Hb Hd. destruct (Ch a Ha) as [E|(s' & q & Hq & Hlq & E & Hne)].
    + rewrite E. apply Z; [done|done|]. intros Er. destruct (Hd ltac:(congruence)) as (Hu & _). rewrite Er, (ze_new _ _ _ _ Z) in Hu. done.
    + exfalso. rewrite <- E in Hne. destruct (to_data _ _ T s' q Hq Hne) as (_ & Hz & _). rewrite E in Hz. destruct (Hd Hz) as (_ & _ & N). by apply (N s' q).
Qed.

Definition full (d : memory) : Prop := forall b, 0 <= b < g_blocks G -> used G d b = true.

Lemma slot_store ino s v : is_u32 v -> slot (store32 ino (40 + 4 * s) v) s = v.
Proof. intros H. unfold slot. rewrite load32_store32. by apply u32_small. Qed.

Lemma ensure_indirect_spec d ino s : fs_ok G d -> tree_ok d ino -> bytes ino -> 12 <= s < 15 ->
  exists r d', let ino' := store32 ino (40 + 4 * s) r in
    run (g_len G) (ensure_indirect (slot ino s) bs) d = (r, d') /\ grows d ino d' ino' /\ at_ d' ino' s [] = r /\ (r = 0 -> full d).
Proof.
  intros F T B Hs. pose proof (len_small G HG) as HL. pose proof (bs_pos G HG). unfold ensure_indirect. destruct (Z.eqb_spec (slot ino s) 0) as [E0|E0]; cbn [negb].
  2:{ exists (slot ino s), d. cbv zeta. replace (store32 ino (40 + 4 * s) (slot ino s)) with ino by (symmetry; by apply store32_same).
      split_and!; [done|by apply tree_grows_refl|done|lia]. }
  rewrite run_bind. destruct (alloc_block_spec G HG d F) as (r & d1 & -> & [(-> & -> & Hfull)|(Hr & Hz & Hu & M)]).
  { exists 0, d. cbv zeta. replace (store32 ino (40 + 4 * s) 0) with ino by (symmetry; rewrite <- E0; by apply store32_same).
    split_and!; [done|by apply tree_grows_refl|done|done]. }
  replace (r =? 0) with false by lia. destruct (block_inside G HG r 0 ltac:(lia) ltac:(lia)). pose proof (block_end G HG r ltac:(lia)).
  rewrite run_write_in by (done || lia). set (d2 := blit d1 (r * bs) bs zeros).
  assert (Z : zeroed d ino r d2) by (by apply alloc_zeroed). exists r, d2. split; [done|].
  assert (Hru : is_u32 r) by (unfold is_u32; pose proof (go_len _ HG); nia).
  assert (Hdep : (0 < depth s)%nat) by (unfold depth; repeat case_match; lia).
  split; [|split; [by apply slot_store|lia]].
  apply (grows_link d ino r d2 s []); [done|done|apply path_ok_nil; lia|done|done| | | | |].
  - apply link_slot; [lia|done|apply Z|apply Z|]. intros _ i Hi. unfold ptr, d2. pose proof ppb_pos. rewrite load32_blit_in by lia. done.
  - apply Z.
  - by apply store32_bytes.
  - by left.
  - intros x Hx. apply store32_frame. lia.
Qed.

Lemma run_block_ptr {A} mode d b i (f : Z -> io A) : can_read mode = true -> 0 <= b < g_blocks G -> 0 <= i < ppb ->
  run (g_len G) (read_block_ptr mode b i bs ≫= f) d = run (g_len G) (f (ptr d b i)) d.
Proof.
  intros Hm Hb Hi. pose proof ppb_pos. pose proof (block_end G HG b Hb). pose proof (len_small G HG). pose proof (bs_pos G HG).
  unfold read_block_ptr. rewrite run_bind, run_read_in by (done || nia). cbn. unfold ptr. rewrite fetch_load32 by lia. by rewrite Z.add_0_r.
Qed.

Lemma blit_word d a v : blit d a 4 (store32 zeros 0 v) = store32 d a v.
Proof.
  unfold store32. rewrite !blit_upd_in by lia.
  apply functional_extensionality. intros x. rewrite !upd_cases. repeat case_decide; try done; try lia. apply blit_out. lia.
Qed.

(** The store of a pointer changes an inner block of the tree only. *)
Lemma store_ptr_change d ino s p i v : tree_ok d ino -> path_ok s (p ++ [i]) -> at_ d ino s p <> 0 ->
  forall a, 0 <= a -> store32 d (at_ d ino s p * bs + i * 4) v a = d a \/ a / bs = at_ d ino s p.
Proof.
  intros T Hp Hne a Ha. destruct (path_ok_prefix _ _ _ Hp) as (_ & _ & Hi). set (b := at_ d ino s p) in *.
  destruct (decide (b * bs + i * 4 <= a < b * bs + i * 4 + 4)); [right|left; by apply store32_frame].
  replace a with (b * bs + i * 4 + (a - (b * bs + i * 4))) by lia. apply ptr_block; lia.
Qed.

Lemma ensure_entry_spec d ino s p i : fs_ok G d -> tree_ok d ino -> bytes ino -> path_ok s (p ++ [i]) -> (length (p ++ [i]) < depth s)%nat -> at_ d ino s p <> 0 ->
  exists r d', run (g_len G) (ensure_entry (at_ d ino s p) i bs) d = (r, d') /\ grows d ino d' ino /\ at_ d' ino s (p ++ [i]) = r /\ (r = 0 -> full d).
Proof.
  intros F T B Hpi Hl Hne. pose proof (len_small G HG) as HL. pose proof (bs_pos G HG). destruct (path_ok_prefix _ _ _ Hpi) as (Hp & Hlp & Hi).
  destruct (to_data _ _ T s p Hp Hne) as (Hb & Hbz & Hbu). unfold ensure_entry. rewrite run_block_ptr by (done || lia).
  assert (E : at_ d ino s (p ++ [i]) = ptr d (at_ d ino s p) i) by (rewrite at_snoc; by replace (at_ d ino s p =? 0) with false by lia).
  rewrite <- E. destruct (Z.eqb_spec (at_ d ino s (p ++ [i])) 0) as [E0|E0]; cbn [negb].
  2:{ exists (at_ d ino s (p ++ [i])), d. split; [done|]. split; [by apply tree_grows_refl|]. split; [done|lia]. }
  rewrite run_bind. destruct (alloc_block_spec G HG d F) as (r & d1 & -> & [(-> & -> & Hfull)|(Hr & Hz & Hu & M)]).
  { exists 0, d. split; [done|]. split; [by apply tree_grows_refl|]. split; [done|]. done. }
  replace (r =? 0) with false by lia. destruct (block_inside G HG r 0 ltac:(lia) ltac:(lia)). pose proof (block_end G HG r ltac:(lia)).
  pose proof (block_end G HG (at_ d ino s p) ltac:(lia)). pose proof ppb_pos.
  rewrite run_write_in by (done || lia). set (d2 := blit d1 (r * bs) bs zeros).
  assert (Z : zeroed d ino r d2) by (by apply alloc_zeroed). rewrite run_write_in by (done || nia). rewrite blit_word.
  eexists r, _. split; [done|].
  assert (A2 : at_ d2 ino s p = at_ d ino s p) by (by apply Z). 
  assert (A : adds d2 ino s (p ++ [i]) r (store32 d2 (at_ d ino s p * bs + i * 4) r) ino).
  { rewrite <- A2. apply link_entry; [done|by rewrite A2|by rewrite (ze_at _ _ _ _ Z)|apply Z|apply Z|].
    intros _ j Hj. unfold ptr, d2. rewrite load32_blit_in by lia. done. }
  split; [|split; [rewrite (A s (p ++ [i]) Hpi); by rewrite decide_True|lia]].
  apply (grows_link d ino r d2 s (p ++ [i])); [done|done|done|done|done|done|apply store32_bytes, Z|done| |done].
  intros a Ha. rewrite <- A2. destruct (store_ptr_change d2 ino s p i r (ze_tree _ _ _ _ Z) Hpi ltac:(by rewrite A2) a Ha) as [E1|E1]; [by left|].
  right. exists s, p. split_and!; [done|done|congruence|congruence].
Qed.
End Tree.
