(* ===== verification/Ext2Map.v ===== *)
(** The blocks of a file by number: [ext2_block_id_to_addr] and
    [ext2_set_block_id].

    [locate] is the path of a block number in the trees of Ext2Tree, [bmap] the
    block it leads to.  [ext2_block_id_to_addr] computes [bmap], and
    [ext2_set_block_id] updates it at one number. *)

From S2P Require Import Prelude CMem Vfs Elf BlockIo Ext2 Ext2Alloc Ext2Tree.
From Stdlib Require Import ZArith Lia Bool.
From stdpp Require Import base tactics numbers list.
Open Scope Z_scope.

Section Map.
Context (G : geometry) (HG : geometry_ok G).

Abbreviation bs := (g_bs G).
Abbreviation ppb := (ppb G).

Definition valid_id (id : Z) : Prop := 0 <= id < 12 + ppb + ppb * ppb + ppb * ppb * ppb.

Definition locate (id : Z) : Z * list Z :=
  if id <? 12 then (id, []) else
  let k := id - 12 in
  if k <? ppb then (12, [k]) else
  let k := k - ppb in
  if k <? ppb * ppb then (13, [k / ppb; k mod ppb]) else
  let k := k - ppb * ppb in
  (14, [k / (ppb * ppb); k / ppb mod ppb; k mod ppb]).

Definition bmap (d ino : memory) (id : Z) : Z := at_ G d ino (locate id).1 (locate id).2.

Lemma ppb_mul : u32 (ppb * ppb) = ppb * ppb.
Proof. pose proof (ppb_pos G HG) as [? _]. apply u32_small. nia. Qed.

Lemma mod_ppb k : 0 <= k mod ppb < ppb.
Proof. pose proof (ppb_pos G HG). apply Z.mod_pos_bound. lia. Qed.

Lemma locate_ok id : valid_id id -> path_ok G (locate id).1 (locate id).2 /\ length (locate id).2 = depth (locate id).1.
Proof.
  intros H. pose proof (ppb_pos G HG) as [Hp _]. unfold valid_id in H. unfold locate.
  destruct (Z.ltb_spec id 12); [split; [apply path_ok_nil; cbn; lia|]; cbn; unfold depth; by replace (id <? 12) with true by lia|].
  destruct (Z.ltb_spec (id - 12) ppb); [split; [|done]; split; [cbn; lia|split; [cbn; lia|]]; cbn; repeat constructor; lia|].
  destruct (Z.ltb_spec (id - 12 - ppb) (ppb * ppb)); (split; [|done]; split; [cbn; lia|split; [cbn; lia|]]; cbn; repeat constructor); try apply mod_ppb.
  - apply Z.div_pos; lia.
  - apply Z.div_lt_upper_bound; lia.
  - apply Z.div_pos; nia.
  - apply Z.div_lt_upper_bound; nia.
Qed.

Lemma locate_inj id id' : valid_id id -> valid_id id' -> locate id = locate id' -> id = id'.
Proof.
  intros H H'. pose proof (ppb_pos G HG) as [Hp _]. unfold valid_id in *. unfold locate.
  destruct (Z.ltb_spec id 12), (Z.ltb_spec id' 12), (Z.ltb_spec (id - 12) ppb), (Z.ltb_spec (id' - 12) ppb),
    (Z.ltb_spec (id - 12 - ppb) (ppb * ppb)), (Z.ltb_spec (id' - 12 - ppb) (ppb * ppb)); intros E; simplify_eq; try lia.
  - set (k := id - 12 - ppb) in *. set (k' := id' - 12 - ppb) in *.
    pose proof (Z_div_mod_eq_full k ppb). pose proof (Z_div_mod_eq_full k' ppb). assert (k = k') by congruence. lia.
  - set (k := id - 12 - ppb - ppb * ppb) in *. set (k' := id' - 12 - ppb - ppb * ppb) in *.
    pose proof (Z_div_mod_eq_full k ppb). pose proof (Z_div_mod_eq_full k' ppb).
    pose proof (Z_div_mod_eq_full (k / ppb) ppb). pose proof (Z_div_mod_eq_full (k' / ppb) ppb).
    rewrite <- !Z.div_div in * by lia. assert (k / ppb = k' / ppb) by congruence. assert (k = k') by congruence. lia.
Qed.

(** ** Reading the map *)

Lemma block_id_to_addr_zero d ino id : size_lo ino <= id * bs -> run (g_len G) (ext2_block_id_to_addr ino id bs) d = (0, d).
Proof. intros H. unfold ext2_block_id_to_addr. by replace (size_lo ino <=? id * bs) with true by lia. Qed.

Lemma at_nonzero d ino s p i : at_ G d ino s (p ++ [i]) <> 0 -> at_ G d ino s p <> 0 /\ at_ G d ino s (p ++ [i]) = ptr G d (at_ G d ino s p) i.
Proof. rewrite at_snoc. destruct (Z.eqb_spec (at_ G d ino s p) 0); done. Qed.

Lemma block_id_to_addr_spec d ino id : tree_ok G d ino -> valid_id id -> id * bs < size_lo ino -> bmap d ino id <> 0 ->
  run (g_len G) (ext2_block_id_to_addr ino id bs) d = (bmap d ino id * bs, d).
Proof.
  intros T Hid Hs Hne. destruct (locate_ok id Hid) as [Hp _]. destruct (to_data _ _ _ T _ _ Hp Hne) as (Hb & _). fold (bmap d ino id) in Hb.
  assert (Ha : u32 (bmap d ino id * bs) = bmap d ino id * bs).
  { apply u32_small. pose proof (block_end G HG (bmap d ino id) ltac:(lia)). pose proof (go_len _ HG). pose proof (bs_pos G HG). nia. }
  pose proof (ppb_pos G HG) as [Hpp Hb4]. unfold valid_id in Hid. unfold ext2_block_id_to_addr. replace (size_lo ino <=? id * bs) with false by lia.
  replace (bs / 4) with ppb by (unfold Ext2Tree.ppb; done). rewrite ppb_mul. unfold bmap, locate in *.
  destruct (Z.ltb_spec id 12).
  { cbn [fst snd] in *. change (at_ G d ino id []) with (direct_block_pointers ino id) in *. by rewrite Ha. }
  destruct (Z.ltb_spec (id - 12) ppb).
  { cbn [fst snd] in *. destruct (at_nonzero d ino 12 [] (id - 12) Hne) as [N1 E1]. rewrite app_nil_l in E1.
    destruct (to_data _ _ _ T 12 [] (path_ok_nil G 12 ltac:(lia)) N1) as (Q1 & _). change (at_ G d ino 12 []) with (singly_indirect_block_pointer ino) in *.
    rewrite (run_block_ptr G HG) by (done || lia). by rewrite <- E1, Ha. }
  destruct (Z.ltb_spec (id - 12 - ppb) (ppb * ppb)).
  { cbn [fst snd] in *. set (k := id - 12 - ppb) in *. destruct (at_nonzero d ino 13 [k / ppb] (k mod ppb) Hne) as [N2 E2].
    destruct (at_nonzero d ino 13 [] (k / ppb) N2) as [N1 E1]. cbn [app] in E1, E2.
    destruct (path_ok_prefix G 13 [k / ppb] _ Hp) as (P2 & _ & I2). destruct (path_ok_prefix G 13 [] _ P2) as (P1 & _ & I1).
    destruct (to_data _ _ _ T _ _ P1 N1) as (Q1 & _). destruct (to_data _ _ _ T _ _ P2 N2) as (Q2 & _).
    change (at_ G d ino 13 []) with (doubly_indirect_block_pointer ino) in *.
    rewrite (run_block_ptr G HG) by (done || lia). rewrite <- E1, (run_block_ptr G HG) by (done || lia). by rewrite <- E2, Ha. }
  cbn [fst snd] in *. set (k := id - 12 - ppb - ppb * ppb) in *.
  destruct (at_nonzero d ino 14 [k / (ppb * ppb); k / ppb mod ppb] (k mod ppb) Hne) as [N3 E3].
  destruct (at_nonzero d ino 14 [k / (ppb * ppb)] (k / ppb mod ppb) N3) as [N2 E2].
  destruct (at_nonzero d ino 14 [] (k / (ppb * ppb)) N2) as [N1 E1]. cbn [app] in E1, E2, E3.
  destruct (path_ok_prefix G 14 [k / (ppb * ppb); k / ppb mod ppb] _ Hp) as (P3 & _ & I3).
  destruct (path_ok_prefix G 14 [k / (ppb * ppb)] _ P3) as (P2 & _ & I2). destruct (path_ok_prefix G 14 [] _ P2) as (P1 & _ & I1).
  destruct (to_data _ _ _ T _ _ P1 N1) as (Q1 & _). destruct (to_data _ _ _ T _ _ P2 N2) as (Q2 & _). destruct (to_data _ _ _ T _ _ P3 N3) as (Q3 & _).
  change (at_ G d ino 14 []) with (triply_indirect_block_pointer ino) in *.
  rewrite (run_block_ptr G HG) by (done || lia). rewrite <- E1, (run_block_ptr G HG) by (done || lia). rewrite <- E2, (run_block_ptr G HG) by (done || lia).
  by rewrite <- E3, Ha.
Qed.

(** ** Updating the map *)

(** Bytes that an operation on the inode must not change: those outside the
    bookkeeping that are not in a free block or an indirect block of the inode. *)
Definition foreign (d ino : memory) (a : Z) : Prop :=
  0 <= a /\ ~ book G a /\
  (g_zone G (a / bs) = ZData -> used G d (a / bs) = true /\ 0 <= a / bs < g_blocks G /\
     forall s p, path_ok G s p -> (length p < depth s)%nat -> at_ G d ino s p <> a / bs).

Record sets (d ino : memory) (id nb : Z) (d' ino' : memory) : Prop := {
  st_fs : fs_ok G d';
  st_tree : tree_ok G d' ino';
  st_bytes : bytes ino';
  st_used : forall b, 0 <= b < g_blocks G -> used G d b = true -> used G d' b = true;
  st_new : forall b, 0 < b < g_blocks G -> used G d' b = true -> used G d b = true \/ exists s p, path_ok G s p /\ at_ G d' ino' s p = b;
  st_keep : forall s p, path_ok G s p -> at_ G d ino s p <> 0 -> at_ G d' ino' s p = at_ G d ino s p;
  st_inner : forall s p, path_ok G s p -> (length p < depth s)%nat ->
    at_ G d' ino' s p = at_ G d ino s p \/ used G d (at_ G d' ino' s p) = false /\ 0 <= at_ G d' ino' s p < g_blocks G;
  st_nodes : forall s p, path_ok G s p ->
    at_ G d' ino' s p = at_ G d ino s p \/ at_ G d' ino' s p = nb \/ used G d (at_ G d' ino' s p) = false /\ 0 <= at_ G d' ino' s p < g_blocks G;
  st_map : forall id', valid_id id' -> bmap d' ino' id' = if decide (id' = id) then nb else bmap d ino id';
  st_frame : forall a, foreign d ino a -> d' a = d a;
  st_inode : forall x, ~ (40 <= x < 100) -> ino' x = ino x }.

Lemma foreign_grows d ino d' ino' a : grows G d ino d' ino' -> foreign d ino a -> foreign d' ino' a.
Proof.
  intros A (Ha & Hb & Hd). split; [done|]. split; [done|]. intros Hz. destruct (Hd Hz) as (U & R & N). split; [by apply (gr_used _ _ _ _ _ A)|]. split; [done|].
  intros s p Hp Hl E. destruct (gr_inner _ _ _ _ _ A s p Hp) as [E1|[E1 _]]; [by apply (N s p Hp Hl); rewrite <- E1|]. rewrite E in E1. congruence.
Qed.

Lemma fresh_grows d ino d' ino' nb : grows G d ino d' ino' -> fresh_block G d ino nb -> fresh_block G d' ino' nb.
Proof.
  intros A [(R1 & R2 & R3) N]. split; [split_and!; [lia|lia|done|apply (gr_used _ _ _ _ _ A); [lia|done]]|].
  intros s p Hp E. destruct (gr_inner _ _ _ _ _ A s p Hp) as [E1|[E1 _]]; [apply (N s p Hp); congruence|congruence].
Qed.

Lemma bmap_grows d ino d' ino' id : grows G d ino d' ino' -> valid_id id -> bmap d' ino' id = bmap d ino id.
Proof. intros A H. destruct (locate_ok id H) as [P L]. by apply (gr_leaf _ _ _ _ _ A). Qed.

Lemma grows_sets d ino d1 ino1 id nb d2 ino2 : grows G d ino d1 ino1 -> sets d1 ino1 id nb d2 ino2 -> sets d ino id nb d2 ino2.
Proof.
  intros A B. split; [apply B|apply B|apply B| | | | | | | |].
  - intros b Hb H. apply (st_used _ _ _ _ _ _ B); [done|]. by apply (gr_used _ _ _ _ _ A).
  - intros b Hb H. destruct (st_new _ _ _ _ _ _ B b Hb H) as [H1|H1]; [|by right].
    destruct (gr_new _ _ _ _ _ A b Hb H1) as [H2|(s & p & Hp & E)]; [by left|]. right. exists s, p. split; [done|].
    rewrite (st_keep _ _ _ _ _ _ B); [done|done|lia].
  - intros s p Hp Hne. rewrite (st_keep _ _ _ _ _ _ B); [by apply (gr_keep _ _ _ _ _ A)|done|]. by rewrite (gr_keep _ _ _ _ _ A).
  - intros s p Hp Hl. destruct (st_inner _ _ _ _ _ _ B s p Hp Hl) as [E|[E R]]; [rewrite E; by apply (gr_inner _ _ _ _ _ A)|].
    right. split; [|done]. destruct (used G d (at_ G d2 ino2 s p)) eqn:U; [|done]. rewrite (gr_used _ _ _ _ _ A) in E by done. done.
  - intros s p Hp. destruct (st_nodes _ _ _ _ _ _ B s p Hp) as [E|[E|[E R]]]; [|auto|].
    + rewrite E. destruct (gr_inner _ _ _ _ _ A s p Hp); auto.
    + right. right. split; [|done]. destruct (used G d (at_ G d2 ino2 s p)) eqn:U; [|done]. rewrite (gr_used _ _ _ _ _ A) in E by done. done.
  - intros id' Hid. rewrite (st_map _ _ _ _ _ _ B) by done. case_decide; [done|]. by apply bmap_grows.
  - intros a Ha. rewrite (st_frame _ _ _ _ _ _ B) by (by apply (foreign_grows d ino)). destruct Ha as (? & ? & ?). by apply (gr_frame _ _ _ _ _ A).
  - intros x Hx. rewrite (st_inode _ _ _ _ _ _ B) by done. by apply (gr_inode _ _ _ _ _ A).
Qed.

(** Setting a leaf. *)
Lemma leaf_sets d ino id nb d' ino' : fs_ok G d -> tree_ok G d ino -> valid_id id -> bmap d ino id = 0 -> fresh_block G d ino nb ->
  adds G d ino (locate id).1 (locate id).2 nb d' ino' -> bytes d' -> bytes ino' ->
  (forall a, 0 <= a -> d' a = d a \/ exists s q, path_ok G s q /\ (length q < depth s)%nat /\ at_ G d ino s q = a / bs /\ a / bs <> 0) ->
  (forall x, ~ (40 <= x < 100) -> ino' x = ino x) -> sets d ino id nb d' ino'.
Proof.
  intros F T Hid H0 N A Bd Bi Ch HI. destruct (locate_ok id Hid) as [Hp Hl].
  assert (Bk : forall a, 0 <= a -> book G a -> d' a = d a).
  { intros a Ha Hb. destruct (Ch a Ha) as [E|(s' & q & Hq & _ & E & Hne)]; [done|]. exfalso. rewrite <- E in Hne.
    destruct (to_data _ _ _ T s' q Hq Hne) as (_ & Hz & _). rewrite E in Hz. by apply (data_not_book G a). }
  assert (U : forall b, 0 <= b < g_blocks G -> used G d' b = used G d b) by (intros; by apply (used_frame G HG)).
  split; [by apply (fs_ok_frame G HG d)| |done| | | | | | | |done].
  - apply (adds_tree_ok G d ino (locate id).1 (locate id).2 nb); try done. intros b Hb. by rewrite U.
  - intros b Hb. by rewrite U.
  - intros b Hb. rewrite U by lia. by left.
  - intros s p Hp' Hne. rewrite (A s p Hp'). rewrite decide_False; [done|]. intros [-> ->]. done.
  - intros s p Hp' Hlp. rewrite (A s p Hp'). rewrite decide_False; [by left|]. intros [-> ->]. lia.
  - intros s p Hp'. rewrite (A s p Hp'). case_decide; auto.
  - intros id' Hid'. destruct (locate_ok id' Hid') as [Hp' _]. unfold bmap. rewrite (A _ _ Hp').
    destruct (decide (id' = id)) as [->|Ne]; [by rewrite decide_True|]. rewrite decide_False; [done|]. intros [E1 E2]. apply Ne, locate_inj; [done|done|].
    rewrite (surjective_pairing (locate id')), (surjective_pairing (locate id)). congruence.
  - intros a (Ha & Hb & Hd). destruct (Ch a Ha) as [E|(s' & q & Hq & Hlq & E & Hne)]; [done|]. exfalso. rewrite <- E in Hne.
    destruct (to_data _ _ _ T s' q Hq Hne) as (_ & Hz & _). rewrite E in Hz. destruct (Hd Hz) as (_ & _ & N'). by apply (N' s' q).
Qed.

Lemma leaf_entry_sets d ino id nb s p i : fs_ok G d -> tree_ok G d ino -> bytes ino -> valid_id id -> bmap d ino id = 0 -> fresh_block G d ino nb ->
  locate id = (s, p ++ [i]) -> at_ G d ino s p <> 0 -> sets d ino id nb (store32 d (at_ G d ino s p * bs + i * 4) nb) ino.
Proof.
  intros F T B Hid H0 N El Hne. destruct (locate_ok id Hid) as [Hp Hl]. rewrite El in Hp, Hl. cbn [fst snd] in Hp, Hl.
  assert (H0' : at_ G d ino s (p ++ [i]) = 0) by (unfold bmap in H0; by rewrite El in H0).
  destruct (path_ok_prefix G s p i Hp) as (Hp' & Hlp & Hi).
  apply leaf_sets; try done.
  - rewrite El. apply (link_entry G HG); try done. intros Hlt. lia.
  - apply store32_bytes. apply F.
  - intros a Ha. destruct (store_ptr_change G HG d ino s p i nb T Hp Hne a Ha) as [E|E]; [by left|]. right. exists s, p. split_and!; congruence || done.
Qed.

Lemma full_grows d ino d' ino' : grows G d ino d' ino' -> full G d -> full G d'.
Proof. intros A H b Hb. apply (gr_used _ _ _ _ _ A); [done|]. by apply H. Qed.

(** The outcome of [ext2_set_block_id]. *)
Definition set_result (d ino : memory) (id nb : Z) (ok : bool) (d' ino' : memory) : Prop :=
  if ok then sets d ino id nb d' ino' else grows G d ino d' ino' /\ full G d'.

Lemma run_write_ptr {A} d b i v (f : unit -> io A) : 0 <= b < g_blocks G -> 0 <= i < ppb ->
  run (g_len G) (write_block_ptr b i bs v ≫= f) d = run (g_len G) (f tt) (store32 d (b * bs + i * 4) v).
Proof.
  intros Hb Hi. pose proof (ppb_pos G HG). pose proof (block_end G HG b Hb). pose proof (len_small G HG). pose proof (bs_pos G HG).
  unfold write_block_ptr. rewrite run_write_in by (done || nia). by rewrite blit_word.
Qed.

Lemma set_result_grows d ino d1 ino1 id nb ok d2 ino2 : grows G d ino d1 ino1 -> set_result d1 ino1 id nb ok d2 ino2 -> set_result d ino id nb ok d2 ino2.
Proof.
  intros A. destruct ok; cbn; [by apply grows_sets|]. intros [B C]. split; [by apply (tree_grows_trans G d ino d1 ino1)|done].
Qed.

(** The last two steps of every indirect case: the entry of the last table. *)
Lemma set_leaf_spec d ino id nb s p i : fs_ok G d -> tree_ok G d ino -> bytes ino -> valid_id id -> bmap d ino id = 0 -> fresh_block G d ino nb ->
  locate id = (s, p ++ [i]) -> at_ G d ino s p <> 0 ->
  exists d', run (g_len G) (_ ← write_block_ptr (at_ G d ino s p) i bs nb; mret (true, ino)) d = ((true, ino), d') /\ sets d ino id nb d' ino.
Proof.
  intros F T B Hid H0 N El Hne. destruct (locate_ok id Hid) as [Hp _]. rewrite El in Hp. cbn [fst snd] in Hp.
  destruct (path_ok_prefix G s p i Hp) as (Hp' & _ & Hi). destruct (to_data _ _ _ T s p Hp' Hne) as (R & _).
  rewrite run_write_ptr by (done || lia). eexists. split; [done|]. by apply leaf_entry_sets.
Qed.

(** One level: what a step needs and what it leaves for the next. *)
Record level (d ino : memory) (id nb : Z) : Prop := {
  lv_fs : fs_ok G d;
  lv_tree : tree_ok G d ino;
  lv_bytes : bytes ino;
  lv_zero : bmap d ino id = 0;
  lv_fresh : fresh_block G d ino nb }.

Lemma level_grows d ino d' ino' id nb : valid_id id -> grows G d ino d' ino' -> level d ino id nb -> level d' ino' id nb.
Proof.
  intros Hid A [F T B Z N]. split; [apply A|apply A|apply A| |by apply (fresh_grows d ino)]. by rewrite (bmap_grows d ino).
Qed.

Lemma set_block_id_spec d ino id nb : level d ino id nb -> valid_id id ->
  exists ok d' ino', run (g_len G) (ext2_set_block_id ino id bs nb) d = ((ok, ino'), d') /\ set_result d ino id nb ok d' ino'.
Proof.
  intros L Hid. pose proof (locate_ok id Hid) as [Hp Hl]. pose proof (ppb_pos G HG) as [Hpp _]. unfold ext2_set_block_id.
  replace (bs / 4) with ppb by done. rewrite ppb_mul. unfold locate in Hp, Hl. pose proof (eq_refl (locate id)) as El. unfold locate in El at 2.
  destruct (Z.ltb_spec id 12) as [H12|H12].
  { exists true, d, (set_direct_block_pointers id nb ino). split; [done|]. destruct L as [F T B Z N]. cbn [fst snd] in *. apply leaf_sets; try done.
    - rewrite El. apply (link_slot G HG); try done; [apply Hp| |].
      + unfold bmap in Z. by rewrite El in Z.
      + intros Hlt. cbn in Hlt, Hl. lia.
    - apply F.
    - by apply store32_bytes.
    - by left.
    - intros x Hx. unfold set_direct_block_pointers. apply store32_frame. unfold valid_id in Hid. lia. }
  destruct (Z.ltb_spec (id - 12) ppb) as [H1|H1].
  { change (singly_indirect_block_pointer ino) with (slot ino 12). rewrite run_bind.
    destruct (ensure_indirect_spec G HG d ino 12 (lv_fs _ _ _ _ L) (lv_tree _ _ _ _ L) (lv_bytes _ _ _ _ L) ltac:(lia)) as (r & d1 & -> & A & E & Z).
    change (store32 ino (40 + 4 * 12) r) with (set_singly_indirect_block_pointer r ino) in A, E. set (ino1 := set_singly_indirect_block_pointer r ino) in *.
    destruct (Z.eqb_spec r 0) as [R0|R0]; [exists false, d1, ino1; split; [done|]; split; [done|]; apply (full_grows d ino d1 ino1); auto|].
    apply (level_grows _ _ _ _ _ _ Hid A) in L as [F T B Z0 N]. rewrite <- E in R0 |- *.
    destruct (set_leaf_spec d1 ino1 id nb 12 [] (id - 12) F T B Hid Z0 N El R0) as (d2 & -> & S). exists true, d2, ino1. split; [done|].
    by apply (grows_sets d ino d1 ino1). }
  destruct (Z.ltb_spec (id - 12 - ppb) (ppb * ppb)) as [H2|H2].
  { set (k := id - 12 - ppb) in *. change (doubly_indirect_block_pointer ino) with (slot ino 13). rewrite run_bind. cbn [fst snd] in Hp, Hl.
    destruct (path_ok_prefix G 13 [k / ppb] _ Hp) as (P1 & L1 & _).
    destruct (ensure_indirect_spec G HG d ino 13 (lv_fs _ _ _ _ L) (lv_tree _ _ _ _ L) (lv_bytes _ _ _ _ L) ltac:(lia)) as (r & d1 & -> & A & E & Z).
    change (store32 ino (40 + 4 * 13) r) with (set_doubly_indirect_block_pointer r ino) in A, E. set (ino1 := set_doubly_indirect_block_pointer r ino) in *.
    destruct (Z.eqb_spec r 0) as [R0|R0]; [exists false, d1, ino1; split; [done|]; split; [done|]; apply (full_grows d ino d1 ino1); auto|].
    apply (level_grows _ _ _ _ _ _ Hid A) in L. rewrite <- E in R0 |- *. rewrite run_bind.
    destruct (ensure_entry_spec G HG d1 ino1 13 [] (k / ppb) (lv_fs _ _ _ _ L) (lv_tree _ _ _ _ L) (lv_bytes _ _ _ _ L) P1 L1 R0) as (r2 & d2 & -> & A2 & E2 & Z2). cbn [app] in E2.
    pose proof (tree_grows_trans G _ _ _ _ _ _ A A2) as A12.
    destruct (Z.eqb_spec r2 0) as [R2|R2]; [exists false, d2, ino1; split; [done|]; split; [done|]; apply (full_grows d1 ino1 d2 ino1); auto|].
    apply (level_grows _ _ _ _ _ _ Hid A2) in L as [F T B Z0 N]. rewrite <- E2 in R2 |- *.
    destruct (set_leaf_spec d2 ino1 id nb 13 [k / ppb] (k mod ppb) F T B Hid Z0 N El R2) as (d3 & -> & S). exists true, d3, ino1. split; [done|].
    by apply (grows_sets d ino d2 ino1). }
  set (k := id - 12 - ppb - ppb * ppb) in *. change (triply_indirect_block_pointer ino) with (slot ino 14). rewrite run_bind. cbn [fst snd] in Hp, Hl.
  destruct (path_ok_prefix G 14 [k / (ppb * ppb); k / ppb mod ppb] _ Hp) as (P2 & L2 & _). destruct (path_ok_prefix G 14 [k / (ppb * ppb)] _ P2) as (P1 & L1 & _).
  destruct (ensure_indirect_spec G HG d ino 14 (lv_fs _ _ _ _ L) (lv_tree _ _ _ _ L) (lv_bytes _ _ _ _ L) ltac:(lia)) as (r & d1 & -> & A & E & Z).
  change (store32 ino (40 + 4 * 14) r) with (set_triply_indirect_block_pointer r ino) in A, E. set (ino1 := set_triply_indirect_block_pointer r ino) in *.
  destruct (Z.eqb_spec r 0) as [R0|R0]; [exists false, d1, ino1; split; [done|]; split; [done|]; apply (full_grows d ino d1 ino1); auto|].
  apply (level_grows _ _ _ _ _ _ Hid A) in L. rewrite <- E in R0 |- *. rewrite run_bind.
  destruct (ensure_entry_spec G HG d1 ino1 14 [] (k / (ppb * ppb)) (lv_fs _ _ _ _ L) (lv_tree _ _ _ _ L) (lv_bytes _ _ _ _ L) P1 L1 R0) as (r2 & d2 & -> & A2 & E2 & Z2). cbn [app] in E2.
  pose proof (tree_grows_trans G _ _ _ _ _ _ A A2) as A12.
  destruct (Z.eqb_spec r2 0) as [R2|R2]; [exists false, d2, ino1; split; [done|]; split; [done|]; apply (full_grows d1 ino1 d2 ino1); auto|].
  apply (level_grows _ _ _ _ _ _ Hid A2) in L. rewrite <- E2 in R2 |- *. rewrite run_bind.
  destruct (ensure_entry_spec G HG d2 ino1 14 [k / (ppb * ppb)] (k / ppb mod ppb) (lv_fs _ _ _ _ L) (lv_tree _ _ _ _ L) (lv_bytes _ _ _ _ L) P2 L2 R2) as (r3 & d3 & -> & A3 & E3 & Z3). cbn [app] in E3.
  pose proof (tree_grows_trans G _ _ _ _ _ _ A12 A3) as A123.
  destruct (Z.eqb_spec r3 0) as [R3|R3]; [exists false, d3, ino1; split; [done|]; split; [done|]; apply (full_grows d2 ino1 d3 ino1); auto|].
  apply (level_grows _ _ _ _ _ _ Hid A3) in L as [F T B Z0 N]. rewrite <- E3 in R3 |- *.
  destruct (set_leaf_spec d3 ino1 id nb 14 [k / (ppb * ppb); k / ppb mod ppb] (k mod ppb) F T B Hid Z0 N El R3) as (d4 & -> & S). exists true, d4, ino1. split; [done|].
  by apply (grows_sets d ino d3 ino1).
Qed.
End Map.
