(* ===== verification/Ext2File.v ===== *)
(** Files of ext2: [ext2_read], [ext2_write] and [ext2_truncate].

    The content of a file is the function from positions to bytes that its block
    map gives ([byte_at]).  [file_ok] is the invariant of a file: the blocks up to
    its size are there, and none after it.  Reading gives a part of the content;
    writing replaces a part of it, grows the file if need be, and leaves the rest
    of the disk alone. *)

From S2P Require Import Prelude CMem Vfs Elf BlockIo Ext2 Ext2Alloc Ext2Tree Ext2Map.
From Stdlib Require Import ZArith Lia Bool FunctionalExtensionality.
From stdpp Require Import base tactics numbers list.
Open Scope Z_scope.

Definition meta_of (G : geometry) : ext2_meta := mk_meta (g_ipg G) (g_bs G) (g_isize G).

(** Extending a copied part. *)
Lemma blit_extend out c n k part : 0 <= n -> 0 <= k -> (forall i, 0 <= i < k -> part i = c (n + i)) ->
  blit (blit out 0 n c) n k part = blit out 0 (n + k) c.
Proof.
  intros Hn Hk H. apply functional_extensionality. intros x. destruct (decide (n <= x < n + k)).
  - rewrite blit_in by lia. rewrite H by lia. rewrite blit_in by lia. f_equal. lia.
  - rewrite blit_out by lia. destruct (decide (0 <= x < n)); [by rewrite !blit_in by lia|]. by rewrite !blit_out by lia.
Qed.

Lemma blit_none out c : blit out 0 0 c = out.
Proof. apply functional_extensionality. intros x. apply blit_out. lia. Qed.

Section File.
Context (G : geometry) (HG : geometry_ok G).

Abbreviation bs := (g_bs G).
Abbreviation meta := (meta_of G).

Definition byte_at (d ino : memory) (pos : Z) : Z := d (bmap G d ino (pos / bs) * bs + pos mod bs).

Record file_ok (d ino : memory) : Prop := {
  fl_fs : fs_ok G d;
  fl_tree : tree_ok G d ino;
  fl_bytes : bytes ino;
  fl_dense : forall id, 0 <= id -> id * bs < size_lo ino -> bmap G d ino id <> 0;
  fl_beyond : forall id, valid_id G id -> size_lo ino <= id * bs -> bmap G d ino id = 0 }.

(** Block numbers below 2^32 bytes are valid. *)
Lemma id_valid id : 0 <= id -> id * bs <= 2 ^ 32 -> valid_id G id.
Proof. intros H1 H2. pose proof (ppb_pos G HG) as [Hp Hb]. unfold valid_id. split; [done|]. assert (id <= 2 ^ 22) by nia. nia. Qed.

Lemma block_lt a b : a < b -> a * bs + bs <= b * bs.
Proof. intros H. pose proof (bs_pos G HG). nia. Qed.

Lemma pos_split pos : 0 <= pos -> 0 <= pos / bs /\ 0 <= pos mod bs < bs /\ pos = pos / bs * bs + pos mod bs.
Proof.
  intros H. pose proof (bs_pos G HG). pose proof (Z_div_mod_eq_full pos bs). pose proof (Z.mod_pos_bound pos bs ltac:(lia)).
  split; [apply Z.div_pos; lia|]. lia.
Qed.

Lemma in_part i o : 0 <= o < bs -> (i * bs + o) / bs = i /\ (i * bs + o) mod bs = o.
Proof.
  intros. pose proof (bs_pos G HG). split; [by apply in_block|]. rewrite Z.add_comm, Z.mod_add by lia. by apply Z.mod_small.
Qed.

(** ** The inode on the disk *)

Lemma inode_block n k : 0 < n <= g_inodes G -> 0 <= k < 128 -> (inode_addr G n + k) / bs = inode_addr G n / bs.
Proof.
  intros Hn Hk. destruct (go_isize _ HG) as [Hi1 Hi2]. pose proof (bs_pos G HG). pose proof (go_ipg _ HG).
  apply Z.mod_divide in Hi2 as [q Hq]; [|lia]. unfold inode_addr. set (t := g_it G _). set (x := (n - 1) mod g_ipg G).
  assert (0 <= x) by (apply Z.mod_pos_bound; lia). rewrite <- Z.add_assoc, !Z.div_add_l by lia. f_equal.
  rewrite Hq. assert (0 < q) by nia. rewrite (Z.mul_comm q), <- !Z.div_div by lia. f_equal.
  rewrite Z.div_add_l by lia. rewrite Z.div_mul by lia. rewrite Z.div_small by lia. lia.
Qed.

Lemma inode_zone n k : 0 < n <= g_inodes G -> 0 <= k < 128 -> g_zone G ((inode_addr G n + k) / bs) = ZTable ((n - 1) / g_ipg G).
Proof. intros Hn Hk. rewrite inode_block by done. by apply HG. Qed.

Lemma inode_inside n : 0 < n <= g_inodes G -> 0 <= inode_addr G n /\ inode_addr G n + 128 <= g_len G.
Proof.
  intros Hn. destruct (go_inodes _ HG n Hn) as (_ & _ & B). pose proof (inode_block n 127 Hn ltac:(lia)) as E.
  pose proof (bs_pos G HG). pose proof (go_len _ HG). pose proof (Z.mul_succ_div_gt (inode_addr G n + 127) bs ltac:(lia)).
  pose proof (Z.mul_div_le (inode_addr G n) bs ltac:(lia)). rewrite E in *. nia.
Qed.

Lemma run_write_inode {A} d n ino (f : unit -> io A) : fs_ok G d -> 0 < n <= g_inodes G ->
  run (g_len G) (ext2_write_inode meta n ino ≫= f) d = run (g_len G) (f tt) (blit d (inode_addr G n) 128 ino).
Proof.
  intros F Hn. pose proof (len_small G HG). destruct (inode_inside n Hn). destruct (go_inodes _ HG n Hn) as (Hg & _).
  destruct (desc_inside G HG _ Hg). destruct (fo_desc _ _ F _ Hg) as [_ Et]. pose proof (go_numbers _ HG).
  unfold ext2_write_inode. cbn [inodes_per_group block_size inode_size meta_of]. rewrite u32_small by lia. rewrite run_bind.
  fold (desc G ((n - 1) / g_ipg G)). unfold sizeof_gdt, sizeof_inode. rewrite run_read_in by (done || lia).
  unfold inode_table_start_addr. rewrite fetch_load32 by lia. rewrite Et. fold (inode_addr G n). rewrite run_last_write by (done || lia). done.
Qed.

(** Changes of the inode table and of fields of the inode that are not pointers. *)
Lemma at_same d d' ino ino' : tree_ok G d ino -> (forall s, 0 <= s < 15 -> slot ino' s = slot ino s) ->
  (forall a s p, 0 <= a -> path_ok G s p -> (length p < depth s)%nat -> at_ G d ino s p = a / bs -> at_ G d ino s p <> 0 -> d' a = d a) ->
  forall s p, path_ok G s p -> at_ G d' ino' s p = at_ G d ino s p.
Proof.
  intros T Hs H s p Hp. apply at_frame; [done|done|]. intros q i Hq Hne. destruct (path_ok_prefix G _ _ _ Hq) as (Hq' & Hl & Hi).
  destruct (to_data _ _ _ T s q Hq' Hne) as (Hr & _). apply (ptr_frame G HG); [done| |lia]. intros a Ha Ea. by apply (H a s q).
Qed.

Lemma slot_same ino ino' : (forall x, 40 <= x < 100 -> ino' x = ino x) -> forall s, 0 <= s < 15 -> slot ino' s = slot ino s.
Proof. intros H s Hs. apply load32_frame. intros x Hx. apply H. lia. Qed.

Lemma tree_ok_same d d' ino ino' : tree_ok G d ino -> (forall s p, path_ok G s p -> at_ G d' ino' s p = at_ G d ino s p) ->
  (forall b, 0 <= b < g_blocks G -> used G d b = true -> used G d' b = true) -> tree_ok G d' ino'.
Proof.
  intros [T1 T2] E U. split.
  - intros s p Hp. rewrite E by done. intros Hne. destruct (T1 s p Hp Hne) as (? & ? & ?). split_and!; try lia; [done|apply U; [lia|done]].
  - intros s p s' p' Hp Hp'. rewrite !E by done. by apply T2.
Qed.

(** ** Progress: what operations on a file do to the disk *)

(** Bytes that belong to something else. *)
Definition alien (d ino : memory) (a : Z) : Prop :=
  0 <= a /\ ~ book G a /\
  (g_zone G (a / bs) = ZData -> used G d (a / bs) = true /\ 0 <= a / bs < g_blocks G /\ forall s p, path_ok G s p -> at_ G d ino s p <> a / bs).

Record progress (d ino d' ino' : memory) : Prop := {
  pg_fs : fs_ok G d';
  pg_tree : tree_ok G d' ino';
  pg_bytes : bytes ino';
  pg_used : forall b, 0 <= b < g_blocks G -> used G d b = true -> used G d' b = true;
  pg_nodes : forall s p, path_ok G s p ->
    at_ G d' ino' s p = at_ G d ino s p \/ used G d (at_ G d' ino' s p) = false /\ 0 <= at_ G d' ino' s p < g_blocks G;
  pg_frame : forall a, alien d ino a -> d' a = d a;
  pg_inode : forall x, ~ (40 <= x < 100) -> ino' x = ino x }.

Lemma progress_refl d ino : fs_ok G d -> tree_ok G d ino -> bytes ino -> progress d ino d ino.
Proof. intros. split; auto. Qed.

Lemma alien_progress d ino d' ino' a : progress d ino d' ino' -> alien d ino a -> alien d' ino' a.
Proof.
  intros A (Ha & Hb & Hd). split; [done|]. split; [done|]. intros Hz. destruct (Hd Hz) as (U & R & N). split; [by apply (pg_used _ _ _ _ A)|]. split; [done|].
  intros s p Hp E. destruct (pg_nodes _ _ _ _ A s p Hp) as [E1|[E1 _]]; [by apply (N s p Hp); rewrite <- E1|]. rewrite E in E1. congruence.
Qed.

Lemma progress_trans d ino d1 ino1 d2 ino2 : progress d ino d1 ino1 -> progress d1 ino1 d2 ino2 -> progress d ino d2 ino2.
Proof.
  intros A B. split; [apply B|apply B|apply B| | | |].
  - intros b Hb H. apply (pg_used _ _ _ _ B); [done|]. by apply (pg_used _ _ _ _ A).
  - intros s p Hp. destruct (pg_nodes _ _ _ _ B s p Hp) as [E|[E R]]; [rewrite E; by apply (pg_nodes _ _ _ _ A)|].
    right. split; [|done]. destruct (used G d (at_ G d2 ino2 s p)) eqn:U; [|done]. rewrite (pg_used _ _ _ _ A) in E by done. done.
  - intros a Ha. rewrite (pg_frame _ _ _ _ B) by (by apply (alien_progress d ino)). by apply (pg_frame _ _ _ _ A).
  - intros x Hx. rewrite (pg_inode _ _ _ _ B) by done. by apply (pg_inode _ _ _ _ A).
Qed.

Lemma alien_foreign d ino a : alien d ino a -> foreign G d ino a.
Proof. intros (Ha & Hb & Hd). split; [done|]. split; [done|]. intros Hz. destruct (Hd Hz) as (U & R & N). split_and!; try done; try lia. intros s p Hp _. by apply N. Qed.

Lemma grows_progress d ino d' ino' : grows G d ino d' ino' -> progress d ino d' ino'.
Proof.
  intros A. split; [apply A|apply A|apply A|apply (gr_used _ _ _ _ _ A)|apply (gr_inner _ _ _ _ _ A)| |apply (gr_inode _ _ _ _ _ A)].
  intros a Ha. apply alien_foreign in Ha as (? & ? & ?). by apply (gr_frame _ _ _ _ _ A).
Qed.

(** A store into a data block of the file. *)
Section DataWrite.
Context (d ino : memory) (i o n : Z) (src : memory).
Context (F : fs_ok G d) (T : tree_ok G d ino) (B : bytes ino) (Hi : valid_id G i) (Hne : bmap G d ino i <> 0).
Context (Ho : 0 <= o) (Hon : o + n <= bs) (Hsrc : bytes src).

Definition data_written : memory := blit d (bmap G d ino i * bs + o) n src.

Lemma dw_out a : a / bs <> bmap G d ino i -> data_written a = d a.
Proof. intros H. apply blit_out. rewrite <- (block_offset G HG) in H. lia. Qed.

Lemma leaf_data : data_block G d (bmap G d ino i).
Proof. destruct (locate_ok G HG i Hi) as [Hp _]. by apply (to_data _ _ _ T). Qed.

Lemma dw_book a : 0 <= a -> book G a -> data_written a = d a.
Proof. intros Ha Hb. apply dw_out. intros E. destruct leaf_data as (_ & Hz & _). rewrite <- E in Hz. by apply (data_not_book G a). Qed.

Lemma dw_at s p : path_ok G s p -> at_ G data_written ino s p = at_ G d ino s p.
Proof.
  apply at_same; [done|done|]. intros a s' p' Ha Hp Hl E N. apply dw_out. intros E2. destruct (locate_ok G HG i Hi) as [Hp2 Hl2].
  destruct (to_inj _ _ _ T s' p' _ _ Hp Hp2) as [-> ->]; [unfold bmap in E2; congruence|done|lia].
Qed.

Lemma dw_bmap id : valid_id G id -> bmap G data_written ino id = bmap G d ino id.
Proof. intros H. destruct (locate_ok G HG id H) as [Hp _]. by apply dw_at. Qed.

Lemma dw_bytes : bytes data_written.
Proof. apply blit_bytes; [apply F|done]. Qed.

Lemma dw_progress : progress d ino data_written ino.
Proof.
  assert (U : forall b, 0 <= b < g_blocks G -> used G data_written b = used G d b) by (intros b Hb; apply (used_frame G HG); [done|apply dw_book]).
  split; [apply (fs_ok_frame G HG d); [done|apply dw_bytes|apply dw_book]| |done| | | |done].
  - apply (tree_ok_same d data_written ino); [done|apply dw_at|]. intros b Hb. by rewrite U.
  - intros b Hb. by rewrite U.
  - intros s p Hp. left. by apply dw_at.
  - intros a (Ha & Hb & Hd). apply dw_out. intros E. destruct leaf_data as (_ & Hz & _). rewrite <- E in Hz. destruct (Hd Hz) as (_ & _ & N).
    destruct (locate_ok G HG i Hi) as [Hp _]. by apply (N _ _ Hp).
Qed.

Lemma dw_byte_at pos : 0 <= pos -> valid_id G (pos / bs) -> bmap G d ino (pos / bs) <> 0 ->
  byte_at data_written ino pos = if decide (pos / bs = i /\ o <= pos mod bs < o + n) then src (pos mod bs - o) else byte_at d ino pos.
Proof.
  intros Hp Hv Hb. destruct (pos_split pos Hp) as (P1 & P2 & P3). unfold byte_at. rewrite dw_bmap by done. case_decide as D.
  - destruct D as [-> Dm]. unfold data_written. rewrite blit_in by lia. f_equal. lia.
  - destruct (decide (pos / bs = i)) as [E|E].
    + unfold data_written. apply blit_out. rewrite E in *. lia.
    + apply dw_out. rewrite in_block by (done || lia). intros E2. apply E. destruct (locate_ok G HG _ Hv) as [L1 _]. destruct (locate_ok G HG _ Hi) as [L2 _].
      destruct (to_inj _ _ _ T _ _ _ _ L1 L2 E2 Hb) as [E3 E4]. apply (locate_inj G HG); [done|done|].
      rewrite (surjective_pairing (locate G (pos / bs))), (surjective_pairing (locate G i)). congruence.
Qed.
End DataWrite.

(** ** A new block at the end *)

Lemma leaf_foreign d ino id a : tree_ok G d ino -> valid_id G id -> bmap G d ino id <> 0 -> 0 <= a -> a / bs = bmap G d ino id -> foreign G d ino a.
Proof.
  intros T Hid Hne Ha E. unfold bmap in *. destruct (locate_ok G HG id Hid) as [Hp Hl]. destruct (to_data _ _ _ T _ _ Hp Hne) as (R & Hz & U).
  split; [done|]. split; [apply data_not_book; congruence|]. intros _. rewrite E. split; [done|]. split; [lia|]. intros s p Hp' Hl' E2.
  destruct (to_inj _ _ _ T _ _ _ _ Hp' Hp E2) as [-> ->]; [congruence|lia].
Qed.

(** An allocation as a step. *)
Lemma marked_step d ino r d1 : fs_ok G d -> tree_ok G d ino -> bytes ino -> 0 < r < g_blocks G -> g_zone G r = ZData -> used G d r = false -> marked G d r true d1 ->
  progress d ino d1 ino /\ fresh_block G d1 ino r /\ (forall s p, path_ok G s p -> at_ G d1 ino s p = at_ G d ino s p) /\ (forall a, 0 <= a -> ~ book G a -> d1 a = d a).
Proof.
  intros F T B Hr Hz Hu [M1 M2 M3].
  assert (A : forall s p, path_ok G s p -> at_ G d1 ino s p = at_ G d ino s p).
  { apply at_same; [done|done|]. intros a s p Ha Hp _ E Hne. apply M3; [done|]. apply data_not_book. rewrite <- E. by apply (to_data _ _ _ T). }
  assert (U : forall b, 0 <= b < g_blocks G -> used G d b = true -> used G d1 b = true) by (intros b Hb Hub; rewrite M2 by done; by case_decide).
  split_and!; [split; try done| |done|done].
  - by apply (tree_ok_same d d1 ino).
  - intros s p Hp. left. by apply A.
  - intros a (Ha & Hb & _). by apply M3.
  - split; [split_and!; [lia|lia|done|rewrite M2 by lia; by rewrite decide_True]|].
    intros s p Hp E. rewrite A in E by done. destruct (to_data _ _ _ T s p Hp ltac:(lia)) as (_ & _ & R3). congruence.
Qed.

Lemma alloc_sets_progress d ino r d1 id d2 ino2 : fs_ok G d -> tree_ok G d ino -> bytes ino -> 0 < r < g_blocks G -> g_zone G r = ZData -> used G d r = false ->
  marked G d r true d1 -> sets G d1 ino id r d2 ino2 -> progress d ino d2 ino2.
Proof.
  intros F T B Hr Hz Hu M S. destruct (marked_step d ino r d1 F T B Hr Hz Hu M) as (P & N & A & Fr).
  split; [apply S|apply S|apply S| | | |].
  - intros b Hb Hub. apply (st_used _ _ _ _ _ _ _ S); [done|]. by apply (pg_used _ _ _ _ P).
  - intros s p Hp. destruct (st_nodes _ _ _ _ _ _ _ S s p Hp) as [E|[E|[E R]]].
    + left. by rewrite E, A.
    + right. rewrite E. split; [done|lia].
    + right. split; [|done]. destruct (used G d (at_ G d2 ino2 s p)) eqn:U; [|done]. rewrite (pg_used _ _ _ _ P) in E by done. done.
  - intros a Ha. rewrite (st_frame _ _ _ _ _ _ _ S) by (apply alien_foreign; by apply (alien_progress d ino)). by apply (pg_frame _ _ _ _ P).
  - intros x Hx. by apply (st_inode _ _ _ _ _ _ _ S).
Qed.

(** The content of the blocks that were there is kept. *)
Definition keeps (d ino d' ino' : memory) : Prop :=
  forall pos, 0 <= pos -> valid_id G (pos / bs) -> bmap G d ino (pos / bs) <> 0 -> byte_at d' ino' pos = byte_at d ino pos.

Lemma keeps_frame d ino d' ino' : (forall id, valid_id G id -> bmap G d ino id <> 0 -> bmap G d' ino' id = bmap G d ino id) -> tree_ok G d ino ->
  (forall a, foreign G d ino a -> d' a = d a) -> keeps d ino d' ino'.
Proof.
  intros E T H pos Hp Hv Hne. destruct (pos_split pos Hp) as (P1 & P2 & P3). unfold byte_at. rewrite E by done. apply H.
  destruct (locate_ok G HG _ Hv) as [L _]. destruct (to_data _ _ _ T _ _ L Hne) as (R & _). fold (bmap G d ino (pos / bs)) in R. pose proof (bs_pos G HG).
  apply (leaf_foreign d ino (pos / bs)); [done|done|done|nia|]. by apply in_block.
Qed.

Definition block_added (d ino : memory) (i : Z) (r : option Z) (d' ino' : memory) : Prop :=
  progress d ino d' ino' /\ keeps d ino d' ino' /\
  match r with
  | Some addr => exists nb, addr = nb * bs /\ nb <> 0 /\ forall id, valid_id G id -> bmap G d' ino' id = if decide (id = i) then nb else bmap G d ino id
  | None => full G d' /\ forall id, valid_id G id -> bmap G d' ino' id = bmap G d ino id
  end.

Lemma add_data_block_spec d ino i : fs_ok G d -> tree_ok G d ino -> bytes ino -> valid_id G i -> bmap G d ino i = 0 ->
  exists r d' ino', run (g_len G) (add_block meta ino i) d = ((r, ino'), d') /\ block_added d ino i r d' ino'.
Proof.
  intros F T B Hi H0. pose proof (len_small G HG). pose proof (bs_pos G HG). unfold add_block. cbn [block_size meta_of]. rewrite run_bind.
  destruct (alloc_block_spec G HG d F) as (r & d1 & -> & [(-> & -> & Hfull)|(Hr & Hz & Hu & M)]).
  { exists None, d, ino. split; [done|]. split_and!; [by apply progress_refl|done|done|done]. }
  replace (r =? 0) with false by lia. destruct (marked_step d ino r d1 F T B Hr Hz Hu M) as (P & N & A & Fr).
  assert (Eb : forall id, valid_id G id -> bmap G d1 ino id = bmap G d ino id) by (intros id Hid; destruct (locate_ok G HG id Hid); by apply A).
  assert (L : level G d1 ino i r) by (split; [apply P|apply P|done|by rewrite Eb|done]).
  rewrite run_bind. destruct (set_block_id_spec G HG d1 ino i r L Hi) as (ok & d2 & ino2 & -> & S). destruct ok; cbn [negb].
  2:{ destruct S as [S1 S2]. exists None, d2, ino2. split; [done|]. assert (Em : forall id, valid_id G id -> bmap G d2 ino2 id = bmap G d ino id)
        by (intros id Hid; by rewrite (bmap_grows G HG d1 ino), Eb).
      split_and!; [apply (progress_trans d ino d1 ino); [done|by apply grows_progress]| |done|done].
      apply keeps_frame; [auto|done|]. intros a Ha. destruct Ha as (Ha & Hb & Hd). rewrite (gr_frame _ _ _ _ _ S1); [by apply Fr|done|done|].
      intros Hz'. destruct (Hd Hz') as (U & R & Nn). split; [by apply (pg_used _ _ _ _ P)|]. split; [done|]. intros s p Hp Hl. rewrite A by done. by apply Nn. }
  cbn in S. pose proof (alloc_sets_progress d ino r d1 i d2 ino2 F T B Hr Hz Hu M S) as P2. pose proof (block_end G HG r ltac:(lia)).
  rewrite run_write_in by (done || nia).
  assert (Em : forall id, valid_id G id -> bmap G d2 ino2 id = if decide (id = i) then r else bmap G d ino id).
  { intros id Hid. rewrite (st_map _ _ _ _ _ _ _ S) by done. case_decide; [done|]. by apply Eb. }
  assert (Ei : bmap G d2 ino2 i = r) by (rewrite Em by done; by rewrite decide_True).
  pose proof (dw_progress d2 ino2 i 0 bs zeros (pg_fs _ _ _ _ P2) (pg_tree _ _ _ _ P2) (pg_bytes _ _ _ _ P2) Hi ltac:(lia) ltac:(lia) ltac:(lia) zeros_bytes) as P3.
  pose proof (fun id => dw_bmap d2 ino2 i 0 bs zeros (pg_tree _ _ _ _ P2) Hi ltac:(lia) ltac:(lia) ltac:(lia) id) as Em3.
  pose proof (fun pos => dw_byte_at d2 ino2 i 0 bs zeros (pg_tree _ _ _ _ P2) Hi ltac:(lia) ltac:(lia) ltac:(lia) pos) as Eb3.
  unfold data_written in P3, Em3, Eb3. rewrite Ei, Z.add_0_r in P3, Em3, Eb3.
  exists (Some (u32 (r * bs))), (blit d2 (r * bs) bs zeros), ino2. split; [done|]. split; [by apply (progress_trans d ino d2 ino2)|]. split.
  - intros pos Hp Hv Hne. assert (Hid : pos / bs <> i) by congruence.
    rewrite Eb3; [|done|done|rewrite Em by done; by rewrite decide_False].
    rewrite decide_False by tauto. assert (K : keeps d ino d2 ino2); [|by apply K].
    apply keeps_frame; [|done|].
    + intros id Hid2 Hne2. rewrite Em by done. rewrite decide_False; [done|congruence].
    + intros a (Ha & Hb & Hd). rewrite (st_frame _ _ _ _ _ _ _ S); [by apply Fr|]. split; [done|]. split; [done|].
      intros Hz'. destruct (Hd Hz') as (U & R & Nn). split; [by apply (pg_used _ _ _ _ P)|]. split; [done|]. intros s p Hp' Hl. rewrite A by done. by apply Nn.
  - exists r. split; [apply u32_small; pose proof (go_len _ HG); nia|]. split; [lia|]. intros id Hid. rewrite Em3 by done. by apply Em.
Qed.

(** ** The loops over the blocks *)

Section Range.
Context (offset size : Z) (H0 : 0 <= offset) (Hs : 0 <= size) (Hsum : offset + size < 2 ^ 32).

Definition first_id := offset / bs.
Definition last_id := (offset + size) / bs.

Lemma start_bound : 0 <= first_id /\ first_id * bs <= offset < first_id * bs + bs.
Proof. unfold first_id. destruct (pos_split offset H0) as (A & B & C). lia. Qed.

Lemma last_bound : first_id <= last_id /\ last_id * bs <= offset + size < last_id * bs + bs.
Proof. unfold last_id. destruct (pos_split (offset + size) ltac:(lia)) as (A & B & C). split; [|lia]. apply Z.div_le_mono; pose proof (bs_pos G HG); lia. Qed.

(** The number of bytes before block [i]. *)
Definition before (i : Z) : Z := Z.min (offset + size) (Z.max offset (i * bs)) - offset.

Lemma block_part_spec i : first_id <= i <= last_id ->
  block_part meta offset size first_id last_id i = (offset + before i, before (i + 1) - before i).
Proof.
  intros Hi. pose proof start_bound. pose proof last_bound. pose proof (bs_pos G HG). unfold block_part, before. cbn [block_size meta_of].
  assert (i * bs <= last_id * bs) by nia. assert (i = first_id \/ first_id * bs + bs <= i * bs) by (destruct (decide (i = first_id)); [by left|right; nia]).
  assert (i = last_id \/ i * bs + bs <= last_id * bs) by (destruct (decide (i = last_id)); [by left|right; nia]).
  rewrite (u32_small (i * bs)) by nia. rewrite (u32_small (offset + size)) by lia. replace ((i + 1) * bs) with (i * bs + bs) by lia.
  assert (Es : (if i =? first_id then offset else i * bs) = Z.max offset (i * bs)) by (destruct (Z.eqb_spec i first_id); subst; lia).
  assert (Ee : (if i =? last_id then offset + size else u32 (i * bs + bs)) = Z.min (offset + size) (i * bs + bs))
    by (destruct (Z.eqb_spec i last_id); [subst; lia|rewrite u32_small by lia; lia]).
  rewrite Es, Ee. f_equal; [lia|]. rewrite u32_small by lia. lia.
Qed.

Lemma before_start : before first_id = 0.
Proof. pose proof start_bound. unfold before. lia. Qed.

Lemma before_end : before (last_id + 1) = size.
Proof. pose proof last_bound. pose proof start_bound. unfold before. lia. Qed.

(** The part of block [i] and its place in the block. *)
Lemma before_step i : first_id <= i <= last_id -> before (i + 1) - before i <> 0 ->
  0 < before (i + 1) - before i /\ 0 <= before i /\ before (i + 1) <= size /\ 0 <= offset + before i - i * bs /\ offset + before (i + 1) <= i * bs + bs /\ i * bs < offset + size.
Proof.
  intros Hi. pose proof start_bound. pose proof last_bound. pose proof (bs_pos G HG). assert (i * bs <= last_id * bs) by nia. unfold before.
  assert (i = first_id \/ first_id * bs + bs <= i * bs) by (destruct (decide (i = first_id)); [by left|right; nia]).
  replace ((i + 1) * bs) with (i * bs + bs) by lia. destruct (decide (i = first_id)); subst; lia.
Qed.

Lemma before_zero i : first_id <= i <= last_id -> before (i + 1) - before i = 0 -> before i = size.
Proof.
  intros Hi. pose proof start_bound. pose proof last_bound. pose proof (bs_pos G HG). assert (i * bs <= last_id * bs) by nia. unfold before.
  assert (i = first_id \/ first_id * bs + bs <= i * bs) by (destruct (decide (i = first_id)); [by left|right; nia]).
  replace ((i + 1) * bs) with (i * bs + bs) by lia. destruct (decide (i = first_id)); subst; lia.
Qed.

Lemma before_max i : offset + before i <= Z.max offset (i * bs).
Proof. unfold before. lia. Qed.

(** Reading. *)
Lemma read_blocks_spec d ino out : fs_ok G d -> tree_ok G d ino -> offset + size <= size_lo ino ->
  (forall id, 0 <= id -> id * bs < offset + size -> bmap G d ino id <> 0) ->
  forall n i, first_id <= i -> i + Z.of_nat n = last_id + 1 ->
  let c k := byte_at d ino (offset + k) in
  run (g_len G) (read_blocks meta ino offset size first_id last_id n i (before i) (blit out 0 (before i) c)) d = ((size, blit out 0 size c), d).
Proof.
  intros F T Hsz Hd n. induction n as [|n IH]; intros i Hi Hn c.
  { cbn. replace i with (last_id + 1) by lia. by rewrite before_end. }
  cbn [read_blocks]. rewrite block_part_spec by lia. destruct (Z.eqb_spec (before (i + 1) - before i) 0) as [E|E].
  { cbn. by rewrite (before_zero i) by lia. }
  destruct (before_step i ltac:(lia) E) as (B1 & B2 & B3 & B4 & B5 & B6). pose proof start_bound.
  assert (Hv : valid_id G i) by (apply id_valid; lia). pose proof (Hd i ltac:(lia) B6) as Hne.
  destruct (locate_ok G HG i Hv) as [Hp _]. destruct (to_data _ _ _ T _ _ Hp Hne) as (R & _). fold (bmap G d ino i) in R.
  pose proof (block_end G HG (bmap G d ino i) ltac:(lia)). pose proof (go_len _ HG). pose proof (bs_pos G HG).
  assert (0 <= i * bs) by nia. rewrite run_bind. cbn [block_size meta_of]. rewrite (block_id_to_addr_spec G HG) by (done || lia). replace (bmap G d ino i * bs =? 0) with false by nia.
  rewrite (u32_small (i * bs)) by lia. rewrite (u32_small (offset + before i - i * bs)) by lia. rewrite (u32_small (bmap G d ino i * bs + _)) by nia.
  rewrite run_read_in by (done || lia || nia). rewrite blit_extend; [|lia|lia|].
  - replace (before i + (before (i + 1) - before i)) with (before (i + 1)) by lia. apply IH; lia.
  - intros k Hk. rewrite fetch_at by lia. unfold c, byte_at. destruct (in_part i (offset + before i - i * bs + k) ltac:(lia)) as [E1 E2].
    replace (offset + (before i + k)) with (i * bs + (offset + before i - i * bs + k)) by lia. rewrite E1, E2. f_equal. lia.
Qed.

(** Writing: the state before block [i]. *)
Section Write.
Context (d0 ino0 src : memory) (Hsrc : bytes src) (Hoff : offset <= size_lo ino0 < 2 ^ 32).

Definition size0 : Z := size_lo ino0.

Record wstate (i : Z) (d ino : memory) : Prop := {
  ws_progress : progress d0 ino0 d ino;
  ws_dense : forall id, 0 <= id -> id * bs < Z.max size0 (offset + before i) -> bmap G d ino id <> 0;
  ws_beyond : forall id, valid_id G id -> Z.max size0 (offset + before i) <= id * bs -> bmap G d ino id = 0;
  ws_content : forall pos, 0 <= pos < Z.max size0 (offset + before i) ->
    byte_at d ino pos = if decide (offset <= pos < offset + before i) then src (pos - offset) else byte_at d0 ino0 pos }.

Lemma ws_size i d ino : wstate i d ino -> size_lo ino = size0.
Proof. intros W. apply load32_frame. intros x Hx. apply (pg_inode _ _ _ _ (ws_progress _ _ _ W)). lia. Qed.

(** Storing the part of block [i] once the block is there. *)
Lemma wstate_store i d ino d1 ino1 : first_id <= i <= last_id -> before (i + 1) - before i <> 0 -> wstate i d ino ->
  progress d ino d1 ino1 -> keeps d ino d1 ino1 -> bmap G d1 ino1 i <> 0 ->
  (forall id, valid_id G id -> id <> i -> bmap G d1 ino1 id = bmap G d ino id) -> (bmap G d ino i = 0 -> size0 <= i * bs) ->
  wstate (i + 1) (blit d1 (bmap G d1 ino1 i * bs + (offset + before i - i * bs)) (before (i + 1) - before i) (fun k => src (before i + k))) ino1.
Proof.
  intros Hi Hne W P K Hb Hm Hnew. destruct (before_step i Hi Hne) as (B1 & B2 & B3 & B4 & B5 & B6). pose proof start_bound as SB. pose proof (bs_pos G HG) as HBS. pose proof (before_max i) as HM. assert (Hoff' : offset <= size0 < 2 ^ 32) by exact Hoff.
  assert (Hv : valid_id G i) by (apply id_valid; lia). set (o := offset + before i - i * bs) in *. set (n := before (i + 1) - before i) in *.
  assert (HN : before (i + 1) = before i + n) by (unfold n; lia). assert (HO : offset + before i = i * bs + o) by (unfold o; lia).
  assert (Hs2 : bytes (fun k => src (before i + k))) by (intros k; apply Hsrc).
  pose proof (dw_progress d1 ino1 i o n (fun k => src (before i + k)) (pg_fs _ _ _ _ P) (pg_tree _ _ _ _ P) (pg_bytes _ _ _ _ P) Hv Hb ltac:(lia) ltac:(lia) Hs2) as P2.
  pose proof (fun id => dw_bmap d1 ino1 i o n (fun k => src (before i + k)) (pg_tree _ _ _ _ P) Hv Hb ltac:(lia) ltac:(lia) id) as M2.
  pose proof (fun pos => dw_byte_at d1 ino1 i o n (fun k => src (before i + k)) (pg_tree _ _ _ _ P) Hv Hb ltac:(lia) ltac:(lia) pos) as C2.
  fold (data_written d1 ino1 i o n (fun k => src (before i + k))). set (d2 := data_written d1 ino1 i o n (fun k => src (before i + k))) in *.
  assert (Hlow : forall id, 0 <= id -> id <> i -> id * bs < Z.max size0 (offset + before (i + 1)) -> id * bs < Z.max size0 (offset + before i)).
  { intros id H1 H2 H3. destruct (decide (id < i)) as [L|L]; [apply block_lt in L; lia|]. pose proof (block_lt i id ltac:(lia)). lia. }
  assert (Hvid : forall id, 0 <= id -> id * bs < Z.max size0 (offset + before (i + 1)) -> valid_id G id).
  { intros id H1 H2. apply id_valid; [done|]. lia. }
  split.
  - apply (progress_trans d0 ino0 d1 ino1); [|done]. apply (progress_trans d0 ino0 d ino); [apply W|done].
  - intros id H1 H2. rewrite M2 by (by apply Hvid). destruct (decide (id = i)) as [->|N]; [done|]. rewrite Hm by (done || by apply Hvid).
    apply (ws_dense _ _ _ W); [done|]. by apply Hlow.
  - intros id H1 H2. rewrite M2 by done. assert (N : id <> i) by (intros ->; lia). rewrite Hm by done. apply (ws_beyond _ _ _ W); [done|lia].
  - intros pos Hpos. destruct (pos_split pos ltac:(lia)) as (Q1 & Q2 & Q3). assert (Hq : pos / bs * bs < Z.max size0 (offset + before (i + 1))) by lia.
    pose proof (Hvid _ Q1 Hq) as Hvp.
    assert (Hbp : pos / bs <> i -> bmap G d ino (pos / bs) <> 0) by (intros N; apply (ws_dense _ _ _ W); [done|by apply Hlow]).
    rewrite C2; [|lia|done|destruct (decide (pos / bs = i)) as [->|N]; [done|rewrite Hm by done; by apply Hbp]].
    case_decide as D.
    + destruct D as [D1 D2]. rewrite D1 in Q3. rewrite decide_True by lia. f_equal. lia.
    + destruct (decide (pos / bs = i)) as [E|N].
      * rewrite E in Q3, Hvp, D. destruct (decide (bmap G d ino i = 0)) as [Z0|NZ]; [specialize (Hnew Z0); exfalso; apply D; split; [done|]; lia|].
        rewrite K; [|lia|by rewrite E|by rewrite E]. 
        destruct (decide (pos < Z.max size0 (offset + before i))) as [L|L].
        { rewrite (ws_content _ _ _ W) by lia. repeat case_decide; try done; exfalso; [lia|]. apply D. split; [done|]. lia. }
        exfalso. apply D. split; [done|]. lia.
      * rewrite K; [|lia|done|by apply Hbp]. assert (L : pos < Z.max size0 (offset + before i)).
        { destruct (decide (pos / bs < i)) as [L|L]; [apply block_lt in L; lia|]. pose proof (block_lt i (pos / bs) ltac:(lia)). lia. }
        rewrite (ws_content _ _ _ W) by lia. repeat case_decide; try done; exfalso; [lia|].
        destruct (decide (pos / bs < i)) as [L2|L2]; [apply block_lt in L2; lia|]. pose proof (block_lt i (pos / bs) ltac:(lia)). lia.
Qed.
End Write.
End Range.
End File.
