(* ===== verification/Ext2Write.v ===== *)
(** Reading and writing a file of ext2: the whole operations.

    [open_file] is the invariant of a handle.  [ext2_read] returns the bytes of
    the content; [ext2_write] replaces them, extends the file, and fails to write
    all of it only when the disk is full.  The last theorems show what a second
    handle of the same file does to it, and that a new inode is never marked. *)

From S2P Require Import Prelude CMem Vfs Elf BlockIo Ext2 Ext2Alloc Ext2Tree Ext2Map Ext2File.
From Stdlib Require Import ZArith Lia Bool FunctionalExtensionality.
From stdpp Require Import base tactics numbers list.
Open Scope Z_scope.

Section Write.
Context (G : geometry) (HG : geometry_ok G) (now : Z).

Abbreviation bs := (g_bs G).
Abbreviation meta := (meta_of G).
Abbreviation byte_at := (byte_at G).

Section Loop.
Context (offset size : Z) (H0 : 0 <= offset) (Hs : 0 <= size) (Hsum : offset + size < 2 ^ 32).
Context (d0 ino0 src : memory) (Hsrc : bytes src) (Hoff : offset <= size_lo ino0 < 2 ^ 32).

Abbreviation first_id := (first_id G offset).
Abbreviation last_id := (last_id G offset size).
Abbreviation before := (before G offset size).
Abbreviation wstate := (wstate G offset size d0 ino0 src).

(** The loop ends before some block: after the last one, or where the disk was
    full. *)
Definition loop_end (bw : Z) (ino : memory) (dirty : bool) (d : memory) : Prop :=
  exists i, bw = before i /\ first_id <= i <= last_id + 1 /\ wstate i d ino /\
    (bw = size /\ (dirty = false -> ino = ino0) \/ bw < size /\ full G d).

Lemma block_there i d ino : wstate i d ino -> 0 <= i -> i * bs < size_lo ino0 ->
  exists b, b <> 0 /\ bmap G d ino i = b /\ run (g_len G) (ext2_block_id_to_addr ino i bs) d = (b * bs, d).
Proof.
  intros W Hi Hlt. pose proof (ws_size G offset size d0 ino0 src i d ino W) as E. unfold size0 in E. pose proof (bs_pos G HG).
  assert (Hb : bmap G d ino i <> 0) by (apply (ws_dense _ _ _ _ _ _ _ _ _ W); [done|unfold size0; lia]).
  exists (bmap G d ino i). split_and!; [done|done|]. apply (block_id_to_addr_spec G HG); [apply (pg_tree _ _ _ _ _ (ws_progress _ _ _ _ _ _ _ _ _ W))|apply id_valid; [done|done|lia]|lia|done].
Qed.

Lemma write_blocks_spec n : forall i d ino dirty, wstate i d ino -> (dirty = false -> ino = ino0) -> first_id <= i -> i + Z.of_nat n = last_id + 1 ->
  exists bw ino' dirty' d',
    run (g_len G) (write_blocks meta offset size first_id last_id src n i (before i) ino dirty) d = ((bw, ino', dirty'), d') /\ loop_end bw ino' dirty' d'.
Proof.
  pose proof (start_bound G HG offset H0) as SB. pose proof (last_bound G HG offset size H0 Hs) as LB. pose proof (bs_pos G HG) as HB.
  induction n as [|n IH]; intros i d ino dirty W Hd Hi Hn.
  { exists (before i), ino, dirty, d. split; [done|]. exists i. split_and!; [done|lia|lia|done|]. left. split; [|done].
    replace i with (last_id + 1) by lia. by apply before_end. }
  cbn [write_blocks]. rewrite (block_part_spec G HG) by (done || lia). destruct (Z.eqb_spec (before (i + 1) - before i) 0) as [E|E].
  { exists (before i), ino, dirty, d. split; [done|]. exists i. split_and!; [done|lia|lia|done|]. left. split; [|done]. by apply (before_zero G HG); [..|lia|]. }
  destruct (before_step G HG offset size H0 Hs i ltac:(lia) E) as (B1 & B2 & B3 & B4 & B5 & B6). pose proof (go_len _ HG) as GL.
  pose proof (before_max G offset size i) as BM. cbn [block_size meta_of]. assert (Hv : valid_id G i) by (apply id_valid; [done|lia|lia]).
  assert (0 <= i * bs) by nia. rewrite run_bind.
  assert (Hgo : forall d1 ino1 addr dirty1, wstate i d ino -> progress G d ino d1 ino1 -> keeps G d ino d1 ino1 -> addr = bmap G d1 ino1 i * bs -> bmap G d1 ino1 i <> 0 ->
     (forall id, valid_id G id -> id <> i -> bmap G d1 ino1 id = bmap G d ino id) -> (bmap G d ino i = 0 -> size_lo ino0 <= i * bs) -> (dirty1 = false -> ino1 = ino0) ->
     exists bw ino' dirty' d', run (g_len G) (_ ← dev_write O_WRONLY (u32 (addr + u32 (offset + before i - u32 (i * bs)))) (before (i + 1) - before i) (fun k => src (before i + k));
         write_blocks meta offset size first_id last_id src n (i + 1) (before i + (before (i + 1) - before i)) ino1 dirty1) d1 = ((bw, ino', dirty'), d') /\ loop_end bw ino' dirty' d').
  { intros d1 ino1 addr dirty1 _ P K -> Hne Hm Hnew Hd1. destruct (locate_ok G HG i Hv) as [Hp _].
    destruct (to_data _ _ _ (pg_tree _ _ _ _ _ P) _ _ Hp Hne) as (R & _). fold (bmap G d1 ino1 i) in R. pose proof (block_end G HG (bmap G d1 ino1 i) ltac:(lia)).
    rewrite (u32_small (i * bs)) by lia. rewrite (u32_small (offset + before i - i * bs)) by lia. rewrite (u32_small (bmap G d1 ino1 i * bs + _)) by nia.
    rewrite run_write_in by (done || lia || nia). replace (before i + (before (i + 1) - before i)) with (before (i + 1)) by lia.
    apply IH; [|done|lia|lia]. apply (wstate_store G HG offset size H0 Hs Hsum d0 ino0 src Hsrc Hoff i d ino); try done. lia. }
  destruct (decide (i * bs < size_lo ino0)) as [L|L].
  - destruct (block_there i d ino W ltac:(lia) L) as (b & Nb & Eb & ->). replace (b * bs =? 0) with false by nia. cbn.
    apply Hgo; try done; try congruence. apply progress_refl; apply (ws_progress _ _ _ _ _ _ _ _ _ W).
  - rewrite block_id_to_addr_zero by (rewrite (ws_size G offset size d0 ino0 src i d ino W); unfold size0; lia). change (0 =? 0) with true. cbv iota. rewrite run_bind.
    assert (Z0 : bmap G d ino i = 0) by (apply (ws_beyond _ _ _ _ _ _ _ _ _ W); [done|unfold size0; lia]).
    destruct (ws_progress _ _ _ _ _ _ _ _ _ W) as [F T B U Nd Fr In].
    destruct (add_data_block_spec G HG d ino i F T B Hv Z0) as (r & d1 & ino1 & -> & P & K & A). destruct r as [addr|].
    + destruct A as (nb & -> & Nb & M). cbn [orb]. assert (Ei : bmap G d1 ino1 i = nb) by (rewrite M by done; by rewrite decide_True).
      apply Hgo; try done; [by rewrite Ei|by rewrite Ei| |lia]. intros id Hid Hne. rewrite M by done. by rewrite decide_False.
    + destruct A as (Hfull & M). exists (before i), ino1, dirty, d1. split; [done|]. exists i. split_and!; [done|lia|lia| |].
      * split.
        -- apply (progress_trans G d0 ino0 d ino); [apply W|done].
        -- intros id H1 H2. rewrite M by (apply id_valid; [done|done|unfold size0 in H2; lia]). by apply (ws_dense _ _ _ _ _ _ _ _ _ W).
        -- intros id H1 H2. rewrite M by done. by apply (ws_beyond _ _ _ _ _ _ _ _ _ W).
        -- intros pos Hpos. destruct (pos_split G HG pos ltac:(lia)) as (Q1 & Q2 & Q3). rewrite K; [by apply (ws_content _ _ _ _ _ _ _ _ _ W)|lia| |].
           ++ apply id_valid; [done|done|]. unfold size0 in Hpos. lia.
           ++ apply (ws_dense _ _ _ _ _ _ _ _ _ W); [done|]. lia.
      * right. split; [lia|done].
Qed.
End Loop.

(** ** Handles *)

Record open_file (d : memory) (f : ext2_file) : Prop := {
  of_ok : file_ok G d (f_inode f);
  of_len : f_length f = size_lo (f_inode f);
  of_ino : 0 < f_ino f <= g_inodes G }.

Definition own_inode (n a : Z) : Prop := inode_addr G n <= a < inode_addr G n + 128.
Definition inode_on_disk (d : memory) (n : Z) (ino : memory) : Prop := forall k, 0 <= k < 128 -> d (inode_addr G n + k) = ino k.

Lemma size_range d f : open_file d f -> 0 <= f_length f < 2 ^ 32.
Proof. intros O. rewrite (of_len _ _ O). apply load32_u32. apply (fl_bytes _ _ _ (of_ok _ _ O)). Qed.

(** Writing an inode to its place. *)
Section Table.
Context (d ino ino' x : memory) (n : Z).
Context (F : fs_ok G d) (T : tree_ok G d ino) (Hn : 0 < n <= g_inodes G) (Hx : bytes x) (Hsl : forall k, 40 <= k < 100 -> ino' k = ino k).

Definition table_disk : memory := blit d (inode_addr G n) 128 x.

Lemma table_out a : ~ own_inode n a -> table_disk a = d a.
Proof. apply blit_out. Qed.

Lemma table_zone a : own_inode n a -> g_zone G (a / bs) = ZTable ((n - 1) / g_ipg G).
Proof. unfold own_inode. intros H. replace a with (inode_addr G n + (a - inode_addr G n)) by lia. apply (inode_zone G HG); [done|lia]. Qed.

Lemma table_book a : 0 <= a -> book G a -> table_disk a = d a.
Proof. intros _ Hb. apply table_out. intros H. unfold book in Hb. by rewrite (table_zone a H) in Hb. Qed.

Lemma table_data a : g_zone G (a / bs) = ZData -> table_disk a = d a.
Proof. intros Hz. apply table_out. intros H. by rewrite (table_zone a H) in Hz. Qed.

Lemma table_fs : fs_ok G table_disk.
Proof. apply (fs_ok_frame G HG d); [done|apply blit_bytes; [apply F|done]|apply table_book]. Qed.

Lemma table_used b : 0 <= b < g_blocks G -> used G table_disk b = used G d b.
Proof. intros Hb. apply (used_frame G HG); [done|apply table_book]. Qed.

Lemma table_at s p : path_ok G s p -> at_ G table_disk ino' s p = at_ G d ino s p.
Proof.
  apply (at_same G HG); [done|by apply slot_same|]. intros a s' p' Ha Hp _ E Hne. apply table_data. rewrite <- E. by apply (to_data _ _ _ T).
Qed.

Lemma table_tree : tree_ok G table_disk ino'.
Proof. apply (tree_ok_same G d table_disk ino ino'); [done|apply table_at|]. intros b Hb. by rewrite table_used. Qed.

Lemma table_bmap id : valid_id G id -> bmap G table_disk ino' id = bmap G d ino id.
Proof. intros H. destruct (locate_ok G HG id H). by apply table_at. Qed.

Lemma table_byte_at pos : 0 <= pos -> valid_id G (pos / bs) -> bmap G d ino (pos / bs) <> 0 -> byte_at table_disk ino' pos = byte_at d ino pos.
Proof.
  intros Hp Hv Hne. destruct (pos_split G HG pos Hp) as (Q1 & Q2 & Q3). unfold Ext2File.byte_at. rewrite table_bmap by done. apply table_data.
  rewrite in_block by done. destruct (locate_ok G HG _ Hv). by apply (to_data _ _ _ T).
Qed.

Lemma table_alien a : alien G d ino a -> ~ own_inode n a -> alien G table_disk ino' a.
Proof.
  intros (Ha & Hb & Hd) _. split; [done|]. split; [done|]. intros Hz. destruct (Hd Hz) as (U & R & N). split; [by rewrite table_used|]. split; [done|].
  intros s p Hp. rewrite table_at by done. by apply N.
Qed.

Lemma table_on_disk : inode_on_disk table_disk n x.
Proof. intros k Hk. unfold table_disk. rewrite blit_in by lia. f_equal. lia. Qed.
End Table.

Lemma valid_pos pos : 0 <= pos < 2 ^ 32 -> valid_id G (pos / bs).
Proof. intros H. destruct (pos_split G HG pos ltac:(lia)) as (Q1 & Q2 & Q3). apply id_valid; [done|done|lia]. Qed.

(** ** Reading *)

Definition available (f : ext2_file) (offset size : Z) : Z := if f_length f <=? offset then 0 else Z.min size (f_length f - offset).

Lemma set_time_bytes ino a t : bytes ino -> bytes (store32 ino a t).
Proof. apply store32_bytes. Qed.

Lemma ext2_read_spec d f offset size out : open_file d f -> f_readable f = true -> 0 <= offset -> 0 <= size -> offset + size < 2 ^ 32 ->
  exists f' d', run (g_len G) (ext2_read meta now f offset size out) d =
      ((available f offset size, blit out 0 (available f offset size) (fun k => byte_at d (f_inode f) (offset + k)), f'), d') /\
    open_file d' f' /\ f_length f' = f_length f /\ f_ino f' = f_ino f /\
    (forall pos, 0 <= pos < f_length f -> byte_at d' (f_inode f') pos = byte_at d (f_inode f) pos) /\
    (forall a, alien G d (f_inode f) a -> ~ own_inode (f_ino f) a -> d' a = d a) /\
    (0 < available f offset size -> inode_on_disk d' (f_ino f) (f_inode f')) /\
    (f_readable f' = f_readable f /\ f_writeable f' = f_writeable f) /\
    (forall b, 0 <= b < g_blocks G -> used G d' b = used G d b).
Proof.
  intros O Hr H0 Hs Hsum. pose proof (size_range d f O) as HL. destruct (of_ok _ _ O) as [F T B Dn By]. unfold ext2_read, available. rewrite Hr. cbn [negb].
  rewrite (u32_small (f_length f)) by lia. destruct (Z.leb_spec (f_length f) offset) as [L|L].
  { exists f, d. rewrite blit_none. split_and!; try done; lia. }
  rewrite (u32_small (offset + size)) by lia. set (sz := if f_length f <? offset + size then f_length f - offset else size).
  assert (Esz : sz = Z.min size (f_length f - offset)) by (unfold sz; case_match; lia). rewrite <- Esz. clearbody sz.
  destruct (Z.eqb_spec sz 0) as [->|Nz]; [exists f, d; rewrite blit_none; split_and!; try done; lia|].
  rewrite (u32_small (offset + sz)) by lia. set (f' := set_f_inode _ f). set (ino' := f_inode f'). rewrite run_write_inode by (done || apply O).
  assert (Hsl : forall k, 40 <= k < 100 -> ino' k = f_inode f k) by (intros k Hk; apply store32_frame; lia).
  assert (B' : bytes ino') by (by apply store32_bytes). assert (Es : size_lo ino' = size_lo (f_inode f)) by (apply load32_store32_ne; lia).
  set (d1 := table_disk d ino' (f_ino f)). change (blit d (inode_addr G (f_ino f')) 128 ino') with d1.
  pose proof (table_fs d ino' (f_ino f) F (of_ino _ _ O) B') as F1.
  pose proof (table_tree d (f_inode f) ino' ino' (f_ino f) T (of_ino _ _ O) Hsl) as T1.
  pose proof (table_bmap d (f_inode f) ino' ino' (f_ino f) T (of_ino _ _ O) Hsl) as M1.
  pose proof (table_byte_at d (f_inode f) ino' ino' (f_ino f) T (of_ino _ _ O) Hsl) as C1. fold d1 in F1, T1, M1, C1.
  assert (Hvd : forall id, 0 <= id -> id * bs < f_length f -> valid_id G id) by (intros id H1 H2; apply id_valid; [done|done|lia]).
  assert (Hden : forall id, 0 <= id -> id * bs < f_length f -> bmap G d (f_inode f) id <> 0) by (intros id H1 H2; apply Dn; [done|rewrite <- (of_len _ _ O); done]).
  pose proof (last_bound G HG offset sz H0 ltac:(lia)) as LB. pose proof (start_bound G HG offset H0) as SB. cbn [block_size meta_of].
  fold (first_id G offset). fold (last_id G offset sz). rewrite run_bind.
  pose proof (read_blocks_spec G HG offset sz H0 ltac:(lia) ltac:(lia) d1 ino' out F1 T1) as R.
  rewrite Es, <- (of_len _ _ O) in R. specialize (R ltac:(lia)).
  specialize (R ltac:(intros id H1 H2; rewrite M1 by (apply Hvd; lia); apply Hden; lia) (Z.to_nat (last_id G offset sz + 1 - first_id G offset)) (first_id G offset) ltac:(lia) ltac:(lia)).
  cbv zeta in R. rewrite (before_start G HG) in R by (done || lia). rewrite blit_none in R.
  rewrite R.
  exists f', d1. split_and!.
  - cbn. do 3 f_equal. apply functional_extensionality. intros x. destruct (decide (0 <= x < sz)); [|by rewrite !blit_out by lia].
    rewrite !blit_in by lia. destruct (pos_split G HG (offset + (x - 0)) ltac:(lia)) as (Q1 & Q2 & Q3). apply C1; [lia|apply valid_pos; lia|apply Hden; lia].
  - split; [|cbn [f_length set_f_inode f']; fold ino'; by rewrite Es, (of_len _ _ O)|apply O]. fold ino'. split; [done|done|done| |].
    + intros id H1 H2. rewrite Es, <- (of_len _ _ O) in H2. rewrite M1 by (by apply Hvd). by apply Hden.
    + intros id H1 H2. rewrite M1 by done. apply By; [done|]. by rewrite <- Es.
  - done.
  - done.
  - intros pos Hpos. destruct (pos_split G HG pos ltac:(lia)) as (Q1 & Q2 & Q3). apply C1; [lia|apply valid_pos; lia|apply Hden; lia].
  - intros a _ Ha. by apply table_out.
  - intros _. apply table_on_disk.
  - done.
  - done.
  - intros b Hb. apply table_used; [apply O|done].
Qed.

(** ** Writing *)

(** The file after [n] bytes of [src] were put at [offset]. *)
Record file_written (d : memory) (f : ext2_file) (offset n : Z) (src : memory) (d' : memory) (f' : ext2_file) : Prop := {
  fw_open : open_file d' f';
  fw_ino : f_ino f' = f_ino f;
  fw_flags : f_readable f' = f_readable f /\ f_writeable f' = f_writeable f;
  fw_length : f_length f' = Z.max (f_length f) (offset + n);
  fw_content : forall pos, 0 <= pos < f_length f' ->
    byte_at d' (f_inode f') pos = if decide (offset <= pos < offset + n) then src (pos - offset) else byte_at d (f_inode f) pos;
  fw_frame : forall a, alien G d (f_inode f) a -> ~ own_inode (f_ino f) a -> d' a = d a;
  fw_used : forall b, 0 <= b < g_blocks G -> used G d b = true -> used G d' b = true }.

Lemma own_alien d ino n a : 0 < n <= g_inodes G -> own_inode n a -> alien G d ino a.
Proof.
  intros Hn Ha. pose proof (table_zone n Hn a Ha) as Z. destruct (inode_inside G HG n Hn). unfold own_inode in Ha.
  split; [lia|]. split; [unfold book; rewrite Z; tauto|]. intros E. congruence.
Qed.

(** The state of the loop at its start, and what it gives at its end. *)
Lemma wstate_start d ino offset size src : fs_ok G d -> tree_ok G d ino -> bytes ino -> 0 <= offset <= size_lo ino -> 0 <= size ->
  (forall id, 0 <= id -> id * bs < size_lo ino -> bmap G d ino id <> 0) -> (forall id, valid_id G id -> size_lo ino <= id * bs -> bmap G d ino id = 0) ->
  wstate G offset size d ino src (first_id G offset) d ino.
Proof.
  intros F T B Hoff Hs Dn By. pose proof (before_start G HG offset size ltac:(lia) Hs) as E. split; unfold size0; rewrite ?E, ?Z.add_0_r.
  - by apply progress_refl.
  - intros id H1 H2. apply Dn; [done|lia].
  - intros id H1 H2. apply By; [done|lia].
  - intros pos Hpos. by rewrite decide_False by lia.
Qed.

Lemma wstate_final d1 ino0 offset size src i d2 ino2 (f0 f' : ext2_file) d3 : wstate G offset size d1 ino0 src i d2 ino2 -> 0 <= offset <= size_lo ino0 -> 0 < f_ino f' <= g_inodes G ->
  f_length f' = Z.max (size_lo ino0) (offset + before G offset size i) -> f_length f' < 2 ^ 32 -> size_lo (f_inode f') = f_length f' -> bytes (f_inode f') -> 
  (forall k, 40 <= k < 100 -> f_inode f' k = ino2 k) -> d3 = d2 \/ d3 = table_disk d2 (f_inode f') (f_ino f') ->
  open_file d3 f' /\ (forall pos, 0 <= pos < f_length f' -> byte_at d3 (f_inode f') pos =
    if decide (offset <= pos < offset + before G offset size i) then src (pos - offset) else byte_at d1 ino0 pos).
Proof.
  intros W Hoff Hn Hlen Hlt Hsz B Hsl Hd. destruct (ws_progress _ _ _ _ _ _ _ _ _ W) as [F T B2 U Nd Fr In].
  assert (A : fs_ok G d3 /\ tree_ok G d3 (f_inode f') /\ (forall id, valid_id G id -> bmap G d3 (f_inode f') id = bmap G d2 ino2 id) /\
    (forall pos, 0 <= pos -> valid_id G (pos / bs) -> bmap G d2 ino2 (pos / bs) <> 0 -> byte_at d3 (f_inode f') pos = byte_at d2 ino2 pos)).
  { destruct Hd as [->| ->].
    - assert (E : forall s p, path_ok G s p -> at_ G d2 (f_inode f') s p = at_ G d2 ino2 s p) by (apply (at_same G HG); [done|by apply slot_same|done]).
      assert (Eb : forall id, valid_id G id -> bmap G d2 (f_inode f') id = bmap G d2 ino2 id) by (intros id Hid; destruct (locate_ok G HG id Hid); by apply E).
      split_and!; [done|by apply (tree_ok_same G d2 d2 ino2)|done|]. intros pos Hp Hv Hne. unfold Ext2File.byte_at. by rewrite Eb.
    - split_and!; [by apply table_fs|by apply (table_tree d2 ino2)|by apply table_bmap|by apply table_byte_at]. }
  destruct A as (F3 & T3 & M3 & C3).
  assert (Dn : forall id, 0 <= id -> id * bs < f_length f' -> bmap G d2 ino2 id <> 0).
  { intros id H1 H2. apply (ws_dense _ _ _ _ _ _ _ _ _ W); [done|]. unfold size0. lia. }
  split.
  - split; [|done|done]. split; [done|done|done| |].
    + intros id H1 H2. rewrite Hsz in H2. rewrite M3 by (apply id_valid; [done|done|lia]). by apply Dn.
    + intros id H1 H2. rewrite M3 by done. apply (ws_beyond _ _ _ _ _ _ _ _ _ W); [done|]. unfold size0. lia.
  - intros pos Hpos. destruct (pos_split G HG pos ltac:(lia)) as (Q1 & Q2 & Q3).
    rewrite C3; [|lia|apply valid_pos; lia|apply Dn; lia]. apply (ws_content _ _ _ _ _ _ _ _ _ W). unfold size0. lia.
Qed.

Lemma ext2_write_spec d f offset size src : open_file d f -> f_writeable f = true -> 0 <= offset <= f_length f -> 0 <= size -> offset + size < 2 ^ 32 -> bytes src ->
  exists n f' d', run (g_len G) (ext2_write meta now f offset size src) d = ((n, f'), d') /\ file_written d f offset n src d' f' /\
    (n = size /\ (0 < size -> inode_on_disk d' (f_ino f) (f_inode f')) \/ 0 <= n < size /\ full G d').
Proof.
  intros O Hw Hoff Hs Hsum Hsrc. pose proof (size_range d f O) as HL. destruct (of_ok _ _ O) as [F T B Dn By]. unfold ext2_write. rewrite Hw. cbn [negb].
  rewrite (u32_small (f_length f)) by lia. replace (f_length f <? offset) with false by lia.
  destruct (Z.eqb_spec size 0) as [->|Nz].
  { exists 0, f, d. split; [done|]. split; [|left; split; [done|lia]]. split; try done; [lia|]. intros pos Hpos. by rewrite decide_False by lia. }
  rewrite (u32_small (offset + size)) by lia. set (ino0 := set_last_modification_time (u32 now) (f_inode f)). rewrite run_write_inode by (done || apply O).
  assert (Hsl : forall k, 40 <= k < 100 -> ino0 k = f_inode f k) by (intros k Hk; apply store32_frame; lia).
  assert (B0 : bytes ino0) by (by apply store32_bytes). assert (Es : size_lo ino0 = f_length f) by (rewrite (of_len _ _ O); apply load32_store32_ne; lia).
  set (d1 := table_disk d ino0 (f_ino f)). change (blit d (inode_addr G (f_ino f)) 128 ino0) with d1.
  pose proof (table_fs d ino0 (f_ino f) F (of_ino _ _ O) B0) as F1. pose proof (table_tree d (f_inode f) ino0 ino0 (f_ino f) T (of_ino _ _ O) Hsl) as T1.
  pose proof (table_bmap d (f_inode f) ino0 ino0 (f_ino f) T (of_ino _ _ O) Hsl) as M1.
  pose proof (table_byte_at d (f_inode f) ino0 ino0 (f_ino f) T (of_ino _ _ O) Hsl) as C1. fold d1 in F1, T1, M1, C1.
  assert (Hden : forall id, 0 <= id -> id * bs < f_length f -> bmap G d (f_inode f) id <> 0) by (intros id H1 H2; apply Dn; [done|rewrite <- (of_len _ _ O); done]).
  assert (W : wstate G offset size d1 ino0 src (first_id G offset) d1 ino0).
  { apply wstate_start; [done|done|done|lia|done| |].
    - intros id H1 H2. rewrite Es in H2. rewrite M1 by (apply id_valid; [done|done|lia]). by apply Hden.
    - intros id H1 H2. rewrite M1 by done. apply By; [done|]. rewrite <- (of_len _ _ O). lia. }
  pose proof (last_bound G HG offset size ltac:(lia) Hs) as LB. cbn [block_size meta_of]. fold (first_id G offset). fold (last_id G offset size). rewrite run_bind.
  destruct (write_blocks_spec offset size ltac:(lia) Hs Hsum d1 ino0 src Hsrc ltac:(lia) (Z.to_nat (last_id G offset size + 1 - first_id G offset)) (first_id G offset) d1 ino0 false W
    ltac:(done) ltac:(lia) ltac:(lia)) as (bw & ino2 & dirty & d2 & E & i & Ebw & Hi & W2 & Hend). rewrite (before_start G HG) in E by lia. rewrite E. clear E.
  assert (Hbw : 0 <= bw <= size) by (rewrite Ebw; unfold before; lia). rewrite (u32_small (offset + bw)) by lia.
  pose proof (ws_size G offset size d1 ino0 src i d2 ino2 W2) as Es2. unfold size0 in Es2.
  destruct (ws_progress _ _ _ _ _ _ _ _ _ W2) as [F2 T2 B2 U2 Nd2 Fr2 In2].
  assert (Frame : forall a, alien G d (f_inode f) a -> ~ own_inode (f_ino f) a -> d2 a = d a).
  { intros a Ha Hno. rewrite Fr2 by (apply (table_alien d (f_inode f)); try done; apply O). by apply table_out. }
  assert (Done : forall f' d3 (g : bool), f_ino f' = f_ino f -> f_readable f' = f_readable f /\ f_writeable f' = f_writeable f -> f_length f' = Z.max (f_length f) (offset + bw) ->
      size_lo (f_inode f') = f_length f' -> bytes (f_inode f') -> (forall k, 40 <= k < 100 -> f_inode f' k = ino2 k) ->
      d3 = (if g then table_disk d2 (f_inode f') (f_ino f') else d2) -> (g = false -> dirty = false /\ f_inode f' = ino2) ->
      file_written d f offset bw src d3 f' /\ (bw = size /\ (0 < size -> inode_on_disk d3 (f_ino f) (f_inode f')) \/ 0 <= bw < size /\ full G d3)).
  { intros f' d3 g E1 E2 E3 E4 E5 E6 E7 E8.
    destruct (wstate_final d1 ino0 offset size src i d2 ino2 f f' d3 W2 ltac:(lia) ltac:(rewrite E1; apply O) ltac:(rewrite <- Ebw; lia) ltac:(lia) E4 E5 E6
      ltac:(destruct g; [by right|by left])) as [O3 C3].
    assert (Own : forall a, ~ own_inode (f_ino f) a -> d3 a = d2 a) by (intros a Ha; subst d3; destruct g; [rewrite E1; by apply table_out|done]).
    split; [split; try done|].
    - intros pos Hpos. rewrite C3 by done. rewrite <- Ebw. case_decide; [done|]. destruct (pos_split G HG pos ltac:(lia)) as (Q1 & Q2 & Q3).
      apply C1; [lia|apply valid_pos; lia|apply Hden; lia].
    - intros a Ha Hno. rewrite Own by done. by apply Frame.
    - intros b Hb Hu. replace (used G d3 b) with (used G d2 b) by (subst d3; destruct g; [|done]; symmetry; apply table_used; [rewrite E1; apply O|done]).
      apply U2; [done|]. unfold d1. rewrite table_used; [done|apply O|done].
    - destruct Hend as [[Hb Hdi]|[Hb Hf]]; [left|right]; split; try done; [|lia|].
      + intros _. subst d3. destruct g; [rewrite E1; apply table_on_disk|]. destruct (E8 eq_refl) as [Di ->]. rewrite (Hdi Di). intros k Hk.
        rewrite Fr2; [by apply table_on_disk|]. apply (own_alien d1 ino0 (f_ino f)); [apply O|]. unfold own_inode. lia.
      + subst d3. destruct g; [|done]. intros b Hb'. rewrite table_used by (done || rewrite E1; apply O). by apply Hf. }
  destruct (Z.ltb_spec (f_length f) (offset + bw)) as [L|L].
  - rewrite run_write_inode by (done || apply O). eexists bw, _, _. split; [done|]. apply (Done _ _ true); try done; cbn.
    + lia.
    + unfold set_size_lo, size_lo. rewrite load32_store32. by apply u32_small; lia.
    + by apply store32_bytes.
    + intros k Hk. apply store32_frame. lia.
  - destruct dirty.
    + rewrite run_write_inode by (done || apply O). eexists bw, _, _. split; [done|]. apply (Done _ _ true); try done; cbn; lia.
    + eexists bw, _, _. split; [done|]. apply (Done _ _ false); try done; cbn; lia.
Qed.
End Write.
