(* ===== verification/Ext2Trunc.v ===== *)
(** Truncating a file of ext2: [ext2_truncate] frees every block of the file, data
    and indirect, exactly once, and nothing else. *)

From S2P Require Import Prelude CMem Vfs Elf BlockIo Ext2 Ext2Alloc Ext2Tree Ext2Map Ext2File Ext2Write.
From Stdlib Require Import ZArith Lia Bool.
From stdpp Require Import base tactics numbers list.
Open Scope Z_scope.

Section Trunc.
Context (G : geometry) (HG : geometry_ok G) (now : Z).

Abbreviation bs := (g_bs G).
Abbreviation meta := (meta_of G).
Abbreviation ppb := (ppb G).

Section Free.
Context (d0 ino : memory) (F0 : fs_ok G d0) (T0 : tree_ok G d0 ino).

Abbreviation at0 := (at_ G d0 ino).

(** From [d0] the blocks [R] were freed. *)
Record freed (R : Z -> Prop) (d : memory) : Prop := {
  fr_fs : fs_ok G d;
  fr_frame : forall a, 0 <= a -> ~ book G a -> d a = d0 a;
  fr_used : forall b, 0 <= b < g_blocks G -> used G d b = true <-> used G d0 b = true /\ ~ R b }.

(** The blocks of the subtree at [p] of slot [s]. *)
Definition under (s : Z) (p : list Z) (b : Z) : Prop := b <> 0 /\ exists q, path_ok G s (p ++ q) /\ at0 s (p ++ q) = b.

Lemma freed_ext R R' d : (forall b, R b <-> R' b) -> freed R d -> freed R' d.
Proof. intros E [A B C]. split; [done|done|]. intros b Hb. rewrite C, E by done. done. Qed.

Lemma free_step R d b : freed R d -> data_block G d0 b -> ~ R b ->
  exists d', run (g_len G) (free_data_block meta b) d = (tt, d') /\ freed (fun x => R x \/ x = b) d'.
Proof.
  intros [A B C] (Hb & Hz & Hu) HR. assert (Hu' : used G d b = true) by (apply C; [lia|done]).
  destruct (free_block_spec G HG d b A ltac:(lia) Hz Hu') as (d' & E & [M1 M2 M3]). exists d'. split; [done|]. split; [done| |].
  - intros a Ha Hb'. rewrite M3 by done. by apply B.
  - intros x Hx. rewrite M2 by done. case_decide as D; [split; [done|intros [_ N]; exfalso; apply N; auto]|]. rewrite C by done. tauto.
Qed.

(** What a function that frees the subtree at [p] does. *)
Definition frees (run_free : Z -> io unit) (s : Z) (p : list Z) : Prop :=
  forall R d, freed R d -> path_ok G s p -> at0 s p <> 0 -> (forall b, under s p b -> ~ R b) ->
    exists d', run (g_len G) (run_free (at0 s p)) d = (tt, d') /\ freed (fun x => R x \/ under s p x) d'.

Lemma under_leaf s p : path_ok G s p -> length p = depth s -> at0 s p <> 0 -> forall b, under s p b <-> b = at0 s p.
Proof.
  intros Hp Hl Hne b. split.
  - intros (_ & q & Hq & <-). destruct q as [|i q]; [by rewrite app_nil_r|]. destruct Hq as (_ & Hq & _). rewrite length_app in Hq. cbn in Hq. lia.
  - intros ->. split; [done|]. exists []. by rewrite app_nil_r.
Qed.

Lemma under_inner s p : path_ok G s p -> at0 s p <> 0 -> forall b, under s p b <-> b = at0 s p \/ exists i, 0 <= i < ppb /\ under s (p ++ [i]) b.
Proof.
  intros Hp Hne b. split.
  - intros (Hb & q & Hq & E). destruct q as [|i q]; [left; by rewrite app_nil_r in E|]. right. exists i. split.
    + destruct Hq as (_ & _ & Hq). apply Forall_app in Hq as [_ Hq]. by inversion Hq.
    + split; [done|]. exists q. by rewrite <- app_assoc.
  - intros [->|(i & Hi & Hb & q & Hq & E)]; [split; [done|]; exists []; by rewrite app_nil_r|]. split; [done|]. exists (i :: q). by rewrite <- app_assoc in Hq, E.
Qed.

Lemma frees_leaf s p : length p = depth s -> frees (free_data_block meta) s p.
Proof.
  intros Hl R d Hfr Hp Hne HR. destruct (free_step R d (at0 s p) Hfr) as (d' & E & Hfr'); [by apply (to_data _ _ _ T0)|apply HR; by apply under_leaf|].
  exists d'. split; [done|]. apply (freed_ext (fun x => R x \/ x = at0 s p)); [|done]. intros b. by rewrite under_leaf.
Qed.

(** Subtrees of different entries are disjoint, and disjoint from their root. *)
Lemma under_disjoint s p i j b : i <> j -> under s (p ++ [i]) b -> under s (p ++ [j]) b -> False.
Proof.
  intros Hij (Hb & q & Hq & E) (_ & q' & Hq' & E'). destruct (to_inj _ _ _ T0 _ _ _ _ Hq Hq') as [_ Ep]; [congruence|congruence|].
  rewrite <- !app_assoc in Ep. apply app_inv_head in Ep. simplify_eq/=.
Qed.

Lemma under_root s p i : path_ok G s p -> at0 s p <> 0 -> ~ under s (p ++ [i]) (at0 s p).
Proof.
  intros Hp Hne (_ & q & Hq & E). destruct (to_inj _ _ _ T0 _ _ _ _ Hq Hp) as [_ Ep]; [done|congruence|].
  apply (f_equal length) in Ep. rewrite !length_app in Ep. cbn in Ep. lia.
Qed.

Lemma free_entries_spec child s p table : path_ok G s p -> (length p < depth s)%nat -> at0 s p <> 0 ->
  (forall i, 0 <= i < ppb -> load32 table (4 * i) = at0 s (p ++ [i])) -> (forall i, 0 <= i < ppb -> frees child s (p ++ [i])) ->
  forall n i R d, freed R d -> 0 <= i -> i + Z.of_nat n = ppb -> (forall j b, i <= j < ppb -> under s (p ++ [j]) b -> ~ R b) ->
  exists d', run (g_len G) (free_entries child n i table) d = (tt, d') /\ freed (fun x => R x \/ exists j, i <= j < ppb /\ under s (p ++ [j]) x) d'.
Proof.
  intros Hp Hl Hne Ht Hc n. induction n as [|n IH]; intros i R d Hfr Hi Hn HR.
  { exists d. split; [done|]. apply (freed_ext R); [|done]. intros b. split; [auto|]. intros [|(j & ? & _)]; [done|lia]. }
  cbn [free_entries]. rewrite run_bind. rewrite Ht by lia.
  assert (Hpi : path_ok G s (p ++ [i])).
  { destruct Hp as (P1 & P2 & P3). split; [done|]. rewrite length_app. cbn. split; [lia|]. apply Forall_app. split; [done|]. constructor; [lia|constructor]. }
  assert (Hstep : exists d1, run (g_len G) (if negb (at0 s (p ++ [i]) =? 0) then child (at0 s (p ++ [i])) else mret tt) d = (tt, d1) /\ freed (fun x => R x \/ under s (p ++ [i]) x) d1).
  { destruct (Z.eqb_spec (at0 s (p ++ [i])) 0) as [E|E]; cbn [negb].
    - exists d. split; [done|]. apply (freed_ext R); [|done]. intros b. split; [auto|]. intros [|(Hb & q & Hq & Eq)]; [done|]. exfalso. apply Hb. rewrite <- Eq.
      clear Hq Eq. induction q as [|k q IHq] using rev_ind; [by rewrite app_nil_r|]. rewrite app_assoc, at_snoc, IHq. done.
    - apply (Hc i ltac:(lia) R d Hfr Hpi E). intros b Hb. apply (HR i b ltac:(lia) Hb). }
  destruct Hstep as (d1 & -> & Hfr1). destruct (IH (i + 1) _ d1 Hfr1 ltac:(lia) ltac:(lia)) as (d2 & E & Hfr2).
  { intros j b Hj Hb [H|H]; [by apply (HR j b ltac:(lia) Hb)|]. apply (under_disjoint s p j i b); [lia|done|done]. }
  exists d2. split; [done|]. revert Hfr2. apply freed_ext. intros b. split.
  - intros [[H|H]|(j & Hj & H)]; [auto| |]; right; [exists i|exists j]; (split; [lia|done]).
  - intros [H|(j & Hj & H)]; [auto|]. destruct (decide (j = i)) as [->|]; [auto|]. right. exists j. split; [lia|done].
Qed.

Lemma frees_table child s p : (length p < depth s)%nat -> (forall i, 0 <= i < ppb -> frees child s (p ++ [i])) -> frees (free_indirect meta child) s p.
Proof.
  intros Hl Hc R d Hfr Hp Hne HR. destruct (to_data _ _ _ T0 s p Hp Hne) as (Rg & Hz & Hu). pose proof (len_small G HG). pose proof (bs_pos G HG).
  pose proof (block_end G HG (at0 s p) ltac:(lia)). pose proof (ppb_pos G HG) as [Hpp Hpb]. unfold free_indirect. cbn [block_size meta_of].
  rewrite run_read_in by (done || nia). replace (bs / 4) with ppb by done. rewrite run_bind.
  destruct (free_entries_spec child s p (fetch d (at0 s p * bs) bs zeros) Hp Hl Hne) with (n := Z.to_nat ppb) (i := 0) (R := R) (d := d) as (d1 & -> & Hfr1); try done; try lia.
  { intros i Hi. rewrite fetch_load32 by lia. rewrite at_snoc. replace (at0 s p =? 0) with false by lia. unfold ptr. rewrite (Z.mul_comm 4).
    apply load32_frame. intros x Hx. apply (fr_frame _ _ Hfr); [nia|]. apply data_not_book.
    replace x with (at0 s p * bs + (x - at0 s p * bs)) by lia. rewrite in_block by (done || lia). done. }
  { intros j b Hj Hb. apply HR. apply under_inner; [done|done|]. right. by exists j. }
  destruct (free_step _ d1 (at0 s p) Hfr1) as (d2 & E & Hfr2); [by apply (to_data _ _ _ T0)| |].
  { intros [H'|(j & Hj & H')]; [revert H'; apply HR; apply under_inner; auto|by apply (under_root s p j)]. }
  exists d2. split; [exact E|]. revert Hfr2. apply freed_ext. intros b. rewrite (under_inner s p Hp Hne). tauto.
Qed.

Lemma frees_slot s : 12 <= s < 15 -> frees (if s =? 12 then free_indirect1 meta else if s =? 13 then free_indirect2 meta else free_indirect3 meta) s [].
Proof.
  intros Hs. assert (s = 12 \/ s = 13 \/ s = 14) as [-> | [-> | ->]] by lia; cbn [Z.eqb Pos.eqb].
  - apply frees_table; [cbn; lia|]. intros i Hi. by apply frees_leaf.
  - apply frees_table; [cbn; lia|]. intros i Hi. apply frees_table; [cbn; lia|]. intros j Hj. by apply frees_leaf.
  - apply frees_table; [cbn; lia|]. intros i Hi. apply frees_table; [cbn; lia|]. intros j Hj. apply frees_table; [cbn; lia|]. intros k Hk. by apply frees_leaf.
Qed.

(** ** The slots one after the other *)

Definition free_slot (s : Z) : Z -> io unit :=
  if s <? 12 then free_data_block meta else if s =? 12 then free_indirect1 meta else if s =? 13 then free_indirect2 meta else free_indirect3 meta.

Definition below (k : Z) (b : Z) : Prop := exists s, 0 <= s < k /\ under s [] b.

(** The inode with its first [k] pointers cleared. *)
Record cleared (k : Z) (ino' : memory) : Prop := {
  cl_slot : forall s, 0 <= s < 15 -> slot ino' s = if decide (s < k) then 0 else slot ino s;
  cl_bytes : bytes ino';
  cl_other : forall x, ~ (40 <= x < 100) -> ino' x = ino x }.

Lemma frees_any s : 0 <= s < 15 -> frees (free_slot s) s [].
Proof.
  intros Hs. unfold free_slot. destruct (Z.ltb_spec s 12); [apply frees_leaf; unfold depth; by replace (s <? 12) with true by lia|]. apply frees_slot. lia.
Qed.

Lemma slot_step s d ino1 : 0 <= s < 15 -> freed (below s) d -> cleared s ino1 ->
  exists d', run (g_len G) (if negb (slot ino1 s =? 0) then free_slot s (slot ino1 s) else mret tt) d = (tt, d') /\ freed (below (s + 1)) d' /\
    cleared (s + 1) (if negb (slot ino1 s =? 0) then store32 ino1 (40 + 4 * s) 0 else ino1).
Proof.
  intros Hs Hfr [C1 C2 C3]. assert (E : slot ino1 s = at0 s []) by (rewrite C1, decide_False by lia; done). rewrite E.
  assert (Hb : forall b, below s b \/ under s [] b <-> below (s + 1) b).
  { intros b. split.
    - intros [(s' & ? & ?)|?]; [exists s'|exists s]; (split; [lia|done]).
    - intros (s' & Hs' & ?). destruct (decide (s' = s)) as [->|]; [by right|]. left. exists s'. split; [lia|done]. }
  assert (Hc : forall ino2, (forall s', 0 <= s' < 15 -> slot ino2 s' = if decide (s' = s) then 0 else slot ino1 s') -> bytes ino2 -> (forall x, ~ (40 <= x < 100) -> ino2 x = ino1 x) -> cleared (s + 1) ino2).
  { intros ino2 H1 H2 H3. split; [|done|].
    - intros s' Hs'. rewrite H1 by done. case_decide; [by rewrite decide_True by lia|]. rewrite C1 by done. repeat case_decide; lia || done.
    - intros x Hx. rewrite H3 by done. by apply C3. }
  destruct (Z.eqb_spec (at0 s []) 0) as [Z0|N]; cbn [negb].
  - exists d. split; [done|]. split.
    + apply (freed_ext (below s)); [|done]. intros b. rewrite <- Hb. split; [auto|]. intros [|(Hbn & q & Hq & Eq)]; [done|]. exfalso. apply Hbn. rewrite <- Eq.
      unfold at_ in Z0 |- *. cbn [node app] in Z0 |- *. rewrite Z0. apply node_zero.
    + apply Hc; [|done|done]. intros s' Hs'. case_decide; [|done]. subst. congruence.
  - destruct (frees_any s Hs (below s) d Hfr (path_ok_nil G s Hs) N) as (d' & Er & Hfr').
    { intros b Hu (s' & Hs' & Hu'). destruct Hu as (Hbn & q & Hq & Eq). destruct Hu' as (_ & q' & Hq' & Eq').
      destruct (to_inj _ _ _ T0 _ _ _ _ Hq Hq') as [-> _]; [congruence|congruence|lia]. }
    exists d'. split; [done|]. split; [by apply (freed_ext (fun x => below s x \/ under s [] x))|].
    apply Hc; [|by apply store32_bytes|].
    + intros s' Hs'. unfold slot. case_decide; [subst; by rewrite load32_store32|]. apply load32_store32_ne. lia.
    + intros x Hx. apply store32_frame. lia.
Qed.

Lemma free_direct_spec n : forall i d ino1, 0 <= i -> i + Z.of_nat n = 12 -> freed (below i) d -> cleared i ino1 ->
  exists d' ino2, run (g_len G) (free_direct meta n i ino1) d = (ino2, d') /\ freed (below 12) d' /\ cleared 12 ino2.
Proof.
  induction n as [|n IH]; intros i d ino1 Hi Hn Hfr Hc.
  { exists d, ino1. replace i with 12 in * by lia. done. }
  destruct (slot_step i d ino1 ltac:(lia) Hfr Hc) as (d1 & E & Hfr1 & Hc1). cbn [free_direct]. change (direct_block_pointers ino1 i) with (slot ino1 i).
  destruct (negb (slot ino1 i =? 0)).
  - rewrite run_bind. unfold free_slot in E. replace (i <? 12) with true in E by lia. change (ext2_free_block (slot ino1 i) (block_size meta)) with (free_data_block meta (slot ino1 i)).
    rewrite E. apply IH; [lia|lia|done|done].
  - cbn in E. injection E as <-. apply IH; [lia|lia|done|done].
Qed.

Lemma below_tree b : 0 < b -> below 15 b <-> exists s p, path_ok G s p /\ at0 s p = b.
Proof.
  intros Hb. split.
  - intros (s & Hs & _ & q & Hq & E). by exists s, q.
  - intros (s & p & Hp & E). exists s. split; [apply Hp|]. split; [lia|]. by exists p.
Qed.
End Free.

(** ** The whole operation *)

Lemma cleared_zero d ino ino' : cleared ino 15 ino' -> forall s p, path_ok G s p -> at_ G d ino' s p = 0.
Proof. intros C s p Hp. unfold at_. rewrite (cl_slot _ _ _ C) by apply Hp. rewrite decide_True by apply Hp. apply node_zero. Qed.

(** The file after it was truncated. *)
Record truncated (d : memory) (f : ext2_file) (d' : memory) (f' : ext2_file) : Prop := {
  tr_open : open_file G d' f';
  tr_ino : f_ino f' = f_ino f;
  tr_length : f_length f' = 0;
  tr_used : forall b, 0 < b < g_blocks G -> used G d' b = true <-> used G d b = true /\ ~ exists s p, path_ok G s p /\ at_ G d (f_inode f) s p = b;
  tr_frame : forall a, 0 <= a -> ~ book G a -> ~ own_inode G (f_ino f) a -> d' a = d a;
  tr_disk : inode_on_disk G d' (f_ino f) (f_inode f') }.

Lemma ext2_truncate_spec d f : open_file G d f -> 0 < f_length f ->
  exists f' d', run (g_len G) (ext2_truncate meta now f) d = ((0, f'), d') /\ truncated d f d' f'.
Proof.
  intros O HL. destruct (of_ok _ _ _ O) as [F T B Dn By]. unfold ext2_truncate. replace (f_length f =? 0) with false by lia. rewrite run_bind.
  assert (Hfr0 : freed d (below d (f_inode f) 0) d).
  { split; [done|done|]. intros b Hb. split; [intros H; split; [done|]; intros (s & ? & _); lia|tauto]. }
  assert (Hc0 : cleared (f_inode f) 0 (f_inode f)) by (split; [|done|done]; intros s Hs; by rewrite decide_False by lia).
  destruct (free_direct_spec d (f_inode f) T 12 0 d (f_inode f) ltac:(lia) ltac:(lia) Hfr0 Hc0) as (d1 & ino1 & -> & Hfr1 & Hc1).
  destruct (slot_step d (f_inode f) T 12 d1 ino1 ltac:(lia) Hfr1 Hc1) as (d2 & E2 & Hfr2 & Hc2). cbv zeta.
  change (slot ino1 12) with (singly_indirect_block_pointer ino1) in *. rewrite run_bind. change (free_slot 12) with (free_indirect1 meta) in E2. rewrite E2.
  change (store32 ino1 (40 + 4 * 12) 0) with (set_singly_indirect_block_pointer 0 ino1) in *. set (ino2 := if negb (singly_indirect_block_pointer ino1 =? 0) then _ else ino1) in *.
  destruct (slot_step d (f_inode f) T 13 d2 ino2 ltac:(lia) Hfr2 Hc2) as (d3 & E3 & Hfr3 & Hc3).
  change (slot ino2 13) with (doubly_indirect_block_pointer ino2) in *. rewrite run_bind. change (free_slot 13) with (free_indirect2 meta) in E3. rewrite E3.
  change (store32 ino2 (40 + 4 * 13) 0) with (set_doubly_indirect_block_pointer 0 ino2) in *. set (ino3 := if negb (doubly_indirect_block_pointer ino2 =? 0) then _ else ino2) in *.
  destruct (slot_step d (f_inode f) T 14 d3 ino3 ltac:(lia) Hfr3 Hc3) as (d4 & E4 & Hfr4 & Hc4).
  change (slot ino3 14) with (triply_indirect_block_pointer ino3) in *. rewrite run_bind. change (free_slot 14) with (free_indirect3 meta) in E4. rewrite E4.
  change (store32 ino3 (40 + 4 * 14) 0) with (set_triply_indirect_block_pointer 0 ino3) in *. set (ino4 := if negb (triply_indirect_block_pointer ino3 =? 0) then _ else ino3) in *.
  clear E2 E3 E4 Hfr1 Hfr2 Hfr3 Hc1 Hc2 Hc3. clearbody ino4. change (14 + 1) with 15 in *.
  set (ino5 := set_last_modification_time (u32 now) (set_disk_sectors_count 0 (set_size_lo 0 ino4))).
  set (f' := match f_node_inode _ with None => _ | Some _ => _ end). assert (Ef : f_inode f' = ino5 /\ f_ino f' = f_ino f /\ f_length f' = 0) by (unfold f'; by case_match).
  destruct Ef as (Ef1 & Ef2 & Ef3). rewrite Ef2. rewrite run_write_inode by (apply Hfr4 || apply O || done).
  assert (B5 : bytes ino5) by (apply store32_bytes, store32_bytes, store32_bytes, Hc4).
  assert (Hsl : forall k, 40 <= k < 100 -> ino5 k = ino4 k).
  { intros k Hk. unfold ino5, set_last_modification_time, set_disk_sectors_count, set_size_lo. by rewrite !store32_frame by lia. }
  assert (Es : size_lo ino5 = 0).
  { unfold ino5, size_lo, set_last_modification_time, set_disk_sectors_count, set_size_lo. rewrite !load32_store32_ne by lia. by rewrite load32_store32. }
  assert (T4 : tree_ok G d4 ino4).
  { split; intros s p; [|intros s' p']; intros Hp; rewrite (cleared_zero d4 _ _ Hc4) by done; done. }
  change (blit d4 (inode_addr G (f_ino f)) 128 ino5) with (table_disk G d4 ino5 (f_ino f)).
  exists f', (table_disk G d4 ino5 (f_ino f)). split; [done|]. split.
  - split; [|by rewrite Ef1, Ef3, Es|rewrite Ef2; apply O]. rewrite Ef1. split; [by apply table_fs; [..|apply Hfr4|apply O|]|apply (table_tree G HG d4 ino4); [done|apply O|done]|done| |].
    + intros id H1 H2. pose proof (bs_pos G HG). rewrite Es in H2. nia.
    + intros id Hid _. rewrite (table_bmap G HG d4 ino4) by (done || apply O). destruct (locate_ok G HG id Hid). by apply (cleared_zero d4 _ _ Hc4).
  - done.
  - done.
  - intros b Hb. rewrite table_used by (done || apply O || lia). rewrite (fr_used _ _ _ Hfr4) by lia. by rewrite below_tree by lia.
  - intros a Ha Hb Hno. rewrite table_out by done. by apply (fr_frame _ _ _ Hfr4).
  - rewrite Ef1. apply table_on_disk.
Qed.
End Trunc.
