(* ===== verification/Ext2Dir.v ===== *)
(** Directory blocks of ext2: the chain of entries in a buffer.

    A directory is a sequence of records that fill its blocks.  [dir_chain] relates
    the bytes to a list of records; [find_entry] of [ext2_finddir] looks a name up
    in that list, and [place_entry] of [ext2_add_inode_to_dir] puts a new record
    into the first place with room for it, which keeps all the others. *)

From S2P Require Import Prelude CMem Vfs Elf BlockIo Ext2 Ext2Alloc.
From Stdlib Require Import ZArith Lia Bool FunctionalExtensionality.
From stdpp Require Import base tactics numbers list.
Open Scope Z_scope.

(** A record: the number of the inode, 0 if it is not used, the length of the
    record, and the name. *)
Record dent := mk_dent { e_ino : Z; e_len : Z; e_name : list Z }.

Definition padded (n : Z) : Z := (n + 3) / 4 * 4.
Definition real_len (e : dent) : Z := 8 + padded (Z.of_nat (length (e_name e))).

(** The record at [o]. *)
Record dent_at (b : memory) (o : Z) (e : dent) : Prop := {
  da_ino : de_inode b o = e_ino e;
  da_len : de_rec_len b o = e_len e;
  da_name : e_ino e <> 0 -> de_name b o = e_name e /\ real_len e <= e_len e;
  da_min : 8 <= e_len e < 65536;
  da_name_len : 0 <= de_name_len b o < 256 }.

Fixpoint dir_chain (b : memory) (o o' : Z) (l : list dent) : Prop :=
  match l with
  | [] => o = o'
  | e :: l => dent_at b o e /\ dir_chain b (o + e_len e) o' l
  end.

Lemma padded_bound n : 0 <= n -> n <= padded n <= n + 3.
Proof. intros. unfold padded. dlia. Qed.

Lemma pad_len_padded n : 0 <= n < 256 -> pad_len n = padded n.
Proof.
  intros Hn. unfold pad_len, padded. change (Z.lnot 3) with (-4). replace (Z.land (n + 3) (-4)) with ((n + 3) / 4 * 4).
  - apply u16_small. dlia.
  - change (-4) with (Z.lnot (Z.ones 2)). rewrite <- Z.ldiff_land, Z.ldiff_ones_r by lia. rewrite Z.shiftr_div_pow2, Z.shiftl_mul_pow2 by lia. done.
Qed.

Lemma chain_le b o o' l : dir_chain b o o' l -> o <= o'.
Proof. revert o. induction l as [|e l IH]; intros o; cbn; [lia|]. intros [D C]. apply IH in C. destruct D. lia. Qed.

Lemma chain_app b o o' l l' : dir_chain b o o' (l ++ l') <-> exists m, dir_chain b o m l /\ dir_chain b m o' l'.
Proof.
  revert o. induction l as [|e l IH]; intros o; cbn [app dir_chain].
  - split; [intros H; by exists o|]. intros (m & -> & H). done.
  - rewrite IH. split.
    + intros (D & m & C1 & C2). by exists m.
    + intros (m & (D & C1) & C2). split; [done|]. by exists m.
Qed.

(** A record depends on its own bytes. *)
Lemma dent_at_frame b b' o e : dent_at b o e -> (forall x, o <= x < o + e_len e -> b' x = b x) -> dent_at b' o e.
Proof.
  intros [D1 D2 D3 D4 D5] H.
  assert (En : de_name_len b' o = de_name_len b o) by (apply H; lia).
  split; [| | |done|by rewrite En].
  - rewrite <- D1. apply load32_frame. intros x Hx. apply H. lia.
  - rewrite <- D2. apply load16_frame. intros x Hx. apply H. lia.
  - intros Hne. destruct (D3 Hne) as [E L]. split; [|done]. rewrite <- E. unfold de_name. rewrite En.
    apply list_fmap_ext. intros i k Hk. apply lookup_seqZ in Hk. apply H. unfold real_len in L.
    assert (Hl : Z.of_nat (length (e_name e)) = de_name_len b o).
    { rewrite <- E. unfold de_name. rewrite length_fmap, length_seqZ. lia. }
    pose proof (padded_bound (Z.of_nat (length (e_name e))) ltac:(lia)). lia.
Qed.

Lemma dir_chain_frame b b' o o' l : dir_chain b o o' l -> (forall x, o <= x < o' -> b' x = b x) -> dir_chain b' o o' l.
Proof.
  revert o. induction l as [|e l IH]; intros o; cbn [dir_chain]; [done|]. intros [D C] H. pose proof (chain_le _ _ _ _ C). split.
  - apply (dent_at_frame b); [done|]. intros x Hx. apply H. lia.
  - apply IH; [done|]. intros x Hx. apply H. destruct D. lia.
Qed.

Lemma dent_at_shift b o k e : dent_at (fun i => b (k + i)) o e <-> dent_at b (k + o) e.
Proof.
  assert (E1 : de_inode (fun i => b (k + i)) o = de_inode b (k + o)) by (unfold de_inode, load32; by rewrite !Z.add_assoc).
  assert (E2 : de_rec_len (fun i => b (k + i)) o = de_rec_len b (k + o)) by (unfold de_rec_len, load16; by rewrite !Z.add_assoc).
  assert (E3 : de_name_len (fun i => b (k + i)) o = de_name_len b (k + o)) by (unfold de_name_len; by rewrite !Z.add_assoc).
  assert (E4 : de_name (fun i => b (k + i)) o = de_name b (k + o)).
  { unfold de_name. rewrite E3. apply list_fmap_ext. intros i x _. f_equal. lia. }
  split; intros [D1 D2 D3 D4 D5].
  - rewrite E1 in D1. rewrite E2 in D2. rewrite E4 in D3. rewrite E3 in D5. done.
  - split; rewrite ?E1, ?E2, ?E3, ?E4; done.
Qed.

Lemma chain_shift b o o' k l : dir_chain (fun i => b (k + i)) o o' l <-> dir_chain b (k + o) (k + o') l.
Proof.
  revert o. induction l as [|e l IH]; intros o; cbn [dir_chain]; [lia|]. rewrite dent_at_shift, IH. by rewrite Z.add_assoc.
Qed.

(** ** Looking a name up *)

Fixpoint lookup_name (l : list dent) (name : list Z) : Z :=
  match l with
  | [] => 0
  | e :: l => if negb (e_ino e =? 0) && bool_decide (e_name e = name) then e_ino e else lookup_name l name
  end.

Lemma find_entry_spec n dir size name : size < 2 ^ 32 -> forall o l, 0 <= o -> dir_chain dir o size l -> (Z.to_nat (size - o) <= n)%nat ->
  find_entry n dir size o name = lookup_name l name.
Proof.
  intros Hs. induction n as [|n IH]; intros o l Ho C Hn.
  { destruct l as [|e l]; [done|]. cbn in C. destruct C as [D C]. apply chain_le in C. destruct D. lia. }
  cbn [find_entry]. destruct l as [|e l]; cbn [dir_chain] in C.
  { by replace (size <=? o) with true by lia. }
  destruct C as [D C]. pose proof (chain_le _ _ _ _ C) as L. destruct D as [D1 D2 D3 D4 D5]. replace (size <=? o) with false by lia.
  rewrite D2. replace (e_len e =? 0) with false by lia. rewrite D1. cbn [lookup_name].
  rewrite u32_small by lia. rewrite (IH (o + e_len e) l) by (done || lia).
  destruct (Z.eqb_spec (e_ino e) 0) as [E|E]; [done|]. cbn [negb andb]. destruct (D3 E) as [-> _]. done.
Qed.

(** ** Placing an entry *)

(** The room for a record of length [len]. *)
Definition room (len : Z) (e : dent) : bool := if e_ino e =? 0 then len <=? e_len e else len <=? e_len e - real_len e.

(** The records that take the place of [e]. *)
Definition replaced (ino : Z) (name : list Z) (e : dent) : list dent :=
  if e_ino e =? 0 then [mk_dent ino (e_len e) name]
  else [mk_dent (e_ino e) (real_len e) (e_name e); mk_dent ino (e_len e - real_len e) name].

Fixpoint placed_in (len ino : Z) (name : list Z) (l : list dent) : option (list dent) :=
  match l with
  | [] => None
  | e :: l => if room len e then Some (replaced ino name e ++ l) else l' ← placed_in len ino name l; Some (e :: l')
  end.

Lemma nth_lookup_Some_inv (l : list Z) i : (i < length l)%nat -> l !! i = Some (nth i l 0).
Proof. revert i. induction l as [|x l IH]; intros [|i] Hi; cbn in *; try lia; [done|]. apply IH. lia. Qed.

(** The image of the new entry. *)
Section Place.
Context (ino type : Z) (name : list Z).
Context (Hino : 0 < ino < 2 ^ 32) (Hname : 0 < Z.of_nat (length name) < 245) (Htype : 0 <= type < 256) (Hbytes : Forall (fun c => 0 <= c < 256) name).

Definition name_length : Z := u8 (Z.of_nat (length name)).
Definition rec_length : Z := u8 (pad_len name_length + 8).
Definition entry (rec_len : Z) : memory := dir_entry ino rec_len name_length type name.

Lemma name_length_eq : name_length = Z.of_nat (length name).
Proof. apply u8_small. lia. Qed.

Lemma rec_length_eq : rec_length = 8 + padded (Z.of_nat (length name)).
Proof.
  unfold rec_length. rewrite name_length_eq, pad_len_padded by lia. pose proof (padded_bound (Z.of_nat (length name)) ltac:(lia)).
  assert (padded (Z.of_nat (length name)) <= 244) by (unfold padded; dlia). rewrite u8_small by lia. lia.
Qed.

Lemma name_nth k : 0 <= k < Z.of_nat (length name) -> 0 <= nth (Z.to_nat k) name 0 < 256.
Proof. intros Hk. rewrite Forall_forall in Hbytes. apply Hbytes. apply list_elem_of_In, nth_In. lia. Qed.

Lemma entry_bytes len : bytes (entry len).
Proof.
  intros i. unfold entry, dir_entry. destruct (decide (8 <= i < 8 + name_length)) as [H|H].
  - rewrite blit_in by done. apply name_nth. rewrite name_length_eq in H. lia.
  - rewrite blit_out by done. apply upd_bytes; [apply upd_bytes|]; [apply store16_bytes, store32_bytes, zeros_bytes|rewrite name_length_eq; lia|done].
Qed.

Lemma entry_header len i : 0 <= i < 8 -> entry len i = (store16 (store32 zeros 0 ino) 4 len).[6 <- name_length].[7 <- type] i.
Proof. intros Hi. unfold entry, dir_entry. by rewrite blit_out by lia. Qed.

(** A buffer that holds the entry. *)
Lemma entry_dent b o len : 8 <= len < 65536 -> rec_length <= len -> (forall i, 0 <= i < rec_length -> b (o + i) = entry len i) -> dent_at b o (mk_dent ino len name).
Proof.
  intros Hlen Hr B. pose proof rec_length_eq as RL. pose proof (padded_bound (Z.of_nat (length name)) ltac:(lia)) as PB.
  assert (En : de_name_len b o = name_length) by (unfold de_name_len; rewrite B, entry_header by lia; by rewrite upd_ne, upd_eq by lia).
  split; cbn [e_ino e_len e_name].
  - unfold de_inode. transitivity (load32 (store32 zeros 0 ino) 0); [|rewrite load32_store32; apply u32_small; lia].
    unfold load32. rewrite <- (Z.add_0_r o) at 1. rewrite !B, !entry_header by lia. rewrite !(upd_ne _ 7), !(upd_ne _ 6), !store16_frame by lia. done.
  - unfold de_rec_len. transitivity (load16 (store16 (store32 zeros 0 ino) 4 len) 4); [|rewrite load16_store16; apply u16_small; lia].
    unfold load16. rewrite <- Z.add_assoc, !B, !entry_header by lia. by rewrite !(upd_ne _ 7), !(upd_ne _ 6) by lia.
  - intros _. split; [|unfold real_len; cbn; lia]. unfold de_name. rewrite En, name_length_eq. apply list_eq. intros i. rewrite list_lookup_fmap.
    destruct (decide (i < length name)%nat) as [Hi|Hi].
    + rewrite lookup_seqZ_lt by lia. cbn. rewrite <- Z.add_assoc, B by lia. unfold entry, dir_entry. rewrite blit_in by (rewrite name_length_eq; lia).
      replace (Z.to_nat (8 + (0 + Z.of_nat i) - 8)) with i by lia. symmetry. apply nth_lookup_Some_inv. done.
    + rewrite lookup_seqZ_ge by lia. cbn. symmetry. apply lookup_ge_None. lia.
  - lia.
  - rewrite En, name_length_eq. lia.
Qed.

Lemma entry_placed b o len : 8 <= len < 65536 -> rec_length <= len -> dent_at (blit b o rec_length (entry len)) o (mk_dent ino len name).
Proof. intros H1 H2. apply entry_dent; [done|done|]. intros i Hi. rewrite blit_in by lia. f_equal. lia. Qed.

(** Copying the entry and then setting the length of its record. *)
Lemma entry_relen b o len len' : store16 (blit b o rec_length (entry len)) (o + 4) len' = blit b o rec_length (entry len').
Proof.
  pose proof rec_length_eq as RL. pose proof (padded_bound (Z.of_nat (length name)) ltac:(lia)) as PB.
  assert (E : forall l i, i <> 4 -> i <> 5 -> entry l i = entry len i).
  { intros l i N4 N5. unfold entry, dir_entry, blit. case_match; [done|]. rewrite !upd_cases. repeat case_decide; try done. by rewrite !store16_frame by lia. }
  assert (E4 : entry len' 4 = u8 len' /\ entry len' 5 = u8 (len' / 2 ^ 8)).
  { rewrite !entry_header by lia. rewrite !(upd_ne _ 7), !(upd_ne _ 6) by lia. unfold store16. by rewrite upd_ne, !upd_eq by lia. }
  apply functional_extensionality. intros x. unfold store16. rewrite !upd_cases. repeat case_decide; subst.
  - rewrite blit_in by lia. replace (o + 4 + 1 - o) with 5 by lia. by rewrite (proj2 E4).
  - rewrite blit_in by lia. replace (o + 4 - o) with 4 by lia. by rewrite (proj1 E4).
  - unfold blit. case_match; [|done]. by rewrite (E len') by lia.
Qed.

Lemma used_name_len b o e : dent_at b o e -> e_ino e <> 0 -> de_name_len b o = Z.of_nat (length (e_name e)).
Proof. intros D Hne. destruct (da_name _ _ _ D Hne) as [<- _]. unfold de_name. rewrite length_fmap, length_seqZ. destruct D. lia. Qed.

(** A used record cut to its real length. *)
Lemma cut_record b o e : dent_at b o e -> e_ino e <> 0 -> dent_at (store16 b (o + 4) (real_len e)) o (mk_dent (e_ino e) (real_len e) (e_name e)).
Proof.
  intros D Hne. pose proof (used_name_len b o e D Hne) as NL. destruct D as [D1 D2 D3 D4 D5]. destruct (D3 Hne) as [En L].
  pose proof (padded_bound (Z.of_nat (length (e_name e))) ltac:(lia)) as PB. assert (RL : 8 <= real_len e < 65536) by (unfold real_len in *; lia).
  assert (NL' : de_name_len (store16 b (o + 4) (real_len e)) o = de_name_len b o) by (unfold de_name_len; apply store16_frame; lia).
  split; cbn [e_ino e_len e_name]; [| | |done|by rewrite NL'].
  - rewrite <- D1. apply load32_frame. intros x Hx. apply store16_frame. lia.
  - unfold de_rec_len. rewrite load16_store16. apply u16_small. lia.
  - intros _. split; [|unfold real_len; cbn; lia]. rewrite <- En. unfold de_name. rewrite NL'. apply list_fmap_ext. intros i k Hk. apply lookup_seqZ in Hk.
    apply store16_frame. lia.
Qed.

Lemma place_entry_spec bs n : forall o l buf, 0 <= o -> dir_chain buf o bs l -> (Z.to_nat (bs - o) <= n)%nat -> bytes buf ->
  match placed_in rec_length ino name l with
  | Some l' => exists buf', place_entry n bs rec_length entry buf o = Some buf' /\ dir_chain buf' o bs l' /\ (forall x, ~ (o <= x < bs) -> buf' x = buf x) /\ bytes buf'
  | None => place_entry n bs rec_length entry buf o = None
  end.
Proof.
  pose proof rec_length_eq as RL. pose proof (padded_bound (Z.of_nat (length name)) ltac:(lia)) as PB.
  induction n as [|n IH]; intros o l buf Ho C Hn Bb.
  { destruct l as [|e l]; [done|]. cbn in C. destruct C as [D C]. apply chain_le in C. destruct D. lia. }
  cbn [place_entry]. destruct l as [|e l]; cbn [placed_in].
  { cbn in C. by replace (bs <=? o) with true by lia. }
  destruct C as [D C]. pose proof (chain_le _ _ _ _ C) as L. pose proof (da_min _ _ _ D) as DM. replace (bs <=? o) with false by lia. rewrite (da_ino _ _ _ D), (da_len _ _ _ D).
  specialize (IH (o + e_len e) l buf ltac:(lia) C ltac:(lia) Bb).
  assert (Hnext : match placed_in rec_length ino name l with
     | Some l' => exists buf', place_entry n bs rec_length entry buf (o + e_len e) = Some buf' /\ dir_chain buf' o bs (e :: l') /\ (forall x, ~ (o <= x < bs) -> buf' x = buf x) /\ bytes buf'
     | None => place_entry n bs rec_length entry buf (o + e_len e) = None end).
  { destruct (placed_in _ _ _ l) as [l'|]; [|done]. destruct IH as (buf' & E & C' & Fr & B'). exists buf'. split_and!; [done|split; [|done]|intros x Hx; apply Fr; lia|done].
    apply (dent_at_frame buf); [done|]. intros x Hx. apply Fr. lia. }
  unfold room, replaced. destruct (Z.eqb_spec (e_ino e) 0) as [E0|E0].
  - destruct (Z.leb_spec rec_length (e_len e)) as [Hr|Hr].
    + eexists. split; [reflexivity|]. rewrite entry_relen. cbn [app dir_chain e_len]. split_and!.
      * apply entry_placed; lia.
      * apply (dir_chain_frame buf); [done|]. intros x Hx. apply blit_out. lia.
      * intros x Hx. apply blit_out. lia.
      * apply blit_bytes; [done|apply entry_bytes].
    + replace (e_len e =? 0) with false by lia. destruct (placed_in _ _ _ l) as [l'|]; cbn; done.
  - pose proof (used_name_len buf o e D E0) as NL. destruct (da_name _ _ _ D E0) as [_ Lr]. pose proof (da_name_len _ _ _ D) as DN.
    rewrite NL, pad_len_padded by lia. fold (real_len e).
    pose proof (padded_bound (Z.of_nat (length (e_name e))) ltac:(lia)) as PB2. assert (R8 : 8 <= real_len e) by (unfold real_len; lia).
    rewrite !(u16_small (real_len e)) by lia. rewrite (u16_small (e_len e - real_len e)) by lia. destruct (Z.leb_spec rec_length (e_len e - real_len e)) as [Hr|Hr].
    + eexists. split; [reflexivity|]. cbn [app dir_chain e_len]. split_and!.
      * apply (dent_at_frame (store16 buf (o + 4) (real_len e))); [by apply cut_record|]. cbn. intros x Hx. apply blit_out. lia.
      * apply entry_placed; lia.
      * replace (o + real_len e + (e_len e - real_len e)) with (o + e_len e) by lia. apply (dir_chain_frame buf); [done|]. intros x Hx. rewrite blit_out, store16_frame by lia. done.
      * intros x Hx. rewrite blit_out, store16_frame by lia. done.
      * apply blit_bytes; [by apply store16_bytes|apply entry_bytes].
    + destruct (placed_in _ _ _ l) as [l'|]; cbn; done.
Qed.

(** ** The names after a new entry *)

Lemma lookup_placed len l l' : placed_in len ino name l = Some l' -> lookup_name l name = 0 ->
  lookup_name l' name = ino /\ forall other, other <> name -> lookup_name l' other = lookup_name l other.
Proof.
  revert l'. induction l as [|e l IH]; intros l'; cbn [placed_in]; [done|]. unfold room, replaced. intros E Hl.
  cbn [lookup_name] in Hl. destruct (Z.eqb_spec (e_ino e) 0) as [E0|E0]; cbn [negb andb] in Hl.
  - destruct (len <=? e_len e).
    + injection E as <-. cbn. replace (ino =? 0) with false by lia. cbn [negb andb]. rewrite bool_decide_eq_true_2 by done. split; [done|].
      intros other Ho. rewrite bool_decide_eq_false_2 by done. replace (e_ino e =? 0) with true by lia. done.
    + destruct (placed_in len ino name l) as [l1|]; [|done]. cbn in E. injection E as <-. cbn [lookup_name]. replace (e_ino e =? 0) with true by lia. cbn [negb andb]. by apply IH.
  - case_bool_decide as Dn; [done|]. destruct (len <=? e_len e - real_len e).
    + injection E as <-. cbn. replace (e_ino e =? 0) with false by lia. replace (ino =? 0) with false by lia. cbn [negb andb].
      rewrite bool_decide_eq_false_2 by done. rewrite bool_decide_eq_true_2 by done. split; [done|]. intros other Ho. case_bool_decide; [done|]. by rewrite bool_decide_eq_false_2.
    + destruct (placed_in len ino name l) as [l1|]; [|done]. cbn in E. injection E as <-. cbn [lookup_name]. replace (e_ino e =? 0) with false by lia. cbn [negb andb].
      rewrite bool_decide_eq_false_2 by done. destruct (IH l1 eq_refl Hl) as [I1 I2]. split; [done|]. intros other Ho. case_bool_decide; [done|]. by apply I2.
Qed.
End Place.
