(* ===== verification/Ext2Names.v ===== *)
(** Directories of ext2 as files: adding a name and finding it.

    [dir_ok] relates a directory to the lists of records of its blocks.
    [ext2_add_inode_to_dir] adds the name to one of them, or to a new block;
    [ext2_finddir] of a node that was just made finds the first record with the
    name.  So a name that is added is found afterwards, and all others as before. *)

From S2P Require Import Prelude CMem Vfs Elf BlockIo Ext2 Ext2Alloc Ext2Tree Ext2Map Ext2File Ext2Write Ext2Dir.
From Stdlib Require Import ZArith Lia Bool FunctionalExtensionality.
From stdpp Require Import base tactics numbers list.
Open Scope Z_scope.

Section Names.
Context (G : geometry) (HG : geometry_ok G) (now : Z).

Abbreviation bs := (g_bs G).
Abbreviation meta := (meta_of G).
Abbreviation byte_at := (byte_at G).

(** ** Inodes read from the disk *)

Lemma run_read_inode {A} mode d n (f : memory -> io A) : can_read mode = true -> fs_ok G d -> 0 < n <= g_inodes G ->
  run (g_len G) (ext2_read_inode mode meta n ≫= f) d = run (g_len G) (f (fetch d (inode_addr G n) 128 zeros)) d.
Proof.
  intros Hm F Hn. pose proof (go_len _ HG). destruct (inode_inside G HG n Hn). destruct (go_inodes _ HG n Hn) as (Hg & _).
  destruct (desc_inside G HG _ Hg). destruct (fo_desc _ _ F _ Hg) as [_ Et]. pose proof (go_numbers _ HG). pose proof (go_ipg _ HG). pose proof (go_isize _ HG). pose proof (bs_pos G HG).
  assert (0 <= (n - 1) mod g_ipg G) by (apply Z.mod_pos_bound; lia). assert (Hit : 0 <= g_it G ((n - 1) / g_ipg G)) by (rewrite <- Et; apply load32_u32, F).
  unfold ext2_read_inode. cbn [inodes_per_group block_size inode_size meta_of]. rewrite (u32_small (n - 1)) by lia. rewrite run_bind.
  fold (desc G ((n - 1) / g_ipg G)). unfold sizeof_gdt, sizeof_inode. rewrite (u32_small (desc G _)) by lia. rewrite run_read_in by (done || lia).
  unfold inode_table_start_addr. rewrite fetch_load32 by lia. rewrite Et. unfold inode_addr in *.
  rewrite (u32_small (g_it G _ * bs)) by nia. rewrite (u32_small (_ + _)) by lia. rewrite <- run_bind. by rewrite run_read_in by (done || lia).
Qed.

(** An inode that has the same 128 bytes. *)
Lemma at_ext d ino ino' : tree_ok G d ino -> (forall k, 0 <= k < 128 -> ino' k = ino k) -> forall s p, path_ok G s p -> at_ G d ino' s p = at_ G d ino s p.
Proof. intros T E. apply (at_same G HG); [done| |done]. apply slot_same. intros x Hx. apply E. lia. Qed.

Lemma bmap_ext d ino ino' id : tree_ok G d ino -> (forall k, 0 <= k < 128 -> ino' k = ino k) -> valid_id G id -> bmap G d ino' id = bmap G d ino id.
Proof. intros T E H. destruct (locate_ok G HG id H). by apply at_ext. Qed.

Lemma size_ext ino ino' : (forall k, 0 <= k < 128 -> ino' k = ino k) -> size_lo ino' = size_lo ino.
Proof. intros E. apply load32_frame. intros x Hx. apply E. lia. Qed.

Lemma file_ok_ext d ino ino' : file_ok G d ino -> (forall k, 0 <= k < 128 -> ino' k = ino k) -> bytes ino' -> file_ok G d ino'.
Proof.
  intros [F T B Dn By] E B'. pose proof (size_ext ino ino' E) as Es. pose proof (load32_u32 ino 4 B) as Hs. split; [done| |done| |].
  - apply (tree_ok_same G d d ino); [done|by apply at_ext|done].
  - intros id H1 H2. rewrite Es in H2. assert (Hv : valid_id G id) by (apply id_valid; [done|done|unfold is_u32, size_lo in *; lia]). rewrite (bmap_ext d ino) by done. by apply Dn.
  - intros id H1 H2. rewrite Es in H2. rewrite (bmap_ext d ino) by done. by apply By.
Qed.

Lemma byte_at_ext d ino ino' pos : tree_ok G d ino -> (forall k, 0 <= k < 128 -> ino' k = ino k) -> 0 <= pos < 2 ^ 32 -> byte_at d ino' pos = byte_at d ino pos.
Proof. intros T E Hp. unfold Ext2File.byte_at. rewrite (bmap_ext d ino); [done|done|done|by apply valid_pos]. Qed.

(** ** Directories *)

Definition blocks_of (c : memory) (L : list (list dent)) : Prop :=
  forall i l, L !! i = Some l -> dir_chain c (Z.of_nat i * bs) (Z.of_nat i * bs + bs) l.

Record dir_ok (d : memory) (n : Z) (ino : memory) (L : list (list dent)) : Prop := {
  dr_file : file_ok G d ino;
  dr_num : 0 < n <= g_inodes G;
  dr_disk : inode_on_disk G d n ino;
  dr_type : Z.land (ext2_type_to_vfs (type_and_permissions ino)) VFS_TYPE_DIRECTORY <> 0;
  dr_size : size_lo ino = Z.of_nat (length L) * bs;
  dr_blocks : blocks_of (byte_at d ino) L;
  dr_entries : Forall (fun e => 0 <= e_ino e <= g_inodes G) (concat L) }.

Lemma chain_concat c L : blocks_of c L -> dir_chain c 0 (Z.of_nat (length L) * bs) (concat L).
Proof.
  induction L as [|l L IH] using rev_ind; intros H; [done|]. rewrite concat_app, chain_app, length_app. cbn [length concat app]. rewrite app_nil_r.
  exists (Z.of_nat (length L) * bs). split.
  - apply IH. intros i l' Hi. apply H. rewrite lookup_app_l; [done|]. by eapply lookup_lt_Some.
  - replace (Z.of_nat (length L + 1) * bs) with (Z.of_nat (length L) * bs + bs) by lia. apply H. rewrite lookup_app_r, Nat.sub_diag by lia. done.
Qed.

(** The records after an entry was added: in the first block with room, or in a
    new block. *)
Fixpoint placed_blocks (len ino : Z) (name : list Z) (L : list (list dent)) : list (list dent) :=
  match L with
  | [] => [[mk_dent ino bs name]]
  | l :: L => match placed_in len ino name l with Some l' => l' :: L | None => l :: placed_blocks len ino name L end
  end.

Lemma placed_entries (Q : Z -> Prop) len ino name l l' : placed_in len ino name l = Some l' -> Q ino -> Forall (fun e => Q (e_ino e)) l -> Forall (fun e => Q (e_ino e)) l'.
Proof.
  intros Hl Hq. revert l' Hl. induction l as [|e l IH]; cbn [placed_in]; [done|]. intros l' Hl [He Hr]%Forall_cons. destruct (room len e).
  - injection Hl as <-. apply Forall_app. split; [|done]. unfold replaced. case_match; by repeat constructor.
  - destruct (placed_in len ino name l) as [l2|]; [|done]. injection Hl as <-. constructor; [done|]. by apply IH.
Qed.

Lemma placed_blocks_entries (Q : Z -> Prop) len ino name L : Q ino -> Forall (fun e => Q (e_ino e)) (concat L) -> Forall (fun e => Q (e_ino e)) (concat (placed_blocks len ino name L)).
Proof.
  intros Hq. induction L as [|l L IH]; cbn [placed_blocks concat]; [by repeat constructor|]. intros [H1 H2]%Forall_app.
  destruct (placed_in len ino name l) as [l'|] eqn:E; cbn [concat]; apply Forall_app; (split; [|auto]); [|done]. by apply (placed_entries Q len ino name l).
Qed.

Lemma lookup_entries (Q : Z -> Prop) l name : Q 0 -> Forall (fun e => Q (e_ino e)) l -> Q (lookup_name l name).
Proof. intros Q0. induction 1 as [|e l He Hl IH]; cbn [lookup_name]; [done|]. by case_match. Qed.

Lemma lookup_name_app l l' name : lookup_name (l ++ l') name = if lookup_name l name =? 0 then lookup_name l' name else lookup_name l name.
Proof.
  induction l as [|e l IH]; cbn [app lookup_name]; [done|]. destruct (Z.eqb_spec (e_ino e) 0) as [E|E]; cbn [negb andb]; [done|].
  case_bool_decide; [|done]. by replace (e_ino e =? 0) with false by lia.
Qed.

Lemma lookup_blocks len ino name L : 0 < ino < 2 ^ 32 -> lookup_name (concat L) name = 0 ->
  lookup_name (concat (placed_blocks len ino name L)) name = ino /\
  forall other, other <> name -> lookup_name (concat (placed_blocks len ino name L)) other = lookup_name (concat L) other.
Proof.
  intros Hi. induction L as [|l L IH]; intros Hl; cbn [placed_blocks concat].
  - cbn. replace (ino =? 0) with false by lia. cbn [negb andb]. rewrite bool_decide_eq_true_2 by done. split; [done|]. intros other Ho. by rewrite bool_decide_eq_false_2.
  - cbn [concat] in Hl. rewrite lookup_name_app in Hl. destruct (Z.eqb_spec (lookup_name l name) 0) as [El|El]; [|done].
    destruct (placed_in len ino name l) as [l'|] eqn:Ep; cbn [concat].
    + destruct (lookup_placed ino name Hi len l l' Ep El) as [P1 P2]. rewrite lookup_name_app, P1. replace (ino =? 0) with false by lia. split; [done|].
      intros other Ho. rewrite !lookup_name_app. by rewrite P2.
    + destruct (IH Hl) as [I1 I2]. rewrite lookup_name_app, El. cbn. split; [done|]. intros other Ho. rewrite !lookup_name_app. by rewrite I2.
Qed.

(** ** Adding an entry *)

Record dir_changed (d ino d' ino' : memory) (L' : list (list dent)) : Prop := {
  dc_file : file_ok G d' ino';
  dc_size : size_lo ino' = Z.of_nat (length L') * bs;
  dc_blocks : blocks_of (byte_at d' ino') L';
  dc_frame : forall a, alien G d ino a -> d' a = d a;
  dc_inode : forall x, ~ (4 <= x < 8) -> ~ (40 <= x < 100) -> ino' x = ino x }.

Lemma block_chain d' ino' i src l : (forall x, 0 <= x < bs -> byte_at d' ino' (i * bs + x) = src x) -> dir_chain src 0 bs l -> dir_chain (byte_at d' ino') (i * bs) (i * bs + bs) l.
Proof.
  intros E C. rewrite <- (Z.add_0_r (i * bs)) at 1. apply chain_shift. apply (dir_chain_frame src); [done|]. intros x Hx. by apply E.
Qed.

Lemma chain_block c i l : dir_chain c (i * bs) (i * bs + bs) l -> dir_chain (fun x => c (i * bs + x)) 0 bs l.
Proof. intros C. apply chain_shift. by rewrite Z.add_0_r. Qed.

(** Storing a block of the directory. *)
Lemma store_block d ino L i l l' buf : file_ok G d ino -> size_lo ino = Z.of_nat (length L) * bs -> blocks_of (byte_at d ino) L -> L !! i = Some l ->
  bytes buf -> dir_chain buf 0 bs l' ->
  dir_changed d ino (blit d (bmap G d ino (Z.of_nat i) * bs) bs buf) ino (<[i := l']> L).
Proof.
  intros [F T B Dn By] Hs Hb Hi Bb C. pose proof (bs_pos G HG). pose proof (load32_u32 ino 4 B) as HU. fold (size_lo ino) in HU. unfold is_u32 in HU.
  pose proof (lookup_lt_Some _ _ _ Hi) as Hlt. assert (Hn : bmap G d ino (Z.of_nat i) <> 0) by (apply Dn; nia).
  assert (Hv : valid_id G (Z.of_nat i)) by (apply id_valid; [done|lia|nia]).
  pose proof (dw_progress G HG d ino (Z.of_nat i) 0 bs buf F T B Hv Hn ltac:(lia) ltac:(lia) Bb) as P.
  pose proof (fun id : Z => dw_bmap G HG d ino (Z.of_nat i) 0 bs buf T Hv Hn ltac:(lia) ltac:(lia) id) as M.
  pose proof (fun pos : Z => dw_byte_at G HG d ino (Z.of_nat i) 0 bs buf T Hv Hn ltac:(lia) ltac:(lia) pos) as C2.
  unfold data_written in P, M, C2. rewrite Z.add_0_r in P, M, C2. set (d' := blit d _ _ _) in *.
  split; [split; [apply P|apply P|done| |]|by rewrite length_insert| |by apply (pg_frame _ _ _ _ _ P)|done].
  - intros id H1 H2. rewrite M by (apply id_valid; [done|done|lia]). by apply Dn.
  - intros id H1 H2. rewrite M by done. by apply By.
  - intros j lj Hj. pose proof (lookup_lt_Some _ _ _ Hj) as Hjl. rewrite length_insert in Hjl. assert (Hposj : forall x, 0 <= x < bs -> 0 <= Z.of_nat j * bs + x < size_lo ino) by (intros x Hx; nia).
    destruct (decide (j = i)) as [->|Nj].
    + rewrite list_lookup_insert_eq in Hj by done. injection Hj as <-. apply (block_chain d' ino _ buf); [|done]. intros x Hx. specialize (Hposj x Hx).
      destruct (in_part G HG (Z.of_nat i) x Hx) as [E1 E2]. rewrite C2; [|lia|by rewrite E1|by rewrite E1]. rewrite E1, E2, decide_True by lia. f_equal. lia.
    + rewrite list_lookup_insert_ne in Hj by done. apply (dir_chain_frame (byte_at d ino)); [by apply Hb|]. intros x Hx. specialize (Hposj (x - Z.of_nat j * bs) ltac:(lia)).
      destruct (in_part G HG (Z.of_nat j) (x - Z.of_nat j * bs) ltac:(lia)) as [E1 E2]. replace (Z.of_nat j * bs + (x - Z.of_nat j * bs)) with x in E1, E2, Hposj by lia.
      rewrite C2; [|lia|apply valid_pos; [done|lia]|rewrite E1; apply Dn; nia]. rewrite decide_False by (rewrite E1; lia). done.
Qed.

Section Add.
Context (m type : Z) (name : list Z).
Context (Hm : 0 < m < 2 ^ 32) (Hname : 0 < Z.of_nat (length name) < 245) (Htype : 0 <= type < 256) (Hbytes : Forall (fun c => 0 <= c < 256) name).

Abbreviation rec := (rec_length name).
Abbreviation ent := (entry m type name).

(** Storing the entry in a new block at the end. *)
Lemma new_block_stored d ino L d1 ino1 nb : file_ok G d ino -> size_lo ino = Z.of_nat (length L) * bs -> size_lo ino + bs < 2 ^ 32 -> blocks_of (byte_at d ino) L ->
  block_added G d ino (Z.of_nat (length L)) (Some (nb * bs)) d1 ino1 -> nb <> 0 ->
  (forall id, valid_id G id -> bmap G d1 ino1 id = if decide (id = Z.of_nat (length L)) then nb else bmap G d ino id) ->
  dir_changed d ino (blit d1 (nb * bs) bs (ent (u16 bs))) (set_size_lo (u32 (size_lo ino1 + bs)) ino1) (L ++ [[mk_dent m bs name]]).
Proof.
  intros [F T B Dn By] Hs Hmax Hb (P & K & _) Nb Mp. pose proof (bs_pos G HG). pose proof (go_bs _ HG) as [Hbs _]. set (k := Z.of_nat (length L)) in *.
  pose proof (rec_length_eq type name Hname Htype) as RL. pose proof (padded_bound (Z.of_nat (length name)) ltac:(lia)) as PB.
  assert (Hrec : 8 <= rec <= 256) by lia. rewrite u16_small by lia. assert (Hv : valid_id G k) by (apply id_valid; [done|lia|lia]).
  assert (Ek : bmap G d1 ino1 k = nb) by (rewrite Mp by done; by rewrite decide_True).
  assert (Es1 : size_lo ino1 = size_lo ino) by (apply load32_frame; intros x Hx; apply (pg_inode _ _ _ _ _ P); lia).
  pose proof (entry_bytes m type name Hname Htype Hbytes bs) as Bb.
  pose proof (dw_progress G HG d1 ino1 k 0 bs (ent bs) (pg_fs _ _ _ _ _ P) (pg_tree _ _ _ _ _ P) (pg_bytes _ _ _ _ _ P) Hv ltac:(by rewrite Ek) ltac:(lia) ltac:(lia) Bb) as P2.
  pose proof (fun id : Z => dw_bmap G HG d1 ino1 k 0 bs (ent bs) (pg_tree _ _ _ _ _ P) Hv ltac:(by rewrite Ek) ltac:(lia) ltac:(lia) id) as M2.
  pose proof (fun pos : Z => dw_byte_at G HG d1 ino1 k 0 bs (ent bs) (pg_tree _ _ _ _ _ P) Hv ltac:(by rewrite Ek) ltac:(lia) ltac:(lia) pos) as C2.
  unfold data_written in P2, M2, C2. rewrite Ek, Z.add_0_r in P2, M2, C2. set (d2 := blit d1 _ _ _) in *.
  rewrite Es1. set (ino2 := set_size_lo (u32 (size_lo ino + bs)) ino1). pose proof (load32_u32 ino 4 B) as HU. fold (size_lo ino) in HU. unfold is_u32 in HU.
  assert (Es2 : size_lo ino2 = size_lo ino + bs) by (unfold size_lo at 1, ino2, set_size_lo; rewrite load32_store32; rewrite (u32_small (size_lo ino + bs)) by lia; apply u32_small; lia).
  assert (Hsl : forall x, 40 <= x < 100 -> ino2 x = ino1 x) by (intros x Hx; apply store32_frame; lia).
  assert (A3 : forall s p, path_ok G s p -> at_ G d2 ino2 s p = at_ G d2 ino1 s p) by (apply (at_same G HG); [apply P2|by apply slot_same|done]).
  assert (M3 : forall id, valid_id G id -> bmap G d2 ino2 id = if decide (id = k) then nb else bmap G d ino id).
  { intros id Hid. destruct (locate_ok G HG id Hid) as [Hp _]. unfold bmap at 1. rewrite A3 by done. fold (bmap G d2 ino1 id). rewrite M2 by done. by apply Mp. }
  assert (C3 : forall pos, byte_at d2 ino2 pos = byte_at d2 ino1 pos \/ ~ valid_id G (pos / bs)).
  { intros pos. destruct (decide (0 <= pos / bs < 12 + ppb G + ppb G * ppb G + ppb G * ppb G * ppb G)) as [V|V]; [left|right; exact V].
    unfold Ext2File.byte_at. destruct (locate_ok G HG (pos / bs) V) as [Hp _]. unfold bmap. by rewrite A3. }
  assert (Low : forall id, 0 <= id -> id * bs < size_lo ino + bs -> id <> k -> id * bs < size_lo ino).
  { intros id H1 H2 H3. destruct (decide (id < k)) as [Lk|Lk]; [apply (block_lt G HG) in Lk; lia|]. pose proof (block_lt G HG k id ltac:(lia)). lia. }
  split; [split| | | |].
  - apply P2.
  - apply (tree_ok_same G d2 d2 ino1); [apply P2|done|done].
  - apply store32_bytes. apply P.
  - intros id H1 H2. rewrite Es2 in H2. rewrite M3 by (apply id_valid; [done|done|lia]). case_decide; [done|]. apply Dn; [done|]. by apply Low.
  - intros id H1 H2. rewrite Es2 in H2. rewrite M3 by done. rewrite decide_False by (intros ->; lia). apply By; [done|lia].
  - rewrite Es2, length_app. cbn. lia.
  - intros j lj Hj. pose proof (lookup_lt_Some _ _ _ Hj) as Hjl. rewrite length_app in Hjl. cbn in Hjl.
    destruct (decide (j = length L)) as [->|Nj].
    + rewrite lookup_app_r, Nat.sub_diag in Hj by lia. injection Hj as <-. fold k. apply (block_chain d2 ino2 k (ent bs)).
      * intros x Hx. destruct (in_part G HG k x Hx) as [E1 E2]. destruct (C3 (k * bs + x)) as [->|Nv]; [|rewrite E1 in Nv; done].
        rewrite C2; [|nia|by rewrite E1|rewrite E1; by rewrite Ek]. rewrite E1, E2, decide_True by lia. f_equal. lia.
      * split; [|cbn; lia]. apply (entry_dent m type name Hm Hname Htype); [lia|lia|]. intros i Hi. f_equal.
    + rewrite lookup_app_l in Hj by lia. apply (dir_chain_frame (byte_at d ino)); [by apply Hb|]. intros x Hx.
      assert (Hj2 : Z.of_nat j < k) by lia. apply (block_lt G HG) in Hj2.
      destruct (in_part G HG (Z.of_nat j) (x - Z.of_nat j * bs) ltac:(lia)) as [E1 E2]. replace (Z.of_nat j * bs + (x - Z.of_nat j * bs)) with x in E1, E2 by lia.
      assert (Hx0 : 0 <= x < 2 ^ 32) by (pose proof (Nat2Z.is_nonneg j); nia). pose proof (valid_pos G HG x Hx0) as Hvx.
      assert (Hbx : bmap G d ino (x / bs) <> 0) by (rewrite E1; apply Dn; lia).
      destruct (C3 x) as [->|Nv]; [|done]. rewrite C2; [|lia|done|rewrite Mp, decide_False by (done || rewrite E1; lia); done].
      rewrite decide_False by (rewrite E1; lia). apply K; [lia|done|done].
  - intros a Ha. rewrite (pg_frame _ _ _ _ _ P2) by (by apply (alien_progress G d ino)). by apply (pg_frame _ _ _ _ _ P).
  - intros x H1 H2. unfold ino2, set_size_lo. rewrite store32_frame by lia. by apply (pg_inode _ _ _ _ _ P).
Qed.

Definition add_last (buf ino : memory) (i : Z) : io (option (bool * memory)) :=
  r ← add_block meta ino i;
  match (r : option Z * memory) with
  | (None, ino) => mret (Some (false, ino))
  | (Some addr, ino) =>
      _ ← dev_read O_RDWR addr bs buf;
      _ ← dev_write O_RDWR addr bs (ent (u16 bs));
      mret (Some (true, set_size_lo (u32 (size_lo ino + bs)) ino))
  end.

Lemma run_add_last n d buf ino i : run (g_len G) (ext2_block_id_to_addr ino i bs) d = (0, d) ->
  run (g_len G) (add_entry_blocks meta (S n) rec (name_length name) ent buf ino i) d = run (g_len G) (add_last buf ino i) d.
Proof.
  intros H0. cbn [add_entry_blocks block_size meta_of]. rewrite run_bind, H0. cbn [Z.eqb]. unfold add_last, add_block. cbn [block_size meta_of].
  rewrite !run_bind. destruct (run (g_len G) (ext2_alloc_block bs) d) as [nb d1]. destruct (nb =? 0); [done|].
  rewrite !run_bind. destruct (run (g_len G) (ext2_set_block_id ino i bs nb) d1) as [[ok ino1] d2]. by destruct ok.
Qed.

Lemma add_last_spec d buf ino L : file_ok G d ino -> size_lo ino = Z.of_nat (length L) * bs -> size_lo ino + bs < 2 ^ 32 -> blocks_of (byte_at d ino) L ->
  exists (ok : bool) (d' ino' : memory), run (g_len G) (add_last buf ino (Z.of_nat (length L))) d = (Some (ok, ino'), d') /\ if ok then dir_changed d ino d' ino' (L ++ [[mk_dent m bs name]]) else full G d'.
Proof.
  intros FO Hs Hmax Hb. pose proof FO as [F T B Dn By]. pose proof (bs_pos G HG). pose proof (go_len _ HG).
  assert (Hv : valid_id G (Z.of_nat (length L))) by (apply id_valid; [done|lia|lia]).
  destruct (add_data_block_spec G HG d ino _ F T B Hv ltac:(apply By; [done|lia])) as (r & d1 & ino1 & E & A).
  unfold add_last. rewrite run_bind, E. destruct r as [addr|]; [|exists false, d1, ino1; split; [done|]; by destruct A as (_ & _ & Hf & _)].
  pose proof A as (P & K & nb & -> & Nb & Mp). set (k := Z.of_nat (length L)) in *.
  assert (Ek : bmap G d1 ino1 k = nb) by (rewrite Mp by done; by rewrite decide_True).
  destruct (leaf_data G HG d1 ino1 k (pg_tree _ _ _ _ _ P) Hv) as (R & _); [by rewrite Ek|]. rewrite Ek in R. pose proof (block_end G HG nb ltac:(lia)).
  rewrite run_read_in by (done || nia). rewrite run_write_in by (done || nia).
  exists true. eexists _, _. split; [reflexivity|]. by apply new_block_stored.
Qed.

Lemma add_blocks_spec n : forall d buf ino L0 L1, bytes buf -> file_ok G d ino -> size_lo ino = Z.of_nat (length (L0 ++ L1)) * bs -> size_lo ino + bs < 2 ^ 32 ->
  blocks_of (byte_at d ino) (L0 ++ L1) -> (length L1 < n)%nat ->
  exists (ok : bool) (d' ino' : memory), run (g_len G) (add_entry_blocks meta n rec (name_length name) ent buf ino (Z.of_nat (length L0))) d = (Some (ok, ino'), d') /\ if ok then dir_changed d ino d' ino' (L0 ++ placed_blocks rec m name L1) else full G d'.
Proof.
  induction n as [|n IH]; intros d buf ino L0 L1 Bb0 FO Hs Hmax Hb Hn; [lia|]. pose proof (bs_pos G HG). pose proof (go_len _ HG). destruct L1 as [|l L1].
  - rewrite app_nil_r in *. rewrite run_add_last by (apply (block_id_to_addr_zero G); lia). by apply add_last_spec.
  - pose proof FO as [F T B Dn By]. set (i := length L0) in *. assert (Hi : (L0 ++ l :: L1) !! i = Some l) by (rewrite lookup_app_r, Nat.sub_diag by lia; done).
    rewrite length_app in Hs. cbn [length] in Hs. assert (Hlt : Z.of_nat i * bs < size_lo ino) by (fold i in Hs; nia). assert (Hv : valid_id G (Z.of_nat i)) by (apply id_valid; [done|lia|lia]).
    assert (Hne : bmap G d ino (Z.of_nat i) <> 0) by (apply Dn; lia). destruct (leaf_data G HG d ino _ T Hv Hne) as (R & _). pose proof (block_end G HG (bmap G d ino (Z.of_nat i)) ltac:(lia)).
    cbn [add_entry_blocks block_size meta_of]. rewrite run_bind, (block_id_to_addr_spec G HG) by done. replace (bmap G d ino (Z.of_nat i) * bs =? 0) with false by nia.
    rewrite run_read_in by (done || nia).
    assert (C : dir_chain (fetch d (bmap G d ino (Z.of_nat i) * bs) bs buf) 0 bs l).
    { apply (dir_chain_frame (fun x => byte_at d ino (Z.of_nat i * bs + x))); [by apply chain_block, Hb|]. intros x Hx. rewrite fetch_at by lia.
      destruct (in_part G HG (Z.of_nat i) x Hx) as [E1 E2]. unfold Ext2File.byte_at. by rewrite E1, E2. }
    assert (Bf : bytes (fetch d (bmap G d ino (Z.of_nat i) * bs) bs buf)) by (apply blit_bytes; [done|intros ?; apply F]).
    pose proof (place_entry_spec m type name Hm Hname Htype Hbytes bs (Z.to_nat bs) 0 l _ ltac:(lia) C ltac:(lia) Bf) as PS.
    cbn [placed_blocks]. destruct (placed_in rec m name l) as [l'|] eqn:Ep.
    + destruct PS as (buf' & -> & Cb & _ & Bb). rewrite run_write_in by (done || nia). exists true. eexists _, _. split; [reflexivity|].
      replace (L0 ++ l' :: L1) with (<[i := l']> (L0 ++ l :: L1)) by (unfold i; rewrite <- (Nat.add_0_r (length L0)), insert_app_r; done).
      apply (store_block d ino _ i l l'); try done. rewrite length_app. cbn [length]. lia.
    + rewrite PS. destruct (IH d _ ino (L0 ++ [l]) L1 Bf FO) as (ok & d' & ino' & E & R2).
      * rewrite <- app_assoc, length_app. cbn [length app]. lia.
      * done.
      * by rewrite <- app_assoc.
      * cbn [length] in Hn. lia.
      * exists ok, d', ino'. split; [|destruct ok; [by rewrite <- app_assoc in R2|done]]. rewrite <- E. do 2 f_equal. unfold i. rewrite length_app. cbn. lia.
Qed.
End Add.

(** ** Storing inodes of the table *)

Lemma table_file d ino ino' x n L : file_ok G d ino -> 0 < n <= g_inodes G -> bytes x -> bytes ino' -> (forall k, 4 <= k < 8 \/ 40 <= k < 100 -> ino' k = ino k) ->
  size_lo ino = Z.of_nat (length L) * bs -> blocks_of (byte_at d ino) L ->
  file_ok G (table_disk G d x n) ino' /\ size_lo ino' = Z.of_nat (length L) * bs /\ blocks_of (byte_at (table_disk G d x n) ino') L.
Proof.
  intros [F T B Dn By] Hn Bx B' E Hs Hb. pose proof (bs_pos G HG). assert (Hsl : forall k, 40 <= k < 100 -> ino' k = ino k) by (intros k Hk; apply E; lia).
  assert (Es : size_lo ino' = size_lo ino) by (apply load32_frame; intros k Hk; apply E; lia). pose proof (load32_u32 ino 4 B) as HU. fold (size_lo ino) in HU. unfold is_u32 in HU.
  split; [split|split].
  - by apply table_fs.
  - by apply (table_tree G HG d ino ino' x n).
  - done.
  - intros id H1 H2. rewrite Es in H2. rewrite (table_bmap G HG d ino) by (done || (apply id_valid; [done|done|lia])). by apply Dn.
  - intros id H1 H2. rewrite Es in H2. rewrite (table_bmap G HG d ino) by done. by apply By.
  - by rewrite Es.
  - intros i l Hi. apply (dir_chain_frame (byte_at d ino)); [by apply Hb|]. intros a Ha. apply lookup_lt_Some in Hi.
    assert (Ha2 : 0 <= a < size_lo ino) by nia. destruct (pos_split G HG a ltac:(lia)) as (Q1 & Q2 & Q3).
    apply (table_byte_at G HG d ino ino' x n); try done; [lia|by apply valid_pos; [done|lia]|]. apply Dn; [done|lia].
Qed.

(** Two inodes of the table do not overlap. *)
Lemma own_disjoint n c a : 0 < n <= g_inodes G -> 0 < c <= g_inodes G -> n <> c -> own_inode G n a -> ~ own_inode G c a.
Proof.
  intros Hn Hc N A1 A2. pose proof (table_zone G HG n Hn a A1) as Z1. rewrite (table_zone G HG c Hc a A2) in Z1. injection Z1 as Z1.
  pose proof (go_isize _ HG). pose proof (go_ipg _ HG). unfold own_inode, inode_addr in *. rewrite Z1 in *.
  pose proof (Z.div_mod (n - 1) (g_ipg G) ltac:(lia)). pose proof (Z.div_mod (c - 1) (g_ipg G) ltac:(lia)). rewrite Z1 in *.
  assert (Hr : (n - 1) mod g_ipg G < (c - 1) mod g_ipg G \/ (c - 1) mod g_ipg G < (n - 1) mod g_ipg G) by lia. nia.
Qed.

Lemma inode_fetched d n ino k : inode_on_disk G d n ino -> 0 <= k < 128 -> fetch d (inode_addr G n) 128 zeros k = ino k.
Proof. intros H Hk. rewrite fetch_at by lia. by apply H. Qed.

Lemma alien_ext d ino ino' a : tree_ok G d ino -> (forall k, 0 <= k < 128 -> ino' k = ino k) -> alien G d ino a -> alien G d ino' a.
Proof.
  intros T E (A1 & A2 & A3). split; [done|]. split; [done|]. intros Hz. destruct (A3 Hz) as (U & R & N). split; [done|]. split; [done|].
  intros s p Hp. rewrite (at_ext d ino ino') by done. by apply N.
Qed.

(** ** [ext2_add_inode_to_dir] *)

Lemma file_type_byte t : 0 <= dir_entry_file_type t < 256.
Proof. unfold dir_entry_file_type. repeat case_match; lia. Qed.

Definition valid_name (name : list Z) : Prop := 0 < Z.of_nat (length name) < 245 /\ Forall (fun c => 0 <= c < 256) name.

Record name_added (d : memory) (p : Z) (ino : memory) (L : list (list dent)) (c : Z) (name : list Z) (d' : memory) : Prop := {
  na_dir : exists ino', dir_ok d' p ino' (placed_blocks (rec_length name) c name L);
  na_links : load16 d' (inode_addr G c + 26) = u16 (load16 d (inode_addr G c + 26) + 1);
  na_child : forall k, 0 <= k < 128 -> k <> 26 -> k <> 27 -> d' (inode_addr G c + k) = d (inode_addr G c + k);
  na_frame : forall a, alien G d ino a -> ~ own_inode G p a -> ~ own_inode G c a -> d' a = d a }.

Lemma add_inode_to_dir_spec fuel d p ino L c name : dir_ok d p ino L -> 0 < c <= g_inodes G -> p <> c -> valid_name name ->
  size_lo ino + bs < 2 ^ 32 -> (length L < fuel)%nat ->
  exists (ok : bool) d', run (g_len G) (ext2_add_inode_to_dir meta now fuel p c name) d = (Some ok, d') /\
    if ok then name_added d p ino L c name d' else full G d'.
Proof.
  intros [FO Hp Od Ty Hs Hb He] Hc N [Hn1 Hn2] Hmax Hf. pose proof FO as [F T B Dn By]. pose proof (go_numbers _ HG).
  unfold ext2_add_inode_to_dir. rewrite run_read_inode by done. set (pino := fetch d (inode_addr G p) 128 zeros).
  assert (E : forall k, 0 <= k < 128 -> pino k = ino k) by (intros k Hk; by apply inode_fetched).
  assert (Bp : bytes pino) by (apply blit_bytes; [apply zeros_bytes|intros ?; apply F]).
  assert (Et : forall i, (forall k, 0 <= k < 2 -> i k = ino k) -> type_and_permissions i = type_and_permissions ino)
    by (intros i Hi; apply load16_frame; intros k Hk; apply Hi; lia).
  rewrite (Et pino) by (intros k Hk; apply E; lia). apply Z.eqb_neq in Ty as Ty'. rewrite Ty'. rewrite run_read_inode by done.
  set (child := fetch d (inode_addr G c) 128 zeros). rewrite run_bind.
  destruct (add_blocks_spec c (dir_entry_file_type (ext2_type_to_vfs (type_and_permissions child))) name ltac:(lia) Hn1 (file_type_byte _) Hn2 fuel d zeros pino [] L zeros_bytes) as (ok & d1 & ino1 & E1 & R).
  { by apply (file_ok_ext d ino). }
  { by rewrite (size_ext ino pino). }
  { by rewrite (size_ext ino pino). }
  { intros i l Hi. apply (dir_chain_frame (byte_at d ino)); [by apply Hb|]. intros a Ha. apply lookup_lt_Some in Hi. pose proof (bs_pos G HG). cbn in Hi. assert (Z.of_nat i + 1 <= Z.of_nat (length L)) by lia. apply byte_at_ext; [done|done|nia]. }
  { done. }
  lazymatch goal with |- context [run _ (add_entry_blocks ?a ?b ?c ?e ?f ?g ?h ?i) d] => replace (run (g_len G) (add_entry_blocks a b c e f g h i) d) with (Some (ok, ino1), d1) by exact (eq_sym E1) end.
  destruct ok; [|by exists false, d1]. cbn [app] in R. destruct R as [F1 S1 C1 Fr1 I1]. replace (p =? c) with false by lia.
  rewrite run_write_inode by (done || apply F1). set (ino2 := set_last_modification_time (u32 now) ino1).
  assert (B2 : bytes ino2) by (apply store32_bytes; apply F1).
  destruct (table_file d1 ino1 ino2 ino2 p _ F1 Hp B2 B2 ltac:(intros k Hk; apply store32_frame; lia) S1 C1) as (F2 & S2 & C2). fold (table_disk G d1 ino2 p). set (d2 := table_disk G d1 ino2 p) in *.
  rewrite run_write_inode by (done || apply F2). set (child2 := set_hard_links_count _ child).
  assert (Bc : bytes child2) by (apply store16_bytes, blit_bytes; [apply zeros_bytes|intros ?; apply F]).
  destruct (table_file _ ino2 ino2 child2 c _ F2 Hc Bc B2 ltac:(done) S2 C2) as (F3 & S3 & C3). fold (table_disk G d2 child2 c).
  exists true. eexists. split; [reflexivity|]. set (d3 := table_disk G d2 child2 c) in *.
  assert (Ic : forall k, 0 <= k < 128 -> d3 (inode_addr G c + k) = child2 k) by (intros k Hk; by apply (table_on_disk G d2 child2 c)).
  split.
  - assert (E2 : type_and_permissions ino2 = type_and_permissions ino).
    { apply Et. intros k Hk. unfold ino2, set_last_modification_time. rewrite store32_frame, I1 by lia. apply E. lia. }
    exists ino2. split; [done|done| |by rewrite E2|done|done|apply (placed_blocks_entries (fun e => 0 <= e <= g_inodes G)); [lia|done]]. intros k Hk. unfold d3. rewrite table_out; [by apply (table_on_disk G d1 ino2 p)|].
    apply (own_disjoint p c); try done. unfold own_inode. lia.
  - unfold load16 at 1. rewrite <- !Z.add_assoc, !Ic by lia. fold (load16 child2 26). unfold child2, set_hard_links_count. rewrite load16_store16.
    unfold hard_links_count, child. by rewrite fetch_load16 by lia.
  - intros k Hk K1 K2. rewrite Ic by done. unfold child2, set_hard_links_count. rewrite store16_frame by lia. by apply fetch_at.
  - intros a Ha O1 O2. unfold d3, d2. rewrite !table_out by done. apply Fr1. by apply (alien_ext d ino).
Qed.

(** ** [ext2_finddir] of a node without caches *)

Lemma load_dir_spec d ino N : file_ok G d ino -> size_lo ino = Z.of_nat N * bs ->
  forall n i, (i + n = N)%nat ->
  run (g_len G) (load_dir_blocks meta ino n (Z.of_nat i) (blit zeros 0 (Z.of_nat i * bs) (byte_at d ino))) d = (blit zeros 0 (size_lo ino) (byte_at d ino), d).
Proof.
  intros [F T B Dn By] Hs n. pose proof (bs_pos G HG). pose proof (go_len _ HG). pose proof (load32_u32 ino 4 B) as HU. fold (size_lo ino) in HU. unfold is_u32 in HU.
  induction n as [|n IH]; intros i Hi; cbn [load_dir_blocks].
  { rewrite run_ret, Hs. do 2 f_equal. lia. }
  assert (Hlt : Z.of_nat i + 1 <= Z.of_nat N) by lia. assert (Hv : valid_id G (Z.of_nat i)) by (apply id_valid; [done|lia|nia]).
  assert (Hne : bmap G d ino (Z.of_nat i) <> 0) by (apply Dn; nia). destruct (leaf_data G HG d ino _ T Hv Hne) as (R & _). pose proof (block_end G HG (bmap G d ino (Z.of_nat i)) ltac:(lia)).
  cbn [block_size meta_of]. rewrite run_bind, (block_id_to_addr_spec G HG) by (done || nia). replace (bmap G d ino (Z.of_nat i) * bs =? 0) with false by nia.
  rewrite (u32_small (Z.of_nat i * bs)) by nia. rewrite run_read_in by (done || nia). rewrite blit_extend; [|nia|lia|].
  - replace (Z.of_nat i * bs + bs) with (Z.of_nat (S i) * bs) by lia. replace (Z.of_nat i + 1) with (Z.of_nat (S i)) by lia. apply IH. lia.
  - intros k Hk. rewrite fetch_at by lia. destruct (in_part G HG (Z.of_nat i) k Hk) as [E1 E2]. unfold Ext2File.byte_at. by rewrite E1, E2.
Qed.

Definition fresh_node (n t len : Z) : ext2_node := mk_ext2_node n t len None None.

Definition child_node (d : memory) (c : Z) : option ext2_node :=
  if c =? 0 then None
  else Some (fresh_node c (ext2_type_to_vfs (load16 d (inode_addr G c))) (load32 d (inode_addr G c + 4))).

(** The time of access is not a part of what is read of an inode. *)
Lemma touched_frame d p c v x : 0 < p <= g_inodes G -> 0 < c <= g_inodes G -> own_inode G c x -> ~ (inode_addr G c + 8 <= x < inode_addr G c + 12) ->
  store32 d (inode_addr G p + 8) v x = d x.
Proof.
  intros Hp Hc Hx N. apply store32_frame. intros Hy. destruct (decide (p = c)) as [->|Np]; [lia|]. apply (own_disjoint p c x); try done. unfold own_inode. lia.
Qed.

Lemma finddir_spec d p ino L t len name : dir_ok d p ino L -> size_lo ino + bs < 2 ^ 32 ->
  exists x ino', run (g_len G) (ext2_finddir meta now (fresh_node p t len) name) d =
      ((child_node d (lookup_name (concat L) name), x), store32 d (inode_addr G p + 8) (u32 now)) /\
    dir_ok (store32 d (inode_addr G p + 8) (u32 now)) p ino' L.
Proof.
  intros [FO Hp Od Ty Hs Hb He] Hmax. pose proof FO as [F T B Dn By]. pose proof (go_numbers _ HG). pose proof (bs_pos G HG).
  pose proof (load32_u32 ino 4 B) as HU. fold (size_lo ino) in HU. unfold is_u32 in HU.
  unfold ext2_finddir, ext2_ensure_dir_cache. cbn [x_dir x_inode x_ino fresh_node]. rewrite run_bind, run_read_inode by done.
  set (pino := fetch d (inode_addr G p) 128 zeros).
  assert (E : forall k, 0 <= k < 128 -> pino k = ino k) by (intros k Hk; by apply inode_fetched).
  assert (Bp : bytes pino) by (apply blit_bytes; [apply zeros_bytes|intros ?; apply F]).
  rewrite (size_ext ino pino E). cbn [block_size meta_of].
  assert (Ec : (if 0 <? size_lo ino then u32 (size_lo ino + bs - 1) / bs else 0) = Z.of_nat (length L)).
  { destruct (Z.ltb_spec 0 (size_lo ino)); [|nia]. rewrite u32_small by lia. rewrite Hs. symmetry. apply (Z.div_unique _ _ _ (bs - 1)); lia. }
  rewrite Ec, Nat2Z.id. rewrite run_bind.
  assert (Z0 : zeros = blit zeros 0 0 (byte_at d pino)) by (apply functional_extensionality; intros k; by rewrite blit_out by lia).
  assert (LD : run (g_len G) (load_dir_blocks meta pino (length L) 0 zeros) d = (blit zeros 0 (size_lo pino) (byte_at d pino), d)).
  { rewrite Z0 at 1. refine (load_dir_spec d pino (length L) _ _ (length L) 0 _); [by apply (file_ok_ext d ino)|by rewrite (size_ext ino pino)|lia]. }
  rewrite LD, run_ret. unfold touch_dir. cbn [set_x_dir set_x_inode fresh_node x_cached x_inode x_dir x_ino from_option].
  rewrite run_bind, run_write_inode by done. unfold id, set_last_access_time.
  set (d1 := store32 d (inode_addr G p + 8) (u32 now)). assert (Ed : blit d (inode_addr G p) 128 (store32 pino 8 (u32 now)) = d1) by (apply write_back_store32; lia).
  rewrite Ed, run_ret. cbn [x_dir set_x_inode set_x_dir from_option].
  rewrite <- Hs, (u32_small (size_lo ino)) by done. rewrite (size_ext ino pino E).
  rewrite (find_entry_spec (Z.to_nat (size_lo ino)) _ (size_lo ino) name ltac:(lia) 0 (concat L)); [|lia| |lia].
  2:{ apply (dir_chain_frame (byte_at d ino)); [rewrite Hs; by apply chain_concat|]. intros x Hx. rewrite blit_in by lia. rewrite Z.sub_0_r. apply byte_at_ext; [done|done|lia]. }
  set (ino2 := store32 ino 8 (u32 now)). assert (B2 : bytes ino2) by by apply store32_bytes.
  destruct (table_file d ino ino2 (store32 pino 8 (u32 now)) p L FO Hp ltac:(by apply store32_bytes) B2 ltac:(intros k Hk; apply store32_frame; lia) Hs Hb) as (F2 & S2 & C2).
  unfold table_disk in F2, C2. rewrite Ed in F2, C2.
  assert (D : dir_ok d1 p ino2 L).
  { split; try done. intros k Hk. rewrite <- Ed, blit_in by lia. replace (inode_addr G p + k - inode_addr G p) with k by lia. unfold ino2.
      destruct (decide (8 <= k < 12)); [|rewrite !store32_frame by lia; by apply E]. unfold store32. rewrite !upd_cases. repeat case_decide; done || lia. }
  pose proof (lookup_entries (fun e => 0 <= e <= g_inodes G) (concat L) name ltac:(cbn beta; lia) He) as Hc. cbn beta in Hc. set (c := lookup_name (concat L) name) in *. unfold child_node.
  destruct (Z.eqb_spec c 0) as [E0|E0]; [by exists (set_x_inode (Some (store32 pino 8 (u32 now))) (set_x_dir (Some (size_lo ino, blit zeros 0 (size_lo ino) (byte_at d pino))) (set_x_inode (Some pino) (fresh_node p t len)))), ino2|].
  rewrite run_read_inode by (done || apply F2 || lia). eexists _, ino2. split; [|done]. rewrite run_ret. unfold type_and_permissions, size_lo at 1. rewrite fetch_load16, fetch_load32 by lia. rewrite Z.add_0_r.
  rewrite (load16_frame d), (load32_frame d); [reflexivity| |]; intros x Hx; apply (touched_frame d p c); try done; unfold own_inode; lia.
Qed.
End Names.
