(* ===== verification/Ext2Spec.v ===== *)
(** What the ext2 driver promises of files, blocks and directories.

    A handle implements a file that is a list of bytes: [file_step] says what a
    read and a write of such a file give, and [ext2_file_refines] that every
    sequence of [ext2_read] and [ext2_write] on a handle does just that, short
    writes only on a volume that is full.  The other theorems put the pieces
    together: what is written is read after the file is opened again, blocks that
    were allocated are free again after [ext2_truncate] and [ext2_free_block], the
    tree of pointer blocks is a map of numbers, and names that are added to a
    directory are found. *)

From S2P Require Import Prelude CMem Vfs Elf BlockIo Ext2 Ext2Alloc Ext2Tree Ext2Map Ext2File Ext2Write Ext2Trunc Ext2Dir Ext2Names.
From Stdlib Require Import ZArith Lia Bool FunctionalExtensionality.
From stdpp Require Import base tactics numbers list.
Open Scope Z_scope.

(** ** Files as lists of bytes *)

Inductive file_op := OpRead (offset size : Z) | OpWrite (offset : Z) (data : list Z).
Inductive file_result := Got (l : list Z) | Put (n : Z).

(** [new] in the place of the bytes from [o] on. *)
Definition splice (o : nat) (new c : list Z) : list Z := take o c ++ new ++ drop (o + length new) c.

(** A write behind the end is refused; any other one puts the first [n] bytes, all
    of them if there is [space]. *)
Inductive file_step (space : bool) : list Z -> file_op -> file_result -> list Z -> Prop :=
  | step_read c o s : file_step space c (OpRead o s) (Got (take (Z.to_nat s) (drop (Z.to_nat o) c))) c
  | step_refused c o data : Z.of_nat (length c) < o -> file_step space c (OpWrite o data) (Put 0) c
  | step_write c o data n : o <= Z.of_nat (length c) -> (n <= length data)%nat -> (space = true -> n = length data) ->
      file_step space c (OpWrite o data) (Put (Z.of_nat n)) (splice (Z.to_nat o) (take n data) c).

Inductive file_steps (space : bool) : list Z -> list file_op -> list file_result -> list Z -> Prop :=
  | steps_nil c : file_steps space c [] [] c
  | steps_cons c op r c' ops rs c'' : file_step space c op r c' -> file_steps space c' ops rs c'' -> file_steps space c (op :: ops) (r :: rs) c''.

Lemma file_step_weaken space c op r c' : file_step space c op r c' -> file_step false c op r c'.
Proof. destruct 1; by constructor. Qed.

Lemma file_steps_weaken space c ops rs c' : file_steps space c ops rs c' -> file_steps false c ops rs c'.
Proof. induction 1; econstructor; eauto using file_step_weaken. Qed.

Definition op_ok (op : file_op) : Prop :=
  match op with
  | OpRead o s => 0 <= o /\ 0 <= s /\ o + s < 2 ^ 32
  | OpWrite o data => 0 <= o /\ o + Z.of_nat (length data) < 2 ^ 32 /\ Forall (fun b => 0 <= b < 256) data
  end.

Definition cells (l : list Z) : memory := fun k => nth (Z.to_nat k) l 0.
Definition list_at (m : memory) (o n : Z) : list Z := (fun k => m (o + Z.of_nat k)) <$> seq 0 (Z.to_nat n).

Lemma list_at_length m o n : length (list_at m o n) = Z.to_nat n.
Proof. unfold list_at. by rewrite length_fmap, length_seq. Qed.

Lemma list_at_lookup m o n k : (k < Z.to_nat n)%nat -> list_at m o n !! k = Some (m (o + Z.of_nat k)).
Proof. intros H. unfold list_at. rewrite list_lookup_fmap. rewrite lookup_seq_lt by done. done. Qed.

Lemma cells_bytes l : Forall (fun b => 0 <= b < 256) l -> bytes (cells l).
Proof.
  intros H a. unfold cells. destruct (decide (Z.to_nat a < length l)%nat) as [L|L]; [|rewrite nth_overflow; lia].
  rewrite Forall_forall in H. apply H, list_elem_of_In, nth_In. done.
Qed.

Lemma list_at_ext m m' o o' n : (forall k, 0 <= k < n -> m (o + k) = m' (o' + k)) -> list_at m o n = list_at m' o' n.
Proof. intros H. unfold list_at. apply list_fmap_ext. intros i x Hx. apply lookup_seq in Hx. apply H. lia. Qed.

Lemma list_at_sub m len o n : 0 <= o -> take (Z.to_nat n) (drop (Z.to_nat o) (list_at m 0 len)) = list_at m o (if len <=? o then 0 else Z.min n (len - o)).
Proof.
  intros Ho. apply list_eq. intros i. destruct (decide (i < Z.to_nat (if (len <=? o)%Z then 0 else Z.min n (len - o)))%nat) as [L|L].
  - rewrite (list_at_lookup m o) by done. destruct (Z.leb_spec len o); [lia|]. rewrite lookup_take_lt, lookup_drop by lia. rewrite list_at_lookup by lia. do 2 f_equal. lia.
  - rewrite (lookup_ge_None_2 (list_at m o _)) by (rewrite list_at_length; lia). apply lookup_ge_None_2. rewrite length_take, length_drop, list_at_length.
    destruct (Z.leb_spec len o); lia.
Qed.

Lemma list_at_splice m m' len data o n : 0 <= o <= len -> (n <= length data)%nat ->
  (forall pos, 0 <= pos < Z.max len (o + Z.of_nat n) -> m' pos = if decide (o <= pos < o + Z.of_nat n) then cells data (pos - o) else m pos) ->
  list_at m' 0 (Z.max len (o + Z.of_nat n)) = splice (Z.to_nat o) (take n data) (list_at m 0 len).
Proof.
  intros Ho Hn H. unfold splice. assert (Lt : length (take n data) = n) by (rewrite length_take; lia). rewrite Lt. apply list_eq. intros i.
  assert (Lo : length (take (Z.to_nat o) (list_at m 0 len)) = Z.to_nat o) by (rewrite length_take, list_at_length; lia).
  destruct (decide (i < Z.to_nat (Z.max len (o + Z.of_nat n)))%nat) as [L|L].
  - rewrite list_at_lookup by done. rewrite H by lia. rewrite Z.add_0_l. destruct (decide (i < Z.to_nat o)%nat) as [L1|L1].
    + rewrite lookup_app_l, lookup_take_lt, list_at_lookup by lia. by rewrite decide_False by lia.
    + rewrite lookup_app_r, Lo by lia. destruct (decide (i - Z.to_nat o < n)%nat) as [L2|L2].
      * rewrite lookup_app_l, lookup_take_lt by lia. rewrite decide_True by lia. unfold cells. replace (Z.to_nat (Z.of_nat i - o)) with (i - Z.to_nat o)%nat by lia.
        symmetry. apply nth_lookup_Some_inv. lia.
      * rewrite lookup_app_r, Lt, lookup_drop, list_at_lookup by lia. rewrite decide_False by lia. do 2 f_equal. lia.
  - rewrite lookup_ge_None_2 by (rewrite list_at_length; lia). symmetry. apply lookup_ge_None_2. rewrite !length_app, Lo, Lt, length_drop, list_at_length. lia.
Qed.

Section Spec.
Context (G : geometry) (HG : geometry_ok G) (now : Z).

Abbreviation bs := (g_bs G).
Abbreviation meta := (meta_of G).

Definition content (d : memory) (f : ext2_file) : list Z := list_at (byte_at G d (f_inode f)) 0 (f_length f).

Definition exec_op (f : ext2_file) (op : file_op) : io (file_result * ext2_file) :=
  match op with
  | OpRead offset size =>
      r ← ext2_read meta now f offset size zeros;
      let '(n, out, f) := (r : Z * memory * ext2_file) in
      mret (Got (list_at out 0 n), f)
  | OpWrite offset data =>
      r ← ext2_write meta now f offset (Z.of_nat (length data)) (cells data);
      let '(n, f) := (r : Z * ext2_file) in
      mret (Put n, f)
  end.

Fixpoint exec_ops (f : ext2_file) (ops : list file_op) : io (list file_result * ext2_file) :=
  match ops with
  | [] => mret ([], f)
  | op :: ops =>
      r ← exec_op f op;
      let '(res, f) := (r : file_result * ext2_file) in
      r ← exec_ops f ops;
      let '(rs, f) := (r : list file_result * ext2_file) in
      mret (res :: rs, f)
  end.

Definition rw_handle (d : memory) (f : ext2_file) : Prop := open_file G d f /\ f_readable f = true /\ f_writeable f = true.

Lemma exec_op_spec d f op : rw_handle d f -> op_ok op ->
  exists space r f' d', run (g_len G) (exec_op f op) d = ((r, f'), d') /\ rw_handle d' f' /\ file_step space (content d f) op r (content d' f') /\
    (forall b, 0 <= b < g_blocks G -> used G d b = true -> used G d' b = true) /\ (space = false -> full G d').
Proof.
  intros (O & Hr & Hw) Hop. pose proof (size_range G d f O) as HL. destruct op as [o s|o data]; cbn [exec_op op_ok] in *.
  - destruct Hop as (H1 & H2 & H3). destruct (ext2_read_spec G HG now d f o s zeros O Hr H1 H2 H3) as (f' & d' & E & O' & L' & _ & C' & _ & _ & [R' W'] & U').
    rewrite run_bind, E. eexists true, _, f', d'. split; [reflexivity|]. split; [split; [done|by rewrite R', W']|]. split; [|split; [|done]].
    + assert (Ec : content d' f' = content d f) by (unfold content; rewrite L'; apply list_at_ext; intros k Hk; by apply C'). rewrite Ec.
      assert (Er : list_at (blit zeros 0 (available f o s) (fun k => byte_at G d (f_inode f) (o + k))) 0 (available f o s) = take (Z.to_nat s) (drop (Z.to_nat o) (content d f)));
        [|rewrite Er; constructor].
      unfold content. rewrite list_at_sub by done. fold (available f o s). apply list_at_ext. intros k Hk. rewrite blit_in by lia. f_equal. lia.
    + intros b Hb Hu. by rewrite U'.
  - destruct Hop as (H1 & H2 & H3). rewrite run_bind. destruct (Z.ltb_spec (f_length f) o) as [L|L].
    + exists true, (Put 0), f, d. split.
      * unfold ext2_write. rewrite Hw. cbn [negb]. rewrite u32_small by lia. by replace (f_length f <? o) with true by lia.
      * split; [done|]. split; [constructor; unfold content; rewrite list_at_length; lia|]. done.
    + destruct (ext2_write_spec G HG now d f o (Z.of_nat (length data)) (cells data) O Hw ltac:(lia) ltac:(lia) H2 ltac:(by apply cells_bytes)) as (n & f' & d' & E & [O' _ [R' W'] L' C' _ U'] & N).
      rewrite E. assert (Hn : 0 <= n <= Z.of_nat (length data)) by lia. exists (bool_decide (n = Z.of_nat (length data))), (Put n), f', d'. split; [done|]. split; [split; [done|by rewrite R', W']|].
      split; [|split; [done|]].
      * replace (Put n) with (Put (Z.of_nat (Z.to_nat n))) by (f_equal; lia). replace (content d' f') with (splice (Z.to_nat o) (take (Z.to_nat n) data) (content d f)).
        -- constructor; [unfold content; rewrite list_at_length; lia|lia|]. rewrite bool_decide_eq_true. lia.
        -- unfold content. rewrite L'. rewrite <- (Z2Nat.id n) at 2 by lia. symmetry. apply list_at_splice; [lia|lia|]. rewrite Z2Nat.id by lia. rewrite <- L'. exact C'.
      * rewrite bool_decide_eq_false. intros S. destruct N as [[-> _]|[_ Hf]]; done.
Qed.

(** C3: The contract of ext2 files.  A handle that is open for reading and writing
    on a well-formed volume, on a file without holes (a read stops at a hole),
    behaves as a list of bytes: every sequence of reads and writes returns, each read gives the bytes of the list, each write replaces or
    appends its bytes, and at the end the handle is well formed and has the bytes of
    the list.  A write puts fewer bytes than asked only if the volume is full. *)
Theorem ext2_file_refines ops d f : rw_handle d f -> Forall op_ok ops ->
  exists space rs f' d', run (g_len G) (exec_ops f ops) d = ((rs, f'), d') /\ rw_handle d' f' /\
    file_steps space (content d f) ops rs (content d' f') /\ (space = false -> full G d').
Proof.
  intros Hh Hops. enough (H : exists space rs f' d', run (g_len G) (exec_ops f ops) d = ((rs, f'), d') /\ rw_handle d' f' /\
    file_steps space (content d f) ops rs (content d' f') /\ (space = false -> full G d') /\ (full G d -> full G d')) by naive_solver.
  revert d f Hh Hops. induction ops as [|op ops IH]; intros d f Hh Hops.
  - exists true, [], f, d. split; [done|]. split; [done|]. split; [constructor|done].
  - apply Forall_cons in Hops as [Hop Hops]. destruct (exec_op_spec d f op Hh Hop) as (s1 & r & f1 & d1 & E1 & H1 & S1 & U1 & F1).
    destruct (IH d1 f1 H1 Hops) as (s2 & rs & f' & d' & E2 & H2 & S2 & F2 & M2).
    assert (M1 : full G d -> full G d1) by (intros Hf b Hb; apply U1; [done|by apply Hf]).
    exists (s1 && s2), (r :: rs), f', d'. split; [cbn [exec_ops]; by rewrite run_bind, E1, run_bind, E2|]. split; [done|]. split; [|split; [|auto]].
    + destruct s1, s2; cbn [andb]; econstructor; eauto using file_step_weaken, file_steps_weaken.
    + destruct s1, s2; cbn [andb]; auto.
Qed.

(** C22: Allocating a block either takes a free block of the data area, marks just
    that block and keeps all counts right, or returns 0 on a volume without free
    blocks and changes nothing.  Freeing the block makes the bitmap what it was;
    neither touches a byte outside of the bookkeeping. *)
Theorem ext2_alloc_free_roundtrip d : fs_ok G d ->
  exists r d1, run (g_len G) (ext2_alloc_block bs) d = (r, d1) /\
    (r = 0 /\ d1 = d /\ full G d \/
     0 < r < g_blocks G /\ g_zone G r = ZData /\ used G d r = false /\ marked G d r true d1 /\
     exists d2, run (g_len G) (ext2_free_block r bs) d1 = (tt, d2) /\ fs_ok G d2 /\
       (forall b, 0 <= b < g_blocks G -> used G d2 b = used G d b) /\ (forall a, 0 <= a -> ~ book G a -> d2 a = d a)).
Proof.
  intros F. destruct (alloc_block_spec G HG d F) as (r & d1 & E & [H|(Hr & Hz & Hu & M)]); exists r, d1; (split; [done|]); [by left|right].
  destruct M as [F1 U1 Fr1]. assert (Hu1 : used G d1 r = true) by (rewrite U1 by lia; by rewrite decide_True).
  destruct (free_block_spec G HG d1 r F1 ltac:(lia) Hz Hu1) as (d2 & E2 & [F2 U2 Fr2]).
  split; [done|]. split; [done|]. split; [done|]. split; [by split|]. exists d2. split; [done|]. split; [done|]. split.
  - intros b Hb. rewrite U2 by done. case_decide; [by subst|]. rewrite U1 by done. by rewrite decide_False.
  - intros a Ha Hb. rewrite Fr2 by done. by apply Fr1.
Qed.

(** C19: The tree of direct and indirect pointers of an inode is a map from block
    numbers to blocks.  Setting an unused number to a fresh block, with all pointer
    blocks that this needs, gives the map with that one entry added: afterwards
    [ext2_block_id_to_addr] finds the block at that number and at every other
    number what it found before, whatever size the file then gets.  It fails only
    on a full volume. *)
Theorem ext2_block_map_correct d ino id nb : fs_ok G d -> tree_ok G d ino -> bytes ino -> valid_id G id -> bmap G d ino id = 0 -> fresh_block G d ino nb ->
  exists ok d' ino', run (g_len G) (ext2_set_block_id ino id bs nb) d = ((ok, ino'), d') /\
    if ok then fs_ok G d' /\ tree_ok G d' ino' /\
      forall n id', valid_id G id' -> id' * bs < n < 2 ^ 32 -> id' = id \/ bmap G d ino id' <> 0 ->
        run (g_len G) (ext2_block_id_to_addr (set_size_lo n ino') id' bs) d' = ((if decide (id' = id) then nb else bmap G d ino id') * bs, d')
    else full G d'.
Proof.
  intros F T B Hid H0 Hf. destruct (set_block_id_spec G HG d ino id nb) as (ok & d' & ino' & E & S); [by split|done|]. exists ok, d', ino'. split; [done|].
  destruct ok; [|by destruct S as [_ S]]. cbn in S. pose proof (st_fs _ _ _ _ _ _ _ S) as F'. pose proof (st_tree _ _ _ _ _ _ _ S) as T'. split; [done|]. split; [done|].
  intros n id' Hid' Hn Hm. assert (A : forall s p, path_ok G s p -> at_ G d' (set_size_lo n ino') s p = at_ G d' ino' s p).
  { apply (at_same G HG); [done| |done]. apply slot_same. intros k Hk. apply store32_frame. lia. }
  destruct (locate_ok G HG id' Hid') as [Hp _]. assert (Eb : bmap G d' (set_size_lo n ino') id' = if decide (id' = id) then nb else bmap G d ino id').
  { unfold bmap at 1. rewrite A by done. by apply (st_map _ _ _ _ _ _ _ S). }
  rewrite (block_id_to_addr_spec G HG).
  - by rewrite Eb.
  - by apply (tree_ok_same G d' d' ino').
  - done.
  - unfold size_lo, set_size_lo. rewrite load32_store32, u32_small by (destruct Hid' as [? _]; pose proof (bs_pos G HG); nia). lia.
  - rewrite Eb. destruct Hf as ((Hb & _) & _). case_decide; [lia|tauto].
Qed.

(** C18: What is written to a file is on the disk: after a write that puts all its
    bytes, opening the inode again, with nothing cached, gives a well-formed handle
    whose bytes are those of the file with the data in its place, and a read
    through it gives the data. *)
Theorem ext2_write_reopen_read d f o data : rw_handle d f -> op_ok (OpWrite o data) -> o <= f_length f -> (0 < length data)%nat ->
  let size := Z.of_nat (length data) in
  exists n f' d', run (g_len G) (ext2_write meta now f o size (cells data)) d = ((n, f'), d') /\
    (0 <= n < size /\ full G d' \/
     n = size /\ exists g, run (g_len G) (ext2_open meta (f_ino f) (load32 d' (inode_addr G (f_ino f) + 4)) O_RDWR None) d' = (g, d') /\
       rw_handle d' g /\ content d' g = splice (Z.to_nat o) data (content d f) /\
       exists out g' d2, run (g_len G) (ext2_read meta now g o size zeros) d' = ((size, out, g'), d2) /\ list_at out 0 size = data).
Proof.
  intros (O & Hr & Hw) (H1 & H2 & H3) Ho Hd size. pose proof (size_range G d f O) as HL.
  destruct (ext2_write_spec G HG now d f o size (cells data) O Hw ltac:(lia) ltac:(lia) H2 ltac:(by apply cells_bytes)) as (n & f' & d' & E & [O' I' _ L' C' _ _] & N).
  exists n, f', d'. split; [done|]. destruct N as [[-> Hod]|N]; [right|by left]. split; [done|]. specialize (Hod ltac:(lia)).
  pose proof (size_range G d' f' O') as HL'. pose proof (of_ok _ _ _ O') as FO. pose proof FO as [F T B _ _].
  set (gi := fetch d' (inode_addr G (f_ino f)) 128 zeros). assert (Eg : forall k, 0 <= k < 128 -> gi k = f_inode f' k) by (intros k Hk; by apply (inode_fetched G)).
  assert (Bg : bytes gi) by (apply blit_bytes; [apply zeros_bytes|intros ?; apply F]).
  assert (El : load32 d' (inode_addr G (f_ino f) + 4) = f_length f').
  { rewrite (of_len _ _ _ O'), <- (size_ext (f_inode f') gi Eg). unfold size_lo, gi. by rewrite fetch_load32 by lia. }
  rewrite El. set (g := mk_ext2_file (f_ino f) (f_length f') true true gi (Some gi)). exists g.
  assert (Og : open_file G d' g) by (split; [by apply (file_ok_ext G HG d' (f_inode f'))|cbn; rewrite (size_ext (f_inode f') gi Eg); apply O'|apply O]).
  assert (Cg : content d' g = splice (Z.to_nat o) data (content d f)).
  { pose proof (list_at_splice (byte_at G d (f_inode f)) (byte_at G d' (f_inode f')) (f_length f) data o (length data) ltac:(lia) ltac:(lia)) as LS.
    rewrite firstn_all in LS. unfold content. cbn [g f_length f_inode]. rewrite <- LS by (fold size; rewrite <- L'; exact C'). fold size. rewrite <- L'.
    apply list_at_ext. intros k Hk. apply (byte_at_ext G HG); [done|done|lia]. }
  split; [unfold ext2_open; rewrite run_read_inode by (done || apply O); done|]. split; [done|]. split; [done|].
  destruct (ext2_read_spec G HG now d' g o size zeros Og eq_refl H1 ltac:(lia) H2) as (g' & d2 & Er & _). eexists _, g', d2.
  assert (Ea : available g o size = size) by (unfold available; cbn [g f_length]; rewrite L'; destruct (Z.leb_spec (Z.max (f_length f) (o + size)) o); lia).
  rewrite Ea in Er. split; [exact Er|]. apply list_eq. intros i. destruct (decide (i < length data)%nat) as [L|L].
  - rewrite list_at_lookup, blit_in by lia. cbn [g f_inode]. rewrite (byte_at_ext G HG d' (f_inode f')) by (done || lia). rewrite C' by lia. rewrite decide_True by lia.
    rewrite nth_lookup_Some_inv by done. unfold cells. do 2 f_equal. lia.
  - rewrite lookup_ge_None_2 by (rewrite list_at_length; lia). symmetry. apply lookup_ge_None_2. lia.
Qed.

(** C21: Truncating a file gives back just its blocks, data and pointer blocks of
    every level: a block is in use afterwards if and only if it was in use and is
    not one of the file.  The handle is well formed and empty, the inode on the disk
    is its inode, and no byte changes but the bookkeeping and that inode. *)
Theorem ext2_truncate_correct d f : open_file G d f -> 0 < f_length f ->
  exists f' d', run (g_len G) (ext2_truncate meta now f) d = ((0, f'), d') /\
    open_file G d' f' /\ content d' f' = [] /\ inode_on_disk G d' (f_ino f) (f_inode f') /\
    (forall b, 0 < b < g_blocks G ->
       used G d' b = true <-> used G d b = true /\ ~ exists s p, path_ok G s p /\ at_ G d (f_inode f) s p = b) /\
    (forall a, 0 <= a -> ~ book G a -> ~ own_inode G (f_ino f) a -> d' a = d a).
Proof.
  intros O HL. destruct (ext2_truncate_spec G HG now d f O HL) as (f' & d' & E & [O' _ L' U' Fr' D']). exists f', d'.
  split_and!; [done|done| |done|done|done]. unfold content. by rewrite L'.
Qed.

Lemma placed_blocks_length len c name L : (length (placed_blocks G len c name L) <= S (length L))%nat.
Proof. induction L as [|l L IH]; cbn [placed_blocks length]; [lia|]. case_match; cbn [length]; lia. Qed.

(** C20: A directory is a map from names to inodes, over its chain of records.
    Adding a new name for another inode makes a lookup by a node without caches
    find that inode under the name, and every other name as before; the inode gets
    one more link and is otherwise unchanged, and no other byte of the volume
    changes but those of the directory and the bookkeeping.  It fails only on a
    full volume. *)
Theorem ext2_dir_add_find fuel d p ino L c name : dir_ok G d p ino L -> 0 < c <= g_inodes G -> p <> c -> valid_name name ->
  lookup_name (concat L) name = 0 -> size_lo ino + 2 * bs < 2 ^ 32 -> (length L < fuel)%nat ->
  exists (ok : bool) d', run (g_len G) (ext2_add_inode_to_dir meta now fuel p c name) d = (Some ok, d') /\
    if ok then
      (forall t len other, exists x d2, run (g_len G) (ext2_finddir meta now (fresh_node p t len) other) d' =
         ((child_node G d' (if decide (other = name) then c else lookup_name (concat L) other), x), d2)) /\
      load16 d' (inode_addr G c + 26) = u16 (load16 d (inode_addr G c + 26) + 1) /\
      (forall k, 0 <= k < 128 -> k <> 26 -> k <> 27 -> d' (inode_addr G c + k) = d (inode_addr G c + k)) /\
      (forall a, alien G d ino a -> ~ own_inode G p a -> ~ own_inode G c a -> d' a = d a)
    else full G d'.
Proof.
  intros D Hc N Hn H0 Hmax Hf. pose proof (bs_pos G HG). pose proof (go_numbers _ HG). pose proof (dr_size _ _ _ _ _ D) as Hs.
  destruct (add_inode_to_dir_spec G HG now fuel d p ino L c name D Hc N Hn ltac:(lia) Hf) as (ok & d' & E & R). exists ok, d'. split; [done|].
  destruct ok; [|done]. destruct R as [[ino' D'] R2 R3 R4]. split; [|done]. intros t len other.
  pose proof (placed_blocks_length (rec_length name) c name L) as PL. pose proof (dr_size _ _ _ _ _ D') as Hs'.
  destruct (finddir_spec G HG now d' p ino' _ t len other D') as (x & i2 & E2 & _); [nia|]. exists x. eexists. rewrite E2. do 4 f_equal.
  destruct (lookup_blocks G (rec_length name) c name L ltac:(lia) H0) as [L1 L2]. case_decide; [by subst|by apply L2].
Qed.
End Spec.

(** ** Allocating inodes *)

Lemma write_rdonly len off n buf d {A} (f : unit -> io A) : run len (dev_write O_RDONLY off n buf ≫= f) d = run len (f tt) d.
Proof. done. Qed.

Lemma alloc_inode_groups_frame len bs groups n : forall g sb gdt bitmap d, exists r, run len (alloc_inode_groups bs groups n g sb gdt bitmap) d = (r, d).
Proof.
  induction n as [|n IH]; intros g sb gdt bitmap d; cbn [alloc_inode_groups]; [by exists 0|]. rewrite run_read by done. case_match; [apply IH|].
  rewrite run_read by done. destruct (find_from _ _ _); [|apply IH].
  rewrite !write_rdonly. destruct (u32 _ =? 0); [apply IH|by eexists].
Qed.

(** C40: [ext2_alloc_inode] opens the device for reading only, so that the bitmap
    of inodes and the counts it updates are never stored: the volume is left as it
    was, and every later call returns the same inode again. *)
Theorem ext2_alloc_inode_repeats len bs d :
  exists ino, run len (ext2_alloc_inode bs) d = (ino, d) /\
    run len (first ← ext2_alloc_inode bs; second ← ext2_alloc_inode bs; mret (first, second)) d = ((ino, ino), d).
Proof.
  assert (E : exists ino, run len (ext2_alloc_inode bs) d = (ino, d)).
  { unfold ext2_alloc_inode. rewrite run_read by done. case_match; [by eexists|]. apply alloc_inode_groups_frame. }
  destruct E as [ino E]. exists ino. split; [done|]. by rewrite run_bind, E, run_bind, E.
Qed.
