(* ===== verification/Ext2Demo.v ===== *)
(** A small ext2 volume: 16 blocks of 4 KiB in one group, 32 inodes, a root
    directory with one file of 100 bytes.  It shows that the hypotheses of the
    theorems of Ext2Spec can hold. *)

From S2P Require Import Prelude CMem Vfs Elf BlockIo Ext2 Ext2Alloc Ext2Tree Ext2Map Ext2File Ext2Write Ext2Trunc Ext2Dir Ext2Names Ext2Spec.
From Stdlib Require Import ZArith Lia Bool.
From stdpp Require Import base tactics numbers list.
Open Scope Z_scope.

(** ** Files of one block *)

Section OneBlock.
Context (G : geometry) (HG : geometry_ok G) (d ino : memory) (b : Z).
Context (F : fs_ok G d) (B : bytes ino) (Hb : data_block G d b).
Context (H0 : slot ino 0 = b) (Hs : forall s, 1 <= s < 15 -> slot ino s = 0) (Hsize : 0 < size_lo ino <= g_bs G).

Lemma one_block_at s p : path_ok G s p -> at_ G d ino s p = if decide (s = 0 /\ p = []) then b else 0.
Proof.
  intros (H1 & H2 & _). unfold at_. destruct (decide (s = 0)) as [->|N].
  - cbn in H2. destruct p; [|cbn in H2; lia]. rewrite decide_True by done. done.
  - rewrite decide_False by tauto. rewrite Hs by lia. by destruct p.
Qed.

Lemma one_block_tree : tree_ok G d ino.
Proof.
  split.
  - intros s p Hp. rewrite one_block_at by done. case_decide; [done|lia].
  - intros s p s' p' Hp Hp'. rewrite !one_block_at by done. destruct Hb as ((? & _) & _). repeat case_decide; try lia. intros _ _. naive_solver.
Qed.

Lemma one_block_bmap id : valid_id G id -> bmap G d ino id = if decide (id = 0) then b else 0.
Proof.
  intros Hid. destruct (locate_ok G HG id Hid) as [Hp _]. unfold bmap. rewrite one_block_at by done.
  assert (E : locate G 0 = (0, [])) by done. destruct (decide (id = 0)) as [->|N]; [by rewrite E|]. rewrite decide_False; [done|].
  unfold locate. destruct (Z.ltb_spec id 12); [|destruct (_ <? _); [cbn; lia|]; destruct (_ <? _); cbn; lia]. cbn. lia.
Qed.

Lemma one_block_file : file_ok G d ino.
Proof.
  pose proof (bs_pos G HG). split; [done|apply one_block_tree|done| |].
  - intros id H1 H2. assert (id = 0) as -> by nia. rewrite one_block_bmap by (apply id_valid; [done|lia|lia]). rewrite decide_True by done. destruct Hb as ((? & _) & _). lia.
  - intros id H1 H2. rewrite one_block_bmap by done. rewrite decide_False; [done|]. intros ->. lia.
Qed.
End OneBlock.

(** ** The volume *)

Definition demo_geometry : geometry :=
  mk_geometry 65536 4096 16 32768 32 32 128 (fun _ => 2) (fun _ => 3) (fun _ => 4)
    (fun b => if b =? 0 then ZSuper else if b =? 1 then ZDesc else if b =? 2 then ZBitmap 0 else if b =? 3 then ZInodeMap 0 else if b =? 4 then ZTable 0 else ZData).

Definition put32 (a v : Z) (m : memory) : memory := store32 m a v.
Definition put16 (a v : Z) (m : memory) : memory := store16 m a v.
Definition put_list (a : Z) (l : list Z) (m : memory) : memory := blit m a (Z.of_nat (length l)) (cells l).

(** The superblock, the descriptor of the group and the two bitmaps. *)
Definition demo_meta : memory :=
  put32 1024 32 (put32 1028 16 (put32 1036 9 (put32 1040 20 (put32 1048 2 (put32 1056 32768 (put32 1064 32 (put16 1080 0xEF53 (put32 1100 1 (put32 1108 11 (put16 1112 128
  (put32 4096 2 (put32 4100 3 (put32 4104 4 (put16 4108 9 (put16 4110 20
  (put_list 8192 [127] (put_list 12288 [255; 15] zeros))))))))))))))))).

(** Inode [n] with one block. *)
Definition demo_inode (n mode size links block : Z) (m : memory) : memory :=
  let a := 16384 + (n - 1) * 128 in
  put16 a mode (put32 (a + 4) size (put16 (a + 26) links (put32 (a + 40) block m))).

Definition demo_record (a ino len type : Z) (name : list Z) (m : memory) : memory :=
  put32 a ino (put16 (a + 4) len (put_list (a + 6) (Z.of_nat (length name) :: type :: name) m)).

Definition demo_data : list Z := (fun k => Z.of_nat k) <$> seq 0 100.
Definition demo_name : list Z := [97].

Definition demo_disk : memory :=
  demo_inode 2 0x41ED 4096 3 5 (demo_inode 12 0x81A4 100 1 6
  (demo_record 20480 2 12 2 [46] (demo_record 20492 2 12 2 [46; 46] (demo_record 20504 12 4072 1 demo_name
  (put_list 24576 demo_data demo_meta))))).

Lemma demo_geometry_ok : geometry_ok demo_geometry.
Proof.
  split; [by_vm|by_vm|by_vm|by_vm|by_vm|by_vm|by_vm|by_vm|by_vm| | |].
  - intros g Hg. change (g_groups demo_geometry) with 1 in Hg. replace g with 0 by lia. by_vm.
  - intros g Hg. change (g_groups demo_geometry) with 1 in Hg. replace g with 0 by lia. by_vm.
  - intros n Hn. change (g_inodes demo_geometry) with 32 in Hn. change (g_groups demo_geometry) with 1. unfold inode_addr. cbn [g_it g_ipg g_bs g_isize g_zone g_blocks demo_geometry].
    rewrite (Z.div_small (n - 1)), (Z.mod_small (n - 1)) by lia. assert (E : (4 * 4096 + (n - 1) * 128) / 4096 = 4) by dlia. rewrite E. by_vm.
Qed.

Lemma put32_bytes a v m : bytes m -> bytes (put32 a v m).
Proof. apply store32_bytes. Qed.
Lemma put16_bytes a v m : bytes m -> bytes (put16 a v m).
Proof. apply store16_bytes. Qed.
Lemma put_list_bytes a l m : Forall (fun b => 0 <= b < 256) l -> bytes m -> bytes (put_list a l m).
Proof. intros H Hm. apply blit_bytes; [done|]. by apply cells_bytes. Qed.


Lemma byte_list l : forallb (fun b => (0 <=? b) && (b <? 256)) l = true -> Forall (fun b => 0 <= b < 256) l.
Proof. rewrite forallb_forall, Forall_forall. intros H b Hb. apply list_elem_of_In in Hb. specialize (H b Hb). lia. Qed.

Lemma demo_bytes : bytes demo_disk.
Proof.
  unfold demo_disk, demo_inode, demo_record, demo_meta. cbv zeta.
  repeat first [apply put32_bytes | apply put16_bytes | apply put_list_bytes | apply zeros_bytes | apply byte_list; vm_compute; reflexivity].
Qed.

Lemma demo_fs : fs_ok demo_geometry demo_disk.
Proof.
  split; [apply demo_bytes|by_vm|by_vm|by_vm| |by_vm| |].
  - intros g Hg. change (g_groups demo_geometry) with 1 in Hg. replace g with 0 by lia. by_vm.
  - intros g Hg. change (g_groups demo_geometry) with 1 in Hg. replace g with 0 by lia. by_vm.
  - intros b Hb Hz. change (g_blocks demo_geometry) with 16 in Hb. destruct (decide (b < 5)) as [L|L].
    + assert (E : b = 0 \/ b = 1 \/ b = 2 \/ b = 3 \/ b = 4) by lia. destruct E as [->|[->|[->|[->| ->]]]]; by_vm.
    + exfalso. apply Hz. cbn [g_zone demo_geometry]. replace (b =? 0) with false by lia. replace (b =? 1) with false by lia. replace (b =? 2) with false by lia.
      replace (b =? 3) with false by lia. by replace (b =? 4) with false by lia.
Qed.

(** ** Its root directory and its file *)

Definition demo_ino (n : Z) : memory := fetch demo_disk (inode_addr demo_geometry n) 128 zeros.
Definition demo_file : ext2_file := mk_ext2_file 12 100 true true (demo_ino 12) (Some (demo_ino 12)).

Lemma demo_ino_bytes n : bytes (demo_ino n).
Proof. apply blit_bytes; [apply zeros_bytes|]. intros ?. apply demo_bytes. Qed.

Lemma demo_ino_disk n : inode_on_disk demo_geometry demo_disk n (demo_ino n).
Proof. intros k Hk. unfold demo_ino. by rewrite fetch_at by lia. Qed.

Lemma demo_slots n : forallb (fun s => slot (demo_ino n) s =? 0) (seqZ 1 14) = true -> forall s, 1 <= s < 15 -> slot (demo_ino n) s = 0.
Proof. rewrite forallb_forall. intros H s Hs. apply Z.eqb_eq, H, list_elem_of_In, elem_of_seqZ. lia. Qed.

Lemma demo_root_file : file_ok demo_geometry demo_disk (demo_ino 2).
Proof.
  apply (one_block_file demo_geometry demo_geometry_ok demo_disk (demo_ino 2) 5); [apply demo_fs|apply demo_ino_bytes|by_vm|by_vm|apply demo_slots; by_vm|by_vm].
Qed.

Lemma demo_file_ok : file_ok demo_geometry demo_disk (demo_ino 12).
Proof.
  apply (one_block_file demo_geometry demo_geometry_ok demo_disk (demo_ino 12) 6); [apply demo_fs|apply demo_ino_bytes|by_vm|by_vm|apply demo_slots; by_vm|by_vm].
Qed.

Lemma demo_handle : rw_handle demo_geometry demo_disk demo_file.
Proof. split; [|done]. split; [apply demo_file_ok|by_vm|by_vm]. Qed.

Definition demo_root : list (list dent) := [[mk_dent 2 12 [46]; mk_dent 2 12 [46; 46]; mk_dent 12 4072 demo_name]].

Lemma demo_dir : dir_ok demo_geometry demo_disk 2 (demo_ino 2) demo_root.
Proof.
  split; [apply demo_root_file|by_vm|apply demo_ino_disk|by_vm|by_vm| |repeat constructor; by_vm].
  intros [|i] l Hl; [|by destruct i]. injection Hl as <-. change (Z.of_nat 0 * g_bs demo_geometry) with 0. change (0 + g_bs demo_geometry) with 4096.
  repeat split; by_vm.
Qed.

(** ** Witnesses *)

Abbreviation G := demo_geometry.
Abbreviation HG := demo_geometry_ok.

Definition demo_append : list Z := replicate 5000 7.
Definition demo_link : list Z := [98].

Lemma demo_append_ok : op_ok (OpWrite 100 demo_append).
Proof. split; [by_vm|]. split; [by_vm|]. apply byte_list. vm_compute. reflexivity. Qed.

Lemma ext2_file_refines_witness : exists space rs f' d',
  run (g_len G) (exec_ops G 7 demo_file [OpWrite 100 demo_append; OpRead 90 20]) demo_disk = ((rs, f'), d') /\ rw_handle G d' f' /\
  file_steps space (content G demo_disk demo_file) [OpWrite 100 demo_append; OpRead 90 20] rs (content G d' f') /\ (space = false -> full G d').
Proof.
  apply (ext2_file_refines G HG 7); [apply demo_handle|]. constructor; [apply demo_append_ok|]. constructor; [by_vm|constructor].
Defined.

Lemma ext2_alloc_free_roundtrip_witness : exists r d1, run (g_len G) (ext2_alloc_block 4096) demo_disk = (r, d1) /\ (r = 0 \/ 0 < r < 16).
Proof. destruct (ext2_alloc_free_roundtrip G HG demo_disk demo_fs) as (r & d1 & E & [H|H]); exists r, d1; (split; [exact E|]); [left|right]; apply H. Defined.

(** Entry 3 of a pointer block that is not there yet. *)
Lemma ext2_block_map_correct_witness : exists ok d' ino', run (g_len G) (ext2_set_block_id (demo_ino 12) 15 4096 5) demo_disk = ((ok, ino'), d') /\
  if ok then run (g_len G) (ext2_block_id_to_addr (set_size_lo 100000 ino') 15 4096) d' = (20480, d') else full G d'.
Proof.
  assert (Hf : fresh_block G demo_disk (demo_ino 12) 5).
  { split; [by_vm|]. intros s p Hp. rewrite (one_block_at G demo_disk (demo_ino 12) 6 ltac:(by_vm) (demo_slots 12 ltac:(by_vm)) ltac:(by_vm) s p Hp). case_decide; lia. }
  destruct (ext2_block_map_correct G HG demo_disk (demo_ino 12) 15 5 demo_fs (fl_tree _ _ _ demo_file_ok) (demo_ino_bytes 12) ltac:(by_vm) ltac:(by_vm) Hf) as (ok & d' & ino' & E & S).
  exists ok, d', ino'. split; [exact E|]. destruct ok; [|exact S]. destruct S as (_ & _ & S). apply (S 100000 15); [by_vm|by_vm|by left].
Defined.

Lemma ext2_write_reopen_read_witness : exists n f' d', run (g_len G) (ext2_write (meta_of G) 7 demo_file 100 5000 (cells demo_append)) demo_disk = ((n, f'), d').
Proof.
  destruct (ext2_write_reopen_read G HG 7 demo_disk demo_file 100 demo_append demo_handle demo_append_ok ltac:(by_vm) ltac:(unfold demo_append; rewrite length_replicate; lia)) as (n & f' & d' & E & _).
  exists n, f', d'. exact E.
Defined.

Lemma ext2_truncate_correct_witness : exists f' d', run (g_len G) (ext2_truncate (meta_of G) 7 demo_file) demo_disk = ((0, f'), d') /\ content G d' f' = [].
Proof.
  destruct (ext2_truncate_correct G HG 7 demo_disk demo_file ltac:(apply demo_handle) ltac:(by_vm)) as (f' & d' & E & _ & C & _). exists f', d'. split; [exact E|exact C].
Defined.

(** A second name for the file. *)
Lemma ext2_dir_add_find_witness : exists (ok : bool) d', run (g_len G) (ext2_add_inode_to_dir (meta_of G) 7 2 2 12 demo_link) demo_disk = (Some ok, d') /\
  if ok then exists x d2, run (g_len G) (ext2_finddir (meta_of G) 7 (fresh_node 2 VFS_TYPE_DIRECTORY 0) demo_link) d' = ((child_node G d' 12, x), d2) else full G d'.
Proof.
  assert (Hn : valid_name demo_link) by (split; [by_vm|apply byte_list; by_vm]).
  destruct (ext2_dir_add_find G HG 7 2 demo_disk 2 (demo_ino 2) demo_root 12 demo_link demo_dir ltac:(by_vm) ltac:(lia) Hn ltac:(by_vm) ltac:(by_vm) ltac:(cbn; lia)) as (ok & d' & E & R).
  exists ok, d'. split; [exact E|]. destruct ok; [|exact R]. destruct R as (R & _). apply (R VFS_TYPE_DIRECTORY 0 demo_link).
Defined.

(** ** What goes wrong *)

(** A read stores the inode as the handle knows it.  Two handles of a file of 100
    bytes: the first one appends 10 bytes, the size on the disk is then 110; a read
    of one byte through the other handle makes it 100 again, and the bytes that
    were appended are lost. *)
Theorem ext2_read_reverts_append :
  let size d := load32 d (inode_addr G 12 + 4) in
  let '((n, _), d1) := run (g_len G) (ext2_write (meta_of G) 7 demo_file 100 10 (cells demo_append)) demo_disk in
  let '((k, _, _), d2) := run (g_len G) (ext2_read (meta_of G) 8 demo_file 0 1 zeros) d1 in
  n = 10 /\ k = 1 /\ size demo_disk = 100 /\ size d1 = 110 /\ size d2 = 100.
Proof. vm_compute. repeat split. Qed.

(** A write changes the inode of its handle and the length of the node, but not
    the inode that the node has cached, which the next open copies.  After 5000
    bytes were appended to the file of 100 bytes, a handle that is opened through
    the node has the new length and the old inode, and a read of the whole file
    stops after 4096 of its 5100 bytes. *)
Theorem ext2_reopen_cached_stale :
  let '((n, f), d1) := run (g_len G) (ext2_write (meta_of G) 7 demo_file 100 5000 (cells demo_append)) demo_disk in
  let '(g, d2) := run (g_len G) (ext2_open (meta_of G) 12 (f_length f) O_RDWR (f_node_inode f)) d1 in
  let '((k, _, _), _) := run (g_len G) (ext2_read (meta_of G) 8 g 0 5100 zeros) d2 in
  n = 5000 /\ f_length g = 5100 /\ k = 4096.
Proof. vm_compute. repeat split. Qed.

(** [ext2_finddir] gives a node without a cached inode, and [ext2_stat] uses the
    cached inode without a test: [stat] of any path that was just looked up
    dereferences a null pointer. *)
Theorem ext2_stat_of_found_node len m now x name child x' d d' :
  run len (ext2_finddir m now x name) d = ((Some child, x'), d') -> ext2_stat m child = None.
Proof.
  unfold ext2_finddir. rewrite run_bind. destruct (run len (ext2_ensure_dir_cache m x) d) as [x1 d1]. rewrite run_bind. destruct (run len (touch_dir m now x1) d1) as [x2 d2].
  destruct (from_option id (0, zeros) (x_dir x2)) as [size dir]. destruct (_ =? 0); [done|]. rewrite run_bind. destruct (run len (ext2_read_inode _ _ _) d2) as [c d3].
  intros E. injection E as <- _ _. done.
Qed.

Lemma ext2_stat_of_found_node_witness : exists x d', run (g_len G) (ext2_finddir (meta_of G) 7 (fresh_node 2 VFS_TYPE_DIRECTORY 0) demo_name) demo_disk = ((child_node G demo_disk 12, x), d') /\
  ext2_stat (meta_of G) (fresh_node 12 VFS_TYPE_FILE 100) = None.
Proof.
  destruct (finddir_spec G HG 7 demo_disk 2 (demo_ino 2) demo_root VFS_TYPE_DIRECTORY 0 demo_name demo_dir ltac:(by_vm)) as (x & i & E & _).
  eexists x, _. split; [exact E|]. apply (ext2_stat_of_found_node (g_len G) (meta_of G) 7 _ demo_name (fresh_node 12 VFS_TYPE_FILE 100) x demo_disk _ E).
Defined.
